(* ===== verification/_CoqProject ===== *)
-Q . S2P
Prelude.v
KList.v
KMem.v
KState.v
Rsrc.v
Sched.v
Sem.v
Port.v
Aspace.v
Task.v
Syscall.v
Boot.v
KInv.v
KSafe.v
KCheck.v
Kernel.v
IPC.v
Fair.v
VMInv.v
VM.v
LibC.v
Vt100.v
Hash.v
Snprintf.v
Console.v
VtFrame.v
ConsoleProof.v
ConsoleRun.v
Path.v
Qsem.v
Qsort.v
Getopt.v
Vfs.v
VfsInv.v
VfsSafe.v
VfsFile.v
BootMaker.v
BootImage.v
Dl.v
DlProof.v
Bytes.v
NetBoot.v
NetBootInv.v
NetRx.v
NetKeys.v
NetLoad.v
Ffs.v
FfsDisk.v
FfsRead.v
FfsDir.v
Ic.v
IcProof.v
Region.v
RegionProof.v
RegionOps.v
Line.v
Win.v
WinProof.v
WinRun.v
WinSafe.v
Pixels.v
PixelsProof.v
Pointer.v
WinScreen.v
Wm.v
LibWin.v
WmProof.v
Msg.v
MsgProof.v
Namer.v
NamerProof.v
Mouse.v
Nic.v
NicProof.v
NicSend.v
Disk.v
Fdl.v
Events.v
Net.v
NetProof.v
