(* ===== verification/Prelude.v ===== *)
(** * OpenBLT: a verification library

  OpenBLT is a small message-passing operating system for the i386: a kernel that
  offers threads, semaphores, ports and memory areas as identified resources, and
  programs that run on it, a C library among them, a console server with a VT100
  emulator, and a file-system server. This library models the C sources and proves
  what makes them work. Definitions are translations of the C functions, named as
  they are, and all of them can be executed.

  ** How C is modelled

  This file holds what the components share. Machine integers are [Z], cut down to
  their width by [u32], [s32], [u16] and [u8] where the code computes at that width.
  A computation yields a [cres]: [Ok] with its result, [Panic] for a call of the
  kernel's panic, [Fault] for undefined behaviour (a null or freed pointer, an index
  out of range). Arrays are lists with the partial accesses [aget] and [aset]. Loops
  that are not bounded by a count run on fuel, and running out of it is a [Fault]; so
  every theorem that states [Ok] also states that the loop ends. The fuel is what
  bounds the loop in the code: the length of a block or of a queue, plus one, or the
  number of elements to sort, or the number of letters to parse.

  ** The kernel (src/kernel)

  - KList: list.c, doubly linked lists in a heap of nodes. C1: every sequence of list
    calls behaves as the same calls on a mathematical sequence.
  - KMem: memory.c, physical pages, kernel virtual pages and the pools of kmalloc. C2
    and kfreeB_recycles: blocks handed out are disjoint and come back; memory_init_ok: memory_init builds a well
    formed allocator; on some memory layouts it writes beyond its page list
    (memory_init_overflow).
  - KState: the state of the rest of the kernel as one record [kst], and the monad in
    which its code is written: objects live in finite maps indexed by their address, and
    a freed object is absent. A thread that waits inside a system call keeps a
    continuation [kont], and context_switch is the change of [k_current].
  - Rsrc, Sched, Sem, Port, Aspace, Task, Syscall, Boot: resource.c and rights.c; the
    scheduler of kernel.c, task.c, fault.c, i386.c and syscall.c; sem.c; port.c;
    aspace.c; task and team life; the system-call dispatcher; and the start of the system
    (kmain, init_kspace and go_kernel of kernel.c) with a small example system that is
    booted by computation.
  - KInv, KSafe, KCheck: the kernel invariant [kinv], a weakest-precondition calculus
    [wp] for the monad, the specification of each call, and a decision procedure that
    shows that the example system satisfies the invariant after its start.
  - Kernel: the kernel as a transition system; its events are the system calls other than
    brk, the area calls, thr_create and thr_spawn, the way back into a call that waited,
    timer ticks and interrupts. C6: every event keeps the invariant and is free of undefined
    behaviour, but for six listed hazards, where the code goes wrong; in the states these
    events reach, C7: no task is lost or queued twice; C8: identifiers find their resources.
    port_recv_stray_pointer, port_recv_use_after_free and terminate_after_reaper_gone reach
    three of the hazards.
  - IPC: C9 and C10, sem_acquire and sem_release refine a counting semaphore with a
    queue; C11, a message that is sent is received, byte for byte, by whoever asks: the
    checks of doc/ipcdocs are disabled in the source.
  - Fair: C35, round robin: a ready task runs after as many ticks as there are tasks
    ahead of it, plus one, when the tasks compute or return from calls they were woken from.
  - VMInv, VM: page tables and physical pages. locate_span_first_fit: what
    locate_span finds; C37: after
    any area_create, area_clone, area_resize and area_destroy, but for three kinds of calls that
    [vm_enabled] leaves out, page tables map exactly the pages of disjoint areas, and no page is
    free or in two groups at once; C38, one of these: area_create overruns the page table when a
    span is cut off by its end.

  ** The C library and the servers

  - LibC: src/lib/libc/string.c, strlcpy.c, strlcat.c, stdlib.c, ctype.c, the string
    length of strlen.S, the comparison of strcmp.S and sbrk of memory.c, on blocks of
    bytes (memmove_ok, sbrk_backed; strlcpy_ok: the contract of strlcpy).
  - Qsort: src/lib/libc/qsort.c. C34: it sorts, ends and stays inside the array.
  - Snprintf: src/lib/libc/snprintf.c. C27: how many bytes it writes;
    print_parse_int: atoi reads back what %d prints.
  - Qsem: src/lib/libc/qsem.c, as atomic actions of any number of threads over the
    interface [Ksem], which the kernel semaphores implement. C33: at most n threads are
    inside, under every interleaving, and no wake-up is lost.
  - Getopt: src/lib/libposix/getopt.c. C39: the calls together parse the argument vector
    as a parser of the whole vector does.
  - Dl, DlProof: src/lib/libdl: elf.c, sym.c and load.c, the dynamic loader, on a memory of
    bytes. C25: relocation gives each word the value of the ELF specification, but for
    relocations without a symbol, which take the one before, and fails exactly when a symbol is
    undefined.
  - Hash: src/lib/libblt/hash.c. C26: the table is a finite map.
  - Vt100: src/srv/console2/vt100.c. C22: no stream of bytes makes the emulator leave its
    screen, unless it sets an empty scroll region; line_feed_scrolls and put_text: scrolling
    and text.
  - Console: src/srv/console2/console.c, the server around the emulator: ten consoles and a
    status bar on one display, a thread for the keyboard and one for output, interleaved at
    the locks of the screens and the accesses to shared variables ([step]).
  - VtFrame, ConsoleProof, ConsoleRun: the emulator does not depend on which console is
    active; the invariant of the threads. C16: each console is a terminal of its own and the
    display shows the active one; console_never_fails: no step fails.
  - Path: src/srv/vfs/path.c. C30: paths are resolved, and which ones run beyond their end;
    path_combine_resolves.
  - Vfs: the file-system server, src/srv/vfs: the mount table (fs.c, super.c), vnodes
    (vnode.c), the root and boot file systems (rootfs.c, bootfs.c), listings in shared
    memory (shm.c) and the requests of vfs.c. Its heap is one record [vst] of finite maps
    from addresses to structures, and [serve] is one turn of the loop of vfs_main.
  - VfsInv, VfsSafe: the invariant of that heap, a calculus [vwp] for the code, and the
    specification of each request. C40: no request of a client that keeps to the protocol
    makes the server fault or touch another client's descriptors.
  - VfsFile: the other side, src/lib/libposix/vfs.c, with the two composed. C14: a file of
    the boot area is read back byte for byte, with any requests of others in between;
    mkdir_then_listed: a directory that was made is listed.

  - Ffs: a driver of that server, src/srv/vfs/drivers/ffs (super.c, inode.c, dir.c, file.c),
    which reads the file system of BSD, with the reading of blocks of src/lib/libblt/blkdev.c.
  - FfsDisk: that file system as it is on the disk, apart from the driver: the numbers in a
    block, the place of an inode, the blocks of a file.
  - FfsRead: C12, which reads deliver the bytes of the file, and which run out of a buffer.
  - FfsDir: C24, paths lead where they lead in the tree on the disk, unless a free entry still
    carries a name, and no vnode is left over; C23, which entries of a directory are listed.
  - Bytes: copies between blocks of bytes, for the drivers and the network boot.

  ** The window server (src/srv/window)

  - Region: Rect.h and Region.cpp, regions as arrays of disjoint rectangles.
  - RegionProof, RegionOps: their meaning as sets of points. C15: Exclude, with the pieces
    it loses; C21: the other operations.
  - Win: Window.cpp and GraphicsContext.cpp, the tree of windows in a heap of records that
    point at each other, clipping, invalidation and drawing; calls of the renderer are a log.
  - WinProof, WinRun: UpdateClipRegion lays out the tree below a window, whatever the regions
    were; each operation keeps the invariant [wok].
  - Line: the clipping of lines, with a proof that its loop ends.
  - WinSafe: C29, windows never draw on each other.
  - Pixels: Renderer_8bpp.cpp and Renderer_vga.cpp, drawing on a frame buffer of bytes, and
    the mouse pointer.
  - PixelsProof, Pointer: what each operation paints. C3: the pointer floats above the
    picture, and moving it restores what was below, but for pixels of colour 255.
  - WinScreen: the two composed. C36: a program that draws in its window changes exactly the
    pixels of that window, with the same exception below the pointer.
  - Wm: WindowManager.cpp and protocol.h, the table of windows and the thread that takes
    requests: it reads bytes from the messages of its port ([inp]) in a monad whose
    computations may wait ([Waits]).
  - LibWin: the programs' side, src/lib/libwin (Connection.cpp, Canvas.cpp, Window.cpp): calls of
    a canvas become bytes that are sent in messages.
  - WmProof: the two composed. C31: what a program calls is what the server does, in order,
    and the reply comes back, unless it has drawn a string.
  - Mouse: SerialMouse.cpp and the mouse thread of WindowManager.cpp. packet_read: the packets of
    the mouse; mouse_events: as long as no program locks the mouse, the events say where it is.
  - Events: events in the program, src/lib/libwin (Window.cpp, Canvas.cpp, Button.cpp).
    events_delivered: each canvas gets its events, in order; button_invoked: what a click is;
    window_closed.

  ** Messages and names

  - Msg: src/lib/libblt/Message.cpp, messages of named fields in one block of bytes.
  - MsgProof: C4, the fields that were put are the fields that are got after a transfer, but
    for an empty one at the end, and which ones overrun the block.
  - Namer: src/srv/namer/namer.cpp, and src/lib/libblt/namer.cpp and Connection.cpp, through
    which programs reach it; the ports between them are those of the kernel (C11).
  - NamerProof: C20, for programs the service is one directory of names of at most 71
    characters; longer ones overrun the message.

  ** Disks, descriptors and the network server

  - Disk: src/lib/libblt/disk.c. C18: the partitions and slices that are on a disk are
    listed, and the array has room for exactly them.
  - Fdl: src/lib/libposix/fdl.c. fdl_refines: the table of descriptors is a finite map.
  - Net: src/srv/network: mbuf.c, the input of protocol/eth/eth.c, protocol/arp/arp.c and
    device/ne/wrap.c, with the places where its pointers leave a buffer.
  - NetProof: net_serves: the requests it answers, as long as it has buffers; net_runs_dry: that
    is for sixteen frames at most.

  ** The boot image tool

  - BootMaker: src/util/bootmaker.c, which runs on the host: the parser of ini files on its
    buffer, the printer, the directory and the objects of the image, and main.
    print_load_roundtrip: the parser reads back what the printer prints.
  - BootImage: the tool composed with the server and the library. C28: a program reads
    from /boot exactly the files that the ini file names.

  ** The interface compiler

  - Ic: src/util/ic.c, which makes C code of interface files: the scanner, the parser and
    the code, in a monad whose steps may end the program.
  - IcProof: C17, however an interface is laid out, the code printed is that of it; a file
    with blanks behind its last token is read beyond its end.

  ** The network boot

  - NetBoot: src/netboot/netboot.c, the loader that waits for an image from the network, and
    src/util/netboot.c, the program that sends it. Packets are blocks of bytes at the offsets
    of the packed structures; what leaves the loader is a list of [event]s.
  - NetBootInv, NetRx: the Internet checksum and the handlers. C19: no frame of at most 1500
    bytes makes a handler leave a buffer, and replies have a valid checksum.
  - NetKeys: the console of the loader. console_in_bounds: no sequence of keys makes it leave
    a buffer.
  - NetLoad: both programs over a network that loses, repeats, delays and reorders packets
    and carries other traffic, as a step relation on worlds. C5: an image is started only
    when the whole file is in memory; C13: blocks that are lost are sent again, until the
    file is there and EXEC is sent, once.
  - Nic: src/netboot/ne2000.c, the driver of the network card, in a monad over the state of a
    card, which is a parameter ([device]): what its ports do.
  - NicProof, NicSend: a card that can be run (Module NicCard), for the witnesses; the
    driver on any card that behaves as the data sheet says ([Dp8390], [Dp8390Tx]). nic_rx_delivers: while the wire is quiet and notify does not use the driver,
    every packet in the ring is delivered, byte for byte and in order; C32: packets go out as
    NetBoot assumes when the card is not transmitting, and are refused when it is.
    rx_loop_stuck: a damaged header stops the loop for ever.

  ** What is idealised

  In the model of the kernel, kmalloc gives out a new address each time and does not use
  up the pages of KMem; lists of the kernel are sequences, as C1 justifies; the kernel
  runs with interrupts off, so a system call or interrupt is one step. A value that the C
  code leaves undefined (the result of rsrc_queue_peek on an empty queue) is an argument.
  The code that a library contains, the files and the addresses that the kernel and malloc
  choose are arguments of the dynamic loader. In the network boot other traffic contains no
  command for the loader, and the file has at most 64 MB, since a block has a number of 16
  bits; the driver delivers frames as they are and sends at once,
  which nic_rx_delivers and C32 justify for a card that is not busy.
  In the console server a critical section of one screen is one step; since the cursor
  registers have no lock of their own, nothing is claimed about them. Its memory is there
  (malloc does not fail), and its theorems are about the time before the output thread
  gives up its port.
  In the window server realloc may move an array or not: an argument says which, and the
  theorems say what fails when it does. C29 is about windows that are added once:
  RemoveChild and MoveToFront, which damage the lists (see Win), are modelled but not among
  its operations.
  The comparison function of qsort is an argument that satisfies [Comparator], with
  integers as an instance. max_load of a hash table is an exact fraction. In the
  file-system server malloc gives out a new address each time and leaves the fields of
  the structure undefined, a table of functions is named by the driver it belongs to, and
  a request comes with what the kernel tells about it (the sender, the area that was
  cloned), which C11 and C37 justify. The boot area of C28 is the image that the tool wrote,
  as the boot loader leaves it in memory.

  ** What is not modelled

  Hardware access (descriptor tables, port I/O, SMP start-up, device drivers other than the
  one of the network boot, and the boot loader of the disk), assembly other than strlen, the page-fault server, tracing and the debugger;
  the vendored malloc.c; the pointer lock of the window server and its graphics registers; the message loops of the other servers,
  the command thread of vfs (vfs_tell, which loads drivers), the commands of the network server. Theorems on thread creation and os_brk
  are missing, and on the reaper: they are modelled, but not covered by C6, C7 and C8. *)
From Stdlib Require Export ZArith Lia.
From stdpp Require Export base strings numbers gmap list.

Declare Scope c_scope.
Delimit Scope c_scope with c.
Local Open Scope Z_scope.

(** ** Machine integers *)

(** Conversion to a 32-bit unsigned integer (wrap-around). *)
Definition u32 (x : Z) : Z := x mod 2 ^ 32.

(** Conversion to a 32-bit two's complement integer. *)
Definition s32 (x : Z) : Z := (x + 2 ^ 31) mod 2 ^ 32 - 2 ^ 31.

(** Conversion to a byte. *)
Definition u8 (x : Z) : Z := x mod 2 ^ 8.

(** Conversion to a 16-bit unsigned integer. *)
Definition u16 (x : Z) : Z := x mod 2 ^ 16.

Lemma u32_range x : 0 <= u32 x < 2 ^ 32.
Proof. apply Z.mod_pos_bound. lia. Qed.

Lemma u32_small x : 0 <= x < 2 ^ 32 -> u32 x = x.
Proof. apply Z.mod_small. Qed.

Lemma u32_idemp x : u32 (u32 x) = u32 x.
Proof. apply u32_small, u32_range. Qed.

Lemma s32_range x : - 2 ^ 31 <= s32 x < 2 ^ 31.
Proof. unfold s32. pose proof (Z.mod_pos_bound (x + 2 ^ 31) (2 ^ 32)). lia. Qed.

Lemma s32_small x : - 2 ^ 31 <= x < 2 ^ 31 -> s32 x = x.
Proof. intros. unfold s32. rewrite Z.mod_small; lia. Qed.

Lemma u32_s32 x : u32 (s32 x) = u32 x.
Proof.
  unfold u32, s32. rewrite Zminus_mod_idemp_l. f_equal. lia.
Qed.

(** Wrapping twice is wrapping once. *)
Lemma s32_cong x y : x mod 2 ^ 32 = y mod 2 ^ 32 -> s32 x = s32 y.
Proof.
  intros H. unfold s32. f_equal. rewrite <- (Zplus_mod_idemp_l x), <- (Zplus_mod_idemp_l y). by rewrite H.
Qed.

Lemma s32_mod x : s32 x mod 2 ^ 32 = x mod 2 ^ 32.
Proof. apply u32_s32. Qed.

Lemma s32_add_l x y : s32 (s32 x + y) = s32 (x + y).
Proof. apply s32_cong. by rewrite <- Zplus_mod_idemp_l, s32_mod, Zplus_mod_idemp_l. Qed.

Lemma s32_add_r x y : s32 (x + s32 y) = s32 (x + y).
Proof. rewrite Z.add_comm, s32_add_l. f_equal. lia. Qed.

Lemma s32_mul_l x y : s32 (s32 x * y) = s32 (x * y).
Proof. apply s32_cong. by rewrite <- Zmult_mod_idemp_l, s32_mod, Zmult_mod_idemp_l. Qed.

Lemma u8_range x : 0 <= u8 x < 256.
Proof. apply Z.mod_pos_bound. lia. Qed.

Lemma u8_small x : 0 <= x < 256 -> u8 x = x.
Proof. apply Z.mod_small. Qed.

Lemma u16_range x : 0 <= u16 x < 65536.
Proof. apply Z.mod_pos_bound. lia. Qed.

Lemma u16_small x : 0 <= x < 65536 -> u16 x = x.
Proof. apply Z.mod_small. Qed.

(** ** Error codes of include/blt/error.h *)
Definition ERR_NONE : Z := 0.
Definition ERR_PERMISSION : Z := -1.
Definition ERR_RESOURCE : Z := -2.
Definition ERR_MEMORY : Z := -3.
Definition ERR_SENDPORT : Z := -4.
Definition ERR_RECVPORT : Z := -5.
Definition ERR_WOULD_BLOCK : Z := -6.
Definition ERR_SEGV : Z := -7.

(** ** Outcomes of C code

  [Ok] is a normal return, [Panic] a call of kernel/kernel.c:panic (which
  never returns), [Fault] an access through a null, freed or out-of-range
  pointer, i.e. undefined behaviour of the C program. *)
Inductive cres (A : Type) : Type :=
| Ok (a : A)
| Panic (why : string)
| Fault.
Arguments Ok {A} a.
Arguments Panic {A} why.
Arguments Fault {A}.

Definition cbind {A B} (m : cres A) (k : A -> cres B) : cres B :=
  match m with Ok a => k a | Panic w => Panic w | Fault => Fault end.

(** A dereference: a missing object is a fault. *)
Definition deref {A} (o : option A) : cres A :=
  match o with Some a => Ok a | None => Fault end.

Notation "'let!' x ':=' m 'in' k" := (cbind m (fun x => k))
  (at level 10, x pattern, m at level 100, k at level 200) : c_scope.
Notation "'let?' x ':=' m 'in' k" := (cbind (deref m) (fun x => k))
  (at level 10, x pattern, m at level 100, k at level 200) : c_scope.

Lemma cbind_Ok {A B} (m : cres A) (k : A -> cres B) b :
  cbind m k = Ok b <-> exists a, m = Ok a /\ k a = Ok b.
Proof.
  destruct m as [a| |]; simpl; split; try (intros; discriminate); eauto.
  - by intros (a' & [= ->] & H).
  - by intros (a' & H & _).
  - by intros (a' & H & _).
Qed.

Lemma deref_Ok {A} (o : option A) a : deref o = Ok a <-> o = Some a.
Proof. destruct o; simpl; split; congruence. Qed.

(** ** Arrays: lists indexed by integers; out of range is not silently ignored *)
Definition aget {A} (l : list A) (i : Z) : option A :=
  if decide (0 <= i) then l !! Z.to_nat i else None.

Definition aset {A} (l : list A) (i : Z) (x : A) : option (list A) :=
  if decide (0 <= i < Z.of_nat (length l)) then Some (<[Z.to_nat i := x]> l) else None.

Lemma aget_Some {A} (l : list A) i x :
  aget l i = Some x -> 0 <= i < Z.of_nat (length l) /\ l !! Z.to_nat i = Some x.
Proof.
  unfold aget. case_decide as Hi; [|done]. intros H. split; [|done].
  apply lookup_lt_Some in H. lia.
Qed.

Lemma aget_in_range {A} (l : list A) i :
  0 <= i < Z.of_nat (length l) -> exists x, aget l i = Some x.
Proof.
  intros Hi. unfold aget. rewrite decide_True by lia.
  destruct (lookup_lt_is_Some_2 l (Z.to_nat i)) as [x Hx]; [lia|eauto].
Qed.

Lemma aget_None {A} (l : list A) i :
  aget l i = None <-> i < 0 \/ Z.of_nat (length l) <= i.
Proof.
  unfold aget. case_decide as Hi.
  - rewrite lookup_ge_None. lia.
  - split; [lia|done].
Qed.

Lemma aset_Some {A} (l l' : list A) i x :
  aset l i x = Some l' -> 0 <= i < Z.of_nat (length l) /\ l' = <[Z.to_nat i := x]> l.
Proof. unfold aset. case_decide; [|done]. intros [= <-]. done. Qed.

Lemma aset_in_range {A} (l : list A) i x :
  0 <= i < Z.of_nat (length l) -> aset l i x = Some (<[Z.to_nat i := x]> l).
Proof. intros. unfold aset. by rewrite decide_True. Qed.

Lemma aset_length {A} (l l' : list A) i x : aset l i x = Some l' -> length l' = length l.
Proof. intros [_ ->]%aset_Some. apply length_insert. Qed.

Lemma aget_insert_eq {A} (l : list A) i x :
  0 <= i < Z.of_nat (length l) -> aget (<[Z.to_nat i := x]> l) i = Some x.
Proof.
  intros. unfold aget. rewrite decide_True by lia. apply list_lookup_insert_eq. lia.
Qed.

Lemma aget_insert_ne {A} (l : list A) i j x :
  0 <= i -> i <> j -> aget (<[Z.to_nat i := x]> l) j = aget l j.
Proof.
  intros. unfold aget. case_decide; [|done]. apply list_lookup_insert_ne. lia.
Qed.

Lemma aget_aset_eq {A} (l l' : list A) i x : aset l i x = Some l' -> aget l' i = Some x.
Proof. intros [? ->]%aset_Some. by apply aget_insert_eq. Qed.

Lemma aget_aset_ne {A} (l l' : list A) i j x :
  aset l i x = Some l' -> i <> j -> aget l' j = aget l j.
Proof. intros [? ->]%aset_Some ?. apply aget_insert_ne; lia. Qed.

(** A C string literal, without its terminator. *)
Definition cstr (s : string) : list Z := map (fun a => Z.of_N (Ascii.N_of_ascii a)) (String.list_ascii_of_string s).

(** ** Truth of C conditions *)
Definition ctrue (b : bool) : Z := if b then 1 else 0.

(** ** Generic lemmas on lists *)
Lemma NoDup_snoc {A} (l : list A) x : NoDup (l ++ [x]) <-> x ∉ l /\ NoDup l.
Proof.
  rewrite NoDup_app. rewrite NoDup_cons, NoDup_nil. set_solver.
Qed.

(** First-occurrence removal, what a C loop that unlinks the first match does. *)
Fixpoint remove1 {A} `{EqDecision A} (x : A) (l : list A) : list A :=
  match l with
  | [] => []
  | y :: l' => if decide (y = x) then l' else y :: remove1 x l'
  end.

Section remove1.
Context {A : Type} `{EqDecision A}.
Implicit Types (x y : A) (l : list A).

Lemma remove1_notin x l : x ∉ l -> remove1 x l = l.
Proof.
  induction l as [|y l IH]; simpl; [done|]. intros Hx.
  rewrite decide_False by set_solver. f_equal. apply IH. set_solver.
Qed.

Lemma remove1_subset x y l : y ∈ remove1 x l -> y ∈ l.
Proof.
  induction l as [|z l IH]; simpl; [done|]. case_decide; set_solver.
Qed.

Lemma remove1_other x y l : y <> x -> y ∈ remove1 x l <-> y ∈ l.
Proof.
  intros Hne. induction l as [|z l IH]; simpl; [done|]. case_decide; set_solver.
Qed.

Lemma remove1_NoDup x l : NoDup l -> NoDup (remove1 x l).
Proof.
  induction 1 as [|y l Hy Hl IH]; simpl; [constructor|]. case_decide; [done|].
  constructor; [|done]. intros Hin%remove1_subset. done.
Qed.

Lemma remove1_NoDup_notin x l : NoDup l -> x ∉ remove1 x l.
Proof.
  induction 1 as [|y l Hy Hl IH]; simpl; [set_solver|]. case_decide; set_solver.
Qed.

Lemma remove1_split x l1 l2 : x ∉ l1 -> remove1 x (l1 ++ x :: l2) = l1 ++ l2.
Proof.
  induction l1 as [|y l1 IH]; simpl; intros Hx.
  - by rewrite decide_True.
  - rewrite decide_False by set_solver. rewrite IH; set_solver.
Qed.

Lemma elem_of_first_split x l : x ∈ l -> exists l1 l2, l = l1 ++ x :: l2 /\ x ∉ l1.
Proof.
  induction l as [|y l IH]; [set_solver|].
  destruct (decide (y = x)) as [->|Hne].
  - intros _. exists [], l. set_solver.
  - intros Hx. destruct IH as (l1 & l2 & -> & H1); [set_solver|].
    exists (y :: l1), l2. set_solver.
Qed.

Lemma remove1_length x l : x ∈ l -> length l = S (length (remove1 x l)).
Proof.
  intros (l1 & l2 & -> & H)%elem_of_first_split.
  rewrite remove1_split by done. rewrite !length_app. simpl. lia.
Qed.
End remove1.

(** ** Automation shared by the components *)
Create HintDb blt.
Create Rewrite HintDb blt.
#[export] Hint Resolve u32_range s32_range u8_range u16_range : blt.
#[export] Hint Rewrite u32_idemp u32_s32 : blt.

(** Peel the binds of a successful outcome. *)
Ltac cinv :=
  repeat match goal with
  | H : cbind _ _ = Ok _ |- _ =>
      apply cbind_Ok in H; let a := fresh "v" in let E := fresh "E" in
      destruct H as (a & E & H)
  | H : deref _ = Ok _ |- _ => apply deref_Ok in H
  | H : Ok _ = Ok _ |- _ => injection H as H
  | H : Fault = Ok _ |- _ => discriminate H
  | H : Panic _ = Ok _ |- _ => discriminate H
  end.
