(* ===== verification/KList.v ===== *)
(** kernel/list.c and kernel/list.h: the kernel's circular doubly linked lists.

  The store maps the three words of every [node_t] and [list_t] to their
  contents.  A [list_t] is cast to [node_t] by the code, so both have the
  layout (next, prev, third word); the third word is the [data] of a node and
  the [count] of a list head.  Every access outside the store is a [Fault].

  [klist] is the representation predicate: the head [L] and the nodes [ns]
  form a ring in both directions, and the nodes carry [ds].  The refinement
  theorems state that each function implements an operation on the sequence
  [ds]; the rest of the kernel model uses these sequences. *)
From S2P Require Import Prelude.
Local Open Scope Z_scope.
Local Open Scope c_scope.

Module KList.

(** ** Store *)
Inductive field := FNext | FPrev | FWord.

#[export] Instance field_eq_dec : EqDecision field.
Proof. solve_decision. Defined.

#[export] Instance field_countable : Countable field.
Proof.
  refine (inj_countable' (fun f => match f with FNext => 0%nat | FPrev => 1%nat | FWord => 2%nat end)
    (fun n => match n with 0%nat => FNext | 1%nat => FPrev | _ => FWord end) _).
  by intros [].
Defined.

Abbreviation heap := (gmap (Z * field) Z).

Definition ld (h : heap) (p : Z) (f : field) : cres Z := deref (h !! (p, f)).

Definition st (h : heap) (p : Z) (f : field) (v : Z) : cres heap :=
  match h !! (p, f) with Some _ => Ok (<[(p, f) := v]> h) | None => Fault end.

(** ** The allocator the lists are built on: kmalloc(node_t), kfree(node_t, p) *)
Class NodeAlloc (A : Type) := {
  na_wf : A -> Prop;                          (** the allocator's invariant *)
  na_live : A -> gset Z;                      (** the nodes in use *)
  na_used : A -> gset Z;                      (** the nodes and the list heads *)
  kmalloc_node : A -> cres (Z * A);
  kfree_node : A -> Z -> cres A;
  kmalloc_node_nofault : forall a, na_wf a -> kmalloc_node a <> Fault;
  kmalloc_node_spec : forall a p a', na_wf a -> kmalloc_node a = Ok (p, a') ->
    na_wf a' /\ p ∉ na_used a /\ na_live a' = {[p]} ∪ na_live a /\
    na_used a' = {[p]} ∪ na_used a;
  kfree_node_spec : forall a p, na_wf a -> p ∈ na_live a ->
    exists a', kfree_node a p = Ok a' /\ na_wf a' /\ na_live a' = na_live a ∖ {[p]} /\
      na_used a' = na_used a ∖ {[p]};
  na_live_used : forall a, na_wf a -> na_live a ⊆ na_used a;
}.

(** The words of a fresh node hold whatever the block held before. *)
Definition node_new (h : heap) (p : Z) : heap :=
  <[(p, FNext) := 0]> (<[(p, FPrev) := 0]> (<[(p, FWord) := 0]> h)).

Definition node_free (h : heap) (p : Z) : heap :=
  delete (p, FNext) (delete (p, FPrev) (delete (p, FWord) h)).

(** ** The functions of list.c that link nodes owned by the items *)

Definition list_init (h : heap) (list : Z) : cres heap :=
  let! h := st h list FNext list in
  let! h := st h list FPrev list in
  st h list FWord 0.

Definition inc_count (h : heap) (list : Z) : cres heap :=
  let! c := ld h list FWord in st h list FWord (u32 (c + 1)).

Definition dec_count (h : heap) (list : Z) : cres heap :=
  let! c := ld h list FWord in st h list FWord (u32 (c - 1)).

Definition list_attach_head (h : heap) (list node : Z) : cres heap :=
  let! nx := ld h list FNext in
  let! h := st h node FNext nx in
  let! nx := ld h node FNext in
  let! h := st h nx FPrev node in
  let! h := st h node FPrev list in
  let! h := st h list FNext node in
  inc_count h list.

Definition list_attach_tail (h : heap) (list node : Z) : cres heap :=
  let! pv := ld h list FPrev in
  let! h := st h node FPrev pv in
  let! pv := ld h node FPrev in
  let! h := st h pv FNext node in
  let! h := st h node FNext list in
  let! h := st h list FPrev node in
  inc_count h list.

(** [node->prev->next = node->next; node->next->prev = node->prev] *)
Definition unlink (h : heap) (node : Z) : cres heap :=
  let! pv := ld h node FPrev in
  let! nx := ld h node FNext in
  let! h := st h pv FNext nx in
  let! nx := ld h node FNext in
  let! pv := ld h node FPrev in
  st h nx FPrev pv.

(** The NULL result is 0. *)
Definition list_detach_head (h : heap) (list : Z) : cres (Z * heap) :=
  let! node := ld h list FNext in
  if decide (node = list) then Ok (0, h) else
  let! h := unlink h node in
  let! h := dec_count h list in
  let! d := ld h node FWord in
  Ok (d, h).

Definition list_detach_tail (h : heap) (list : Z) : cres (Z * heap) :=
  let! node := ld h list FPrev in
  if decide (node = list) then Ok (0, h) else
  let! h := unlink h node in
  let! h := dec_count h list in
  let! d := ld h node FWord in
  Ok (d, h).

Definition list_peek_head (h : heap) (list : Z) : cres Z :=
  let! node := ld h list FNext in
  if decide (node = list) then Ok 0 else ld h node FWord.

Definition list_peek_tail (h : heap) (list : Z) : cres Z :=
  let! node := ld h list FPrev in
  if decide (node = list) then Ok 0 else ld h node FWord.

(** The search loop of list_remove and list_detach; [None] is the end of the
  ring.  The fuel bounds the number of nodes visited. *)
Fixpoint find_node (fuel : nat) (h : heap) (list node data : Z) : cres (option Z) :=
  if decide (node = list) then Ok None else
  match fuel with
  | O => Fault
  | S fuel =>
      let! d := ld h node FWord in
      if decide (d = data) then Ok (Some node) else
      let! node := ld h node FNext in
      find_node fuel h list node data
  end.

(** [node->next->prev = node->prev; node->prev->next = node->next] *)
Definition unlink' (h : heap) (node : Z) : cres heap :=
  let! nx := ld h node FNext in
  let! pv := ld h node FPrev in
  let! h := st h nx FPrev pv in
  let! pv := ld h node FPrev in
  let! nx := ld h node FNext in
  st h pv FNext nx.

Definition list_detach (fuel : nat) (h : heap) (list data : Z) : cres (Z * heap) :=
  let! node := ld h list FNext in
  let! r := find_node fuel h list node data in
  match r with
  | Some node =>
      let! h := unlink' h node in
      let! h := dec_count h list in
      Ok (ERR_NONE, h)
  | None => Ok (-1, h)
  end.

(** ** The functions that allocate and free the nodes *)
Section alloc.
Context {A : Type} `{NodeAlloc A}.

Definition list_add_head (a : A) (h : heap) (list data : Z) : cres (A * heap) :=
  let! (node, a) := kmalloc_node a in
  let h := node_new h node in
  let! h := st h node FWord data in
  let! nx := ld h list FNext in
  let! h := st h node FNext nx in
  let! nx := ld h node FNext in
  let! h := st h nx FPrev node in
  let! h := st h node FPrev list in
  let! h := st h list FNext node in
  let! h := inc_count h list in
  Ok (a, h).

Definition list_add_tail (a : A) (h : heap) (list data : Z) : cres (A * heap) :=
  let! (node, a) := kmalloc_node a in
  let h := node_new h node in
  let! h := st h node FWord data in
  let! pv := ld h list FPrev in
  let! h := st h node FPrev pv in
  let! pv := ld h node FPrev in
  let! h := st h pv FNext node in
  let! h := st h node FNext list in
  let! h := st h list FPrev node in
  let! h := inc_count h list in
  Ok (a, h).

Definition list_remove_head (a : A) (h : heap) (list : Z) : cres (Z * A * heap) :=
  let! node := ld h list FNext in
  if decide (node = list) then Ok (0, a, h) else
  let! data := ld h node FWord in
  let! h := unlink h node in
  let! a := kfree_node a node in
  let h := node_free h node in
  let! h := dec_count h list in
  Ok (data, a, h).

Definition list_remove_tail (a : A) (h : heap) (list : Z) : cres (Z * A * heap) :=
  let! node := ld h list FPrev in
  if decide (node = list) then Ok (0, a, h) else
  let! data := ld h node FWord in
  let! h := unlink h node in
  let! a := kfree_node a node in
  let h := node_free h node in
  let! h := dec_count h list in
  Ok (data, a, h).

Definition list_remove (fuel : nat) (a : A) (h : heap) (list data : Z) : cres (Z * A * heap) :=
  let! node := ld h list FNext in
  let! r := find_node fuel h list node data in
  match r with
  | Some node =>
      let! h := unlink' h node in
      let! a := kfree_node a node in
      let h := node_free h node in
      let! h := dec_count h list in
      Ok (ERR_NONE, a, h)
  | None => Ok (-1, a, h)
  end.
End alloc.

(** ** Abstract lists: the specification *)

(** Removal of the first item equal to [x], with the status list.c returns. *)
Definition spec_remove (x : Z) (ds : list Z) : Z * list Z :=
  if decide (x ∈ ds) then (ERR_NONE, remove1 x ds) else (-1, ds).

(** The item at the head, NULL on an empty list. *)
Definition spec_head (ds : list Z) : Z := default 0 (head ds).
Definition spec_last (ds : list Z) : Z := default 0 (last ds).

(** [linked h a l]: following [next] from [a] visits [l] in order, and every
  [prev] on the way points back. *)
Fixpoint linked (h : heap) (a : Z) (l : list Z) : Prop :=
  match l with
  | [] => True
  | b :: l => h !! (a, FNext) = Some b /\ h !! (b, FPrev) = Some a /\ linked h b l
  end.

Definition klist (h : heap) (L : Z) (ns ds : list Z) : Prop :=
  NoDup (L :: ns) /\
  linked h L (ns ++ [L]) /\
  Forall2 (fun n d => h !! (n, FWord) = Some d) ns ds /\
  h !! (L, FWord) = Some (u32 (Z.of_nat (length ns))).

(** ** Lemmas on the ring *)

Lemma linked_app h a l1 b l2 :
  linked h a (l1 ++ b :: l2) <-> linked h a (l1 ++ [b]) /\ linked h b l2.
Proof.
  revert a. induction l1 as [|x l1 IH]; intros a; simpl.
  - tauto.
  - rewrite IH. tauto.
Qed.

Lemma linked_frame h h' a l b :
  (forall x, x ∈ a :: l -> h' !! (x, FNext) = h !! (x, FNext)) ->
  (forall x, x ∈ l ++ [b] -> h' !! (x, FPrev) = h !! (x, FPrev)) ->
  linked h a (l ++ [b]) -> linked h' a (l ++ [b]).
Proof.
  revert a. induction l as [|x l IH]; intros a Hn Hp; simpl in *.
  - rewrite Hn, Hp by set_solver. tauto.
  - rewrite Hn, Hp by set_solver. intros (? & ? & ?). split_and!; try done.
    apply IH; [| |done]; intros; [apply Hn|apply Hp]; set_solver.
Qed.

(** Every node of the ring is allocated. *)
Lemma linked_next_Some h a l b x :
  linked h a (l ++ [b]) -> x ∈ a :: l -> is_Some (h !! (x, FNext)).
Proof.
  revert a. induction l as [|y l IH]; intros a; simpl.
  - intros (Hn & _) ->%list_elem_of_singleton. eauto.
  - intros (Hn & _ & Hl) [->|Hx]%elem_of_cons; [eauto|]. eapply IH; eauto.
Qed.

Lemma linked_prev_Some h a l b x :
  linked h a (l ++ [b]) -> x ∈ l ++ [b] -> exists p, h !! (x, FPrev) = Some p /\ p ∈ a :: l.
Proof.
  revert a. induction l as [|y l IH]; intros a; simpl.
  - intros (_ & Hp & _) ->%list_elem_of_singleton. exists a. set_solver.
  - intros (_ & Hp & Hl) [->|Hx]%elem_of_cons; [exists a; set_solver|].
    destruct (IH y Hl Hx) as (p & ? & ?). exists p. set_solver.
Qed.

Lemma linked_first h a l b : linked h a (l ++ [b]) -> h !! (a, FNext) = Some (default b (head l)).
Proof. destruct l; simpl; naive_solver. Qed.

Lemma linked_last h a l b : linked h a (l ++ [b]) -> h !! (b, FPrev) = Some (default a (last l)).
Proof.
  revert a. induction l as [|x l IH]; intros a; simpl; [naive_solver|].
  intros (_ & _ & Hl). rewrite (IH x Hl), last_cons. by destruct (last l).
Qed.

(** Insertion of [n] just before the end of the path. *)
Lemma linked_insert_end h h' a l b n p :
  NoDup (a :: l) -> b ∉ l -> n ∉ a :: l -> n <> b ->
  h !! (b, FPrev) = Some p ->
  h' !! (p, FNext) = Some n -> h' !! (n, FPrev) = Some p ->
  h' !! (n, FNext) = Some b -> h' !! (b, FPrev) = Some n ->
  (forall x, x <> p -> x <> n -> h' !! (x, FNext) = h !! (x, FNext)) ->
  (forall x, x <> b -> x <> n -> h' !! (x, FPrev) = h !! (x, FPrev)) ->
  linked h a (l ++ [b]) -> linked h' a ((l ++ [n]) ++ [b]).
Proof.
  intros Hnd Hb Hn Hnb Hp H1 H2 H3 H4 H5 H6. revert a Hnd Hn.
  induction l as [|x l IH]; intros a Hnd Hn Hl; simpl in *.
  - destruct Hl as (Ha & Hb' & _). rewrite Hb' in Hp. injection Hp as <-. tauto.
  - destruct Hl as (Ha & Hx & Hl). apply NoDup_cons in Hnd as [Ha' Hnd].
    destruct (linked_prev_Some _ _ _ _ b Hl) as (p' & Hp' & Hin); [set_solver|].
    rewrite Hp in Hp'. injection Hp' as <-.
    assert (a <> p) by set_solver. assert (x <> b) by set_solver.
    split_and!; [rewrite H5 by set_solver; done|rewrite H6 by set_solver; done|].
    apply IH; set_solver.
Qed.

(** Removal of the node [n] from the path. *)
Lemma linked_unlink h h' a l1 n l2 b p q :
  NoDup (a :: l1 ++ n :: l2) -> b ∉ l1 ++ n :: l2 ->
  h !! (n, FPrev) = Some p -> h !! (n, FNext) = Some q ->
  h' !! (p, FNext) = Some q -> h' !! (q, FPrev) = Some p ->
  (forall x, x <> p -> h' !! (x, FNext) = h !! (x, FNext)) ->
  (forall x, x <> q -> h' !! (x, FPrev) = h !! (x, FPrev)) ->
  linked h a ((l1 ++ n :: l2) ++ [b]) -> linked h' a ((l1 ++ l2) ++ [b]).
Proof.
  intros Hnd Hb Hp Hq H1 H2 H3 H4. revert a Hnd.
  induction l1 as [|x l1 IH]; intros a Hnd Hl; simpl in *.
  - destruct Hl as (Ha & Hn & Hl). rewrite Hn in Hp. injection Hp as <-.
    pose proof (linked_first _ _ _ _ Hl) as Hf. rewrite Hq in Hf. injection Hf as ->.
    destruct l2 as [|y l2]; simpl in *; [tauto|].
    destruct Hl as (_ & _ & Hl). split_and!; [done|done|].
    apply NoDup_cons in Hnd as [Ha' [Hn' [Hy ?]%NoDup_cons]%NoDup_cons].
    eapply linked_frame; [| |done]; intros z Hz; [apply H3|apply H4]; set_solver.
  - destruct Hl as (Ha & Hx & Hl). apply NoDup_cons in Hnd as [Ha' Hnd].
    rewrite <- app_assoc in Hl. apply linked_app in Hl as Hl'. destruct Hl' as [Hl1 Hl2].
    destruct (linked_prev_Some _ _ _ _ n Hl1) as (p' & Hp' & Hin); [set_solver|].
    rewrite Hp in Hp'. injection Hp' as <-.
    assert (a <> p) by set_solver.
    assert (x <> q).
    { pose proof (linked_first _ _ _ _ Hl2) as Hf. rewrite Hq in Hf. injection Hf as ->.
      destruct l2 as [|y l2]; simpl; [set_solver|].
      apply NoDup_cons in Hnd as [Hx' _]. set_solver. }
    split_and!; [rewrite H3; done|rewrite H4; done|].
    apply IH; [set_solver|done|]. by rewrite <- app_assoc.
Qed.

(** ** Reasoning about loads and stores *)

Lemma ld_Some h p f v : h !! (p, f) = Some v -> ld h p f = Ok v.
Proof. unfold ld. by intros ->. Qed.

Lemma st_Some h p f v w : h !! (p, f) = Some w -> st h p f v = Ok (<[(p, f) := v]> h).
Proof. unfold st. by intros ->. Qed.

(** One step of symbolic execution: a load or store whose cell is known. *)
Ltac hlook := repeat first
  [ rewrite lookup_insert_eq
  | rewrite lookup_insert_ne by (intros [=]; congruence) ].
Ltac hstep := first
  [ erewrite ld_Some by (hlook; eauto)
  | erewrite st_Some by (hlook; eauto) ]; simpl.

Lemma inc_count_spec h L c :
  h !! (L, FWord) = Some (u32 c) -> inc_count h L = Ok (<[(L, FWord) := u32 (c + 1)]> h).
Proof.
  intros H. unfold inc_count. hstep. hstep. do 2 f_equal.
  unfold u32. by rewrite Zplus_mod_idemp_l.
Qed.

Lemma dec_count_spec h L c :
  h !! (L, FWord) = Some (u32 c) -> dec_count h L = Ok (<[(L, FWord) := u32 (c - 1)]> h).
Proof.
  intros H. unfold dec_count. hstep. hstep. do 2 f_equal.
  unfold u32. by rewrite Zminus_mod_idemp_l.
Qed.

(** The facts about a well-formed list that symbolic execution needs. *)
Lemma klist_head_facts h L ns ds :
  klist h L ns ds ->
  h !! (L, FNext) = Some (default L (head ns)) /\
  h !! (L, FPrev) = Some (default L (last ns)) /\
  (forall x, x ∈ L :: ns -> is_Some (h !! (x, FNext)) /\ is_Some (h !! (x, FPrev))) /\
  length ns = length ds.
Proof.
  intros (Hnd & Hl & Hd & Hc). split_and!.
  - by apply linked_first in Hl.
  - by apply linked_last in Hl.
  - intros x Hx. split; [by eapply linked_next_Some|].
    destruct (linked_prev_Some _ _ _ _ x Hl) as (? & ? & _); [set_solver|eauto].
  - by eapply Forall2_length.
Qed.

Lemma data_frame (h h' : heap) ns ds :
  Forall2 (fun n d => h !! (n, FWord) = Some d) ns ds ->
  (forall x, x ∈ ns -> h' !! (x, FWord) = h !! (x, FWord)) ->
  Forall2 (fun n d => h' !! (n, FWord) = Some d) ns ds.
Proof.
  induction 1 as [|n d ns ds Hn _ IH]; intros Heq; constructor.
  - rewrite Heq; [done|left].
  - apply IH. intros x Hx. apply Heq. by right.
Qed.

(** What is left alone: everything but the touched cells. *)
Definition same_except (h h' : heap) (xs : list Z) : Prop :=
  forall p f, p ∉ xs -> h' !! (p, f) = h !! (p, f).

Lemma list_attach_tail_ok h L ns ds n d :
  klist h L ns ds -> n ∉ L :: ns ->
  is_Some (h !! (n, FNext)) -> is_Some (h !! (n, FPrev)) -> h !! (n, FWord) = Some d ->
  exists h', list_attach_tail h L n = Ok h' /\ klist h' L (ns ++ [n]) (ds ++ [d]) /\
    same_except h h' (n :: L :: ns).
Proof.
  intros Hk Hn [nx Hnx] [pv Hpv] Hd.
  destruct (klist_head_facts _ _ _ _ Hk) as (Hf & Hl & Hall & Hlen).
  destruct Hk as (Hnd & Hring & Hds & Hc).
  set (p := default L (last ns)) in *.
  assert (Hp : p ∈ L :: ns).
  { destruct (linked_prev_Some _ _ _ _ L Hring) as (q & Hq & ?); [set_solver|]. congruence. }
  destruct (Hall p Hp) as [[pn Hpn] _].
  assert (n <> L /\ n <> p) as [HnL Hnp] by set_solver.
  unfold list_attach_tail. do 6 hstep.
  erewrite inc_count_spec by (hlook; eauto).
  eexists. split; [done|]. split.
  - split_and!.
    + rewrite app_comm_cons. apply NoDup_snoc. done.
    + apply NoDup_cons in Hnd as Hnd'. destruct Hnd' as [HL _].
      eapply (linked_insert_end h _ L ns L n p); eauto; try (by hlook).
      * intros x ??. hlook. done.
      * intros x ??. hlook. done.
    + apply Forall2_app.
      * eapply data_frame; [exact Hds|]. intros x Hx.
        apply NoDup_cons in Hnd as [? _]. assert (x <> L) by congruence. by hlook.
      * constructor; [|constructor]. by hlook.
    + hlook. rewrite length_app. simpl. do 2 f_equal. lia.
  - intros x f Hx. assert (x <> n /\ x <> L /\ x <> p) as (?&?&?) by set_solver. by hlook.
Qed.

Lemma list_attach_head_ok h L ns ds n d :
  klist h L ns ds -> n ∉ L :: ns ->
  is_Some (h !! (n, FNext)) -> is_Some (h !! (n, FPrev)) -> h !! (n, FWord) = Some d ->
  exists h', list_attach_head h L n = Ok h' /\ klist h' L (n :: ns) (d :: ds) /\
    same_except h h' (n :: L :: ns).
Proof.
  intros Hk Hn [nx Hnx] [pv Hpv] Hd.
  destruct (klist_head_facts _ _ _ _ Hk) as (Hf & Hl & Hall & Hlen).
  destruct Hk as (Hnd & Hring & Hds & Hc).
  set (q := default L (head ns)) in *.
  assert (Hq : q ∈ L :: ns) by (subst q; destruct ns; simpl; set_solver).
  destruct (Hall q Hq) as [_ [qp Hqp]].
  assert (n <> L /\ n <> q) as [HnL Hnq] by set_solver.
  unfold list_attach_head. do 6 hstep.
  erewrite inc_count_spec by (hlook; eauto).
  eexists. split; [done|]. apply NoDup_cons in Hnd as [HL Hnd]. split.
  - split_and!.
    + apply NoDup_cons. split; [|apply NoDup_cons; split]; set_solver.
    + simpl. split_and!; [by hlook|by hlook|].
      subst q. destruct ns as [|y ns]; simpl in *.
      * split_and!; by hlook.
      * destruct Hring as (_ & _ & Hring). split_and!; [by hlook|by hlook|].
        apply NoDup_cons in Hnd as [Hy Hnd].
        eapply linked_frame; [| |exact Hring]; intros x Hx.
        -- assert (x <> n /\ x <> L) as [??] by set_solver. by hlook.
        -- assert (x <> n /\ x <> y) as [??] by set_solver. by hlook.
    + constructor; [by hlook|].
      eapply data_frame; [exact Hds|]. intros x Hx.
      assert (x <> L) by congruence. by hlook.
    + hlook. simpl length. do 2 f_equal. lia.
  - intros x f Hx. assert (x <> n /\ x <> L /\ x <> q) as (?&?&?) by set_solver. by hlook.
Qed.

(** Both unlinking sequences of list.c take [n] out of the ring. *)
Lemma unlink_ok h L ns1 n ns2 ds :
  klist h L (ns1 ++ n :: ns2) ds ->
  exists h2, unlink h n = Ok h2 /\ unlink' h n = Ok h2 /\
    linked h2 L ((ns1 ++ ns2) ++ [L]) /\
    (forall x, h2 !! (x, FWord) = h !! (x, FWord)) /\
    (forall f, h2 !! (n, f) = h !! (n, f)) /\
    same_except h h2 (L :: ns1 ++ n :: ns2).
Proof.
  intros Hk. destruct (klist_head_facts _ _ _ _ Hk) as (_ & _ & Hall & _).
  destruct Hk as (Hnd & Hring & _ & _).
  assert (Hn : n ∈ ns1 ++ n :: ns2) by (apply elem_of_app; right; left).
  destruct (linked_prev_Some _ _ _ _ n Hring) as (p & Hp & Hpin);
    [apply elem_of_app; by left|].
  assert (exists q, h !! (n, FNext) = Some q /\ q ∈ L :: ns2) as (q & Hq & Hqin).
  { rewrite <- app_assoc in Hring. simpl in Hring. apply linked_app in Hring as [_ Hr].
    apply linked_first in Hr. rewrite Hr. eexists; split; [done|].
    destruct ns2; simpl; [left|right; left]. }
  apply NoDup_cons in Hnd as Hnd'. destruct Hnd' as [HL Hnd1].
  assert (n <> L) by congruence.
  apply NoDup_app in Hnd1 as (Hnd1 & Hdis & [Hn2 Hnd2]%NoDup_cons).
  assert (n <> q) by (apply elem_of_cons in Hqin as [->|]; congruence).
  assert (n <> p).
  { rewrite <- app_assoc in Hring. simpl in Hring. apply linked_app in Hring as [Hr _].
    apply linked_prev_Some with (x := n) in Hr as (p' & Hp' & Hin);
      [|apply elem_of_app; right; left].
    rewrite Hp in Hp'. injection Hp' as <-. apply elem_of_cons in Hin as [->|Hin]; [congruence|].
    intros ->. apply (Hdis p Hin). left. }
  destruct (Hall p Hpin) as [[pn Hpn] _].
  destruct (Hall q) as [_ [qp Hqp]].
  { apply elem_of_cons in Hqin as [->|]; [left|right]. apply elem_of_app. right. by right. }
  exists (<[(q, FPrev) := p]> (<[(p, FNext) := q]> h)). split_and!.
  - unfold unlink. do 5 hstep. by hstep.
  - unfold unlink'. do 5 hstep. hstep. f_equal. by rewrite insert_insert_ne.
  - eapply (linked_unlink h _ L ns1 n ns2 L p q); eauto; try (by hlook);
      intros x ?; by hlook.
  - intros x. by hlook.
  - intros []; by hlook.
  - intros x f Hx. assert (x <> p /\ x <> q) as [??].
    { split; intros ->; apply Hx; [done|].
      apply elem_of_cons in Hqin as [->|]; [left|right]. apply elem_of_app. right. by right. }
    by hlook.
Qed.

(** A ring without [n], whose count has been decremented, is the shorter list. *)
Lemma klist_shrink h h2 h3 L ns1 n ns2 ds1 d ds2 :
  klist h L (ns1 ++ n :: ns2) (ds1 ++ d :: ds2) -> length ns1 = length ds1 ->
  linked h2 L ((ns1 ++ ns2) ++ [L]) ->
  (forall x, h2 !! (x, FWord) = h !! (x, FWord)) ->
  (forall x f, x <> n -> (x, f) <> (L, FWord) -> h3 !! (x, f) = h2 !! (x, f)) ->
  h3 !! (L, FWord) = Some (u32 (Z.of_nat (length (ns1 ++ n :: ns2)) - 1)) ->
  klist h3 L (ns1 ++ ns2) (ds1 ++ ds2).
Proof.
  intros (Hnd & _ & Hds & _) Hlen Hring Hw Hf Hc.
  apply NoDup_cons in Hnd as [HL Hnd].
  apply NoDup_app in Hnd as (Hnd1 & Hdis & [Hn2 Hnd2]%NoDup_cons).
  assert (Hout : forall x, x ∈ L :: ns1 ++ ns2 -> x <> n).
  { intros x [->|[Hx|Hx]%elem_of_app]%elem_of_cons ->.
    - apply HL, elem_of_app. right. left.
    - apply (Hdis n Hx). left.
    - done. }
  assert (HL' : L ∉ ns1 ++ ns2).
  { intros [Hx|Hx]%elem_of_app; apply HL, elem_of_app; [by left|right; by right]. }
  apply Forall2_app_inv in Hds as [Hd1 Hd2]; [|done]. inversion Hd2; subst.
  split_and!.
  - apply NoDup_cons. split; [done|]. apply NoDup_app. split_and!; try done.
    intros x Hx Hx2. apply (Hdis x Hx). by right.
  - eapply linked_frame; [| |exact Hring]; intros x Hx; apply Hf; try congruence;
      apply Hout; [done|]. apply elem_of_app in Hx as [Hx|Hx];
      [by right|]. apply list_elem_of_singleton in Hx as ->. left.
  - eapply data_frame; [by apply Forall2_app|]. intros x Hx. rewrite <- Hw. apply Hf.
    + apply Hout. by right.
    + intros [= ->]. done.
  - rewrite Hc. do 2 f_equal. rewrite !length_app. simpl. lia.
Qed.

(** The search loop finds the first node with the data, given enough fuel. *)
Lemma find_node_spec h L a ns ds data fuel :
  linked h a (ns ++ [L]) -> L ∉ ns ->
  Forall2 (fun n d => h !! (n, FWord) = Some d) ns ds -> (length ns <= fuel)%nat ->
  match find_node fuel h L (default L (head ns)) data with
  | Ok None => data ∉ ds
  | Ok (Some n) => exists ns1 ns2 ds1 ds2, ns = ns1 ++ n :: ns2 /\
      ds = ds1 ++ data :: ds2 /\ length ns1 = length ds1 /\ data ∉ ds1
  | _ => False
  end.
Proof.
  intros Hl HL Hd. revert a fuel Hl HL.
  induction Hd as [|n d ns ds Hn Hd IH]; intros a fuel Hl HL Hfuel; simpl in *.
  - destruct fuel; simpl; rewrite decide_True by done; set_solver.
  - destruct fuel as [|fuel]; [lia|]. simpl.
    assert (n <> L) by (intros ->; apply HL; left).
    rewrite decide_False by done. rewrite (ld_Some _ _ _ _ Hn). simpl.
    case_decide as Hdd.
    + subst. exists [], ns, [], ds. set_solver.
    + destruct Hl as (_ & _ & Hl). pose proof (linked_first _ _ _ _ Hl) as Hf.
      rewrite (ld_Some _ _ _ _ Hf). simpl.
      specialize (IH n fuel Hl ltac:(intros ?; apply HL; by right) ltac:(lia)).
      destruct (find_node fuel h L (default L (head ns)) data) as [[m|]| |]; try done.
      * destruct IH as (ns1 & ns2 & ds1 & ds2 & -> & -> & Hlen & Hnot).
        exists (n :: ns1), ns2, (d :: ds1), ds2. simpl.
        split_and!; try done; [by f_equal|]. set_solver.
      * set_solver.
Qed.

(** ** Each function refines its operation on sequences *)
Section refine.
Context {A : Type} `{NodeAlloc A}.

(** The nodes are live blocks of the allocator, and the head is no node it can
  hand out. *)
Definition owned (a : A) (L : Z) (ns : list Z) : Prop :=
  L ∈ na_used a /\ forall x, x ∈ ns -> x ∈ na_live a.

Lemma owned_used a L ns x : na_wf a -> owned a L ns -> x ∈ L :: ns -> x ∈ na_used a.
Proof.
  intros Hwf [HL Hns] [->|Hx]%elem_of_cons; [done|]. by apply (na_live_used a Hwf), Hns.
Qed.

(** The abstraction relation between the allocator and store and a sequence. *)
Definition repr (a : A) (h : heap) (L : Z) (ds : list Z) : Prop :=
  exists ns, na_wf a /\ klist h L ns ds /\ owned a L ns.

Lemma node_new_klist (h : heap) L ns ds p :
  klist h L ns ds -> p ∉ L :: ns -> klist (node_new h p) L ns ds.
Proof.
  intros (Hnd & Hl & Hd & Hc) Hp.
  assert (Hne : forall x, x ∈ L :: ns -> x <> p) by (intros x Hx ->; done).
  unfold node_new. split_and!; [done| | |].
  - eapply linked_frame; [| |exact Hl]; intros x Hx.
    + specialize (Hne x Hx). by hlook.
    + assert (x <> p).
      { apply Hne. apply elem_of_app in Hx as [Hx|Hx]; [by right|].
        apply list_elem_of_singleton in Hx as ->. left. }
      by hlook.
  - eapply data_frame; [exact Hd|]. intros x Hx.
    assert (x <> p) by (apply Hne; by right). by hlook.
  - assert (L <> p) by (apply Hne; left). by hlook.
Qed.

(** A fresh node with its data written does not disturb the list. *)
Lemma node_init_klist (h : heap) L ns ds p d :
  klist h L ns ds -> p ∉ L :: ns -> klist (<[(p, FWord) := d]> (node_new h p)) L ns ds.
Proof.
  intros Hk Hpn. destruct (node_new_klist _ _ _ _ p Hk Hpn) as (? & Hl & Hd & Hc).
  split_and!; [done| | |].
  - eapply linked_frame; [| |exact Hl]; intros x _; by hlook.
  - eapply data_frame; [exact Hd|]. intros x Hx.
    assert (x <> p) by (intros ->; apply Hpn; by right). by hlook.
  - assert (L <> p) by (intros ->; apply Hpn; left). by hlook.
Qed.

Lemma list_add_tail_ok a h L ds d p a' :
  repr a h L ds -> kmalloc_node a = Ok (p, a') ->
  exists h', list_add_tail a h L d = Ok (a', h') /\ repr a' h' L (ds ++ [d]).
Proof.
  intros (ns & Hwf & Hk & Ho) Hm.
  destruct (kmalloc_node_spec _ _ _ Hwf Hm) as (Hwf' & Hp & Hlive & Hused).
  assert (Hpn : p ∉ L :: ns) by (intros Hx; apply Hp; by eapply owned_used).
  pose proof (node_init_klist _ _ _ _ p d Hk Hpn) as Hk2.
  destruct (list_attach_tail_ok _ L ns ds p d Hk2 Hpn) as (h' & Hatt & Hk' & _).
  { unfold node_new. hlook. eauto. }
  { unfold node_new. hlook. eauto. }
  { by hlook. }
  exists h'. split.
  - unfold list_add_tail. rewrite Hm. simpl.
    erewrite (st_Some (node_new h p)) by (unfold node_new; hlook; eauto). simpl.
    unfold list_attach_tail in Hatt. cinv.
    repeat match goal with E : _ = Ok _ |- _ => rewrite E; clear E; simpl end. done.
  - exists (ns ++ [p]). destruct Ho as [HL Hns]. split_and!; [done|done|].
    split; [rewrite Hused; set_solver|]. intros x Hx. rewrite Hlive.
    apply elem_of_app in Hx as [Hx|Hx]; [apply Hns in Hx|]; set_solver.
Qed.

Lemma list_add_head_ok a h L ds d p a' :
  repr a h L ds -> kmalloc_node a = Ok (p, a') ->
  exists h', list_add_head a h L d = Ok (a', h') /\ repr a' h' L (d :: ds).
Proof.
  intros (ns & Hwf & Hk & Ho) Hm.
  destruct (kmalloc_node_spec _ _ _ Hwf Hm) as (Hwf' & Hp & Hlive & Hused).
  assert (Hpn : p ∉ L :: ns) by (intros Hx; apply Hp; by eapply owned_used).
  pose proof (node_init_klist _ _ _ _ p d Hk Hpn) as Hk2.
  destruct (list_attach_head_ok _ L ns ds p d Hk2 Hpn) as (h' & Hatt & Hk' & _).
  { unfold node_new. hlook. eauto. }
  { unfold node_new. hlook. eauto. }
  { by hlook. }
  exists h'. split.
  - unfold list_add_head. rewrite Hm. simpl.
    erewrite (st_Some (node_new h p)) by (unfold node_new; hlook; eauto). simpl.
    unfold list_attach_head in Hatt. cinv.
    repeat match goal with E : _ = Ok _ |- _ => rewrite E; clear E; simpl end. done.
  - exists (p :: ns). destruct Ho as [HL Hns]. split_and!; [done|done|].
    split; [rewrite Hused; set_solver|]. intros x Hx. rewrite Hlive.
    apply elem_of_cons in Hx as [->|Hx]; [|apply Hns in Hx]; set_solver.
Qed.

(** Unlinking a node, freeing it and decrementing the count. *)
Lemma drop_node_ok a h L ns1 n ns2 ds1 d ds2 :
  na_wf a -> owned a L (ns1 ++ n :: ns2) ->
  klist h L (ns1 ++ n :: ns2) (ds1 ++ d :: ds2) -> length ns1 = length ds1 ->
  exists h2 a' h', unlink h n = Ok h2 /\ unlink' h n = Ok h2 /\ kfree_node a n = Ok a' /\
    dec_count (node_free h2 n) L = Ok h' /\ repr a' h' L (ds1 ++ ds2).
Proof.
  intros Hwf Ho Hk Hlen. destruct (unlink_ok _ _ _ _ _ _ Hk)
    as (h2 & Hu & Hu' & Hring & Hw & Hn & _).
  destruct (kfree_node_spec a n Hwf) as (a' & Hf & Hwf' & Hlive & Hused).
  { apply Ho. apply elem_of_app. right. left. }
  assert (HnL : n <> L).
  { destruct Hk as ([HL _]%NoDup_cons & _). intros ->. apply HL, elem_of_app. right. left. }
  assert (Hc : node_free h2 n !! (L, FWord) =
    Some (u32 (Z.of_nat (length (ns1 ++ n :: ns2))))).
  { unfold node_free. rewrite !lookup_delete_ne by congruence. rewrite Hw. apply Hk. }
  exists h2, a'. eexists. split_and!; [done|done|done|by apply dec_count_spec|].
  exists (ns1 ++ ns2). split_and!; [done| |].
  - eapply (klist_shrink h h2 _ L ns1 n ns2 ds1 d ds2); try done.
    + intros x f Hx HxL. rewrite lookup_insert_ne by congruence.
      unfold node_free. by rewrite !lookup_delete_ne by congruence.
    + by rewrite lookup_insert_eq.
  - destruct Hk as ([HL Hnd]%NoDup_cons & _).
    apply NoDup_app in Hnd as (_ & Hdis & [Hn2 _]%NoDup_cons).
    split; [rewrite Hused; apply elem_of_difference; split; [apply Ho|set_solver]|].
    intros x Hx. rewrite Hlive. apply elem_of_difference.
    apply elem_of_app in Hx as [Hx|Hx]; (split; [apply Ho|rewrite elem_of_singleton]).
    + apply elem_of_app. by left.
    + intros ->. apply (Hdis n Hx). left.
    + apply elem_of_app. right. by right.
    + congruence.
Qed.

Lemma list_remove_ok a h L ds data fuel :
  repr a h L ds -> (length ds <= fuel)%nat ->
  exists a' h', list_remove fuel a h L data = Ok ((spec_remove data ds).1, a', h') /\
    repr a' h' L (spec_remove data ds).2.
Proof.
  intros (ns & Hwf & Hk & Ho) Hfuel.
  destruct (klist_head_facts _ _ _ _ Hk) as (Hf & _ & _ & Hlen).
  assert (HL : L ∉ ns) by (destruct Hk as ([? _]%NoDup_cons & _); done).
  pose proof (find_node_spec h L L ns ds data fuel (proj1 (proj2 Hk)) HL
    (proj1 (proj2 (proj2 Hk))) ltac:(lia)) as Hfind.
  unfold list_remove. rewrite (ld_Some _ _ _ _ Hf). simpl. unfold spec_remove.
  destruct (find_node fuel h L (default L (head ns)) data) as [[n|]| |]; try done; simpl.
  - destruct Hfind as (ns1 & ns2 & ds1 & ds2 & -> & -> & Hl & Hnot).
    destruct (drop_node_ok a h L ns1 n ns2 ds1 data ds2 Hwf Ho Hk Hl)
      as (h2 & a' & h' & _ & Hu & Hfr & Hdec & Hr).
    rewrite Hu. simpl. rewrite Hfr. simpl. rewrite Hdec. simpl.
    rewrite decide_True by (apply elem_of_app; right; left). simpl.
    rewrite remove1_split by done. eauto.
  - rewrite decide_False by done. exists a, h. split; [done|]. exists ns. done.
Qed.

Lemma list_remove_head_ok a h L ds :
  repr a h L ds ->
  exists a' h', list_remove_head a h L = Ok (spec_head ds, a', h') /\ repr a' h' L (tail ds).
Proof.
  intros (ns & Hwf & Hk & Ho).
  destruct (klist_head_facts _ _ _ _ Hk) as (Hf & _ & _ & Hlen).
  unfold list_remove_head. rewrite (ld_Some _ _ _ _ Hf). simpl.
  destruct ns as [|n ns], ds as [|d ds]; try discriminate Hlen; simpl.
  - rewrite decide_True by done. exists a, h. split; [done|]. exists []. done.
  - assert (n <> L) by (destruct Hk as ([HL _]%NoDup_cons & _); intros ->; apply HL; left).
    rewrite decide_False by done.
    destruct (drop_node_ok a h L [] n ns [] d ds Hwf Ho Hk eq_refl)
      as (h2 & a' & h' & Hu & _ & Hfr & Hdec & Hr).
    destruct Hk as (_ & _ & Hd & _). inversion Hd; subst.
    erewrite ld_Some by eauto. simpl. rewrite Hu. simpl. rewrite Hfr. simpl.
    rewrite Hdec. simpl. eauto.
Qed.

Lemma list_remove_tail_ok a h L ds :
  repr a h L ds ->
  exists a' h', list_remove_tail a h L = Ok (spec_last ds, a', h') /\
    repr a' h' L (take (length ds - 1) ds).
Proof.
  intros (ns & Hwf & Hk & Ho).
  destruct (klist_head_facts _ _ _ _ Hk) as (_ & Hf & _ & Hlen).
  unfold list_remove_tail. rewrite (ld_Some _ _ _ _ Hf). simpl. unfold spec_last.
  destruct ns as [|n ns _] using rev_ind; destruct ds as [|d ds _] using rev_ind;
    rewrite ?length_app in Hlen; simpl in Hlen; try lia; rewrite ?last_snoc; simpl.
  - rewrite decide_True by done. exists a, h. split; [done|]. exists []. done.
  - assert (Hl : length ns = length ds) by lia.
    assert (n <> L).
    { destruct Hk as ([HL _]%NoDup_cons & _). intros ->. apply HL, elem_of_app. right. left. }
    rewrite decide_False by done.
    destruct (drop_node_ok a h L ns n [] ds d [] Hwf Ho Hk Hl)
      as (h2 & a' & h' & Hu & _ & Hfr & Hdec & Hr).
    destruct Hk as (_ & _ & Hd & _). apply Forall2_app_inv in Hd as [_ Hd]; [|done].
    inversion Hd; subst.
    erewrite ld_Some by eauto. simpl. rewrite Hu. simpl. rewrite Hfr. simpl.
    rewrite Hdec. simpl. do 2 eexists. split; [done|].
    rewrite length_app, take_app_le by (simpl; lia). rewrite app_nil_r in Hr.
    rewrite take_ge by (simpl; lia). done.
Qed.

Lemma list_peek_ok a h L ds :
  repr a h L ds -> list_peek_head h L = Ok (spec_head ds) /\ list_peek_tail h L = Ok (spec_last ds).
Proof.
  intros (ns & Hwf & Hk & Ho).
  destruct (klist_head_facts _ _ _ _ Hk) as (Hf & Hl & _ & Hlen).
  destruct Hk as ([HL _]%NoDup_cons & _ & Hd & _).
  unfold list_peek_head, list_peek_tail, spec_head, spec_last.
  rewrite (ld_Some _ _ _ _ Hf), (ld_Some _ _ _ _ Hl). simpl. split.
  - destruct Hd as [|n d ns ds Hn _]; simpl; [by rewrite decide_True|].
    rewrite decide_False by (intros ->; apply HL; left). by apply ld_Some.
  - destruct ns as [|n ns _] using rev_ind; destruct ds as [|d ds _] using rev_ind;
      rewrite ?length_app in Hlen; simpl in Hlen; try lia; rewrite ?last_snoc; simpl.
    + by rewrite decide_True.
    + rewrite decide_False by (intros ->; apply HL, elem_of_app; right; left).
      apply Forall2_app_inv in Hd as [_ Hd]; [|lia]. inversion Hd; subst. by apply ld_Some.
Qed.

(** ** Sequences of calls *)
Inductive op :=
| OpAddHead (d : Z) | OpAddTail (d : Z) | OpRemoveHead | OpRemoveTail
| OpRemove (d : Z) | OpPeekHead | OpPeekTail.

Definition step_impl (fuel : nat) (L : Z) (o : op) (s : A * heap) : cres (Z * (A * heap)) :=
  let (a, h) := s in
  match o with
  | OpAddHead d => let! s := list_add_head a h L d in Ok (0, s)
  | OpAddTail d => let! s := list_add_tail a h L d in Ok (0, s)
  | OpRemoveHead => let! (r, a, h) := list_remove_head a h L in Ok (r, (a, h))
  | OpRemoveTail => let! (r, a, h) := list_remove_tail a h L in Ok (r, (a, h))
  | OpRemove d => let! (r, a, h) := list_remove fuel a h L d in Ok (r, (a, h))
  | OpPeekHead => let! r := list_peek_head h L in Ok (r, (a, h))
  | OpPeekTail => let! r := list_peek_tail h L in Ok (r, (a, h))
  end.

Definition step_spec (o : op) (ds : list Z) : Z * list Z :=
  match o with
  | OpAddHead d => (0, d :: ds)
  | OpAddTail d => (0, ds ++ [d])
  | OpRemoveHead => (spec_head ds, tail ds)
  | OpRemoveTail => (spec_last ds, take (length ds - 1) ds)
  | OpRemove d => spec_remove d ds
  | OpPeekHead => (spec_head ds, ds)
  | OpPeekTail => (spec_last ds, ds)
  end.

Fixpoint run_impl (fuel : nat) (L : Z) (ops : list op) (s : A * heap) : cres (list Z * (A * heap)) :=
  match ops with
  | [] => Ok ([], s)
  | o :: ops =>
      let! (r, s) := step_impl fuel L o s in
      let! (rs, s) := run_impl fuel L ops s in
      Ok (r :: rs, s)
  end.

Fixpoint run_spec (ops : list op) (ds : list Z) : list Z * list Z :=
  match ops with
  | [] => ([], ds)
  | o :: ops =>
      let (r, ds) := step_spec o ds in
      let (rs, ds) := run_spec ops ds in
      (r :: rs, ds)
  end.

#[local] Arguments step_impl : simpl never.
#[local] Arguments step_spec : simpl never.

(** The only way a call does not return: the allocator panics. *)
Definition refines {B} (P : B -> Prop) (m : cres B) : Prop :=
  match m with
  | Ok b => P b
  | Panic w => exists a, na_wf a /\ kmalloc_node a = Panic w
  | Fault => False
  end.

Lemma step_spec_length o ds : (length (step_spec o ds).2 <= S (length ds))%nat.
Proof.
  destruct o; unfold step_spec; simpl; rewrite ?length_app, ?length_take; simpl; try lia.
  - destruct ds; simpl; lia.
  - unfold spec_remove. case_decide; simpl; [|lia].
    pose proof (remove1_length d ds ltac:(done)). lia.
Qed.

Lemma step_refines fuel L o a h ds :
  repr a h L ds -> (length ds <= fuel)%nat ->
  refines (fun '(r, (a', h')) => r = (step_spec o ds).1 /\ repr a' h' L (step_spec o ds).2)
    (step_impl fuel L o (a, h)).
Proof.
  intros Hr Hf. assert (Hwf : na_wf a) by (destruct Hr as (? & ? & _); done).
  destruct o; unfold step_spec, step_impl; simpl.
  - destruct (kmalloc_node a) as [[p a']|w|] eqn:Hm.
    + destruct (list_add_head_ok _ _ _ _ d _ _ Hr Hm) as (h' & -> & ?). done.
    + unfold list_add_head. rewrite Hm. simpl. eauto.
    + by apply kmalloc_node_nofault in Hm.
  - destruct (kmalloc_node a) as [[p a']|w|] eqn:Hm.
    + destruct (list_add_tail_ok _ _ _ _ d _ _ Hr Hm) as (h' & -> & ?). done.
    + unfold list_add_tail. rewrite Hm. simpl. eauto.
    + by apply kmalloc_node_nofault in Hm.
  - destruct (list_remove_head_ok _ _ _ _ Hr) as (a' & h' & -> & ?). done.
  - destruct (list_remove_tail_ok _ _ _ _ Hr) as (a' & h' & -> & ?). done.
  - destruct (list_remove_ok _ _ _ _ d _ Hr Hf) as (a' & h' & -> & ?). done.
  - destruct (list_peek_ok _ _ _ _ Hr) as [-> _]. done.
  - destruct (list_peek_ok _ _ _ _ Hr) as [_ ->]. done.
Qed.

(** C1. Functional refinement of kernel/list.c: for every allocator that meets
  the [NodeAlloc] interface and every sequence of calls of list_add_head,
  list_add_tail, list_remove_head, list_remove_tail, list_remove and the two
  peeks on a well-formed list, the pointer code returns exactly the results of
  the same operations on a plain sequence and leaves a well-formed list that
  represents the resulting sequence; no call ever follows a bad pointer, and
  the only way not to return is a panic of the allocator. *)
Theorem list_calls_refine_sequence fuel L ops a h ds
    (Hrepr : repr a h L ds) (Hfuel : (length ds + length ops <= fuel)%nat) :
  refines (fun '(rs, (a', h')) => rs = (run_spec ops ds).1 /\ repr a' h' L (run_spec ops ds).2)
    (run_impl fuel L ops (a, h)).
Proof.
  revert a h ds Hrepr Hfuel. induction ops as [|o ops IH]; intros a h ds Hr Hf; simpl.
  - done.
  - pose proof (step_refines fuel L o a h ds Hr ltac:(simpl in Hf; lia)) as Hs.
    destruct (step_impl fuel L o (a, h)) as [[r [a1 h1]]|w|]; simpl in *; try done.
    pose proof (step_spec_length o ds) as Hlen.
    destruct (step_spec o ds) as [r0 ds1] eqn:Hso. simpl in *.
    destruct Hs as [-> Hr1].
    specialize (IH a1 h1 ds1 Hr1 ltac:(lia)).
    destruct (run_impl fuel L ops (a1, h1)) as [[rs [a2 h2]]|w|]; simpl in *; try done.
    destruct (run_spec ops ds1) as [rs0 ds2]. simpl in *.
    destruct IH as [-> Hr2]. split; [congruence|exact Hr2].
Qed.

End refine.

(** ** The queue operations, on nodes owned by the items *)

Lemma list_init_ok h L :
  is_Some (h !! (L, FNext)) -> is_Some (h !! (L, FPrev)) -> is_Some (h !! (L, FWord)) ->
  exists h', list_init h L = Ok h' /\ klist h' L [] [].
Proof.
  intros [? Hn] [? Hp] [? Hw]. unfold list_init. hstep. hstep. hstep.
  eexists. split; [done|]. split_and!.
  - apply NoDup_singleton.
  - simpl. split_and!; by hlook.
  - constructor.
  - by hlook.
Qed.

Lemma list_detach_head_ok h L ns ds :
  klist h L ns ds ->
  exists h', list_detach_head h L = Ok (spec_head ds, h') /\ klist h' L (tail ns) (tail ds) /\
    same_except h h' (L :: ns) /\ forall n, head ns = Some n -> forall f, h' !! (n, f) = h !! (n, f).
Proof.
  intros Hk. destruct (klist_head_facts _ _ _ _ Hk) as (Hf & _ & _ & Hlen).
  unfold list_detach_head. rewrite (ld_Some _ _ _ _ Hf). simpl.
  destruct ns as [|n ns], ds as [|d ds]; try discriminate Hlen; simpl.
  { rewrite decide_True by done. exists h. done. }
  assert (n <> L) by (destruct Hk as ([HL _]%NoDup_cons & _); intros ->; apply HL; left).
  rewrite decide_False by done.
  destruct (unlink_ok h L [] n ns (d :: ds) Hk) as (h2 & -> & _ & Hring & Hw & Hn & Hsame).
  simpl. erewrite dec_count_spec by (rewrite Hw; apply Hk). simpl.
  erewrite ld_Some; last first.
  { rewrite lookup_insert_ne by congruence. rewrite Hw.
    destruct Hk as (_ & _ & Hd & _). inversion Hd; subst. done. }
  simpl. eexists. split; [done|]. split_and!.
  - eapply (klist_shrink h h2 _ L [] n ns [] d ds); try done.
    + intros. by rewrite lookup_insert_ne by congruence.
    + by rewrite lookup_insert_eq.
  - intros x f Hx. rewrite lookup_insert_ne by (intros [= ->]; apply Hx; left). by apply Hsame.
  - intros n' [= <-] f. rewrite lookup_insert_ne by congruence. by rewrite Hn.
Qed.

(** A bump allocator, the simplest instance of the interface. *)
Record bump := Bump { b_next : Z; b_live : gset Z }.

#[export] Program Instance bump_alloc : NodeAlloc bump := {|
  na_wf b := 16 < b_next b /\ 16 ∈ b_live b /\ forall p, p ∈ b_live b -> p < b_next b;
  na_live b := b_live b ∖ {[16]};
  na_used := b_live;
  kmalloc_node b := Ok (b_next b, Bump (b_next b + 16) ({[b_next b]} ∪ b_live b));
  kfree_node b p := Ok (Bump (b_next b) (b_live b ∖ {[p]}));
|}.
Next Obligation. done. Qed.
Next Obligation.
  intros a p a' (H16 & Hin & Hwf) [= <- <-]. simpl.
  assert (b_next a ∉ b_live a) by (intros Hp%Hwf; lia).
  split_and!; [lia|set_solver| |done|set_solver by lia|done].
  intros q [->%elem_of_singleton|Hq%Hwf]%elem_of_union; lia.
Qed.
Next Obligation.
  intros a p (H16 & Hin & Hwf) Hp. eexists. split; [done|]. simpl.
  split_and!; [lia|set_solver| |set_solver|done].
  intros q [Hq _]%elem_of_difference. by apply Hwf.
Qed.
Next Obligation. set_solver. Qed.

(** An empty list at address 16 and an allocator that starts above it. *)
Definition ex_heap : heap := <[(16, FNext) := 16]> (<[(16, FPrev) := 16]> {[(16, FWord) := 0]}).
Definition ex_bump : bump := Bump 32 {[16]}.

Lemma ex_repr : repr ex_bump ex_heap 16 [].
Proof.
  exists []. split_and!.
  - simpl. split_and!; [done|set_solver|]. intros p ->%elem_of_singleton. done.
  - split_and!; [apply NoDup_singleton|by vm_compute|constructor|by vm_compute].
  - split; [reflexivity|set_solver].
Qed.

Definition ex_ops : list op :=
  [OpAddTail 7; OpAddTail 8; OpAddHead 9; OpRemove 7; OpRemove 5; OpRemoveTail; OpPeekHead; OpRemoveHead].

Lemma list_calls_refine_sequence_witness :
  refines (fun '(rs, (a', h')) => rs = [0; 0; 0; 0; -1; 8; 9; 9] /\ repr a' h' 16 [])
    (run_impl 20 16 ex_ops (ex_bump, ex_heap)).
Proof.
  exact (list_calls_refine_sequence 20 16 ex_ops ex_bump ex_heap [] ex_repr
    ltac:(apply Nat.leb_le; reflexivity)).
Defined.

End KList.
