(* ===== verification/KMem.v ===== *)
(** kernel/memory.c: physical pages, kernel virtual pages and the kmalloc pools.

  The state mirrors the file-scope variables of memory.c: the page list
  (an array that links the free physical pages through their indices), the
  high page table [flat->high], the bump pointer [nextmem] with the list of
  recycled kernel virtual pages, and the seven pools [km_map].  Chains that
  the code threads through the freed memory itself ([free_chain],
  [freevpagelist]) are kept as the list of the chained addresses. *)
From S2P Require Import Prelude KList.
Local Open Scope Z_scope.
Local Open Scope c_scope.

Module KMem.

(** ** State *)
Record km_map := KmMap {
  km_size : Z;
  km_used_count : Z;
  km_fresh_count : Z;
  km_free_count : Z;
  km_free_chain : list Z;      (** freed blocks, most recent first *)
  km_fresh_chain : Z;
}.

Record mem := Mem {
  m_pagelist : list Z;         (** pagelist[], as many entries as are mapped *)
  m_freepage : Z;
  m_used_pages : Z;
  m_total_pages : Z;
  m_nextmem : Z;
  m_freev : list (Z * Z);      (** freevpagelist: node block, virtual page *)
  m_high : list Z;             (** flat->high[1024] *)
  m_km : list km_map;
}.

Definition KMMAX : Z := 7.

(** The initial contents of km_map[]. *)
Definition km_init : list km_map :=
  [ KmMap 16 0 256 0 [] 0; KmMap 32 0 128 0 [] 0; KmMap 64 0 64 0 [] 0;
    KmMap 96 0 42 0 [] 0; KmMap 128 0 32 0 [] 0; KmMap 192 0 21 0 [] 0;
    KmMap 256 0 16 0 [] 0 ].

(** size_map[513]; the tail without initializers is zero, i.e. KM16. *)
Definition size_map : list Z :=
  replicate 17 0 ++ replicate 16 1 ++ replicate 32 2 ++ replicate 32 3 ++
  replicate 32 4 ++ replicate 64 5 ++ replicate 64 6 ++ replicate 256 0.

Definition set_km (s : mem) (l : list km_map) : mem :=
  Mem (m_pagelist s) (m_freepage s) (m_used_pages s) (m_total_pages s) (m_nextmem s)
    (m_freev s) (m_high s) l.
Definition set_pages (s : mem) (pl : list Z) (fp used : Z) : mem :=
  Mem pl fp used (m_total_pages s) (m_nextmem s) (m_freev s) (m_high s) (m_km s).
Definition set_nextmem (s : mem) (n : Z) : mem :=
  Mem (m_pagelist s) (m_freepage s) (m_used_pages s) (m_total_pages s) n
    (m_freev s) (m_high s) (m_km s).
Definition set_freev (s : mem) (l : list (Z * Z)) : mem :=
  Mem (m_pagelist s) (m_freepage s) (m_used_pages s) (m_total_pages s) (m_nextmem s)
    l (m_high s) (m_km s).
Definition set_high (s : mem) (l : list Z) : mem :=
  Mem (m_pagelist s) (m_freepage s) (m_used_pages s) (m_total_pages s) (m_nextmem s)
    (m_freev s) l (m_km s).

(** ** Physical pages *)

Definition putpage (s : mem) (number : Z) : cres mem :=
  let? pl := aset (m_pagelist s) number (m_freepage s) in
  Ok (set_pages s pl number (u32 (m_used_pages s - 1))).

Definition getpage (s : mem) : cres (Z * mem) :=
  let n := m_freepage s in
  if decide (n <> 0) then
    let? nx := aget (m_pagelist s) n in
    Ok (n, set_pages s (m_pagelist s) nx (u32 (m_used_pages s + 1)))
  else Panic "Out of physical memory".

(** aspace_maphi (kernel/aspace.c) on the flat address space:
  [high[(virt&0x3FF)+i] = (phys+i)*4096 | flags] for i < len. *)
Fixpoint maphi_loop (high : list Z) (phys virt flags : Z) (i : Z) (n : nat) : cres (list Z) :=
  match n with
  | O => Ok high
  | S n =>
      let? high := aset high (Z.land virt 1023 + i) (Z.lor (u32 ((phys + i) * 4096)) flags) in
      maphi_loop high phys virt flags (i + 1) n
  end.

Definition aspace_maphi (s : mem) (phys virt len flags : Z) : cres mem :=
  let! high := maphi_loop (m_high s) phys virt flags 0 (Z.to_nat len) in
  Ok (set_high s high).

(** ** Pools *)

Definition kfreeP (s : mem) (pool block : Z) : cres mem :=
  if decide (KMMAX < pool) then Panic "illegal size in kmalloc()" else
  let? km := aget (m_km s) pool in
  let? l := aset (m_km s) pool
    (KmMap (km_size km) (km_used_count km - 1) (km_fresh_count km) (km_free_count km + 1)
       (block :: km_free_chain km) (km_fresh_chain km)) in
  Ok (set_km s l).

Definition kfreeB (s : mem) (size block : Z) : cres mem :=
  if decide (size < 256) then
    let? pool := aget size_map size in kfreeP s pool block
  else Panic "invalid kmallocB".

Definition sizeof_node : Z := 12.

(** The DEBUGGER() traps on an inconsistent page table return to the code,
  which goes on; they only print and are not part of the state. *)
Definition kgetpage (s : mem) : cres (Z * Z * mem) :=
  let! (pg, s) := getpage s in
  let phys := u32 (pg * 4096) in
  if decide (m_nextmem s < 0x80050000) then Panic "kernel vspace exhausted" else
  match m_freev s with
  | (n, page) :: rest =>
      let s := set_freev s rest in
      let! s := kfreeB s sizeof_node n in
      let! s := aspace_maphi s pg (page / 4096) 1 3 in
      Ok (page, phys, s)
  | [] =>
      let s := set_nextmem s (u32 (m_nextmem s - 4096)) in
      let! s := aspace_maphi s pg (m_nextmem s / 4096) 1 3 in
      Ok (m_nextmem s, phys, s)
  end.

Fixpoint kgetpages_loop (s : mem) (n : Z) (count : nat) : cres mem :=
  match count with
  | O => Ok s
  | S count =>
      let! (pg, s) := getpage s in
      let! s := aspace_maphi s pg n 1 3 in
      kgetpages_loop s (n + 1) count
  end.

Definition kgetpages (s : mem) (count : Z) : cres (Z * mem) :=
  if decide (count = 1) then
    let! (page, _, s) := kgetpage s in Ok (page, s)
  else
    let s := set_nextmem s (u32 (m_nextmem s - 4096 * count)) in
    let! s := kgetpages_loop s (m_nextmem s / 4096) (Z.to_nat count) in
    Ok (m_nextmem s, s).

Definition kmappages (s : mem) (phys count flags : Z) : cres (Z * mem) :=
  let s := set_nextmem s (u32 (m_nextmem s - 4096 * count)) in
  let! s := aspace_maphi s phys (m_nextmem s / 4096) count flags in
  Ok (m_nextmem s, s).

Definition kmallocP (s : mem) (pool : Z) : cres (Z * mem) :=
  if decide (KMMAX <= pool) then Panic "illegal size in kmalloc()" else
  let? km := aget (m_km s) pool in
  match km_free_chain km with
  | block :: chain =>
      let? l := aset (m_km s) pool
        (KmMap (km_size km) (km_used_count km + 1) (km_fresh_count km) (km_free_count km - 1)
           chain (km_fresh_chain km)) in
      Ok (block, set_km s l)
  | [] =>
      let block := km_fresh_chain km in
      let fresh := km_fresh_count km - 1 in
      if decide (fresh <> 0) then
        let? l := aset (m_km s) pool
          (KmMap (km_size km) (km_used_count km + 1) fresh (km_free_count km)
             (km_free_chain km) (km_fresh_chain km + km_size km)) in
        Ok (block, set_km s l)
      else
        let? l := aset (m_km s) pool
          (KmMap (km_size km) (km_used_count km + 1) (4096 / km_size km) (km_free_count km)
             (km_free_chain km) (km_fresh_chain km)) in
        let! (page, s) := kgetpages (set_km s l) 1 in
        let? km := aget (m_km s) pool in
        let? l := aset (m_km s) pool
          (KmMap (km_size km) (km_used_count km) (km_fresh_count km) (km_free_count km)
             (km_free_chain km) page) in
        Ok (block, set_km s l)
  end.

Definition kmallocB (s : mem) (size : Z) : cres (Z * mem) :=
  if decide (size < 256) then
    let? pool := aget size_map size in kmallocP s pool
  else Panic "invalid kmallocB".

Definition kfreepage (s : mem) (vaddr : Z) : cres mem :=
  let vpage := Z.land (vaddr / 4096) 1023 in
  let? pte := aget (m_high s) vpage in
  let! s := putpage s (pte / 4096) in
  let? high := aset (m_high s) vpage 0 in
  let s := set_high s high in
  let! (n, s) := kmallocB s sizeof_node in
  Ok (set_freev s ((n, vaddr) :: m_freev s)).

(** ** Initialisation *)

(** [for(i=top_page;i>=bottom_page;i--)], [n] iterations from [i] downwards. *)
Fixpoint pagelist_loop (pl : list Z) (freepage total i : Z) (n : nat) : cres (list Z * Z * Z) :=
  match n with
  | O => Ok (pl, freepage, total)
  | S n =>
      let? pl := aset pl i freepage in
      pagelist_loop pl i (total + 1) (i - 1) n
  end.

Fixpoint pools_loop (s : mem) (i : Z) (n : nat) : cres mem :=
  match n with
  | O => Ok s
  | S n =>
      let! (page, s) := kgetpages s 1 in
      let? km := aget (m_km s) i in
      let? l := aset (m_km s) i
        (KmMap (km_size km) (km_used_count km) (km_fresh_count km) (km_free_count km)
           (km_free_chain km) page) in
      pools_loop (set_km s l) (i + 1) n
  end.

(** [mem0] is the state before initialisation: static initializers, and the
  high page table the boot loader left.  The pagelist pointer is set to
  freshly mapped pages that hold 1024 entries each. *)
Definition memory_init (s : mem) (bottom_page top_page : Z) : cres mem :=
  let count := (top_page - bottom_page) / 1024 + 1 in
  let top_page := top_page - count in
  let s := set_nextmem s (u32 (m_nextmem s - 4096 * count)) in
  let! s := aspace_maphi s top_page (m_nextmem s / 4096) count 3 in
  let! (pl, fp, total) := pagelist_loop (replicate (Z.to_nat (1024 * count)) 0) 0 0 top_page
    (Z.to_nat (top_page - bottom_page + 1)) in
  let s := Mem pl fp 0 total (m_nextmem s) (m_freev s) (m_high s) (m_km s) in
  pools_loop s 0 (Z.to_nat KMMAX).

(** The static state: [nextmem = 0x80400000 - 4*4096], nothing allocated. *)
Definition mem0 (high : list Z) : mem :=
  Mem [] 0 0 0 (0x80400000 - 4 * 4096) [] high km_init.

(** ** The free physical pages *)

(** Following the page list from [n] visits [l] and ends at page 0. *)
Fixpoint chain (pl : list Z) (n : Z) (l : list Z) : Prop :=
  match l with
  | [] => n = 0
  | p :: l => n = p /\ p <> 0 /\ exists nx, aget pl p = Some nx /\ chain pl nx l
  end.

(** [free] are the free pages in the order they will be handed out. *)
Definition pages_wf (s : mem) (free : list Z) : Prop :=
  chain (m_pagelist s) (m_freepage s) free /\ NoDup free /\
  m_used_pages s = u32 (m_total_pages s - Z.of_nat (length free)).

Lemma chain_range pl n l p : chain pl n l -> p ∈ l -> 0 < p < Z.of_nat (length pl).
Proof.
  revert n. induction l as [|q l IH]; intros n; simpl; [set_solver|].
  intros (-> & Hq & nx & Hnx & Hc) [->|Hp]%elem_of_cons.
  - apply aget_Some in Hnx. lia.
  - by eapply IH.
Qed.

Lemma chain_set_other pl pl' n l p v :
  chain pl n l -> p ∉ l -> aset pl p v = Some pl' -> chain pl' n l.
Proof.
  revert n. induction l as [|q l IH]; intros n Hc Hp Ha; simpl in *; [done|].
  destruct Hc as (-> & Hq & nx & Hnx & Hc). split_and!; [done|done|].
  exists nx. split; [|apply IH; set_solver].
  rewrite (aget_aset_ne _ _ _ _ _ Ha); [done|set_solver].
Qed.

Lemma getpage_spec s free :
  pages_wf s free ->
  match free with
  | [] => getpage s = Panic "Out of physical memory"
  | p :: l => exists s', getpage s = Ok (p, s') /\ pages_wf s' l /\
      s' = set_pages s (m_pagelist s) (m_freepage s') (m_used_pages s')
  end.
Proof.
  intros (Hc & Hnd & Hu). unfold getpage. destruct free as [|p l]; simpl in Hc.
  - rewrite Hc. by rewrite decide_False by lia.
  - destruct Hc as (Hp & Hp0 & nx & Hnx & Hc). rewrite Hp. rewrite decide_True by done.
    rewrite Hnx. simpl. eexists. split; [done|]. split; [|done].
    apply NoDup_cons in Hnd as [_ Hnd]. split_and!; [done|done|]. simpl. rewrite Hu. simpl length.
    unfold u32. rewrite Zplus_mod_idemp_l. f_equal. lia.
Qed.

Lemma putpage_spec s free p :
  pages_wf s free -> 0 < p < Z.of_nat (length (m_pagelist s)) -> p ∉ free ->
  exists s', putpage s p = Ok s' /\ pages_wf s' (p :: free) /\
    s' = set_pages s (m_pagelist s') p (m_used_pages s') /\
    length (m_pagelist s') = length (m_pagelist s).
Proof.
  intros (Hc & Hnd & Hu) Hp Hnot. unfold putpage.
  rewrite aset_in_range by lia. simpl. eexists. split; [done|].
  assert (Ha : aset (m_pagelist s) p (m_freepage s) =
    Some (<[Z.to_nat p := m_freepage s]> (m_pagelist s))) by (apply aset_in_range; lia).
  split; [split; [|split]|split]; simpl.
  - split_and!; [done|lia|]. exists (m_freepage s). split.
    + by eapply aget_aset_eq.
    + by eapply chain_set_other.
  - by apply NoDup_cons.
  - simpl. rewrite Hu. unfold u32. rewrite Zminus_mod_idemp_l. f_equal. lia.
  - done.
  - apply length_insert.
Qed.

(** ** Invariant of the pools and of the kernel virtual pages *)

Definition pool_size (i : nat) : Z := nth i [16; 32; 64; 96; 128; 192; 256] 0.

Lemma pool_size_range i : (i < 7)%nat -> 16 <= pool_size i <= 256.
Proof. intros. do 7 (destruct i as [|i]; [vm_compute; split; discriminate|]). lia. Qed.

(** [b] is a block of pool [i]: [own] says which pool a virtual page serves. *)
Definition blk (own : gmap Z nat) (i : nat) (b : Z) : Prop :=
  own !! (b / 4096) = Some i /\ (b mod 4096) mod pool_size i = 0 /\
  b mod 4096 + pool_size i <= 4096.

(** The blocks in use: the client's and the nodes of freevpagelist. *)
Definition inuse (s : mem) (live : gset Z) : gset Z := live ∪ list_to_set (m_freev s).*1.

Record pool_ok (own : gmap Z nat) (used : gset Z) (i : nat) (km : km_map) : Prop := {
  po_size : km_size km = pool_size i;
  po_nodup : NoDup (km_free_chain km);
  po_count : km_free_count km = Z.of_nat (length (km_free_chain km));
  po_free : forall b, b ∈ km_free_chain km -> blk own i b /\ b ∉ used;
  po_page : own !! (km_fresh_chain km / 4096) = Some i;
  po_off : km_fresh_chain km mod 4096 =
    (4096 / pool_size i - km_fresh_count km) * pool_size i;
  po_fresh : 1 <= km_fresh_count km <= 4096 / pool_size i;
  po_below : forall b, b ∈ km_free_chain km \/ b ∈ used ->
    b / 4096 = km_fresh_chain km / 4096 -> b < km_fresh_chain km;
}.

Record wf (s : mem) (own : gmap Z nat) (live : gset Z) : Prop := {
  wf_pages : exists free, pages_wf s free;
  wf_len : length (m_km s) = 7%nat;
  wf_pool : forall i km, m_km s !! i = Some km -> pool_ok own (inuse s live) i km;
  wf_live : forall b, b ∈ inuse s live -> exists i, (i < 7)%nat /\ blk own i b;
  wf_nodes : NoDup (m_freev s).*1;
  wf_nodes_blk : forall n, n ∈ (m_freev s).*1 -> n ∉ live /\ blk own 0 n;
  wf_next : m_nextmem s mod 4096 = 0 /\ 0x8004F000 <= m_nextmem s < 2 ^ 32;
  wf_own : forall v i, own !! v = Some i -> m_nextmem s <= v * 4096 /\ (i < 7)%nat;
  wf_vpages : NoDup (m_freev s).*2;
  wf_freev : forall v, v ∈ (m_freev s).*2 ->
    v mod 4096 = 0 /\ own !! (v / 4096) = None /\ m_nextmem s <= v;
  wf_high : length (m_high s) = 1024%nat;
}.

(** Blocks of the invariant never overlap. *)
Lemma blk_disjoint own i j b c :
  (i < 7)%nat -> (j < 7)%nat -> blk own i b -> blk own j c -> b <> c ->
  b + pool_size i <= c \/ c + pool_size j <= b.
Proof.
  intros Hi Hj (Hb1 & Hb2 & Hb3) (Hc1 & Hc2 & Hc3) Hne.
  pose proof (pool_size_range i Hi). pose proof (pool_size_range j Hj).
  pose proof (Z.div_mod b 4096). pose proof (Z.div_mod c 4096).
  pose proof (Z.mod_pos_bound b 4096). pose proof (Z.mod_pos_bound c 4096).
  destruct (Z.lt_trichotomy (b / 4096) (c / 4096)) as [Hlt|[Heq|Hlt]]; [left; lia| |right; lia].
  rewrite Heq in Hb1. rewrite Hb1 in Hc1. injection Hc1 as <-.
  apply Z.mod_divide in Hb2 as [x Hx]; [|lia]. apply Z.mod_divide in Hc2 as [y Hy]; [|lia].
  assert (x <> y) by (intros ->; apply Hne; lia).
  destruct (Z.lt_trichotomy x y) as [|[|]]; [left|done|right]; nia.
Qed.

Definition push (b : Z) (km : km_map) : km_map :=
  KmMap (km_size km) (km_used_count km - 1) (km_fresh_count km) (km_free_count km + 1)
    (b :: km_free_chain km) (km_fresh_chain km).

Lemma kfreeP_eq s i km b :
  (i < 7)%nat -> m_km s !! i = Some km ->
  kfreeP s (Z.of_nat i) b = Ok (set_km s (<[i := push b km]> (m_km s))).
Proof.
  intros Hi Hkm. unfold kfreeP, KMMAX. rewrite decide_False by lia.
  unfold aget. rewrite decide_True by lia. rewrite Nat2Z.id, Hkm. simpl.
  apply lookup_lt_Some in Hkm. rewrite aset_in_range by lia. simpl.
  by rewrite Nat2Z.id.
Qed.

(** A pool is not disturbed by other pools' blocks or by new pages. *)
Lemma pool_ok_mono own own' used used' i km :
  pool_ok own used i km -> own ⊆ own' ->
  (forall b, b ∈ used' -> b ∈ used \/ (b ∉ km_free_chain km /\
     (b / 4096 = km_fresh_chain km / 4096 -> b < km_fresh_chain km))) ->
  pool_ok own' used' i km.
Proof.
  intros [] Hsub Hu. constructor; try done.
  - intros b Hb. destruct (po_free0 b Hb) as [(H1 & H2 & H3) Hnot]. split.
    + split_and!; try done. by eapply lookup_weaken.
    + intros [?|[? _]]%Hu; done.
  - by eapply lookup_weaken.
  - intros b [Hb|[Hb|[_ Hb]]%Hu]; auto.
Qed.

Lemma pool_ok_push own used i km b :
  pool_ok own used i km -> blk own i b -> b ∈ used -> pool_ok own (used ∖ {[b]}) i (push b km).
Proof.
  intros [] Hblk Hb. constructor; simpl; try done.
  - apply NoDup_cons. split; [|done]. intros Hin. by apply po_free0 in Hin as [_ ?].
  - lia.
  - intros c [->|Hc]%elem_of_cons; [split; [done|set_solver]|].
    destruct (po_free0 c Hc). split; [done|set_solver].
  - intros c [[->|Hc]%elem_of_cons|[Hc _]%elem_of_difference]; apply po_below0; auto.
Qed.

Lemma blk_pool own i j b : blk own i b -> blk own j b -> i = j.
Proof. intros (H1 & _) (H2 & _). congruence. Qed.

(** The page table update of a single page always succeeds. *)
Lemma maphi1_ok s pg v :
  length (m_high s) = 1024%nat ->
  exists h, aspace_maphi s pg v 1 3 = Ok (set_high s h) /\ length h = 1024%nat.
Proof.
  intros Hl. unfold aspace_maphi. simpl.
  assert (0 <= Z.land v 1023 < 1024).
  { change 1023 with (Z.ones 10). rewrite Z.land_ones by lia.
    pose proof (Z.mod_pos_bound v (2 ^ 10)). lia. }
  rewrite Z.add_0_r. rewrite aset_in_range by lia. simpl.
  eexists. split; [done|]. by rewrite length_insert.
Qed.

Lemma kgetpage_ok s :
  (exists free, pages_wf s free) -> length (m_high s) = 1024%nat -> length (m_km s) = 7%nat ->
  match kgetpage s with
  | Ok (page, _, s') => (exists free, pages_wf s' free) /\ length (m_high s') = 1024%nat /\
      0x80050000 <= m_nextmem s /\
      ((m_freev s = [] /\ m_nextmem s' = u32 (m_nextmem s - 4096) /\ page = m_nextmem s' /\
        m_freev s' = [] /\ m_km s' = m_km s) \/
       (exists n rest km0, m_freev s = (n, page) :: rest /\ m_freev s' = rest /\
        m_nextmem s' = m_nextmem s /\ m_km s !! 0%nat = Some km0 /\
        m_km s' = <[0%nat := push n km0]> (m_km s)))
  | Panic _ => True
  | Fault => False
  end.
Proof.
  intros [free Hp] Hh Hlen. pose proof (getpage_spec s free Hp) as Hg. unfold kgetpage.
  destruct free as [|p l]; [by rewrite Hg|].
  destruct Hg as (s1 & -> & Hp1 & Hs1). simpl.
  assert (m_nextmem s1 = m_nextmem s /\ m_freev s1 = m_freev s /\ m_high s1 = m_high s /\
    m_km s1 = m_km s) as (En & Ef & Eh & Ek) by (rewrite Hs1; done).
  rewrite En, Ef. case_decide; [done|].
  destruct (m_freev s) as [|[n page] rest] eqn:Efv.
  - destruct (maphi1_ok (set_nextmem s1 (u32 (m_nextmem s - 4096))) p
      (u32 (m_nextmem s - 4096) / 4096)) as (h & Hm & Hl); [simpl; congruence|].
    simpl in Hm |- *. rewrite Hm. simpl. split_and!; [by exists l|done|lia|].
    left. split_and!; done.
  - destruct (lookup_lt_is_Some_2 (m_km s) 0) as [km0 Hkm0]; [lia|].
    change (kfreeB ?s0 sizeof_node n) with (kfreeP s0 (Z.of_nat 0) n).
    rewrite (kfreeP_eq _ 0 km0) by (simpl; first [lia|congruence]). simpl.
    match goal with |- context [aspace_maphi ?st _ _ _ _] =>
      destruct (maphi1_ok st p (page / 4096)) as (h & Hm & Hl); [simpl; congruence|] end.
    rewrite Hm. simpl. split_and!; [by exists l|done|lia|].
    right. exists n, rest, km0. rewrite Ek. done.
Qed.

Lemma pool_div i : (i < 7)%nat ->
  1 <= 4096 / pool_size i /\ 4096 / pool_size i * pool_size i <= 4096.
Proof. intros. do 7 (destruct i as [|i]; [vm_compute; split; discriminate|]). lia. Qed.

(** The next fresh block of a pool is a block that is not in use. *)
Lemma fresh_blk own used i km :
  (i < 7)%nat -> pool_ok own used i km ->
  blk own i (km_fresh_chain km) /\ km_fresh_chain km ∉ used /\
  km_fresh_chain km ∉ km_free_chain km.
Proof.
  intros Hi []. pose proof (pool_size_range i Hi). pose proof (pool_div i Hi). split_and!.
  - split_and!; [done| |]; rewrite po_off0; [apply Z.mod_mul; lia|nia].
  - intros Hu. specialize (po_below0 _ (or_intror Hu) eq_refl). lia.
  - intros Hu. specialize (po_below0 _ (or_introl Hu) eq_refl). lia.
Qed.

(** A block of pool [i] does not disturb another pool [j]. *)
Lemma pool_ok_other own used i j km b :
  pool_ok own used j km -> i <> j -> blk own i b -> pool_ok own ({[b]} ∪ used) j km.
Proof.
  intros Hok Hij Hb. eapply pool_ok_mono; [exact Hok|done|].
  intros c [->%elem_of_singleton|?]%elem_of_union; [right|by left].
  split.
  - intros Hin. apply (po_free _ _ _ _ Hok) in Hin as [Hc _]. by eapply Hij, blk_pool.
  - intros Hpg. destruct Hb as (Hb & _). rewrite Hpg, (po_page _ _ _ _ Hok) in Hb. congruence.
Qed.

(** Popping the free chain, or cutting the next fresh block. *)
Lemma pool_ok_pop own used i km b ch :
  pool_ok own used i km -> km_free_chain km = b :: ch ->
  pool_ok own ({[b]} ∪ used) i (KmMap (km_size km) (km_used_count km + 1) (km_fresh_count km)
    (km_free_count km - 1) ch (km_fresh_chain km)).
Proof.
  intros [] Hch. rewrite Hch in *. apply NoDup_cons in po_nodup0 as [Hb Hnd].
  constructor; simpl in *; try done.
  - lia.
  - intros c Hc. destruct (po_free0 c) as [? Hcu]; [by right|]. split; [done|].
    intros [->%elem_of_singleton|?]%elem_of_union; done.
  - intros c [Hc|[->%elem_of_singleton|Hc]%elem_of_union]; apply po_below0;
      [left; by right|left; left|by right].
Qed.

Lemma pool_ok_cut own used i km :
  (i < 7)%nat -> pool_ok own used i km -> km_fresh_count km - 1 <> 0 ->
  pool_ok own ({[km_fresh_chain km]} ∪ used) i
    (KmMap (km_size km) (km_used_count km + 1) (km_fresh_count km - 1)
       (km_free_count km) (km_free_chain km) (km_fresh_chain km + km_size km)).
Proof.
  intros Hi Hok Hne. destruct (fresh_blk _ _ _ _ Hi Hok) as (Hblk & Hnu & Hnc).
  destruct Hok. pose proof (pool_size_range i Hi). pose proof (pool_div i Hi).
  pose proof (Z.div_mod (km_fresh_chain km) 4096 ltac:(lia)).
  assert (Hpg : (km_fresh_chain km + pool_size i) / 4096 = km_fresh_chain km / 4096 /\
    (km_fresh_chain km + pool_size i) mod 4096 = km_fresh_chain km mod 4096 + pool_size i).
  { assert (0 <= km_fresh_chain km mod 4096 + pool_size i < 4096) by nia.
    split.
    - symmetry. apply (Z.div_unique _ _ _ (km_fresh_chain km mod 4096 + pool_size i)); lia.
    - symmetry. apply (Z.mod_unique _ _ (km_fresh_chain km / 4096)); lia. }
  destruct Hpg as [Hpg Hmod].
  constructor; simpl; rewrite ?po_size0, ?Hpg, ?Hmod; try done; try lia.
  - intros c Hc. destruct (po_free0 c Hc). split; [done|].
    intros [->%elem_of_singleton|?]%elem_of_union; done.
  - intros c [Hc|[->%elem_of_singleton|Hc]%elem_of_union] Hcp.
    + specialize (po_below0 c (or_introl Hc) Hcp). lia.
    + lia.
    + specialize (po_below0 c (or_intror Hc) Hcp). lia.
Qed.

(** A pool that has just been given the fresh page [page]. *)
Lemma pool_ok_newpage own own' used used' i km ch page :
  (i < 7)%nat -> pool_ok own used i km -> own' = <[page / 4096 := i]> own ->
  page mod 4096 = 0 -> own !! (page / 4096) = None ->
  NoDup ch -> (forall b, b ∈ ch -> blk own i b /\ b ∉ used') ->
  (forall b, b ∈ used' -> exists j, blk own j b) ->
  forall u c, c = Z.of_nat (length ch) ->
  pool_ok own' used' i (KmMap (km_size km) u (4096 / km_size km) c ch page).
Proof.
  intros Hi [] -> Hal Hnone Hnd Hch Hused u c ->.
  pose proof (pool_div i Hi).
  constructor; simpl; rewrite ?po_size0; try done; try lia.
  - intros b Hb. destruct (Hch b Hb) as [(H1 & H2 & H3) ?]. split; [|done].
    split_and!; try done. rewrite lookup_insert_ne by congruence. done.
  - by rewrite lookup_insert_eq.
  - assert (Hno : forall b j, blk own j b -> b / 4096 <> page / 4096)
      by (intros b j (Hb & _) Hpg; congruence).
    intros b [Hb|Hb] Hpg; exfalso.
    + destruct (Hch b Hb) as [Hblk _]. by eapply Hno.
    + destruct (Hused b Hb) as [j Hblk]. by eapply Hno.
Qed.

Lemma inuse_add s s' live b : m_freev s' = m_freev s ->
  inuse s' ({[b]} ∪ live) = {[b]} ∪ inuse s live.
Proof. intros H. unfold inuse. rewrite H. set_solver. Qed.

(** Handing out the block [b] of pool [i] with the pool updated to [km']. *)
Lemma wf_hand_out s own live i km km' b :
  (i < 7)%nat -> wf s own live -> m_km s !! i = Some km -> blk own i b ->
  b ∉ inuse s live -> pool_ok own ({[b]} ∪ inuse s live) i km' ->
  wf (set_km s (<[i := km']> (m_km s))) own ({[b]} ∪ live).
Proof.
  intros Hi [] Hkm Hb Hnu Hok'. constructor; simpl; try done.
  - by rewrite length_insert.
  - intros j kmj Hj. rewrite (inuse_add s) by done.
    destruct (decide (i = j)) as [<-|Hij].
    + rewrite list_lookup_insert_eq in Hj by lia. by injection Hj as <-.
    + rewrite list_lookup_insert_ne in Hj by done. by eapply pool_ok_other; eauto.
  - intros c. rewrite (inuse_add s) by done.
    intros [->%elem_of_singleton|?]%elem_of_union; eauto.
  - intros n Hn. destruct (wf_nodes_blk0 n Hn). split; [|done].
    intros [->%elem_of_singleton|?]%elem_of_union; [|done].
    apply Hnu. unfold inuse. set_solver.
Qed.

(** The facts about the page that [kgetpage] returns. *)
Definition fresh_page (s s' : mem) (own : gmap Z nat) (page : Z) : Prop :=
  page mod 4096 = 0 /\ own !! (page / 4096) = None /\ page ∉ (m_freev s').*2 /\
  m_nextmem s' <= page /\ m_nextmem s' mod 4096 = 0 /\ 0x8004F000 <= m_nextmem s' < 2 ^ 32 /\
  m_nextmem s' <= m_nextmem s.

(** How [kgetpage] gets its page (see [kgetpage_ok]). *)
Definition page_source (s s' : mem) (page : Z) : Prop :=
  (m_freev s = [] /\ m_nextmem s' = u32 (m_nextmem s - 4096) /\ page = m_nextmem s' /\
   m_freev s' = []) \/
  (exists n rest, m_freev s = (n, page) :: rest /\ m_freev s' = rest /\
   m_nextmem s' = m_nextmem s).

Lemma page_source_fresh s s' own live page :
  wf s own live -> 0x80050000 <= m_nextmem s -> page_source s s' page -> fresh_page s s' own page.
Proof.
  intros [] Hlow [(Hf & Hn & -> & Hf')|(n & rest & Hf & Hf' & Hn)].
  - destruct wf_next0 as [Hal Hr]. rewrite u32_small in Hn by lia.
    assert (Hm : (m_nextmem s - 4096) mod 4096 = 0)
      by (rewrite Zminus_mod, Hal; reflexivity).
    unfold fresh_page. rewrite Hn, Hf'. split_and!; try done; try lia.
    + destruct (own !! ((m_nextmem s - 4096) / 4096)) as [i|] eqn:E; [|done].
      apply wf_own0 in E as [E _]. pose proof (Z.div_mod (m_nextmem s - 4096) 4096). lia.
    + set_solver.
  - unfold fresh_page. rewrite Hn, Hf'. rewrite Hf in *. simpl in *.
    destruct (wf_freev0 page) as (? & ? & ?); [left|].
    apply NoDup_cons in wf_vpages0 as [? _]. split_and!; try done; lia.
Qed.

(** After the new page, the virtual page bookkeeping is still right. *)
Lemma newpage_vpages s s' own live page i :
  (i < 7)%nat -> wf s own live -> page_source s s' page -> fresh_page s s' own page ->
  NoDup (m_freev s').*1 /\ NoDup (m_freev s').*2 /\
  (forall n, n ∈ (m_freev s').*1 -> n ∈ (m_freev s).*1) /\
  (forall v j, <[page / 4096 := i]> own !! v = Some j -> m_nextmem s' <= v * 4096 /\ (j < 7)%nat) /\
  (forall v, v ∈ (m_freev s').*2 -> v mod 4096 = 0 /\ <[page / 4096 := i]> own !! (v / 4096) = None /\
     m_nextmem s' <= v).
Proof.
  intros Hi [] Hsrc (Hal & Hown & Hnotin & Hle & _ & _ & Hmono).
  pose proof (Z.div_mod page 4096). 
  assert (Hsub : NoDup (m_freev s').*1 /\ NoDup (m_freev s').*2 /\
    (forall n, n ∈ (m_freev s').*1 -> n ∈ (m_freev s).*1) /\
    (forall v, v ∈ (m_freev s').*2 -> v ∈ (m_freev s).*2)).
  { destruct Hsrc as [(Hf & _ & _ & ->)|(n & rest & Hf & -> & _)]; rewrite Hf in *; [done|].
    simpl in *. apply NoDup_cons in wf_nodes0 as [_ ?]. apply NoDup_cons in wf_vpages0 as [_ ?].
    split_and!; try done; intros; by right. }
  destruct Hsub as (H1 & H2 & H3 & H4). split_and!; try done.
  - intros v j. rewrite lookup_insert. case_decide as Hv.
    + intros [= <-]. split; [lia|done].
    + intros Hj. apply wf_own0 in Hj. lia.
  - intros v Hv. destruct (wf_freev0 v (H4 v Hv)) as (Hva & Hvo & Hvn). split_and!; [done| |lia].
    rewrite lookup_insert_ne; [done|]. intros Heq. apply Hnotin.
    pose proof (Z.div_mod v 4096). assert (v = page) by lia. congruence.
Qed.

(** The pools after kmallocP took a page: the chain of the pool it serves is
  empty, or holds the node that freevpagelist gave back. *)
Lemma newpage_pools s s1 s2 own live i km page :
  (i < 7)%nat -> wf s own live -> m_km s !! i = Some km -> km_free_chain km = [] ->
  s1 = set_km s (<[i := KmMap (km_size km) (km_used_count km + 1) (4096 / km_size km)
        (km_free_count km) [] (km_fresh_chain km)]> (m_km s)) ->
  ((m_freev s1 = [] /\ m_nextmem s2 = u32 (m_nextmem s1 - 4096) /\ page = m_nextmem s2 /\
    m_freev s2 = [] /\ m_km s2 = m_km s1) \/
   (exists n rest km0, m_freev s1 = (n, page) :: rest /\ m_freev s2 = rest /\
    m_nextmem s2 = m_nextmem s1 /\ m_km s1 !! 0%nat = Some km0 /\
    m_km s2 = <[0%nat := push n km0]> (m_km s1))) ->
  exists ch c u,
    m_km s2 !! i = Some (KmMap (km_size km) u (4096 / km_size km) c ch (km_fresh_chain km)) /\
    c = Z.of_nat (length ch) /\ NoDup ch /\ length (m_km s2) = 7%nat /\
    (forall x, x ∈ ch -> blk own i x /\ x ∉ inuse s2 ({[km_fresh_chain km]} ∪ live)) /\
    (forall j kmj, j <> i -> m_km s2 !! j = Some kmj -> pool_ok own (inuse s2 live) j kmj).
Proof.
  intros Hi Hwf Hkm Hch -> Hcase. simpl in Hcase.
  pose proof (wf_len _ _ _ Hwf) as Hlen.
  assert (Hok : pool_ok own (inuse s live) i km) by (by eapply wf_pool).
  destruct (fresh_blk _ _ _ _ Hi Hok) as (_ & Hnu & _).
  pose proof (po_count _ _ _ _ Hok) as Hcnt. rewrite Hch in Hcnt. simpl in Hcnt.
  destruct Hcase as [(Hf & _ & _ & Hf2 & Hk2)|(n & rest & km0 & Hf & Hf2 & _ & Hkm0 & Hk2)].
  - exists [], (km_free_count km), (km_used_count km + 1). rewrite Hk2, length_insert.
    rewrite list_lookup_insert_eq by lia. split_and!; try done; [constructor|set_solver|].
    intros j kmj Hj. rewrite list_lookup_insert_ne by done. intros Hl.
    apply (wf_pool _ _ _ Hwf) in Hl. unfold inuse in *. by rewrite Hf in Hl; rewrite Hf2.
  - destruct (wf_nodes_blk _ _ _ Hwf n) as [Hnl Hnb]; [rewrite Hf; left|].
    assert (Hnr : n ∉ rest.*1).
    { pose proof (wf_nodes _ _ _ Hwf) as Hnn. rewrite Hf in Hnn. by apply NoDup_cons in Hnn as [? _]. }
    assert (Hnin : n ∈ inuse s live) by (unfold inuse; rewrite Hf; set_solver).
    assert (Hin2 : inuse s2 live = inuse s live ∖ {[n]}) by (unfold inuse; rewrite Hf, Hf2; set_solver).
    assert (Hnb' : n <> km_fresh_chain km) by (intros ->; done).
    destruct (decide (i = 0%nat)) as [->|Hi0].
    + rewrite list_lookup_insert_eq in Hkm0 by lia. injection Hkm0 as <-.
      exists [n], (km_free_count km + 1), (km_used_count km). rewrite Hk2.
      rewrite list_insert_insert_eq, length_insert, list_lookup_insert_eq by lia.
      split_and!; simpl; try done; try lia.
      * f_equal. unfold push. simpl. f_equal. lia.
      * apply NoDup_singleton.
      * intros x ->%list_elem_of_singleton. split; [done|].
        rewrite (inuse_add s2) by done. rewrite Hin2. set_solver.
      * intros j kmj Hj. rewrite list_lookup_insert_ne by done. intros Hl.
        apply (wf_pool _ _ _ Hwf) in Hl. rewrite Hin2.
        eapply pool_ok_mono; [exact Hl|done|set_solver].
    + rewrite list_lookup_insert_ne in Hkm0 by done.
      exists [], (km_free_count km), (km_used_count km + 1). rewrite Hk2, !length_insert.
      rewrite list_lookup_insert_ne, list_lookup_insert_eq by first [done|lia].
      split_and!; try done; [constructor|set_solver|].
      intros j kmj Hj. rewrite Hin2. destruct (decide (j = 0%nat)) as [->|Hj0].
      * rewrite list_lookup_insert_eq by (rewrite length_insert; lia). intros [= <-].
        apply pool_ok_push; [by eapply wf_pool|done|done].
      * rewrite !list_lookup_insert_ne by done. intros Hl.
        apply (wf_pool _ _ _ Hwf) in Hl. eapply pool_ok_mono; [exact Hl|done|set_solver].
Qed.

Lemma kmallocP_newpage_wf s own live i km :
  (i < 7)%nat -> wf s own live -> m_km s !! i = Some km -> km_free_chain km = [] ->
  match
    (let! (page, s1) := kgetpages (set_km s (<[i := KmMap (km_size km) (km_used_count km + 1)
        (4096 / km_size km) (km_free_count km) [] (km_fresh_chain km)]> (m_km s))) 1 in
     let? km1 := aget (m_km s1) (Z.of_nat i) in
     let? l := aset (m_km s1) (Z.of_nat i) (KmMap (km_size km1) (km_used_count km1)
        (km_fresh_count km1) (km_free_count km1) (km_free_chain km1) page) in
     Ok (km_fresh_chain km, set_km s1 l))
  with
  | Ok (b, s') => exists own', own ⊆ own' /\ b ∉ inuse s live /\ blk own' i b /\
      wf s' own' ({[b]} ∪ live)
  | Panic _ => True
  | Fault => False
  end.
Proof.
  intros Hi Hwf Hkm Hch. unfold kgetpages. rewrite decide_True by done.
  pose proof (wf_len _ _ _ Hwf) as Hlen.
  set (kmx := KmMap (km_size km) _ _ _ _ _). set (s1 := set_km s _).
  pose proof (kgetpage_ok s1 (wf_pages _ _ _ Hwf) (wf_high _ _ _ Hwf)) as Hg.
  specialize (Hg ltac:(simpl; by rewrite length_insert)).
  destruct (kgetpage s1) as [[[page ph] s2]| |]; simpl; [|done..].
  destruct Hg as (Hp2 & Hh2 & Hlow & Hcase).
  assert (Hsrc : page_source s s2 page).
  { destruct Hcase as [(H1 & H2 & H3 & H4 & _)|(n & rest & km0 & H1 & H2 & H3 & _ & _)];
      [left; done|right; eauto]. }
  pose proof (page_source_fresh s s2 own live page Hwf Hlow Hsrc) as Hfresh.
  destruct (newpage_vpages s s2 own live page i Hi Hwf Hsrc Hfresh)
    as (Hn1 & Hn2 & Hnsub & Hown' & Hfreev').
  destruct Hfresh as (Hal & Hnone & _ & _ & Hnx1 & Hnx2 & _).
  set (own' := <[page / 4096 := i]> own) in *.
  assert (Hsub : own ⊆ own') by (by apply insert_subseteq).
  assert (Hok : pool_ok own (inuse s live) i km) by (by eapply wf_pool).
  destruct (fresh_blk _ _ _ _ Hi Hok) as (Hblk & Hnu & _).
  set (b := km_fresh_chain km) in *.
  assert (Hblk' : forall j c, blk own j c -> blk own' j c).
  { intros j c (H1 & H2 & H3). split_and!; try done. by eapply lookup_weaken. }
  (* the pools after kgetpage, by cases on where the page came from *)
  assert (exists ch c u, m_km s2 !! i = Some (KmMap (km_size km) u (4096 / km_size km) c ch b) /\
    c = Z.of_nat (length ch) /\ NoDup ch /\ length (m_km s2) = 7%nat /\
    (forall x, x ∈ ch -> blk own i x /\ x ∉ inuse s2 ({[b]} ∪ live)) /\
    (forall j kmj, j <> i -> m_km s2 !! j = Some kmj ->
       pool_ok own (inuse s2 live) j kmj)) as (ch & c & u & Hi2 & Hc & Hnd & Hlen2 & Hch2 & Hoth).
  { eapply newpage_pools; eauto. }
  unfold aget. rewrite decide_True by lia. rewrite Nat2Z.id, Hi2. simpl.
  rewrite aset_in_range by lia. simpl. rewrite Nat2Z.id.
  exists own'. split_and!; [done|done|by apply Hblk'|].
  assert (Hused : forall x, x ∈ inuse s2 ({[b]} ∪ live) -> exists j, (j < 7)%nat /\ blk own j x).
  { intros x. rewrite (inuse_add s2) by done. intros [->%elem_of_singleton|Hx]%elem_of_union; [eauto|].
    apply (wf_live _ _ _ Hwf). unfold inuse in *. set_solver. }
  constructor; simpl; try done.
  - by rewrite length_insert.
  - intros j kmj Hj. destruct (decide (i = j)) as [<-|Hij].
    + rewrite list_lookup_insert_eq in Hj by lia. injection Hj as <-.
      eapply pool_ok_newpage; eauto. intros x Hx. destruct (Hused x Hx) as (k & _ & ?). eauto.
    + rewrite list_lookup_insert_ne in Hj by done.
      eapply pool_ok_mono; [|exact Hsub|intros x Hx; by left].
      rewrite (inuse_add s2) by done. eapply pool_ok_other; eauto.
  - intros x Hx. destruct (Hused x Hx) as (j & Hj & ?). exists j. split; [done|by apply Hblk'].
  - intros n Hn. destruct (wf_nodes_blk _ _ _ Hwf n (Hnsub n Hn)) as [Hnl Hnb].
    split; [|by apply Hblk']. intros [->%elem_of_singleton|?]%elem_of_union; [|done].
    apply Hnu. unfold inuse. set_solver.
Qed.

(** kmallocP on a free pool block, a fresh block, or after a new page. *)
Lemma kmallocP_wf s own live i :
  (i < 7)%nat -> wf s own live ->
  match kmallocP s (Z.of_nat i) with
  | Ok (b, s') => exists own', own ⊆ own' /\ b ∉ inuse s live /\ blk own' i b /\
      wf s' own' ({[b]} ∪ live)
  | Panic _ => True
  | Fault => False
  end.
Proof.
  intros Hi Hwf. destruct (lookup_lt_is_Some_2 (m_km s) i) as [km Hkm].
  { rewrite (wf_len _ _ _ Hwf). lia. }
  assert (Hok : pool_ok own (inuse s live) i km) by (by eapply wf_pool).
  destruct (fresh_blk _ _ _ _ Hi Hok) as (Hblk & Hnu & Hnc).
  assert (Hget : aget (m_km s) (Z.of_nat i) = Some km)
    by (unfold aget; by rewrite decide_True, Nat2Z.id by lia).
  assert (Hset : forall km', aset (m_km s) (Z.of_nat i) km' = Some (<[i := km']> (m_km s))).
  { intros km'. rewrite aset_in_range by (rewrite (wf_len _ _ _ Hwf); lia). by rewrite Nat2Z.id. }
  unfold kmallocP, KMMAX. rewrite decide_False by lia. rewrite Hget. simpl.
  destruct (km_free_chain km) as [|b ch] eqn:Hch.
  - case_decide as Hfr.
    + rewrite Hset. simpl. exists own. split_and!; try done.
      eapply wf_hand_out; eauto. rewrite <- Hch. by apply pool_ok_cut.
    + rewrite Hset. simpl. by eapply kmallocP_newpage_wf.
  - rewrite Hset. simpl. exists own.
    destruct (po_free _ _ _ _ Hok b) as [Hb Hbu]; [rewrite Hch; left|].
    split_and!; try done. eapply wf_hand_out; eauto. by eapply pool_ok_pop.
Qed.

Lemma kfreeP_wf s own live i b :
  (i < 7)%nat -> wf s own live -> b ∈ live -> blk own i b ->
  exists s', kfreeP s (Z.of_nat i) b = Ok s' /\ wf s' own (live ∖ {[b]}).
Proof.
  intros Hi Hwf Hb Hblk. pose proof (wf_len _ _ _ Hwf) as Hlen.
  destruct (lookup_lt_is_Some_2 (m_km s) i) as [km Hkm]; [lia|].
  rewrite (kfreeP_eq s i km) by done. eexists. split; [done|].
  assert (Hin : inuse s (live ∖ {[b]}) = inuse s live ∖ {[b]}).
  { unfold inuse. assert (b ∉ (m_freev s).*1) by (intros H%(wf_nodes_blk _ _ _ Hwf); tauto).
    set_solver. }
  destruct Hwf. constructor; simpl; try done.
  - by rewrite length_insert.
  - intros j kmj Hj. unfold inuse. simpl.
    change (live ∖ {[b]} ∪ list_to_set (m_freev s).*1) with (inuse s (live ∖ {[b]})).
    rewrite Hin. destruct (decide (i = j)) as [<-|Hij].
    + rewrite list_lookup_insert_eq in Hj by lia. injection Hj as <-.
      apply pool_ok_push; [by eapply wf_pool0|done|]. unfold inuse. set_solver.
    + rewrite list_lookup_insert_ne in Hj by done. apply wf_pool0 in Hj.
      eapply pool_ok_mono; [exact Hj|done|set_solver].
  - intros c Hc. apply wf_live0. unfold inuse in *. simpl in Hc. set_solver.
  - intros n Hn. destruct (wf_nodes_blk0 n Hn). set_solver.
Qed.

(** The size classes: the block always fits and the class is the smallest one. *)
Lemma size_map_fits size :
  0 <= size < 256 ->
  exists i, (i < 7)%nat /\ aget size_map size = Some (Z.of_nat i) /\ size <= pool_size i /\
    forall j, (j < i)%nat -> pool_size j < size.
Proof.
  intros Hs.
  assert (H : forallb (fun n => match aget size_map (Z.of_nat n) with
    | Some p => (p <? 7) && (0 <=? p) && (Z.of_nat n <=? pool_size (Z.to_nat p)) &&
        forallb (fun j => pool_size j <? Z.of_nat n) (seq 0 (Z.to_nat p))
    | None => false end) (seq 0 256) = true) by (vm_compute; reflexivity).
  rewrite forallb_forall in H. specialize (H (Z.to_nat size)).
  rewrite in_seq, Z2Nat.id in H by lia. specialize (H ltac:(lia)).
  destruct (aget size_map size) as [p|]; [|done].
  rewrite !andb_true_iff, forallb_forall, Z.ltb_lt, !Z.leb_le in H.
  destruct H as (((H1 & H2) & H3) & H4).
  exists (Z.to_nat p). rewrite Z2Nat.id by lia. split_and!; [lia|done|done|].
  intros j Hj. apply Z.ltb_lt, H4, in_seq. lia.
Qed.

(** C2. kmallocB(size) for 0 <= size < 256, in a well-formed allocator whose
  client blocks are [live]: it either panics (out of physical pages or of kernel
  address space) or returns a block of the smallest size class that holds [size]
  bytes; the block is not one of the live blocks and overlaps none of them
  whatever their classes, and the allocator stays well formed with the block
  live.  It never touches memory outside its own tables. *)
Theorem kmallocB_disjoint s own live size
    (Hwf : wf s own live) (Hsize : 0 <= size < 256) :
  match kmallocB s size with
  | Ok (b, s') => exists own' i, own ⊆ own' /\ (i < 7)%nat /\ size <= pool_size i /\
      (forall j, (j < i)%nat -> pool_size j < size) /\ blk own' i b /\
      wf s' own' ({[b]} ∪ live) /\
      forall c, c ∈ live -> exists j, (j < 7)%nat /\ blk own' j c /\
        (b + pool_size i <= c \/ c + pool_size j <= b)
  | Panic _ => True
  | Fault => False
  end.
Proof.
  destruct (size_map_fits size Hsize) as (i & Hi & Hmap & Hfit & Hmin).
  unfold kmallocB. rewrite decide_True by lia. rewrite Hmap. simpl.
  pose proof (kmallocP_wf s own live i Hi Hwf) as H.
  destruct (kmallocP s (Z.of_nat i)) as [[b s']| |]; try done.
  destruct H as (own' & Hsub & Hnu & Hblk & Hwf'). exists own', i. split_and!; try done.
  intros c Hc. destruct (wf_live _ _ _ Hwf c) as (j & Hj & Hcb); [unfold inuse; set_solver|].
  assert (blk own' j c).
  { destruct Hcb as (H1 & H2 & H3). split_and!; try done. by eapply lookup_weaken. }
  exists j. split_and!; try done. apply (blk_disjoint own'); try done.
  intros ->. apply Hnu. unfold inuse. set_solver.
Qed.

(** kfreeB(size, b) on a live block of the class of [size] succeeds and
  leaves the allocator well formed without the block, and the very next
  kmallocB of that class hands the same block out again. *)
Theorem kfreeB_recycles s own live size i b
    (Hwf : wf s own live) (Hlive : b ∈ live)
    (Hi : (i < 7)%nat) (Hblk : blk own i b)
    (Hsize : 0 <= size < 256) (Hmap : aget size_map size = Some (Z.of_nat i)) :
  exists s' s'', kfreeB s size b = Ok s' /\ wf s' own (live ∖ {[b]}) /\
    kmallocB s' size = Ok (b, s'') /\ wf s'' own live.
Proof.
  destruct (kfreeP_wf s own live i b Hi Hwf Hlive Hblk) as (s' & Hf & Hwf').
  pose proof (kmallocP_wf s' own (live ∖ {[b]}) i Hi Hwf') as Hm.
  unfold kfreeB, kmallocB. rewrite decide_True by lia. rewrite Hmap. simpl.
  assert (Hb : exists s'', kmallocP s' (Z.of_nat i) = Ok (b, s'') /\ wf s'' own live).
  { pose proof (wf_len _ _ _ Hwf) as Hlen.
    destruct (lookup_lt_is_Some_2 (m_km s) i) as [km Hkm]; [lia|].
    rewrite (kfreeP_eq s i km) in Hf by done. injection Hf as <-.
    unfold kmallocP, KMMAX in *. rewrite decide_False in Hm |- * by lia.
    assert (Hget : aget (m_km (set_km s (<[i:=push b km]> (m_km s)))) (Z.of_nat i) =
      Some (push b km)).
    { unfold aget. rewrite decide_True, Nat2Z.id by lia. simpl.
      apply list_lookup_insert_eq. lia. }
    rewrite Hget in Hm |- *. simpl in Hm |- *.
    rewrite aset_in_range in Hm |- * by (rewrite length_insert; lia). simpl in Hm |- *.
    eexists. split; [done|].
    eapply (wf_hand_out _ own (live ∖ {[b]}) i (push b km)) in Hwf' as Hwf2; try done.
    - replace ({[b]} ∪ live ∖ {[b]}) with live in Hwf2
        by (apply set_eq; intros x; destruct (decide (x = b)); set_solver).
      rewrite Nat2Z.id. exact Hwf2.
    - simpl. apply list_lookup_insert_eq. lia.
    - unfold inuse. simpl. intros [?|Hn]%elem_of_union; [set_solver|].
      apply elem_of_list_to_set, (wf_nodes_blk _ _ _ Hwf) in Hn. tauto.
    - replace (km_size km) with (km_size (push b km)) by done.
      eapply (pool_ok_pop own _ i (push b km) b); [|done].
      apply (wf_pool _ _ _ Hwf'). simpl. apply list_lookup_insert_eq. lia. }
  destruct Hb as (s'' & ? & ?). exists s', s''. rewrite decide_True by lia. done.
Qed.

(** ** Initialisation establishes the invariants *)

Lemma chain_seqZ_ext pl pl' n p m :
  (forall q, p <= q < p + Z.of_nat m -> aget pl' q = aget pl q) ->
  chain pl n (seqZ p (Z.of_nat m)) -> chain pl' n (seqZ p (Z.of_nat m)).
Proof.
  revert n p. induction m as [|m IH]; intros n p Heq.
  - rewrite seqZ_nil by lia. done.
  - rewrite seqZ_cons by lia. simpl. intros (-> & Hp & nx & Hnx & Hc). split_and!; try done.
    exists nx. rewrite Heq by lia. split; [done|].
    replace (Z.pred (Z.of_nat (S m))) with (Z.of_nat m) in * by lia.
    apply IH; [|done]. intros q Hq. apply Heq. lia.
Qed.

(** The loop links the pages from the top down, so that the lowest page is the
  first one to be handed out. *)
Lemma pagelist_loop_ok pl fp total i n k :
  0 < i - Z.of_nat n + 1 -> i < Z.of_nat (length pl) ->
  chain pl fp (seqZ (i + 1) (Z.of_nat k)) ->
  exists pl', pagelist_loop pl fp total i n =
    Ok (pl', (if decide (n = 0%nat) then fp else i - Z.of_nat n + 1), total + Z.of_nat n) /\
    length pl' = length pl /\
    chain pl' (if decide (n = 0%nat) then fp else i - Z.of_nat n + 1)
      (seqZ (i - Z.of_nat n + 1) (Z.of_nat (k + n))).
Proof.
  revert pl fp total i k. induction n as [|n IH]; intros pl fp total i k Hi Hlen Hc; simpl.
  - exists pl. rewrite Z.add_0_r, Z.sub_0_r, Nat.add_0_r. done.
  - rewrite aset_in_range by lia. simpl.
    assert (Ha : aset pl i fp = Some (<[Z.to_nat i := fp]> pl)) by (apply aset_in_range; lia).
    destruct (IH (<[Z.to_nat i := fp]> pl) i (total + 1) (i - 1) (S k))
      as (pl' & Hl & Hlen' & Hc'); [lia|rewrite length_insert; lia| |].
    { rewrite seqZ_cons by lia. simpl. split_and!; [lia|lia|].
      exists fp. replace (i - 1 + 1) with i by lia. split; [by eapply aget_aset_eq|].
      replace (Z.pred (Z.of_nat (S k))) with (Z.of_nat k) by lia.
      replace (Z.succ i) with (i + 1) by lia.
      eapply chain_seqZ_ext; [|exact Hc]. intros q Hq. eapply aget_aset_ne; [exact Ha|lia]. }
    exists pl'. rewrite Hl. split_and!.
    + do 2 f_equal; [f_equal|lia]. case_decide; lia.
    + by rewrite Hlen', length_insert.
    + replace (i - Z.of_nat (S n) + 1) with (i - 1 - Z.of_nat n + 1) by lia.
      replace (k + S n)%nat with (S k + n)%nat by lia.
      destruct (decide (n = 0%nat)) as [->|]; [|done].
      replace (i - 1 - Z.of_nat 0 + 1) with i in * by lia. done.
Qed.

Lemma maphi_loop_ok high phys virt flags i n :
  0 <= i -> Z.land virt 1023 + i + Z.of_nat n <= Z.of_nat (length high) ->
  exists high', maphi_loop high phys virt flags i n = Ok high' /\ length high' = length high.
Proof.
  revert high i. induction n as [|n IH]; intros high i Hi Hb; simpl; [eauto|].
  assert (0 <= Z.land virt 1023) by (apply Z.land_nonneg; lia).
  rewrite aset_in_range by lia. simpl.
  destruct (IH (<[Z.to_nat (Z.land virt 1023 + i) := Z.lor (u32 ((phys + i) * 4096)) flags]> high)
    (i + 1)) as (h & Hh & Hl); [lia|rewrite length_insert; lia|].
  exists h. by rewrite Hl, length_insert.
Qed.

(** The state while the pools are being given their pages: the first [i] are
  done, the others as initialised. *)
Record pools_init (s : mem) (own : gmap Z nat) (i : nat) : Prop := {
  pi_len : length (m_km s) = 7%nat;
  pi_done : forall j km, (j < i)%nat -> m_km s !! j = Some km -> pool_ok own ∅ j km;
  pi_todo : forall j, (i <= j)%nat -> m_km s !! j = km_init !! j;
  pi_next : m_nextmem s mod 4096 = 0;
  pi_low : 0x80050000 + 4096 * (7 - Z.of_nat i) <= m_nextmem s < 2 ^ 32;
  pi_own : forall v j, own !! v = Some j -> m_nextmem s <= v * 4096 /\ (j < 7)%nat;
  pi_freev : m_freev s = [];
  pi_high : length (m_high s) = 1024%nat;
}.

Lemma kgetpage_fresh_vspace s p free :
  pages_wf s (p :: free) -> m_freev s = [] -> length (m_high s) = 1024%nat ->
  0x80050000 <= m_nextmem s < 2 ^ 32 ->
  exists s', kgetpages s 1 = Ok (m_nextmem s - 4096, s') /\ pages_wf s' free /\
    m_nextmem s' = m_nextmem s - 4096 /\ m_freev s' = [] /\ length (m_high s') = 1024%nat /\
    m_km s' = m_km s.
Proof.
  intros Hp Hf Hh Hn. destruct (getpage_spec _ _ Hp) as (s1 & Hg & Hp1 & Hs1).
  unfold kgetpages. rewrite decide_True by done. unfold kgetpage. rewrite Hg. simpl.
  assert (m_nextmem s1 = m_nextmem s /\ m_freev s1 = m_freev s /\ m_high s1 = m_high s /\
    m_km s1 = m_km s) as (-> & -> & Eh & Ek) by (rewrite Hs1; done).
  rewrite decide_False by lia. rewrite Hf. rewrite u32_small by lia.
  destruct (maphi1_ok (set_nextmem s1 (m_nextmem s - 4096)) p ((m_nextmem s - 4096) / 4096))
    as (h & Hm & Hl); [simpl; congruence|].
  simpl in Hm |- *. rewrite Hm. simpl. eexists. split; [done|]. simpl.
  destruct Hp1 as (? & ? & ?). split_and!; try done. by rewrite Hs1.
Qed.

Lemma km_init_fresh i km : km_init !! i = Some km ->
  km_size km = pool_size i /\ km_fresh_count km = 4096 / pool_size i /\
  km_free_chain km = [] /\ km_free_count km = 0.
Proof.
  do 7 (destruct i as [|i]; [intros [= <-]; vm_compute; done|]). done.
Qed.

Lemma pools_loop_ok n : forall s own i p m,
  (i + n = 7)%nat -> pools_init s own i ->
  pages_wf s (seqZ p (Z.of_nat n + Z.of_nat m)) ->
  exists s' own', pools_loop s (Z.of_nat i) n = Ok s' /\ pools_init s' own' 7 /\
    pages_wf s' (seqZ (p + Z.of_nat n) (Z.of_nat m)).
Proof.
  induction n as [|n IH]; intros s own i p m Hin Hpi Hp.
  { exists s, own. replace i with 7%nat in Hpi by lia. rewrite Z.add_0_r.
    replace (Z.of_nat 0 + Z.of_nat m) with (Z.of_nat m) in Hp by lia. done. }
  rewrite seqZ_cons in Hp by lia. destruct Hpi.
  destruct (kgetpage_fresh_vspace s p _ Hp pi_freev0 pi_high0 ltac:(lia))
    as (s1 & Hk & Hp1 & Hn1 & Hf1 & Hh1 & Hk1).
  destruct (lookup_lt_is_Some_2 (m_km s) i) as [km Hkm]; [lia|].
  assert (Hini : km_init !! i = Some km) by (rewrite <- pi_todo0 by lia; done).
  destruct (km_init_fresh i km Hini) as (Hsz & Hfc & Hch & Hcnt).
  set (page := m_nextmem s - 4096) in *. set (own1 := <[page / 4096 := i]> own).
  assert (Hal : page mod 4096 = 0) by (unfold page; rewrite Zminus_mod, pi_next0; done).
  assert (Hpd : page / 4096 * 4096 = page) by (pose proof (Z.div_mod page 4096); lia).
  assert (Hnone : own !! (page / 4096) = None).
  { destruct (own !! (page / 4096)) eqn:E; [|done]. apply pi_own0 in E. lia. }
  simpl. rewrite Hk. simpl. rewrite Hk1.
  unfold aget at 1. rewrite decide_True by lia. rewrite Nat2Z.id, Hkm. simpl.
  rewrite aset_in_range by lia. simpl. rewrite Nat2Z.id.
  replace (Z.of_nat i + 1) with (Z.of_nat (S i)) by lia.
  replace (p + Z.of_nat (S n)) with (Z.succ p + Z.of_nat n) by lia.
  replace (Z.pred (Z.of_nat (S n) + Z.of_nat m)) with (Z.of_nat n + Z.of_nat m) in Hp1 by lia.
  apply (IH _ own1); [lia| |done]. constructor; simpl; try done.
  - by rewrite length_insert.
  - intros j kmj Hj. destruct (decide (i = j)) as [<-|Hij].
    + rewrite list_lookup_insert_eq by lia. intros [= <-]. rewrite Hch, Hcnt.
      pose proof (pool_div i ltac:(lia)).
      constructor; simpl; rewrite ?Hfc, ?Hal; try done; try lia.
      * constructor.
      * by intros b ?%elem_of_nil.
      * unfold own1. by rewrite lookup_insert_eq.
      * by intros b [?%elem_of_nil|?%elem_of_empty].
    + rewrite list_lookup_insert_ne by done. intros Hl. apply pi_done0 in Hl; [|lia].
      eapply pool_ok_mono; [exact Hl|by apply insert_subseteq|by intros b ?%elem_of_empty].
  - intros j Hj. rewrite list_lookup_insert_ne by lia. apply pi_todo0. lia.
  - by rewrite Hn1.
  - rewrite Hn1. unfold page. lia.
  - intros v j. unfold own1. rewrite lookup_insert, Hn1. case_decide as Hv.
    + intros [= <-]. lia.
    + intros Hj%pi_own0. unfold page. lia.
Qed.

(** How many entries the page list needs and how many pages it gets. *)
Definition pagelist_pages (bottom top : Z) : Z := (top - bottom) / 1024 + 1.

(** What memory_init does before it links the pages. *)
Lemma memory_init_map high bottom top :
  length high = 1024%nat -> bottom <= top - pagelist_pages bottom top ->
  pagelist_pages bottom top <= 900 ->
  let count := pagelist_pages bottom top in
  let nm := 0x803FC000 - 4096 * count in
  1 <= count /\ nm mod 4096 = 0 /\
  exists h, length h = 1024%nat /\
    memory_init (mem0 high) bottom top =
      let! (pl, fp, total) := pagelist_loop (replicate (Z.to_nat (1024 * count)) 0) 0 0 (top - count)
        (Z.to_nat (top - count - bottom + 1)) in
      pools_loop (Mem pl fp 0 total nm [] h km_init) 0 (Z.to_nat KMMAX).
Proof.
  intros Hhigh Hroom Hvirt count nm.
  assert (Hc : 1 <= count).
  { unfold count, pagelist_pages in *. pose proof (Z.div_mod (top - bottom) 1024).
    pose proof (Z.mod_pos_bound (top - bottom) 1024). lia. }
  assert (Hnm : nm = (0x803FC - count) * 4096) by (unfold nm; lia).
  assert (Hdiv : nm / 4096 = 0x80000 + (1020 - count)) by (rewrite Hnm, Z.div_mul; lia).
  split_and!; [done|rewrite Hnm; apply Z.mod_mul; lia|].
  destruct (maphi_loop_ok high (top - count) (nm / 4096) 3 0 (Z.to_nat count)) as (h & Hm & Hl);
    [lia| |].
  { rewrite Hdiv. change 1023 with (Z.ones 10). rewrite Z.land_ones by lia.
    rewrite <- (Z.mod_unique _ (2 ^ 10) 512 (1020 - count)) by lia. lia. }
  exists h. split; [congruence|].
  unfold memory_init, mem0, set_nextmem, aspace_maphi.
  cbn [m_nextmem m_high m_freev m_km m_pagelist m_freepage m_used_pages m_total_pages].
  fold (pagelist_pages bottom top). fold count.
  replace (u32 (0x80400000 - 4 * 4096 - 4096 * count)) with nm by (rewrite u32_small; unfold nm; lia).
  rewrite Hm. reflexivity.
Qed.

Lemma memory_init_wf high bottom top
    (Hhigh : length high = 1024%nat) (Hbot : 0 < bottom)
    (Hfit : top - pagelist_pages bottom top < 1024 * pagelist_pages bottom top)
    (Hroom : bottom + 7 <= top - pagelist_pages bottom top + 1)
    (Hvirt : pagelist_pages bottom top <= 900) :
  exists s own, memory_init (mem0 high) bottom top = Ok s /\ wf s own ∅ /\
    pages_wf s (seqZ (bottom + 7) (top - pagelist_pages bottom top + 1 - bottom - 7)).
Proof.
  destruct (memory_init_map high bottom top Hhigh ltac:(lia) Hvirt) as (Hc & Hal & h & Hl & ->).
  set (count := pagelist_pages bottom top) in *. set (nm := 0x803FC000 - 4096 * count) in *.
  destruct (pagelist_loop_ok (replicate (Z.to_nat (1024 * count)) 0) 0 0 (top - count)
    (Z.to_nat (top - count - bottom + 1)) 0) as (pl & -> & Hpl & Hch);
    [lia|rewrite length_replicate; lia|by rewrite seqZ_nil by lia|]. cbn [cbind].
  rewrite decide_False in Hch by lia. rewrite decide_False by lia.
  replace (top - count - Z.of_nat (Z.to_nat (top - count - bottom + 1)) + 1) with bottom in * by lia.
  rewrite Z.add_0_l.
  destruct (pools_loop_ok 7 (Mem pl bottom 0 (Z.of_nat (Z.to_nat (top - count - bottom + 1))) nm [] h km_init)
    ∅ 0 bottom (Z.to_nat (top - count + 1 - bottom - 7))) as (s & own & Hs & Hpi & Hpw).
  - done.
  - constructor; cbn [m_km m_nextmem m_freev m_high]; try done; try (unfold nm; lia).
  - split_and!; cbn [m_pagelist m_freepage m_used_pages m_total_pages].
    + replace (_ + _) with (Z.of_nat (0 + Z.to_nat (top - count - bottom + 1))) by lia. done.
    + apply NoDup_seqZ.
    + rewrite length_seqZ. unfold u32. rewrite Zmod_small; lia.
  - exists s, own. replace (top - count + 1 - bottom - 7) with
      (Z.of_nat (Z.to_nat (top - count + 1 - bottom - 7))) by lia.
    split; [exact Hs|]. split; [|exact Hpw]. destruct Hpi.
    assert (Hin : inuse s ∅ = ∅) by (unfold inuse; rewrite pi_freev0; done).
    constructor; rewrite ?pi_freev0, ?Hin; simpl; try done; try (by eauto); try lia.
    + intros i km Hi. apply pi_done0; [|done]. apply lookup_lt_Some in Hi. lia.
    + constructor.
    + by intros n ?%elem_of_nil.
    + constructor.
    + by intros v ?%elem_of_nil.
Qed.

(** memory_init(bottom, top): when the page numbers fit the page list it
  allocates (top - count < 1024 * count, [count] pages of page list) and there are
  at least seven pages for the pools, initialisation succeeds; the allocator is
  well formed with no live block, and the free pages are exactly the page numbers
  from bottom+7 up to top-count, handed out in increasing order. *)
Theorem memory_init_ok high bottom top
    (Hhigh : length high = 1024%nat) (Hbot : 0 < bottom)
    (Hfit : top - pagelist_pages bottom top < 1024 * pagelist_pages bottom top)
    (Hroom : bottom + 7 <= top - pagelist_pages bottom top + 1)
    (Hvirt : pagelist_pages bottom top <= 900) :
  exists s own, memory_init (mem0 high) bottom top = Ok s /\ wf s own ∅ /\
    pages_wf s (seqZ (bottom + 7) (top - pagelist_pages bottom top + 1 - bottom - 7)).
Proof. by apply memory_init_wf. Qed.

(** The bound of memory_init_ok is not checked by the code: when the highest page number
  does not fit the page list (a boot image that pushes [bottom] up, see the
  witness: 16 MB of memory and a boot image of 828 pages), the very first store
  of the page list loop is outside the pages mapped for it. *)
Theorem memory_init_overflow high bottom top
    (Hhigh : length high = 1024%nat) (Hbot : 0 < bottom)
    (Hover : 1024 * pagelist_pages bottom top <= top - pagelist_pages bottom top)
    (Hroom : bottom <= top - pagelist_pages bottom top)
    (Hvirt : pagelist_pages bottom top <= 900) :
  memory_init (mem0 high) bottom top = Fault.
Proof.
  destruct (memory_init_map high bottom top Hhigh Hroom Hvirt) as (Hc & _ & h & _ & ->).
  set (count := pagelist_pages bottom top) in *.
  replace (Z.to_nat (top - count - bottom + 1)) with (S (Z.to_nat (top - count - bottom))) by lia.
  cbn [pagelist_loop]. unfold aset. rewrite decide_False; [done|]. rewrite length_replicate. lia.
Qed.

(** ** Witnesses: a machine with 16 MB (4096 pages, three of them in use) *)

Definition ex_high : list Z := replicate 1024 0.

Lemma memory_init_ok_witness :
  exists s own, memory_init (mem0 ex_high) 300 4093 = Ok s /\ wf s own ∅ /\
    pages_wf s (seqZ 307 3783).
Proof.
  apply (memory_init_ok ex_high 300 4093);
    [reflexivity|lia|vm_compute; reflexivity|vm_compute; discriminate|vm_compute; discriminate].
Defined.

Lemma memory_init_overflow_witness : memory_init (mem0 ex_high) 1100 4093 = Fault.
Proof.
  apply (memory_init_overflow ex_high 1100 4093);
    [reflexivity|lia|vm_compute; discriminate|vm_compute; discriminate|vm_compute; discriminate].
Defined.

Lemma kmallocB_disjoint_witness :
  exists s own, wf s own ∅ /\ (0 <= 100 < 256) /\
  match kmallocB s 100 with
  | Ok (b, s') => exists own' i, own ⊆ own' /\ (i < 7)%nat /\ 100 <= pool_size i /\
      (forall j, (j < i)%nat -> pool_size j < 100) /\ blk own' i b /\
      wf s' own' ({[b]} ∪ ∅) /\
      forall c, c ∈ (∅ : gset Z) -> exists j, (j < 7)%nat /\ blk own' j c /\
        (b + pool_size i <= c \/ c + pool_size j <= b)
  | Panic _ => True
  | Fault => False
  end.
Proof.
  destruct (memory_init_wf ex_high 300 4093) as (s & own & _ & Hwf & _);
    [reflexivity|lia|vm_compute; reflexivity|vm_compute; discriminate|vm_compute; discriminate|].
  exists s, own. split; [exact Hwf|]. split; [lia|].
  apply (kmallocB_disjoint s own ∅ 100 Hwf). lia.
Defined.

(** On the freshly initialised allocator a 100 byte request is served from the
  128 byte pool, whose first block is freed and handed out again. *)
Definition ex_first : Z := 0x803FC000 - 4096 * 4 - 4096 * 5.

Lemma ex_first_live : exists s own, wf s own ({[ex_first]} ∪ ∅) /\ blk own 4 ex_first.
Proof.
  pose proof (memory_init_wf ex_high 300 4093) as H.
  destruct H as (s & own & Hs & Hwf & _);
    [reflexivity|lia|vm_compute; reflexivity|vm_compute; discriminate|vm_compute; discriminate|].
  pose proof (kmallocP_wf s own ∅ 4 ltac:(lia) Hwf) as Hm.
  assert (Hk : exists s', kmallocP s (Z.of_nat 4) = Ok (ex_first, s')).
  { assert (E : match memory_init (mem0 ex_high) 300 4093 with
      | Ok s => match kmallocP s 4 with Ok (b, _) => b = ex_first | _ => False end
      | _ => False end) by (vm_compute; reflexivity).
    rewrite Hs in E. clear Hs Hm. change (Z.of_nat 4) with 4.
    destruct (kmallocP s 4) as [[b s']| |]; [|contradiction..]. exists s'. by rewrite E. }
  clear Hs. destruct Hk as [s' Hk]. rewrite Hk in Hm. destruct Hm as (own' & _ & _ & Hb & Hwf'). eauto.
Qed.

Lemma kfreeB_recycles_witness :
  exists s own s' s'', kfreeB s 100 ex_first = Ok s' /\
    wf s' own (({[ex_first]} ∪ ∅) ∖ {[ex_first]}) /\
    kmallocB s' 100 = Ok (ex_first, s'') /\ wf s'' own ({[ex_first]} ∪ ∅).
Proof.
  destruct ex_first_live as (s & own & Hwf & Hb). exists s, own.
  apply (kfreeB_recycles s own ({[ex_first]} ∪ ∅) 100 4 ex_first Hwf);
    [set_solver|lia|exact Hb|lia|vm_compute; reflexivity].
Defined.

(** ** kmalloc(node_t) and kfree(node_t, p) meet the interface of the lists

  [ka_heads] are the addresses of list heads: inside a live block of another
  type, or in the kernel image below every page the allocator can use. *)
Record kalloc := KAlloc {
  ka_mem : mem;
  ka_nodes : gset Z;
  ka_other : gset Z;
  ka_heads : gset Z;
}.

Record kalloc_wf (a : kalloc) (own : gmap Z nat) : Prop := {
  kw_wf : wf (ka_mem a) own (ka_nodes a ∪ ka_other a);
  kw_dis : ka_nodes a ## ka_other a;
  kw_nodes : forall n, n ∈ ka_nodes a -> blk own 0 n;
  kw_heads : forall L, L ∈ ka_heads a -> L ∉ ka_nodes a /\
    (L < 0x8004F000 \/
     exists b j, b ∈ ka_other a /\ (j < 7)%nat /\ blk own j b /\ b <= L < b + pool_size j);
}.

(** A block just handed out is no list head. *)
Lemma fresh_not_head a own own' s' b :
  kalloc_wf a own -> own ⊆ own' -> b ∉ ka_nodes a ∪ ka_other a ->
  blk own' 0 b -> wf s' own' ({[b]} ∪ (ka_nodes a ∪ ka_other a)) -> b ∉ ka_heads a.
Proof.
  intros [] Hsub Hb Hblk Hwf' [_ [Hlow|(c & j & Hc & Hj & Hcb & Hr)]]%kw_heads0.
  - destruct Hblk as (Hown & _). apply (wf_own _ _ _ Hwf') in Hown as [Hle _].
    destruct (wf_next _ _ _ Hwf') as [_ ?]. pose proof (Z.div_mod b 4096).
    pose proof (Z.mod_pos_bound b 4096). lia.
  - assert (blk own' j c).
    { destruct Hcb as (H1 & H2 & H3). split_and!; try done. by eapply lookup_weaken. }
    pose proof (pool_size_range 0 ltac:(lia)).
    destruct (blk_disjoint own' 0 j b c) as [?|?]; try done; try lia. set_solver.
Qed.

#[export] Program Instance kmem_node_alloc : KList.NodeAlloc kalloc := {|
  KList.na_wf a := exists own, kalloc_wf a own;
  KList.na_live := ka_nodes;
  KList.na_used a := ka_nodes a ∪ ka_heads a;
  KList.kmalloc_node a :=
    let! (b, s) := kmallocB (ka_mem a) sizeof_node in
    Ok (b, KAlloc s ({[b]} ∪ ka_nodes a) (ka_other a) (ka_heads a));
  KList.kfree_node a p :=
    let! s := kfreeB (ka_mem a) sizeof_node p in
    Ok (KAlloc s (ka_nodes a ∖ {[p]}) (ka_other a) (ka_heads a));
|}.
Next Obligation.
  intros a [own Hwf]. change (kmallocB (ka_mem a) sizeof_node) with (kmallocP (ka_mem a) (Z.of_nat 0)).
  pose proof (kmallocP_wf _ _ _ 0 ltac:(lia) (kw_wf _ _ Hwf)).
  by destruct (kmallocP (ka_mem a) (Z.of_nat 0)) as [[b s']| |].
Qed.
Next Obligation.
  intros a p a' [own Hwf]. change (kmallocB (ka_mem a) sizeof_node) with (kmallocP (ka_mem a) (Z.of_nat 0)).
  pose proof (kmallocP_wf _ _ _ 0 ltac:(lia) (kw_wf _ _ Hwf)) as Hm.
  destruct (kmallocP (ka_mem a) (Z.of_nat 0)) as [[b s']| |]; [|done..]. intros [= <- <-].
  destruct Hm as (own' & Hsub & Hnu & Hblk & Hwf').
  assert (Hb : b ∉ ka_nodes a ∪ ka_other a) by (intros ?; apply Hnu; unfold inuse; set_solver).
  pose proof (fresh_not_head _ _ _ _ _ Hwf Hsub Hb Hblk Hwf') as Hh.
  assert (Hmono : forall j c, blk own j c -> blk own' j c).
  { intros j c (H1 & H2 & H3). split_and!; try done. by eapply lookup_weaken. }
  simpl. split_and!; [|set_solver|done|set_solver]. exists own'. destruct Hwf.
  constructor; simpl.
  - by rewrite <- (assoc_L (∪)).
  - set_solver.
  - intros n [->%elem_of_singleton|Hn]%elem_of_union; [done|]. by apply Hmono, kw_nodes0.
  - intros L HL. destruct (kw_heads0 L HL) as [? HLw]. split; [set_solver|].
    destruct HLw as [?|(c & j & ? & ? & ? & ?)]; [by left|right]. exists c, j. auto.
Qed.
Next Obligation.
  intros a p [own Hwf] Hp. change (kfreeB (ka_mem a) sizeof_node p) with (kfreeP (ka_mem a) (Z.of_nat 0) p).
  destruct (kfreeP_wf (ka_mem a) own (ka_nodes a ∪ ka_other a) 0 p) as (s' & -> & Hwf');
    [lia|apply Hwf|set_solver|by apply (kw_nodes _ _ Hwf)|].
  simpl. eexists. split; [done|]. destruct Hwf. split_and!; [|done|].
  - exists own. constructor; simpl; [|set_solver|set_solver|].
    + replace (ka_nodes a ∖ {[p]} ∪ ka_other a) with ((ka_nodes a ∪ ka_other a) ∖ {[p]}) by set_solver.
      done.
    + intros L HL. destruct (kw_heads0 L HL). split; [set_solver|done].
  - simpl. assert (p ∉ ka_heads a) by (intros HL; apply kw_heads0 in HL; tauto). set_solver.
Qed.
Next Obligation. set_solver. Qed.

End KMem.
