(* ===== verification/KState.v ===== *)
(** The kernel state shared by resource.c, task.c, kernel.c, sem.c, port.c,
  team.c, aspace.c and syscall.c, and the monad their operations run in.

  Pointers to kernel objects are integers (0 is NULL).  Every object begins with
  a [resource_t], so one map gives the [resource] part of every object and one
  map per kind gives the rest, at the same address.  kmalloc is abstracted to
  "a new address": KMem proves that a block it returns is not in use, and never
  reusing an address makes every access to a freed object a [Fault].

  The lists embedded in the objects are the sequences that KList proves list.c
  to implement.  A kernel stack that is waiting in the middle of a system call
  is represented by the task's continuation [t_kont]. *)
From S2P Require Import Prelude KList KMem.
Local Open Scope Z_scope.

Module KState.

(** ** Data types *)

(** enum rsrc_type, kernel/resource.h *)
Inductive rsrc_type :=
| RSRC_NONE | RSRC_TASK | RSRC_ASPACE | RSRC_PORT | RSRC_SEM | RSRC_RIGHT
| RSRC_AREA | RSRC_QUEUE | RSRC_TEAM | RSRC_MAX.

#[export] Instance rsrc_type_eq_dec : EqDecision rsrc_type.
Proof. solve_decision. Defined.

(** struct __resource_t *)
Record resource := Rsrc {
  r_id : Z;
  r_type : rsrc_type;
  r_owner : Z;              (** team_t* *)
  r_rights : list Z;
  r_queue : list Z;         (** the waiting tasks, first to last *)
  r_name : list Z;          (** name[32] up to its terminator *)
}.

(** The values of task_t.flags, kernel/task.h *)
Inductive tflag :=
| tKERNEL | tRUNNING | tREADY | tDEAD | tWAITING | tSLEEP_IRQ | tSLEEP_TIMER | tSLEEP_PAGING.

#[export] Instance tflag_eq_dec : EqDecision tflag.
Proof. solve_decision. Defined.

(** Where a task that is not running will continue in the kernel: in user mode,
  returning a known result from its system call, or after the wait_on of
  sem_acquire, thr_wait, port_send or port_recv. *)
Inductive kont :=
| KUser
| KRet (r : Z)
| KSemAcquire
| KThrWait
| KPortSend (src dst msg size code p : Z)
| KPortRecv (dst src msg size code p : Z).

#[export] Instance kont_eq_dec : EqDecision kont.
Proof. solve_decision. Defined.

(** struct __task_t without the saved registers *)
Record task := Task {
  t_waiting_on : Z;
  t_status : Z;
  t_wait_time : Z;
  t_flags : tflag;
  t_irq : Z;
  t_scount : Z;
  t_kstack : Z;
  t_ustack : Z;
  t_stack_area : Z;
  t_team : Z;
  t_kont : kont;
}.

(** struct __message_t *)
Record message := Msg {
  m_size : Z;
  m_code : Z;
  m_from_port : Z;
  m_to_port : Z;
  m_page : Z;               (** the page that carries a message of 256 bytes or more *)
  m_data : list Z;
}.

(** struct __port_t; the chain first .. last is the list [p_msgs] *)
Record port := Port {
  p_msgcount : Z;
  p_slaved : Z;
  p_msgs : list message;
  p_refcount : Z;
  p_nowait : Z;
  p_restrict : Z;
  p_sendqueue : Z;
}.

(** struct __team_t *)
Record team := Team {
  tm_resources : list Z;
  tm_refcount : Z;
  tm_aspace : Z;
  tm_heap_id : Z;
  tm_text_area : Z;
}.

(** pagegroup_t; [pg_pages] is the chain of phys_page_t, six slots each *)
Record pagegroup := PGroup {
  pg_size : Z;
  pg_refcount : Z;
  pg_flags : Z;
  pg_areas : list Z;
  pg_pages : list (list Z);
}.

(** struct __area_t *)
Record area := Area {
  ar_pgroup : Z;
  ar_virt_addr : Z;
  ar_length : Z;
  ar_maxlength : Z;
}.

(** struct __aspace_t: the page directory, its only table, and their addresses *)
Record aspace := Aspace {
  as_areas : list Z;
  as_pdir : Z;
  as_ptab_page : Z;
  as_pdirphys : Z;
  as_ptab : list Z;
}.

(** The queues and tasks that go_kernel creates once. *)
Record globals := Glob {
  g_run_queue : Z;
  g_timer_queue : Z;
  g_reaper_queue : Z;
  g_idle_task : Z;
  g_kernel_team : Z;
  g_reaper_sem : Z;
}.

Record kst := KSt {
  k_mem : KMem.mem;   (** memory.c *)
  k_brk : Z;   (** the next object address kmalloc will name *)
  k_rmap : list (Z * Z);   (** rmap[]: resource pointer, next free index *)
  k_rfree : Z;   (** rfree *)
  k_rlist : list Z;   (** resource_list *)
  k_res : gmap Z resource;   (** the resource_t at the start of every kernel object *)
  k_task : gmap Z task;
  k_sem : gmap Z Z;   (** sem_t.count *)
  k_port : gmap Z port;
  k_team : gmap Z team;
  k_asp : gmap Z aspace;
  k_area : gmap Z area;
  k_pgrp : gmap Z pagegroup;
  k_current : Z;   (** current *)
  k_live_tasks : Z;   (** live_tasks *)
  k_timer : Z;   (** kernel_timer *)
  k_irq_map : list Z;   (** irq_task_map[16] *)
  k_masked : list bool;   (** the PIC mask bits, true = masked *)
  k_msg_pool : list Z;   (** msg_pool: recycled message pages *)
  k_umem : gmap (Z * Z) Z;   (** user memory: (address space, byte address) *)
  k_glob : globals;   (** variables set once by go_kernel *)
}.

Definition set_k_mem (s : kst) (x : KMem.mem) : kst :=
  KSt x (k_brk s) (k_rmap s) (k_rfree s) (k_rlist s) (k_res s) (k_task s) (k_sem s) (k_port s) (k_team s) (k_asp s) (k_area s) (k_pgrp s) (k_current s) (k_live_tasks s) (k_timer s) (k_irq_map s) (k_masked s) (k_msg_pool s) (k_umem s) (k_glob s).
Definition set_k_brk (s : kst) (x : Z) : kst :=
  KSt (k_mem s) x (k_rmap s) (k_rfree s) (k_rlist s) (k_res s) (k_task s) (k_sem s) (k_port s) (k_team s) (k_asp s) (k_area s) (k_pgrp s) (k_current s) (k_live_tasks s) (k_timer s) (k_irq_map s) (k_masked s) (k_msg_pool s) (k_umem s) (k_glob s).
Definition set_k_rmap (s : kst) (x : list (Z * Z)) : kst :=
  KSt (k_mem s) (k_brk s) x (k_rfree s) (k_rlist s) (k_res s) (k_task s) (k_sem s) (k_port s) (k_team s) (k_asp s) (k_area s) (k_pgrp s) (k_current s) (k_live_tasks s) (k_timer s) (k_irq_map s) (k_masked s) (k_msg_pool s) (k_umem s) (k_glob s).
Definition set_k_rfree (s : kst) (x : Z) : kst :=
  KSt (k_mem s) (k_brk s) (k_rmap s) x (k_rlist s) (k_res s) (k_task s) (k_sem s) (k_port s) (k_team s) (k_asp s) (k_area s) (k_pgrp s) (k_current s) (k_live_tasks s) (k_timer s) (k_irq_map s) (k_masked s) (k_msg_pool s) (k_umem s) (k_glob s).
Definition set_k_rlist (s : kst) (x : list Z) : kst :=
  KSt (k_mem s) (k_brk s) (k_rmap s) (k_rfree s) x (k_res s) (k_task s) (k_sem s) (k_port s) (k_team s) (k_asp s) (k_area s) (k_pgrp s) (k_current s) (k_live_tasks s) (k_timer s) (k_irq_map s) (k_masked s) (k_msg_pool s) (k_umem s) (k_glob s).
Definition set_k_res (s : kst) (x : gmap Z resource) : kst :=
  KSt (k_mem s) (k_brk s) (k_rmap s) (k_rfree s) (k_rlist s) x (k_task s) (k_sem s) (k_port s) (k_team s) (k_asp s) (k_area s) (k_pgrp s) (k_current s) (k_live_tasks s) (k_timer s) (k_irq_map s) (k_masked s) (k_msg_pool s) (k_umem s) (k_glob s).
Definition set_k_task (s : kst) (x : gmap Z task) : kst :=
  KSt (k_mem s) (k_brk s) (k_rmap s) (k_rfree s) (k_rlist s) (k_res s) x (k_sem s) (k_port s) (k_team s) (k_asp s) (k_area s) (k_pgrp s) (k_current s) (k_live_tasks s) (k_timer s) (k_irq_map s) (k_masked s) (k_msg_pool s) (k_umem s) (k_glob s).
Definition set_k_sem (s : kst) (x : gmap Z Z) : kst :=
  KSt (k_mem s) (k_brk s) (k_rmap s) (k_rfree s) (k_rlist s) (k_res s) (k_task s) x (k_port s) (k_team s) (k_asp s) (k_area s) (k_pgrp s) (k_current s) (k_live_tasks s) (k_timer s) (k_irq_map s) (k_masked s) (k_msg_pool s) (k_umem s) (k_glob s).
Definition set_k_port (s : kst) (x : gmap Z port) : kst :=
  KSt (k_mem s) (k_brk s) (k_rmap s) (k_rfree s) (k_rlist s) (k_res s) (k_task s) (k_sem s) x (k_team s) (k_asp s) (k_area s) (k_pgrp s) (k_current s) (k_live_tasks s) (k_timer s) (k_irq_map s) (k_masked s) (k_msg_pool s) (k_umem s) (k_glob s).
Definition set_k_team (s : kst) (x : gmap Z team) : kst :=
  KSt (k_mem s) (k_brk s) (k_rmap s) (k_rfree s) (k_rlist s) (k_res s) (k_task s) (k_sem s) (k_port s) x (k_asp s) (k_area s) (k_pgrp s) (k_current s) (k_live_tasks s) (k_timer s) (k_irq_map s) (k_masked s) (k_msg_pool s) (k_umem s) (k_glob s).
Definition set_k_asp (s : kst) (x : gmap Z aspace) : kst :=
  KSt (k_mem s) (k_brk s) (k_rmap s) (k_rfree s) (k_rlist s) (k_res s) (k_task s) (k_sem s) (k_port s) (k_team s) x (k_area s) (k_pgrp s) (k_current s) (k_live_tasks s) (k_timer s) (k_irq_map s) (k_masked s) (k_msg_pool s) (k_umem s) (k_glob s).
Definition set_k_area (s : kst) (x : gmap Z area) : kst :=
  KSt (k_mem s) (k_brk s) (k_rmap s) (k_rfree s) (k_rlist s) (k_res s) (k_task s) (k_sem s) (k_port s) (k_team s) (k_asp s) x (k_pgrp s) (k_current s) (k_live_tasks s) (k_timer s) (k_irq_map s) (k_masked s) (k_msg_pool s) (k_umem s) (k_glob s).
Definition set_k_pgrp (s : kst) (x : gmap Z pagegroup) : kst :=
  KSt (k_mem s) (k_brk s) (k_rmap s) (k_rfree s) (k_rlist s) (k_res s) (k_task s) (k_sem s) (k_port s) (k_team s) (k_asp s) (k_area s) x (k_current s) (k_live_tasks s) (k_timer s) (k_irq_map s) (k_masked s) (k_msg_pool s) (k_umem s) (k_glob s).
Definition set_k_current (s : kst) (x : Z) : kst :=
  KSt (k_mem s) (k_brk s) (k_rmap s) (k_rfree s) (k_rlist s) (k_res s) (k_task s) (k_sem s) (k_port s) (k_team s) (k_asp s) (k_area s) (k_pgrp s) x (k_live_tasks s) (k_timer s) (k_irq_map s) (k_masked s) (k_msg_pool s) (k_umem s) (k_glob s).
Definition set_k_live_tasks (s : kst) (x : Z) : kst :=
  KSt (k_mem s) (k_brk s) (k_rmap s) (k_rfree s) (k_rlist s) (k_res s) (k_task s) (k_sem s) (k_port s) (k_team s) (k_asp s) (k_area s) (k_pgrp s) (k_current s) x (k_timer s) (k_irq_map s) (k_masked s) (k_msg_pool s) (k_umem s) (k_glob s).
Definition set_k_timer (s : kst) (x : Z) : kst :=
  KSt (k_mem s) (k_brk s) (k_rmap s) (k_rfree s) (k_rlist s) (k_res s) (k_task s) (k_sem s) (k_port s) (k_team s) (k_asp s) (k_area s) (k_pgrp s) (k_current s) (k_live_tasks s) x (k_irq_map s) (k_masked s) (k_msg_pool s) (k_umem s) (k_glob s).
Definition set_k_irq_map (s : kst) (x : list Z) : kst :=
  KSt (k_mem s) (k_brk s) (k_rmap s) (k_rfree s) (k_rlist s) (k_res s) (k_task s) (k_sem s) (k_port s) (k_team s) (k_asp s) (k_area s) (k_pgrp s) (k_current s) (k_live_tasks s) (k_timer s) x (k_masked s) (k_msg_pool s) (k_umem s) (k_glob s).
Definition set_k_masked (s : kst) (x : list bool) : kst :=
  KSt (k_mem s) (k_brk s) (k_rmap s) (k_rfree s) (k_rlist s) (k_res s) (k_task s) (k_sem s) (k_port s) (k_team s) (k_asp s) (k_area s) (k_pgrp s) (k_current s) (k_live_tasks s) (k_timer s) (k_irq_map s) x (k_msg_pool s) (k_umem s) (k_glob s).
Definition set_k_msg_pool (s : kst) (x : list Z) : kst :=
  KSt (k_mem s) (k_brk s) (k_rmap s) (k_rfree s) (k_rlist s) (k_res s) (k_task s) (k_sem s) (k_port s) (k_team s) (k_asp s) (k_area s) (k_pgrp s) (k_current s) (k_live_tasks s) (k_timer s) (k_irq_map s) (k_masked s) x (k_umem s) (k_glob s).
Definition set_k_umem (s : kst) (x : gmap (Z * Z) Z) : kst :=
  KSt (k_mem s) (k_brk s) (k_rmap s) (k_rfree s) (k_rlist s) (k_res s) (k_task s) (k_sem s) (k_port s) (k_team s) (k_asp s) (k_area s) (k_pgrp s) (k_current s) (k_live_tasks s) (k_timer s) (k_irq_map s) (k_masked s) (k_msg_pool s) x (k_glob s).
Definition set_k_glob (s : kst) (x : globals) : kst :=
  KSt (k_mem s) (k_brk s) (k_rmap s) (k_rfree s) (k_rlist s) (k_res s) (k_task s) (k_sem s) (k_port s) (k_team s) (k_asp s) (k_area s) (k_pgrp s) (k_current s) (k_live_tasks s) (k_timer s) (k_irq_map s) (k_masked s) (k_msg_pool s) (k_umem s) x.

(** ** Field updates of the objects *)

Definition r_set_id (r : resource) (x : Z) := Rsrc x (r_type r) (r_owner r) (r_rights r) (r_queue r) (r_name r).
Definition r_set_type (r : resource) (x : rsrc_type) := Rsrc (r_id r) x (r_owner r) (r_rights r) (r_queue r) (r_name r).
Definition r_set_owner (r : resource) (x : Z) := Rsrc (r_id r) (r_type r) x (r_rights r) (r_queue r) (r_name r).
Definition r_set_queue (r : resource) (x : list Z) := Rsrc (r_id r) (r_type r) (r_owner r) (r_rights r) x (r_name r).
Definition r_set_name (r : resource) (x : list Z) := Rsrc (r_id r) (r_type r) (r_owner r) (r_rights r) (r_queue r) x.

Definition t_set_wait (t : task) (on time : Z) (f : tflag) :=
  Task on (t_status t) time f (t_irq t) (t_scount t) (t_kstack t) (t_ustack t) (t_stack_area t) (t_team t) (t_kont t).
Definition t_set_status (t : task) (x : Z) :=
  Task (t_waiting_on t) x (t_wait_time t) (t_flags t) (t_irq t) (t_scount t) (t_kstack t) (t_ustack t) (t_stack_area t) (t_team t) (t_kont t).
Definition t_set_flags (t : task) (x : tflag) :=
  Task (t_waiting_on t) (t_status t) (t_wait_time t) x (t_irq t) (t_scount t) (t_kstack t) (t_ustack t) (t_stack_area t) (t_team t) (t_kont t).
Definition t_set_irq (t : task) (x : Z) :=
  Task (t_waiting_on t) (t_status t) (t_wait_time t) (t_flags t) x (t_scount t) (t_kstack t) (t_ustack t) (t_stack_area t) (t_team t) (t_kont t).
Definition t_set_kont (t : task) (x : kont) :=
  Task (t_waiting_on t) (t_status t) (t_wait_time t) (t_flags t) (t_irq t) (t_scount t) (t_kstack t) (t_ustack t) (t_stack_area t) (t_team t) x.
(** [flags = tRUNNING; scount++] *)
Definition t_run (t : task) :=
  Task (t_waiting_on t) (t_status t) (t_wait_time t) tRUNNING (t_irq t) (u32 (t_scount t + 1)) (t_kstack t) (t_ustack t) (t_stack_area t) (t_team t) (t_kont t).
Definition t_set_stack (t : task) (ustack area : Z) :=
  Task (t_waiting_on t) (t_status t) (t_wait_time t) (t_flags t) (t_irq t) (t_scount t) (t_kstack t) ustack area (t_team t) (t_kont t).

(** ** The kernel monad *)
Definition M (A : Type) : Type := kst -> cres (A * kst).
Definition ret {A} (a : A) : M A := fun s => Ok (a, s).
Definition bind {A B} (m : M A) (k : A -> M B) : M B :=
  fun s => match m s with Ok (a, s) => k a s | Panic w => Panic w | Fault => Fault end.
Definition panic {A} (why : string) : M A := fun _ => Panic why.
Definition fault {A} : M A := fun _ => Fault.
Definition gets {A} (f : kst -> A) : M A := fun s => Ok (f s, s).
Definition modify (f : kst -> kst) : M unit := fun s => Ok (tt, f s).
Definition lift {A} (c : cres A) : M A := fun s => match c with Ok a => Ok (a, s) | Panic w => Panic w | Fault => Fault end.
(** A memory.c operation. *)
Definition on_mem {A} (f : KMem.mem -> cres (A * KMem.mem)) : M A :=
  fun s => match f (k_mem s) with
           | Ok (a, m) => Ok (a, set_k_mem s m) | Panic w => Panic w | Fault => Fault end.

Declare Scope k_scope.
Delimit Scope k_scope with k.
Notation "x <- m ;; k" := (bind m (fun x => k))
  (at level 100, m at next level, right associativity) : k_scope.
Notation "m ;; k" := (bind m (fun _ => k)) (at level 100, right associativity) : k_scope.
Open Scope k_scope.

(** [p->field] on the kinds of objects; a missing object is a fault. *)
Definition get_res (p : Z) : M resource := s <- gets id ;; lift (deref (k_res s !! p)).
Definition get_task (p : Z) : M task := s <- gets id ;; lift (deref (k_task s !! p)).
Definition get_sem (p : Z) : M Z := s <- gets id ;; lift (deref (k_sem s !! p)).
Definition get_port (p : Z) : M port := s <- gets id ;; lift (deref (k_port s !! p)).
Definition get_team (p : Z) : M team := s <- gets id ;; lift (deref (k_team s !! p)).
Definition get_asp (p : Z) : M aspace := s <- gets id ;; lift (deref (k_asp s !! p)).
Definition get_area (p : Z) : M area := s <- gets id ;; lift (deref (k_area s !! p)).
Definition get_pgrp (p : Z) : M pagegroup := s <- gets id ;; lift (deref (k_pgrp s !! p)).

Definition put_res (p : Z) (x : resource) : M unit := modify (fun s => set_k_res s (<[p := x]> (k_res s))).
Definition put_task (p : Z) (x : task) : M unit := modify (fun s => set_k_task s (<[p := x]> (k_task s))).
Definition put_sem (p : Z) (x : Z) : M unit := modify (fun s => set_k_sem s (<[p := x]> (k_sem s))).
Definition put_port (p : Z) (x : port) : M unit := modify (fun s => set_k_port s (<[p := x]> (k_port s))).
Definition put_team (p : Z) (x : team) : M unit := modify (fun s => set_k_team s (<[p := x]> (k_team s))).
Definition put_asp (p : Z) (x : aspace) : M unit := modify (fun s => set_k_asp s (<[p := x]> (k_asp s))).
Definition put_area (p : Z) (x : area) : M unit := modify (fun s => set_k_area s (<[p := x]> (k_area s))).
Definition put_pgrp (p : Z) (x : pagegroup) : M unit := modify (fun s => set_k_pgrp s (<[p := x]> (k_pgrp s))).

(** kmalloc(type): a new object address; 64 bytes apart so that addresses differ. *)
Definition kmalloc : M Z :=
  p <- gets k_brk ;; modify (fun s => set_k_brk s (p + 64)) ;; ret p.

(** The address of the static null_resource of resource.c. *)
Definition null_resource : Z := 4.

End KState.
