(* ===== verification/Rsrc.v ===== *)
(** kernel/resource.c: the table of kernel resources and their wait queues;
  kernel/rights.c, whose calls are stubs; and task_wake of kernel/task.c, which
  rsrc_release uses. *)
From S2P Require Import Prelude KList KMem KState.
Import KState.
Local Open Scope Z_scope.
Local Open Scope k_scope.

Module Rsrc.

(** ** Queues *)

(** rsrc_enqueue: wait fields of the task, then list_attach_tail. *)
Definition rsrc_enqueue (rsrc t : Z) : M unit :=
  tk <- get_task t ;;
  put_task t (t_set_wait tk rsrc 0 tWAITING) ;;
  r <- get_res rsrc ;;
  put_res rsrc (r_set_queue r (r_queue r ++ [t])).

(** rsrc_enqueue_ordered; the list is not kept ordered ("XXX fixme"). *)
Definition rsrc_enqueue_ordered (rsrc t wake_time : Z) : M unit :=
  r <- get_res rsrc ;;
  put_res rsrc (r_set_queue r (r_queue r ++ [t])) ;;
  tk <- get_task t ;;
  put_task t (t_set_wait tk rsrc (u32 wake_time) tWAITING).

(** list_detach_head on the queue of a resource. *)
Definition queue_detach_head (rsrc : Z) : M Z :=
  r <- get_res rsrc ;;
  match r_queue r with
  | [] => ret 0
  | t :: q => put_res rsrc (r_set_queue r q) ;; ret t
  end.

Definition rsrc_dequeue (rsrc : Z) : M Z :=
  t <- queue_detach_head rsrc ;;
  if decide (t = 0) then ret 0 else
  tk <- get_task t ;;
  put_task t (t_set_wait tk 0 (t_wait_time tk) tREADY) ;;
  ret t.

(** rsrc_queue_peek has no return statement for an empty queue: [undef] is the
  value the caller happens to find in the return register. *)
Definition rsrc_queue_peek (undef rsrc : Z) : M Z :=
  r <- get_res rsrc ;;
  match r_queue r with
  | [] => ret undef
  | t :: _ => ret t
  end.

(** task_wake of kernel/task.c *)
Definition task_wake (t status : Z) : M unit :=
  tk <- get_task t ;;
  put_task t (t_set_status tk status) ;;
  g <- gets k_glob ;;
  rsrc_enqueue (g_run_queue g) t.

(** [while((t = list_detach_head(&r->queue))) task_wake(t,ERR_RESOURCE);]
  Running out of fuel is a loop that never ends. *)
Fixpoint wake_all (fuel : nat) (rsrc : Z) : M unit :=
  match fuel with
  | O => fault
  | S fuel =>
      t <- queue_detach_head rsrc ;;
      if decide (t = 0) then ret tt else
      task_wake t ERR_RESOURCE ;;
      wake_all fuel rsrc
  end.

Definition queue_fuel (rsrc : Z) : M nat :=
  r <- get_res rsrc ;; ret (S (length (r_queue r))).

(** ** The table *)

Definition rsrc_find (type : rsrc_type) (id : Z) : M Z :=
  rmap <- gets k_rmap ;;
  if decide (u32 id < Z.of_nat (length rmap)) then
    e <- lift (deref (aget rmap (u32 id))) ;;
    r <- get_res e.1 ;;
    if decide (r_type r = type) then ret e.1 else ret 0
  else ret 0.

Definition team_add_resource (tm r : Z) : M unit :=
  x <- get_team tm ;;
  put_team tm (Team (tm_resources x ++ [r]) (tm_refcount x) (tm_aspace x) (tm_heap_id x) (tm_text_area x)).

Definition team_remove_resource (tm r : Z) : M unit :=
  x <- get_team tm ;;
  put_team tm (Team (remove1 r (tm_resources x)) (tm_refcount x) (tm_aspace x) (tm_heap_id x) (tm_text_area x)).

Definition rsrc_set_owner (r owner : Z) : M unit :=
  x <- get_res r ;;
  (if decide (r_owner x = 0) then ret tt else team_remove_resource (r_owner x) r) ;;
  x <- get_res r ;;
  put_res r (r_set_owner x owner) ;;
  if decide (owner = 0) then ret tt else team_add_resource owner r.

Definition rsrc_identify (id : Z) : M Z :=
  rmap <- gets k_rmap ;;
  if decide (Z.of_nat (length rmap) <= u32 id) then ret 0 else
  e <- lift (deref (aget rmap (u32 id))) ;;
  r <- get_res e.1 ;;
  if decide (r_type r = RSRC_NONE) then ret 0 else
  o <- get_res (r_owner r) ;;
  ret (r_id o).

Definition rsrc_bind (rsrc : Z) (type : rsrc_type) (owner : Z) : M unit :=
  rfree <- gets k_rfree ;;
  rmap <- gets k_rmap ;;
  if decide (rfree = 0) then panic "resource exhaustion" else
  let id := rfree in
  e <- lift (deref (aget rmap rfree)) ;;
  modify (fun s => set_k_rfree s e.2) ;;
  rmap <- lift (deref (aset rmap id (rsrc, e.2))) ;;
  modify (fun s => set_k_rmap s rmap) ;;
  put_res rsrc (Rsrc id type owner [] [] []) ;;
  (if decide (owner = 0) then ret tt else team_add_resource owner rsrc) ;;
  modify (fun s => set_k_rlist s (k_rlist s ++ [rsrc])).

Definition rsrc_release (r : Z) : M unit :=
  x <- get_res r ;;
  let id := r_id x in
  (if decide (r_owner x = 0) then ret tt else team_remove_resource (r_owner x) r) ;;
  modify (fun s => set_k_rlist s (remove1 r (k_rlist s))) ;;
  fuel <- queue_fuel r ;;
  wake_all fuel r ;;
  x <- get_res r ;;
  put_res r (r_set_id (r_set_type x RSRC_NONE) 0) ;;
  rmap <- gets k_rmap ;;
  rfree <- gets k_rfree ;;
  rmap <- lift (deref (aset rmap id (null_resource, rfree))) ;;
  modify (fun s => set_k_rmap s rmap) ;;
  modify (fun s => set_k_rfree s id).

(** kfree of an object: later accesses fault. *)
Definition kfree_res (r : Z) : M unit := modify (fun s => set_k_res s (delete r (k_res s))).

(** The characters copied by rsrc_set_name: at most 31, up to the terminator. *)
Definition rsrc_set_name (r : Z) (name : option (list Z)) : M unit :=
  x <- get_res r ;;
  put_res r (r_set_name x (match name with Some n => take 31 n | None => [] end)).

Definition queue_create (name : option (list Z)) (tm : Z) : M Z :=
  r <- kmalloc ;;
  rsrc_bind r RSRC_QUEUE tm ;;
  rsrc_set_name r name ;;
  x <- get_res r ;;
  ret (r_id x).

Definition rsrc_typename (r : resource) : string :=
  match r_type r with
  | RSRC_NONE => "none" | RSRC_TASK => "task" | RSRC_ASPACE => "aspace" | RSRC_PORT => "port"
  | RSRC_SEM => "sem" | RSRC_RIGHT => "right" | RSRC_AREA => "area" | RSRC_QUEUE => "queue"
  | RSRC_TEAM => "team" | RSRC_MAX => "????"
  end.

(** rsrc_init(map, size): [rmax = size / sizeof(rtab)] entries chained in order,
  entry 0 never handed out. *)
Definition rtab_size : Z := 8.
Definition rsrc_init (size : Z) : M unit :=
  let rmax := Z.to_nat (size / rtab_size) in
  modify (fun s => set_k_rlist s []) ;;
  put_res null_resource (Rsrc 0 RSRC_NONE 0 [] [] []) ;;
  modify (fun s => set_k_rfree s 1) ;;
  let rmap := imap (fun i _ => (null_resource, Z.of_nat i + 1)) (replicate rmax tt) in
  rmap <- lift (deref (aset rmap (Z.of_nat rmax - 1) (null_resource, 0))) ;;
  modify (fun s => set_k_rmap s rmap).

(** kernel/rights.c *)
Definition right_create (rsrc_id flags : Z) : M Z := ret ERR_NONE.
Definition right_destroy (right_id : Z) : M Z := ret ERR_NONE.
Definition right_revoke (right_id thread_id : Z) : M Z := ret ERR_NONE.
Definition right_grant (right_id thread_id : Z) : M Z := ret ERR_NONE.

End Rsrc.
