(* ===== verification/Sched.v ===== *)
(** The scheduler: preempt and swtch of kernel/kernel.c, wait_on of
  kernel/task.c, the interrupt entry points of kernel/fault.c, and sleep,
  terminate and wake_the_reaper of kernel/syscall.c.

  _context_switch saves and restores stacks; in the model the switch is the
  change of [k_current], and the task that becomes current goes on with its
  continuation (see Syscall.resume). *)
From S2P Require Import Prelude KList KMem KState Rsrc.
Import KState Rsrc.
Local Open Scope Z_scope.
Local Open Scope k_scope.

Module Sched.

Definition set_current (t : Z) : M unit := modify (fun s => set_k_current s t).

(** The running task records where it will continue. *)
Definition set_kont (k : kont) : M unit :=
  cur <- gets k_current ;;
  t <- get_task cur ;;
  put_task cur (t_set_kont t k).

(** preempt(task, status): the comparison of the task pointer with tDEAD is
  never true for an object address. *)
Definition preempt (t status : Z) : M unit :=
  g <- gets k_glob ;;
  cur <- gets k_current ;;
  (if decide (cur = g_idle_task g) then ret tt else rsrc_enqueue (g_run_queue g) cur) ;;
  set_current t ;;
  tk <- get_task t ;;
  put_task t (t_run (t_set_status tk status)).

Definition swtch : M unit :=
  g <- gets k_glob ;;
  cur <- gets k_current ;;
  tk <- get_task cur ;;
  rq <- get_res (g_run_queue g) ;;
  if decide (r_queue rq = [] /\ t_flags tk = tRUNNING) then ret tt else
  (if decide (t_flags tk = tRUNNING /\ cur <> g_idle_task g)
   then rsrc_enqueue (g_run_queue g) cur else ret tt) ;;
  nxt <- rsrc_dequeue (g_run_queue g) ;;
  live <- gets k_live_tasks ;;
  (if decide (nxt = 0) then
     if decide (live = 0) then panic "No runnable tasks.  Exiting." else set_current (g_idle_task g)
   else set_current nxt) ;;
  cur <- gets k_current ;;
  tk <- get_task cur ;;
  if decide (t_flags tk = tDEAD) then panic "The dead have returned!" else
  put_task cur (t_run tk).

(** wait_on(rsrc): the caller's continuation [k] reads current->status. *)
Definition wait_on (rsrc : Z) (k : kont) : M unit :=
  cur <- gets k_current ;;
  set_kont k ;;
  tk <- get_task cur ;;
  put_task cur (t_set_status tk 0) ;;
  rsrc_enqueue rsrc cur ;;
  swtch.

(** sleep(ticks) of syscall.c: microseconds to 3 ms ticks; the int arithmetic
  is at its width.  The call returns nothing: the caller's registers are kept. *)
Definition ticks_of (us : Z) : Z := Z.quot (s32 (us + 2000)) 3000.

Definition sleep (us : Z) : M unit :=
  cur <- gets k_current ;;
  g <- gets k_glob ;;
  kt <- gets k_timer ;;
  set_kont KUser ;;
  (if decide (ticks_of us = 0) then ret tt
   else rsrc_enqueue_ordered (g_timer_queue g) cur (kt + ticks_of us)) ;;
  swtch.

(** mask_irq and unmask_irq of kernel/i386.c, as bits of the two PICs. *)
Definition mask_irq (n : Z) : M unit :=
  m <- gets k_masked ;;
  m <- lift (deref (aset m n true)) ;;
  modify (fun s => set_k_masked s m).
Definition unmask_irq (n : Z) : M unit :=
  m <- gets k_masked ;;
  m <- lift (deref (aset m n false)) ;;
  modify (fun s => set_k_masked s m).

Definition irq_dispatch (number : Z) : M unit :=
  mask_irq number ;;
  m <- gets k_irq_map ;;
  t <- lift (deref (aget m number)) ;;
  if decide (t = 0) then ret tt else
  tk <- get_task t ;;
  if decide (t_flags tk = tSLEEP_IRQ) then preempt t ERR_NONE else ret tt.

(** [while((task = rsrc_queue_peek(timer_queue)))] of timer_irq; the comparison
  of wait_time with kernel_timer is unsigned. *)
Fixpoint timer_loop (fuel : nat) (undef : Z) : M unit :=
  match fuel with
  | O => fault
  | S fuel =>
      g <- gets k_glob ;;
      t <- rsrc_queue_peek undef (g_timer_queue g) ;;
      if decide (t = 0) then ret tt else
      tk <- get_task t ;;
      kt <- gets k_timer ;;
      if decide (t_wait_time tk <= u32 kt) then
        t <- rsrc_dequeue (g_timer_queue g) ;;
        rsrc_enqueue (g_run_queue g) t ;;
        timer_loop fuel undef
      else ret tt
  end.

Definition timer_irq (undef : Z) : M unit :=
  modify (fun s => set_k_timer s (s32 (k_timer s + 1))) ;;
  g <- gets k_glob ;;
  fuel <- queue_fuel (g_timer_queue g) ;;
  timer_loop fuel undef ;;
  swtch.

(** wake_the_reaper and terminate of syscall.c *)
Definition wake_the_reaper : M unit :=
  g <- gets k_glob ;;
  sem <- rsrc_find RSRC_SEM (g_reaper_sem g) ;;
  c <- get_sem sem ;;
  put_sem sem (s32 (c + 1)) ;;
  t <- rsrc_dequeue sem ;;
  if decide (t = 0) then ret tt else task_wake t ERR_NONE.

Definition terminate : M unit :=
  cur <- gets k_current ;;
  modify (fun s => set_k_live_tasks s (s32 (k_live_tasks s - 1))) ;;
  g <- gets k_glob ;;
  rsrc_enqueue (g_reaper_queue g) cur ;;
  tk <- get_task cur ;;
  put_task cur (t_set_flags tk tDEAD) ;;
  fuel <- queue_fuel cur ;;
  wake_all fuel cur ;;
  wake_the_reaper ;;
  swtch.

End Sched.
