(* ===== verification/Sem.v ===== *)
(** kernel/sem.c: counting semaphores.  A call that suspends its caller returns
  [None] here; the caller's continuation delivers the result later. *)
From S2P Require Import Prelude KList KMem KState Rsrc Sched.
Import KState Rsrc Sched.
Local Open Scope Z_scope.
Local Open Scope k_scope.

Module Sem.

(** [current->rsrc.owner] *)
Definition current_owner : M Z :=
  cur <- gets k_current ;; r <- get_res cur ;; ret (r_owner r).

Definition sem_create (count : Z) (name : option (list Z)) : M Z :=
  s <- kmalloc ;;
  put_sem s (s32 count) ;;
  o <- current_owner ;;
  rsrc_bind s RSRC_SEM o ;;
  rsrc_set_name s name ;;
  r <- get_res s ;;
  ret (r_id r).

Definition sem_destroy (id : Z) : M Z :=
  s <- rsrc_find RSRC_SEM id ;;
  if decide (s = 0) then ret ERR_RESOURCE else
  rsrc_release s ;;
  modify (fun k => set_k_sem k (delete s (k_sem k))) ;;
  kfree_res s ;;
  ret ERR_NONE.

Definition sem_acquire (id : Z) : M (option Z) :=
  s <- rsrc_find RSRC_SEM id ;;
  if decide (s = 0) then ret (Some ERR_RESOURCE) else
  c <- get_sem s ;;
  if decide (0 < c) then put_sem s (s32 (c - 1)) ;; ret (Some ERR_NONE) else
  put_sem s (s32 (c - 1)) ;;
  wait_on s KSemAcquire ;;
  ret None.

Definition sem_release (id : Z) : M (option Z) :=
  s <- rsrc_find RSRC_SEM id ;;
  if decide (s = 0) then ret (Some ERR_RESOURCE) else
  c <- get_sem s ;;
  put_sem s (s32 (c + 1)) ;;
  t <- rsrc_dequeue s ;;
  if decide (t = 0) then ret (Some ERR_NONE) else
  set_kont (KRet ERR_NONE) ;;
  preempt t ERR_NONE ;;
  ret None.

End Sem.
