(* ===== verification/Port.v ===== *)
(** kernel/port.c: message ports.

  [k_umem] is the user memory of every team, byte by byte; a message pointer is
  an address in the memory of the running task's team.  The blocking loops of
  port_send and port_recv are entered again from the task's continuation. *)
From S2P Require Import Prelude KList KMem KState Rsrc Sched Sem.
Import KState Rsrc Sched Sem.
Local Open Scope Z_scope.
Local Open Scope k_scope.

Module Port.

Definition MAX_MSGCOUNT : Z := 16.
Definition PORT_OPT_NOWAIT : Z := 1.
Definition PORT_OPT_SETRESTRICT : Z := 2.
Definition PORT_OPT_SLAVE : Z := 4.

Definition p_set_msgs (p : port) (n : Z) (l : list message) : port :=
  Port n (p_slaved p) l (p_refcount p) (p_nowait p) (p_restrict p) (p_sendqueue p).
Definition p_set_refcount (p : port) (n : Z) : port :=
  Port (p_msgcount p) (p_slaved p) (p_msgs p) n (p_nowait p) (p_restrict p) (p_sendqueue p).
Definition p_set_slaved (p : port) (x : Z) : port :=
  Port (p_msgcount p) x (p_msgs p) (p_refcount p) (p_nowait p) (p_restrict p) (p_sendqueue p).
Definition p_set_nowait (p : port) (x : Z) : port :=
  Port (p_msgcount p) (p_slaved p) (p_msgs p) (p_refcount p) x (p_restrict p) (p_sendqueue p).
Definition p_set_restrict (p : port) (x : Z) : port :=
  Port (p_msgcount p) (p_slaved p) (p_msgs p) (p_refcount p) (p_nowait p) x (p_sendqueue p).

(** The queue name that the code formats is not used: both resources get [name]. *)
Definition port_create (restrict : Z) (name : option (list Z)) : M Z :=
  p <- kmalloc ;;
  q <- kmalloc ;;
  put_port p (Port 0 0 [] 1 0 restrict q) ;;
  o <- current_owner ;;
  rsrc_bind p RSRC_PORT o ;;
  rsrc_bind q RSRC_QUEUE o ;;
  rsrc_set_name p name ;;
  rsrc_set_name q name ;;
  r <- get_res p ;;
  ret (r_id r).

Definition port_destroy (port : Z) : M Z :=
  p <- rsrc_find RSRC_PORT port ;;
  if decide (p = 0) then ret ERR_RESOURCE else
  pt <- get_port p ;;
  if decide (p_refcount pt = 1) then
    rsrc_release p ;;
    rsrc_release (p_sendqueue pt) ;;
    kfree_res (p_sendqueue pt) ;;
    modify (fun k => set_k_port k (delete p (k_port k))) ;;
    kfree_res p ;;
    ret ERR_NONE
  else ret ERR_RESOURCE.

(** The PORT_OPT_SLAVE branch. *)
Definition port_option_slave (p arg : Z) : M Z :=
  o <- current_owner ;;
  ok <- (if decide (arg = 0) then ret ERR_NONE else
    master <- rsrc_find RSRC_PORT arg ;;
    if decide (master = 0) then ret ERR_RESOURCE else
    mr <- get_res master ;;
    if decide (r_owner mr <> o) then ret ERR_PERMISSION else
    m <- get_port master ;;
    put_port master (p_set_refcount m (s32 (p_refcount m + 1))) ;;
    ret ERR_NONE) ;;
  if decide (ok <> ERR_NONE) then ret ok else
  pt <- get_port p ;;
  (if decide (p_slaved pt = 0) then ret tt else
   master <- rsrc_find RSRC_PORT (p_slaved pt) ;;
   if decide (master = 0) then panic "port_option(): master port not found?" else
   m <- get_port master ;;
   put_port master (p_set_refcount m (s32 (p_refcount m - 1)))) ;;
  pt <- get_port p ;;
  put_port p (p_set_slaved pt arg) ;;
  ret ERR_NONE.

Definition port_option (port opt arg : Z) : M Z :=
  p <- rsrc_find RSRC_PORT port ;;
  if decide (p = 0) then ret ERR_RESOURCE else
  r <- get_res p ;;
  o <- current_owner ;;
  if decide (r_owner r <> o) then ret ERR_PERMISSION else
  if decide (opt = PORT_OPT_SETRESTRICT) then
    pt <- get_port p ;; put_port p (p_set_restrict pt arg) ;; ret ERR_NONE
  else if decide (opt = PORT_OPT_SLAVE) then port_option_slave p arg
  else if decide (opt = PORT_OPT_NOWAIT) then
    pt <- get_port p ;; put_port p (p_set_nowait pt arg) ;; ret ERR_NONE
  else ret ERR_PERMISSION.

(** ** User memory

  The only page table of an address space covers the first 0x400000 bytes.  The kernel
  follows the pointers of its callers without looking whether they lie there; beyond it are
  the kernel's own data and addresses without memory, and an access there is a fault. *)
Definition user_addr (addr n : Z) : Prop := n <= 0 \/ (0 <= addr /\ addr + n <= 0x400000).
#[export] Instance user_addr_dec addr n : Decision (user_addr addr n).
Proof. unfold user_addr. apply _. Defined.

Definition umem_read (tm : Z) (addr : Z) (n : Z) : M (list Z) :=
  if decide (user_addr addr n) then
  um <- gets k_umem ;;
  ret (map (fun i => default 0 (um !! (tm, addr + Z.of_nat i))) (seq 0 (Z.to_nat n)))
  else fault.

Fixpoint umem_put (um : gmap (Z * Z) Z) (tm addr : Z) (l : list Z) : gmap (Z * Z) Z :=
  match l with
  | [] => um
  | b :: l => umem_put (<[(tm, addr) := b]> um) tm (addr + 1) l
  end.

Definition umem_write (tm addr : Z) (l : list Z) : M unit :=
  if decide (user_addr addr (Z.of_nat (length l))) then
    modify (fun s => set_k_umem s (umem_put (k_umem s) tm addr l))
  else fault.

Definition le32 (v : Z) : list Z :=
  [u8 v; u8 (v / 2 ^ 8); u8 (v / 2 ^ 16); u8 (v / 2 ^ 24)].

Definition current_team : M Z :=
  cur <- gets k_current ;; t <- get_task cur ;; ret (t_team t).

(** ** Sending *)

(** If a task sleeps on [p], it becomes ready. *)
Definition wake_one (p : Z) : M unit :=
  t <- rsrc_dequeue p ;;
  if decide (t = 0) then ret tt else task_wake t ERR_NONE.

(** The page of a message of 256 bytes or more. *)
Definition msg_page : M Z :=
  pool <- gets k_msg_pool ;;
  match pool with
  | pg :: rest => modify (fun s => set_k_msg_pool s rest) ;; ret pg
  | [] => on_mem (fun m => KMem.kgetpages m 1)
  end.

(** From the bounds check of port_send to its return. *)
Definition port_send_post (src dst msg size code p : Z) : M Z :=
  if decide (0x400000 < u32 msg \/ 4096 < u32 size) then ret ERR_MEMORY else
  pg <- (if decide (size < 256) then ret 0 else msg_page) ;;
  tm <- current_team ;;
  data <- umem_read tm msg size ;;
  pt <- get_port p ;;
  put_port p (p_set_msgs pt (s32 (p_msgcount pt + 1))
    (p_msgs pt ++ [Msg size code src dst pg data])) ;;
  (if decide (p_slaved pt = 0) then wake_one p else
   p0 <- rsrc_find RSRC_PORT (p_slaved pt) ;;
   if decide (p0 = 0) then ret tt else wake_one p0) ;;
  ret size.

(** The loop that waits for room in the queue of [p]. *)
Definition port_send_loop (src dst msg size code p : Z) : M (option Z) :=
  pt <- get_port p ;;
  if decide (MAX_MSGCOUNT <= p_msgcount pt) then
    if decide (p_nowait pt <> 0) then ret (Some ERR_WOULD_BLOCK) else
    wait_on (p_sendqueue pt) (KPortSend src dst msg size code p) ;;
    ret None
  else
    r <- port_send_post src dst msg size code p ;;
    ret (Some r).

Definition port_send (src dst msg size code : Z) : M (option Z) :=
  f <- rsrc_find RSRC_PORT src ;;
  if decide (f = 0) then ret (Some ERR_SENDPORT) else
  p <- rsrc_find RSRC_PORT dst ;;
  if decide (p = 0) then ret (Some ERR_RECVPORT) else
  pt <- get_port p ;;
  if decide (p_slaved pt = 0) then port_send_loop src dst msg size code p else
  p <- rsrc_find RSRC_PORT (p_slaved pt) ;;
  if decide (p = 0) then ret (Some ERR_RESOURCE) else
  pt <- get_port p ;;
  if decide (p_slaved pt <> 0) then ret (Some ERR_RESOURCE) else
  port_send_loop src dst msg size code p.

(** ** Receiving *)

(** From the copy of the message to the return of port_recv. *)
Definition port_recv_take (dst src msg size code p : Z) : M Z :=
  pt <- get_port p ;;
  match p_msgs pt with
  | [] => fault
  | m :: rest =>
      tm <- current_team ;;
      let n := Z.min (m_size m) size in
      umem_write tm msg (take (Z.to_nat n) (m_data m)) ;;
      (if decide (src = 0) then ret tt else umem_write tm src (le32 (m_from_port m))) ;;
      (if decide (code = 0) then ret tt else umem_write tm code (le32 (m_code m))) ;;
      put_port p (p_set_msgs pt (p_msgcount pt) rest) ;;
      q <- get_res (p_sendqueue pt) ;;
      (if decide (r_queue q <> [] /\ p_msgcount pt <= MAX_MSGCOUNT)
       then wake_one (p_sendqueue pt) else ret tt) ;;
      pt <- get_port p ;;
      put_port p (p_set_msgs pt (s32 (p_msgcount pt - 1)) (p_msgs pt)) ;;
      (if decide (m_size m < 256) then ret tt
       else modify (fun s => set_k_msg_pool s (m_page m :: k_msg_pool s))) ;;
      ret n
  end.

Definition port_recv_loop (dst src msg size code p : Z) : M (option Z) :=
  pt <- get_port p ;;
  if decide (p_msgcount pt = 0) then
    if decide (p_nowait pt <> 0) then ret (Some ERR_WOULD_BLOCK) else
    wait_on p (KPortRecv dst src msg size code p) ;;
    ret None
  else
    r <- port_recv_take dst src msg size code p ;;
    ret (Some r).

Definition port_recv (dst src msg size code : Z) : M (option Z) :=
  p <- rsrc_find RSRC_PORT dst ;;
  if decide (p = 0) then ret (Some ERR_RECVPORT) else
  tm <- current_team ;;
  g <- gets k_glob ;;
  if decide (tm <> g_kernel_team g /\ 0x400000 < u32 msg) then ret (Some ERR_MEMORY) else
  port_recv_loop dst src msg size code p.

End Port.
