(* ===== verification/Aspace.v ===== *)
(** kernel/aspace.c: address spaces, areas and page groups.

  The page table of an address space is the array [as_ptab] of 1024 entries; a
  store outside it is a [Fault].  The chain of phys_page_t of a page group is
  the list of their six-slot arrays. *)
From S2P Require Import Prelude KList KMem KState Rsrc Sched Sem.
Import KState Rsrc Sched Sem.
Local Open Scope Z_scope.
Local Open Scope k_scope.

Module Aspace.

Definition AREA_PHYSMAP : Z := 1.

Definition as_set_ptab (a : aspace) (l : list Z) : aspace :=
  Aspace (as_areas a) (as_pdir a) (as_ptab_page a) (as_pdirphys a) l.
Definition as_set_areas (a : aspace) (l : list Z) : aspace :=
  Aspace l (as_pdir a) (as_ptab_page a) (as_pdirphys a) (as_ptab a).
Definition pg_set_areas (p : pagegroup) (n : Z) (l : list Z) : pagegroup :=
  PGroup (pg_size p) n (pg_flags p) l (pg_pages p).

Definition kgetpage : M (Z * Z) :=
  on_mem (fun m => match KMem.kgetpage m with
    | Ok (v, ph, m) => Ok ((v, ph), m) | Panic w => Panic w | Fault => Fault end).
Definition getpage : M Z := on_mem KMem.getpage.
Definition putpage (n : Z) : M unit :=
  on_mem (fun m => match KMem.putpage m n with
    | Ok m => Ok (tt, m) | Panic w => Panic w | Fault => Fault end).
Definition kfreepage (v : Z) : M unit :=
  on_mem (fun m => match KMem.kfreepage m v with
    | Ok m => Ok (tt, m) | Panic w => Panic w | Fault => Fault end).

(** aspace_create: a page directory, an empty page table, bound to the kernel team. *)
Definition aspace_create : M Z :=
  a <- kmalloc ;;
  p0 <- kgetpage ;;
  p1 <- kgetpage ;;
  put_asp a (Aspace [] p0.1 p1.1 p0.2 (replicate 1024 0)) ;;
  g <- gets k_glob ;;
  rsrc_bind a RSRC_ASPACE (g_kernel_team g) ;;
  ret a.

(** The entry [((ptab & 0xFFFFF000) | (flags & 0xFFF))]. *)
Definition aspace_protect (a virt flags : Z) : M unit :=
  x <- get_asp a ;;
  e <- lift (deref (aget (as_ptab x) virt)) ;;
  l <- lift (deref (aset (as_ptab x) virt (Z.lor (Z.land e 0xFFFFF000) (Z.land flags 0xFFF)))) ;;
  put_asp a (as_set_ptab x l).

Definition pte (phys flags : Z) : Z :=
  Z.lor (Z.land (u32 (phys * 4096)) 0xFFFFF000) (Z.land flags 0xFFF).

Fixpoint aspace_map_loop (a phys virt flags i : Z) (n : nat) : M unit :=
  match n with
  | O => ret tt
  | S n =>
      x <- get_asp a ;;
      l <- lift (deref (aset (as_ptab x) (virt + i) (pte (phys + i) flags))) ;;
      put_asp a (as_set_ptab x l) ;;
      aspace_map_loop a phys virt flags (i + 1) n
  end.

Definition aspace_map (a phys virt len flags : Z) : M unit :=
  aspace_map_loop a phys virt flags 0 (Z.to_nat len).

Fixpoint aspace_clr_loop (a virt i : Z) (n : nat) : M unit :=
  match n with
  | O => ret tt
  | S n =>
      x <- get_asp a ;;
      l <- lift (deref (aset (as_ptab x) (virt + i) 0)) ;;
      put_asp a (as_set_ptab x l) ;;
      aspace_clr_loop a virt (i + 1) n
  end.

Definition aspace_clr (a virt len : Z) : M unit := aspace_clr_loop a virt 0 (Z.to_nat len).

(** The loop of locate_span: [found] free pages in a row, the first at [foundat].
  The fuel is the number of entries left before 1024. *)
Fixpoint span_loop (map : list Z) (len start found foundat : Z) (fuel : nat) : cres Z :=
  if decide (found < len /\ start < 1024) then
    match fuel with
    | O => Fault
    | S fuel =>
        match aget map start with
        | None => Fault
        | Some e =>
            if decide (e <> 0) then span_loop map len (start + 1) 0 0 fuel
            else span_loop map len (start + 1) (found + 1)
                   (if decide (found = 0) then start else foundat) fuel
        end
    end
  else Ok foundat.

Definition span_start (start : Z) : Z := if decide (start < 1 \/ 1023 < start) then 512 else start.

Definition locate_span (a start len : Z) : M Z :=
  x <- get_asp a ;;
  lift (span_loop (as_ptab x) len (span_start start) 0 0 1024).

(** The pages of an area, six to a phys_page_t, the last one filled with zeros. *)
Fixpoint chunk6 (fuel : nat) (l : list Z) : list (list Z) :=
  match fuel with
  | O => []
  | S fuel =>
      match l with
      | [] => []
      | _ => (take 6 l ++ replicate (6 - length l) 0) :: chunk6 fuel (drop 6 l)
      end
  end.

(** [size] rounded up to pages, at least one. *)
Definition pages_of (size : Z) : Z :=
  let n := if decide (Z.land size 0xFFF <> 0) then size / 0x1000 + 1 else size / 0x1000 in
  if decide (n < 1) then 1 else n.

(** The mapping loop of area_create; the result are the pages in order. *)
Fixpoint area_fill (a at_ p flags : Z) (n : nat) : M (list Z) :=
  match n with
  | O => ret []
  | S n =>
      pg <- (if decide (Z.land flags AREA_PHYSMAP = 0) then getpage else ret p) ;;
      aspace_map a pg at_ 1 7 ;;
      l <- area_fill a (at_ + 1) (p + 1) flags n ;;
      ret (pg :: l)
  end.

(** Result and the new value of [*addr]. *)
Definition area_create (a size virt addr flags : Z) : M (Z * Z) :=
  let size := pages_of size in
  let p := if decide (Z.land flags AREA_PHYSMAP = 0) then 0 else u32 addr / 0x1000 in
  at_ <- locate_span a (virt / 0x1000) size ;;
  if decide (at_ = 0) then ret (ERR_MEMORY, addr) else
  pg <- kmalloc ;;
  ar <- kmalloc ;;
  put_area ar (Area pg at_ size size) ;;
  put_pgrp pg (PGroup size 1 flags [ar] []) ;;
  x <- get_asp a ;;
  put_asp a (as_set_areas x (as_areas x ++ [ar])) ;;
  l <- area_fill a at_ p flags (Z.to_nat size) ;;
  g <- get_pgrp pg ;;
  put_pgrp pg (PGroup (pg_size g) (pg_refcount g) (pg_flags g) (pg_areas g) (chunk6 (length l) l)) ;;
  o <- current_owner ;;
  rsrc_bind ar RSRC_AREA o ;;
  r <- get_res ar ;;
  ret (r_id r, at_ * 0x1000).

(** area_create_uber: an unmapped area over the boot image. *)
Definition area_create_uber (size addr : Z) : M Z :=
  let size := pages_of size in
  pg <- kmalloc ;;
  ar <- kmalloc ;;
  let l := map (fun i => u32 addr / 0x1000 + Z.of_nat i) (seq 0 (Z.to_nat size)) in
  put_pgrp pg (PGroup size 1 AREA_PHYSMAP [ar] (chunk6 (length l) l)) ;;
  put_area ar (Area pg 0 size size) ;;
  g <- gets k_glob ;;
  rsrc_bind ar RSRC_AREA (g_kernel_team g) ;;
  r <- get_res ar ;;
  ret (r_id r).

(** The mapping loop of area_clone over the slots of the shared page group. *)
Fixpoint clone_loop (a at_ : Z) (slots : list Z) (n : nat) : M unit :=
  match n with
  | O => ret tt
  | S n =>
      match slots with
      | [] => fault
      | p :: slots => aspace_map a p at_ 1 7 ;; clone_loop a (at_ + 1) slots n
      end
  end.

Definition area_clone (a area_id virt addr : Z) : M (Z * Z) :=
  ar0 <- rsrc_find RSRC_AREA area_id ;;
  if decide (ar0 = 0) then ret (ERR_RESOURCE, addr) else
  x0 <- get_area ar0 ;;
  at_ <- locate_span a (virt / 0x1000) (ar_length x0) ;;
  if decide (at_ = 0) then ret (ERR_MEMORY, addr) else
  ar1 <- kmalloc ;;
  pg <- get_pgrp (ar_pgroup x0) ;;
  put_area ar1 (Area (ar_pgroup x0) at_ (ar_length x0) (ar_maxlength x0)) ;;
  put_pgrp (ar_pgroup x0) (pg_set_areas pg (u32 (pg_refcount pg + 1)) (pg_areas pg ++ [ar1])) ;;
  x <- get_asp a ;;
  put_asp a (as_set_areas x (as_areas x ++ [ar1])) ;;
  clone_loop a at_ (concat (pg_pages pg)) (Z.to_nat (ar_length x0)) ;;
  o <- current_owner ;;
  rsrc_bind ar1 RSRC_AREA o ;;
  r <- get_res ar1 ;;
  ret (r_id r, at_ * 0x1000).

(** [for(count=0; pg->size && (count < 6); count++) { putpage(...); pg->size--; }] *)
Fixpoint release_slots (size : Z) (slots : list Z) : M Z :=
  match slots with
  | [] => ret size
  | p :: slots =>
      if decide (size = 0) then ret size else
      putpage p ;; release_slots (size - 1) slots
  end.

Fixpoint release_pages (release : bool) (size : Z) (pages : list (list Z)) : M unit :=
  match pages with
  | [] => ret tt
  | pp :: pages =>
      size <- (if release then release_slots size pp else ret size) ;;
      release_pages release size pages
  end.

Definition area_destroy (a area_id : Z) : M Z :=
  ar <- rsrc_find RSRC_AREA area_id ;;
  if decide (ar = 0) then ret ERR_RESOURCE else
  x <- get_asp a ;;
  if decide (ar ∉ as_areas x) then ret ERR_RESOURCE else
  put_asp a (as_set_areas x (remove1 ar (as_areas x))) ;;
  y <- get_area ar ;;
  aspace_clr a (ar_virt_addr y) (ar_length y) ;;
  pg <- get_pgrp (ar_pgroup y) ;;
  put_pgrp (ar_pgroup y) (pg_set_areas pg (u32 (pg_refcount pg - 1)) (remove1 ar (pg_areas pg))) ;;
  (if decide (u32 (pg_refcount pg - 1) = 0) then
     release_pages (bool_decide (Z.land (pg_flags pg) AREA_PHYSMAP = 0)) (pg_size pg) (pg_pages pg) ;;
     modify (fun s => set_k_pgrp s (delete (ar_pgroup y) (k_pgrp s)))
   else ret tt) ;;
  rsrc_release ar ;;
  modify (fun s => set_k_area s (delete ar (k_area s))) ;;
  kfree_res ar ;;
  ret ERR_NONE.

(** Store a page in slot [ppo] of the last phys_page_t, after appending a new
  one when [ppo] is 0. *)
Definition add_page (pages : list (list Z)) (ppo p : Z) : list (list Z) :=
  if decide (ppo = 0) then pages ++ [p :: replicate 5 0]
  else match last pages with
       | None => pages
       | Some c => <[(length pages - 1)%nat := <[Z.to_nat ppo := p]> c]> pages
       end.

Fixpoint resize_loop (a at_ ppo : Z) (pages : list (list Z)) (n : nat) : M (list (list Z)) :=
  match n with
  | O => ret pages
  | S n =>
      p <- getpage ;;
      aspace_map a p at_ 1 7 ;;
      resize_loop a (at_ + 1) (if decide (ppo + 1 = 6) then 0 else ppo + 1) (add_page pages ppo p) n
  end.

Definition area_resize (a area_id size : Z) : M Z :=
  ar <- rsrc_find RSRC_AREA area_id ;;
  if decide (ar = 0) then ret ERR_RESOURCE else
  y <- get_area ar ;;
  pg <- get_pgrp (ar_pgroup y) ;;
  if decide (u32 size <= u32 (pg_size pg * 0x1000)) then ret 0 else
  let n := u32 (u32 size / 0x1000 - pg_size pg) in
  at_ <- locate_span a (ar_virt_addr y + pg_size pg) n ;;
  if decide (at_ <> ar_virt_addr y + pg_size pg) then ret ERR_MEMORY else
  put_area ar (Area (ar_pgroup y) (ar_virt_addr y) (u32 (ar_length y + n)) (u32 (ar_maxlength y + n))) ;;
  put_pgrp (ar_pgroup y) (PGroup (u32 (pg_size pg + n)) (pg_refcount pg) (pg_flags pg) (pg_areas pg) (pg_pages pg)) ;;
  pages <- resize_loop a at_ (pg_size pg mod 6) (pg_pages pg) (Z.to_nat n) ;;
  g <- get_pgrp (ar_pgroup y) ;;
  put_pgrp (ar_pgroup y) (PGroup (pg_size g) (pg_refcount g) (pg_flags g) (pg_areas g) pages) ;;
  ret 0.

(** [while((area = list_peek_head(&a->areas))) area_destroy(a, area->rsrc.id);] *)
Fixpoint destroy_areas (fuel : nat) (a : Z) : M unit :=
  match fuel with
  | O => fault
  | S fuel =>
      x <- get_asp a ;;
      match as_areas x with
      | [] => ret tt
      | ar :: _ => r <- get_res ar ;; area_destroy a (r_id r) ;; destroy_areas fuel a
      end
  end.

Definition aspace_destroy (a : Z) : M unit :=
  x <- get_asp a ;;
  destroy_areas (S (length (as_areas x))) a ;;
  rsrc_release a ;;
  kfreepage (as_pdir x) ;;
  kfreepage (as_ptab_page x) ;;
  modify (fun s => set_k_asp s (delete a (k_asp s))) ;;
  kfree_res a.

End Aspace.
