(* ===== verification/Task.v ===== *)
(** Tasks and teams: kernel/team.c, kernel/task.c, and new_thread, brk and the
  body of the reaper of kernel/kernel.c.  The initial contents of a kernel
  stack (the frame that _context_switch pops) are not modelled. *)
From S2P Require Import Prelude KList KMem KState Rsrc Sched Sem Port Aspace.
Import KState Rsrc Sched Sem Port Aspace.
Local Open Scope Z_scope.
Local Open Scope k_scope.

Module Task.

Definition team_create : M Z :=
  tm <- kmalloc ;;
  a <- aspace_create ;;
  put_team tm (Team [] 0 a 0 0) ;;
  g <- gets k_glob ;;
  rsrc_bind tm RSRC_TEAM (g_kernel_team g) ;;
  rsrc_set_owner a tm ;;
  ret tm.

(** One resource of a team that goes away. *)
Definition destroy_resource (r : Z) : M unit :=
  x <- get_res r ;;
  put_res r (r_set_owner x 0) ;;
  match r_type x with
  | RSRC_TASK | RSRC_PORT => port_destroy (r_id x) ;; ret tt
  | RSRC_SEM => sem_destroy (r_id x) ;; ret tt
  | RSRC_ASPACE => aspace_destroy r
  | _ => ret tt
  end.

Fixpoint destroy_resources (fuel : nat) (tm : Z) : M unit :=
  match fuel with
  | O => fault
  | S fuel =>
      x <- get_team tm ;;
      match tm_resources x with
      | [] => ret tt
      | r :: l =>
          put_team tm (Team l (tm_refcount x) (tm_aspace x) (tm_heap_id x) (tm_text_area x)) ;;
          destroy_resource r ;;
          destroy_resources fuel tm
      end
  end.

Definition team_destroy (tm : Z) : M unit :=
  x <- get_team tm ;;
  destroy_resources (S (length (tm_resources x))) tm ;;
  rsrc_release tm ;;
  modify (fun s => set_k_team s (delete tm (k_team s))) ;;
  kfree_res tm.

(** task_create: the kernel stack is a page, the team gains a reference. *)
Definition task_create (tm : Z) : M Z :=
  t <- kmalloc ;;
  kstack <- on_mem (fun m => KMem.kgetpages m 1) ;;
  put_task t (Task 0 0 0 tREADY 0 0 kstack 0 0 tm KUser) ;;
  x <- get_team tm ;;
  put_team tm (Team (tm_resources x) (s32 (tm_refcount x + 1)) (tm_aspace x) (tm_heap_id x) (tm_text_area x)) ;;
  ret t.

Definition task_destroy (t : Z) : M unit :=
  r <- get_res t ;;
  let tm := r_owner r in
  cur <- gets k_current ;;
  if decide (t = cur) then panic "cannot destroy the running task" else
  tk <- get_task t ;;
  (if decide (t_stack_area tk = 0) then ret tt else
   x <- get_team tm ;;
   ar <- get_res (t_stack_area tk) ;;
   area_destroy (tm_aspace x) (r_id ar) ;; ret tt) ;;
  kfreepage (t_kstack tk) ;;
  rsrc_release t ;;
  modify (fun s => set_k_task s (delete t (k_task s))) ;;
  kfree_res t ;;
  x <- get_team tm ;;
  let n := s32 (tm_refcount x - 1) in
  put_team tm (Team (tm_resources x) n (tm_aspace x) (tm_heap_id x) (tm_text_area x)) ;;
  if decide (n = 0) then team_destroy tm else ret tt.

(** [for(i=1023;i>0;i--) if(!ptab[i]) break;] *)
Fixpoint top_free (ptab : list Z) (i : nat) : nat :=
  match i with
  | O => O
  | S j => if decide (nth i ptab 0 = 0) then i else top_free ptab j
  end.

(** new_thread(team, ip, kernelspace); the check [!stack] only catches 0. *)
Definition new_thread (tm : Z) (kernelspace : bool) : M Z :=
  x <- get_team tm ;;
  a <- get_asp (tm_aspace x) ;;
  let i := Z.of_nat (top_free (as_ptab a) 1023) in
  stack <- area_create (tm_aspace x) 4096 (i * 4096) 0 0 ;;
  if decide (stack.1 = 0) then panic "cannot create a stack area. eek" else
  t <- task_create tm ;;
  ar <- rsrc_find RSRC_AREA stack.1 ;;
  tk <- get_task t ;;
  put_task t (t_set_stack tk (i * 4096) ar) ;;
  rsrc_bind t RSRC_TASK tm ;;
  tk <- get_task t ;;
  put_task t (t_set_flags tk tREADY) ;;
  (if kernelspace then ret tt else
   g <- gets k_glob ;;
   rsrc_enqueue (g_run_queue g) t ;;
   modify (fun s => set_k_live_tasks s (s32 (k_live_tasks s + 1)))) ;;
  ret t.

(** brk(addr): [area->virt_addr] is a page number, [addr] a byte address. *)
Definition brk (addr : Z) : M Z :=
  o <- current_owner ;;
  x <- get_team o ;;
  ar <- rsrc_find RSRC_AREA (tm_heap_id x) ;;
  if decide (ar = 0) then ret ERR_MEMORY else
  y <- get_area ar ;;
  area_resize (tm_aspace x) (tm_heap_id x)
    (u32 (0x1000 + Z.land (u32 (addr - ar_virt_addr y)) 0xFFFFF000)).

Definition thr_wait (id : Z) : M (option Z) :=
  t <- rsrc_find RSRC_TASK id ;;
  if decide (t = 0) then ret (Some ERR_RESOURCE) else
  wait_on t KThrWait ;;
  ret None.

Definition thr_spawn (area0 vaddr0 area1 vaddr1 : Z) (name : option (list Z)) : M Z :=
  tm <- team_create ;;
  x <- get_team tm ;;
  t <- task_create tm ;;
  rsrc_bind t RSRC_TASK tm ;;
  c0 <- area_clone (tm_aspace x) area0 vaddr0 0 ;;
  y <- get_team tm ;;
  put_team tm (Team (tm_resources y) (tm_refcount y) (tm_aspace y) c0.1 (tm_text_area y)) ;;
  ar <- rsrc_find RSRC_AREA c0.1 ;;
  (if decide (ar = 0) then ret tt else rsrc_set_owner ar tm) ;;
  c1 <- area_clone (tm_aspace x) area1 vaddr1 0 ;;
  ar <- rsrc_find RSRC_AREA c1.1 ;;
  (if decide (ar = 0) then ret tt else rsrc_set_owner ar tm) ;;
  rsrc_set_name t name ;;
  rsrc_set_name tm name ;;
  g <- gets k_glob ;;
  rsrc_enqueue (g_run_queue g) t ;;
  modify (fun s => set_k_live_tasks s (s32 (k_live_tasks s + 1))) ;;
  r <- get_res t ;;
  ret (r_id r).

(** One round of the reaper after its sem_acquire. *)
Definition reap : M unit :=
  g <- gets k_glob ;;
  t <- rsrc_dequeue (g_reaper_queue g) ;;
  task_destroy t.

End Task.
