(* ===== verification/Syscall.v ===== *)
(** kernel/syscall.c: the system call dispatcher, and the transition system of
  the kernel: system calls of the running task, the return of a suspended call,
  and interrupts. *)
From S2P Require Import Prelude KList KMem KState Rsrc Sched Sem Port Aspace Task.
Import KState Rsrc Sched Sem Port Aspace Task.
Local Open Scope Z_scope.
Local Open Scope k_scope.

Module Syscall.

(** ** Arguments *)

(** [p_uint32(n)]: word [n] of the caller's stack. *)
Definition p_uint32 (esp : list Z) (n : nat) : Z := u32 (nth n esp 0).
Definition p_int (esp : list Z) (n : nat) : Z := s32 (nth n esp 0).

(** The user string at [addr], up to its terminator or 31 characters, as
  rsrc_set_name reads it; NULL gives no string. *)
Fixpoint ustring (um : gmap (Z * Z) Z) (tm addr : Z) (n : nat) : list Z :=
  match n with
  | O => []
  | S n =>
      let c := default 0 (um !! (tm, addr)) in
      if decide (c = 0) then [] else c :: ustring um tm (addr + 1) n
  end.

Definition p_name (esp : list Z) (n : nat) : M (option (list Z)) :=
  um <- gets k_umem ;;
  tm <- current_team ;;
  if decide (p_uint32 esp n = 0) then ret None else
  let name := ustring um tm (p_uint32 esp n) 31 in
  if decide (user_addr (p_uint32 esp n) (Z.of_nat (Nat.min 31 (S (length name))))) then ret (Some name) else fault.

Definition of_le32 (l : list Z) : Z :=
  nth 0 l 0 + 2 ^ 8 * nth 1 l 0 + 2 ^ 16 * nth 2 l 0 + 2 ^ 24 * nth 3 l 0.

(** ** Calls whose code is in the dispatcher *)

Definition handle_irq (n : Z) : M unit :=
  if decide (0 < n < 16) then
    cur <- gets k_current ;;
    t <- get_task cur ;;
    put_task cur (t_set_irq t n) ;;
    m <- gets k_irq_map ;;
    m <- lift (deref (aset m n cur)) ;;
    modify (fun s => set_k_irq_map s m)
  else ret tt.

Definition sleep_irq : M unit :=
  cur <- gets k_current ;;
  t <- get_task cur ;;
  set_kont KUser ;;
  (if decide (t_irq t = 0) then ret tt else
   t <- get_task cur ;;
   put_task cur (t_set_flags t tSLEEP_IRQ) ;;
   unmask_irq (t_irq t)) ;;
  swtch.

(** The name of a thread created without one: the creator's with a '+'. *)
Definition plus_name (name : list Z) : list Z :=
  let nm := take 31 name in
  if decide ((length nm < 30)%nat) then nm ++ [43] else nm.

Definition thr_create (data : Z) (name : option (list Z)) : M Z :=
  o <- current_owner ;;
  t <- new_thread o false ;;
  tk <- get_task t ;;
  tm <- current_team ;;
  umem_write tm (t_ustack tk + 0xfec) (le32 data) ;;
  cur <- gets k_current ;;
  (match name with
   | None => c <- get_res cur ;; rsrc_set_name t (Some (plus_name (r_name c)))
   | Some _ => rsrc_set_name t name
   end) ;;
  r <- get_res t ;;
  ret (r_id r).

Definition metacall (esp : list Z) : Z := if decide (p_uint32 esp 0 = 0) then 0 else -1.

(** [current->rsrc.owner->aspace] *)
Definition current_aspace : M Z :=
  o <- current_owner ;; x <- get_team o ;; ret (tm_aspace x).

(** A call with an in-out [void **addr] argument at user address [ptr]. *)
Definition with_addr (ptr : Z) (f : Z -> M (Z * Z)) : M Z :=
  tm <- current_team ;;
  l <- umem_read tm ptr 4 ;;
  r <- f (of_le32 l) ;;
  umem_write tm ptr (le32 r.2) ;;
  ret r.1.

Definition some {A} (m : M A) : M (option A) := x <- m ;; ret (Some x).
Definition none {A} (m : M unit) : M (option A) := m ;; ret None.

(** The calls with a number, include/blt/syscall_id.h *)
Inductive call :=
| os_meta | os_terminate | os_console | os_brk | os_handle_irq | os_sleep_irq | os_debug
| os_sleep | sys_sem_create | sys_sem_destroy | sys_sem_acquire | sys_sem_release
| sys_port_create | sys_port_destroy | sys_port_option | sys_port_send | sys_port_recv
| os_identify | sys_right_create | sys_right_destroy | sys_right_revoke | sys_right_grant
| sys_thr_create | sys_thr_spawn | sys_thr_resume | sys_thr_suspend | sys_thr_kill | sys_thr_wait
| sys_area_create | sys_area_clone | sys_area_destroy | sys_area_resize | sys_other.

Definition call_of (eax : Z) : call :=
  match eax with
  | 0 => os_meta | 1 => os_terminate | 2 => os_console | 3 => os_brk | 4 => os_handle_irq
  | 5 => os_sleep_irq | 6 => os_debug | 7 => os_sleep | 8 => sys_sem_create
  | 9 => sys_sem_destroy | 10 => sys_sem_acquire | 11 => sys_sem_release
  | 12 => sys_port_create | 13 => sys_port_destroy | 14 => sys_port_option
  | 15 => sys_port_send | 16 => sys_port_recv | 17 => os_identify | 18 => sys_right_create
  | 19 => sys_right_destroy | 20 => sys_right_revoke | 22 => sys_right_grant
  | 24 => sys_thr_create | 25 => sys_thr_spawn | 26 => sys_thr_resume | 27 => sys_thr_suspend
  | 28 => sys_thr_kill | 29 => sys_thr_wait | 30 => sys_area_create | 31 => sys_area_clone
  | 32 => sys_area_destroy | 33 => sys_area_resize | _ => sys_other
  end.

(** ** syscall(): the value returned in eax, or [None] when the caller was
  suspended and its continuation will deliver the value.  A call without a
  result leaves its number in eax.  os_console prints and os_debug enters the
  interactive debugger; both leave the kernel state as it is. *)
Definition syscall (eax : Z) (esp : list Z) : M (option Z) :=
  let u := p_uint32 esp in
  match call_of eax with
  | os_terminate => none terminate
  | os_console | os_debug => ret (Some eax)
  | os_brk => some (brk (u 1%nat))
  | os_handle_irq => handle_irq (u 1%nat) ;; ret (Some eax)
  | os_sleep_irq => none sleep_irq
  | os_sleep => none (sleep (p_int esp 1))
  | os_identify => some (rsrc_identify (u 1%nat))
  | os_meta => ret (Some (metacall esp))
  | sys_sem_create => nm <- p_name esp 2 ;; some (sem_create (p_int esp 1) nm)
  | sys_sem_destroy => some (sem_destroy (u 1%nat))
  | sys_sem_acquire => sem_acquire (u 1%nat)
  | sys_sem_release => sem_release (u 1%nat)
  | sys_port_create => nm <- p_name esp 2 ;; some (port_create (p_int esp 1) nm)
  | sys_port_destroy => some (port_destroy (u 1%nat))
  | sys_port_option => some (port_option (u 1%nat) (u 2%nat) (u 3%nat))
  | sys_port_send => port_send (p_int esp 1) (p_int esp 2) (u 3%nat) (u 4%nat) (u 5%nat)
  | sys_port_recv => port_recv (p_int esp 1) (u 2%nat) (u 3%nat) (u 4%nat) (u 5%nat)
  | sys_right_create => some (right_create (u 1%nat) (u 1%nat))
  | sys_right_destroy => some (right_destroy (u 1%nat))
  | sys_right_revoke => some (right_revoke (u 1%nat) (u 2%nat))
  | sys_right_grant => some (right_grant (u 1%nat) (u 2%nat))
  | sys_area_create =>
      a <- current_aspace ;;
      some (with_addr (u 3%nat) (fun addr => area_create a (u 1%nat) (u 2%nat) addr (u 4%nat)))
  | sys_area_clone =>
      a <- current_aspace ;;
      some (with_addr (u 3%nat) (fun addr => area_clone a (u 1%nat) (u 2%nat) addr))
  | sys_area_destroy => a <- current_aspace ;; some (area_destroy a (u 1%nat))
  | sys_area_resize => a <- current_aspace ;; some (area_resize a (u 1%nat) (u 2%nat))
  | sys_thr_create => nm <- p_name esp 3 ;; some (thr_create (u 2%nat) nm)
  | sys_thr_resume | sys_thr_suspend | sys_thr_kill => ret (Some eax)
  | sys_thr_spawn =>
      nm <- p_name esp 7 ;;
      some (thr_spawn (u 3%nat) (u 4%nat) (u 5%nat) (u 6%nat) nm)
  | sys_thr_wait => thr_wait (u 1%nat)
  | sys_other => ret (Some (-1))
  end.

(** ** Continuing a suspended call

  What the running task does when it comes back from swtch or preempt in the
  kernel: the rest of the call it was suspended in. *)
Definition resume : M (option Z) :=
  cur <- gets k_current ;;
  t <- get_task cur ;;
  set_kont KUser ;;
  match t_kont t with
  | KUser => ret None
  | KRet r => ret (Some r)
  | KSemAcquire => ret (Some (if decide (t_status t = 0) then ERR_NONE else t_status t))
  | KThrWait => ret (Some ERR_NONE)
  | KPortSend src dst msg size code p =>
      if decide (t_status t = 0) then port_send_loop src dst msg size code p
      else ret (Some (t_status t))
  | KPortRecv dst src msg size code p =>
      if decide (t_status t = 0) then port_recv_loop dst src msg size code p
      else ret (Some (t_status t))
  end.

End Syscall.
