(* ===== verification/Boot.v ===== *)
(** The start of the kernel, kernel/kernel.c: kmain, init_kspace and go_kernel.

  The boot directory comes from the boot loader and is an argument, as is the
  high page table the loader leaves behind.  Descriptor tables, the TSS and the
  console output are not part of the state. *)
From S2P Require Import Prelude KList KMem KState Rsrc Sched Sem Port Aspace Task.
Import KState Rsrc Sched Sem Port Aspace Task.
Local Open Scope Z_scope.
Local Open Scope k_scope.

Module Boot.

Definition BE_TYPE_NONE : Z := 0.
Definition BE_TYPE_CODE : Z := 3.

(** boot_entry, include/boot.h *)
Record boot_entry := BE {
  be_name : list Z;
  be_offset : Z;
  be_type : Z;
  be_size : Z;
}.

(** The entries up to the first one of type BE_TYPE_NONE. *)
Fixpoint bd_entries (l : list boot_entry) : list boot_entry :=
  match l with
  | [] => []
  | e :: l => if decide (be_type e = BE_TYPE_NONE) then [] else e :: bd_entries l
  end.

(** [len = 1; len += be_size ...] of kmain and go_kernel *)
Definition bd_len (bdir : list boot_entry) : Z :=
  fold_left (fun len e => len + be_size e) (bd_entries bdir) 1.

Definition kgetpages (n : Z) : M Z := on_mem (fun m => KMem.kgetpages m n).

(** The state before kmain: nothing allocated, every table empty. *)
Definition st0 (high : list Z) : kst :=
  KSt (KMem.mem0 high) 64 [] 0 [] ∅ ∅ ∅ ∅ ∅ ∅ ∅ ∅ 0 0 0 (replicate 16 0) (replicate 16 true) [] ∅
    (Glob 0 0 0 0 0 0).

(** init_kspace(membottom): memory, the resource table and the object [kernel]
  that is current until the scheduler starts. *)
Definition init_kspace (membottom memsize : Z) : M Z :=
  on_mem (fun m => match KMem.memory_init m membottom (memsize - 3) with
    | Ok m => Ok (tt, m) | Panic w => Panic w | Fault => Fault end) ;;
  _toppage <- kgetpages 3 ;;
  _gdt <- kgetpages 1 ;;
  _map <- kgetpages 6 ;;
  rsrc_init (4096 * 6) ;;
  kernel <- kmalloc ;;
  _ktss <- kgetpages 1 ;;
  put_task kernel (Task 0 0 0 tKERNEL 0 0 0 0 0 0 KUser) ;;
  put_res kernel (Rsrc 0 RSRC_NONE 0 [] [] []) ;;
  set_current kernel ;;
  _idt <- kgetpages 1 ;;
  ret kernel.

Definition set_glob (f : globals -> globals) : M unit := modify (fun s => set_k_glob s (f (k_glob s))).

(** One executable of the boot image: [for(i=3;bdir->bd_entry[i].be_type;i++)] *)
Definition start_entry (uberport : Z) (e : boot_entry) : M unit :=
  if decide (be_type e <> BE_TYPE_CODE) then ret tt else
  tm <- team_create ;;
  t <- new_thread tm false ;;
  set_current t ;;
  x <- get_team tm ;;
  text <- area_create (tm_aspace x) (be_size e * 0x1000) 0x1000 (be_offset e * 0x1000 + 0x100000) AREA_PHYSMAP ;;
  heap <- area_create (tm_aspace x) 0x2000 (0x1000 + be_size e * 0x1000) 0 0 ;;
  x <- get_team tm ;;
  put_team tm (Team (tm_resources x) (tm_refcount x) (tm_aspace x) heap.1 text.1) ;;
  (if decide (be_name e = cstr "namer") then rsrc_set_owner uberport tm else ret tt) ;;
  rsrc_set_name t (Some (be_name e)) ;;
  rsrc_set_name tm (Some (be_name e)).

Fixpoint start_entries (uberport : Z) (l : list boot_entry) : M unit :=
  match l with
  | [] => ret tt
  | e :: l => start_entry uberport e ;; start_entries uberport l
  end.

(** A thread of the kernel team that becomes current, e.g. the reaper. *)
Definition kernel_thread (kernel_team : Z) : M Z :=
  t <- new_thread kernel_team true ;;
  set_current t ;;
  ret t.

Definition start_current : M unit :=
  g <- gets k_glob ;;
  cur <- gets k_current ;;
  rsrc_enqueue (g_run_queue g) cur ;;
  modify (fun s => set_k_live_tasks s (s32 (k_live_tasks s + 1))).

(** go_kernel up to "starting scheduler..." *)
Definition go_kernel (bdir : list boot_entry) : M unit :=
  let len := bd_len bdir * 0x1000 in
  uberportnum <- port_create 0 (Some (cstr "uberport")) ;;
  uberport <- rsrc_find RSRC_PORT uberportnum ;;
  uberareanum <- area_create_uber len 0x100000 ;;
  uberarea <- rsrc_find RSRC_AREA uberareanum ;;
  kteam <- team_create ;;
  set_glob (fun g => Glob (g_run_queue g) (g_timer_queue g) (g_reaper_queue g) (g_idle_task g) kteam (g_reaper_sem g)) ;;
  rsrc_set_name kteam (Some (cstr "kernel team")) ;;
  rq <- queue_create (Some (cstr "run queue")) kteam ;;
  run_queue <- rsrc_find RSRC_QUEUE rq ;;
  set_glob (fun g => Glob run_queue (g_timer_queue g) (g_reaper_queue g) (g_idle_task g) (g_kernel_team g) (g_reaper_sem g)) ;;
  pq <- queue_create (Some (cstr "reaper queue")) kteam ;;
  reaper_queue <- rsrc_find RSRC_QUEUE pq ;;
  set_glob (fun g => Glob (g_run_queue g) (g_timer_queue g) reaper_queue (g_idle_task g) (g_kernel_team g) (g_reaper_sem g)) ;;
  tq <- queue_create (Some (cstr "timer queue")) kteam ;;
  timer_queue <- rsrc_find RSRC_QUEUE tq ;;
  set_glob (fun g => Glob (g_run_queue g) timer_queue (g_reaper_queue g) (g_idle_task g) (g_kernel_team g) (g_reaper_sem g)) ;;
  rsrc_set_owner uberarea kteam ;;
  rsrc_set_owner uberport kteam ;;
  start_entries uberport (drop 3 (bd_entries bdir)) ;;
  idle <- new_thread kteam true ;;
  set_glob (fun g => Glob (g_run_queue g) (g_timer_queue g) (g_reaper_queue g) idle (g_kernel_team g) (g_reaper_sem g)) ;;
  rsrc_set_name idle (Some (cstr "idler")) ;;
  reaper <- kernel_thread kteam ;;
  rsrc_set_name reaper (Some (cstr "grim reaper")) ;;
  death <- sem_create 0 (Some (cstr "death toll")) ;;
  set_glob (fun g => Glob (g_run_queue g) (g_timer_queue g) (g_reaper_queue g) (g_idle_task g) (g_kernel_team g) death) ;;
  start_current ;;
  pager <- kernel_thread kteam ;;
  rsrc_set_name pager (Some (cstr "pager")) ;;
  _port <- port_create 0 (Some (cstr "pager port")) ;;
  _sem <- sem_create 0 (Some (cstr "pager sem")) ;;
  start_current.

(** The end of go_kernel: [kernel] is current, dead and on no queue, and the
  scheduler picks the first task.  No pointer to [kernel] is left afterwards, so
  the object is dropped from the model. *)
Definition start_scheduler (kernel : Z) : M unit :=
  set_current kernel ;;
  tk <- get_task kernel ;;
  put_task kernel (t_set_wait tk 0 (t_wait_time tk) tDEAD) ;;
  swtch ;;
  modify (fun s => set_k_res (set_k_task s (delete kernel (k_task s))) (delete kernel (k_res s))).

(** kmain *)
Definition kmain (bdir : list boot_entry) (memory : Z) : M unit :=
  let memsize := Z.land (memory / 4096) (Z.lnot 0xff) in
  kernel <- init_kspace (256 + bd_len bdir + 16) memsize ;;
  go_kernel bdir ;;
  start_scheduler kernel.

(** ** An example system: two programs, on a machine with a small memory and a
  resource table of 40 entries *)
Definition ex_bdir : list boot_entry :=
  [ BE [] 0 1 1; BE [] 1 2 1; BE [] 2 3 1; BE (cstr "namer") 3 3 1; BE (cstr "vfs") 4 3 1; BE [] 0 0 0 ].

Definition ex_init : M Z :=
  on_mem (fun m => match KMem.memory_init m 280 330 with
    | Ok m => Ok (tt, m) | Panic w => Panic w | Fault => Fault end) ;;
  rsrc_init (8 * 40) ;;
  kernel <- kmalloc ;;
  put_task kernel (Task 0 0 0 tKERNEL 0 0 0 0 0 0 KUser) ;;
  put_res kernel (Rsrc 0 RSRC_NONE 0 [] [] []) ;;
  set_current kernel ;;
  ret kernel.

Definition ex_boot : cres (unit * kst) :=
  (kernel <- ex_init ;; go_kernel ex_bdir ;; start_scheduler kernel) (st0 (replicate 1024 0)).

End Boot.
