(* ===== verification/KInv.v ===== *)
(** A program logic for the kernel monad and the invariant of the kernel state:
  the resource table, the typing of the objects, the wait queues and the state
  of every task.  Syscall.v uses it to show which calls can go wrong. *)
From S2P Require Import Prelude KList KMem KState Rsrc Sched Sem Port.
Import KState Rsrc Sched.
Local Open Scope Z_scope.
Local Open Scope k_scope.

Module KInv.

(** ** Weakest preconditions

  [wp m Q s]: from [s], [m] does not reach undefined behaviour, and [Q] holds
  when it returns.  Stopping in panic() is accepted, except for the panic that
  reports a dead task on the run queue. *)
Definition dead_panic : string := "The dead have returned!".

Definition wp {A} (m : M A) (Q : A -> kst -> Prop) (s : kst) : Prop :=
  match m s with
  | Ok (a, s') => Q a s'
  | Panic w => w <> dead_panic
  | Fault => False
  end.

Section rules.
Context {A B : Type}.
Implicit Types (s : kst) (Q : A -> kst -> Prop).

Lemma wp_bind (m : M B) (k : B -> M A) Q s :
  wp m (fun b s' => wp (k b) Q s') s -> wp (b <- m ;; k b) Q s.
Proof. unfold wp, bind. destruct (m s) as [[b s']| |]; done. Qed.

Lemma wp_ret (a : A) Q s : Q a s -> wp (ret a) Q s.
Proof. done. Qed.

Lemma wp_mono (m : M A) Q Q' s :
  wp m Q s -> (forall a s', Q a s' -> Q' a s') -> wp m Q' s.
Proof. unfold wp. destruct (m s) as [[a s']| |]; eauto. Qed.

Lemma wp_Ok (m : M A) Q s a s' : wp m Q s -> m s = Ok (a, s') -> Q a s'.
Proof. intros H E. unfold wp in H. by rewrite E in H. Qed.

Lemma wp_gets (f : kst -> A) Q s : Q (f s) s -> wp (gets f) Q s.
Proof. done. Qed.

Lemma wp_deref (o : option A) Q s x : o = Some x -> Q x s -> wp (lift (deref o)) Q s.
Proof. by intros ->. Qed.

Lemma wp_panic w Q s : w <> dead_panic -> wp (panic w) Q s.
Proof. done. Qed.

Lemma wp_if (P : Prop) `{Decision P} (m1 m2 : M A) Q s :
  (P -> wp m1 Q s) -> (~ P -> wp m2 Q s) -> wp (if decide P then m1 else m2) Q s.
Proof. intros H1 H2. case_decide; auto. Qed.
End rules.

Lemma wp_and {A} (m : M A) (Q Q' : A -> kst -> Prop) s :
  wp m Q s -> (forall a s', m s = Ok (a, s') -> Q' a s') -> wp m (fun a s' => Q a s' /\ Q' a s') s.
Proof. unfold wp. destruct (m s) as [[a s']| |]; auto. Qed.

Lemma wp_modify f (Q : unit -> kst -> Prop) s : Q tt (f s) -> wp (modify f) Q s.
Proof. done. Qed.

Section getters.
Context (s : kst) (p : Z).
Lemma wp_get_res Q x : k_res s !! p = Some x -> Q x s -> wp (get_res p) Q s.
Proof. unfold wp, get_res, gets, bind, lift, id. by intros ->. Qed.
Lemma wp_get_task Q x : k_task s !! p = Some x -> Q x s -> wp (get_task p) Q s.
Proof. unfold wp, get_task, gets, bind, lift, id. by intros ->. Qed.
Lemma wp_get_sem Q x : k_sem s !! p = Some x -> Q x s -> wp (get_sem p) Q s.
Proof. unfold wp, get_sem, gets, bind, lift, id. by intros ->. Qed.
Lemma wp_get_port Q x : k_port s !! p = Some x -> Q x s -> wp (get_port p) Q s.
Proof. unfold wp, get_port, gets, bind, lift, id. by intros ->. Qed.
Lemma wp_get_team Q x : k_team s !! p = Some x -> Q x s -> wp (get_team p) Q s.
Proof. unfold wp, get_team, gets, bind, lift, id. by intros ->. Qed.
End getters.

Ltac wp_get :=
  first [ eapply wp_get_res | eapply wp_get_task | eapply wp_get_sem
        | eapply wp_get_port | eapply wp_get_team | eapply wp_deref ];
  [ first [ eassumption | simpl; eassumption | by simplify_map_eq ] | ].

(** Runs the next statement of the program in the goal. *)
Ltac wp_step :=
  match goal with
  | |- wp (bind _ _) _ _ => eapply wp_bind
  | |- wp (ret _) _ _ => apply wp_ret
  | |- wp (gets _) _ _ => apply wp_gets
  | |- wp (modify _) _ _ => apply wp_modify
  | |- wp (put_res _ _) _ _ => apply wp_modify
  | |- wp (put_task _ _) _ _ => apply wp_modify
  | |- wp (put_sem _ _) _ _ => apply wp_modify
  | |- wp (put_port _ _) _ _ => apply wp_modify
  | |- wp (put_team _ _) _ _ => apply wp_modify
  | |- wp (panic _) _ _ => apply wp_panic; done
  end.
Ltac wp_go := repeat first [wp_step | wp_get].

(** ** The queue part of the state *)

(** [s] with other resources and tasks. *)
Definition upd (s : kst) (R : gmap Z resource) (T : gmap Z task) : kst :=
  set_k_task (set_k_res s R) T.

Lemma upd_id s : upd s (k_res s) (k_task s) = s.
Proof. by destruct s. Qed.

(** What a queue operation does not change in a resource. *)
Definition kind (x : resource) : Z * rsrc_type * Z := (r_id x, r_type x, r_owner x).
Definition kinds (s : kst) : gmap Z (Z * rsrc_type * Z) := kind <$> k_res s.

Lemma kinds_insert (R : gmap Z resource) r x x' :
  R !! r = Some x -> kind x' = kind x -> kind <$> <[r := x']> R = kind <$> R.
Proof.
  intros Hx E. rewrite fmap_insert, E. apply insert_id. by rewrite lookup_fmap, Hx.
Qed.

Lemma kinds_lookup (R : gmap Z resource) r k :
  (kind <$> R) !! r = Some k -> exists x, R !! r = Some x /\ kind x = k.
Proof. rewrite lookup_fmap. intros (x & -> & ->)%fmap_Some. eauto. Qed.

(** The state of a task on the queue [r]: dead on the reaper queue, waiting elsewhere. *)
Definition queue_flag (reaper r : Z) : tflag := if decide (r = reaper) then tDEAD else tWAITING.

(** A task is on the queue it records in waiting_on, once, and on no other. *)
Record qwf (R : gmap Z resource) (T : gmap Z task) (reaper : Z) : Prop := {
  q_in : forall r x t, R !! r = Some x -> t ∈ r_queue x ->
    exists tk, T !! t = Some tk /\ t_waiting_on tk = r /\ t_flags tk = queue_flag reaper r;
  q_nodup : forall r x, R !! r = Some x -> NoDup (r_queue x);
  q_back : forall t tk, T !! t = Some tk -> t_waiting_on tk <> 0 ->
    exists x, R !! t_waiting_on tk = Some x /\ t ∈ r_queue x;
}.

Section qwf.
Context {R : gmap Z resource} {T : gmap Z task} {reaper : Z}.
Hypothesis W : qwf R T reaper.

Lemma qwf_detached t tk r x :
  R !! 0 = None -> T !! t = Some tk -> t_waiting_on tk = 0 -> R !! r = Some x -> t ∉ r_queue x.
Proof.
  intros H0 Ht Hw Hr Hin. destruct (q_in _ _ _ W _ _ _ Hr Hin) as (tk' & Ht' & Hw' & _).
  congruence.
Qed.

Lemma qwf_enq r x t tk tk' :
  R !! 0 = None -> R !! r = Some x -> T !! t = Some tk -> t_waiting_on tk = 0 ->
  t_waiting_on tk' = r -> t_flags tk' = queue_flag reaper r ->
  qwf (<[r := r_set_queue x (r_queue x ++ [t])]> R) (<[t := tk']> T) reaper.
Proof.
  intros H0 Hr Ht Hw Hw' Hf'. split.
  - intros r' x' t' Hr' Hin. destruct (decide (t' = t)) as [->|Hne].
    + exists tk'. rewrite lookup_insert_eq. split; [done|].
      destruct (decide (r' = r)) as [->|Hner]; [done|].
      rewrite lookup_insert_ne in Hr' by done.
      by destruct (qwf_detached t tk r' x').
    + rewrite lookup_insert_ne by done. destruct (decide (r' = r)) as [->|Hner].
      * rewrite lookup_insert_eq in Hr'. simplify_eq. simpl in Hin.
        apply elem_of_app in Hin as [Hin|Hin%list_elem_of_singleton]; [|done].
        by apply (q_in _ _ _ W _ x).
      * rewrite lookup_insert_ne in Hr' by done. by apply (q_in _ _ _ W _ x').
  - intros r' x' Hr'. destruct (decide (r' = r)) as [->|Hner].
    + rewrite lookup_insert_eq in Hr'. simplify_eq. simpl.
      apply NoDup_snoc. split; [by eapply qwf_detached|by eapply q_nodup].
    + rewrite lookup_insert_ne in Hr' by done. by eapply q_nodup.
  - intros t' tk0 Ht0 Hne0. destruct (decide (t' = t)) as [->|Hne].
    + rewrite lookup_insert_eq in Ht0. simplify_eq. rewrite lookup_insert_eq.
      eexists. split; [done|]. simpl. apply elem_of_app. right. by apply list_elem_of_singleton.
    + rewrite lookup_insert_ne in Ht0 by done.
      destruct (q_back _ _ _ W _ _ Ht0 Hne0) as (x0 & Hx0 & Hin).
      destruct (decide (t_waiting_on tk0 = r)) as [Er|Hner].
      * rewrite Er, lookup_insert_eq. eexists. split; [done|]. simpl.
        apply elem_of_app. left. congruence.
      * rewrite lookup_insert_ne by done. eauto.
Qed.

Lemma qwf_deq r x t q tk' :
  R !! 0 = None -> R !! r = Some x -> r_queue x = t :: q -> t_waiting_on tk' = 0 ->
  qwf (<[r := r_set_queue x q]> R) (<[t := tk']> T) reaper.
Proof.
  intros H0 Hr Hq Hw'.
  pose proof (q_nodup _ _ _ W _ _ Hr) as Hnd. rewrite Hq in Hnd.
  apply NoDup_cons in Hnd as [Htq Hnd].
  destruct (q_in _ _ _ W r x t Hr) as (tk & Ht & Hw & Hf); [rewrite Hq; apply elem_of_cons; by left|].
  split.
  - intros r' x' t' Hr' Hin. assert (t' <> t) as Hne.
    { intros ->. destruct (decide (r' = r)) as [->|Hner].
      - rewrite lookup_insert_eq in Hr'. by simplify_eq.
      - rewrite lookup_insert_ne in Hr' by done.
        destruct (q_in _ _ _ W _ _ _ Hr' Hin) as (tk0 & Ht0 & Hw0 & _). congruence. }
    rewrite lookup_insert_ne by done. destruct (decide (r' = r)) as [->|Hner].
    + rewrite lookup_insert_eq in Hr'. simplify_eq. simpl in Hin.
      apply (q_in _ _ _ W _ x); [done|]. rewrite Hq. apply elem_of_cons. by right.
    + rewrite lookup_insert_ne in Hr' by done. by apply (q_in _ _ _ W _ x').
  - intros r' x' Hr'. destruct (decide (r' = r)) as [->|Hner].
    + rewrite lookup_insert_eq in Hr'. by simplify_eq.
    + rewrite lookup_insert_ne in Hr' by done. by eapply q_nodup.
  - intros t' tk0 Ht0 Hne0. destruct (decide (t' = t)) as [->|Hne].
    + rewrite lookup_insert_eq in Ht0. by simplify_eq.
    + rewrite lookup_insert_ne in Ht0 by done.
      destruct (q_back _ _ _ W _ _ Ht0 Hne0) as (x0 & Hx0 & Hin).
      destruct (decide (t_waiting_on tk0 = r)) as [Er|Hner].
      * rewrite Er, lookup_insert_eq. eexists. split; [done|]. simpl.
        rewrite Er, Hr in Hx0. injection Hx0 as <-.
        rewrite Hq in Hin. by apply elem_of_cons in Hin as [->|Hin].
      * rewrite lookup_insert_ne by done. eauto.
Qed.

(** A change of a task that leaves its queue alone. *)
Lemma qwf_task t tk tk' :
  R !! 0 = None -> T !! t = Some tk -> t_waiting_on tk' = t_waiting_on tk ->
  (t_flags tk' = t_flags tk \/ t_waiting_on tk = 0) ->
  qwf R (<[t := tk']> T) reaper.
Proof.
  intros H0 Ht Hw Hf. split.
  - intros r x t' Hr Hin. destruct (q_in _ _ _ W _ _ _ Hr Hin) as (tk0 & Ht0 & Hw0 & Hf0).
    destruct (decide (t' = t)) as [->|Hne].
    + rewrite lookup_insert_eq. simplify_eq. eexists. split; [done|]. split; [done|].
      destruct Hf as [->|Hz]; [done|]. rewrite Hz in Hr. congruence.
    + rewrite lookup_insert_ne by done. eauto.
  - apply (q_nodup _ _ _ W).
  - intros t' tk0 Ht0 Hne0. destruct (decide (t' = t)) as [->|Hne].
    + rewrite lookup_insert_eq in Ht0. simplify_eq. rewrite Hw in *. by apply (q_back _ _ _ W).
    + rewrite lookup_insert_ne in Ht0 by done. by apply (q_back _ _ _ W).
Qed.

(** A change of a resource that leaves its queue alone, or a new resource. *)
Lemma qwf_res r x' :
  (forall x, R !! r = Some x -> r_queue x' = r_queue x) -> (R !! r = None -> r_queue x' = []) ->
  qwf (<[r := x']> R) T reaper.
Proof.
  intros Hsome Hnone. destruct (R !! r) as [x|] eqn:Hr.
  - specialize (Hsome x eq_refl). split.
    + intros r0 x0 t H Hin. destruct (decide (r0 = r)) as [->|Hne].
      * rewrite lookup_insert_eq in H. simplify_eq. rewrite Hsome in Hin. by apply (q_in _ _ _ W _ x).
      * rewrite lookup_insert_ne in H by done. by apply (q_in _ _ _ W _ x0).
    + intros r0 x0 H. destruct (decide (r0 = r)) as [->|Hne].
      * rewrite lookup_insert_eq in H. simplify_eq. rewrite Hsome. by eapply q_nodup.
      * rewrite lookup_insert_ne in H by done. by eapply q_nodup.
    + intros t tk Ht Hne0. destruct (q_back _ _ _ W _ _ Ht Hne0) as (x0 & Hx0 & Hin).
      destruct (decide (t_waiting_on tk = r)) as [Er|Hne].
      * rewrite Er, lookup_insert_eq. eexists. split; [done|]. rewrite Hsome. congruence.
      * rewrite lookup_insert_ne by done. eauto.
  - specialize (Hnone eq_refl). split.
    + intros r0 x0 t H Hin. destruct (decide (r0 = r)) as [->|Hne].
      * rewrite lookup_insert_eq in H. simplify_eq. rewrite Hnone in Hin. by apply not_elem_of_nil in Hin.
      * rewrite lookup_insert_ne in H by done. by apply (q_in _ _ _ W _ x0).
    + intros r0 x0 H. destruct (decide (r0 = r)) as [->|Hne].
      * rewrite lookup_insert_eq in H. simplify_eq. rewrite Hnone. constructor.
      * rewrite lookup_insert_ne in H by done. by eapply q_nodup.
    + intros t tk Ht Hne0. destruct (q_back _ _ _ W _ _ Ht Hne0) as (x0 & Hx0 & Hin).
      rewrite lookup_insert_ne by congruence. eauto.
Qed.

Lemma qwf_del r x : R !! r = Some x -> r_queue x = [] -> qwf (delete r R) T reaper.
Proof.
  intros Hr Hq. split.
  - intros r0 x0 t [_ H]%lookup_delete_Some Hin. by apply (q_in _ _ _ W _ x0).
  - intros r0 x0 [_ H]%lookup_delete_Some. by eapply q_nodup.
  - intros t tk Ht Hne0. destruct (q_back _ _ _ W _ _ Ht Hne0) as (x0 & Hx0 & Hin).
    exists x0. split; [|done]. rewrite lookup_delete_ne; [done|].
    intros ->. simplify_eq. rewrite Hq in Hin. by apply not_elem_of_nil in Hin.
Qed.
End qwf.

(** ** The resource table *)

Abbreviation kmap := (gmap Z (Z * rsrc_type * Z)).

(** The chain of free table entries that starts at [i]. *)
Fixpoint rchain (rmap : list (Z * Z)) (i : Z) (l : list Z) : Prop :=
  match l with
  | [] => i = 0
  | j :: l => i = j /\ j <> 0 /\ exists n, aget rmap j = Some (null_resource, n) /\ rchain rmap n l
  end.

Record table_ok (rmap : list (Z * Z)) (rfree : Z) (K : kmap) : Prop := {
  tb_free : exists fl, rchain rmap rfree fl /\ NoDup fl;
  tb_entry : forall i p n, aget rmap i = Some (p, n) ->
    p = null_resource \/ exists ty o, K !! p = Some (i, ty, o) /\ ty <> RSRC_NONE;
  tb_bound : forall p id ty o, K !! p = Some (id, ty, o) -> ty <> RSRC_NONE ->
    id <> 0 /\ exists n, aget rmap id = Some (p, n);
  tb_null : exists o, K !! null_resource = Some (0, RSRC_NONE, o);
}.

Lemma rchain_set_other rmap rmap' i l j v :
  rchain rmap i l -> j ∉ l -> aset rmap j v = Some rmap' -> rchain rmap' i l.
Proof.
  revert i. induction l as [|q l IH]; intros i Hc Hj Ha; simpl in *; [done|].
  destruct Hc as (-> & Hq & n & Hn & Hc). apply not_elem_of_cons in Hj as [Hjq Hj].
  split_and!; [done|done|]. exists n. split; [|by apply IH].
  by rewrite (aget_aset_ne _ _ _ _ _ Ha) by done.
Qed.

Lemma rchain_elem rmap i l j :
  rchain rmap i l -> j ∈ l -> j <> 0 /\ exists n, aget rmap j = Some (null_resource, n).
Proof.
  revert i. induction l as [|q l IH]; intros i Hc Hj; [by apply not_elem_of_nil in Hj|].
  destruct Hc as (-> & Hq & n & Hn & Hc).
  apply elem_of_cons in Hj as [->|Hj]; [eauto|by eapply IH].
Qed.

(** ** The objects *)

(** Tasks, teams and the global queues. *)
Record objs_ok (K : kmap) (T Tm : gset Z) (g : globals) (brk : Z) : Prop := {
  ob_range : forall p k, K !! p = Some k -> 0 < p < brk;
  ob_task : forall p, p ∈ T <-> exists id o, K !! p = Some (id, RSRC_TASK, o);
  ob_owner : forall p id ty o, K !! p = Some (id, ty, o) -> o = 0 \/ o ∈ Tm;
  ob_team : forall p, p ∈ Tm -> exists id o, K !! p = Some (id, RSRC_TEAM, o);
  ob_glob : forall q, q ∈ [g_run_queue g; g_timer_queue g; g_reaper_queue g] ->
    exists id o, K !! q = Some (id, RSRC_QUEUE, o);
  ob_distinct : NoDup [g_run_queue g; g_timer_queue g; g_reaper_queue g];
}.

(** Semaphores and ports; every port has a queue of senders of its own. *)
Record ports_ok (K : kmap) (S : gset Z) (P : gmap Z port) (g : globals) : Prop := {
  po_type : forall p id o, K !! p = Some (id, RSRC_NONE, o) -> p = null_resource;
  po_sem : forall p, p ∈ S <-> exists id o, K !! p = Some (id, RSRC_SEM, o);
  po_port : forall p, is_Some (P !! p) <-> exists id o, K !! p = Some (id, RSRC_PORT, o);
  po_sendq : forall p pt, P !! p = Some pt ->
    (exists id o, K !! p_sendqueue pt = Some (id, RSRC_QUEUE, o)) /\
    p_sendqueue pt ∉ [g_run_queue g; g_timer_queue g; g_reaper_queue g];
  po_inj : forall p q pt qt, P !! p = Some pt -> P !! q = Some qt ->
    p_sendqueue pt = p_sendqueue qt -> p = q;
  po_msgs : forall p pt, P !! p = Some pt ->
    p_msgcount pt = Z.of_nat (length (p_msgs pt)) /\ p_msgcount pt <= Port.MAX_MSGCOUNT;
}.

(** ** The tasks

  Every task is the running one, the idle task, asleep until its interrupt, on
  a queue, or [e]: the task that an operation holds between two queues. *)
Record sched_ok (T : gmap Z task) (cur e idle : Z) : Prop := {
  sc_cur : is_Some (T !! cur);
  sc_idle : exists tk, T !! idle = Some tk /\ t_waiting_on tk = 0 /\
    (t_flags tk = tRUNNING \/ t_flags tk = tREADY);
  sc_where : forall t tk, T !! t = Some tk ->
    t = cur \/ t = idle \/ t = e \/ t_flags tk = tSLEEP_IRQ \/ t_waiting_on tk <> 0;
  sc_irqno : forall t tk, T !! t = Some tk -> 0 <= t_irq tk < 16;
}.

Definition mem_ok (m : KMem.mem) : Prop :=
  (exists free, KMem.pages_wf m free) /\ length (KMem.m_high m) = 1024%nat /\
  length (KMem.m_km m) = 7%nat.

(** ** The invariant

  The queue operations keep every condition [X] on the table, the semaphores
  and the ports that looks at the resources only through their kinds. *)
Definition cond := list (Z * Z) -> Z -> kmap -> gset Z -> gmap Z port -> globals -> Prop.

Record kinvX (X : cond) (e : Z) (s : kst) : Prop := {
  kv_x : X (k_rmap s) (k_rfree s) (kinds s) (dom (k_sem s)) (k_port s) (k_glob s);
  kv_objs : objs_ok (kinds s) (dom (k_task s)) (dom (k_team s)) (k_glob s) (k_brk s);
  kv_q : qwf (k_res s) (k_task s) (g_reaper_queue (k_glob s));
  kv_sched : sched_ok (k_task s) (k_current s) e (g_idle_task (k_glob s));
  kv_mem : mem_ok (k_mem s);
  kv_irqs : length (k_irq_map s) = 16%nat /\ length (k_masked s) = 16%nat;
}.

Definition full : cond := fun rmap rfree K S P g => table_ok rmap rfree K /\ ports_ok K S P g.
Abbreviation kinv := (kinvX full).

(** The running task is running and on no queue. *)
Definition running (s : kst) : Prop :=
  exists tk, k_task s !! k_current s = Some tk /\ t_flags tk = tRUNNING /\ t_waiting_on tk = 0.

(** Between system calls and interrupts. *)
Definition at_rest (s : kst) : Prop := kinv 0 s /\ running s.

Section queues.
Context {X : cond}.
Local Abbreviation kinv := (kinvX X).

Lemma kinv_res0 e s : kinv e s -> k_res s !! 0 = None.
Proof.
  intros I. destruct (k_res s !! 0) as [x|] eqn:E; [|done].
  destruct (ob_range _ _ _ _ _ (kv_objs _ _ _ I) 0 (kind x)); [|lia].
  unfold kinds. by rewrite lookup_fmap, E.
Qed.

Lemma kinv_task_res e s t tk : kinv e s -> k_task s !! t = Some tk ->
  exists x, k_res s !! t = Some x /\ r_type x = RSRC_TASK.
Proof.
  intros I Ht. destruct (proj1 (ob_task _ _ _ _ _ (kv_objs _ _ _ I) t)) as (id & o & Hk).
  { apply elem_of_dom. by rewrite Ht. }
  apply kinds_lookup in Hk as (x & Hx & Hk). injection Hk as _ Hty _. eauto.
Qed.

Lemma kinv_task_pos e s t tk : kinv e s -> k_task s !! t = Some tk -> t <> 0.
Proof.
  intros I Ht ->. destruct (kinv_task_res _ _ _ _ I Ht) as (x & Hx & _).
  rewrite (kinv_res0 _ _ I) in Hx. done.
Qed.

Lemma kinv_queue e s q : kinv e s ->
  q ∈ [g_run_queue (k_glob s); g_timer_queue (k_glob s); g_reaper_queue (k_glob s)] ->
  exists x, k_res s !! q = Some x /\ r_type x = RSRC_QUEUE /\ q <> 0.
Proof.
  intros I Hq. destruct (ob_glob _ _ _ _ _ (kv_objs _ _ _ I) q Hq) as (id & o & Hk).
  apply kinds_lookup in Hk as (x & Hx & Hk). injection Hk as _ Hty _.
  exists x. split_and!; [done|done|]. intros ->. rewrite (kinv_res0 _ _ I) in Hx. done.
Qed.

Lemma kinv_distinct e s : kinv e s ->
  g_run_queue (k_glob s) <> g_timer_queue (k_glob s) /\
  g_run_queue (k_glob s) <> g_reaper_queue (k_glob s) /\
  g_timer_queue (k_glob s) <> g_reaper_queue (k_glob s).
Proof.
  intros I. pose proof (ob_distinct _ _ _ _ _ (kv_objs _ _ _ I)) as Hd. clear I.
  repeat setoid_rewrite NoDup_cons in Hd. set_solver.
Qed.

Lemma kinv_run_queue e s : kinv e s ->
  exists x, k_res s !! g_run_queue (k_glob s) = Some x /\ r_type x = RSRC_QUEUE.
Proof.
  intros I. destruct (kinv_queue _ _ (g_run_queue (k_glob s)) I) as (x & ? & ? & _); [|eauto].
  apply elem_of_cons; by left.
Qed.

(** The invariant after a change of queues and tasks only. *)
Lemma kinv_upd e e' s R T :
  kinv e s -> kind <$> R = kinds s -> dom T = dom (k_task s) ->
  qwf R T (g_reaper_queue (k_glob s)) ->
  sched_ok T (k_current s) e' (g_idle_task (k_glob s)) ->
  kinv e' (upd s R T).
Proof.
  intros I HK HT HW HS. split; simpl.
  - unfold kinds; simpl. rewrite HK. apply I.
  - unfold kinds; simpl. rewrite HK, HT. apply I.
  - done.
  - done.
  - apply I.
  - apply I.
Qed.

(** The task table after a change of one task. *)
Lemma sched_task T cur e e' idle t tk tk' :
  sched_ok T cur e idle -> T !! t = Some tk -> (0 <= t_irq tk < 16 -> 0 <= t_irq tk' < 16) ->
  (t = idle -> t_waiting_on tk' = 0 /\ (t_flags tk' = tRUNNING \/ t_flags tk' = tREADY)) ->
  (t = cur \/ t = idle \/ t = e' \/ t_flags tk' = tSLEEP_IRQ \/ t_waiting_on tk' <> 0) ->
  (e <> e' -> e = t \/ e = 0) -> (forall tk, T !! 0 = Some tk -> False) ->
  sched_ok (<[t := tk']> T) cur e' idle.
Proof.
  intros S Ht Hirq Hidle Hwhere He H0. split.
  - destruct (decide (cur = t)) as [->|]; [by rewrite lookup_insert_eq|].
    rewrite lookup_insert_ne by done. apply S.
  - destruct (decide (idle = t)) as [->|].
    + rewrite lookup_insert_eq. destruct Hidle as [? ?]; [done|]. eauto.
    + rewrite lookup_insert_ne by done. apply S.
  - intros t0 tk0 Ht0. destruct (decide (t0 = t)) as [->|].
    + rewrite lookup_insert_eq in Ht0. by simplify_eq.
    + rewrite lookup_insert_ne in Ht0 by done.
      destruct (sc_where _ _ _ _ S t0 tk0 Ht0) as [?|[?|[->|?]]]; auto.
      destruct (decide (e = e')) as [->|Hne]; [auto|].
      destruct (He Hne) as [->| ->]; [done|]. by destruct (H0 _ Ht0).
  - intros t0 tk0 Ht0. destruct (decide (t0 = t)) as [->|].
    + rewrite lookup_insert_eq in Ht0. simplify_eq. apply Hirq. by apply (sc_irqno _ _ _ _ S) in Ht.
    + rewrite lookup_insert_ne in Ht0 by done. by eapply (sc_irqno _ _ _ _ S).
Qed.

Lemma kinv_task0 e s tk : kinv e s -> k_task s !! 0 = Some tk -> False.
Proof. intros I H. by apply (kinv_task_pos _ _ _ _ I) in H. Qed.

Lemma dom_task_upd (T : gmap Z task) t tk tk' : T !! t = Some tk -> dom (<[t := tk']> T) = dom T.
Proof. intros H. apply dom_insert_lookup_L. by rewrite H. Qed.

(** The idle task and the running task are on no queue. *)
Lemma kinv_idle_detached e s r x : kinv e s -> k_res s !! r = Some x ->
  g_idle_task (k_glob s) ∉ r_queue x.
Proof.
  intros I Hx. destruct (sc_idle _ _ _ _ (kv_sched _ _ _ I)) as (tk & Ht & Hw & _).
  eapply qwf_detached; [apply I|by eapply kinv_res0|done|done|done].
Qed.

Lemma running_detached e s r x : kinv e s -> running s -> k_res s !! r = Some x ->
  k_current s ∉ r_queue x.
Proof.
  intros I (tk & Ht & _ & Hw) Hx.
  eapply qwf_detached; [apply I|by eapply kinv_res0|done|done|done].
Qed.

(** A change of one task that is on no queue, or that keeps its queue and flags. *)
Lemma kinv_put_task e e' s t tk tk' :
  kinv e s -> k_task s !! t = Some tk -> (0 <= t_irq tk < 16 -> 0 <= t_irq tk' < 16) ->
  t_waiting_on tk' = t_waiting_on tk ->
  (t_flags tk' = t_flags tk \/
   t_waiting_on tk = 0 /\ (t = g_idle_task (k_glob s) -> t_flags tk' = tRUNNING \/ t_flags tk' = tREADY)) ->
  (t = k_current s \/ t = g_idle_task (k_glob s) \/ t = e' \/ t_flags tk' = tSLEEP_IRQ \/
    t_waiting_on tk <> 0) ->
  (e <> e' -> e = t \/ e = 0) ->
  kinv e' (set_k_task s (<[t := tk']> (k_task s))).
Proof.
  intros I Ht Hirq Hw Hf Hwh He.
  change (kinv e' (upd s (k_res s) (<[t := tk']> (k_task s)))). eapply kinv_upd; [done|done| | |].
  - by eapply dom_task_upd.
  - eapply qwf_task; [apply I|by eapply kinv_res0|done|done|tauto].
  - eapply sched_task; [apply I|done|done| | |done|by intros ? ?%(kinv_task0 _ _ _ I)].
    + intros ->. destruct (sc_idle _ _ _ _ (kv_sched _ _ _ I)) as (tk0 & Ht0 & Hw0 & Hf0).
      simplify_eq. split; [congruence|]. destruct Hf as [->|[_ Hf]]; auto.
    + rewrite Hw. done.
Qed.

Lemma kinv_enq e s r x t tk tk' :
  kinv e s -> k_res s !! r = Some x -> k_task s !! t = Some tk ->
  (0 <= t_irq tk < 16 -> 0 <= t_irq tk' < 16) -> t_waiting_on tk = 0 ->
  t <> g_idle_task (k_glob s) -> (e <> 0 -> e = t) ->
  t_waiting_on tk' = r -> t_flags tk' = queue_flag (g_reaper_queue (k_glob s)) r ->
  kinv 0 (upd s (<[r := r_set_queue x (r_queue x ++ [t])]> (k_res s)) (<[t := tk']> (k_task s))).
Proof.
  intros I Hx Ht Hirq Hw Hi He Hw' Hf'. eapply kinv_upd; [done| | | |].
  - by eapply kinds_insert.
  - by eapply dom_task_upd.
  - eapply qwf_enq; [apply I|by eapply kinv_res0|done..].
  - eapply sched_task; [apply I|done|done|done| | |by intros ? ?%(kinv_task0 _ _ _ I)].
    + do 4 right. rewrite Hw'. intros ->. rewrite (kinv_res0 _ _ I) in Hx. done.
    + auto.
Qed.

Lemma kinv_deq s r x t q tk tk' :
  kinv 0 s -> k_res s !! r = Some x -> r_queue x = t :: q -> k_task s !! t = Some tk ->
  (0 <= t_irq tk < 16 -> 0 <= t_irq tk' < 16) -> t_waiting_on tk' = 0 ->
  kinv t (upd s (<[r := r_set_queue x q]> (k_res s)) (<[t := tk']> (k_task s))).
Proof.
  intros I Hx Hq Ht Hirq Hw'. eapply kinv_upd; [done| | | |].
  - by eapply kinds_insert.
  - by eapply dom_task_upd.
  - eapply qwf_deq; [apply I|by eapply kinv_res0|done..].
  - eapply sched_task; [apply I|done|done| |auto|auto|by intros ? ?%(kinv_task0 _ _ _ I)].
    intros ->. destruct (kinv_idle_detached _ _ _ _ I Hx). rewrite Hq. apply elem_of_cons. by left.
Qed.

(** ** Specifications of the queue operations *)

Lemma rsrc_enqueue_spec e s r x t tk (Q : unit -> kst -> Prop) :
  kinv e s -> k_res s !! r = Some x -> k_task s !! t = Some tk -> t_waiting_on tk = 0 ->
  t <> g_idle_task (k_glob s) -> (e <> 0 -> e = t) -> r <> g_reaper_queue (k_glob s) ->
  (let s' := upd s (<[r := r_set_queue x (r_queue x ++ [t])]> (k_res s))
               (<[t := t_set_wait tk r 0 tWAITING]> (k_task s)) in
   kinv 0 s' -> Q tt s') ->
  wp (rsrc_enqueue r t) Q s.
Proof.
  intros I Hx Ht Hw Hi He Hr HQ. unfold rsrc_enqueue. wp_go.
  apply HQ. eapply kinv_enq; try done. simpl. unfold queue_flag. by rewrite decide_False.
Qed.

Lemma rsrc_dequeue_spec s r x (Q : Z -> kst -> Prop) :
  kinv 0 s -> k_res s !! r = Some x ->
  (r_queue x = [] -> Q 0 s) ->
  (forall t q tk, r_queue x = t :: q -> k_task s !! t = Some tk -> t <> 0 ->
    t <> g_idle_task (k_glob s) -> t_waiting_on tk = r ->
    let tk' := t_set_wait tk 0 (t_wait_time tk) tREADY in
    let s' := upd s (<[r := r_set_queue x q]> (k_res s)) (<[t := tk']> (k_task s)) in
    kinv t s' -> Q t s') ->
  wp (rsrc_dequeue r) Q s.
Proof.
  intros I Hx Hnil Hcons. unfold rsrc_dequeue, queue_detach_head. wp_go.
  destruct (r_queue x) as [|t q] eqn:Hq.
  - wp_go. rewrite decide_True by done. wp_go. auto.
  - destruct (q_in _ _ _ (kv_q _ _ _ I) r x t Hx) as (tk & Ht & Hw & _).
    { rewrite Hq. apply elem_of_cons. by left. }
    wp_go. rewrite decide_False by (by eapply kinv_task_pos). wp_go.
    apply (Hcons t q tk); [done|done|by eapply kinv_task_pos| |done|].
    + intros ->. destruct (kinv_idle_detached _ _ _ _ I Hx). rewrite Hq. apply elem_of_cons. by left.
    + by eapply kinv_deq.
Qed.

(** A task in transit becomes ready to run. *)
Lemma task_wake_spec e s t tk st (Q : unit -> kst -> Prop) :
  kinv e s -> k_task s !! t = Some tk -> t_waiting_on tk = 0 -> t <> g_idle_task (k_glob s) ->
  (e <> 0 -> e = t) -> (e = 0 -> t = k_current s \/ t_flags tk = tSLEEP_IRQ) ->
  (forall R T, let s' := upd s R T in kinv 0 s' -> kind <$> R = kinds s ->
    (forall t', t' <> t -> T !! t' = k_task s !! t') -> Q tt s') ->
  wp (task_wake t st) Q s.
Proof.
  intros I Ht Hw Hi He Hwhere HQ. unfold task_wake. wp_go.
  destruct (kinv_run_queue _ _ I) as (rq & Hrq & _).
  destruct (kinv_distinct _ _ I) as (_ & Hne & _).
  assert (kinv e (set_k_task s (<[t:=t_set_status tk st]> (k_task s)))) as I1.
  { eapply kinv_put_task; try done; [by left|]. simpl. destruct (decide (e = 0)) as [E|]; [|naive_solver].
    destruct (Hwhere E); auto. }
  eapply rsrc_enqueue_spec; [exact I1|exact Hrq|apply lookup_insert_eq|done|done|done|done|].
  simpl. intros I2. refine (HQ _ (<[t := _]> (<[t := _]> (k_task s))) I2 _ _).
  - by eapply kinds_insert.
  - intros t' Hne'. by rewrite !lookup_insert_ne.
Qed.

(** Updates of the running task that leave its queue and flags alone. *)
Lemma kinv_put_cur e s tk tk' :
  kinv e s -> k_task s !! k_current s = Some tk -> (0 <= t_irq tk < 16 -> 0 <= t_irq tk' < 16) ->
  t_waiting_on tk' = t_waiting_on tk -> t_flags tk' = t_flags tk ->
  kinv e (set_k_task s (<[k_current s := tk']> (k_task s))).
Proof. intros I Ht Hirq Hw Hf. eapply kinv_put_task; [done|done|done|done|by left|by left|done]. Qed.

Lemma running_put_cur s tk tk' :
  running s -> k_task s !! k_current s = Some tk ->
  t_waiting_on tk' = t_waiting_on tk -> t_flags tk' = t_flags tk ->
  running (set_k_task s (<[k_current s := tk']> (k_task s))).
Proof.
  intros (tk0 & Ht0 & Hf0 & Hw0) Ht Hw Hf. simplify_eq. exists tk'. simpl.
  rewrite lookup_insert_eq. split_and!; congruence.
Qed.

(** The continuation of the running task is recorded. *)
Lemma set_kont_spec e s k (Q : unit -> kst -> Prop) :
  kinv e s ->
  (forall tk, k_task s !! k_current s = Some tk ->
   let s' := set_k_task s (<[k_current s := t_set_kont tk k]> (k_task s)) in kinv e s' -> Q tt s') ->
  wp (set_kont k) Q s.
Proof.
  intros I HQ. unfold set_kont. destruct (sc_cur _ _ _ _ (kv_sched _ _ _ I)) as [tk Ht]. wp_go.
  apply (HQ tk Ht). by eapply kinv_put_cur.
Qed.

(** ** The scheduler *)

(** The running task can give up the processor. *)
Definition may_switch (s : kst) : Prop :=
  running s \/
  k_current s <> g_idle_task (k_glob s) /\
  exists tk, k_task s !! k_current s = Some tk /\ t_flags tk <> tRUNNING /\
    (t_flags tk = tSLEEP_IRQ \/ t_waiting_on tk <> 0).

(** A change of [k_current] to [c], which then runs. *)
Lemma kinv_run e s c tk tk' :
  kinv e s -> k_task s !! c = Some tk -> (0 <= t_irq tk < 16 -> 0 <= t_irq tk' < 16) ->
  t_waiting_on tk = 0 -> t_waiting_on tk' = 0 -> t_flags tk' = tRUNNING -> (e <> 0 -> e = c) ->
  (k_current s = c \/ k_current s = g_idle_task (k_glob s) \/
   exists tk0, k_task s !! k_current s = Some tk0 /\ (t_flags tk0 = tSLEEP_IRQ \/ t_waiting_on tk0 <> 0)) ->
  let s' := set_k_task (set_k_current s c) (<[c := tk']> (k_task s)) in
  kinv 0 s' /\ running s'.
Proof.
  intros I Hc Hirq Hw Hw' Hf' He Hold. split.
  - assert (kinv e (set_k_current s c)) as I1.
    { split; try apply I. simpl. destruct (kv_sched _ _ _ I) as [S1 S2 S3 S5]. split; [eauto|done| |done].
      intros t t0 Ht0. destruct (S3 t t0 Ht0) as [->|?]; [|tauto].
      destruct Hold as [->|[->|(tk0 & E & Hor)]]; [tauto..|]. simplify_eq. tauto. }
    eapply (kinv_put_task e 0 (set_k_current s c) c tk tk'); simpl; [done|done|done|congruence| |by left|auto].
    right. auto.
  - exists tk'. simpl. rewrite lookup_insert_eq. done.
Qed.

Lemma preempt_spec e s t tk st (Q : unit -> kst -> Prop) :
  kinv e s -> running s -> k_task s !! t = Some tk -> t_waiting_on tk = 0 ->
  t <> k_current s -> (e <> 0 -> e = t) ->
  (forall s', kinv 0 s' -> running s' -> k_current s' = t -> Q tt s') ->
  wp (preempt t st) Q s.
Proof.
  intros I (ck & Hck & Hcf & Hcw) Ht Hw Hne He HQ. unfold preempt. wp_go.
  destruct (kinv_run_queue _ _ I) as (rq & Hrq & _). destruct (kinv_distinct _ _ I) as (_ & Hd & _).
  case_decide as Hidle.
  - wp_go. unfold set_current. wp_go.
    destruct (kinv_run e s t tk (t_run (t_set_status tk st))) as [I' Hr']; try done.
    { by right; left. }
    by apply HQ.
  - unfold rsrc_enqueue. wp_go. unfold set_current. wp_go.
    set (ck' := t_set_wait ck _ _ _).
    set (s1 := upd s (<[g_run_queue (k_glob s) := r_set_queue rq (r_queue rq ++ [k_current s])]> (k_res s))
                 (<[k_current s := ck']> (k_task s))).
    assert (sched_ok (k_task s) (k_current s) t (g_idle_task (k_glob s))) as S0.
    { destruct (kv_sched _ _ _ I) as [S1 S2 S3 S5]. split; try done.
      intros t0 tk0 Ht0. destruct (S3 t0 tk0 Ht0) as [?|[?|[->|?]]]; [tauto..| |tauto].
      destruct (decide (e = 0)) as [->|]; [|auto]. by destruct (kinv_task0 _ _ _ I Ht0). }
    assert (kinv t s1) as I1.
    { eapply kinv_upd; [exact I| | | |].
      - by eapply kinds_insert.
      - by eapply dom_task_upd.
      - eapply qwf_enq; [apply I|by eapply kinv_res0|done..| ].
        unfold queue_flag. by rewrite decide_False.
      - eapply sched_task; [exact S0|done|done|done|auto|done|by intros ? ?%(kinv_task0 _ _ _ I)]. }
    destruct (kinv_run t s1 t tk (t_run (t_set_status tk st))) as [I' Hr']; try done.
    { simpl. by rewrite lookup_insert_ne. }
    { right; right. exists ck'. simpl. rewrite lookup_insert_eq. split; [done|]. right.
      intros E. rewrite E in Hrq. by rewrite (kinv_res0 _ _ I) in Hrq. }
    by apply HQ.
Qed.

(** The second half of swtch: the next task is the head of the run queue, or the
  idle task; there is never a dead one. *)
Definition swtch_next : M unit :=
  g <- gets k_glob ;;
  nxt <- rsrc_dequeue (g_run_queue g) ;;
  live <- gets k_live_tasks ;;
  (if decide (nxt = 0) then
     if decide (live = 0) then panic "No runnable tasks.  Exiting." else set_current (g_idle_task g)
   else set_current nxt) ;;
  cur <- gets k_current ;;
  tk <- get_task cur ;;
  if decide (t_flags tk = tDEAD) then panic dead_panic else
  put_task cur (t_run tk).

Lemma swtch_next_spec s (Q : unit -> kst -> Prop) :
  kinv 0 s ->
  (k_current s = g_idle_task (k_glob s) \/
   exists tk0, k_task s !! k_current s = Some tk0 /\ (t_flags tk0 = tSLEEP_IRQ \/ t_waiting_on tk0 <> 0)) ->
  (forall s', kinv 0 s' -> running s' -> Q tt s') ->
  wp swtch_next Q s.
Proof.
  intros I Hold HQ. unfold swtch_next. wp_go.
  destruct (kinv_run_queue _ _ I) as (rq & Hrq & _).
  eapply rsrc_dequeue_spec; [done|done| |].
  - intros Hnil. wp_go. rewrite decide_True by done. case_decide; [wp_go|].
    unfold set_current. destruct (sc_idle _ _ _ _ (kv_sched _ _ _ I)) as (ik & Hik & Hiw & Hif). wp_go.
    rewrite decide_False by (destruct Hif; congruence). wp_go.
    destruct (kinv_run 0 s (g_idle_task (k_glob s)) ik (t_run ik)) as [I' Hr']; try done; [tauto|].
    by apply HQ.
  - intros t q tk Hq Ht Hpos Hidle Hw tk' s' I'. wp_go. rewrite decide_False by done.
    unfold set_current. assert (k_task s' !! t = Some tk') as Ht' by apply lookup_insert_eq. wp_go.
    rewrite decide_False by done. wp_go.
    destruct (kinv_run t s' t tk' (t_run tk')) as [I2 Hr2]; try done; [|by apply HQ].
    destruct Hold as [?|(tk0 & Hc & Hor)]; [tauto|]. simpl. destruct (decide (k_current s = t)); [auto|].
    right. right. exists tk0. rewrite lookup_insert_ne by done. done.
Qed.

Lemma swtch_eq s tk rq :
  k_task s !! k_current s = Some tk -> k_res s !! g_run_queue (k_glob s) = Some rq ->
  swtch s =
    if decide (r_queue rq = [] /\ t_flags tk = tRUNNING) then Ok (tt, s) else
    (_ <- (if decide (t_flags tk = tRUNNING /\ k_current s <> g_idle_task (k_glob s))
           then rsrc_enqueue (g_run_queue (k_glob s)) (k_current s) else ret tt) ;; swtch_next) s.
Proof.
  intros Ht Hr. unfold swtch, swtch_next, get_task, get_res, gets, lift, bind, id, deref. rewrite Ht, Hr.
  case_decide; [done|]. case_decide as Hc; [|done].
  unfold rsrc_enqueue, get_task, get_res, put_task, put_res, gets, lift, bind, id, deref, modify.
  rewrite Ht. simpl. by rewrite Hr.
Qed.

Lemma swtch_spec s (Q : unit -> kst -> Prop) :
  kinv 0 s -> may_switch s -> (forall s', kinv 0 s' -> running s' -> Q tt s') -> wp swtch Q s.
Proof.
  intros I Hm HQ. destruct (kinv_run_queue _ _ I) as (rq & Hrq & _).
  destruct (kinv_distinct _ _ I) as (_ & Hd & _).
  destruct (sc_cur _ _ _ _ (kv_sched _ _ _ I)) as [tk Ht].
  unfold wp. rewrite (swtch_eq s tk rq Ht Hrq). case_decide as Hfast.
  - destruct Hfast as [_ Hf]. apply HQ; [done|]. destruct Hm as [?|(_ & tk0 & Ht0 & Hnr & _)]; [done|].
    congruence.
  - match goal with |- match ?m s with _ => _ end => change (wp m Q s) end.
    wp_step. case_decide as Hrun.
    + destruct Hrun as [Hf Hi]. eapply rsrc_enqueue_spec; [done|done|done| |done|done|done|].
      * destruct Hm as [(tk0 & Ht0 & _ & Hw)|(_ & tk0 & Ht0 & Hnr & _)]; congruence.
      * intros s' I'. eapply swtch_next_spec; [done| |done]. right.
        eexists. split; [apply lookup_insert_eq|]. right. simpl. intros E. rewrite E in Hrq.
        by rewrite (kinv_res0 _ _ I) in Hrq.
    + wp_go. eapply swtch_next_spec; [done| |done].
      destruct Hm as [(tk0 & Ht0 & Hf0 & _)|(Hi & tk0 & Ht0 & Hnr & Hor)].
      * left. destruct (decide (k_current s = g_idle_task (k_glob s))); [done|]. destruct Hrun.
        split; [congruence|done].
      * eauto.
Qed.

Lemma wait_on_spec s r x k (Q : unit -> kst -> Prop) :
  kinv 0 s -> running s -> k_current s <> g_idle_task (k_glob s) ->
  k_res s !! r = Some x -> r <> g_reaper_queue (k_glob s) ->
  (forall s', kinv 0 s' -> running s' -> Q tt s') -> wp (wait_on r k) Q s.
Proof.
  intros I (tk & Ht & Hf & Hw) Hi Hx Hr HQ. unfold wait_on. wp_go.
  eapply set_kont_spec; [done|]. intros tk0 Ht0 s1 I1. simplify_eq.
  assert (k_task s1 !! k_current s1 = Some (t_set_kont tk k)) as Ht1 by apply lookup_insert_eq.
  wp_step. eapply wp_get_task; [exact Ht1|]. wp_go.
  assert (I2 := kinv_put_cur 0 s1 _ (t_set_status (t_set_kont tk k) 0) I1 Ht1 (fun H => H) eq_refl eq_refl).
  eapply rsrc_enqueue_spec; [exact I2|exact Hx|apply lookup_insert_eq|done|done|done|done|].
  simpl. intros I3. eapply swtch_spec; [exact I3| |].
  - right. split; [done|]. simpl. eexists. split; [apply lookup_insert_eq|]. simpl.
    split; [done|]. right. intros ->. by rewrite (kinv_res0 _ _ I) in Hx.
  - intros s' ? ?. by apply HQ.
Qed.

Lemma sleep_spec s us (Q : unit -> kst -> Prop) :
  kinv 0 s -> running s -> k_current s <> g_idle_task (k_glob s) ->
  (forall s', kinv 0 s' -> running s' -> Q tt s') -> wp (sleep us) Q s.
Proof.
  intros I Hrun Hi HQ. pose proof Hrun as (tk & Ht & Hf & Hw). unfold sleep. do 6 wp_step. wp_step.
  eapply set_kont_spec; [done|]. intros tk0 Ht0 s1 I1. simplify_eq.
  assert (k_task s1 !! k_current s = Some (t_set_kont tk KUser)) as Ht1 by apply lookup_insert_eq.
  wp_step. case_decide.
  - wp_go. eapply swtch_spec; [exact I1| |intros s' ? ?; by apply HQ].
    left. by eapply running_put_cur.
  - destruct (kinv_queue _ _ (g_timer_queue (k_glob s)) I) as (tq & Htq & _ & Hnz); [set_solver+|].
    destruct (kinv_distinct _ _ I) as (_ & _ & Hd).
    unfold rsrc_enqueue_ordered. wp_step. eapply wp_get_res; [exact Htq|]. wp_go.
    eapply (swtch_spec (upd s1 _ (<[k_current s := _]> (k_task s1)))); [| |intros s' ? ?; by apply HQ].
    + eapply kinv_enq; [exact I1|exact Htq|exact Ht1|done|done|done|done|done|].
      simpl. unfold queue_flag. by rewrite decide_False.
    + right. split; [done|]. eexists. split; [apply lookup_insert_eq|]. simpl. split; [done|]. by right.
Qed.

(** One waiting task moves to the run queue: queue_detach_head and task_wake. *)
Lemma wake_head_spec s r x t q st (Q : unit -> kst -> Prop) :
  kinv 0 s -> k_res s !! r = Some x -> r_queue x = t :: q -> r <> g_run_queue (k_glob s) ->
  (forall rq T, k_res s !! g_run_queue (k_glob s) = Some rq ->
    let s' := upd s (<[g_run_queue (k_glob s) := r_set_queue rq (r_queue rq ++ [t])]>
                      (<[r := r_set_queue x q]> (k_res s))) T in
    (forall t', t' <> t -> T !! t' = k_task s !! t') ->
    kinv 0 s' -> Q tt s') ->
  wp (task_wake t st) Q (set_k_res s (<[r := r_set_queue x q]> (k_res s))).
Proof.
  intros I Hx Hq Hr HQ. destruct (kinv_run_queue _ _ I) as (rq & Hrq & _).
  destruct (kinv_distinct _ _ I) as (_ & Hd & _).
  destruct (q_in _ _ _ (kv_q _ _ _ I) r x t Hx) as (tk & Ht & Hw & _).
  { rewrite Hq. apply elem_of_cons. by left. }
  assert (t <> g_idle_task (k_glob s)) as Hidle.
  { intros ->. destruct (kinv_idle_detached _ _ _ _ I Hx). rewrite Hq. apply elem_of_cons. by left. }
  unfold task_wake, rsrc_enqueue. wp_go. simpl.
  set (tk0 := t_set_wait tk 0 0 tREADY).
  assert (kinv t (upd s (<[r := r_set_queue x q]> (k_res s)) (<[t := tk0]> (k_task s)))) as I1
    by (by eapply kinv_deq).
  apply (HQ rq (<[t := t_set_wait (t_set_status tk st) (g_run_queue (k_glob s)) 0 tWAITING]>
    (<[t := t_set_status tk st]> (k_task s))) Hrq).
  - intros t' Hne. by rewrite !lookup_insert_ne.
  - rewrite insert_insert_eq. rewrite <- (insert_insert_eq (k_task s) t _ tk0).
    eapply (kinv_enq _ _ _ rq t tk0 _ I1); simpl; try done.
    + by rewrite lookup_insert_ne.
    + apply lookup_insert_eq.
    + unfold queue_flag. by rewrite decide_False.
Qed.

(** All the waiting tasks of [r] move to the run queue. *)
Lemma wake_all_spec r fuel s x (Q : unit -> kst -> Prop) :
  kinv 0 s -> k_res s !! r = Some x -> r <> g_run_queue (k_glob s) ->
  (length (r_queue x) < fuel)%nat ->
  (forall R T, let s' := upd s R T in kinv 0 s' -> kind <$> R = kinds s ->
    R !! r = Some (r_set_queue x []) ->
    (forall r', r' <> r -> r' <> g_run_queue (k_glob s) -> R !! r' = k_res s !! r') ->
    (forall t, t ∉ r_queue x -> T !! t = k_task s !! t) -> Q tt s') ->
  wp (wake_all fuel r) Q s.
Proof.
  revert s x. induction fuel as [|fuel IH]; intros s x I Hx Hr Hlen HQ; [lia|].
  simpl. unfold queue_detach_head at 1. wp_go. destruct (r_queue x) as [|t q] eqn:Hq.
  - wp_go. rewrite decide_True by done. wp_go.
    cut (Q tt (upd s (k_res s) (k_task s))); [by rewrite upd_id|].
    apply (HQ (k_res s) (k_task s)); [|done| |done|done].
    + eapply kinv_upd; try done; apply I.
    + rewrite Hx. f_equal. destruct x; simpl in *. by subst.
  - wp_go. destruct (q_in _ _ _ (kv_q _ _ _ I) r x t Hx) as (tk & Ht & Hw & _).
    { rewrite Hq. apply elem_of_cons. by left. }
    rewrite decide_False by (by eapply kinv_task_pos). wp_step.
    eapply wake_head_spec; [done|done|done|done|]. intros rq T Hrq s' HT I'.
    assert (HK : kind <$> k_res s' = kinds s).
    { simpl. rewrite (kinds_insert _ _ rq).
      - by apply (kinds_insert _ _ x).
      - by rewrite lookup_insert_ne.
      - done. }
    eapply (IH s' (r_set_queue x q)); [done| |done| |].
    + simpl. rewrite lookup_insert_ne by done. apply lookup_insert_eq.
    + simpl in *. lia.
    + intros R1 T1 s1 I1 HK1 HR1 HO1 HT1. apply (HQ R1 T1); [done|by rewrite HK1|done| |].
      { intros r' Hr1 Hr2. rewrite HO1 by done. simpl. by rewrite !lookup_insert_ne. }
      intros t' [Hne Hnq]%not_elem_of_cons. rewrite HT1 by done. simpl. by apply HT.
Qed.

Lemma queue_fuel_spec s r x (Q : nat -> kst -> Prop) :
  k_res s !! r = Some x -> Q (S (length (r_queue x))) s -> wp (queue_fuel r) Q s.
Proof. intros Hx HQ. unfold queue_fuel. by wp_go. Qed.

End queues.

(** ** The table *)

(** No resource of type [ty] has the identifier [id]. *)
Definition unbound (s : kst) (ty : rsrc_type) (id : Z) : Prop :=
  forall p x, k_res s !! p = Some x -> r_type x = ty -> r_id x <> u32 id.

(** rsrc_find gives the resource that has the type and the identifier. *)
Lemma rsrc_find_spec e s ty id (Q : Z -> kst -> Prop) :
  kinv e s -> ty <> RSRC_NONE -> (unbound s ty id -> Q 0 s) ->
  (forall p x, k_res s !! p = Some x -> r_type x = ty -> p <> 0 -> r_id x = u32 id -> Q p s) ->
  wp (rsrc_find ty id) Q s.
Proof.
  intros I Hty H0 Hp. destruct (kv_x _ _ _ I) as [[Hfree Hentry Hbound [on Hnull]] _].
  assert (forall q n, aget (k_rmap s) (u32 id) = Some (q, n) ->
    (exists x, k_res s !! q = Some x /\ r_type x <> ty) -> unbound s ty id) as Hu.
  { intros q n Hq (y & Hy & Hyt) p x Hx Ht E.
    destruct (Hbound p (r_id x) (r_type x) (r_owner x)) as (_ & n' & Hn); [|congruence|].
    - unfold kinds. by rewrite lookup_fmap, Hx.
    - rewrite E, Hq in Hn. simplify_eq. }
  unfold rsrc_find. wp_go. case_decide as Hlt; wp_go.
  - destruct (aget_in_range (k_rmap s) (u32 id)) as [[p n] He]; [pose proof (u32_range id); lia|].
    wp_go. simpl. destruct (Hentry _ _ _ He) as [->|(ty' & o & Hk & Hne)].
    + apply kinds_lookup in Hnull as (x & Hx & Hk). injection Hk as _ Ht _. wp_go.
      rewrite decide_False by congruence. wp_go. apply H0. eapply (Hu _ _ He). exists x. split; congruence.
    + apply kinds_lookup in Hk as (x & Hx & Hk). injection Hk as Hid Ht _. wp_go.
      case_decide as Hd; wp_go; [|apply H0; eapply (Hu _ _ He); by exists x].
      apply (Hp p x); [done|done| |done]. intros ->. by rewrite (kinv_res0 _ _ I) in Hx.
  - apply H0. intros p x Hx Ht E.
    destruct (Hbound p (r_id x) (r_type x) (r_owner x)) as (_ & n & Hn); [|congruence|].
    + unfold kinds. by rewrite lookup_fmap, Hx.
    + rewrite E in Hn. apply aget_Some in Hn. lia.
Qed.

Lemma rsrc_find_panic ty i s w : rsrc_find ty i s <> Panic w.
Proof.
  unfold rsrc_find, get_res, gets, bind, lift, Datatypes.id, deref.
  repeat (case_match; simplify_eq/=; try done).
Qed.

(** The identifier of a bound resource finds it. *)
Lemma find_bound e s p x id (Q : Z -> kst -> Prop) :
  kinv e s -> k_res s !! p = Some x -> r_type x <> RSRC_NONE -> u32 id = r_id x ->
  Q p s -> wp (rsrc_find (r_type x) id) Q s.
Proof.
  intros I Hx Hty Hid HQ. destruct (kv_x _ _ _ I) as [[_ _ Hbound _] _].
  destruct (Hbound p (r_id x) (r_type x) (r_owner x)) as (_ & n & Hn); [|done|].
  { unfold kinds. by rewrite lookup_fmap, Hx. }
  unfold rsrc_find. wp_go. rewrite decide_True by (apply aget_Some in Hn; lia).
  wp_step. eapply wp_deref; [rewrite Hid; exact Hn|]. wp_step. eapply wp_get_res; [exact Hx|].
  rewrite decide_True by done. by wp_go.
Qed.

Lemma kinv_res_owner {X} e s p x : kinvX X e s -> k_res s !! p = Some x ->
  r_owner x = 0 \/ is_Some (k_team s !! r_owner x).
Proof.
  intros I Hx. destruct (ob_owner _ _ _ _ _ (kv_objs _ _ _ I) p (r_id x) (r_type x) (r_owner x)) as [?|H].
  - unfold kinds. by rewrite lookup_fmap, Hx.
  - by left.
  - right. by apply elem_of_dom.
Qed.

(** Team resource lists are not part of the invariant. *)
Lemma kinv_put_team {X} e s tm x y : kinvX X e s -> k_team s !! tm = Some x ->
  kinvX X e (set_k_team s (<[tm := y]> (k_team s))).
Proof.
  intros I Hx. split; try apply I. simpl. rewrite dom_insert_lookup_L by (by rewrite Hx). apply I.
Qed.

Lemma kinv_rlist {X} e s l : kinvX X e s -> kinvX X e (set_k_rlist s l).
Proof. intros I. split; apply I. Qed.

Lemma table_bind rmap rfree (K : kmap) p ty o :
  table_ok rmap rfree K -> K !! p = None -> ty <> RSRC_NONE -> rfree <> 0 ->
  exists e rmap', aget rmap rfree = Some e /\ aset rmap rfree (p, e.2) = Some rmap' /\
    table_ok rmap' e.2 (<[p := (rfree, ty, o)]> K).
Proof.
  intros [(fl & Hc & Hnd) Hentry Hbound [on Hnull]] Hp Hty Hf.
  destruct fl as [|j fl]; simpl in Hc; [done|]. destruct Hc as (-> & Hj & n & Hn & Hc).
  apply NoDup_cons in Hnd as [Hjfl Hnd]. pose proof (aget_Some _ _ _ Hn) as [Hrange _].
  exists (null_resource, n), (<[Z.to_nat j := (p, n)]> rmap).
  assert (Ha : aset rmap j (p, n) = Some (<[Z.to_nat j := (p, n)]> rmap)) by (by apply aset_in_range).
  assert (Hpn : null_resource <> p) by congruence.
  split_and!; [done|done|]. simpl. split.
  - exists fl. split; [|done]. by eapply rchain_set_other.
  - intros i q m Hi. destruct (decide (i = j)) as [->|Hne].
    + rewrite (aget_aset_eq _ _ _ _ Ha) in Hi. simplify_eq. right. rewrite lookup_insert_eq. eauto.
    + rewrite (aget_aset_ne _ _ _ _ _ Ha) in Hi by done.
      destruct (Hentry _ _ _ Hi) as [?|(ty' & o' & Hk & ?)]; [by left|right].
      rewrite lookup_insert_ne by congruence. eauto.
  - intros q id ty' o' Hk Hty'. destruct (decide (q = p)) as [->|Hne].
    + rewrite lookup_insert_eq in Hk. simplify_eq. split; [done|]. exists n. by eapply aget_aset_eq.
    + rewrite lookup_insert_ne in Hk by done. destruct (Hbound _ _ _ _ Hk Hty') as (? & m & Hm).
      split; [done|]. exists m. rewrite (aget_aset_ne _ _ _ _ _ Ha); [done|]. intros ->.
      rewrite Hn in Hm. by simplify_eq.
  - exists on. by rewrite lookup_insert_ne.
Qed.

Lemma table_release rmap rfree (K : kmap) p id ty o :
  table_ok rmap rfree K -> K !! p = Some (id, ty, o) -> ty <> RSRC_NONE -> p <> null_resource ->
  exists rmap', aset rmap id (null_resource, rfree) = Some rmap' /\
    table_ok rmap' id (<[p := (0, RSRC_NONE, o)]> K).
Proof.
  intros [(fl & Hc & Hnd) Hentry Hbound [on Hnull]] Hp Hty Hpn.
  destruct (Hbound _ _ _ _ Hp Hty) as (Hid & n & Hn). pose proof (aget_Some _ _ _ Hn) as [Hrange _].
  exists (<[Z.to_nat id := (null_resource, rfree)]> rmap).
  assert (Ha : aset rmap id (null_resource, rfree) = Some (<[Z.to_nat id := (null_resource, rfree)]> rmap))
    by (by apply aset_in_range).
  assert (Hfl : id ∉ fl).
  { intros Hin. destruct (rchain_elem _ _ _ _ Hc Hin) as (_ & m & Hm). congruence. }
  split; [done|]. split.
  - exists (id :: fl). split; [|by apply NoDup_cons]. split_and!; [done|done|]. exists rfree.
    split; [by eapply aget_aset_eq|by eapply rchain_set_other].
  - intros i q m Hi. destruct (decide (i = id)) as [->|Hne].
    + rewrite (aget_aset_eq _ _ _ _ Ha) in Hi. simplify_eq. by left.
    + rewrite (aget_aset_ne _ _ _ _ _ Ha) in Hi by done.
      destruct (Hentry _ _ _ Hi) as [?|(ty' & o' & Hk & ?)]; [by left|right].
      rewrite lookup_insert_ne by congruence. eauto.
  - intros q i' ty' o' Hk Hty'. destruct (decide (q = p)) as [->|Hne].
    + rewrite lookup_insert_eq in Hk. by simplify_eq.
    + rewrite lookup_insert_ne in Hk by done. destruct (Hbound _ _ _ _ Hk Hty') as (? & m & Hm).
      split; [done|]. exists m. rewrite (aget_aset_ne _ _ _ _ _ Ha); [done|]. congruence.
  - exists on. by rewrite lookup_insert_ne.
Qed.

Lemma table_delete rmap rfree (K : kmap) p id o :
  table_ok rmap rfree K -> K !! p = Some (id, RSRC_NONE, o) -> p <> null_resource ->
  table_ok rmap rfree (delete p K).
Proof.
  intros [Hf Hentry Hbound [on Hnull]] Hp Hpn. split.
  - done.
  - intros i q n Hi. destruct (Hentry _ _ _ Hi) as [?|(ty' & o' & Hk & ?)]; [by left|right].
    exists ty', o'. rewrite lookup_delete_ne by congruence. done.
  - intros q i' ty' o' [_ Hk]%lookup_delete_Some. eauto.
  - exists on. by rewrite lookup_delete_ne.
Qed.

(** The state after rsrc_bind. *)
Definition bind_st (s : kst) (p id : Z) (ty : rsrc_type) (o : Z) rmap rfree TM : kst :=
  set_k_rlist (set_k_team (set_k_res (set_k_rmap (set_k_rfree s rfree) rmap)
    (<[p := Rsrc id ty o [] [] []]> (k_res s))) TM) (k_rlist s ++ [p]).

Lemma rsrc_bind_spec s p ty o (Q : unit -> kst -> Prop) :
  table_ok (k_rmap s) (k_rfree s) (kinds s) -> k_res s !! p = None -> ty <> RSRC_NONE ->
  (o = 0 \/ is_Some (k_team s !! o)) ->
  (forall id rmap rfree TM, table_ok rmap rfree (<[p := (id, ty, o)]> (kinds s)) ->
    dom TM = dom (k_team s) -> Q tt (bind_st s p id ty o rmap rfree TM)) ->
  wp (rsrc_bind p ty o) Q s.
Proof.
  intros Ht Hp Hty Ho HQ. unfold rsrc_bind. wp_go. case_decide as Hf; [wp_go|].
  assert (Hk : kinds s !! p = None) by (unfold kinds; by rewrite lookup_fmap, Hp).
  destruct (table_bind _ _ _ p ty o Ht Hk Hty Hf) as (e & rmap & He & Ha & Ht').
  wp_go. case_decide as Hoz.
  - wp_go. eapply (HQ _ _ _ (k_team s)); [exact Ht'|done].
  - destruct Ho as [?|[x Hx]]; [done|]. unfold team_add_resource. wp_go.
    eapply (HQ _ _ _ (<[o := _]> (k_team s))); [exact Ht'|].
    apply dom_insert_lookup_L. by rewrite Hx.
Qed.

(** The state after rsrc_release, from the state [s] that holds the queues as
  they are when every waiting task was woken. *)
Definition release_st (s : kst) (r : Z) (x : resource) rmap : kst :=
  set_k_rfree (set_k_rmap (set_k_res s (<[r := r_set_id (r_set_type (r_set_queue x []) RSRC_NONE) 0]> (k_res s)))
    rmap) (r_id x).

Lemma rsrc_release_spec {X} s r x (Q : unit -> kst -> Prop) :
  kinvX X 0 s -> table_ok (k_rmap s) (k_rfree s) (kinds s) ->
  k_res s !! r = Some x -> r_type x <> RSRC_NONE -> r <> null_resource -> r <> g_run_queue (k_glob s) ->
  (forall R T TM l rmap, let s1 := upd (set_k_rlist (set_k_team s TM) l) R T in
    kinvX X 0 s1 -> kinds s1 = kinds s -> R !! r = Some (r_set_queue x []) ->
    (forall r', r' <> r -> r' <> g_run_queue (k_glob s) -> R !! r' = k_res s !! r') ->
    (forall t, t ∉ r_queue x -> T !! t = k_task s !! t) ->
    table_ok rmap (r_id x) (<[r := (0, RSRC_NONE, r_owner x)]> (kinds s)) ->
    Q tt (release_st s1 r x rmap)) ->
  wp (rsrc_release r) Q s.
Proof.
  intros I Ht Hx Hty Hnull Hrq HQ. unfold rsrc_release. wp_go.
  assert (wp (if decide (r_owner x = 0) then ret tt else team_remove_resource (r_owner x) r)
    (fun _ s' => exists TM, s' = set_k_team s TM /\ kinvX X 0 (set_k_team s TM)) s) as Hown.
  { case_decide; wp_go.
    - exists (k_team s). by destruct s.
    - destruct (ob_owner _ _ _ _ _ (kv_objs _ _ _ I) r (r_id x) (r_type x) (r_owner x)) as [?|Hin];
        [by unfold kinds; rewrite lookup_fmap, Hx|done|]. apply elem_of_dom in Hin as [y Hy].
      unfold team_remove_resource. wp_go. eexists. split; [done|]. by eapply kinv_put_team. }
  eapply wp_mono; [exact Hown|]. clear Hown. intros _ s' (TM & -> & I0).
  wp_go. set (s0 := set_k_rlist _ _).
  assert (kinvX X 0 s0) as I1 by (by apply kinv_rlist).
  eapply queue_fuel_spec; [exact Hx|]. wp_go.
  eapply (wake_all_spec r _ s0 x); [done|exact Hx|done|lia|].
  intros R T s1 I2 HK HR HO HT. wp_step. eapply wp_get_res; [exact HR|]. wp_go.
  destruct (table_release _ _ _ r (r_id x) (r_type x) (r_owner x) Ht) as (rmap & Ha & Ht'); [|done..|].
  { unfold kinds. by rewrite lookup_fmap, Hx. }
  eapply wp_deref; [exact Ha|]. wp_go. apply (HQ R T TM _ rmap I2 HK HR HO HT Ht').
Qed.

End KInv.
