(* ===== verification/KSafe.v ===== *)
(** The system calls on semaphores, ports, timers, interrupts and threads keep
  the kernel invariant, and where they can reach undefined behaviour. *)
From S2P Require Import Prelude KList KMem KState Rsrc Sched Sem Port Aspace Task Syscall KInv.
Import KState Rsrc Sched Sem Port Task Syscall KInv.
Local Open Scope Z_scope.
Local Open Scope k_scope.

Module KSafe.

(** ** New and freed objects *)

Lemma kinds_of s r x : k_res s !! r = Some x -> kinds s !! r = Some (r_id x, r_type x, r_owner x).
Proof. intros Hx. unfold kinds. by rewrite lookup_fmap, Hx. Qed.

Lemma kinv_put_res {X} e s r x x' :
  kinvX X e s -> k_res s !! r = Some x -> kind x' = kind x -> r_queue x' = r_queue x ->
  kinvX X e (set_k_res s (<[r := x']> (k_res s))).
Proof.
  intros I Hx Hk Hq. change (kinvX X e (upd s (<[r := x']> (k_res s)) (k_task s))).
  eapply kinv_upd; [done| |done| |apply I].
  - by eapply kinds_insert.
  - apply qwf_res; [apply I| |congruence]. intros y Hy. congruence.
Qed.

Lemma fresh_kind {X} e s p : kinvX X e s -> k_brk s <= p -> kinds s !! p = None.
Proof.
  intros I Hp. destruct (kinds s !! p) as [k|] eqn:E; [|done].
  apply (ob_range _ _ _ _ _ (kv_objs _ _ _ I)) in E. lia.
Qed.

Lemma fresh_res {X} e s p : kinvX X e s -> k_brk s <= p -> k_res s !! p = None.
Proof.
  intros I Hp. pose proof (fresh_kind _ _ _ I Hp) as H. unfold kinds in H.
  rewrite lookup_fmap in H. by destruct (k_res s !! p).
Qed.

Lemma kinv_brk_pos {X} e s : kinvX X e s -> 0 < k_brk s.
Proof.
  intros I. destruct (ob_glob _ _ _ _ _ (kv_objs _ _ _ I) (g_run_queue (k_glob s))) as (id & o & Hk).
  { apply elem_of_cons. by left. }
  apply (ob_range _ _ _ _ _ (kv_objs _ _ _ I)) in Hk. lia.
Qed.

Lemma kinv_new {X X'} e s p id ty o rmap rfree TM brk S P :
  kinvX X e s -> kinds s !! p = None -> 0 < p < brk -> k_brk s <= brk -> ty <> RSRC_TASK -> (o = 0 \/ is_Some (k_team s !! o)) ->
  dom TM = dom (k_team s) ->
  X' rmap rfree (<[p := (id, ty, o)]> (kinds s)) (dom S) P (k_glob s) ->
  kinvX X' e (bind_st (set_k_port (set_k_sem (set_k_brk s brk) S) P) p id ty o rmap rfree TM).
Proof.
  intros I Hf Hp Hb Hty Ho HTM HX. destruct (kv_objs _ _ _ I) as [O1 O2 O3 O6 O4 O5].
  split; simpl.
  - unfold kinds; simpl. rewrite fmap_insert. done.
  - unfold kinds; simpl. rewrite fmap_insert. rewrite HTM. split.
    + intros q k Hq. destruct (decide (q = p)) as [->|]; [lia|].
      rewrite lookup_insert_ne in Hq by done. apply O1 in Hq. lia.
    + intros t. rewrite O2. destruct (decide (t = p)) as [->|].
      * rewrite lookup_insert_eq. unfold kind; simpl. naive_solver.
      * by rewrite lookup_insert_ne.
    + intros q i ty' o' Hq. destruct (decide (q = p)) as [->|].
      * rewrite lookup_insert_eq in Hq. unfold kind in Hq; simpl in Hq. simplify_eq.
        destruct Ho; [by left|]. right. by apply elem_of_dom.
      * rewrite lookup_insert_ne in Hq by done. by eapply O3.
    + intros q Hq. destruct (O6 q Hq) as (i & o' & Hk). exists i, o'.
      rewrite lookup_insert_ne by congruence. done.
    + intros q Hq. destruct (O4 q Hq) as (i & o' & Hk). exists i, o'.
      rewrite lookup_insert_ne by congruence. done.
    + done.
  - apply qwf_res; [apply I| |done]. intros x Hx. rewrite (kinds_of _ _ _ Hx) in Hf. done.
  - apply I.
  - apply I.
  - apply I.
Qed.

Lemma kinv_free {X X'} e s r x rmap rfree S P :
  kinvX X e s -> k_res s !! r = Some x -> r_queue x = [] ->
  r_type x <> RSRC_TASK -> r_type x <> RSRC_TEAM ->
  r ∉ [g_run_queue (k_glob s); g_timer_queue (k_glob s); g_reaper_queue (k_glob s)] ->
  X' rmap rfree (delete r (kinds s)) (dom S) P (k_glob s) ->
  kinvX X' e (set_k_port (set_k_sem (set_k_rmap (set_k_rfree
    (set_k_res s (delete r (k_res s))) rfree) rmap) S) P).
Proof.
  intros I Hx Hq Hty Hty' Hr HX. destruct (kv_objs _ _ _ I) as [O1 O2 O3 O6 O4 O5]. split; simpl.
  - unfold kinds; simpl. by rewrite fmap_delete.
  - unfold kinds; simpl. rewrite fmap_delete. split.
    + intros q k [_ Hk]%lookup_delete_Some. by eapply O1.
    + intros t. rewrite O2. split; intros (i & o & Hk); exists i, o.
      * rewrite lookup_delete_ne; [done|]. intros ->. unfold kinds in Hk.
        rewrite lookup_fmap, Hx in Hk. unfold kind in Hk. simpl in Hk. congruence.
      * apply lookup_delete_Some in Hk as [_ Hk]. done.
    + intros q i ty' o' [_ Hk]%lookup_delete_Some. by eapply O3.
    + intros q Hq0. destruct (O6 q Hq0) as (i & o' & Hk). exists i, o'.
      rewrite lookup_delete_ne; [done|]. intros ->. rewrite (kinds_of _ _ _ Hx) in Hk. congruence.
    + intros q Hin. destruct (O4 q Hin) as (i & o' & Hk). exists i, o'.
      rewrite lookup_delete_ne; [done|]. congruence.
    + done.
  - by eapply qwf_del; [apply I|..].
  - apply I.
  - apply I.
  - apply I.
Qed.

Lemma null_ne {X} e s r x : kinvX X e s -> table_ok (k_rmap s) (k_rfree s) (kinds s) ->
  k_res s !! r = Some x -> r_type x <> RSRC_NONE -> r <> null_resource.
Proof.
  intros I Ht Hx Hty ->. destruct (tb_null _ _ _ Ht) as [o Ho]. unfold kinds in Ho.
  rewrite lookup_fmap, Hx in Ho. unfold kind in Ho. simpl in Ho. congruence.
Qed.

(** ** Semaphores and ports as maps *)
Section ports.
Context {K : kmap} {S : gset Z} {P : gmap Z port} {g : globals}.
Hypothesis H : ports_ok K S P g.

Lemma ports_new_sem p id o : K !! p = None -> ports_ok (<[p := (id, RSRC_SEM, o)]> K) ({[p]} ∪ S) P g.
Proof.
  intros Hp. destruct H as [H1 H2 H3 H4 H5 H6]. split; [| | | |done|done].
  - intros q i o' Hq. destruct (decide (q = p)) as [->|].
    + rewrite lookup_insert_eq in Hq. by simplify_eq.
    + rewrite lookup_insert_ne in Hq by done. by eapply H1.
  - intros q. rewrite elem_of_union, elem_of_singleton, H2. destruct (decide (q = p)) as [->|].
    + rewrite lookup_insert_eq. naive_solver.
    + rewrite lookup_insert_ne by done. naive_solver.
  - intros q. rewrite H3. destruct (decide (q = p)) as [->|].
    + rewrite lookup_insert_eq, Hp. naive_solver.
    + by rewrite lookup_insert_ne.
  - intros q pt Hq. destruct (H4 q pt Hq) as [(i & o' & Hk) Hn]. split; [|done].
    exists i, o'. rewrite lookup_insert_ne by congruence. done.
Qed.

Lemma ports_del_sem p id o : K !! p = Some (id, RSRC_SEM, o) ->
  ports_ok (delete p K) (S ∖ {[p]}) P g.
Proof.
  intros Hp. destruct H as [H1 H2 H3 H4 H5 H6]. split; [| | | |done|done].
  - intros q i o' [_ Hq]%lookup_delete_Some. by eapply H1.
  - intros q. rewrite elem_of_difference, elem_of_singleton, H2. setoid_rewrite lookup_delete_Some.
    naive_solver.
  - intros q. rewrite H3. setoid_rewrite lookup_delete_Some. naive_solver.
  - intros q pt Hq. destruct (H4 q pt Hq) as [(i & o' & Hk) Hn]. split; [|done].
    exists i, o'. rewrite lookup_delete_ne by congruence. done.
Qed.

Lemma ports_put p pt pt' : P !! p = Some pt -> p_sendqueue pt' = p_sendqueue pt ->
  p_msgcount pt' = Z.of_nat (length (p_msgs pt')) -> p_msgcount pt' <= MAX_MSGCOUNT ->
  ports_ok K S (<[p := pt']> P) g.
Proof.
  intros Hp Hs Hm Hb. destruct H as [H1 H2 H3 H4 H5 H6]. split; [done|done| | | |].
  - intros q. rewrite <- H3. destruct (decide (q = p)) as [->|].
    + rewrite lookup_insert_eq, Hp. split; eauto.
    + by rewrite lookup_insert_ne.
  - intros q qt Hq. destruct (decide (q = p)) as [->|].
    + rewrite lookup_insert_eq in Hq. simplify_eq. rewrite Hs. by eapply H4.
    + rewrite lookup_insert_ne in Hq by done. by eapply H4.
  - assert (forall q qt, <[p := pt']> P !! q = Some qt ->
      exists qt0, P !! q = Some qt0 /\ p_sendqueue qt = p_sendqueue qt0) as Hold.
    { intros q qt Hq. destruct (decide (q = p)) as [->|].
      - rewrite lookup_insert_eq in Hq. simplify_eq. eauto.
      - rewrite lookup_insert_ne in Hq by done. eauto. }
    intros a b qa qb (qa' & Ha & Ea)%Hold (qb' & Hb' & Eb)%Hold E. eapply H5; [done..|congruence].
  - intros q qt Hq. destruct (decide (q = p)) as [->|].
    + rewrite lookup_insert_eq in Hq. by simplify_eq.
    + rewrite lookup_insert_ne in Hq by done. by eapply H6.
Qed.

Lemma ports_new_port p q id idq o oq pt :
  K !! p = None -> K !! q = None -> p <> q ->
  q ∉ [g_run_queue g; g_timer_queue g; g_reaper_queue g] -> p_sendqueue pt = q ->
  p_msgcount pt = 0 -> p_msgs pt = [] ->
  ports_ok (<[q := (idq, RSRC_QUEUE, oq)]> (<[p := (id, RSRC_PORT, o)]> K)) S (<[p := pt]> P) g.
Proof.
  intros Hp Hq Hpq Hg Hs Hm Hl. destruct H as [H1 H2 H3 H4 H5 H6].
  assert (forall r k, r <> p -> r <> q ->
    <[q := (idq, RSRC_QUEUE, oq)]> (<[p := (id, RSRC_PORT, o)]> K) !! r = Some k <-> K !! r = Some k) as Hold.
  { intros r k Hrp Hrq. by rewrite !lookup_insert_ne. }
  assert (forall r pr, P !! r = Some pr -> p_sendqueue pr <> q /\ p_sendqueue pr <> p) as Hsq.
  { intros r pr Hr. destruct (H4 _ _ Hr) as [(i & o' & Hk) _]. split; congruence. }
  split.
  - intros r i o' Hr. destruct (decide (r = q)) as [->|]; [rewrite lookup_insert_eq in Hr; done|].
    rewrite lookup_insert_ne in Hr by done.
    destruct (decide (r = p)) as [->|]; [rewrite lookup_insert_eq in Hr; done|].
    rewrite lookup_insert_ne in Hr by done. by eapply H1.
  - intros r. rewrite H2. destruct (decide (r = q)) as [->|].
    { rewrite lookup_insert_eq, Hq. naive_solver. }
    destruct (decide (r = p)) as [->|]; [|by setoid_rewrite Hold].
    rewrite lookup_insert_ne, lookup_insert_eq, Hp by done. naive_solver.
  - intros r. destruct (decide (r = p)) as [->|].
    { rewrite lookup_insert_eq, lookup_insert_ne, lookup_insert_eq by done. naive_solver. }
    rewrite lookup_insert_ne by done. rewrite H3. destruct (decide (r = q)) as [->|]; [|by setoid_rewrite Hold].
    rewrite lookup_insert_eq, Hq. naive_solver.
  - intros r pr Hr. destruct (decide (r = p)) as [->|].
    + rewrite lookup_insert_eq in Hr. simplify_eq. split; [|done]. rewrite lookup_insert_eq. eauto.
    + rewrite lookup_insert_ne in Hr by done. destruct (H4 _ _ Hr) as [(i & o' & Hk) Hn].
      split; [|done]. exists i, o'. destruct (Hsq _ _ Hr). by apply Hold.
  - intros a b pa pb Ha Hb E. destruct (decide (a = p)) as [->|], (decide (b = p)) as [->|];
      rewrite ?lookup_insert_eq in *; try rewrite lookup_insert_ne in Ha by done;
      try rewrite lookup_insert_ne in Hb by done; simplify_eq; try done.
    + by destruct (Hsq _ _ Hb).
    + by destruct (Hsq _ _ Ha).
    + by eapply H5.
  - intros r pr Hr. destruct (decide (r = p)) as [->|].
    + rewrite lookup_insert_eq in Hr. simplify_eq. rewrite Hm, Hl. split; [done|]. by vm_compute.
    + rewrite lookup_insert_ne in Hr by done. by eapply H6.
Qed.

Lemma ports_del_port p id o pt : K !! p = Some (id, RSRC_PORT, o) -> P !! p = Some pt ->
  ports_ok (delete p (delete (p_sendqueue pt) K)) S (delete p P) g.
Proof.
  intros Hp Hpt. destruct H as [H1 H2 H3 H4 H5 H6].
  destruct (H4 _ _ Hpt) as [(iq & oq & Hq) Hg]. split.
  - intros r i o' [_ [_ Hr]%lookup_delete_Some]%lookup_delete_Some. by eapply H1.
  - intros r. rewrite H2. setoid_rewrite lookup_delete_Some. setoid_rewrite lookup_delete_Some. naive_solver.
  - intros r. destruct (decide (r = p)) as [->|].
    + rewrite !lookup_delete_eq. split; [by intros []|by intros (?&?&?)].
    + rewrite lookup_delete_ne by done. rewrite H3.
      setoid_rewrite lookup_delete_Some. setoid_rewrite lookup_delete_Some. naive_solver.
  - intros r pr [Hne Hr]%lookup_delete_Some. destruct (H4 _ _ Hr) as [(i & o' & Hk) Hn].
    split; [|done]. exists i, o'. rewrite lookup_delete_ne by congruence.
    rewrite lookup_delete_ne; [done|]. intros E. apply Hne. by eapply H5.
  - intros a b pa pb [_ Ha]%lookup_delete_Some [_ Hb]%lookup_delete_Some. by eapply H5.
  - intros r pr [_ Hr]%lookup_delete_Some. by eapply H6.
Qed.
End ports.

(** ** Specifications of the calls

  [user s]: the running task is not the idle task and runs user code. *)
Definition user (s : kst) : Prop := at_rest s /\ k_current s <> g_idle_task (k_glob s).

(** The postcondition of a call that keeps the invariant. *)
Definition rest {A} : A -> kst -> Prop := fun _ s => at_rest s.

Lemma current_owner_spec {X} e s (Q : Z -> kst -> Prop) :
  kinvX X e s -> (forall o, o = 0 \/ is_Some (k_team s !! o) -> Q o s) -> wp current_owner Q s.
Proof.
  intros I HQ. destruct (sc_cur _ _ _ _ (kv_sched _ _ _ I)) as [tk Ht].
  destruct (kinv_task_res _ _ _ _ I Ht) as (x & Hx & _). unfold current_owner. wp_go.
  apply HQ. by eapply kinv_res_owner.
Qed.

(** The team of the running task. *)
Definition cur_team (s : kst) : Z :=
  match k_task s !! k_current s with Some tk => t_team tk | None => 0 end.

Lemma current_team_spec {X} e s (Q : Z -> kst -> Prop) :
  kinvX X e s -> Q (cur_team s) s -> wp current_team Q s.
Proof.
  intros I HQ. destruct (sc_cur _ _ _ _ (kv_sched _ _ _ I)) as [tk Ht]. unfold current_team, cur_team in *. wp_go.
  by rewrite Ht in HQ.
Qed.

Lemma rsrc_set_name_spec {X} e s r x nm (Q : unit -> kst -> Prop) :
  kinvX X e s -> k_res s !! r = Some x ->
  (forall x', kind x' = kind x -> let s' := set_k_res s (<[r := x']> (k_res s)) in kinvX X e s' -> Q tt s') ->
  wp (rsrc_set_name r nm) Q s.
Proof.
  intros I Hx HQ. unfold rsrc_set_name. wp_go. apply HQ; [done|]. by eapply kinv_put_res.
Qed.

Lemma sem_create_spec s c nm : at_rest s -> wp (sem_create c nm) rest s.
Proof.
  intros [I Hr]. destruct (kv_x _ _ _ I) as [Ht Hp]. unfold sem_create, kmalloc. wp_go.
  set (p := k_brk s). set (s1 := set_k_sem _ _).
  destruct (sc_cur _ _ _ _ (kv_sched _ _ _ I)) as [tk Htk].
  destruct (kinv_task_res _ _ _ _ I Htk) as (x & Hx & _).
  pose proof (kinv_res_owner _ _ _ _ I Hx) as Ho.
  unfold current_owner. wp_go.
  eapply rsrc_bind_spec; [exact Ht|exact (fresh_res _ _ _ I (Z.le_refl _))|done|exact Ho|].
  intros id rmap rfree TM Ht' HTM.
  assert (kinv 0 (bind_st s1 p id RSRC_SEM (r_owner x) rmap rfree TM)) as I1.
  { eapply (kinv_new 0 s p id RSRC_SEM (r_owner x) rmap rfree TM (p + 64) (<[p := s32 c]> (k_sem s)) (k_port s) I);
      [by eapply fresh_kind|pose proof (kinv_brk_pos _ _ I); subst p; lia|subst p; lia|done|done|done|]. split; [done|]. rewrite dom_insert_L. apply ports_new_sem; [done|].
    by eapply fresh_kind. }
  wp_step. eapply rsrc_set_name_spec; [exact I1|apply lookup_insert_eq|]. intros x' Hx' s2 I2.
  wp_step. eapply wp_get_res; [apply lookup_insert_eq|]. wp_go. split; [exact I2|exact Hr].
Qed.

(** An object found in the table by a user-visible type. *)
Lemma find_spec s ty id (Q : Z -> kst -> Prop) :
  kinv 0 s -> ty <> RSRC_NONE -> Q 0 s ->
  (forall p x, k_res s !! p = Some x -> r_type x = ty -> p <> 0 ->
    kinds s !! p = Some (r_id x, ty, r_owner x) -> Q p s) ->
  wp (rsrc_find ty id) Q s.
Proof.
  intros I Hty H0 HQ. eapply rsrc_find_spec; [done|done|done|]. intros p x Hx Ht Hp _.
  apply (HQ p x); [done|done|done|]. rewrite <- Ht. by apply kinds_of.
Qed.

Lemma not_global {X} e s r x : kinvX X e s -> k_res s !! r = Some x -> r_type x <> RSRC_QUEUE ->
  r ∉ [g_run_queue (k_glob s); g_timer_queue (k_glob s); g_reaper_queue (k_glob s)].
Proof.
  intros I Hx Hty Hin. destruct (ob_glob _ _ _ _ _ (kv_objs _ _ _ I) r Hin) as (i & o & Hk).
  rewrite (kinds_of _ _ _ Hx) in Hk. congruence.
Qed.

Lemma not_global_run {X} e s r x : kinvX X e s -> k_res s !! r = Some x -> r_type x <> RSRC_QUEUE ->
  r <> g_run_queue (k_glob s) /\ r <> g_reaper_queue (k_glob s).
Proof.
  intros I Hx Hty. pose proof (not_global _ _ _ _ I Hx Hty) as Hn. set_solver +Hn.
Qed.

Lemma running_tasks s s' : running s -> k_current s' = k_current s ->
  k_task s' !! k_current s = k_task s !! k_current s -> running s'.
Proof. intros (tk & Ht & Hf & Hw) Hc E. exists tk. rewrite Hc, E. done. Qed.

Lemma sem_destroy_spec s id : at_rest s -> wp (sem_destroy id) rest s.
Proof.
  intros [I Hr]. destruct (kv_x _ _ _ I) as [Ht Hp]. unfold sem_destroy. wp_step.
  eapply find_spec; [done|done|wp_go; by rewrite decide_True|]. intros p x Hx Hty Hp0 Hk.
  rewrite decide_False by done. wp_step.
  assert (r_type x <> RSRC_QUEUE) as Hnq by congruence.
  destruct (not_global_run _ _ _ _ I Hx Hnq) as [Hrq _].
  assert (p <> null_resource) as Hnull by (eapply null_ne; [done|done|done|congruence]).
  eapply rsrc_release_spec; [done|done|done|congruence|done|done|].
  intros R T TM l rmap s1 I1 HK HR _ HT Ht'. unfold kfree_res, release_st. wp_go. unfold rest. split.
  - simpl. rewrite delete_insert_eq.
    eapply (kinv_free 0 s1 p _ rmap (r_id x) (delete p (k_sem s1)) (k_port s1) I1 HR);
      [done|simpl; congruence..|by eapply not_global|].
    rewrite HK. split.
    + rewrite <- (delete_insert_eq (kinds s) p (0, RSRC_NONE, r_owner x)).
      eapply table_delete; [done|apply lookup_insert_eq|done].
    + simpl. rewrite dom_delete_L. by eapply ports_del_sem.
  - eapply running_tasks; [exact Hr|done|]. simpl. apply HT. by eapply running_detached.
Qed.

Lemma put_sem_inv {X} e s p c c' : kinvX X e s -> k_sem s !! p = Some c ->
  kinvX X e (set_k_sem s (<[p := c']> (k_sem s))).
Proof.
  intros I Hc. split; try apply I. simpl. rewrite dom_insert_lookup_L by (by rewrite Hc). apply I.
Qed.

Lemma sem_of s p x : kinv 0 s -> k_res s !! p = Some x -> r_type x = RSRC_SEM ->
  exists c, k_sem s !! p = Some c.
Proof.
  intros I Hx Hty. destruct (kv_x _ _ _ I) as [_ Hp].
  assert (p ∈ dom (k_sem s)) as [c Hc]%elem_of_dom; [|eauto].
  apply (po_sem _ _ _ _ Hp). exists (r_id x), (r_owner x). rewrite (kinds_of _ _ _ Hx). congruence.
Qed.

Lemma sem_acquire_spec s id : user s -> wp (sem_acquire id) rest s.
Proof.
  intros [[I Hr] Hi]. unfold sem_acquire. wp_step.
  eapply find_spec; [done|done|wp_go; by rewrite decide_True|]. intros p x Hx Hty Hp0 Hk.
  rewrite decide_False by done. destruct (sem_of _ _ _ I Hx Hty) as [c Hc]. wp_go.
  assert (forall c', kinv 0 (set_k_sem s (<[p := c']> (k_sem s)))) as I1 by (intros; by eapply put_sem_inv).
  case_decide; wp_go; [by split|].
  eapply wait_on_spec; [apply I1|exact Hr|exact Hi|exact Hx| |].
  - eapply (not_global_run _ s); [done|done|congruence].
  - intros. wp_go. by split.
Qed.

Lemma sem_release_spec s id : user s -> wp (sem_release id) rest s.
Proof.
  intros [[I Hr] Hi]. unfold sem_release. wp_step.
  eapply find_spec; [done|done|wp_go; by rewrite decide_True|]. intros p x Hx Hty Hp0 Hk.
  rewrite decide_False by done. destruct (sem_of _ _ _ I Hx Hty) as [c Hc]. wp_go.
  assert (forall c', kinv 0 (set_k_sem s (<[p := c']> (k_sem s)))) as I1 by (intros; by eapply put_sem_inv).
  eapply rsrc_dequeue_spec; [apply I1|exact Hx| |].
  - intros _. rewrite decide_True by done. wp_go. split; [apply I1|exact Hr].
  - intros t q tk Hq Ht Ht0 Hti Hw tk' s' I'. rewrite decide_False by done. wp_step.
    assert (t <> k_current s) as Hne.
    { intros ->. destruct Hr as (ck & Hck & _ & Hcw). simpl in Ht. by simplify_eq. }
    assert (running s') as Hr' by (eapply running_tasks; [exact Hr|done|]; simpl; by rewrite lookup_insert_ne).
    eapply set_kont_spec; [done|]. intros ck Hck s2 I2. wp_step.
    eapply (preempt_spec t s2 t tk'); [done| | |done|done|done|].
    + by eapply running_put_cur.
    + simpl. rewrite lookup_insert_ne by done. apply lookup_insert_eq.
    + intros. wp_go. by split.
Qed.

(** ** Ports *)

Lemma kinv_cond {X X'} e s : kinvX X e s ->
  X' (k_rmap s) (k_rfree s) (kinds s) (dom (k_sem s)) (k_port s) (k_glob s) -> kinvX X' e s.
Proof. intros I HX. split; [done|apply I..]. Qed.

(** A port that changes while its messages and its queue do not matter to [X']. *)
Lemma put_port_inv {X X'} e s P : kinvX X e s ->
  X' (k_rmap s) (k_rfree s) (kinds s) (dom (k_sem s)) P (k_glob s) -> kinvX X' e (set_k_port s P).
Proof. intros I HX. split; [done|apply I..]. Qed.

Lemma wake_one_spec {X} s p x (Q : unit -> kst -> Prop) :
  kinvX X 0 s -> running s -> k_res s !! p = Some x ->
  (forall R T, let s' := upd s R T in kinvX X 0 s' -> running s' -> kind <$> R = kinds s -> Q tt s') ->
  wp (wake_one p) Q s.
Proof.
  intros I Hr Hx HQ. unfold wake_one. wp_step. eapply rsrc_dequeue_spec; [done|done| |].
  - intros _. rewrite decide_True by done. wp_go. rewrite <- (upd_id s). apply HQ; by rewrite ?upd_id.
  - intros t q tk Hq Ht Ht0 Hi Hw tk' s' I'. rewrite decide_False by done.
    assert (t <> k_current s) as Hne.
    { intros ->. destruct (running_detached _ _ _ _ I Hr Hx). rewrite Hq. apply elem_of_cons. by left. }
    eapply (task_wake_spec t s' t tk'); [done|apply lookup_insert_eq|done|done|done|done|].
    intros R T s2 I2 HK HT. apply (HQ R T I2).
    + eapply running_tasks; [exact Hr|done|]. simpl. rewrite HT by done. simpl. by rewrite lookup_insert_ne.
    + rewrite HK. simpl. by eapply kinds_insert.
Qed.

Lemma port_of s p x : kinv 0 s -> k_res s !! p = Some x -> r_type x = RSRC_PORT ->
  exists pt, k_port s !! p = Some pt.
Proof.
  intros I Hx Hty. destruct (kv_x _ _ _ I) as [_ Hp]. destruct (proj2 (po_port _ _ _ _ Hp p)) as [pt Hpt]; [|eauto].
  exists (r_id x), (r_owner x). rewrite (kinds_of _ _ _ Hx). congruence.
Qed.

Lemma res_of s p pt : kinv 0 s -> k_port s !! p = Some pt ->
  exists x, k_res s !! p = Some x /\ r_type x = RSRC_PORT.
Proof.
  intros I Hp. destruct (kv_x _ _ _ I) as [_ H]. destruct (proj1 (po_port _ _ _ _ H p)) as (i & o & Hk); [eauto|].
  apply kinds_lookup in Hk as (x & Hx & Hk). injection Hk as _ Hty _. eauto.
Qed.

Lemma sendq_of s p pt : kinv 0 s -> k_port s !! p = Some pt ->
  exists y, k_res s !! p_sendqueue pt = Some y /\ r_type y = RSRC_QUEUE /\
    p_sendqueue pt <> g_run_queue (k_glob s) /\ p_sendqueue pt <> g_reaper_queue (k_glob s).
Proof.
  intros I Hp. destruct (kv_x _ _ _ I) as [_ H]. destruct (po_sendq _ _ _ _ H p pt Hp) as [(i & o & Hk) Hn].
  apply kinds_lookup in Hk as (x & Hx & Hk). injection Hk as _ Hty _. exists x.
  split_and!; [done|done|set_solver +Hn..].
Qed.

Lemma kgetpages_one m : mem_ok m ->
  match KMem.kgetpages m 1 with
  | Ok (_, m') => mem_ok m' | Panic w => w <> dead_panic | Fault => False
  end.
Proof.
  intros (Hp & Hh & Hk). pose proof (KMem.kgetpage_ok m Hp Hh Hk) as Hok.
  unfold KMem.kgetpages. simpl. destruct (KMem.kgetpage m) as [[[pg ph] m']|w|] eqn:E; simpl; [| |done].
  - destruct Hok as (Hp' & Hh' & _ & [(_ & _ & _ & _ & Ek)|(n & r & km0 & _ & _ & _ & _ & Ek)]);
      (split; [done|split; [done|]]); rewrite Ek; [done|by rewrite length_insert].
  - clear Hok. unfold KMem.kgetpage, KMem.getpage in E. destruct (decide _); simpl in E; [|by simplify_eq].
    destruct (aget _ _); simpl in E; [|done]. case_decide; [by simplify_eq|].
    destruct (KMem.m_freev m) as [|[n0 page] rest].
    + destruct (KMem.maphi1_ok (KMem.set_nextmem (KMem.set_pages m (KMem.m_pagelist m) z
        (u32 (KMem.m_used_pages m + 1))) (u32 (KMem.m_nextmem m - 4096))) (KMem.m_freepage m)
        (u32 (KMem.m_nextmem m - 4096) / 4096) Hh) as (h & Hm & _).
      simpl in Hm, E. by rewrite Hm in E.
    + destruct (lookup_lt_is_Some_2 (KMem.m_km m) 0) as [km0 Hkm0]; [lia|].
      match type of E with context [KMem.kfreeB ?st _ _] =>
        change (KMem.kfreeB st KMem.sizeof_node n0) with (KMem.kfreeP st (Z.of_nat 0) n0) in E end.
      rewrite (KMem.kfreeP_eq _ 0 km0) in E by (simpl; first [lia|congruence]). simpl in E.
      match type of E with context [KMem.aspace_maphi ?st ?a ?b _ _] =>
        destruct (KMem.maphi1_ok st a b) as (h & Hm & _); [done|]; rewrite Hm in E end. done.
Qed.

Lemma msg_page_spec {X} s (Q : Z -> kst -> Prop) :
  kinvX X 0 s ->
  (forall pg m l, kinvX X 0 (set_k_mem (set_k_msg_pool s l) m) -> Q pg (set_k_mem (set_k_msg_pool s l) m)) ->
  wp msg_page Q s.
Proof.
  intros I HQ. unfold msg_page. wp_go. destruct (k_msg_pool s) as [|pg l] eqn:E.
  - unfold wp, on_mem. pose proof (kgetpages_one _ (kv_mem _ _ _ I)) as Hm.
    destruct (KMem.kgetpages (k_mem s) 1) as [[pg m]|w|]; [|done|done].
    specialize (HQ pg m []). rewrite <- E in HQ.
    replace (set_k_msg_pool s (k_msg_pool s)) with s in HQ by (by destruct s).
    apply HQ. split; [apply I..|done|apply I].
  - wp_go. specialize (HQ pg (k_mem s) l).
    replace (set_k_mem (set_k_msg_pool s l) (k_mem s)) with (set_k_msg_pool s l) in HQ by (by destruct s).
    apply HQ. split; apply I.
Qed.

Definition anycond : cond := fun _ _ _ _ _ _ => True.

Lemma port_create_spec s r nm : at_rest s -> wp (port_create r nm) rest s.
Proof.
  intros [I Hr]. destruct (kv_x _ _ _ I) as [Ht Hp]. unfold port_create, kmalloc. wp_go. simpl.
  destruct (sc_cur _ _ _ _ (kv_sched _ _ _ I)) as [tk Htk].
  destruct (kinv_task_res _ _ _ _ I Htk) as (x & Hx & _).
  pose proof (kinv_res_owner _ _ _ _ I Hx) as Ho.
  set (p := k_brk s). set (q := p + 64). set (pt := Port 0 0 [] 1 0 r q).
  assert (k_res s !! p = None) as Hfp by (eapply fresh_res; [done|subst p; lia]).
  assert (k_res s !! q = None) as Hfq by (eapply fresh_res; [done|subst p q; lia]).
  assert (kinds s !! p = None) as Hkp by (by eapply fresh_kind).
  assert (kinds s !! q = None) as Hkq by (eapply fresh_kind; [done|subst p q; lia]).
  pose proof (kinv_brk_pos _ _ I) as Hbrk. unfold current_owner. wp_go.
  eapply rsrc_bind_spec; [exact Ht|exact Hfp|done|exact Ho|]. intros id rmap rfree TM Ht1 HTM. wp_step.
  pose proof (kinv_new (X' := anycond) 0 s p id RSRC_PORT (r_owner x) rmap rfree TM (q + 64)
    (k_sem s) (<[p := pt]> (k_port s)) I Hkp ltac:(subst p q; lia) ltac:(subst p q; lia) ltac:(done) Ho HTM Logic.I) as I1.
  set (s1 := bind_st _ _ _ _ _ _ _ _) in I1.
  assert (r_owner x = 0 \/ is_Some (k_team s1 !! r_owner x)) as Ho1.
  { destruct Ho as [|Ho]; [by left|right]. apply elem_of_dom. simpl. rewrite HTM. by apply elem_of_dom. }
  assert (kinds s1 = <[p := (id, RSRC_PORT, r_owner x)]> (kinds s)) as HK1
    by (unfold kinds; simpl; by rewrite fmap_insert).
  assert (kinds s1 !! q = None) as Hk1 by (rewrite HK1, lookup_insert_ne by (subst p q; lia); done).
  eapply (rsrc_bind_spec s1 q RSRC_QUEUE); [by rewrite HK1| |done|done|].
  { simpl. rewrite lookup_insert_ne by (subst p q; lia). exact Hfq. }
  intros idq rmap2 rfree2 TM2 Ht2 HTM2.
  pose proof (kinv_new (X' := anycond) 0 s1 q idq RSRC_QUEUE (r_owner x) rmap2 rfree2 TM2 (q + 64)
    (k_sem s1) (k_port s1) I1 Hk1 ltac:(subst p q; lia) ltac:(done) ltac:(done) Ho1 HTM2 Logic.I) as I2.
  assert (kinv 0 (bind_st s1 q idq RSRC_QUEUE (r_owner x) rmap2 rfree2 TM2)) as I3.
  { eapply kinv_cond; [exact I2|]. unfold kinds; simpl. rewrite !fmap_insert.
    unfold kinds in Ht2; simpl in Ht2. rewrite !fmap_insert in Ht2. split; [exact Ht2|].
    eapply ports_new_port; [exact Hp|done|done|subst p q; lia| |done|done|done].
    intros Hin. destruct (ob_glob _ _ _ _ _ (kv_objs _ _ _ I) _ Hin) as (i & o & Hk).
    congruence. }
  wp_step. eapply rsrc_set_name_spec; [exact I3| |].
  { simpl. rewrite lookup_insert_ne by (subst p q; lia). apply lookup_insert_eq. }
  intros x1 Hx1 s4 I4. wp_step. eapply rsrc_set_name_spec; [exact I4| |].
  { simpl. rewrite lookup_insert_ne by (subst p q; lia). apply lookup_insert_eq. }
  intros x2 Hx2 s5 I5. wp_step. eapply wp_get_res.
  { simpl. rewrite lookup_insert_ne by (subst p q; lia). apply lookup_insert_eq. }
  wp_go. split; [exact I5|exact Hr].
Qed.

(** After rsrc_release the object is still there, with type RSRC_NONE. *)
Lemma release_kinds s r x rmap : k_res s !! r = Some (r_set_queue x []) ->
  kinds (release_st s r x rmap) = <[r := (0, RSRC_NONE, r_owner x)]> (kinds s).
Proof. intros Hx. unfold kinds, release_st; simpl. by rewrite fmap_insert. Qed.

(** A released object other than a task, a team or a global queue keeps the
  invariant up to its own entry. *)
Lemma release_inv {X} s r x rmap :
  kinvX X 0 s -> k_res s !! r = Some (r_set_queue x []) ->
  r_type x <> RSRC_TASK -> r_type x <> RSRC_TEAM ->
  r ∉ [g_run_queue (k_glob s); g_timer_queue (k_glob s); g_reaper_queue (k_glob s)] ->
  kinvX anycond 0 (release_st s r x rmap).
Proof.
  intros I Hx Hty Hty' Hr. destruct (kv_objs _ _ _ I) as [O1 O2 O3 O6 O4 O5].
  pose proof (kinds_of _ _ _ Hx) as Hk. simpl in Hk.
  split; [done| |apply qwf_res; [apply I|intros y Hy; simpl in Hy; by simplify_eq|done]|apply I..].
  rewrite release_kinds by done. simpl. split.
  - intros q k Hq. destruct (decide (q = r)) as [->|]; [by eapply O1|].
    rewrite lookup_insert_ne in Hq by done. by eapply O1.
  - intros t. rewrite O2. destruct (decide (t = r)) as [->|]; [|by rewrite lookup_insert_ne].
    rewrite lookup_insert_eq. split; intros (i & o & E); congruence.
  - intros q i ty o Hq. destruct (decide (q = r)) as [->|].
    + rewrite lookup_insert_eq in Hq. simplify_eq. by eapply O3.
    + rewrite lookup_insert_ne in Hq by done. by eapply O3.
  - intros q Hq. destruct (O6 q Hq) as (i & o & E). exists i, o. rewrite lookup_insert_ne; [done|]. congruence.
  - intros q Hq. destruct (O4 q Hq) as (i & o & E). exists i, o. rewrite lookup_insert_ne; [done|]. congruence.
  - done.
Qed.

Lemma port_destroy_spec s id : at_rest s -> wp (port_destroy id) rest s.
Proof.
  intros [I Hr]. destruct (kv_x _ _ _ I) as [Ht Hp]. unfold port_destroy. wp_step.
  eapply find_spec; [done|done|wp_go; by rewrite decide_True|]. intros p x Hx Hty Hp0 Hk.
  rewrite decide_False by done. destruct (port_of _ _ _ I Hx Hty) as [pt Hpt]. wp_go.
  case_decide; wp_go; [|by split].
  destruct (not_global_run _ _ _ _ I Hx) as [Hrq _]; [congruence|].
  assert (p <> null_resource) as Hnull by (eapply null_ne; [done|done|done|congruence]).
  destruct (sendq_of _ _ _ I Hpt) as (y & Hy & Hyt & Hqr & _).
  assert (p <> p_sendqueue pt) as Hpq by congruence. set (q := p_sendqueue pt) in *.
  assert (q <> null_resource) as Hqn by (eapply null_ne; [done|done|done|congruence]).
  eapply rsrc_release_spec; [done|done|done|congruence|done|done|].
  intros R T TM l rmap s1 I1 HK1 HR1 HO1 HT1 Ht1.
  assert (kinvX anycond 0 (release_st s1 p x rmap)) as I2.
  { eapply release_inv; [done|done|congruence|congruence|]. eapply (not_global _ s); [done|done|congruence]. }
  assert (running (release_st s1 p x rmap)) as Hr2.
  { eapply running_tasks; [exact Hr|done|]. apply HT1. by eapply running_detached. }
  assert (k_res (release_st s1 p x rmap) !! q = Some y) as Hy'.
  { simpl. rewrite lookup_insert_ne by done. by rewrite HO1. }
  wp_step. eapply (rsrc_release_spec (release_st s1 p x rmap) q y); [exact I2| |exact Hy'|congruence|done|done|].
  { rewrite release_kinds, HK1 by done. exact Ht1. }
  intros R3 T3 TM3 l3 rmap3 s3 I3 HK3 HR3 HO3 HT3 Ht3. unfold kfree_res. wp_go. unfold rest.
  rewrite release_kinds, HK1 in HK3, Ht3 by done. split.
  - simpl. rewrite delete_insert_eq.
    assert (R3 !! p = Some (r_set_id (r_set_type (r_set_queue x []) RSRC_NONE) 0)) as Hp3.
    { rewrite HO3 by done. simpl. apply lookup_insert_eq. }
    assert (q ∉ [g_run_queue (k_glob s); g_timer_queue (k_glob s); g_reaper_queue (k_glob s)]) as Hqg
      by (apply (po_sendq _ _ _ _ Hp _ _ Hpt)).
    pose proof (kinv_free (X' := anycond) 0 s3 q _ rmap3 (r_id y) (k_sem s3) (delete p (k_port s3)) I3 HR3
      ltac:(done) ltac:(simpl; congruence) ltac:(simpl; congruence) Hqg Logic.I) as I4.
    eapply (kinv_free (X' := full) 0 _ p _ rmap3 (r_id y) (k_sem s3) (delete p (k_port s3)) I4);
      [simpl; rewrite lookup_delete_ne by done; exact Hp3|done|done|done|eapply (not_global _ s); [done|done|congruence]|].
    unfold kinds; simpl. rewrite fmap_delete. change (kind <$> R3) with (kinds s3). rewrite HK3.
    rewrite delete_insert_ne, delete_insert_eq by done. split.
    + rewrite <- (delete_insert_eq (delete q (kinds s)) p (0, RSRC_NONE, r_owner x)).
      rewrite <- delete_insert_ne by done.
      rewrite <- (delete_insert_eq (<[p := _]> (kinds s)) q (0, RSRC_NONE, r_owner y)).
      eapply table_delete; [eapply table_delete; [exact Ht3|apply lookup_insert_eq|done]| |done].
      rewrite lookup_delete_ne, lookup_insert_ne by done. apply lookup_insert_eq.
    + by eapply ports_del_port.
  - eapply running_tasks; [exact Hr2|done|]. simpl. apply HT3. by eapply running_detached.
Qed.

(** A port update that keeps the messages and the queue of senders. *)
Lemma put_port_same s p pt pt' : at_rest s -> k_port s !! p = Some pt ->
  p_sendqueue pt' = p_sendqueue pt -> p_msgcount pt' = p_msgcount pt -> p_msgs pt' = p_msgs pt ->
  at_rest (set_k_port s (<[p := pt']> (k_port s))).
Proof.
  intros [I Hr] Hpt Hs Hc Hm. split; [|exact Hr]. destruct (kv_x _ _ _ I) as [Ht Hp].
  eapply put_port_inv; [exact I|]. split; [done|].
  destruct (po_msgs _ _ _ _ Hp _ _ Hpt) as [? ?]. eapply ports_put; [done|done|done|congruence|congruence].
Qed.

Lemma port_found s p x : at_rest s -> k_res s !! p = Some x -> r_type x = RSRC_PORT ->
  exists pt, k_port s !! p = Some pt.
Proof. intros [I _]. by apply port_of. Qed.

(** The refcount of the new master: after it, [p] is still a port. *)
Lemma port_option_slave_spec s p pt arg : at_rest s -> k_port s !! p = Some pt ->
  wp (port_option_slave p arg) rest s.
Proof.
  intros HR Hpt. unfold port_option_slave. wp_step. eapply current_owner_spec; [apply HR|]. intros o _.
  wp_step. eapply (wp_mono _ (fun ok s' => at_rest s' /\ is_Some (k_port s' !! p))).
  { case_decide; [wp_go; split; [done|eauto]|]. wp_step.
    eapply find_spec; [apply HR|done|wp_go; rewrite decide_True by done; wp_go; eauto|].
    intros m x Hx Hty Hm0 Hk. rewrite decide_False by done. wp_go. case_decide; [wp_go; eauto|].
    destruct (port_found _ _ _ HR Hx Hty) as [mt Hmt]. wp_go. split; [by eapply put_port_same|].
    simpl. destruct (decide (p = m)) as [->|]; [rewrite lookup_insert_eq; eauto|].
    rewrite lookup_insert_ne by done. eauto. }
  clear s pt HR Hpt. intros ok s (HR & pt & Hpt). case_decide; [by wp_go|]. wp_go.
  eapply (wp_mono _ (fun _ s' => at_rest s' /\ is_Some (k_port s' !! p))).
  { case_decide; [wp_go; eauto|]. wp_step.
    eapply find_spec; [apply HR|done|wp_go; rewrite decide_True by done; wp_go|].
    intros m x Hx Hty Hm0 Hk. rewrite decide_False by done.
    destruct (port_found _ _ _ HR Hx Hty) as [mt Hmt]. wp_go. split; [by eapply put_port_same|].
    simpl. destruct (decide (p = m)) as [->|]; [rewrite lookup_insert_eq; eauto|].
    rewrite lookup_insert_ne by done. eauto. }
  clear pt Hpt s HR. intros _ s (HR & pt & Hpt). wp_go. by eapply put_port_same.
Qed.

Lemma port_option_spec s port opt arg : at_rest s -> wp (port_option port opt arg) rest s.
Proof.
  intros HR. unfold port_option. wp_step.
  eapply find_spec; [apply HR|done|wp_go; by rewrite decide_True|]. intros p x Hx Hty Hp0 Hk.
  rewrite decide_False by done. destruct (port_found _ _ _ HR Hx Hty) as [pt Hpt]. wp_go.
  eapply current_owner_spec; [apply HR|]. intros o _. case_decide; [by wp_go|].
  case_decide; [wp_go; by eapply put_port_same|].
  case_decide; [by eapply port_option_slave_spec|].
  case_decide; wp_go; [by eapply put_port_same|done].
Qed.

(** ** Sending and receiving *)

Lemma put_msgs_inv s p pt n l : kinv 0 s -> k_port s !! p = Some pt ->
  n = Z.of_nat (length l) -> n <= MAX_MSGCOUNT ->
  kinv 0 (set_k_port s (<[p := p_set_msgs pt n l]> (k_port s))).
Proof.
  intros I Hpt Hn Hb. destruct (kv_x _ _ _ I) as [Ht Hp]. eapply put_port_inv; [exact I|].
  split; [done|]. by eapply ports_put.
Qed.

(** The buffers of port_send and port_recv: what they would access is user memory. *)
Definition send_buffer (msg size : Z) : Prop := 0x400000 < u32 msg \/ 4096 < u32 size \/ user_addr msg size.
Definition recv_buffers (src msg size code : Z) : Prop :=
  user_addr msg size /\ (src = 0 \/ user_addr src 4) /\ (code = 0 \/ user_addr code 4).

(** [n] bytes of the memory of team [tm]. *)
Definition bytes_at (um : gmap (Z * Z) Z) (tm addr n : Z) : list Z :=
  map (fun i => default 0 (um !! (tm, addr + Z.of_nat i))) (seq 0 (Z.to_nat n)).

(** From [s] to [s'], [m] was appended to the messages of [p]. *)
Definition posted (s s' : kst) (p : Z) (m : message) : Prop :=
  exists pt, k_port s !! p = Some pt /\ k_umem s' = k_umem s /\
    k_port s' = <[p := p_set_msgs pt (p_msgcount pt + 1) (p_msgs pt ++ [m])]> (k_port s).

Lemma port_send_post_spec s src dst msg size code p pt :
  at_rest s -> k_port s !! p = Some pt -> p_msgcount pt < MAX_MSGCOUNT -> send_buffer msg size ->
  wp (port_send_post src dst msg size code p) (fun r s' => at_rest s' /\
    if decide (0x400000 < u32 msg \/ 4096 < u32 size) then r = ERR_MEMORY /\ s' = s
    else r = size /\ exists pg, posted s s' p (Msg size code src dst pg (bytes_at (k_umem s) (cur_team s) msg size))) s.
Proof.
  intros [I Hr] Hpt Hc Hbuf. unfold port_send_post. case_decide; [by wp_go|].
  assert (user_addr msg size) as Hu by (destruct Hbuf as [?|[?|?]]; tauto). wp_step.
  eapply (wp_mono _ (fun _ s' => at_rest s' /\ k_port s' = k_port s /\ k_umem s' = k_umem s /\ cur_team s' = cur_team s)).
  { case_decide; [by wp_go|]. eapply msg_page_spec; [exact I|]. intros pg m l I'. split; [|done].
    split; [exact I'|exact Hr]. }
  intros pg s1 ([I1 Hr1] & Ep & Eu & Et). rewrite <- Ep in Hpt. wp_step.
  eapply current_team_spec; [exact I1|]. unfold umem_read. rewrite (decide_True _ _ Hu). wp_go.
  destruct (kv_x _ _ _ I1) as [_ Hp]. destruct (po_msgs _ _ _ _ Hp _ _ Hpt) as [Hm _].
  rewrite s32_small by (unfold MAX_MSGCOUNT in *; lia). set (l := p_msgs pt ++ _).
  assert (kinv 0 (set_k_port s1 (<[p := p_set_msgs pt (p_msgcount pt + 1) l]> (k_port s1)))) as I2.
  { apply put_msgs_inv; [done|done| |lia]. subst l. rewrite length_app. simpl. lia. }
  assert (posted s (set_k_port s1 (<[p := p_set_msgs pt (p_msgcount pt + 1) l]> (k_port s1))) p
    (Msg size code src dst pg (bytes_at (k_umem s) (cur_team s) msg size))) as Hpost.
  { exists pt. rewrite <- Ep, <- Eu, <- Et. done. }
  eapply (wp_mono _ (fun _ s' => at_rest s' /\ exists pg, posted s s' p
    (Msg size code src dst pg (bytes_at (k_umem s) (cur_team s) msg size)))); [|intros a s' [? ?]; by wp_go].
  case_decide.
  - destruct (res_of _ _ _ I1 Hpt) as (x & Hx & _).
    eapply wake_one_spec; [exact I2|exact Hr1|exact Hx|]. intros R T s' I' Hr' _. split; [by split|by exists pg].
  - wp_step. eapply find_spec; [exact I2|done|wp_go; rewrite decide_True by done; wp_go; split; [by split|by exists pg]|].
    intros q y Hy Hyt Hq0 _. rewrite decide_False by done.
    eapply wake_one_spec; [exact I2|exact Hr1|exact Hy|]. intros R T s' I' Hr' _. split; [by split|by exists pg].
Qed.

Lemma port_send_loop_spec s src dst msg size code p pt :
  user s -> k_port s !! p = Some pt -> send_buffer msg size -> wp (port_send_loop src dst msg size code p) rest s.
Proof.
  intros [[I Hr] Hi] Hpt Hb. unfold port_send_loop. wp_go. case_decide.
  - case_decide; [wp_go; by split|]. wp_step. destruct (sendq_of _ _ _ I Hpt) as (y & Hy & _ & _ & Hne).
    eapply wait_on_spec; [exact I|exact Hr|done|exact Hy|done|]. intros. wp_go. by split.
  - wp_step. eapply wp_mono; [eapply port_send_post_spec; [by split|done|lia|done]|]. intros r s' [? _]. by wp_go.
Qed.

Lemma port_send_spec s src dst msg size code : user s -> send_buffer msg size -> wp (port_send src dst msg size code) rest s.
Proof.
  intros HU Hb. pose proof HU as [HR Hi]. unfold port_send. wp_step.
  eapply find_spec; [apply HR|done|wp_go; by rewrite decide_True|]. intros f fx _ _ Hf0 _.
  rewrite decide_False by done. wp_step.
  eapply find_spec; [apply HR|done|wp_go; by rewrite decide_True|]. intros p x Hx Hty Hp0 _.
  rewrite decide_False by done. destruct (port_found _ _ _ HR Hx Hty) as [pt Hpt]. wp_go. case_decide.
  - by eapply port_send_loop_spec.
  - wp_step. eapply find_spec; [apply HR|done|wp_go; by rewrite decide_True|]. intros q y Hy Hyt Hq0 _.
    rewrite decide_False by done. destruct (port_found _ _ _ HR Hy Hyt) as [qt Hqt]. wp_go.
    case_decide; [by wp_go|]. by eapply port_send_loop_spec.
Qed.

Lemma umem_write_spec {X} e s tm a l (Q : unit -> kst -> Prop) :
  kinvX X e s -> user_addr a (Z.of_nat (length l)) -> (let s' := set_k_umem s (umem_put (k_umem s) tm a l) in kinvX X e s' -> Q tt s') ->
  wp (umem_write tm a l) Q s.
Proof. intros I Ha HQ. unfold umem_write. rewrite (decide_True _ _ Ha). wp_go. apply HQ. split; apply I. Qed.

(** The message has left the queue but is still counted. *)
Definition port_recv_finish (p n : Z) (m : message) (pt : port) : M Z :=
  q <- get_res (p_sendqueue pt) ;;
  (if decide (r_queue q <> [] /\ p_msgcount pt <= MAX_MSGCOUNT)
   then wake_one (p_sendqueue pt) else ret tt) ;;
  pt <- get_port p ;;
  put_port p (p_set_msgs pt (s32 (p_msgcount pt - 1)) (p_msgs pt)) ;;
  (if decide (m_size m < 256) then ret tt
   else modify (fun s => set_k_msg_pool s (m_page m :: k_msg_pool s))) ;;
  ret n.

(** From [s] to [s'], the first message left the queue of [p]. *)
Definition taken (s s' : kst) (p : Z) (l : list message) : Prop :=
  exists pt, k_port s !! p = Some pt /\ k_port s' = <[p := p_set_msgs pt (p_msgcount pt - 1) l]> (k_port s).

Lemma port_recv_finish_spec s p n m pt l :
  at_rest s -> k_port s !! p = Some pt -> p_msgs pt = m :: l ->
  wp (port_recv_finish p n m pt) (fun r s' => at_rest s' /\ r = n /\ taken s s' p l /\ k_umem s' = k_umem s)
    (set_k_port s (<[p := p_set_msgs pt (p_msgcount pt) l]> (k_port s))).
Proof.
  intros [I Hr] Hpt Hm. destruct (kv_x _ _ _ I) as [Ht Hp].
  destruct (po_msgs _ _ _ _ Hp _ _ Hpt) as [Hc Hb]. rewrite Hm in Hc. simpl in Hc.
  set (pt1 := p_set_msgs pt (p_msgcount pt) l). set (s1 := set_k_port s _).
  set (X := (fun rmap rfree K S P g => P = <[p := pt1]> (k_port s) /\ table_ok rmap rfree K /\
    ports_ok K S (k_port s) g) : cond).
  assert (kinvX X 0 s1) as I1 by (eapply put_port_inv; [exact I|]; split; [done|split; done]).
  destruct (sendq_of _ _ _ I Hpt) as (y & Hy & _). unfold port_recv_finish. wp_go.
  eapply (wp_mono _ (fun _ s' => kinvX X 0 s' /\ running s' /\ k_umem s' = k_umem s)).
  { case_decide; [|wp_go; by split]. eapply wake_one_spec; [exact I1|exact Hr|exact Hy|].
    intros R T s' I' Hr' _. by split. }
  intros _ s2 (I2 & Hr2 & Eu). destruct (kv_x _ _ _ I2) as (EP & Ht2 & Hp2).
  wp_step. eapply wp_get_port; [rewrite EP; apply lookup_insert_eq|]. wp_go.
  assert (k_port s2 = <[p := pt1]> (k_port s) -> <[p := p_set_msgs pt1 (s32 (p_msgcount pt1 - 1)) (p_msgs pt1)]> (k_port s2) =
    <[p := p_set_msgs pt (p_msgcount pt - 1) l]> (k_port s)) as EP2.
  { intros ->. rewrite insert_insert_eq. simpl. rewrite s32_small by (unfold MAX_MSGCOUNT in *; lia). done. }
  rewrite (EP2 EP).
  assert (kinv 0 (set_k_port s2 (<[p := p_set_msgs pt (p_msgcount pt - 1) l]> (k_port s)))) as I3.
  { eapply put_port_inv; [exact I2|]. split; [done|]. eapply ports_put; [exact Hp2|done|done| |]; simpl; lia. }
  case_decide; wp_go.
  - split_and!; [by split|done|by exists pt|done].
  - split_and!; [|done|by exists pt|done]. split; [|exact Hr2]. split; apply I3.
Qed.

(** What port_recv writes to the memory of the receiver. *)
Definition recv_umem (um : gmap (Z * Z) Z) (tm src msg size code : Z) (m : message) : gmap (Z * Z) Z :=
  let um := umem_put um tm msg (take (Z.to_nat (Z.min (m_size m) size)) (m_data m)) in
  let um := if decide (src = 0) then um else umem_put um tm src (le32 (m_from_port m)) in
  if decide (code = 0) then um else umem_put um tm code (le32 (m_code m)).

Lemma port_recv_take_spec s dst src msg size code p pt :
  at_rest s -> k_port s !! p = Some pt -> p_msgcount pt <> 0 -> recv_buffers src msg size code ->
  wp (port_recv_take dst src msg size code p) (fun r s' => at_rest s' /\ exists m l,
    p_msgs pt = m :: l /\ r = Z.min (m_size m) size /\ taken s s' p l /\
    k_umem s' = recv_umem (k_umem s) (cur_team s) src msg size code m) s.
Proof.
  intros [I Hr] Hpt Hc0 (Hb1 & Hb2 & Hb3). unfold port_recv_take. wp_go. destruct (kv_x _ _ _ I) as [Ht Hp].
  destruct (po_msgs _ _ _ _ Hp _ _ Hpt) as [Hc _].
  destruct (p_msgs pt) as [|m l] eqn:Hm; [simpl in Hc; lia|]. wp_step.
  eapply current_team_spec; [exact I|]. wp_step.
  eapply umem_write_spec; [exact I| |].
  { rewrite length_take. unfold user_addr in *. lia. }
  intros s1 I1. wp_step.
  eapply (wp_mono _ (fun _ s' => exists um, s' = set_k_umem s um /\ kinv 0 s' /\
    um = if decide (src = 0) then k_umem s1 else umem_put (k_umem s1) (cur_team s) src (le32 (m_from_port m)))).
  { case_decide; [wp_go; by eexists|]. eapply umem_write_spec; [exact I1|by destruct Hb2|]. intros s2 I2. by eexists. }
  intros _ s2 (um & -> & I2 & Eum). wp_step.
  eapply (wp_mono _ (fun _ s' => exists um', s' = set_k_umem s um' /\ kinv 0 s' /\
    um' = recv_umem (k_umem s) (cur_team s) src msg size code m)).
  { unfold recv_umem. destruct (decide (code = 0)); [wp_go; exists um; split_and!; [done|exact I2|exact Eum]|].
    eapply umem_write_spec; [exact I2|by destruct Hb3|]. intros s3 I3. eexists. split; [done|]. split; [exact I3|]. simpl. by rewrite Eum. }
  intros _ s3 (um' & -> & I3 & Eum'). wp_step. apply wp_modify.
  eapply wp_mono; [apply (port_recv_finish_spec (set_k_umem s um') p (Z.min (m_size m) size) m pt l); [by split|done|done]|].
  intros r s4 (HR & -> & Htk & Eu). split; [done|]. exists m, l. split_and!; [done|done|done|]. rewrite Eu. exact Eum'.
Qed.

Lemma port_recv_loop_spec s dst src msg size code p pt :
  user s -> k_port s !! p = Some pt -> recv_buffers src msg size code -> wp (port_recv_loop dst src msg size code p) rest s.
Proof.
  intros [[I Hr] Hi] Hpt Hb. unfold port_recv_loop. wp_go. case_decide.
  - case_decide; [wp_go; by split|]. wp_step. destruct (res_of _ _ _ I Hpt) as (x & Hx & Hty).
    eapply wait_on_spec; [exact I|exact Hr|done|exact Hx| |].
    + eapply not_global_run; [done|done|congruence].
    + intros. wp_go. by split.
  - wp_step. eapply wp_mono; [eapply port_recv_take_spec; [by split|done|done|done]|]. intros r s' [? _]. by wp_go.
Qed.

Lemma port_recv_spec s dst src msg size code : user s -> recv_buffers src msg size code -> wp (port_recv dst src msg size code) rest s.
Proof.
  intros HU Hb. pose proof HU as [HR Hi]. unfold port_recv. wp_step.
  eapply find_spec; [apply HR|done|wp_go; by rewrite decide_True|]. intros p x Hx Hty Hp0 _.
  rewrite decide_False by done. wp_step. eapply current_team_spec; [apply HR|]. wp_go.
  case_decide; [by wp_go|]. destruct (port_found _ _ _ HR Hx Hty) as [pt Hpt]. by eapply port_recv_loop_spec.
Qed.

(** ** Interrupts and timers *)

Lemma kinv_masked {X} e s m : kinvX X e s -> length m = 16%nat -> kinvX X e (set_k_masked s m).
Proof. intros I Hm. split; try apply I. split; [apply I|done]. Qed.

Lemma mask_irq_spec {X} e s (b : bool) n (Q : unit -> kst -> Prop) :
  kinvX X e s -> 0 <= n < 16 ->
  (forall m, kinvX X e (set_k_masked s m) -> Q tt (set_k_masked s m)) ->
  wp (if b then mask_irq n else unmask_irq n) Q s.
Proof.
  intros I Hn HQ. destruct (kv_irqs _ _ _ I) as [_ Hl].
  destruct b; unfold mask_irq, unmask_irq; wp_go;
    (eapply wp_deref; [apply aset_in_range; lia|]); wp_go; apply HQ, kinv_masked; [done|..];
    rewrite ?length_insert; done.
Qed.

(** The interrupt [n] is one that a task has asked for which no longer exists. *)
Definition orphan_irq (s : kst) (n : Z) : Prop :=
  exists t, aget (k_irq_map s) n = Some t /\ t <> 0 /\ k_task s !! t = None.

Lemma irq_dispatch_spec s n : at_rest s -> 0 <= n < 16 -> ~ orphan_irq s n -> wp (irq_dispatch n) rest s.
Proof.
  intros [I Hr] Hn Ho. unfold irq_dispatch. wp_step. eapply (mask_irq_spec 0 s true); [exact I|done|].
  intros m I1. wp_go. simpl. destruct (kv_irqs _ _ _ I) as [Hl _].
  destruct (aget_in_range (k_irq_map s) n) as [t Hirq]; [lia|]. wp_go.
  case_decide; [wp_go; by split|].
  destruct (k_task s !! t) as [tk|] eqn:Ht; [|destruct Ho; by exists t]. wp_go.
  case_decide as Hf; [|wp_go; by split].
  assert (t_waiting_on tk = 0) as Hw.
  { destruct (decide (t_waiting_on tk = 0)) as [|Hne]; [done|].
    destruct (q_back _ _ _ (kv_q _ _ _ I) _ _ Ht Hne) as (x & Hx & Hin).
    destruct (q_in _ _ _ (kv_q _ _ _ I) _ _ _ Hx Hin) as (tk' & Ht' & _ & Hf'). simplify_eq.
    rewrite Hf in Hf'. unfold queue_flag in Hf'. by case_decide. }
  eapply (preempt_spec 0 _ t tk); [exact I1|exact Hr|exact Ht|done| |done|].
  - intros ->. destruct Hr as (ck & Hck & Hcf & _). simpl in Ht. congruence.
  - intros. by split.
Qed.

Lemma handle_irq_spec s n : at_rest s -> wp (handle_irq n) rest s.
Proof.
  intros [I Hr]. unfold handle_irq. case_decide; [|wp_go; by split].
  destruct (sc_cur _ _ _ _ (kv_sched _ _ _ I)) as [tk Ht]. destruct (kv_irqs _ _ _ I) as [Hl Hm]. wp_go.
  pose proof (kinv_put_cur 0 s tk (t_set_irq tk n) I Ht ltac:(simpl; lia) eq_refl eq_refl) as I1.
  eapply wp_deref; [apply aset_in_range; simpl; lia|]. wp_go. split; [|by eapply running_put_cur].
  split; try apply I1; simpl.
  - by rewrite length_insert.
Qed.

Lemma sleep_irq_spec s : user s -> wp sleep_irq rest s.
Proof.
  intros [[I Hr] Hi]. pose proof Hr as (tk & Ht & Hf & Hw).
  pose proof (sc_irqno _ _ _ _ (kv_sched _ _ _ I) _ _ Ht) as Hirq.
  unfold sleep_irq. wp_go. eapply set_kont_spec; [exact I|]. intros tk0 Ht0 s1 I1. simplify_eq.
  assert (k_task s1 !! k_current s = Some (t_set_kont tk KUser)) as Ht1 by apply lookup_insert_eq.
  wp_step. case_decide.
  - wp_go. eapply swtch_spec; [exact I1| |intros; by split]. left. by eapply running_put_cur.
  - wp_step. eapply wp_get_task; [exact Ht1|]. wp_go.
    assert (kinv 0 (set_k_task s1 (<[k_current s := t_set_flags (t_set_kont tk KUser) tSLEEP_IRQ]> (k_task s1)))) as I2.
    { eapply kinv_put_task; [exact I1|exact Ht1|done|done| | |done].
      - right. split; [done|]. intros E. by destruct (Hi E).
      - by left. }
    eapply (mask_irq_spec 0 _ false); [exact I2|done|]. intros m I3. eapply swtch_spec; [exact I3| |intros; by split].
    right. split; [done|]. simpl. eexists. split; [apply lookup_insert_eq|]. simpl. split; [done|by left].
Qed.

Lemma kinv_timer {X} e s n : kinvX X e s -> kinvX X e (set_k_timer s n).
Proof. intros I. split; apply I. Qed.

(** The sleepers at the head of the timer queue whose time has come are woken. *)
Lemma timer_loop_spec fuel s tq :
  at_rest s -> k_res s !! g_timer_queue (k_glob s) = Some tq -> (length (r_queue tq) < fuel)%nat ->
  wp (timer_loop fuel 0) rest s.
Proof.
  revert s tq. induction fuel as [|fuel IH]; intros s tq [I Hr] Htq Hlen; [lia|].
  simpl. wp_go. unfold rsrc_queue_peek. wp_go. destruct (r_queue tq) as [|t q] eqn:Hq.
  { wp_go. rewrite decide_True by done. wp_go. by split. }
  destruct (q_in _ _ _ (kv_q _ _ _ I) _ _ t Htq) as (tk & Ht & Hw & _).
  { rewrite Hq. apply elem_of_cons. by left. }
  wp_go. rewrite decide_False by (by eapply kinv_task_pos). wp_go. case_decide; [|wp_go; by split].
  wp_step. eapply rsrc_dequeue_spec; [exact I|exact Htq|congruence|].
  intros t' q' tk0 Hq' Ht' Hp Hi Hw' tk' s' I'.
  assert (t' <> k_current s) as Hne.
  { intros ->. destruct (running_detached _ _ _ _ I Hr Htq). rewrite Hq'. apply elem_of_cons. by left. }
  rewrite Hq in Hq'. injection Hq' as <- <-. wp_step. destruct (kinv_distinct _ _ I) as (Hrt & Hrr & _). destruct (kinv_run_queue _ _ I) as (rq & Hrq & _).
  eapply (rsrc_enqueue_spec t s' _ rq t tk'); [exact I'| |apply lookup_insert_eq|done|done|done|done|].
  { simpl. rewrite lookup_insert_ne by done. exact Hrq. }
  simpl. intros I2. eapply IH; [split; [exact I2|]| |].
  - eapply running_tasks; [exact Hr|done|]. simpl. by rewrite !lookup_insert_ne.
  - simpl. rewrite lookup_insert_ne by done. apply lookup_insert_eq.
  - simpl in *. lia.
Qed.

Lemma timer_irq_spec s : at_rest s -> wp (timer_irq 0) rest s.
Proof.
  intros [I Hr]. unfold timer_irq. wp_go. simpl. set (s1 := set_k_timer _ _).
  assert (kinv 0 s1) as I1 by (by apply kinv_timer).
  destruct (kinv_queue _ _ (g_timer_queue (k_glob s)) I) as (tq & Htq & _ & _); [set_solver +|].
  eapply queue_fuel_spec; [exact Htq|]. wp_step.
  eapply wp_mono; [eapply timer_loop_spec; [by split|exact Htq|lia]|]. intros _ s2 [I2 Hr2].
  eapply swtch_spec; [done|by left|intros; by split].
Qed.

(** ** Termination of a thread *)

Lemma wake_the_reaper_spec s (Q : unit -> kst -> Prop) :
  kinv 0 s -> ~ unbound s RSRC_SEM (g_reaper_sem (k_glob s)) ->
  (forall R T S, let s' := upd (set_k_sem s S) R T in kinv 0 s' ->
    (forall t tk, k_task s !! t = Some tk -> t_waiting_on tk = 0 \/ t_waiting_on tk = g_reaper_queue (k_glob s) ->
      T !! t = Some tk) -> Q tt s') ->
  wp wake_the_reaper Q s.
Proof.
  intros I Hsem HQ. unfold wake_the_reaper. wp_go.
  eapply rsrc_find_spec; [done|done|done|]. intros p x Hx Hty Hp0 _.
  destruct (sem_of _ _ _ I Hx Hty) as [c Hc]. wp_go.
  assert (kinv 0 (set_k_sem s (<[p := s32 (c + 1)]> (k_sem s)))) as I1 by (by eapply put_sem_inv).
  destruct (not_global_run _ _ _ _ I Hx) as [_ Hrp]; [congruence|].
  eapply rsrc_dequeue_spec; [exact I1|exact Hx| |].
  - intros _. rewrite decide_True by done. wp_go.
    match goal with |- Q tt ?s1 => replace s1 with (upd s1 (k_res s) (k_task s)) by (by destruct s) end.
    apply HQ; [|done]. by destruct s.
  - intros t q tk Hq Ht Ht0 Hi Hw tk' s' I'. rewrite decide_False by done.
    eapply (task_wake_spec t s' t tk'); [exact I'|apply lookup_insert_eq|done|done|done|done|].
    intros R T s2 I2 _ HT. eapply (HQ R T _ I2). intros t' tk0 Ht' Hor. rewrite HT.
    + simpl. rewrite lookup_insert_ne; [done|]. intros ->. simpl in Ht. simplify_eq.
      destruct Hor; [|done]. rewrite H in Hx. by rewrite (kinv_res0 _ _ I) in Hx.
    + intros ->. simpl in Ht. simplify_eq.
      destruct Hor; [|done]. rewrite H in Hx. by rewrite (kinv_res0 _ _ I) in Hx.
Qed.

Lemma unbound_kinds s s' ty id : kinds s' = kinds s -> unbound s' ty id -> unbound s ty id.
Proof.
  intros HK Hu p x Hx Hty E. pose proof (kinds_of _ _ _ Hx) as Hk. rewrite <- HK in Hk.
  apply kinds_lookup in Hk as (x' & Hx' & Hk). injection Hk as Hid Hty' _.
  apply (Hu p x' Hx'); congruence.
Qed.

Lemma terminate_spec s : user s -> ~ unbound s RSRC_SEM (g_reaper_sem (k_glob s)) -> wp terminate rest s.
Proof.
  intros [[I Hr] Hi] Hsem. pose proof Hr as (tk & Ht & Hf & Hw).
  destruct (kinv_queue _ _ (g_reaper_queue (k_glob s)) I) as (rp & Hrp & Hrpt & Hrp0); [set_solver +|].
  destruct (kinv_task_res _ _ _ _ I Ht) as (cx & Hcx & Hcty).
  assert (k_current s <> g_reaper_queue (k_glob s)) as Hcr by congruence.
  destruct (not_global_run _ _ _ _ I Hcx) as [Hcrun _]; [congruence|].
  unfold terminate, rsrc_enqueue. wp_go. simpl.
  set (dead := t_set_flags _ tDEAD). set (s1 := set_k_task _ _).
  assert (kinv 0 s1) as I1.
  { subst s1. rewrite insert_insert_eq.
    eapply (kinv_enq 0 (set_k_live_tasks s _) _ rp _ tk dead); [split; apply I|done|done|done|done|done|done|done|].
    simpl. unfold queue_flag. by rewrite decide_True. }
  assert (k_task s1 !! k_current s = Some dead) as Hd by apply lookup_insert_eq.
  assert (k_res s1 !! k_current s = Some cx) as Hcx1 by (simpl; by rewrite lookup_insert_ne).
  eapply queue_fuel_spec; [exact Hcx1|]. wp_step.
  eapply (wake_all_spec (k_current s) _ s1 cx); [exact I1|exact Hcx1|done|lia|].
  intros R T s2 I2 HK HR HO HT.
  assert (T !! k_current s = Some dead) as Hd2.
  { rewrite HT; [done|]. intros Hin. destruct (q_in _ _ _ (kv_q _ _ _ I1) _ _ _ Hcx1 Hin) as (k & Hk & Hkw & _).
    rewrite Hd in Hk. injection Hk as <-. simpl in Hkw. congruence. }
  wp_step. eapply wake_the_reaper_spec; [exact I2| |].
  { intros Hu. apply Hsem. eapply (unbound_kinds s s2); [|exact Hu]. change (kinds s2) with (kind <$> R).
    rewrite HK. unfold kinds; simpl. by eapply kinds_insert. }
  intros R3 T3 S3 s3 I3 HT3. eapply swtch_spec; [exact I3| |intros; by split].
  right. split; [exact Hi|]. exists dead. split_and!; [|done|by right].
  apply HT3; [exact Hd2|]. by right.
Qed.

(** ** The other calls *)

Lemma thr_wait_spec s id : user s -> wp (thr_wait id) rest s.
Proof.
  intros [[I Hr] Hi]. unfold thr_wait. wp_step.
  eapply find_spec; [exact I|done|wp_go; by rewrite decide_True|]. intros p x Hx Hty Hp0 _.
  rewrite decide_False by done. wp_step. eapply wait_on_spec; [exact I|exact Hr|done|exact Hx| |].
  - eapply not_global_run; [done|done|congruence].
  - intros. wp_go. by split.
Qed.

(** A resource without an owner has the identifier [id]. *)
Definition ownerless (s : kst) (id : Z) : Prop :=
  exists p x, k_res s !! p = Some x /\ r_type x <> RSRC_NONE /\ r_id x = u32 id /\ r_owner x = 0.

Lemma rsrc_identify_spec s id : at_rest s -> ~ ownerless s id -> wp (rsrc_identify id) rest s.
Proof.
  intros [I Hr] Hno. destruct (kv_x _ _ _ I) as [[_ Hentry _ [on Hnull]] _]. unfold rsrc_identify. wp_go.
  case_decide; [wp_go; by split|].
  destruct (aget_in_range (k_rmap s) (u32 id)) as [[p n] He]; [pose proof (u32_range id); lia|]. wp_go. simpl.
  destruct (Hentry _ _ _ He) as [->|(ty & o & Hk & Hty)].
  - apply kinds_lookup in Hnull as (x & Hx & Hk). injection Hk as _ Ht _. wp_go.
    rewrite decide_True by done. wp_go. by split.
  - apply kinds_lookup in Hk as (x & Hx & Hk). injection Hk as Hid Ht Ho. wp_go.
    rewrite decide_False by congruence. wp_step.
    destruct (kinv_res_owner _ _ _ _ I Hx) as [E|[tm Htm]].
    { destruct Hno. exists p, x. split_and!; [done|congruence|done|done]. }
    destruct (ob_team _ _ _ _ _ (kv_objs _ _ _ I) (r_owner x)) as (i & o' & Hk); [apply elem_of_dom; eauto|].
    apply kinds_lookup in Hk as (y & Hy & _). wp_go. by split.
Qed.

(** The running task is inside a port_send or port_recv with pointers that are not its own. *)
Definition stray_kont (s : kst) : Prop :=
  exists tk, k_task s !! k_current s = Some tk /\
  match t_kont tk with
  | KPortSend _ _ msg size _ _ => ~ send_buffer msg size
  | KPortRecv _ src msg size code _ => ~ recv_buffers src msg size code
  | _ => False
  end.

#[export] Instance send_buffer_dec msg size : Decision (send_buffer msg size).
Proof. unfold send_buffer. apply _. Defined.
#[export] Instance recv_buffers_dec src msg size code : Decision (recv_buffers src msg size code).
Proof. unfold recv_buffers. apply _. Defined.

(** The port that a suspended port_send or port_recv will look at was destroyed. *)
Definition dangling (s : kst) : Prop :=
  exists tk, k_task s !! k_current s = Some tk /\ t_status tk = 0 /\
  match t_kont tk with
  | KPortSend _ _ _ _ _ p | KPortRecv _ _ _ _ _ p => k_port s !! p = None
  | _ => False
  end.

Lemma resume_spec s : user s -> ~ dangling s -> ~ stray_kont s -> wp resume rest s.
Proof.
  intros [[I Hr] Hi] Hd Hs. destruct (sc_cur _ _ _ _ (kv_sched _ _ _ I)) as [tk Ht].
  unfold resume. wp_go. eapply set_kont_spec; [exact I|]. intros tk0 Ht0 s1 I1. simplify_eq.
  assert (user s1) as HU1 by (split; [split; [exact I1|by eapply running_put_cur]|exact Hi]).
  assert (at_rest s1) as HR1 by apply HU1.
  destruct (t_kont tk) as [|r| | |src dst msg size code p|dst src msg size code p] eqn:Hk; try by wp_go.
  - case_decide as Hst; [|by wp_go]. destruct (k_port s !! p) as [pt|] eqn:Hpt.
    + eapply port_send_loop_spec; [done|done|]. apply dec_stable. intros Hb. apply Hs. exists tk. by rewrite Hk.
    + destruct Hd. exists tk. by rewrite Hk.
  - case_decide as Hst; [|by wp_go]. destruct (k_port s !! p) as [pt|] eqn:Hpt.
    + eapply port_recv_loop_spec; [done|done|]. apply dec_stable. intros Hb. apply Hs. exists tk. by rewrite Hk.
    + destruct Hd. exists tk. by rewrite Hk.
Qed.

Lemma p_name_spec s esp n (Q : option (list Z) -> kst -> Prop) :
  at_rest s -> (p_uint32 esp n = 0 \/ user_addr (p_uint32 esp n) 31) -> (forall nm, Q nm s) -> wp (p_name esp n) Q s.
Proof.
  intros HR Hp HQ. unfold p_name. wp_go. eapply current_team_spec; [apply HR|].
  case_decide; [wp_go; apply HQ|]. cbv zeta. rewrite decide_True; [wp_go; apply HQ|].
  destruct Hp as [?|Hp]; [done|]. unfold user_addr in *. lia.
Qed.

End KSafe.
