(* ===== verification/KCheck.v ===== *)
(** A decision procedure for the kernel invariant, which shows that the example
  system satisfies it after kmain. *)
From S2P Require Import Prelude KList KMem KState Rsrc Sched Sem Port KInv Boot.
Import KState KInv Boot.
Local Open Scope Z_scope.

Module KCheck.

(** [P] of the value of an option that is present. *)
Definition on_some {A} (o : option A) (P : A -> Prop) : Prop :=
  match o with Some a => P a | None => False end.
#[export] Instance on_some_dec {A} (o : option A) (P : A -> Prop) `{forall a, Decision (P a)} :
  Decision (on_some o P).
Proof. destruct o; simpl; apply _. Defined.

Lemma on_some_spec {A} (o : option A) P : on_some o P <-> exists a, o = Some a /\ P a.
Proof. destruct o; simpl; naive_solver. Qed.

(** A fast test that a list has no duplicates. *)
Fixpoint nodup (seen : gset Z) (l : list Z) : bool :=
  match l with
  | [] => true
  | x :: l => if decide (x ∈ seen) then false else nodup ({[x]} ∪ seen) l
  end.

Lemma nodup_NoDup l : forall seen, nodup seen l = true -> NoDup l /\ forall x, x ∈ l -> x ∉ seen.
Proof.
  induction l as [|y l IH]; simpl; intros seen H.
  - split; [constructor|]. intros x Hx. by apply not_elem_of_nil in Hx.
  - case_decide; [done|]. destruct (IH _ H) as [Hnd Hn]. split.
    + apply NoDup_cons. split; [|done]. intros Hy. apply (Hn y Hy). set_solver +.
    + intros x [->|Hx]%elem_of_cons; [done|]. specialize (Hn x Hx). set_solver +Hn.
Qed.

(** The table entries reachable from [i]. *)
Fixpoint walk (rmap : list (Z * Z)) (i : Z) (fuel : nat) : option (list Z) :=
  if decide (i = 0) then Some [] else
  match fuel with
  | O => None
  | S fuel =>
      match aget rmap i with
      | Some (p, n) =>
          if decide (p = null_resource) then l ← walk rmap n fuel; Some (i :: l) else None
      | None => None
      end
  end.

Lemma walk_rchain rmap fuel : forall i l, walk rmap i fuel = Some l -> rchain rmap i l.
Proof.
  induction fuel as [|fuel IH]; simpl; intros i l H; case_decide; simplify_eq; [done|done|].
  destruct (aget rmap i) as [[p n]|] eqn:E; [|done]. case_decide; [|done]. subst p.
  destruct (walk rmap n fuel) as [l'|] eqn:E'; simplify_eq/=. split_and!; [done|done|]. eauto.
Qed.

Definition ty_of (k : option (Z * rsrc_type * Z)) : option rsrc_type := (fun x => x.1.2) <$> k.

Lemma ty_of_Some (K : kmap) p ty : ty_of (K !! p) = Some ty <-> exists id o, K !! p = Some (id, ty, o).
Proof.
  unfold ty_of. destruct (K !! p) as [[[i t] o]|]; simpl; naive_solver.
Qed.

Section checks.
Context (s : kst).
Let K := kinds s.
Let g := k_glob s.

Definition chk_table : bool :=
  bool_decide (on_some (walk (k_rmap s) (k_rfree s) (length (k_rmap s))) (fun l => nodup ∅ l = true)) &&
  bool_decide (Forall (fun '(i, (p, _)) => p = null_resource \/
    on_some (K !! p) (fun k => k.1.1 = Z.of_nat i /\ k.1.2 <> RSRC_NONE)) (imap pair (k_rmap s))) &&
  bool_decide (map_Forall (fun p k => k.1.2 = RSRC_NONE \/
    k.1.1 <> 0 /\ on_some (aget (k_rmap s) k.1.1) (fun e => e.1 = p)) K) &&
  bool_decide (on_some (K !! null_resource) (fun k => k.1 = (0, RSRC_NONE))).

Lemma chk_table_ok : chk_table = true -> table_ok (k_rmap s) (k_rfree s) (kinds s).
Proof.
  unfold chk_table. rewrite !andb_true_iff, !bool_decide_eq_true. intros [[[H1 H2] H3] H4]. split.
  - apply on_some_spec in H1 as (l & Hl & Hnd). exists l. split; [by eapply walk_rchain|by eapply nodup_NoDup].
  - intros i p n Hi. apply aget_Some in Hi as [Hr Hi]. rewrite Forall_lookup in H2.
    specialize (H2 (Z.to_nat i) (Z.to_nat i, (p, n))). rewrite list_lookup_imap, Hi in H2.
    destruct (H2 eq_refl) as [->|H]; [by left|right]. apply on_some_spec in H as ([[id ty] o] & Hk & Hid & Hty).
    simpl in *. exists ty, o. split; [|done]. rewrite Z2Nat.id in Hid by lia. by subst id.
  - intros p id ty o Hk Hty. destruct (H3 p _ Hk) as [?|[Hid H]]; [done|]. split; [done|].
    apply on_some_spec in H as ([p' n] & He & E). simpl in *. subst p'. eauto.
  - apply on_some_spec in H4 as ([k o] & Hk & E). simpl in *. subst k. eauto.
Qed.

Definition global_queues : list Z := [g_run_queue g; g_timer_queue g; g_reaper_queue g].

Definition chk_ports : bool :=
  bool_decide (map_Forall (fun p k => k.1.2 = RSRC_NONE -> p = null_resource) K) &&
  bool_decide (map_Forall (fun p k => k.1.2 = RSRC_SEM -> is_Some (k_sem s !! p)) K) &&
  bool_decide (map_Forall (fun p _ => ty_of (K !! p) = Some RSRC_SEM) (k_sem s)) &&
  bool_decide (map_Forall (fun p k => k.1.2 = RSRC_PORT -> is_Some (k_port s !! p)) K) &&
  bool_decide (map_Forall (fun p pt => ty_of (K !! p) = Some RSRC_PORT /\
    ty_of (K !! p_sendqueue pt) = Some RSRC_QUEUE /\ p_sendqueue pt ∉ global_queues /\
    map_Forall (fun q qt => p_sendqueue pt = p_sendqueue qt -> p = q) (k_port s) /\
    p_msgcount pt = Z.of_nat (length (p_msgs pt)) /\ p_msgcount pt <= Port.MAX_MSGCOUNT) (k_port s)).

Lemma chk_ports_ok : chk_ports = true -> ports_ok (kinds s) (dom (k_sem s)) (k_port s) (k_glob s).
Proof.
  unfold chk_ports. rewrite !andb_true_iff, !bool_decide_eq_true. intros [[[[H1 H2] H3] H4] H5]. split.
  - intros p id o Hk. by apply (H1 p _ Hk).
  - intros p. rewrite elem_of_dom. split.
    + intros [c Hc]. apply ty_of_Some. by apply (H3 p c).
    + intros (id & o & Hk). by apply (H2 p _ Hk).
  - intros p. split.
    + intros [pt Hpt]. apply ty_of_Some. by apply (H5 p pt Hpt).
    + intros (id & o & Hk). by apply (H4 p _ Hk).
  - intros p pt Hpt. destruct (H5 p pt Hpt) as (_ & H & Hn & _). split; [by apply ty_of_Some|done].
  - intros p q pt qt Hp Hq. destruct (H5 p pt Hp) as (_ & _ & _ & H & _). by apply (H q qt Hq).
  - intros p pt Hpt. apply (H5 p pt Hpt).
Qed.

Definition chk_objs : bool :=
  bool_decide (map_Forall (fun p k => 0 < p < k_brk s /\ (k.1.2 = RSRC_TASK -> is_Some (k_task s !! p)) /\
    (k.2 = 0 \/ is_Some (k_team s !! k.2))) K) &&
  bool_decide (map_Forall (fun p _ => ty_of (K !! p) = Some RSRC_TASK) (k_task s)) &&
  bool_decide (map_Forall (fun p _ => ty_of (K !! p) = Some RSRC_TEAM) (k_team s)) &&
  bool_decide (Forall (fun q => ty_of (K !! q) = Some RSRC_QUEUE) global_queues) &&
  bool_decide (NoDup global_queues).

Lemma chk_objs_ok : chk_objs = true ->
  objs_ok (kinds s) (dom (k_task s)) (dom (k_team s)) (k_glob s) (k_brk s).
Proof.
  unfold chk_objs. rewrite !andb_true_iff, !bool_decide_eq_true. intros [[[[H1 H2] H3] H4] H5]. split.
  - intros p k Hk. by apply (H1 p k Hk).
  - intros p. rewrite elem_of_dom. split.
    + intros [tk Ht]. apply ty_of_Some. by apply (H2 p tk).
    + intros (id & o & Hk). by apply (H1 p _ Hk).
  - intros p id ty o Hk. destruct (H1 p _ Hk) as (_ & _ & [?|?]); [by left|right]. by apply elem_of_dom.
  - intros p [tm Htm]%elem_of_dom. apply ty_of_Some. by apply (H3 p tm).
  - intros q Hq. apply ty_of_Some. rewrite Forall_forall in H4. by apply H4.
  - done.
Qed.

Definition chk_queues : bool :=
  bool_decide (map_Forall (fun r x => NoDup (r_queue x) /\
    Forall (fun t => on_some (k_task s !! t) (fun tk => t_waiting_on tk = r /\
      t_flags tk = queue_flag (g_reaper_queue g) r)) (r_queue x)) (k_res s)) &&
  bool_decide (map_Forall (fun t tk => t_waiting_on tk = 0 \/
    on_some (k_res s !! t_waiting_on tk) (fun x => t ∈ r_queue x)) (k_task s)).

Lemma chk_queues_ok : chk_queues = true -> qwf (k_res s) (k_task s) (g_reaper_queue (k_glob s)).
Proof.
  unfold chk_queues. rewrite !andb_true_iff, !bool_decide_eq_true. intros [H1 H2]. split.
  - intros r x t Hr Hin. destruct (H1 r x Hr) as [_ H]. rewrite Forall_forall in H.
    apply on_some_spec. by apply H.
  - intros r x Hr. by destruct (H1 r x Hr).
  - intros t tk Ht Hne. destruct (H2 t tk Ht) as [?|H]; [done|]. by apply on_some_spec.
Qed.

Definition chk_sched : bool :=
  bool_decide (is_Some (k_task s !! k_current s)) &&
  bool_decide (on_some (k_task s !! g_idle_task g) (fun tk => t_waiting_on tk = 0 /\
    (t_flags tk = tRUNNING \/ t_flags tk = tREADY))) &&
  bool_decide (map_Forall (fun t tk => (t = k_current s \/ t = g_idle_task g \/ t = 0 \/
    t_flags tk = tSLEEP_IRQ \/ t_waiting_on tk <> 0) /\ 0 <= t_irq tk < 16) (k_task s)).

Lemma chk_sched_ok : chk_sched = true ->
  sched_ok (k_task s) (k_current s) 0 (g_idle_task (k_glob s)).
Proof.
  unfold chk_sched. rewrite !andb_true_iff, !bool_decide_eq_true. intros [[H1 H2] H3]. split.
  - done.
  - by apply on_some_spec.
  - intros t tk Ht. by apply (H3 t tk Ht).
  - intros t tk Ht. by apply (H3 t tk Ht).
Qed.

(** The free pages in the order of the page list. *)
Fixpoint pwalk (pl : list Z) (n : Z) (fuel : nat) : option (list Z) :=
  if decide (n = 0) then Some [] else
  match fuel with
  | O => None
  | S fuel => match aget pl n with Some nx => l ← pwalk pl nx fuel; Some (n :: l) | None => None end
  end.

Lemma pwalk_chain pl fuel : forall n l, pwalk pl n fuel = Some l -> KMem.chain pl n l.
Proof.
  induction fuel as [|fuel IH]; simpl; intros n l H; case_decide; simplify_eq; [done|done|].
  destruct (aget pl n) as [nx|] eqn:E; [|done].
  destruct (pwalk pl nx fuel) as [l'|] eqn:E'; simplify_eq/=. split_and!; [done|done|]. eauto.
Qed.

Definition chk_mem : bool :=
  let m := k_mem s in
  bool_decide (on_some (pwalk (KMem.m_pagelist m) (KMem.m_freepage m) (length (KMem.m_pagelist m)))
    (fun l => nodup ∅ l = true /\ KMem.m_used_pages m = u32 (KMem.m_total_pages m - Z.of_nat (length l)))) &&
  bool_decide (length (KMem.m_high m) = 1024%nat) && bool_decide (length (KMem.m_km m) = 7%nat) &&
  bool_decide (length (k_irq_map s) = 16%nat) && bool_decide (length (k_masked s) = 16%nat).

Definition chk : bool :=
  chk_table && chk_ports && chk_objs && chk_queues && chk_sched && chk_mem &&
  bool_decide (on_some (k_task s !! k_current s) (fun tk => t_flags tk = tRUNNING /\ t_waiting_on tk = 0)).

Lemma chk_at_rest : chk = true -> at_rest s.
Proof.
  unfold chk. rewrite !andb_true_iff. intros [[[[[[H1 H2] H3] H4] H5] H6] H7].
  unfold chk_mem in H6. rewrite !andb_true_iff, !bool_decide_eq_true in H6.
  destruct H6 as [[[[Hm1 Hm2] Hm3] Hm4] Hm5]. split; [split|].
  - split; [by apply chk_table_ok|by apply chk_ports_ok].
  - by apply chk_objs_ok.
  - by apply chk_queues_ok.
  - by apply chk_sched_ok.
  - apply on_some_spec in Hm1 as (l & Hl & Hnd & Hu). split_and!; [|done|done].
    exists l. split_and!; [by eapply pwalk_chain|by eapply nodup_NoDup|done].
  - done.
  - rewrite bool_decide_eq_true, on_some_spec in H7. destruct H7 as (tk & Ht & Hf & Hw). by exists tk.
Qed.
End checks.

(** The state of the example system when the scheduler has started. *)
Definition ex_state : kst := match ex_boot with Ok (_, s) => s | _ => st0 [] end.

Lemma ex_state_at_rest : at_rest ex_state.
Proof. apply chk_at_rest. by vm_compute. Qed.

End KCheck.
