(* ===== verification/Kernel.v ===== *)
(** The kernel as a transition system.  The running task makes system calls or
  is continued inside one, and interrupts arrive while it runs user code; every
  such event is one step, since the kernel runs with interrupts off. *)
From S2P Require Import Prelude KList KMem KState Rsrc Sched Sem Port Aspace Task Syscall KInv KSafe Boot KCheck.
Import KState Rsrc Sched Sem Port Task Syscall KInv KSafe.
Local Open Scope Z_scope.
Local Open Scope k_scope.

Module Kernel.

Inductive event :=
| EvCall (eax : Z) (esp : list Z)
| EvResume
| EvTimer (undef : Z)  (** [undef]: what rsrc_queue_peek returns for an empty queue *)
| EvIrq (n : Z).

Definition run (ev : event) : M (option Z) :=
  match ev with
  | EvCall eax esp => syscall eax esp
  | EvResume => resume
  | EvTimer undef => none (timer_irq undef)
  | EvIrq n => none (irq_dispatch n)
  end.

(** The calls covered here: all but those that create threads or map memory. *)
Definition ipc_call (eax : Z) : Prop :=
  match call_of eax with
  | os_brk | sys_area_create | sys_area_clone | sys_area_destroy | sys_area_resize
  | sys_thr_create | sys_thr_spawn => False
  | _ => True
  end.

(** User code and interrupts wait until the running task has left the kernel. *)
Definition in_user (s : kst) : Prop :=
  exists tk, k_task s !! k_current s = Some tk /\ t_kont tk = KUser.

Definition enabled (s : kst) (ev : event) : Prop :=
  match ev with
  | EvCall eax _ => k_current s <> g_idle_task (k_glob s) /\ in_user s /\ ipc_call eax
  | EvResume => k_current s <> g_idle_task (k_glob s) /\ ~ in_user s
  | EvTimer _ => in_user s
  | EvIrq n => in_user s /\ 0 <= n < 16
  end.

(** The pointers of the calls that the kernel follows: a name of at most 31 characters, the
  buffer of port_send, and the buffer, *src and *code of port_recv. *)
Definition stray_call (eax : Z) (esp : list Z) : Prop :=
  let u := p_uint32 esp in
  match call_of eax with
  | sys_sem_create | sys_port_create => u 2%nat <> 0 /\ ~ user_addr (u 2%nat) 31
  | sys_port_send => ~ send_buffer (u 3%nat) (u 4%nat)
  | sys_port_recv => ~ recv_buffers (u 2%nat) (u 3%nat) (u 4%nat) (u 5%nat)
  | _ => False
  end.

#[export] Instance stray_call_dec eax esp : Decision (stray_call eax esp).
Proof. unfold stray_call. destruct (call_of eax); apply _. Defined.

(** The situations in which the code has undefined behaviour: a call with a pointer
  that leads out of user memory (port.c:221), a thread that ends after the reaper's
  semaphore was destroyed, os_identify of a resource without an owner, a port_send or
  port_recv that comes back to a destroyed port, a timer tick for which
  rsrc_queue_peek, which returns nothing for an empty queue, happens not to give 0,
  and an interrupt whose task does not exist any more (fault.c:165). *)
Definition hazard (s : kst) (ev : event) : Prop :=
  match ev with
  | EvCall eax esp =>
      stray_call eax esp \/
      (call_of eax = os_terminate /\ unbound s RSRC_SEM (g_reaper_sem (k_glob s))) \/
      (call_of eax = os_identify /\ ownerless s (p_uint32 esp 1))
  | EvResume => dangling s \/ stray_kont s
  | EvTimer undef => undef <> 0
  | EvIrq n => orphan_irq s n
  end.

Lemma some_spec {A} (m : M A) s : wp m rest s -> wp (some m) rest s.
Proof. intros H. unfold some. wp_step. eapply wp_mono; [exact H|]. intros a s' ?. by wp_go. Qed.

Lemma none_spec {A} (m : M unit) s : wp m rest s -> wp (none (A := A) m) rest s.
Proof. intros H. unfold none. wp_step. eapply wp_mono; [exact H|]. intros a s' ?. by wp_go. Qed.

Create HintDb calls.
#[local] Hint Resolve some_spec none_spec sem_create_spec sem_destroy_spec sem_acquire_spec
  sem_release_spec port_create_spec port_destroy_spec port_option_spec thr_wait_spec sleep_spec sleep_irq_spec terminate_spec rsrc_identify_spec : calls.

Lemma syscall_spec s eax esp :
  user s -> ipc_call eax -> ~ hazard s (EvCall eax esp) -> wp (syscall eax esp) rest s.
Proof.
  intros HU Hc Hh. pose proof HU as [HR _]. unfold syscall, ipc_call, hazard in *.
  assert (forall n, ~ (p_uint32 esp n <> 0 /\ ~ user_addr (p_uint32 esp n) 31) -> p_uint32 esp n = 0 \/ user_addr (p_uint32 esp n) 31) as Hname.
  { intros n Hn. destruct (decide (p_uint32 esp n = 0)); [by left|]. destruct (decide (user_addr (p_uint32 esp n) 31)); [by right|tauto]. }
  unfold stray_call in Hh. destruct (call_of eax) eqn:Ecall; try done; try (by wp_go); eauto with calls.
  - apply none_spec, terminate_spec; [done|]. tauto.
  - wp_step. eapply wp_mono; [by eapply handle_irq_spec|]. intros a s' Ha. by wp_go.
  - apply none_spec. destruct HU as [[I Hr] Hi]. eapply sleep_spec; [done..|]. intros. by split.
  - wp_step. eapply p_name_spec; [done|apply Hname; tauto|]. intros nm. eauto with calls.
  - wp_step. eapply p_name_spec; [done|apply Hname; tauto|]. intros nm. eauto with calls.
  - apply port_send_spec; [done|]. apply dec_stable. tauto.
  - apply port_recv_spec; [done|]. apply dec_stable. tauto.
  - apply some_spec, rsrc_identify_spec; [done|]. tauto.
Qed.

Lemma run_spec s ev : at_rest s -> enabled s ev -> ~ hazard s ev -> wp (run ev) rest s.
Proof.
  intros HR He Hh. destruct ev as [eax esp| |undef|n]; simpl in *.
  - apply syscall_spec; [split; [done|apply He]|apply He|done].
  - apply resume_spec; [split; [done|apply He]|tauto..].
  - apply none_spec. destruct (decide (undef = 0)) as [->|]; [|done]. by apply timer_irq_spec.
  - apply none_spec. apply irq_dispatch_spec; [done|apply He|done].
Qed.

(** C6. Safety of the kernel's events: a system call other than brk, the calls on areas,
  thr_create and thr_spawn, the way back into a call that waited, a timer tick, and an
  interrupt.  From a state that satisfies the kernel invariant, every such event that is
  not one of the six listed hazards has no undefined behaviour (no access through a null
  or freed object, no index out of range, no loop without end), never finds a dead task
  on the run queue, and ends in a state that satisfies the invariant again: consistent
  resource table, typed objects, at most 16 counted messages per port, consistent wait
  queues.  The hazards are cases in which the code goes wrong: a pointer that leads out of user
  memory (port.c:221), the reaper's semaphore gone (syscall.c:30), os_identify without an owner,
  a port that was destroyed meanwhile, rsrc_queue_peek of an empty queue, and an interrupt
  of a task that is gone (fault.c:165).  The creation of threads, the calls on areas and the
  reaper's work are no events here. *)
Theorem kernel_step_safe s ev
  (Hs : at_rest s) (He : enabled s ev) (Hh : ~ hazard s ev) :
  match run ev s with
  | Ok (_, s') => at_rest s'
  | Panic w => w <> "The dead have returned!"%string
  | Fault => False
  end.
Proof. exact (run_spec s ev Hs He Hh). Qed.

(** ** Runs *)
Inductive step (s : kst) (ev : event) (r : option Z) (s' : kst) : Prop :=
| step_run : enabled s ev -> ~ hazard s ev -> run ev s = Ok (r, s') -> step s ev r s'.

Inductive reach (s0 : kst) : kst -> Prop :=
| reach_refl : reach s0 s0
| reach_step s ev r s' : reach s0 s -> step s ev r s' -> reach s0 s'.

Lemma reach_at_rest s0 s : at_rest s0 -> reach s0 s -> at_rest s.
Proof.
  intros H0. induction 1 as [|s ev r s' Hr IH [He Hh E]]; [done|].
  exact (wp_Ok _ _ _ _ _ (run_spec s ev IH He Hh) E).
Qed.

(** C7. No task is lost and none is queued twice, whatever the events of [run] that are no
  hazard do, among them the end of threads and the destruction of what others wait for: in
  every state reached by them from one that satisfies the kernel invariant, the running task
  is marked running and is on no wait queue, the wait queues hold existing tasks without
  repetition, a task is on at most one of them, and every task is running, the idle task,
  asleep until its interrupt, or on the queue it records in waiting_on.  Tasks are neither
  created nor freed by these events. *)
Theorem reachable_tasks_accounted s0 s
  (H0 : at_rest s0) (Hr : reach s0 s) :
  (exists tk, k_task s !! k_current s = Some tk /\ t_flags tk = tRUNNING /\
     forall r x, k_res s !! r = Some x -> k_current s ∉ r_queue x) /\
  (forall r x, k_res s !! r = Some x -> NoDup (r_queue x) /\
     forall t, t ∈ r_queue x -> is_Some (k_task s !! t)) /\
  (forall r x r' x' t, k_res s !! r = Some x -> k_res s !! r' = Some x' ->
     t ∈ r_queue x -> t ∈ r_queue x' -> r = r') /\
  (forall t tk, k_task s !! t = Some tk ->
     t = k_current s \/ t = g_idle_task (k_glob s) \/ t_flags tk = tSLEEP_IRQ \/
     exists x, k_res s !! t_waiting_on tk = Some x /\ t ∈ r_queue x).
Proof.
  destruct (reach_at_rest _ _ H0 Hr) as [I Hrun]. pose proof (kv_q _ _ _ I) as W. split_and!.
  - pose proof Hrun as (tk & Ht & Hf & _). exists tk. split_and!; [done|done|].
    intros r x Hx. by eapply running_detached.
  - intros r x Hx. split; [by eapply q_nodup|]. intros t Hin.
    destruct (q_in _ _ _ W _ _ _ Hx Hin) as (tk & Ht & _). eauto.
  - intros r x r' x' t Hx Hx' Hin Hin'. destruct (q_in _ _ _ W _ _ _ Hx Hin) as (tk & Ht & Hw & _).
    destruct (q_in _ _ _ W _ _ _ Hx' Hin') as (tk' & Ht' & Hw' & _). congruence.
  - intros t tk Ht. destruct (sc_where _ _ _ _ (kv_sched _ _ _ I) _ _ Ht) as [?|[?|[->|[?|?]]]]; auto.
    + by destruct (kinv_task0 _ _ _ I Ht).
    + do 3 right. by apply (q_back _ _ _ W).
Qed.

(** C8. In every state reached by the events of [run] that are no hazard, among them the
  creation and destruction of semaphores and ports (not of threads and areas), every bound
  resource identifier finds its own resource and nothing else: rsrc_find with the type and
  identifier of a resource returns it, with any other type it returns NULL, and an
  identifier that no resource of the type carries gives NULL. *)
Theorem reachable_rsrc_find s0 s ty id
  (H0 : at_rest s0) (Hr : reach s0 s) (Hty : ty <> RSRC_NONE) (Hid : 0 <= id < 2 ^ 32) :
  exists p, rsrc_find ty id s = Ok (p, s) /\
    (forall q x, k_res s !! q = Some x -> r_type x = ty -> r_id x = id -> p = q) /\
    (p = 0 \/ exists x, k_res s !! p = Some x /\ r_type x = ty /\ r_id x = id).
Proof.
  destruct (reach_at_rest _ _ H0 Hr) as [I _]. destruct (kv_x _ _ _ I) as [Ht _].
  assert (wp (rsrc_find ty id) (fun p s' => s' = s /\
    ((p = 0 /\ unbound s ty id) \/ exists x, k_res s !! p = Some x /\ r_type x = ty /\ r_id x = id)) s) as Hwp.
  { eapply rsrc_find_spec; [done|done|auto|]. intros p x Hx Hxt _ Hxi. rewrite u32_small in Hxi by done.
    split; [done|]. right. eauto. }
  unfold wp in Hwp. destruct (rsrc_find ty id s) as [[p s']|w|] eqn:E; [| |done].
  - destruct Hwp as [-> Hp]. exists p. split; [done|]. split.
    + intros q y Hy Hyt Hyi. destruct Hp as [[-> Hu]|(x & Hx & Hxt & Hxi)].
      * destruct (Hu q y Hy Hyt). by rewrite u32_small.
      * destruct (tb_bound _ _ _ Ht q _ _ _ (kinds_of _ _ _ Hy)) as (_ & n & Hn); [congruence|].
        destruct (tb_bound _ _ _ Ht p _ _ _ (kinds_of _ _ _ Hx)) as (_ & m & Hm); [congruence|].
        congruence.
    + destruct Hp as [[-> _]|?]; auto.
  - by destruct (rsrc_find_panic ty id s w).
Qed.

(** ** The hazards are real *)

(** Runs a list of events that are enabled and free of hazards by a test. *)
Definition in_userb (s : kst) : bool :=
  match k_task s !! k_current s with Some tk => bool_decide (t_kont tk = KUser) | None => false end.

Definition safe_event (s : kst) (ev : event) : bool :=
  bool_decide (k_current s <> g_idle_task (k_glob s)) &&
  match ev with
  | EvCall eax esp =>
      in_userb s && bool_decide (~ stray_call eax esp) &&
      match call_of eax with
      | os_terminate | os_identify | os_brk | sys_area_create | sys_area_clone | sys_area_destroy
      | sys_area_resize | sys_thr_create | sys_thr_spawn => false
      | _ => true
      end
  | EvResume =>
      match k_task s !! k_current s with
      | Some tk => match t_kont tk with KRet _ | KSemAcquire | KThrWait => true | _ => false end
      | None => false
      end
  | EvTimer undef => in_userb s && bool_decide (undef = 0)
  | EvIrq _ => false
  end.

Fixpoint exec (l : list event) (s : kst) : option kst :=
  match l with
  | [] => Some s
  | ev :: l =>
      if safe_event s ev then
        match run ev s with Ok (_, s') => exec l s' | _ => None end
      else None
  end.

Lemma in_userb_ok s : in_userb s = true -> in_user s.
Proof.
  unfold in_userb. destruct (k_task s !! k_current s) as [tk|] eqn:E; [|done].
  rewrite bool_decide_eq_true. intros. by exists tk.
Qed.

Lemma safe_event_ok s ev : safe_event s ev = true -> enabled s ev /\ ~ hazard s ev.
Proof.
  unfold safe_event. rewrite andb_true_iff, bool_decide_eq_true. intros [Hi H].
  destruct ev as [eax esp| |undef|n]; simpl.
  - apply andb_true_iff in H as [[Hu Hs]%andb_true_iff Hc]. apply in_userb_ok in Hu. rewrite bool_decide_eq_true in Hs. unfold ipc_call.
    destruct (call_of eax); try done; (split; [done|]); intros [?|[[? _]|[? _]]]; done.
  - destruct (k_task s !! k_current s) as [tk|] eqn:E; [|done]. split; [split; [done|]|].
    + intros (tk' & Ht & Hk). simplify_eq. by rewrite Hk in H.
    + intros [(tk' & Ht & _ & Hk)|(tk' & Ht & Hk)]; rewrite E in Ht; injection Ht as <-; by destruct (t_kont tk).
  - apply andb_true_iff in H as [Hu Hz]. rewrite bool_decide_eq_true in Hz. split; [by apply in_userb_ok|]. by intros ?.
  - done.
Qed.

Lemma exec_reach l : forall s0 s s', reach s0 s -> exec l s = Some s' -> reach s0 s'.
Proof.
  induction l as [|ev l IH]; simpl; intros s0 s s' Hr H; [by simplify_eq|].
  destruct (safe_event s ev) eqn:Es; [|done]. destruct (run ev s) as [[r s1]| |] eqn:E; [|done|done].
  apply safe_event_ok in Es as [He Hh]. eapply IH; [|exact H]. eapply reach_step; [exact Hr|]. by apply (step_run _ _ r).
Qed.

Lemma identify_faults s id : at_rest s -> ownerless s id -> rsrc_identify id s = Fault.
Proof.
  intros [I _] (p & x & Hx & Hty & Hid & Ho). destruct (kv_x _ _ _ I) as [Ht _].
  destruct (tb_bound _ _ _ Ht p _ _ _ (kinds_of _ _ _ Hx) Hty) as (_ & n & Hn). rewrite Hid in Hn.
  pose proof (aget_Some _ _ _ Hn) as [Hr _].
  unfold rsrc_identify, get_res, gets, bind, lift, Datatypes.id, deref. rewrite decide_False by lia.
  rewrite Hn. simpl. rewrite Hx. rewrite decide_False by done. by rewrite Ho, (kinv_res0 _ _ I).
Qed.

(** The running task is about to be continued inside a call on a destroyed port. *)
Definition danglingb (s : kst) : bool :=
  bool_decide (k_current s <> g_idle_task (k_glob s)) &&
  match k_task s !! k_current s with
  | Some tk =>
      bool_decide (t_status tk = 0) &&
      match t_kont tk with
      | KPortSend _ _ _ _ _ p | KPortRecv _ _ _ _ _ p => bool_decide (k_port s !! p = None)
      | _ => false
      end
  | None => false
  end.

Lemma danglingb_ok s : danglingb s = true ->
  enabled s EvResume /\ dangling s /\ run EvResume s = Fault.
Proof.
  unfold danglingb. rewrite andb_true_iff, bool_decide_eq_true. intros [Hi H].
  destruct (k_task s !! k_current s) as [tk|] eqn:Ht; [|done].
  apply andb_true_iff in H as [Hst H]. rewrite bool_decide_eq_true in Hst. split_and!.
  - split; [done|]. intros (tk' & Ht' & Hk). rewrite Ht in Ht'. injection Ht' as <-. by rewrite Hk in H.
  - exists tk. split_and!; [done|done|]. destruct (t_kont tk); try done; by rewrite bool_decide_eq_true in H.
  - simpl. unfold resume, set_kont, get_task, gets, put_task, modify, bind, lift, id, deref. rewrite Ht. simpl.
    destruct (t_kont tk); try done; rewrite bool_decide_eq_true in H; rewrite decide_True by done;
      [unfold port_send_loop|unfold port_recv_loop]; unfold get_port, gets, bind, lift, id, deref; simpl; rewrite Ht; simpl; by rewrite H.
Qed.

(** The calls of two programs of the example system; the uberport has identifier 1. *)
Definition recv_trace : list event :=
  [ EvCall 16 [0; 1; 0; 0x2000; 64; 0]        (* namer: port_recv(1, ...) waits *)
  ; EvCall 15 [0; 1; 1; 0x2000; 4; 0]         (* vfs: port_send(1, 1, ...) wakes it *)
  ; EvCall 13 [0; 1]                          (* vfs: port_destroy(1) *)
  ; EvTimer 0; EvTimer 0; EvTimer 0 ].

(** Undefined behaviour that user programs can reach through ports: in the
  example system there is a run of the kernel, without any other hazard, at whose
  end the running task is continued inside port_recv on a port that another task
  has destroyed after waking it, and the kernel follows the freed pointer
  (kernel/port.c: the loop reads p->msgcount after wait_on returned 0). *)
Theorem port_recv_use_after_free :
  exists s, reach KCheck.ex_state s /\ enabled s EvResume /\ dangling s /\ run EvResume s = Fault.
Proof.
  assert (match exec recv_trace KCheck.ex_state with Some s => danglingb s | None => false end = true) as H
    by (by vm_compute).
  destruct (exec recv_trace KCheck.ex_state) as [s|] eqn:E; [|done]. exists s.
  split; [|by apply danglingb_ok]. eapply exec_reach; [apply reach_refl|exact E].
Qed.

(** Any program can make the kernel write to any address: port_recv checks where the buffer
  starts but not *src and *code (kernel/port.c:221).  In the example system a program sends a
  message and receives it with *src in the kernel's memory. *)
Theorem port_recv_stray_pointer :
  exists s, reach KCheck.ex_state s /\ enabled s (EvCall 16 [0; 1; 0x80000000; 0x2000; 64; 0]) /\
    stray_call 16 [0; 1; 0x80000000; 0x2000; 64; 0] /\ run (EvCall 16 [0; 1; 0x80000000; 0x2000; 64; 0]) s = Fault.
Proof.
  assert (match exec [EvCall 15 [0; 1; 1; 0x2000; 4; 0]] KCheck.ex_state with
    | Some s => bool_decide (k_current s <> g_idle_task (k_glob s)) && in_userb s &&
        match syscall 16 [0; 1; 0x80000000; 0x2000; 64; 0] s with Fault => true | _ => false end
    | None => false end = true) as H by (by vm_compute).
  destruct (exec _ KCheck.ex_state) as [s|] eqn:E; [|done]. exists s. apply (exec_reach _ _ _ _ (reach_refl _)) in E.
  rewrite !andb_true_iff, bool_decide_eq_true in H. destruct H as [[Hi Hu] Hf]. split_and!.
  - exact E.
  - split_and!; [done|by apply in_userb_ok|done].
  - apply (bool_decide_unpack _). by vm_compute.
  - change (syscall 16 [0; 1; 0x80000000; 0x2000; 64; 0] s = Fault). by destruct (syscall _ _ s) as [[]| |].
Qed.

(** No semaphore has the identifier of the reaper's. *)
Definition reaper_goneb (s : kst) : bool :=
  bool_decide (map_Forall (fun _ x => ~ (r_type x = RSRC_SEM /\ r_id x = u32 (g_reaper_sem (k_glob s)))) (k_res s)).

(** Any program can stop the machine: the reaper's semaphore is a resource like
  any other and sem_destroy does not check its owner.  In the example system a
  program destroys it, and the next thread that terminates makes wake_the_reaper
  follow a null pointer (kernel/syscall.c: sem->count++ on the result of
  rsrc_find_sem without a check). *)
Theorem terminate_after_reaper_gone :
  exists s, reach KCheck.ex_state s /\ enabled s (EvCall 1 []) /\
    unbound s RSRC_SEM (g_reaper_sem (k_glob s)) /\ run (EvCall 1 []) s = Fault.
Proof.
  assert (match exec [EvCall 9 [0; 25]] KCheck.ex_state with
    | Some s => bool_decide (k_current s <> g_idle_task (k_glob s)) && in_userb s && reaper_goneb s &&
        match terminate s with Fault => true | _ => false end
    | None => false end = true) as H by (by vm_compute).
  destruct (exec [EvCall 9 [0; 25]] KCheck.ex_state) as [s|] eqn:E; [|done]. exists s.
  apply (exec_reach _ _ _ _ (reach_refl _)) in E.
  rewrite !andb_true_iff, bool_decide_eq_true in H. destruct H as [[[Hi Hu] Hg] Hf].
  unfold reaper_goneb in Hg. rewrite bool_decide_eq_true in Hg. split_and!.
  - exact E.
  - split_and!; [done|by apply in_userb_ok|done].
  - intros p x Hx Hty Hid. exact (Hg p x Hx (conj Hty Hid)).
  - change (none (A := Z) terminate s = Fault). unfold none, bind. destruct (terminate s) as [[]| |]; done.
Qed.

(** os_identify of an object without an owner is a null pointer access, in every
  state of the kernel: rsrc_identify reads owner->rsrc.id unconditionally.  The
  kernel's own team and the send queue of the uberport are such objects. *)
Theorem identify_ownerless_faults s id (Hs : at_rest s) (Ho : ownerless s id) :
  rsrc_identify id s = Fault.
Proof. exact (identify_faults s id Hs Ho). Qed.

(** ** Witnesses *)

Lemma ex_state_user : user KCheck.ex_state.
Proof.
  split; [exact KCheck.ex_state_at_rest|].
  apply (bool_decide_eq_true (k_current KCheck.ex_state <> g_idle_task (k_glob KCheck.ex_state))). by vm_compute.
Qed.

Lemma ex_state_in_user : in_user KCheck.ex_state.
Proof. apply in_userb_ok. by vm_compute. Qed.

Lemma kernel_step_safe_witness :
  match run (EvTimer 0) KCheck.ex_state with
  | Ok (_, s') => at_rest s'
  | Panic w => w <> "The dead have returned!"%string
  | Fault => False
  end.
Proof.
  apply (kernel_step_safe KCheck.ex_state (EvTimer 0) KCheck.ex_state_at_rest ex_state_in_user).
  intros H. apply H. reflexivity.
Defined.

Lemma reachable_tasks_accounted_witness :
  exists tk, k_task KCheck.ex_state !! k_current KCheck.ex_state = Some tk /\ t_flags tk = tRUNNING /\
    forall r x, k_res KCheck.ex_state !! r = Some x -> k_current KCheck.ex_state ∉ r_queue x.
Proof.
  exact (proj1 (reachable_tasks_accounted KCheck.ex_state KCheck.ex_state KCheck.ex_state_at_rest (reach_refl _))).
Defined.

Lemma reachable_rsrc_find_witness :
  exists p, rsrc_find RSRC_SEM 25 KCheck.ex_state = Ok (p, KCheck.ex_state) /\
    (forall q x, k_res KCheck.ex_state !! q = Some x -> r_type x = RSRC_SEM -> r_id x = 25 -> p = q) /\
    (p = 0 \/ exists x, k_res KCheck.ex_state !! p = Some x /\ r_type x = RSRC_SEM /\ r_id x = 25).
Proof.
  apply (reachable_rsrc_find KCheck.ex_state KCheck.ex_state RSRC_SEM 25 KCheck.ex_state_at_rest (reach_refl _));
    [discriminate|lia].
Defined.

Lemma identify_ownerless_faults_witness : rsrc_identify 5 KCheck.ex_state = Fault.
Proof.
  apply (identify_ownerless_faults KCheck.ex_state 5 KCheck.ex_state_at_rest).
  assert (match k_res KCheck.ex_state !! 384 with
    | Some x => bool_decide (r_type x <> RSRC_NONE /\ r_id x = u32 5 /\ r_owner x = 0) | None => false end = true) as H
    by (by vm_compute).
  destruct (k_res KCheck.ex_state !! 384) as [x|] eqn:E; [|done]. rewrite bool_decide_eq_true in H.
  exists 384, x. tauto.
Defined.

End Kernel.
