(* ===== verification/IPC.v ===== *)
(** What semaphores and ports promise: a semaphore is a counter with a queue of
  waiting tasks served in order, a port is a bounded queue of messages. *)
From S2P Require Import Prelude KList KMem KState Rsrc Sched Sem Port Aspace Task Syscall KInv KSafe Boot KCheck Kernel.
Import KState Rsrc Sched Sem Port Task Syscall KInv KSafe.
Local Open Scope Z_scope.
Local Open Scope k_scope.

Module IPC.

(** ** What the scheduler leaves alone

  [same rq s s']: the resources other than the run queue, the semaphores, the
  ports, the table and the memory of [s] are those of [s']. *)
Record same (rq : Z) (s s' : kst) : Prop := {
  sm_res : forall r, r <> rq -> k_res s' !! r = k_res s !! r;
  sm_sem : k_sem s' = k_sem s;
  sm_port : k_port s' = k_port s;
  sm_rmap : k_rmap s' = k_rmap s;
  sm_umem : k_umem s' = k_umem s;
  sm_glob : k_glob s' = k_glob s;
  sm_pool : k_msg_pool s' = k_msg_pool s;
}.

#[export] Instance same_preorder rq : PreOrder (same rq).
Proof.
  split.
  - intros s. by split.
  - intros s1 s2 s3 [H1 H2 H3 H4 H5 H6 H7] [J1 J2 J3 J4 J5 J6 J7]. split; try congruence.
    intros r Hr. rewrite J1 by done. by apply H1.
Qed.

Definition keeps {A} (m : M A) : Prop :=
  forall s a s', m s = Ok (a, s') -> same (g_run_queue (k_glob s)) s s'.

Section keeps.
Context {A B : Type}.

Lemma keeps_bind (m : M B) (k : B -> M A) : keeps m -> (forall b, keeps (k b)) -> keeps (b <- m ;; k b).
Proof.
  intros Hm Hk s a s' E. unfold bind in E. destruct (m s) as [[b s1]| |] eqn:E1; [|done|done].
  apply Hm in E1. etransitivity; [exact E1|]. apply Hk in E. by rewrite (sm_glob _ _ _ E1) in E.
Qed.

(** A read of the state, which the continuation may use. *)
Lemma keeps_gets (f : kst -> B) (k : B -> M A) :
  (forall s, keeps (k (f s))) -> keeps (b <- gets f ;; k b).
Proof. intros Hk s a s' E. exact (Hk s s a s' E). Qed.

Lemma keeps_ret (a : A) : keeps (ret a).
Proof. intros s a' s' [= _ <-]. reflexivity. Qed.

Lemma keeps_panic w : keeps (A := A) (panic w).
Proof. done. Qed.

Lemma keeps_lift (c : cres A) : keeps (lift c).
Proof. intros s a s' E. unfold lift in E. destruct c; simplify_eq. reflexivity. Qed.
End keeps.

Lemma keeps_get_task t : keeps (get_task t).
Proof. apply keeps_bind; [intros s a s' [= _ <-]; reflexivity|intros; apply keeps_lift]. Qed.
Lemma keeps_get_res t : keeps (get_res t).
Proof. apply keeps_bind; [intros s a s' [= _ <-]; reflexivity|intros; apply keeps_lift]. Qed.
Lemma keeps_put_task t x : keeps (put_task t x).
Proof. intros s a s' [= _ <-]. by split. Qed.
Lemma keeps_set_current t : keeps (set_current t).
Proof. intros s a s' [= _ <-]. by split. Qed.

Create HintDb keeps.
#[export] Hint Resolve keeps_bind keeps_ret keeps_panic keeps_lift keeps_get_task keeps_get_res
  keeps_put_task keeps_set_current : keeps.

(** The run queue itself may change. *)
Lemma same_put s R T : (forall r, r <> g_run_queue (k_glob s) -> R !! r = k_res s !! r) ->
  same (g_run_queue (k_glob s)) s (upd s R T).
Proof. intros H. by split. Qed.

Lemma keeps_enqueue_run t s a s' :
  rsrc_enqueue (g_run_queue (k_glob s)) t s = Ok (a, s') -> same (g_run_queue (k_glob s)) s s'.
Proof.
  unfold rsrc_enqueue, get_task, get_res, put_task, put_res, gets, lift, bind, modify, id, deref.
  destruct (k_task s !! t) as [tk|]; [|done]. simpl. destruct (k_res s !! _) as [x|]; [|done]. simpl.
  intros [= _ <-]. split; simpl; try done. intros r' Hr. by rewrite lookup_insert_ne.
Qed.

Lemma keeps_dequeue_run s a s' :
  rsrc_dequeue (g_run_queue (k_glob s)) s = Ok (a, s') -> same (g_run_queue (k_glob s)) s s'.
Proof.
  unfold rsrc_dequeue, queue_detach_head, get_task, get_res, put_task, put_res, gets, lift, bind, modify, id, deref, ret.
  destruct (k_res s !! _) as [x|] eqn:Ex; [|done]. destruct (r_queue x) as [|t q]; simpl.
  - intros [= _ <-]. reflexivity.
  - assert (forall T, same (g_run_queue (k_glob s)) s (upd s (<[g_run_queue (k_glob s) := r_set_queue x q]> (k_res s)) T)) as H
      by (intros T; apply same_put; intros r' Hr; by rewrite lookup_insert_ne).
    case_decide; [intros [= _ <-]; exact (H (k_task s))|].
    simpl. destruct (k_task s !! t) as [tk|]; [|done]. simpl. intros [= _ <-]. apply H.
Qed.

Lemma keeps_swtch_next : keeps swtch_next.
Proof.
  intros s a s' E. unfold swtch_next, bind at 1, gets at 1 in E. simpl in E.
  unfold bind at 1 in E.
  destruct (rsrc_dequeue (g_run_queue (k_glob s)) s) as [[nxt s2]| |] eqn:E2; [|done|done].
  pose proof (keeps_dequeue_run _ _ _ E2) as S2. etransitivity; [exact S2|].
  rewrite <- (sm_glob _ _ _ S2) at 1. revert E. generalize (g_idle_task (k_glob s)). clear. intros idle.
  revert s2 a s'.
  match goal with |- forall s2 a s', ?m s2 = _ -> _ => enough (keeps m) as Hk by exact Hk end.
  eapply keeps_gets. intros s0. apply keeps_bind.
  - repeat case_decide; auto with keeps.
  - intros _. eapply keeps_gets. intros s2. apply keeps_bind; [auto with keeps|]. intros tk.
    case_decide; auto with keeps.
Qed.

(** The scheduler only moves tasks between the run queue and the processor. *)
Lemma keeps_swtch : keeps swtch.
Proof.
  intros s a s' E. destruct (k_task s !! k_current s) as [tk|] eqn:Ht, (k_res s !! g_run_queue (k_glob s)) as [rq|] eqn:Hr.
  2-4: unfold swtch, get_task, get_res, gets, lift, bind, id, deref in E; by rewrite ?Ht, ?Hr in E.
  rewrite (swtch_eq _ _ _ Ht Hr) in E. case_decide; [by simplify_eq|]. unfold bind in E.
  match type of E with match ?m s with _ => _ end = _ => destruct (m s) as [[[] s1]| |] eqn:E1 end; [|done|done].
  assert (same (g_run_queue (k_glob s)) s s1) as S1.
  { case_decide; [by eapply keeps_enqueue_run|injection E1 as <-; reflexivity]. }
  etransitivity; [exact S1|]. rewrite <- (sm_glob _ _ _ S1). by eapply keeps_swtch_next.
Qed.

(** ** Semaphores *)

(** A counting semaphore: the count and the waiting tasks, first to last. *)
Record asem := ASem { a_count : Z; a_wait : list Z }.

Definition sem_view (s : kst) (p : Z) : option asem :=
  c ← k_sem s !! p; x ← k_res s !! p; Some (ASem c (r_queue x)).

Definition abs_acquire (t : Z) (a : asem) : asem :=
  ASem (a_count a - 1) (if decide (0 < a_count a) then a_wait a else a_wait a ++ [t]).
Definition abs_release (a : asem) : asem := ASem (a_count a + 1) (tail (a_wait a)).

(** As many tasks wait as acquisitions are outstanding. *)
Definition balanced (a : asem) : Prop := Z.of_nat (length (a_wait a)) = Z.max 0 (- a_count a).

Lemma balanced_acquire t a : balanced a -> balanced (abs_acquire t a).
Proof.
  unfold balanced. simpl. case_decide; [lia|]. rewrite length_app. simpl. lia.
Qed.

Lemma balanced_release a : balanced a -> balanced (abs_release a).
Proof. unfold balanced. destruct a as [c [|t q]]; simpl; lia. Qed.

(** The semaphore [p] of the table with identifier [id]. *)
Definition is_sem (s : kst) (id p : Z) : Prop :=
  exists x, k_res s !! p = Some x /\ r_type x = RSRC_SEM /\ r_id x = u32 id.

Lemma sem_view_upd s R T p x q : k_res s !! p = Some x -> R !! p = Some (r_set_queue x q) ->
  sem_view (upd s R T) p = (fun c => ASem c q) <$> k_sem s !! p.
Proof.
  intros Hx HR. unfold sem_view. simpl. rewrite HR. destruct (k_sem s !! p); done.
Qed.

(** [s'] comes from [s] by scheduling: a semaphore looks the same. *)
Lemma sem_view_same rq s s' p : same rq s s' -> p <> rq -> sem_view s' p = sem_view s p.
Proof. intros S Hp. unfold sem_view. by rewrite (sm_sem _ _ _ S), (sm_res _ _ _ S) by done. Qed.

Lemma wp_swtch_same s (Q : unit -> kst -> Prop) :
  kinv 0 s -> may_switch s ->
  (forall s', at_rest s' -> same (g_run_queue (k_glob s)) s s' -> Q tt s') -> wp swtch Q s.
Proof.
  intros I Hm HQ. eapply wp_mono.
  - eapply wp_and; [|intros a s' E; exact (keeps_swtch _ _ _ E)].
    eapply (swtch_spec s (fun _ s' => at_rest s')); [done|done|]. intros. by split.
  - intros [] s' [HR HS]. by apply HQ.
Qed.

(** The queue a task waits on gains it at the end; nothing else changes but the
  scheduling. *)
Lemma wait_on_same s r x k (Q : unit -> kst -> Prop) :
  user s -> k_res s !! r = Some x -> r <> g_reaper_queue (k_glob s) -> r <> g_run_queue (k_glob s) ->
  (forall R T s', R = <[r := r_set_queue x (r_queue x ++ [k_current s])]> (k_res s) ->
    at_rest s' -> same (g_run_queue (k_glob s)) (upd s R T) s' -> Q tt s') ->
  wp (wait_on r k) Q s.
Proof.
  intros [[I (tk & Ht & Hf & Hw)] Hi] Hx Hr Hrun HQ. unfold wait_on. wp_go.
  eapply set_kont_spec; [done|]. intros tk0 Ht0 s1 I1. simplify_eq.
  assert (k_task s1 !! k_current s1 = Some (t_set_kont tk k)) as Ht1 by apply lookup_insert_eq.
  wp_step. eapply wp_get_task; [exact Ht1|]. wp_go.
  assert (I2 := kinv_put_cur 0 s1 _ (t_set_status (t_set_kont tk k) 0) I1 Ht1 (fun H => H) eq_refl eq_refl).
  eapply rsrc_enqueue_spec; [exact I2|exact Hx|apply lookup_insert_eq|done|done|done|done|].
  simpl. intros I3. eapply wp_swtch_same; [exact I3| |].
  - right. split; [done|]. simpl. eexists. split; [apply lookup_insert_eq|]. simpl.
    split; [done|]. right. intros ->. by rewrite (kinv_res0 _ _ I) in Hx.
  - intros s' HR HS. exact (HQ _ _ s' eq_refl HR HS).
Qed.

Lemma sem_view_Some s p a : sem_view s p = Some a ->
  exists x, k_res s !! p = Some x /\ k_sem s !! p = Some (a_count a) /\ r_queue x = a_wait a.
Proof.
  unfold sem_view. destruct (k_sem s !! p) as [c|]; [|done]. destruct (k_res s !! p) as [x|]; [|done].
  simpl. intros [= <-]. eauto.
Qed.

Lemma is_sem_queue s id p : at_rest s -> is_sem s id p ->
  p <> g_run_queue (k_glob s) /\ p <> g_reaper_queue (k_glob s).
Proof.
  intros [I _] (x & Hx & Hty & _). eapply not_global_run; [done|done|congruence].
Qed.

Lemma wp_find_sem s id p (Q : Z -> kst -> Prop) :
  at_rest s -> is_sem s id p -> p <> 0 /\ (Q p s -> wp (rsrc_find RSRC_SEM id) Q s).
Proof.
  intros [I _] (x & Hx & Hty & Hid). split.
  - intros ->. by rewrite (kinv_res0 _ _ I) in Hx.
  - intros HQ. rewrite <- Hty. eapply find_bound; [done|done|congruence|done|done].
Qed.

(** C9. sem_acquire implements the acquisition of a counting semaphore: on the
  semaphore that the identifier names, the counter goes down by one; when it was
  positive the call returns ERR_NONE at once and the caller goes on, otherwise
  the caller is put at the end of the semaphore's queue and another task runs.
  As many tasks wait as acquisitions are outstanding, and the kernel invariant
  holds afterwards. *)
Theorem sem_acquire_refines s id p a
  (Hu : user s) (Hp : is_sem s id p) (Ha : sem_view s p = Some a) (Hc : - 2 ^ 31 < a_count a < 2 ^ 31) :
  (match sem_acquire id s with
   | Ok (r, s') =>
       sem_view s' p = Some (abs_acquire (k_current s) a) /\ at_rest s' /\
       (if decide (0 < a_count a) then r = Some ERR_NONE /\ k_current s' = k_current s
        else r = None)
   | Panic w => a_count a <= 0 /\ w <> "The dead have returned!"%string
   | Fault => False
   end) /\
  (balanced a -> balanced (abs_acquire (k_current s) a)).
Proof.
  split; [|apply balanced_acquire]. destruct (sem_view_Some _ _ _ Ha) as (x & Hx & Hcnt & Hq).
  destruct (is_sem_queue _ _ _ (proj1 Hu) Hp) as [Hrun Hrp]. pose proof Hu as [[I Hr] Hi].
  assert (forall c', kinv 0 (set_k_sem s (<[p := c']> (k_sem s)))) as I1 by (intros; by eapply put_sem_inv).
  destruct (decide (0 < a_count a)) as [Hpos|Hneg].
  - destruct (wp_find_sem s id p (fun q s' => q = p /\ s' = s) (proj1 Hu) Hp) as [Hp0 Hf].
    specialize (Hf (conj eq_refl eq_refl)). unfold sem_acquire, bind at 1.
    unfold wp in Hf. destruct (rsrc_find RSRC_SEM id s) as [[q s1]|w|] eqn:E; [| |done].
    + destruct Hf as [-> ->]. rewrite decide_False by done.
      unfold get_sem, gets, bind, lift, Datatypes.id, deref. rewrite Hcnt. rewrite decide_True by done. simpl.
      split_and!; [|split; [apply I1|exact Hr]|done|done].
      unfold sem_view. simpl. rewrite lookup_insert_eq, Hx. simpl. unfold abs_acquire.
      rewrite decide_True by done. rewrite s32_small by lia. by rewrite Hq.
    + exfalso. by destruct (rsrc_find_panic RSRC_SEM id s w).
  - assert (wp (sem_acquire id) (fun r s' => sem_view s' p = Some (abs_acquire (k_current s) a) /\
      at_rest s' /\ r = None) s) as H.
    { unfold sem_acquire. wp_step. apply (wp_find_sem s id p); [by destruct Hu|done|].
      rewrite decide_False by (by apply (wp_find_sem s id p (fun _ _ => True) (proj1 Hu) Hp)). wp_go.
      rewrite decide_False by done. wp_go.
      eapply (wait_on_same _ p x); [split; [split; [apply I1|exact Hr]|exact Hi]|exact Hx|done|done|].
      intros R T s' -> HR HS. wp_go. split_and!; [|done|done].
      rewrite (sem_view_same _ _ _ _ HS) by done. erewrite sem_view_upd; [|exact Hx|apply lookup_insert_eq].
      simpl. rewrite lookup_insert_eq. simpl. unfold abs_acquire. rewrite decide_False by done.
      rewrite s32_small by lia. by rewrite Hq. }
    unfold wp in H. destruct (sem_acquire id s) as [[r s']|w|]; [done| |done].
    split; [lia|exact H].
Qed.

(** The monad unfolded, for calls that are executed step by step. *)
Ltac kexec := unfold set_kont, set_current, get_task, get_res, get_sem, get_port, put_task, put_res,
  put_sem, put_port, gets, modify, lift, bind, ret, Datatypes.id, deref.

Lemma find_bound_eq s p x id :
  kinv 0 s -> k_res s !! p = Some x -> r_type x <> RSRC_NONE -> u32 id = r_id x ->
  rsrc_find (r_type x) id s = Ok (p, s).
Proof.
  intros I Hx Hty Hid.
  pose proof (find_bound 0 s p x id (fun q s' => q = p /\ s' = s) I Hx Hty Hid (conj eq_refl eq_refl)) as H.
  unfold wp in H. destruct (rsrc_find _ id s) as [[q s']|w|] eqn:E; [|by destruct (rsrc_find_panic _ _ _ _ E)|done].
  by destruct H as [-> ->].
Qed.

(** The release of a semaphore on which [t] waits first, as one step. *)
Lemma sem_release_eq s id p x c t q tk ck rq :
  rsrc_find RSRC_SEM id s = Ok (p, s) -> p <> 0 -> k_sem s !! p = Some c ->
  k_res s !! p = Some x -> r_queue x = t :: q -> k_task s !! t = Some tk -> t <> 0 ->
  k_task s !! k_current s = Some ck -> t <> k_current s ->
  k_res s !! g_run_queue (k_glob s) = Some rq -> p <> g_run_queue (k_glob s) ->
  k_current s <> g_idle_task (k_glob s) ->
  exists T tk' ck', sem_release id s = Ok (None, set_k_current (upd (set_k_sem s (<[p := s32 (c + 1)]> (k_sem s)))
    (<[g_run_queue (k_glob s) := r_set_queue rq (r_queue rq ++ [k_current s])]>
       (<[p := r_set_queue x q]> (k_res s))) T) t) /\
    T !! t = Some tk' /\ t_status tk' = ERR_NONE /\
    T !! k_current s = Some ck' /\ t_kont ck' = KRet ERR_NONE.
Proof.
  intros Hf Hp0 Hc Hx Hq Ht Ht0 Hck Hne Hrq Hpr Hi.
  set (tk1 := t_set_wait tk 0 (t_wait_time tk) tREADY).
  set (ck1 := t_set_wait (t_set_kont ck (KRet ERR_NONE)) (g_run_queue (k_glob s)) 0 tWAITING).
  exists (<[t := t_run (t_set_status tk1 ERR_NONE)]> (<[k_current s := ck1]>
    (<[k_current s := t_set_kont ck (KRet ERR_NONE)]> (<[t := tk1]> (k_task s))))), (t_run (t_set_status tk1 ERR_NONE)), ck1.
  split_and!; [|apply lookup_insert_eq|done|by rewrite lookup_insert_ne, lookup_insert_eq|done].
  unfold sem_release, bind at 1. rewrite Hf. rewrite decide_False by done.
  unfold rsrc_dequeue, queue_detach_head, preempt, rsrc_enqueue. kexec.
  rewrite Hc. simpl. rewrite Hx, Hq. rewrite decide_False by done. simpl. rewrite Ht. simpl.
  rewrite decide_False by done. simpl. rewrite lookup_insert_ne, Hck by done. simpl. rewrite decide_False by done. simpl.
  rewrite lookup_insert_eq. simpl. rewrite lookup_insert_ne, Hrq by done. simpl.
  rewrite !lookup_insert_ne, lookup_insert_eq by done. reflexivity.
Qed.

(** C10. sem_release implements the release of a counting semaphore and serves
  the waiting tasks in order: the counter goes up by one; without waiting tasks
  the call returns ERR_NONE; otherwise the task that waited longest leaves the
  queue and runs next with result ERR_NONE, while the caller is at the end of
  the run queue and will return ERR_NONE. *)
Theorem sem_release_refines s id p a
  (Hu : user s) (Hp : is_sem s id p) (Ha : sem_view s p = Some a) (Hc : - 2 ^ 31 <= a_count a < 2 ^ 31 - 1) :
  (exists r s', sem_release id s = Ok (r, s') /\ at_rest s' /\
     sem_view s' p = Some (abs_release a) /\
     match a_wait a with
     | [] => r = Some ERR_NONE /\ k_current s' = k_current s
     | t :: _ => r = None /\ k_current s' = t /\
         exists tk ck rq, k_task s' !! t = Some tk /\ t_status tk = ERR_NONE /\
           k_task s' !! k_current s = Some ck /\ t_kont ck = KRet ERR_NONE /\
           k_res s' !! g_run_queue (k_glob s) = Some rq /\ last (r_queue rq) = Some (k_current s)
     end) /\
  (balanced a -> balanced (abs_release a)).
Proof.
  split; [|apply balanced_release]. destruct (sem_view_Some _ _ _ Ha) as (x & Hx & Hcnt & Hq).
  destruct (is_sem_queue _ _ _ (proj1 Hu) Hp) as [Hrun Hrp]. pose proof Hu as [[I Hr] Hi].
  destruct (wp_find_sem s id p (fun _ _ => True) (proj1 Hu) Hp) as [Hp0 _].
  assert (rsrc_find RSRC_SEM id s = Ok (p, s)) as Hf.
  { destruct Hp as (y & Hy & Hty & Hid). simplify_eq. rewrite <- Hty. apply find_bound_eq; congruence || done. }
  pose proof (sem_release_spec s id Hu) as Hspec. destruct (a_wait a) as [|t q] eqn:Hw.
  - assert (sem_release id s = Ok (Some ERR_NONE, set_k_sem s (<[p := s32 (a_count a + 1)]> (k_sem s)))) as E.
    { unfold sem_release, bind at 1. rewrite Hf. rewrite decide_False by done.
      unfold rsrc_dequeue, queue_detach_head. kexec. rewrite Hcnt. simpl. rewrite Hx, Hq. simpl. reflexivity. }
    eexists _, _. split; [exact E|]. split; [by apply (wp_Ok _ _ _ _ _ Hspec E)|]. split; [|done].
    unfold sem_view. simpl. rewrite lookup_insert_eq, Hx. simpl. unfold abs_release. rewrite Hq, Hw, s32_small by lia. done.
  - destruct (q_in _ _ _ (kv_q _ _ _ I) p x t Hx) as (tk & Ht & Htw & _).
    { rewrite Hq. apply elem_of_cons. by left. }
    pose proof Hr as (ck & Hck & _ & Hcw). destruct (kinv_run_queue _ _ I) as (rq & Hrq & _).
    assert (t <> k_current s) as Hne by (intros ->; congruence).
    destruct (sem_release_eq s id p x (a_count a) t q tk ck rq) as (T & tk' & ck' & E & H1 & H2 & H3 & H4);
      try done; [by eapply kinv_task_pos|].
    eexists _, _. split; [exact E|]. split; [by apply (wp_Ok _ _ _ _ _ Hspec E)|]. split_and!; [|done|done|].
    + unfold sem_view. simpl. rewrite lookup_insert_eq, lookup_insert_ne, lookup_insert_eq by done. simpl.
      unfold abs_release. rewrite Hw, s32_small by lia. done.
    + exists tk', ck', (r_set_queue rq (r_queue rq ++ [k_current s])). simpl. split_and!; try done.
      * by rewrite lookup_insert_eq.
      * by rewrite last_snoc.
Qed.

(** ** Calls that cannot stop in panic() *)
Definition nopanic {A} (m : M A) : Prop := forall s w, m s <> Panic w.

Section nopanic.
Context {A B : Type}.
Lemma nopanic_bind (m : M B) (k : B -> M A) : nopanic m -> (forall b, nopanic (k b)) -> nopanic (b <- m ;; k b).
Proof.
  intros Hm Hk s w E. unfold bind in E. destruct (m s) as [[b s1]|w'|] eqn:E1; [by apply Hk in E|by apply Hm in E1|done].
Qed.
Lemma nopanic_ret (a : A) : nopanic (ret a).
Proof. done. Qed.
Lemma nopanic_gets (f : kst -> A) : nopanic (gets f).
Proof. done. Qed.
Lemma nopanic_deref (o : option A) : nopanic (lift (deref o)).
Proof. intros s w. by destruct o. Qed.
Lemma nopanic_if (P : Prop) `{Decision P} (m1 m2 : M A) :
  nopanic m1 -> nopanic m2 -> nopanic (if decide P then m1 else m2).
Proof. intros H1 H2. by case_decide. Qed.
Lemma nopanic_fault : nopanic (A := A) fault.
Proof. done. Qed.
End nopanic.

Lemma nopanic_modify f : nopanic (modify f).
Proof. done. Qed.
Lemma nopanic_find ty i : nopanic (rsrc_find ty i).
Proof. intros s w. apply rsrc_find_panic. Qed.

Create HintDb nopanic.
#[export] Hint Resolve nopanic_bind nopanic_ret nopanic_gets nopanic_deref nopanic_if nopanic_fault
  nopanic_modify nopanic_find : nopanic.
#[export] Hint Unfold get_res get_task get_sem get_port put_res put_task put_sem put_port
  current_team umem_read umem_write : nopanic.

Ltac solve_nopanic := repeat (cbv zeta; autounfold with nopanic;
  first [ solve [auto with nopanic] | apply nopanic_if | apply nopanic_bind; [|intros] ]).

Lemma nopanic_wake_one p : nopanic (wake_one p).
Proof.
  unfold wake_one, rsrc_dequeue, queue_detach_head, task_wake, rsrc_enqueue.
  apply nopanic_bind; [|intros; solve_nopanic]. apply nopanic_bind; [|intros; solve_nopanic].
  apply nopanic_bind; [solve_nopanic|]. intros r. destruct (r_queue r); solve_nopanic.
Qed.
#[export] Hint Resolve nopanic_wake_one : nopanic.

Lemma nopanic_port_recv_take dst src msg size code p : nopanic (port_recv_take dst src msg size code p).
Proof.
  unfold port_recv_take. apply nopanic_bind; [solve_nopanic|]. intros pt.
  destruct (p_msgs pt) as [|m l]; [done|]. solve_nopanic.
Qed.

(** ** Ports *)

Definition is_port (s : kst) (id p : Z) : Prop :=
  exists x, k_res s !! p = Some x /\ r_type x = RSRC_PORT /\ r_id x = u32 id.

Lemma find_port_eq s id p : kinv 0 s -> is_port s id p -> rsrc_find RSRC_PORT id s = Ok (p, s) /\ p <> 0.
Proof.
  intros I (x & Hx & Hty & Hid). split.
  - rewrite <- Hty. apply find_bound_eq; congruence || done.
  - intros ->. by rewrite (kinv_res0 _ _ I) in Hx.
Qed.

(** A page is at hand for a message of this size. *)
Definition page_ready (s : kst) (size : Z) : Prop := size < 256 \/ k_msg_pool s <> [].

Lemma port_send_post_total s src dst msg size code p pt :
  at_rest s -> k_port s !! p = Some pt -> p_msgcount pt < MAX_MSGCOUNT -> page_ready s size ->
  0 <= msg -> msg + size <= 0x400000 -> 0 <= size <= 4096 ->
  exists s' pg, port_send_post src dst msg size code p s = Ok (size, s') /\ at_rest s' /\
    posted s s' p (Msg size code src dst pg (bytes_at (k_umem s) (cur_team s) msg size)).
Proof.
  intros HR Hpt Hc Hpg Hmsg Hend Hsz. assert (user_addr msg size) as Ha by (right; lia).
  pose proof (port_send_post_spec s src dst msg size code p pt HR Hpt Hc (or_intror (or_intror Ha))) as H.
  unfold wp in H.
  destruct (port_send_post src dst msg size code p s) as [[r s']|w|] eqn:E; [|exfalso|done].
  - rewrite (u32_small msg), (u32_small size), decide_False in H by lia. destruct H as (HR' & -> & pg & Hpost). eauto 10.
  - revert E. unfold port_send_post. rewrite (u32_small msg), (u32_small size), decide_False by lia.
    unfold bind at 1. destruct (decide (size < 256)).
    + simpl. match goal with |- ?m s = _ -> _ => enough (nopanic m) as Hn by apply Hn end. solve_nopanic.
    + destruct Hpg as [|Hpool]; [done|]. unfold msg_page, bind at 1. simpl.
      destruct (k_msg_pool s) as [|pg rest0]; [done|]. simpl.
      match goal with |- ?m ?s1 = _ -> _ => enough (nopanic m) as Hn by apply Hn end. solve_nopanic.
Qed.

Lemma port_send_total s src dst msg size code f p pt :
  user s -> is_port s src f -> is_port s dst p -> k_port s !! p = Some pt -> p_slaved pt = 0 ->
  p_msgcount pt < MAX_MSGCOUNT -> page_ready s size -> 0 <= msg -> msg + size <= 0x400000 -> 0 <= size <= 4096 ->
  exists s' pg, port_send src dst msg size code s = Ok (Some size, s') /\ at_rest s' /\
    posted s s' p (Msg size code src dst pg (bytes_at (k_umem s) (cur_team s) msg size)).
Proof.
  intros [HR _] Hf Hp Hpt Hsl Hc Hpg Hmsg Hend Hsz.
  destruct (find_port_eq _ _ _ (proj1 HR) Hf) as [Ef Hf0]. destruct (find_port_eq _ _ _ (proj1 HR) Hp) as [Ep Hp0].
  destruct (port_send_post_total s src dst msg size code p pt) as (s' & pg & E & HR' & Hpost); try done.
  exists s', pg. split; [|done]. unfold port_send, bind at 1. rewrite Ef. rewrite decide_False by done.
  unfold bind at 1. rewrite Ep, decide_False by done. unfold bind at 1. unfold get_port at 1. kexec. rewrite Hpt.
  rewrite decide_True by done. unfold port_send_loop. kexec. rewrite Hpt. rewrite decide_False by lia. by rewrite E.
Qed.

Lemma port_recv_total s dst src msg size code p pt m l :
  user s -> is_port s dst p -> k_port s !! p = Some pt -> p_msgs pt = m :: l -> 0 <= msg <= 0x400000 -> recv_buffers src msg size code ->
  exists s', port_recv dst src msg size code s = Ok (Some (Z.min (m_size m) size), s') /\ at_rest s' /\
    taken s s' p l /\ k_umem s' = recv_umem (k_umem s) (cur_team s) src msg size code m.
Proof.
  intros [HR _] Hp Hpt Hm Hmsg Hbuf. destruct (find_port_eq _ _ _ (proj1 HR) Hp) as [Ep Hp0].
  assert (p_msgcount pt <> 0) as Hc.
  { destruct HR as [I _]. destruct (kv_x _ _ _ I) as [_ H]. destruct (po_msgs _ _ _ _ H _ _ Hpt) as [-> _].
    rewrite Hm. simpl. lia. }
  pose proof (port_recv_take_spec s dst src msg size code p pt HR Hpt Hc Hbuf) as H. unfold wp in H.
  destruct (port_recv_take dst src msg size code p s) as [[r s']|w|] eqn:E;
    [|by destruct (nopanic_port_recv_take _ _ _ _ _ _ _ _ E)|done].
  destruct H as (HR' & m' & l' & Em & -> & Htk & Eu). rewrite Hm in Em. injection Em as <- <-.
  exists s'. split; [|done]. unfold port_recv, bind at 1. rewrite Ep, decide_False by done.
  destruct HR as [I _]. destruct (sc_cur _ _ _ _ (kv_sched _ _ _ I)) as [tk Ht].
  unfold current_team. kexec. rewrite Ht. rewrite decide_False by (rewrite u32_small; lia).
  unfold port_recv_loop. kexec. rewrite Hpt. rewrite decide_False by done. by rewrite E.
Qed.

(** *** User memory *)
Lemma umem_put_other um tm a l tm' b :
  (tm' <> tm \/ b < a \/ a + Z.of_nat (length l) <= b) -> umem_put um tm a l !! (tm', b) = um !! (tm', b).
Proof.
  revert um a. induction l as [|x l IH]; intros um a Hb; simpl; [done|].
  rewrite IH by (simpl in Hb; lia). rewrite lookup_insert_ne; [done|]. simpl in Hb. intros [= -> ->]. lia.
Qed.

Lemma umem_put_lookup l : forall um tm a i x, l !! i = Some x ->
  umem_put um tm a l !! (tm, a + Z.of_nat i) = Some x.
Proof.
  induction l as [|y l IH]; intros um tm a i x Hi; [done|]. destruct i as [|i]; simpl in *.
  - simplify_eq. rewrite umem_put_other by lia. rewrite Z.add_0_r. apply lookup_insert_eq.
  - replace (a + Z.of_nat (S i)) with (a + 1 + Z.of_nat i) by lia. by apply IH.
Qed.

Lemma length_bytes_at um tm a n : length (bytes_at um tm a n) = Z.to_nat n.
Proof. unfold bytes_at. by rewrite length_map, length_seq. Qed.

Lemma bytes_at_lookup um tm a n i : (i < Z.to_nat n)%nat ->
  bytes_at um tm a n !! i = Some (default 0 (um !! (tm, a + Z.of_nat i))).
Proof.
  intros Hi. unfold bytes_at. rewrite list_lookup_fmap, lookup_seq_lt by done. done.
Qed.

(** What is written there is read there. *)
Lemma bytes_at_put um tm a l n : n = Z.of_nat (length l) -> bytes_at (umem_put um tm a l) tm a n = l.
Proof.
  intros ->. apply list_eq. intros i. destruct (decide (i < length l)%nat) as [Hi|Hi].
  - rewrite bytes_at_lookup by lia. destruct (lookup_lt_is_Some_2 l i Hi) as [x Hx].
    by rewrite (umem_put_lookup l _ _ _ _ _ Hx), Hx.
  - rewrite !lookup_ge_None_2; [done|lia|]. rewrite length_bytes_at. lia.
Qed.

Lemma bytes_at_put_other um tm a l b n :
  (b + n <= a \/ a + Z.of_nat (length l) <= b) -> bytes_at (umem_put um tm a l) tm b n = bytes_at um tm b n.
Proof.
  intros H. unfold bytes_at. apply map_ext_in. intros i Hi. apply in_seq in Hi.
  rewrite umem_put_other; [done|]. lia.
Qed.

(** [n1] bytes at [a1] and [n2] bytes at [a2] do not overlap. *)
Definition apart (a1 n1 a2 n2 : Z) : Prop := a1 + n1 <= a2 \/ a2 + n2 <= a1.

(** C11. A message goes through a port unchanged.  When a task sends [size] bytes
  (at most 4096, in user memory) to a port that is not slaved, is
  empty and for which a page is at hand if the message needs one, port_send
  returns [size]; and whatever runs in between, as long as the port keeps that
  message, a task that calls port_recv on the port, with a buffer, *src and *code
  in user memory that do not overlap, gets the number of bytes,
  exactly the sender's bytes (cut at its buffer size) in its buffer, the sending
  port in *src and the code in *code, and the port is empty again.  Neither call
  stops or faults.  Who calls does not matter: the checks of the owner of the two
  ports and of the restriction of the destination, which doc/ipcdocs promises
  (lines 28 and 38), are switched off in the source (port.c:112, 124, 203). *)
Theorem port_roundtrip s src dst msg size code f p pt
  (Hu : user s) (Hf : is_port s src f) (Hp : is_port s dst p) (Hpt : k_port s !! p = Some pt)
  (Hsl : p_slaved pt = 0) (He : p_msgs pt = []) (Hpg : page_ready s size)
  (Hmsg : 0 <= msg /\ msg + size <= 0x400000) (Hsz : 0 <= size <= 4096) :
  exists s1, port_send src dst msg size code s = Ok (Some size, s1) /\ at_rest s1 /\
  forall s2 dst2 srcp buf max codep,
    user s2 -> is_port s2 dst2 p -> k_port s2 !! p = k_port s1 !! p ->
    0 <= buf /\ buf + max <= 0x400000 -> 0 <= max -> 0 < srcp <= 0x400000 - 4 -> 0 < codep <= 0x400000 - 4 ->
    apart buf max srcp 4 -> apart buf max codep 4 -> apart srcp 4 codep 4 ->
    exists s3 pt3, port_recv dst2 srcp buf max codep s2 = Ok (Some (Z.min size max), s3) /\ at_rest s3 /\
      bytes_at (k_umem s3) (cur_team s2) buf (Z.min size max) =
        bytes_at (k_umem s) (cur_team s) msg (Z.min size max) /\
      bytes_at (k_umem s3) (cur_team s2) srcp 4 = le32 src /\
      bytes_at (k_umem s3) (cur_team s2) codep 4 = le32 code /\
      k_port s3 !! p = Some pt3 /\ p_msgs pt3 = [] /\ p_msgcount pt3 = 0.
Proof.
  assert (p_msgcount pt = 0) as Hc.
  { destruct Hu as [[I _] _]. destruct (kv_x _ _ _ I) as [_ H]. destruct (po_msgs _ _ _ _ H _ _ Hpt) as [-> _].
    by rewrite He. }
  destruct (port_send_total s src dst msg size code f p pt) as (s1 & pg & E & HR1 & (pt0 & Hpt0 & _ & Ep)); try done; try lia.
  { rewrite Hc. done. }
  simplify_eq. exists s1. split_and!; [done|done|]. rewrite Ep, lookup_insert_eq, He, Hc. simpl.
  intros s2 dst2 srcp buf max codep Hu2 Hp2 Hpt2 Hbuf Hmax Hs0 Hc0 A1 A2 A3.
  set (m := Msg size code src dst pg _) in Hpt2.
  destruct (port_recv_total s2 dst2 srcp buf max codep p _ m [] Hu2 Hp2 Hpt2 eq_refl ltac:(lia) ltac:(unfold recv_buffers, user_addr; lia))
    as (s3 & E3 & HR3 & (pt2 & Hpt2' & Ep3) & Eu3).
  rewrite Hpt2 in Hpt2'. injection Hpt2' as <-. exists s3, (p_set_msgs pt 0 []).
  unfold recv_umem in Eu3. rewrite !decide_False in Eu3 by lia.
  set (data := take _ _) in Eu3.
  assert (length data = Z.to_nat (Z.min size max)) as Hlen.
  { subst data m. cbn [m_data m_size]. rewrite length_take, length_bytes_at. lia. }
  rewrite Eu3. unfold apart in *. split_and!; [done|done| | | | |done|done].
  - rewrite !bytes_at_put_other by (simpl; lia). rewrite bytes_at_put by lia. apply list_eq. intros i.
    destruct (decide (i < Z.to_nat (Z.min size max))%nat) as [Hi|Hi].
    + subst data m. cbn [m_data m_size]. rewrite lookup_take_lt, !bytes_at_lookup by lia. done.
    + rewrite !lookup_ge_None_2; [done|rewrite length_bytes_at; lia|]. rewrite Hlen. lia.
  - rewrite bytes_at_put_other by (simpl; lia). by rewrite bytes_at_put.
  - by rewrite bytes_at_put.
  - rewrite Ep3. rewrite lookup_insert_eq. done.
Qed.

(** ** Witnesses in the example system *)

Definition is_resb (s : kst) (ty : rsrc_type) (id p : Z) : bool :=
  match k_res s !! p with Some x => bool_decide (r_type x = ty /\ r_id x = u32 id) | None => false end.

Lemma is_resb_ok s ty id p : is_resb s ty id p = true ->
  exists x, k_res s !! p = Some x /\ r_type x = ty /\ r_id x = u32 id.
Proof.
  unfold is_resb. destruct (k_res s !! p) as [x|]; [|done]. rewrite bool_decide_eq_true. eauto.
Qed.

(** The reaper's semaphore of the example system. *)
Lemma ex_reaper_sem : is_sem KCheck.ex_state 25 2240.
Proof. apply is_resb_ok. by vm_compute. Qed.

Lemma ex_reaper_view : sem_view KCheck.ex_state 2240 = Some (ASem 0 []).
Proof. by vm_compute. Qed.

Lemma sem_acquire_refines_witness :
  match sem_acquire 25 KCheck.ex_state with
  | Ok (r, s') =>
      sem_view s' 2240 = Some (abs_acquire (k_current KCheck.ex_state) (ASem 0 [])) /\ at_rest s' /\
      (if decide (0 < a_count (ASem 0 [])) then r = Some ERR_NONE /\ k_current s' = k_current KCheck.ex_state
       else r = None)
  | Panic w => a_count (ASem 0 []) <= 0 /\ w <> "The dead have returned!"%string
  | Fault => False
  end.
Proof.
  apply (sem_acquire_refines KCheck.ex_state 25 2240 (ASem 0 []) Kernel.ex_state_user ex_reaper_sem ex_reaper_view).
  simpl. lia.
Defined.

Lemma sem_release_refines_witness :
  exists r s', sem_release 25 KCheck.ex_state = Ok (r, s') /\ at_rest s' /\
    sem_view s' 2240 = Some (abs_release (ASem 0 [])) /\ r = Some ERR_NONE.
Proof.
  destruct (sem_release_refines KCheck.ex_state 25 2240 (ASem 0 []) Kernel.ex_state_user ex_reaper_sem
    ex_reaper_view) as [(r & s' & H1 & H2 & H3 & H4 & _) _]; [simpl; lia|].
  exists r, s'. split; [exact H1|]. split; [exact H2|]. split; [exact H3|exact H4].
Defined.

Lemma port_roundtrip_witness :
  exists s1, port_send 1 28 0x2000 4 7 KCheck.ex_state = Ok (Some 4, s1) /\ at_rest s1.
Proof.
  destruct (port_roundtrip KCheck.ex_state 1 28 0x2000 4 7 128 2496 (Port 0 0 [] 1 0 0 2560)) as (s1 & H1 & H2 & _).
  - exact Kernel.ex_state_user.
  - apply is_resb_ok. by vm_compute.
  - apply is_resb_ok. by vm_compute.
  - by vm_compute.
  - reflexivity.
  - reflexivity.
  - left. lia.
  - lia.
  - lia.
  - exists s1. split; [exact H1|exact H2].
Defined.

End IPC.
