(* ===== verification/Fair.v ===== *)
(** Fairness of the scheduler: timer interrupts take the processor away from the
  running task and hand it round, so that no task that is ready to run waits for
  longer than the tasks ahead of it in the run queue have one tick each. *)
From S2P Require Import Prelude KList KMem KState Rsrc Sched Syscall KInv KSafe KCheck Kernel IPC.
Import KState Rsrc Sched Syscall KInv KSafe Kernel IPC.
Local Open Scope Z_scope.
Local Open Scope k_scope.

Module Fair.

(** The tasks that are ready to run, in the order in which they will. *)
Definition ready (s : kst) : list Z :=
  match k_res s !! g_run_queue (k_glob s) with Some x => r_queue x | None => [] end.

(** What a task does when it gets the processor: it executes user code, or first returns
  from a call that it was woken from.  A task inside port_send or port_recv may wait again. *)
Definition returns (k : kont) : Prop :=
  match k with KPortSend _ _ _ _ _ _ | KPortRecv _ _ _ _ _ _ => False | _ => True end.
#[export] Instance returns_dec k : Decision (returns k).
Proof. destruct k; apply _. Defined.

(** So do the tasks that have the processor, wait for it or sleep; the idle task is always
  in its loop. *)
Definition computing (s : kst) : Prop :=
  map_Forall (fun t tk => t_waiting_on tk = 0 \/ t_waiting_on tk = g_run_queue (k_glob s) \/
    t_waiting_on tk = g_timer_queue (k_glob s) -> returns (t_kont tk) /\ (t = g_idle_task (k_glob s) -> t_kont tk = KUser)) (k_task s).

(** [n] timer interrupts: before each the running task may return from a call. *)
Inductive ticks : nat -> list event -> Prop :=
| ticks_nil : ticks 0 []
| ticks_now n l : ticks n l -> ticks (S n) (EvTimer 0 :: l)
| ticks_after n l : ticks n l -> ticks (S n) (EvResume :: EvTimer 0 :: l).

(** A run of given events. *)
Inductive runs : kst -> list event -> kst -> Prop :=
| runs_nil s : runs s [] s
| runs_cons s ev r s1 l s2 : step s ev r s1 -> runs s1 l s2 -> runs s (ev :: l) s2.

Lemma ready_eq s x : k_res s !! g_run_queue (k_glob s) = Some x -> ready s = r_queue x.
Proof. unfold ready. by intros ->. Qed.

(** The queue of a task does not tell whether it is computing. *)
Lemma computing_put s s' t tk tk' : computing s -> k_glob s' = k_glob s -> k_task s !! t = Some tk ->
  k_task s' = <[t := tk']> (k_task s) -> t_kont tk' = t_kont tk ->
  t_waiting_on tk = 0 \/ t_waiting_on tk = g_run_queue (k_glob s) \/ t_waiting_on tk = g_timer_queue (k_glob s) ->
  computing s'.
Proof.
  intros H Hg Ht Hs Hk Hw. unfold computing. rewrite Hs, Hg. apply map_Forall_insert_2; [|done]. intros _. rewrite Hk. by eapply H.
Qed.

Lemma timer_loop_fifo fuel s tq :
  at_rest s -> computing s -> k_res s !! g_timer_queue (k_glob s) = Some tq -> (length (r_queue tq) < fuel)%nat ->
  wp (timer_loop fuel 0) (fun _ s' => at_rest s' /\ computing s' /\ k_glob s' = k_glob s /\ exists w, ready s' = ready s ++ w) s.
Proof.
  revert s tq. induction fuel as [|fuel IH]; intros s tq [I Hr] Hc Htq Hlen; [lia|].
  assert (wp (ret tt) (fun _ s' => at_rest s' /\ computing s' /\ k_glob s' = k_glob s /\ exists w, ready s' = ready s ++ w) s) as Hend.
  { wp_go. split_and!; [by split|done|done|]. exists []. by rewrite app_nil_r. }
  simpl. wp_go. unfold rsrc_queue_peek. wp_go. destruct (r_queue tq) as [|t q] eqn:Hq.
  { wp_go. by rewrite decide_True. }
  destruct (q_in _ _ _ (kv_q _ _ _ I) _ _ t Htq) as (tk & Ht & Hw & _).
  { rewrite Hq. apply elem_of_cons. by left. }
  wp_go. rewrite decide_False by (by eapply kinv_task_pos). wp_go. case_decide; [|done].
  wp_step. eapply rsrc_dequeue_spec; [exact I|exact Htq|congruence|].
  intros t' q' tk0 Hq' Ht' Hp Hi Hw' tk' s' I'.
  assert (t' <> k_current s) as Hne.
  { intros ->. destruct (running_detached _ _ _ _ I Hr Htq). rewrite Hq'. apply elem_of_cons. by left. }
  rewrite Hq in Hq'. injection Hq' as <- <-. wp_step.
  destruct (kinv_distinct _ _ I) as (Hrt & Hrr & _). destruct (kinv_run_queue _ _ I) as (rq & Hrq & _).
  eapply (rsrc_enqueue_spec t s' _ rq t tk'); [exact I'| |apply lookup_insert_eq|done|done|done|done|].
  { simpl. rewrite lookup_insert_ne by done. exact Hrq. }
  simpl. intros I2. match type of I2 with kinvX _ _ ?x => set (s2 := x) in * end.
  eapply wp_mono; [eapply (IH s2)|].
  - split; [exact I2|]. eapply running_tasks; [exact Hr|done|]. simpl. by rewrite !lookup_insert_ne.
  - eapply (computing_put s s2 t tk0); [done|done|done|simpl; by rewrite insert_insert_eq|done|auto].
  - simpl. rewrite lookup_insert_ne by done. apply lookup_insert_eq.
  - simpl in *. lia.
  - intros _ s3 (A3 & C3 & G3 & w & W3). split_and!; [done|done|done|]. exists (t :: w). rewrite W3.
    rewrite (ready_eq s rq Hrq). erewrite (ready_eq s2); [|simpl; apply lookup_insert_eq]. simpl. by rewrite <- app_assoc.
Qed.

(** swtch_next on a run queue that is not empty. *)
Definition next_st (s : kst) (rq : resource) (t : Z) (tk : task) (q : list Z) : kst :=
  let tk' := t_set_wait tk 0 (t_wait_time tk) tREADY in
  let T := <[t := tk']> (k_task s) in
  set_k_task (set_k_current (upd s (<[g_run_queue (k_glob s) := r_set_queue rq q]> (k_res s)) T) t) (<[t := t_run tk']> T).

Lemma swtch_next_eq s rq t q tk : k_res s !! g_run_queue (k_glob s) = Some rq -> r_queue rq = t :: q ->
  k_task s !! t = Some tk -> t <> 0 -> swtch_next s = Ok (tt, next_st s rq t tk q).
Proof.
  intros Hrq Hq Ht H0. set (tk' := t_set_wait tk 0 (t_wait_time tk) tREADY).
  assert (rsrc_dequeue (g_run_queue (k_glob s)) s =
    Ok (t, upd s (<[g_run_queue (k_glob s) := r_set_queue rq q]> (k_res s)) (<[t := tk']> (k_task s)))) as E.
  { unfold rsrc_dequeue, queue_detach_head, get_res, get_task, put_res, put_task, modify, gets, lift, bind, id, deref, ret.
    rewrite Hrq. cbv beta iota. rewrite Hq. cbv beta iota. rewrite decide_False by done. cbn [k_task set_k_res]. by rewrite Ht. }
  unfold swtch_next, gets, bind at 1. cbv beta iota. unfold bind at 1. rewrite E. cbv beta iota.
  unfold get_task, put_task, set_current, modify, gets, lift, bind, id, deref. rewrite decide_False by done.
  cbn [k_current k_task set_k_current upd set_k_task set_k_res]. by rewrite lookup_insert_eq.
Qed.

Lemma next_st_ready s rq t tk q : ready (next_st s rq t tk q) = q.
Proof. unfold ready. simpl. by rewrite lookup_insert_eq. Qed.

Lemma next_st_computing s rq t tk q : computing s -> k_task s !! t = Some tk -> t_waiting_on tk = g_run_queue (k_glob s) ->
  computing (next_st s rq t tk q).
Proof.
  intros Hc Ht Hw. eapply (computing_put s _ t tk (t_run (t_set_wait tk 0 (t_wait_time tk) tREADY))); [done|done|done| |done|auto].
  simpl. by rewrite insert_insert_eq.
Qed.

(** swtch by a running task: the head of the run queue gets the processor, and
  the task that had it goes to the end of the queue, unless it is the idle task. *)
Lemma swtch_fifo s t q : at_rest s -> computing s -> ready s = t :: q ->
  exists s' w, swtch s = Ok (tt, s') /\ at_rest s' /\ computing s' /\ k_current s' = t /\ k_glob s' = k_glob s /\ ready s' = q ++ w.
Proof.
  intros HR Hc Hq. pose proof HR as [I Hr]. destruct (kinv_run_queue _ _ I) as (rq & Hrq & _). rewrite (ready_eq s rq Hrq) in Hq.
  destruct Hr as (ck & Hck & Hcf & Hcw).
  destruct (q_in _ _ _ (kv_q _ _ _ I) _ _ t Hrq) as (tk & Ht & Hw & _); [rewrite Hq; apply elem_of_cons; by left|].
  assert (t <> 0) as H0 by by eapply kinv_task_pos.
  assert (t <> k_current s) as Hne.
  { intros ->. destruct (running_detached _ _ _ _ I ltac:(by exists ck) Hrq). rewrite Hq. apply elem_of_cons. by left. }
  assert (forall s', swtch s = Ok (tt, s') -> at_rest s') as Hrest.
  { intros s' E. eapply (wp_Ok swtch (fun _ => at_rest)); [|exact E]. eapply swtch_spec; [done|left; by exists ck|intros; by split]. }
  pose proof (swtch_eq s ck rq Hck Hrq) as Es. rewrite decide_False in Es by (rewrite Hq; by intros [? _]).
  destruct (decide (k_current s = g_idle_task (k_glob s))) as [Hi|Hi].
  - rewrite decide_False in Es by tauto. change ((_ <- ret tt ;; swtch_next) s) with (swtch_next s) in Es. rewrite (swtch_next_eq s rq t q tk Hrq Hq Ht H0) in Es.
    exists (next_st s rq t tk q), []. split_and!; [done|by apply Hrest|by apply next_st_computing|done|done|]. by rewrite next_st_ready, app_nil_r.
  - rewrite decide_True in Es by done.
    set (ck' := t_set_wait ck (g_run_queue (k_glob s)) 0 tWAITING).
    set (rq' := r_set_queue rq (r_queue rq ++ [k_current s])).
    set (s1 := upd s (<[g_run_queue (k_glob s) := rq']> (k_res s)) (<[k_current s := ck']> (k_task s))).
    assert (rsrc_enqueue (g_run_queue (k_glob s)) (k_current s) s = Ok (tt, s1)) as E1.
    { unfold rsrc_enqueue, get_res, get_task, put_res, put_task, modify, gets, lift, bind, id, deref. rewrite Hck. cbn. by rewrite Hrq. }
    unfold bind in Es at 1. rewrite E1 in Es.
    rewrite (swtch_next_eq s1 rq' t (q ++ [k_current s]) tk) in Es; [|simpl; apply lookup_insert_eq|simpl; by rewrite Hq|simpl; by rewrite lookup_insert_ne|done].
    exists (next_st s1 rq' t tk (q ++ [k_current s])), [k_current s]. split_and!; [done|by apply Hrest| |done|done|by rewrite next_st_ready].
    apply next_st_computing; [|simpl; by rewrite lookup_insert_ne|done]. eapply (computing_put s s1 (k_current s) ck ck'); [done|done|done|done|done|auto].
Qed.

Lemma nopanic_timer_loop fuel : nopanic (timer_loop fuel 0).
Proof.
  induction fuel as [|fuel IH]; [apply nopanic_fault|]. simpl. unfold rsrc_queue_peek, rsrc_dequeue, queue_detach_head, rsrc_enqueue.
  apply nopanic_bind; [solve_nopanic|]. intros g. apply nopanic_bind.
  { apply nopanic_bind; [solve_nopanic|]. intros r. destruct (r_queue r); solve_nopanic. }
  intros t. apply nopanic_if; [solve_nopanic|]. repeat (apply nopanic_bind; [solve_nopanic|intros]). apply nopanic_if; [|solve_nopanic].
  apply nopanic_bind.
  { apply nopanic_bind; [|intros; solve_nopanic]. apply nopanic_bind; [solve_nopanic|]. intros r. destruct (r_queue r); solve_nopanic. }
  intros t'. apply nopanic_bind; [solve_nopanic|]. by intros.
Qed.

(** One tick. *)
Lemma tick_fifo s t q : at_rest s -> computing s -> ready s = t :: q ->
  exists s' w, timer_irq 0 s = Ok (tt, s') /\ at_rest s' /\ computing s' /\ k_current s' = t /\ ready s' = q ++ w.
Proof.
  intros HR Hc Hq. pose proof HR as [I Hr]. set (s1 := set_k_timer s (s32 (k_timer s + 1))).
  assert (at_rest s1) as R1 by (split; [by apply kinv_timer|done]).
  destruct (kinv_queue _ _ (g_timer_queue (k_glob s)) I) as (tq & Htq & _ & _); [set_solver +|].
  assert (wp (timer_loop (S (length (r_queue tq))) 0) (fun _ s' => at_rest s' /\ computing s' /\ k_glob s' = k_glob s1 /\ exists w, ready s' = ready s1 ++ w) s1) as Hl
    by (eapply timer_loop_fifo; [done|done|exact Htq|lia]).
  assert (timer_irq 0 s = match timer_loop (S (length (r_queue tq))) 0 s1 with Ok (_, s2) => swtch s2 | Panic w => Panic w | Fault => Fault end) as E.
  { unfold timer_irq, queue_fuel, get_res, modify, gets, lift, bind, ret, id, deref. simpl. rewrite Htq. done. }
  rewrite E. unfold wp in Hl. pose proof (nopanic_timer_loop (S (length (r_queue tq))) s1) as Hn.
  destruct (timer_loop _ 0 s1) as [[[] s2]|w|]; [|by destruct (Hn w)|done]. destruct Hl as (R2 & C2 & G2 & w & W2).
  change (ready s1) with (ready s) in W2. rewrite Hq in W2. simpl in W2.
  destruct (swtch_fifo s2 t (q ++ w) R2 C2 W2) as (s3 & w3 & -> & R3 & C3 & Cur3 & G3 & W3).
  exists s3, (w ++ w3). split_and!; [done..|]. by rewrite app_assoc.
Qed.

Lemma tick_step s s' : in_user s -> timer_irq 0 s = Ok (tt, s') -> step s (EvTimer 0) None s'.
Proof. intros Hu E. split; [done|by intros ?|simpl; unfold none, bind; by rewrite E]. Qed.

(** The running task returns to user code, if it is not there. *)
Lemma return_step s : at_rest s -> computing s -> ~ in_user s ->
  exists r s1, step s EvResume r s1 /\ at_rest s1 /\ computing s1 /\ in_user s1 /\ ready s1 = ready s.
Proof.
  intros HR Hc Hu. pose proof HR as [I (tk & Ht & Hf & Hw)]. destruct (Hc _ _ Ht ltac:(auto)) as [Hk Hidle].
  assert (k_current s <> g_idle_task (k_glob s)) as Hi by (intros E; destruct Hu; exists tk; auto).
  assert (~ hazard s EvResume) as Hh.
  { intros [(tk' & Ht' & _ & H)|(tk' & Ht' & H)]; rewrite Ht in Ht'; injection Ht' as <-; by destruct (t_kont tk). }
  set (s1 := set_k_task s (<[k_current s := t_set_kont tk KUser]> (k_task s))).
  assert (exists r, run EvResume s = Ok (r, s1)) as [r E].
  { simpl. unfold resume, set_kont, get_task, gets, put_task, modify, bind, lift, id, deref, ret. rewrite Ht. simpl. rewrite ?Ht. destruct (t_kont tk); try done; rewrite ?Ht; eexists; reflexivity. }
  exists r, s1. split; [by split|]. split; [|split; [|split; [|done]]].
  - exact (wp_Ok _ _ _ _ _ (run_spec s EvResume HR (conj Hi Hu) Hh) E).
  - unfold computing. apply map_Forall_insert_2; [|exact Hc]. intros _. done.
  - exists (t_set_kont tk KUser). split; [apply lookup_insert_eq|done].
Qed.

#[export] Instance in_user_dec s : Decision (in_user s).
Proof. unfold in_user. destruct (k_task s !! k_current s) as [tk|] eqn:E; [destruct (decide (t_kont tk = KUser)); [left; eauto|right; intros (? & ? & ?); congruence]|right; intros (? & ? & ?); congruence]. Defined.

(** One turn: the head of the run queue gets the processor. *)
Lemma turn s t q : at_rest s -> computing s -> ready s = t :: q ->
  exists s' w, at_rest s' /\ computing s' /\ k_current s' = t /\ ready s' = q ++ w /\
    forall n l s2, ticks n l -> runs s' l s2 -> exists l', ticks (S n) l' /\ runs s l' s2.
Proof.
  intros HR Hc Hq. destruct (decide (in_user s)) as [Hu|Hu].
  - destruct (tick_fifo s t q HR Hc Hq) as (s' & w & E & R1 & C1 & Cur1 & W1). exists s', w. split_and!; [done..|]. intros n l s2 Hl R2.
    exists (EvTimer 0 :: l). split; [by constructor|]. econstructor; [by apply tick_step|done].
  - destruct (return_step s HR Hc Hu) as (r & s1 & St & R0 & C0 & U0 & W0). rewrite <- W0 in Hq.
    destruct (tick_fifo s1 t q R0 C0 Hq) as (s' & w & E & R1 & C1 & Cur1 & W1). exists s', w. split_and!; [done..|]. intros n l s2 Hl R2.
    exists (EvResume :: EvTimer 0 :: l). split; [by constructor|]. econstructor; [exact St|]. econstructor; [by apply tick_step|done].
Qed.

(** ** The claims *)

(** C35. Round robin: the n-th task of the run queue is running after n + 1 timer interrupts,
  if the tasks that are ready, running or asleep make no further system calls meanwhile: each
  either executes user code, or was woken from a call (sem_acquire, thr_wait, a sleep) that it
  returns from when it gets the processor; a task that was woken inside port_send or port_recv,
  which may wait again, is not covered.  Each of these interrupts and returns is a step the
  kernel completes without a panic or a fault.  No task can keep the others from the
  processor. *)
Theorem ready_task_runs s n t
  (Hs : at_rest s) (Hc : computing s) (Hn : ready s !! n = Some t) :
  exists l s', ticks (S n) l /\ runs s l s' /\ at_rest s' /\ k_current s' = t.
Proof.
  revert s Hs Hc Hn. induction n as [|n IH]; intros s Hs Hc Hn; destruct (ready s) as [|t0 q] eqn:Hq; try done;
    destruct (turn s t0 q Hs Hc Hq) as (s1 & w & R1 & C1 & Cur1 & W1 & Hturn).
  - destruct (Hturn 0%nat [] s1 ticks_nil (runs_nil _)) as (l & Hl & R). exists l, s1. simpl in Hn. split_and!; [done..|congruence].
  - destruct (IH s1 R1 C1) as (l & s2 & Hl & Hr2 & R2 & Cur2).
    { rewrite W1. simpl in Hn. by rewrite lookup_app_l by by eapply lookup_lt_Some. }
    destruct (Hturn _ _ _ Hl Hr2) as (l' & Hl' & R). exists l', s2. done.
Qed.

(** The third task of the run queue of the example system. *)
Lemma ready_task_runs_witness :
  exists l s', ticks 3 l /\ runs KCheck.ex_state l s' /\ at_rest s' /\ ready KCheck.ex_state !! 2%nat = Some (k_current s').
Proof.
  assert (exists t, ready KCheck.ex_state !! 2%nat = Some t) as [t Ht] by (vm_compute; eauto).
  destruct (ready_task_runs KCheck.ex_state 2 t KCheck.ex_state_at_rest) as (l & s' & H0 & H1 & H2 & H3); [|exact Ht|].
  - apply (bool_decide_unpack _). vm_compute. exact I.
  - exists l, s'. split; [exact H0|]. split; [exact H1|]. split; [exact H2|]. by rewrite H3.
Defined.

End Fair.
