(* ===== verification/VMInv.v ===== *)
(** Virtual memory: the search for free pages of a page table (locate_span of
  kernel/aspace.c) and the invariant that address spaces, areas, page groups and
  the free pages satisfy together, with its preservation as facts on these maps. *)
From S2P Require Import Prelude KList KMem KState Rsrc Sched Sem Aspace KInv.
Import KState Rsrc Sched Sem Aspace KInv.
Local Open Scope Z_scope.
Local Open Scope k_scope.

Module VMInv.

(** ** The search for free pages of a page table *)

(** The entries from [i] to [j] are free. *)
Definition free_run (map : list Z) (i j : Z) : Prop := forall k, i <= k < j -> aget map k = Some 0.

(** No [len] free entries in a row begin between [start] and [stop] and end before
  the end of the table. *)
Definition no_run (map : list Z) (len start stop : Z) : Prop :=
  forall i, start <= i < stop -> i + len <= 1024 -> ~ free_run map i (i + len).

(** The state of the loop at [i]: the run that ends at [i] is [found] long. *)
Lemma blocked_no_run map len start stop :
  (forall k, start <= k < stop -> exists j, k <= j < k + len /\ aget map j <> Some 0) -> no_run map len start stop.
Proof. intros H k Hk _ Hf. destruct (H k Hk) as (j & Hj & Hn). apply Hn, Hf. lia. Qed.

Lemma span_loop_ok map len start fuel : forall i found foundat,
  length map = 1024%nat -> 0 <= start <= i -> i <= 1024 -> 1024 - i <= Z.of_nat fuel -> 0 <= found <= len -> 0 < len ->
  found <= i - start -> (found <> 0 -> foundat = i - found) -> (found = 0 -> foundat = 0) -> free_run map (i - found) i ->
  (forall k, start <= k < i - found -> exists j, k <= j < i /\ j < k + len /\ aget map j <> Some 0) ->
  exists at_, span_loop map len i found foundat fuel = Ok at_ /\
    ((start <= at_ /\ at_ + len <= 1024 /\ free_run map at_ (at_ + len) /\ no_run map len start at_) \/
     (start <= at_ < 1024 /\ 1024 < at_ + len /\ free_run map at_ 1024 /\ no_run map len start 1024) \/
     (at_ = 0 /\ no_run map len start 1024 /\ (start < 1024 -> aget map 1023 <> Some 0))).
Proof.
  induction fuel as [|fuel IH]; intros i found foundat Hl Hs Hi Hf Hfo Hlen Hfi Hat Hz Hrun Hno; cbn [span_loop].
  all: destruct (decide (found < len /\ i < 1024)) as [Hc|Hc]; [try lia|exists foundat; split; [done|]].
  1, 3: destruct (decide (found = len)) as [->|]; [left|right].
  1, 3: rewrite Hat by lia; replace (i - len + len) with i by lia; split_and!; [lia|lia|done|];
    apply blocked_no_run; intros k Hk; destruct (Hno k Hk) as (j & ? & ? & ?); exists j; split; [lia|done].
  1, 2: assert (i = 1024) as -> by lia; destruct (decide (found = 0)) as [->|];
    [right; split_and!; [auto| |]|left; rewrite Hat by done; split_and!; [lia..|done|]].
  1, 4: apply blocked_no_run; intros k Hk; destruct (Hno k) as (j & ? & ? & ?); [lia|]; exists j; split; [lia|done].
  1, 3: intros Hlt; destruct (Hno 1023) as (j & ? & ? & ?); [lia|]; by replace 1023 with j by lia.
  1, 2: intros k Hk Hle; destruct (Hno k) as (j & ? & ? & Hj); [lia|]; intros Hfr; apply Hj, Hfr; lia.
  destruct (aget_in_range map i) as [e He]; [lia|]. rewrite He. destruct (decide (e <> 0)) as [Hne|He0].
  - apply IH; try done; try lia.
    + intros k Hk. lia.
    + intros k Hk. destruct (decide (k < i - found)) as [Hlt|].
      * destruct (Hno k) as (j & ? & ? & ?); [lia|]. exists j. split_and!; [lia..|done].
      * exists i. split_and!; [lia..|]. rewrite He. congruence.
  - apply IH; try done; try lia.
    + intros _. destruct (decide (found = 0)); [lia|]. rewrite Hat by done. lia.
    + intros k Hk. destruct (decide (k = i)) as [->|]; [rewrite He; f_equal; lia|]. apply Hrun. lia.
    + intros k Hk. destruct (Hno k) as (j & ? & ? & ?); [lia|]. exists j. split_and!; [lia..|done].
Qed.

Lemma span_start_range start : 1 <= span_start start <= 1023.
Proof. unfold span_start. case_decide; lia. Qed.

(** What locate_span finds: the first span of [len] free entries, or, when there is
  none, the start of the free entries at the end of the table, or 0. *)
Lemma locate_span_eq s a x start len : k_asp s !! a = Some x -> length (as_ptab x) = 1024%nat -> 0 < len ->
  exists at_, locate_span a start len s = Ok (at_, s) /\ let map := as_ptab x in let st := span_start start in
    ((st <= at_ /\ at_ + len <= 1024 /\ free_run map at_ (at_ + len) /\ no_run map len st at_) \/
     (st <= at_ < 1024 /\ 1024 < at_ + len /\ free_run map at_ 1024 /\ no_run map len st 1024) \/
     (at_ = 0 /\ no_run map len st 1024 /\ (st < 1024 -> aget map 1023 <> Some 0))).
Proof.
  intros Hx Hl Hlen. pose proof (span_start_range start). set (st := span_start start) in *.
  destruct (span_loop_ok (as_ptab x) len st 1024 st 0 0) as (at_ & E & H'); try done; try lia.
  { intros k ?. lia. }
  exists at_. split; [|done]. unfold locate_span, get_asp, gets, bind, lift, id, deref. rewrite Hx. subst st. by rewrite E.
Qed.

(** ** The invariant *)

(** The physical pages of a page group, and whether they were taken from the free
  list (and go back to it) or are a window on given physical memory. *)
Definition pages_in (g : pagegroup) : list Z := take (Z.to_nat (pg_size g)) (concat (pg_pages g)).
Definition owned (g : pagegroup) : Prop := Z.land (pg_flags g) AREA_PHYSMAP = 0.

Lemma list_eq_dec_last {A} (l : list A) : l = [] \/ exists l' c, l = l' ++ [c].
Proof. destruct l as [|c l] using rev_ind; [by left|right; eauto]. Qed.

(** As many chunks of six slots as [n] pages need. *)
Definition chunked (n : Z) (pages : list (list Z)) : Prop :=
  Forall (fun c => length c = 6%nat) pages /\ 6 * (Z.of_nat (length pages) - 1) < n <= 6 * Z.of_nat (length pages).

Abbreviation areas := (gmap Z area).
Abbreviation groups := (gmap Z pagegroup).
Abbreviation spaces := (gmap Z aspace).

(** An address space: its areas are disjoint, each is mapped to the first pages of
  its group, and nothing else is mapped. *)
Record space_ok (AR : areas) (PG : groups) (x : aspace) : Prop := {
  sp_len : length (as_ptab x) = 1024%nat;
  sp_nodup : NoDup (as_areas x);
  sp_area : forall ar, ar ∈ as_areas x -> exists y g, AR !! ar = Some y /\ PG !! ar_pgroup y = Some g /\
    1 <= ar_virt_addr y /\ ar_virt_addr y + ar_length y <= 1024 /\
    forall i, 0 <= i < ar_length y ->
      exists p, pages_in g !! (Z.to_nat i) = Some p /\ aget (as_ptab x) (ar_virt_addr y + i) = Some (pte p 7);
  sp_only : forall v e, aget (as_ptab x) v = Some e -> e <> 0 ->
    exists ar y, ar ∈ as_areas x /\ AR !! ar = Some y /\ ar_virt_addr y <= v < ar_virt_addr y + ar_length y;
  sp_disj : forall ar1 ar2 y1 y2 v, ar1 ∈ as_areas x -> ar2 ∈ as_areas x -> AR !! ar1 = Some y1 -> AR !! ar2 = Some y2 ->
    ar_virt_addr y1 <= v < ar_virt_addr y1 + ar_length y1 -> ar_virt_addr y2 <= v < ar_virt_addr y2 + ar_length y2 -> ar1 = ar2;
}.

(** The pages of the groups: none is free, and none is in two places. *)
Record pages_ok (PG : groups) (pmax : Z) (free : list Z) : Prop := {
  pp_used : forall q g p, PG !! q = Some g -> owned g -> p ∈ pages_in g -> (p ∉ free) /\ 0 < p < pmax;
  pp_excl : forall q1 q2 g1 g2 i j p, PG !! q1 = Some g1 -> PG !! q2 = Some g2 -> owned g1 -> owned g2 ->
    pages_in g1 !! i = Some p -> pages_in g2 !! j = Some p -> q1 = q2 /\ i = j;
}.

(** Areas and groups refer to each other; the group counts its areas. *)
Record refs_ok (K : kmap) (AR : areas) (PG : groups) (brk : Z) : Prop := {
  rf_kind : forall ar, is_Some (AR !! ar) <-> exists id o, K !! ar = Some (id, RSRC_AREA, o);
  rf_area : forall ar y, AR !! ar = Some y ->
    exists g, PG !! ar_pgroup y = Some g /\ ar ∈ pg_areas g /\ 0 < ar_length y <= pg_size g;
  rf_group : forall q g, PG !! q = Some g -> 0 < q < brk /\ pg_refcount g = Z.of_nat (length (pg_areas g)) /\
    NoDup (pg_areas g) /\ chunked (pg_size g) (pg_pages g) /\
    forall ar, ar ∈ pg_areas g -> exists y, AR !! ar = Some y /\ ar_pgroup y = q;
}.

Definition spaces_ok (AS : spaces) (AR : areas) (PG : groups) : Prop :=
  (forall a x, AS !! a = Some x -> space_ok AR PG x) /\
  (forall a1 a2 x1 x2 ar, AS !! a1 = Some x1 -> AS !! a2 = Some x2 -> ar ∈ as_areas x1 -> ar ∈ as_areas x2 -> a1 = a2).

Definition vm_ok (s : kst) : Prop :=
  refs_ok (kinds s) (k_area s) (k_pgrp s) (k_brk s) /\ spaces_ok (k_asp s) (k_area s) (k_pgrp s) /\
  exists free, KMem.pages_wf (k_mem s) free /\
    pages_ok (k_pgrp s) (Z.of_nat (length (KMem.m_pagelist (k_mem s)))) free.

(** *** Pages in chunks of six *)
Lemma chunk6_concat fuel : forall l, (length l <= fuel)%nat -> exists z, concat (chunk6 fuel l) = l ++ z.
Proof.
  induction fuel as [|fuel IH]; intros l Hl; [destruct l; simpl in *; [by exists []|lia]|].
  destruct l as [|p l']; [by exists []|]. set (l := p :: l') in *. change (chunk6 (S fuel) l) with ((take 6 l ++ replicate (6 - length l) 0) :: chunk6 fuel (drop 6 l)).
  destruct (IH (drop 6 l)) as [z Hz]; [rewrite length_drop; subst l; simpl in *; lia|]. rewrite concat_cons, Hz.
  destruct (decide (length l < 6)%nat).
  - rewrite take_ge, drop_ge by lia. simpl. exists (replicate (6 - length l) 0 ++ z). by rewrite <- app_assoc.
  - replace (6 - length l)%nat with O by lia. simpl replicate. rewrite app_nil_r, app_assoc, take_drop. by exists z.
Qed.

Lemma chunked_length n pages : chunked n pages -> n <= Z.of_nat (length (concat pages)).
Proof.
  intros [H Hn]. assert (length (concat pages) = 6 * length pages)%nat as ->; [|lia]. clear Hn.
  induction H as [|c l Hc _ IH]; [done|]. cbn [length]. rewrite concat_cons, length_app. lia.
Qed.

Lemma chunk6_chunked fuel : forall l, (length l <= fuel)%nat -> chunked (Z.of_nat (length l)) (chunk6 fuel l).
Proof.
  induction fuel as [|fuel IH]; intros l Hl; [destruct l; simpl in *; [by split|lia]|].
  destruct l as [|p l']; [by split|]. set (l := p :: l') in *.
  change (chunk6 (S fuel) l) with ((take 6 l ++ replicate (6 - length l) 0) :: chunk6 fuel (drop 6 l)).
  destruct (IH (drop 6 l)) as [H1 H2]; [rewrite length_drop; subst l; simpl in *; lia|]. rewrite length_drop in H2.
  assert (0 < length l)%nat by (subst l; simpl; lia). split.
  - constructor; [|done]. rewrite length_app, length_take, length_replicate. lia.
  - cbn [length]. lia.
Qed.

(** A page in the next slot. *)
Lemma add_page_ok n pages p : chunked n pages -> 0 <= n ->
  chunked (n + 1) (add_page pages (n mod 6) p) /\
  take (Z.to_nat (n + 1)) (concat (add_page pages (n mod 6) p)) = take (Z.to_nat n) (concat pages) ++ [p].
Proof.
  intros [H1 H2] Hn. pose proof (Z.div_mod n 6 ltac:(lia)) as Hdm. pose proof (Z.mod_pos_bound n 6 ltac:(lia)) as Hmb.
  assert (forall l : list (list Z), Forall (fun c => length c = 6%nat) l -> length (concat l) = (6 * length l)%nat) as Hlen.
  { induction 1 as [|c l Hc _ IH]; [done|]. cbn [length]. rewrite concat_cons, length_app. lia. }
  unfold add_page. destruct (decide (n mod 6 = 0)) as [Hz|Hz].
  - assert (n = 6 * Z.of_nat (length pages)) as Hfull by lia. split.
    + split; [apply Forall_app; split; [done|by constructor]|]. rewrite length_app. cbn [length]. lia.
    + rewrite concat_app. cbn [concat]. rewrite app_nil_r. rewrite (take_ge (concat pages)) by (rewrite Hlen by done; lia).
      rewrite take_app_ge by (rewrite Hlen by done; lia). f_equal. rewrite Hlen by done.
      replace (Z.to_nat (n + 1) - 6 * length pages)%nat with 1%nat by lia. done.
  - destruct (list_eq_dec_last pages) as [->|(l & c & ->)]; [simpl in H2; lia|]. rewrite last_snoc. apply Forall_app in H1 as [H1 Hc].
    rewrite Forall_singleton in Hc. rewrite length_app in *. cbn [length] in *. replace (length l + 1 - 1)%nat with (length l) by lia.
    rewrite insert_app_r_alt, Nat.sub_diag by lia. change (<[0%nat := <[Z.to_nat (n mod 6) := p]> c]> [c]) with [<[Z.to_nat (n mod 6) := p]> c]. split.
    + split; [apply Forall_app; split; [done|constructor; [by rewrite length_insert|done]]|]. rewrite length_app. cbn [length]. lia.
    + rewrite !concat_app. cbn [concat]. rewrite !app_nil_r. rewrite !take_app_ge by (rewrite Hlen by done; lia). rewrite <- app_assoc. f_equal.
      rewrite Hlen by done. replace (Z.to_nat (n + 1) - 6 * length l)%nat with (S (Z.to_nat (n mod 6))) by lia.
      replace (Z.to_nat n - 6 * length l)%nat with (Z.to_nat (n mod 6)) by lia.
      rewrite (take_S_r _ _ p) by (apply list_lookup_insert_eq; lia). by rewrite take_insert_ge by lia.
Qed.

Lemma pages_in_chunks n l flags c areas : pages_in (PGroup n c flags areas (chunk6 (length l) l)) = take (Z.to_nat n) l \/ (length l < Z.to_nat n)%nat.
Proof.
  destruct (decide (Z.to_nat n <= length l)%nat); [left|right; lia]. unfold pages_in. simpl.
  destruct (chunk6_concat (length l) l) as [z ->]; [done|]. by rewrite take_app_le.
Qed.

(** *** Space after a change of areas elsewhere *)
Lemma space_ok_frame AR PG AR' PG' x : space_ok AR PG x ->
  (forall ar, ar ∈ as_areas x -> AR' !! ar = AR !! ar) ->
  (forall ar y g, ar ∈ as_areas x -> AR !! ar = Some y -> PG !! ar_pgroup y = Some g ->
    exists g', PG' !! ar_pgroup y = Some g' /\ pages_in g' = pages_in g) -> space_ok AR' PG' x.
Proof.
  intros [H1 H2 H3 H4 H5] HA HP. split; [done|done| | |].
  - intros ar Har. destruct (H3 ar Har) as (y & g & Hy & Hg & Hv & Hl & Hm). destruct (HP ar y g Har Hy Hg) as (g' & Hg' & E).
    exists y, g'. rewrite HA, E by done. done.
  - intros v e Hv He. destruct (H4 v e Hv He) as (ar & y & Har & Hy & Hr). exists ar, y. rewrite HA by done. done.
  - intros ar1 ar2 y1 y2 v Ha1 Ha2. rewrite !HA by done. by apply H5.
Qed.

Lemma pte_nonzero p : pte p 7 <> 0.
Proof. intros E. assert (Z.testbit (pte p 7) 0 = false) as Hb by by rewrite E. unfold pte in Hb. by rewrite Z.lor_spec, orb_comm in Hb. Qed.

(** The entries of an area are not free. *)
Lemma space_busy AR PG x ar y v : space_ok AR PG x -> ar ∈ as_areas x -> AR !! ar = Some y ->
  ar_virt_addr y <= v < ar_virt_addr y + ar_length y -> exists e, aget (as_ptab x) v = Some e /\ e <> 0.
Proof.
  intros H Har Hy Hv. destruct (sp_area _ _ _ H ar Har) as (y' & g & Hy' & Hg & H1 & H2 & Hm). simplify_eq.
  destruct (Hm (v - ar_virt_addr y)) as (p & _ & Hp); [lia|]. replace (ar_virt_addr y + (v - ar_virt_addr y)) with v in Hp by lia.
  eexists. split; [done|apply pte_nonzero].
Qed.

(** An area in a free span. *)
Lemma space_add AR PG x ar y g ptab : space_ok AR PG x -> AR !! ar = None -> PG !! ar_pgroup y = Some g ->
  1 <= ar_virt_addr y -> ar_virt_addr y + ar_length y <= 1024 -> free_run (as_ptab x) (ar_virt_addr y) (ar_virt_addr y + ar_length y) ->
  length ptab = length (as_ptab x) ->
  (forall i, 0 <= i < ar_length y -> exists p, pages_in g !! (Z.to_nat i) = Some p /\ aget ptab (ar_virt_addr y + i) = Some (pte p 7)) ->
  (forall v, ~ (ar_virt_addr y <= v < ar_virt_addr y + ar_length y) -> aget ptab v = aget (as_ptab x) v) ->
  space_ok (<[ar := y]> AR) PG (as_set_ptab (as_set_areas x (as_areas x ++ [ar])) ptab).
Proof.
  intros H Hnew Hg Hv1 Hv2 Hfree Hlen Hin Hout.
  assert (forall ar', ar' ∈ as_areas x -> ar' <> ar) as Hne.
  { intros ar' Ha ->. destruct (sp_area _ _ _ H ar Ha) as (? & _ & ? & _). congruence. }
  assert (forall ar' y' v, ar' ∈ as_areas x -> AR !! ar' = Some y' -> ar_virt_addr y' <= v < ar_virt_addr y' + ar_length y' ->
    ~ (ar_virt_addr y <= v < ar_virt_addr y + ar_length y)) as Hsep.
  { intros ar' y' v Ha Hy' Hv Hv'. destruct (space_busy _ _ _ _ _ v H Ha Hy' Hv) as (e & He & Hz). rewrite (Hfree v Hv') in He. congruence. }
  destruct H as [H1 H2 H3 H4 H5]. split; simpl.
  - congruence.
  - apply NoDup_snoc. split; [|done]. intros Ha. by apply (Hne ar).
  - intros ar' [Ha| ->%list_elem_of_singleton]%elem_of_app.
    + destruct (H3 ar' Ha) as (y' & g' & Hy' & Hg' & A1 & A2 & A3). exists y', g'.
      rewrite lookup_insert_ne by (by apply not_eq_sym, Hne). split_and!; [done..|]. intros i Hi. destruct (A3 i Hi) as (p & Hp & Hm). exists p.
      split; [done|]. rewrite Hout; [done|]. eapply Hsep; [done..|]. lia.
    + exists y, g. rewrite lookup_insert_eq. done.
  - intros v e Hv He. destruct (decide (ar_virt_addr y <= v < ar_virt_addr y + ar_length y)) as [Hr|Hr].
    + exists ar, y. rewrite lookup_insert_eq. split; [|done]. apply elem_of_app. right. by apply list_elem_of_singleton.
    + rewrite Hout in Hv by done. destruct (H4 v e Hv He) as (ar' & y' & Ha & Hy' & Hr'). exists ar', y'.
      rewrite lookup_insert_ne by (by apply not_eq_sym, Hne). split; [|done]. apply elem_of_app. by left.
  - intros ar1 ar2 y1 y2 v [Ha1| ->%list_elem_of_singleton]%elem_of_app [Ha2| ->%list_elem_of_singleton]%elem_of_app;
      rewrite ?lookup_insert_eq; try rewrite (lookup_insert_ne _ ar ar1) by (by apply not_eq_sym, Hne);
      try rewrite (lookup_insert_ne _ ar ar2) by (by apply not_eq_sym, Hne); intros E1 E2 R1 R2; simplify_eq; try done.
    + by eapply H5.
    + by destruct (Hsep _ _ _ Ha1 E1 R1).
    + by destruct (Hsep _ _ _ Ha2 E2 R2).
Qed.

(** An area unmapped. *)
Lemma space_remove AR PG AR' PG' x ar y ptab : space_ok AR PG x -> ar ∈ as_areas x -> AR !! ar = Some y ->
  length ptab = length (as_ptab x) ->
  (forall i, 0 <= i < ar_length y -> aget ptab (ar_virt_addr y + i) = Some 0) ->
  (forall v, ~ (ar_virt_addr y <= v < ar_virt_addr y + ar_length y) -> aget ptab v = aget (as_ptab x) v) ->
  (forall ar', ar' <> ar -> AR' !! ar' = AR !! ar') ->
  (forall ar' y' g, ar' ∈ as_areas x -> ar' <> ar -> AR !! ar' = Some y' -> PG !! ar_pgroup y' = Some g ->
    exists g', PG' !! ar_pgroup y' = Some g' /\ pages_in g' = pages_in g) ->
  space_ok AR' PG' (as_set_ptab (as_set_areas x (remove1 ar (as_areas x))) ptab).
Proof.
  intros [H1 H2 H3 H4 H5] Har Hy Hlen Hin Hout HA HP.
  assert (forall ar', ar' ∈ remove1 ar (as_areas x) -> ar' ∈ as_areas x /\ ar' <> ar) as Hsub.
  { intros ar' Ha. split; [by eapply remove1_subset|]. intros ->. by apply (remove1_NoDup_notin ar (as_areas x) H2). }
  split; simpl.
  - congruence.
  - by apply remove1_NoDup.
  - intros ar' [Ha Hne]%Hsub. destruct (H3 ar' Ha) as (y' & g & Hy' & Hg & A1 & A2 & A3).
    destruct (HP ar' y' g Ha Hne Hy' Hg) as (g' & Hg' & E). exists y', g'. rewrite HA, E by done. split_and!; [done..|].
    intros i Hi. destruct (A3 i Hi) as (p & Hp & Hm). exists p. split; [done|]. rewrite Hout; [done|].
    intros Hr. apply Hne. eapply (H5 ar' ar y' y (ar_virt_addr y' + i)); try done. lia.
  - intros v e Hv He. destruct (decide (ar_virt_addr y <= v < ar_virt_addr y + ar_length y)) as [Hr|Hr].
    + destruct He. specialize (Hin (v - ar_virt_addr y) ltac:(lia)). replace (ar_virt_addr y + (v - ar_virt_addr y)) with v in Hin by lia. congruence.
    + rewrite Hout in Hv by done. destruct (H4 v e Hv He) as (ar' & y' & Ha & Hy' & Hr').
      assert (ar' <> ar) by (intros ->; simplify_eq). exists ar', y'. rewrite HA by done. split; [|done]. by apply remove1_other.
  - intros ar1 ar2 y1 y2 v [Ha1 Hn1]%Hsub [Ha2 Hn2]%Hsub. rewrite !HA by done. by apply H5.
Qed.

(** *** The pages *)
Lemma pages_ok_put PG pmax free q g g' : pages_ok PG pmax free -> PG !! q = Some g -> pages_in g' = pages_in g ->
  pg_flags g' = pg_flags g -> pages_ok (<[q := g']> PG) pmax free.
Proof.
  intros [H1 H2] Hg Hp Hf.
  assert (forall r h, <[q := g']> PG !! r = Some h -> exists h0, PG !! r = Some h0 /\ pages_in h = pages_in h0 /\ (owned h <-> owned h0)) as Hold.
  { intros r h Hr. destruct (decide (r = q)) as [->|].
    - rewrite lookup_insert_eq in Hr. injection Hr as <-. exists g. unfold owned. rewrite Hf. done.
    - rewrite lookup_insert_ne in Hr by done. by exists h. }
  split.
  - intros r h p (h0 & Hr & E & Ho)%Hold. rewrite E, Ho. by eapply H1.
  - intros q1 q2 g1 g2 i j p (h1 & Hr1 & E1 & Ho1)%Hold (h2 & Hr2 & E2 & Ho2)%Hold. rewrite E1, E2, Ho1, Ho2. by eapply H2.
Qed.

(** A new group takes its pages from the free list, or takes none. *)
Lemma pages_ok_new PG pmax free free' q g : pages_ok PG pmax free -> PG !! q = None -> NoDup free ->
  (forall p, p ∈ free -> 0 < p < pmax) -> (if decide (owned g) then free = pages_in g ++ free' else free' = free) ->
  pages_ok (<[q := g]> PG) pmax free'.
Proof.
  intros [H1 H2] Hq Hnd Hr Hf.
  assert (forall p, p ∈ free' -> p ∈ free) as Hsub.
  { intros p Hp. case_decide; subst; [|done]. apply elem_of_app. by right. }
  assert (owned g -> free = pages_in g ++ free') as Hg by (intros; by rewrite decide_True in Hf).
  assert (forall r h i j p, r <> q -> PG !! r = Some h -> owned h -> owned g -> pages_in h !! i = Some p -> pages_in g !! j = Some p -> False) as Hx.
  { intros r h i j p _ Hr' Ho Hog Hi Hj. destruct (H1 r h p Hr' Ho) as [Hn _]; [by eapply list_elem_of_lookup_2|].
    apply Hn. rewrite (Hg Hog). apply elem_of_app. left. by eapply list_elem_of_lookup_2. }
  split.
  - intros r h p Hr' Ho Hp. destruct (decide (r = q)) as [->|].
    + rewrite lookup_insert_eq in Hr'. injection Hr' as <-. rewrite (Hg Ho) in Hnd, Hr. apply NoDup_app in Hnd as (_ & Hd & _).
      split; [by apply Hd|]. apply Hr. apply elem_of_app. by left.
    + rewrite lookup_insert_ne in Hr' by done. destruct (H1 r h p Hr' Ho Hp) as [Hn ?]. split; [|done]. intros Hin. by apply Hn, Hsub.
  - intros q1 q2 g1 g2 i j p [[<- <-]|[N1 Hq1]]%lookup_insert_Some [[<- <-]|[N2 Hq2]]%lookup_insert_Some Ho1 Ho2 Hi Hj.
    + split; [done|]. rewrite (Hg Ho1) in Hnd. apply NoDup_app in Hnd as (Hnd & _). by eapply NoDup_lookup.
    + by destruct (Hx q2 g2 j i p ltac:(done) Hq2 Ho2 Ho1 Hj Hi).
    + by destruct (Hx q1 g1 i j p ltac:(done) Hq1 Ho1 Ho2 Hi Hj).
    + by eapply H2.
Qed.

(** A group that is gone gives its pages back. *)
Lemma pages_ok_del PG pmax free free' q g : pages_ok PG pmax free -> PG !! q = Some g ->
  (if decide (owned g) then free' ≡ₚ pages_in g ++ free else free' = free) -> pages_ok (delete q PG) pmax free'.
Proof.
  intros [H1 H2] Hq Hf. split.
  - intros r h p [Hne Hr]%lookup_delete_Some Ho Hp. destruct (H1 r h p Hr Ho Hp) as [Hn ?]. split; [|done]. case_decide as Hog; [|by subst].
    rewrite Hf, elem_of_app. intros [Hin|?]; [|done]. apply list_elem_of_lookup in Hp as [i Hi]. apply list_elem_of_lookup in Hin as [j Hj].
    destruct (H2 r q h g i j p Hr Hq Ho Hog Hi Hj) as [-> _]. done.
  - intros q1 q2 g1 g2 i j p [_ Hq1]%lookup_delete_Some [_ Hq2]%lookup_delete_Some. by apply H2.
Qed.

(** *** Areas and their groups *)

(** One more area [ar] for the group [q], which may be new. *)
Lemma refs_add K AR PG brk brk' ar q id o y g' : refs_ok K AR PG brk -> K !! ar = None -> 0 < q < brk' -> brk <= brk' -> ar_pgroup y = q ->
  0 < ar_length y <= pg_size g' -> chunked (pg_size g') (pg_pages g') ->
  pg_refcount g' = Z.of_nat (length (pg_areas g')) ->
  (forall g, PG !! q = Some g -> pg_areas g' = pg_areas g ++ [ar] /\ pg_size g' = pg_size g) -> (PG !! q = None -> pg_areas g' = [ar]) ->
  refs_ok (<[ar := (id, RSRC_AREA, o)]> K) (<[ar := y]> AR) (<[q := g']> PG) brk'.
Proof.
  intros [H1 H2 H3] HK Hq Hb Hy Hl Hs Hc Hold Hnew.
  assert (AR !! ar = None) as HA.
  { destruct (AR !! ar) eqn:E; [|done]. destruct (proj1 (H1 ar)) as (? & ? & ?); [by rewrite E|congruence]. }
  assert (ar ∈ pg_areas g') as Har.
  { destruct (PG !! q) as [g|] eqn:E; [destruct (Hold g) as [-> _]; [done|]; apply elem_of_app; right; by apply list_elem_of_singleton|].
    rewrite Hnew by done. by apply list_elem_of_singleton. }
  split.
  - intros r. destruct (decide (r = ar)) as [->|]; [rewrite !lookup_insert_eq|by rewrite !lookup_insert_ne].
    split; [by eauto|by intros _].
  - intros r z [[<- <-]|[Hne Hz]]%lookup_insert_Some.
    + exists g'. rewrite Hy, lookup_insert_eq. done.
    + destruct (H2 r z Hz) as (g & Hg & Hin & Hlen). destruct (decide (ar_pgroup z = q)) as [E|E].
      * exists g'. rewrite E, lookup_insert_eq. rewrite E in Hg. destruct (Hold g Hg) as [-> ->]. split_and!; [done| |lia..]. apply elem_of_app. by left.
      * exists g. by rewrite lookup_insert_ne by done.
  - intros r g [[<- <-]|[Hne Hr]]%lookup_insert_Some.
    + split; [done|]. split; [done|]. destruct (PG !! q) as [g|] eqn:E.
      * destruct (Hold g) as [-> _]; [done|]. destruct (H3 q g E) as (_ & _ & Hnd & _ & Hall). split; [|split; [done|]].
        -- apply NoDup_snoc. split; [|done]. intros Hin. destruct (Hall ar Hin) as (? & ? & _). congruence.
        -- intros r [Hin| ->%list_elem_of_singleton]%elem_of_app; [|exists y; by rewrite lookup_insert_eq].
           destruct (Hall r Hin) as (z & Hz & Ez). exists z. rewrite lookup_insert_ne by congruence. done.
      * rewrite Hnew by done. split; [apply NoDup_singleton|]. split; [done|]. intros r ->%list_elem_of_singleton. exists y. by rewrite lookup_insert_eq.
    + destruct (H3 r g Hr) as (A1 & A2 & A3 & A4 & A5). split_and!; [lia..|done|done|]. intros r' Hin. destruct (A5 r' Hin) as (z & Hz & Ez).
      exists z. rewrite lookup_insert_ne by congruence. done.
Qed.

(** A group has fewer areas than there are addresses. *)
Lemma refs_count K AR PG brk q g : refs_ok K AR PG brk -> PG !! q = Some g -> (forall r k, K !! r = Some k -> 0 < r < brk) ->
  Z.of_nat (length (pg_areas g)) < brk.
Proof.
  intros [H1 H2 H3] Hg Hrange. destruct (H3 q g Hg) as (G1 & G2 & G3 & G4 & G5).
  assert (length (pg_areas g) <= length (seqZ 1 (brk - 1)))%nat as Hle.
  { apply submseteq_length, NoDup_submseteq; [done|]. intros r Hr. destruct (G5 r Hr) as (z & Hz & _).
    destruct (proj1 (H1 r)) as (i & o & Hk); [by rewrite Hz|]. apply Hrange in Hk. apply elem_of_seqZ. lia. }
  rewrite length_seqZ in Hle. lia.
Qed.

(** One area less; the group goes with its last area. *)
Definition drop_area (PG : groups) (q : Z) (g : pagegroup) (ar : Z) : groups :=
  if decide (u32 (pg_refcount g - 1) = 0) then delete q PG
  else <[q := pg_set_areas g (u32 (pg_refcount g - 1)) (remove1 ar (pg_areas g))]> PG.

Lemma refs_drop K AR PG brk ar y g : refs_ok K AR PG brk -> AR !! ar = Some y -> PG !! ar_pgroup y = Some g -> brk <= 2 ^ 32 ->
  (forall r k, K !! r = Some k -> 0 < r < brk) ->
  refs_ok (delete ar K) (delete ar AR) (drop_area PG (ar_pgroup y) g ar) brk /\
  (u32 (pg_refcount g - 1) = 0 -> pg_areas g = [ar]).
Proof.
  intros HR Hy Hg Hb Hrange. pose proof HR as [H1 H2 H3]. set (q := ar_pgroup y) in *. destruct (H3 q g Hg) as (G1 & G2 & G3 & G4 & G5).
  destruct (H2 ar y Hy) as (g0 & Hg0 & Hin & Hlen). fold q in Hg0. simplify_eq. pose proof (remove1_length ar _ Hin) as Hrl.
  pose proof (refs_count K AR PG brk q g HR Hg Hrange) as Hsmall.
  assert (u32 (pg_refcount g - 1) = Z.of_nat (length (remove1 ar (pg_areas g)))) as Hc by (rewrite u32_small; lia).
  assert (u32 (pg_refcount g - 1) = 0 -> pg_areas g = [ar]) as Hlast.
  { rewrite Hc. intros E. destruct (pg_areas g) as [|r [|r' l]]; [simpl in *; lia| |simpl in *; lia].
    apply list_elem_of_singleton in Hin. by subst. }
  split; [|done]. unfold drop_area. split.
  - intros r. rewrite lookup_delete_is_Some. setoid_rewrite lookup_delete_Some. rewrite H1. naive_solver.
  - intros r z [Hne Hz]%lookup_delete_Some. destruct (H2 r z Hz) as (h & Hh & Hi & Hl). case_decide as Hd.
    + exists h. rewrite lookup_delete_ne; [done|]. intros E. rewrite <- E in Hh. simplify_eq. rewrite (Hlast Hd) in Hi. by apply list_elem_of_singleton in Hi.
    + destruct (decide (ar_pgroup z = q)) as [E|E].
      * rewrite E, lookup_insert_eq. rewrite E in Hh. simplify_eq. eexists. split_and!; [done| |simpl; lia..]. simpl. by apply remove1_other.
      * exists h. by rewrite lookup_insert_ne by done.
  - intros r h Hr. case_decide as Hd.
    + apply lookup_delete_Some in Hr as [Hne Hr]. destruct (H3 r h Hr) as (A1 & A2 & A3 & A4 & A5). split_and!; [lia..|done|done|].
      intros r' Hi. destruct (A5 r' Hi) as (z & Hz & Ez). exists z. rewrite lookup_delete_ne by (intros ->; simplify_eq; done). done.
    + apply lookup_insert_Some in Hr as [[<- <-]|[Hne Hr]].
      * simpl. split_and!; [lia|lia|lia|by apply remove1_NoDup|done|]. intros r' Hi. pose proof (remove1_subset _ _ _ Hi) as Hi'.
        destruct (G5 r' Hi') as (z & Hz & Ez). exists z. rewrite lookup_delete_ne; [done|]. intros ->. by apply (remove1_NoDup_notin r' (pg_areas g) G3).
      * destruct (H3 r h Hr) as (A1 & A2 & A3 & A4 & A5). split_and!; [lia..|done|done|].
        intros r' Hi. destruct (A5 r' Hi) as (z & Hz & Ez). exists z. rewrite lookup_delete_ne by (intros ->; simplify_eq; done). done.
Qed.

(** *** The address spaces *)
Lemma spaces_add AS AR PG PG' a x ar y g ptab : spaces_ok AS AR PG -> AS !! a = Some x -> AR !! ar = None -> PG' !! ar_pgroup y = Some g ->
  (forall r h, PG !! r = Some h -> exists h', PG' !! r = Some h' /\ pages_in h' = pages_in h) ->
  1 <= ar_virt_addr y -> ar_virt_addr y + ar_length y <= 1024 -> free_run (as_ptab x) (ar_virt_addr y) (ar_virt_addr y + ar_length y) ->
  length ptab = length (as_ptab x) ->
  (forall i, 0 <= i < ar_length y -> exists p, pages_in g !! (Z.to_nat i) = Some p /\ aget ptab (ar_virt_addr y + i) = Some (pte p 7)) ->
  (forall v, ~ (ar_virt_addr y <= v < ar_virt_addr y + ar_length y) -> aget ptab v = aget (as_ptab x) v) ->
  spaces_ok (<[a := as_set_ptab (as_set_areas x (as_areas x ++ [ar])) ptab]> AS) (<[ar := y]> AR) PG'.
Proof.
  intros [HS HU] Ha Hnew Hg HP Hv1 Hv2 Hfree Hlen Hin Hout.
  assert (forall b z r, AS !! b = Some z -> r ∈ as_areas z -> r <> ar) as Hne.
  { intros b z r Hb Hr ->. destruct (sp_area _ _ _ (HS b z Hb) ar Hr) as (? & _ & ? & _). congruence. }
  split.
  - intros b z [[<- <-]|[Hb Hz]]%lookup_insert_Some.
    + eapply space_add; try done. eapply space_ok_frame; [by apply (HS a)|done|]. intros; by apply HP.
    + eapply space_ok_frame; [by apply (HS b)| |intros; by apply HP]. intros r Hr. rewrite lookup_insert_ne; [done|]. intros ->. by apply (Hne b z r).
  - intros a1 a2 x1 x2 r [[<- <-]|[N1 H1]]%lookup_insert_Some [[<- <-]|[N2 H2]]%lookup_insert_Some; simpl; [done|..].
    + intros [Hr| ->%list_elem_of_singleton]%elem_of_app Hr2; [by eapply (HU a a2)|]. by destruct (Hne a2 x2 ar).
    + intros Hr1 [Hr| ->%list_elem_of_singleton]%elem_of_app; [by eapply (HU a1 a)|]. by destruct (Hne a1 x1 ar).
    + by apply HU.
Qed.

Lemma spaces_drop AS AR PG PG' a x ar y ptab : spaces_ok AS AR PG -> AS !! a = Some x -> ar ∈ as_areas x -> AR !! ar = Some y ->
  length ptab = length (as_ptab x) ->
  (forall i, 0 <= i < ar_length y -> aget ptab (ar_virt_addr y + i) = Some 0) ->
  (forall v, ~ (ar_virt_addr y <= v < ar_virt_addr y + ar_length y) -> aget ptab v = aget (as_ptab x) v) ->
  (forall r z h, r <> ar -> AR !! r = Some z -> PG !! ar_pgroup z = Some h -> exists h', PG' !! ar_pgroup z = Some h' /\ pages_in h' = pages_in h) ->
  spaces_ok (<[a := as_set_ptab (as_set_areas x (remove1 ar (as_areas x))) ptab]> AS) (delete ar AR) PG'.
Proof.
  intros [HS HU] Ha Har Hy Hlen Hin Hout HP. split.
  - intros b z [[<- <-]|[Hb Hz]]%lookup_insert_Some.
    + eapply space_remove; [by apply (HS a)|done..| |].
      * intros r Hr. by rewrite lookup_delete_ne.
      * intros r z h _ Hr. by apply HP.
    + assert (forall r, r ∈ as_areas z -> r <> ar) as Hne by (intros r Hr ->; by apply Hb, (HU a b x z ar)).
      eapply space_ok_frame; [by apply (HS b)| |].
      * intros r Hr. rewrite lookup_delete_ne; [done|]. intros ->. by apply (Hne r).
      * intros r z' h Hr. by apply HP, Hne.
  - intros a1 a2 x1 x2 r [[<- <-]|[N1 H1]]%lookup_insert_Some [[<- <-]|[N2 H2]]%lookup_insert_Some; simpl; [done|..].
    + intros Hr%remove1_subset Hr2. by eapply (HU a a2).
    + intros Hr1 Hr%remove1_subset. by eapply (HU a1 a).
    + by apply HU.
Qed.

(** *** Growth of an area *)

(** Groups that keep their pages in place, and may have more. *)
Definition extends (PG PG' : groups) : Prop :=
  forall r h, PG !! r = Some h -> exists h', PG' !! r = Some h' /\ forall i p, pages_in h !! i = Some p -> pages_in h' !! i = Some p.

Lemma space_ok_extends AR PG PG' x : space_ok AR PG x -> extends PG PG' -> space_ok AR PG' x.
Proof.
  intros [H1 H2 H3 H4 H5] HP. split; [done|done| |done|done]. intros ar Har. destruct (H3 ar Har) as (y & g & Hy & Hg & A1 & A2 & A3).
  destruct (HP _ g Hg) as (g' & Hg' & Hpre). exists y, g'. split_and!; [done..|]. intros i Hi. destruct (A3 i Hi) as (p & Hp & Hm). exists p. auto.
Qed.

Lemma space_grow AR PG x ar y y' g ptab : space_ok AR PG x -> ar ∈ as_areas x -> AR !! ar = Some y -> PG !! ar_pgroup y = Some g ->
  ar_pgroup y' = ar_pgroup y -> ar_virt_addr y' = ar_virt_addr y -> 0 <= ar_length y <= ar_length y' -> ar_virt_addr y + ar_length y' <= 1024 ->
  free_run (as_ptab x) (ar_virt_addr y + ar_length y) (ar_virt_addr y + ar_length y') -> length ptab = length (as_ptab x) ->
  (forall i, ar_length y <= i < ar_length y' -> exists p, pages_in g !! (Z.to_nat i) = Some p /\ aget ptab (ar_virt_addr y + i) = Some (pte p 7)) ->
  (forall v, ~ (ar_virt_addr y + ar_length y <= v < ar_virt_addr y + ar_length y') -> aget ptab v = aget (as_ptab x) v) ->
  space_ok (<[ar := y']> AR) PG (as_set_ptab x ptab).
Proof.
  intros H Har Hy Hg Hpg Hv Hlen Hmax Hfree Hl Hin Hout.
  assert (forall r z v, r ∈ as_areas x -> AR !! r = Some z -> ar_virt_addr z <= v < ar_virt_addr z + ar_length z ->
    ~ (ar_virt_addr y + ar_length y <= v < ar_virt_addr y + ar_length y')) as Hsep.
  { intros r z v Hr Hz Hvr Hv'. destruct (space_busy _ _ _ _ _ v H Hr Hz Hvr) as (e & He & Hne). rewrite (Hfree v Hv') in He. congruence. }
  destruct H as [H1 H2 H3 H4 H5]. split; simpl; [congruence|done| | |].
  - intros r Hr. destruct (decide (r = ar)) as [->|Hne].
    + destruct (H3 ar Har) as (y0 & g0 & Hy0 & Hg0 & A1 & A2 & A3). simplify_eq. exists y', g. rewrite lookup_insert_eq, Hpg, Hv. split_and!; [done..|lia|lia|].
      intros i Hi. destruct (decide (i < ar_length y)); [|apply Hin; lia]. destruct (A3 i) as (p & Hp & Hm); [lia|]. exists p. split; [done|].
      rewrite Hout by lia. done.
    + destruct (H3 r Hr) as (z & h & Hz & Hh & A1 & A2 & A3). exists z, h. rewrite lookup_insert_ne by done. split_and!; [done..|]. intros i Hi.
      destruct (A3 i Hi) as (p & Hp & Hm). exists p. split; [done|]. rewrite Hout; [done|]. eapply Hsep; [done..|]. lia.
  - intros v e Hve He. destruct (decide (ar_virt_addr y + ar_length y <= v < ar_virt_addr y + ar_length y')) as [Hr|Hr].
    + exists ar, y'. rewrite lookup_insert_eq, Hv. split_and!; [done|done|lia..].
    + rewrite Hout in Hve by done. destruct (H4 v e Hve He) as (r & z & Hr' & Hz & Hrv). destruct (decide (r = ar)) as [->|].
      * simplify_eq. exists ar, y'. rewrite lookup_insert_eq, Hv. split_and!; [done|done|lia..].
      * exists r, z. by rewrite lookup_insert_ne.
  - assert (forall r z' v, r ∈ as_areas x -> <[ar := y']> AR !! r = Some z' -> ar_virt_addr z' <= v < ar_virt_addr z' + ar_length z' ->
      (exists z, AR !! r = Some z /\ ar_virt_addr z <= v < ar_virt_addr z + ar_length z) \/
      (r = ar /\ ar_virt_addr y + ar_length y <= v < ar_virt_addr y + ar_length y')) as Hcase.
    { intros r z' v Hr [[<- <-]|[Hne Hz]]%lookup_insert_Some Hvr; [|left; eauto]. rewrite Hv in Hvr.
      destruct (decide (v < ar_virt_addr y + ar_length y)); [left; exists y; split; [done|lia]|right; split; [done|lia]]. }
    intros r1 r2 z1 z2 v Hr1 Hr2 Hz1 Hz2 Hv1 Hv2.
    destruct (Hcase r1 z1 v Hr1 Hz1 Hv1) as [(w1 & E1 & R1)|[-> R1]], (Hcase r2 z2 v Hr2 Hz2 Hv2) as [(w2 & E2 & R2)|[-> R2]]; [by eapply H5| | |done].
    + by destruct (Hsep r1 w1 v Hr1 E1 R1).
    + by destruct (Hsep r2 w2 v Hr2 E2 R2).
Qed.

Lemma spaces_grow AS AR PG PG' a x ar y y' g ptab : spaces_ok AS AR PG -> extends PG PG' -> AS !! a = Some x ->
  ar ∈ as_areas x -> AR !! ar = Some y -> PG' !! ar_pgroup y = Some g ->
  ar_pgroup y' = ar_pgroup y -> ar_virt_addr y' = ar_virt_addr y -> 0 <= ar_length y <= ar_length y' -> ar_virt_addr y + ar_length y' <= 1024 ->
  free_run (as_ptab x) (ar_virt_addr y + ar_length y) (ar_virt_addr y + ar_length y') -> length ptab = length (as_ptab x) ->
  (forall i, ar_length y <= i < ar_length y' -> exists p, pages_in g !! (Z.to_nat i) = Some p /\ aget ptab (ar_virt_addr y + i) = Some (pte p 7)) ->
  (forall v, ~ (ar_virt_addr y + ar_length y <= v < ar_virt_addr y + ar_length y') -> aget ptab v = aget (as_ptab x) v) ->
  spaces_ok (<[a := as_set_ptab x ptab]> AS) (<[ar := y']> AR) PG'.
Proof.
  intros [HS HU] HE Ha Har Hy Hg H1 H2 H3 H4 H5 H6 H7 H8. split.
  - intros b z [[<- <-]|[Hb Hz]]%lookup_insert_Some.
    + eapply space_grow; try done. eapply space_ok_extends; [by apply (HS a)|done].
    + eapply space_ok_frame; [eapply space_ok_extends; [by apply (HS b)|done]| |by eauto]. intros r Hr. rewrite lookup_insert_ne; [done|].
      intros <-. by apply Hb, (HU a b x z ar).
  - intros a1 a2 x1 x2 r [[<- <-]|[N1 A1]]%lookup_insert_Some [[<- <-]|[N2 A2]]%lookup_insert_Some; simpl; [done|..]; intros Hr1 Hr2;
      [by eapply (HU a a2)|by eapply (HU a1 a)|by eapply (HU a1 a2)].
Qed.

Lemma refs_grow K AR PG brk ar y y' g g' : refs_ok K AR PG brk -> AR !! ar = Some y -> PG !! ar_pgroup y = Some g -> ar_pgroup y' = ar_pgroup y ->
  0 < ar_length y' <= pg_size g' -> pg_size g <= pg_size g' -> chunked (pg_size g') (pg_pages g') -> pg_areas g' = pg_areas g -> pg_refcount g' = pg_refcount g ->
  refs_ok K (<[ar := y']> AR) (<[ar_pgroup y := g']> PG) brk.
Proof.
  intros [H1 H2 H3] Hy Hg Hpg Hl Hs Hc Ha Hr. split.
  - intros r. rewrite <- H1. destruct (decide (r = ar)) as [->|]; [rewrite lookup_insert_eq, Hy; by split|by rewrite lookup_insert_ne].
  - assert (forall r z, AR !! r = Some z -> exists h, <[ar_pgroup y := g']> PG !! ar_pgroup z = Some h /\ r ∈ pg_areas h /\ 0 < ar_length z <= pg_size h) as Hold.
    { intros r z Hz. destruct (H2 r z Hz) as (h & Hh & Hin & Hlen). destruct (decide (ar_pgroup z = ar_pgroup y)) as [E|].
      - exists g'. rewrite E in *. rewrite lookup_insert_eq, Ha. simplify_eq. split_and!; [done|done|lia..].
      - exists h. by rewrite lookup_insert_ne. }
    intros r z [[<- <-]|[Hne Hz]]%lookup_insert_Some; [|by apply Hold]. destruct (Hold ar y Hy) as (h & Hh & Hin & _).
    rewrite lookup_insert_eq in Hh. simplify_eq. exists h. rewrite Hpg, lookup_insert_eq. done.
  - intros q h Hq. assert (exists h0, PG !! q = Some h0 /\ pg_areas h = pg_areas h0 /\ pg_refcount h = pg_refcount h0 /\ (chunked (pg_size h0) (pg_pages h0) -> chunked (pg_size h) (pg_pages h)))
      as (h0 & Hh0 & E1 & E2 & E3).
    { apply lookup_insert_Some in Hq as [[<- <-]|[Hne Hq]]; [by exists g|by exists h]. }
    destruct (H3 q h0 Hh0) as (A1 & A2 & A3 & A4 & A5). rewrite E1, E2. split_and!; [lia..|done|by apply E3|]. intros r Hin.
    destruct (A5 r Hin) as (z & Hz & Ez). destruct (decide (r = ar)) as [->|]; [exists y'; rewrite lookup_insert_eq; split; [done|congruence]|].
    exists z. by rewrite lookup_insert_ne.
Qed.

Lemma pages_ok_less PG pmax free free' : pages_ok PG pmax free -> (forall p, p ∈ free' -> p ∈ free) -> pages_ok PG pmax free'.
Proof. intros [H1 H2] Hs. split; [|done]. intros q g p Hq Ho Hp. destruct (H1 q g p Hq Ho Hp) as [Hn ?]. split; [|done]. intros Hin. by apply Hn, Hs. Qed.

Lemma pages_ok_grow PG pmax free free' q g g' l : pages_ok PG pmax free -> PG !! q = Some g -> NoDup free -> (forall p, p ∈ free -> 0 < p < pmax) ->
  free = l ++ free' -> pages_in g' = pages_in g ++ l -> pg_flags g' = pg_flags g -> pages_ok (<[q := g']> PG) pmax free'.
Proof.
  intros Hp Hq Hnd Hr -> Hl Hf. rewrite <- insert_delete_eq. destruct (decide (owned g)) as [Ho|Ho].
  - assert (NoDup (pages_in g)) as Hg. { apply NoDup_alt. intros i j p Hi Hj. by destruct (pp_excl _ _ _ Hp q q g g i j p Hq Hq Ho Ho Hi Hj). }
    apply (pages_ok_new _ _ (pages_in g' ++ free')).
    + apply (pages_ok_del PG pmax (l ++ free') _ q g Hp Hq). rewrite decide_True by done. by rewrite Hl, <- app_assoc.
    + apply lookup_delete_eq.
    + rewrite Hl, <- app_assoc. apply NoDup_app. split_and!; [done| |done]. intros p Hin. by apply (pp_used _ _ _ Hp q g p).
    + intros p. rewrite Hl, <- app_assoc, elem_of_app. intros [Hin|Hin]; [by apply (pp_used _ _ _ Hp q g p)|by apply Hr].
    + by rewrite decide_True by (unfold owned; by rewrite Hf).
  - apply (pages_ok_new _ _ free').
    + eapply pages_ok_less; [apply (pages_ok_del PG pmax (l ++ free') (l ++ free') q g Hp Hq); by rewrite decide_False|].
      intros p Hin. apply elem_of_app. by right.
    + apply lookup_delete_eq.
    + by apply NoDup_app in Hnd as (_ & _ & ?).
    + intros p Hin. apply Hr, elem_of_app. by right.
    + by rewrite decide_False by (unfold owned; by rewrite Hf).
Qed.

End VMInv.
