(* ===== verification/VM.v ===== *)
(** Virtual memory: the area calls of kernel/aspace.c
  keep the invariant of VMInv, so memory stays isolated, and what happens when a
  span does not fit. *)
From S2P Require Import Prelude KList KMem KState Rsrc Sched Sem Aspace KInv KSafe KCheck Boot VMInv.
Import KState Rsrc Sched Sem Aspace KInv KSafe KCheck VMInv.
Local Open Scope Z_scope.
Local Open Scope k_scope.

Module VM.

(** ** The operations *)

(** The next statement, on address spaces, areas and groups too. *)
Ltac vm_go := repeat first [ wp_step | wp_get
  | match goal with
    | |- wp (put_asp _ _) _ _ => apply wp_modify
    | |- wp (put_area _ _) _ _ => apply wp_modify
    | |- wp (put_pgrp _ _) _ _ => apply wp_modify
    end ].

(** The state with other memory and another page table for [a]. *)
Definition remap (s : kst) (m : KMem.mem) (a : Z) (x : aspace) (ptab : list Z) : kst :=
  set_k_asp (set_k_mem s m) (<[a := as_set_ptab x ptab]> (k_asp s)).

Lemma remap_id s a x : k_asp s !! a = Some x -> remap s (k_mem s) a x (as_ptab x) = s.
Proof. intros H. unfold remap. replace (as_set_ptab x (as_ptab x)) with x by by destruct x. rewrite insert_id by done. by destruct s. Qed.

Lemma remap_remap s m m' a x ptab ptab' : remap (remap s m a x ptab) m' a (as_set_ptab x ptab) ptab' = remap s m' a x ptab'.
Proof. unfold remap. simpl. by rewrite insert_insert_eq. Qed.

(** Free pages come and go, the rest of the allocator stays. *)
Definition mem_frame (m m' : KMem.mem) : Prop :=
  KMem.m_high m' = KMem.m_high m /\ KMem.m_km m' = KMem.m_km m /\ length (KMem.m_pagelist m') = length (KMem.m_pagelist m).

Lemma mem_frame_refl m : mem_frame m m.
Proof. done. Qed.
Lemma mem_frame_trans m1 m2 m3 : mem_frame m1 m2 -> mem_frame m2 m3 -> mem_frame m1 m3.
Proof. intros (?&?&?) (?&?&?). split_and!; congruence. Qed.

Lemma getpage_ok s free (Q : Z -> kst -> Prop) : KMem.pages_wf (k_mem s) free ->
  (forall p l m, free = p :: l -> KMem.pages_wf m l -> mem_frame (k_mem s) m -> Q p (set_k_mem s m)) -> wp getpage Q s.
Proof.
  intros Hf HQ. pose proof (KMem.getpage_spec _ _ Hf) as H. unfold wp, getpage, on_mem. destruct free as [|p l].
  - rewrite H. done.
  - destruct H as (m & -> & Hm & E). apply (HQ p l m); [done|done|]. rewrite E. done.
Qed.

Lemma putpage_ok s free p (Q : unit -> kst -> Prop) : KMem.pages_wf (k_mem s) free -> p ∉ free ->
  0 < p < Z.of_nat (length (KMem.m_pagelist (k_mem s))) ->
  (forall m, KMem.pages_wf m (p :: free) -> mem_frame (k_mem s) m -> Q tt (set_k_mem s m)) -> wp (putpage p) Q s.
Proof.
  intros Hf Hp Hr HQ. destruct (KMem.putpage_spec _ _ _ Hf Hr Hp) as (m & E & Hm & E' & Hl). unfold wp, putpage, on_mem. rewrite E.
  apply HQ; [done|]. split_and!; [by rewrite E'..|done].
Qed.

Lemma map_one s a x p at_ (Q : unit -> kst -> Prop) : k_asp s !! a = Some x -> 0 <= at_ < Z.of_nat (length (as_ptab x)) ->
  Q tt (remap s (k_mem s) a x (<[Z.to_nat at_ := pte p 7]> (as_ptab x))) -> wp (aspace_map a p at_ 1 7) Q s.
Proof.
  intros Hx Hat HQ. unfold aspace_map. change (Z.to_nat 1) with 1%nat. simpl. vm_go.
  rewrite !Z.add_0_r. eapply wp_deref; [by apply aset_in_range|]. vm_go. exact HQ.
Qed.

(** A table whose entries from [at_] on map the pages [l], otherwise as before. *)
Definition mapped (ptab ptab' : list Z) (at_ : Z) (l : list Z) : Prop :=
  length ptab' = length ptab /\
  (forall i, 0 <= i < Z.of_nat (length l) -> exists p, l !! (Z.to_nat i) = Some p /\ aget ptab' (at_ + i) = Some (pte p 7)) /\
  (forall v, ~ (at_ <= v < at_ + Z.of_nat (length l)) -> aget ptab' v = aget ptab v).

Lemma mapped_nil ptab at_ : mapped ptab ptab at_ [].
Proof. split_and!; [done|simpl; lia|done]. Qed.

Lemma mapped_cons ptab ptab' at_ p l : 0 <= at_ < Z.of_nat (length ptab) ->
  mapped (<[Z.to_nat at_ := pte p 7]> ptab) ptab' (at_ + 1) l -> mapped ptab ptab' at_ (p :: l).
Proof.
  intros Hat (H1 & H2 & H3). rewrite length_insert in H1. split_and!; [done| |].
  - intros i Hi. destruct (decide (i = 0)) as [->|].
    + exists p. split; [done|]. rewrite Z.add_0_r, H3 by lia. by apply aget_insert_eq.
    + destruct (H2 (i - 1)) as (q & Hq & Hm); [simpl in Hi; lia|]. exists q. replace (at_ + 1 + (i - 1)) with (at_ + i) in Hm by lia.
      split; [|done]. replace (Z.to_nat i) with (S (Z.to_nat (i - 1))) by lia. done.
  - intros v Hv. cbn [length] in Hv. rewrite H3 by lia. apply aget_insert_ne; lia.
Qed.

Lemma area_fill_ok a flags n : forall s at_ p x free (Q : list Z -> kst -> Prop),
  k_asp s !! a = Some x -> 0 <= at_ -> at_ + Z.of_nat n <= Z.of_nat (length (as_ptab x)) -> KMem.pages_wf (k_mem s) free ->
  (forall l ptab m free', length l = n -> mapped (as_ptab x) ptab at_ l -> KMem.pages_wf m free' -> mem_frame (k_mem s) m ->
    (if decide (Z.land flags AREA_PHYSMAP = 0) then free = l ++ free' else free' = free) -> Q l (remap s m a x ptab)) ->
  wp (area_fill a at_ p flags n) Q s.
Proof.
  induction n as [|n IH]; intros s at_ p x free Q Hx Hat Hn Hf HQ.
  { cbn [area_fill]. vm_go. rewrite <- (remap_id s a x Hx). apply (HQ [] (as_ptab x) (k_mem s) free); [done|apply mapped_nil|done|done|by case_decide]. }
  cbn [area_fill]. wp_step.
  assert (forall pg m free1, KMem.pages_wf m free1 -> mem_frame (k_mem s) m ->
    (if decide (Z.land flags AREA_PHYSMAP = 0) then free = pg :: free1 else free1 = free) ->
    wp (_ <- aspace_map a pg at_ 1 7 ;; l <- area_fill a (at_ + 1) (p + 1) flags n ;; ret (pg :: l)) Q (set_k_mem s m)) as Hrest.
  { intros pg m free1 Hm Hfr Hcase. vm_go. apply (map_one (set_k_mem s m) a x); [done|lia|]. vm_go.
    set (ptab1 := <[Z.to_nat at_ := pte pg 7]> (as_ptab x)).
    eapply (IH (remap s m a x ptab1) (at_ + 1) (p + 1) (as_set_ptab x ptab1) free1); [simpl; apply lookup_insert_eq|lia| |done|].
    { simpl. subst ptab1. rewrite length_insert. lia. }
    intros l ptab2 m2 free2 Hl Hmap Hm2 Hfr2 Hcase2. vm_go. rewrite remap_remap. apply (HQ (pg :: l) ptab2 m2 free2).
    - simpl. congruence.
    - apply mapped_cons; [lia|done].
    - done.
    - by eapply mem_frame_trans.
    - case_decide; [simpl; congruence|congruence]. }
  case_decide as Hflag.
  - eapply getpage_ok; [done|]. intros pg l m -> Hm Hfr. by apply (Hrest pg m l).
  - apply wp_ret. specialize (Hrest p (k_mem s) free Hf (mem_frame_refl _) eq_refl).
    replace (set_k_mem s (k_mem s)) with s in Hrest by by destruct s. exact Hrest.
Qed.

Lemma clone_loop_ok a n : forall s at_ slots x (Q : unit -> kst -> Prop),
  k_asp s !! a = Some x -> 0 <= at_ -> at_ + Z.of_nat n <= Z.of_nat (length (as_ptab x)) -> (n <= length slots)%nat ->
  (forall ptab, mapped (as_ptab x) ptab at_ (take n slots) -> Q tt (remap s (k_mem s) a x ptab)) -> wp (clone_loop a at_ slots n) Q s.
Proof.
  induction n as [|n IH]; intros s at_ slots x Q Hx Hat Hn Hl HQ.
  { assert (wp (ret tt) Q s) as H0 by (rewrite <- (remap_id s a x Hx); apply wp_ret, HQ, mapped_nil). by destruct slots. }
  destruct slots as [|p slots]; [simpl in Hl; lia|]. cbn [clone_loop]. vm_go. apply (map_one s a x); [done|lia|].
  set (ptab1 := <[Z.to_nat at_ := pte p 7]> (as_ptab x)).
  eapply (IH (remap s (k_mem s) a x ptab1) (at_ + 1) slots (as_set_ptab x ptab1)); [simpl; apply lookup_insert_eq|lia| |simpl in Hl; lia|].
  { simpl. subst ptab1. rewrite length_insert. lia. }
  intros ptab2 Hmap. rewrite remap_remap. apply HQ. apply mapped_cons; [lia|done].
Qed.

Lemma clr_loop_ok a virt n : forall s i x (Q : unit -> kst -> Prop),
  k_asp s !! a = Some x -> 0 <= virt + i -> virt + i + Z.of_nat n <= Z.of_nat (length (as_ptab x)) ->
  (forall ptab, length ptab = length (as_ptab x) -> (forall v, virt + i <= v < virt + i + Z.of_nat n -> aget ptab v = Some 0) ->
    (forall v, ~ (virt + i <= v < virt + i + Z.of_nat n) -> aget ptab v = aget (as_ptab x) v) -> Q tt (remap s (k_mem s) a x ptab)) ->
  wp (aspace_clr_loop a virt i n) Q s.
Proof.
  induction n as [|n IH]; intros s i x Q Hx Hi Hn HQ.
  { cbn [aspace_clr_loop]. vm_go. rewrite <- (remap_id s a x Hx). apply HQ; [done|intros; lia|done]. }
  cbn [aspace_clr_loop]. vm_go. eapply wp_deref; [apply aset_in_range; lia|]. vm_go.
  set (ptab1 := <[Z.to_nat (virt + i) := 0]> (as_ptab x)).
  change (wp (aspace_clr_loop a virt (i + 1) n) Q (remap s (k_mem s) a x ptab1)).
  eapply (IH _ (i + 1) (as_set_ptab x ptab1)); [simpl; apply lookup_insert_eq|lia| |].
  { simpl. subst ptab1. rewrite length_insert. lia. }
  intros ptab2 H1 H2 H3. rewrite remap_remap. apply HQ.
  - rewrite H1. apply length_insert.
  - intros v Hv. destruct (decide (v = virt + i)) as [->|]; [|apply H2; lia]. rewrite H3 by lia. apply aget_insert_eq. lia.
  - intros v Hv. rewrite H3 by lia. apply aget_insert_ne; lia.
Qed.

(** Pages that can be given back. *)
Definition returnable (m : KMem.mem) (free l : list Z) : Prop :=
  NoDup l /\ forall p, p ∈ l -> (p ∉ free) /\ 0 < p < Z.of_nat (length (KMem.m_pagelist m)).

Lemma release_slots_ok slots : forall s size free (Q : Z -> kst -> Prop),
  0 <= size -> KMem.pages_wf (k_mem s) free -> returnable (k_mem s) free (take (Z.to_nat size) slots) ->
  (forall m free', KMem.pages_wf m free' -> mem_frame (k_mem s) m -> free' ≡ₚ take (Z.to_nat size) slots ++ free ->
    Q (Z.max 0 (size - Z.of_nat (length slots))) (set_k_mem s m)) ->
  wp (release_slots size slots) Q s.
Proof.
  induction slots as [|p slots IH]; intros s size free Q Hs Hf [Hnd Hr] HQ; cbn [release_slots].
  - wp_go. replace s with (set_k_mem s (k_mem s)) by by destruct s. replace size with (Z.max 0 (size - Z.of_nat (@length Z []))) by (simpl; lia).
    apply (HQ _ free); [done|done|]. by rewrite take_nil.
  - destruct (decide (size = 0)) as [->|Hne].
    + wp_go. replace s with (set_k_mem s (k_mem s)) by by destruct s.
      change 0 with (Z.max 0 (0 - Z.of_nat (length (p :: slots)))) at 1. by apply (HQ _ free).
    + replace (Z.to_nat size) with (S (Z.to_nat (size - 1))) in * by lia. cbn [take] in *. apply NoDup_cons in Hnd as [Hp Hnd].
      destruct (Hr p) as [Hpf Hpr]; [by apply list_elem_of_here|]. wp_go. eapply putpage_ok; [done|done|done|].
      intros m Hm Hfr. eapply (IH _ _ (p :: free)); [lia|done| |].
      { split; [done|]. intros q Hq. destruct (Hr q) as [? ?]; [by apply list_elem_of_further|]. destruct Hfr as (_ & _ & Hl). simpl. rewrite Hl.
        split; [|done]. apply not_elem_of_cons. split; [congruence|done]. }
      intros m2 free2 Hm2 Hfr2 HP. replace (Z.max 0 (size - 1 - Z.of_nat (length slots))) with (Z.max 0 (size - Z.of_nat (length (p :: slots)))) by (cbn [length]; lia).
      apply (HQ m2 free2); [done|by eapply mem_frame_trans|]. rewrite HP. simpl. by rewrite Permutation_middle.
Qed.

Lemma release_pages_ok pages : forall s size free (Q : unit -> kst -> Prop),
  0 <= size -> KMem.pages_wf (k_mem s) free -> returnable (k_mem s) free (take (Z.to_nat size) (concat pages)) ->
  (forall m free', KMem.pages_wf m free' -> mem_frame (k_mem s) m -> free' ≡ₚ take (Z.to_nat size) (concat pages) ++ free -> Q tt (set_k_mem s m)) ->
  wp (release_pages true size pages) Q s.
Proof.
  induction pages as [|pp pages IH]; intros s size free Q Hs Hf [Hnd Hr] HQ; cbn [release_pages].
  { wp_go. replace s with (set_k_mem s (k_mem s)) by by destruct s. apply (HQ _ free); [done|done|]. simpl. by rewrite take_nil. }
  rewrite concat_cons, take_app in *. apply NoDup_app in Hnd as (Hnd1 & Hd & Hnd2). setoid_rewrite elem_of_app in Hr. wp_go.
  eapply (release_slots_ok pp s size free); [done|done|split; [done|auto]|]. intros m free1 Hm Hfr HP.
  eapply (IH _ _ free1); [lia|done| |].
  { replace (Z.to_nat (Z.max 0 (size - Z.of_nat (length pp)))) with (Z.to_nat size - length pp)%nat by lia. split; [done|].
    intros p Hp. destruct (Hr p) as [Hpf Hpr]; [by right|]. destruct Hfr as (_ & _ & Hl). simpl. rewrite Hl. split; [|done].
    rewrite HP, elem_of_app. intros [Hin|?]; [|done]. by apply (Hd p). }
  intros m2 free2 Hm2 Hfr2 HP2. apply (HQ m2 free2); [done|by eapply mem_frame_trans|].
  replace (Z.to_nat (Z.max 0 (size - Z.of_nat (length pp)))) with (Z.to_nat size - length pp)%nat in HP2 by lia.
  rewrite HP2, HP. rewrite !app_assoc. by rewrite (Permutation_app_comm (take _ (concat pages))).
Qed.

Lemma release_none pages : forall s size (Q : unit -> kst -> Prop), Q tt s -> wp (release_pages false size pages) Q s.
Proof. induction pages as [|pp pages IH]; intros s size Q HQ; cbn [release_pages]; wp_go; auto. Qed.

(** *** The kernel invariant and the memory *)

Lemma wp_eq {A} (m : M A) s a s' (Q : A -> kst -> Prop) : m s = Ok (a, s') -> Q a s' -> wp m Q s.
Proof. unfold wp. by intros ->. Qed.

(** The state with other memory, addresses handed out, address spaces, areas and groups. *)
Definition vset (s : kst) (m : KMem.mem) (brk : Z) (AS : spaces) (AR : areas) (PG : groups) : kst :=
  set_k_pgrp (set_k_area (set_k_asp (set_k_brk (set_k_mem s m) brk) AS) AR) PG.

Lemma kinv_vset {X} e s m brk AS AR PG free : kinvX X e s -> KMem.pages_wf m free -> mem_frame (k_mem s) m -> k_brk s <= brk ->
  kinvX X e (vset s m brk AS AR PG).
Proof.
  intros I Hf (Hh & Hk & _) Hb. destruct (kv_mem _ _ _ I) as (_ & M1 & M2). destruct (kv_objs _ _ _ I) as [O1 O2 O3 O6 O4 O5].
  split; [apply I| |apply I|apply I| |apply I].
  - split; try done. intros p k Hp. apply O1 in Hp. simpl. lia.
  - split; [by exists free|]. simpl. by rewrite Hh, Hk.
Qed.

Lemma ports_new_other {K S P g} p id ty o : ports_ok K S P g -> K !! p = None ->
  ty <> RSRC_NONE -> ty <> RSRC_SEM -> ty <> RSRC_PORT -> ports_ok (<[p := (id, ty, o)]> K) S P g.
Proof.
  intros [H1 H2 H3 H4 H5 H6] Hp N1 N2 N3.
  assert (forall q i t o', t = RSRC_NONE \/ t = RSRC_SEM \/ t = RSRC_PORT -> <[p := (id, ty, o)]> K !! q = Some (i, t, o') <-> K !! q = Some (i, t, o')) as Hold.
  { intros q i t o' Ht. destruct (decide (q = p)) as [->|]; [|by rewrite lookup_insert_ne]. rewrite lookup_insert_eq, Hp. naive_solver. }
  split; [| | | |done|done].
  - intros q i o'. rewrite Hold by auto. by apply H1.
  - intros q. rewrite H2. setoid_rewrite Hold; [done|auto].
  - intros q. rewrite H3. setoid_rewrite Hold; [done|auto].
  - intros q pt Hq. destruct (H4 q pt Hq) as [(i & o' & Hk) Hn]. split; [|done]. exists i, o'. rewrite lookup_insert_ne by congruence. done.
Qed.

Lemma ports_del_other {K S P g} p id ty o : ports_ok K S P g -> K !! p = Some (id, ty, o) ->
  ty <> RSRC_NONE -> ty <> RSRC_SEM -> ty <> RSRC_PORT -> ty <> RSRC_QUEUE -> ports_ok (delete p K) S P g.
Proof.
  intros [H1 H2 H3 H4 H5 H6] Hp N1 N2 N3 N4. split; [| | | |done|done].
  - intros q i o' [_ Hq]%lookup_delete_Some. by eapply H1.
  - intros q. rewrite H2. setoid_rewrite lookup_delete_Some. naive_solver.
  - intros q. rewrite H3. setoid_rewrite lookup_delete_Some. naive_solver.
  - intros q pt Hq. destruct (H4 q pt Hq) as [(i & o' & Hk) Hn]. split; [|done]. exists i, o'. rewrite lookup_delete_ne by congruence. done.
Qed.

(** Binding a new area keeps the kernel invariant. *)
Lemma bind_area s p id o rmap rfree TM : kinv 0 s -> k_res s !! p = None -> 0 < p < k_brk s -> (o = 0 \/ is_Some (k_team s !! o)) ->
  dom TM = dom (k_team s) -> table_ok rmap rfree (<[p := (id, RSRC_AREA, o)]> (kinds s)) ->
  kinv 0 (bind_st s p id RSRC_AREA o rmap rfree TM).
Proof.
  intros I Hp Hr Ho HTM Ht. assert (kinds s !! p = None) as Hk by (unfold kinds; by rewrite lookup_fmap, Hp).
  apply (kinv_new 0 s p id RSRC_AREA o rmap rfree TM (k_brk s) (k_sem s) (k_port s) I); try done.
  split; [done|]. apply ports_new_other; try done. apply (kv_x _ _ _ I).
Qed.

Lemma bind_kinds s p id ty o rmap rfree TM : kinds (bind_st s p id ty o rmap rfree TM) = <[p := (id, ty, o)]> (kinds s).
Proof. unfold kinds, bind_st; simpl. by rewrite fmap_insert. Qed.

(** The search does not run into the end of the table. *)
Definition fits (s : kst) (a start len : Z) : Prop :=
  forall at_, locate_span a start len s = Ok (at_, s) -> at_ = 0 \/ at_ + len <= 1024.

Lemma pages_of_pos size : 1 <= pages_of size.
Proof. unfold pages_of. repeat case_decide; lia. Qed.

(** The part that area_create and area_clone share: the span. *)
Lemma locate_fits s a x start len (Q : Z -> kst -> Prop) : vm_ok s -> k_asp s !! a = Some x -> 0 < len -> fits s a start len -> Q 0 s ->
  (forall at_, 1 <= at_ -> at_ + len <= 1024 -> free_run (as_ptab x) at_ (at_ + len) -> Q at_ s) -> wp (locate_span a start len) Q s.
Proof.
  intros (_ & [HS _] & _) Hx Hlen Hfit H0 HQ. pose proof (HS a x Hx) as Hsp.
  destruct (locate_span_eq s a x start len Hx (sp_len _ _ _ Hsp) Hlen) as (at_ & E & H'). eapply wp_eq; [done|]. cbv zeta in H'.
  pose proof (span_start_range start). destruct H' as [(H1 & H2 & H3 & _)|[(H1 & H2 & _)|(-> & _)]]; [apply HQ; [lia|done..]| |done].
  destruct (Hfit _ E); lia.
Qed.

(** Pages of a group from their mapping. *)
Lemma mapped_pages g ptab ptab' at_ l n : mapped ptab ptab' at_ l -> pages_in g = l ++ drop (length l) (pages_in g) -> n = Z.of_nat (length l) ->
  forall i, 0 <= i < n -> exists p, pages_in g !! (Z.to_nat i) = Some p /\ aget ptab' (at_ + i) = Some (pte p 7).
Proof.
  intros (_ & H & _) Hg -> i Hi. destruct (H i Hi) as (p & Hp & Hm). exists p. split; [|done]. rewrite Hg. by apply lookup_app_l_Some.
Qed.

Lemma pages_wf_range m free p : KMem.pages_wf m free -> p ∈ free -> 0 < p < Z.of_nat (length (KMem.m_pagelist m)).
Proof. intros (Hc & _) Hp. by eapply KMem.chain_range. Qed.

(** The invariant after a new area [ar] of [a] with a new group [q]. *)
Lemma vm_create s a x flags n l ptab m free free' at_ K AS AR PG :
  let q := k_brk s in let ar := q + 64 in
  let g := PGroup n 1 flags [ar] (chunk6 (length l) l) in let y := Area q at_ n n in
  vm_ok s -> at_rest s -> k_asp s !! a = Some x -> KMem.pages_wf (k_mem s) free -> pages_ok (k_pgrp s) (Z.of_nat (length (KMem.m_pagelist (k_mem s)))) free ->
  1 <= at_ -> at_ + n <= 1024 -> free_run (as_ptab x) at_ (at_ + n) -> n = Z.of_nat (length l) -> 0 < n -> mapped (as_ptab x) ptab at_ l ->
  mem_frame (k_mem s) m -> (if decide (Z.land flags AREA_PHYSMAP = 0) then free = l ++ free' else free' = free) ->
  (exists id o, K = <[ar := (id, RSRC_AREA, o)]> (kinds s)) ->
  AS = <[a := as_set_ptab (as_set_areas x (as_areas x ++ [ar])) ptab]> (k_asp s) -> AR = <[ar := y]> (k_area s) -> PG = <[q := g]> (k_pgrp s) ->
  refs_ok K AR PG (q + 64 + 64) /\ spaces_ok AS AR PG /\ pages_ok PG (Z.of_nat (length (KMem.m_pagelist m))) free'.
Proof.
  intros q ar g y (HR & HS & _) [I _] Hx Hf Hp Hat Hat2 Hfree Hn Hpos Hmap Hfr Hcase (id & o & ->) -> -> ->.
  assert (pages_in g = l) as Hpages.
  { destruct (pages_in_chunks n l flags 1 [ar]) as [E|]; [|lia]. unfold g. rewrite E. apply take_ge. lia. }
  assert (0 < q) as Hq by (by eapply kinv_brk_pos).
  assert (k_pgrp s !! q = None) as Hnew.
  { destruct (k_pgrp s !! q) as [h|] eqn:E; [|done]. destruct (rf_group _ _ _ _ HR q h E) as ((_ & ?) & _). subst q. lia. }
  assert (kinds s !! ar = None) as Hk by (eapply fresh_kind; [done|]; subst ar q; lia).
  assert (k_area s !! ar = None) as HA.
  { destruct (k_area s !! ar) eqn:E; [|done]. destruct (proj1 (rf_kind _ _ _ _ HR ar)) as (? & ? & ?); [by rewrite E|congruence]. }
  split_and!.
  - apply (refs_add (kinds s) _ _ (k_brk s)); try done; simpl; try lia.
    + rewrite Hn. by apply chunk6_chunked.
    + intros h Hh. congruence.
  - eapply (spaces_add _ _ (k_pgrp s) _ a x ar y g); try done; simpl.
    + apply lookup_insert_eq.
    + intros r h Hr. exists h. split; [|done]. rewrite lookup_insert_ne; [done|]. congruence.
    + apply Hmap.
    + eapply mapped_pages; [done| |done]. by rewrite Hpages, drop_all, app_nil_r.
    + destruct Hmap as (_ & _ & Ho). by rewrite <- Hn in Ho.
  - destruct Hfr as (_ & _ & ->). eapply pages_ok_new; [done|done|apply Hf|intros; by eapply pages_wf_range|].
    rewrite Hpages. unfold owned. simpl. done.
Qed.

Lemma area_create_ok s a x size virt addr flags : at_rest s -> vm_ok s -> k_asp s !! a = Some x -> fits s a (virt / 0x1000) (pages_of size) ->
  wp (area_create a size virt addr flags) (fun _ s' => at_rest s' /\ vm_ok s') s.
Proof.
  intros HR HV Hx Hfit. pose proof HR as [I Hr]. pose proof HV as (_ & [HS _] & free & Hf & Hp). destruct (kv_x _ _ _ I) as [Ht _].
  pose proof (pages_of_pos size) as Hn. unfold area_create. cbv zeta. set (n := pages_of size) in *. wp_step.
  eapply locate_fits; [done|done|lia|done|wp_go; by rewrite decide_True|]. intros at_ Hat Hat2 Hfree. rewrite decide_False by lia.
  destruct (sc_cur _ _ _ _ (kv_sched _ _ _ I)) as [tk Htk]. destruct (kinv_task_res _ _ _ _ I Htk) as (tx & Htx & _).
  pose proof (kinv_res_owner _ _ _ _ I Htx) as Ho. unfold kmalloc. vm_go.
  set (q := k_brk s). set (ar := q + 64).
  eapply (area_fill_ok a flags (Z.to_nat n) _ at_ _ (as_set_areas x (as_areas x ++ [ar])) free); [simpl; apply lookup_insert_eq|lia| |exact Hf|].
  { simpl. rewrite (sp_len _ _ _ (HS a x Hx)). lia. }
  simpl as_ptab. intros l ptab m free' Hl Hmap Hm Hfr Hcase. vm_go. unfold current_owner. vm_go.
  set (s2 := vset s m (q + 64 + 64) (<[a := as_set_ptab (as_set_areas x (as_areas x ++ [ar])) ptab]> (k_asp s)) (<[ar := Area q at_ n n]> (k_area s))
    (<[q := PGroup n 1 flags [ar] (chunk6 (length l) l)]> (k_pgrp s))).
  match goal with |- wp _ _ ?st => assert (st = s2) as -> by (unfold s2, vset, remap; simpl; by rewrite !insert_insert_eq) end.
  assert (kinv 0 s2) as I2 by (eapply (kinv_vset 0 s m); [done|done|done|subst q; lia]).
  pose proof (kinv_brk_pos _ _ I) as Hbrk.
  eapply (rsrc_bind_spec s2 ar RSRC_AREA (r_owner tx)); [exact Ht|eapply (fresh_res 0 s); [exact I|subst ar q; lia]|done|exact Ho|].
  intros id rmap rfree TM Ht' HTM. vm_go. split; [split|].
  - apply bind_area; [done|eapply (fresh_res 0 s); [exact I|subst ar q; lia]|subst ar q; simpl; lia|done|done|done].
  - exact Hr.
  - destruct (vm_create s a x flags n l ptab m free free' at_ (kinds (bind_st s2 ar id RSRC_AREA (r_owner tx) rmap rfree TM)) (k_asp s2) (k_area s2) (k_pgrp s2))
      as (V1 & V2 & V3); try done; [lia..| |]; [rewrite bind_kinds; by eexists _, _|]. split; [exact V1|]. split; [exact V2|]. by exists free'.
Qed.

Lemma area_of s ar id o : vm_ok s -> kinds s !! ar = Some (id, RSRC_AREA, o) ->
  exists y g, k_area s !! ar = Some y /\ k_pgrp s !! ar_pgroup y = Some g /\ 0 < ar_length y <= pg_size g /\
    pg_size g <= Z.of_nat (length (concat (pg_pages g))) /\ pg_refcount g = Z.of_nat (length (pg_areas g)).
Proof.
  intros (HR & _) Hk. destruct (proj2 (rf_kind _ _ _ _ HR ar)) as [y Hy]; [by eexists _, _|].
  destruct (rf_area _ _ _ _ HR ar y Hy) as (g & Hg & _ & Hl). destruct (rf_group _ _ _ _ HR _ g Hg) as (_ & Hc & _ & Hs%chunked_length & _).
  exists y, g. done.
Qed.

(** The invariant after a new area of [a] for an old group. *)
Lemma vm_clone s a x y0 g ptab at_ K AS AR PG : let ar := k_brk s in let q := ar_pgroup y0 in let n := ar_length y0 in
  let y := Area q at_ n (ar_maxlength y0) in let g' := pg_set_areas g (u32 (pg_refcount g + 1)) (pg_areas g ++ [ar]) in
  vm_ok s -> at_rest s -> k_asp s !! a = Some x -> k_pgrp s !! q = Some g -> k_brk s + 64 <= 2 ^ 32 ->
  1 <= at_ -> at_ + n <= 1024 -> free_run (as_ptab x) at_ (at_ + n) -> 0 < n <= pg_size g -> mapped (as_ptab x) ptab at_ (take (Z.to_nat n) (concat (pg_pages g))) ->
  (exists id o, K = <[ar := (id, RSRC_AREA, o)]> (kinds s)) ->
  AS = <[a := as_set_ptab (as_set_areas x (as_areas x ++ [ar])) ptab]> (k_asp s) -> AR = <[ar := y]> (k_area s) -> PG = <[q := g']> (k_pgrp s) ->
  refs_ok K AR PG (ar + 64) /\ spaces_ok AS AR PG /\ forall pmax free, pages_ok (k_pgrp s) pmax free -> pages_ok PG pmax free.
Proof.
  intros ar q n y g' (HR & HS & _) [I _] Hx Hg Hb Hat Hat2 Hfree Hn Hmap (id & o & ->) -> -> ->.
  destruct (rf_group _ _ _ _ HR q g Hg) as (Hq & Hc & _ & Hch & _). pose proof (chunked_length _ _ Hch) as Hs.
  pose proof (refs_count _ _ _ _ q g HR Hg (ob_range _ _ _ _ _ (kv_objs _ _ _ I))) as Hcount.
  assert (kinds s !! ar = None) as Hk by (by eapply fresh_kind).
  assert (k_area s !! ar = None) as HA.
  { destruct (k_area s !! ar) eqn:E; [|done]. destruct (proj1 (rf_kind _ _ _ _ HR ar)) as (? & ? & ?); [by rewrite E|congruence]. }
  assert (length (take (Z.to_nat n) (concat (pg_pages g))) = Z.to_nat n) as Hlen by (rewrite length_take; lia).
  split_and!.
  - apply (refs_add (kinds s) _ _ (k_brk s)); try done; simpl; try lia.
    + rewrite length_app, u32_small; simpl; lia.
    + intros h Hh. simplify_eq. done.
    + congruence.
  - eapply (spaces_add _ _ (k_pgrp s) _ a x ar y g'); try done; simpl.
    + apply lookup_insert_eq.
    + intros r h Hr. destruct (decide (r = q)) as [->|]; [|exists h; by rewrite lookup_insert_ne]. simplify_eq. exists g'. by rewrite lookup_insert_eq.
    + apply Hmap.
    + eapply mapped_pages; [done| |lia]. change (pages_in g') with (pages_in g). rewrite Hlen.
      replace (take (Z.to_nat n) (concat (pg_pages g))) with (take (Z.to_nat n) (pages_in g)); [by rewrite take_drop|].
      unfold pages_in. rewrite take_take. f_equal. lia.
    + destruct Hmap as (_ & _ & Ho). intros v Hv. apply Ho. lia.
  - intros pmax free Hp. by eapply pages_ok_put.
Qed.

Lemma area_clone_ok s a x id virt addr : at_rest s -> vm_ok s -> k_asp s !! a = Some x -> k_brk s + 64 <= 2 ^ 32 ->
  (forall ar o y, kinds s !! ar = Some (u32 id, RSRC_AREA, o) -> k_area s !! ar = Some y -> fits s a (virt / 0x1000) (ar_length y)) ->
  wp (area_clone a id virt addr) (fun _ s' => at_rest s' /\ vm_ok s') s.
Proof.
  intros HR HV Hx Hb Hfit. pose proof HR as [I Hr]. pose proof HV as (_ & [HS _] & free & Hf & Hp). destruct (kv_x _ _ _ I) as [Ht _].
  unfold area_clone. wp_step. eapply rsrc_find_spec; [done|done|intros _; wp_go; by rewrite decide_True|].
  intros ar0 rx Hrx Hty Hne Hid. rewrite decide_False by done. pose proof (kinds_of _ _ _ Hrx) as Hk. rewrite Hty, Hid in Hk.
  destruct (area_of s ar0 _ _ HV Hk) as (y0 & g & Hy0 & Hg & Hlen & Hs & _). vm_go.
  eapply locate_fits; [done|done|lia|by eapply Hfit|wp_go; by rewrite decide_True|]. intros at_ Hat Hat2 Hfree. rewrite decide_False by lia.
  destruct (sc_cur _ _ _ _ (kv_sched _ _ _ I)) as [tk Htk]. destruct (kinv_task_res _ _ _ _ I Htk) as (tx & Htx & _).
  pose proof (kinv_res_owner _ _ _ _ I Htx) as Ho. unfold kmalloc. vm_go. set (ar := k_brk s). set (n := ar_length y0) in *.
  eapply (clone_loop_ok a (Z.to_nat n) _ at_ _ (as_set_areas x (as_areas x ++ [ar]))); [simpl; apply lookup_insert_eq|lia| |lia|].
  { simpl. rewrite (sp_len _ _ _ (HS a x Hx)). lia. }
  simpl as_ptab. intros ptab Hmap. unfold current_owner. vm_go.
  set (s2 := vset s (k_mem s) (ar + 64) (<[a := as_set_ptab (as_set_areas x (as_areas x ++ [ar])) ptab]> (k_asp s))
    (<[ar := Area (ar_pgroup y0) at_ n (ar_maxlength y0)]> (k_area s))
    (<[ar_pgroup y0 := pg_set_areas g (u32 (pg_refcount g + 1)) (pg_areas g ++ [ar])]> (k_pgrp s))).
  match goal with |- wp _ _ ?st => assert (st = s2) as -> by (unfold s2, vset, remap; simpl; by rewrite !insert_insert_eq) end.
  assert (kinv 0 s2) as I2 by (eapply (kinv_vset 0 s (k_mem s)); [done|done|done|subst ar; lia]).
  pose proof (kinv_brk_pos _ _ I) as Hbrk.
  eapply (rsrc_bind_spec s2 ar RSRC_AREA (r_owner tx)); [exact Ht|eapply (fresh_res 0 s); [exact I|subst ar; lia]|done|exact Ho|].
  intros id1 rmap rfree TM Ht' HTM. vm_go. split; [split|].
  - apply bind_area; [done|eapply (fresh_res 0 s); [exact I|subst ar; lia]|subst ar; simpl; lia|done|done|done].
  - exact Hr.
  - destruct (vm_clone s a x y0 g ptab at_ (kinds (bind_st s2 ar id1 RSRC_AREA (r_owner tx) rmap rfree TM)) (k_asp s2) (k_area s2) (k_pgrp s2))
      as (V1 & V2 & V3); try done; [rewrite bind_kinds; by eexists _, _|]. split; [exact V1|]. split; [exact V2|]. exists free. split; [done|]. by apply V3.
Qed.

(** The pages of a group that is torn down can all be given back. *)
Lemma group_returnable PG m free q g : pages_ok PG (Z.of_nat (length (KMem.m_pagelist m))) free -> PG !! q = Some g -> owned g ->
  returnable m free (pages_in g).
Proof.
  intros [H1 H2] Hg Ho. split; [|intros p Hp; by eapply H1]. apply NoDup_alt. intros i j p Hi Hj. by destruct (H2 q q g g i j p Hg Hg Ho Ho Hi Hj).
Qed.

(** The group of an area that goes away. *)
Lemma drop_group_ok s q g ar free (Q : unit -> kst -> Prop) PG : let n := u32 (pg_refcount g - 1) in let g' := pg_set_areas g n (remove1 ar (pg_areas g)) in
  KMem.pages_wf (k_mem s) free -> pages_ok PG (Z.of_nat (length (KMem.m_pagelist (k_mem s)))) free -> PG !! q = Some g -> 0 <= pg_size g -> k_pgrp s = <[q := g']> PG ->
  (forall m free', KMem.pages_wf m free' -> mem_frame (k_mem s) m -> pages_ok (drop_area PG q g ar) (Z.of_nat (length (KMem.m_pagelist m))) free' ->
    Q tt (set_k_pgrp (set_k_mem s m) (drop_area PG q g ar))) ->
  wp (if decide (n = 0) then
     release_pages (bool_decide (Z.land (pg_flags g) AREA_PHYSMAP = 0)) (pg_size g) (pg_pages g) ;;
     modify (fun s => set_k_pgrp s (delete q (k_pgrp s)))
   else ret tt) Q s.
Proof.
  intros n g' Hf Hp Hg Hs Hpg HQ. unfold drop_area in HQ. fold n in HQ. case_decide as Hn.
  - assert (forall m free', KMem.pages_wf m free' -> mem_frame (k_mem s) m -> (if decide (owned g) then free' ≡ₚ pages_in g ++ free else free' = free) ->
      Q tt (set_k_pgrp (set_k_mem s m) (delete q (k_pgrp s)))) as Hend.
    { intros m free' Hm Hfr Hc. rewrite Hpg, delete_insert_eq. apply (HQ m free'); [done|done|]. destruct Hfr as (_ & _ & ->). by eapply pages_ok_del. }
    wp_step. case_bool_decide as Ho.
    + eapply release_pages_ok; [done|done|by eapply group_returnable|]. intros m free' Hm Hfr HP. wp_go. apply (Hend m free'); [done|done|].
      by rewrite decide_True.
    + apply release_none. wp_go. replace s with (set_k_mem s (k_mem s)) by by destruct s. apply (Hend _ free); [done|done|]. by rewrite decide_False.
  - wp_go. replace s with (set_k_pgrp (set_k_mem s (k_mem s)) (<[q := g']> PG)) by (rewrite <- Hpg; by destruct s).
    apply (HQ _ free); [done|done|]. by eapply pages_ok_put.
Qed.

(** The invariant without the area [ar] of [a]. *)
Lemma vm_destroy s a x ar y g ptab : vm_ok s -> at_rest s -> k_brk s <= 2 ^ 32 -> k_asp s !! a = Some x -> ar ∈ as_areas x -> k_area s !! ar = Some y ->
  k_pgrp s !! ar_pgroup y = Some g -> length ptab = length (as_ptab x) ->
  (forall v, ar_virt_addr y <= v < ar_virt_addr y + ar_length y -> aget ptab v = Some 0) ->
  (forall v, ~ (ar_virt_addr y <= v < ar_virt_addr y + ar_length y) -> aget ptab v = aget (as_ptab x) v) ->
  let PG := drop_area (k_pgrp s) (ar_pgroup y) g ar in
  refs_ok (delete ar (kinds s)) (delete ar (k_area s)) PG (k_brk s) /\
  spaces_ok (<[a := as_set_ptab (as_set_areas x (remove1 ar (as_areas x))) ptab]> (k_asp s)) (delete ar (k_area s)) PG.
Proof.
  intros (HR & HS & _) [I _] Hb Hx Har Hy Hg Hl Hin Hout PG.
  destruct (refs_drop _ _ _ _ ar y g HR Hy Hg Hb (ob_range _ _ _ _ _ (kv_objs _ _ _ I))) as [HR' Hlast]. split; [done|].
  eapply (spaces_drop _ _ (k_pgrp s)); try done.
  - intros i Hi. apply Hin. lia.
  - intros r z h Hne Hz Hh. destruct (rf_area _ _ _ _ HR r z Hz) as (h' & Hh' & Hr & _). simplify_eq. subst PG. unfold drop_area. case_decide as Hd.
    + exists h. split; [|done]. rewrite lookup_delete_ne; [done|]. intros E. rewrite <- E in Hh. simplify_eq. rewrite (Hlast Hd) in Hr.
      by apply list_elem_of_singleton in Hr.
    + destruct (decide (ar_pgroup z = ar_pgroup y)) as [E|]; [|exists h; by rewrite lookup_insert_ne]. rewrite E in *. simplify_eq.
      eexists. by rewrite lookup_insert_eq.
Qed.

Lemma area_destroy_ok s a x id : at_rest s -> vm_ok s -> k_asp s !! a = Some x -> k_brk s <= 2 ^ 32 ->
  wp (area_destroy a id) (fun _ s' => at_rest s' /\ vm_ok s') s.
Proof.
  intros HR HV Hx Hb. pose proof HR as [I Hr]. pose proof HV as (_ & [HS _] & free & Hf & Hp). destruct (kv_x _ _ _ I) as [Ht Hpo].
  unfold area_destroy. wp_step. eapply find_spec; [done|done|wp_go; by rewrite decide_True|]. intros ar rx Hrx Hty Hne Hk. rewrite decide_False by done.
  destruct (area_of s ar _ _ HV Hk) as (y & g & Hy & Hg & Hlen & Hs & _). vm_go. case_decide as Hin; [vm_go; done|].
  destruct (sp_area _ _ _ (HS a x Hx) ar Hin) as (y' & g' & Hy' & _ & Hv1 & Hv2 & _). simplify_eq.
  pose proof (sp_len _ _ _ (HS a x Hx)) as Hpl. vm_go. unfold aspace_clr.
  eapply (clr_loop_ok a (ar_virt_addr y) _ _ 0 (as_set_areas x (remove1 ar (as_areas x)))); [simpl; apply lookup_insert_eq|lia|simpl; lia|].
  simpl as_ptab. rewrite !Z.add_0_r, !Z2Nat.id by lia. intros ptab Hl Hz Ho. vm_go.
  eapply (drop_group_ok _ (ar_pgroup y) g ar free _ (k_pgrp s)); [exact Hf|exact Hp|done|lia|done|]. intros m free' Hm Hfr Hp'. vm_go.
  destruct (vm_destroy s a x ar y g ptab) as [V1 V2]; try done.
  set (PG := drop_area (k_pgrp s) (ar_pgroup y) g ar) in *. set (AS := <[a := as_set_ptab (as_set_areas x (remove1 ar (as_areas x))) ptab]> (k_asp s)) in *.
  set (s2 := vset s m (k_brk s) AS (k_area s) PG).
  match goal with |- wp _ _ ?st => assert (st = s2) as -> by (unfold s2, vset, remap, AS; simpl; by rewrite !insert_insert_eq) end.
  assert (kinv 0 s2) as I2 by (eapply (kinv_vset 0 s m); [done|done|done|lia]).
  destruct (not_global_run _ _ _ _ I Hrx) as [Hrq _]; [congruence|].
  assert (ar <> null_resource) as Hnull by (eapply null_ne; [done|done|done|congruence]).
  eapply (rsrc_release_spec s2 ar rx); [done|exact Ht|done|congruence|done|done|].
  intros R T TM l rmap s1 I1 HK HRr _ HT Ht'. unfold kfree_res, release_st. wp_go. split; [split|].
  - simpl. rewrite delete_insert_eq.
    assert (kinvX full 0 (set_k_area s1 (delete ar (k_area s1)))) as I1' by (split; apply I1).
    eapply (kinv_free 0 _ ar _ rmap (r_id rx) (k_sem s1) (k_port s1) I1' HRr); [done|simpl; congruence..|eapply (not_global 0 s); [done|done|congruence]|].
    change (kinds (set_k_area s1 (delete ar (k_area s1)))) with (kinds s1). rewrite HK. split.
    + rewrite <- (delete_insert_eq (kinds s2) ar (0, RSRC_NONE, r_owner rx)). eapply table_delete; [done|apply lookup_insert_eq|done].
    + eapply ports_del_other; [exact Hpo|exact Hk|done..].
  - eapply running_tasks; [exact Hr|done|]. simpl. apply HT. by eapply (running_detached 0 s).
  - match goal with |- vm_ok ?st => assert (kinds st = delete ar (kinds s)) as HKf end.
    { unfold kinds. simpl. rewrite delete_insert_eq, fmap_delete. change (kind <$> R) with (kinds s1). by rewrite HK. }
    split; [rewrite HKf; exact V1|]. split; [exact V2|]. by exists free'.
Qed.

(** The pages that area_resize adds. *)
Lemma resize_loop_ok a n : forall s at_ size pages x free (Q : list (list Z) -> kst -> Prop),
  k_asp s !! a = Some x -> 0 <= at_ -> at_ + Z.of_nat n <= Z.of_nat (length (as_ptab x)) -> KMem.pages_wf (k_mem s) free ->
  chunked size pages -> 0 <= size ->
  (forall l pages' ptab m free', length l = n -> mapped (as_ptab x) ptab at_ l -> KMem.pages_wf m free' -> mem_frame (k_mem s) m -> free = l ++ free' ->
    chunked (size + Z.of_nat n) pages' -> take (Z.to_nat (size + Z.of_nat n)) (concat pages') = take (Z.to_nat size) (concat pages) ++ l ->
    Q pages' (remap s m a x ptab)) ->
  wp (resize_loop a at_ (size mod 6) pages n) Q s.
Proof.
  induction n as [|n IH]; intros s at_ size pages x free Q Hx Hat Hn Hf Hc Hs HQ; cbn [resize_loop].
  { apply wp_ret. rewrite <- (remap_id s a x Hx). apply (HQ [] pages (as_ptab x) (k_mem s) free); [done|apply mapped_nil|done|done|done|..].
    - by rewrite Z.add_0_r.
    - by rewrite Z.add_0_r, app_nil_r. }
  wp_step. eapply getpage_ok; [done|]. intros p l m -> Hm Hfr. wp_step. apply (map_one (set_k_mem s m) a x); [done|lia|].
  set (ptab1 := <[Z.to_nat at_ := pte p 7]> (as_ptab x)). destruct (add_page_ok size pages p Hc Hs) as [Hc1 Ht1].
  replace (if decide (size mod 6 + 1 = 6) then 0 else size mod 6 + 1) with ((size + 1) mod 6).
  2: { pose proof (Z.div_mod size 6 ltac:(lia)). pose proof (Z.mod_pos_bound size 6 ltac:(lia)). pose proof (Z.div_mod (size + 1) 6 ltac:(lia)).
       pose proof (Z.mod_pos_bound (size + 1) 6 ltac:(lia)). case_decide; lia. }
  eapply (IH (remap s m a x ptab1) (at_ + 1) (size + 1) _ (as_set_ptab x ptab1) l); [simpl; apply lookup_insert_eq|lia| |exact Hm|done|lia|].
  { simpl. subst ptab1. rewrite length_insert. lia. }
  intros l2 pages2 ptab2 m2 free2 Hl2 Hmap Hm2 Hfr2 -> Hc2 Ht2. rewrite remap_remap. apply (HQ (p :: l2) pages2 ptab2 m2 free2).
  - simpl. congruence.
  - apply mapped_cons; [lia|done].
  - done.
  - by eapply mem_frame_trans.
  - done.
  - by replace (size + Z.of_nat (S n)) with (size + 1 + Z.of_nat n) by lia.
  - replace (size + Z.of_nat (S n)) with (size + 1 + Z.of_nat n) by lia. rewrite Ht2, Ht1, <- app_assoc. done.
Qed.

(** How many pages area_resize is to add. *)
Definition resize_pages (size have : Z) : Z := u32 (u32 size / 0x1000 - have).

(** The conditions under which growing an area is sound: the area is one of the
  address space, and it is as long as its page group. *)
Definition resizable (s : kst) (a id size : Z) : Prop :=
  forall x ar o y g, k_asp s !! a = Some x -> kinds s !! ar = Some (u32 id, RSRC_AREA, o) -> k_area s !! ar = Some y -> k_pgrp s !! ar_pgroup y = Some g ->
    (ar ∈ as_areas x) /\ ar_length y = pg_size g /\ fits s a (ar_virt_addr y + pg_size g) (resize_pages size (pg_size g)).

(** The invariant after the growth of [ar]. *)
Lemma vm_resize s a x ar y g n l pages ptab m free free' :
  let q := ar_pgroup y in let y' := Area q (ar_virt_addr y) (ar_length y + n) (u32 (ar_maxlength y + n)) in
  let g' := PGroup (pg_size g + n) (pg_refcount g) (pg_flags g) (pg_areas g) pages in
  vm_ok s -> k_asp s !! a = Some x -> ar ∈ as_areas x -> k_area s !! ar = Some y -> k_pgrp s !! q = Some g -> ar_length y = pg_size g -> 0 < n ->
  KMem.pages_wf (k_mem s) free -> pages_ok (k_pgrp s) (Z.of_nat (length (KMem.m_pagelist (k_mem s)))) free ->
  ar_virt_addr y + pg_size g + n <= 1024 -> free_run (as_ptab x) (ar_virt_addr y + pg_size g) (ar_virt_addr y + pg_size g + n) -> n = Z.of_nat (length l) ->
  mapped (as_ptab x) ptab (ar_virt_addr y + pg_size g) l -> mem_frame (k_mem s) m -> free = l ++ free' -> chunked (pg_size g + n) pages ->
  take (Z.to_nat (pg_size g + n)) (concat pages) = take (Z.to_nat (pg_size g)) (concat (pg_pages g)) ++ l ->
  refs_ok (kinds s) (<[ar := y']> (k_area s)) (<[q := g']> (k_pgrp s)) (k_brk s) /\
  spaces_ok (<[a := as_set_ptab x ptab]> (k_asp s)) (<[ar := y']> (k_area s)) (<[q := g']> (k_pgrp s)) /\
  pages_ok (<[q := g']> (k_pgrp s)) (Z.of_nat (length (KMem.m_pagelist m))) free'.
Proof.
  intros q y' g' (HR & HS & _) Hx Hin Hy Hg Hlen Hpos Hf Hp Hmax Hfree Hn Hmap Hfr Hfl Hch Ht.
  destruct (rf_area _ _ _ _ HR ar y Hy) as (h & Hh & _ & Hl0). fold q in Hh. assert (h = g) as -> by congruence. subst n.
  destruct (rf_group _ _ _ _ HR q g Hg) as (_ & _ & _ & Hch0 & _). pose proof (chunked_length _ _ Hch0) as Hcl.
  assert (pages_in g' = pages_in g ++ l) as Hpages by exact Ht.
  assert (length (pages_in g) = Z.to_nat (pg_size g)) as Hpl by (unfold pages_in; rewrite length_take; lia).
  split_and!.
  - eapply refs_grow; try done; simpl; lia.
  - eapply (spaces_grow _ _ (k_pgrp s) _ a x ar y y' g'); try done; simpl; try lia.
    + intros r z Hr. destruct (decide (r = q)) as [->|]; [|exists z; by rewrite lookup_insert_ne]. simplify_eq. exists g'. rewrite lookup_insert_eq.
      split; [done|]. intros i p Hi. rewrite Hpages. by apply lookup_app_l_Some.
    + apply lookup_insert_eq.
    + rewrite Hlen. by replace (ar_virt_addr y + (pg_size g + Z.of_nat (length l))) with (ar_virt_addr y + pg_size g + Z.of_nat (length l)) by lia.
    + apply Hmap.
    + intros i Hi. destruct Hmap as (_ & Hm & _). destruct (Hm (i - pg_size g)) as (p & Hp' & Hpte); [lia|]. exists p.
      replace (ar_virt_addr y + pg_size g + (i - pg_size g)) with (ar_virt_addr y + i) in Hpte by lia. split; [|done].
      rewrite Hpages, lookup_app_r by lia. rewrite <- Hp'. f_equal. lia.
    + intros v Hv. destruct Hmap as (_ & _ & Ho). apply Ho. lia.
  - destruct Hfr as (_ & _ & ->). eapply (pages_ok_grow _ _ _ _ q g g' l Hp); [done|apply Hf|intros; by eapply pages_wf_range|done|done|done].
Qed.

Lemma area_resize_ok s a x id size : at_rest s -> vm_ok s -> k_asp s !! a = Some x -> resizable s a id size ->
  wp (area_resize a id size) (fun _ s' => at_rest s' /\ vm_ok s') s.
Proof.
  intros HR HV Hx Hok. pose proof HR as [I Hr]. pose proof HV as (_ & [HS _] & free & Hf & Hp).
  unfold area_resize. wp_step. eapply rsrc_find_spec; [done|done|intros _; wp_go; by rewrite decide_True|].
  intros ar rx Hrx Hty Hne Hid. rewrite decide_False by done. pose proof (kinds_of _ _ _ Hrx) as Hk. rewrite Hty, Hid in Hk.
  destruct (area_of s ar _ _ HV Hk) as (y & g & Hy & Hg & Hlen & Hs & _). destruct (Hok x ar _ y g Hx Hk Hy Hg) as (Hin & Hl & Hfit).
  destruct (sp_area _ _ _ (HS a x Hx) ar Hin) as (y0 & g0 & Hy0 & _ & Hv1 & Hv2 & _). simplify_eq. pose proof (sp_len _ _ _ (HS a x Hx)) as Hpl.
  vm_go. rewrite (u32_small (pg_size g * 0x1000)) by lia. destruct (decide (u32 size <= pg_size g * 0x1000)) as [|Hbig]; [wp_go; done|].
  cbv zeta. fold (resize_pages size (pg_size g)). pose proof (u32_range size). set (n := resize_pages size (pg_size g)) in *.
  assert (pg_size g <= u32 size / 0x1000) as Hq by (apply Z.div_le_lower_bound; lia).
  assert (u32 size / 0x1000 < 2 ^ 32) as Hq2 by (apply Z.div_lt_upper_bound; lia).
  assert (0 <= n /\ n = u32 size / 0x1000 - pg_size g) as [Hn0 Hn] by (subst n; unfold resize_pages; rewrite u32_small; lia).
  wp_step. destruct (decide (n = 0)) as [->|Hn1].
  { eapply (wp_eq _ _ 0); [unfold locate_span, get_asp, gets, bind, lift, Datatypes.id, deref; by rewrite Hx|]. rewrite decide_True by lia. wp_go. done. }
  eapply locate_fits; [done|done|lia|exact Hfit|rewrite decide_True by lia; wp_go; done|]. intros at_ Hat Hat2 Hfree. wp_go.
  destruct (decide (at_ <> ar_virt_addr y + pg_size g)) as [|Heq]; [wp_go; done|]. assert (at_ = ar_virt_addr y + pg_size g) as -> by lia. clear Heq.
  rewrite !(u32_small (_ + n)) by lia. vm_go.
  eapply (resize_loop_ok a (Z.to_nat n) _ _ _ _ x free); [exact Hx|lia|rewrite Hpl; lia|exact Hf|by apply (rf_group _ _ _ _ (proj1 HV) (ar_pgroup y) g Hg)|lia|].
  intros l pages ptab m free' Hll Hmap Hm Hfr Hcase Hch Ht. rewrite Z2Nat.id in Hch, Ht by lia. vm_go.
  set (s2 := vset s m (k_brk s) (<[a := as_set_ptab x ptab]> (k_asp s))
    (<[ar := Area (ar_pgroup y) (ar_virt_addr y) (ar_length y + n) (u32 (ar_maxlength y + n))]> (k_area s))
    (<[ar_pgroup y := PGroup (pg_size g + n) (pg_refcount g) (pg_flags g) (pg_areas g) pages]> (k_pgrp s))).
  match goal with |- at_rest ?st /\ _ => assert (st = s2) as -> by (unfold s2, vset, remap; simpl; fold n; rewrite (u32_small (pg_size g + n)) by lia; by rewrite !insert_insert_eq) end.
  split; [split; [|exact Hr]|].
  - eapply (kinv_vset 0 s m); [done|done|done|lia].
  - destruct (vm_resize s a x ar y g n l pages ptab m free free') as (V1 & V2 & V3); try done; [lia..|]. split; [exact V1|]. split; [exact V2|]. by exists free'.
Qed.

(** ** A span that is not there *)

Lemma bind_Ok {A B} (m : M A) (k : A -> M B) s a s' r : m s = Ok (a, s') -> k a s' = r -> (x <- m ;; k x) s = r.
Proof. unfold bind. by intros ->. Qed.
Lemma bind_Fault {A B} (m : M A) (k : A -> M B) s : m s = Fault -> (x <- m ;; k x) s = Fault.
Proof. unfold bind. by intros ->. Qed.

Lemma aspace_map_eq s a x p at_ : k_asp s !! a = Some x ->
  aspace_map a p at_ 1 7 s = match aset (as_ptab x) at_ (pte p 7) with Some l => Ok (tt, remap s (k_mem s) a x l) | None => Fault end.
Proof.
  intros Hx. unfold aspace_map. change (Z.to_nat 1) with 1%nat. cbn [aspace_map_loop].
  unfold get_asp, gets, bind, lift, id, deref. rewrite Hx, !Z.add_0_r. by destruct (aset _ _ _).
Qed.

Lemma area_fill_overrun a flags n : forall s at_ p x free, k_asp s !! a = Some x -> 0 <= at_ <= Z.of_nat (length (as_ptab x)) ->
  Z.of_nat (length (as_ptab x)) < at_ + Z.of_nat n -> KMem.pages_wf (k_mem s) free -> (Z.land flags AREA_PHYSMAP = 0 -> (n <= length free)%nat) ->
  area_fill a at_ p flags n s = Fault.
Proof.
  induction n as [|n IH]; intros s at_ p x free Hx Hat Hn Hf Hfree; [lia|]. cbn [area_fill].
  assert (exists pg m free1, (if decide (Z.land flags AREA_PHYSMAP = 0) then getpage else ret p) s = Ok (pg, set_k_mem s m) /\
    KMem.pages_wf m free1 /\ (Z.land flags AREA_PHYSMAP = 0 -> (n <= length free1)%nat)) as (pg & m & free1 & E & Hm & Hfree1).
  { case_decide as Hfl.
    - destruct free as [|pg l]; [specialize (Hfree Hfl); simpl in Hfree; lia|]. pose proof (KMem.getpage_spec _ _ Hf) as (m & E & Hm & _).
      exists pg, m, l. unfold getpage, on_mem. rewrite E. split_and!; [done|done|]. intros _. specialize (Hfree Hfl). simpl in Hfree. lia.
    - exists p, (k_mem s), free. split_and!; [by destruct s|done|done]. }
  eapply bind_Ok; [exact E|]. cbn beta. pose proof (aspace_map_eq (set_k_mem s m) a x pg at_ Hx) as Em.
  destruct (decide (at_ < Z.of_nat (length (as_ptab x)))) as [Hlt|Hge].
  - rewrite aset_in_range in Em by lia. eapply bind_Ok; [exact Em|]. apply bind_Fault.
    eapply (IH _ _ _ (as_set_ptab x (<[Z.to_nat at_ := pte pg 7]> (as_ptab x))) free1); [simpl; apply lookup_insert_eq|..|exact Hm|done];
      simpl; rewrite length_insert; lia.
  - unfold aset in Em. rewrite decide_False in Em by lia. by apply bind_Fault.
Qed.

(** ** Runs of area calls *)

Inductive vm_call :=
| VCreate (a size virt addr flags : Z)
| VClone (a area_id virt addr : Z)
| VDestroy (a area_id : Z)
| VResize (a area_id size : Z).

Definition vm_run (c : vm_call) : M unit :=
  match c with
  | VCreate a size virt addr flags => _ <- area_create a size virt addr flags ;; ret tt
  | VClone a area_id virt addr => _ <- area_clone a area_id virt addr ;; ret tt
  | VDestroy a area_id => _ <- area_destroy a area_id ;; ret tt
  | VResize a area_id size => _ <- area_resize a area_id size ;; ret tt
  end.

(** A call on an address space that exists, on a machine with addresses left, whose
  span is not cut off by the end of the table; only an area that [resizable] accepts
  is made longer. *)
Definition vm_enabled (s : kst) (c : vm_call) : Prop :=
  k_brk s + 128 <= 2 ^ 32 /\
  match c with
  | VCreate a size virt _ _ => is_Some (k_asp s !! a) /\ fits s a (virt / 0x1000) (pages_of size)
  | VClone a area_id virt _ => is_Some (k_asp s !! a) /\
      forall ar o y, kinds s !! ar = Some (u32 area_id, RSRC_AREA, o) -> k_area s !! ar = Some y -> fits s a (virt / 0x1000) (ar_length y)
  | VDestroy a _ => is_Some (k_asp s !! a)
  | VResize a area_id size => is_Some (k_asp s !! a) /\ resizable s a area_id size
  end.

Inductive vm_reach (s0 : kst) : kst -> Prop :=
| vm_refl : vm_reach s0 s0
| vm_step s c s' : vm_reach s0 s -> vm_enabled s c -> vm_run c s = Ok (tt, s') -> vm_reach s0 s'.

Lemma vm_run_ok s c : at_rest s -> vm_ok s -> vm_enabled s c -> wp (vm_run c) (fun _ s' => at_rest s' /\ vm_ok s') s.
Proof.
  intros HR HV [Hb He]. destruct c as [a size virt addr flags|a id virt addr|a id|a id size]; simpl in *; wp_step.
  - destruct He as [[x Hx] Hf]. eapply wp_mono; [by eapply area_create_ok|]. intros. by wp_go.
  - destruct He as [[x Hx] Hf]. eapply wp_mono; [eapply area_clone_ok; [done|done|done|lia|done]|]. intros. by wp_go.
  - destruct He as [x Hx]. eapply wp_mono; [eapply area_destroy_ok; [done|done|done|lia]|]. intros. by wp_go.
  - destruct He as [[x Hx] Hf]. eapply wp_mono; [by eapply area_resize_ok|]. intros. by wp_go.
Qed.

Lemma vm_reach_ok s0 s : at_rest s0 -> vm_ok s0 -> vm_reach s0 s -> at_rest s /\ vm_ok s.
Proof.
  intros H1 H2. induction 1 as [|s c s' Hr [IH1 IH2] He E]; [done|]. exact (wp_Ok _ _ _ _ _ (vm_run_ok s c IH1 IH2 He) E).
Qed.

(** ** A decision procedure for the invariant *)
Section checks.
Context (s : kst).

Definition chk_refs : bool :=
  bool_decide (map_Forall (fun p k => k.1.2 = RSRC_AREA -> is_Some (k_area s !! p)) (kinds s)) &&
  bool_decide (map_Forall (fun ar y => ty_of (kinds s !! ar) = Some RSRC_AREA /\
    on_some (k_pgrp s !! ar_pgroup y) (fun g => ar ∈ pg_areas g /\ 0 < ar_length y <= pg_size g)) (k_area s)) &&
  bool_decide (map_Forall (fun q g => 0 < q < k_brk s /\ pg_refcount g = Z.of_nat (length (pg_areas g)) /\ NoDup (pg_areas g) /\
    (Forall (fun c => length c = 6%nat) (pg_pages g) /\ 6 * (Z.of_nat (length (pg_pages g)) - 1) < pg_size g <= 6 * Z.of_nat (length (pg_pages g))) /\
    Forall (fun ar => on_some (k_area s !! ar) (fun y => ar_pgroup y = q)) (pg_areas g)) (k_pgrp s)).

Lemma chk_refs_ok : chk_refs = true -> refs_ok (kinds s) (k_area s) (k_pgrp s) (k_brk s).
Proof.
  unfold chk_refs. rewrite !andb_true_iff, !bool_decide_eq_true. intros [[H1 H2] H3]. split.
  - intros ar. rewrite <- ty_of_Some. split.
    + intros [y Hy]. by apply (H2 ar y Hy).
    + intros (id & o & Hk)%ty_of_Some. by apply (H1 ar _ Hk).
  - intros ar y Hy. destruct (H2 ar y Hy) as [_ H]. apply on_some_spec in H as (g & Hg & H). by exists g.
  - intros q g Hg. destruct (H3 q g Hg) as (A1 & A2 & A3 & A4 & A5). split_and!; [lia..|done|done|]. intros ar Har.
    rewrite Forall_forall in A5. by apply on_some_spec, A5.
Qed.

Definition covers (v : Z) (y : area) : Prop := ar_virt_addr y <= v < ar_virt_addr y + ar_length y.
Definition apart (y1 y2 : area) : Prop :=
  ar_virt_addr y1 + ar_length y1 <= ar_virt_addr y2 \/ ar_virt_addr y2 + ar_length y2 <= ar_virt_addr y1.
#[local] Instance covers_dec v y : Decision (covers v y) := _.
#[local] Instance apart_dec y1 y2 : Decision (apart y1 y2) := _.

Definition chk_space (x : aspace) : bool :=
  bool_decide (length (as_ptab x) = 1024%nat) && bool_decide (NoDup (as_areas x)) &&
  bool_decide (Forall (fun ar => on_some (k_area s !! ar) (fun y => on_some (k_pgrp s !! ar_pgroup y) (fun g =>
    1 <= ar_virt_addr y /\ ar_virt_addr y + ar_length y <= 1024 /\
    Forall (fun i => on_some (pages_in g !! i) (fun p => aget (as_ptab x) (ar_virt_addr y + Z.of_nat i) = Some (pte p 7)))
      (seq 0 (Z.to_nat (ar_length y)))))) (as_areas x)) &&
  bool_decide (Forall (fun '(v, e) => e = 0 \/ Exists (fun ar => on_some (k_area s !! ar) (covers (Z.of_nat v))) (as_areas x)) (imap pair (as_ptab x))) &&
  bool_decide (Forall (fun ar1 => Forall (fun ar2 => ar1 = ar2 \/ on_some (k_area s !! ar1) (fun y1 => on_some (k_area s !! ar2) (apart y1)))
    (as_areas x)) (as_areas x)).

Lemma chk_space_ok x : chk_space x = true -> space_ok (k_area s) (k_pgrp s) x.
Proof.
  unfold chk_space. rewrite !andb_true_iff, !bool_decide_eq_true. intros [[[[H1 H2] H3] H4] H5]. split; [done|done| | |].
  - intros ar Har. rewrite Forall_forall in H3. specialize (H3 ar Har). apply on_some_spec in H3 as (y & Hy & H3).
    apply on_some_spec in H3 as (g & Hg & A1 & A2 & A3). exists y, g. split_and!; [done..|]. intros i Hi. rewrite Forall_forall in A3.
    specialize (A3 (Z.to_nat i)). rewrite Z2Nat.id in A3 by lia. apply on_some_spec, A3, elem_of_seq. lia.
  - intros v e [Hv He]%aget_Some Hne. rewrite Forall_lookup in H4. specialize (H4 (Z.to_nat v) (Z.to_nat v, e)).
    rewrite list_lookup_imap, He in H4. destruct (H4 eq_refl) as [?|Hex]; [done|]. apply Exists_exists in Hex as (ar & Har & Hc).
    apply on_some_spec in Hc as (y & Hy & Hc). exists ar, y. unfold covers in Hc. rewrite Z2Nat.id in Hc by lia. done.
  - intros ar1 ar2 y1 y2 v Ha1 Ha2 Hy1 Hy2 Hv1 Hv2. rewrite Forall_forall in H5. specialize (H5 ar1 Ha1). rewrite Forall_forall in H5.
    destruct (H5 ar2 Ha2) as [?|Hap]; [done|]. rewrite Hy1, Hy2 in Hap. simpl in Hap. unfold apart in Hap. lia.
Qed.

Definition chk_spaces : bool :=
  bool_decide (map_Forall (fun a1 x1 => chk_space x1 = true /\
    map_Forall (fun a2 x2 => a1 = a2 \/ Forall (fun ar => ar ∉ as_areas x2) (as_areas x1)) (k_asp s)) (k_asp s)).

Lemma chk_spaces_ok : chk_spaces = true -> spaces_ok (k_asp s) (k_area s) (k_pgrp s).
Proof.
  unfold chk_spaces. rewrite bool_decide_eq_true. intros H. split.
  - intros a x Hx. apply chk_space_ok. by apply (H a x Hx).
  - intros a1 a2 x1 x2 ar H1 H2 Ha1 Ha2. destruct (H a1 x1 H1) as [_ Hu]. destruct (Hu a2 x2 H2) as [?|Hn]; [done|].
    rewrite Forall_forall in Hn. by destruct (Hn ar Ha1).
Qed.

#[local] Instance owned_dec g : Decision (owned g) := _.

Definition chk_pages (free : list Z) : bool :=
  bool_decide (map_Forall (fun q1 g1 => owned g1 -> NoDup (pages_in g1) /\
    Forall (fun p => (p ∉ free) /\ 0 < p < Z.of_nat (length (KMem.m_pagelist (k_mem s)))) (pages_in g1) /\
    map_Forall (fun q2 g2 => q1 = q2 \/ (owned g2 -> Forall (fun p => p ∉ pages_in g2) (pages_in g1))) (k_pgrp s)) (k_pgrp s)).

Lemma chk_pages_ok free : chk_pages free = true -> pages_ok (k_pgrp s) (Z.of_nat (length (KMem.m_pagelist (k_mem s)))) free.
Proof.
  unfold chk_pages. rewrite bool_decide_eq_true. intros H. split.
  - intros q g p Hg Ho Hp. destruct (H q g Hg Ho) as (_ & Hf & _). rewrite Forall_forall in Hf. by apply Hf.
  - intros q1 q2 g1 g2 i j p H1 H2 Ho1 Ho2 Hi Hj. destruct (H q1 g1 H1 Ho1) as (Hnd & _ & Hu).
    destruct (Hu q2 g2 H2) as [->|Hn]; [simplify_eq; split; [done|]; by eapply NoDup_lookup|].
    specialize (Hn Ho2). rewrite Forall_forall in Hn. destruct (Hn p); by eapply list_elem_of_lookup_2.
Qed.

Definition free_pages : option (list Z) :=
  pwalk (KMem.m_pagelist (k_mem s)) (KMem.m_freepage (k_mem s)) (length (KMem.m_pagelist (k_mem s))).

Definition chk_vm : bool := chk_refs && chk_spaces && match free_pages with Some free => chk_pages free | None => false end.

Lemma chain_unique pl n l l' : KMem.chain pl n l -> KMem.chain pl n l' -> l = l'.
Proof.
  revert n l'. induction l as [|p l IH]; intros n [|p' l']; simpl; [done|..].
  - intros -> (-> & ? & _). done.
  - intros (-> & ? & _) ?. done.
  - intros (-> & H0 & nx & Hnx & Hc) (-> & _ & nx' & Hnx' & Hc'). simplify_eq. f_equal. by eapply IH.
Qed.

Lemma chk_vm_ok : at_rest s -> chk_vm = true -> vm_ok s.
Proof.
  intros [I _]. unfold chk_vm. rewrite !andb_true_iff. intros [[H1 H2] H3]. split; [by apply chk_refs_ok|]. split; [by apply chk_spaces_ok|].
  destruct free_pages as [free|] eqn:E; [|done]. apply pwalk_chain in E. destruct (kv_mem _ _ _ I) as ((free' & Hf) & _). exists free'. split; [done|].
  replace free' with free by (eapply chain_unique; [done|apply Hf]). by apply chk_pages_ok.
Qed.
End checks.

Lemma ex_state_vm : vm_ok KCheck.ex_state.
Proof. apply chk_vm_ok; [apply KCheck.ex_state_at_rest|]. by vm_compute. Qed.

Definition fitsb (s : kst) (a start len : Z) : bool :=
  match k_asp s !! a with
  | Some x => match span_loop (as_ptab x) len (span_start start) 0 0 1024 with
              | Ok at_ => bool_decide (at_ = 0 \/ at_ + len <= 1024) | _ => false end
  | None => false
  end.

Lemma fitsb_ok s a start len : fitsb s a start len = true -> is_Some (k_asp s !! a) /\ fits s a start len.
Proof.
  unfold fitsb, fits, locate_span, get_asp, gets, bind, lift, id, deref. destruct (k_asp s !! a) as [x|] eqn:E; [|done].
  intros H. split; [done|]. intros at_ Hl. destruct (span_loop _ _ _ _ _ _); try done. simplify_eq. by rewrite bool_decide_eq_true in H.
Qed.

(** ** The claims *)

(** What a page table and the free list say when memory is isolated: everything
  that is mapped belongs to exactly one area of the address space, and is the page
  of the area's group at that place; no page of a group is free, and no two groups,
  nor two places of one group, share a page. *)
Definition isolated (s : kst) : Prop :=
  (forall a x v e, k_asp s !! a = Some x -> aget (as_ptab x) v = Some e -> e <> 0 ->
    exists ar y g p, (ar ∈ as_areas x) /\ k_area s !! ar = Some y /\ k_pgrp s !! ar_pgroup y = Some g /\
      ar_virt_addr y <= v < ar_virt_addr y + ar_length y /\ pages_in g !! (Z.to_nat (v - ar_virt_addr y)) = Some p /\ e = pte p 7 /\
      forall ar' y', ar' ∈ as_areas x -> k_area s !! ar' = Some y' -> ar_virt_addr y' <= v < ar_virt_addr y' + ar_length y' -> ar' = ar) /\
  (exists free, KMem.pages_wf (k_mem s) free /\
    forall q g p, k_pgrp s !! q = Some g -> owned g -> p ∈ pages_in g -> p ∉ free) /\
  (forall q1 q2 g1 g2 i j p, k_pgrp s !! q1 = Some g1 -> k_pgrp s !! q2 = Some g2 -> owned g1 -> owned g2 ->
    pages_in g1 !! i = Some p -> pages_in g2 !! j = Some p -> q1 = q2 /\ i = j).

Lemma vm_isolated s : vm_ok s -> isolated s.
Proof.
  intros (HR & [HS _] & free & Hf & [P1 P2]). split; [|split; [exists free; split; [done|]; intros; by eapply P1|done]].
  intros a x v e Hx Hv He. destruct (HS a x Hx) as [_ _ H3 H4 H5]. destruct (H4 v e Hv He) as (ar & y & Har & Hy & Hr).
  destruct (H3 ar Har) as (y' & g & Hy' & Hg & _ & _ & Hm). simplify_eq.
  destruct (Hm (v - ar_virt_addr y)) as (p & Hp & Hpte); [lia|]. replace (ar_virt_addr y + (v - ar_virt_addr y)) with v in Hpte by lia.
  exists ar, y, g, p. split_and!; [done..|lia|lia|done|congruence|]. intros ar' y' Ha' Hy' Hr'. by eapply (H5 ar' ar y' y v).
Qed.

(** What locate_span may answer when [len] pages are wanted from [st] on. *)
Definition first_fit (map : list Z) (st len at_ : Z) : Prop :=
  (st <= at_ /\ at_ + len <= 1024 /\ free_run map at_ (at_ + len) /\ no_run map len st at_) \/
  (st <= at_ < 1024 /\ 1024 < at_ + len /\ free_run map at_ 1024 /\ no_run map len st 1024) \/
  (at_ = 0 /\ no_run map len st 1024 /\ aget map 1023 <> Some 0).

(** No span of the size is free from the wanted address on, but the last page is. *)
Definition cut_off (map : list Z) (size virt : Z) : Prop :=
  no_run map (pages_of size) (span_start (virt / 0x1000)) 1024 /\ aget map 1023 = Some 0.

(** locate_span returns the first place, from the wanted address on, where
  [len] pages are free; when there is none it returns 0 if the last page of the
  table is in use, and otherwise the start of the free pages at the end of the
  table, although they are fewer than [len]. *)
Theorem locate_span_first_fit s a x start len
  (Hx : k_asp s !! a = Some x) (Hl : length (as_ptab x) = 1024%nat) (Hlen : 0 < len) :
  exists at_, locate_span a start len s = Ok (at_, s) /\ first_fit (as_ptab x) (span_start start) len at_.
Proof.
  destruct (locate_span_eq s a x start len Hx Hl Hlen) as (at_ & E & H'). exists at_. split; [done|]. cbv zeta in *.
  pose proof (span_start_range start). destruct H' as [?|[?|(H1 & H2 & H3)]]; [by left|by right; left|right; right].
  split_and!; [done|done|apply H3; lia].
Qed.


(** C38. When no span of free pages is long enough but the last page of the table is
  free, area_create does not report an error: it maps pages beyond the end of the
  page table. *)
Theorem area_create_overruns s a x size virt addr flags free
  (Hx : k_asp s !! a = Some x) (Hl : length (as_ptab x) = 1024%nat)
  (Hcut : cut_off (as_ptab x) size virt)
  (Hf : KMem.pages_wf (k_mem s) free) (Hpages : Z.land flags AREA_PHYSMAP = 0 -> (Z.to_nat (pages_of size) <= length free)%nat) :
  area_create a size virt addr flags s = Fault.
Proof.
  destruct Hcut as [Hno Hlast]. pose proof (pages_of_pos size). pose proof (span_start_range (virt / 0x1000)).
  destruct (locate_span_eq s a x (virt / 0x1000) (pages_of size) Hx Hl) as (at_ & E & H'); [lia|]. cbv zeta in H'.
  assert (1 <= at_ < 1024 /\ 1024 < at_ + pages_of size) as [Hat Hover].
  { destruct H' as [(H1 & H2 & H3 & _)|[(H1 & H2 & _)|(_ & _ & H3)]]; [|lia|by destruct H3; [lia|]].
    by destruct (Hno at_ ltac:(lia) ltac:(lia)). }
  unfold area_create. cbv zeta. eapply bind_Ok; [exact E|]. cbn beta. rewrite decide_False by lia.
  eapply bind_Ok; [done|]. eapply bind_Ok; [done|]. eapply bind_Ok; [done|]. eapply bind_Ok; [done|].
  eapply bind_Ok; [unfold get_asp, gets, bind, lift, id, deref; simpl; by rewrite Hx|]. eapply bind_Ok; [done|]. apply bind_Fault.
  eapply area_fill_overrun; [simpl; apply lookup_insert_eq|simpl; lia|simpl; lia|exact Hf|done].
Qed.

(** The kernel's own address space of the example system. *)
Definition ex_space : Z := 448.

Lemma locate_span_first_fit_witness :
  match k_asp KCheck.ex_state !! ex_space with
  | Some x => exists at_, locate_span ex_space 1000 3 KCheck.ex_state = Ok (at_, KCheck.ex_state) /\
      first_fit (as_ptab x) (span_start 1000) 3 at_
  | None => False
  end.
Proof.
  pose proof ex_state_vm as (_ & [HS _] & _). destruct (k_asp KCheck.ex_state !! ex_space) as [x|] eqn:E.
  - apply (locate_span_first_fit KCheck.ex_state ex_space x 1000 3 E (sp_len _ _ _ (HS _ x E))). lia.
  - exfalso. assert (is_Some (k_asp KCheck.ex_state !! ex_space)) as [? H] by by apply (bool_decide_unpack _); vm_compute. congruence.
Defined.

(** Two pages at address 0x20000 of the kernel's address space. *)
Definition ex_call : vm_call := VCreate ex_space 8192 0x20000 0 0.


(** Two pages wanted at the last page of an empty address space. *)
Definition ex_empty : kst := set_k_asp KCheck.ex_state {[7 := Aspace [] 0 0 0 (replicate 1024 0)]}.

Lemma mem_set_asp s AS : k_mem (set_k_asp s AS) = k_mem s.
Proof. done. Qed.

Lemma area_create_overruns_witness : area_create 7 8192 0x3FF000 0x100000 AREA_PHYSMAP ex_empty = Fault.
Proof.
  pose proof ex_state_vm as (_ & _ & free & Hf & _).
  apply (area_create_overruns ex_empty 7 (Aspace [] 0 0 0 (replicate 1024 0)) 8192 0x3FF000 0x100000 AREA_PHYSMAP free).
  - apply lookup_singleton_eq.
  - done.
  - split; [|done]. intros i Hi Hle. change (pages_of 8192) with 2 in Hle. change (span_start (0x3FF000 / 0x1000)) with 1023 in Hi. lia.
  - unfold ex_empty. rewrite mem_set_asp. exact Hf.
  - intros E. discriminate E.
Defined.

End VM.
