(* ===== verification/LibC.v ===== *)
(** lib/libc: string.c, strlcpy.c, strlcat.c, stdlib.c, ctype.c and sbrk of memory.c.

  A pointer is an offset into a block of bytes; reading or writing outside the
  block is a [Fault].  Loops that scan for a terminator run on fuel that is one
  more than the block is long: they leave the block before it is used up. *)
From S2P Require Import Prelude.
Local Open Scope Z_scope.
Local Open Scope c_scope.

Module LibC.

Definition rd (m : list Z) (p : Z) : cres Z := deref (aget m p).
Definition wr (m : list Z) (p v : Z) : cres (list Z) := deref (aset m p (u8 v)).

(** A plain char is signed. *)
Definition schar (b : Z) : Z := if decide (b < 128) then b else b - 256.

(** strlen (strlen.S, a string instruction): the distance to the terminator. *)
Fixpoint strlen_loop (m : list Z) (p n : Z) (fuel : nat) : cres Z :=
  match fuel with
  | O => Fault
  | S fuel =>
      let! c := rd m p in
      if decide (c = 0) then Ok n else strlen_loop m (p + 1) (n + 1) fuel
  end.
Definition strlen (m : list Z) (p : Z) : cres Z := strlen_loop m p 0 (S (length m)).

(** strcmp (strcmp.S): the bytes that end the comparison, subtracted. *)
Fixpoint strcmp_loop (m1 : list Z) (s1 : Z) (m2 : list Z) (s2 : Z) (fuel : nat) : cres Z :=
  match fuel with
  | O => Fault
  | S fuel =>
      let! a := rd m1 s1 in
      let! b := rd m2 s2 in
      if decide (a = 0 \/ a <> b) then Ok (a - b) else strcmp_loop m1 (s1 + 1) m2 (s2 + 1) fuel
  end.
Definition strcmp (m1 : list Z) (s1 : Z) (m2 : list Z) (s2 : Z) : cres Z := strcmp_loop m1 s1 m2 s2 (S (length m1)).

(** ** string.c *)

(** [while(size && *src) size--, *dst++ = *src++; if(size) *dst = 0;] *)
Fixpoint strncpy (dm : list Z) (dst : Z) (sm : list Z) (src : Z) (size : nat) : cres (list Z) :=
  match size with
  | O => Ok dm
  | S size' =>
      let! c := rd sm src in
      if decide (c = 0) then wr dm dst 0 else
      let! dm := wr dm dst c in
      strncpy dm (dst + 1) sm (src + 1) size'
  end.

Fixpoint strncmp (m1 : list Z) (s1 : Z) (m2 : list Z) (s2 : Z) (n : nat) : cres Z :=
  match n with
  | O => Ok 0
  | S n =>
      let! a := rd m1 s1 in
      if decide (a = 0) then Ok (-1) else
      let! b := rd m2 s2 in
      if decide (b = 0) then Ok (-1) else
      if decide (a <> b) then Ok (-1) else strncmp m1 (s1 + 1) m2 (s2 + 1) n
  end.

(** The result is the offset of the character, or [None] for NULL. *)
Fixpoint strchr_loop (m : list Z) (s c : Z) (fuel : nat) : cres (option Z) :=
  match fuel with
  | O => Fault
  | S fuel =>
      let! x := rd m s in
      if decide (x = 0) then Ok None else
      if decide (schar x = c) then Ok (Some s) else strchr_loop m (s + 1) c fuel
  end.
Definition strchr (m : list Z) (s c : Z) : cres (option Z) := strchr_loop m s c (S (length m)).

Fixpoint memset (m : list Z) (s c : Z) (n : nat) : cres (list Z) :=
  match n with
  | O => Ok m
  | S n => let! m := wr m s c in memset m (s + 1) c n
  end.

(** The two loops of memmove, [dest] and [src] in the same block. *)
Fixpoint move_up (m : list Z) (d s : Z) (n : nat) : cres (list Z) :=
  match n with
  | O => Ok m
  | S n => let! x := rd m s in let! m := wr m d x in move_up m (d + 1) (s + 1) n
  end.
Fixpoint move_down (m : list Z) (d s : Z) (n : nat) : cres (list Z) :=
  match n with
  | O => Ok m
  | S n => let! x := rd m (s - 1) in let! m := wr m (d - 1) x in move_down m (d - 1) (s - 1) n
  end.
Definition memmove (m : list Z) (dest src : Z) (n : nat) : cres (list Z) :=
  if decide (dest < src) then move_up m dest src n
  else move_down m (dest + Z.of_nat n) (src + Z.of_nat n) n.

Fixpoint memcmp (m1 : list Z) (p1 : Z) (m2 : list Z) (p2 : Z) (n : nat) : cres Z :=
  match n with
  | O => Ok 0
  | S n =>
      let! a := rd m1 p1 in let! b := rd m2 p2 in
      if decide (a <> b) then Ok 1 else memcmp m1 (p1 + 1) m2 (p2 + 1) n
  end.

(** memcpy copies upwards whatever the order of the blocks. *)
Definition memcpy (m : list Z) (dst src : Z) (n : nat) : cres (list Z) := move_up m dst src n.

(** ** strlcpy.c *)

(** The final scan over the rest of [src]: the position after the terminator. *)
Fixpoint skip_string (m : list Z) (s : Z) (fuel : nat) : cres Z :=
  match fuel with
  | O => Fault
  | S fuel => let! c := rd m s in if decide (c = 0) then Ok (s + 1) else skip_string m (s + 1) fuel
  end.

(** The do-while loop with [n] at least 1: memory, [d], [s] and [n] at its end. *)
Fixpoint strlcpy_loop (dm : list Z) (d : Z) (sm : list Z) (s : Z) (n : nat)
  : cres (list Z * Z * Z * nat) :=
  match n with
  | O => Ok (dm, d, s, O)
  | S n' =>
      let! c := rd sm s in
      let! dm := wr dm d c in
      if decide (c = 0) then Ok (dm, d + 1, s + 1, n)
      else match n' with
           | O => Ok (dm, d + 1, s + 1, O)
           | S _ => strlcpy_loop dm (d + 1) sm (s + 1) n'
           end
  end.

Definition strlcpy (dm : list Z) (dst : Z) (sm : list Z) (src siz : Z) : cres (list Z * Z) :=
  let! (dm, d, s, n) := strlcpy_loop dm dst sm src (Z.to_nat (siz - 1)) in
  match n with
  | S _ => Ok (dm, s - src - 1)
  | O =>
      let! dm := (if decide (siz <> 0) then wr dm d 0 else Ok dm) in
      let! s := skip_string sm s (S (length sm)) in
      Ok (dm, s - src - 1)
  end.

(** ** strlcat.c *)

(** [while ( *d != 0 && n != 0) d++;]: the loop does not change n. *)
Fixpoint strlcat_end (dm : list Z) (d n : Z) (fuel : nat) : cres Z :=
  match fuel with
  | O => Fault
  | S fuel =>
      let! c := rd dm d in
      if decide (c <> 0 /\ n <> 0) then strlcat_end dm (d + 1) n fuel else Ok d
  end.

(** The copying loop; [n] is a size_t. *)
Fixpoint strlcat_copy (dm : list Z) (d : Z) (sm : list Z) (s n : Z) (fuel : nat)
  : cres (list Z * Z * Z) :=
  match fuel with
  | O => Fault
  | S fuel =>
      let! c := rd sm s in
      if decide (c = 0) then Ok (dm, d, s) else
      if decide (n <> 1) then
        let! dm := wr dm d c in strlcat_copy dm (d + 1) sm (s + 1) (u32 (n - 1)) fuel
      else strlcat_copy dm d sm (s + 1) n fuel
  end.

Definition strlcat (dm : list Z) (dst : Z) (sm : list Z) (src siz : Z) : cres (list Z * Z) :=
  let! d := strlcat_end dm dst siz (S (length dm)) in
  let dlen := d - dst in
  let n := u32 (siz - dlen) in
  if decide (n = 0) then
    let! l := strlen sm src in Ok (dm, dlen + l)
  else
    let! (dm, d, s) := strlcat_copy dm d sm src n (S (length sm)) in
    let! dm := wr dm d 0 in
    Ok (dm, dlen + (s - src)).

(** ** stdlib.c and ctype.c *)

(** The loop of _atoi from the character at [x] down; the int arithmetic wraps. *)
Fixpoint atoi_loop (m : list Z) (a : Z) (x : nat) (i power : Z) : cres Z :=
  let! c := rd m (a + Z.of_nat x) in
  let i := if decide (x = O /\ c = 45) then s32 (i * -1) else s32 (i + s32 (power * (schar c - 48))) in
  match x with
  | O => Ok i
  | S x => atoi_loop m a x i (s32 (power * 10))
  end.

Definition atoi (m : list Z) (a : Z) : cres Z :=
  let! n := strlen m a in
  if decide (n = 0) then Ok 0 else atoi_loop m a (Z.to_nat (n - 1)) 0 1.

Definition isdigit (c : Z) : Z := if decide (48 <= c <= 57) then 1 else 0.

(** ** _sbrk of memory.c *)
Record brk_state := BrkSt { sbrk_max : Z; sbrk_cur : Z; brk_calls : list Z }.

Definition sbrk (s : brk_state) (size : Z) : Z * brk_state :=
  if decide (size < 0) then
    let cur := u32 (sbrk_cur s - size) in (cur, BrkSt (sbrk_max s) cur (brk_calls s))
  else
    let tmp := sbrk_cur s in
    let cur := u32 (sbrk_cur s + size) in
    if decide (sbrk_max s < cur) then (tmp, BrkSt cur cur (brk_calls s ++ [cur]))
    else (tmp, BrkSt (sbrk_max s) cur (brk_calls s)).

(** ** Blocks of memory *)

(** [n] bytes of [m] from [p], and [m] with [l] written at [p]. *)
Definition slice (m : list Z) (p : Z) (n : nat) : list Z := take n (drop (Z.to_nat p) m).
Definition splice (m : list Z) (p : Z) (l : list Z) : list Z :=
  take (Z.to_nat p) m ++ l ++ drop (Z.to_nat p + length l) m.

Definition fits (m : list Z) (p : Z) (n : nat) : Prop := 0 <= p /\ p + Z.of_nat n <= Z.of_nat (length m).
Definition bytes (m : list Z) : Prop := Forall (fun c => 0 <= c < 256) m.

Section blocks.
Implicit Types (m l : list Z) (p : Z).

Lemma length_splice m p l : fits m p (length l) -> length (splice m p l) = length m.
Proof.
  intros [? ?]. unfold splice. rewrite !length_app, length_take, length_drop. lia.
Qed.

Lemma length_slice m p n : fits m p n -> length (slice m p n) = n.
Proof. intros [? ?]. unfold slice. rewrite length_take, length_drop. lia. Qed.

Lemma splice_nil m p : splice m p [] = m.
Proof. unfold splice. simpl. rewrite Nat.add_0_r. apply take_drop. Qed.

Lemma aget_splice_in m p l i x :
  fits m p (length l) -> l !! i = Some x -> aget (splice m p l) (p + Z.of_nat i) = Some x.
Proof.
  intros [H1 H2] Hi. pose proof (lookup_lt_Some _ _ _ Hi). unfold aget. rewrite decide_True by lia.
  unfold splice. rewrite lookup_app_r by (rewrite length_take; lia). rewrite length_take.
  rewrite lookup_app_l by lia. rewrite <- Hi. f_equal. lia.
Qed.

Lemma aget_splice_out m p l q :
  fits m p (length l) -> q < p \/ p + Z.of_nat (length l) <= q -> aget (splice m p l) q = aget m q.
Proof.
  intros [H1 H2] Hq. unfold aget. case_decide; [|done]. unfold splice. destruct Hq.
  - rewrite lookup_app_l by (rewrite length_take; lia). apply lookup_take_lt. lia.
  - rewrite lookup_app_r by (rewrite length_take; lia). rewrite length_take.
    rewrite lookup_app_r by lia. rewrite lookup_drop. f_equal. lia.
Qed.

(** Two memories with the same accesses are equal. *)
Lemma mem_ext m m' : length m = length m' -> (forall q, 0 <= q -> aget m q = aget m' q) -> m = m'.
Proof.
  intros _ H. apply list_eq. intros i. specialize (H (Z.of_nat i) ltac:(lia)). unfold aget in H.
  rewrite !decide_True, !Nat2Z.id in H by lia. done.
Qed.

Lemma splice_snoc m p l x : fits m p (S (length l)) ->
  aset (splice m p l) (p + Z.of_nat (length l)) x = Some (splice m p (l ++ [x])).
Proof.
  intros [H1 H2]. rewrite aset_in_range by (rewrite length_splice by (split; lia); lia). f_equal.
  unfold splice. rewrite insert_app_r_alt by (rewrite length_take; lia). rewrite length_take.
  rewrite insert_app_r_alt by lia. rewrite length_app, <- app_assoc. simpl. f_equal. f_equal.
  replace (Z.to_nat (p + Z.of_nat (length l)) - Z.to_nat p `min` length m - length l)%nat with 0%nat by lia.
  destruct (drop (Z.to_nat p + length l) m) as [|y r] eqn:E.
  - apply (f_equal length) in E. rewrite length_drop in E. simpl in E. lia.
  - simpl. f_equal. replace (Z.to_nat p + (length l + 1))%nat with (1 + (Z.to_nat p + length l))%nat by lia.
    rewrite <- drop_drop. by rewrite drop_drop, Nat.add_comm, <- drop_drop, E.
Qed.

Lemma splice_cons m p l x : fits m p (S (length l)) ->
  aset (splice m (p + 1) l) p x = Some (splice m p (x :: l)).
Proof.
  intros [H1 H2]. rewrite aset_in_range by (rewrite length_splice by (split; lia); lia). f_equal.
  apply mem_ext.
  - rewrite length_insert, !length_splice; [done|split; simpl; lia|split; lia].
  - intros q Hq. destruct (decide (q = p)) as [->|Hne].
    + rewrite aget_insert_eq by (rewrite length_splice by (split; lia); lia).
      symmetry. replace p with (p + Z.of_nat 0) at 2 by lia. by apply aget_splice_in; [split; simpl; lia|].
    + rewrite aget_insert_ne by done.
      destruct (decide (p + 1 <= q < p + 1 + Z.of_nat (length l))) as [Hin|Hout].
      * destruct (lookup_lt_is_Some_2 l (Z.to_nat (q - p - 1))) as [y Hy]; [lia|].
        replace q with (p + 1 + Z.of_nat (Z.to_nat (q - p - 1))) at 1 by lia.
        rewrite (aget_splice_in m (p + 1) l _ y) by (done || split; lia). symmetry.
        replace q with (p + Z.of_nat (S (Z.to_nat (q - p - 1)))) by lia.
        apply aget_splice_in; [split; simpl; lia|done].
      * rewrite !aget_splice_out; [done|split; simpl; lia|simpl; lia|split; lia|lia].
Qed.

Lemma aget_slice m p n i : fits m p n -> (i < n)%nat -> aget m (p + Z.of_nat i) = slice m p n !! i.
Proof.
  intros [? ?] Hi. unfold aget, slice. rewrite decide_True by lia. rewrite lookup_take_lt by done.
  rewrite lookup_drop. f_equal. lia.
Qed.

Lemma slice_snoc m p n x : fits m p (S n) -> aget m (p + Z.of_nat n) = Some x ->
  slice m p (S n) = slice m p n ++ [x].
Proof.
  intros H Hx. unfold slice. apply take_S_r. rewrite (aget_slice m p (S n)) in Hx by (done || lia).
  unfold slice in Hx. by rewrite lookup_take_lt in Hx by lia.
Qed.

Lemma slice_cons m p n x : fits m p (S n) -> aget m p = Some x -> slice m p (S n) = x :: slice m (p + 1) n.
Proof.
  intros [? ?] Hx. unfold slice, aget in *. rewrite decide_True in Hx by lia.
  replace (Z.to_nat (p + 1)) with (1 + Z.to_nat p)%nat by lia.
  rewrite (drop_S _ _ _ Hx). done.
Qed.

Lemma bytes_aget m q x : bytes m -> aget m q = Some x -> u8 x = x.
Proof.
  intros Hb [_ Hx]%aget_Some. apply u8_small. unfold bytes in Hb. rewrite Forall_lookup in Hb. by eapply Hb.
Qed.

Lemma fits_aget m p n i : fits m p n -> (i < n)%nat -> exists x, aget m (p + Z.of_nat i) = Some x.
Proof. intros [? ?] Hi. apply aget_in_range. lia. Qed.
End blocks.

Lemma rd_Some m p x : aget m p = Some x -> rd m p = Ok x.
Proof. unfold rd. by intros ->. Qed.

(** ** memmove *)

Lemma move_up_ok m d s n : bytes m -> fits m d n -> fits m s n -> d < s ->
  forall k j, n = (k + j)%nat ->
  move_up (splice m d (slice m s k)) (d + Z.of_nat k) (s + Z.of_nat k) j = Ok (splice m d (slice m s n)).
Proof.
  intros Hb Hd Hs Hlt k j. revert k. induction j as [|j IH]; intros k E; simpl.
  - by replace n with k by lia.
  - destruct (fits_aget m s n k Hs) as [x Hx]; [lia|].
    assert (fits m s k /\ fits m d k) as [Hsk Hdk] by (unfold fits in *; lia).
    rewrite (rd_Some _ _ x).
    2:{ rewrite aget_splice_out; [done|by rewrite length_slice|rewrite length_slice by done; right; lia]. }
    simpl. unfold wr. rewrite (bytes_aget _ _ _ Hb Hx).
    pose proof (splice_snoc m d (slice m s k) x) as Ha. rewrite length_slice in Ha by done.
    rewrite Ha by (unfold fits in *; lia). simpl. rewrite <- slice_snoc by (done || unfold fits in *; lia).
    rewrite <- (IH (S k)) by lia. f_equal; lia.
Qed.

Lemma move_down_ok m d s n : bytes m -> fits m d n -> fits m s n -> s <= d ->
  forall k j, n = (j + k)%nat ->
  move_down (splice m (d + Z.of_nat j) (slice m (s + Z.of_nat j) k)) (d + Z.of_nat j) (s + Z.of_nat j) j
  = Ok (splice m d (slice m s n)).
Proof.
  intros Hb Hd Hs Hle k j. revert k. induction j as [|j IH]; intros k E; simpl.
  - rewrite !Z.add_0_r. by replace n with k by lia.
  - destruct (fits_aget m s n j Hs) as [x Hx]; [lia|].
    assert (fits m (s + Z.of_nat (S j)) k /\ fits m (d + Z.of_nat (S j)) k) as [Hsk Hdk] by (unfold fits in *; lia).
    replace (s + Z.of_nat (S j) - 1) with (s + Z.of_nat j) by lia.
    replace (d + Z.of_nat (S j) - 1) with (d + Z.of_nat j) by lia.
    rewrite (rd_Some _ _ x).
    2:{ rewrite aget_splice_out; [done|by rewrite length_slice|lia]. }
    simpl. unfold wr. rewrite (bytes_aget _ _ _ Hb Hx).
    pose proof (splice_cons m (d + Z.of_nat j) (slice m (s + Z.of_nat (S j)) k) x) as Ha.
    rewrite length_slice in Ha by done.
    replace (d + Z.of_nat j + 1) with (d + Z.of_nat (S j)) in Ha by lia.
    rewrite Ha by (unfold fits in *; lia). simpl.
    replace (s + Z.of_nat (S j)) with (s + Z.of_nat j + 1) by lia.
    rewrite <- (slice_cons m (s + Z.of_nat j) k x) by (done || unfold fits in *; lia).
    apply IH. lia.
Qed.

(** Equality of results, component by component. *)
Ltac ok_eq :=
  repeat match goal with |- Ok _ = Ok _ => f_equal | |- (_, _) = (_, _) => f_equal end; try done; try lia.

(** memmove copies correctly whatever the overlap: when both ranges lie in
  the memory, it succeeds, the destination holds what the source held before the
  call and every other byte is unchanged. *)
Theorem memmove_ok m dest src n
  (Hb : bytes m) (Hd : fits m dest n) (Hs : fits m src n) :
  memmove m dest src n = Ok (splice m dest (slice m src n)).
Proof.
  unfold memmove. case_decide.
  - pose proof (move_up_ok m dest src n Hb Hd Hs ltac:(done) 0 n eq_refl) as H0.
    simpl in H0. rewrite !Z.add_0_r in H0. rewrite <- H0. unfold slice. rewrite take_0. by rewrite splice_nil.
  - pose proof (move_down_ok m dest src n Hb Hd Hs ltac:(lia) 0 n ltac:(lia)) as H0.
    rewrite <- H0. unfold slice. rewrite take_0. by rewrite splice_nil.
Qed.

(** ** Strings *)

(** The terminated string [str] is at [p]. *)
Fixpoint str_at (m : list Z) (p : Z) (str : list Z) : Prop :=
  match str with
  | [] => aget m p = Some 0
  | c :: str => aget m p = Some c /\ 0 < c < 256 /\ str_at m (p + 1) str
  end.

Lemma str_at_range m p str : str_at m p str -> 0 <= p /\ p + Z.of_nat (length str) < Z.of_nat (length m).
Proof.
  revert p. induction str as [|c str IH]; simpl; intros p.
  - intros H%aget_Some. lia.
  - intros (H%aget_Some & _ & Hs). apply IH in Hs. lia.
Qed.

Lemma strlen_loop_ok m str : forall p n fuel, str_at m p str -> (length str < fuel)%nat ->
  strlen_loop m p n fuel = Ok (n + Z.of_nat (length str)).
Proof.
  induction str as [|c str IH]; simpl; intros p n fuel Hs Hf; (destruct fuel as [|fuel]; [lia|]); simpl.
  - rewrite (rd_Some _ _ _ Hs). simpl. f_equal. lia.
  - destruct Hs as (Hc & Hr & Hs). rewrite (rd_Some _ _ _ Hc). simpl. rewrite decide_False by lia.
    rewrite IH by (done || lia). f_equal. lia.
Qed.

Lemma strlen_ok m p str : str_at m p str -> strlen m p = Ok (Z.of_nat (length str)).
Proof.
  intros Hs. pose proof (str_at_range _ _ _ Hs). unfold strlen. rewrite (strlen_loop_ok m str) by (done || lia).
  f_equal.
Qed.

Lemma skip_string_ok m str : forall s fuel, str_at m s str -> (length str < fuel)%nat ->
  skip_string m s fuel = Ok (s + Z.of_nat (length str) + 1).
Proof.
  induction str as [|c str IH]; simpl; intros s fuel Hs Hf; (destruct fuel as [|fuel]; [lia|]); simpl.
  - rewrite (rd_Some _ _ _ Hs). simpl. f_equal. lia.
  - destruct Hs as (Hc & Hr & Hs). rewrite (rd_Some _ _ _ Hc). simpl. rewrite decide_False by lia.
    rewrite IH by (done || lia). f_equal. lia.
Qed.

Lemma wr_snoc m p l c : fits m p (S (length l)) -> 0 <= c < 256 ->
  wr (splice m p l) (p + Z.of_nat (length l)) c = Ok (splice m p (l ++ [c])).
Proof. intros H Hc. unfold wr. rewrite u8_small by done. by rewrite splice_snoc. Qed.

(** The loop of strlcpy after [l] was copied. *)
Lemma strlcpy_loop_ok dm dst sm n : forall str l s,
  str_at sm s str -> fits dm dst (length l + n) ->
  strlcpy_loop (splice dm dst l) (dst + Z.of_nat (length l)) sm s n =
    if decide (length str < n)%nat
    then Ok (splice dm dst (l ++ str ++ [0]), dst + Z.of_nat (length l + length str + 1),
             s + Z.of_nat (length str) + 1, (n - length str)%nat)
    else Ok (splice dm dst (l ++ take n str), dst + Z.of_nat (length l + n), s + Z.of_nat n, O).
Proof.
  induction n as [|n IH]; intros str l s Hs Hf.
  - rewrite decide_False by lia. simpl. rewrite take_0, app_nil_r. ok_eq.
  - destruct str as [|c str]; simpl in Hs.
    + rewrite decide_True by (simpl; lia). simpl. rewrite (rd_Some _ _ _ Hs). simpl.
      rewrite wr_snoc by (lia || unfold fits in *; lia). simpl. ok_eq.
    + destruct Hs as (Hc & Hr & Hs). cbn [strlcpy_loop]. rewrite (rd_Some _ _ _ Hc). cbn [cbind].
      rewrite wr_snoc by (lia || unfold fits in *; lia). cbn [cbind]. rewrite decide_False by lia.
      destruct n as [|n].
      * rewrite decide_False by (simpl; lia). simpl. rewrite take_0. ok_eq.
      * specialize (IH str (l ++ [c]) (s + 1) Hs). rewrite length_app in IH. simpl length in IH.
        replace (dst + Z.of_nat (length l) + 1) with (dst + Z.of_nat (length l + 1)) by lia.
        rewrite IH by (unfold fits in *; lia). clear IH.
        destruct (decide (length str < S n)%nat).
        -- rewrite decide_True by (simpl; lia). rewrite <- app_assoc. simpl. ok_eq.
        -- rewrite decide_False by (simpl; lia). rewrite <- app_assoc. simpl. ok_eq.
Qed.

Lemma str_at_drop m k : forall str p, str_at m p str -> (k <= length str)%nat -> str_at m (p + Z.of_nat k) (drop k str).
Proof.
  induction k as [|k IH]; intros t q Ht Hk; [by rewrite Z.add_0_r|]. destruct t as [|c t]; [simpl in Hk; lia|].
  simpl in Ht. destruct Ht as (_ & _ & Ht). simpl. replace (q + Z.of_nat (S k)) with (q + 1 + Z.of_nat k) by lia.
  apply IH; [done|simpl in Hk; lia].
Qed.

Lemma strlcpy_run dm dst sm src str siz
  (Hs : str_at sm src str) (Hd : fits dm dst (Z.to_nat siz)) (Hz : 0 < siz) :
  strlcpy dm dst sm src siz =
    Ok (splice dm dst (take (Z.to_nat (siz - 1)) str ++ [0]), Z.of_nat (length str)).
Proof.
  unfold strlcpy. pose proof (strlcpy_loop_ok dm dst sm (Z.to_nat (siz - 1)) str [] src Hs) as H0.
  rewrite splice_nil, Z.add_0_r in H0. rewrite H0 by (unfold fits in *; simpl; lia). clear H0.
  pose proof (str_at_range _ _ _ Hs). case_decide; cbn [cbind app length Nat.add].
  - destruct (Z.to_nat (siz - 1) - length str)%nat as [|k] eqn:E; [lia|].
    rewrite take_ge by lia. ok_eq.
  - rewrite decide_True by lia.
    pose proof (wr_snoc dm dst (take (Z.to_nat (siz - 1)) str) 0) as Hw. rewrite length_take in Hw.
    rewrite Nat.min_l in Hw by lia. rewrite Hw by (lia || unfold fits in *; lia). cbn [cbind].
    pose proof (str_at_drop sm (Z.to_nat (siz - 1)) str src Hs ltac:(lia)) as Hrest.
    rewrite (skip_string_ok sm _ _ _ Hrest) by (rewrite length_drop; lia). simpl.
    rewrite length_drop. ok_eq.
Qed.

(** strlcpy(dst, src, siz) meets its documented contract: with siz > 0 bytes
  at dst, it writes at most siz - 1 characters of src and always a terminator,
  nothing else changes, and it returns strlen(src). *)
Theorem strlcpy_ok dm dst sm src str siz
  (Hs : str_at sm src str) (Hd : fits dm dst (Z.to_nat siz)) (Hz : 0 < siz) :
  strlcpy dm dst sm src siz =
    Ok (splice dm dst (take (Z.to_nat (siz - 1)) str ++ [0]), Z.of_nat (length str)).
Proof. by apply strlcpy_run. Qed.

(** ** strlcat *)

Lemma strlcat_end_ok m str : forall d n fuel, str_at m d str -> n <> 0 -> (length str < fuel)%nat ->
  strlcat_end m d n fuel = Ok (d + Z.of_nat (length str)).
Proof.
  induction str as [|c str IH]; simpl; intros d n fuel Hs Hn Hf; (destruct fuel as [|fuel]; [lia|]); simpl.
  - rewrite (rd_Some _ _ _ Hs). simpl. f_equal. lia.
  - destruct Hs as (Hc & Hr & Hs). rewrite (rd_Some _ _ _ Hc). simpl. rewrite decide_True by lia.
    rewrite IH by (done || lia). f_equal. lia.
Qed.

(** The copying loop after [l] was appended at [e], with [n] bytes left. *)
Lemma strlcat_copy_ok dm e sm str : forall l s n fuel,
  str_at sm s str -> (length str < fuel)%nat -> 1 <= n < 2 ^ 32 ->
  fits dm e (length l + length (take (Z.to_nat (n - 1)) str) + 1) ->
  strlcat_copy (splice dm e l) (e + Z.of_nat (length l)) sm s n fuel =
    Ok (splice dm e (l ++ take (Z.to_nat (n - 1)) str),
        e + Z.of_nat (length l + length (take (Z.to_nat (n - 1)) str)), s + Z.of_nat (length str)).
Proof.
  induction str as [|c str IH]; simpl; intros l s n fuel Hs Hf Hn Hfit; (destruct fuel as [|fuel]; [lia|]); simpl.
  - rewrite (rd_Some _ _ _ Hs). simpl. rewrite take_nil, app_nil_r. simpl. ok_eq.
  - destruct Hs as (Hc & Hr & Hs). rewrite (rd_Some _ _ _ Hc). simpl. rewrite decide_False by lia.
    destruct (decide (n = 1)) as [->|Hne].
    + rewrite decide_False by lia. change (Z.to_nat (1 - 1)) with 0%nat in *. rewrite take_0 in *.
      specialize (IH l (s + 1) 1 fuel Hs ltac:(lia) ltac:(lia)).
      change (Z.to_nat (1 - 1)) with 0%nat in IH. rewrite take_0 in IH. rewrite IH by done. simpl. ok_eq.
    + rewrite decide_True by done.
      replace (Z.to_nat (n - 1)) with (S (Z.to_nat (n - 2))) in * by lia. simpl in Hfit. simpl take.
      rewrite wr_snoc by (lia || unfold fits in *; lia). simpl. rewrite u32_small by lia.
      specialize (IH (l ++ [c]) (s + 1) (n - 1) fuel Hs ltac:(lia) ltac:(lia)).
      replace (n - 1 - 1) with (n - 2) in IH by lia. rewrite length_app in IH. simpl length in IH.
      replace (e + Z.of_nat (length l) + 1) with (e + Z.of_nat (length l + 1)) by lia.
      rewrite IH by (unfold fits in *; lia). rewrite <- app_assoc. simpl. ok_eq.
Qed.

(** strlcat once the end of the destination string is known. *)
Lemma strlcat_run dm dst sm src dstr str siz n
  (Hd : str_at dm dst dstr) (Hs : str_at sm src str) (Hz : siz <> 0)
  (Hn : n = u32 (siz - Z.of_nat (length dstr))) (Hn0 : n <> 0)
  (Hfit : fits dm (dst + Z.of_nat (length dstr)) (length (take (Z.to_nat (n - 1)) str) + 1)) :
  strlcat dm dst sm src siz =
    Ok (splice dm (dst + Z.of_nat (length dstr)) (take (Z.to_nat (n - 1)) str ++ [0]),
        Z.of_nat (length dstr) + Z.of_nat (length str)).
Proof.
  pose proof (str_at_range _ _ _ Hd). pose proof (str_at_range _ _ _ Hs).
  assert (1 <= n < 2 ^ 32) by (pose proof (u32_range (siz - Z.of_nat (length dstr))); lia).
  unfold strlcat. rewrite (strlcat_end_ok dm dstr) by (done || lia). cbn [cbind].
  replace (dst + Z.of_nat (length dstr) - dst) with (Z.of_nat (length dstr)) by lia.
  rewrite <- Hn. rewrite decide_False by done.
  pose proof (strlcat_copy_ok dm (dst + Z.of_nat (length dstr)) sm str [] src n (S (length sm)) Hs ltac:(lia)) as Hc.
  rewrite splice_nil, Z.add_0_r in Hc. rewrite Hc by (done || lia). cbn [cbind app length Nat.add].
  rewrite wr_snoc by (lia || (rewrite Nat.add_1_r in Hfit; done)). cbn [cbind]. ok_eq.
Qed.

(** strlcat(dst, src, siz) meets its documented contract when dst holds a
  string of fewer than siz characters: it appends as much of src as fits, always
  terminates within siz bytes, changes nothing else and returns the sum of the
  lengths. *)
Theorem strlcat_ok dm dst sm src dstr str siz
  (Hd : str_at dm dst dstr) (Hs : str_at sm src str)
  (Hz : Z.of_nat (length dstr) < siz < 2 ^ 32) (Hfit : fits dm dst (Z.to_nat siz)) :
  strlcat dm dst sm src siz =
    Ok (splice dm (dst + Z.of_nat (length dstr)) (take (Z.to_nat (siz - 1 - Z.of_nat (length dstr))) str ++ [0]),
        Z.of_nat (length dstr) + Z.of_nat (length str)).
Proof.
  rewrite (strlcat_run dm dst sm src dstr str siz (siz - Z.of_nat (length dstr))); try done; try lia.
  - ok_eq. do 3 f_equal. lia.
  - rewrite u32_small; lia.
  - rewrite length_take. unfold fits in *. lia.
Qed.

(** strlcat does not keep its promise to write within siz bytes: when dst
  already holds more than siz characters, the remaining size wraps around and the
  whole of src is written after them, beyond the siz bytes of the buffer (the
  loop that looks for the end of dst never counts siz down). *)
Theorem strlcat_overflow dm dst sm src dstr str siz
  (Hd : str_at dm dst dstr) (Hs : str_at sm src str)
  (Hz : 0 < siz < Z.of_nat (length dstr)) (Hlen : Z.of_nat (length dstr) + Z.of_nat (length str) < 2 ^ 32)
  (Hfit : fits dm (dst + Z.of_nat (length dstr)) (length str + 1)) :
  strlcat dm dst sm src siz =
    Ok (splice dm (dst + Z.of_nat (length dstr)) (str ++ [0]), Z.of_nat (length dstr) + Z.of_nat (length str)).
Proof.
  assert (u32 (siz - Z.of_nat (length dstr)) = siz - Z.of_nat (length dstr) + 2 ^ 32) as E.
  { unfold u32. symmetry. apply (Z.mod_unique_pos _ _ (-1)); lia. }
  rewrite (strlcat_run dm dst sm src dstr str siz (siz - Z.of_nat (length dstr) + 2 ^ 32)); try done; try lia.
  - rewrite take_ge by lia. done.
  - rewrite take_ge by lia. done.
Qed.

(** ** strncmp *)

Lemma strcmp_loop_ok m1 m2 a : forall s1 s2 b fuel, str_at m1 s1 a -> str_at m2 s2 b -> (length a < fuel)%nat ->
  exists c, strcmp_loop m1 s1 m2 s2 fuel = Ok c /\ (c = 0 <-> a = b).
Proof.
  induction a as [|x a IH]; intros s1 s2 b [|fuel] H1 H2 Hf; simpl in Hf; try lia; cbn [strcmp_loop].
  - destruct b as [|y b]; simpl in *.
    + rewrite (rd_Some _ _ _ H1), (rd_Some _ _ _ H2). cbn [cbind]. rewrite decide_True by auto. by exists 0.
    + destruct H2 as (Hy & Hr & _). rewrite (rd_Some _ _ _ H1), (rd_Some _ _ _ Hy). cbn [cbind]. rewrite decide_True by auto.
      exists (0 - y). split; [done|]. split; [lia|done].
  - destruct H1 as (Hx & Hxr & H1). rewrite (rd_Some _ _ _ Hx). cbn [cbind]. destruct b as [|y b]; simpl in H2.
    + rewrite (rd_Some _ _ _ H2). cbn [cbind]. rewrite decide_True by lia. exists (x - 0). split; [done|]. split; [lia|done].
    + destruct H2 as (Hy & Hyr & H2). rewrite (rd_Some _ _ _ Hy). cbn [cbind]. destruct (decide (x = y)) as [<-|Hne].
      * rewrite decide_False by lia. destruct (IH (s1 + 1) (s2 + 1) b fuel H1 H2) as (c & -> & Hc); [lia|]. exists c. split; [done|].
        rewrite Hc. split; [congruence|by intros [= ?]].
      * rewrite decide_True by auto. exists (x - y). split; [done|]. split; [lia|congruence].
Qed.

Lemma strcmp_ok m1 s1 m2 s2 a b : str_at m1 s1 a -> str_at m2 s2 b -> exists c, strcmp m1 s1 m2 s2 = Ok c /\ (c = 0 <-> a = b).
Proof. intros H1 H2. apply strcmp_loop_ok; [done|done|]. apply str_at_range in H1. lia. Qed.

Lemma strncmp_run m1 s1 m2 s2 a b n (H1 : str_at m1 s1 a) (H2 : str_at m2 s2 b) :
  strncmp m1 s1 m2 s2 n =
    Ok (if decide ((n <= length a)%nat /\ (n <= length b)%nat /\ take n a = take n b) then 0 else -1).
Proof.
  revert s1 s2 a b H1 H2. induction n as [|n IH]; intros s1 s2 a b H1 H2.
  - cbn [strncmp]. rewrite decide_True; [done|]. rewrite !take_0. split_and!; [lia|lia|done].
  - destruct a as [|x a]; simpl in H1.
    { cbn [strncmp]. rewrite (rd_Some _ _ _ H1). cbn [cbind]. rewrite decide_True, decide_False; [done| |done]. simpl. lia. }
    destruct H1 as (Hx & Hxr & H1). cbn [strncmp]. rewrite (rd_Some _ _ _ Hx). cbn [cbind]. rewrite decide_False by lia.
    destruct b as [|y b]; simpl in H2.
    { rewrite (rd_Some _ _ _ H2). cbn [cbind]. rewrite decide_True, decide_False; [done| |done]. simpl. lia. }
    destruct H2 as (Hy & Hyr & H2). rewrite (rd_Some _ _ _ Hy). cbn [cbind]. rewrite decide_False by lia.
    destruct (decide (x = y)) as [<-|Hne].
    + rewrite decide_False by (by intros []). rewrite (IH _ _ _ _ H1 H2). f_equal. simpl.
      apply decide_ext. split; [intros (?&?&?)|intros (?&?&[= ?])]; split_and!; try lia; congruence.
    + rewrite decide_True by done. rewrite decide_False; [done|]. simpl. intros (_ & _ & [= ? _]). done.
Qed.

(** strncmp returns 0 exactly when both strings have at least n characters
  and agree on them: in particular it reports two equal strings as different when
  n is larger than their length, unlike the function of the C standard. *)
Theorem strncmp_spec m1 s1 m2 s2 a b n (H1 : str_at m1 s1 a) (H2 : str_at m2 s2 b) :
  strncmp m1 s1 m2 s2 n =
    Ok (if decide ((n <= length a)%nat /\ (n <= length b)%nat /\ take n a = take n b) then 0 else -1).
Proof. by apply strncmp_run. Qed.

(** ** strncpy *)

(** What strncpy writes for the string [str]. *)
Definition strncpy_text (str : list Z) (n : nat) : list Z := if decide (length str < n)%nat then str ++ [0] else take n str.

Lemma strncpy_text_length str n : (length (strncpy_text str n) <= n)%nat.
Proof. unfold strncpy_text. case_decide; [rewrite length_app; simpl; lia|rewrite length_take; lia]. Qed.

Lemma strncpy_run dm dst sm n : forall str l s, str_at sm s str -> fits dm dst (length l + n) ->
  strncpy (splice dm dst l) (dst + Z.of_nat (length l)) sm s n = Ok (splice dm dst (l ++ strncpy_text str n)).
Proof.
  unfold strncpy_text. induction n as [|n IH]; intros str l s Hs Hf; cbn [strncpy].
  { rewrite decide_False by lia. by rewrite take_0, app_nil_r. }
  destruct str as [|c str]; simpl in Hs.
  - rewrite (rd_Some _ _ _ Hs). cbn [cbind]. rewrite decide_True by done. rewrite wr_snoc by (lia || unfold fits in *; lia). by rewrite decide_True by (simpl; lia).
  - destruct Hs as (Hc & Hr & Hs). rewrite (rd_Some _ _ _ Hc). cbn [cbind]. rewrite decide_False by lia.
    rewrite wr_snoc by (lia || unfold fits in *; lia). cbn [cbind]. specialize (IH str (l ++ [c]) (s + 1) Hs). rewrite length_app in IH.
    simpl length in *. replace (dst + Z.of_nat (length l) + 1) with (dst + Z.of_nat (length l + 1)) by lia.
    rewrite IH by (unfold fits in *; lia). rewrite <- app_assoc. f_equal. f_equal. f_equal. simpl. case_decide; case_decide; try lia; done.
Qed.

Lemma strncpy_ok dm dst sm src str n : str_at sm src str -> fits dm dst n ->
  strncpy dm dst sm src n = Ok (splice dm dst (strncpy_text str n)).
Proof. intros Hs Hf. pose proof (strncpy_run dm dst sm n str [] src Hs Hf) as H. simpl in H. by rewrite splice_nil, Z.add_0_r in H. Qed.

(** Of a source that need not be terminated. *)
Lemma strncpy_safe sm n : forall dm dst s, fits dm dst n -> fits sm s n -> exists r, strncpy dm dst sm s n = Ok r /\ length r = length dm.
Proof.
  induction n as [|n IH]; intros dm dst s Hd Hs; cbn [strncpy]; [by exists dm|].
  destruct (fits_aget sm s (S n) 0 Hs) as [x Hx]; [lia|]. rewrite Z.add_0_r in Hx. rewrite (rd_Some _ _ _ Hx). cbn [cbind]. unfold wr.
  unfold fits in *. case_decide; [|rewrite !aset_in_range by lia; cbn [deref cbind]].
  - rewrite aset_in_range by lia. eexists. split; [done|]. by rewrite length_insert.
  - destruct (IH (<[Z.to_nat dst := u8 x]> dm) (dst + 1) (s + 1)) as (r & -> & Hr); [rewrite length_insert; lia|lia|].
    exists r. by rewrite length_insert in Hr.
Qed.

Lemma str_at_splice dm dst str : fits dm dst (S (length str)) -> Forall (fun c => 0 < c < 256) str -> str_at (splice dm dst (str ++ [0])) dst str.
Proof.
  intros Hf Hb. assert (forall k, (k <= length str)%nat -> str_at (splice dm dst (str ++ [0])) (dst + Z.of_nat (length str - k)) (drop (length str - k) str)) as H.
  { induction k as [|k IH]; intros Hk.
    - rewrite Nat.sub_0_r, drop_ge by lia. simpl. apply aget_splice_in; [by rewrite length_app, Nat.add_1_r|]. rewrite lookup_app_r by lia.
      by rewrite Nat.sub_diag.
    - destruct (lookup_lt_is_Some_2 str (length str - S k)) as [c Hc]; [lia|]. rewrite (drop_S _ _ _ Hc).
      replace (S (length str - S k)) with (length str - k)%nat by lia. simpl. split_and!.
      + apply aget_splice_in; [by rewrite length_app, Nat.add_1_r|]. by apply lookup_app_l_Some.
      + apply (Forall_lookup_1 _ _ _ _ Hb Hc).
      + apply (Forall_lookup_1 _ _ _ _ Hb Hc).
      + replace (dst + Z.of_nat (length str - S k) + 1) with (dst + Z.of_nat (length str - k)) by lia. apply IH. lia. }
  specialize (H (length str) (le_n _)). by rewrite Nat.sub_diag, Z.add_0_r in H.
Qed.

Lemma str_at_chars m str : forall p, str_at m p str -> Forall (fun c => 0 < c < 256) str.
Proof. induction str as [|c str IH]; intros p; simpl; [constructor|]. intros (_ & Hc & H). constructor; [done|]. by eapply IH. Qed.

(** ** atoi *)

(** The value of a string of decimal digits, as an unbounded integer. *)
Definition dec (l : list Z) : Z := fold_left (fun acc c => 10 * acc + (c - 48)) l 0.
Definition digits (l : list Z) : Prop := Forall (fun c => 48 <= c <= 57) l.

Lemma dec_snoc l c : dec (l ++ [c]) = 10 * dec l + (c - 48).
Proof. unfold dec. by rewrite fold_left_app. Qed.

Lemma dec_app l r : dec (l ++ r) = dec l * 10 ^ Z.of_nat (length r) + dec r.
Proof.
  induction r as [|c r IH] using rev_ind; [rewrite app_nil_r; simpl; unfold dec at 3; simpl; lia|].
  rewrite app_assoc, !dec_snoc, IH, length_app. simpl length.
  rewrite Nat2Z.inj_add, Z.pow_add_r by lia. change (10 ^ Z.of_nat 1) with 10. lia.
Qed.

Lemma dec_cons c r : dec (c :: r) = (c - 48) * 10 ^ Z.of_nat (length r) + dec r.
Proof. change (c :: r) with ([c] ++ r). by rewrite dec_app. Qed.

Lemma str_at_lookup m p str i c : str_at m p str -> str !! i = Some c -> aget m (p + Z.of_nat i) = Some c /\ 0 < c < 256.
Proof.
  revert p i. induction str as [|x str IH]; intros p i Hs Hi; [done|]. destruct Hs as (Hx & Hr & Hs).
  destruct i as [|i]; simpl in *; simplify_eq.
  - by rewrite Z.add_0_r.
  - destruct (IH (p + 1) i Hs Hi) as [H1 H2]. split; [|done]. rewrite <- H1. f_equal. lia.
Qed.

(** A decimal numeral with an optional minus sign, and its value. *)
Definition numeral (l : list Z) : Prop := digits l \/ exists ds, l = 45 :: ds /\ digits ds.
Definition numval (l : list Z) : Z :=
  match l with
  | c :: ds => if decide (c = 45) then - dec ds else dec l
  | [] => 0
  end.

Lemma numeral_snoc l c : l <> [] -> numeral (l ++ [c]) -> numeral l /\ 48 <= c <= 57.
Proof.
  intros Hl [H|(ds & E & H)].
  - apply Forall_app in H as [H Hc]. rewrite Forall_singleton in Hc. by split; [left|].
  - destruct l as [|x l]; [done|]. injection E as -> <-. apply Forall_app in H as [H Hc].
    rewrite Forall_singleton in Hc. split; [right; by exists l|done].
Qed.

(** From the character at [x] down, with [r] already read. *)
Lemma atoi_loop_ok m a : forall x l r,
  str_at m a (l ++ r) -> length l = S x -> numeral l ->
  atoi_loop m a x (s32 (dec r)) (s32 (10 ^ Z.of_nat (length r))) = Ok (s32 (numval (l ++ r))).
Proof.
  assert (forall r c, 48 <= c <= 57 ->
    s32 (s32 (dec r) + s32 (s32 (10 ^ Z.of_nat (length r)) * (schar c - 48))) = s32 (dec (c :: r))) as Hdig.
  { intros r c Hc. unfold schar. rewrite decide_True by lia. rewrite s32_mul_l, s32_add_r, s32_add_l, dec_cons.
    f_equal. lia. }
  induction x as [|x IH]; intros l r Hs Hl Hn.
  - destruct l as [|c [|]]; simplify_eq/=.
    destruct Hs as (Hg & _). rewrite Z.add_0_r, (rd_Some _ _ _ Hg). cbn [cbind].
    destruct (decide (c = 45)) as [->|Hc].
    + rewrite decide_True by done. rewrite s32_mul_l. do 2 f_equal. lia.
    + rewrite decide_False by lia. f_equal. apply Hdig. destruct Hn as [Hn|(ds & [= -> _] & _)]; [|done].
      unfold digits in Hn. by rewrite Forall_singleton in Hn.
  - destruct l as [|c l _] using rev_ind; [done|]. rewrite length_app in Hl. simpl in Hl.
    apply numeral_snoc in Hn as [Hn Hc]; [|by intros ->; simpl in Hl; lia].
    rewrite <- app_assoc in Hs |- *. change ([c] ++ r) with (c :: r) in *.
    destruct (str_at_lookup m a (l ++ c :: r) (S x) c Hs) as [Hg _].
    { rewrite lookup_app_r by lia. by replace (S x - length l)%nat with 0%nat by lia. }
    cbn [atoi_loop]. rewrite (rd_Some _ _ _ Hg). cbn [cbind]. rewrite decide_False by lia. rewrite Hdig by done.
    replace (s32 (s32 (10 ^ Z.of_nat (length r)) * 10)) with (s32 (10 ^ Z.of_nat (length (c :: r)))).
    { apply IH; [done|lia|done]. }
    rewrite s32_mul_l. f_equal. simpl length. rewrite Nat2Z.inj_succ, Z.pow_succ_r by lia. lia.
Qed.

Lemma atoi_numeral m a str : str_at m a str -> numeral str -> atoi m a = Ok (s32 (numval str)).
Proof.
  intros Hs Hn.
  unfold atoi. rewrite (strlen_ok _ _ _ Hs). cbn [cbind]. destruct str as [|c str]; [done|].
  rewrite decide_False by (simpl; lia).
  pose proof (atoi_loop_ok m a (length str) (c :: str) []) as H. rewrite app_nil_r in H.
  replace (Z.to_nat (Z.of_nat (length (c :: str)) - 1)) with (length str) by (simpl; lia). by apply H.
Qed.

(** atoi of a decimal numeral with an optional minus sign is its value, as a
  32-bit int (exactly the value when it fits, its wrap-around otherwise). *)
Theorem atoi_ok m a str (Hs : str_at m a str) (Hn : numeral str) : atoi m a = Ok (s32 (numval str)).
Proof. by apply atoi_numeral. Qed.

(** ** sbrk *)

(** The break a sequence of requests leads to, and the largest one asked of the kernel. *)
Fixpoint sbrks (s : brk_state) (sizes : list Z) : brk_state :=
  match sizes with
  | [] => s
  | size :: sizes => sbrks (sbrk s size).2 sizes
  end.

Definition total (sizes : list Z) : Z := foldr Z.add 0 sizes.

(** The kernel was last asked for [sbrk_max], or never since it was [m0]. *)
Definition asked (m0 : Z) (s : brk_state) : Prop :=
  sbrk_max s = m0 \/ last (brk_calls s) = Some (sbrk_max s).

Lemma sbrks_ok m0 sizes : Forall (fun n => 0 <= n) sizes -> forall s,
  0 <= sbrk_cur s <= sbrk_max s -> sbrk_cur s + total sizes < 2 ^ 32 -> asked m0 s ->
  let s' := sbrks s sizes in
  sbrk_cur s' = sbrk_cur s + total sizes /\ sbrk_cur s' <= sbrk_max s' /\ asked m0 s'.
Proof.
  induction 1 as [|n sizes Hn Hns IH]; intros s H0 Hf Ha; simpl in *; [split_and!; [lia|lia|done]|].
  assert (0 <= total sizes) by (clear IH Hf; induction Hns; simpl; lia).
  unfold sbrk. rewrite decide_False by lia. rewrite !(u32_small (sbrk_cur s + n)) by lia.
  case_decide; simpl.
  - destruct (IH (BrkSt (sbrk_cur s + n) (sbrk_cur s + n) (brk_calls s ++ [sbrk_cur s + n]))) as (E1 & E2 & E3);
      simpl in *; [lia|lia|right; simpl; by rewrite last_snoc|]. split_and!; [lia|done|done].
  - destruct (IH (BrkSt (sbrk_max s) (sbrk_cur s + n) (brk_calls s))) as (E1 & E2 & E3);
      simpl in *; [lia|lia|done|]. split_and!; [lia|done|done].
Qed.

(** While the requests are not negative and the break stays below 4 GB, sbrk
  hands out consecutive regions and the kernel has always been asked for a break at
  least as high as the current one, so that every byte handed out is mapped; a
  negative request raises the break as well, without asking the kernel. *)
Theorem sbrk_backed s sizes (H0 : 0 <= sbrk_cur s <= sbrk_max s)
  (Hn : Forall (fun n => 0 <= n) sizes) (Hf : sbrk_cur s + total sizes < 2 ^ 32) :
  let s' := sbrks s sizes in
  sbrk_cur s' = sbrk_cur s + total sizes /\ sbrk_cur s' <= sbrk_max s' /\ asked (sbrk_max s) s' /\
  (forall n, 0 < n -> sbrk_cur s' + n < 2 ^ 32 ->
     sbrk s' (- n) = (sbrk_cur s' + n, BrkSt (sbrk_max s') (sbrk_cur s' + n) (brk_calls s'))).
Proof.
  intros s'. destruct (sbrks_ok (sbrk_max s) sizes Hn s H0 Hf) as (E1 & E2 & E3); [by left|].
  fold s' in E1, E2, E3. assert (0 <= total sizes) by (clear -Hn; induction Hn; simpl; lia).
  split_and!; try done. intros n Hp Hlt. unfold sbrk. rewrite decide_True by lia.
  rewrite !u32_small by lia. do 2 f_equal; lia.
Qed.

(** ** Witnesses *)

Lemma memmove_ok_witness : bytes [1; 2; 3; 4; 5] /\ memmove [1; 2; 3; 4; 5] 1 0 3 = Ok [1; 1; 2; 3; 5].
Proof.
  assert (bytes [1; 2; 3; 4; 5]) as H by (repeat constructor; lia).
  split; [done|]. rewrite (memmove_ok [1; 2; 3; 4; 5] 1 0 3); [reflexivity|..]; done || (split; simpl; lia).
Defined.

Lemma strlcpy_ok_witness : strlcpy [9; 9; 9; 9] 1 [97; 98; 99; 0] 0 3 = Ok ([9; 97; 98; 0], 3).
Proof.
  apply (strlcpy_ok [9; 9; 9; 9] 1 [97; 98; 99; 0] 0 [97; 98; 99] 3);
    [simpl; split_and!; (reflexivity || lia)|split; simpl; lia|lia].
Defined.

Lemma strlcat_ok_witness : strlcat [97; 0; 9; 9; 9] 0 [98; 99; 0] 0 3 = Ok ([97; 98; 0; 9; 9], 3).
Proof.
  apply (strlcat_ok [97; 0; 9; 9; 9] 0 [98; 99; 0] 0 [97] [98; 99] 3);
    [simpl; split_and!; (reflexivity || lia)|simpl; split_and!; (reflexivity || lia)|simpl; lia|split; simpl; lia].
Defined.

Lemma strlcat_overflow_witness : strlcat [97; 97; 97; 0; 9; 9] 0 [98; 99; 0] 0 2 = Ok ([97; 97; 97; 98; 99; 0], 5).
Proof.
  apply (strlcat_overflow [97; 97; 97; 0; 9; 9] 0 [98; 99; 0] 0 [97; 97; 97] [98; 99] 2);
    [simpl; split_and!; (reflexivity || lia)|simpl; split_and!; (reflexivity || lia)|simpl; lia|simpl; lia|split; simpl; lia].
Defined.

Lemma strncmp_spec_witness : strncmp [97; 98; 0] 0 [97; 98; 0] 0 3 = Ok (-1).
Proof.
  apply (strncmp_spec [97; 98; 0] 0 [97; 98; 0] 0 [97; 98] [97; 98] 3);
    simpl; split_and!; (reflexivity || lia).
Defined.

Lemma atoi_ok_witness : atoi [45; 52; 50; 0] 0 = Ok (-42).
Proof.
  apply (atoi_ok [45; 52; 50; 0] 0 [45; 52; 50]).
  - simpl; split_and!; (reflexivity || lia).
  - right. exists [52; 50]. split; [done|]. repeat constructor; lia.
Defined.

Lemma sbrk_backed_witness :
  sbrk_cur (sbrks (BrkSt 4096 4096 []) [10; 5000]) = 4096 + total [10; 5000].
Proof.
  apply (sbrk_backed (BrkSt 4096 4096 []) [10; 5000]); [simpl; lia|repeat constructor; lia|simpl; lia].
Defined.

End LibC.
