(* ===== verification/Vt100.v ===== *)
(** srv/console2/vt100.c: the VT100 engine of the console server.

  A virtual screen keeps its cells (ushort: character and attribute) in [data]; a
  pointer into it is a cell offset, and an access outside it is a [Fault].  The
  field [next_char_send] is the state of the escape-sequence automaton, an enum of
  the five handlers the C code stores there.  Arithmetic on int wraps around.

  [is_active] and [crtc] stand for the test [cur == active] and the position in the
  cursor registers that console.c:move_cursor writes. *)
From S2P Require Import Prelude LibC.
Import LibC.
Local Open Scope Z_scope.
Local Open Scope c_scope.

Module Vt100.

Inductive handler :=
| std_interpret_char_h | std_interpret_ansi_h | special_reading_ansi_h
| special_ansi_charset_0_h | special_ansi_charset_1_h.
#[global] Instance handler_eq_dec : EqDecision handler.
Proof. solve_decision. Defined.

Record virtscreen := VS {
  rows : Z;
  columns : Z;
  num_bytes : Z;
  data : list Z;
  xpos : Z;
  ypos : Z;
  top_scroll : Z;
  bottom_scroll : Z;
  attrib : Z;
  old_attrib : Z;
  old_xpos : Z;
  old_ypos : Z;
  cur_ansi_number : Z;
  ansi_elements : Z;
  ansi_reading_number : Z;
  ansi_element : list Z;
  next_char_send : handler;
  is_active : bool;
  crtc : Z
}.

Definition set_data (v : list Z) (s : virtscreen) : virtscreen :=
  VS (rows s) (columns s) (num_bytes s) v (xpos s) (ypos s) (top_scroll s) (bottom_scroll s) (attrib s) (old_attrib s) (old_xpos s)
    (old_ypos s) (cur_ansi_number s) (ansi_elements s) (ansi_reading_number s) (ansi_element s) (next_char_send s) (is_active s) (crtc s).
Definition set_xpos (v : Z) (s : virtscreen) : virtscreen :=
  VS (rows s) (columns s) (num_bytes s) (data s) v (ypos s) (top_scroll s) (bottom_scroll s) (attrib s) (old_attrib s) (old_xpos s)
    (old_ypos s) (cur_ansi_number s) (ansi_elements s) (ansi_reading_number s) (ansi_element s) (next_char_send s) (is_active s) (crtc s).
Definition set_ypos (v : Z) (s : virtscreen) : virtscreen :=
  VS (rows s) (columns s) (num_bytes s) (data s) (xpos s) v (top_scroll s) (bottom_scroll s) (attrib s) (old_attrib s) (old_xpos s)
    (old_ypos s) (cur_ansi_number s) (ansi_elements s) (ansi_reading_number s) (ansi_element s) (next_char_send s) (is_active s) (crtc s).
Definition set_attrib (v : Z) (s : virtscreen) : virtscreen :=
  VS (rows s) (columns s) (num_bytes s) (data s) (xpos s) (ypos s) (top_scroll s) (bottom_scroll s) v (old_attrib s) (old_xpos s)
    (old_ypos s) (cur_ansi_number s) (ansi_elements s) (ansi_reading_number s) (ansi_element s) (next_char_send s) (is_active s) (crtc s).
Definition set_cur_ansi_number (v : Z) (s : virtscreen) : virtscreen :=
  VS (rows s) (columns s) (num_bytes s) (data s) (xpos s) (ypos s) (top_scroll s) (bottom_scroll s) (attrib s) (old_attrib s) (old_xpos s)
    (old_ypos s) v (ansi_elements s) (ansi_reading_number s) (ansi_element s) (next_char_send s) (is_active s) (crtc s).
Definition set_ansi_reading_number (v : Z) (s : virtscreen) : virtscreen :=
  VS (rows s) (columns s) (num_bytes s) (data s) (xpos s) (ypos s) (top_scroll s) (bottom_scroll s) (attrib s) (old_attrib s) (old_xpos s)
    (old_ypos s) (cur_ansi_number s) (ansi_elements s) v (ansi_element s) (next_char_send s) (is_active s) (crtc s).
Definition set_ansi_elements (v : Z) (s : virtscreen) : virtscreen :=
  VS (rows s) (columns s) (num_bytes s) (data s) (xpos s) (ypos s) (top_scroll s) (bottom_scroll s) (attrib s) (old_attrib s) (old_xpos s)
    (old_ypos s) (cur_ansi_number s) v (ansi_reading_number s) (ansi_element s) (next_char_send s) (is_active s) (crtc s).
Definition set_ansi_element (v : list Z) (s : virtscreen) : virtscreen :=
  VS (rows s) (columns s) (num_bytes s) (data s) (xpos s) (ypos s) (top_scroll s) (bottom_scroll s) (attrib s) (old_attrib s) (old_xpos s)
    (old_ypos s) (cur_ansi_number s) (ansi_elements s) (ansi_reading_number s) v (next_char_send s) (is_active s) (crtc s).
Definition set_next_char_send (v : handler) (s : virtscreen) : virtscreen :=
  VS (rows s) (columns s) (num_bytes s) (data s) (xpos s) (ypos s) (top_scroll s) (bottom_scroll s) (attrib s) (old_attrib s) (old_xpos s)
    (old_ypos s) (cur_ansi_number s) (ansi_elements s) (ansi_reading_number s) (ansi_element s) v (is_active s) (crtc s).
Definition set_crtc (v : Z) (s : virtscreen) : virtscreen :=
  VS (rows s) (columns s) (num_bytes s) (data s) (xpos s) (ypos s) (top_scroll s) (bottom_scroll s) (attrib s) (old_attrib s) (old_xpos s)
    (old_ypos s) (cur_ansi_number s) (ansi_elements s) (ansi_reading_number s) (ansi_element s) (next_char_send s) (is_active s) v.
Definition MAX_ANSI_ELEMENTS : Z := 16.

(** [loc_in_virtscreen(cur, y, x)], as an offset into [data]. *)
Definition loc (s : virtscreen) (y x : Z) : Z := y * columns s + x.

(** [while (n--) *p++ = v;] on cells. *)
Fixpoint fill (m : list Z) (p v : Z) (n : nat) : cres (list Z) :=
  match n with
  | O => Ok m
  | S n => let? m := aset m p (u16 v) in fill m (p + 1) v n
  end.

(** memmove of [len] bytes between cells; [len] is an unsigned int.  Inside the
  block this is what libc's memmove does (LibC.memmove_ok), outside it is a fault. *)
Definition move_cells (m : list Z) (dest src len : Z) : cres (list Z) :=
  let n := u32 len / 2 in
  if decide (0 <= dest /\ dest + n <= Z.of_nat (length m) /\ 0 <= src /\ src + n <= Z.of_nat (length m))
  then Ok (splice m dest (slice m src (Z.to_nat n))) else Fault.

Definition upd_data (s : virtscreen) (r : cres (list Z)) : cres virtscreen :=
  let! m := r in Ok (set_data m s).

(** console.c: the offset is written to two byte-wide registers. *)
Definition movecursor (x y : Z) : Z :=
  let offset := 80 * y + x in u8 (Z.quot offset 256) * 256 + u8 (Z.rem offset 256).
Definition move_cursor (s : virtscreen) : virtscreen :=
  if is_active s then set_crtc (movecursor (xpos s) (ypos s)) s else s.

Definition blank (atrb : Z) : Z := Z.lor 32 (Z.shiftl atrb 8).

Definition clear_region (s : virtscreen) (y1 x1 y2 x2 atrb : Z) : cres virtscreen :=
  let ch := loc s y1 x1 in let tr := loc s y2 x2 in
  upd_data s (fill (data s) ch (blank atrb) (Z.to_nat (tr + 1 - ch))).

(** [mem] is what malloc returned. *)
Definition init_virtscreen (s : virtscreen) (mem : option (list Z)) (rows columns : Z) : cres (Z * virtscreen) :=
  match mem with
  | None => Ok (-1, s)
  | Some d =>
      let s := VS rows columns (2 * rows * columns) d (xpos s) (ypos s) 0 rows 7 7 (old_xpos s) (old_ypos s)
                  0 0 0 (ansi_element s) std_interpret_char_h (is_active s) (crtc s) in
      let! s := clear_region s 0 0 (rows - 1) (columns - 1) 7 in
      Ok (0, VS rows columns (2 * rows * columns) (data s) (xpos s) (ypos s) 0 rows 7 7 0 0
                0 0 0 (ansi_element s) std_interpret_char_h (is_active s) (crtc s))
  end.

Definition clear_virtscreen (s : virtscreen) (mode : Z) : cres virtscreen :=
  if decide (mode = 0) then clear_region s (ypos s) (xpos s) (rows s - 1) (columns s - 1) (attrib s)
  else if decide (mode = 1) then clear_region s 0 0 (ypos s) (xpos s) (attrib s)
  else let! s := clear_region s 0 0 (rows s - 1) (columns s - 1) (attrib s) in
       Ok (set_xpos 0 (set_ypos 0 s)).

Definition clear_to_eol (s : virtscreen) (mode : Z) : cres virtscreen :=
  if decide (mode = 0) then clear_region s (ypos s) (xpos s) (ypos s) (columns s - 1) (attrib s)
  else if decide (mode = 1) then clear_region s (ypos s) 0 (ypos s) (xpos s) (attrib s)
  else clear_region s (ypos s) 0 (ypos s) (columns s - 1) (attrib s).

Definition clamp (v hi : Z) : Z :=
  let v := if decide (v < 0) then 0 else v in if decide (hi <= v) then hi - 1 else v.

Definition position_console (s : virtscreen) (y x : Z) (rel : bool) : virtscreen :=
  let '(x, y) := if rel then (s32 (xpos s + x), s32 (ypos s + y)) else (x, y) in
  move_cursor (set_ypos (clamp y (rows s)) (set_xpos (clamp x (columns s)) s)).

(** [while (next_move<end_move) *start_move++ = *next_move++;] *)
Fixpoint shift_cells (m : list Z) (start next : Z) (n : nat) : cres (list Z) :=
  match n with
  | O => Ok m
  | S n => let? c := aget m next in let? m := aset m start c in shift_cells m (start + 1) (next + 1) n
  end.

Definition delete_chars_in_line (s : virtscreen) (char_move : Z) : cres virtscreen :=
  let start := loc s (ypos s) (xpos s) in
  let end_ := loc s (ypos s) (columns s) in
  let next := loc s (ypos s) (s32 (xpos s + char_move)) in
  let n := if decide (s32 (xpos s + char_move) < columns s) then Z.to_nat (end_ - next) else O in
  let! m := shift_cells (data s) start next n in
  upd_data s (fill m (start + Z.of_nat n) (blank (attrib s)) (Z.to_nat (end_ - (start + Z.of_nat n)))).

Definition scroll_virt_up_at_cursor (s : virtscreen) (dir : bool) : cres virtscreen :=
  if decide (top_scroll s <= ypos s /\ ypos s < bottom_scroll s) then
    let beginScr := loc s (ypos s) 0 in
    let endofScr := loc s (bottom_scroll s) 0 in
    let lastLine := endofScr - columns s in
    let nextLine := beginScr + columns s in
    let len := 2 * lastLine - 2 * beginScr in
    if dir then
      let! m := move_cells (data s) beginScr nextLine len in
      upd_data s (fill m lastLine (blank (attrib s)) (Z.to_nat (endofScr - lastLine)))
    else
      let! m := move_cells (data s) nextLine beginScr len in
      upd_data s (fill m beginScr (blank (attrib s)) (Z.to_nat (nextLine - beginScr)))
  else Ok s.

Definition scroll_virtscreen (s : virtscreen) : cres virtscreen :=
  let beginScr := loc s (top_scroll s) 0 in
  let endofScr := loc s (bottom_scroll s) 0 in
  let lastLine := endofScr - columns s in
  let nextLine := beginScr + columns s in
  let! m := move_cells (data s) beginScr nextLine (2 * lastLine - 2 * beginScr) in
  upd_data s (fill m lastLine (blank (attrib s)) (Z.to_nat (endofScr - lastLine))).

Definition set_scroll_region (s : virtscreen) (low high : Z) : virtscreen :=
  let low := s32 (low - 1) in
  let high := if decide (rows s <= high) then rows s else high in
  let low := if decide (low < 0) then 0 else low in
  VS (rows s) (columns s) (num_bytes s) (data s) (xpos s) (ypos s) low high (attrib s) (old_attrib s)
     (old_xpos s) (old_ypos s) (cur_ansi_number s) (ansi_elements s) (ansi_reading_number s)
     (ansi_element s) (next_char_send s) (is_active s) (crtc s).

Definition change_attribute (s : virtscreen) (a : Z) : virtscreen := set_attrib a s.

Definition change_character (s : virtscreen) (ch : Z) : cres virtscreen :=
  upd_data s (deref (aset (data s) (loc s (ypos s) (xpos s)) (u16 (Z.lor ch (Z.shiftl (attrib s) 8))))).

Definition special_ansi_charset_0 (s : virtscreen) (ch : Z) : cres virtscreen :=
  Ok (set_next_char_send std_interpret_char_h s).
Definition special_ansi_charset_1 (s : virtscreen) (ch : Z) : cres virtscreen :=
  Ok (set_next_char_send std_interpret_char_h s).

(** The cursor saved by ESC 7 (with the attribute) and by ESC [ s. *)
Definition save_cursor (s : virtscreen) (a : Z) : virtscreen :=
  VS (rows s) (columns s) (num_bytes s) (data s) (xpos s) (ypos s) (top_scroll s) (bottom_scroll s) (attrib s) a
     (xpos s) (ypos s) (cur_ansi_number s) (ansi_elements s) (ansi_reading_number s)
     (ansi_element s) (next_char_send s) (is_active s) (crtc s).

(** The index of the line feed of ESC D and ESC E. *)
Definition index_down (s : virtscreen) : cres virtscreen :=
  let s := set_ypos (s32 (ypos s + 1)) s in
  let! s := (if decide (bottom_scroll s <= ypos s) then
               let! s := scroll_virtscreen s in Ok (set_ypos (s32 (ypos s - 1)) s)
             else Ok s) in
  Ok (move_cursor s).

(** What follows the switch: a second ESC keeps the automaton in this state. *)
Definition end_escape (ch : Z) (s : virtscreen) : cres virtscreen :=
  Ok (if decide (ch <> 27) then set_next_char_send std_interpret_char_h s else s).

Definition std_interpret_ansi (s : virtscreen) (ch : Z) : cres virtscreen :=
  let finish := end_escape ch in
  if decide (ch = 40) then Ok (set_next_char_send special_ansi_charset_0_h s)
  else if decide (ch = 41) then Ok (set_next_char_send special_ansi_charset_1_h s)
  else if decide (ch = 91) then
    Ok (set_next_char_send special_reading_ansi_h
          (set_ansi_reading_number 0 (set_ansi_elements 0 (set_cur_ansi_number 0 s))))
  else if decide (ch = 55) then finish (save_cursor s (attrib s))
  else if decide (ch = 56) then
    let s := change_attribute s (old_attrib s) in
    finish (position_console s (ypos s) (xpos s) false)
  else if decide (ch = 69) then let! s := index_down (set_xpos 0 s) in finish s
  else if decide (ch = 68) then let! s := index_down s in finish s
  else if decide (ch = 77) then
    let s := set_ypos (s32 (ypos s - 1)) s in
    let! s := (if decide (ypos s < top_scroll s) then
                 scroll_virt_up_at_cursor (set_ypos (s32 (ypos s + 1)) s) false
               else Ok s) in
    finish (move_cursor s)
  else finish s.

(** The cases 10 (line feed), 8 (backspace) and default (a character to show). *)
Definition line_feed (s : virtscreen) : cres virtscreen :=
  let s := set_ypos (s32 (ypos s + 1)) s in
  let! s := (if decide (bottom_scroll s <= ypos s) then
               let! s := (if decide (ypos s = bottom_scroll s) then scroll_virtscreen s else Ok s) in
               Ok (set_ypos (s32 (ypos s - 1)) s)
             else Ok s) in
  Ok (set_xpos 0 s).

Definition backspace (s : virtscreen) : cres virtscreen :=
  let s := set_xpos (s32 (xpos s - 1)) s in
  if decide (xpos s < 0) then
    let s := set_xpos (columns s - 1) s in
    Ok (if decide (ypos s < 0) then set_ypos 0 s else s)
  else Ok s.

Definition put_char (s : virtscreen) (ch : Z) : cres virtscreen :=
  let! s := change_character s ch in
  let s := set_xpos (s32 (xpos s + 1)) s in
  Ok (if decide (columns s <= xpos s) then set_xpos (columns s - 1) s else s).

Definition std_interpret_char (s : virtscreen) (ch : Z) : cres virtscreen :=
  if decide (ch = 27) then Ok (set_next_char_send std_interpret_ansi_h s) else
  let! s :=
    (if decide (ch = 12) then clear_virtscreen s 2
     else if decide (ch = 13) then Ok (set_xpos 0 s)
     else if decide (ch = 10) then line_feed s
     else if decide (ch = 9) then
       Ok (position_console s (ypos s) (s32 (xpos s + (8 - Z.rem (xpos s) 8))) false)
     else if decide (ch = 8) then backspace s
     else if decide (ch = 0) then Ok s
     else put_char s ch) in
  Ok (move_cursor s).

(** The i-th parameter of a control sequence, or its default. *)
Definition param (s : virtscreen) (i : Z) (default : Z) : cres Z :=
  if decide (i < ansi_elements s) then deref (aget (ansi_element s) i) else Ok default.

(** One parameter of ESC [ ... m. *)
Definition sgr (s : virtscreen) (cthing : Z) : virtscreen :=
  if decide (cthing = 0 \/ cthing = 27) then change_attribute s 7
  else if decide (cthing = 1) then change_attribute s (Z.lor (attrib s) 8)
  else if decide (cthing = 5) then change_attribute s (Z.lor (attrib s) 128)
  else if decide (cthing = 7) then change_attribute s 112
  else if decide (cthing = 21 \/ cthing = 22) then change_attribute s (Z.land (attrib s) 247)
  else if decide (cthing = 25) then change_attribute s (Z.land (attrib s) 127)
  else
    let s := if decide (30 <= cthing <= 37)
             then change_attribute s (Z.lor (Z.land (attrib s) 248) (cthing - 30)) else s in
    if decide (40 <= cthing <= 47)
    then change_attribute s (Z.lor (Z.land (attrib s) 143) (Z.shiftl (cthing - 40) 4)) else s.

(** [while (count < cur->ansi_elements)] from [count], [n] elements to go. *)
Fixpoint sgr_loop (s : virtscreen) (count : Z) (n : nat) : cres virtscreen :=
  match n with
  | O => Ok s
  | S n => let? c := aget (ansi_element s) count in sgr_loop (sgr s c) (count + 1) n
  end.

Definition select_rendition (s : virtscreen) : cres virtscreen :=
  let s := if decide (ansi_elements s = 0) then change_attribute s 7 else s in
  sgr_loop s 0 (Z.to_nat (ansi_elements s)).

(** [while (lines>0) { scroll_virt_up_at_cursor(cur,dir); lines--; }] *)
Fixpoint scroll_lines (s : virtscreen) (dir : bool) (lines : nat) : cres virtscreen :=
  match lines with
  | O => Ok s
  | S lines => let! s := scroll_virt_up_at_cursor s dir in scroll_lines s dir lines
  end.

(** [if (temp) temp--;] *)
Definition dec1 (v : Z) : Z := if decide (v <> 0) then s32 (v - 1) else v.

(** The switch on the final character of a control sequence, ';' and '?' apart. *)
Definition control (s : virtscreen) (ch : Z) : cres virtscreen :=
  if decide (ch = 68) then let! e := param s 0 1 in Ok (position_console s 0 (s32 (- e)) true)
  else if decide (ch = 97 \/ ch = 67) then let! e := param s 0 1 in Ok (position_console s 0 e true)
  else if decide (ch = 65) then let! e := param s 0 1 in Ok (position_console s (s32 (- e)) 0 true)
  else if decide (ch = 101 \/ ch = 66) then let! e := param s 0 1 in Ok (position_console s e 0 true)
  else if decide (ch = 96 \/ ch = 71) then
    let! e := param s 0 1 in Ok (position_console s (ypos s) (dec1 e) false)
  else if decide (ch = 69) then
    let! e := param s 0 1 in Ok (position_console s (s32 (ypos s + e)) 0 false)
  else if decide (ch = 70) then
    let! e := param s 0 1 in Ok (position_console s (s32 (ypos s - e)) 0 false)
  else if decide (ch = 100) then
    let! e := param s 0 1 in Ok (position_console s (dec1 e) (xpos s) false)
  else if decide (ch = 102 \/ ch = 72) then
    let! row := param s 0 1 in let! col := param s 1 1 in
    Ok (position_console s (dec1 row) (dec1 col) false)
  else if decide (ch = 74) then let! e := param s 0 0 in clear_virtscreen s e
  else if decide (ch = 76) then let! e := param s 0 1 in scroll_lines s false (Z.to_nat e)
  else if decide (ch = 77) then let! e := param s 0 1 in scroll_lines s true (Z.to_nat e)
  else if decide (ch = 80) then let! e := param s 0 1 in delete_chars_in_line s e
  else if decide (ch = 75) then let! e := param s 0 0 in clear_to_eol s e
  else if decide (ch = 115) then Ok (save_cursor s (old_attrib s))
  else if decide (ch = 117) then Ok (position_console s (old_ypos s) (old_xpos s) false)
  else if decide (ch = 114) then
    let! low := param s 0 1 in let! high := param s 1 (rows s) in
    Ok (if decide (low <= high) then set_scroll_region s low high else s)
  else if decide (ch = 109) then
    select_rendition s
  else Ok s.

(** A parameter ends: it is recorded while there is room for it. *)
Definition end_number (s : virtscreen) (ch : Z) : cres virtscreen :=
  let! s :=
    (if decide (ansi_reading_number s <> 0 \/ ch = 59) then
       let! s := (if decide (ansi_elements s < MAX_ANSI_ELEMENTS) then
                    let? l := aset (ansi_element s) (ansi_elements s) (cur_ansi_number s) in
                    Ok (set_ansi_elements (ansi_elements s + 1) (set_ansi_element l s))
                  else Ok s) in
       Ok (set_ansi_reading_number 0 s)
     else Ok s) in
  Ok (set_cur_ansi_number 0 s).

Definition special_reading_ansi (s : virtscreen) (ch : Z) : cres virtscreen :=
  if decide (48 <= ch <= 57) then
    Ok (set_ansi_reading_number 1
          (set_cur_ansi_number (s32 (s32 (cur_ansi_number s * 10) + (ch - 48))) s))
  else
    let! s := end_number s ch in
    if decide (ch = 63 \/ ch = 59) then Ok s
    else let! s := control s ch in Ok (set_next_char_send std_interpret_char_h s).

(** [char_to_virtscreen(cur, ch)]: call through the stored function pointer. *)
Definition char_to_virtscreen (s : virtscreen) (ch : Z) : cres virtscreen :=
  match next_char_send s with
  | std_interpret_char_h => std_interpret_char s ch
  | std_interpret_ansi_h => std_interpret_ansi s ch
  | special_reading_ansi_h => special_reading_ansi s ch
  | special_ansi_charset_0_h => special_ansi_charset_0 s ch
  | special_ansi_charset_1_h => special_ansi_charset_1 s ch
  end.

Fixpoint send_chars (s : virtscreen) (l : list Z) : cres virtscreen :=
  match l with
  | [] => Ok s
  | ch :: l => let! s := char_to_virtscreen s ch in send_chars s l
  end.

(** console.c:vputs, on the characters of the string (a char is passed as an
  unsigned char); the lock around it is the caller's. *)
Fixpoint vputs (s : virtscreen) (str : list Z) : cres virtscreen :=
  match str with
  | [] => Ok s
  | ch :: str =>
      let! s := char_to_virtscreen s ch in
      let! s := (if decide (ch = 10) then char_to_virtscreen s 13 else Ok s) in
      vputs s str
  end.

(** ** The screen invariant *)

(** A parameter of a control sequence of at most nine digits: adding it to a
  coordinate does not overflow an int. *)
Definition pnum (v : Z) : Prop := 0 <= v < 10 ^ 9.

Record vwf (s : virtscreen) : Prop := {
  vw_rows : 0 < rows s;
  vw_cols : 0 < columns s;
  vw_size : rows s * columns s < 10 ^ 9;
  vw_data : Z.of_nat (length (data s)) = rows s * columns s;
  vw_x : 0 <= xpos s < columns s;
  vw_y : 0 <= ypos s < rows s;
  vw_scroll : 0 <= top_scroll s /\ top_scroll s < bottom_scroll s /\ bottom_scroll s <= rows s;
  vw_elems : 0 <= ansi_elements s <= MAX_ANSI_ELEMENTS;
  vw_arr : Z.of_nat (length (ansi_element s)) = MAX_ANSI_ELEMENTS;
  vw_num : pnum (cur_ansi_number s);
  vw_params : forall i v, 0 <= i < ansi_elements s -> aget (ansi_element s) i = Some v -> pnum v
}.

(** The call succeeds and keeps the invariant. *)
Definition safe (r : cres virtscreen) : Prop := exists s, r = Ok s /\ vwf s.

Lemma safe_Ok s : vwf s -> safe (Ok s).
Proof. by exists s. Qed.

Lemma safe_bind (r : cres virtscreen) k : safe r -> (forall s, vwf s -> safe (k s)) -> safe (cbind r k).
Proof. intros (s & -> & Hs) Hk. by apply Hk. Qed.

Lemma fill_ok v : forall n m p l, fits m p (length l + n) ->
  fill (splice m p l) (p + Z.of_nat (length l)) v n = Ok (splice m p (l ++ replicate n (u16 v))).
Proof.
  induction n as [|n IH]; intros m p l Hf; simpl; [by rewrite app_nil_r|].
  rewrite splice_snoc by (unfold fits in *; lia). simpl.
  specialize (IH m p (l ++ [u16 v])). rewrite length_app in IH. simpl length in IH.
  replace (p + Z.of_nat (length l) + 1) with (p + Z.of_nat (length l + 1)) by lia.
  rewrite IH by (unfold fits in *; lia). by rewrite <- app_assoc.
Qed.

Lemma fill_run m p v n : fits m p n -> fill m p v n = Ok (splice m p (replicate n (u16 v))).
Proof.
  intros H. pose proof (fill_ok v n m p []) as H0. rewrite splice_nil, Z.add_0_r in H0. by apply H0.
Qed.

Lemma set_data_wf s m : vwf s -> length m = length (data s) -> vwf (set_data m s).
Proof. intros [] E. by constructor; simpl; rewrite ?E. Qed.

Lemma fill_safe s m p v n : vwf s -> length m = length (data s) -> fits m p n -> safe (upd_data s (fill m p v n)).
Proof.
  intros Hw E Hf. rewrite fill_run by done. apply safe_Ok, set_data_wf; [done|].
  by rewrite length_splice by (by rewrite length_replicate).
Qed.

Lemma rows_fit s y1 x1 y2 x2 : vwf s -> 0 <= y1 -> 0 <= x1 -> y2 < rows s -> x2 < columns s ->
  0 <= loc s y1 x1 /\ loc s y2 x2 + 1 <= Z.of_nat (length (data s)).
Proof. intros [] ? ? ? ?. unfold loc. nia. Qed.

Lemma clear_region_safe s y1 x1 y2 x2 a : vwf s -> 0 <= y1 < rows s -> 0 <= x1 < columns s ->
  y2 < rows s -> x2 < columns s -> safe (clear_region s y1 x1 y2 x2 a).
Proof.
  intros Hw Hy1 Hx1 Hy2 Hx2. apply fill_safe; [done|done|].
  destruct (rows_fit s y1 x1 y2 x2 Hw) as [H1 H2]; try lia.
  destruct (rows_fit s y1 x1 y1 x1 Hw) as [H3 H4]; try lia. unfold fits. lia.
Qed.

Lemma set_pos_wf s x y : vwf s -> 0 <= x < columns s -> 0 <= y < rows s -> vwf (set_ypos y (set_xpos x s)).
Proof. intros [] ? ?. by constructor. Qed.

Lemma set_pos_wf' s x y : vwf s -> 0 <= x < columns s -> 0 <= y < rows s -> vwf (set_xpos x (set_ypos y s)).
Proof. intros [] ? ?. by constructor. Qed.

Lemma set_xpos_wf s x : vwf s -> 0 <= x < columns s -> vwf (set_xpos x s).
Proof. intros [] ?. by constructor. Qed.

Lemma set_ypos_wf s y : vwf s -> 0 <= y < rows s -> vwf (set_ypos y s).
Proof. intros [] ?. by constructor. Qed.

Lemma move_cursor_wf s : vwf s -> vwf (move_cursor s).
Proof. intros H. unfold move_cursor. destruct (is_active s); [|done]. by destruct H; constructor. Qed.

Lemma set_handler_wf s h : vwf s -> vwf (set_next_char_send h s).
Proof. intros []. by constructor. Qed.

Lemma set_attrib_wf s a : vwf s -> vwf (set_attrib a s).
Proof. intros []. by constructor. Qed.

Lemma save_cursor_wf s a : vwf s -> vwf (save_cursor s a).
Proof. intros []. by constructor. Qed.

Lemma clamp_range v hi : 0 < hi -> 0 <= clamp v hi < hi.
Proof. intros. unfold clamp. repeat case_decide; lia. Qed.

Lemma position_console_wf s y x rel : vwf s -> vwf (position_console s y x rel).
Proof.
  intros Hw. pose proof (vw_rows _ Hw). pose proof (vw_cols _ Hw).
  unfold position_console. destruct rel; apply move_cursor_wf, set_pos_wf; try done; by apply clamp_range.
Qed.
#[local] Hint Resolve safe_Ok move_cursor_wf set_handler_wf set_attrib_wf save_cursor_wf position_console_wf : blt.

Lemma clear_virtscreen_safe s mode : vwf s -> safe (clear_virtscreen s mode).
Proof.
  intros Hw. pose proof Hw as []. unfold clear_virtscreen.
  repeat case_decide; [apply clear_region_safe; done || lia..|].
  apply safe_bind; [apply clear_region_safe; done || lia|]. intros s' Hw'. pose proof Hw' as [].
  apply safe_Ok, set_pos_wf'; [done|lia|lia].
Qed.

Lemma clear_to_eol_safe s mode : vwf s -> safe (clear_to_eol s mode).
Proof.
  intros Hw. pose proof Hw as []. unfold clear_to_eol. repeat case_decide; apply clear_region_safe; done || lia.
Qed.

Lemma change_character_safe s ch : vwf s -> safe (change_character s ch).
Proof.
  intros Hw. pose proof Hw as []. unfold change_character.
  destruct (rows_fit s (ypos s) (xpos s) (ypos s) (xpos s) Hw); try lia.
  rewrite aset_in_range by lia. apply safe_Ok, set_data_wf; [done|]. apply length_insert.
Qed.

(** Scrolling [k] rows at [y] by one row. *)
Lemma move_cells_ok m d r len : 0 <= len < 2 ^ 32 -> fits m d (Z.to_nat (len / 2)) -> fits m r (Z.to_nat (len / 2)) ->
  move_cells m d r len = Ok (splice m d (slice m r (Z.to_nat (len / 2)))).
Proof.
  intros Hl Hd Hr. unfold move_cells. rewrite u32_small by done. unfold fits in *.
  assert (0 <= len / 2) by (apply Z.div_pos; lia). rewrite decide_True by lia. done.
Qed.

(** The cells after rows [y] to [b - 1] moved up, resp. down, by one row. *)
Definition rows_up (s : virtscreen) (y b : Z) : list Z :=
  splice (splice (data s) (loc s y 0) (slice (data s) (loc s (y + 1) 0) (Z.to_nat ((b - 1 - y) * columns s))))
         (loc s (b - 1) 0) (replicate (Z.to_nat (columns s)) (u16 (blank (attrib s)))).
Definition rows_down (s : virtscreen) (y b : Z) : list Z :=
  splice (splice (data s) (loc s (y + 1) 0) (slice (data s) (loc s y 0) (Z.to_nat ((b - 1 - y) * columns s))))
         (loc s y 0) (replicate (Z.to_nat (columns s)) (u16 (blank (attrib s)))).

(** The three ranges a scroll touches lie in the screen. *)
Lemma scroll_fits s y b : vwf s -> 0 <= y < b -> b <= rows s ->
  let m := data s in let n := Z.to_nat ((b - 1 - y) * columns s) in
  (forall m', length m' = length m -> fits m' (loc s y 0) n /\ fits m' (loc s (y + 1) 0) n /\
     fits m' (loc s y 0) (Z.to_nat (columns s)) /\ fits m' (loc s (b - 1) 0) (Z.to_nat (columns s))).
Proof.
  intros [] Hy Hb m n m' E. subst m n. unfold fits, loc. rewrite E, vw_data0.
  assert (0 <= (b - 1 - y) * columns s) by nia. rewrite !Z2Nat.id by lia. nia.
Qed.

Lemma scroll_len s y b : vwf s -> 0 <= y < b -> b <= rows s ->
  (2 * (loc s b 0 - columns s) - 2 * loc s y 0) / 2 = (b - 1 - y) * columns s /\
  0 <= 2 * (loc s b 0 - columns s) - 2 * loc s y 0 < 2 ^ 32.
Proof.
  intros [] Hy Hb. unfold loc. split; [|nia].
  replace (2 * (b * columns s + 0 - columns s) - 2 * (y * columns s + 0)) with ((b - 1 - y) * columns s * 2) by lia.
  by rewrite Z.div_mul.
Qed.

Lemma scroll_up_run s y b : vwf s -> 0 <= y < b -> b <= rows s ->
  (let! m := move_cells (data s) (loc s y 0) (loc s y 0 + columns s) (2 * (loc s b 0 - columns s) - 2 * loc s y 0) in
   upd_data s (fill m (loc s b 0 - columns s) (blank (attrib s)) (Z.to_nat (loc s b 0 - (loc s b 0 - columns s)))))
  = Ok (set_data (rows_up s y b) s) /\ length (rows_up s y b) = length (data s).
Proof.
  intros Hw Hy Hb. destruct (scroll_len s y b) as [El Hl]; try done.
  destruct (scroll_fits s y b Hw Hy Hb (data s) eq_refl) as (F1 & F2 & _).
  replace (loc s y 0 + columns s) with (loc s (y + 1) 0) by (unfold loc; lia).
  replace (loc s b 0 - (loc s b 0 - columns s)) with (columns s) by lia.
  rewrite move_cells_ok by (rewrite ?El; done). rewrite El. cbn [cbind].
  assert (length (splice (data s) (loc s y 0) (slice (data s) (loc s (y + 1) 0) (Z.to_nat ((b - 1 - y) * columns s))))
    = length (data s)) as E by (rewrite length_splice; [done|by rewrite length_slice]).
  destruct (scroll_fits s y b Hw Hy Hb _ E) as (_ & _ & _ & F4).
  replace (loc s b 0 - columns s) with (loc s (b - 1) 0) by (unfold loc; lia).
  rewrite fill_run by done. unfold rows_up. split; [done|].
  rewrite length_splice by (by rewrite length_replicate). done.
Qed.

Lemma scroll_down_run s y b : vwf s -> 0 <= y < b -> b <= rows s ->
  (let! m := move_cells (data s) (loc s y 0 + columns s) (loc s y 0) (2 * (loc s b 0 - columns s) - 2 * loc s y 0) in
   upd_data s (fill m (loc s y 0) (blank (attrib s)) (Z.to_nat (loc s y 0 + columns s - loc s y 0))))
  = Ok (set_data (rows_down s y b) s) /\ length (rows_down s y b) = length (data s).
Proof.
  intros Hw Hy Hb. destruct (scroll_len s y b) as [El Hl]; try done.
  destruct (scroll_fits s y b Hw Hy Hb (data s) eq_refl) as (F1 & F2 & _).
  replace (loc s y 0 + columns s) with (loc s (y + 1) 0) by (unfold loc; lia).
  replace (loc s (y + 1) 0 - loc s y 0) with (columns s) by (unfold loc; lia).
  rewrite move_cells_ok by (rewrite ?El; done). rewrite El. cbn [cbind].
  assert (length (splice (data s) (loc s (y + 1) 0) (slice (data s) (loc s y 0) (Z.to_nat ((b - 1 - y) * columns s))))
    = length (data s)) as E by (rewrite length_splice; [done|by rewrite length_slice]).
  destruct (scroll_fits s y b Hw Hy Hb _ E) as (_ & _ & F3 & _).
  rewrite fill_run by done. unfold rows_down. split; [done|].
  rewrite length_splice by (by rewrite length_replicate). done.
Qed.

Lemma scroll_virtscreen_run s : vwf s ->
  scroll_virtscreen s = Ok (set_data (rows_up s (top_scroll s) (bottom_scroll s)) s) /\
  length (rows_up s (top_scroll s) (bottom_scroll s)) = length (data s).
Proof. intros Hw. pose proof Hw as []. apply scroll_up_run; [done|lia|lia]. Qed.

(** Scrolling the region does not look at the cursor, which its callers have moved. *)
Lemma scroll_virtscreen_set_ypos s y :
  scroll_virtscreen (set_ypos y s) = (let! s := scroll_virtscreen s in Ok (set_ypos y s)).
Proof.
  unfold scroll_virtscreen, upd_data, loc. simpl. destruct (move_cells _ _ _ _) as [m| |]; simpl; [|done..].
  by destruct (fill _ _ _ _).
Qed.

(** A line feed at row [y + 1], scrolled back to row [y]. *)
Lemma scroll_back_safe s : vwf s ->
  exists s', scroll_virtscreen (set_ypos (s32 (ypos s + 1)) s) = Ok s' /\ ypos s' = ypos s + 1 /\
    vwf (set_ypos (s32 (ypos s' - 1)) s').
Proof.
  intros Hw. pose proof Hw as []. destruct (scroll_virtscreen_run s Hw) as [E El].
  assert (- 2 ^ 31 <= ypos s + 1 < 2 ^ 31) by nia.
  rewrite scroll_virtscreen_set_ypos, E. cbn [cbind]. eexists. split; [done|]. simpl.
  rewrite s32_small by done. split; [done|]. replace (ypos s + 1 - 1) with (ypos s) by lia.
  rewrite s32_small by lia. pose proof (set_data_wf _ _ Hw El) as []. by constructor.
Qed.

Lemma scroll_at_cursor_safe s dir : vwf s -> safe (scroll_virt_up_at_cursor s dir).
Proof.
  intros Hw. pose proof Hw as []. unfold scroll_virt_up_at_cursor. case_decide; [|auto with blt]. destruct dir.
  - destruct (scroll_up_run s (ypos s) (bottom_scroll s)) as [-> El]; [done|lia|lia|]. by apply safe_Ok, set_data_wf.
  - destruct (scroll_down_run s (ypos s) (bottom_scroll s)) as [-> El]; [done|lia|lia|]. by apply safe_Ok, set_data_wf.
Qed.

Lemma scroll_lines_safe dir n : forall s, vwf s -> safe (scroll_lines s dir n).
Proof.
  induction n as [|n IH]; intros s Hw; simpl; [auto with blt|].
  apply safe_bind; [by apply scroll_at_cursor_safe|done].
Qed.

Lemma index_down_safe s : vwf s -> safe (index_down s).
Proof.
  intros Hw. pose proof Hw as []. unfold index_down. cbn [bottom_scroll ypos set_ypos].
  assert (ypos s + 1 < 2 ^ 31) by nia. case_decide as Hd.
  - destruct (scroll_back_safe s Hw) as (s' & -> & Ey & Hw'). cbn [cbind]. auto with blt.
  - cbn [cbind]. apply safe_Ok, move_cursor_wf, set_ypos_wf; [done|].
    rewrite s32_small in Hd |- * by lia. lia.
Qed.

Lemma std_interpret_ansi_safe s ch : vwf s -> safe (std_interpret_ansi s ch).
Proof.
  intros Hw. pose proof Hw as [].
  assert (forall s, vwf s -> safe (end_escape ch s)) as Hfin.
  { intros s0 H0. unfold end_escape. case_decide; auto with blt. }
  unfold std_interpret_ansi. repeat (case_decide; [try (by auto with blt)|]); [..|by apply Hfin].
  - apply safe_Ok. constructor; simpl; try done; intros; lia.
  - apply Hfin. unfold change_attribute. auto with blt.
  - apply safe_bind; [|done]. apply index_down_safe, set_xpos_wf; [done|lia].
  - apply safe_bind; [|done]. by apply index_down_safe.
  - cbn [ypos set_ypos] in *. assert (- 2 ^ 31 <= ypos s - 1 < 2 ^ 31 - 1) by nia.
    rewrite (s32_small (ypos s - 1)) by lia. apply safe_bind; [|auto with blt].
    apply scroll_at_cursor_safe. replace (ypos s - 1 + 1) with (ypos s) by lia. rewrite s32_small by lia.
    destruct Hw. by constructor.
  - cbn [ypos set_ypos top_scroll] in *. assert (- 2 ^ 31 <= ypos s - 1 < 2 ^ 31 - 1) by nia.
    rewrite (s32_small (ypos s - 1)) in * by lia. apply safe_bind; [|auto with blt].
    apply safe_Ok, set_ypos_wf; [done|lia].
Qed.

Lemma line_feed_safe s : vwf s -> safe (line_feed s).
Proof.
  intros Hw. pose proof Hw as []. unfold line_feed. cbn [ypos set_ypos bottom_scroll].
  assert (ypos s + 1 < 2 ^ 31) by nia.
  apply safe_bind; [|intros s' Hs'; apply safe_Ok, set_xpos_wf; [done|destruct Hs'; lia]].
  rewrite (s32_small (ypos s + 1)) by lia. case_decide; [case_decide|].
  - destruct (scroll_back_safe s Hw) as (s' & E & Ey & Hw'). rewrite s32_small in E by lia. rewrite E.
    cbn [cbind]. auto with blt.
  - cbn [cbind ypos set_ypos]. replace (ypos s + 1 - 1) with (ypos s) by lia.
    rewrite s32_small by lia. apply safe_Ok. destruct Hw. by constructor.
  - apply safe_Ok, set_ypos_wf; [done|lia].
Qed.

Lemma backspace_safe s : vwf s -> safe (backspace s).
Proof.
  intros Hw. pose proof Hw as []. unfold backspace. cbn [xpos set_xpos columns ypos].
  assert (xpos s + 1 < 2 ^ 31) by nia. rewrite s32_small by lia. case_decide.
  - rewrite decide_False by lia. apply safe_Ok. destruct Hw. constructor; simpl; done || lia.
  - apply safe_Ok, set_xpos_wf; [done|lia].
Qed.

Lemma put_char_safe s ch : vwf s -> safe (put_char s ch).
Proof.
  intros Hw. unfold put_char. apply safe_bind; [by apply change_character_safe|].
  intros s' Hw'. cbn [xpos set_xpos columns].
  pose proof Hw' as []. assert (xpos s' + 1 < 2 ^ 31) by nia. apply safe_Ok. rewrite s32_small by lia.
  case_decide; [|apply set_xpos_wf; [done|lia]]. destruct Hw'. constructor; simpl; done || lia.
Qed.

Lemma std_interpret_char_safe s ch : vwf s -> safe (std_interpret_char s ch).
Proof.
  intros Hw. pose proof Hw as []. unfold std_interpret_char. case_decide; [auto with blt|].
  apply safe_bind; [|auto with blt]. repeat case_decide; auto with blt.
  - by apply clear_virtscreen_safe.
  - apply safe_Ok, set_xpos_wf; [done|lia].
  - by apply line_feed_safe.
  - by apply backspace_safe.
  - by apply put_char_safe.
Qed.

(** ** Control sequences *)

Lemma param_ok s i d : vwf s -> 0 <= i -> pnum d -> exists v, param s i d = Ok v /\ pnum v.
Proof.
  intros [] Hi Hd. unfold param. case_decide; [|eauto].
  destruct (aget_in_range (ansi_element s) i) as [v Hv]; [lia|]. rewrite Hv. exists v. split; [done|]. by eapply vw_params0.
Qed.

Lemma shift_cells_ok s m : forall n start next, length m = length (data s) ->
  fits m start n -> fits m next n -> exists m', shift_cells m start next n = Ok m' /\ length m' = length m.
Proof.
  intros n. revert m. induction n as [|n IH]; intros m start next E Hs Hn; simpl; [eauto|].
  destruct (aget_in_range m next) as [c Hc]; [unfold fits in *; lia|]. rewrite Hc. cbn [deref cbind].
  rewrite aset_in_range by (unfold fits in *; lia). cbn [deref cbind].
  destruct (IH (<[Z.to_nat start:=c]> m) (start + 1) (next + 1)) as (m' & -> & E');
    rewrite ?length_insert in *; unfold fits in *; rewrite ?length_insert in *; [done|lia|lia|]. eauto.
Qed.

Lemma delete_chars_safe s n : vwf s -> pnum n -> safe (delete_chars_in_line s n).
Proof.
  intros Hw [Hn0 Hn1]. pose proof Hw as []. unfold delete_chars_in_line, loc.
  assert (ypos s * columns s + columns s <= Z.of_nat (length (data s))) by nia.
  assert (0 <= ypos s * columns s) by nia. assert (columns s < 10 ^ 9) by nia.
  rewrite s32_small by lia. case_decide as Hd; cbn [cbind shift_cells].
  - destruct (shift_cells_ok s (data s) (Z.to_nat (ypos s * columns s + columns s - (ypos s * columns s + (xpos s + n))))
      (ypos s * columns s + xpos s) (ypos s * columns s + (xpos s + n))) as (m & -> & E); unfold fits; [done|lia|lia|].
    cbn [cbind]. apply fill_safe; [done|done|]. unfold fits. rewrite E. lia.
  - apply fill_safe; [done|done|unfold fits; lia].
Qed.

Lemma sgr_wf s c : vwf s -> vwf (sgr s c).
Proof. intros Hw. unfold sgr, change_attribute. repeat case_decide; auto with blt. Qed.

Lemma sgr_elements s c : ansi_elements (sgr s c) = ansi_elements s.
Proof. unfold sgr, change_attribute. by repeat case_decide. Qed.

Lemma sgr_loop_safe n : forall s count, vwf s -> 0 <= count -> count + Z.of_nat n = ansi_elements s -> safe (sgr_loop s count n).
Proof.
  induction n as [|n IH]; intros s count Hw Hc E; simpl; [auto with blt|]. pose proof Hw as [].
  destruct (aget_in_range (ansi_element s) count) as [v ->]; [lia|]. cbn [deref cbind].
  apply IH; [by apply sgr_wf|lia|]. rewrite sgr_elements. lia.
Qed.

(** A scrolling region that ESC [ r would make empty. *)
Definition bad_region (s : virtscreen) : bool :=
  match param s 0 1, param s 1 (rows s) with
  | Ok low, Ok high => bool_decide (low <= high /\ (high = 0 \/ rows s < low))
  | _, _ => true
  end.

Ltac take_param Hw i d :=
  let v := fresh "v" in let E := fresh "E" in let Hv := fresh "Hv" in
  destruct (param_ok _ i d Hw) as (v & E & Hv); [lia|unfold pnum; lia|]; rewrite E; cbn [cbind].

Lemma control_safe s ch : vwf s -> (ch = 114 -> bad_region s = false) -> safe (control s ch).
Proof.
  intros Hw Hr. pose proof Hw as []. assert (rows s < 10 ^ 9) by nia. unfold control.
  repeat (case_decide; [first [by apply safe_Ok, save_cursor_wf|by apply safe_Ok, position_console_wf|idtac]|]);
    try (take_param Hw 0 1; by apply safe_Ok, position_console_wf).
  - take_param Hw 0 1. take_param Hw 1 1. by apply safe_Ok, position_console_wf.
  - take_param Hw 0 0. by apply clear_virtscreen_safe.
  - take_param Hw 0 1. by apply scroll_lines_safe.
  - take_param Hw 0 1. by apply scroll_lines_safe.
  - take_param Hw 0 1. by apply delete_chars_safe.
  - take_param Hw 0 0. by apply clear_to_eol_safe.
  - take_param Hw 0 1. take_param Hw 1 (rows s). specialize (Hr ltac:(done)). unfold bad_region in Hr.
    rewrite E, E0 in Hr. case_decide; [|auto with blt]. apply bool_decide_eq_false in Hr. unfold pnum in *.
    apply safe_Ok. unfold set_scroll_region. rewrite (s32_small (v - 1)) by lia.
    constructor; simpl; try done. repeat case_decide; lia.
  - unfold select_rendition. apply sgr_loop_safe; [case_decide; unfold change_attribute; auto with blt|lia|].
    case_decide; simpl; lia.
  - auto with blt.
Qed.

Lemma end_number_ok s ch : vwf s -> safe (end_number s ch).
Proof.
  intros Hw. pose proof Hw as []. unfold end_number. case_decide; [case_decide|]; cbn [cbind].
  - rewrite aset_in_range by lia. cbn [deref cbind]. apply safe_Ok. constructor; simpl; try done.
    + lia.
    + by rewrite length_insert.
    + intros i v Hi. destruct (decide (i = ansi_elements s)) as [->|Hne].
      * rewrite aget_insert_eq by lia. by intros [= <-].
      * rewrite aget_insert_ne by lia. apply vw_params0. lia.
  - apply safe_Ok. constructor; simpl; try done.
  - apply safe_Ok. constructor; simpl; try done.
Qed.

(** The inputs the engine does not survive: a parameter of ten digits or more and a
  scrolling region without a row. *)
Definition hazard (s : virtscreen) (ch : Z) : bool :=
  match next_char_send s with
  | special_reading_ansi_h =>
      if decide (48 <= ch <= 57) then bool_decide (10 ^ 9 <= cur_ansi_number s * 10 + (ch - 48))
      else if decide (ch = 114) then
        match end_number s ch with Ok s => bad_region s | _ => true end
      else false
  | _ => false
  end.

Lemma char_safe s ch : vwf s -> hazard s ch = false -> safe (char_to_virtscreen s ch).
Proof.
  intros Hw Hh. unfold char_to_virtscreen. unfold hazard in Hh. destruct (next_char_send s).
  - by apply std_interpret_char_safe.
  - by apply std_interpret_ansi_safe.
  - unfold special_reading_ansi. case_decide as Hd.
    + apply bool_decide_eq_false in Hh. pose proof Hw as []. unfold pnum in *.
      rewrite (s32_small (cur_ansi_number s * 10)) by lia. rewrite s32_small by lia.
      apply safe_Ok. constructor; simpl; try done. unfold pnum. lia.
    + destruct (end_number_ok s ch Hw) as (s' & E & Hw'). rewrite E. cbn [cbind].
      destruct (decide (ch = 63 \/ ch = 59)); [auto with blt|]. apply safe_bind; [|auto with blt].
      apply control_safe; [done|]. intros ->. by rewrite decide_True, E in Hh.
  - unfold special_ansi_charset_0. auto with blt.
  - unfold special_ansi_charset_1. auto with blt.
Qed.

(** No character of [l] is a hazard in the state it meets. *)
Fixpoint tame (s : virtscreen) (l : list Z) : bool :=
  match l with
  | [] => true
  | ch :: l =>
      negb (hazard s ch) && match char_to_virtscreen s ch with Ok s => tame s l | _ => true end
  end.

Lemma send_chars_safe l : forall s, vwf s -> tame s l = true -> safe (send_chars s l).
Proof.
  induction l as [|ch l IH]; intros s Hw Ht; simpl in *; [auto with blt|].
  apply andb_true_iff in Ht as [Hh Ht]. apply negb_true_iff in Hh.
  destruct (char_safe s ch Hw Hh) as (s' & E & Hw'). rewrite E in *. by apply IH.
Qed.

(** ** What is on the screen *)

(** The cell of row [y], column [x]. *)
Definition cell (s : virtscreen) (y x : Z) : option Z := aget (data s) (loc s y x).

Lemma loc_inj s y x y' x' : 0 <= x < columns s -> 0 <= x' < columns s -> loc s y x = loc s y' x' -> y = y' /\ x = x'.
Proof.
  unfold loc. intros Hx Hx' E. assert (y = y') as ->; [|lia].
  apply (f_equal (fun v => v / columns s)) in E. rewrite !Z.div_add_l in E by lia.
  rewrite !Z.div_small in E by lia. lia.
Qed.

(** The screen after rows [a] to [b - 1] moved up by one. *)
Lemma rows_up_cell s a b y x : vwf s -> 0 <= a < b -> b <= rows s -> 0 <= y < rows s -> 0 <= x < columns s ->
  aget (rows_up s a b) (loc s y x) =
    if decide (y = b - 1) then Some (u16 (blank (attrib s)))
    else if decide (a <= y < b - 1) then cell s (y + 1) x else cell s y x.
Proof.
  intros Hw Ha Hb Hy Hx. pose proof Hw as []. unfold rows_up.
  destruct (scroll_fits s a b Hw Ha Hb (data s) eq_refl) as (F1 & F2 & _).
  set (n := Z.to_nat ((b - 1 - a) * columns s)) in *. set (up := slice (data s) (loc s (a + 1) 0) n).
  assert (length up = n) as Eup by (by apply length_slice).
  assert (length (splice (data s) (loc s a 0) up) = length (data s)) as E by (rewrite length_splice; [done|by rewrite Eup]).
  destruct (scroll_fits s a b Hw Ha Hb _ E) as (_ & _ & _ & F4).
  assert (Z.of_nat n = (b - 1 - a) * columns s) as En by (subst n; rewrite Z2Nat.id; nia).
  case_decide as H1; [|case_decide as H2].
  - subst y. replace (loc s (b - 1) x) with (loc s (b - 1) 0 + Z.of_nat (Z.to_nat x)) by (unfold loc; lia).
    apply aget_splice_in; [by rewrite length_replicate|]. apply lookup_replicate_2. lia.
  - rewrite aget_splice_out; [|by rewrite length_replicate|rewrite length_replicate; unfold loc; nia].
    assert (exists i, (i < n)%nat /\ loc s y x = loc s a 0 + Z.of_nat i) as (i & Hi & Ei).
    { exists (Z.to_nat (loc s y x - loc s a 0)). unfold loc in *. split; [|nia].
      apply Nat2Z.inj_lt. rewrite En, Z2Nat.id by nia. nia. }
    destruct (lookup_lt_is_Some_2 up i) as [v Hv]; [by rewrite Eup|].
    rewrite Ei, (aget_splice_in _ _ _ _ v) by (done || by rewrite Eup). rewrite <- Hv. unfold cell.
    replace (loc s (y + 1) x) with (loc s (a + 1) 0 + Z.of_nat i) by (unfold loc in *; lia).
    symmetry. apply aget_slice; done.
  - rewrite aget_splice_out; [|by rewrite length_replicate|rewrite length_replicate; unfold loc; nia].
    rewrite aget_splice_out; [done|by rewrite Eup|rewrite Eup, En; unfold loc; nia].
Qed.

(** ** The claims *)

(** C22. A screen set up by init_virtscreen with the cells malloc returned survives
  every stream of characters in which no control parameter has ten digits and no
  ESC [ r names an empty scrolling region: every access stays inside the screen,
  every loop ends, and the cursor, the scrolling region and the parameter buffer
  stay within their bounds. *)
Theorem vt100_stream_safe s0 d r c l
  (Hr : 0 < r) (Hc : 0 < c) (Hsz : r * c < 10 ^ 9) (Hd : Z.of_nat (length d) = r * c)
  (Hx : 0 <= xpos s0 < c) (Hy : 0 <= ypos s0 < r) (He : Z.of_nat (length (ansi_element s0)) = MAX_ANSI_ELEMENTS) :
  exists s, init_virtscreen s0 (Some d) r c = Ok (0, s) /\ vwf s /\
    (tame s l = true -> exists s', send_chars s l = Ok s' /\ vwf s').
Proof.
  unfold init_virtscreen, clear_region, loc. cbn [columns data attrib].
  rewrite fill_run by (unfold fits; lia). cbn [upd_data cbind]. eexists. split; [done|].
  match goal with |- vwf ?s /\ _ => assert (vwf s) as Hw end; [|split; [done|intros; by apply send_chars_safe]].
  constructor; simpl; try done; try (intros; lia). by rewrite length_splice by (rewrite length_replicate; unfold fits; lia).
Qed.

(** A line feed on the last row of the scrolling region scrolls it: every row
  of the region shows what the next one showed, the last one is blank in the
  current attribute, rows outside the region are untouched, and the cursor is at the
  start of the row it was on. *)
Theorem line_feed_scrolls s (Hw : vwf s) (Hn : next_char_send s = std_interpret_char_h)
  (Hb : ypos s = bottom_scroll s - 1) :
  exists s', char_to_virtscreen s 10 = Ok s' /\ vwf s' /\ ypos s' = ypos s /\ xpos s' = 0 /\
    (forall y x, 0 <= y < rows s -> 0 <= x < columns s ->
      cell s' y x =
        if decide (y = bottom_scroll s - 1) then Some (u16 (blank (attrib s)))
        else if decide (top_scroll s <= y < bottom_scroll s - 1) then cell s (y + 1) x else cell s y x).
Proof.
  pose proof Hw as []. assert (ypos s + 1 < 2 ^ 31) by nia. assert (safe (char_to_virtscreen s 10)) as (s' & E & Hw').
  { apply char_safe; [done|]. unfold hazard. by rewrite Hn. }
  exists s'. split; [done|]. split; [done|].
  destruct (scroll_virtscreen_run s Hw) as [Er El].
  revert E. unfold char_to_virtscreen, std_interpret_char, line_feed. rewrite Hn. cbn [ypos set_ypos bottom_scroll].
  rewrite (s32_small (ypos s + 1)) by lia. do 3 (rewrite decide_False by lia). do 3 (rewrite decide_True by lia).
  rewrite scroll_virtscreen_set_ypos, Er. cbn [cbind ypos set_ypos set_data].
  replace (ypos s + 1 - 1) with (ypos s) by lia. rewrite (s32_small (ypos s)) by lia. intros [= <-].
  assert (forall t, ypos (move_cursor t) = ypos t /\ xpos (move_cursor t) = xpos t /\ data (move_cursor t) = data t /\
    columns (move_cursor t) = columns t) as Hm.
  { intros t. unfold move_cursor. by destruct (is_active t). }
  match goal with |- context [move_cursor ?t] => destruct (Hm t) as (E1 & E2 & E3 & E4) end. simpl in *.
  split; [done|]. split; [done|]. intros y x Hy Hx. unfold cell at 1, loc. rewrite E3, E4.
  apply (rows_up_cell s); done || lia.
Qed.

(** Characters that are shown as they are. *)
Definition graphic (ch : Z) : Prop := 0 < ch < 256 /\ ch ∉ [8; 9; 10; 12; 13; 27].

(** What one graphic character does, as long as it does not reach the right margin. *)
Lemma put_graphic s ch : vwf s -> next_char_send s = std_interpret_char_h -> graphic ch -> xpos s + 1 < columns s ->
  exists s', char_to_virtscreen s ch = Ok s' /\ vwf s' /\ next_char_send s' = std_interpret_char_h /\
    xpos s' = xpos s + 1 /\ ypos s' = ypos s /\ columns s' = columns s /\ rows s' = rows s /\ attrib s' = attrib s /\
    data s' = <[Z.to_nat (loc s (ypos s) (xpos s)) := u16 (Z.lor ch (Z.shiftl (attrib s) 8))]> (data s).
Proof.
  intros Hw Hn [Hc Hnot] Hx. pose proof Hw as []. assert (safe (char_to_virtscreen s ch)) as (s' & E & Hw').
  { apply char_safe; [done|]. unfold hazard. by rewrite Hn. }
  exists s'. split; [done|]. split; [done|]. revert E. clear Hw'.
  unfold char_to_virtscreen, std_interpret_char, put_char, change_character. rewrite Hn.
  repeat (rewrite decide_False; [|first [lia|intros ->; apply Hnot; set_solver +]]).
  destruct (rows_fit s (ypos s) (xpos s) (ypos s) (xpos s) Hw); try lia.
  rewrite aset_in_range by lia. cbn [deref upd_data cbind xpos set_xpos set_data columns].
  assert (columns s < 10 ^ 9) by nia. rewrite s32_small by lia. rewrite decide_False by lia. intros [= <-].
  unfold move_cursor. by destruct (is_active _).
Qed.

(** Writing text: on a row with enough room to the right of the cursor, every
  graphic character of the string lands in its cell with the current attribute, no
  other cell changes, and the cursor moves right by the length of the string. *)
Theorem put_text s l (Hw : vwf s) (Hn : next_char_send s = std_interpret_char_h)
  (Hg : Forall graphic l) (Hl : xpos s + Z.of_nat (length l) < columns s) :
  exists s', send_chars s l = Ok s' /\ vwf s' /\ ypos s' = ypos s /\ xpos s' = xpos s + Z.of_nat (length l) /\
    (forall i ch, l !! i = Some ch ->
       cell s' (ypos s) (xpos s + Z.of_nat i) = Some (u16 (Z.lor ch (Z.shiftl (attrib s) 8)))) /\
    (forall y x, 0 <= y < rows s -> 0 <= x < columns s -> ~ (y = ypos s /\ xpos s <= x < xpos s + Z.of_nat (length l)) ->
       cell s' y x = cell s y x).
Proof.
  revert s Hw Hn Hl. induction Hg as [|c l Hc Hg IH]; intros s Hw Hn Hl; simpl length in Hl; cbn [send_chars].
  { exists s. simpl. split_and!; try done. lia. }
  destruct (put_graphic s c Hw Hn Hc) as (s1 & -> & Hw1 & Hn1 & Ex & Ey & Ec & Er & Ea & Ed); [lia|]. cbn [cbind].
  destruct (IH s1 Hw1 Hn1) as (s2 & E2 & Hw2 & Ey2 & Ex2 & Hin & Hout); [lia|]. exists s2.
  pose proof Hw as []. pose proof Hw2 as [].
  assert (forall y x, cell s1 y x = aget (data s1) (loc s y x)) as Hcell by (intros; unfold cell, loc; by rewrite Ec).
  destruct (rows_fit s (ypos s) (xpos s) (ypos s) (xpos s) Hw); try lia.
  split_and!; [done|done|congruence|simpl length; lia| |].
  - intros i ch Hi. destruct i as [|i].
    + injection Hi as ->. rewrite Z.add_0_r. rewrite Hout by lia. rewrite Hcell, Ed. apply aget_insert_eq. lia.
    + simpl in Hi. specialize (Hin i ch Hi). rewrite Ey, Ex, Ea in Hin. rewrite <- Hin. f_equal. lia.
  - intros y x Hy Hx Hne. simpl length in Hne. rewrite Hout by lia. rewrite Hcell, Ed.
    rewrite aget_insert_ne; [done|lia|]. intros [E1 E3]%loc_inj; [|lia|lia]. apply Hne. lia.
Qed.

(** Index in a scrolling region without a row: memmove is asked for nearly 4 GB. *)
Lemma index_empty_region s : 0 <= ypos s < 10 ^ 9 -> 0 < columns s < 10 ^ 9 -> Z.of_nat (length (data s)) < 10 ^ 9 ->
  top_scroll s = 0 -> bottom_scroll s = 0 -> index_down s = Fault.
Proof.
  intros Hy Hc Hl Ht Hb. unfold index_down. cbn [bottom_scroll ypos set_ypos]. rewrite s32_small, Hb by lia.
  rewrite decide_True by lia. rewrite scroll_virtscreen_set_ypos. unfold scroll_virtscreen, move_cells, loc.
  rewrite Ht, Hb. assert (u32 (2 * (0 * columns s + 0 - columns s) - 2 * (0 * columns s + 0)) = (2 ^ 31 - columns s) * 2) as ->.
  { unfold u32. symmetry. apply (Z.mod_unique_pos _ _ (-1)); lia. }
  rewrite Z.div_mul by lia. rewrite decide_False by lia. done.
Qed.

(** The state after a parameter 0 and its end. *)
Lemma read_zero s ch : next_char_send s = special_reading_ansi_h -> cur_ansi_number s = 0 ->
  char_to_virtscreen s 48 = Ok (set_ansi_reading_number 1 (set_cur_ansi_number 0 s)) /\
  (Z.of_nat (length (ansi_element s)) = MAX_ANSI_ELEMENTS -> 0 <= ansi_elements s < MAX_ANSI_ELEMENTS ->
   end_number (set_ansi_reading_number 1 (set_cur_ansi_number 0 s)) ch =
     Ok (set_cur_ansi_number 0 (set_ansi_reading_number 0 (set_ansi_elements (ansi_elements s + 1)
          (set_ansi_element (<[Z.to_nat (ansi_elements s) := 0]> (ansi_element s)) s))))).
Proof.
  intros Hn Hc. split.
  - unfold char_to_virtscreen, special_reading_ansi. rewrite Hn, Hc. rewrite decide_True by lia. done.
  - intros Hl He. unfold end_number. cbn [ansi_reading_number set_ansi_reading_number].
    rewrite decide_True by lia. cbn [ansi_elements set_cur_ansi_number set_ansi_reading_number]. rewrite decide_True by lia.
    rewrite aset_in_range by (simpl; lia). done.
Qed.

Lemma zero_region s : ansi_elements s = 2 -> aget (ansi_element s) 0 = Some 0 -> aget (ansi_element s) 1 = Some 0 ->
  0 < rows s -> control s 114 = Ok (VS (rows s) (columns s) (num_bytes s) (data s) (xpos s) (ypos s) 0 0 (attrib s)
    (old_attrib s) (old_xpos s) (old_ypos s) (cur_ansi_number s) (ansi_elements s) (ansi_reading_number s)
    (ansi_element s) (next_char_send s) (is_active s) (crtc s)).
Proof.
  intros He H0 H1 Hr. unfold control, param. rewrite He, H0, H1. repeat (rewrite decide_False by lia).
  rewrite decide_True by lia. cbn [deref cbind]. rewrite !decide_True by lia. cbn [deref cbind].
  rewrite decide_True by lia. unfold set_scroll_region. rewrite s32_small by lia. rewrite decide_True by lia.
  rewrite decide_False by lia. by rewrite He.
Qed.

(** ESC [ 0 ; 0 r followed by ESC D is fatal to the console: the engine accepts
  a scrolling region without a row, and the next index command asks memmove for
  nearly 4 GB. *)
Theorem empty_region_faults s (Hw : vwf s) (Hn : next_char_send s = std_interpret_char_h) :
  send_chars s [27; 91; 48; 59; 48; 114; 27; 68] = Fault.
Proof.
  pose proof Hw as []. assert (0 <= ypos s < 10 ^ 9 /\ 0 < columns s < 10 ^ 9) as [Hy Hc] by nia.
  cbn [send_chars]. unfold char_to_virtscreen at 1, std_interpret_char at 1. rewrite Hn.
  rewrite decide_True by lia. cbn [cbind]. unfold char_to_virtscreen at 1. cbn [next_char_send set_next_char_send].
  unfold std_interpret_ansi at 1. do 2 (rewrite decide_False by lia). rewrite decide_True by lia. cbn [cbind].
  match goal with |- cbind (char_to_virtscreen ?t 48) _ = _ => set (s1 := t) end.
  destruct (read_zero s1 59 eq_refl eq_refl) as [-> E1]. cbn [cbind].
  unfold char_to_virtscreen at 1. cbn [next_char_send set_ansi_reading_number set_cur_ansi_number].
  change (next_char_send s1) with special_reading_ansi_h. unfold special_reading_ansi at 1.
  rewrite decide_False by lia. rewrite E1 by (simpl; unfold MAX_ANSI_ELEMENTS in *; lia). cbn [cbind].
  rewrite decide_True by lia. cbn [cbind].
  match goal with |- cbind (char_to_virtscreen ?t 48) _ = _ => set (s2 := t) end.
  destruct (read_zero s2 114 eq_refl eq_refl) as [-> E2]. cbn [cbind].
  unfold char_to_virtscreen at 1. cbn [next_char_send set_ansi_reading_number set_cur_ansi_number].
  change (next_char_send s2) with special_reading_ansi_h. unfold special_reading_ansi at 1.
  rewrite decide_False by lia. rewrite E2 by (simpl; rewrite ?length_insert; unfold MAX_ANSI_ELEMENTS in *; lia). cbn [cbind].
  rewrite decide_False by lia. rewrite zero_region; [|done| | |done].
  2:{ simpl. rewrite list_insert_insert_ne by done. apply (aget_insert_eq _ 0). rewrite length_insert. unfold MAX_ANSI_ELEMENTS in *. lia. }
  2:{ simpl. apply (aget_insert_eq _ 1). rewrite length_insert. unfold MAX_ANSI_ELEMENTS in *. lia. }
  cbn [cbind]. unfold char_to_virtscreen at 1. cbn [next_char_send set_next_char_send].
  unfold std_interpret_char at 1. rewrite decide_True by lia. cbn [cbind].
  unfold char_to_virtscreen at 1. cbn [next_char_send set_next_char_send]. unfold std_interpret_ansi at 1.
  do 6 (rewrite decide_False by lia). rewrite decide_True by lia.
  rewrite index_empty_region; [done|done|done| |done|done]. simpl. lia.
Qed.


(** ** Witnesses *)

(** A screen of two rows and three columns. *)
Definition ex_blank : virtscreen :=
  VS 0 0 0 [] 0 0 0 0 0 0 0 0 0 0 0 (replicate 16 0) std_interpret_char_h true 0.
Definition ex_screen : virtscreen :=
  VS 2 3 12 [0; 1; 2; 3; 4; 5] 0 1 0 2 7 7 0 0 0 0 0 (replicate 16 0) std_interpret_char_h true 0.

Lemma ex_screen_wf : vwf ex_screen.
Proof. constructor; simpl; unfold MAX_ANSI_ELEMENTS, pnum; intros; lia. Qed.

Lemma vt100_stream_safe_witness :
  exists s, init_virtscreen ex_blank (Some [9; 9; 9; 9; 9; 9]) 2 3 = Ok (0, s) /\ vwf s /\
    (tame s [65; 27; 91; 50; 74] = true -> exists s', send_chars s [65; 27; 91; 50; 74] = Ok s' /\ vwf s').
Proof. by apply (vt100_stream_safe ex_blank [9; 9; 9; 9; 9; 9] 2 3 [65; 27; 91; 50; 74]). Defined.

Lemma line_feed_scrolls_witness :
  exists s', char_to_virtscreen ex_screen 10 = Ok s' /\ cell s' 0 1 = Some 4.
Proof.
  destruct (line_feed_scrolls ex_screen ex_screen_wf eq_refl eq_refl) as (s' & E & _ & _ & _ & H).
  exists s'. split; [done|]. rewrite (H 0 1); [reflexivity|simpl; lia|simpl; lia].
Defined.

Lemma put_text_witness : exists s', send_chars ex_screen [72; 105] = Ok s' /\ xpos s' = 2.
Proof.
  destruct (put_text ex_screen [72; 105] ex_screen_wf eq_refl) as (s' & E & _ & _ & Ex & _).
  - repeat constructor; (lia || set_solver).
  - simpl; lia.
  - exists s'. by split.
Defined.

Lemma empty_region_faults_witness : send_chars ex_screen [27; 91; 48; 59; 48; 114; 27; 68] = Fault.
Proof. apply (empty_region_faults ex_screen ex_screen_wf eq_refl). Defined.

End Vt100.
