(* ===== verification/Hash.v ===== *)
(** lib/libblt/hash.c: open-addressing hash table with double hashing.

  The table is a list of nodes; table_size is the array of twin primes of the source.
  [max_load], a float, is the fraction [ml_p]/[ml_q], and its products with the sizes
  are taken as exact (the two tables of the vfs server use 0.75, for which they are).
  malloc is taken to succeed, as the code assumes.  The loops run on fuel: the probe
  loops on the size of the table, which they never use up when a slot is free, and the
  recursion of hashtable_insert through hashtable_rebuild on a depth of three. *)
From Stdlib Require Import Zdivisibility.
From S2P Require Import Prelude.
Local Open Scope Z_scope.
Local Open Scope c_scope.

Module Hash.

Record hashnode := HN { valid : bool; dirty : bool; key : Z; dsize : Z; data : Z }.
Record hashtable := HT {
  table : list hashnode; size_index : Z; used : Z; dirty_count : Z; ml_p : Z; ml_q : Z
}.

Definition table_size : list Z :=
  [7; 19; 43; 103; 229; 463; 1021; 2083; 4219;
   8539; 17191; 34471; 69031; 138079; 276373; 552751; 1105549; 2211259;
   4422619; 8845453; 17691043; 35382091; 70764259; 141528559; 283057213;
   566115259].

(** [key] is converted to unsigned by the arithmetic with the unsigned table size. *)
Definition hash (key size : Z) : cres Z :=
  let? ts := aget table_size size in Ok (u32 key mod ts).
Definition rehash (key size : Z) : cres Z :=
  let? ts := aget table_size size in Ok (1 + u32 key mod (ts - 2)).

(** A fresh table; what malloc leaves in the other fields is not read. *)
Definition fresh_node : hashnode := HN false false 0 0 0.
Definition fresh (ts : Z) : list hashnode := replicate (Z.to_nat ts) fresh_node.

Definition hashtable_new (p q : Z) : cres hashtable :=
  let? ts := aget table_size 0 in Ok (HT (fresh ts) 0 0 0 p q).

(** The table is freed: every later access through it is a fault. *)
Definition hashtable_del (t : hashtable) : hashtable :=
  HT [] (size_index t) (used t) (dirty_count t) (ml_p t) (ml_q t).

(** [c = rehash (key, t->size_index); i -= c; if (i < 0) i += table_size[t->size_index];] *)
Definition next_slot (t : hashtable) (key i : Z) : cres Z :=
  let! c := rehash key (size_index t) in
  let i := i - c in
  let? ts := aget table_size (size_index t) in
  Ok (if decide (i < 0) then i + ts else i).

(** The do-while loop of hashtable_insert. *)
Fixpoint insert_probe (t : hashtable) (key i : Z) (fuel : nat) : cres Z :=
  match fuel with
  | O => Fault
  | S fuel =>
      let! i := next_slot t key i in
      let? n := aget (table t) i in
      if valid n && negb (dirty n) then insert_probe t key i fuel else Ok i
  end.

(** hashtable_insert after its test of the load. *)
Definition place (t : hashtable) (key data dsize : Z) : cres hashtable :=
  let! i := hash key (size_index t) in
  let? n := aget (table t) i in
  let! i := (if valid n then insert_probe t key i (S (length (table t))) else Ok i) in
  let? n := aget (table t) i in
  let used := if dirty n then used t else used t + 1 in
  let? tbl := aset (table t) i (HN true false key dsize data) in
  Ok (HT tbl (size_index t) used (dirty_count t) (ml_p t) (ml_q t)).

(** The second loop of hashtable_rebuild, with the insertion it calls. *)
Fixpoint reinsert (ins : hashtable -> Z -> Z -> Z -> cres hashtable) (t : hashtable) (old : list hashnode)
  : cres hashtable :=
  match old with
  | [] => Ok t
  | n :: old =>
      let! t := (if valid n && negb (dirty n) then ins t (key n) (data n) (dsize n) else Ok t) in
      reinsert ins t old
  end.

Definition rebuild_with (ins : hashtable -> Z -> Z -> Z -> cres hashtable) (t : hashtable) (dir : Z)
  : cres hashtable :=
  if decide (dir <> -1 /\ dir <> 0 /\ dir <> 1) then Ok t else
  let index :=
    if decide (dir = -1) then (if decide (size_index t <> 0) then size_index t - 1 else 0)
    else if decide (dir = 1) then size_index t + 1 else size_index t in
  let? ts := aget table_size index in
  reinsert ins (HT (fresh ts) index 0 0 (ml_p t) (ml_q t)) (table t).

(** [t->used > (t->max_load * table_size[t->size_index])] *)
Definition overloaded (t : hashtable) (ts : Z) : bool := bool_decide (ml_p t * ts < used t * ml_q t).

Fixpoint insert_depth (depth : nat) (t : hashtable) (key data dsize : Z) : cres hashtable :=
  match depth with
  | O => Fault
  | S depth =>
      let? ts := aget table_size (size_index t) in
      let! t := (if overloaded t ts then rebuild_with (insert_depth depth) t 1 else Ok t) in
      place t key data dsize
  end.

Definition hashtable_insert (t : hashtable) (key data dsize : Z) : cres hashtable :=
  insert_depth 3 t key data dsize.
Definition hashtable_rebuild (t : hashtable) (dir : Z) : cres hashtable := rebuild_with (insert_depth 2) t dir.

(** The loop of hashtable_lookup and hashtable_remove: the slot that holds the key. *)
Fixpoint find_slot (t : hashtable) (k i : Z) (fuel : nat) : cres (option (Z * hashnode)) :=
  match fuel with
  | O => Fault
  | S fuel =>
      let? n := aget (table t) i in
      if negb (valid n) then Ok None
      else if decide (key n = k) then
        if negb (dirty n) then Ok (Some (i, n))
        else let! i := next_slot t k i in find_slot t k i fuel
      else let! i := next_slot t k i in find_slot t k i fuel
  end.

(** The data pointer (0 for NULL) and the size stored through [dsize]. *)
Definition hashtable_lookup (t : hashtable) (k : Z) : cres (Z * Z) :=
  let! i := hash k (size_index t) in
  let! r := find_slot t k i (S (length (table t))) in
  match r with
  | Some (_, n) => Ok (data n, dsize n)
  | None => Ok (0, 0)
  end.

Definition hashtable_remove (t : hashtable) (k : Z) : cres (Z * Z * hashtable) :=
  let! i := hash k (size_index t) in
  let! r := find_slot t k i (S (length (table t))) in
  match r with
  | None => Ok (0, 0, t)
  | Some (i, n) =>
      let? tbl := aset (table t) i (HN (valid n) true (key n) (dsize n) (data n)) in
      let t := HT tbl (size_index t) (used t) (dirty_count t + 1) (ml_p t) (ml_q t) in
      let? ts := aget table_size (size_index t) in
      let! t := (if decide ((ml_q t - ml_p t) * ts < dirty_count t * ml_q t /\ size_index t <> 0)
                 then hashtable_rebuild t (-1) else Ok t) in
      Ok (data n, dsize n, t)
  end.

(** ** Probe sequences *)

(** The n-th slot of the probe sequence of a key in a table of [ts] slots. *)
Definition probe (ts k n : Z) : Z := (u32 k mod ts - n * (1 + u32 k mod (ts - 2))) mod ts.

Lemma probe_range ts k n : 0 < ts -> 0 <= probe ts k n < ts.
Proof. intros. by apply Z.mod_pos_bound. Qed.

Lemma step_range ts k : 3 <= ts -> 1 <= 1 + u32 k mod (ts - 2) <= ts - 2.
Proof. intros. pose proof (Z.mod_pos_bound (u32 k) (ts - 2)). lia. Qed.

Lemma probe_inj ts k n n' : Z.prime ts -> 3 <= ts -> 0 <= n < ts -> 0 <= n' < ts -> probe ts k n = probe ts k n' -> n = n'.
Proof.
  intros Hp H3 Hn Hn' E. unfold probe in E. set (c := 1 + u32 k mod (ts - 2)) in *. set (h := u32 k mod ts) in *.
  pose proof (step_range ts k H3) as Hc. fold c in Hc.
  assert ((ts | (n' - n) * c)) as Hd.
  { apply Z.mod_divide; [lia|]. replace ((n' - n) * c) with ((h - n * c) - (h - n' * c)) by lia.
    rewrite Zminus_mod, E, Z.sub_diag. apply Z.mod_0_l. lia. }
  apply Z.divide_prime_mul in Hd as [Hd|Hd]; [..|done].
  - apply Z.divide_abs_r in Hd. destruct (decide (n' - n = 0)) as [|Hne]; [lia|].
    apply Z.divide_pos_le in Hd; lia.
  - apply Z.divide_pos_le in Hd; lia.
Qed.

(** Every slot is on the probe sequence of every key. *)
Lemma probe_covers ts k j : Z.prime ts -> 3 <= ts -> 0 <= j < ts -> exists n, 0 <= n < ts /\ probe ts k n = j.
Proof.
  intros Hp H3 Hj. set (l := map (fun n => probe ts k (Z.of_nat n)) (seq 0 (Z.to_nat ts))).
  assert (NoDup l) as Hnd.
  { apply NoDup_fmap_2_strong; [|apply NoDup_seq]. intros x y Hx%elem_of_seq Hy%elem_of_seq E.
    apply probe_inj in E; (done || lia). }
  assert (l ⊆+ map Z.of_nat (seq 0 (Z.to_nat ts))) as Hs.
  { apply NoDup_submseteq; [done|]. intros x (n & -> & Hn)%list_elem_of_fmap.
    pose proof (probe_range ts k (Z.of_nat n)). apply list_elem_of_fmap. exists (Z.to_nat (probe ts k (Z.of_nat n))).
    rewrite elem_of_seq. lia. }
  apply submseteq_length_Permutation in Hs; [|subst l; by rewrite !length_map].
  assert (j ∈ l) as (n & -> & Hn)%list_elem_of_fmap.
  { rewrite Hs. apply list_elem_of_fmap. exists (Z.to_nat j). rewrite elem_of_seq. lia. }
  apply elem_of_seq in Hn. exists (Z.of_nat n). split; [lia|done].
Qed.

Lemma probe_0 ts k : 0 < ts -> probe ts k 0 = u32 k mod ts.
Proof. intros. unfold probe. rewrite Z.mul_0_l, Z.sub_0_r. apply Z.mod_mod. lia. Qed.

Lemma probe_succ ts k n : 3 <= ts ->
  let i := probe ts k n - (1 + u32 k mod (ts - 2)) in
  probe ts k (n + 1) = if decide (i < 0) then i + ts else i.
Proof.
  intros H3 i. pose proof (step_range ts k H3) as Hc. pose proof (probe_range ts k n ltac:(lia)) as Hr.
  assert (probe ts k (n + 1) = i mod ts) as ->.
  { unfold probe, i. unfold probe. generalize (u32 k mod ts). intros h. rewrite Zminus_mod_idemp_l. f_equal. ring. }
  case_decide.
  - rewrite <- (Z.mod_add _ 1) by lia. rewrite Z.mul_1_l. apply Z.mod_small. lia.
  - apply Z.mod_small. lia.
Qed.

(** ** The sizes are primes *)

(** Trial division by the odd numbers from [d] on. *)
Fixpoint no_divisor (p d : Z) (fuel : nat) : bool :=
  match fuel with
  | O => false
  | S fuel =>
      if p <? d * d then true
      else if p mod d =? 0 then false else no_divisor p (d + 2) fuel
  end.

Lemma no_divisor_sound p fuel : forall d, 0 < d -> no_divisor p d fuel = true ->
  forall e i, 0 <= i -> e = d + 2 * i -> e * e <= p -> ~ (e | p).
Proof.
  induction fuel as [|fuel IH]; intros d Hd H e i Hi He Hle; simpl in H; [done|].
  destruct (Z.ltb_spec p (d * d)); [nia|]. destruct (Z.eqb_spec (p mod d) 0) as [|Hm]; [done|].
  destruct (decide (i = 0)) as [->|Hne].
  - rewrite Z.add_0_r in He. subst e. intros Hdiv. apply Hm. by apply Z.mod_divide in Hdiv; [|lia].
  - apply (IH (d + 2) ltac:(lia) H e (i - 1)); lia.
Qed.

Definition odd_prime (p : Z) (fuel : nat) : bool := (1 <? p) && Z.odd p && no_divisor p 3 fuel.

Lemma odd_prime_sound p fuel : odd_prime p fuel = true -> Z.prime p.
Proof.
  unfold odd_prime. rewrite !andb_true_iff. intros [[H1%Z.ltb_lt Ho] Hn]. split; [done|].
  assert (forall e, 1 < e -> e * e <= p -> ~ (e | p)) as Hsmall.
  { intros e He Hle Hdiv. destruct (Z.Even_or_Odd e) as [[i ->]|[i ->]].
    - destruct Hdiv as [z ->]. rewrite Z.mul_assoc, Z.mul_comm, Z.mul_assoc in Ho.
      rewrite Z.odd_mul in Ho. rewrite Z.mul_comm, Z.odd_mul in Ho. simpl in Ho. by rewrite andb_false_r in Ho.
    - by apply (no_divisor_sound p fuel 3 ltac:(lia) Hn (2 * i + 1) (i - 1)); [lia|lia|..]. }
  intros n Hlt [z Hz]. destruct (Z.le_gt_cases (n * n) p) as [Hle|Hgt].
  - apply (Hsmall n); [lia|done|by exists z].
  - apply (Hsmall z); [nia|nia|]. exists n. lia.
Qed.

(** The sizes a table of fewer than 700,000 entries can have. *)
Definition max_index : Z := 19.

Lemma table_size_prime i ts : 0 <= i <= max_index -> aget table_size i = Some ts -> Z.prime ts.
Proof.
  intros Hi [_ H]%aget_Some. apply (odd_prime_sound ts 2000).
  assert (forallb (fun p => odd_prime p 2000) (take 20 table_size) = true) as Hf by (vm_compute; reflexivity).
  rewrite forallb_forall in Hf. apply Hf, list_elem_of_In. apply (list_elem_of_lookup_2 _ (Z.to_nat i)).
  unfold max_index in Hi. by rewrite lookup_take_lt by lia.
Qed.

Lemma table_size_facts i : 0 <= i <= max_index ->
  exists ts, aget table_size i = Some ts /\ Z.prime ts /\ 7 <= ts < 10 ^ 7.
Proof.
  intros Hi. destruct (aget_in_range table_size i) as [ts E]; [unfold max_index in *; simpl; lia|].
  exists ts. split; [done|]. split; [by eapply table_size_prime|].
  assert (forallb (fun p => (7 <=? p) && (p <? 10 ^ 7)) (take 20 table_size) = true) as Hf by (vm_compute; reflexivity).
  apply aget_Some in E as [_ E]. rewrite forallb_forall in Hf.
  specialize (Hf ts). rewrite andb_true_iff, Z.leb_le, Z.ltb_lt in Hf. apply Hf, list_elem_of_In.
  apply (list_elem_of_lookup_2 _ (Z.to_nat i)). unfold max_index in Hi. by rewrite lookup_take_lt by lia.
Qed.

Lemma table_size_grows i ts ts' : 0 <= i < max_index ->
  aget table_size i = Some ts -> aget table_size (i + 1) = Some ts' -> ts + 12 <= ts'.
Proof.
  unfold max_index. intros Hi [_ H]%aget_Some [_ H']%aget_Some. replace (Z.to_nat (i + 1)) with (S (Z.to_nat i)) in H' by lia.
  assert (forallb (fun n => match table_size !! n, table_size !! S n with Some a, Some b => a + 12 <=? b | _, _ => false end)
    (seq 0 19) = true) as Hf by (vm_compute; reflexivity).
  rewrite forallb_forall in Hf. specialize (Hf (Z.to_nat i)). rewrite H, H', Z.leb_le in Hf. apply Hf, list_elem_of_In, elem_of_seq. lia.
Qed.

(** ** Contents of a table *)

Definition live_node (n : hashnode) : bool := valid n && negb (dirty n).
Definition entry (n : hashnode) : Z * (Z * Z) := (key n, (data n, dsize n)).

(** The entries a table holds, and the slots that count as used. *)
Definition live (l : list hashnode) : list (Z * (Z * Z)) := entry <$> filter (fun n => live_node n) l.
Definition used_slots (l : list hashnode) : Z := Z.of_nat (length (filter (fun n => valid n) l)).

Lemma live_app l1 l2 : live (l1 ++ l2) = live l1 ++ live l2.
Proof. unfold live. by rewrite filter_app, fmap_app. Qed.

Lemma live_cons n l : live (n :: l) = (if live_node n then [entry n] else []) ++ live l.
Proof. unfold live. rewrite filter_cons. destruct (live_node n); [by rewrite decide_True|rewrite decide_False; [done|by intros []]]. Qed.

Lemma used_app l1 l2 : used_slots (l1 ++ l2) = used_slots l1 + used_slots l2.
Proof. unfold used_slots. rewrite filter_app, length_app. lia. Qed.

Lemma used_cons n l : used_slots (n :: l) = (if valid n then 1 else 0) + used_slots l.
Proof. unfold used_slots. rewrite filter_cons. destruct (valid n); [rewrite decide_True by done; simpl; lia|rewrite decide_False by auto; lia]. Qed.

Lemma used_nonneg l : 0 <= used_slots l.
Proof. unfold used_slots. lia. Qed.

Lemma live_fresh ts : live (fresh ts) = [] /\ used_slots (fresh ts) = 0.
Proof.
  unfold fresh. induction (Z.to_nat ts) as [|n [IH1 IH2]]; [done|]. simpl replicate. by rewrite live_cons, used_cons, IH1, IH2.
Qed.

(** Fewer entries than used slots; a free slot when not all are used. *)
Lemma live_le_used l : Z.of_nat (length (live l)) <= used_slots l.
Proof.
  induction l as [|n l IH]; [done|]. rewrite live_cons, used_cons, length_app.
  unfold live_node. destruct (valid n), (dirty n); simpl; lia.
Qed.

Lemma free_slot l : used_slots l < Z.of_nat (length l) -> exists j n, l !! j = Some n /\ valid n = false.
Proof.
  induction l as [|n l IH]; rewrite ?used_cons; simpl length; [done|]. intros H.
  destruct (valid n) eqn:E; [|by exists 0%nat, n]. destruct IH as (j & n' & Hj & Hn); [lia|]. by exists (S j), n'.
Qed.

(** The effect of overwriting a slot. *)
Lemma split_slot (l : list hashnode) j n n' : l !! j = Some n ->
  exists l1 l2, l = l1 ++ n :: l2 /\ <[j := n']> l = l1 ++ n' :: l2 /\ length l1 = j.
Proof.
  intros H. pose proof (lookup_lt_Some _ _ _ H). exists (take j l), (drop (S j) l).
  split; [by rewrite take_drop_middle|]. split; [by apply insert_take_drop|]. rewrite length_take. lia.
Qed.

Lemma live_set l j n n' : l !! j = Some n -> live_node n = false ->
  live (<[j := n']> l) ≡ₚ (if live_node n' then [entry n'] else []) ++ live l.
Proof.
  intros (l1 & l2 & -> & -> & _)%(split_slot _ _ _ n') Hn. rewrite !live_app, !live_cons, Hn. simpl.
  destruct (live_node n'); simpl; [|done]. by rewrite Permutation_middle.
Qed.

Lemma live_kill l j n n' : l !! j = Some n -> live_node n = true -> live_node n' = false ->
  live l ≡ₚ entry n :: live (<[j := n']> l).
Proof.
  intros (l1 & l2 & -> & -> & _)%(split_slot _ _ _ n') Hn Hn'. rewrite !live_app, !live_cons, Hn, Hn'. simpl.
  by rewrite Permutation_middle.
Qed.

Lemma used_set l j n n' : l !! j = Some n ->
  used_slots (<[j := n']> l) = used_slots l - (if valid n then 1 else 0) + (if valid n' then 1 else 0).
Proof.
  intros (l1 & l2 & -> & -> & _)%(split_slot _ _ _ n'). rewrite !used_app, !used_cons. lia.
Qed.

Lemma live_elem l j n : l !! j = Some n -> live_node n = true -> entry n ∈ live l.
Proof.
  intros Hj Hn. unfold live. apply list_elem_of_fmap. exists n. split; [done|]. apply list_elem_of_filter.
  split; [by rewrite Hn|]. by eapply list_elem_of_lookup_2.
Qed.

Lemma live_elem_inv l e : e ∈ live l -> exists j n, l !! j = Some n /\ live_node n = true /\ entry n = e.
Proof.
  unfold live. intros (n & -> & [Hn [j Hj]%list_elem_of_lookup]%list_elem_of_filter)%list_elem_of_fmap.
  exists j, n. split; [done|]. split; [by destruct (live_node n)|done].
Qed.

(** A key with one entry is in one slot. *)
Lemma live_unique l i j n n' : NoDup (live l).*1 -> l !! i = Some n -> l !! j = Some n' ->
  live_node n = true -> live_node n' = true -> key n = key n' -> i = j.
Proof.
  intros Hnd Hi Hj Hn Hn' E. destruct (decide (i = j)) as [|Hne]; [done|]. exfalso.
  pose proof (live_kill l i n (HN false false 0 0 0) Hi Hn eq_refl) as Hp.
  assert (entry n' ∈ live (<[i := HN false false 0 0 0]> l)) as Hin.
  { eapply live_elem; [|done]. by rewrite list_lookup_insert_ne. }
  rewrite Hp in Hnd. simpl in Hnd. apply NoDup_cons in Hnd as [Hx _]. apply Hx. rewrite E.
  change (key n') with (entry n').1. by apply list_elem_of_fmap_2.
Qed.

(** ** The invariant *)

Definition valid_at (l : list hashnode) (i : Z) : Prop := exists n, aget l i = Some n /\ valid n = true.

(** An entry is reached by the probe sequence of its key through used slots only. *)
Definition reachable (ts : Z) (l : list hashnode) : Prop :=
  forall j n, l !! j = Some n -> live_node n = true ->
  exists m, 0 <= m < ts /\ probe ts (key n) m = Z.of_nat j /\
    forall m', 0 <= m' < m -> valid_at l (probe ts (key n) m').

(** The table proper: [ts] slots of a prime table, one of them free. *)
Record tbl_wf (ts : Z) (l : list hashnode) : Prop := {
  tw_prime : Z.prime ts;
  tw_ts : 7 <= ts;
  tw_len : Z.of_nat (length l) = ts;
  tw_free : used_slots l < ts;
  tw_dirty : forall j n, l !! j = Some n -> valid n = false -> dirty n = false;
  tw_keys : NoDup (live l).*1;
  tw_reach : reachable ts l
}.

Record ht_wf (ts : Z) (t : hashtable) : Prop := {
  hw_idx : 0 <= size_index t <= max_index;
  hw_ts : aget table_size (size_index t) = Some ts;
  hw_ml : 0 < ml_q t /\ ml_q t <= 12 * ml_p t /\ 7 * ml_p t < 6 * ml_q t;
  hw_used : used t = used_slots (table t);
  hw_load : used t * ml_q t <= ml_p t * ts + ml_q t;
  hw_tbl : tbl_wf ts (table t)
}.

(** What the table maps its keys to: data pointer and size. *)
Definition contents (l : list hashnode) : gmap Z (Z * Z) := list_to_map (live l).

Lemma tbl_wf_fresh ts : Z.prime ts -> 7 <= ts -> tbl_wf ts (fresh ts).
Proof.
  intros Hp H7. destruct (live_fresh ts) as [El Eu]. constructor; try done.
  - unfold fresh. rewrite length_replicate. lia.
  - rewrite Eu. lia.
  - intros j n [-> _]%lookup_replicate. done.
  - rewrite El. constructor.
  - intros j n [-> _]%lookup_replicate. done.
Qed.

(** The least number with a property. *)
Lemma least (P : Z -> Prop) `{forall n, Decision (P n)} n : 0 <= n -> P n ->
  exists m, 0 <= m <= n /\ P m /\ forall m', 0 <= m' < m -> ~ P m'.
Proof.
  intros Hn. assert (forall k, (k <= Z.to_nat n)%nat -> P (Z.of_nat k) -> exists m, 0 <= m <= n /\ P m /\ forall m', 0 <= m' < m -> ~ P m') as Hk.
  { induction k as [k IH] using lt_wf_ind. intros Hle HP.
    destruct (decide (Exists (fun i => P (Z.of_nat i)) (seq 0 k))) as [(i & Hi%elem_of_seq & HPi)%Exists_exists|Hno].
    - apply (IH i); [lia|lia|done].
    - exists (Z.of_nat k). split; [lia|]. split; [done|]. intros m' Hm' HP'. apply Hno, Exists_exists. exists (Z.to_nat m').
      rewrite elem_of_seq, Z2Nat.id by lia. split; [lia|done]. }
  intros HP. apply (Hk (Z.to_nat n)); [done|]. by rewrite Z2Nat.id.
Qed.

(** A property of the slots, decided through the table. *)
Definition slot_is (f : hashnode -> bool) (l : list hashnode) (i : Z) : Prop :=
  match aget l i with Some n => f n = true | None => False end.
#[local] Instance slot_is_dec f l i : Decision (slot_is f l i).
Proof. unfold slot_is. destruct (aget l i); apply _. Defined.

Section table.
Context (t : hashtable) (ts : Z) (Hts : aget table_size (size_index t) = Some ts) (Hw : tbl_wf ts (table t)).

Lemma hash_probe k : hash k (size_index t) = Ok (probe ts k 0).
Proof. unfold hash. rewrite Hts. simpl. by rewrite probe_0 by (destruct Hw; lia). Qed.

Lemma next_probe k n : next_slot t k (probe ts k n) = Ok (probe ts k (n + 1)).
Proof.
  unfold next_slot, rehash. rewrite Hts. cbn [deref cbind]. by rewrite probe_succ by (destruct Hw; lia).
Qed.

Lemma slot_at k n : exists nd, aget (table t) (probe ts k n) = Some nd.
Proof. apply aget_in_range. destruct Hw. rewrite tw_len0. apply probe_range. lia. Qed.

(** A free slot on the probe sequence. *)
Lemma probe_free k : exists n, 0 <= n < ts /\ slot_is (fun nd => negb (valid nd)) (table t) (probe ts k n).
Proof.
  pose proof Hw as []. destruct (free_slot (table t)) as (j & nd & Hj & Hnd); [lia|].
  destruct (probe_covers ts k (Z.of_nat j)) as (n & Hn & En); [done|lia|apply lookup_lt_Some in Hj; lia|].
  exists n. split; [done|]. unfold slot_is, aget. rewrite En, decide_True, Nat2Z.id, Hj by lia. by rewrite Hnd.
Qed.

(** The search stops at the first slot that is free or holds the key. *)
Lemma find_slot_run k n nd : aget (table t) (probe ts k n) = Some nd ->
  (forall n', 0 <= n' < n -> slot_is (fun x => valid x && negb (live_node x && bool_decide (key x = k))) (table t) (probe ts k n')) ->
  forall n0 fuel, 0 <= n0 <= n -> n - n0 < Z.of_nat fuel ->
  negb (valid nd) || live_node nd && bool_decide (key nd = k) = true ->
  find_slot t k (probe ts k n0) fuel = Ok (if valid nd then Some (probe ts k n, nd) else None).
Proof.
  intros Hn Hbefore n0 fuel. revert n0. induction fuel as [|fuel IH]; intros n0 Hn0 Hf Hstop; [lia|].
  cbn [find_slot]. destruct (decide (n0 = n)) as [->|Hne].
  - rewrite Hn. cbn [deref cbind]. unfold live_node in Hstop. destruct (valid nd); [|done]. simpl in *.
    apply andb_true_iff in Hstop as [Hd Hk]. apply bool_decide_eq_true in Hk. by rewrite decide_True, Hd.
  - specialize (Hbefore n0 ltac:(lia)). unfold slot_is in Hbefore. destruct (aget (table t) (probe ts k n0)) as [x|]; [|done].
    cbn [deref cbind]. unfold live_node in Hbefore. apply andb_true_iff in Hbefore as [Hv Hx]. rewrite Hv in *. simpl in *.
    assert (find_slot t k (probe ts k (n0 + 1)) fuel = Ok (if valid nd then Some (probe ts k n, nd) else None)) as Hrest by (apply IH; done || lia).
    rewrite next_probe. cbn [cbind]. destruct (decide (key x = k)) as [Hk|]; [|exact Hrest].
    rewrite bool_decide_true in Hx by done. rewrite andb_true_r in Hx. apply negb_true_iff in Hx. rewrite Hx. exact Hrest.
Qed.

(** The result of the search, by the contents of the table. *)
Lemma find_slot_ok k :
  match contents (table t) !! k with
  | Some v => exists i n, find_slot t k (probe ts k 0) (S (length (table t))) = Ok (Some (i, n)) /\
      aget (table t) i = Some n /\ live_node n = true /\ entry n = (k, v)
  | None => find_slot t k (probe ts k 0) (S (length (table t))) = Ok None
  end.
Proof.
  pose proof Hw as []. destruct (contents (table t) !! k) as [v|] eqn:E.
  - apply elem_of_list_to_map_2 in E. apply live_elem_inv in E as (j & n & Hj & Hn & En).
    destruct (tw_reach0 j n Hj Hn) as (m & Hm & Em & Hbefore). injection En as Ek Ev. rewrite Ek in *.
    assert (aget (table t) (probe ts k m) = Some n) as Hg by (unfold aget; rewrite Em, decide_True, Nat2Z.id by lia; done).
    exists (probe ts k m), n. split; [|split; [done|split; [done|unfold entry; congruence]]].
    rewrite (find_slot_run k m n Hg); [by unfold live_node in Hn; destruct (valid n)| |lia|lia|].
    2:{ by rewrite Hn, bool_decide_true, orb_true_r. }
    intros n' Hn'. destruct (Hbefore n' Hn') as (x & Hx & Hv). unfold slot_is. rewrite Hx, Hv. simpl.
    apply negb_true_iff, not_true_is_false. intros [Hl Hk%bool_decide_eq_true]%andb_true_iff.
    apply aget_Some in Hx as [_ Hx]. pose proof (live_unique _ _ _ _ _ tw_keys0 Hx Hj Hl Hn ltac:(congruence)) as Eij.
    pose proof (probe_range ts k n'). assert (probe ts k n' = probe ts k m) as Einj%probe_inj by lia; (done || lia).
  - apply not_elem_of_list_to_map_2 in E.
    destruct (probe_free k) as (n & Hn & Hfree).
    destruct (least (fun m => slot_is (fun nd => negb (valid nd)) (table t) (probe ts k m)) n) as (m & Hm & Hs & Hmin); [lia|done|].
    destruct (slot_at k m) as [nd Hnd]. unfold slot_is in Hs. rewrite Hnd in Hs.
    rewrite (find_slot_run k m nd); try done; try lia.
    + by apply negb_true_iff in Hs as ->.
    + intros n' Hn'. specialize (Hmin n' Hn'). destruct (slot_at k n') as [x Hx]. unfold slot_is in *. rewrite Hx in *.
      destruct (valid x) eqn:Hv; [|by exfalso; apply Hmin]. simpl. apply negb_true_iff, not_true_is_false.
      intros [Hl Hk%bool_decide_eq_true]%andb_true_iff. apply E. rewrite <- Hk.
      change (key x) with (entry x).1. apply list_elem_of_fmap_2. apply aget_Some in Hx as [_ Hx]. by eapply live_elem.
    + by rewrite Hs.
Qed.

(** The do-while loop stops at the first later slot that is free or deleted. *)
Lemma insert_probe_run k n : ~ slot_is live_node (table t) (probe ts k n) ->
  forall n0 fuel, 0 <= n0 < n -> n - n0 <= Z.of_nat fuel ->
  (forall n', n0 < n' < n -> slot_is live_node (table t) (probe ts k n')) ->
  insert_probe t k (probe ts k n0) fuel = Ok (probe ts k n).
Proof.
  intros Hn n0 fuel. revert n0. induction fuel as [|fuel IH]; intros n0 Hn0 Hf Hlive; [lia|].
  cbn [insert_probe]. rewrite next_probe. cbn [cbind]. destruct (slot_at k (n0 + 1)) as [x Hx]. rewrite Hx. cbn [deref cbind].
  change (valid x && negb (dirty x)) with (live_node x). destruct (decide (n0 + 1 = n)) as [<-|Hne].
  - unfold slot_is in Hn. rewrite Hx in Hn. by destruct (live_node x).
  - specialize (Hlive (n0 + 1) ltac:(lia)) as Hl. unfold slot_is in Hl. rewrite Hx in Hl. rewrite Hl.
    apply IH; [lia|lia|]. intros n' Hn'. apply Hlive. lia.
Qed.

(** Where hashtable_insert puts a key: a slot that is not live, reached through used slots. *)
Lemma place_slot k : exists n nd, 0 <= n < ts /\ aget (table t) (probe ts k n) = Some nd /\ live_node nd = false /\
  (forall n', 0 <= n' < n -> valid_at (table t) (probe ts k n')) /\
  (let! i := hash k (size_index t) in let? x := aget (table t) i in
   if valid x then insert_probe t k i (S (length (table t))) else Ok i) = Ok (probe ts k n).
Proof.
  pose proof Hw as []. rewrite hash_probe. cbn [cbind]. destruct (slot_at k 0) as [x Hx]. rewrite Hx. cbn [deref cbind].
  destruct (valid x) eqn:Hv.
  2:{ exists 0, x. split_and!; [lia|lia|done|by unfold live_node; rewrite Hv|lia|done]. }
  destruct (probe_free k) as (f & Hf & Hfree).
  destruct (decide (f = 0)) as [->|Hf0]; [by unfold slot_is in Hfree; rewrite Hx, Hv in Hfree|].
  destruct (least (fun m => 0 < m /\ slot_is (fun nd => negb (live_node nd)) (table t) (probe ts k m)) f) as (n & Hn & [Hpos Hs] & Hmin); [lia| |].
  { split; [lia|]. unfold slot_is in *. destruct (aget (table t) (probe ts k f)) as [y|]; [|done]. unfold live_node.
    by destruct (valid y). }
  destruct (slot_at k n) as [nd Hnd]. unfold slot_is in Hs. rewrite Hnd in Hs. apply negb_true_iff in Hs.
  assert (forall n', 0 < n' < n -> slot_is live_node (table t) (probe ts k n')) as Hlive.
  { intros n' Hn'. specialize (Hmin n' ltac:(lia)). destruct (slot_at k n') as [y Hy]. unfold slot_is in *. rewrite Hy in *.
    destruct (live_node y); [done|]. exfalso. apply Hmin. split; [lia|done]. }
  exists n, nd. split_and!; [lia|lia|done|done| |].
  - intros n' Hn'. destruct (decide (n' = 0)) as [->|]; [by exists x|]. specialize (Hlive n' ltac:(lia)).
    unfold slot_is in Hlive. destruct (aget (table t) (probe ts k n')) as [y|] eqn:Hy; [|done]. exists y. split; [done|].
    unfold live_node in Hlive. by destruct (valid y).
  - apply insert_probe_run; [|lia|lia|done]. unfold slot_is. rewrite Hnd. by rewrite Hs.
Qed.

Lemma place_ok k d sz : used t = used_slots (table t) -> used t + 1 < ts -> contents (table t) !! k = None ->
  exists t', place t k d sz = Ok t' /\ tbl_wf ts (table t') /\ used t' = used_slots (table t') /\ used t' <= used t + 1 /\
    size_index t' = size_index t /\ ml_p t' = ml_p t /\ ml_q t' = ml_q t /\ dirty_count t' = dirty_count t /\
    contents (table t') = <[k := (d, sz)]> (contents (table t)).
Proof.
  intros Hu Hroom Hk. pose proof Hw as []. destruct (place_slot k) as (n & nd & Hn & Hnd & Hl & Hbefore & Hrun).
  pose proof (probe_range ts k n ltac:(lia)) as Hpr. pose proof Hnd as [_ Hj]%aget_Some.
  set (new := HN true false k sz d). set (j := Z.to_nat (probe ts k n)) in *.
  assert (place t k d sz = Ok (HT (<[j := new]> (table t)) (size_index t) (if dirty nd then used t else used t + 1)
    (dirty_count t) (ml_p t) (ml_q t))) as ->.
  { unfold place. revert Hrun. destruct (hash k (size_index t)) as [i| |]; simpl; [|done..].
    destruct (aget (table t) i) as [x|]; simpl; [|done]. intros ->. simpl. rewrite Hnd. simpl.
    rewrite aset_in_range by lia. done. }
  assert (forall i, valid_at (table t) i -> valid_at (<[j := new]> (table t)) i) as Hkeep.
  { intros i (x & Hx & Hv). destruct (decide (probe ts k n = i)) as [<-|Hne].
    - exists new. split; [|done]. apply aget_insert_eq. lia.
    - exists x. split; [|done]. unfold j. by rewrite aget_insert_ne by lia. }
  assert ((if dirty nd then used t else used t + 1) = used_slots (<[j := new]> (table t))) as Eu.
  { rewrite (used_set _ _ _ _ Hj), Hu. simpl. unfold live_node in Hl. destruct (valid nd) eqn:Hv; simpl in Hl.
    - apply negb_false_iff in Hl. rewrite Hl. lia.
    - rewrite (tw_dirty0 _ _ Hj Hv). lia. }
  eexists. split; [done|]. cbn [table used size_index ml_p ml_q dirty_count].
  assert (live (<[j := new]> (table t)) ≡ₚ (k, (d, sz)) :: live (table t)) as Hp by (by rewrite (live_set _ _ _ _ Hj Hl)).
  assert (NoDup (k :: (live (table t)).*1)) as Hnd'.
  { apply NoDup_cons. split; [|done]. by apply not_elem_of_list_to_map_2. }
  split_and!; try done.
  - constructor; try done.
    + by rewrite length_insert.
    + rewrite <- Eu. destruct (dirty nd); lia.
    + intros i x Hx Hv. destruct (decide (j = i)) as [<-|Hne].
      * rewrite list_lookup_insert_eq in Hx by (apply lookup_lt_Some in Hj; done). by injection Hx as <-.
      * rewrite list_lookup_insert_ne in Hx by done. by eapply tw_dirty0.
    + by rewrite Hp.
    + intros i x Hx Hlx. destruct (decide (j = i)) as [<-|Hne].
      * rewrite list_lookup_insert_eq in Hx by (apply lookup_lt_Some in Hj; done). injection Hx as <-. simpl.
        exists n. split; [done|]. split; [subst j; lia|]. intros m Hm. by apply Hkeep, Hbefore.
      * rewrite list_lookup_insert_ne in Hx by done. destruct (tw_reach0 i x Hx Hlx) as (m & Hm & Em & Hv).
        exists m. split; [done|]. split; [done|]. intros m' Hm'. by apply Hkeep, Hv.
  - destruct (dirty nd); lia.
  - unfold contents. rewrite (list_to_map_proper (live (<[j := new]> (table t))) ((k, (d, sz)) :: live (table t)));
      [done|by rewrite Hp|done].
Qed.
End table.

(** ** Insertion and rebuilding *)

(** What an insertion into [t] does, with the size it leaves. *)
Definition inserted (t : hashtable) (k d sz : Z) (t' : hashtable) : Prop :=
  contents (table t') = <[k := (d, sz)]> (contents (table t)) /\ used t' <= used t + 1 /\
  ml_p t' = ml_p t /\ ml_q t' = ml_q t.

Lemma place_wf ts t k d sz : ht_wf ts t -> used t * ml_q t <= ml_p t * ts -> contents (table t) !! k = None ->
  exists t', place t k d sz = Ok t' /\ ht_wf ts t' /\ inserted t k d sz t' /\ size_index t' = size_index t.
Proof.
  intros [] Hload Hk. assert (used t + 1 < ts) by (pose proof (tw_ts _ _ hw_tbl0); nia).
  destruct (place_ok t ts hw_ts0 hw_tbl0 k d sz) as (t' & E & Hw' & Hu & Hle & Ei & Ep & Eq & _ & Ec); try done.
  exists t'. split; [done|]. split; [|by split_and!]. constructor; rewrite ?Ei, ?Ep, ?Eq; try done. nia.
Qed.

(** The loop of hashtable_rebuild, for any insertion that keeps [P] while fewer than
  [L] slots are used. *)
Lemma reinsert_ok (ins : hashtable -> Z -> Z -> Z -> cres hashtable) (P : hashtable -> Prop) L :
  (forall t k d sz, P t -> contents (table t) !! k = None -> used t < L ->
     exists t', ins t k d sz = Ok t' /\ P t' /\ inserted t k d sz t') ->
  forall old t, P t -> NoDup (live old).*1 -> (forall k, k ∈ (live old).*1 -> contents (table t) !! k = None) ->
  used t + Z.of_nat (length (live old)) <= L ->
  exists t', reinsert ins t old = Ok t' /\ P t' /\ used t' <= used t + Z.of_nat (length (live old)) /\
    ml_p t' = ml_p t /\ ml_q t' = ml_q t /\ contents (table t') = contents old ∪ contents (table t).
Proof.
  intros Hins old. unfold contents at 3. induction old as [|n old IH]; intros t HP Hnd Hdis HL; simpl.
  { exists t. split_and!; try done; try lia. by rewrite (left_id_L ∅ (∪)). }
  rewrite live_cons in *. change (valid n && negb (dirty n)) with (live_node n). destruct (live_node n); simpl in *.
  - destruct (Hins t (key n) (data n) (dsize n)) as (t1 & -> & HP1 & Ec & Hle & Ep & Eq); [done|apply Hdis, list_elem_of_here|lia|].
    apply NoDup_cons in Hnd as [Hnot Hnd]. cbn [cbind].
    destruct (IH t1) as (t2 & -> & HP2 & Hle2 & Ep2 & Eq2 & Ec2); [done|done| |lia|].
    { intros k Hk. rewrite Ec, lookup_insert_ne by (intros <-; done). by apply Hdis, list_elem_of_further. }
    exists t2. split_and!; try done; try lia; try congruence. rewrite Ec2, Ec.
    rewrite <- insert_union_r, insert_union_l; [done|]. by apply not_elem_of_list_to_map_1.
  - apply IH; try done; lia.
Qed.

(** A rebuilt table: same contents, no more used slots than entries. *)
Definition rebuilt (t t' : hashtable) : Prop :=
  contents (table t') = contents (table t) /\ used t' <= Z.of_nat (length (live (table t))) /\
  ml_p t' = ml_p t /\ ml_q t' = ml_q t.

Lemma rebuild_ok ins t dir index ts (P : hashtable -> Prop) :
  dir = -1 /\ index = size_index t - 1 /\ size_index t <> 0 \/ dir = 1 /\ index = size_index t + 1 ->
  aget table_size index = Some ts -> NoDup (live (table t)).*1 ->
  P (HT (fresh ts) index 0 0 (ml_p t) (ml_q t)) ->
  (forall t0 k d sz, P t0 -> contents (table t0) !! k = None -> used t0 < Z.of_nat (length (live (table t))) ->
     exists t', ins t0 k d sz = Ok t' /\ P t' /\ inserted t0 k d sz t') ->
  exists t', rebuild_with ins t dir = Ok t' /\ P t' /\ rebuilt t t'.
Proof.
  intros Hdir Hts Hnd HP Hins. unfold rebuild_with. rewrite decide_False by lia.
  assert ((if decide (dir = -1) then if decide (size_index t <> 0) then size_index t - 1 else 0
    else if decide (dir = 1) then size_index t + 1 else size_index t) = index) as -> by (repeat case_decide; lia).
  rewrite Hts. cbn [deref cbind]. destruct (live_fresh ts) as [El _].
  destruct (reinsert_ok ins P _ Hins (table t) (HT (fresh ts) index 0 0 (ml_p t) (ml_q t))) as (t' & E & HP' & Hle & Ep & Eq & Ec);
    simpl in *; [done|done| |lia|].
  { intros k _. unfold contents. by rewrite El. }
  exists t'. split; [done|]. split; [done|]. split_and!; try done. rewrite Ec. unfold contents at 2. rewrite El.
  apply (right_id_L ∅ (∪)).
Qed.

Lemma ht_wf_fresh ts i p q : 0 <= i <= max_index -> aget table_size i = Some ts ->
  0 < q /\ q <= 12 * p /\ 7 * p < 6 * q -> ht_wf ts (HT (fresh ts) i 0 0 p q).
Proof.
  intros Hi Hts Hml. destruct (table_size_facts i Hi) as (ts' & E & Hp & H7). assert (ts' = ts) as -> by congruence.
  destruct (live_fresh ts) as [_ Eu]. constructor; simpl; try done; [nia|]. apply tbl_wf_fresh; [done|lia].
Qed.

Lemma not_overloaded t ts : overloaded t ts = false <-> used t * ml_q t <= ml_p t * ts.
Proof. unfold overloaded. rewrite bool_decide_eq_false. lia. Qed.

Lemma insert_depth_S depth t k d sz :
  insert_depth (S depth) t k d sz =
    let? ts := aget table_size (size_index t) in
    let! t := (if overloaded t ts then rebuild_with (insert_depth depth) t 1 else Ok t) in
    place t k d sz.
Proof. done. Qed.

(** Insertion that need not grow the table. *)
Lemma insert_nogrow depth ts t k d sz : ht_wf ts t -> used t * ml_q t <= ml_p t * ts -> contents (table t) !! k = None ->
  exists t', insert_depth (S depth) t k d sz = Ok t' /\ ht_wf ts t' /\ inserted t k d sz t' /\ size_index t' = size_index t.
Proof.
  intros Hw Hload Hk. rewrite insert_depth_S, (hw_ts _ _ Hw). cbn [deref cbind].
  rewrite (proj2 (not_overloaded t ts)) by done. cbn [cbind]. by apply place_wf.
Qed.

Lemma rebuild_grow depth ts t : ht_wf ts t -> size_index t < max_index ->
  exists ts' t', rebuild_with (insert_depth (S depth)) t 1 = Ok t' /\ ht_wf ts' t' /\ rebuilt t t' /\
    size_index t' = size_index t + 1 /\ used t' * ml_q t' <= ml_p t' * ts'.
Proof.
  intros Hw Hi. pose proof Hw as []. destruct (table_size_facts (size_index t + 1)) as (ts' & E & Hp & H7); [lia|].
  pose proof (table_size_grows (size_index t) ts ts' ltac:(lia) hw_ts0 E) as Hgrow.
  pose proof (live_le_used (table t)) as Hlu. exists ts'.
  destruct (rebuild_ok (insert_depth (S depth)) t 1 (size_index t + 1) ts'
    (fun t0 => ht_wf ts' t0 /\ size_index t0 = size_index t + 1 /\ ml_p t0 = ml_p t /\ ml_q t0 = ml_q t))
    as (t' & -> & (Hw' & Ei & Ep & Eq) & Hr); [lia|done|by destruct hw_tbl0| | |].
  - split_and!; try done. by apply ht_wf_fresh; [lia|..].
  - intros t0 k d sz (Hw0 & Ei & Ep & Eq) Hk Hlt.
    destruct (insert_nogrow depth ts' t0 k d sz) as (t1 & E1 & Hw1 & Hins & Ei1); [done| |done|].
    { rewrite Ep, Eq. nia. }
    exists t1. split; [done|]. split; [|done]. destruct Hins as (_ & _ & Ep1 & Eq1). split_and!; congruence || done.
  - exists t'. split_and!; try done. destruct Hr as (_ & Hle & _ & _). rewrite Ep, Eq. nia.
Qed.

Lemma insert_ok depth ts t k d sz : ht_wf ts t -> used t * ml_q t <= ml_p t * ts \/ size_index t < max_index ->
  contents (table t) !! k = None ->
  exists ts' t', insert_depth (S (S depth)) t k d sz = Ok t' /\ ht_wf ts' t' /\ inserted t k d sz t' /\
    (size_index t' = size_index t \/ size_index t' = size_index t + 1 /\ ml_p t * ts < used t * ml_q t).
Proof.
  intros Hw Hroom Hk. destruct (overloaded t ts) eqn:Ho.
  - assert (ml_p t * ts < used t * ml_q t) as Hov by (unfold overloaded in Ho; by apply bool_decide_eq_true in Ho).
    destruct (rebuild_grow depth ts t Hw) as (ts' & t1 & E1 & Hw1 & (Ec & Hu & Ep & Eq) & Ei & Hl); [lia|].
    destruct (place_wf ts' t1 k d sz) as (t2 & E2 & Hw2 & (Ec2 & Hu2 & Ep2 & Eq2) & Ei2); [done|done|by rewrite Ec|].
    exists ts', t2. pose proof (live_le_used (table t)). pose proof (hw_used _ _ Hw).
    split; [|split; [done|split; [|right; lia]]].
    + rewrite insert_depth_S, (hw_ts _ _ Hw). cbn [deref cbind]. rewrite Ho, E1. cbn [cbind]. done.
    + split_and!; [congruence|lia|congruence|congruence].
  - apply not_overloaded in Ho. destruct (insert_nogrow (S depth) ts t k d sz Hw Ho Hk) as (t' & E & Hw' & Hi & Ei).
    exists ts, t'. split_and!; try done. by left.
Qed.

(** ** Lookup and removal *)

(** The value of a key: NULL and 0 when it is absent. *)
Definition value (m : gmap Z (Z * Z)) (k : Z) : Z * Z := default (0, 0) (m !! k).

Lemma lookup_ok ts t k : ht_wf ts t -> hashtable_lookup t k = Ok (value (contents (table t)) k).
Proof.
  intros []. unfold hashtable_lookup, value. rewrite (hash_probe t ts) by done. cbn [cbind].
  pose proof (find_slot_ok t ts hw_ts0 hw_tbl0 k) as H. destruct (contents (table t) !! k) as [v|].
  - destruct H as (i & n & -> & _ & _ & E). injection E as _ <-. done.
  - by rewrite H.
Qed.

(** Marking an entry deleted. *)
Lemma kill_wf ts t j n : ht_wf ts t -> table t !! j = Some n -> live_node n = true ->
  let tbl := <[j := HN (valid n) true (key n) (dsize n) (data n)]> (table t) in
  tbl_wf ts tbl /\ used_slots tbl = used_slots (table t) /\ contents tbl = delete (key n) (contents (table t)) /\
  Z.of_nat (length (live tbl)) + 1 <= used_slots (table t).
Proof.
  intros [] Hj Hn tbl. pose proof hw_tbl0 as []. set (dead := HN (valid n) true (key n) (dsize n) (data n)) in *.
  assert (valid n = true) as Hv by (unfold live_node in Hn; by destruct (valid n)).
  assert (live_node dead = false) as Hdead by (unfold live_node; simpl; by rewrite andb_false_r).
  pose proof (live_kill _ _ _ dead Hj Hn Hdead) as Hp. fold tbl in Hp.
  assert (used_slots tbl = used_slots (table t)) as Eu by (unfold tbl; rewrite (used_set _ _ _ _ Hj); simpl; lia).
  pose proof tw_keys0 as Hnd. rewrite Hp in Hnd. simpl in Hnd. apply NoDup_cons in Hnd as [Hnot Hnd].
  pose proof (lookup_lt_Some _ _ _ Hj) as Hlen.
  assert (forall i, valid_at (table t) i -> valid_at tbl i) as Hkeep.
  { intros i (x & Hx & Hvx). destruct (decide (i = Z.of_nat j)) as [->|Hne].
    - exists dead. split; [|done]. unfold aget, tbl. rewrite decide_True, Nat2Z.id by lia. by apply list_lookup_insert_eq.
    - exists x. split; [|done]. unfold aget, tbl in *. case_decide; [|done]. rewrite list_lookup_insert_ne; [done|lia]. }
  split_and!; [|done| |].
  - constructor; try done.
    + unfold tbl. by rewrite length_insert.
    + lia.
    + intros i x Hx Hvx. destruct (decide (j = i)) as [<-|Hne].
      * unfold tbl in Hx. rewrite list_lookup_insert_eq in Hx by done. injection Hx as <-. simpl in Hvx. congruence.
      * unfold tbl in Hx. rewrite list_lookup_insert_ne in Hx by done. by eapply tw_dirty0.
    + intros i x Hx Hlx. destruct (decide (j = i)) as [<-|Hne].
      * unfold tbl in Hx. rewrite list_lookup_insert_eq in Hx by done. injection Hx as <-. congruence.
      * unfold tbl in Hx. rewrite list_lookup_insert_ne in Hx by done. destruct (tw_reach0 i x Hx Hlx) as (m & Hm & Em & Hvs).
        exists m. split; [done|]. split; [done|]. intros m' Hm'. by apply Hkeep, Hvs.
  - unfold contents. rewrite (list_to_map_proper (live (table t)) (entry n :: live tbl)); [|done|done].
    simpl. rewrite delete_insert_id; [done|]. by apply not_elem_of_list_to_map_1.
  - pose proof (live_le_used (table t)) as Hle. rewrite Hp in Hle. simpl in Hle. lia.
Qed.

(** Shrinking after a removal: the smaller table may have to grow back once. *)
Lemma shrink_ok ts t : ht_wf ts t -> size_index t <> 0 -> Z.of_nat (length (live (table t))) + 1 <= used t ->
  exists ts' t', hashtable_rebuild t (-1) = Ok t' /\ ht_wf ts' t' /\ rebuilt t t' /\ size_index t' <= size_index t.
Proof.
  intros Hw Hi Hlive. pose proof Hw as []. destruct (table_size_facts (size_index t - 1)) as (ts1 & E1 & _ & _); [lia|].
  destruct (rebuild_ok (insert_depth 2) t (-1) (size_index t - 1) ts1
    (fun t0 => (exists ts0, ht_wf ts0 t0) /\ size_index t0 <= size_index t /\ ml_p t0 = ml_p t /\ ml_q t0 = ml_q t))
    as (t' & E & ((ts' & Hw') & Ei & _) & Hr); [lia|done|by destruct hw_tbl0| | |].
  - split_and!; try done; [|simpl; lia]. exists ts1. by apply ht_wf_fresh; [lia|..].
  - intros t0 k d sz ((ts0 & Hw0) & Ei & Ep & Eq) Hk Hlt.
    destruct (decide (size_index t0 = size_index t)) as [Ei0|Hne].
    + assert (ts0 = ts) as -> by (pose proof (hw_ts _ _ Hw0); congruence).
      destruct (insert_nogrow 1 ts t0 k d sz) as (t1 & E2 & Hw1 & Hins & Ei1); [done| |done|].
      { rewrite Ep, Eq. nia. }
      exists t1. split; [done|]. split; [|done]. destruct Hins as (_ & _ & Ep1 & Eq1). split; [by exists ts|split; [lia|split; congruence]].
    + destruct (insert_ok 0 ts0 t0 k d sz) as (ts2 & t1 & E2 & Hw1 & Hins & Ei1); [done|right; lia|done|].
      exists t1. split; [done|]. split; [|done]. destruct Hins as (_ & _ & Ep1 & Eq1). split; [by exists ts2|split; [lia|split; congruence]].
  - by exists ts', t'.
Qed.

Lemma remove_ok ts t k : ht_wf ts t ->
  exists ts' t', hashtable_remove t k = Ok (value (contents (table t)) k, t') /\ ht_wf ts' t' /\
    contents (table t') = delete k (contents (table t)) /\ used t' <= used t /\ size_index t' <= size_index t /\
    ml_p t' = ml_p t /\ ml_q t' = ml_q t.
Proof.
  intros Hw. pose proof Hw as []. unfold hashtable_remove, value. rewrite (hash_probe t ts) by done. cbn [cbind].
  pose proof (find_slot_ok t ts hw_ts0 hw_tbl0 k) as H. destruct (contents (table t) !! k) as [v|] eqn:Ek.
  2:{ rewrite H. exists ts, t. split_and!; try done; try lia. by rewrite delete_id. }
  destruct H as (i & n & -> & Hg & Hn & E). injection E as Ekey Ev. cbn [cbind]. pose proof Hg as [Hi Hj]%aget_Some.
  rewrite aset_in_range by lia. cbn [deref cbind table size_index]. rewrite hw_ts0. cbn [deref cbind].
  destruct (kill_wf ts t _ n Hw Hj Hn) as (Htbl & Eu & Ec & Hlen).
  assert (delete (key n) (contents (table t)) = delete k (contents (table t))) as Edel by (by rewrite Ekey).
  rewrite Edel in Ec. clear Edel.
  match goal with |- context [hashtable_rebuild ?x (-1)] => set (t1 := x) end.
  assert (ht_wf ts t1) as Hw1 by (constructor; simpl; try done; lia).
  case_decide as Hd.
  - destruct (shrink_ok ts t1 Hw1) as (ts' & t' & E & Hw' & (Ec' & Hu & Ep & Eq) & Ei); [simpl in *; lia|unfold t1; simpl; lia|].
    rewrite E. cbn [cbind]. exists ts', t'. rewrite <- Ev. split; [done|]. split; [done|]. split; [rewrite Ec'; exact Ec|].
    split; [unfold t1 in Hu; simpl in Hu; lia|]. by split_and!.
  - cbn [cbind]. exists ts, t1. rewrite <- Ev. split_and!; try done; simpl; lia.
Qed.

(** ** The table as a finite map *)

Inductive op := Insert (k d sz : Z) | Lookup (k : Z) | Remove (k : Z).

(** Calls on a table, with what lookups and removals return. *)
Fixpoint run (t : hashtable) (ops : list op) : cres (list (Z * Z) * hashtable) :=
  match ops with
  | [] => Ok ([], t)
  | Insert k d sz :: ops => let! t := hashtable_insert t k d sz in run t ops
  | Lookup k :: ops =>
      let! r := hashtable_lookup t k in let! (rs, t) := run t ops in Ok (r :: rs, t)
  | Remove k :: ops =>
      let! (r, t) := hashtable_remove t k in let! (rs, t) := run t ops in Ok (r :: rs, t)
  end.

(** The same calls on a map; inserting a key that is present is not allowed. *)
Fixpoint spec (m : gmap Z (Z * Z)) (ops : list op) : option (list (Z * Z) * gmap Z (Z * Z)) :=
  match ops with
  | [] => Some ([], m)
  | Insert k d sz :: ops => match m !! k with Some _ => None | None => spec (<[k := (d, sz)]> m) ops end
  | Lookup k :: ops =>
      match spec m ops with Some (rs, m') => Some (value m k :: rs, m') | None => None end
  | Remove k :: ops =>
      match spec (delete k m) ops with Some (rs, m') => Some (value m k :: rs, m') | None => None end
  end.

(** With few slots used, the largest size in reach is not overloaded. *)
Lemma room ts t : ht_wf ts t -> used t < 700000 -> used t * ml_q t <= ml_p t * ts \/ size_index t < max_index.
Proof.
  intros [] Hu. destruct (decide (size_index t = max_index)) as [E|]; [|right; lia]. left.
  assert (ts = 8845453) as -> by (rewrite E in hw_ts0; vm_compute in hw_ts0; congruence).
  assert (used t * ml_q t <= 700000 * ml_q t) by nia. lia.
Qed.

Lemma run_ok ops : forall ts t rs m, ht_wf ts t -> used t + Z.of_nat (length ops) <= 700000 ->
  spec (contents (table t)) ops = Some (rs, m) ->
  exists ts' t', run t ops = Ok (rs, t') /\ ht_wf ts' t' /\ contents (table t') = m.
Proof.
  induction ops as [|o ops IH]; intros ts t rs m Hw Hn Hs; simpl length in Hn.
  { simpl in *. simplify_eq. by exists ts, t. }
  destruct o as [k d sz|k|k]; simpl in *.
  - destruct (contents (table t) !! k) eqn:Ek; [done|].
    destruct (insert_ok 1 ts t k d sz Hw (room ts t Hw ltac:(lia)) Ek) as (ts1 & t1 & E1 & Hw1 & (Ec & Hu & _) & _).
    unfold hashtable_insert. rewrite E1. cbn [cbind]. eapply IH; [done|lia|by rewrite Ec].
  - rewrite (lookup_ok ts) by done. cbn [cbind]. destruct (spec (contents (table t)) ops) as [[rs' m']|] eqn:Es; [|done].
    injection Hs as <- <-. destruct (IH ts t rs' m' Hw ltac:(lia) Es) as (ts' & t' & -> & Hw' & Ec). cbn [cbind]. by exists ts', t'.
  - destruct (remove_ok ts t k Hw) as (ts1 & t1 & -> & Hw1 & Ec & Hu & _). cbn [cbind]. rewrite <- Ec in Hs.
    destruct (spec (contents (table t1)) ops) as [[rs' m']|] eqn:Es; [|done]. injection Hs as <- <-.
    destruct (IH ts1 t1 rs' m' Hw1 ltac:(lia) Es) as (ts' & t' & -> & Hw' & Ec'). cbn [cbind]. by exists ts', t'.
Qed.

(** C26. The hash table implements a finite map: from hashtable_new with a maximal
  load between 1/12 and 6/7 (the vfs server uses 3/4), every sequence of up to
  700,000 insertions of absent keys, lookups and removals terminates without an
  invalid access, every lookup and removal returns what the map holds for the key
  (NULL and 0 if nothing), and the table ends up holding the map, through every
  growing and shrinking of the table and reuse of deleted slots. *)
Theorem hashtable_refines_map p q ops rs m (Hq : 0 < q) (Hlo : q <= 12 * p) (Hhi : 7 * p < 6 * q)
  (Hn : Z.of_nat (length ops) <= 700000) (Hs : spec ∅ ops = Some (rs, m)) :
  exists t0 t, hashtable_new p q = Ok t0 /\ run t0 ops = Ok (rs, t) /\ contents (table t) = m.
Proof.
  unfold hashtable_new. eexists. 
  destruct (run_ok ops 7 (HT (fresh 7) 0 0 0 p q) rs m) as (ts' & t' & E & _ & Ec).
  - apply ht_wf_fresh; [unfold max_index; lia|done|lia].
  - simpl. lia.
  - simpl. unfold contents. by rewrite (proj1 (live_fresh 7)).
  - exists t'. split; [done|]. by split.
Qed.

Definition ex_ops : list op :=
  [Insert 3 100 4; Insert 10 200 4; Insert 17 300 4; Lookup 17; Remove 10; Lookup 17; Lookup 10;
   Insert 1 1 1; Insert 2 2 2; Insert 4 4 4; Insert 5 5 5; Insert (-1) 6 6; Lookup 5; Remove (-1); Lookup (-1)].
Definition ex_results : list (Z * Z) := [(300, 4); (200, 4); (300, 4); (0, 0); (5, 5); (6, 6); (0, 0)].

Lemma hashtable_refines_map_witness :
  exists t0 t, hashtable_new 3 4 = Ok t0 /\ run t0 ex_ops = Ok (ex_results, t) /\
    contents (table t) = list_to_map [(5, (5, 5)); (4, (4, 4)); (2, (2, 2)); (1, (1, 1)); (17, (300, 4)); (3, (100, 4))].
Proof.
  apply (hashtable_refines_map 3 4 ex_ops ex_results); [lia|lia|lia|unfold ex_ops; simpl; lia|]. vm_compute. reflexivity.
Defined.

End Hash.
