(* ===== verification/Snprintf.v ===== *)
(** lib/libc/snprintf.c: the formatted output of the C library.

  The buffer and the strings are blocks of bytes as in LibC.  The variable arguments
  are a list; taking one of another type than va_arg names is undefined behaviour, a
  [Fault].  The loop over the format runs on fuel that is more than the format is long. *)
From S2P Require Import Prelude LibC.
Import LibC.
Local Open Scope Z_scope.
Local Open Scope c_scope.

Module Snprintf.

Inductive arg := AInt (v : Z) | ALongLong (v : Z) | AStr (m : list Z) (p : Z).

(** The locals of va_snprintf: the buffer, [b], [l], the arguments and the modifiers. *)
Record state := St { buf : list Z; pos : Z; room : Z; args : list arg; mod_l : bool; mod_ll : bool }.

Definition hexmap : list Z := cstr "0123456789abcdef".
Definition hexdigit (v : Z) : Z := default 0 (hexmap !! Z.to_nat (Z.land v 15)).

Definition set_left (n : Z) (s : state) : state := St (buf s) (pos s) n (args s) (mod_l s) (mod_ll s).

(** [*b++ = c;] *)
Definition put (s : state) (c : Z) : cres state :=
  let! m := wr (buf s) (pos s) c in Ok (St m (pos s + 1) (room s) (args s) (mod_l s) (mod_ll s)).

(** [*b++ = c; l--;] *)
Definition emit (s : state) (c : Z) : cres state := let! s := put s c in Ok (set_left (room s - 1) s).

Definition pop_int (s : state) : cres (Z * state) :=
  match args s with
  | AInt v :: r => Ok (v, St (buf s) (pos s) (room s) r (mod_l s) (mod_ll s))
  | _ => Fault
  end.
Definition pop_ll (s : state) : cres (Z * state) :=
  match args s with
  | ALongLong v :: r => Ok (v, St (buf s) (pos s) (room s) r (mod_l s) (mod_ll s))
  | _ => Fault
  end.
Definition pop_str (s : state) : cres (list Z * Z * state) :=
  match args s with
  | AStr m p :: r => Ok (m, p, St (buf s) (pos s) (room s) r (mod_l s) (mod_ll s))
  | _ => Fault
  end.

(** [while(l && *t) *b++ = *t++, l--;] *)
Fixpoint put_string (s : state) (m : list Z) (t : Z) (fuel : nat) : cres state :=
  match fuel with
  | O => Fault
  | S fuel =>
      if decide (room s = 0) then Ok s else
      let! c := rd m t in
      if decide (c = 0) then Ok s else
      let! s := emit s c in put_string s m (t + 1) fuel
  end.

(** The hexadecimal digits of [u], [n] of them, most significant first. *)
Fixpoint hex (n : nat) (u : Z) : list Z :=
  match n with
  | O => []
  | S n => hex n (Z.shiftr u 4) ++ [hexdigit u]
  end.

(** Write the characters of [cs] and move [b] and [l] by their number. *)
Fixpoint put_all (s : state) (cs : list Z) : cres state :=
  match cs with
  | [] => Ok s
  | c :: cs => let! s := emit s c in put_all s cs
  end.

(** [while(++i < 10){ *b++ = d[i]; if(!(--l)) break; }] *)
Fixpoint put_digits (s : state) (cs : list Z) : cres state :=
  match cs with
  | [] => Ok s
  | c :: cs =>
      let! s := emit s c in if decide (room s = 0) then Ok s else put_digits s cs
  end.

(** The do-while loop that fills d[] from its end: the digits of [u], at most [n] more. *)
Fixpoint digits_of (n : nat) (u : Z) (acc : list Z) : list Z :=
  let acc := (u mod 10 + 48) :: acc in
  let u := u / 10 in
  match n with
  | O => acc
  | S n => if decide (u <> 0) then digits_of n u acc else acc
  end.

(** [d[8] = d[7] = d[6] = ' '], overwritten by the digits: d[6] to d[9]. *)
Definition last_four (ds : list Z) : list Z :=
  let l := [32; 32; 32] ++ ds in drop (length l - 4) l.

(** The switch on the conversion character, the modifier 'l' apart. *)
Definition directive (s : state) (c : Z) : cres state :=
  if decide (c = 115) then
    let! (m, t, s) := pop_str s in put_string s m t (S (length m))
  else if decide (c = 99) then let! (v, s) := pop_int s in emit s v
  else if decide (c = 83) then
    if decide (room s < 4) then Ok (set_left 0 s)
    else let! (u, s) := pop_int s in put_all s (hex 4 (u32 u))
  else if decide (c = 120 \/ c = 112) then
    if mod_ll s then
      if decide (room s < 16) then Ok (set_left 0 s)
      else let! (u, s) := pop_ll s in
           let! s := put_all s (hex 16 (u mod 2 ^ 64)) in
           Ok (St (buf s) (pos s) (room s) (args s) false false)
    else
      if decide (room s < 8) then Ok (set_left 0 s)
      else let! (u, s) := pop_int s in
           let! s := put_all s (hex 8 (u32 u)) in
           Ok (St (buf s) (pos s) (room s) (args s) false false)
  else if decide (c = 100) then
    let! (n, s) := pop_int s in
    if decide (n < 0) then
      let! s := emit s 45 in
      if decide (room s = 0) then Ok s else put_digits s (digits_of 9 (u32 (- n)) [])
    else put_digits s (digits_of 9 (u32 n) [])
  else if decide (c = 117) then let! (u, s) := pop_int s in put_digits s (digits_of 9 (u32 u) [])
  else if decide (c = 85) then
    let! (u, s) := pop_int s in put_digits s (last_four (digits_of 9 (u32 u) []))
  else if decide (c = 88) then
    if decide (room s < 2) then Ok (set_left 0 s)
    else let! (n, s) := pop_int s in put_all s (hex 2 (Z.land n 255))
  else put s c.

(** The case 'l' of the switch. *)
Definition next_mods (mods : bool * bool) : bool * bool :=
  if negb mods.1 then (true, mods.2) else if negb mods.2 then (false, true) else mods.

(** [again: fmt++;] with the case 'l': the conversion character and its position. *)
Fixpoint modifiers (fm : list Z) (f : Z) (s : state) (fuel : nat) : cres (Z * Z * state) :=
  match fuel with
  | O => Fault
  | S fuel =>
      let! c := rd fm f in
      if decide (c = 108) then
        let '(ml, mll) := next_mods (mod_l s, mod_ll s) in
        modifiers fm (f + 1) (St (buf s) (pos s) (room s) (args s) ml mll) fuel
      else Ok (f, c, s)
  end.

Fixpoint format (fm : list Z) (f : Z) (s : state) (fuel : nat) : cres state :=
  match fuel with
  | O => Fault
  | S fuel =>
      if decide (room s = 0) then Ok s else
      let! c := rd fm f in
      if decide (c = 0) then Ok s else
      if decide (c = 37) then
        let s := set_left (room s - 1) s in
        if decide (room s = 0) then Ok s else
        let! (f, c, s) := modifiers fm (f + 1) s fuel in
        let! s := directive s c in
        format fm (f + 1) s fuel
      else let! s := emit s c in format fm (f + 1) s fuel
  end.

(** The buffer after the call; [fmt] and [b] are not NULL. *)
Definition va_snprintf (m : list Z) (b l : Z) (fm : list Z) (fmt : Z) (pvar : list arg) : cres (list Z) :=
  if decide (l < 1) then Ok m else
  let! s := format fm fmt (St m b l pvar false false) (S (length fm)) in
  wr (buf s) (pos s) 0.

Definition snprintf := va_snprintf.

(** ** Running the formatter *)

(** [s] after [out] was written: the buffer was [m] and [b] was [b0]. *)
Definition wrote (m : list Z) (b0 : Z) (out : list Z) (s : state) : Prop :=
  buf s = splice m b0 out /\ pos s = b0 + Z.of_nat (length out).

Lemma put_wrote m b0 out s c : wrote m b0 out s -> fits m b0 (S (length out)) ->
  exists s', put s c = Ok s' /\ wrote m b0 (out ++ [u8 c]) s' /\
    room s' = room s /\ args s' = args s /\ mod_l s' = mod_l s /\ mod_ll s' = mod_ll s.
Proof.
  intros [Eb Ep] Hf. unfold put, wr. rewrite Eb, Ep, splice_snoc by done. cbn [deref cbind]. eexists. split; [done|].
  split; [|done]. split; [done|]. simpl. rewrite length_app. simpl. lia.
Qed.

Lemma emit_wrote m b0 out s c : wrote m b0 out s -> fits m b0 (S (length out)) ->
  exists s', emit s c = Ok s' /\ wrote m b0 (out ++ [u8 c]) s' /\
    room s' = room s - 1 /\ args s' = args s /\ mod_l s' = mod_l s /\ mod_ll s' = mod_ll s.
Proof.
  intros Hw Hf. destruct (put_wrote m b0 out s c Hw Hf) as (s' & E & [Eb Ep] & El & Ea & H1 & H2).
  unfold emit. rewrite E. cbn [cbind]. eexists. split; [done|]. unfold wrote. simpl. by rewrite El.
Qed.

Lemma put_digits_ok m b0 : forall ds out s, wrote m b0 out s -> 0 < room s -> bytes ds ->
  fits m b0 (length out + length ds) ->
  exists s', put_digits s ds = Ok s' /\ wrote m b0 (out ++ take (Z.to_nat (room s)) ds) s' /\
    room s' = Z.max 0 (room s - Z.of_nat (length ds)) /\ args s' = args s.
Proof.
  induction ds as [|c ds IH]; intros out s Hw Hl Hb Hf; simpl length in *.
  { exists s. rewrite take_nil, app_nil_r. split_and!; try done; try lia. }
  apply Forall_cons in Hb as [Hc Hb]. cbn [put_digits].
  destruct (emit_wrote m b0 out s c Hw) as (s1 & -> & Hw1 & El & Ea & _); [unfold fits in *; lia|]. cbn [cbind].
  rewrite u8_small in Hw1 by done. case_decide as Hz.
  - exists s1. replace (Z.to_nat (room s)) with 1%nat by lia. simpl. rewrite take_0. split_and!; try done; try lia.
  - destruct (IH (out ++ [c]) s1) as (s2 & -> & Hw2 & El2 & Ea2); [done|lia|done|rewrite length_app; unfold fits in *; simpl; lia|].
    exists s2. split; [done|]. split; [|split; [lia|congruence]].
    rewrite <- app_assoc in Hw2. replace (Z.to_nat (room s)) with (S (Z.to_nat (room s1))) by lia. done.
Qed.

Lemma put_all_ok m b0 : forall cs out s, wrote m b0 out s -> fits m b0 (length out + length cs) ->
  exists s', put_all s cs = Ok s' /\ wrote m b0 (out ++ map u8 cs) s' /\
    room s' = room s - Z.of_nat (length cs) /\ args s' = args s /\ mod_l s' = mod_l s /\ mod_ll s' = mod_ll s.
Proof.
  induction cs as [|c cs IH]; intros out s Hw Hf; simpl length in *.
  { exists s. rewrite app_nil_r. split_and!; try done; try lia. }
  cbn [put_all]. destruct (emit_wrote m b0 out s c Hw) as (s1 & -> & Hw1 & El & Ea & E1 & E2); [unfold fits in *; lia|].
  cbn [cbind]. destruct (IH (out ++ [u8 c]) s1) as (s2 & -> & Hw2 & El2 & Ea2 & E3 & E4); [done|rewrite length_app; unfold fits in *; simpl; lia|].
  exists s2. rewrite <- app_assoc in Hw2. split_and!; try done; try congruence. lia.
Qed.

Lemma put_string_ok m b0 sm : forall str t out s fuel, str_at sm t str -> (length str < fuel)%nat -> wrote m b0 out s ->
  0 <= room s -> fits m b0 (length out + Z.to_nat (room s)) ->
  exists s', put_string s sm t fuel = Ok s' /\ wrote m b0 (out ++ take (Z.to_nat (room s)) str) s' /\
    room s' = Z.max 0 (room s - Z.of_nat (length str)) /\ args s' = args s /\ mod_l s' = mod_l s /\ mod_ll s' = mod_ll s.
Proof.
  induction str as [|c str IH]; intros t out s fuel Hs Hf Hw Hl Hfit; (destruct fuel as [|fuel]; [simpl in Hf; lia|]); cbn [put_string].
  - exists s. rewrite take_nil, app_nil_r. simpl in Hs. rewrite (rd_Some _ _ _ Hs). cbn [cbind].
    simpl length. case_decide; split_and!; try done; lia.
  - simpl in Hs, Hf. destruct Hs as (Hc & Hr & Hs). case_decide as Hz.
    + exists s. rewrite Hz. simpl. rewrite app_nil_r. split_and!; try done; try lia.
    + rewrite (rd_Some _ _ _ Hc). cbn [cbind]. rewrite decide_False by lia.
      destruct (emit_wrote m b0 out s c Hw) as (s1 & -> & Hw1 & El & Ea & E1 & E2); [unfold fits in *; lia|]. cbn [cbind].
      rewrite u8_small in Hw1 by lia.
      destruct (IH (t + 1) (out ++ [c]) s1 fuel Hs) as (s2 & -> & Hw2 & El2 & Ea2 & E3 & E4);
        [lia|done|lia|rewrite length_app; unfold fits in *; simpl; lia|].
      exists s2. rewrite <- app_assoc in Hw2. replace (Z.to_nat (room s)) with (S (Z.to_nat (room s1))) by lia.
      split_and!; try done; try congruence. simpl length. lia.
Qed.

Lemma length_hex n : forall u, length (hex n u) = n.
Proof. induction n as [|n IH]; intros u; simpl; [done|]. rewrite length_app, IH. simpl. lia. Qed.

Lemma digits_of_bytes n : forall u acc, bytes acc -> bytes (digits_of n u acc) /\ (length (digits_of n u acc) <= S n + length acc)%nat.
Proof.
  induction n as [|n IH]; intros u acc Hb; simpl.
  - split; [|simpl; lia]. constructor; [|done]. pose proof (Z.mod_pos_bound u 10). lia.
  - pose proof (Z.mod_pos_bound u 10). assert (bytes (u mod 10 + 48 :: acc)) by (constructor; [lia|done]). case_decide.
    + destruct (IH (u / 10) (u mod 10 + 48 :: acc)) as [Hx Hy]; [done|]. simpl in *. split; [done|lia].
    + simpl. split; [done|lia].
Qed.

(** ** Formats that match their arguments *)

(** The arguments left after the conversion [c]; [None] when there is none of its type. *)
Definition consume (c : Z) (mll : bool) (l : list arg) : option (list arg) :=
  if decide (c = 115) then match l with AStr _ _ :: r => Some r | _ => None end
  else if decide (c = 120 \/ c = 112) then
    if mll then match l with ALongLong _ :: r => Some r | _ => None end
    else match l with AInt _ :: r => Some r | _ => None end
  else if decide (c ∈ [99; 83; 100; 117; 85; 88]) then match l with AInt _ :: r => Some r | _ => None end
  else Some l.

Definition after (c : Z) (mods : bool * bool) : bool * bool := if decide (c = 120 \/ c = 112) then (false, false) else mods.

(** [str] is a format for [l], read from within a conversion when [pct] holds. *)
Fixpoint typed (str : list Z) (pct : bool) (mods : bool * bool) (l : list arg) : bool :=
  match str with
  | [] => negb pct
  | c :: str =>
      if pct then
        if decide (c = 108) then typed str true (next_mods mods) l
        else match consume c mods.2 l with
             | Some l => typed str false (after c mods) l
             | None => false
             end
      else typed str (bool_decide (c = 37)) mods l
  end.

Definition arg_ok (a : arg) : Prop :=
  match a with AStr m p => exists str, str_at m p str | _ => True end.

(** What one step of the formatter guarantees. *)
Definition stepped (m : list Z) (b0 l0 : Z) (s : state) : Prop :=
  exists out, wrote m b0 out s /\ 0 <= room s /\ Z.of_nat (length out) + room s <= l0.

Section run.
Context (m : list Z) (b0 l0 : Z) (Hfit : fits m b0 (Z.to_nat l0)).

Lemma stepped_stop s : stepped m b0 l0 s -> stepped m b0 l0 (set_left 0 s).
Proof. intros (out & Hw & Hl & Hle). exists out. simpl. split; [done|lia]. Qed.

(** Output of fixed width, when there is room for it, and of digits. *)
Lemma fixed_stepped s cs : stepped m b0 l0 s -> Z.of_nat (length cs) <= room s ->
  exists s', put_all s cs = Ok s' /\ stepped m b0 l0 s' /\ args s' = args s /\ mod_l s' = mod_l s /\ mod_ll s' = mod_ll s.
Proof.
  intros (out & Hw & Hl & Hle) Hlen.
  destruct (put_all_ok m b0 cs out s Hw) as (s' & E & Hw' & El & H); [unfold fits in *; lia|].
  exists s'. split; [done|]. split; [|done]. exists (out ++ map u8 cs). split; [done|]. rewrite length_app, length_map. lia.
Qed.

Lemma digits_stepped s ds : stepped m b0 l0 s -> 0 < room s -> bytes ds ->
  exists s', put_digits s ds = Ok s' /\ stepped m b0 l0 s' /\ args s' = args s /\ mod_l s' = mod_l s /\ mod_ll s' = mod_ll s.
Proof.
  intros (out & Hw & Hl & Hle) Hpos. clear Hl. revert out s Hw Hle Hpos. induction ds as [|c ds IH]; intros out s Hw Hle Hpos Hb; cbn [put_digits].
  { exists s. split; [done|]. split; [|done]. exists out. split; [done|lia]. }
  apply Forall_cons in Hb as [Hc Hb].
  destruct (emit_wrote m b0 out s c Hw) as (s1 & -> & Hw1 & El & Ea & E1 & E2); [unfold fits in *; lia|]. cbn [cbind].
  case_decide as Hz.
  - exists s1. split; [done|]. split; [|done]. exists (out ++ [u8 c]). split; [done|]. rewrite length_app. simpl. lia.
  - destruct (IH (out ++ [u8 c]) s1) as (s2 & -> & Hs2 & Ea2 & E3 & E4); [done|rewrite length_app; simpl; lia|lia|done|].
    exists s2. split; [done|]. split; [done|]. split_and!; congruence.
Qed.

Lemma emit_stepped s c : stepped m b0 l0 s -> 0 < room s ->
  exists s', emit s c = Ok s' /\ stepped m b0 l0 s' /\ room s' = room s - 1 /\ args s' = args s /\ mod_l s' = mod_l s /\ mod_ll s' = mod_ll s.
Proof.
  intros (out & Hw & Hl & Hle) Hpos.
  destruct (emit_wrote m b0 out s c Hw) as (s1 & -> & Hw1 & El & H); [unfold fits in *; lia|].
  exists s1. split; [done|]. split; [|done]. exists (out ++ [u8 c]). split; [done|]. rewrite length_app. simpl. lia.
Qed.

(** What a conversion leaves behind. *)
Definition converted (s : state) (c : Z) (a : list arg) (s' : state) : Prop :=
  stepped m b0 l0 s' /\ (room s' = 0 \/ args s' = a /\ (mod_l s', mod_ll s') = after c (mod_l s, mod_ll s)).

(** The arguments do not matter to what has been written. *)
Lemma stepped_args s l r ml mll : stepped m b0 l s -> stepped m b0 l (St (buf s) (pos s) (room s) r ml mll).
Proof. intros (out & Hw & H). by exists out. Qed.

Lemma directive_string s a : stepped m b0 l0 s -> Forall arg_ok (args s) -> consume 115 (mod_ll s) (args s) = Some a ->
  exists s', directive s 115 = Ok s' /\ converted s 115 a s'.
Proof.
  intros (out & Hw & Hl & Hle) Hargs Hc. unfold directive, consume, converted in *.
  rewrite decide_True in Hc by done. rewrite decide_True by done.
  destruct (args s) as [|[| |sm t] r] eqn:Ea; try done. injection Hc as <-.
  apply Forall_cons in Hargs as [[str Hstr] _]. unfold pop_str. rewrite Ea. cbn [cbind]. pose proof (str_at_range _ _ _ Hstr).
  match goal with |- context [put_string ?x] => set (s1 := x) end.
  destruct (put_string_ok m b0 sm str t out s1 (S (length sm)) Hstr) as (s' & E & Hw' & El & Ea' & E1 & E2);
    [lia|done|simpl; lia|simpl; unfold fits in *; lia|].
  exists s'. split; [done|]. simpl in *. split.
  - exists (out ++ take (Z.to_nat (room s)) str). split; [done|]. rewrite length_app, length_take. lia.
  - right. split; [done|]. unfold after. rewrite decide_False by lia. congruence.
Qed.

Lemma directive_hex s c a : stepped m b0 l0 s -> c = 120 \/ c = 112 -> consume c (mod_ll s) (args s) = Some a ->
  exists s', directive s c = Ok s' /\ converted s c a s'.
Proof.
  intros Hs Hx Hc. unfold directive, consume, converted, after in *.
  rewrite (decide_False (P := c = 115)) in Hc by lia. rewrite (decide_True (P := c = 120 \/ c = 112)) in Hc by done.
  rewrite (decide_False (P := c = 115)), !(decide_True (P := c = 120 \/ c = 112)) by (done || lia).
  rewrite (decide_False (P := c = 99)), (decide_False (P := c = 83)) by lia.
  assert (forall cs r, args s = r -> Z.of_nat (length cs) <= room s ->
    exists s', (let! s := put_all (St (buf s) (pos s) (room s) a (mod_l s) (mod_ll s)) cs in Ok (St (buf s) (pos s) (room s) (args s) false false)) = Ok s' /\
      stepped m b0 l0 s' /\ (room s' = 0 \/ args s' = a /\ (mod_l s', mod_ll s') = (false, false))) as Hput.
  { intros cs r _ Hlen. destruct (fixed_stepped _ cs (stepped_args s l0 a (mod_l s) (mod_ll s) Hs)) as (s' & -> & Hs' & Ea' & _); [done|].
    cbn [cbind]. eexists. split; [done|]. split; [by apply stepped_args|by right]. }
  destruct (mod_ll s) eqn:Em; (case_decide; [eexists; split; [done|]; split; [by apply stepped_stop|by left]|]).
  - destruct (args s) as [|[|u|] r] eqn:Ea; try done. injection Hc as <-. unfold pop_ll. rewrite Ea, Em. cbn [cbind].
    apply (Hput _ _ eq_refl). rewrite length_hex. lia.
  - destruct (args s) as [|[u| |] r] eqn:Ea; try done. injection Hc as <-. unfold pop_int. rewrite Ea, Em. cbn [cbind].
    apply (Hput _ _ eq_refl). rewrite length_hex. lia.
Qed.

(** Any other character after '%' is copied; the room was taken by the '%'. *)
Lemma directive_other s c : stepped m b0 (l0 - 1) s -> c ∉ [115; 120; 112; 99; 83; 100; 117; 85; 88] ->
  exists s', directive s c = Ok s' /\ converted s c (args s) s'.
Proof.
  intros (out & Hw & Hl & Hle) Hc. unfold directive, converted, after.
  do 3 (rewrite decide_False; [|intros ->; apply Hc; set_solver +]).
  rewrite (decide_False (P := c = 120 \/ c = 112)); [|intros [-> | ->]; apply Hc; set_solver +].
  do 4 (rewrite decide_False; [|intros ->; apply Hc; set_solver +]).
  destruct (put_wrote m b0 out s c Hw) as (s' & -> & Hw' & El & Ea & E1 & E2); [unfold fits in *; lia|].
  exists s'. split; [done|]. split; [|right; split; [done|]].
  - exists (out ++ [u8 c]). split; [done|]. rewrite length_app. simpl. lia.
  - rewrite decide_False; [congruence|intros [-> | ->]; apply Hc; set_solver +].
Qed.

(** The conversions that take an int and are not affected by the modifiers. *)
Lemma directive_int s c v r : stepped m b0 l0 s -> 0 < room s -> c ∈ [99; 83; 100; 117; 85; 88] -> args s = AInt v :: r ->
  exists s', directive s c = Ok s' /\ converted s c r s'.
Proof.
  intros Hs Hpos Hc Ea. set (s1 := St (buf s) (pos s) (room s) r (mod_l s) (mod_ll s)).
  pose proof (stepped_args s l0 r (mod_l s) (mod_ll s) Hs) as Hs1. fold s1 in Hs1.
  assert (forall x s', args s' = args x -> mod_l s' = mod_l x -> mod_ll s' = mod_ll x -> x = s1 -> stepped m b0 l0 s' -> converted s c r s') as Hend.
  { intros x s' E1 E2 E3 -> Hs'. split; [done|]. right. split; [done|]. unfold after.
    rewrite decide_False; [simpl in *; congruence|]. intros [-> | ->]; set_solver. }
  assert (forall ds, bytes ds -> exists s', put_digits s1 ds = Ok s' /\ converted s c r s') as Hdig.
  { intros ds Hb. destruct (digits_stepped s1 ds Hs1) as (s' & E & Hs' & E1 & E2 & E3); eauto. }
  assert (forall cs, Z.of_nat (length cs) <= room s -> exists s', put_all s1 cs = Ok s' /\ converted s c r s') as Hfix.
  { intros cs Hlen. destruct (fixed_stepped s1 cs Hs1) as (s' & E & Hs' & E1 & E2 & E3); eauto. }
  assert (converted s c r (set_left 0 s)) as Hstop by (split; [by apply stepped_stop|by left]).
  assert (forall u, bytes (digits_of 9 u [])) as Hd by (intros; apply digits_of_bytes; constructor).
  unfold directive, pop_int. rewrite Ea. cbn [cbind]. fold s1. repeat rewrite elem_of_cons in Hc. rewrite elem_of_nil in Hc.
  destruct Hc as [->|[->|[->|[->|[->|[->|[]]]]]]];
    repeat (rewrite decide_False by lia); rewrite decide_True by lia.
  - destruct (emit_stepped s1 v Hs1) as (s' & E & Hs' & _ & E1 & E2 & E3); eauto.
  - case_decide; [eauto|]. apply Hfix. rewrite length_hex. lia.
  - case_decide; [|apply Hdig, Hd].
    destruct (emit_stepped s1 45 Hs1) as (s' & -> & Hs' & El & E1 & E2 & E3); [done|]. cbn [cbind]. case_decide; [eauto|].
    destruct (digits_stepped s' (digits_of 9 (u32 (- v)) []) Hs') as (s2 & E & Hs2 & E4 & E5 & E6); [simpl in *; lia|apply Hd|].
    exists s2. split; [done|]. apply (Hend s1); congruence || done.
  - apply Hdig, Hd.
  - apply Hdig. unfold last_four. apply Forall_drop, Forall_app. split; [repeat constructor; lia|apply Hd].
  - case_decide; [eauto|]. apply Hfix. rewrite length_hex. lia.
Qed.

Lemma directive_ok s c a : stepped m b0 (l0 - 1) s -> 0 < room s -> Forall arg_ok (args s) ->
  consume c (mod_ll s) (args s) = Some a -> exists s', directive s c = Ok s' /\ converted s c a s'.
Proof.
  intros Hs0 Hpos Hargs Hc.
  assert (stepped m b0 l0 s) as Hs by (destruct Hs0 as (out & ? & ? & ?); exists out; split; [done|lia]).
  destruct (decide (c = 115)) as [->|H1]; [by apply directive_string|].
  destruct (decide (c = 120 \/ c = 112)) as [H2|H2]; [by apply directive_hex|].
  unfold consume in Hc. rewrite decide_False in Hc by done. rewrite decide_False in Hc by done.
  destruct (decide (c ∈ [99; 83; 100; 117; 85; 88])) as [H3|H3].
  - destruct (args s) as [|[v| |] r] eqn:Ea; try done. injection Hc as <-. by eapply directive_int.
  - injection Hc as <-. apply directive_other; [done|]. clear -H1 H2 H3. set_solver.
Qed.

Lemma consume_args c mll l a : consume c mll l = Some a -> Forall arg_ok l -> Forall arg_ok a.
Proof.
  assert (consume c mll l = Some a -> a = l \/ exists x, l = x :: a) as Htail.
  { unfold consume. intros H. repeat case_decide; try (left; congruence); right;
      destruct mll, l as [|[] l]; simplify_eq; eauto. }
  intros [-> |[x ->]]%Htail Hl; [done|]. by apply Forall_cons in Hl as [_ Hl].
Qed.

Lemma modifiers_ok fm : forall str f s fuel, str_at fm f str -> (length str < fuel)%nat ->
  typed str true (mod_l s, mod_ll s) (args s) = true ->
  exists f' c r s' a, modifiers fm f s fuel = Ok (f', c, s') /\ str_at fm (f' + 1) r /\ (length r < length str)%nat /\
    buf s' = buf s /\ pos s' = pos s /\ room s' = room s /\ args s' = args s /\
    consume c (mod_ll s') (args s') = Some a /\ typed r false (after c (mod_l s', mod_ll s')) a = true.
Proof.
  induction str as [|c str IH]; intros f s fuel Hs Hf Ht; [done|]. destruct fuel as [|fuel]; [lia|].
  simpl in Hs, Hf, Ht. destruct Hs as (Hc & Hr & Hs). cbn [modifiers]. rewrite (rd_Some _ _ _ Hc). cbn [cbind].
  case_decide as H108.
  - destruct (next_mods (mod_l s, mod_ll s)) as [ml mll] eqn:En.
    destruct (IH (f + 1) (St (buf s) (pos s) (room s) (args s) ml mll) fuel) as (f' & c' & r & s' & a & E & Hs' & Hl & H); [done|lia|done|].
    exists f', c', r, s', a. split; [done|]. split; [done|]. split; [simpl; lia|]. done.
  - simpl in Ht. destruct (consume c (mod_ll s) (args s)) as [a|] eqn:Ea; [|done]. exists f, c, str, s, a. split_and!; try done; simpl; lia.
Qed.

Lemma format_ok fm : forall fuel str f s, str_at fm f str -> (length str < fuel)%nat -> stepped m b0 l0 s ->
  Forall arg_ok (args s) -> typed str false (mod_l s, mod_ll s) (args s) = true ->
  exists s', format fm f s fuel = Ok s' /\ stepped m b0 l0 s'.
Proof.
  induction fuel as [|fuel IH]; intros str f s Hs Hf Hst Hargs Ht; [lia|]. cbn [format].
  case_decide as Hz; [eauto|]. assert (0 < room s) as Hpos by (destruct Hst as (? & ? & ? & ?); lia).
  destruct str as [|c str]; simpl in Hs, Hf, Ht.
  { rewrite (rd_Some _ _ _ Hs). cbn [cbind]. rewrite decide_True by done. eauto. }
  destruct Hs as (Hc & Hr & Hs). rewrite (rd_Some _ _ _ Hc). cbn [cbind]. rewrite decide_False by lia.
  destruct (decide (c = 37)) as [->|Hne].
  - assert (stepped m b0 (l0 - 1) (set_left (room s - 1) s)) as Hst1.
    { destruct Hst as (out & Hw & ? & ?). exists out. simpl. split; [done|lia]. }
    destruct (decide (room (set_left (room s - 1) s) = 0)) as [Hz1|Hz1].
    { exists (set_left (room s - 1) s). split; [done|]. destruct Hst1 as (out & Hw & ? & ?). exists out. split; [done|lia]. }
    rewrite bool_decide_true in Ht by done.
    destruct (modifiers_ok fm str (f + 1) (set_left (room s - 1) s) fuel) as (f' & c & r & s' & a & -> & Hs' & Hl & Eb & Ep & Er & Ea & Hcons & Hty);
      [done|lia|done|]. cbn [cbind].
    destruct (directive_ok s' c a) as (s2 & -> & Hs2 & Hnext).
    { destruct Hst1 as (out & [Hw1 Hw2] & H'). exists out. unfold wrote. by rewrite Eb, Ep, Er. }
    { rewrite Er. simpl in *. destruct Hst1 as (? & ? & ? & ?). simpl in *. lia. }
    { by rewrite Ea. }
    { done. }
    cbn [cbind]. destruct Hnext as [Hz2|[Ea2 Em2]].
    + destruct fuel as [|fuel]; [lia|]. cbn [format]. rewrite decide_True by done. eauto.
    + apply (IH r); [done|lia|done| |by rewrite Ea2, Em2]. rewrite Ea2. eapply consume_args; [done|]. by rewrite Ea.
  - destruct (emit_stepped s c Hst Hpos) as (s1 & -> & Hs1 & _ & Ea & E1 & E2). cbn [cbind].
    apply (IH str); [done|lia|done|by rewrite Ea|]. rewrite Ea, E1, E2. by rewrite bool_decide_false in Ht.
Qed.
End run.

(** C27. va_snprintf on a format that matches its arguments, with every string
  argument terminated: it returns, writes at most l characters and a terminator at b,
  and touches no other byte.  The terminator may be the (l+1)st byte: the buffer has
  to be one byte larger than the size the caller passes. *)
Theorem va_snprintf_bounded m b l fm fmt str pvar (Hl : 1 <= l) (Hb : fits m b (Z.to_nat (l + 1)))
  (Hs : str_at fm fmt str) (Ha : Forall arg_ok pvar) (Ht : typed str false (false, false) pvar = true) :
  exists out, va_snprintf m b l fm fmt pvar = Ok (splice m b (out ++ [0])) /\ Z.of_nat (length out) <= l.
Proof.
  unfold va_snprintf. rewrite decide_False by lia. pose proof (str_at_range _ _ _ Hs).
  destruct (format_ok m b l ltac:(unfold fits in *; lia) fm (S (length fm)) str fmt (St m b l pvar false false)) as (s' & -> & out & [Eb Ep] & Hr & Hle);
    [done|lia| |done|done|].
  { exists []. split; [|simpl; lia]. split; simpl; [by rewrite splice_nil|lia]. }
  exists out. cbn [cbind]. rewrite Eb, Ep. rewrite wr_snoc; [split; [done|lia]|unfold fits in *; lia|lia].
Qed.

(** ** Plain text *)

Lemma format_plain m b0 fm : forall str f s out fuel, str_at fm f str -> (length str < fuel)%nat -> 37 ∉ str ->
  wrote m b0 out s -> 0 <= room s -> fits m b0 (length out + Z.to_nat (room s)) ->
  exists s', format fm f s fuel = Ok s' /\ wrote m b0 (out ++ take (Z.to_nat (room s)) str) s'.
Proof.
  induction str as [|c str IH]; intros f s out fuel Hs Hf Hp Hw Hr Hfit; (destruct fuel as [|fuel]; [lia|]); cbn [format].
  - exists s. rewrite take_nil, app_nil_r. simpl in Hs. rewrite (rd_Some _ _ _ Hs). cbn [cbind]. by case_decide.
  - simpl in Hs, Hf. destruct Hs as (Hc & Hcr & Hs). apply not_elem_of_cons in Hp as [Hne Hp]. case_decide as Hz.
    + exists s. rewrite Hz. simpl. by rewrite app_nil_r.
    + rewrite (rd_Some _ _ _ Hc). cbn [cbind]. rewrite decide_False by lia. rewrite decide_False by done.
      destruct (emit_wrote m b0 out s c Hw) as (s1 & -> & Hw1 & El & _); [unfold fits in *; lia|]. cbn [cbind].
      rewrite u8_small in Hw1 by lia.
      destruct (IH (f + 1) s1 (out ++ [c]) fuel Hs) as (s2 & -> & Hw2); [lia|done|done|lia|rewrite length_app; unfold fits in *; simpl; lia|].
      exists s2. rewrite <- app_assoc in Hw2. replace (Z.to_nat (room s)) with (S (Z.to_nat (room s1))) by lia. done.
Qed.

(** The size passed to va_snprintf is one short of the bytes it may write: when
  the text is at least l characters long, a buffer of exactly l bytes is overrun by
  the terminator; with one byte more the call writes the first l characters. *)
Theorem va_snprintf_needs_one_more m b l fm fmt str (Hl : 1 <= l) (Hs : str_at fm fmt str) (Hp : 37 ∉ str)
  (Hlen : l <= Z.of_nat (length str)) (Hb : fits m b (Z.to_nat l)) :
  va_snprintf m b l fm fmt [] =
    if decide (Z.of_nat (length m) = b + l) then Fault else Ok (splice m b (take (Z.to_nat l) str ++ [0])).
Proof.
  unfold va_snprintf. rewrite decide_False by lia. pose proof (str_at_range _ _ _ Hs).
  destruct (format_plain m b fm str fmt (St m b l [] false false) [] (S (length fm)) Hs) as (s' & -> & [Eb Ep]);
    [lia|done| |simpl; lia|simpl; unfold fits in *; lia|].
  { split; simpl; [by rewrite splice_nil|lia]. }
  cbn [cbind]. simpl in Eb, Ep. rewrite length_take in Ep. rewrite Nat.min_l in Ep by lia.
  assert (length (take (Z.to_nat l) str) = Z.to_nat l) as El by (rewrite length_take; lia).
  rewrite Eb, Ep. case_decide as Hm.
  - unfold wr, aset. rewrite decide_False; [done|]. rewrite length_splice by (by rewrite El). lia.
  - rewrite <- El at 2. apply wr_snoc; [|lia]. rewrite El. unfold fits in *. lia.
Qed.

(** ** %d and atoi *)

Lemma digits_of_dec n : forall u acc, 0 <= u < 10 ^ (Z.of_nat n + 1) -> digits acc ->
  dec (digits_of n u acc) = u * 10 ^ Z.of_nat (length acc) + dec acc /\ digits (digits_of n u acc) /\
  digits_of n u acc <> [] /\ (length (digits_of n u acc) <= S n + length acc)%nat.
Proof.
  induction n as [|n IH]; intros u acc Hu Ha; cbn [digits_of].
  - change (10 ^ (Z.of_nat 0 + 1)) with 10 in Hu. rewrite dec_cons, Z.mod_small by lia.
    split_and!; [lia|constructor; [lia|done]|done|simpl; lia].
  - pose proof (Z.mod_pos_bound u 10 ltac:(lia)). pose proof (Z.div_mod u 10 ltac:(lia)) as Hdm.
    assert (digits (u mod 10 + 48 :: acc)) as Hd by (constructor; [lia|done]).
    assert (dec (u mod 10 + 48 :: acc) = u mod 10 * 10 ^ Z.of_nat (length acc) + dec acc) as Ed by (rewrite dec_cons; f_equal; f_equal; lia).
    case_decide as Hz.
    + destruct (IH (u / 10) (u mod 10 + 48 :: acc)) as (E & Hd' & Hn & Hl); [|done|].
      { split; [apply Z.div_pos; lia|]. apply Z.div_lt_upper_bound; [lia|].
        replace (Z.of_nat (S n) + 1) with (Z.succ (Z.of_nat n + 1)) in Hu by lia. rewrite Z.pow_succ_r in Hu by lia. lia. }
      split_and!; [|done|done|simpl in *; lia]. rewrite E, Ed. simpl length.
      rewrite Nat2Z.inj_succ, Z.pow_succ_r by lia. rewrite Hdm at 3. ring.
    + split_and!; [|done|done|simpl; lia]. rewrite Ed. f_equal. f_equal. lia.
Qed.

(** The numeral of an int, as %d prints it. *)
Definition decimal (n : Z) : list Z :=
  if decide (n < 0) then 45 :: digits_of 9 (- n) [] else digits_of 9 n [].

Lemma decimal_ok n : - 2 ^ 31 <= n < 2 ^ 31 ->
  numeral (decimal n) /\ numval (decimal n) = n /\ (1 <= length (decimal n) <= 11)%nat /\
  Forall (fun c => 0 < c < 256) (decimal n).
Proof.
  intros Hn. unfold decimal, numeral. case_decide.
  - destruct (digits_of_dec 9 (- n) []) as (E & Hd & Hne & Hl); [simpl; lia|constructor|].
    split; [right; by eexists|]. split; [unfold numval; rewrite decide_True, E by done; unfold dec; simpl; lia|]. split; [simpl in *; lia|].
    constructor; [lia|]. eapply Forall_impl; [done|]. simpl. lia.
  - destruct (digits_of_dec 9 n []) as (E & Hd & Hne & Hl); [simpl; lia|constructor|].
    split; [by left|]. split; [|split; [|eapply Forall_impl; [done|]; simpl; lia]].
    + destruct (digits_of 9 n []) as [|c ds] eqn:Ed; [done|]. unfold numval. apply Forall_cons in Hd as [Hc _].
      rewrite decide_False by lia. rewrite E. simpl. unfold dec. simpl. lia.
    + destruct (digits_of 9 n []); [done|]. simpl in *. lia.
Qed.

(** What the format %d writes. *)
Lemma print_d m b l n : 13 <= l -> fits m b (Z.to_nat (l + 1)) -> - 2 ^ 31 <= n < 2 ^ 31 ->
  va_snprintf m b l [37; 100; 0] 0 [AInt n] = Ok (splice m b (decimal n ++ [0])).
Proof.
  intros Hl Hf Hn. destruct (decimal_ok n Hn) as (_ & _ & Hlen & Hby).
  assert (forall s ds out, wrote m b out s -> room s = l - 1 - Z.of_nat (length out) -> out ++ ds = decimal n -> bytes ds ->
    exists s', put_digits s ds = Ok s' /\ wrote m b (decimal n) s' /\ 0 < room s' /\ args s' = args s) as Hput.
  { intros s ds out Hw Hr E Hb. assert (length (decimal n) = length out + length ds)%nat as El by (by rewrite <- E, length_app).
    destruct (put_digits_ok m b ds out s) as (s' & E' & Hw' & Er & Ea); [done|lia|done|unfold fits in *; lia|].
    exists s'. split; [done|]. rewrite take_ge, E in Hw' by lia. split; [done|]. split; [lia|done]. }
  assert (exists s', directive (St m b (l - 1) [AInt n] false false) 100 = Ok s' /\ wrote m b (decimal n) s' /\ 0 < room s') as (s' & Ed & [Eb Ep] & Hr).
  { unfold directive, pop_int. do 4 (rewrite decide_False by lia). rewrite decide_True by lia. cbn [args cbind buf pos room mod_l mod_ll].
    assert (wrote m b [] (St m b (l - 1) [] false false)) as Hw0 by (split; simpl; [by rewrite splice_nil|lia]).
    unfold decimal in *. case_decide as Hneg.
    - destruct (emit_wrote m b [] _ 45 Hw0) as (s1 & -> & Hw1 & Er & _); [unfold fits in *; simpl; lia|]. cbn [cbind].
      simpl in Er. rewrite decide_False by lia. rewrite u32_small by lia.
      destruct (Hput s1 (digits_of 9 (- n) []) [45]) as (s' & E & Hw' & H' & _); [done|simpl; lia|done|apply digits_of_bytes; constructor|]. eauto.
    - rewrite u32_small by lia.
      destruct (Hput (St m b (l - 1) [] false false) (digits_of 9 n []) []) as (s' & E & Hw' & H' & _); [done|simpl; lia|done|apply digits_of_bytes; constructor|]. eauto. }
  unfold va_snprintf. rewrite decide_False by lia. cbn [length format room]. rewrite decide_False by lia.
  change (rd [37; 100; 0] 0) with (Ok 37). cbn [cbind]. rewrite decide_False, decide_True by lia.
  cbn [room set_left]. rewrite decide_False by lia. cbn [modifiers]. change (rd [37; 100; 0] (0 + 1)) with (Ok 100). cbn [cbind].
  rewrite decide_False by lia. cbn [cbind]. unfold set_left. cbn [buf pos args mod_l mod_ll]. rewrite Ed. cbn [cbind].
  rewrite decide_False by lia. change (rd [37; 100; 0] (0 + 1 + 1)) with (Ok 0). cbn [cbind]. rewrite decide_True by done. cbn [cbind].
  rewrite Eb, Ep. apply wr_snoc; [unfold fits in *; lia|lia].
Qed.

(** Formatting and parsing are inverse: what %d prints for an int, with room for
  it, atoi reads back as the same int, INT_MIN included. *)
Theorem print_parse_int m b l n (Hl : 13 <= l) (Hb : fits m b (Z.to_nat (l + 1))) (Hn : - 2 ^ 31 <= n < 2 ^ 31) :
  (let! m' := va_snprintf m b l [37; 100; 0] 0 [AInt n] in atoi m' b) = Ok n.
Proof.
  rewrite print_d by done. cbn [cbind]. destruct (decimal_ok n Hn) as (Hnum & Hval & Hlen & Hby).
  rewrite (atoi_numeral _ _ (decimal n)); [|apply str_at_splice; [unfold fits in *; lia|done]|done].
  by rewrite Hval, s32_small.
Qed.

(** ** Witnesses *)

Lemma va_snprintf_bounded_witness :
  exists out, va_snprintf [9; 9; 9; 9; 9; 9; 9] 0 6 [37; 117; 37; 115; 0] 0 [AInt 42; AStr [97; 0] 0] =
    Ok (splice [9; 9; 9; 9; 9; 9; 9] 0 (out ++ [0])) /\ Z.of_nat (length out) <= 6.
Proof.
  apply (va_snprintf_bounded [9; 9; 9; 9; 9; 9; 9] 0 6 [37; 117; 37; 115; 0] 0 [37; 117; 37; 115]).
  - lia.
  - split; simpl; lia.
  - simpl. split_and!; (reflexivity || lia).
  - constructor; [done|]. constructor; [|done]. exists [97]. simpl. split_and!; (reflexivity || lia).
  - reflexivity.
Defined.

Lemma va_snprintf_needs_one_more_witness : va_snprintf [9; 9] 0 2 [97; 98; 99; 0] 0 [] = Fault.
Proof.
  apply (va_snprintf_needs_one_more [9; 9] 0 2 [97; 98; 99; 0] 0 [97; 98; 99]).
  - lia.
  - simpl. split_and!; (reflexivity || lia).
  - set_solver.
  - simpl. lia.
  - split; simpl; lia.
Defined.

Lemma print_parse_int_witness :
  (let! m' := va_snprintf (replicate 14 9) 0 13 [37; 100; 0] 0 [AInt (-2147483648)] in atoi m' 0) = Ok (-2147483648).
Proof. apply (print_parse_int (replicate 14 9) 0 13 (-2147483648)); [lia|split; simpl; lia|lia]. Defined.

End Snprintf.
