(* ===== verification/Console.v ===== *)
(** srv/console2/console.c: the console server.

  Ten virtual consoles ([con]) and a status bar ([statbar]) share the text screen of
  the display, an area of 0x2000 bytes, i.e. 4096 cells.  Where a virtual screen is
  drawn depends on its field [data]: it is its own memory ([Back]) or a place on the
  display ([Screen]).  The keyboard thread switches consoles by moving the contents
  between the two (save, load); the output thread prints what arrives at the port.

  The two threads run interleaved.  What a thread does between sem_acquire and
  sem_release of one virtual screen is one step; so is every other access to a
  variable the threads share ([active], [remote_port], [line]).  The keyboard
  thread's remaining steps are [work]; the output thread's position is [out].

  The engine (Vt100) works on a [virtscreen] with its cells, the test
  [cur == active] and the cursor registers; [on_screen] gives it those. *)
From S2P Require Import Prelude LibC Vt100 Snprintf.
Import LibC Vt100 Snprintf.
Local Open Scope Z_scope.
Local Open Scope c_scope.

Module Console.

(** ** Data *)

(** The field [data]: equal to [back], or so many cells into the display. *)
Inductive place := Back | Screen (off : Z).
#[global] Instance place_eq_dec : EqDecision place.
Proof. solve_decision. Defined.

(** [vt] holds the fields of the struct; its [data] are the cells at [back]. *)
Record vscr := Vscr { vt : virtscreen; at_ : place }.

(** The keyboard thread's flags. *)
Record kbd := Kbd { kb_shift : bool; kb_control : bool; kb_alt : bool }.

(** The steps of the keyboard thread. *)
Inductive act :=
| ASave                (* save(active) *)
| ADebug               (* os_debug() *)
| ASwitch (n : nat)    (* active = &con[n] *)
| ALoad                (* load(active), up to sem_release *)
| AFormat              (* status(): the text is put together in line *)
| AStatus              (* status(): vputs(&statbar, line) *)
| AEcho (key : Z)      (* keypress(): the character on the active console *)
| ASend (key : Z).     (* keypress(): the character to the remote port *)

(** The output thread: in port_recv; about to enter vputs; in the last vprintf,
  before and after the text is in [line]; terminated. *)
Inductive othread :=
| Listening | Putting (p : nat) (str : list Z) | Leaving (p : nat) (l : Z) | LastPut (p : nat) | Gone.

Record console := Cons {
  screen : list Z;
  cursor : Z;
  con : list vscr;
  statbar : vscr;
  active : option nat;
  remote_port : Z;
  sent : list (Z * Z);
  line : list Z;
  buf : list Z;
  keys : kbd;
  work : list act;
  out : othread
}.

Definition set_con (l : list vscr) (s : console) : console :=
  Cons (screen s) (cursor s) l (statbar s) (active s) (remote_port s) (sent s) (line s) (buf s) (keys s) (work s) (out s).
Definition set_screen (l : list Z) (s : console) : console :=
  Cons l (cursor s) (con s) (statbar s) (active s) (remote_port s) (sent s) (line s) (buf s) (keys s) (work s) (out s).
Definition set_cursor (v : Z) (s : console) : console :=
  Cons (screen s) v (con s) (statbar s) (active s) (remote_port s) (sent s) (line s) (buf s) (keys s) (work s) (out s).
Definition set_statbar (v : vscr) (s : console) : console :=
  Cons (screen s) (cursor s) (con s) v (active s) (remote_port s) (sent s) (line s) (buf s) (keys s) (work s) (out s).
Definition set_active (p : nat) (s : console) : console :=
  Cons (screen s) (cursor s) (con s) (statbar s) (Some p) (remote_port s) (sent s) (line s) (buf s) (keys s) (work s) (out s).
Definition set_remote (v : Z) (s : console) : console :=
  Cons (screen s) (cursor s) (con s) (statbar s) (active s) v (sent s) (line s) (buf s) (keys s) (work s) (out s).
Definition add_sent (m : Z * Z) (s : console) : console :=
  Cons (screen s) (cursor s) (con s) (statbar s) (active s) (remote_port s) (sent s ++ [m]) (line s) (buf s) (keys s) (work s) (out s).
Definition set_line (l : list Z) (s : console) : console :=
  Cons (screen s) (cursor s) (con s) (statbar s) (active s) (remote_port s) (sent s) l (buf s) (keys s) (work s) (out s).
Definition set_buf (l : list Z) (s : console) : console :=
  Cons (screen s) (cursor s) (con s) (statbar s) (active s) (remote_port s) (sent s) (line s) l (keys s) (work s) (out s).
Definition set_keys (k : kbd) (s : console) : console :=
  Cons (screen s) (cursor s) (con s) (statbar s) (active s) (remote_port s) (sent s) (line s) (buf s) k (work s) (out s).
Definition set_work (w : list act) (s : console) : console :=
  Cons (screen s) (cursor s) (con s) (statbar s) (active s) (remote_port s) (sent s) (line s) (buf s) (keys s) w (out s).
Definition set_out (o : othread) (s : console) : console :=
  Cons (screen s) (cursor s) (con s) (statbar s) (active s) (remote_port s) (sent s) (line s) (buf s) (keys s) (work s) o.

(** ** Running the engine on a virtual screen *)

(** The environment of the engine: is this the active screen, and the cursor registers. *)
Definition with_env (a : bool) (k : Z) (s : virtscreen) : virtscreen :=
  VS (rows s) (columns s) (num_bytes s) (data s) (xpos s) (ypos s) (top_scroll s) (bottom_scroll s) (attrib s) (old_attrib s) (old_xpos s)
    (old_ypos s) (cur_ansi_number s) (ansi_elements s) (ansi_reading_number s) (ansi_element s) (next_char_send s) a k.
Definition erase : virtscreen -> virtscreen := with_env false 0.

(** The cells of a virtual screen: at [back], or on the display. *)
Definition ncells (v : vscr) : nat := Z.to_nat (rows (vt v) * columns (vt v)).
Definition cells (scr : list Z) (v : vscr) : list Z :=
  match at_ v with Back => data (vt v) | Screen off => slice scr off (ncells v) end.

(** The screen as the engine sees it. *)
Definition terminal (scr : list Z) (v : vscr) : virtscreen := set_data (cells scr v) (vt v).

(** What the engine leaves behind, where [data] points. *)
Definition put_back (s : console) (v : vscr) (t : virtscreen) : console * vscr :=
  let s := set_cursor (crtc t) s in
  match at_ v with
  | Back => (s, Vscr (erase t) Back)
  | Screen off => (set_screen (splice (screen s) off (data t)) s, Vscr (set_data (data (vt v)) (erase t)) (Screen off))
  end.

(** The engine's operation [f] on console [p], and on the status bar. *)
Definition on_con (s : console) (p : nat) (f : virtscreen -> cres virtscreen) : cres console :=
  let? v := con s !! p in
  let! t := f (with_env (bool_decide (active s = Some p)) (cursor s) (terminal (screen s) v)) in
  let '(s, v) := put_back s v t in Ok (set_con (<[p := v]> (con s)) s).
Definition on_statbar (s : console) (f : virtscreen -> cres virtscreen) : cres console :=
  let v := statbar s in
  let! t := f (with_env false (cursor s) (terminal (screen s) v)) in
  let '(s, v) := put_back s v t in Ok (set_statbar v s).

(** ** Strings *)

Definition CLEAR : list Z := 27 :: cstr "[2J".
Definition FG_WHITE : list Z := 27 :: cstr "[37m".
Definition BG_BLUE : list Z := 27 :: cstr "[41m".
Definition STATUS : list Z := FG_WHITE ++ BG_BLUE ++ CLEAR ++ cstr "### OpenBLT Console mkII ### VC %d".
Definition LEFT : list Z := cstr "console: output listener has left the building (%d)" ++ [10].
Definition HATES : list Z := cstr "console: the namer hates us" ++ [10].

(** The characters vputs reads from [s] on, up to the terminator. *)
Fixpoint text (m : list Z) (p : Z) (fuel : nat) : cres (list Z) :=
  match fuel with
  | O => Fault
  | S fuel => let! c := rd m p in if decide (c = 0) then Ok [] else let! l := text m (p + 1) fuel in Ok (c :: l)
  end.

(** vprintf: the text is put together in the static buffer ... *)
Definition format_line (s : console) (fmt : list Z) (a : list arg) : cres console :=
  let! l := va_snprintf (line s) 0 128 (fmt ++ [0]) 0 a in
  let! l := wr l 127 0 in Ok (set_line l s).

(** ... and shown from there. *)
Definition line_text (s : console) : cres (list Z) := text (line s) 0 (S (length (line s))).

(** ** The keyboard thread *)

Definition ESC : Z := 27.
Definition BS : Z := 8.
Definition TAB : Z := 9.
Definition LF : Z := 10.
Definition ScanTable : list Z :=
  [32; ESC] ++ cstr "1234567890-=" ++ [BS; TAB] ++ cstr "qwertyuiop[]" ++ [LF] ++ cstr " asdfghjkl;'` \zxcvbnm,./     ".
Definition ShiftTable : list Z :=
  [32; ESC] ++ cstr "!@#$%^&*()_+  QWERTYUIOP{}" ++ [LF] ++ cstr " ASDFGHJKL:" ++ [34] ++ cstr "~ |ZXCVBNM<>?     ".

Definition LSHIFT : Z := 42.
Definition RSHIFT : Z := 54.
Definition CONTROL : Z := 0x1d.
Definition ALT : Z := 0x38.
Definition F1 : Z := 0x3b.
Definition F10 : Z := 0x44.

(** load(active) with the status line it ends with; function(number); keypress(key). *)
Definition load_acts : list act := [ALoad; AFormat; AStatus].
Definition function (number : nat) : list act := [ASave; ASwitch number] ++ load_acts.
Definition keypress (key : Z) : list act := [AEcho key; ASend key].

(** One turn of keyboard_irq_thread: the flags and the calls the scan code [key] asks for. *)
Definition keyboard_irq (k : kbd) (key : Z) : cres (kbd * list act) :=
  if kb_alt k && bool_decide (key = 1) then Ok (Kbd (kb_shift k) (kb_control k) false, [ASave; ADebug] ++ load_acts)
  else if decide (F1 <= key <= F10) then Ok (k, function (Z.to_nat (key - F1)))
  else if decide (key = ALT) then Ok (Kbd (kb_shift k) (kb_control k) true, [])
  else if decide (key = Z.lor ALT 0x80) then Ok (Kbd (kb_shift k) (kb_control k) false, [])
  else if decide (key = CONTROL) then Ok (Kbd (kb_shift k) true (kb_alt k), [])
  else if decide (key = Z.lor CONTROL 0x80) then Ok (Kbd (kb_shift k) false (kb_alt k), [])
  else if decide (key = LSHIFT \/ key = RSHIFT) then Ok (Kbd true (kb_control k) (kb_alt k), [])
  else if decide (key = Z.lor LSHIFT 0x80 \/ key = Z.lor RSHIFT 0x80) then Ok (Kbd false (kb_control k) (kb_alt k), [])
  else if decide (Z.land key 0x80 <> 0) then Ok (k, [])
  else if decide (key < 59) then
    if kb_control k then
      let? key := aget ScanTable key in
      Ok (k, if decide (97 <= key <= 122) then keypress (key - 97 + 1) else [])
    else
      let? key := aget (if kb_shift k then ShiftTable else ScanTable) key in Ok (k, keypress key)
  else Ok (k, []).

(** memcpy of [len] bytes between blocks of cells. *)
Definition copy_cells (dm : list Z) (d : Z) (sm : list Z) (p len : Z) : cres (list Z) :=
  let n := u32 len / 2 in
  if decide (0 <= d /\ d + n <= Z.of_nat (length dm) /\ 0 <= p /\ p + n <= Z.of_nat (length sm))
  then Ok (splice dm d (slice sm p (Z.to_nat n))) else Fault.

Definition save (s : console) (p : nat) : cres console :=
  let? v := con s !! p in
  match at_ v with
  | Back => Ok s
  | Screen off =>
      let! b := copy_cells (data (vt v)) 0 (screen s) off (num_bytes (vt v)) in
      Ok (set_con (<[p := Vscr (set_data b (vt v)) Back]> (con s)) s)
  end.

Definition load (s : console) (p : nat) : cres console :=
  let? v := con s !! p in
  let! s := match at_ v with
            | Back =>
                let! scr := copy_cells (screen s) 0 (data (vt v)) 0 (num_bytes (vt v)) in
                Ok (set_screen scr (set_con (<[p := Vscr (vt v) (Screen 0)]> (con s)) s))
            | Screen _ => Ok s
            end in
  Ok (set_cursor (movecursor (xpos (vt v)) (ypos (vt v))) (set_active p s)).

(** One step of the keyboard thread. *)
Definition run_act (a : act) (s : console) : cres console :=
  let? p := active s in
  match a with
  | ASave => save s p
  | ADebug => Ok s
  | ASwitch n => Ok (set_active n s)
  | ALoad => load s p
  | AFormat => format_line s STATUS [AInt (Z.of_nat p)]
  | AStatus => let! l := line_text s in on_statbar s (fun t => vputs t l)
  | AEcho key => on_con s p (fun t => char_to_virtscreen t (u8 key))
  | ASend key => Ok (if decide (0 < remote_port s) then add_sent (remote_port s, u8 key) s else s)
  end.

(** ** The output thread *)

(** A message of [msg] arrived: code 0 names the port that gets the keys, anything
  else is text for the active console. *)
Definition receive (s : console) (src : Z) (msg : list Z) (code : Z) : cres console :=
  let s := set_buf (splice (buf s) 0 msg) s in
  if decide (code = 0) then Ok (set_remote src s)
  else
    let! b := wr (buf s) (Z.of_nat (length msg)) 0 in
    let? p := active s in
    let! str := text b 0 (S (length b)) in
    Ok (set_out (Putting p str) (set_buf b s)).

(** The characters vputs passes to the engine: a line feed is followed by a return. *)
Definition expand (str : list Z) : list Z := str ≫= fun c => if decide (c = 10) then [10; 13] else [c].

(** ** Start-up *)

Definition vscr_zero : vscr :=
  Vscr (VS 0 0 0 [] 0 0 0 0 0 0 0 0 0 0 0 (replicate 16 0) std_interpret_char_h false 0) Back.

(** init_virtscreen(&con[i], 24, 80) with its memory, and vputs(&con[i], CLEAR). *)
Definition init_con (s : console) (i : nat) (mem : list Z) : cres console :=
  let? v := con s !! i in
  let! (_, t) := init_virtscreen (vt v) (Some mem) 24 80 in
  let s := set_con (<[i := Vscr t Back]> (con s)) s in
  on_con s i (fun t => vputs t CLEAR).

Fixpoint init_cons (s : console) (i : nat) (mems : list (list Z)) : cres console :=
  match mems with
  | [] => Ok s
  | mem :: mems => let! s := init_con s i mem in init_cons s (S i) mems
  end.

Fixpoint run_acts (l : list act) (s : console) : cres console :=
  match l with [] => Ok s | a :: l => let! s := run_act a s in run_acts l s end.

(** The display holds [scr], malloc returns [smem] for the status bar and [mems] for
  the consoles, and [err] is what namer_register returned. *)
Definition console_main (scr smem : list Z) (mems : list (list Z)) (err : Z) : cres console :=
  let s := Cons scr 0 (replicate 10 vscr_zero) vscr_zero None (-1) [] (replicate 128 0) (replicate 257 0)
             (Kbd false false false) [] Listening in
  let! (_, t) := init_virtscreen (vt (statbar s)) (Some smem) 1 80 in
  let s := set_statbar (Vscr t (Screen (80 * 24))) s in
  let! s := init_cons s 0 mems in
  let! s := load s 0 in
  let! s := run_acts [AFormat; AStatus] s in
  let! s := format_line s STATUS [AInt 0] in
  let! s := run_act AStatus s in
  if decide (err <> 0) then
    let! s := format_line s HATES [] in let! l := line_text s in
    let? p := active s in on_con s p (fun t => vputs t l)
  else Ok s.

(** ** The two threads *)

(** A step and what it makes the engine read: the console and the characters. *)
Inductive step : console -> option (nat * list Z) -> cres console -> Prop :=
| step_irq s key : work s = [] -> 0 <= key < 256 ->
    step s None (let! (k, w) := keyboard_irq (keys s) key in Ok (set_work w (set_keys k s)))
| step_echo s key w p : work s = AEcho key :: w -> active s = Some p ->
    step s (Some (p, [u8 key])) (run_act (AEcho key) (set_work w s))
| step_kbd s a w : work s = a :: w -> (forall key, a <> AEcho key) -> step s None (run_act a (set_work w s))
| step_recv s src msg code : out s = Listening -> (length msg <= 256)%nat -> bytes msg -> step s None (receive s src msg code)
| step_put s p str : out s = Putting p str ->
    step s (Some (p, expand str)) (on_con (set_out Listening s) p (fun t => vputs t str))
| step_leave s l p : out s = Listening -> - 2 ^ 31 <= l < 0 -> active s = Some p -> step s None (Ok (set_out (Leaving p l) s))
| step_format s p l : out s = Leaving p l -> step s None (format_line (set_out (LastPut p) s) LEFT [AInt l])
| step_last s p str : out s = LastPut p -> line_text s = Ok str ->
    step s (Some (p, expand str)) (on_con (set_out Gone s) p (fun t => vputs t str)).

(** The characters console [i] was sent, in order. *)
Definition chars_of (i : nat) (tr : list (nat * list Z)) : list Z :=
  tr ≫= fun e => if decide (e.1 = i) then e.2 else [].

Definition boot_trace (err : Z) : list (nat * list Z) :=
  map (fun i => (i, CLEAR)) (seq 0 10) ++ (if decide (err <> 0) then [(0%nat, expand HATES)] else []).

(** The memory console_main is given. *)
Definition good_memory (scr smem : list Z) (mems : list (list Z)) : Prop :=
  length scr = 4096%nat /\ length smem = 80%nat /\ length mems = 10%nat /\ Forall (fun m => length m = 1920%nat) mems.

Inductive reach : list (nat * list Z) -> console -> Prop :=
| reach_boot scr smem mems err s : good_memory scr smem mems -> console_main scr smem mems err = Ok s -> reach (boot_trace err) s
| reach_step tr s o s' : reach tr s -> step s o (Ok s') -> reach (tr ++ match o with Some e => [e] | None => [] end) s'.

(** ** What the consoles promise *)

(** A terminal of its own, as init_virtscreen leaves it. *)
Definition fresh : virtscreen :=
  VS 24 80 3840 (replicate 1920 (u16 (blank 7))) 0 0 0 24 7 7 0 0 0 0 0 (replicate 16 0) std_interpret_char_h false 0.

(** The row of the status bar that names console [n]: white on colour 1. *)
Definition status_row (n : nat) : list Z :=
  let str := cstr "### OpenBLT Console mkII ### VC " ++ decimal (Z.of_nat n) in
  map (fun c => Z.lor c 0x1700) (str ++ replicate (80 - length str) 32).

End Console.
