(* ===== verification/VtFrame.v ===== *)
(** What the VT100 engine leaves alone: its environment (the test [cur == active] and
  the cursor registers) has no influence on the terminal, and the size of the screen
  never changes.  A console can therefore be compared with a terminal of its own. *)
From S2P Require Import Prelude LibC Vt100 Snprintf Console.
Import LibC Vt100 Snprintf Console.
Local Open Scope Z_scope.
Local Open Scope c_scope.

Module VtFrame.

Definition lift (r : cres virtscreen) : cres virtscreen := let! t := r in Ok (erase t).

Lemma lift_bind r r' (h : virtscreen -> cres virtscreen) : r' = lift r -> (forall t, h (erase t) = lift (h t)) -> cbind r' h = lift (cbind r h).
Proof. intros -> H. destruct r as [t| |]; simpl; [apply H|done|done]. Qed.

Lemma lift_bindA {A} (r : cres A) (h h' : A -> cres virtscreen) : (forall x, h' x = lift (h x)) -> cbind r h' = lift (cbind r h).
Proof. intros H. destruct r as [t| |]; simpl; [apply H|done|done]. Qed.

Lemma lift_if {P} `{!Decision P} r1 r2 r1' r2' : r1' = lift r1 -> r2' = lift r2 ->
  (if decide P then r1' else r2') = lift (if decide P then r1 else r2).
Proof. intros -> ->. by case_decide. Qed.

Lemma upd_data_erase s r : upd_data (erase s) r = lift (upd_data s r).
Proof. by destruct r. Qed.

Lemma move_cursor_erase s : erase (move_cursor s) = move_cursor (erase s).
Proof. unfold move_cursor. simpl. by destruct (is_active s). Qed.

Lemma move_cursor_lift s s' : s' = erase s -> Ok (move_cursor s') = lift (Ok (move_cursor s)).
Proof. intros ->. simpl. by rewrite move_cursor_erase. Qed.

Lemma position_console_erase s y x rel : position_console (erase s) y x rel = erase (position_console s y x rel).
Proof. unfold position_console. by destruct rel; rewrite move_cursor_erase. Qed.

(** The engine's operations commute with [erase]. *)
Ltac frame :=
  repeat first
    [ reflexivity
    | assumption
    | apply upd_data_erase
    | apply move_cursor_lift; reflexivity
    | rewrite position_console_erase; reflexivity
    | apply lift_if
    | apply lift_bind; [|intros ?t]
    | apply lift_bindA; intros ?x ].

Lemma clear_region_erase s y1 x1 y2 x2 a : clear_region (erase s) y1 x1 y2 x2 a = lift (clear_region s y1 x1 y2 x2 a).
Proof. apply upd_data_erase. Qed.

Lemma clear_virtscreen_erase s m : clear_virtscreen (erase s) m = lift (clear_virtscreen s m).
Proof. unfold clear_virtscreen. frame. Qed.

Lemma clear_to_eol_erase s m : clear_to_eol (erase s) m = lift (clear_to_eol s m).
Proof. unfold clear_to_eol. frame. Qed.

Lemma scroll_at_cursor_erase s dir : scroll_virt_up_at_cursor (erase s) dir = lift (scroll_virt_up_at_cursor s dir).
Proof. unfold scroll_virt_up_at_cursor. destruct dir; frame. Qed.

Lemma scroll_virtscreen_erase s : scroll_virtscreen (erase s) = lift (scroll_virtscreen s).
Proof. unfold scroll_virtscreen. frame. Qed.

Lemma scroll_lines_erase dir n : forall s, scroll_lines (erase s) dir n = lift (scroll_lines s dir n).
Proof. induction n as [|n IH]; intros s; simpl; [done|]. apply lift_bind; [apply scroll_at_cursor_erase|done]. Qed.

Lemma index_down_erase s : index_down (erase s) = lift (index_down s).
Proof. unfold index_down. frame. Qed.

Lemma line_feed_erase s : line_feed (erase s) = lift (line_feed s).
Proof. unfold line_feed. frame. Qed.

Lemma end_escape_erase ch s : end_escape ch (erase s) = lift (end_escape ch s).
Proof. unfold end_escape. by case_decide. Qed.

Lemma backspace_erase s : backspace (erase s) = lift (backspace s).
Proof. unfold backspace. cbn [xpos set_xpos ypos columns erase with_env]. by repeat case_decide. Qed.

Lemma put_char_erase s ch : put_char (erase s) ch = lift (put_char s ch).
Proof. unfold put_char, change_character. frame. cbn [xpos set_xpos columns erase with_env]. by case_decide. Qed.

Lemma delete_chars_erase s n : delete_chars_in_line (erase s) n = lift (delete_chars_in_line s n).
Proof. unfold delete_chars_in_line. frame. Qed.

Lemma sgr_erase s c : sgr (erase s) c = erase (sgr s c).
Proof. unfold sgr, change_attribute. cbn [attrib erase with_env]. by repeat case_decide. Qed.

Lemma sgr_loop_erase n : forall s c, sgr_loop (erase s) c n = lift (sgr_loop s c n).
Proof. induction n as [|n IH]; intros s c; simpl; [done|]. apply lift_bindA. intros x. rewrite sgr_erase. apply IH. Qed.

Lemma select_rendition_erase s : select_rendition (erase s) = lift (select_rendition s).
Proof. unfold select_rendition. cbn [ansi_elements erase with_env]. case_decide; apply (sgr_loop_erase _ (change_attribute s 7)) || apply sgr_loop_erase. Qed.

Lemma end_number_erase s ch : end_number (erase s) ch = lift (end_number s ch).
Proof. unfold end_number. frame. Qed.

Lemma std_interpret_ansi_erase s ch : std_interpret_ansi (erase s) ch = lift (std_interpret_ansi s ch).
Proof.
  unfold std_interpret_ansi. frame; try apply (end_escape_erase ch (save_cursor s (attrib s))); try apply end_escape_erase.
  - rewrite (position_console_erase (change_attribute s (old_attrib s))). apply end_escape_erase.
  - rewrite <- move_cursor_erase. apply end_escape_erase.
Qed.

Lemma std_interpret_char_erase s ch : std_interpret_char (erase s) ch = lift (std_interpret_char s ch).
Proof.
  unfold std_interpret_char. frame;
    try first [apply clear_virtscreen_erase|apply line_feed_erase|apply backspace_erase|apply put_char_erase].
  all: cbn [xpos set_xpos columns ypos erase with_env]; by case_decide.
Qed.

Lemma control_erase s ch : control (erase s) ch = lift (control s ch).
Proof.
  unfold control. change (param (erase s)) with (param s). cbn [xpos ypos erase with_env rows old_ypos old_xpos].
  frame; first [apply clear_virtscreen_erase|apply scroll_lines_erase|apply delete_chars_erase|apply clear_to_eol_erase
    |apply select_rendition_erase|by case_decide].
Qed.

Lemma char_erase s ch : char_to_virtscreen (erase s) ch = lift (char_to_virtscreen s ch).
Proof.
  unfold char_to_virtscreen. cbn [next_char_send erase with_env].
  destruct (next_char_send s); [apply std_interpret_char_erase|apply std_interpret_ansi_erase| |done|done].
  apply lift_if; [done|]. apply lift_bind; [apply end_number_erase|]. intros t.
  apply lift_if; [done|]. apply lift_bind; [apply control_erase|done].
Qed.

Lemma send_chars_erase l : forall s, send_chars (erase s) l = lift (send_chars s l).
Proof. induction l as [|ch l IH]; intros s; simpl; [done|]. apply lift_bind; [apply char_erase|done]. Qed.

(** The size of the screen. *)
Definition geom (s : virtscreen) : Z * Z * Z := (rows s, columns s, num_bytes s).
Definition keeps (s : virtscreen) (r : cres virtscreen) : Prop := match r with Ok t => geom t = geom s | _ => True end.

Lemma keeps_then s r h : keeps s r -> (forall t, geom t = geom s -> keeps s (h t)) -> keeps s (cbind r h).
Proof. destruct r as [t| |]; simpl; auto. Qed.
Lemma keeps_bindA {A} s (r : cres A) h : (forall x, keeps s (h x)) -> keeps s (cbind r h).
Proof. destruct r as [t| |]; simpl; auto. Qed.
Lemma keeps_if {P} `{!Decision P} s r1 r2 : keeps s r1 -> keeps s r2 -> keeps s (if decide P then r1 else r2).
Proof. by case_decide. Qed.
Lemma keeps_upd s t r : geom t = geom s -> keeps s (upd_data t r).
Proof. by destruct r. Qed.
Lemma keeps_trans s t r : geom t = geom s -> keeps t r -> keeps s r.
Proof. unfold keeps. destruct r; congruence. Qed.
Lemma geom_move_cursor s : geom (move_cursor s) = geom s.
Proof. unfold move_cursor. by destruct (is_active s). Qed.
Lemma geom_position_console s y x rel : geom (position_console s y x rel) = geom s.
Proof. unfold position_console. by destruct rel; rewrite geom_move_cursor. Qed.

Ltac keep :=
  repeat first
    [ assumption
    | lazymatch goal with
      | |- keeps _ (upd_data _ _) => apply keeps_upd
      | |- keeps _ (let _ := _ in _) => cbv zeta
      | |- keeps _ (if decide _ then _ else _) => apply keeps_if
      | |- keeps _ (@cbind virtscreen _ _ _) => apply keeps_then; [|intros ?t ?Ht]
      | |- keeps _ (cbind _ _) => apply keeps_bindA; intros ?x
      | |- keeps _ (Ok _) => solve [simpl; rewrite ?geom_move_cursor, ?geom_position_console; unfold geom in *; simpl in *; congruence]
      | |- geom _ = geom _ => solve [simpl; rewrite ?geom_move_cursor, ?geom_position_console; unfold geom in *; simpl in *; congruence]
      end ].

Lemma clear_virtscreen_keeps s m : keeps s (clear_virtscreen s m).
Proof. unfold clear_virtscreen, clear_region. keep. Qed.
Lemma clear_to_eol_keeps s m : keeps s (clear_to_eol s m).
Proof. unfold clear_to_eol, clear_region. keep. Qed.
Lemma scroll_at_cursor_keeps s dir : keeps s (scroll_virt_up_at_cursor s dir).
Proof. unfold scroll_virt_up_at_cursor. destruct dir; keep. Qed.
Lemma scroll_virtscreen_keeps s : keeps s (scroll_virtscreen s).
Proof. unfold scroll_virtscreen. keep. Qed.
Lemma scroll_lines_keeps dir n : forall s, keeps s (scroll_lines s dir n).
Proof.
  induction n as [|n IH]; intros s; simpl; [done|]. apply keeps_then; [apply scroll_at_cursor_keeps|].
  intros t Ht. by apply (keeps_trans s t).
Qed.
Lemma index_down_keeps s : keeps s (index_down s).
Proof. unfold index_down. keep. apply (keeps_trans s (set_ypos (s32 (ypos s + 1)) s)); [done|]. apply scroll_virtscreen_keeps. Qed.
Lemma line_feed_keeps s : keeps s (line_feed s).
Proof. unfold line_feed. keep. apply (keeps_trans s (set_ypos (s32 (ypos s + 1)) s)); [done|]. apply scroll_virtscreen_keeps. Qed.
Lemma end_escape_keeps ch s t : geom t = geom s -> keeps s (end_escape ch t).
Proof. intros H. unfold end_escape. by case_decide. Qed.
Lemma backspace_keeps s : keeps s (backspace s).
Proof. unfold backspace. by repeat case_decide. Qed.
Lemma put_char_keeps s ch : keeps s (put_char s ch).
Proof. unfold put_char, change_character. keep. by case_decide. Qed.
Lemma delete_chars_keeps s n : keeps s (delete_chars_in_line s n).
Proof. unfold delete_chars_in_line. keep. Qed.
Lemma geom_sgr s c : geom (sgr s c) = geom s.
Proof. unfold sgr, change_attribute. by repeat case_decide. Qed.
Lemma sgr_loop_keeps n : forall s c, keeps s (sgr_loop s c n).
Proof.
  induction n as [|n IH]; intros s c; simpl; [done|]. apply keeps_bindA. intros x.
  apply (keeps_trans s (sgr s x)); [apply geom_sgr|apply IH].
Qed.
Lemma select_rendition_keeps s : keeps s (select_rendition s).
Proof. unfold select_rendition. case_decide; [|apply sgr_loop_keeps]. apply (keeps_trans s (change_attribute s 7)); [done|apply sgr_loop_keeps]. Qed.
Lemma end_number_keeps s ch : keeps s (end_number s ch).
Proof. unfold end_number. keep. Qed.

Lemma std_interpret_ansi_keeps s ch : keeps s (std_interpret_ansi s ch).
Proof.
  unfold std_interpret_ansi. keep; try (apply end_escape_keeps; rewrite ?geom_move_cursor, ?geom_position_console; done).
  - apply (keeps_trans s (set_xpos 0 s)); [done|apply index_down_keeps].
  - apply index_down_keeps.
  - eapply keeps_trans; [|apply scroll_at_cursor_keeps]. done.
Qed.

Lemma std_interpret_char_keeps s ch : keeps s (std_interpret_char s ch).
Proof.
  unfold std_interpret_char. keep;
    first [apply clear_virtscreen_keeps|apply line_feed_keeps|apply backspace_keeps|apply put_char_keeps].
Qed.

Lemma control_keeps s ch : keeps s (control s ch).
Proof.
  unfold control. keep; first [apply clear_virtscreen_keeps|apply scroll_lines_keeps|apply delete_chars_keeps|apply clear_to_eol_keeps
    |apply select_rendition_keeps|by case_decide].
Qed.

Lemma char_keeps s ch : keeps s (char_to_virtscreen s ch).
Proof.
  unfold char_to_virtscreen.
  destruct (next_char_send s); [apply std_interpret_char_keeps|apply std_interpret_ansi_keeps| |done|done].
  apply keeps_if; [done|]. apply keeps_then; [apply end_number_keeps|]. intros t Ht.
  apply keeps_if; [done|]. apply keeps_then; [|done]. eapply keeps_trans; [done|apply control_keeps].
Qed.

Lemma send_chars_geom l : forall s t, send_chars s l = Ok t -> geom t = geom s.
Proof.
  induction l as [|ch l IH]; intros s t; simpl; [by intros [= ->]|]. intros (s1 & E1 & E2)%cbind_Ok.
  pose proof (char_keeps s ch) as H. rewrite E1 in H. simpl in H. by rewrite (IH _ _ E2).
Qed.

(** Streams in pieces. *)
Lemma send_chars_app l1 l2 : forall s, send_chars s (l1 ++ l2) = let! s := send_chars s l1 in send_chars s l2.
Proof. induction l1 as [|ch l1 IH]; intros s; simpl; [done|]. destruct (char_to_virtscreen s ch) as [t| |]; simpl; [apply IH|done|done]. Qed.

Lemma tame_app l1 l2 : forall s t, send_chars s l1 = Ok t -> tame s (l1 ++ l2) = tame s l1 && tame t l2.
Proof.
  induction l1 as [|ch l1 IH]; intros s t; simpl; [by intros [= ->]|]. intros (s1 & E1 & E2)%cbind_Ok. rewrite E1.
  rewrite (IH _ _ E2). by rewrite andb_assoc.
Qed.

Lemma vputs_expand str : forall s, vputs s str = send_chars s (expand str).
Proof.
  unfold expand. induction str as [|c str IH]; intros s; [done|]. cbn [vputs]. rewrite bind_cons, send_chars_app.
  case_decide; simpl; [subst c|]; destruct (char_to_virtscreen _ _) as [t| |]; simpl; try done.
  destruct (char_to_virtscreen t 13); simpl; done.
Qed.

(** The engine in any environment. *)
Lemma erase_with_env a k s : erase (with_env a k s) = erase s.
Proof. done. Qed.
Lemma send_chars_env a k s l t : send_chars (erase s) l = Ok t -> exists t', send_chars (with_env a k s) l = Ok t' /\ erase t' = t.
Proof.
  rewrite <- (erase_with_env a k), send_chars_erase. unfold lift. intros (t' & E & [= <-])%cbind_Ok. eauto.
Qed.

End VtFrame.
