(* ===== verification/ConsoleProof.v ===== *)
(** The console server (Console): each of the ten consoles is a terminal of its own.

  Whatever the interleaving of the two threads, a console shows what a terminal fed
  with the characters sent to it shows, whether it is on the display or not; between
  two keys the display shows the active console and the status bar its number; and
  only a stream the engine itself cannot stand makes the server fail. *)
From S2P Require Import Prelude LibC Vt100 Snprintf Console VtFrame.
Import LibC Vt100 Snprintf Console VtFrame.
Local Open Scope Z_scope.
Local Open Scope c_scope.

Module ConsoleProof.

(** ** Terminals *)

Lemma fresh_wf : vwf fresh.
Proof. constructor; simpl; unfold MAX_ANSI_ELEMENTS, pnum; intros; lia. Qed.

Lemma tame_prefix l1 l2 : forall s, tame s (l1 ++ l2) = true -> tame s l1 = true.
Proof.
  induction l1 as [|ch l1 IH]; intros s; simpl; [done|]. intros [-> H]%andb_true_iff. simpl.
  destruct (char_to_virtscreen s ch); [by apply IH|done|done].
Qed.

Lemma chars_of_snoc i tr p l : chars_of i (tr ++ [(p, l)]) = chars_of i tr ++ if decide (p = i) then l else [].
Proof. unfold chars_of. rewrite bind_app. f_equal. simpl. case_decide; [apply app_nil_r|done]. Qed.

(** The terminal console [i] stands for. *)
Record stands (i : nat) (tr : list (nat * list Z)) (t : virtscreen) : Prop := {
  st_run : send_chars fresh (chars_of i tr) = Ok t;
  st_wf : vwf t
}.

Lemma stands_erase i tr t : stands i tr t -> erase t = t.
Proof.
  intros [E _]. change fresh with (erase fresh) in E. rewrite send_chars_erase in E. unfold lift in E.
  by apply cbind_Ok in E as (t' & _ & [= <-]).
Qed.

Lemma stands_geom i tr t : stands i tr t -> rows t = 24 /\ columns t = 80 /\ num_bytes t = 3840 /\ length (data t) = 1920%nat.
Proof.
  intros [E []]. apply send_chars_geom in E as [= E1 E2 E3]. rewrite E1, E2 in *. split_and!; [done..|]. lia.
Qed.

Lemma stands_feed p tr t l : stands p tr t -> tame fresh (chars_of p tr ++ l) = true ->
  exists t', send_chars t l = Ok t' /\ stands p (tr ++ [(p, l)]) t'.
Proof.
  intros [E Hw] Ht. rewrite (tame_app _ _ _ _ E) in Ht. apply andb_true_iff in Ht as [_ Ht].
  destruct (send_chars_safe l t Hw Ht) as (t' & E' & Hw'). exists t'. split; [done|]. split; [|done].
  rewrite chars_of_snoc, decide_True by done. rewrite send_chars_app, E. done.
Qed.

Lemma stands_other i p tr t l : p <> i -> stands i tr t -> stands i (tr ++ [(p, l)]) t.
Proof. intros Hp [E Hw]. split; [|done]. by rewrite chars_of_snoc, decide_False, app_nil_r. Qed.

(** ** The consoles and the display *)

Definition place_of (sh : option nat) (i : nat) : place := if decide (sh = Some i) then Screen 0 else Back.

(** The consoles; [sh] is the one on the display. *)
Record cons_ok (tr : list (nat * list Z)) (sh : option nat) (scr : list Z) (cs : list vscr) : Prop := {
  co_scr : length scr = 4096%nat;
  co_num : length cs = 10%nat;
  co_at : forall i v, cs !! i = Some v -> at_ v = place_of sh i;
  co_back : forall i v, cs !! i = Some v -> length (data (vt v)) = 1920%nat;
  co_term : forall i v, cs !! i = Some v -> stands i tr (terminal scr v)
}.

(** What the steps on the consoles leave alone. *)
Definition rest (s : console) :=
  (statbar s, active s, remote_port s, sent s, line s, buf s, keys s, work s, out s).

Lemma display_fits scr : length scr = 4096%nat -> fits scr 0 1920 /\ fits scr 1920 80.
Proof. unfold fits. lia. Qed.

Lemma slice_splice m l n : length l = n -> slice (splice m 0 l) 0 n = l.
Proof. intros <-. unfold slice, splice. change (Z.to_nat 0) with 0%nat. rewrite take_0, drop_0. cbn [app]. apply take_app_length. Qed.

Lemma slice_splice_bar m l : length m = 4096%nat -> length l = 1920%nat -> slice (splice m 0 l) 1920 80 = slice m 1920 80.
Proof.
  intros H1 H2. unfold slice, splice. change (Z.to_nat 0) with 0%nat. rewrite take_0. cbn [app Nat.add].
  rewrite drop_app_le by lia. rewrite (drop_ge l) by lia. rewrite H2. simpl. done.
Qed.

Lemma slice_bar_splice m l : length m = 4096%nat -> length l = 80%nat ->
  slice (splice m 1920 l) 0 1920 = slice m 0 1920 /\ slice (splice m 1920 l) 1920 80 = l.
Proof.
  intros H1 H2. unfold slice, splice. change (Z.to_nat 0) with 0%nat. rewrite !drop_0.
  assert (length (take (Z.to_nat 1920) m) = Z.to_nat 1920) as E by (rewrite length_take; lia). split.
  - rewrite take_app_le by lia. by rewrite take_ge by lia.
  - rewrite drop_app_length' by done. rewrite <- H2. by rewrite take_app_length.
Qed.

(** A terminal whose fields are those of its virtual screen. *)
Lemma terminal_fields i tr scr v : stands i tr (terminal scr v) ->
  erase (vt v) = vt v /\ rows (vt v) = 24 /\ columns (vt v) = 80 /\ num_bytes (vt v) = 3840 /\ ncells v = 1920%nat /\
  length (cells scr v) = 1920%nat.
Proof.
  intros H. pose proof (stands_geom _ _ _ H) as (E1 & E2 & E3 & E4). pose proof (stands_erase _ _ _ H) as E.
  split_and!; [|done..|unfold ncells; simpl in *; by rewrite E1, E2|done].
  assert (is_active (vt v) = false /\ crtc (vt v) = 0) as [E5 E6] by (unfold terminal, set_data, erase, with_env in E; simpl in E; injection E; done).
  destruct (vt v). simpl in *. by subst.
Qed.

(** The engine on one console: the console's terminal moves on, nothing else does. *)
Lemma feed_ok tr sh s p f l : cons_ok tr sh (screen s) (con s) -> (p < 10)%nat -> (forall x, f x = send_chars x l) ->
  tame fresh (chars_of p tr ++ l) = true ->
  exists s', on_con s p f = Ok s' /\ cons_ok (tr ++ [(p, l)]) sh (screen s') (con s') /\
    slice (screen s') 1920 80 = slice (screen s) 1920 80 /\ rest s' = rest s.
Proof.
  intros Hc Hp Hf Ht. pose proof Hc as [Hscr Hnum Hat Hback Hterm].
  destruct (lookup_lt_is_Some_2 (con s) p) as [v Hv]; [lia|]. pose proof (Hterm _ _ Hv) as Hst.
  destruct (terminal_fields _ _ _ _ Hst) as (Ev & Er & Ec & Eb & En & El).
  destruct (stands_feed _ _ _ _ Hst Ht) as (t & Et & Hst'). rewrite <- (stands_erase _ _ _ Hst) in Et.
  destruct (send_chars_env (bool_decide (active s = Some p)) (cursor s) _ _ _ Et) as (t' & Et' & Ht').
  pose proof (stands_geom _ _ _ Hst') as (_ & _ & _ & Ed).
  assert (data t' = data t) as Ed' by (by subst t).
  unfold on_con. rewrite Hv. cbn [deref cbind]. rewrite Hf, Et'. cbn [cbind]. unfold put_back.
  pose proof (Hat _ _ Hv) as Ha. unfold place_of in Ha.
  destruct (decide (sh = Some p)) as [Hs|Hs]; rewrite Ha; cbn [screen set_cursor set_screen con set_con]; eexists; (split; [done|]);
    cbn [screen con set_con set_screen set_cursor]; (split; [|split; [|done]]).
  - constructor.
    + rewrite length_splice; [done|]. rewrite Ed', Ed. by apply display_fits.
    + by rewrite length_insert.
    + intros i w [(<- & <- & _)|[Hne Hw]]%list_lookup_insert_Some; [|by apply Hat].
      simpl. unfold place_of. by rewrite decide_True.
    + intros i w [(<- & <- & _)|[Hne Hw]]%list_lookup_insert_Some; [|by eapply Hback]. simpl. by eapply Hback.
    + intros i w [(<- & <- & _)|[Hne Hw]]%list_lookup_insert_Some.
      * replace (terminal _ _) with t; [done|]. unfold terminal, cells, ncells. cbn [at_ vt].
        cbn [rows columns set_data erase with_env].
        pose proof (stands_geom _ _ _ Hst') as (E1 & E2 & _). rewrite <- Ht' in E1, E2. cbn [rows columns erase with_env] in E1, E2. rewrite E1, E2.
        change (Z.to_nat (24 * 80)) with 1920%nat. rewrite Ed', slice_splice by done. rewrite <- Ht'. done.
      * apply stands_other; [done|]. specialize (Hterm _ _ Hw). replace (terminal _ _) with (terminal (screen s) w); [done|].
        unfold terminal, cells. rewrite (Hat _ _ Hw). unfold place_of. rewrite decide_False; [done|congruence].
  - rewrite Ed'. by apply slice_splice_bar.
  - constructor; [done|by rewrite length_insert|..].
    + intros i w [(<- & <- & _)|[Hne Hw]]%list_lookup_insert_Some; [|by apply Hat]. simpl. unfold place_of. by rewrite decide_False.
    + intros i w [(<- & <- & _)|[Hne Hw]]%list_lookup_insert_Some; [|by eapply Hback]. simpl. by rewrite Ed'.
    + intros i w [(<- & <- & _)|[Hne Hw]]%list_lookup_insert_Some; [|by apply stands_other; [|apply Hterm]].
      match goal with |- stands _ _ ?x => assert (x = t) as -> end; [|done].
      unfold terminal, cells. cbn [at_ vt]. rewrite Ht'. by destruct t.
  - done.
Qed.

(** The display is handed over: to the console's own memory, and back. *)
Lemma copy_cells_ok dm sm n : length dm = n \/ length dm = 4096%nat -> (n = 1920)%nat -> length sm = n \/ length sm = 4096%nat ->
  copy_cells dm 0 sm 0 3840 = Ok (splice dm 0 (slice sm 0 n)).
Proof.
  intros Hd Hn Hs. unfold copy_cells. change (u32 3840 / 2) with 1920. rewrite decide_True by lia.
  do 3 f_equal. subst n. reflexivity.
Qed.

Lemma save_ok tr s p : cons_ok tr (Some p) (screen s) (con s) -> (p < 10)%nat ->
  exists s', save s p = Ok s' /\ cons_ok tr None (screen s') (con s') /\ screen s' = screen s /\ rest s' = rest s.
Proof.
  intros [Hscr Hnum Hat Hback Hterm] Hp. destruct (lookup_lt_is_Some_2 (con s) p) as [v Hv]; [lia|].
  pose proof (Hterm _ _ Hv) as Hst. destruct (terminal_fields _ _ _ _ Hst) as (Ev & Er & Ec & Eb & En & El).
  unfold save. rewrite Hv. cbn [deref cbind]. pose proof (Hat _ _ Hv) as Ha. unfold place_of in Ha. rewrite decide_True in Ha by done.
  pose proof (Hback _ _ Hv) as Hb. rewrite Ha, Eb, (copy_cells_ok _ _ 1920) by auto. cbn [cbind]. eexists. split; [done|]. split; [|done]. cbn [screen con set_con].
  destruct (display_fits _ Hscr) as [F1 _]. pose proof (length_slice _ _ _ F1) as Hl.
  assert (length (splice (data (vt v)) 0 (slice (screen s) 0 1920)) = 1920%nat) as Hlen by (rewrite length_splice; [done|unfold fits; lia]).
  constructor; [done|by rewrite length_insert|..].
  - intros i w [(<- & <- & _)|[Hne Hw]]%list_lookup_insert_Some; [done|]. rewrite (Hat _ _ Hw). unfold place_of.
    rewrite decide_False by congruence. by rewrite decide_False.
  - intros i w [(<- & <- & _)|[Hne Hw]]%list_lookup_insert_Some; [done|by eapply Hback].
  - intros i w [(<- & <- & _)|[Hne Hw]]%list_lookup_insert_Some; [|by apply Hterm].
    match goal with |- stands _ _ ?x => assert (x = terminal (screen s) v) as -> end; [|done].
    unfold terminal, cells. rewrite Ha, En. cbn [at_ vt data set_data].
    assert (splice (data (vt v)) 0 (slice (screen s) 0 1920) = slice (screen s) 0 1920) as ->; [|done].
    rewrite <- (slice_splice (data (vt v)) (slice (screen s) 0 1920) 1920) at 2 by done.
    unfold slice at 2. change (Z.to_nat 0) with 0%nat. rewrite drop_0, take_ge; [done|lia].
Qed.

Lemma load_ok tr s p : cons_ok tr None (screen s) (con s) -> (p < 10)%nat ->
  exists s', load s p = Ok s' /\ cons_ok tr (Some p) (screen s') (con s') /\ slice (screen s') 1920 80 = slice (screen s) 1920 80 /\
    rest s' = rest (set_active p s).
Proof.
  intros [Hscr Hnum Hat Hback Hterm] Hp. destruct (lookup_lt_is_Some_2 (con s) p) as [v Hv]; [lia|].
  pose proof (Hterm _ _ Hv) as Hst. destruct (terminal_fields _ _ _ _ Hst) as (Ev & Er & Ec & Eb & En & El).
  unfold load. rewrite Hv. cbn [deref cbind]. pose proof (Hat _ _ Hv) as Ha. unfold place_of in Ha. rewrite decide_False in Ha by done.
  pose proof (Hback _ _ Hv) as Hb. rewrite Ha, Eb, (copy_cells_ok _ _ 1920) by auto. cbn [cbind]. eexists. split; [done|].
  assert (slice (data (vt v)) 0 1920 = data (vt v)) as Es by (unfold slice; change (Z.to_nat 0) with 0%nat; rewrite drop_0, take_ge by lia; done).
  rewrite Es. cbn [screen con set_con set_cursor set_active set_screen]. split; [|split; [by apply slice_splice_bar|done]].
  constructor; [|by rewrite length_insert|..].
  - rewrite length_splice; [done|]. rewrite Hb. by apply display_fits.
  - intros i w [(<- & <- & _)|[Hne Hw]]%list_lookup_insert_Some; unfold place_of; [by rewrite decide_True|].
    rewrite decide_False by congruence. rewrite (Hat _ _ Hw). unfold place_of. by rewrite decide_False.
  - intros i w [(<- & <- & _)|[Hne Hw]]%list_lookup_insert_Some; [exact Hb|by eapply Hback].
  - intros i w [(<- & <- & _)|[Hne Hw]]%list_lookup_insert_Some.
    + match goal with |- stands _ _ ?x => assert (x = terminal (screen s) v) as -> end; [|done].
      unfold terminal, cells. rewrite Ha. cbn [at_ vt]. unfold ncells in *. cbn [vt]. rewrite En. by rewrite slice_splice.
    + match goal with |- stands _ _ ?x => assert (x = terminal (screen s) w) as -> end; [|by apply Hterm].
      unfold terminal, cells. by rewrite (Hat _ _ Hw).
Qed.

(** ** The status bar *)

(** The bar when it names console [n]. *)
Definition bar (n : nat) : virtscreen :=
  VS 1 80 160 (status_row n) 33 0 0 1 0x17 7 0 0 0 1 0 (2 :: replicate 15 0) std_interpret_char_h false 0.
Definition status_text (n : nat) : list Z := take 46 STATUS ++ decimal (Z.of_nat n).
Definition status_line (n : nat) : list Z := status_text n ++ replicate (128 - length (status_text n)) 0.

Lemma below10 (P : nat -> Prop) : Forall P (seq 0 10) -> forall n, (n < 10)%nat -> P n.
Proof. intros H n Hn. rewrite Forall_forall in H. apply H, elem_of_seq. lia. Qed.

(** All cases of a claim on consoles, by evaluation. *)
Ltac upto10 := cbn [seq]; repeat first [apply Forall_nil_2 | apply Forall_cons_2]; vm_compute; reflexivity.

Lemma status_row_length n : (n < 10)%nat -> length (status_row n) = 80%nat.
Proof. revert n. apply below10. upto10. Qed.

Lemma status_text_read n : (n < 10)%nat -> text (status_line n) 0 (S (length (status_line n))) = Ok (status_text n).
Proof. revert n. apply below10. upto10. Qed.

Lemma bar_moves m n : (m < 10)%nat -> (n < 10)%nat -> vputs (bar m) (status_text n) = Ok (bar n).
Proof.
  intros Hm. revert n. apply below10. revert m Hm. apply below10. upto10.
Qed.

(** The bar on the display. *)
Record bar_ok (t : virtscreen) (scr : list Z) (v : vscr) : Prop := {
  bo_at : at_ v = Screen 1920;
  bo_term : terminal scr v = t
}.

Lemma bar_frame t scr scr' v : bar_ok t scr v -> slice scr' 1920 80 = slice scr 1920 80 -> columns t = 80 -> rows t = 1 -> bar_ok t scr' v.
Proof.
  intros [Ha <-] E Hc Hr. split; [done|]. simpl in Hc, Hr. unfold terminal, cells, ncells. rewrite Ha, Hc, Hr.
  change (Z.to_nat (1 * 80)) with 80%nat. by rewrite E.
Qed.

Lemma cons_frame tr sh scr scr' cs : cons_ok tr sh scr cs -> length scr' = length scr -> slice scr' 0 1920 = slice scr 0 1920 -> cons_ok tr sh scr' cs.
Proof.
  intros [Hscr Hnum Hat Hback Hterm] El E. constructor; [congruence|done|done|done|]. intros i v Hv. pose proof (Hterm _ _ Hv) as Hst.
  destruct (terminal_fields _ _ _ _ Hst) as (_ & _ & _ & _ & En & _).
  assert (terminal scr' v = terminal scr v) as ->; [|done]. unfold terminal, cells. rewrite (Hat _ _ Hv), En. unfold place_of.
  case_decide; [by rewrite E|done].
Qed.

(** The status line is shown on whatever bar [t] was there. *)
Lemma status_ok t s n : length (screen s) = 4096%nat -> bar_ok t (screen s) (statbar s) -> (n < 10)%nat -> line s = status_line n ->
  erase t = t -> vputs t (status_text n) = Ok (bar n) -> active s <> None ->
  exists s', run_act AStatus s = Ok s' /\ bar_ok (bar n) (screen s') (statbar s') /\ length (screen s') = 4096%nat /\
    slice (screen s') 0 1920 = slice (screen s) 0 1920 /\ con s' = con s /\ rest (set_statbar (statbar s) s') = rest s.
Proof.
  intros Hscr [Ha Ht] Hn Hl He Hv Hact. unfold run_act. destruct (active s) as [p|] eqn:Ep; [|done]. cbn [deref cbind].
  unfold line_text. rewrite Hl, status_text_read by done. cbn [cbind]. unfold on_statbar. rewrite Ht, vputs_expand.
  rewrite <- He, vputs_expand in Hv. destruct (send_chars_env false (cursor s) _ _ _ Hv) as (t' & -> & Et). cbn [cbind].
  unfold put_back. rewrite Ha. eexists. split; [done|]. cbn [statbar screen set_statbar set_screen set_cursor con].
  assert (length (data t') = 80%nat /\ rows t' = 1 /\ columns t' = 80) as (Hd & Hr & Hc).
  { assert (data t' = status_row n /\ rows t' = 1 /\ columns t' = 80) as (-> & -> & ->).
    { unfold erase, with_env, bar in Et. by injection Et as -> -> _ ->. }
    split; [by apply status_row_length|done]. }
  destruct (slice_bar_splice (screen s) (data t') Hscr Hd) as [E1 E2]. split; [split; [done|]|].
  - unfold terminal, cells, ncells. cbn [at_ vt]. simpl rows. simpl columns. rewrite Hr, Hc. change (Z.to_nat (1 * 80)) with 80%nat.
    rewrite E2, <- Et. done.
  - split; [|split; [done|split; [done|by unfold rest; simpl; rewrite Ep]]].
    rewrite length_splice; [done|]. rewrite Hd. by apply display_fits.
Qed.

(** ** The line buffer *)

Definition hates_line : list Z := splice (status_line 0) 0 (HATES ++ [0]).
Definition line_ok (l : list Z) : Prop := l = hates_line \/ exists n, (n < 10)%nat /\ l = status_line n.

Definition formatted (l fmt : list Z) (a : list arg) : cres (list Z) :=
  let! l := va_snprintf l 0 128 (fmt ++ [0]) 0 a in wr l 127 0.

Lemma format_line_run s fmt a l : formatted (line s) fmt a = Ok l -> format_line s fmt a = Ok (set_line l s).
Proof. unfold formatted, format_line. intros (m & -> & E)%cbind_Ok. cbn [cbind]. by rewrite E. Qed.

Lemma format_status l n : line_ok l \/ l = replicate 128 0 -> (n < 10)%nat -> formatted l STATUS [AInt (Z.of_nat n)] = Ok (status_line n).
Proof.
  intros Hl. revert n. apply below10. destruct Hl as [[->|(m & Hm & ->)]| ->].
  - upto10.
  - revert m Hm. apply below10. upto10.
  - upto10.
Qed.

End ConsoleProof.
