(* ===== verification/ConsoleRun.v ===== *)
(** The console server at run time: the invariant of the two threads (Console.step),
  the start-up, and the claims. *)
From S2P Require Import Prelude LibC Vt100 Snprintf Console VtFrame ConsoleProof.
Import LibC Vt100 Snprintf Console VtFrame ConsoleProof.
Local Open Scope Z_scope.
Local Open Scope c_scope.

Module ConsoleRun.

(** ** The invariant *)

(** What the keyboard thread may have left to do. *)
Inductive wk : list act -> Prop :=
| wk_nil : wk []
| wk_echo k : wk (keypress k)
| wk_send k : wk [ASend k]
| wk_status : wk [AStatus]
| wk_format : wk [AFormat; AStatus]
| wk_load : wk load_acts
| wk_switch n : (n < 10)%nat -> wk (ASwitch n :: load_acts)
| wk_debug : wk (ADebug :: load_acts)
| wk_function n : (n < 10)%nat -> wk (function n)
| wk_escape : wk ([ASave; ADebug] ++ load_acts).

(** No console is on the display; the status bar may name another console. *)
Definition hidden (w : list act) : bool := match w with ADebug :: _ | ASwitch _ :: _ | ALoad :: _ => true | _ => false end.
Definition stale (w : list act) : bool := hidden w || match w with AFormat :: _ | AStatus :: _ => true | _ => false end.

(** The output thread has not left its loop. *)
Definition quiet (s : console) : Prop := match out s with Listening | Putting _ _ => True | _ => False end.

Record cinv (tr : list (nat * list Z)) (a : nat) (s : console) : Prop := {
  ci_active : active s = Some a;
  ci_range : (a < 10)%nat;
  ci_cons : cons_ok tr (if hidden (work s) then None else Some a) (screen s) (con s);
  ci_bar : exists m, (m < 10)%nat /\ bar_ok (bar m) (screen s) (statbar s) /\ (stale (work s) = false -> m = a);
  ci_line : line_ok (line s);
  ci_shown : work s = [AStatus] -> line s = status_line a;
  ci_buf : length (buf s) = 257%nat;
  ci_work : wk (work s);
  ci_out : quiet s -> forall p str, out s = Putting p str -> (p < 10)%nat
}.

Definition event (o : option (nat * list Z)) : list (nat * list Z) := match o with Some e => [e] | None => [] end.

(** What a step must do. *)
Definition goes (tr : list (nat * list Z)) (r : cres console) : Prop := exists s', r = Ok s' /\ (quiet s' -> exists a, cinv tr a s').

(** ** Keys *)

Lemma keyboard_irq_ok k key : 0 <= key < 256 -> exists k' w, keyboard_irq k key = Ok (k', w) /\ wk w.
Proof.
  intros Hk. unfold keyboard_irq. destruct (kb_alt k && bool_decide (key = 1)); [eexists _, _; split; [done|constructor]|].
  repeat (case_decide; [eexists _, _; split; [done|first [constructor; unfold F1, F10 in *; lia|constructor]]|]).
  case_decide; [|eexists _, _; split; [done|constructor]].
  assert (forall tab : list Z, length tab = 59%nat -> exists c, aget tab key = Some c) as Hget by (intros tab Hl; apply aget_in_range; lia).
  destruct (kb_control k).
  - destruct (Hget ScanTable eq_refl) as [c ->]. cbn [deref cbind]. eexists _, _. split; [done|]. case_decide; constructor.
  - destruct (Hget (if kb_shift k then ShiftTable else ScanTable)) as [c ->]; [by destruct (kb_shift k)|].
    cbn [deref cbind]. eexists _, _. split; [done|constructor].
Qed.

(** A new list of steps that shows the active console. *)
Lemma cinv_work tr a s k w : cinv tr a s -> work s = [] -> wk w -> hidden w = false -> stale w = false -> cinv tr a (set_work w (set_keys k s)).
Proof.
  intros [Ha Hr Hc Hb Hl Hs Hbuf Hw Ho] Ew Hwk Hh Hst. rewrite Ew in *. constructor; simpl; try done.
  - by rewrite Hh.
  - destruct Hb as (m & Hm & Hb & E). exists m. split_and!; [done|done|]. auto.
  - intros ->. done.
Qed.

(** The first steps of the keyboard thread do not hide the console. *)
Lemma irq_shows k key k' w : keyboard_irq k key = Ok (k', w) -> hidden w = false /\ stale w = false.
Proof.
  unfold keyboard_irq. destruct (kb_alt k && bool_decide (key = 1)); [by intros [= _ <-]|].
  repeat (case_decide; [by intros [= _ <-]|]). case_decide; [|by intros [= _ <-]]. destruct (kb_control k).
  - intros (c & _ & E)%cbind_Ok. injection E as _ <-. by case_decide.
  - intros (c & _ & E)%cbind_Ok. by injection E as _ <-.
Qed.

Lemma step_irq_ok tr a s key : cinv tr a s -> work s = [] -> 0 <= key < 256 ->
  goes tr (let! (k, w) := keyboard_irq (keys s) key in Ok (set_work w (set_keys k s))).
Proof.
  intros Hi Hw Hk. destruct (keyboard_irq_ok (keys s) key Hk) as (k & w & E & Hwk). destruct (irq_shows _ _ _ _ E) as [H1 H2].
  rewrite E. cbn [cbind]. eexists. split; [done|]. intros _. exists a. by apply cinv_work.
Qed.

(** ** The engine on a console *)

(** Feeding console [p] keeps the invariant: [f] runs the engine, [s] is the state it runs in. *)
Lemma feed_inv tr a s p f l : cinv tr a s -> (p < 10)%nat -> (forall x, f x = send_chars x l) -> tame fresh (chars_of p tr ++ l) = true ->
  exists s', on_con s p f = Ok s' /\ cinv (tr ++ [(p, l)]) a s'.
Proof.
  intros [Ha Hr Hc Hb Hl Hs Hbuf Hw Ho] Hp Hf Ht. destruct (feed_ok _ _ _ _ _ _ Hc Hp Hf Ht) as (s' & E & Hc' & Eb & Er).
  exists s'. split; [done|]. unfold rest in Er. injection Er as E1 E2 E3 E4 E5 E6 E7 E8 E9.
  constructor; try congruence.
  - by rewrite E8.
  - rewrite E1, E8. destruct Hb as (m & Hm & Hb & E'). exists m. split_and!; [done| |done]. by apply (bar_frame _ (screen s)).
  - by rewrite E8, E5.
  - unfold quiet. rewrite E9. exact Ho.
Qed.

Lemma cinv_out tr a s o : cinv tr a s -> match o with Listening => True | _ => False end -> cinv tr a (set_out o s).
Proof. intros [Ha Hr Hc Hb Hl Hs Hbuf Hw Ho] H. destruct o; try done. Qed.

Lemma step_echo_ok tr a s key w : cinv tr a s -> work s = AEcho key :: w -> tame fresh (chars_of a tr ++ [u8 key]) = true ->
  goes (tr ++ [(a, [u8 key])]) (run_act (AEcho key) (set_work w s)).
Proof.
  intros Hi Hw Ht. pose proof Hi as [Ha Hr Hc Hb Hl Hs Hbuf Hwk Ho].
  assert (cinv tr a (set_work w s)) as Hi'.
  { rewrite Hw in *. inversion Hwk; subst. constructor; simpl; try done. constructor. }
  unfold run_act. cbn [active set_work]. rewrite Ha. cbn [deref cbind].
  destruct (feed_inv tr a (set_work w s) a (fun t => char_to_virtscreen t (u8 key)) [u8 key]) as (s' & E & H'); [done|done| |done|].
  { intros x. simpl. by destruct (char_to_virtscreen x (u8 key)). }
  exists s'. split; [done|]. eauto.
Qed.

(** ** The other steps of the keyboard thread *)

Lemma save_inv tr a s w : cinv tr a s -> work s = ASave :: w -> wk w -> hidden w = true -> goes tr (run_act ASave (set_work w s)).
Proof.
  intros [Ha Hr Hc Hb Hl Hs Hbuf Hwk Ho] Hw Hwk' Hh. rewrite Hw in Hc, Hb. simpl in Hc.
  unfold run_act. cbn [active set_work]. rewrite Ha. cbn [deref cbind].
  destruct (save_ok tr (set_work w s) a Hc Hr) as (s' & -> & Hc' & Es & Er). eexists. split; [done|]. intros Hq.
  unfold rest in Er. injection Er as E1 E2 E3 E4 E5 E6 E7 E8 E9. simpl in *.
  exists a. constructor; try congruence.
  - by rewrite E8, Hh.
  - rewrite E8, E1, Es. destruct Hb as (m & Hm & Hb & E). exists m. split_and!; [done|done|]. intros H. exfalso. revert H. unfold stale. by rewrite Hh.
  - rewrite E8. intros ->. done.
  - intros _. rewrite E9. apply Ho. unfold quiet in *. by rewrite E9 in Hq.
Qed.

Lemma load_inv tr a s : cinv tr a s -> work s = load_acts -> goes tr (run_act ALoad (set_work [AFormat; AStatus] s)).
Proof.
  intros [Ha Hr Hc Hb Hl Hs Hbuf Hwk Ho] Hw. rewrite Hw in Hc, Hb. simpl in Hc.
  unfold run_act. cbn [active set_work]. rewrite Ha. cbn [deref cbind].
  destruct (load_ok tr (set_work [AFormat; AStatus] s) a Hc Hr) as (s' & -> & Hc' & Es & Er). eexists. split; [done|]. intros Hq.
  unfold rest in Er. injection Er as E1 E2 E3 E4 E5 E6 E7 E8 E9. simpl in *.
  exists a. constructor; try congruence.
  - by rewrite E8.
  - rewrite E8, E1. destruct Hb as (m & Hm & Hb & E). exists m. split_and!; [done| |done]. by apply (bar_frame _ (screen s)).
  - rewrite E8. constructor.
  - intros _. rewrite E9. apply Ho. unfold quiet in *. by rewrite E9 in Hq.
Qed.

Lemma format_inv tr a s : cinv tr a s -> work s = [AFormat; AStatus] -> goes tr (run_act AFormat (set_work [AStatus] s)).
Proof.
  intros [Ha Hr Hc Hb Hl Hs Hbuf Hwk Ho] Hw. rewrite Hw in Hc, Hb. simpl in Hc.
  unfold run_act. cbn [active set_work]. rewrite Ha. cbn [deref cbind].
  rewrite (format_line_run _ _ _ (status_line a)) by (apply format_status; [by left|done]). eexists. split; [done|]. intros Hq.
  exists a. constructor; simpl; try done.
  - right. eauto.
  - constructor.
Qed.

Lemma status_inv tr a s : cinv tr a s -> work s = [AStatus] -> goes tr (run_act AStatus (set_work [] s)).
Proof.
  intros [Ha Hr Hc Hb Hl Hs Hbuf Hwk Ho] Hw. specialize (Hs Hw). rewrite Hw in Hc, Hb. simpl in Hc.
  destruct Hb as (m & Hm & Hb & _). pose proof (co_scr _ _ _ _ Hc) as Hscr.
  destruct (status_ok (bar m) (set_work [] s) a) as (s' & -> & Hb' & El & Es & Ec & Er); [exact Hscr|exact Hb|exact Hr|exact Hs|reflexivity|apply bar_moves; assumption|cbn [active set_work]; congruence|].
  eexists. split; [done|]. intros Hq. unfold rest in Er. injection Er as E2 E3 E4 E5 E6 E7 E8 E9. simpl in *.
  exists a. constructor; try congruence.
  - rewrite E8, Ec. simpl. apply (cons_frame _ _ (screen s)); [done|congruence|done].
  - exists a. split; [exact Hr|]. split; [exact Hb'|done].
  - rewrite E8. constructor.
  - intros _. rewrite E9. apply Ho. unfold quiet in *. by rewrite E9 in Hq.
Qed.

Lemma step_kbd_ok tr a s b w : cinv tr a s -> work s = b :: w -> (forall key, b <> AEcho key) -> goes tr (run_act b (set_work w s)).
Proof.
  intros Hi Hw Hne. pose proof Hi as [Ha Hr Hc Hb Hl Hs Hbuf Hwk Ho]. rewrite Hw in Hwk.
  inversion Hwk as [|k E|k E|E|E|E|n Hn E|E|n Hn E|E]; simplify_eq.
  - exfalso. by apply (Hne k).
  - unfold run_act. cbn [active set_work]. rewrite Ha. cbn [deref cbind]. eexists. split; [done|]. intros Hq. exists a.
    rewrite Hw in *. case_decide; constructor; simpl; try done; constructor.
  - by apply (status_inv tr a).
  - by apply (format_inv tr a).
  - by apply (load_inv tr a).
  - unfold run_act. cbn [active set_work]. rewrite Ha. cbn [deref cbind]. eexists. split; [done|]. intros Hq. exists n.
    rewrite Hw in *. constructor; simpl; try done; [|constructor]. destruct Hb as (m & Hm & Hb & _). exists m. split; [exact Hm|]. split; [exact Hb|done].
  - unfold run_act. cbn [active set_work]. rewrite Ha. cbn [deref cbind]. eexists. split; [done|]. intros Hq. exists a.
    rewrite Hw in *. constructor; simpl; try done. constructor.
  - apply (save_inv tr a); [done|done|by constructor|done].
  - apply (save_inv tr a); [done|done|by constructor|done].
Qed.

(** ** The output thread *)

Lemma text_ok m : forall fuel p, 0 <= p -> Z.of_nat (length m) < p + Z.of_nat fuel -> (exists q, p <= q /\ aget m q = Some 0) ->
  exists str, text m p fuel = Ok str.
Proof.
  induction fuel as [|fuel IH]; intros p Hp Hf (q & Hq & E); [apply aget_Some in E as [? _]; lia|]. cbn [text].
  pose proof (aget_Some _ _ _ E) as [Hr _]. destruct (aget_in_range m p) as [c Hc]; [lia|]. rewrite (rd_Some _ _ _ Hc). cbn [cbind].
  case_decide; [by eexists|]. assert (p <> q) by congruence.
  destruct (IH (p + 1)) as [str ->]; [lia|lia|exists q; split; [lia|done]|]. by eexists.
Qed.

Lemma step_recv_ok tr a s src msg code : cinv tr a s -> out s = Listening -> (length msg <= 256)%nat -> goes tr (receive s src msg code).
Proof.
  intros [Ha Hr Hc Hb Hl Hs Hbuf Hwk Ho] Hout Hm. unfold receive.
  assert (length (splice (buf s) 0 msg) = 257%nat) as El by (rewrite length_splice; [done|unfold fits; lia]).
  case_decide as Hcode.
  - eexists. split; [done|]. intros _. exists a. by constructor.
  - cbn [buf set_buf active]. unfold wr. rewrite aset_in_range by lia. cbn [deref cbind]. rewrite Ha. cbn [deref cbind].
    match goal with |- context [text ?b 0 _] => destruct (text_ok b (S (length b)) 0) as [str ->] end; [lia|lia| |].
    { exists (Z.of_nat (length msg)). split; [lia|]. apply aget_insert_eq. lia. }
    cbn [cbind]. eexists. split; [done|]. intros _. exists a. constructor; simpl; try done.
    + by rewrite length_insert.
    + intros _ p str' [= <- <-]. done.
Qed.

Lemma step_put_ok tr a s p str : cinv tr a s -> out s = Putting p str -> tame fresh (chars_of p tr ++ expand str) = true ->
  goes (tr ++ [(p, expand str)]) (on_con (set_out Listening s) p (fun t => vputs t str)).
Proof.
  intros Hi Ho Ht. assert (p < 10)%nat as Hp by (eapply (ci_out _ _ _ Hi); [unfold quiet; by rewrite Ho|done]).
  destruct (feed_inv tr a (set_out Listening s) p (fun t => vputs t str) (expand str)) as (s' & E & Hi'); [|done|apply vputs_expand|done|].
  { by apply cinv_out. }
  exists s'. split; [done|]. eauto.
Qed.

(** Every step of a listening server, whatever the thread. *)
Lemma step_ok tr a s o r : cinv tr a s -> quiet s -> step s o r ->
  (forall p l, o = Some (p, l) -> tame fresh (chars_of p tr ++ l) = true) -> goes (tr ++ event o) r.
Proof.
  intros Hi Hq Hstep Ht. destruct Hstep as [s key Hw Hk|s key w p Hw Hp|s b w Hw Hb|s src msg code Ho Hm Hbm|s p str Ho|s l p Ho Hl Hp|s p l Ho|s p str Ho Hstr];
    cbn [event]; rewrite ?app_nil_r.
  - by eapply step_irq_ok.
  - pose proof (ci_active _ _ _ Hi) as Ha. assert (p = a) as -> by congruence. apply step_echo_ok; [done|done|by apply Ht].
  - by eapply step_kbd_ok.
  - by eapply step_recv_ok.
  - eapply step_put_ok; [done|done|by apply Ht].
  - eexists. split; [done|]. by intros [].
  - unfold quiet in Hq. by rewrite Ho in Hq.
  - unfold quiet in Hq. by rewrite Ho in Hq.
Qed.

(** ** Start-up *)

Definition blank_vt (r c : Z) : virtscreen :=
  VS r c (2 * r * c) (replicate (Z.to_nat (r * c)) (u16 (blank 7))) 0 0 0 r 7 7 0 0 0 0 0 (replicate 16 0) std_interpret_char_h false 0.

Lemma init_ok mem r c : 0 < r -> 0 < c -> length mem = Z.to_nat (r * c) -> init_virtscreen (vt vscr_zero) (Some mem) r c = Ok (0, blank_vt r c).
Proof.
  intros Hr Hc Hl. unfold init_virtscreen, clear_region, loc. cbn [columns data vt vscr_zero xpos ypos].
  replace ((r - 1) * c + (c - 1) + 1 - (0 * c + 0)) with (r * c) by lia. rewrite fill_run by (unfold fits; lia). cbn [upd_data cbind set_data data].
  unfold blank_vt. do 3 f_equal. unfold splice. rewrite length_replicate. change (Z.to_nat (0 * c + 0)) with 0%nat. rewrite take_0. cbn [app Nat.add].
  rewrite drop_ge by lia. apply app_nil_r.
Qed.

(** A console after its screen is cleared with ESC [ 2 J. *)
Definition cleared : virtscreen :=
  VS 24 80 3840 (replicate 1920 (u16 (blank 7))) 0 0 0 24 7 7 0 0 0 1 0 (2 :: replicate 15 0) std_interpret_char_h false 0.

Lemma clear_fresh : send_chars fresh CLEAR = Ok cleared.
Proof. vm_compute. reflexivity. Qed.

Lemma clear_tame : tame fresh CLEAR = true.
Proof. vm_compute. reflexivity. Qed.

(** The first [i] consoles are set up. *)
Record booted (i : nat) (s0 s : console) : Prop := {
  bt_num : length (con s) = 10%nat;
  bt_done : forall j, (j < i)%nat -> con s !! j = Some (Vscr cleared Back);
  bt_left : forall j, (i <= j < 10)%nat -> con s !! j = Some vscr_zero;
  bt_screen : screen s = screen s0;
  bt_rest : rest s = rest s0
}.

Lemma init_con_ok i s0 s mem : booted i s0 s -> (i < 10)%nat -> length mem = 1920%nat -> exists s', init_con s i mem = Ok s' /\ booted (S i) s0 s'.
Proof.
  intros [Hn Hd Hl Es Er] Hi Hm. unfold init_con. rewrite Hl by lia. cbn [deref cbind]. rewrite init_ok by (lia || by rewrite Hm). cbn [cbind].
  unfold on_con. cbn [con set_con]. rewrite list_lookup_insert_eq by lia. cbn [deref cbind].
  change (terminal _ (Vscr (blank_vt 24 80) Back)) with (erase fresh). rewrite vputs_expand. change (expand CLEAR) with CLEAR.
  match goal with |- context [with_env ?a ?k (erase fresh)] => destruct (send_chars_env a k fresh CLEAR cleared clear_fresh) as (t & Et & Ec) end.
  change (with_env _ _ (erase fresh)) with (with_env (bool_decide (active s = Some i)) (cursor s) fresh).
  cbn [active cursor set_con] in Et. rewrite Et. cbn [cbind put_back at_]. eexists. split; [done|].
  cbn [con set_con set_cursor]. rewrite Ec, list_insert_insert_eq. constructor; simpl.
  - by rewrite length_insert.
  - intros j Hj. destruct (decide (j = i)) as [->|]; [apply list_lookup_insert_eq; lia|]. rewrite list_lookup_insert_ne by done. apply Hd. lia.
  - intros j Hj. rewrite list_lookup_insert_ne by lia. apply Hl. lia.
  - done.
  - done.
Qed.

Lemma init_cons_ok s0 : forall mems i s, booted i s0 s -> (i + length mems = 10)%nat -> Forall (fun m => length m = 1920%nat) mems ->
  exists s', init_cons s i mems = Ok s' /\ booted 10 s0 s'.
Proof.
  induction mems as [|mem mems IH]; intros i s Hb Hl Hm; cbn [init_cons length] in *.
  - replace i with 10%nat in Hb by lia. eauto.
  - apply Forall_cons in Hm as [Hm1 Hm2]. destruct (init_con_ok i s0 s mem Hb) as (s1 & -> & Hb1); [lia|done|]. cbn [cbind].
    apply (IH (S i)); [done|lia|done].
Qed.

Definition clears : list (nat * list Z) := map (fun i => (i, CLEAR)) (seq 0 10).

Lemma booted_cons s0 s : booted 10 s0 s -> length (screen s0) = 4096%nat -> cons_ok clears None (screen s) (con s).
Proof.
  intros [Hn Hd _ Es _] Hscr. rewrite Es.
  assert (forall i v, con s !! i = Some v -> v = Vscr cleared Back /\ (i < 10)%nat) as Hv.
  { intros i v Hi. pose proof (lookup_lt_Some _ _ _ Hi). rewrite Hd in Hi by lia. split; [congruence|lia]. }
  constructor; [done|done|..].
  - by intros i v [-> _]%Hv.
  - intros i v [-> _]%Hv. apply length_replicate.
  - intros i v [-> Hi]%Hv. change (terminal _ _) with cleared. split.
    + assert (chars_of i clears = CLEAR) as ->; [|apply clear_fresh]. revert i Hi. apply below10. upto10.
    + destruct (send_chars_safe CLEAR fresh fresh_wf clear_tame) as (t & E & Hw).
      rewrite clear_fresh in E. by injection E as <-.
Qed.

(** The bar shows its first line over whatever was on the display. *)
Lemma first_status d : length d = 80%nat -> vputs (set_data d (blank_vt 1 80)) (status_text 0) = Ok (bar 0).
Proof. intros H. do 80 (destruct d as [|? d]; [discriminate H|]). destruct d; [|discriminate H]. vm_compute. reflexivity. Qed.

(** status(n) from start to end. *)
Lemma show_status t s n : length (screen s) = 4096%nat -> bar_ok t (screen s) (statbar s) -> (n < 10)%nat -> line_ok (line s) \/ line s = replicate 128 0 ->
  erase t = t -> vputs t (status_text n) = Ok (bar n) -> active s <> None ->
  exists s', (let! s := format_line s STATUS [AInt (Z.of_nat n)] in run_act AStatus s) = Ok s' /\ bar_ok (bar n) (screen s') (statbar s') /\
    length (screen s') = 4096%nat /\ slice (screen s') 0 1920 = slice (screen s) 0 1920 /\ con s' = con s /\ line s' = status_line n /\
    active s' = active s /\ buf s' = buf s /\ work s' = work s /\ out s' = out s.
Proof.
  intros Hscr Hb Hn Hl He Hv Ha. rewrite (format_line_run _ _ _ (status_line n)) by (by apply format_status). cbn [cbind].
  destruct (status_ok t (set_line (status_line n) s) n) as (s' & -> & Hb' & El & Es & Ec & Er); [exact Hscr|exact Hb|exact Hn|reflexivity|exact He|exact Hv|exact Ha|].
  unfold rest in Er. injection Er as E2 E3 E4 E5 E6 E7 E8 E9. exists s'. simpl in *. split_and!; assumption || reflexivity.
Qed.

(** The invariant from its parts, at a moment the keyboard thread waits. *)
Lemma cinv_idle tr a s : active s = Some a -> (a < 10)%nat -> cons_ok tr (Some a) (screen s) (con s) -> bar_ok (bar a) (screen s) (statbar s) ->
  line_ok (line s) -> length (buf s) = 257%nat -> work s = [] -> out s = Listening -> cinv tr a s.
Proof.
  intros Ha Hr Hc Hb Hl Hbuf Hw Ho. constructor; try done; rewrite ?Hw; try done.
  - exists a. split; [exact Hr|]. split; [exact Hb|done].
  - constructor.
  - by rewrite Ho.
Qed.

Lemma on_con_out s p f s' : on_con s p f = Ok s' -> out s' = out s.
Proof. intros (v & _ & (t & _ & E)%cbind_Ok)%cbind_Ok. unfold put_back in E. destruct (at_ v); by injection E as <-. Qed.

Lemma hates_tame : tame fresh (chars_of 0 clears ++ expand HATES) = true.
Proof. vm_compute. reflexivity. Qed.
Lemma hates_formatted : formatted (status_line 0) HATES [] = Ok hates_line.
Proof. vm_compute. reflexivity. Qed.
Lemma hates_read : text hates_line 0 (S (length hates_line)) = Ok HATES.
Proof. vm_compute. reflexivity. Qed.

Lemma console_main_ok scr smem mems err : good_memory scr smem mems ->
  exists s, console_main scr smem mems err = Ok s /\ cinv (boot_trace err) 0 s /\ out s = Listening.
Proof.
  intros (Hscr & Hsm & Hn & Hm). unfold console_main. cbn [statbar]. rewrite init_ok by (done || lia). cbn [cbind].
  match goal with |- context [init_cons ?s _ _] => set (s0 := s) end.
  destruct (init_cons_ok s0 mems 0 s0) as (s1 & -> & Hb); [|done|done|].
  { constructor; [done|lia| |done|done]. intros j Hj. apply lookup_replicate_2. lia. }
  cbn [cbind]. pose proof (booted_cons _ _ Hb Hscr) as Hc. destruct Hb as [_ _ _ Es Er]. unfold rest in Er. injection Er as E1 E2 E3 E4 E5 E6 E7 E8 E9.
  destruct (load_ok _ _ 0%nat Hc) as (s2 & -> & Hc2 & Eb2 & Er2); [lia|]. cbn [cbind run_acts]. unfold rest in Er2. injection Er2 as F1 F2 F3 F4 F5 F6 F7 F8 F9.
  cbn [statbar active line buf work out set_active] in *.
  assert (bar_ok (set_data (slice scr 1920 80) (blank_vt 1 80)) (screen s2) (statbar s2)) as Hbar.
  { rewrite F1, E1. split; [done|]. unfold terminal, cells. cbn [at_ statbar set_statbar vt s0]. change (80 * 24) with 1920.
    change (ncells _) with 80%nat. rewrite Eb2, Es. done. }
  destruct (show_status (set_data (slice scr 1920 80) (blank_vt 1 80)) s2 0) as (s3 & E & Hbar3 & El3 & Es3 & Ec3 & Eli3 & Ea3 & Eb3 & Ew3 & Eo3);
    [exact (co_scr _ _ _ _ Hc2)|exact Hbar|lia|right; by rewrite F5, E5|reflexivity|apply first_status; apply length_slice; by apply display_fits|by rewrite F2|].
  unfold run_act at 1. rewrite F2. cbn [deref cbind]. change (AInt (Z.of_nat 0)) with (AInt 0) in *.
  apply cbind_Ok in E as (s2' & Ef & E). rewrite Ef. cbn [cbind]. rewrite E. cbn [cbind].
  assert (cons_ok clears (Some 0%nat) (screen s3) (con s3)) as Hc3.
  { rewrite Ec3. eapply cons_frame; [exact Hc2|rewrite El3; symmetry; apply Hc2|exact Es3]. }
  destruct (show_status (bar 0) s3 0) as (s4 & E' & Hbar4 & El4 & Es4 & Ec4 & Eli4 & Ea4 & Eb4 & Ew4 & Eo4);
    [exact El3|exact Hbar3|lia|left; right; exists 0%nat; split; [lia|exact Eli3]|reflexivity|apply bar_moves; lia|by rewrite Ea3, F2|].
  change (AInt (Z.of_nat 0)) with (AInt 0) in *. apply cbind_Ok in E' as (s3' & Ef' & E'). rewrite Ef'. cbn [cbind]. rewrite E'. cbn [cbind].
  assert (cinv clears 0 s4) as Hi.
  { apply cinv_idle; [congruence|lia| |exact Hbar4|right; exists 0%nat; split; [lia|exact Eli4]|by rewrite Eb4, Eb3, F6, E6|by rewrite Ew4, Ew3, F8, E8|by rewrite Eo4, Eo3, F9, E9].
    rewrite Ec4. eapply cons_frame; [exact Hc3|by rewrite El4, El3|exact Es4]. }
  unfold boot_trace. fold clears. case_decide as Hz.
  - rewrite (format_line_run _ _ _ hates_line) by (rewrite Eli4; apply hates_formatted). cbn [cbind]. unfold line_text. cbn [line set_line active].
    rewrite hates_read. cbn [cbind]. rewrite (ci_active _ _ _ Hi). cbn [deref cbind].
    destruct (feed_inv clears 0 (set_line hates_line s4) 0 (fun t => vputs t HATES) (expand HATES)) as (s5 & E5' & Hi5);
      [|lia|apply vputs_expand|apply hates_tame|].
    { apply cinv_idle; simpl; [apply Hi|lia| |exact Hbar4|by left|apply Hi|by rewrite Ew4, Ew3, F8, E8|by rewrite Eo4, Eo3, F9, E9].
      rewrite Ec4. eapply cons_frame; [exact Hc3|by rewrite El4, El3|exact Es4]. }
    exists s5. split; [done|]. split; [done|]. rewrite (on_con_out _ _ _ _ E5'). simpl. by rewrite Eo4, Eo3, F9, E9.
  - exists s4. split; [done|]. rewrite app_nil_r. split; [done|]. by rewrite Eo4, Eo3, F9, E9.
Qed.

(** ** Executions *)

Lemma format_line_out s fmt a s' : format_line s fmt a = Ok s' -> out s' = out s.
Proof. intros (l & _ & (l' & _ & E)%cbind_Ok)%cbind_Ok. by injection E as <-. Qed.

Lemma run_act_out a s s' : run_act a s = Ok s' -> out s' = out s.
Proof.
  intros (p & _ & E)%cbind_Ok. destruct a as [| |n| | | |key|key].
  - apply cbind_Ok in E as (v & _ & E). destruct (at_ v); [by injection E as <-|]. apply cbind_Ok in E as (b & _ & E). by injection E as <-.
  - by injection E as <-.
  - by injection E as <-.
  - apply cbind_Ok in E as (v & _ & E). apply cbind_Ok in E as (s1 & E1 & E). injection E as <-. simpl. destruct (at_ v).
    + apply cbind_Ok in E1 as (b & _ & E1). by injection E1 as <-.
    + by injection E1 as <-.
  - by eapply format_line_out.
  - apply cbind_Ok in E as (l & _ & E). apply cbind_Ok in E as (t & _ & E). unfold put_back in E. destruct (at_ (statbar s)); by injection E as <-.
  - by eapply on_con_out.
  - injection E as <-. by case_decide.
Qed.

(** A thread that has left does not come back. *)
Lemma quiet_back s o s' : step s o (Ok s') -> quiet s' -> quiet s.
Proof.
  intros Hst. remember (Ok s') as r eqn:Er. unfold quiet.
  destruct Hst as [s key Hw Hk|s key w p Hw Hp|s b w Hw Hb|s src msg code Ho Hm Hbm|s p str Ho|s l p Ho Hl Hp|s p l Ho|s p str Ho Hstr]; try (by rewrite Ho).
  - by apply cbind_Ok in Er as ([k w] & _ & [= <-]).
  - apply run_act_out in Er. by rewrite Er.
  - apply run_act_out in Er. by rewrite Er.
  - apply format_line_out in Er. by rewrite Er.
  - apply on_con_out in Er. by rewrite Er.
Qed.

Lemma chars_of_prefix i tr tr' : tame fresh (chars_of i (tr ++ tr')) = true -> tame fresh (chars_of i tr) = true.
Proof. unfold chars_of. rewrite bind_app. apply tame_prefix. Qed.

Lemma reach_inv tr s : reach tr s -> quiet s -> (forall i, (i < 10)%nat -> tame fresh (chars_of i tr) = true) -> exists a, cinv tr a s.
Proof.
  induction 1 as [scr smem mems err s Hg E|tr s o s' Hr IH Hst]; intros Hq Ht.
  - destruct (console_main_ok scr smem mems err Hg) as (s' & E' & Hi & _). exists 0%nat. congruence.
  - pose proof (quiet_back _ _ _ Hst Hq) as Hq0.
    destruct IH as [a Hi]; [exact Hq0|intros i Hi; eapply chars_of_prefix, Ht, Hi|].
    destruct (step_ok tr a s o (Ok s') Hi Hq0 Hst) as (s'' & [= <-] & Hi'); [|by apply Hi'].
    intros p l ->. destruct (decide (p < 10)%nat) as [Hp|Hp]; [specialize (Ht p Hp); by rewrite chars_of_snoc, decide_True in Ht|].
    exfalso. apply Hp. inversion Hst; subst; [pose proof (ci_active _ _ _ Hi); pose proof (ci_range _ _ _ Hi); congruence| |].
    + by eapply (ci_out _ _ _ Hi).
    + unfold quiet in Hq0. match goal with H : out _ = LastPut _ |- _ => by rewrite H in Hq0 end.
Qed.

(** ** The claims *)

(** C16. The console server keeps ten independent terminals, for streams that are tame (no
  parameter of ten digits, no empty scrolling region: the inputs the engine does not survive).  In
  every state the two threads reach, in any interleaving, while the output thread listens,
  console i holds exactly what a terminal of its own holds after the characters sent to console
  i, be it on the display or not; and whenever the keyboard thread waits for a key, the display
  shows the active console and, in the last row, the status line with its number. *)
Theorem console_terminals tr s (Hr : reach tr s) (Hq : quiet s) (Ht : forall i, (i < 10)%nat -> tame fresh (chars_of i tr) = true) :
  exists a, active s = Some a /\ (a < 10)%nat /\
    (forall i, (i < 10)%nat -> exists v t, con s !! i = Some v /\ send_chars fresh (chars_of i tr) = Ok t /\ terminal (screen s) v = t) /\
    (work s = [] -> exists t, send_chars fresh (chars_of a tr) = Ok t /\
       slice (screen s) 0 1920 = data t /\ slice (screen s) 1920 80 = status_row a).
Proof.
  destruct (reach_inv tr s Hr Hq Ht) as [a [Ha Hrange Hc Hb Hl Hs Hbuf Hwk Ho]]. exists a. split; [exact Ha|]. split; [exact Hrange|]. split.
  - intros i Hi. destruct (lookup_lt_is_Some_2 (con s) i) as [v Hv]; [by rewrite (co_num _ _ _ _ Hc)|].
    exists v, (terminal (screen s) v). split; [done|]. split; [|done]. by apply (co_term _ _ _ _ Hc).
  - intros Hw. rewrite Hw in *. destruct (lookup_lt_is_Some_2 (con s) a) as [v Hv]; [by rewrite (co_num _ _ _ _ Hc)|].
    pose proof (co_term _ _ _ _ Hc _ _ Hv) as Hst. exists (terminal (screen s) v). split; [apply Hst|].
    destruct (terminal_fields _ _ _ _ Hst) as (_ & _ & _ & _ & En & _). split.
    + simpl. unfold cells. rewrite (co_at _ _ _ _ Hc _ _ Hv), En. unfold place_of. by rewrite decide_True.
    + destruct Hb as (m & Hm & [Hat Hterm] & E). assert (m = a) as -> by (by apply E).
      unfold terminal, cells in Hterm. rewrite Hat in Hterm.
      assert (ncells (statbar s) = 80%nat) as Enc by (unfold ncells; injection Hterm as -> -> _; reflexivity). rewrite Enc in Hterm.
      apply (f_equal data) in Hterm. exact Hterm.
Qed.

(** The console server does not fail: console_main sets it up in any memory, and
  from every state reached while the output thread listens, a step of either thread
  succeeds, as long as the characters sent to the console it prints on are ones the
  terminal engine can stand. *)
Theorem console_never_fails scr smem mems err tr s o r (Hg : good_memory scr smem mems)
  (Hr : reach tr s) (Hq : quiet s) (Ht : forall i, (i < 10)%nat -> tame fresh (chars_of i tr) = true)
  (Hst : step s o r) (Ho : forall p l, o = Some (p, l) -> tame fresh (chars_of p tr ++ l) = true) :
  (exists s0, console_main scr smem mems err = Ok s0 /\ quiet s0) /\ exists s', r = Ok s'.
Proof.
  split.
  - destruct (console_main_ok scr smem mems err Hg) as (s0 & E & _ & Ho0). exists s0. split; [exact E|]. unfold quiet. by rewrite Ho0.
  - destruct (reach_inv tr s Hr Hq Ht) as [a Hi]. destruct (step_ok tr a s o r Hi Hq Hst Ho) as (s' & E & _). eauto.
Qed.

(** ** Witnesses *)

Lemma ex_memory : good_memory (replicate 4096 0x720) (replicate 80 0) (replicate 10 (replicate 1920 0)).
Proof.
  unfold good_memory. rewrite !length_replicate. split_and!; [reflexivity..|]. apply Forall_replicate, length_replicate.
Qed.

Lemma boot_tame i : (i < 10)%nat -> tame fresh (chars_of i (boot_trace 0)) = true.
Proof.
  intros Hi. assert (chars_of i (boot_trace 0) = CLEAR) as -> by (revert i Hi; apply below10; upto10). apply clear_tame.
Qed.

Lemma console_terminals_witness :
  exists s, reach (boot_trace 0) s /\ quiet s /\ exists a, active s = Some a /\ (a < 10)%nat.
Proof.
  destruct (console_main_ok _ _ _ 0 ex_memory) as (s & E & _ & Ho). exists s.
  assert (quiet s) as Hq by (unfold quiet; by rewrite Ho).
  assert (reach (boot_trace 0) s) as Hr by exact (reach_boot _ _ _ 0 s ex_memory E). split; [exact Hr|]. split; [exact Hq|].
  destruct (console_terminals (boot_trace 0) s Hr Hq boot_tame) as (a & Ha & Hrange & _). exists a. split; [exact Ha|exact Hrange].
Defined.

Lemma console_never_fails_witness :
  exists s s', reach (boot_trace 0) s /\ receive s 7 [72; 105] 1 = Ok s'.
Proof.
  destruct (console_main_ok _ _ _ 0 ex_memory) as (s & E & _ & Ho).
  assert (quiet s) as Hq by (unfold quiet; by rewrite Ho).
  assert (reach (boot_trace 0) s) as Hr by exact (reach_boot _ _ _ 0 s ex_memory E). exists s.
  destruct (console_never_fails _ _ _ 0 (boot_trace 0) s None (receive s 7 [72; 105] 1) ex_memory Hr Hq boot_tame) as [_ [s' E']].
  - apply step_recv; [exact Ho|simpl; lia|]. repeat constructor; lia.
  - discriminate.
  - exists s'. split; [exact Hr|exact E'].
Defined.

End ConsoleRun.
