(* ===== verification/Path.v ===== *)
(** srv/vfs/path.c: resolution of "." and ".." in the paths the vfs server is sent.

  [s] is an offset into the block [m] that is written, [t] one into the block [tm] that
  is read; an access outside the blocks is a [Fault].  Every turn of the main loop
  advances [t], so that fuel of one more than the block is long is enough. *)
From S2P Require Import Prelude LibC.
Import LibC.
Local Open Scope Z_scope.
Local Open Scope c_scope.

Module Path.

Definition SLASH : Z := 47.
Definition DOT : Z := 46.

(** The scan for the end of the string at [c]. *)
Fixpoint find_end (m : list Z) (c : Z) (fuel : nat) : cres Z :=
  match fuel with
  | O => Fault
  | S fuel => let! x := rd m c in if decide (x = 0) then Ok c else find_end m (c + 1) fuel
  end.

(** Copy from [t] up to a '/' or the end: the buffer, [c] and [t]. *)
Fixpoint copy_component (m : list Z) (c : Z) (tm : list Z) (t : Z) (fuel : nat) : cres (list Z * Z * Z) :=
  match fuel with
  | O => Fault
  | S fuel =>
      let! x := rd tm t in
      if decide (x <> 0 /\ x <> SLASH) then
        let! m := wr m c x in copy_component m (c + 1) tm (t + 1) fuel
      else Ok (m, c, t)
  end.

(** Move [c] back to the previous '/', not beyond [s]. *)
Fixpoint back_up (m : list Z) (s c : Z) (fuel : nat) : cres Z :=
  match fuel with
  | O => Fault
  | S fuel =>
      if decide (c = s) then Ok c else
      let! x := rd m c in if decide (x = SLASH) then Ok c else back_up m s (c - 1) fuel
  end.

(** One turn of the loop over the components, [x] being the character at [t]. *)
Definition component (m : list Z) (s c : Z) (tm : list Z) (t x : Z) : cres (list Z * Z * Z) :=
  if decide (x = SLASH) then let! m := wr m c x in Ok (m, c + 1, t + 1)
  else if decide (x <> DOT) then copy_component m c tm t (S (length tm))
  else
    let t := t + 1 in
    let! y := rd tm t in
    if decide (y = SLASH \/ y = 0) then Ok (m, c, t + 1)
    else if decide (y = DOT) then
      if decide (c <> s + 1) then
        let! c := back_up m s (c - 2) (S (length m)) in
        let c := c + 1 in
        let t := t + 1 in
        let! z := rd tm t in
        Ok (m, c, if decide (z = SLASH) then t + 1 else t)
      else Ok (m, c, t)
    else
      let! m := wr m c DOT in copy_component m (c + 1) tm t (S (length tm)).

Fixpoint components (m : list Z) (s c : Z) (tm : list Z) (t : Z) (fuel : nat) : cres (list Z * Z) :=
  match fuel with
  | O => Fault
  | S fuel =>
      let! x := rd tm t in
      if decide (x = 0) then Ok (m, c) else
      let! (m, c, t) := component m s c tm t x in components m s c tm t fuel
  end.

Definition path_concat (m : list Z) (s : Z) (tm : list Z) (t : Z) : cres (list Z) :=
  let! c := find_end m s (S (length m)) in
  let! (m, c) := components m s c tm t (S (length tm)) in
  let! m := wr m c 0 in
  if decide (c - 1 <> s) then
    let! x := rd m (c - 1) in
    if decide (x = SLASH) then wr m (c - 1) 0 else Ok m
  else Ok m.

(** Copy the string at [c], without its terminator. *)
Fixpoint copy_string (m : list Z) (d : Z) (sm : list Z) (c : Z) (fuel : nat) : cres (list Z * Z) :=
  match fuel with
  | O => Fault
  | S fuel =>
      let! x := rd sm c in
      if decide (x = 0) then Ok (m, d) else
      let! m := wr m d x in copy_string m (d + 1) sm (c + 1) fuel
  end.

Definition path_combine (sm : list Z) (s : Z) (tm : list Z) (t : Z) (m : list Z) (d : Z) : cres (list Z) :=
  let! m := wr m d 0 in
  let! x := rd tm t in
  if decide (x = SLASH) then path_concat m d tm t else
  let! (m, e) := copy_string m d sm s (S (length sm)) in
  let! y := rd m e in
  let! m := (if decide (y <> SLASH) then wr m e SLASH else Ok m) in
  path_concat m d tm t.

(** ** Paths as lists of names *)

(** A name: not empty, without '/', and not starting with ".." or being ".". *)
Definition name_ok (n : list Z) : Prop :=
  Forall (fun c => 0 < c < 256 /\ c <> SLASH) n /\
  match n with
  | [] => False
  | c :: r => c <> DOT \/ match r with [] => False | d :: _ => d <> DOT end
  end.

(** A component of the path that is appended. *)
Inductive comp := Name (n : list Z) | Here | Parent.
Definition comp_text (k : comp) : list Z :=
  match k with Name n => n | Here => [DOT] | Parent => [DOT; DOT] end.
Definition comp_ok (k : comp) : Prop := match k with Name n => name_ok n | _ => True end.

(** "/a/b/" for the names of a directory, and "a/../b/" for components. *)
Definition dir_text (ns : list (list Z)) : list Z := SLASH :: concat (map (fun n => n ++ [SLASH]) ns).
Definition path_text (ks : list comp) : list Z := concat (map (fun k => comp_text k ++ [SLASH]) ks).

(** What the components lead to. *)
Definition enter (ns : list (list Z)) (k : comp) : list (list Z) :=
  match k with
  | Name n => ns ++ [n]
  | Here => ns
  | Parent => take (length ns - 1) ns
  end.
Definition resolve (ns : list (list Z)) (ks : list comp) : list (list Z) := fold_left enter ks ns.

(** [l] is at [p] in a block, whatever follows. *)
Definition text_at (m : list Z) (p : Z) (l : list Z) : Prop :=
  forall i c, l !! i = Some c -> aget m (p + Z.of_nat i) = Some c.

Lemma text_at_cons m p c l : text_at m p (c :: l) <-> aget m p = Some c /\ text_at m (p + 1) l.
Proof.
  split.
  - intros H. split; [by rewrite <- (Z.add_0_r p); apply (H 0%nat)|]. intros i x Hi.
    replace (p + 1 + Z.of_nat i) with (p + Z.of_nat (S i)) by lia. by apply H.
  - intros [H0 H] [|i] x Hi; simpl in Hi.
    + injection Hi as <-. by rewrite Z.add_0_r.
    + replace (p + Z.of_nat (S i)) with (p + 1 + Z.of_nat i) by lia. by apply H.
Qed.

Lemma text_at_app m p l1 l2 : text_at m p (l1 ++ l2) <-> text_at m p l1 /\ text_at m (p + Z.of_nat (length l1)) l2.
Proof.
  revert p. induction l1 as [|c l1 IH]; intros p; simpl.
  - rewrite Z.add_0_r. split; [by intros H; split; [intros i x Hi|]|by intros []].
  - rewrite !text_at_cons, IH. replace (p + 1 + Z.of_nat (length l1)) with (p + Z.of_nat (S (length l1))) by lia. tauto.
Qed.

Lemma text_at_splice m p l : fits m p (length l) -> text_at (splice m p l) p l.
Proof. intros Hf i c Hi. by apply aget_splice_in. Qed.

Lemma rd_text m p c l : text_at m p (c :: l) -> rd m p = Ok c.
Proof. intros [H _]%text_at_cons. by apply rd_Some. Qed.

Lemma text_length m t l : text_at m t l -> l <> [] -> (length l <= length m)%nat.
Proof.
  intros Ht Hne. destruct l as [|c l _] using rev_ind; [done|]. apply text_at_app in Ht as [Ht Hc].
  pose proof (rd_text _ _ _ _ Hc) as E. unfold rd in E. apply deref_Ok, aget_Some in E. rewrite length_app. cbn [length].
  destruct l as [|d l]; [simpl in *; lia|]. pose proof (rd_text _ _ _ _ Ht) as E2. unfold rd in E2. apply deref_Ok, aget_Some in E2. lia.
Qed.

Lemma dir_text_snoc ns n : dir_text (ns ++ [n]) = dir_text ns ++ n ++ [SLASH].
Proof. unfold dir_text. rewrite map_app, concat_app. simpl. by rewrite app_nil_r. Qed.

(** ** The buffer while the components are read *)

(** What ends a name: a '/' or the end of the path. *)
Definition ends (e : Z) : Prop := e = SLASH \/ e = 0.

(** Copying the rest [r] of a name that is followed by [e]. *)
Lemma copy_component_ok m0 s tm e (He : ends e) : forall r out t fuel, text_at tm t (r ++ [e]) ->
  Forall (fun c => 0 < c < 256 /\ c <> SLASH) r -> (length r < fuel)%nat -> fits m0 s (length out + length r) ->
  copy_component (splice m0 s out) (s + Z.of_nat (length out)) tm t fuel =
    Ok (splice m0 s (out ++ r), s + Z.of_nat (length out + length r), t + Z.of_nat (length r)).
Proof.
  induction r as [|c r IH]; intros out t fuel Ht Hr Hf Hfit; (destruct fuel as [|fuel]; [simpl in Hf; lia|]); simpl.
  - rewrite (rd_text _ _ _ _ Ht). cbn [cbind]. rewrite decide_False by (intros []; by destruct He). rewrite app_nil_r. ok_eq.
  - apply Forall_cons in Hr as [[Hc Hs] Hr]. simpl in Ht, Hf, Hfit. rewrite (rd_text _ _ _ _ Ht). cbn [cbind].
    rewrite decide_True by (split; [lia|done]). rewrite wr_snoc by (lia || unfold fits in *; lia). cbn [cbind].
    apply text_at_cons in Ht as [_ Ht]. specialize (IH (out ++ [c]) (t + 1) fuel Ht Hr ltac:(lia)).
    rewrite length_app in IH. simpl length in IH.
    replace (s + Z.of_nat (length out) + 1) with (s + Z.of_nat (length out + 1)) by lia.
    rewrite IH by (unfold fits in *; lia). rewrite <- app_assoc. ok_eq.
Qed.

Section concat.
Context (m0 : list Z) (s : Z) (tm : list Z).

(** Backing up over a name to the '/' before it. *)
Lemma back_up_ok m : forall n p fuel, text_at m p (SLASH :: n) -> Forall (fun c => c <> SLASH) n -> s <= p ->
  (length n < fuel)%nat -> back_up m s (p + Z.of_nat (length n)) fuel = Ok p.
Proof.
  induction n as [|c n IH] using rev_ind; intros p fuel Ht Hn Hp Hf; (destruct fuel as [|fuel]; [simpl in Hf; lia|]); cbn [back_up].
  - simpl. rewrite Z.add_0_r. rewrite (rd_text _ _ _ _ Ht). cbn [cbind]. case_decide; [done|]. by rewrite decide_True.
  - rewrite length_app in *. simpl length in *. rewrite decide_False by lia.
    apply Forall_app in Hn as [Hn Hc]. rewrite Forall_singleton in Hc.
    change (SLASH :: n ++ [c]) with ((SLASH :: n) ++ [c]) in Ht. apply text_at_app in Ht as [Ht Hl]. simpl length in Hl.
    replace (p + Z.of_nat (length n + 1)) with (p + Z.of_nat (S (length n))) by lia.
    rewrite (rd_text _ _ _ _ Hl). cbn [cbind]. rewrite decide_False by done.
    replace (p + Z.of_nat (S (length n)) - 1) with (p + Z.of_nat (length n)) by lia. apply IH; done || lia.
Qed.

(** A text already in place. *)
Lemma splice_text m l : text_at m s l -> fits m s (length l) -> splice m s l = m.
Proof.
  intros Ht Hf. apply mem_ext; [by rewrite length_splice|]. intros q Hq.
  destruct (decide (s <= q < s + Z.of_nat (length l))) as [Hin|Hout]; [|rewrite aget_splice_out; [done|done|lia]].
  destruct (lookup_lt_is_Some_2 l (Z.to_nat (q - s))) as [x Hx]; [lia|].
  rewrite <- (Zplus_minus s q). replace (q - s) with (Z.of_nat (Z.to_nat (q - s))) by lia.
  rewrite (aget_splice_in _ _ _ _ x) by done. symmetry. by apply Ht.
Qed.

Context (cap : nat) (Hcap : fits m0 s cap).

(** The buffer holds the directory [ns]; only its first [cap] bytes have changed. *)
Definition holds (m : list Z) (ns : list (list Z)) : Prop :=
  text_at m s (dir_text ns) /\ length m = length m0 /\
  (forall q, q < s \/ s + Z.of_nat cap <= q -> aget m q = aget m0 q) /\
  Forall name_ok ns.

Definition here (ns : list (list Z)) : Z := s + Z.of_nat (length (dir_text ns)).

Lemma holds_fits m ns n : holds m ns -> (n <= cap)%nat -> fits m s n.
Proof. intros (_ & El & _) Hn. unfold fits in *. lia. Qed.

(** Appending to the text in the buffer. *)
Lemma holds_append m ns l : holds m ns -> (length (dir_text ns) + length l <= cap)%nat ->
  let m' := splice m s (dir_text ns ++ l) in
  text_at m' s (dir_text ns ++ l) /\ length m' = length m0 /\ (forall q, q < s \/ s + Z.of_nat cap <= q -> aget m' q = aget m0 q).
Proof.
  intros H Hl m'. pose proof (holds_fits m ns _ H Hl) as Hf. rewrite <- length_app in Hf. destruct H as (Ht & El & Hout & _).
  split; [by apply text_at_splice|]. split; [unfold m'; by rewrite length_splice|]. intros q Hq.
  unfold m'. rewrite aget_splice_out; [by apply Hout|done|]. rewrite length_app. lia.
Qed.

(** Copying [r] after the directory [ns]. *)
Lemma copy_name m ns r t fuel e : ends e -> holds m ns -> text_at tm t (r ++ [e]) ->
  Forall (fun c => 0 < c < 256 /\ c <> SLASH) r -> (length r < fuel)%nat -> (length (dir_text ns) + length r <= cap)%nat ->
  copy_component m (here ns) tm t fuel =
    Ok (splice m s (dir_text ns ++ r), here ns + Z.of_nat (length r), t + Z.of_nat (length r)).
Proof.
  intros He H Ht Hr Hf Hc. pose proof (splice_text m (dir_text ns) (proj1 H) (holds_fits m ns (length (dir_text ns)) H ltac:(lia))) as Em.
  pose proof (copy_component_ok m s tm e He r (dir_text ns) t fuel Ht Hr Hf (holds_fits m ns _ H Hc)) as E. rewrite Em in E.
  unfold here. rewrite E. ok_eq.
Qed.

Lemma components_turn m c t x fuel : rd tm t = Ok x -> x <> 0 ->
  components m s c tm t (S fuel) = (let! (m, c, t) := component m s c tm t x in components m s c tm t fuel).
Proof. intros E Hx. cbn [components]. rewrite E. cbn [cbind]. by rewrite decide_False. Qed.

(** The '/' that ends a name in the buffer. *)
Lemma slash_turn m ns n t : holds m ns -> name_ok n -> rd tm t = Ok SLASH ->
  (length (dir_text ns) + length n + 1 <= cap)%nat ->
  exists m', holds m' (ns ++ [n]) /\ forall fuel,
    components (splice m s (dir_text ns ++ n)) s (here ns + Z.of_nat (length n)) tm t (S fuel) =
    components m' s (here (ns ++ [n])) tm (t + 1) fuel.
Proof.
  intros H Hn Et Hc. exists (splice m s (dir_text ns ++ n ++ [SLASH])). split.
  - destruct (holds_append m ns (n ++ [SLASH]) H) as (Ht & El & Hout); [rewrite length_app; cbn [length]; lia|].
    unfold holds. rewrite dir_text_snoc. split_and!; try done. apply Forall_app. split; [by destruct H as (_ & _ & _ & H)|by constructor].
  - intros fuel. rewrite (components_turn _ _ _ SLASH) by done. unfold component. rewrite decide_True by done.
    pose proof (wr_snoc m s (dir_text ns ++ n) SLASH) as Hw. rewrite length_app, <- app_assoc in Hw.
    unfold here. rewrite <- Z.add_assoc, <- Nat2Z.inj_add. rewrite Hw; [|eapply holds_fits; [done|lia]|unfold SLASH; lia].
    cbn [cbind]. rewrite dir_text_snoc, !length_app. cbn [length]. f_equal; lia.
Qed.

(** The first turn on a name copies it. *)
Lemma name_turn m ns n t x e : ends e -> holds m ns -> name_ok n -> text_at tm t (n ++ [e]) -> rd tm t = Ok x ->
  (length (dir_text ns) + length n <= cap)%nat ->
  x <> 0 /\ component m s (here ns) tm t x =
    Ok (splice m s (dir_text ns ++ n), here ns + Z.of_nat (length n), t + Z.of_nat (length n)).
Proof.
  intros He H [Hn Hd] Ht Ex Hc. destruct n as [|c r]; [done|]. pose proof (rd_text _ _ _ _ Ht) as Ec. rewrite Ec in Ex. injection Ex as <-.
  pose proof Hn as [[Hc0 Hcs] Hr]%Forall_cons. split; [lia|]. unfold component. rewrite decide_False by done.
  pose proof (text_length tm t _ Ht ltac:(done)) as Hlen. rewrite length_app in Hlen.
  destruct (decide (c = DOT)) as [->|Hdot].
  - rewrite decide_False by (by intros []). destruct Hd as [|Hd]; [done|]. destruct r as [|d r]; [done|].
    apply text_at_cons in Ht as [_ Ht]. rewrite (rd_text _ _ _ _ Ht). cbn [cbind]. pose proof Hr as [[Hd0 Hds] _]%Forall_cons.
    rewrite decide_False by (intros [|]; [done|lia]). rewrite decide_False by done.
    pose proof (splice_text m (dir_text ns) (proj1 H) (holds_fits m ns (length (dir_text ns)) H ltac:(lia))) as Em.
    pose proof (wr_snoc m s (dir_text ns) DOT) as Hw. rewrite Em in Hw. fold (here ns) in Hw.
    rewrite Hw; [|apply (holds_fits m ns); [done|simpl in Hc |- *; lia]|unfold DOT; lia]. cbn [cbind].
    pose proof (copy_component_ok m s tm e He (d :: r) (dir_text ns ++ [DOT]) (t + 1) (S (length tm)) Ht Hr) as E.
    rewrite length_app in E. cbn [length] in *. unfold here.
    replace (s + Z.of_nat (length (dir_text ns)) + 1) with (s + Z.of_nat (length (dir_text ns) + 1)) by lia.
    rewrite E; [|lia|apply (holds_fits m ns); [done|lia]]. rewrite <- app_assoc. ok_eq.
  - rewrite decide_True by done. apply (copy_name _ _ _ _ _ e); try done; lia.
Qed.

(** ".." leaves the last name. *)
Lemma parent_turn m ns n t e : ends e -> holds m (ns ++ [n]) -> text_at tm t [DOT; DOT; e] ->
  holds m ns /\ forall fuel, components m s (here (ns ++ [n])) tm t (S fuel) = components m s (here ns) tm (if decide (e = SLASH) then t + 3 else t + 2) fuel.
Proof.
  intros He H Ht. pose proof (rd_text _ _ _ _ Ht) as E0. apply text_at_cons in Ht as [_ Ht].
  pose proof (rd_text _ _ _ _ Ht) as E1. apply text_at_cons in Ht as [_ Ht]. pose proof (rd_text _ _ _ _ Ht) as E2.
  destruct H as (Htx & El & Hout & Hok). apply Forall_app in Hok as [Hok Hn].
  rewrite Forall_singleton in Hn. destruct Hn as [Hb _]. rewrite dir_text_snoc in Htx.
  pose proof (proj1 (proj1 (text_at_app _ _ _ _) Htx)) as Hdir. split; [by split_and!|].
  intros fuel. rewrite (components_turn _ _ _ DOT) by done. unfold component.
  rewrite decide_False by done. rewrite decide_False by (by intros []). rewrite E1. cbn [cbind].
  rewrite decide_False by (by intros [|]). rewrite decide_True by done.
  assert (exists d, dir_text ns = d ++ [SLASH]) as [d Ed].
  { destruct ns as [|x ns _] using rev_ind; [by exists []|]. rewrite dir_text_snoc. exists (dir_text ns ++ x). by rewrite <- app_assoc. }
  unfold here. rewrite dir_text_snoc, Ed, !length_app. cbn [length].
  rewrite decide_True by lia. rewrite Ed in Htx. rewrite <- !app_assoc in Htx. apply text_at_app in Htx as [_ Htx].
  change ([SLASH] ++ n ++ [SLASH]) with ((SLASH :: n) ++ [SLASH]) in Htx. apply text_at_app in Htx as [Htx Hlast].
  assert (length n < S (length m))%nat as Hlen.
  { pose proof (text_length m _ _ Htx ltac:(done)). simpl in *. lia. }
  pose proof (back_up_ok m n (s + Z.of_nat (length d)) (S (length m)) Htx) as Hbk.
  replace (s + Z.of_nat (length d + 1 + (length n + 1)) - 2) with (s + Z.of_nat (length d) + Z.of_nat (length n)) by lia.
  rewrite Hbk; [|eapply Forall_impl; [done|]; by intros ? []|lia|lia]. cbn [cbind]. rewrite E2. cbn [cbind].
  destruct (decide (e = SLASH)); f_equal; lia.
Qed.

(** In the root ".." is taken for "." after one character. *)
Lemma root_turn m t c : holds m [] -> text_at tm t [DOT; DOT; c] ->
  forall fuel, components m s (here []) tm t (S fuel) = components m s (here []) tm (t + 1) fuel.
Proof.
  intros H Ht fuel. pose proof (rd_text _ _ _ _ Ht) as E0. apply text_at_cons in Ht as [_ Ht]. pose proof (rd_text _ _ _ _ Ht) as E1.
  rewrite (components_turn _ _ _ DOT) by done. unfold component at 1. rewrite decide_False by done. rewrite decide_False by (by intros []). rewrite E1. cbn [cbind].
  rewrite decide_False by (by intros [|]). rewrite decide_True by done. rewrite decide_False by (unfold here; simpl; lia). done.
Qed.

(** "." is stepped over together with what ends it. *)
Lemma here_turn m c t e : ends e -> text_at tm t [DOT; e] -> forall fuel, components m s c tm t (S fuel) = components m s c tm (t + 2) fuel.
Proof.
  intros He Ht fuel. pose proof (rd_text _ _ _ _ Ht) as Ex. apply text_at_cons in Ht as [_ Ht]. rewrite (components_turn _ _ _ DOT) by done. unfold component. rewrite decide_False by done.
  rewrite decide_False by (by intros []). rewrite (rd_text _ _ _ _ Ht). cbn [cbind]. rewrite decide_True by done. cbn [cbind]. f_equal. lia.
Qed.

(** The root is its own parent. *)
Lemma parent_step m ns t : holds m ns -> text_at tm t [DOT; DOT; SLASH] ->
  exists j, (j <= 2)%nat /\ holds m (enter ns Parent) /\ forall fuel,
    components m s (here ns) tm t (j + fuel) = components m s (here (enter ns Parent)) tm (t + 3) fuel.
Proof.
  intros H Ht. destruct ns as [|n ns _] using rev_ind; simpl enter.
  - exists 2%nat. split; [done|]. split; [done|]. intros fuel. cbn [Nat.add]. rewrite (root_turn m t SLASH H Ht). apply text_at_cons in Ht as [_ Ht].
    rewrite (here_turn m _ (t + 1) SLASH (or_introl eq_refl) Ht). f_equal. lia.
  - rewrite length_app. cbn [length]. replace (length ns + 1 - 1)%nat with (length ns) by lia. rewrite take_app_length.
    destruct (parent_turn m ns n t SLASH (or_introl eq_refl) H Ht) as [Hh E]. exists 1%nat. split; [lia|]. split; [done|]. intros fuel. cbn [Nat.add]. by rewrite E.
Qed.

Lemma comp_step m ns k t : holds m ns -> comp_ok k -> text_at tm t (comp_text k ++ [SLASH]) ->
  (length (dir_text ns) + length (comp_text k) + 1 <= cap)%nat ->
  exists m' j, (j <= length (comp_text k) + 1)%nat /\ holds m' (enter ns k) /\ forall fuel,
    components m s (here ns) tm t (j + fuel) =
    components m' s (here (enter ns k)) tm (t + Z.of_nat (length (comp_text k)) + 1) fuel.
Proof.
  intros H Hk Ht Hc. destruct k as [n| |]; simpl comp_text in *; simpl enter.
  - destruct (proj1 (text_at_app _ _ _ _) Ht) as [Hn Hs]. pose proof Hk as [Hb _]. destruct n as [|x n]; [by destruct Hk|].
    destruct (name_turn m ns (x :: n) t x SLASH (or_introl eq_refl) H Hk Ht (rd_text _ _ _ _ Ht) ltac:(lia)) as [Hx0 E].
    destruct (slash_turn m ns (x :: n) (t + Z.of_nat (length (x :: n))) H) as (m' & Hm' & E2);
      [done|by eapply rd_text|done|].
    exists m', 2%nat. split; [simpl; lia|]. split; [done|]. intros fuel. cbn [Nat.add]. rewrite (components_turn _ _ _ x) by (done || by eapply rd_text).
    rewrite E. cbn [cbind]. apply E2.
  - exists m, 1%nat. split; [simpl; lia|]. split; [done|]. intros fuel. cbn [Nat.add length]. rewrite (here_turn m _ t SLASH (or_introl eq_refl) Ht). f_equal. lia.
  - destruct (parent_step m ns t H Ht) as (j & Hj & Hm & E). exists m, j. split; [simpl; lia|]. split; [done|].
    intros fuel. rewrite E. cbn [length]. f_equal. lia.
Qed.

Lemma enter_length ns k : (length (dir_text (enter ns k)) <= length (dir_text ns) + length (comp_text k) + 1)%nat.
Proof.
  destruct k as [n| |]; simpl enter; simpl comp_text; [rewrite dir_text_snoc, !length_app; cbn [length]; lia|lia|].
  destruct ns as [|n ns _] using rev_ind; [simpl; lia|]. rewrite length_app. cbn [length].
  replace (length ns + 1 - 1)%nat with (length ns) by lia. rewrite take_app_length, dir_text_snoc, !length_app. lia.
Qed.

(** The turns that read the components [ks]. *)
Lemma components_run : forall ks ns m t, holds m ns -> Forall comp_ok ks -> text_at tm t (path_text ks) ->
  (length (dir_text ns) + length (path_text ks) <= cap)%nat ->
  exists m' j, (j <= length (path_text ks))%nat /\ holds m' (resolve ns ks) /\ forall fuel,
    components m s (here ns) tm t (j + fuel) =
    components m' s (here (resolve ns ks)) tm (t + Z.of_nat (length (path_text ks))) fuel.
Proof.
  induction ks as [|k ks IH]; intros ns m t H Hks Ht Hc; cbn [resolve fold_left].
  - exists m, 0%nat. split; [done|]. split; [done|]. intros fuel. simpl. by rewrite Z.add_0_r.
  - apply Forall_cons in Hks as [Hk Hks]. unfold path_text in *. cbn [map concat] in *. rewrite !length_app in *. cbn [length] in *.
    apply text_at_app in Ht as [Hk1 Ht]. rewrite length_app in Ht. cbn [length] in Ht. pose proof (enter_length ns k) as Hel.
    destruct (comp_step m ns k t H Hk Hk1) as (m1 & j1 & Hj1 & Hm1 & E1); [lia|].
    destruct (IH (enter ns k) m1 (t + Z.of_nat (length (comp_text k)) + 1)) as (m2 & j2 & Hj2 & Hm2 & E2);
      [done|done|by rewrite <- Z.add_assoc, <- (Nat2Z.inj_add _ 1)|lia|].
    exists m2, (j1 + j2)%nat. split; [lia|]. split; [done|]. intros fuel. rewrite <- Nat.add_assoc, E1, E2. f_equal. lia.
Qed.

Lemma components_ok ks ns m t fuel : holds m ns -> Forall comp_ok ks -> text_at tm t (path_text ks ++ [0]) ->
  (length (dir_text ns) + length (path_text ks) <= cap)%nat -> (length (path_text ks) < fuel)%nat ->
  exists m', components m s (here ns) tm t fuel = Ok (m', here (resolve ns ks)) /\ holds m' (resolve ns ks).
Proof.
  intros H Hks [Ht H0]%text_at_app Hc Hf. destruct (components_run ks ns m t H Hks Ht Hc) as (m' & j & Hj & Hm' & E).
  exists m'. split; [|done]. replace fuel with (j + S (fuel - j - 1))%nat by lia. rewrite E. cbn [components].
  rewrite (rd_text _ _ _ _ H0). cbn [cbind]. by rewrite decide_True.
Qed.
End concat.

(** ** The claims *)

(** The name of a directory: "/" or "/a/b". *)
Definition dir_name (ns : list (list Z)) : list Z :=
  match ns with [] => [SLASH] | _ => take (length (dir_text ns) - 1) (dir_text ns) end.

Lemma dir_name_snoc ns n : dir_name (ns ++ [n]) = dir_text ns ++ n.
Proof.
  assert (dir_name (ns ++ [n]) = take (length (dir_text (ns ++ [n])) - 1) (dir_text (ns ++ [n]))) as -> by (by destruct ns).
  rewrite dir_text_snoc, app_assoc, length_app. cbn [length].
  replace (length (dir_text ns ++ n) + 1 - 1)%nat with (length (dir_text ns ++ n)) by lia. apply take_app_length.
Qed.

Lemma find_end_ok m str : forall c fuel, str_at m c str -> (length str < fuel)%nat ->
  find_end m c fuel = Ok (c + Z.of_nat (length str)).
Proof.
  induction str as [|x str IH]; simpl; intros c fuel Hs Hf; (destruct fuel as [|fuel]; [lia|]); simpl.
  - rewrite (rd_Some _ _ _ Hs). simpl. f_equal. lia.
  - destruct Hs as (Hx & Hr & Hs). rewrite (rd_Some _ _ _ Hx). simpl. rewrite decide_False by lia.
    rewrite IH by (done || lia). f_equal. lia.
Qed.

Lemma str_at_text m p str : str_at m p str -> text_at m p (str ++ [0]).
Proof.
  revert p. induction str as [|c str IH]; intros p; simpl.
  - intros H. apply text_at_cons. split; [done|]. by intros i x Hi.
  - intros (Hc & _ & H). apply text_at_cons. split; [done|]. by apply IH.
Qed.

Lemma text_str_at m p str : text_at m p str -> aget m (p + Z.of_nat (length str)) = Some 0 ->
  Forall (fun c => 0 < c < 256) str -> str_at m p str.
Proof.
  revert p. induction str as [|c str IH]; intros p Ht H0 Hb; simpl in *; [by rewrite Z.add_0_r in H0|].
  apply text_at_cons in Ht as [Hc Ht]. apply Forall_cons in Hb as [Hr Hb]. split_and!; try done; try lia. apply IH; try done.
  by replace (p + 1 + Z.of_nat (length str)) with (p + Z.of_nat (S (length str))) by lia.
Qed.

Lemma dir_text_bytes ns : Forall name_ok ns -> Forall (fun c => 0 < c < 256) (dir_text ns).
Proof.
  intros H. constructor; [unfold SLASH; lia|]. induction H as [|n ns [Hn _] _ IH]; simpl; [constructor|].
  apply Forall_app. split; [|done]. apply Forall_app. split; [|repeat constructor; unfold SLASH; lia].
  eapply Forall_impl; [done|]. by intros ? [].
Qed.

Lemma resolve_length ks : forall ns,
  (length (dir_text (resolve ns ks)) <= length (dir_text ns) + length (path_text ks))%nat.
Proof.
  induction ks as [|k ks IH]; intros ns; cbn [resolve fold_left]; [lia|]. specialize (IH (enter ns k)).
  pose proof (enter_length ns k). unfold path_text in *. cbn [map concat]. rewrite !length_app. cbn [length]. unfold resolve in *. lia.
Qed.

(** The end of path_concat: the terminator and the trailing '/'. *)
Lemma finish_ok m0 s cap (Hcap : fits m0 s cap) m ns : holds m0 s cap m ns -> (length (dir_text ns) < cap)%nat ->
  exists m', (let! m := wr m (here s ns) 0 in
    if decide (here s ns - 1 <> s) then
      let! x := rd m (here s ns - 1) in if decide (x = SLASH) then wr m (here s ns - 1) 0 else Ok m
    else Ok m) = Ok m' /\ str_at m' s (dir_name ns) /\ (forall q, q < s \/ s + Z.of_nat cap <= q -> aget m' q = aget m0 q).
Proof.
  intros (Ht & El & Hout & Hok) Hlt. pose proof (dir_text_bytes ns Hok) as Hb. unfold here.
  assert (0 <= s /\ s + Z.of_nat (length (dir_text ns)) < Z.of_nat (length m)) as [Hs0 Hin] by (unfold fits in *; lia).
  unfold wr. rewrite aset_in_range by lia. change (u8 0) with 0. cbn [deref cbind].
  set (L := dir_text ns) in *. set (m1 := <[Z.to_nat (s + Z.of_nat (length L)) := 0]> m).
  assert (forall q, q <> s + Z.of_nat (length L) -> aget m1 q = aget m q) as Hne by (intros q Hq; unfold m1; apply aget_insert_ne; lia).
  assert (aget m1 (s + Z.of_nat (length L)) = Some 0) as Hz by (apply aget_insert_eq; lia).
  assert (text_at m1 s L) as Ht1 by (intros i c Hi; rewrite Hne; [by apply Ht|apply lookup_lt_Some in Hi; lia]).
  destruct ns as [|n ns _] using rev_ind.
  - rewrite decide_False by (simpl; lia). exists m1. split; [done|]. split; [by apply text_str_at|].
    intros q Hq. rewrite Hne by lia. by apply Hout.
  - assert (L = dir_text (ns ++ [n])) as EL by done. clearbody L.
    rewrite dir_name_snoc. assert (dir_text ns ++ n <> []) as Hd by done. revert EL Hd. rewrite dir_text_snoc, app_assoc.
    generalize (dir_text ns ++ n). intros d Ed Hd.
    rewrite Ed, length_app in *. cbn [length] in *. apply text_at_app in Ht1 as [Htd Hslash].
    assert (length d <> 0%nat) by (by destruct d).
    replace (s + Z.of_nat (length d + 1) - 1) with (s + Z.of_nat (length d)) by lia. rewrite decide_True by lia.
    rewrite (rd_text _ _ _ _ Hslash). cbn [cbind]. rewrite decide_True by done.
    rewrite aset_in_range by (unfold m1; rewrite length_insert; lia). cbn [deref]. eexists. split; [done|]. split.
    + apply text_str_at; [|apply aget_insert_eq; unfold m1; rewrite length_insert; lia|by apply Forall_app in Hb as [Hb _]].
      intros i c Hi. rewrite aget_insert_ne; [by apply Htd|lia|apply lookup_lt_Some in Hi; lia].
    + intros q Hq. rewrite aget_insert_ne by lia. rewrite Hne by lia. by apply Hout.
Qed.

(** The end of path_concat after a last name without '/'. *)
Lemma finish_name m0 s cap (Hcap : fits m0 s cap) m ns n : holds m0 s cap m ns -> name_ok n -> (length (dir_text ns) + length n < cap)%nat ->
  exists m', (let! m := wr (splice m s (dir_text ns ++ n)) (here s ns + Z.of_nat (length n)) 0 in
    if decide (here s ns + Z.of_nat (length n) - 1 <> s) then
      let! x := rd m (here s ns + Z.of_nat (length n) - 1) in if decide (x = SLASH) then wr m (here s ns + Z.of_nat (length n) - 1) 0 else Ok m
    else Ok m) = Ok m' /\ str_at m' s (dir_name (ns ++ [n])) /\ (forall q, q < s \/ s + Z.of_nat cap <= q -> aget m' q = aget m0 q).
Proof.
  intros H Hn Hc. destruct (holds_append m0 s cap Hcap m ns n H ltac:(lia)) as (Ht & El & Hout). pose proof H as (_ & _ & _ & Hok). pose proof (dir_text_bytes ns Hok) as Hb. destruct Hn as [Hn Hne].
  set (L := dir_text ns ++ n) in *. assert (length L = length (dir_text ns) + length n)%nat as EL by (unfold L; by rewrite length_app). unfold here. replace (s + Z.of_nat (length (dir_text ns)) + Z.of_nat (length n)) with (s + Z.of_nat (length L)) by lia.
  set (m1 := splice m s L) in *. assert (0 <= s /\ s + Z.of_nat (length L) < Z.of_nat (length m1)) as [Hs0 Hin] by (unfold fits in *; lia).
  unfold wr at 1. rewrite aset_in_range by lia. change (u8 0) with 0. cbn [deref cbind]. set (m2 := <[Z.to_nat (s + Z.of_nat (length L)) := 0]> m1).
  assert (forall q, q <> s + Z.of_nat (length L) -> aget m2 q = aget m1 q) as Hq by (intros q Hq; unfold m2; apply aget_insert_ne; lia).
  assert (text_at m2 s L) as Ht2 by (intros i c Hi; rewrite Hq; [by apply Ht|apply lookup_lt_Some in Hi; lia]).
  assert (aget m2 (s + Z.of_nat (length L)) = Some 0) as Hz by (apply aget_insert_eq; lia).
  destruct n as [|c n _] using rev_ind; [done|]. apply Forall_app in Hn as [Hn [Hc1 _]%Forall_cons].
  rewrite decide_True by (rewrite EL, length_app; cbn [length]; unfold dir_text; cbn [length]; lia).
  assert (rd m2 (s + Z.of_nat (length L) - 1) = Ok c) as ->.
  { unfold L in Ht2. rewrite app_assoc in Ht2. apply text_at_app in Ht2 as [_ Ht2]. rewrite <- (rd_text _ _ _ _ Ht2). f_equal. rewrite EL, !length_app. cbn [length]. lia. }
  cbn [cbind]. rewrite decide_False by apply Hc1. exists m2. split; [done|]. split.
  - rewrite dir_name_snoc. apply text_str_at; [done|exact Hz|]. apply Forall_app. split; [done|]. apply Forall_app. split; [eapply Forall_impl; [exact Hn|]; by intros ? []|]. constructor; [apply Hc1|constructor].
  - intros q Hqq. rewrite Hq by lia. by apply Hout.
Qed.

(** ** A path with a base *)

(** The last component, which has no '/' behind it. *)
Definition last_text (o : option comp) : list Z := match o with None => [] | Some k => comp_text k end.
Definition rel_text (ks : list comp) (o : option comp) : list Z := path_text ks ++ last_text o.
(** What s and t hold: a directory and a relative path, or nothing and an absolute path. *)
Definition base_text (absolute : bool) (ns : list (list Z)) : list Z := if absolute then [] else dir_text ns.
Definition given_text (absolute : bool) (txt : list Z) : list Z := if absolute then SLASH :: txt else txt.
(** The last component is ".", or ".." in the root. *)
Definition runs_over (ns : list (list Z)) (ks : list comp) (o : option comp) : Prop :=
  match o with Some Here => True | Some Parent => resolve ns ks = [] | _ => False end.

Section base.
Context (m : list Z) (s : Z) (tm : list Z) (t : Z) (absolute : bool) (ns : list (list Z)) (ks : list comp) (o : option comp).
Hypothesis root_base : absolute = true -> ns = [].
Hypothesis base_at : str_at m s (base_text absolute ns).
Hypothesis given_at : str_at tm t (given_text absolute (rel_text ks o)).
Hypothesis ns_ok : Forall name_ok ns.
Hypothesis ks_ok : Forall comp_ok ks.
Abbreviation cap := (length (dir_text ns) + length (rel_text ks o) + 1)%nat.
Hypothesis room : fits m s cap.

(** How path_concat comes to the state in which it reads the relative path. *)
Lemma path_start_ok : exists c m1, let j := if absolute then 1%nat else 0%nat in find_end m s (S (length m)) = Ok c /\ holds m s cap m1 ns /\ text_at tm (t + Z.of_nat j) (rel_text ks o ++ [0]) /\ (j + length (rel_text ks o) < length tm)%nat /\
  forall fuel, components m s c tm t (j + fuel) = components m1 s (here s ns) tm (t + Z.of_nat j) fuel.
Proof.
  pose proof (str_at_range _ _ _ base_at). pose proof (str_at_range _ _ _ given_at). unfold base_text, given_text in *. destruct absolute.
  - rewrite (root_base eq_refl) in *. exists s, (<[Z.to_nat s := SLASH]> m). cbn [length] in *. split; [rewrite (find_end_ok m []) by (done || cbn; lia); cbn; f_equal; lia|]. split; [|split_and!; [|lia|]].
    + split_and!; [|by rewrite length_insert| |done].
      * apply text_at_cons. split; [apply aget_insert_eq; lia|]. by intros i x Hi.
      * intros q Hq. apply aget_insert_ne; lia.
    + pose proof (str_at_text _ _ _ given_at) as Hx. by apply text_at_cons in Hx as [_ Hx].
    + intros fuel. cbn [Nat.add]. destruct given_at as (Hx & _). rewrite (components_turn s tm m s t SLASH) by (done || by apply rd_Some). unfold component. rewrite decide_True by done. unfold wr. rewrite aset_in_range by lia. change (u8 SLASH) with SLASH. done.
  - exists (here s ns), m. split; [apply find_end_ok; [done|lia]|]. split; [split_and!; try done; by apply (text_at_app _ _ _ [0]), str_at_text|]. rewrite Z.add_0_r. split_and!; [by apply str_at_text|lia|done].
Qed.

(** The state before the last component. *)
Lemma before_last : exists c m2 t2 fuel, find_end m s (S (length m)) = Ok c /\ components m s c tm t (S (length tm)) = components m2 s (here s (resolve ns ks)) tm t2 (S (S fuel)) /\
  holds m s cap m2 (resolve ns ks) /\ text_at tm t2 (last_text o ++ [0]) /\ t2 + Z.of_nat (length (last_text o)) = t + Z.of_nat (length (given_text absolute (rel_text ks o))) /\
  (length (dir_text (resolve ns ks)) + length (last_text o) < cap)%nat.
Proof.
  destruct path_start_ok as (c & m1 & E1 & H1 & Ht & Hl & E2). set (j := if absolute then 1%nat else 0%nat) in *. assert (length (given_text absolute (rel_text ks o)) = j + length (rel_text ks o))%nat as Eg by (unfold given_text, j; by destruct absolute).
  rewrite Eg. pose proof (resolve_length ks ns) as Hrl. assert (length (rel_text ks o) = length (path_text ks) + length (last_text o))%nat as Er by (unfold rel_text; apply length_app). unfold rel_text in Ht. rewrite <- app_assoc in Ht. apply text_at_app in Ht as [Ht1 Ht2].
  destruct (components_run m s tm cap room ks ns m1 (t + Z.of_nat j) H1 ks_ok Ht1) as (m2 & j2 & Hj2 & H2 & E3); [lia|].
  exists c, m2, (t + Z.of_nat j + Z.of_nat (length (path_text ks))), (length tm - j - j2 - 1)%nat. split_and!; try done; try lia.
  replace (S (length tm)) with (j + (j2 + S (S (length tm - j - j2 - 1))))%nat by lia. by rewrite E2, E3.
Qed.

Lemma resolve_last : resolve ns (ks ++ option_list o) = match o with None => resolve ns ks | Some k => enter (resolve ns ks) k end.
Proof. unfold resolve. rewrite fold_left_app. by destruct o. Qed.

Lemma concat_resolves : (forall k, o = Some k -> comp_ok k) -> ~ runs_over ns ks o ->
  exists m', path_concat m s tm t = Ok m' /\ str_at m' s (dir_name (resolve ns (ks ++ option_list o))) /\ (forall q, q < s \/ s + Z.of_nat cap <= q -> aget m' q = aget m q).
Proof.
  intros Hko Hro. destruct before_last as (c & m2 & t2 & fuel & E1 & E2 & H2 & Ht2 & _ & Hc). unfold path_concat. rewrite E1. cbn [cbind]. rewrite E2, resolve_last.
  revert Hko Hro Ht2 Hc. generalize cap room H2. destruct o as [[n| |]|]; cbn [last_text comp_text enter runs_over app]; intros k Hfit Hh Hko Hro Ht2 Hc; clear E1 E2 H2.
  - assert (name_ok n) as Hn by exact (Hko _ eq_refl). destruct n as [|x n]; [by destruct Hn|].
    destruct (name_turn m s tm k Hfit m2 (resolve ns ks) (x :: n) t2 x 0 (or_intror eq_refl) Hh Hn Ht2 (rd_text _ _ _ _ Ht2)) as [Hx0 E]; [lia|].
    rewrite (components_turn s tm _ _ _ x) by (done || by eapply rd_text). rewrite E. cbn [cbind]. apply text_at_app in Ht2 as [_ Ht2]. cbn [components].
    rewrite (rd_text _ _ _ _ Ht2). cbn [cbind]. rewrite decide_True by done. cbn [cbind]. by apply finish_name.
  - by destruct Hro.
  - destruct (resolve ns ks) as [|n ns' _] using rev_ind; [by destruct Hro|]. destruct (parent_turn m s tm k m2 ns' n t2 0 (or_intror eq_refl) Hh Ht2) as [Hh' E].
    rewrite E. rewrite decide_False by done. replace (t2 + 2) with (t2 + 1 + 1) by lia. apply text_at_cons in Ht2 as [_ Ht2]. apply text_at_cons in Ht2 as [_ Ht2]. cbn [components]. rewrite (rd_text _ _ _ _ Ht2). cbn [cbind]. rewrite decide_True by done. cbn [cbind].
    rewrite length_app. cbn [length]. replace (length ns' + 1 - 1)%nat with (length ns') by lia. rewrite take_app_length. rewrite dir_text_snoc, !length_app in Hc. apply (finish_ok m s k Hfit m2 ns'); [done|lia].
  - cbn [components]. rewrite (rd_text _ _ _ _ Ht2). cbn [cbind]. rewrite decide_True by done. cbn [cbind length] in *. apply (finish_ok m s k Hfit m2 (resolve ns ks)); [done|lia].
Qed.

(** A path that ends in "." is read beyond its terminator. *)
Lemma concat_overruns : runs_over ns ks o -> Z.of_nat (length tm) = t + Z.of_nat (length (given_text absolute (rel_text ks o))) + 1 -> path_concat m s tm t = Fault.
Proof.
  intros Hro Hend. destruct before_last as (c & m2 & t2 & fuel & E1 & E2 & H2 & Ht2 & Et & _). unfold path_concat. rewrite E1. cbn [cbind]. rewrite E2. clear E1 E2.
  assert (forall fuel, components m2 s (here s (resolve ns ks)) tm (t2 + Z.of_nat (length (last_text o)) + 1) fuel = Fault) as Hout.
  { intros [|f]; [done|]. cbn [components]. unfold rd. rewrite (proj2 (aget_None _ _)) by lia. done. }
  destruct o as [[n| |]|]; cbn [last_text comp_text runs_over app length] in *; try done.
  - rewrite (here_turn s tm m2 _ t2 0 (or_intror eq_refl) Ht2). replace (t2 + 2) with (t2 + Z.of_nat 1 + 1) by lia. by rewrite Hout.
  - rewrite Hro in *. rewrite (root_turn m s tm _ m2 t2 0 H2 Ht2). apply text_at_cons in Ht2 as [_ Ht2]. rewrite (here_turn s tm m2 _ (t2 + 1) 0 (or_intror eq_refl) Ht2). replace (t2 + 1 + 2) with (t2 + Z.of_nat 2 + 1) by lia. by rewrite Hout.
Qed.
End base.

Lemma copy_string_ok m d sm : forall str out c fuel, str_at sm c str -> (length str < fuel)%nat ->
  fits m d (length out + length str) ->
  copy_string (splice m d out) (d + Z.of_nat (length out)) sm c fuel =
    Ok (splice m d (out ++ str), d + Z.of_nat (length out + length str)).
Proof.
  induction str as [|x str IH]; intros out c fuel Hs Hf Hfit; (destruct fuel as [|fuel]; [simpl in Hf; lia|]); cbn [copy_string].
  - simpl in Hs. rewrite (rd_Some _ _ _ Hs). cbn [cbind length]. rewrite decide_True by done. rewrite app_nil_r. ok_eq.
  - simpl in Hs, Hf, Hfit. destruct Hs as (Hx & Hr & Hs). rewrite (rd_Some _ _ _ Hx). cbn [cbind]. rewrite decide_False by lia.
    rewrite wr_snoc by (lia || unfold fits in *; lia). cbn [cbind]. specialize (IH (out ++ [x]) (c + 1) fuel Hs ltac:(lia)).
    rewrite length_app in IH. cbn [length] in *.
    replace (d + Z.of_nat (length out) + 1) with (d + Z.of_nat (length out + 1)) by lia.
    rewrite IH by (unfold fits in *; lia). rewrite <- app_assoc. ok_eq.
Qed.

(** path_combine of a relative path: the base and a '/' are copied, without a terminator. *)
Lemma path_combine_relative sm s str tm t c tstr m d : str_at sm s str -> str_at tm t (c :: tstr) -> c <> SLASH ->
  fits m d (length str + 1) -> (1 <= length str)%nat -> aget m (d + Z.of_nat (length str)) <> Some SLASH ->
  path_combine sm s tm t m d = path_concat (splice m d (str ++ [SLASH])) d tm t.
Proof.
  intros Hs (Hc & _) Hne Hfit Hpos Hb. pose proof (str_at_range _ _ _ Hs). unfold path_combine, wr at 1.
  rewrite aset_in_range by (unfold fits in *; lia). change (u8 0) with 0. cbn [deref cbind]. rewrite (rd_Some _ _ _ Hc). cbn [cbind].
  rewrite decide_False by done. set (m1 := <[Z.to_nat d := 0]> m).
  assert (length m1 = length m) as El by (apply length_insert).
  pose proof (copy_string_ok m1 d sm str [] s (S (length sm)) Hs ltac:(lia)) as E. rewrite splice_nil, Z.add_0_r in E.
  rewrite E by (unfold fits in *; cbn [length]; lia). cbn [cbind app length Nat.add].
  assert (forall l, (1 <= length l)%nat -> fits m d (length l) -> splice m1 d l = splice m d l) as Esp.
  { intros l Hl Hf. apply mem_ext; [rewrite !length_splice; unfold fits in *; done || lia|]. intros q Hq.
    destruct (decide (d <= q < d + Z.of_nat (length l))) as [Hin|Hout].
    - destruct (lookup_lt_is_Some_2 l (Z.to_nat (q - d))) as [x Hx]; [lia|].
      rewrite <- (Zplus_minus d q). replace (q - d) with (Z.of_nat (Z.to_nat (q - d))) by lia.
      rewrite !(aget_splice_in _ _ _ _ x); unfold fits in *; done || lia.
    - rewrite !aget_splice_out; [|unfold fits in *; lia|lia|unfold fits in *; lia|lia]. unfold m1. apply aget_insert_ne; unfold fits in *; lia. }
  rewrite Esp by (done || unfold fits in *; lia).
  assert (exists y, aget m (d + Z.of_nat (length str)) = Some y) as [y Hy] by (apply aget_in_range; unfold fits in *; lia).
  rewrite (rd_Some _ _ y) by (rewrite aget_splice_out; [done|unfold fits in *; lia|lia]). cbn [cbind].
  rewrite decide_True by congruence. rewrite wr_snoc; [done|by rewrite Nat.add_1_r in Hfit|unfold SLASH; lia].
Qed.

(** C30. path_concat resolves a path: s holds a directory "/a/b/" and t a relative path, or s is
  empty and t an absolute path.  The components are separated by single '/', with or without
  one behind the last, and no name starts with "..".  The result is the name of what they
  lead to, "." staying where it is and ".." leaving the last name (the root is its own
  parent); nothing outside the two texts and a terminator is touched.  The exception is a
  path whose last component, without a '/', is "." or is ".." in the root: the code steps
  over its terminator, and with nothing behind it in the block the read is out of bounds. *)
Theorem path_concat_resolves m s tm t absolute ns ks o (Hroot : absolute = true -> ns = [])
  (Hs : str_at m s (base_text absolute ns)) (Hns : Forall name_ok ns)
  (Ht : str_at tm t (given_text absolute (rel_text ks o))) (Hks : Forall comp_ok ks) (Ho : forall k, o = Some k -> comp_ok k)
  (Hfit : fits m s (length (dir_text ns) + length (rel_text ks o) + 1)) :
  (~ runs_over ns ks o -> exists m', path_concat m s tm t = Ok m' /\ str_at m' s (dir_name (resolve ns (ks ++ option_list o))) /\
     (forall q, q < s \/ s + Z.of_nat (length (dir_text ns) + length (rel_text ks o) + 1) <= q -> aget m' q = aget m q)) /\
  (runs_over ns ks o -> Z.of_nat (length tm) = t + Z.of_nat (length (given_text absolute (rel_text ks o))) + 1 -> path_concat m s tm t = Fault).
Proof.
  split; [by apply (concat_resolves m s tm t absolute)|by apply (concat_overruns m s tm t absolute)].
Qed.

(** path_combine of the name of a directory other than the root and a relative
  path of components yields the name of what they lead to, provided that the
  byte of the buffer after the copied base and '/' happens to be 0: the code does not
  write a terminator there before it looks for one. *)
Theorem path_combine_resolves sm s tm t m d ns n ks o
  (Hs : str_at sm s (dir_name (ns ++ [n]))) (Hns : Forall name_ok (ns ++ [n]))
  (Ht : str_at tm t (rel_text ks o)) (Hks : Forall comp_ok ks) (Ho : forall k, o = Some k -> comp_ok k) (Hro : ~ runs_over (ns ++ [n]) ks o) (Hne : rel_text ks o <> [])
  (Hfit : fits m d (length (dir_text (ns ++ [n])) + length (rel_text ks o) + 1))
  (Hb : aget m (d + Z.of_nat (length (dir_name (ns ++ [n])))) <> Some SLASH)
  (Hz : aget m (d + Z.of_nat (length (dir_text (ns ++ [n])))) = Some 0) :
  exists m', path_combine sm s tm t m d = Ok m' /\ str_at m' d (dir_name (resolve (ns ++ [n]) (ks ++ option_list o))).
Proof.
  assert (dir_name (ns ++ [n]) ++ [SLASH] = dir_text (ns ++ [n])) as Ed by (by rewrite dir_name_snoc, dir_text_snoc, <- app_assoc).
  assert (length (dir_text (ns ++ [n])) = length (dir_name (ns ++ [n])) + 1)%nat as El by (by rewrite <- Ed, length_app).
  assert (1 <= length (dir_name (ns ++ [n])))%nat as Hpos by (rewrite dir_name_snoc; simpl; lia).
  assert (exists c r, rel_text ks o = c :: r /\ c <> SLASH) as (c & r & Ep & Hc).
  { assert (forall k l, comp_ok k -> exists c r, comp_text k ++ l = c :: r /\ c <> SLASH) as Hk.
    { intros k l Hk. destruct k as [[|c k]| |]; cbn [comp_text app]; [by destruct Hk| |by eexists _, _|by eexists _, _].
      destruct Hk as [Hk _]. apply Forall_cons in Hk as [[_ Hk] _]. by eexists _, _. }
    unfold rel_text, path_text. destruct ks as [|k ks]; [destruct o as [k|]; [|done]; cbn [last_text map concat app]; rewrite <- (app_nil_r (comp_text k)); by apply Hk, Ho|].
    apply Forall_cons in Hks as [Hk1 _]. cbn [map concat]. rewrite <- !app_assoc. by apply Hk. }
  rewrite Ep in Ht. rewrite (path_combine_relative _ _ _ _ _ c r _ _ Hs Ht Hc) by (done || unfold fits in *; lia).
  rewrite Ed. rewrite <- Ep in Ht.
  destruct (concat_resolves (splice m d (dir_text (ns ++ [n]))) d tm t false (ns ++ [n]) ks o) as (m' & E & Hr & _); try done.
  - cbn [base_text]. apply text_str_at; [apply text_at_splice; unfold fits in *; lia| |by apply dir_text_bytes].
    rewrite aget_splice_out; [done|unfold fits in *; lia|lia].
  - unfold fits in *. rewrite length_splice; unfold fits; lia.
  - by exists m'.
Qed.

(** ** Witnesses *)

(** "/a/" and "../b/./c" in buffers of their own, and "/" and "." *)
Lemma path_concat_resolves_witness :
  (exists m', path_concat [47; 97; 47; 0; 9; 9; 9; 9; 9; 9; 9; 9] 0 [46; 46; 47; 98; 47; 46; 47; 99; 0] 0 = Ok m' /\
    str_at m' 0 (dir_name [[98]; [99]])) /\ path_concat [47; 0; 9] 0 [46; 0] 0 = Fault.
Proof.
  split.
  - destruct (path_concat_resolves [47; 97; 47; 0; 9; 9; 9; 9; 9; 9; 9; 9] 0 [46; 46; 47; 98; 47; 46; 47; 99; 0] 0 false [[97]] [Parent; Name [98]; Here] (Some (Name [99]))) as [H _].
    + done.
    + simpl; unfold SLASH; split_and!; (reflexivity || lia).
    + repeat constructor; unfold SLASH, DOT; lia.
    + simpl; unfold SLASH, DOT; split_and!; (reflexivity || lia).
    + repeat constructor; unfold SLASH, DOT; lia.
    + intros k [= <-]. repeat constructor; unfold SLASH, DOT; lia.
    + split; simpl; lia.
    + destruct H as (m' & E & H & _); [by intros []|]. exists m'. split; [exact E|exact H].
  - destruct (path_concat_resolves [47; 0; 9] 0 [46; 0] 0 false [] [] (Some Here)) as [_ H].
    + done.
    + simpl; unfold SLASH; split_and!; (reflexivity || lia).
    + constructor.
    + simpl; unfold SLASH, DOT; split_and!; (reflexivity || lia).
    + constructor.
    + intros k [= <-]. exact I.
    + split; simpl; lia.
    + apply H; [exact I|reflexivity].
Defined.

Lemma path_combine_resolves_witness :
  exists m', path_combine [47; 97; 0] 0 [98; 0] 0 [0; 0; 0; 0; 0; 0; 0] 0 = Ok m' /\
    str_at m' 0 (dir_name (resolve [[97]] [Name [98]])).
Proof.
  apply (path_combine_resolves [47; 97; 0] 0 [98; 0] 0 [0; 0; 0; 0; 0; 0; 0] 0 [] [97] [] (Some (Name [98]))).
  - simpl; unfold SLASH; split_and!; (reflexivity || lia).
  - repeat constructor; unfold SLASH, DOT; lia.
  - simpl; unfold SLASH, DOT; split_and!; (reflexivity || lia).
  - constructor.
  - intros k [= <-]. repeat constructor; unfold SLASH, DOT; lia.
  - by intros [].
  - done.
  - split; simpl; lia.
  - done.
  - done.
Defined.

End Path.
