(* ===== verification/Qsem.v ===== *)
(** lib/libc/qsem.c: the quick semaphores of user programs, with any number of threads.

  The kernel semaphore behind a qsem is used through an interface, the class [Ksem];
  the counting semaphore that sem_acquire and sem_release of the kernel implement
  (IPC.sem_acquire_refines, IPC.sem_release_refines) is an instance.  A thread is
  scheduled between any two atomic actions: atomic_add (one locked instruction) and the
  two system calls.  Both variants of the source are modelled: [I386], which has no
  atomic_add and uses the kernel semaphore alone, and the other one. *)
From S2P Require Import Prelude IPC.
Import IPC.
Local Open Scope Z_scope.

Module Qsem.

(** ** The interface to the kernel *)

Class Ksem (K : Type) := {
  k_ok : K -> Prop;
  k_new : Z -> K;                       (** sem_create *)
  k_free : K -> Z;                      (** acquisitions that would not block *)
  k_wait : K -> list Z;                 (** blocked threads, the first to be woken first *)
  k_acquire : Z -> K -> K;
  k_release : K -> K;
  k_new_law n : 0 <= n -> k_ok (k_new n) /\ k_free (k_new n) = n /\ k_wait (k_new n) = [];
  k_nonneg k : k_ok k -> 0 <= k_free k;
  k_busy k : k_ok k -> k_wait k <> [] -> k_free k = 0;
  k_acquire_law t k : k_ok k -> k_ok (k_acquire t k) /\
    if decide (0 < k_free k) then k_free (k_acquire t k) = k_free k - 1 /\ k_wait (k_acquire t k) = k_wait k
    else k_free (k_acquire t k) = 0 /\ k_wait (k_acquire t k) = k_wait k ++ [t];
  k_release_law k : k_ok k -> k_ok (k_release k) /\
    match k_wait k with
    | [] => k_free (k_release k) = k_free k + 1 /\ k_wait (k_release k) = []
    | _ :: w => k_free (k_release k) = 0 /\ k_wait (k_release k) = w
    end
}.

(** The kernel's semaphores: a count that is negative while tasks wait. *)
#[global] Program Instance kernel_ksem : Ksem asem := {|
  k_ok := balanced;
  k_new n := ASem n [];
  k_free a := Z.max 0 (a_count a);
  k_wait := a_wait;
  k_acquire := abs_acquire;
  k_release := abs_release
|}.
Next Obligation. intros n Hn. unfold balanced. simpl. split_and!; lia || done. Qed.
Next Obligation. intros k _. simpl. lia. Qed.
Next Obligation.
  intros [c w] H Hw. unfold balanced in H. simpl in *. destruct w; [done|]. simpl in H. lia.
Qed.
Next Obligation.
  intros t [c w] H. split; [by apply balanced_acquire|]. unfold balanced, abs_acquire in *. simpl in *.
  repeat case_decide; simpl; split; try lia; done.
Qed.
Next Obligation.
  intros [c w] H. split; [by apply balanced_release|]. unfold balanced, abs_release in *. simpl in *.
  destruct w as [|t w]; simpl in *; split; try lia; done.
Qed.

(** ** The threads of a program that share a qsem *)

(** Where a thread is: outside; past atomic_add and about to call sem_acquire; blocked
  in the kernel; between qsem_acquire and qsem_release; about to call sem_release. *)
Inductive tstat := Out | Acq | Blocked | In | Rel.
#[global] Instance tstat_eq_dec : EqDecision tstat.
Proof. solve_decision. Defined.

Section qsem.
Context {K : Type} `{!Ksem K}.

(** The qsem_t (its [count] and the kernel semaphore [mutex]) and the threads. *)
Record qsem := QS { q_count : Z; q_mutex : K; q_threads : list tstat }.

(** [i386] tells which variant of the source is compiled. *)
Definition qsem_create (i386 : bool) (count : Z) (threads : nat) : qsem :=
  if i386 then QS 0 (k_new count) (replicate threads Out)
  else QS count (k_new 0) (replicate threads Out).

Definition set_thread (s : qsem) (i : nat) (x : tstat) : qsem :=
  QS (q_count s) (q_mutex s) (<[i := x]> (q_threads s)).

(** sem_acquire by thread [i]: it goes on or is blocked. *)
Definition sem_acquire_step (s : qsem) (i : nat) : qsem :=
  let x := if decide (0 < k_free (q_mutex s)) then In else Blocked in
  QS (q_count s) (k_acquire (Z.of_nat i) (q_mutex s)) (<[i := x]> (q_threads s)).

(** sem_release by thread [i]: the first thread that waits is let in. *)
Definition sem_release_step (s : qsem) (i : nat) : qsem :=
  let l := <[i := Out]> (q_threads s) in
  QS (q_count s) (k_release (q_mutex s))
     (match k_wait (q_mutex s) with [] => l | t :: _ => <[Z.to_nat t := In]> l end).

(** The first action of qsem_acquire and of qsem_release. *)
Definition qsem_acquire (i386 : bool) (s : qsem) (i : nat) : qsem :=
  if i386 then sem_acquire_step s i else
  let old := q_count s in
  QS (s32 (old - 1)) (q_mutex s) (<[i := if decide (old <= 0) then Acq else In]> (q_threads s)).

Definition qsem_release (i386 : bool) (s : qsem) (i : nat) : qsem :=
  if i386 then sem_release_step s i else
  let old := q_count s in
  QS (s32 (old + 1)) (q_mutex s) (<[i := if decide (old < 0) then Rel else Out]> (q_threads s)).

(** Thread [i] runs until its next atomic action is done; a blocked one cannot run. *)
Definition step (i386 : bool) (s : qsem) (i : nat) : qsem :=
  match q_threads s !! i with
  | Some Out => qsem_acquire i386 s i
  | Some Acq => sem_acquire_step s i
  | Some In => qsem_release i386 s i
  | Some Rel => sem_release_step s i
  | Some Blocked | None => s
  end.

(** A schedule: which thread runs next, again and again. *)
Definition run (i386 : bool) (s : qsem) (sched : list nat) : qsem := fold_left (step i386) sched s.

(** ** Counting threads *)

Definition count (x : tstat) (l : list tstat) : Z := Z.of_nat (length (filter (fun y => y = x) l)).

Lemma count_set x l i y z : l !! i = Some y ->
  count x (<[i := z]> l) = count x l - (if decide (y = x) then 1 else 0) + (if decide (z = x) then 1 else 0).
Proof.
  intros H. unfold count. pose proof (lookup_lt_Some _ _ _ H).
  rewrite (insert_take_drop l i z) by done. rewrite <- (take_drop_middle l i y H) at 3.
  rewrite !filter_app, !filter_cons, !length_app. repeat case_decide; simpl; lia.
Qed.

(** Settle the comparisons of places that [count_set] leaves. *)
Ltac count_tac := repeat first [rewrite decide_True by done | rewrite decide_False by done].

Lemma count_pos x l i : l !! i = Some x -> 0 < count x l.
Proof.
  intros H. unfold count. assert (x ∈ filter (fun y => y = x) l) as Hx.
  { apply list_elem_of_filter. split; [done|]. by eapply list_elem_of_lookup_2. }
  destruct (filter _ l); [by apply elem_of_nil in Hx|]. simpl. lia.
Qed.

Lemma count_nonneg x l : 0 <= count x l.
Proof. unfold count. lia. Qed.

Lemma count_total l : count Out l + count Acq l + count Blocked l + count In l + count Rel l = Z.of_nat (length l).
Proof.
  unfold count. induction l as [|y l IH]; [done|]. rewrite !filter_cons. destruct y; simpl; lia.
Qed.

(** The blocked threads are those the kernel has on its queue. *)
Record queued (s : qsem) : Prop := {
  qd_ok : k_ok (q_mutex s);
  qd_nodup : NoDup (k_wait (q_mutex s));
  qd_iff t : t ∈ k_wait (q_mutex s) <-> 0 <= t /\ q_threads s !! Z.to_nat t = Some Blocked;
  qd_len : Z.of_nat (length (k_wait (q_mutex s))) = count Blocked (q_threads s)
}.

(** What a system call does to the number of threads in each place, and to the free
  acquisitions of the kernel semaphore. *)
Lemma acquire_queued s i x : queued s -> q_threads s !! i = Some x -> x <> Blocked ->
  queued (sem_acquire_step s i) /\
  let k := k_free (q_mutex s) in let k' := k_free (q_mutex (sem_acquire_step s i)) in
  (0 < k /\ k' = k - 1 /\ q_threads (sem_acquire_step s i) = <[i := In]> (q_threads s) \/
   k = 0 /\ k' = 0 /\ q_threads (sem_acquire_step s i) = <[i := Blocked]> (q_threads s)).
Proof.
  intros [Hok Hnd Hiff Hlen] Hi Hx. pose proof (lookup_lt_Some _ _ _ Hi).
  destruct (k_acquire_law (Z.of_nat i) (q_mutex s) Hok) as [Hok' Hl]. pose proof (k_nonneg _ Hok).
  unfold sem_acquire_step. case_decide as Hf; destruct Hl as [Hk Hw]; simpl.
  - split; [|left; lia || (split_and!; [lia|lia|done])]. constructor; simpl; [done|by rewrite Hw| |].
    + intros t. rewrite Hw, Hiff. destruct (decide (Z.to_nat t = i)) as [<-|Hne].
      * rewrite list_lookup_insert_eq, Hi by done. split; intros [? ?]; congruence.
      * by rewrite list_lookup_insert_ne.
    + rewrite Hw, (count_set _ _ _ _ _ Hi). count_tac. lia.
  - assert (Z.of_nat i ∉ k_wait (q_mutex s)) as Hnot by (rewrite Hiff, Nat2Z.id; intros [_ ?]; congruence).
    split; [|right; split_and!; [lia|lia|done]]. constructor; simpl; [done|rewrite Hw; by apply NoDup_snoc| |].
    + intros t. rewrite Hw, elem_of_app, Hiff, list_elem_of_singleton. destruct (decide (Z.to_nat t = i)) as [<-|Hne].
      * rewrite list_lookup_insert_eq, Hi by done. split; [intros [[_ ?]| ->]; [congruence|]; split; [lia|done]|].
        intros [? _]. right. lia.
      * rewrite list_lookup_insert_ne by done. split; [intros [?| ->]; [done|]; rewrite Nat2Z.id in Hne; done|by left].
    + rewrite Hw, length_app, (count_set _ _ _ _ _ Hi). count_tac. simpl. lia.
Qed.

Lemma release_queued s i x : queued s -> q_threads s !! i = Some x -> x <> Blocked ->
  queued (sem_release_step s i) /\
  let k := k_free (q_mutex s) in let k' := k_free (q_mutex (sem_release_step s i)) in
  (k' = k + 1 /\ q_threads (sem_release_step s i) = <[i := Out]> (q_threads s) \/
   k = 0 /\ k' = 0 /\ exists j, j <> i /\ q_threads s !! j = Some Blocked /\
     q_threads (sem_release_step s i) = <[j := In]> (<[i := Out]> (q_threads s))).
Proof.
  intros [Hok Hnd Hiff Hlen] Hi Hx. pose proof (lookup_lt_Some _ _ _ Hi).
  destruct (k_release_law (q_mutex s) Hok) as [Hok' Hl]. pose proof (k_busy _ Hok) as Hbusy.
  unfold sem_release_step. destruct (k_wait (q_mutex s)) as [|t w] eqn:Ew; destruct Hl as [Hk Hw]; simpl.
  - split; [|by left]. constructor; simpl; [done|rewrite Hw; constructor| |].
    + intros t. rewrite Hw, elem_of_nil. split; [done|]. intros [H0 Ht]. apply (elem_of_nil t), Hiff. split; [done|].
      destruct (decide (Z.to_nat t = i)) as [<-|Hne]; [by rewrite list_lookup_insert_eq in Ht|by rewrite list_lookup_insert_ne in Ht].
    + rewrite Hw, (count_set _ _ _ _ _ Hi). count_tac. simpl in *. lia.
  - destruct (proj1 (Hiff t)) as [H0 Ht]; [apply list_elem_of_here|]. apply NoDup_cons in Hnd as [Hnt Hnd].
    assert (Z.to_nat t <> i) as Hti by congruence. pose proof (lookup_lt_Some _ _ _ Ht).
    split; [|right; split; [by apply Hbusy|split; [done|by exists (Z.to_nat t)]]]. constructor; simpl; [done|by rewrite Hw| |].
    + intros u. rewrite Hw. destruct (decide (u = t)) as [->|Hne].
      { split; [done|]. intros [_ Hu]. by rewrite list_lookup_insert_eq in Hu by (by rewrite length_insert). }
      transitivity (u ∈ t :: w); [rewrite elem_of_cons; tauto|]. rewrite Hiff. split; intros [Hu0 Hu]; (split; [done|]).
      * rewrite list_lookup_insert_ne by lia. rewrite list_lookup_insert_ne; [done|congruence].
      * rewrite list_lookup_insert_ne in Hu by lia. destruct (decide (Z.to_nat u = i)) as [<-|];
          [by rewrite list_lookup_insert_eq in Hu|by rewrite list_lookup_insert_ne in Hu].
    + rewrite Hw. rewrite (count_set _ _ (Z.to_nat t) Blocked), (count_set _ _ _ _ _ Hi) by (by rewrite list_lookup_insert_ne).
      count_tac. cbn [length] in Hlen. lia.
Qed.

(** ** The invariant *)

(** Every thread that took a unit of [count] and has not put it back is inside, waiting
  or about to wait, and the units of [count] that are used up are held by threads that
  are inside, on their way out, or by the kernel semaphore. *)
Definition inv (i386 : bool) (n : Z) (s : qsem) : Prop :=
  queued s /\
  let l := q_threads s in
  if i386 then count Acq l = 0 /\ count Rel l = 0 /\ count In l + k_free (q_mutex s) = n
  else q_count s = n - (count In l + count Acq l + count Blocked l) /\
       count In l + count Rel l + k_free (q_mutex s) = n - Z.max 0 (q_count s).

Context (i386 : bool) (n : Z) (Hn : 0 <= n < 2 ^ 30).

Lemma create_inv threads : inv i386 n (qsem_create i386 n threads).
Proof.
  assert (forall x, x <> Out -> count x (replicate threads Out) = 0) as Hc.
  { intros x Hx. unfold count. induction threads as [|m IH]; [done|]. simpl. rewrite filter_cons, decide_False by done. done. }
  destruct (k_new_law n) as (Ho & Hf & Hw); [lia|]. destruct (k_new_law 0) as (Ho0 & Hf0 & Hw0); [lia|].
  assert (forall t, replicate threads Out !! Z.to_nat t <> Some Blocked) as Hnb.
  { intros t [E _]%lookup_replicate. done. }
  unfold inv, qsem_create. destruct i386; simpl; (split; [constructor; simpl; rewrite ?Hw, ?Hw0|]); rewrite ?Hc by done; try done; try lia.
  - constructor.
  - intros t. rewrite elem_of_nil. split; [done|]. by intros [_ ?%Hnb].
  - constructor.
  - intros t. rewrite elem_of_nil. split; [done|]. by intros [_ ?%Hnb].
Qed.

Lemma queued_frame s i x y c : queued s -> q_threads s !! i = Some x -> x <> Blocked -> y <> Blocked ->
  queued (QS c (q_mutex s) (<[i := y]> (q_threads s))).
Proof.
  intros [Hok Hnd Hiff Hlen] Hi Hx Hy. pose proof (lookup_lt_Some _ _ _ Hi). constructor; simpl; try done.
  - intros t. rewrite Hiff. destruct (decide (Z.to_nat t = i)) as [<-|Hne].
    + rewrite list_lookup_insert_eq, Hi by done. split; intros [? ?]; congruence.
    + by rewrite list_lookup_insert_ne.
  - rewrite (count_set _ _ _ _ _ Hi). count_tac. lia.
Qed.

(** Arithmetic on the numbers of threads after one or two of them have moved. *)
Ltac tally Hi := cbv zeta in *; rewrite !(count_set _ _ _ _ _ Hi); count_tac; lia.

Lemma acquire_step_inv s i x : inv i386 n s -> q_threads s !! i = Some x -> x = (if i386 then Out else Acq) ->
  inv i386 n (sem_acquire_step s i).
Proof.
  intros [Hq Hc] Hi Hx. destruct (acquire_queued s i x Hq Hi) as [Hq' Hk]; [by subst x; destruct i386|]. split; [done|].
  change (q_count (sem_acquire_step s i)) with (q_count s).
  destruct Hk as [(H1 & -> & ->)|(H1 & -> & ->)]; destruct i386; subst x; tally Hi.
Qed.

Lemma release_step_inv s i x : inv i386 n s -> q_threads s !! i = Some x -> x = (if i386 then In else Rel) ->
  inv i386 n (sem_release_step s i).
Proof.
  intros [Hq Hc] Hi Hx. destruct (release_queued s i x Hq Hi) as [Hq' Hk]; [by subst x; destruct i386|]. split; [done|].
  change (q_count (sem_release_step s i)) with (q_count s). destruct Hk as [(-> & ->)|(H1 & -> & j & Hji & Hj & ->)].
  - destruct i386; subst x; tally Hi.
  - assert (<[i := Out]> (q_threads s) !! j = Some Blocked) as Hj' by (by rewrite list_lookup_insert_ne).
    cbv zeta in *. rewrite !(count_set _ _ _ _ _ Hj'). destruct i386; subst x; tally Hi.
Qed.

Lemma step_inv s i : Z.of_nat (length (q_threads s)) < 2 ^ 30 -> inv i386 n s -> inv i386 n (step i386 s i).
Proof.
  intros Hlen Hinv. pose proof Hinv as [Hq Hc]. cbv zeta in Hc. unfold step. pose proof (count_total (q_threads s)) as Htot.
  pose proof (count_nonneg Out (q_threads s)). pose proof (count_nonneg Acq (q_threads s)).
  pose proof (count_nonneg Blocked (q_threads s)). pose proof (count_nonneg In (q_threads s)). pose proof (count_nonneg Rel (q_threads s)).
  pose proof (k_nonneg _ (qd_ok s Hq)).
  destruct (q_threads s !! i) as [x|] eqn:Hi; [|done]. pose proof (count_pos _ _ _ Hi) as Hpos.
  unfold qsem_acquire, qsem_release. destruct x; [| |done| |]; destruct i386 eqn:E386.
  - rewrite <- E386 in *. by eapply acquire_step_inv; [|done|rewrite E386].
  - rewrite s32_small by lia. split; [by case_decide; eapply queued_frame|]. simpl. case_decide; tally Hi.
  - lia.
  - rewrite <- E386 in *. by eapply acquire_step_inv; [|done|rewrite E386].
  - rewrite <- E386 in *. by eapply release_step_inv; [|done|rewrite E386].
  - rewrite s32_small by lia. split; [by case_decide; eapply queued_frame|]. simpl. case_decide; tally Hi.
  - lia.
  - rewrite <- E386 in *. by eapply release_step_inv; [|done|rewrite E386].
Qed.

Lemma step_length s i : length (q_threads (step i386 s i)) = length (q_threads s).
Proof.
  unfold step, qsem_acquire, qsem_release, sem_acquire_step, sem_release_step.
  destruct (q_threads s !! i) as [[]|], i386; simpl; try destruct (k_wait (q_mutex s)); by rewrite ?length_insert.
Qed.

Lemma run_inv sched : forall s, Z.of_nat (length (q_threads s)) < 2 ^ 30 -> inv i386 n s -> inv i386 n (run i386 s sched).
Proof.
  induction sched as [|i sched IH]; intros s Hl Hs; [done|]. cbn [run fold_left]. apply IH; [by rewrite step_length|by apply step_inv].
Qed.

End qsem.

(** ** The claims *)

Section claims.
Context {K : Type} `{!Ksem K}.

(** C33. A quick semaphore created with n units never lets more than n threads in,
  whatever the number of threads and however the scheduler interleaves their atomic
  actions, in both variants of the source; and no wake-up is lost: when a thread is
  blocked and none is between its two actions, n threads are inside. *)
Theorem qsem_exclusion (i386 : bool) n threads sched (Hn : 0 <= n < 2 ^ 30) (Ht : Z.of_nat threads < 2 ^ 30) :
  let s := run i386 (qsem_create (K := K) i386 n threads) sched in
  count In (q_threads s) <= n /\
  (count Acq (q_threads s) = 0 -> count Rel (q_threads s) = 0 -> 0 < count Blocked (q_threads s) ->
   count In (q_threads s) = n).
Proof.
  intros s. assert (inv i386 n s) as [Hq Hc].
  { apply run_inv; [done| |by apply create_inv]. unfold qsem_create. destruct i386; simpl; by rewrite length_replicate. }
  cbv zeta in Hc. pose proof (count_nonneg Rel (q_threads s)). pose proof (k_nonneg _ (qd_ok s Hq)). pose proof (qd_len s Hq) as Hl.
  assert (0 < count Blocked (q_threads s) -> k_free (q_mutex s) = 0) as Hb.
  { intros Hb. apply k_busy; [apply Hq|]. intros E. rewrite E in Hl. simpl in Hl. lia. }
  destruct i386; (split; [lia|]); intros HA HR HB; specialize (Hb HB); lia.
Qed.

End claims.

(** Four threads on a semaphore of one unit, with the kernel's semaphores. *)
Lemma qsem_exclusion_witness :
  let s := run false (qsem_create (K := asem) false 1 4) [0; 1; 1; 2; 2; 0; 0; 3]%nat in
  count In (q_threads s) <= 1 /\
  (count Acq (q_threads s) = 0 -> count Rel (q_threads s) = 0 -> 0 < count Blocked (q_threads s) ->
   count In (q_threads s) = 1).
Proof. apply (qsem_exclusion (K := asem) false 1 4 [0; 1; 1; 2; 2; 0; 0; 3]%nat); lia. Defined.

End Qsem.
