(* ===== verification/Qsort.v ===== *)
(** The sorting routine of the C library, lib/libc/qsort.c.

  An array of [n] elements of [es] bytes is a list of elements; the pointer
  [a + k * es] is the index [k], and the pointer differences the code divides by
  [es] are differences of indices. The comparison function is a parameter of the
  model, as it is of the code. Reads and writes outside the array are faults. *)
From S2P Require Import Prelude.
Local Open Scope Z_scope.
Local Open Scope c_scope.

Module Qsort.

(** ** The code *)

Section model.
Context {A : Type} (cmp : A -> A -> Z).
Implicit Types m : list A.

(** [swap]: exchange two elements. *)
Definition swap m (i j : Z) : cres (list A) :=
  let? x := aget m i in
  let? y := aget m j in
  let? m := aset m i y in
  let? m := aset m j x in
  Ok m.

(** [swapcode]: exchange [n] elements from two places on, one after the other. *)
Fixpoint swapfunc m (i j : Z) (n : nat) : cres (list A) :=
  match n with
  | O => Ok m
  | S n => let! m := swap m i j in swapfunc m (i + 1) (j + 1) n
  end.

Definition vecswap m (i j n : Z) : cres (list A) :=
  if decide (0 < n) then swapfunc m i j (Z.to_nat n) else Ok m.

(** [med3]: the place of the median of three elements. *)
Definition med3 m (a b c : Z) : cres Z :=
  let? x := aget m a in
  let? y := aget m b in
  let? z := aget m c in
  Ok (if decide (cmp x y < 0) then
        if decide (cmp y z < 0) then b else if decide (cmp x z < 0) then c else a
      else
        if decide (cmp y z > 0) then b else if decide (cmp x z < 0) then a else c).

(** The inner loop of the insertion sort: move the element at [pl] down. *)
Fixpoint sift m (a pl : Z) (fuel : nat) : cres (list A) :=
  match fuel with
  | O => Fault
  | S fuel =>
      if decide (a < pl) then
        let? x := aget m (pl - 1) in
        let? y := aget m pl in
        if decide (cmp x y > 0) then
          let! m := swap m pl (pl - 1) in
          sift m a (pl - 1) fuel
        else Ok m
      else Ok m
  end.

(** The outer loop of the insertion sort, from [pm] on. *)
Fixpoint insertion m (a n pm : Z) (fuel : nat) : cres (list A) :=
  match fuel with
  | O => Fault
  | S fuel =>
      if decide (pm < a + n) then
        let! m := sift m a pm (S (Z.to_nat n)) in
        insertion m a n (pm + 1) fuel
      else Ok m
  end.

Definition insertion_sort m (a n : Z) : cres (list A) := insertion m a n (a + 1) (S (Z.to_nat n)).

(** The choice of the element to partition by. *)
Definition pivot m (a n : Z) : cres Z :=
  let pm := a + n / 2 in
  if decide (n > 7) then
    let pl := a in
    let pn := a + (n - 1) in
    let! (pl, pm, pn) :=
      (if decide (n > 40) then
         let d := n / 8 in
         let! pl := med3 m pl (pl + d) (pl + 2 * d) in
         let! pm := med3 m (pm - d) pm (pm + d) in
         let! pn := med3 m (pn - 2 * d) (pn - d) pn in
         Ok (pl, pm, pn)
       else Ok (pl, pm, pn)) in
    med3 m pl pm pn
  else Ok pm.

(** The first inner loop of the partition: [pb] moves up to an element greater
  than the pivot; elements equal to it are exchanged to [pa]. *)
Fixpoint scan_up m (a pa pb pc : Z) (cnt : bool) (fuel : nat) : cres (list A * Z * Z * bool) :=
  match fuel with
  | O => Fault
  | S fuel =>
      if decide (pb <= pc) then
        let? x := aget m pb in
        let? v := aget m a in
        let r := cmp x v in
        if decide (r <= 0) then
          if decide (r = 0) then
            let! m := swap m pa pb in
            scan_up m a (pa + 1) (pb + 1) pc true fuel
          else scan_up m a pa (pb + 1) pc cnt fuel
        else Ok (m, pa, pb, cnt)
      else Ok (m, pa, pb, cnt)
  end.

(** The second one: [pc] moves down to an element less than the pivot. *)
Fixpoint scan_down m (a pb pc pd : Z) (cnt : bool) (fuel : nat) : cres (list A * Z * Z * bool) :=
  match fuel with
  | O => Fault
  | S fuel =>
      if decide (pb <= pc) then
        let? x := aget m pc in
        let? v := aget m a in
        let r := cmp x v in
        if decide (r >= 0) then
          if decide (r = 0) then
            let! m := swap m pc pd in
            scan_down m a pb (pc - 1) (pd - 1) true fuel
          else scan_down m a pb (pc - 1) pd cnt fuel
        else Ok (m, pc, pd, cnt)
      else Ok (m, pc, pd, cnt)
  end.

(** The loop of the partition; it ends when [pb] and [pc] have crossed. *)
Fixpoint partition m (a n pa pb pc pd : Z) (cnt : bool) (fuel : nat) : cres (list A * (Z * Z * Z * Z) * bool) :=
  match fuel with
  | O => Fault
  | S fuel =>
      let! (m, pa, pb, cnt) := scan_up m a pa pb pc cnt (S (Z.to_nat n)) in
      let! (m, pc, pd, cnt) := scan_down m a pb pc pd cnt (S (Z.to_nat n)) in
      if decide (pb > pc) then Ok (m, (pa, pb, pc, pd), cnt) else
      let! m := swap m pb pc in
      partition m a n pa (pb + 1) (pc - 1) pd true fuel
  end.

(** [qsort] on the [n] elements from [a] on. The fuel bounds the depth of the
  recursion, where the jump back to the start counts as a call. *)
Fixpoint qsort (fuel : nat) m (a n : Z) : cres (list A) :=
  match fuel with
  | O => Fault
  | S fuel =>
      if decide (n < 7) then insertion_sort m a n else
      let! pm := pivot m a n in
      let! m := swap m a pm in
      let! (m, (pa, pb, pc, pd), cnt) :=
        partition m a n (a + 1) (a + 1) (a + (n - 1)) (a + (n - 1)) false (S (Z.to_nat n)) in
      if negb cnt then insertion_sort m a n else
      let pn := a + n in
      let r := if decide (pa - a < pb - pa) then pa - a else pb - pa in
      let! m := vecswap m a (pb - r) r in
      let r := if decide (pd - pc < pn - pd - 1) then pd - pc else pn - pd - 1 in
      let! m := vecswap m pb (pn - r) r in
      let r := pb - pa in
      let! m := (if decide (r > 1) then qsort fuel m a r else Ok m) in
      let r := pd - pc in
      if decide (r > 1) then qsort fuel m (pn - r) r else Ok m
  end.

End model.

(** ** Segments of an array *)

Section segments.
Context {A : Type}.
Implicit Types m : list A.

(** [m'] is [m] with the elements from [lo] to [hi] rearranged. *)
Definition perm_in (lo hi : Z) m m' : Prop :=
  m ≡ₚ m' /\ forall i, ~ (lo <= i < hi) -> aget m' i = aget m i.

(** Every element from [lo] to [hi] has the property. *)
Definition all_in (P : A -> Prop) m (lo hi : Z) : Prop :=
  forall i x, lo <= i < hi -> aget m i = Some x -> P x.

Lemma perm_in_refl lo hi m : perm_in lo hi m m.
Proof. by split. Qed.

Lemma perm_in_trans lo hi m1 m2 m3 : perm_in lo hi m1 m2 -> perm_in lo hi m2 m3 -> perm_in lo hi m1 m3.
Proof. intros [H1 H2] [H3 H4]. split; [by rewrite H1|]. intros i Hi. by rewrite H4, H2. Qed.

Lemma perm_in_wider lo hi lo' hi' m m' : lo' <= lo -> hi <= hi' -> perm_in lo hi m m' -> perm_in lo' hi' m m'.
Proof. intros ?? [H1 H2]. split; [done|]. intros i Hi. apply H2. lia. Qed.

Lemma perm_in_length lo hi m m' : perm_in lo hi m m' -> length m' = length m.
Proof. intros [H _]. by rewrite H. Qed.

Lemma all_in_ext P m m' lo hi : (forall i, lo <= i < hi -> aget m' i = aget m i) -> all_in P m lo hi -> all_in P m' lo hi.
Proof. intros He H i x Hi Hx. rewrite He in Hx by done. by eapply H. Qed.

Lemma all_in_app P m lo mid hi : all_in P m lo mid -> all_in P m mid hi -> all_in P m lo hi.
Proof. intros H1 H2 i x Hi. destruct (decide (i < mid)); [apply H1|apply H2]; lia. Qed.

Lemma all_in_one P m i x : aget m i = Some x -> P x -> all_in P m i (i + 1).
Proof. intros Hx HP j y Hj Hy. assert (j = i) as -> by lia. congruence. Qed.

Definition seg m (lo hi : Z) : list A := take (Z.to_nat (hi - lo)) (drop (Z.to_nat lo) m).

Lemma seg_split m lo hi : 0 <= lo <= hi ->
  m = take (Z.to_nat lo) m ++ seg m lo hi ++ drop (Z.to_nat hi) m.
Proof.
  intros. unfold seg. rewrite <- (take_drop (Z.to_nat lo) m) at 1. f_equal.
  rewrite <- (take_drop (Z.to_nat (hi - lo)) (drop (Z.to_nat lo) m)) at 1. f_equal.
  rewrite drop_drop. f_equal. lia.
Qed.

Lemma seg_all_in P m lo hi : 0 <= lo -> Forall P (seg m lo hi) <-> all_in P m lo hi.
Proof.
  intros Hlo. rewrite Forall_lookup. unfold all_in, seg, aget. split.
  - intros H i x Hi. rewrite decide_True by lia. intros Hx. apply (H (Z.to_nat (i - lo))).
    rewrite lookup_take_lt, lookup_drop by lia. rewrite <- Hx. f_equal. lia.
  - intros H i x [Hx Hi]%lookup_take_Some. rewrite lookup_drop in Hx. apply (H (lo + Z.of_nat i)); [lia|].
    rewrite decide_True by lia. rewrite <- Hx. f_equal. lia.
Qed.

Lemma perm_in_seg lo hi m m' : 0 <= lo <= hi -> perm_in lo hi m m' -> seg m lo hi ≡ₚ seg m' lo hi.
Proof.
  intros Hlo [HP Hsame].
  assert (take (Z.to_nat lo) m' = take (Z.to_nat lo) m) as Ht.
  { apply list_eq. intros i. destruct (decide (i < Z.to_nat lo)%nat).
    - rewrite !lookup_take_lt by done. specialize (Hsame (Z.of_nat i)). unfold aget in Hsame.
      rewrite !decide_True, Nat2Z.id in Hsame by lia. apply Hsame. lia.
    - by rewrite !lookup_take_ge by lia. }
  assert (drop (Z.to_nat hi) m' = drop (Z.to_nat hi) m) as Hd.
  { apply list_eq. intros i. rewrite !lookup_drop. specialize (Hsame (hi + Z.of_nat i)). unfold aget in Hsame.
    rewrite !decide_True in Hsame by lia. replace (Z.to_nat hi + i)%nat with (Z.to_nat (hi + Z.of_nat i)) by lia. apply Hsame. lia. }
  rewrite (seg_split m lo hi), (seg_split m' lo hi), Ht, Hd in HP by done.
  by apply Permutation_app_inv_l, Permutation_app_inv_r in HP.
Qed.

Lemma perm_in_all P lo hi m m' : 0 <= lo <= hi -> perm_in lo hi m m' -> all_in P m lo hi -> all_in P m' lo hi.
Proof.
  intros Hlo HP. rewrite <- !seg_all_in by lia. intros H. by rewrite <- (perm_in_seg _ _ _ _ Hlo HP).
Qed.

(** What an exchange does. *)
Lemma swap_ok m i j : 0 <= i < Z.of_nat (length m) -> 0 <= j < Z.of_nat (length m) ->
  exists m', swap m i j = Ok m' /\ m ≡ₚ m' /\ length m' = length m /\
    aget m' i = aget m j /\ aget m' j = aget m i /\ forall k, k <> i -> k <> j -> aget m' k = aget m k.
Proof.
  intros Hi Hj. destruct (aget_in_range m i Hi) as [x Hx], (aget_in_range m j Hj) as [y Hy].
  assert (length (<[Z.to_nat i := y]> m) = length m) as Hl by apply length_insert.
  exists (<[Z.to_nat j := x]> (<[Z.to_nat i := y]> m)). unfold swap. rewrite Hx, Hy. cbn [cbind deref].
  rewrite aset_in_range by done. cbn [cbind deref]. rewrite aset_in_range by lia. cbn [cbind deref].
  apply aget_Some in Hx as Hx', Hy as Hy'. split; [done|].
  assert (aget (<[Z.to_nat j := x]> (<[Z.to_nat i := y]> m)) j = Some x) as Aj by (apply aget_insert_eq; lia).
  assert (aget (<[Z.to_nat j := x]> (<[Z.to_nat i := y]> m)) i = Some y) as Ai.
  { destruct (decide (i = j)) as [->|]; [congruence|]. rewrite aget_insert_ne by lia. apply aget_insert_eq; lia. }
  assert (forall k, k <> i -> k <> j -> aget (<[Z.to_nat j := x]> (<[Z.to_nat i := y]> m)) k = aget m k) as Ak.
  { intros k ??. by rewrite !aget_insert_ne by lia. }
  split_and!; [|by rewrite !length_insert|congruence..|done].
  apply Permutation_inj. split; [by rewrite !length_insert|].
  exists (fun k => if decide (k = Z.to_nat i) then Z.to_nat j else if decide (k = Z.to_nat j) then Z.to_nat i else k). split.
  - intros k1 k2. repeat case_decide; lia.
  - intros k. apply aget_Some in Ai as [_ Ai]. apply aget_Some in Aj as [_ Aj].
    destruct (decide (k = Z.to_nat i)) as [->|]; [by rewrite Aj; apply Hx'|].
    destruct (decide (k = Z.to_nat j)) as [->|]; [by rewrite Ai; apply Hy'|].
    specialize (Ak (Z.of_nat k)). unfold aget in Ak. rewrite !decide_True, Nat2Z.id in Ak by lia. symmetry. apply Ak; lia.
Qed.

Lemma swap_perm_in m m' lo hi i j : m ≡ₚ m' -> lo <= i < hi -> lo <= j < hi ->
  (forall k, k <> i -> k <> j -> aget m' k = aget m k) -> perm_in lo hi m m'.
Proof. intros HP ?? H. split; [done|]. intros k Hk. apply H; lia. Qed.

(** Exchange of two segments that do not overlap. *)
Lemma swapfunc_ok n : forall m i j, 0 <= i -> i + Z.of_nat n <= j -> j + Z.of_nat n <= Z.of_nat (length m) ->
  exists m', swapfunc m i j n = Ok m' /\ m ≡ₚ m' /\
    (forall k, 0 <= k < Z.of_nat n -> aget m' (i + k) = aget m (j + k) /\ aget m' (j + k) = aget m (i + k)) /\
    (forall k, ~ (i <= k < i + Z.of_nat n) -> ~ (j <= k < j + Z.of_nat n) -> aget m' k = aget m k).
Proof.
  induction n as [|n IH]; intros m i j Hi Hij Hj.
  { exists m. split_and!; [done..|lia|done]. }
  cbn [swapfunc]. destruct (swap_ok m i j) as (m1 & -> & P1 & L1 & E1 & E2 & E3); [lia..|]. cbn [cbind].
  destruct (IH m1 (i + 1) (j + 1)) as (m2 & -> & P2 & E4 & E5); [lia..|]. exists m2. split; [done|]. split; [by rewrite P1|]. split.
  - intros k Hk. destruct (decide (k = 0)) as [->|].
    + rewrite !Z.add_0_r, !E5 by lia. done.
    + specialize (E4 (k - 1) ltac:(lia)). replace (i + 1 + (k - 1)) with (i + k) in E4 by lia.
      replace (j + 1 + (k - 1)) with (j + k) in E4 by lia. destruct E4 as [-> ->]. rewrite !E3 by lia. done.
  - intros k Hk1 Hk2. rewrite E5, E3 by lia. done.
Qed.

Lemma vecswap_ok m i j n : 0 <= i -> 0 <= n -> i + n <= j -> j + n <= Z.of_nat (length m) ->
  exists m', vecswap m i j n = Ok m' /\ m ≡ₚ m' /\
    (forall k, 0 <= k < n -> aget m' (i + k) = aget m (j + k) /\ aget m' (j + k) = aget m (i + k)) /\
    (forall k, ~ (i <= k < i + n) -> ~ (j <= k < j + n) -> aget m' k = aget m k).
Proof.
  intros. unfold vecswap. destruct (decide (0 < n)).
  - destruct (swapfunc_ok (Z.to_nat n) m i j) as (m' & H'); [lia..|]. exists m'. by rewrite Z2Nat.id in H' by lia.
  - exists m. split_and!; [done..|lia|done].
Qed.

(** Two neighbouring segments change places when the shorter one, or as much of
  the longer one, is exchanged with the far end of both. *)
Lemma vecswap_rotate m lo mid hi (P Q : A -> Prop) r : 0 <= lo <= mid -> mid <= hi <= Z.of_nat (length m) ->
  r = Z.min (mid - lo) (hi - mid) -> all_in P m lo mid -> all_in Q m mid hi ->
  exists m', vecswap m lo (hi - r) r = Ok m' /\ perm_in lo hi m m' /\
    all_in Q m' lo (lo + (hi - mid)) /\ all_in P m' (lo + (hi - mid)) hi.
Proof.
  intros H1 H2 -> HP HQ. set (r := Z.min _ _). assert (0 <= r <= mid - lo /\ r <= hi - mid /\ (r = mid - lo \/ r = hi - mid)) as Hr by lia.
  clearbody r. destruct (vecswap_ok m lo (hi - r) r) as (m' & -> & HPm & Hin & Hout); [lia..|].
  exists m'. split; [done|]. split; [split; [done|]; intros i Hi; apply Hout; lia|]. split; intros i x Hi Hx.
  - destruct (decide (i < lo + r)).
    + destruct (Hin (i - lo)) as [E _]; [lia|]. replace (lo + (i - lo)) with i in E by lia. rewrite E in Hx. eapply HQ; [|done]. lia.
    + rewrite Hout in Hx by lia. eapply HQ; [|done]. lia.
  - destruct (decide (hi - r <= i)).
    + destruct (Hin (i - (hi - r))) as [_ E]; [lia|]. replace (hi - r + (i - (hi - r))) with i in E by lia. rewrite E in Hx. eapply HP; [|done]. lia.
    + rewrite Hout in Hx by lia. eapply HP; [|done]. lia.
Qed.

End segments.

(** ** Exchanges unit by unit

  [swapcode] exchanges elements in units of a byte or of a [long]: [units] bytes of
  one element after the other. On an array of elements that are rows of units of
  the same length this is the exchange of elements. *)

Section units.
Context {B : Type}.
Implicit Types u p q r xs ys : list B.

(** [swapcode]: a loop that is executed at least once. *)
Definition swapcode u (i j units : Z) : cres (list B) := swapfunc u i j (Z.to_nat (Z.max 1 units)).

Lemma rows_assoc p w xs q r : p ++ w :: xs ++ q ++ r = (p ++ w :: xs ++ q) ++ r.
Proof. rewrite <- app_assoc. simpl. by rewrite <- app_assoc. Qed.

Lemma swapfunc_rows xs : forall p ys q r i j, length xs = length ys -> i = Z.of_nat (length p) ->
  j = Z.of_nat (length p + length xs + length q) ->
  swapfunc (p ++ xs ++ q ++ ys ++ r) i j (length xs) = Ok (p ++ ys ++ q ++ xs ++ r) /\
  swapfunc (p ++ xs ++ q ++ ys ++ r) j i (length xs) = Ok (p ++ ys ++ q ++ xs ++ r).
Proof.
  induction xs as [|x xs IH]; intros p [|y ys] q r i j Hl Hi Hj; try done.
  assert (forall w z, aget (p ++ w :: xs ++ q ++ z :: ys ++ r) i = Some w) as Gi.
  { intros w z. unfold aget. rewrite decide_True by lia. rewrite lookup_app_r by lia. by replace (_ - _)%nat with O by lia. }
  assert (forall w z, aget (p ++ w :: xs ++ q ++ z :: ys ++ r) j = Some z) as Gj.
  { intros w z. unfold aget. rewrite decide_True by lia. rewrite rows_assoc.
    rewrite lookup_app_r; rewrite !length_app; simpl in *; rewrite ?length_app; [|lia]. by replace (_ - _)%nat with O by lia. }
  assert (forall w w' z, aset (p ++ w :: xs ++ q ++ z :: ys ++ r) i w' = Some (p ++ w' :: xs ++ q ++ z :: ys ++ r)) as Si.
  { intros w w' z. rewrite aset_in_range by (rewrite length_app; simpl; lia). rewrite insert_app_r_alt by lia. by replace (Z.to_nat i - length p)%nat with O by lia. }
  assert (forall w z z', aset (p ++ w :: xs ++ q ++ z :: ys ++ r) j z' = Some (p ++ w :: xs ++ q ++ z' :: ys ++ r)) as Sj.
  { intros w z z'. simpl in Hj. rewrite aset_in_range by (rewrite length_app; simpl; rewrite !length_app; simpl; lia).
    rewrite rows_assoc.
    rewrite insert_app_r_alt; rewrite !length_app; simpl; rewrite ?length_app; [|lia].
    replace (_ - _)%nat with O by lia. simpl. by rewrite rows_assoc. }
  assert (forall a b, (a = i /\ b = j) \/ (a = j /\ b = i) ->
    swap (p ++ x :: xs ++ q ++ y :: ys ++ r) a b = Ok ((p ++ [y]) ++ xs ++ (q ++ [x]) ++ ys ++ r)) as Hs.
  { intros a b Hab. rewrite <- !app_assoc. simpl. unfold swap. destruct Hab as [[-> ->]|[-> ->]]; rewrite Gi, Gj; cbn [deref cbind].
    - rewrite Si. cbn [deref cbind]. rewrite Sj. done.
    - rewrite Sj. cbn [deref cbind]. rewrite Si. done. }
  assert ((p ++ (y :: ys) ++ q ++ (x :: xs) ++ r) = (p ++ [y]) ++ ys ++ (q ++ [x]) ++ xs ++ r) as -> by by rewrite <- !app_assoc.
  cbn [length swapfunc app]. rewrite !Hs by auto. cbn [cbind]. simpl in *.
  apply IH; rewrite ?length_app; simpl; lia.
Qed.

Lemma swapfunc_self n : forall u i, 0 <= i -> i + Z.of_nat n <= Z.of_nat (length u) -> swapfunc u i i n = Ok u.
Proof.
  induction n as [|n IH]; intros u i Hi Hl; [done|]. cbn [swapfunc]. unfold swap. destruct (aget_in_range u i) as [x Hx]; [lia|].
  rewrite Hx. cbn [deref cbind]. apply aget_Some in Hx as [_ Hx].
  rewrite aset_in_range by lia. rewrite list_insert_id by done. cbn [deref cbind].
  rewrite aset_in_range by lia. rewrite list_insert_id by done. cbn [deref cbind]. apply IH; lia.
Qed.

(** [u] split at two of its elements. *)
Lemma split_two u i j x y : (i < j)%nat -> u !! i = Some x -> u !! j = Some y ->
  exists p q r, u = p ++ x :: q ++ y :: r /\ length p = i /\ length q = (j - S i)%nat.
Proof.
  intros Hij Hx Hy. exists (take i u), (take (j - S i) (drop (S i) u)), (drop (S j) u).
  pose proof (lookup_lt_Some _ _ _ Hx). pose proof (lookup_lt_Some _ _ _ Hy).
  rewrite length_take, length_take, length_drop. split_and!; [|lia..].
  rewrite <- (take_drop_middle u i x Hx) at 1. do 2 f_equal.
  rewrite <- (take_drop_middle (drop (S i) u) (j - S i) y) at 1; [|rewrite lookup_drop; rewrite <- Hy; f_equal; lia].
  do 2 f_equal. rewrite drop_drop. f_equal. lia.
Qed.

End units.

Section elements.
Context {B : Type} (es : nat).
Implicit Types m : list (list B).

Lemma length_rows m : Forall (fun e => length e = es) m -> length (mjoin m) = (length m * es)%nat.
Proof. induction 1; simpl; [done|]. rewrite length_app. lia. Qed.

Lemma join_rows p x q y r : mjoin (p ++ x :: q ++ y :: r) = mjoin p ++ x ++ mjoin q ++ y ++ (mjoin r : list B).
Proof.
  assert (forall l k, mjoin (l ++ k) = mjoin l ++ (mjoin k : list B)) as Happ.
  { intros l k. induction l as [|z l IH]; [done|]. simpl. by rewrite IH, app_assoc. }
  rewrite Happ. simpl. by rewrite Happ.
Qed.

Lemma swapcode_below m m' i j k l : (0 < es)%nat -> Forall (fun e => length e = es) m -> (i < j < length m)%nat ->
  (k = i /\ l = j \/ k = j /\ l = i) -> swap m (Z.of_nat k) (Z.of_nat l) = Ok m' ->
  swapcode (mjoin m) (Z.of_nat (k * es)) (Z.of_nat (l * es)) (Z.of_nat es) = Ok (mjoin m').
Proof.
  intros Hes Hm Hij Hkl Hs. unfold swapcode. replace (Z.to_nat (Z.max 1 (Z.of_nat es))) with es by lia.
  destruct (lookup_lt_is_Some_2 m i) as [x Hx]; [lia|]. destruct (lookup_lt_is_Some_2 m j) as [y Hy]; [lia|].
  destruct (split_two m i j x y) as (p & q & r & -> & Hp & Hq); [lia|done..|].
  destruct (swapfunc_rows [x] p [y] q r (Z.of_nat i) (Z.of_nat j)) as [H1 H2]; [done|lia|simpl; lia|].
  assert (m' = p ++ y :: q ++ x :: r) as ->.
  { cbn [swapfunc length app] in H1, H2. destruct Hkl as [[-> ->]|[-> ->]]; rewrite Hs in *; simpl in *; congruence. }
  rewrite !Forall_app, !Forall_cons, !Forall_app, !Forall_cons in Hm. destruct Hm as (Fp & Fx & Fq & Fy & Fr).
  rewrite !join_rows. destruct (swapfunc_rows x (mjoin p) y (mjoin q) (mjoin r) (Z.of_nat (i * es)) (Z.of_nat (j * es))) as [G1 G2];
    [congruence|rewrite length_rows by done; congruence|rewrite !length_rows by done; rewrite Hp, Hq, Fx; nia|].
  rewrite Fx in G1, G2. by destruct Hkl as [[-> ->]|[-> ->]].
Qed.

(** The exchange of two elements of [es] units, unit by unit. *)
Lemma swapcode_elements m m' i j : (0 < es)%nat -> Forall (fun e => length e = es) m ->
  swap m (Z.of_nat i) (Z.of_nat j) = Ok m' ->
  swapcode (mjoin m) (Z.of_nat (i * es)) (Z.of_nat (j * es)) (Z.of_nat es) = Ok (mjoin m').
Proof.
  intros Hes Hm Hs. assert (i < length m /\ j < length m)%nat as Hr.
  { unfold swap in Hs. cinv. apply aget_Some in E as [Hi _]. apply aget_Some in E0 as [Hj _]. lia. }
  destruct (decide (i = j)) as [->|].
  - pose proof (swapfunc_self 1 m (Z.of_nat j) ltac:(lia) ltac:(lia)) as H1. cbn [swapfunc] in H1. rewrite Hs in H1. simpl in H1. injection H1 as ->.
    apply swapfunc_self; [lia|]. rewrite length_rows by done. nia.
  - destruct (decide (i < j)%nat); eapply swapcode_below; [done|done| |by left|done|done|done| |by right|done]; lia.
Qed.

End elements.

(** ** What the comparison function must be

  The contract of the C library: the sign of the result is an order, up to elements
  that compare as equal. *)
Class Comparator {A : Type} (cmp : A -> A -> Z) : Prop := {
  cmp_flip x y : Z.sgn (cmp y x) = - Z.sgn (cmp x y);
  cmp_trans x y z : cmp x y <= 0 -> cmp y z <= 0 -> cmp x z <= 0;
}.

Section proofs.
Context {A : Type} (cmp : A -> A -> Z) `{!Comparator cmp}.
Implicit Types m : list A.

Definition sorted m (lo hi : Z) : Prop :=
  forall i j x y, lo <= i -> i < j -> j < hi -> aget m i = Some x -> aget m j = Some y -> cmp x y <= 0.

Lemma cmp_same x : cmp x x = 0.
Proof. pose proof (cmp_flip x x). lia. Qed.

Lemma cmp_neg x y : cmp x y < 0 <-> cmp y x > 0.
Proof. pose proof (cmp_flip x y). lia. Qed.

Lemma cmp_zero x y : cmp x y = 0 <-> cmp y x = 0.
Proof. pose proof (cmp_flip x y). lia. Qed.

Lemma sorted_short m lo hi : hi <= lo + 1 -> sorted m lo hi.
Proof. intros H i j x y ????. lia. Qed.

Lemma sorted_ext m m' lo hi : (forall i, lo <= i < hi -> aget m' i = aget m i) -> sorted m lo hi -> sorted m' lo hi.
Proof. intros He H i j x y ???. rewrite !He by lia. by apply H. Qed.

(** *** Insertion sort *)

(** Sorted up to [hi], but for the element at [pl], which is not above those after it. *)
Definition nearly m (lo pl hi : Z) : Prop :=
  (forall i j x y, lo <= i -> i < j -> j < hi -> i <> pl -> j <> pl -> aget m i = Some x -> aget m j = Some y -> cmp x y <= 0) /\
  (forall j x y, pl < j < hi -> aget m pl = Some x -> aget m j = Some y -> cmp x y <= 0).

Lemma nearly_done m lo pl hi : nearly m lo pl hi -> lo <= pl < hi ->
  (lo < pl -> forall x y, aget m (pl - 1) = Some x -> aget m pl = Some y -> cmp x y <= 0) ->
  hi <= Z.of_nat (length m) -> 0 <= lo -> sorted m lo hi.
Proof.
  intros [H1 H2] Hpl Hd Hlen Hlo i j x y Hi Hij Hj Hx Hy. destruct (decide (i = pl)) as [->|Hi'].
  { by eapply H2; [|done..]. }
  destruct (decide (j = pl)) as [->|Hj']; [|by eapply H1; [..|done|done]].
  destruct (aget_in_range m (pl - 1)) as [z Hz]; [lia|]. apply cmp_trans with z; [|eapply Hd; [lia|done..]].
  destruct (decide (i = pl - 1)) as [->|]; [replace z with x by congruence; pose proof (cmp_same x); lia|].
  eapply (H1 i (pl - 1)); [lia..|done|done].
Qed.

Lemma nearly_swap m m' lo pl hi x y : nearly m lo pl hi -> lo < pl < hi -> aget m (pl - 1) = Some x -> aget m pl = Some y ->
  cmp x y > 0 -> aget m' pl = aget m (pl - 1) -> aget m' (pl - 1) = aget m pl ->
  (forall k, k <> pl -> k <> pl - 1 -> aget m' k = aget m k) -> nearly m' lo (pl - 1) hi.
Proof.
  intros [H1 H2] Hpl Hx Hy Hgt E1 E2 E3. split.
  - intros i j x' y' Hi Hij Hj Hi' Hj' Ax Ay. destruct (decide (i = pl)) as [->|].
    + rewrite E1 in Ax. rewrite E3 in Ay by lia. eapply (H1 (pl - 1) j); [lia..|done|done].
    + rewrite E3 in Ax by lia. destruct (decide (j = pl)) as [->|].
      * rewrite E1 in Ay. eapply (H1 i (pl - 1)); [lia..|done|done].
      * rewrite E3 in Ay by lia. by eapply (H1 i j); [..|done|done].
  - intros j x' y' Hj. rewrite E2. intros Ax Ay. replace x' with y by congruence. destruct (decide (j = pl)) as [->|].
    + replace y' with x by congruence. pose proof (cmp_flip x y). lia.
    + rewrite E3 in Ay by lia. by eapply H2; [|done|done]; lia.
Qed.

Lemma sift_ok fuel : forall m lo pl hi, 0 <= lo <= pl -> pl < hi <= Z.of_nat (length m) -> pl - lo < Z.of_nat fuel ->
  nearly m lo pl hi -> exists m', sift cmp m lo pl fuel = Ok m' /\ perm_in lo hi m m' /\ sorted m' lo hi.
Proof.
  induction fuel as [|fuel IH]; intros m lo pl hi Hlo Hpl Hf Hn; [lia|]. cbn [sift].
  destruct (decide (lo < pl)).
  - destruct (aget_in_range m (pl - 1)) as [x Hx]; [lia|]. destruct (aget_in_range m pl) as [y Hy]; [lia|].
    rewrite Hx, Hy. cbn [deref cbind]. destruct (decide (cmp x y > 0)) as [Hgt|Hle].
    + destruct (swap_ok m pl (pl - 1)) as (m1 & -> & P1 & L1 & E1 & E2 & E3); [lia..|]. cbn [cbind].
      destruct (IH m1 lo (pl - 1) hi) as (m2 & -> & P2 & S2); [lia..|eapply nearly_swap; [done|lia|done..]|].
      exists m2. split; [done|]. split; [|done]. eapply perm_in_trans; [|done]. eapply swap_perm_in; [done| | |done]; lia.
    + exists m. split; [done|]. split; [apply perm_in_refl|]. eapply nearly_done; [done|lia| |lia..].
      intros _ ????. simplify_eq. lia.
  - exists m. split; [done|]. split; [apply perm_in_refl|]. eapply nearly_done; [done|lia..].
Qed.

Lemma insertion_ok fuel : forall m lo n pm, 0 <= lo < pm -> pm <= lo + n + 1 -> lo + n <= Z.of_nat (length m) -> lo + n + 1 - pm < Z.of_nat fuel ->
  sorted m lo pm -> exists m', insertion cmp m lo n pm fuel = Ok m' /\ perm_in lo (lo + n) m m' /\ sorted m' lo (lo + n).
Proof.
  induction fuel as [|fuel IH]; intros m lo n pm Hlo Hpm Hn Hf Hs; [lia|]. cbn [insertion]. destruct (decide (pm < lo + n)).
  - destruct (sift_ok (S (Z.to_nat n)) m lo pm (pm + 1)) as (m1 & -> & P1 & S1); [lia..| |].
    { split; [|lia]. intros i j x y ?????. apply Hs; lia. }
    cbn [cbind]. destruct (IH m1 lo n (pm + 1)) as (m2 & -> & P2 & S2); [lia..| |lia|done|].
    { by rewrite (perm_in_length _ _ _ _ P1). }
    exists m2. split; [done|]. split; [|done]. eapply perm_in_trans; [|done]. by eapply perm_in_wider; [..|done]; lia.
  - exists m. split_and!; [done|apply perm_in_refl|]. intros i j x y ???. apply Hs; lia.
Qed.

Lemma insertion_sort_ok m lo n : 0 <= lo -> 0 <= n -> lo + n <= Z.of_nat (length m) ->
  exists m', insertion_sort cmp m lo n = Ok m' /\ perm_in lo (lo + n) m m' /\ sorted m' lo (lo + n).
Proof. intros. apply insertion_ok; [lia..|]. by apply sorted_short. Qed.

(** *** The partition *)

Lemma med3_in m a b c (P : Z -> Prop) : P a -> P b -> P c -> 0 <= a < Z.of_nat (length m) ->
  0 <= b < Z.of_nat (length m) -> 0 <= c < Z.of_nat (length m) -> exists k, med3 cmp m a b c = Ok k /\ P k.
Proof.
  intros Pa Pb Pc Ha Hb Hc. unfold med3. destruct (aget_in_range m a Ha) as [x ->], (aget_in_range m b Hb) as [y ->], (aget_in_range m c Hc) as [z ->].
  cbn [deref cbind]. eexists. split; [done|]. repeat case_decide; done.
Qed.

Lemma pivot_in m a n : 7 <= n -> 0 <= a -> a + n <= Z.of_nat (length m) ->
  exists k, pivot cmp m a n = Ok k /\ a <= k < a + n.
Proof.
  intros Hn Ha Hl. unfold pivot. cbv zeta. pose proof (Z.div_mod n 2 ltac:(lia)). pose proof (Z.mod_pos_bound n 2 ltac:(lia)).
  pose proof (Z.div_mod n 8 ltac:(lia)). pose proof (Z.mod_pos_bound n 8 ltac:(lia)).
  destruct (decide (n > 7)); [|eexists; split; [done|lia]]. set (R k := a <= k < a + n). destruct (decide (n > 40)).
  - destruct (med3_in m a (a + n / 8) (a + 2 * (n / 8)) R) as (p1 & -> & G1); [unfold R; lia..|].
    destruct (med3_in m (a + n / 2 - n / 8) (a + n / 2) (a + n / 2 + n / 8) R) as (p2 & -> & G2); [unfold R; lia..|].
    destruct (med3_in m (a + (n - 1) - 2 * (n / 8)) (a + (n - 1) - n / 8) (a + (n - 1)) R) as (p3 & -> & G3); [unfold R; lia..|].
    cbn [cbind]. apply (med3_in m p1 p2 p3 R); unfold R in *; lia.
  - cbn [cbind]. apply (med3_in m a (a + n / 2) (a + (n - 1)) R); unfold R; lia.
Qed.

(** The state of the partition by [v] of the elements from [a] to [hi]: equal ones
  at both ends, lesser ones below [pb], greater ones above [pc]. *)
Record parted (v : A) (a hi : Z) m (pa pb pc pd : Z) : Prop := {
  pt_base : 0 <= a;
  pt_order : a < pa <= pb /\ pb <= pc + 1 /\ pc <= pd < hi;
  pt_len : hi <= Z.of_nat (length m);
  pt_pivot : aget m a = Some v;
  pt_eql : all_in (fun x => cmp x v = 0) m a pa;
  pt_lt : all_in (fun x => cmp x v < 0) m pa pb;
  pt_gt : all_in (fun x => cmp x v > 0) m (pc + 1) (pd + 1);
  pt_eqr : all_in (fun x => cmp x v = 0) m (pd + 1) hi;
}.

(** Segments after an exchange of the elements at [i] and [j]. *)
Ltac seg_at Ek H := eapply all_in_ext; [|exact H]; intros; apply Ek; lia.

Lemma parted_eq_up v a hi m pa pb pc pd x : parted v a hi m pa pb pc pd -> pb <= pc -> aget m pb = Some x -> cmp x v = 0 ->
  exists m', swap m pa pb = Ok m' /\ perm_in a hi m m' /\ parted v a hi m' (pa + 1) (pb + 1) pc pd.
Proof.
  intros [Hb Ho Hl Hv H1 H2 H3 H4] Hpb Hx Hz. destruct (swap_ok m pa pb) as (m' & -> & HP & Hlen & Ei & Ej & Ek); [lia..|].
  exists m'. split; [done|]. split; [eapply swap_perm_in; [done| | |done]; lia|]. split; [done|lia|lia|by rewrite Ek by lia|..].
  - apply all_in_app with pa; [seg_at Ek H1|]. apply all_in_one with x; [by rewrite Ei|done].
  - destruct (decide (pa = pb)) as [->|]; [intros i ?; lia|]. apply all_in_app with pb.
    + eapply all_in_ext; [intros i Hi; apply Ek; lia|]. intros i y Hi. apply H2. lia.
    + destruct (aget_in_range m pa) as [y Hy]; [lia|]. apply all_in_one with y; [by rewrite Ej|]. eapply H2; [|done]. lia.
  - seg_at Ek H3.
  - seg_at Ek H4.
Qed.

Lemma parted_eq_down v a hi m pa pb pc pd x : parted v a hi m pa pb pc pd -> pb <= pc -> aget m pc = Some x -> cmp x v = 0 ->
  exists m', swap m pc pd = Ok m' /\ perm_in a hi m m' /\ (forall k, k < pc -> aget m' k = aget m k) /\
    parted v a hi m' pa pb (pc - 1) (pd - 1).
Proof.
  intros [Hb Ho Hl Hv H1 H2 H3 H4] Hpb Hx Hz. destruct (swap_ok m pc pd) as (m' & -> & HP & Hlen & Ei & Ej & Ek); [lia..|].
  exists m'. split; [done|]. split; [eapply swap_perm_in; [done| | |done]; lia|]. split; [intros; apply Ek; lia|].
  split; [done|lia|lia|by rewrite Ek by lia|..].
  - seg_at Ek H1.
  - seg_at Ek H2.
  - replace (pc - 1 + 1) with pc by lia. replace (pd - 1 + 1) with pd by lia.
    destruct (decide (pc = pd)) as [->|]; [intros i ?; lia|]. apply all_in_app with (pc + 1).
    + destruct (aget_in_range m pd) as [y Hy]; [lia|]. apply all_in_one with y; [by rewrite Ei|]. eapply H3; [|done]. lia.
    + eapply all_in_ext; [intros i Hi; apply Ek; lia|]. intros i y Hi. apply H3. lia.
  - replace (pd - 1 + 1) with pd by lia. apply all_in_app with (pd + 1); [|seg_at Ek H4].
    apply all_in_one with x; [by rewrite Ej|done].
Qed.

Lemma scan_up_ok v a hi fuel : forall m pa pb pc pd cnt, parted v a hi m pa pb pc pd -> pc + 1 - pb < Z.of_nat fuel ->
  exists m' pa' pb' cnt', scan_up cmp m a pa pb pc cnt fuel = Ok (m', pa', pb', cnt') /\ perm_in a hi m m' /\
    parted v a hi m' pa' pb' pc pd /\ pb <= pb' /\ (pb' <= pc -> exists x, aget m' pb' = Some x /\ cmp x v > 0).
Proof.
  induction fuel as [|fuel IH]; intros m pa pb pc pd cnt Hp Hf; pose proof Hp as [Hb Ho Hl Hv H1 H2 H3 H4]; [lia|].
  cbn [scan_up]. destruct (decide (pb <= pc)).
  2: { exists m, pa, pb, cnt. split_and!; [done|apply perm_in_refl|done|lia..]. }
  destruct (aget_in_range m pb) as [x Hx]; [lia|]. rewrite Hx, Hv. cbn [deref cbind]. destruct (decide (cmp x v <= 0)).
  2: { exists m, pa, pb, cnt. split_and!; [done|apply perm_in_refl|done|lia|]. intros _. exists x. split; [done|lia]. }
  destruct (decide (cmp x v = 0)) as [Hz|Hz].
  - destruct (parted_eq_up _ _ _ _ _ _ _ _ _ Hp ltac:(done) Hx Hz) as (m1 & -> & P1 & Hp1). cbn [cbind].
    destruct (IH m1 (pa + 1) (pb + 1) pc pd true Hp1) as (m2 & pa' & pb' & cnt' & -> & P2 & Hp2 & Hle & Hst); [lia|].
    exists m2, pa', pb', cnt'. split_and!; [done|by eapply perm_in_trans|done|lia|done].
  - destruct (IH m pa (pb + 1) pc pd cnt) as (m2 & pa' & pb' & cnt' & -> & P2 & Hp2 & Hle & Hst); [|lia|].
    { split; try done; [lia|]. apply all_in_app with pb; [done|]. apply all_in_one with x; [done|lia]. }
    exists m2, pa', pb', cnt'. split_and!; [done..|lia|done].
Qed.

Lemma scan_down_ok v a hi fuel : forall m pa pb pc pd cnt, parted v a hi m pa pb pc pd -> pc + 1 - pb < Z.of_nat fuel ->
  (pb <= pc -> exists x, aget m pb = Some x /\ cmp x v > 0) ->
  exists m' pc' pd' cnt', scan_down cmp m a pb pc pd cnt fuel = Ok (m', pc', pd', cnt') /\ perm_in a hi m m' /\
    parted v a hi m' pa pb pc' pd' /\ pc' <= pc /\
    (pb <= pc' -> exists x y, aget m' pb = Some x /\ cmp x v > 0 /\ aget m' pc' = Some y /\ cmp y v < 0).
Proof.
  induction fuel as [|fuel IH]; intros m pa pb pc pd cnt Hp Hf Hst; pose proof Hp as [Hb Ho Hl Hv H1 H2 H3 H4]; [lia|].
  cbn [scan_down]. destruct (decide (pb <= pc)) as [Hle|].
  2: { exists m, pc, pd, cnt. split_and!; [done|apply perm_in_refl|done|lia..]. }
  destruct (Hst Hle) as (w & Hw & Hwv).
  destruct (aget_in_range m pc) as [x Hx]; [lia|]. rewrite Hx, Hv. cbn [deref cbind]. destruct (decide (cmp x v >= 0)).
  2: { exists m, pc, pd, cnt. split_and!; [done|apply perm_in_refl|done|lia|]. intros _. exists w, x. split_and!; [done..|lia]. }
  destruct (decide (cmp x v = 0)) as [Hz|Hz].
  - destruct (parted_eq_down _ _ _ _ _ _ _ _ _ Hp Hle Hx Hz) as (m1 & -> & P1 & E1 & Hp1). cbn [cbind].
    assert (pb <> pc) by (intros ->; simplify_eq; lia).
    destruct (IH m1 pa pb (pc - 1) (pd - 1) true Hp1) as (m2 & pc' & pd' & cnt' & -> & P2 & Hp2 & Hle2 & Hst2); [lia| |].
    { intros _. exists w. rewrite E1 by lia. done. }
    exists m2, pc', pd', cnt'. split_and!; [done|by eapply perm_in_trans|done|lia|done].
  - destruct (IH m pa pb (pc - 1) pd cnt) as (m2 & pc' & pd' & cnt' & -> & P2 & Hp2 & Hle2 & Hst2); [|lia|intros _; by exists w|].
    { split; try done; [lia|]. replace (pc - 1 + 1) with pc by lia. apply all_in_app with (pc + 1); [|done]. apply all_in_one with x; [done|lia]. }
    exists m2, pc', pd', cnt'. split_and!; [done..|lia|done].
Qed.

Lemma parted_cross v a hi m pa pb pc pd x y : parted v a hi m pa pb pc pd -> pb <= pc -> aget m pb = Some x -> cmp x v > 0 ->
  aget m pc = Some y -> cmp y v < 0 ->
  exists m', swap m pb pc = Ok m' /\ perm_in a hi m m' /\ parted v a hi m' pa (pb + 1) (pc - 1) pd.
Proof.
  intros [Hb Ho Hl Hv H1 H2 H3 H4] Hpb Hx Hxv Hy Hyv. assert (pb <> pc) by (intros ->; simplify_eq; lia).
  destruct (swap_ok m pb pc) as (m' & -> & HP & Hlen & Ei & Ej & Ek); [lia..|].
  exists m'. split; [done|]. split; [eapply swap_perm_in; [done| | |done]; lia|]. split; [done|lia|lia|by rewrite Ek by lia|..].
  - seg_at Ek H1.
  - apply all_in_app with pb; [seg_at Ek H2|]. apply all_in_one with y; [by rewrite Ei|done].
  - replace (pc - 1 + 1) with pc by lia. apply all_in_app with (pc + 1); [|seg_at Ek H3].
    apply all_in_one with x; [by rewrite Ej|done].
  - seg_at Ek H4.
Qed.

Lemma partition_ok v a n fuel : forall m pa pb pc pd cnt, parted v a (a + n) m pa pb pc pd -> pc + 1 - pb < Z.of_nat fuel ->
  exists m' pa' pb' pc' pd' cnt', partition cmp m a n pa pb pc pd cnt fuel = Ok (m', (pa', pb', pc', pd'), cnt') /\
    perm_in a (a + n) m m' /\ parted v a (a + n) m' pa' pb' pc' pd' /\ pb' = pc' + 1.
Proof.
  induction fuel as [|fuel IH]; intros m pa pb pc pd cnt Hp Hf; pose proof Hp as [Hb Ho _ _ _ _ _ _]; [lia|]. cbn [partition].
  destruct (scan_up_ok v a (a + n) (S (Z.to_nat n)) m pa pb pc pd cnt Hp) as (m1 & pa1 & pb1 & c1 & -> & P1 & Hp1 & Hle1 & Hst1); [lia|].
  cbn [cbind]. pose proof Hp1 as [_ Ho1 _ _ _ _ _ _].
  destruct (scan_down_ok v a (a + n) (S (Z.to_nat n)) m1 pa1 pb1 pc pd c1 Hp1) as (m2 & pc2 & pd2 & c2 & -> & P2 & Hp2 & Hle2 & Hst2); [lia|done|].
  cbn [cbind]. pose proof (perm_in_trans _ _ _ _ _ P1 P2) as P12. pose proof Hp2 as [_ Ho2 _ _ _ _ _ _]. destruct (decide (pb1 > pc2)).
  { exists m2, pa1, pb1, pc2, pd2, c2. split_and!; [done..|lia]. }
  destruct Hst2 as (x & y & Hx & Hxv & Hy & Hyv); [lia|].
  destruct (parted_cross v a (a + n) m2 pa1 pb1 pc2 pd2 x y) as (m3 & -> & P3 & Hp3); [done|lia|done..|]. cbn [cbind].
  destruct (IH m3 pa1 (pb1 + 1) (pc2 - 1) pd2 true Hp3) as (m4 & pa' & pb' & pc' & pd' & c' & -> & P4 & Hp4 & Hend); [lia|].
  exists m4, pa', pb', pc', pd', c'. split_and!; [done| |done..]. eapply perm_in_trans; [done|]. by eapply perm_in_trans.
Qed.

(** *** The sort *)

Lemma sorted_glue v m lo p q hi : lo <= p <= q -> q <= hi -> sorted m lo p -> sorted m q hi ->
  all_in (fun x => cmp x v < 0) m lo p -> all_in (fun x => cmp x v = 0) m p q -> all_in (fun x => cmp x v > 0) m q hi ->
  sorted m lo hi.
Proof.
  intros Hp Hq S1 S2 HL HE HG i j x y Hi Hij Hj Hx Hy.
  destruct (decide (j < p)); [by eapply (S1 i j)|]. destruct (decide (q <= i)); [by eapply (S2 i j)|].
  apply cmp_trans with v.
  - destruct (decide (i < p)); [assert (cmp x v < 0) by (eapply (HL i); [lia|done])|assert (cmp x v = 0) by (eapply (HE i); [lia|done])]; lia.
  - pose proof (cmp_flip v y). destruct (decide (j < q)); [assert (cmp y v = 0) by (eapply (HE j); [lia|done])|assert (cmp y v > 0) by (eapply (HG j); [lia|done])]; lia.
Qed.

Lemma min_if x y : (if decide (x < y) then x else y) = Z.min x y.
Proof. case_decide; lia. Qed.

(** The two exchanges after the partition gather the equal elements in the middle. *)
Lemma gather_ok v a n m pa pb pc pd : parted v a (a + n) m pa pb pc pd -> pb = pc + 1 ->
  exists m1 m2, vecswap m a (pb - (if decide (pa - a < pb - pa) then pa - a else pb - pa)) (if decide (pa - a < pb - pa) then pa - a else pb - pa) = Ok m1 /\
    vecswap m1 pb (a + n - (if decide (pd - pc < a + n - pd - 1) then pd - pc else a + n - pd - 1))
      (if decide (pd - pc < a + n - pd - 1) then pd - pc else a + n - pd - 1) = Ok m2 /\
    perm_in a (a + n) m m2 /\ all_in (fun x => cmp x v < 0) m2 a (a + (pb - pa)) /\
    all_in (fun x => cmp x v = 0) m2 (a + (pb - pa)) (a + n - (pd - pc)) /\ all_in (fun x => cmp x v > 0) m2 (a + n - (pd - pc)) (a + n).
Proof.
  intros [Hb Ho Hl Hv H1 H2 H3 H4] ->.
  destruct (vecswap_rotate m a pa (pc + 1) _ _ (if decide (pa - a < pc + 1 - pa) then pa - a else pc + 1 - pa) ltac:(lia) ltac:(lia) ltac:(rewrite min_if; lia) H1 H2)
    as (m1 & E1 & P1 & Q1 & Q2).
  pose proof (perm_in_length _ _ _ _ P1) as L1.
  assert (forall k, ~ (a <= k < pc + 1) -> aget m1 k = aget m k) as K1 by apply P1.
  destruct (vecswap_rotate m1 (pc + 1) (pd + 1) (a + n) (fun x => cmp x v > 0) (fun x => cmp x v = 0)
    (if decide (pd - pc < a + n - pd - 1) then pd - pc else a + n - pd - 1) ltac:(lia) ltac:(lia) ltac:(rewrite min_if; lia))
    as (m2 & E2 & P2 & Q3 & Q4); [seg_at K1 H3|seg_at K1 H4|].
  assert (forall k, ~ (pc + 1 <= k < a + n) -> aget m2 k = aget m1 k) as K2 by apply P2.
  replace (pc + 1 + (a + n - (pd + 1))) with (a + n - (pd - pc)) in Q3, Q4 by lia.
  exists m1, m2. split_and!; [done..| | | |done].
  - eapply perm_in_trans; eapply perm_in_wider; [..|exact P1| | |exact P2]; lia.
  - seg_at K2 Q1.
  - apply all_in_app with (pc + 1); [seg_at K2 Q2|done].
Qed.

(** One of the two recursive calls, or none for a segment of at most one element. *)
Lemma subsort_ok (fuel : nat) m lo n : (1 < n -> exists m', qsort cmp fuel m lo n = Ok m' /\ perm_in lo (lo + n) m m' /\ sorted m' lo (lo + n)) ->
  exists m', (if decide (n > 1) then qsort cmp fuel m lo n else Ok m) = Ok m' /\ perm_in lo (lo + n) m m' /\ sorted m' lo (lo + n).
Proof.
  intros H. destruct (decide (n > 1)); [apply H; lia|]. exists m. split_and!; [done|apply perm_in_refl|apply sorted_short; lia].
Qed.

Lemma qsort_ok fuel : forall m a n, 0 <= a -> 0 <= n < Z.of_nat fuel -> a + n <= Z.of_nat (length m) ->
  exists m', qsort cmp fuel m a n = Ok m' /\ perm_in a (a + n) m m' /\ sorted m' a (a + n).
Proof.
  induction fuel as [|fuel IH]; intros m a n Ha Hn Hl; [lia|]. cbn [qsort]. destruct (decide (n < 7)); [apply insertion_sort_ok; lia|].
  destruct (pivot_in m a n) as (k & -> & Hk); [lia..|]. cbn [cbind].
  destruct (swap_ok m a k) as (m1 & -> & P1 & L1 & _ & _ & K1); [lia..|]. cbn [cbind].
  assert (perm_in a (a + n) m m1) as Q1 by (eapply swap_perm_in; [done| | |done]; lia).
  destruct (aget_in_range m1 a) as [v Hv]; [lia|].
  destruct (partition_ok v a n (S (Z.to_nat n)) m1 (a + 1) (a + 1) (a + (n - 1)) (a + (n - 1)) false) as (m2 & pa & pb & pc & pd & c & -> & P2 & Hp & Hx); [|lia|].
  { split; [lia..|done| | | |]; try (intros ? ?; lia). apply all_in_one with v; [done|apply cmp_same]. }
  cbn [cbind]. pose proof (perm_in_trans _ _ _ _ _ Q1 P2) as Q2. destruct (negb c).
  { destruct (insertion_sort_ok m2 a n) as (m3 & E & P3 & S3); [lia..|by rewrite (perm_in_length _ _ _ _ Q2)|].
    exists m3. split_and!; [done|by eapply perm_in_trans|done]. }
  destruct (gather_ok v a n m2 pa pb pc pd Hp Hx) as (m3 & m4 & E3 & E4 & P4 & HL & HE & HG). rewrite E3. cbn [cbind]. rewrite E4. cbn [cbind].
  destruct Hp as [_ Ho _ _ _ _ _ _]. pose proof (perm_in_trans _ _ _ _ _ Q2 P4) as Q4. pose proof (perm_in_length _ _ _ _ Q4) as L4. clear E3 E4 m3.
  destruct (subsort_ok fuel m4 a (pb - pa)) as (m5 & -> & P5 & S5); [intros; apply IH; lia|]. cbn [cbind].
  pose proof (perm_in_length _ _ _ _ P5) as L5. assert (forall i, ~ (a <= i < a + (pb - pa)) -> aget m5 i = aget m4 i) as K5 by apply P5.
  destruct (subsort_ok fuel m5 (a + n - (pd - pc)) (pd - pc)) as (m6 & -> & P6 & S6); [intros; apply IH; lia|].
  replace (a + n - (pd - pc) + (pd - pc)) with (a + n) in P6, S6 by lia.
  assert (forall i, ~ (a + n - (pd - pc) <= i < a + n) -> aget m6 i = aget m5 i) as K6 by apply P6.
  exists m6. split; [done|]. split.
  { eapply perm_in_trans; [done|]. eapply perm_in_trans; eapply perm_in_wider; [..|exact P5| | |exact P6]; lia. }
  apply sorted_glue with v (a + (pb - pa)) (a + n - (pd - pc)); [lia..| |done| | |].
  - eapply sorted_ext; [|exact S5]. intros. apply K6. lia.
  - eapply all_in_ext; [intros i Hi; apply K6; lia|]. eapply perm_in_all; [|done..]. lia.
  - eapply all_in_ext; [intros i Hi; rewrite K6, K5 by lia; done|]. done.
  - eapply perm_in_all; [|done|]; [lia|]. seg_at K5 HG.
Qed.

(** ** The claims *)

(** C34. qsort sorts: on every array whose elements are compared by an order, the
  code comes to an end without touching memory outside the [n] elements it is
  given, leaves a rearrangement of them in ascending order and every other element
  as it was. The recursion is never deeper than the number of elements. *)
Theorem qsort_sorts m a n (Ha : 0 <= a) (Hn : 0 <= n) (Hl : a + n <= Z.of_nat (length m)) :
  exists m', qsort cmp (S (Z.to_nat n)) m a n = Ok m' /\ seg m a (a + n) ≡ₚ seg m' a (a + n) /\
    (forall i, ~ (a <= i < a + n) -> aget m' i = aget m i) /\
    forall i j x y, a <= i -> i < j -> j < a + n -> aget m' i = Some x -> aget m' j = Some y -> cmp x y <= 0.
Proof.
  destruct (qsort_ok (S (Z.to_nat n)) m a n) as (m' & E & HP & HS); [lia..|].
  exists m'. split_and!; [done|apply perm_in_seg; [lia|done]|apply HP|exact HS].
Qed.

End proofs.

(** Integers, compared by subtraction. *)
#[export] Instance Zsub_comparator : Comparator Z.sub.
Proof. split; intros; lia. Qed.

(** Ten numbers in the middle of an array, with equal ones among them. *)
Definition ex_array : list Z := [99; 5; 3; 5; 9; 1; 5; 0; 7; 5; 2; -1].

Example ex_sorted : qsort Z.sub 11 ex_array 1 10 = Ok [99; 0; 1; 2; 3; 5; 5; 5; 5; 7; 9; -1].
Proof. vm_compute. reflexivity. Qed.

Lemma qsort_sorts_witness :
  exists m', qsort Z.sub 11 ex_array 1 10 = Ok m' /\ seg ex_array 1 11 ≡ₚ seg m' 1 11 /\
    (forall i, ~ (1 <= i < 11) -> aget m' i = aget ex_array i) /\
    forall i j x y, 1 <= i -> i < j -> j < 11 -> aget m' i = Some x -> aget m' j = Some y -> x - y <= 0.
Proof. apply (qsort_sorts Z.sub ex_array 1 10); simpl; lia. Defined.

End Qsort.
