(* ===== verification/Getopt.v ===== *)
(** The option parser of the C library, lib/libposix/getopt.c: a function that keeps
  its place in the argument vector between calls, compared with a parser that reads
  the whole vector.

  A pointer into a string is a block of bytes and an offset into it. The messages
  that getopt prints are recorded. *)
From S2P Require Import Prelude LibC.
Import LibC.
Local Open Scope Z_scope.
Local Open Scope c_scope.

Module Getopt.

(** ** The code *)

Definition ptr : Type := list Z * Z.
Definition get (p : ptr) : cres Z := rd p.1 p.2.
Definition next (p : ptr) : ptr := (p.1, p.2 + 1).

Inductive complaint := Illegal (c : Z) | Requires (c : Z).

(** The global variables and the static [place]. *)
Record gst := GSt {
  opterr : Z;
  optind : Z;
  optopt : Z;
  optreset : Z;
  optarg : option ptr;
  place : ptr;
  printed : list complaint;
}.

Definition set_optind (g : gst) (x : Z) : gst := GSt (opterr g) x (optopt g) (optreset g) (optarg g) (place g) (printed g).
Definition set_optopt (g : gst) (x : Z) : gst := GSt (opterr g) (optind g) x (optreset g) (optarg g) (place g) (printed g).
Definition set_optreset (g : gst) (x : Z) : gst := GSt (opterr g) (optind g) (optopt g) x (optarg g) (place g) (printed g).
Definition set_optarg (g : gst) (x : option ptr) : gst := GSt (opterr g) (optind g) (optopt g) (optreset g) x (place g) (printed g).
Definition set_place (g : gst) (x : ptr) : gst := GSt (opterr g) (optind g) (optopt g) (optreset g) (optarg g) x (printed g).
Definition complain (g : gst) (x : complaint) : gst := GSt (opterr g) (optind g) (optopt g) (optreset g) (optarg g) (place g) (printed g ++ [x]).

Definition EMSG : ptr := ([0], 0).
Definition BADCH : Z := 63.
Definition BADARG : Z := 58.
Definition dash : Z := 45.
Definition colon : Z := 58.

(** [++optind] when the word is used up. *)
Definition advance (g : gst) : cres gst :=
  let! c := get (place g) in
  Ok (if decide (c = 0) then set_optind g (optind g + 1) else g).

(** The first statement: move on to the next word; [inl] is an early return. *)
Definition update_place (nargc : Z) (nargv : list (list Z)) (g : gst) : cres (Z * gst + gst) :=
  let! again := (if decide (optreset g <> 0) then Ok true else let! c := get (place g) in Ok (bool_decide (c = 0))) in
  if again : bool then
    let g := set_optreset g 0 in
    if decide (optind g >= nargc) then Ok (inl (-1, set_place g EMSG)) else
    let? w := aget nargv (optind g) in
    let g := set_place g (w, 0) in
    let! c := get (place g) in
    if decide (c <> dash) then Ok (inl (-1, set_place g EMSG)) else
    let! c1 := get (next (place g)) in
    if decide (c1 <> 0) then
      let g := set_place g (next (place g)) in
      if decide (c1 = dash) then Ok (inl (-1, set_place (set_optind g (optind g + 1)) EMSG))
      else Ok (inr g)
    else Ok (inr g)
  else Ok (inr g).

(** An option that takes an argument. *)
Definition need_argument (nargc : Z) (nargv : list (list Z)) (ostr : list Z) (g : gst) : cres (Z * gst) :=
  let! c := get (place g) in
  if decide (c <> 0) then
    let g := set_optarg g (Some (place g)) in
    Ok (optopt g, set_optind (set_place g EMSG) (optind g + 1))
  else
    let g := set_optind g (optind g + 1) in
    if decide (nargc <= optind g) then
      let g := set_place g EMSG in
      let! o := rd ostr 0 in
      if decide (o = colon) then Ok (BADARG, g) else
      Ok (BADCH, if decide (opterr g <> 0) then complain g (Requires (optopt g)) else g)
    else
      let? w := aget nargv (optind g) in
      let g := set_optarg g (Some (w, 0)) in
      Ok (optopt g, set_optind (set_place g EMSG) (optind g + 1)).

Definition getopt (nargc : Z) (nargv : list (list Z)) (ostr : list Z) (g : gst) : cres (Z * gst) :=
  let! start := update_place nargc nargv g in
  match start with
  | inl r => Ok r
  | inr g =>
      let! b := get (place g) in
      let g := set_optopt (set_place g (next (place g))) (schar b) in
      let! oli := (if decide (optopt g = colon) then Ok None else strchr ostr 0 (optopt g)) in
      match oli with
      | None =>
          if decide (optopt g = dash) then Ok (-1, g) else
          let! g := advance g in
          let! o := rd ostr 0 in
          Ok (BADCH, if decide (opterr g <> 0 /\ o <> colon) then complain g (Illegal (optopt g)) else g)
      | Some oli =>
          let! o := rd ostr (oli + 1) in
          if decide (o <> colon) then
            let! g := advance (set_optarg g None) in
            Ok (optopt g, g)
          else need_argument nargc nargv ostr g
      end
  end.

(** The loop of a program: what each call returns, with [optopt] and [optarg], until
  the call that returns -1. *)
Definition event : Type := Z * Z * option ptr.
Fixpoint getopt_all (fuel : nat) (nargc : Z) (nargv : list (list Z)) (ostr : list Z) (g : gst) : cres (list event * gst) :=
  match fuel with
  | O => Fault
  | S fuel =>
      let! (r, g) := getopt nargc nargv ostr g in
      if decide (r = -1) then Ok ([], g) else
      let! (l, g') := getopt_all fuel nargc nargv ostr g in
      Ok ((r, optopt g, optarg g) :: l, g')
  end.

(** ** The reference parser *)

Inductive item :=
| IOpt (c : Z)                    (** an option without argument *)
| IArg (c : Z) (text : list Z)    (** an option and its argument *)
| IBad (c : Z)                    (** a letter that is no option *)
| IMissing (c : Z).               (** an option whose argument is missing *)

(** Does the letter stand in the option string, and is it followed by a colon? *)
Fixpoint letter (ostr : list Z) (c : Z) : option bool :=
  match ostr with
  | [] => None
  | d :: o => if decide (d = c) then Some (bool_decide (head o = Some colon)) else letter o c
  end.
Definition option_of (ostr : list Z) (c : Z) : option bool := if decide (c = colon) then None else letter ostr c.

(** The letters of a word; the words used, or [None] when parsing stops at a dash. *)
Fixpoint cluster (ostr : list Z) (w : list Z) (rest : list (list Z)) : list item * option nat :=
  match w with
  | [] => ([], Some 1%nat)
  | c :: w' =>
      match option_of ostr c with
      | None => if decide (c = dash) then ([], None) else let r := cluster ostr w' rest in (IBad c :: r.1, r.2)
      | Some false => let r := cluster ostr w' rest in (IOpt c :: r.1, r.2)
      | Some true =>
          match w', rest with
          | _ :: _, _ => ([IArg c w'], Some 1%nat)
          | [], [] => ([IMissing c], Some 1%nat)
          | [], a :: _ => ([IArg c a], Some 2%nat)
          end
      end
  end.

(** The letters that a word contributes, if it is a word of options; [Some None] is
  the end of the options. *)
Definition letters (w : list Z) : option (option (list Z)) :=
  match w with
  | [] => None
  | c :: cs =>
      if decide (c = dash) then
        match cs with
        | [] => Some (Some [dash])
        | d :: _ => if decide (d = dash) then Some None else Some (Some cs)
        end
      else None
  end.

(** The items of a list of words, and how many words they take up. *)
Fixpoint parse (n : nat) (ostr : list Z) (words : list (list Z)) : list item * nat :=
  match n, words with
  | S n, w :: rest =>
      match letters w with
      | None => ([], O)
      | Some None => ([], 1%nat)
      | Some (Some cs) =>
          let r := cluster ostr cs rest in
          match r.2 with
          | None => (r.1, O)
          | Some k => let r' := parse n ostr (drop k words) in (r.1 ++ r'.1, (k + r'.2)%nat)
          end
      end
  | _, _ => ([], O)
  end.

(** An event of the program shows an item of the reference parser. *)
Definition shows (ostr : list Z) (e : event) (i : item) : Prop :=
  match i with
  | IOpt c => e = (c, c, None)
  | IArg c t => exists p, e = (c, c, Some p) /\ str_at p.1 p.2 t
  | IBad c => e.1 = (BADCH, c)
  | IMissing c => e.1 = (if decide (head ostr = Some colon) then BADARG else BADCH, c)
  end.

(** ** Equivalence *)

Lemma get_at p c t : str_at p.1 p.2 (c :: t) -> get p = Ok c /\ 0 < c < 256.
Proof. intros (H & Hr & _). unfold get. by rewrite (rd_Some _ _ _ H). Qed.
Lemma get_end p : str_at p.1 p.2 [] -> get p = Ok 0.
Proof. intros H. unfold get. by rewrite (rd_Some _ _ _ H). Qed.

Lemma get_next p c t : str_at p.1 p.2 (c :: t) -> exists d, get (next p) = Ok d /\ d = default 0 (head t).
Proof. intros (_ & _ & H). destruct t as [|d t]; [exists 0; by rewrite (get_end (next p))|]. exists d. by destruct (get_at (next p) d t H). Qed.

(** strchr on an option string. *)
Lemma strchr_letter m c str : 0 < c < 128 -> forall p fuel, str_at m p str -> (length str < fuel)%nat ->
  match letter str c with
  | None => strchr_loop m p c fuel = Ok None
  | Some b => exists q o, strchr_loop m p c fuel = Ok (Some q) /\ rd m (q + 1) = Ok o /\ b = bool_decide (o = colon)
  end.
Proof.
  intros Hc. induction str as [|d str IH]; intros p fuel Hs Hf; (destruct fuel as [|fuel]; [simpl in Hf; lia|]); cbn [letter strchr_loop].
  - by rewrite (rd_Some _ _ _ Hs).
  - destruct Hs as (Hd & Hr & Hs). rewrite (rd_Some _ _ _ Hd). cbn [cbind]. rewrite (decide_False (P := d = 0)) by lia.
    assert (schar d = c <-> d = c) as Hsc by (unfold schar; case_decide; lia).
    destruct (decide (d = c)) as [E|E].
    + rewrite decide_True by tauto. exists p. destruct str as [|o str].
      * exists 0. simpl in Hs. rewrite (rd_Some _ _ _ Hs). by split_and!.
      * exists o. destruct Hs as (Ho & _). rewrite (rd_Some _ _ _ Ho). split_and!; [done|done|]. simpl. apply bool_decide_ext. split; congruence.
    + rewrite decide_False by tauto. apply IH; [done|simpl in Hf; lia].
Qed.

Lemma cluster_pos ostr cs rest its j : cluster ostr cs rest = (its, Some j) -> j <> O.
Proof.
  revert its. induction cs as [|c cs IH]; intros its; cbn [cluster]; [by intros [= _ <-]|].
  destruct (option_of ostr c) as [[]|].
  - destruct cs; [destruct rest|]; by intros [= _ <-].
  - destruct (cluster ostr cs rest) as [its' o]. intros [= _ ->]. by eapply IH.
  - case_decide; [done|]. destruct (cluster ostr cs rest) as [its' o]. intros [= _ ->]. by eapply IH.
Qed.

Section equivalence.
Context (nargv : list (list Z)) (words : list (list Z)) (ob ostr : list Z).
Hypothesis Hargv : Forall2 (fun m w => str_at m 0 w) nargv words.
Hypothesis Hascii : Forall (Forall (fun c => 0 < c < 128)) words.
Hypothesis Hostr : str_at ob 0 ostr.
Local Abbreviation getopt' := (getopt (Z.of_nat (length nargv)) nargv ob).

Definition boundary (g : gst) (i : nat) : Prop := optreset g = 0 /\ optind g = Z.of_nat i /\ get (place g) = Ok 0.
Definition inside (g : gst) (i : nat) (cs : list Z) : Prop :=
  optreset g = 0 /\ optind g = Z.of_nat i /\ str_at (place g).1 (place g).2 cs /\ Forall (fun c => 0 < c < 128) cs.

(** Calls until one returns -1. *)
Inductive finishes : gst -> list event -> gst -> Prop :=
| fin_end g g' : getopt' g = Ok (-1, g') -> finishes g [] g'
| fin_call g r g1 l g' : getopt' g = Ok (r, g1) -> r <> -1 -> finishes g1 l g' -> finishes g ((r, optopt g1, optarg g1) :: l) g'.

Lemma finishes_same g g1 l g' : getopt' g = getopt' g1 -> finishes g1 l g' -> finishes g l g'.
Proof. intros E. destruct 1; [apply fin_end|eapply fin_call]; [congruence..|done|done]. Qed.

Lemma finishes_all g l g' : finishes g l g' -> forall fuel, (length l < fuel)%nat ->
  getopt_all fuel (Z.of_nat (length nargv)) nargv ob g = Ok (l, g').
Proof.
  induction 1 as [g g' E|g r g1 l g' E Hr Hf IH]; intros fuel Hl; (destruct fuel as [|fuel]; [simpl in Hl; lia|]); cbn [getopt_all]; rewrite E; cbn [cbind].
  - done.
  - rewrite decide_False by done. rewrite IH by (simpl in Hl; lia). done.
Qed.

(** [after g i cs]: the rest of the word is [cs]. *)
Definition after (g : gst) (i : nat) (cs : list Z) : Prop := match cs with [] => boundary g (i + 1) | _ => inside g i cs end.

(** One letter: what getopt returns, and where it leaves its place. *)
Definition letter_outcome (g : gst) (i : nat) (c : Z) (cs : list Z) (rest : list (list Z)) : Prop :=
  match option_of ostr c with
  | None => if decide (c = dash) then exists g', getopt' g = Ok (-1, g') /\ optind g' = Z.of_nat i
            else exists g', getopt' g = Ok (BADCH, g') /\ optopt g' = c /\ after g' i cs
  | Some false => exists g', getopt' g = Ok (c, g') /\ optopt g' = c /\ optarg g' = None /\ after g' i cs
  | Some true =>
      match cs, rest with
      | _ :: _, _ => exists g' p, getopt' g = Ok (c, g') /\ optopt g' = c /\ optarg g' = Some p /\ str_at p.1 p.2 cs /\ boundary g' (i + 1)
      | [], [] => exists g', getopt' g = Ok (if decide (head ostr = Some colon) then BADARG else BADCH, g') /\ optopt g' = c /\ boundary g' (i + 1)
      | [], a :: _ => exists g' p, getopt' g = Ok (c, g') /\ optopt g' = c /\ optarg g' = Some p /\ str_at p.1 p.2 a /\ boundary g' (i + 2)
      end
  end.

Lemma update_inside g i c cs : inside g i (c :: cs) -> update_place (Z.of_nat (length nargv)) nargv g = Ok (inr g).
Proof.
  intros (H1 & H2 & H3 & _). destruct (get_at _ _ _ H3) as [Hg Hr]. unfold update_place. rewrite decide_False by lia. rewrite Hg. cbn [cbind].
  by rewrite bool_decide_false by lia.
Qed.

Lemma advance_ok g i cs : optreset g = 0 -> optind g = Z.of_nat i -> str_at (place g).1 (place g).2 cs -> Forall (fun c => 0 < c < 128) cs ->
  exists g', advance g = Ok g' /\ after g' i cs /\ optopt g' = optopt g /\ optarg g' = optarg g.
Proof.
  intros H1 H2 H3 H4. unfold advance, after. destruct cs as [|d cs].
  - pose proof (get_end _ H3) as Hg. rewrite Hg. cbn [cbind]. rewrite decide_True by done. eexists. split; [done|]. split_and!; [|done|done].
    split_and!; simpl; [done|lia|done].
  - destruct (get_at _ _ _ H3) as [Hg Hr]. rewrite Hg. cbn [cbind]. rewrite decide_False by lia. by exists g.
Qed.

Lemma head_ostr : rd ob 0 = Ok (default 0 (head ostr)).
Proof. destruct ostr as [|o l]; simpl in Hostr; [by rewrite (rd_Some _ _ _ Hostr)|]. destruct Hostr as (H & _). by rewrite (rd_Some _ _ _ H). Qed.

Lemma colon_first : default 0 (head ostr) = colon <-> head ostr = Some colon.
Proof. destruct ostr; simpl; split; try done; congruence. Qed.

Lemma word_block i w : words !! i = Some w -> exists m, aget nargv (Z.of_nat i) = Some m /\ str_at m 0 w.
Proof.
  intros H. destruct (Forall2_lookup_r _ _ _ _ _ Hargv H) as (m & Hm & Hs). exists m. split; [|done]. unfold aget. by rewrite decide_True, Nat2Z.id by lia.
Qed.

Lemma length_words : length nargv = length words.
Proof. by eapply Forall2_length. Qed.

(** An option that takes an argument, when its letter has been read. *)
Lemma need_argument_ok g i c cs rest : optreset g = 0 -> optind g = Z.of_nat i -> optopt g = c -> str_at (place g).1 (place g).2 cs ->
  rest = drop (S i) words ->
  let call := need_argument (Z.of_nat (length nargv)) nargv ob g in
  match cs, rest with
  | _ :: _, _ => exists g' p, call = Ok (c, g') /\ optopt g' = c /\ optarg g' = Some p /\ str_at p.1 p.2 cs /\ boundary g' (i + 1)
  | [], [] => exists g', call = Ok (if decide (head ostr = Some colon) then BADARG else BADCH, g') /\ optopt g' = c /\ boundary g' (i + 1)
  | [], a :: _ => exists g' p, call = Ok (c, g') /\ optopt g' = c /\ optarg g' = Some p /\ str_at p.1 p.2 a /\ boundary g' (i + 2)
  end.
Proof.
  intros H1 H2 H3 H4 Hrest call. subst call. unfold need_argument. destruct cs as [|d cs].
  - rewrite (get_end _ H4). cbn [cbind]. rewrite decide_False by lia. cbn [optind set_optind]. destruct rest as [|a rest].
    + assert (length words <= S i)%nat as Hle. { apply (f_equal length) in Hrest. rewrite length_drop in Hrest. simpl in Hrest. lia. }
      rewrite decide_True by (rewrite length_words; lia). rewrite head_ostr. cbn [cbind].
      destruct (decide (head ostr = Some colon)) as [Hc|Hc].
      * rewrite decide_True by (by apply colon_first). eexists. split; [done|]. split; [done|]. split_and!; simpl; [done|lia|done].
      * rewrite decide_False by (by rewrite colon_first). eexists. split; [done|]. case_decide; (split; [done|]); split_and!; simpl; try done; lia.
    + assert (words !! S i = Some a) as Ha. { rewrite <- (Nat.add_0_r (S i)), <- lookup_drop, <- Hrest. done. }
      pose proof (lookup_lt_Some _ _ _ Ha). rewrite decide_False by (rewrite length_words; lia). destruct (word_block _ _ Ha) as (m & Hm & Hs).
      replace (optind g + 1) with (Z.of_nat (S i)) by lia. rewrite Hm. cbn [deref cbind]. exists (set_optind (set_place (set_optarg (set_optind g (Z.of_nat (S i))) (Some (m, 0))) EMSG) (Z.of_nat (S i) + 1)), (m, 0).
      split; [by rewrite <- H3|]. split_and!; [done|done|done|]. split_and!; simpl; [done|lia|done].
  - destruct (get_at _ _ _ H4) as [Hg Hr]. rewrite Hg. cbn [cbind]. rewrite decide_True by lia. eexists _, _. split; [by rewrite <- H3|].
    split_and!; [done|done|done|]. split_and!; simpl; [done|lia|done].
Qed.

Lemma letter_step g i c cs rest : inside g i (c :: cs) -> rest = drop (S i) words -> letter_outcome g i c cs rest.
Proof.
  intros Hin Hrest. pose proof (update_inside _ _ _ _ Hin) as Hu. destruct Hin as (H1 & H2 & H3 & H4). apply Forall_cons in H4 as [Hc H4].
  destruct (get_at _ _ _ H3) as [Hg _]. assert (schar c = c) as Hsc by (unfold schar; rewrite decide_True by lia; done).
  set (g1 := set_optopt (set_place g (next (place g))) c). assert (str_at (place g1).1 (place g1).2 cs) as H3' by apply H3.
  unfold letter_outcome, getopt. rewrite Hu. cbn [cbind]. rewrite Hg. cbn [cbind]. rewrite Hsc. fold g1. change (optopt g1) with c.
  pose proof (str_at_range _ _ _ Hostr) as Hlen. pose proof (strchr_letter ob c ostr Hc 0 (S (length ob)) Hostr ltac:(lia)) as Hl.
  fold (strchr ob 0 c) in Hl. unfold option_of. destruct (decide (c = colon)) as [Ec|Ec].
  - cbn [cbind]. assert (c <> dash) by (rewrite Ec; done). rewrite !decide_False by done.
    destruct (advance_ok g1 i cs H1 H2 H3' H4) as (g2 & -> & Ha & Ho & _). cbn [cbind]. rewrite head_ostr. cbn [cbind]. eexists. split; [done|].
    case_decide; split; done.
  - destruct (letter ostr c) as [b|].
    + destruct Hl as (q & o & -> & Ho & ->). cbn [cbind]. rewrite Ho. cbn [cbind]. case_bool_decide as Hcol.
      * rewrite decide_False by tauto. by apply (need_argument_ok g1 i c cs rest).
      * rewrite decide_True by done. destruct (advance_ok (set_optarg g1 None) i cs H1 H2 H3' H4) as (g2 & -> & Ha & Ho' & Harg). cbn [cbind].
        exists g2. rewrite Ho'. done.
    + rewrite Hl. cbn [cbind]. case_decide.
      * by exists g1.
      * destruct (advance_ok g1 i cs H1 H2 H3' H4) as (g2 & -> & Ha & Ho & _). cbn [cbind]. rewrite head_ostr. cbn [cbind]. eexists. split; [done|].
        case_decide; split; done.
Qed.

(** The letters of a word, and then the words after it. *)
Lemma cluster_ok i rest items2 (Post : gst -> Prop) : rest = drop (S i) words -> forall cs g, after g i cs -> Forall (fun c => 0 < c < 128) cs ->
  match (cluster ostr cs rest).2 with
  | Some k => forall g', boundary g' (i + k) -> exists l g'', finishes g' l g'' /\ Forall2 (shows ostr) l items2 /\ Post g''
  | None => items2 = [] /\ forall g', optind g' = Z.of_nat i -> Post g'
  end ->
  exists l g'', finishes g l g'' /\ Forall2 (shows ostr) l ((cluster ostr cs rest).1 ++ items2) /\ Post g''.
Proof.
  intros Hrest. induction cs as [|c cs IH]; intros g Hg Hcs Hk; [by apply Hk|]. apply Forall_cons in Hcs as [Hc Hcs].
  pose proof (letter_step g i c cs rest Hg Hrest) as Ho. unfold letter_outcome in Ho. cbn [cluster] in *.
  destruct (option_of ostr c) as [[]|].
  - assert (forall g' p t k, getopt' g = Ok (c, g') -> optopt g' = c -> optarg g' = Some p -> str_at p.1 p.2 t -> boundary g' (i + k) ->
      (forall g', boundary g' (i + k) -> exists l g'', finishes g' l g'' /\ Forall2 (shows ostr) l items2 /\ Post g'') ->
      exists l g'', finishes g l g'' /\ Forall2 (shows ostr) l (IArg c t :: items2) /\ Post g'') as Harg.
    { intros g' p t k E Eo Ea Hs Hb H. destruct (H g' Hb) as (l & g'' & Hf & Hl & HP). eexists _, g''. split; [eapply fin_call; [done|lia|done]|].
      split; [|done]. constructor; [|done]. exists p. rewrite Eo, Ea. done. }
    destruct cs as [|d cs]; [destruct rest as [|a rest']|]; simpl in Hk.
    + destruct Ho as (g' & E & Eo & Hb). destruct (Hk g' Hb) as (l & g'' & Hf & Hl & HP). eexists _, g''.
      split; [eapply fin_call; [done|by case_decide|done]|]. split; [|done]. constructor; [|done]. simpl. by rewrite Eo.
    + destruct Ho as (g' & p & E & Eo & Ea & Hs & Hb). by eapply Harg.
    + destruct Ho as (g' & p & E & Eo & Ea & Hs & Hb). by eapply Harg.
  - destruct Ho as (g' & E & Eo & Ea & Haf). simpl in Hk. destruct (IH g' Haf Hcs Hk) as (l & g'' & Hf & Hl & HP). eexists _, g''.
    split; [eapply fin_call; [done|lia|done]|]. split; [|done]. constructor; [|done]. simpl. by rewrite Eo, Ea.
  - destruct (decide (c = dash)).
    + destruct Ho as (g' & E & Eo). simpl in Hk. destruct Hk as [-> HP]. exists [], g'. split; [by apply fin_end|]. split; [constructor|by apply HP].
    + destruct Ho as (g' & E & Eo & Haf). simpl in Hk. destruct (IH g' Haf Hcs Hk) as (l & g'' & Hf & Hl & HP). eexists _, g''.
      split; [eapply fin_call; [done|done|done]|]. split; [|done]. constructor; [|done]. simpl. by rewrite Eo.
Qed.

(** At the start of a word. *)
Lemma update_boundary g i w : boundary g i -> words !! i = Some w ->
  match letters w with
  | None => exists g', getopt' g = Ok (-1, g') /\ optind g' = Z.of_nat i
  | Some None => exists g', getopt' g = Ok (-1, g') /\ optind g' = Z.of_nat i + 1
  | Some (Some cs) => cs <> [] /\ Forall (fun c => 0 < c < 128) cs /\ exists g', getopt' g = getopt' g' /\ inside g' i cs
  end.
Proof.
  intros (H1 & H2 & H3) Hw. destruct (word_block _ _ Hw) as (m & Hm & Hs). pose proof (lookup_lt_Some _ _ _ Hw).
  assert (Forall (fun c => 0 < c < 128) w) as Hasc by (rewrite Forall_lookup in Hascii; by eapply Hascii).
  assert (update_place (Z.of_nat (length nargv)) nargv g =
    let g := set_place (set_optreset g 0) (m, 0) in
    let! c := get (place g) in
    if decide (c <> dash) then Ok (inl (-1, set_place g EMSG)) else
    let! c1 := get (next (place g)) in
    if decide (c1 <> 0) then
      let g := set_place g (next (place g)) in
      if decide (c1 = dash) then Ok (inl (-1, set_place (set_optind g (optind g + 1)) EMSG)) else Ok (inr g)
    else Ok (inr g)) as Hu.
  { unfold update_place. rewrite decide_False by lia. rewrite H3. cbn [cbind]. rewrite bool_decide_true by done. cbv zeta. cbn [optind set_optreset].
    rewrite decide_False by (rewrite length_words; lia). rewrite H2, Hm. done. }
  cbv zeta in Hu. cbn [place set_place] in Hu. unfold letters. destruct w as [|c cs].
  { rewrite (get_end (m, 0) Hs) in Hu. cbn [cbind] in Hu. rewrite decide_True in Hu by done. unfold getopt. rewrite Hu. by eexists. }
  destruct (get_at (m, 0) c cs Hs) as [Hg _]. rewrite Hg in Hu. cbn [cbind] in Hu. destruct (decide (c = dash)) as [->|Hc].
  2: { rewrite decide_True in Hu by done. unfold getopt. rewrite Hu. by eexists. }
  rewrite decide_False in Hu by tauto. destruct (get_next (m, 0) dash cs Hs) as (d & Hd & Ed). rewrite Hd in Hu. cbn [cbind] in Hu.
  apply Forall_cons in Hasc as [_ Hasc]. destruct cs as [|d' cs].
  - simpl in Ed. subst d. rewrite decide_False in Hu by tauto. split; [done|]. split; [by constructor|].
    exists (set_place (set_optreset g 0) (m, 0)). assert (inside (set_place (set_optreset g 0) (m, 0)) i [dash]) as Hin by (split_and!; [done|done|done|by constructor]).
    split; [|done]. unfold getopt. by rewrite Hu, (update_inside _ _ _ _ Hin).
  - simpl in Ed. subst d'. pose proof Hasc as [Hdr _]%Forall_cons. rewrite decide_True in Hu by lia. destruct (decide (d = dash)) as [->|].
    + unfold getopt. rewrite Hu. eexists. split; [done|]. simpl. lia.
    + split; [done|]. split; [done|]. exists (set_place (set_optreset g 0) (next (m, 0))).
      assert (inside (set_place (set_optreset g 0) (next (m, 0))) i (d :: cs)) as Hin by (split_and!; [done|done|apply Hs|done]).
      split; [|done]. unfold getopt. by rewrite Hu, (update_inside _ _ _ _ Hin).
Qed.

Lemma parse_ok n : forall k g, (length (drop k words) <= n)%nat -> boundary g k ->
  exists l g', finishes g l g' /\ Forall2 (shows ostr) l (parse n ostr (drop k words)).1 /\
    optind g' = Z.of_nat (k + (parse n ostr (drop k words)).2).
Proof.
  assert (forall k g, boundary g k -> drop k words = [] -> exists g', getopt' g = Ok (-1, g') /\ optind g' = Z.of_nat k) as Hend.
  { intros k g (H1 & H2 & H3) Hd. unfold getopt, update_place. rewrite decide_False by lia. rewrite H3. cbn [cbind]. rewrite bool_decide_true by done.
    cbv zeta. cbn [optind set_optreset]. apply (f_equal length) in Hd. rewrite length_drop in Hd. simpl in Hd.
    rewrite decide_True by (rewrite length_words; lia). by eexists. }
  induction n as [|n IH]; intros k g Hn Hb; cbn [parse].
  { destruct (drop k words) eqn:Hd; [|simpl in Hn; lia]. destruct (Hend k g Hb Hd) as (g' & E & Ho). exists [], g'.
    split; [by apply fin_end|]. split; [constructor|]. simpl. lia. }
  destruct (drop k words) as [|w rest] eqn:Hd.
  { destruct (Hend k g Hb Hd) as (g' & E & Ho). exists [], g'. split; [by apply fin_end|]. split; [constructor|]. simpl. lia. }
  assert (words !! k = Some w) as Hw by (rewrite <- (Nat.add_0_r k), <- lookup_drop, Hd; done).
  assert (rest = drop (S k) words) as Hrest by (rewrite <- Nat.add_1_r, <- drop_drop, Hd; done).
  pose proof (update_boundary g k w Hb Hw) as Hu. destruct (letters w) as [[cs|]|].
  - destruct Hu as (Hne & Hasc & g1 & Eg & Hin). assert (after g1 k cs) as Haf by (by destruct cs).
    pose proof (cluster_ok k rest) as HC. destruct (cluster ostr cs rest) as [its [j|]] eqn:Ecl; cbn [fst snd] in *.
    + specialize (HC (parse n ostr (drop j (w :: rest))).1 (fun g'' => optind g'' = Z.of_nat (k + (j + (parse n ostr (drop j (w :: rest))).2))) Hrest cs g1 Haf Hasc).
      rewrite Ecl in HC. cbn [fst snd] in HC. destruct HC as (l & g'' & Hf & Hl & Ho).
      { intros g' Hb'. destruct (IH (k + j)%nat g') as (l & g'' & Hf & Hl & Ho); [|done|].
        - rewrite length_drop. apply (f_equal length) in Hd. rewrite length_drop in Hd. simpl in *.
          assert (j <> 0)%nat by (by eapply cluster_pos). lia.
        - rewrite <- drop_drop, Hd in Hl, Ho. exists l, g''. split_and!; [done|done|lia]. }
      exists l, g''. split_and!; [by eapply finishes_same|done|done].
    + specialize (HC [] (fun g'' => optind g'' = Z.of_nat (k + 0)) Hrest cs g1 Haf Hasc). rewrite Ecl in HC. cbn [fst snd] in HC.
      destruct HC as (l & g'' & Hf & Hl & Ho); [split; [done|]; intros; lia|]. rewrite app_nil_r in Hl.
      exists l, g''. split_and!; [by eapply finishes_same|done|done].
  - destruct Hu as (g' & E & Ho). exists [], g'. split; [by apply fin_end|]. split; [constructor|]. simpl. lia.
  - destruct Hu as (g' & E & Ho). exists [], g'. split; [by apply fin_end|]. split; [constructor|]. simpl. lia.
Qed.

End equivalence.

(** ** How many calls there are *)

Lemma cluster_length ostr cs rest : (length (cluster ostr cs rest).1 <= length cs)%nat.
Proof.
  induction cs as [|c cs IH]; cbn [cluster]; [done|]. destruct (option_of ostr c) as [[]|].
  - destruct cs; [destruct rest|]; simpl; lia.
  - simpl. lia.
  - case_decide; simpl; lia.
Qed.

Lemma letters_length w cs : letters w = Some (Some cs) -> (length cs <= length w)%nat.
Proof. unfold letters. destruct w as [|c [|d w]]; repeat case_decide; intros [= <-]; simpl; lia. Qed.

Definition size (ws : list (list Z)) : nat := sum_list (length <$> ws).

Lemma size_cons w ws : size (w :: ws) = (length w + size ws)%nat.
Proof. done. Qed.

Lemma size_drop k ws : (size (drop k ws) <= size ws)%nat.
Proof. revert k. induction ws as [|w ws IH]; intros [|k]; cbn [drop]; [done..|]. specialize (IH k). rewrite size_cons. lia. Qed.

Lemma parse_length n ostr : forall ws, (length (parse n ostr ws).1 <= size ws)%nat.
Proof.
  induction n as [|n IH]; intros [|w rest]; cbn [parse]; [simpl; lia..|]. destruct (letters w) as [[cs|]|] eqn:El; [|simpl; lia..].
  pose proof (letters_length _ _ El). pose proof (cluster_length ostr cs rest). destruct (cluster ostr cs rest) as [its [j|]] eqn:Ecl; cbn [fst snd] in *.
  - rewrite length_app. apply cluster_pos in Ecl. destruct j as [|j]; [done|]. cbn [drop]. specialize (IH (drop j rest)). pose proof (size_drop j rest).
    rewrite size_cons. lia.
  - rewrite size_cons. lia.
Qed.

(** ** The claims *)

(** The variables of a program that has not called getopt yet. *)
Definition initial (err : Z) : gst := GSt err 1 0 0 None EMSG [].

(** C39. A program whose arguments are ASCII and that calls getopt until it returns -1 sees exactly the options that
  a parser of the whole argument vector finds: the letters in their order, with the
  text of their arguments, the letters that are no options and the options whose
  argument is missing; optind is left at the first word that is not an option. The
  program needs no more calls than the words have letters, and none of them reads
  outside a string or the vector. *)
Theorem getopt_parses_argv nargv words ob ostr err fuel
  (Hargv : Forall2 (fun m w => str_at m 0 w) nargv words) (Hascii : Forall (Forall (fun c => 0 < c < 128)) words)
  (Hostr : str_at ob 0 ostr) (Hfuel : (size (drop 1 words) < fuel)%nat) :
  exists l g', getopt_all fuel (Z.of_nat (length nargv)) nargv ob (initial err) = Ok (l, g') /\
    let r := parse (length words) ostr (drop 1 words) in
    Forall2 (shows ostr) l r.1 /\ optind g' = Z.of_nat (1 + r.2).
Proof.
  destruct (parse_ok nargv words ob ostr Hargv Hascii Hostr (length words) 1 (initial err)) as (l & g' & Hf & Hl & Ho); [rewrite length_drop; lia|done|].
  exists l, g'. split; [|done]. eapply finishes_all; [done|]. rewrite (Forall2_length _ _ _ Hl).
  pose proof (parse_length (length words) ostr (drop 1 words)). lia.
Qed.

(** The command line: ls -la -o out file, with the option string alo: *)
Definition ex_words : list (list Z) := map cstr ["ls"; "-la"; "-o"; "out"; "file"]%string.
Definition ex_argv : list (list Z) := map (fun w => w ++ [0]) ex_words.
Definition ex_ostr : list Z := cstr "alo:".

Example ex_parse : parse 5 ex_ostr (drop 1 ex_words) = ([IOpt 108; IOpt 97; IArg 111 (cstr "out")], 3%nat).
Proof. reflexivity. Qed.

Lemma getopt_parses_argv_witness :
  exists l g', getopt_all 20 5 ex_argv (ex_ostr ++ [0]) (initial 1) = Ok (l, g') /\
    let r := parse 5 ex_ostr (drop 1 ex_words) in
    Forall2 (shows ex_ostr) l r.1 /\ optind g' = Z.of_nat (1 + r.2).
Proof.
  apply (getopt_parses_argv ex_argv ex_words (ex_ostr ++ [0]) ex_ostr 1 20).
  - unfold ex_argv, ex_words. simpl. repeat (constructor; [simpl; repeat split; lia|]). constructor.
  - apply (bool_decide_unpack _). vm_compute. exact I.
  - simpl. repeat split; lia.
  - vm_compute. lia.
Defined.

End Getopt.
