(* ===== verification/Vfs.v ===== *)
(** srv/vfs: the virtual file system server, with its root and boot file systems
  (vfs.c, fs.c, super.c, vnode.c, rootfs.c, bootfs.c, shm.c).

  The objects of the heap (superblocks, vnodes, cookies, clients) are maps from
  addresses; malloc gives out a new address and is taken to succeed.  A field that is
  read before it is set is [None].  The inodes of a mounted file system, which are
  never freed, are a list, and a pointer to one is its place in the list.  A function
  pointer of struct vnode_ops is an optional function, NULL being [None]; the tables of
  operations are selected by the file system, so that a superblock holds the name of its
  table.  [bd] is the area that holds the boot directory and the files behind it.

  The kernel's part is in the request: [e_names] is the contents of the area that the
  client passes names in, [e_port] the port that port_create returns and [e_junk] what
  the stack holds where shm_write_dir has its directory entry.  area_clone is taken to
  succeed.  Drivers that are loaded at run time are not modelled. *)
From S2P Require Import Prelude LibC Path Hash.
Import LibC.
Local Open Scope Z_scope.
Local Open Scope c_scope.

Module Vfs.

(** ** Data *)

Definition ENOENT : Z := 2.
Definition EBADF : Z := 9.
Definition ENOTDIR : Z := 20.
Definition EMFILE : Z := 24.
Definition ENOSYS : Z := 78.
Definition MAX_FDS : nat := 256.
Definition BLT_MAX_NAME_LENGTH : Z := 32.
Definition VFS_OK : Z := 1.
Definition VFS_ERROR : Z := 2.

(** A terminated string constant. *)
Definition lit (s : string) : list Z := cstr s ++ [0].

(** The file systems the server is linked with. *)
Inductive fs := rootfs | bootfs.
#[global] Instance fs_eq_dec : EqDecision fs.
Proof. solve_decision. Defined.
Definition fs_name (f : fs) : list Z := match f with rootfs => lit "rootfs" | bootfs => lit "bootfs" end.

Record rootfs_inode := RI { ri_ino : Z; ri_name : list Z }.
Record bootfs_inode := BI { bi_ino : Z; bi_offset : Z; bi_size : Z; bi_name : list Z }.
Inductive sbdata := NoData | RootData (l : list rootfs_inode) | BootData (l : list bootfs_inode).

Record vnode := Vnode { v_vnid : Z; v_refcount : Z; v_sb : Z; v_data : option nat }.
Record superblock := SB { sb_dir : list Z; sb_root : option Z; sb_vops : fs; sb_data : sbdata; sb_vnode_cache : Hash.hashtable }.

Record dirent := Dirent { d_fileno : Z; d_reclen : Z; d_name : list Z }.
(** union rootfs_cookie and bootfs_cookie. *)
Inductive cookie := DirCookie (head current : list dirent) | FileCookie (begin pos : Z).

Record ofile := OFile { o_vnode : Z; o_cookie : option Z; o_area : Z; o_offset : Z; o_length : Z; o_pos : option Z }.
Record client := Client { c_in : Z; c_out : Z; c_filename_area : Z; c_cwd : list Z; c_ofile : list (option ofile) }.

(** vfs_res_t; data[i] that is not written is [None]. *)
Record vres := VRes { r_status : Z; r_errno : Z; r_data : list (option Z) }.
Definition no_data : list (option Z) := replicate 6 None.
Definition verror (e : Z) : vres := VRes VFS_ERROR e no_data.

Record stat := Stat { st_ino : Z; st_nlink : Z; st_uid : Z; st_gid : Z; st_blksize : Z; st_size : Z; st_blocks : Z }.

Record vst := VSt {
  fs_drivers : list fs; supers : gmap Z superblock; mount_list : list Z; vnodes : gmap Z vnode;
  cookies : gmap Z cookie; clients : gmap Z client; conn_table : Hash.hashtable; heap_next : Z;
  root_max : Z; boot_max : Z; vfs_port : Z;
  (** whether the variable res of vfs_main is NULL, or points to a result that was freed *)
  stale_res : bool
}.

Definition set_drivers (s : vst) d := VSt d (supers s) (mount_list s) (vnodes s) (cookies s) (clients s) (conn_table s) (heap_next s) (root_max s) (boot_max s) (vfs_port s) (stale_res s).
Definition set_supers (s : vst) x := VSt (fs_drivers s) x (mount_list s) (vnodes s) (cookies s) (clients s) (conn_table s) (heap_next s) (root_max s) (boot_max s) (vfs_port s) (stale_res s).
Definition set_mounts (s : vst) x := VSt (fs_drivers s) (supers s) x (vnodes s) (cookies s) (clients s) (conn_table s) (heap_next s) (root_max s) (boot_max s) (vfs_port s) (stale_res s).
Definition set_vnodes (s : vst) x := VSt (fs_drivers s) (supers s) (mount_list s) x (cookies s) (clients s) (conn_table s) (heap_next s) (root_max s) (boot_max s) (vfs_port s) (stale_res s).
Definition set_cookies (s : vst) x := VSt (fs_drivers s) (supers s) (mount_list s) (vnodes s) x (clients s) (conn_table s) (heap_next s) (root_max s) (boot_max s) (vfs_port s) (stale_res s).
Definition set_clients (s : vst) x := VSt (fs_drivers s) (supers s) (mount_list s) (vnodes s) (cookies s) x (conn_table s) (heap_next s) (root_max s) (boot_max s) (vfs_port s) (stale_res s).
Definition set_conns (s : vst) x := VSt (fs_drivers s) (supers s) (mount_list s) (vnodes s) (cookies s) (clients s) x (heap_next s) (root_max s) (boot_max s) (vfs_port s) (stale_res s).
Definition set_next (s : vst) x := VSt (fs_drivers s) (supers s) (mount_list s) (vnodes s) (cookies s) (clients s) (conn_table s) x (root_max s) (boot_max s) (vfs_port s) (stale_res s).
Definition set_root_max (s : vst) x := VSt (fs_drivers s) (supers s) (mount_list s) (vnodes s) (cookies s) (clients s) (conn_table s) (heap_next s) x (boot_max s) (vfs_port s) (stale_res s).
Definition set_boot_max (s : vst) x := VSt (fs_drivers s) (supers s) (mount_list s) (vnodes s) (cookies s) (clients s) (conn_table s) (heap_next s) (root_max s) x (vfs_port s) (stale_res s).
Definition set_stale (s : vst) x := VSt (fs_drivers s) (supers s) (mount_list s) (vnodes s) (cookies s) (clients s) (conn_table s) (heap_next s) (root_max s) (boot_max s) (vfs_port s) x.

(** ** Computations on the server's state *)

Definition V (A : Type) : Type := vst -> cres (A * vst).
Definition vret {A} (a : A) : V A := fun s => Ok (a, s).
Definition vbind {A B} (m : V A) (k : A -> V B) : V B := fun s => let! (a, s1) := m s in k a s1.
Definition vlift {A} (r : cres A) : V A := fun s => let! a := r in Ok (a, s).
Definition vget_st {A} (f : vst -> A) : V A := fun s => Ok (f s, s).
Definition vmod (f : vst -> vst) : V unit := fun s => Ok (tt, f s).

Declare Scope vfs_scope.
Delimit Scope vfs_scope with vfs.
Bind Scope vfs_scope with V.
Notation "x <- m ;; k" := (vbind m (fun x => k))
  (at level 100, m at next level, right associativity) : vfs_scope.
Notation "m ;; k" := (vbind m (fun _ => k)) (at level 100, right associativity) : vfs_scope.
Local Open Scope vfs_scope.

Definition new_addr : V Z := fun s => Ok (heap_next s, set_next s (heap_next s + 1)).
Definition get_super (p : Z) : V superblock := fun s => let? x := supers s !! p in Ok (x, s).
Definition put_super (p : Z) (x : superblock) : V unit := vmod (fun s => set_supers s (<[p := x]> (supers s))).
Definition get_vnode (p : Z) : V vnode := fun s => let? x := vnodes s !! p in Ok (x, s).
Definition put_vnode (p : Z) (x : vnode) : V unit := vmod (fun s => set_vnodes s (<[p := x]> (vnodes s))).
Definition get_client (p : Z) : V client := fun s => let? x := clients s !! p in Ok (x, s).
Definition put_client (p : Z) (x : client) : V unit := vmod (fun s => set_clients s (<[p := x]> (clients s))).

(** ** Strings *)

(** malloc (strlen (s) + 1) filled by strcpy. *)
Definition str_copy (m : list Z) (p : Z) : cres (list Z) :=
  let! n := strlen m p in Ok (slice m p (Z.to_nat n) ++ [0]).

(** A little-endian int. *)
Definition rd_int (m : list Z) (p : Z) : cres Z :=
  let! a := rd m p in let! b := rd m (p + 1) in let! c := rd m (p + 2) in let! d := rd m (p + 3) in
  Ok (s32 (a + 256 * b + 65536 * c + 16777216 * d)).

(** ** vnode.c *)

(** Where the inode is that a vnode stands for. *)
Definition inode_index (d : sbdata) (vnid : Z) : option nat :=
  match d with
  | RootData l => fst <$> list_find (fun i => ri_ino i = vnid) l
  | BootData l => fst <$> list_find (fun i => bi_ino i = vnid) l
  | NoData => None
  end.

Definition rootfs_read_vnode (v : Z) : V Z :=
  x <- get_vnode v ;;
  sb <- get_super (v_sb x) ;;
  match inode_index (sb_data sb) (v_vnid x) with
  | Some i => put_vnode v (Vnode (v_vnid x) (v_refcount x) (v_sb x) (Some i)) ;; vret 0
  | None => vret (-1)
  end.

Definition bootfs_read_vnode (v : Z) : V Z :=
  x <- get_vnode v ;;
  sb <- get_super (v_sb x) ;;
  match inode_index (sb_data sb) (v_vnid x) with
  | Some i => put_vnode v (Vnode (v_vnid x) (v_refcount x) (v_sb x) (Some i)) ;; vret 0
  | None => vret 0
  end.

Definition op_read_vnode (f : fs) : Z -> V Z := match f with rootfs => rootfs_read_vnode | bootfs => bootfs_read_vnode end.

(** The lock of the vnode, which nothing takes, is left out. *)
Definition vget (super vnid : Z) : V Z :=
  v <- new_addr ;;
  put_vnode v (Vnode vnid 1 super None) ;;
  sb <- get_super super ;;
  _ <- op_read_vnode (sb_vops sb) v ;;
  vret v.

Definition rootfs_drop_vnode (v : Z) : V unit :=
  x <- get_vnode v ;; put_vnode v (Vnode (v_vnid x) (v_refcount x) (v_sb x) None).
Definition bootfs_drop_vnode (v : Z) : V unit := vret tt.

Definition vput (v : Z) : V unit :=
  x <- get_vnode v ;;
  sb <- get_super (v_sb x) ;;
  (match sb_vops sb with rootfs => rootfs_drop_vnode v | bootfs => bootfs_drop_vnode v end) ;;
  x <- get_vnode v ;;
  let n := u32 (v_refcount x - 1) in
  put_vnode v (Vnode (v_vnid x) n (v_sb x) (v_data x)) ;;
  if decide (n = 0) then vmod (fun s => set_vnodes s (delete v (vnodes s))) else vret tt.

(** ** rootfs.c *)

Definition rootfs_inew (m : list Z) (p : Z) : V rootfs_inode :=
  ino <- vget_st root_max ;;
  vmod (fun s => set_root_max s (root_max s + 1)) ;;
  name <- vlift (str_copy m p) ;;
  vret (RI ino name).

Definition set_data (x : superblock) (d : sbdata) : superblock := SB (sb_dir x) (sb_root x) (sb_vops x) d (sb_vnode_cache x).
Definition set_root (x : superblock) (v : Z) : superblock := SB (sb_dir x) (Some v) (sb_vops x) (sb_data x) (sb_vnode_cache x).

Definition rootfs_mount (super : Z) : V Z :=
  a <- rootfs_inew (lit ".") 0 ;;
  b <- rootfs_inew (lit "..") 0 ;;
  x <- get_super super ;;
  put_super super (set_data x (RootData [a; b])) ;;
  v <- vget super 0 ;;
  x <- get_super super ;;
  put_super super (set_root x v) ;;
  vret 0.

Definition rootfs_list (d : sbdata) : cres (list rootfs_inode) := match d with RootData l => Ok l | _ => Fault end.

(** The inodes from the one of the parent on; the number of the one with the name. *)
Fixpoint rootfs_walk_loop (l : list rootfs_inode) (m : list Z) (path : Z) : cres (option Z) :=
  match l with
  | [] => Ok None
  | i :: l => let! c := strcmp (ri_name i) 0 m path in if decide (c <> 0) then rootfs_walk_loop l m path else Ok (Some (ri_ino i))
  end.

Definition rootfs_walk (parent : Z) (m : list Z) (path : Z) : V (option Z) :=
  x <- get_vnode parent ;;
  i <- vlift (deref (v_data x)) ;;
  sb <- get_super (v_sb x) ;;
  l <- vlift (rootfs_list (sb_data sb)) ;;
  ino <- vlift (rootfs_walk_loop (drop i l) m path) ;;
  match ino with
  | Some n => v <- vget (v_sb x) n ;; vret (Some v)
  | None => vret None
  end.

Definition rootfs_mkdir (parent : Z) (m : list Z) (name mode : Z) : V Z :=
  x <- get_vnode parent ;;
  if decide (v_vnid x <> 0) then vret (-1) else
  inode <- rootfs_inew m name ;;
  sb <- get_super (v_sb x) ;;
  l <- vlift (rootfs_list (sb_data sb)) ;;
  match l with
  | [] => vlift Fault
  | _ => put_super (v_sb x) (set_data sb (RootData (l ++ [inode]))) ;; vret 0
  end.

(** ** Directories *)

Definition sizeof_dirent : Z := 40.
Definition name_space : list Z := replicate 33 0.

(** The entries that opendir lists: the last inode first. *)
Fixpoint list_dir (l : list (Z * list Z)) (head : list dirent) : cres (list dirent) :=
  match l with
  | [] => Ok head
  | (ino, name) :: l =>
      let! d := strncpy name_space 0 name 0 33 in
      list_dir l (Dirent (u32 ino) sizeof_dirent d :: head)
  end.

(** The inodes of a directory: number and name. *)
Definition inodes_of (d : sbdata) : list (Z * list Z) :=
  match d with
  | RootData l => map (fun i => (ri_ino i, ri_name i)) l
  | BootData l => map (fun i => (bi_ino i, bi_name i)) l
  | NoData => []
  end.

Definition new_cookie (c : cookie) : V Z :=
  p <- new_addr ;; vmod (fun s => set_cookies s (<[p := c]> (cookies s))) ;; vret p.

(** rootfs_opendir and bootfs_opendir: the error, and the cookie. *)
Definition dir_open (dir : Z) : V (Z * option Z) :=
  x <- get_vnode dir ;;
  if decide (v_vnid x <> 0) then vret (ENOTDIR, None) else
  sb <- get_super (v_sb x) ;;
  head <- vlift (list_dir (inodes_of (sb_data sb)) []) ;;
  c <- new_cookie (DirCookie head head) ;;
  vret (0, Some c).
Definition rootfs_opendir : Z -> V (Z * option Z) := dir_open.
Definition bootfs_opendir : Z -> V (Z * option Z) := dir_open.

Definition dir_cookie (c : Z) : V (list dirent * list dirent) :=
  fun s => match cookies s !! c with Some (DirCookie h l) => Ok ((h, l), s) | _ => Fault end.
Definition put_cookie (c : Z) (x : cookie) : V unit := vmod (fun s => set_cookies s (<[c := x]> (cookies s))).

Definition rootfs_closedir (dir : Z) (c : option Z) : V unit := vret tt.
Definition bootfs_closedir (dir : Z) (c : option Z) : V unit := vret tt.

(** rootfs_rewinddir and bootfs_rewinddir. *)
Definition dir_rewind (dir c : Z) : V Z :=
  hl <- dir_cookie c ;; put_cookie c (DirCookie (fst hl) (fst hl)) ;; vret 0.
Definition rootfs_rewinddir : Z -> Z -> V Z := dir_rewind.
Definition bootfs_rewinddir : Z -> Z -> V Z := dir_rewind.

(** rootfs_readdir and bootfs_readdir: the result, and the entry, which is given in the
  state it is found in. *)
Definition dir_read (dir : Z) (d : dirent) (c : Z) : V (Z * dirent) :=
  hl <- dir_cookie c ;;
  match snd hl with
  | [] => vret (1, d)
  | o :: l =>
      name <- vlift (strncpy (d_name d) 0 (d_name o) 0 (Z.to_nat BLT_MAX_NAME_LENGTH)) ;;
      put_cookie c (DirCookie (fst hl) l) ;;
      vret (0, Dirent (d_fileno o) (d_reclen o) name)
  end.
Definition rootfs_readdir : Z -> dirent -> Z -> V (Z * dirent) := dir_read.
Definition bootfs_readdir : Z -> dirent -> Z -> V (Z * dirent) := dir_read.

(** ** bootfs.c *)
Section boot.
Context (bd : list Z).

Definition BOOTDIR_NAMELEN : Z := 32.
Definition BOOTDIR_MAX_ENTRIES : nat := 64.

(** The fields of entry [i] of the boot directory. *)
Definition be_name (i : Z) : Z := 64 * i.
Definition be_offset (i : Z) : cres Z := rd_int bd (64 * i + 32).
Definition be_type (i : Z) : cres Z := rd_int bd (64 * i + 36).
Definition be_vsize (i : Z) : cres Z := rd_int bd (64 * i + 44).

Definition bootfs_inew (m : list Z) (name offset size : Z) : V bootfs_inode :=
  ino <- vget_st boot_max ;;
  vmod (fun s => set_boot_max s (boot_max s + 1)) ;;
  r <- vlift (strlcpy (replicate (Z.to_nat BOOTDIR_NAMELEN) 0) 0 m name BOOTDIR_NAMELEN) ;;
  vret (BI ino offset size (fst r)).

(** The loop over the entries, from [i] on. *)
Fixpoint bootfs_scan (i : Z) (l : list bootfs_inode) (n : nat) : V (list bootfs_inode) :=
  match n with
  | O => vret l
  | S n =>
      t <- vlift (be_type i) ;;
      c <- (if decide (t <> 0) then vlift (strcmp bd (be_name i) (lit "SBBB/Directory") 0) else vret 0) ;;
      if decide (t <> 0 /\ c <> 0) then
        o <- vlift (be_offset i) ;;
        v <- vlift (be_vsize i) ;;
        x <- bootfs_inew bd (be_name i) o v ;;
        bootfs_scan (i + 1) (x :: l) n
      else bootfs_scan (i + 1) l n
  end.

Definition bootfs_mount (super : Z) : V Z :=
  a <- bootfs_inew (lit ".") 0 0 0 ;;
  b <- bootfs_inew (lit "..") 0 0 0 ;;
  l <- bootfs_scan 0 [a; b] BOOTDIR_MAX_ENTRIES ;;
  x <- get_super super ;;
  put_super super (set_data x (BootData l)) ;;
  v <- vget super 0 ;;
  x <- get_super super ;;
  put_super super (set_root x v) ;;
  vret 0.

Definition bootfs_list (d : sbdata) : cres (list bootfs_inode) := match d with BootData l => Ok l | _ => Fault end.

Fixpoint bootfs_walk_loop (l : list bootfs_inode) (m : list Z) (path : Z) : cres (option Z) :=
  match l with
  | [] => Ok None
  | i :: l => let! c := strcmp (bi_name i) 0 m path in if decide (c = 0) then Ok (Some (bi_ino i)) else bootfs_walk_loop l m path
  end.

Definition bootfs_walk (parent : Z) (m : list Z) (path : Z) : V (option Z) :=
  x <- get_vnode parent ;;
  if decide (v_vnid x <> 0) then vret None else
  sb <- get_super (v_sb x) ;;
  l <- vlift (bootfs_list (sb_data sb)) ;;
  ino <- vlift (bootfs_walk_loop l m path) ;;
  match ino with
  | Some n => v <- vget (v_sb x) n ;; vret (Some v)
  | None => vret None
  end.

(** [inode = vnode->v_data;] *)
Definition bootfs_inode_of (v : Z) : V bootfs_inode :=
  x <- get_vnode v ;;
  sb <- get_super (v_sb x) ;;
  l <- vlift (bootfs_list (sb_data sb)) ;;
  i <- vlift (deref (v_data x)) ;;
  vlift (deref (l !! i)).

Definition bootfs_open (v : Z) : V (Z * option Z) :=
  i <- bootfs_inode_of v ;;
  c <- new_cookie (FileCookie (s32 (bi_offset i * 0x1000)) 0) ;;
  vret (0, Some c).

Definition bootfs_close (v : Z) (c : option Z) : V Z := vret 0.

(** free (cookie): a cookie that is not there any more, or never was, is not to be freed. *)
Definition bootfs_free_cookie (c : option Z) : V unit :=
  fun s => let? c := c in let? _ := cookies s !! c in Ok (tt, set_cookies s (delete c (cookies s))).

(** memcpy from the boot area. *)
Definition copy_out (p : Z) (n : nat) : cres (list Z) :=
  if decide (0 <= p /\ p + Z.of_nat n <= Z.of_nat (length bd)) then Ok (slice bd p n) else Fault.

(** The error, and what is copied to the buffer; *numread is its length. *)
Definition bootfs_read (v count offset : Z) (c : option Z) : V (Z * list Z) :=
  i <- bootfs_inode_of v ;;
  if decide (u32 (bi_size i) <= offset) then vret (0, []) else
  let src := s32 (bi_offset i * 0x1000) + offset in
  let left := u32 (bi_size i - offset) in
  let numread := if decide (count <= left) then count else left in
  buf <- vlift (copy_out src (Z.to_nat numread)) ;;
  vret (0, buf).

Definition bootfs_rstat (v : Z) : V (Z * option stat) :=
  i <- bootfs_inode_of v ;;
  let pages := Z.shiftr (bi_size i) 12 in
  vret (0, Some (Stat (bi_ino i) 0 0 0 512 (u32 (bi_size i))
    (u32 (if decide (Z.land (bi_size i) 0xfff <> 0) then pages + 1 else pages)))).

(** ** The tables of operations *)

Record vnode_ops := Ops {
  walk : option (Z -> list Z -> Z -> V (option Z));
  mount : option (Z -> V Z);
  mkdir : option (Z -> list Z -> Z -> Z -> V Z);
  opendir : option (Z -> V (Z * option Z));
  closedir : option (Z -> option Z -> V unit);
  free_dircookie : option (option Z -> V unit);
  rewinddir : option (Z -> Z -> V Z);
  readdir : option (Z -> dirent -> Z -> V (Z * dirent));
  open : option (Z -> V (Z * option Z));
  close : option (Z -> option Z -> V Z);
  free_cookie : option (option Z -> V unit);
  read : option (Z -> Z -> Z -> option Z -> V (Z * list Z));
  rstat : option (Z -> V (Z * option stat))
}.

Definition rootfs_vnode_ops : vnode_ops :=
  Ops (Some rootfs_walk) (Some rootfs_mount) (Some rootfs_mkdir) (Some rootfs_opendir) (Some rootfs_closedir) None
    (Some rootfs_rewinddir) (Some rootfs_readdir) None None None None None.
Definition bootfs_vnode_ops : vnode_ops :=
  Ops (Some bootfs_walk) (Some bootfs_mount) None (Some bootfs_opendir) (Some bootfs_closedir) None
    (Some bootfs_rewinddir) (Some bootfs_readdir) (Some bootfs_open) (Some bootfs_close) (Some bootfs_free_cookie)
    (Some bootfs_read) (Some bootfs_rstat).
Definition t_vops (f : fs) : vnode_ops := match f with rootfs => rootfs_vnode_ops | bootfs => bootfs_vnode_ops end.

(** A call through a table: through a NULL pointer it is a fault. *)
Definition call {A} (o : option A) : V A := vlift (deref o).

(** ** fs.c *)

(** The loop of fs_register; the driver at the end of the list is not compared. *)
Fixpoint register_loop (driver : fs) (l : list fs) : cres (option (list fs)) :=
  match l with
  | [] => Fault
  | [p] => Ok (Some (if decide (p = driver) then [p] else [p; driver]))
  | p :: l =>
      let! c := strcmp (fs_name p) 0 (fs_name driver) 0 in
      if decide (c = 0) then Ok None else
      let! r := register_loop driver l in Ok (cons p <$> r)
  end.

Definition fs_register (driver : fs) : V Z :=
  l <- vget_st fs_drivers ;;
  match l with
  | [] => vmod (fun s => set_drivers s [driver]) ;; vret 0
  | _ =>
      r <- vlift (register_loop driver l) ;;
      match r with
      | None => vret 1
      | Some l => vmod (fun s => set_drivers s l) ;; vret 0
      end
  end.

(** The mounted file system whose directory is the longest prefix of the name. *)
Fixpoint fs_find_loop (l : list Z) (m : list Z) (node bestlen : Z) (best : option Z) : V (option Z) :=
  match l with
  | [] => vret best
  | p :: l =>
      x <- get_super p ;;
      len <- vlift (strlen (sb_dir x) 0) ;;
      c <- vlift (strncmp (sb_dir x) 0 m node (Z.to_nat len)) ;;
      if decide (c = 0 /\ bestlen < len) then fs_find_loop l m node len (Some p) else fs_find_loop l m node bestlen best
  end.

Definition fs_find (m : list Z) (node : Z) : V (option Z) :=
  l <- vget_st mount_list ;; fs_find_loop l m node 0 None.

(** ** super.c *)

Fixpoint find_driver (l : list fs) (m : list Z) (type : Z) : cres (option fs) :=
  match l with
  | [] => Ok None
  | d :: l => let! c := strcmp (fs_name d) 0 m type in if decide (c = 0) then Ok (Some d) else find_driver l m type
  end.

(** [dir] and [type] are strings of their own; the two branches for the root are the same. *)
Definition vfs_mount (dir type : list Z) : V Z :=
  l <- vget_st fs_drivers ;;
  d <- vlift (find_driver l type 0) ;;
  match d with
  | None => vret 1
  | Some d =>
      super <- new_addr ;;
      name <- vlift (str_copy dir 0) ;;
      t <- vlift (Hash.hashtable_new 3 4) ;;
      put_super super (SB name None d NoData t) ;;
      f <- call (mount (t_vops d)) ;;
      res <- f super ;;
      if decide (res = 0) then vmod (fun s => set_mounts s (super :: mount_list s)) ;; vret res else vret res
  end.

(** ** shm.c *)

(** [for (i = 0; i < skip; i++) ops->readdir (vnode, &dirent, ofile->o_cookie);] *)
Fixpoint skip_loop (f : Z -> dirent -> Z -> V (Z * dirent)) (v c : Z) (d : dirent) (n : nat) : V dirent :=
  match n with
  | O => vret d
  | S n => r <- f v d c ;; skip_loop f v c (snd r) n
  end.

(** The loop that copies entries: the final [i], and the places written with what is written. *)
Fixpoint copy_loop (f : Z -> dirent -> Z -> V (Z * dirent)) (v c doff : Z) (d : dirent) (i : Z) (n : nat)
  : V (Z * list (Z * dirent)) :=
  match n with
  | O => vret (i, [])
  | S n =>
      r <- f v d c ;;
      if decide (fst r = 0) then
        w <- copy_loop f v c doff (snd r) (i + 1) n ;;
        vret (fst w, (doff + i * sizeof_dirent, snd r) :: snd w)
      else vret (i + 1, [])
  end.

(** *numents, *more and what is written to the shared area. *)
Definition shm_write_dir (o : ofile) (skip doff len : Z) (junk : dirent) : V (Z * Z * list (Z * dirent)) :=
  x <- get_vnode (o_vnode o) ;;
  sb <- get_super (v_sb x) ;;
  rewind <- call (rewinddir (t_vops (sb_vops sb))) ;;
  next <- call (readdir (t_vops (sb_vops sb))) ;;
  c <- vlift (deref (o_cookie o)) ;;
  _ <- rewind (o_vnode o) c ;;
  d <- skip_loop next (o_vnode o) c junk (Z.to_nat skip) ;;
  r <- copy_loop next (o_vnode o) c doff d 0 (Z.to_nat (u32 len / sizeof_dirent)) ;;
  vret (if decide (fst r = 0) then 0 else fst r - 1, 0, snd r).

(** shm_write is compiled out. *)
Definition shm_write : V unit := vret tt.

(** ** vfs.c *)

(** A request: the sender, the command and its arguments, and what the kernel provides. *)
Record request := Req {
  q_src : Z; q_cmd : Z; q_data : list Z; e_names : list Z; e_port : Z; e_junk : dirent
}.
Definition arg (q : request) (i : Z) : V Z := vlift (deref (aget (q_data q) i)).

Definition vfs_openconn (rport area port : Z) : V vres :=
  p <- new_addr ;;
  put_client p (Client rport port area (lit "/" ++ replicate 30 0) (replicate MAX_FDS None)) ;;
  t <- vget_st conn_table ;;
  t <- vlift (Hash.hashtable_insert t rport p 1044) ;;
  vmod (fun s => set_conns s t) ;;
  vret (VRes VFS_OK 0 (<[0%nat := Some port]> no_data)).

(** The open file behind a descriptor. *)
Definition get_ofile (cl fd : Z) : V (option ofile) :=
  c <- get_client cl ;; vlift (deref (aget (c_ofile c) fd)).
Definition set_ofile (cl fd : Z) (o : option ofile) : V unit :=
  c <- get_client cl ;;
  l <- vlift (deref (aset (c_ofile c) fd o)) ;;
  put_client cl (Client (c_in c) (c_out c) (c_filename_area c) (c_cwd c) l).

Definition vfs_scroll_area (cl : Z) (q : request) : V vres :=
  fd <- arg q 0 ;;
  o <- get_ofile cl fd ;;
  _ <- vlift (deref o) ;;
  shm_write ;;
  vret (VRes VFS_OK 0 no_data).

Definition vfs_mkdir (m : list Z) (dir mode : Z) : V Z :=
  p <- fs_find m dir ;;
  p <- vlift (deref p) ;;
  sb <- get_super p ;;
  match mkdir (t_vops (sb_vops sb)) with
  | None => vret ENOSYS
  | Some f =>
      v <- vlift (deref (sb_root sb)) ;;
      n <- vlift (strlen (sb_dir sb) 0) ;;
      f v m (dir + n) mode
  end.

(** The first free descriptor. *)
Definition free_fd (l : list (option ofile)) : option nat := fst <$> list_find (fun o => o = None) l.

(** path_combine into a buffer of BLT_MAX_NAME_LENGTH bytes that holds the working
  directory. *)
Definition full_name (cwd m : list Z) (p : Z) : cres (list Z) :=
  let! r := strlcpy (replicate (Z.to_nat BLT_MAX_NAME_LENGTH) 0) 0 cwd 0 BLT_MAX_NAME_LENGTH in
  Path.path_combine cwd 0 m p (fst r) 0.

Definition vfs_opendir (cl : Z) (q : request) : V vres :=
  reldir <- arg q 0 ;;
  c <- get_client cl ;;
  match free_fd (c_ofile c) with
  | None => vret (verror EMFILE)
  | Some i =>
      dir <- vlift (full_name (c_cwd c) (e_names q) reldir) ;;
      p <- fs_find dir 0 ;;
      match p with
      | None => vret (verror ENOENT)
      | Some p =>
          sb <- get_super p ;;
          match opendir (t_vops (sb_vops sb)) with
          | None => vret (verror ENOSYS)
          | Some f =>
              k <- vlift (strcmp dir 0 (sb_dir sb) 0) ;;
              root <- vlift (deref (sb_root sb)) ;;
              n <- vlift (strlen (sb_dir sb) 0) ;;
              v <- (if decide (k = 0) then vret (Some root) else
                    w <- call (walk (t_vops (sb_vops sb))) ;; w root dir (n + 1)) ;;
              match v with
              | None => vret (verror ENOENT)
              | Some v =>
                  area <- arg q 1 ;; off <- arg q 2 ;; len <- arg q 3 ;;
                  set_ofile cl (Z.of_nat i) (Some (OFile v None area off len None)) ;;
                  r <- f v ;;
                  set_ofile cl (Z.of_nat i) (Some (OFile v (snd r) area off len None)) ;;
                  vret (VRes (if decide (fst r = 0) then VFS_OK else VFS_ERROR) (fst r) (<[0%nat := Some (Z.of_nat i)]> no_data))
              end
          end
      end
  end.

Definition vfs_closedir (cl : Z) (q : request) : V vres :=
  fd <- arg q 0 ;;
  o <- get_ofile cl fd ;;
  match o with
  | None => vret (verror EBADF)
  | Some o =>
      x <- get_vnode (o_vnode o) ;;
      sb <- get_super (v_sb x) ;;
      match closedir (t_vops (sb_vops sb)) with
      | None => vret (verror ENOSYS)
      | Some f =>
          f (o_vnode o) (o_cookie o) ;;
          (match free_dircookie (t_vops (sb_vops sb)) with None => vret tt | Some g => g (o_cookie o) end) ;;
          set_ofile cl fd None ;;
          vret (VRes VFS_OK 0 no_data)
      end
  end.

Definition vfs_open (cl : Z) (q : request) : V vres :=
  path <- arg q 0 ;;
  c <- get_client cl ;;
  match free_fd (c_ofile c) with
  | None => vret (verror EMFILE)
  | Some i =>
      p <- fs_find (e_names q) path ;;
      match p with
      | None => vret (verror ENOENT)
      | Some p =>
          sb <- get_super p ;;
          match open (t_vops (sb_vops sb)) with
          | None => vret (verror ENOSYS)
          | Some f =>
              w <- call (walk (t_vops (sb_vops sb))) ;;
              root <- vlift (deref (sb_root sb)) ;;
              n <- vlift (strlen (sb_dir sb) 0) ;;
              v <- w root (e_names q) (path + n + 1) ;;
              match v with
              | None => vret (verror ENOENT)
              | Some v =>
                  area <- arg q 1 ;; off <- arg q 2 ;; len <- arg q 3 ;;
                  set_ofile cl (Z.of_nat i) (Some (OFile v None area off len (Some 0))) ;;
                  r <- f v ;;
                  set_ofile cl (Z.of_nat i) (Some (OFile v (snd r) area off len (Some 0))) ;;
                  vret (VRes (if decide (fst r = 0) then VFS_OK else VFS_ERROR) (fst r) (<[0%nat := Some (Z.of_nat i)]> no_data))
              end
          end
      end
  end.

(** The descriptor stays in use. *)
Definition vfs_close (cl : Z) (q : request) : V vres :=
  fd <- arg q 0 ;;
  o <- get_ofile cl fd ;;
  match o with
  | None => vret (verror EBADF)
  | Some o =>
      x <- get_vnode (o_vnode o) ;;
      sb <- get_super (v_sb x) ;;
      match close (t_vops (sb_vops sb)) with
      | None => vret (verror ENOSYS)
      | Some f =>
          e <- f (o_vnode o) (o_cookie o) ;;
          (match free_cookie (t_vops (sb_vops sb)) with None => vret tt | Some g => g (o_cookie o) end) ;;
          vret (VRes (if decide (e = 0) then VFS_OK else VFS_ERROR) e no_data)
      end
  end.

(** The result, and *data when it is set; *len is its length. *)
Definition vfs_read (cl : Z) (q : request) : V (vres * option (list Z)) :=
  count <- arg q 1 ;;
  fd <- arg q 0 ;;
  o <- get_ofile cl fd ;;
  match o with
  | None => vret (verror EBADF, None)
  | Some o =>
      x <- get_vnode (o_vnode o) ;;
      sb <- get_super (v_sb x) ;;
      match read (t_vops (sb_vops sb)) with
      | None => vret (verror ENOSYS, None)
      | Some f =>
          pos <- vlift (deref (o_pos o)) ;;
          r <- f (o_vnode o) count (u32 pos) (o_cookie o) ;;
          let numread := Z.of_nat (length (snd r)) in
          set_ofile cl fd (Some (OFile (o_vnode o) (o_cookie o) (o_area o) (o_offset o) (o_length o) (Some (s32 (pos + numread))))) ;;
          vret (VRes (if decide (fst r = 0) then VFS_OK else VFS_ERROR) (fst r) (<[0%nat := Some numread]> no_data), Some (snd r))
      end
  end.

Definition vfs_rstat (cl : Z) (q : request) : V (vres * option stat) :=
  path <- arg q 0 ;;
  _ <- get_client cl ;;
  p <- fs_find (e_names q) path ;;
  match p with
  | None => vret (verror ENOENT, None)
  | Some p =>
      sb <- get_super p ;;
      match rstat (t_vops (sb_vops sb)) with
      | None => vret (verror ENOSYS, None)
      | Some f =>
          w <- call (walk (t_vops (sb_vops sb))) ;;
          root <- vlift (deref (sb_root sb)) ;;
          n <- vlift (strlen (sb_dir sb) 0) ;;
          v <- w root (e_names q) (path + n + 1) ;;
          match v with
          | None => vret (verror ENOENT, None)
          | Some v =>
              r <- f v ;;
              vret (VRes (if decide (fst r = 0) then VFS_OK else VFS_ERROR) (fst r) no_data, snd r)
          end
      end
  end.

(** ** The loop of vfs_main *)

(** A message to the client: a result, with a struct stat behind it, or file data. *)
Inductive payload := PRes (r : vres) | PStat (r : vres) (st : option stat) | PData (l : list Z).
Record reply := Reply { m_src : Z; m_dst : Z; m_payload : payload }.

(** [for (i = 0; len > 0x1000; i += 0x1000, len -= 0x1000)] and the message behind it. *)
Fixpoint chunk_loop (data : list Z) (fuel : nat) : list (list Z) :=
  match fuel with
  | O => [data]
  | S fuel => if decide (0x1000 < Z.of_nat (length data)) then take 4096 data :: chunk_loop (drop 4096 data) fuel else [data]
  end.
Definition send_data (data : list Z) : list (list Z) :=
  if decide (Z.of_nat (length data) < 0x1000) then [data] else chunk_loop data (length data).

Definition VFS_OPENCONN : Z := 1.
Definition VFS_MKDIR : Z := 10.
Definition VFS_OPENDIR : Z := 17.
Definition VFS_CLOSEDIR : Z := 18.
Definition VFS_SCROLL_AREA : Z := 19.
Definition VFS_OPEN : Z := 21.
Definition VFS_CLOSE : Z := 22.
Definition VFS_READ : Z := 23.
Definition VFS_RSTAT : Z := 27.

(** data[1] and data[2] after shm_write_dir. *)
Definition listed (r : vres) (n more : Z) : vres := VRes (r_status r) (r_errno r) (<[2%nat := Some more]> (<[1%nat := Some n]> (r_data r))).

(** What the switch makes of a request: the reply, file data, and what is written to the
  area the client shares; None for a command it does not know. *)
Definition dispatch (cl : Z) (q : request) : V (option (payload * option (list Z) * list (Z * dirent))) :=
  if decide (q_cmd q = VFS_OPENCONN) then
    area <- arg q 0 ;; r <- vfs_openconn (q_src q) area (e_port q) ;; vret (Some (PRes r, None, []))
  else if decide (q_cmd q = VFS_SCROLL_AREA) then r <- vfs_scroll_area cl q ;; vret (Some (PRes r, None, []))
  else if decide (q_cmd q = VFS_OPENDIR) then
    r <- vfs_opendir cl q ;;
    if decide (r_status r = VFS_OK) then
      fd <- vlift (deref (mjoin (r_data r !! 0%nat))) ;;
      o <- get_ofile cl fd ;;
      o <- vlift (deref o) ;;
      len <- arg q 3 ;;
      w <- shm_write_dir o 0 0 (s32 len) (e_junk q) ;;
      vret (Some (PRes (listed r (fst (fst w)) (snd (fst w))), None, snd w))
    else vret (Some (PRes r, None, []))
  else if decide (q_cmd q = VFS_CLOSEDIR) then r <- vfs_closedir cl q ;; vret (Some (PRes r, None, []))
  else if decide (q_cmd q = VFS_OPEN) then
    r <- vfs_open cl q ;;
    (if decide (r_status r = VFS_OK) then shm_write else vret tt) ;;
    vret (Some (PRes r, None, []))
  else if decide (q_cmd q = VFS_CLOSE) then r <- vfs_close cl q ;; vret (Some (PRes r, None, []))
  else if decide (q_cmd q = VFS_READ) then r <- vfs_read cl q ;; vret (Some (PRes (fst r), snd r, []))
  else if decide (q_cmd q = VFS_RSTAT) then r <- vfs_rstat cl q ;; vret (Some (PStat (fst r) (snd r), None, []))
  else if decide (q_cmd q = VFS_MKDIR) then
    c <- get_client cl ;;
    name <- arg q 0 ;; mode <- arg q 1 ;;
    r <- vfs_mkdir (e_names q) name mode ;;
    vret (Some (PRes (VRes (u32 r) 0 no_data), None, []))
  else vret None.

(** One turn of the loop: the messages that are sent and what is written to the shared
  area.  A command that is not known finds the result of the turn before in [res], which
  was freed. *)
Definition serve (q : request) : V (list reply * list (Z * dirent)) :=
  t <- vget_st conn_table ;;
  cl <- (if decide (q_cmd q <> VFS_OPENCONN) then r <- vlift (Hash.hashtable_lookup t (q_src q)) ;; vret (fst r) else vret 0) ;;
  r <- dispatch cl q ;;
  match r with
  | None => stale <- vget_st stale_res ;; if stale then vlift Fault else vret ([], [])
  | Some (p, data, w) =>
      src <- (if decide (q_cmd q = VFS_OPENCONN) then vget_st vfs_port else c <- get_client cl ;; vret (c_out c)) ;;
      vmod (fun s => set_stale s true) ;;
      match data with
      | None => vret ([Reply src (q_src q) p], w)
      | Some l => vret (Reply src (q_src q) p :: map (fun x => Reply src (q_src q) (PData x)) (send_data l), w)
      end
  end.

(** What vfs_main does before its loop; [port] is the port it is given. *)
Definition vfs_init (port : Z) : cres vst :=
  let! t := Hash.hashtable_new 3 4 in
  let s := VSt [] ∅ [] ∅ ∅ ∅ t 1 0 0 port false in
  let! r := (_ <- fs_register rootfs ;;
    _ <- fs_register bootfs ;;
    _ <- vfs_mount (lit "/") (lit "rootfs") ;;
    _ <- vfs_mkdir (lit "/boot") 0 755 ;;
    _ <- vfs_mount (lit "/boot") (lit "bootfs") ;;
    vret tt) s in
  Ok (snd r).
End boot.

End Vfs.
