(* ===== verification/VfsInv.v ===== *)
(** The invariant of the vfs server, and what its operations do to it.

  [vwp m Q s] says that [m] returns from [s], without a fault, and that [Q] holds of its
  result and of the state then. *)
From S2P Require Import Prelude LibC Path Hash Vfs.
Import LibC Vfs.
Local Open Scope Z_scope.
Local Open Scope c_scope.
Local Open Scope vfs_scope.

Module VfsInv.

(** ** Total correctness *)

Definition vwp {A} (m : V A) (Q : A -> vst -> Prop) (s : vst) : Prop := exists a s', m s = Ok (a, s') /\ Q a s'.

Section rules.
Context {A B : Type}.

Lemma vwp_bind (m : V B) (k : B -> V A) Q s : vwp m (fun b s' => vwp (k b) Q s') s -> vwp (b <- m ;; k b) Q s.
Proof. intros (b & s' & E & a & s2 & E2 & H). exists a, s2. unfold vbind. by rewrite E. Qed.

Lemma vwp_bind_inv (m : V B) (k : B -> V A) Q s : vwp (b <- m ;; k b) Q s -> vwp m (fun b s' => vwp (k b) Q s') s.
Proof.
  intros (a & s2 & E & H). unfold vbind in E. destruct (m s) as [[b s']| |] eqn:Em; [|done|done]. exists b, s'. split; [done|]. by exists a, s2.
Qed.

Lemma vwp_ret (a : A) (Q : A -> vst -> Prop) s : Q a s -> vwp (vret a) Q s.
Proof. by exists a, s. Qed.

Lemma vwp_mono (m : V A) (Q Q' : A -> vst -> Prop) s : vwp m Q s -> (forall a s', Q a s' -> Q' a s') -> vwp m Q' s.
Proof. intros (a & s' & E & H) HQ. exists a, s'. auto. Qed.

Lemma vwp_lift (r : cres A) a (Q : A -> vst -> Prop) s : r = Ok a -> Q a s -> vwp (vlift r) Q s.
Proof. intros -> H. by exists a, s. Qed.

Lemma vwp_deref (o : option A) a (Q : A -> vst -> Prop) s : o = Some a -> Q a s -> vwp (vlift (deref o)) Q s.
Proof. intros ->. by apply vwp_lift. Qed.

Lemma vwp_call (o : option A) a (Q : A -> vst -> Prop) s : o = Some a -> Q a s -> vwp (call o) Q s.
Proof. apply vwp_deref. Qed.

Lemma vwp_st (f : vst -> A) (Q : A -> vst -> Prop) s : Q (f s) s -> vwp (vget_st f) Q s.
Proof. by exists (f s), s. Qed.

Lemma vwp_if (P : Prop) `{Decision P} (m1 m2 : V A) Q s :
  (P -> vwp m1 Q s) -> (~ P -> vwp m2 Q s) -> vwp (if decide P then m1 else m2) Q s.
Proof. intros H1 H2. destruct (decide P); auto. Qed.

Lemma vwp_Ok (m : V A) Q s a s' : vwp m Q s -> m s = Ok (a, s') -> Q a s'.
Proof. intros (b & s2 & E & H) E'. rewrite E' in E. by simplify_eq. Qed.
End rules.

Lemma vwp_mod f (Q : unit -> vst -> Prop) s : Q tt (f s) -> vwp (vmod f) Q s.
Proof. by exists tt, (f s). Qed.
Lemma vwp_new (Q : Z -> vst -> Prop) s : Q (heap_next s) (set_next s (heap_next s + 1)) -> vwp new_addr Q s.
Proof. intros H. by eexists _, _. Qed.
Lemma vwp_get_super p x (Q : superblock -> vst -> Prop) s : supers s !! p = Some x -> Q x s -> vwp (get_super p) Q s.
Proof. intros E H. exists x, s. unfold get_super. by rewrite E. Qed.
Lemma vwp_get_vnode p x (Q : vnode -> vst -> Prop) s : vnodes s !! p = Some x -> Q x s -> vwp (get_vnode p) Q s.
Proof. intros E H. exists x, s. unfold get_vnode. by rewrite E. Qed.
Lemma vwp_get_client p x (Q : client -> vst -> Prop) s : clients s !! p = Some x -> Q x s -> vwp (get_client p) Q s.
Proof. intros E H. exists x, s. unfold get_client. by rewrite E. Qed.

Ltac vstep :=
  match goal with
  | |- vwp (vbind _ _) _ _ => apply vwp_bind
  | |- vwp (vret _) _ _ => apply vwp_ret
  | |- vwp (vget_st _) _ _ => apply vwp_st
  | |- vwp (vmod _) _ _ => apply vwp_mod
  | |- vwp (put_super _ _) _ _ => apply vwp_mod
  | |- vwp (put_vnode _ _) _ _ => apply vwp_mod
  | |- vwp (put_client _ _) _ _ => apply vwp_mod
  | |- vwp (put_cookie _ _) _ _ => apply vwp_mod
  | |- vwp (new_cookie _) _ _ => unfold new_cookie
  | |- vwp new_addr _ _ => apply vwp_new
  | |- vwp (call (Some _)) _ _ => eapply vwp_call; [reflexivity|]
  end; cbn beta.
Ltac vread :=
  first [ eapply vwp_get_super | eapply vwp_get_vnode | eapply vwp_get_client | eapply vwp_deref | eapply vwp_lift ];
  [ first [ eassumption | simpl; eassumption | by simplify_map_eq ] | ]; cbn beta.
Ltac vgo := repeat first [ vstep | vread ].

(** ** The invariant *)

Definition is_str (m : list Z) (p : Z) : Prop := exists str, str_at m p str.

Section invariant.
Context (bd : list Z).

(** The file is inside the boot area. *)
Definition file_ok (i : bootfs_inode) : Prop :=
  0 <= bi_size i < 2 ^ 31 /\ 0 <= s32 (bi_offset i * 0x1000) /\ s32 (bi_offset i * 0x1000) + bi_size i <= Z.of_nat (length bd).

Definition data_ok (f : fs) (d : sbdata) : Prop :=
  match f, d with
  | rootfs, RootData l => l <> [] /\ Forall (fun i => is_str (ri_name i) 0) l
  | bootfs, BootData l => Forall (fun i => is_str (bi_name i) 0 /\ file_ok i) l
  | _, _ => False
  end.

(** A mounted file system: its directory is a string, its data is of its kind, and its
  root is vnode 0. *)
Record super_ok (s : vst) (p : Z) (x : superblock) : Prop := {
  so_dir : is_str (sb_dir x) 0;
  so_data : data_ok (sb_vops x) (sb_data x);
  so_root : exists v y, sb_root x = Some v /\ vnodes s !! v = Some y /\ v_vnid y = 0 /\ v_sb y = p
}.

(** A vnode stands for an inode of its file system. *)
Definition vnode_ok (s : vst) (y : vnode) : Prop :=
  exists sb i, supers s !! v_sb y = Some sb /\ v_data y = Some i /\ (i < length (inodes_of (sb_data sb)))%nat.

(** The working directory of every client is the root. *)
Definition root_cwd : list Z := lit "/" ++ replicate 30 0.

Definition ofile_ok (s : vst) (o : ofile) : Prop := is_Some (vnodes s !! o_vnode o).
Definition client_ok (s : vst) (c : client) : Prop :=
  length (c_ofile c) = MAX_FDS /\ c_cwd c = root_cwd /\ forall i o, c_ofile c !! i = Some (Some o) -> ofile_ok s o.

(** The connections: the table finds the clients by their ports. *)
Definition conns_ok (s : vst) : Prop :=
  (exists ts, Hash.ht_wf ts (conn_table s)) /\
  forall k p d, Hash.contents (Hash.table (conn_table s)) !! k = Some (p, d) -> exists c, clients s !! p = Some c /\ c_in c = k.

Record wf (s : vst) : Prop := {
  w_mount : forall p, p ∈ mount_list s -> is_Some (supers s !! p);
  w_super : forall p x, supers s !! p = Some x -> super_ok s p x;
  w_vnode : forall v y, vnodes s !! v = Some y -> vnode_ok s y;
  w_client : forall p c, clients s !! p = Some c -> client_ok s c;
  w_conns : conns_ok s;
  w_next : 0 < heap_next s;
  w_fresh : forall k, k <= 0 \/ heap_next s <= k -> vnodes s !! k = None /\ cookies s !! k = None /\ clients s !! k = None;
  w_root : exists p x, (p ∈ mount_list s) /\ supers s !! p = Some x /\ str_at (sb_dir x) 0 [47]
}.

(** What the operations of a file system leave as it is. *)
Record keeps (s s' : vst) : Prop := {
  k_mounts : mount_list s' = mount_list s;
  k_supers : supers s' = supers s;
  k_clients : clients s' = clients s;
  k_conns : conn_table s' = conn_table s;
  k_port : vfs_port s' = vfs_port s;
  k_vnodes : vnodes s ⊆ vnodes s';
  k_next : heap_next s <= heap_next s'
}.

#[global] Instance keeps_refl : Reflexive keeps.
Proof. intros s. split; [done..|lia]. Qed.
#[global] Instance keeps_trans : Transitive keeps.
Proof.
  intros s1 s2 s3 [] []. split; try congruence; [|lia]. by etrans.
Qed.

Lemma client_ok_mono s s' c : vnodes s ⊆ vnodes s' -> client_ok s c -> client_ok s' c.
Proof.
  intros Hs (H1 & H2 & H3). split_and!; [done|done|]. intros i o Hi. destruct (H3 i o Hi) as [y Hy]. exists y. by eapply lookup_weaken.
Qed.

Lemma super_ok_mono s s' p x : vnodes s ⊆ vnodes s' -> super_ok s p x -> super_ok s' p x.
Proof.
  intros Hs [H1 H2 (v & y & Hv & Hy & H3)]. split; [done|done|]. exists v, y. split_and!; [done| |apply H3..]. by eapply lookup_weaken.
Qed.

(** ** The ways the state changes *)

(** A new vnode. *)
Definition with_vnode (s : vst) (y : vnode) : vst :=
  set_vnodes (set_next s (heap_next s + 1)) (<[heap_next s := y]> (vnodes s)).

Lemma with_vnode_sub s y : wf s -> vnodes s ⊆ <[heap_next s := y]> (vnodes s).
Proof. intros W. apply insert_subseteq. apply (w_fresh s W). lia. Qed.

Lemma wf_vnode s y : wf s -> vnode_ok s y -> wf (with_vnode s y).
Proof.
  intros W Hy. pose proof (with_vnode_sub s y W) as Hsub. destruct W as [W1 W2 W3 W4 W5 W6 W7 W8]. split; simpl.
  - done.
  - intros p x Hx. by eapply (super_ok_mono s), W2.
  - intros v z [[<- <-]|[_ Hz]]%lookup_insert_Some; [done|]. by apply (W3 v z).
  - intros p c Hc. by eapply (client_ok_mono s), (W4 p).
  - done.
  - lia.
  - intros k Hk. destruct (W7 k) as (H1 & H2 & H3); [lia|]. split_and!; [|done|done]. rewrite lookup_insert_ne by lia. done.
  - done.
Qed.

Lemma keeps_vnode s y : wf s -> keeps s (with_vnode s y).
Proof. intros W. split; try done; simpl; [by apply with_vnode_sub|lia]. Qed.

(** Other cookies. *)
Definition with_cookies (s : vst) (c : gmap Z cookie) (n : Z) : vst := set_cookies (set_next s n) c.

Lemma wf_cookies s c n : wf s -> heap_next s <= n -> (forall k, k <= 0 \/ n <= k -> c !! k = None) -> wf (with_cookies s c n).
Proof.
  intros [W1 W2 W3 W4 W5 W6 W7 W8] Hn Hc. split; simpl; try done.
  - intros p x Hx. destruct (W2 p x Hx) as [A1 A2 A3]. by split.
  - lia.
  - intros k Hk. destruct (W7 k) as (H1 & H2 & H3); [lia|]. split_and!; [done|by apply Hc|done].
Qed.

Lemma keeps_cookies s c n : heap_next s <= n -> keeps s (with_cookies s c n).
Proof. intros Hn. split; done. Qed.

(** Another entry of a table of descriptors. *)
Definition with_ofile (s : vst) (cl : Z) (c : client) (fd : nat) (o : option ofile) : vst :=
  set_clients s (<[cl := Client (c_in c) (c_out c) (c_filename_area c) (c_cwd c) (<[fd := o]> (c_ofile c))]> (clients s)).

Lemma wf_ofile s cl c fd o : wf s -> clients s !! cl = Some c -> (forall x, o = Some x -> ofile_ok s x) -> wf (with_ofile s cl c fd o).
Proof.
  intros [W1 W2 W3 W4 W5 W6 W7 W8] Hc Ho. destruct (W4 cl c Hc) as (H1 & H2 & H3). split; simpl; try done.
  - intros p x Hx. destruct (W2 p x Hx) as [A1 A2 A3]. by split.
  - intros p d [[<- <-]|[_ Hd]]%lookup_insert_Some; [|by apply (W4 p)]. split_and!; simpl; [by rewrite length_insert|done|].
    intros i x [(_ & Hx & _)|[_ Hx]]%list_lookup_insert_Some; [by apply Ho|by eapply H3].
  - destruct W5 as [A1 A2]. split; [done|]. intros k p d Hk. destruct (A2 k p d Hk) as (z & Hz & Hin). simpl.
    destruct (decide (p = cl)) as [->|]; [|exists z; by rewrite lookup_insert_ne]. simplify_eq. eexists. by rewrite lookup_insert_eq.
  - intros k Hk. destruct (W7 k Hk) as (A1 & A2 & A3). split_and!; [done|done|]. rewrite lookup_insert_ne; [done|]. intros <-. congruence.
Qed.

(** A new directory in the root file system. *)
Lemma inodes_grow l i : inodes_of (RootData (l ++ [i])) = inodes_of (RootData l) ++ [(ri_ino i, ri_name i)].
Proof. simpl. by rewrite map_app. Qed.

Lemma wf_mkdir s p x l i : wf s -> supers s !! p = Some x -> sb_data x = RootData l -> is_str (ri_name i) 0 ->
  wf (set_supers s (<[p := set_data x (RootData (l ++ [i]))]> (supers s))).
Proof.
  intros [W1 W2 W3 W4 W5 W6 W7 W8] Hx Hl Hi. split; simpl; try done.
  - intros q Hq. destruct (W1 q Hq) as [z Hz]. destruct (decide (q = p)) as [->|]; [by rewrite lookup_insert_eq|by rewrite lookup_insert_ne].
  - intros q z [[<- <-]|[_ Hz]]%lookup_insert_Some.
    + destruct (W2 p x Hx) as [A1 A2 A3]. split; [done| |done]. simpl. rewrite Hl in A2. destruct (sb_vops x); [|done]. destruct A2 as [_ A2].
      simpl. split; [by destruct l|]. apply Forall_app. split; [done|]. by apply Forall_singleton.
    + destruct (W2 q z Hz) as [A1 A2 A3]. by split.
  - intros v y Hy. destruct (W3 v y Hy) as (sb & j & H1 & H2 & H3). destruct (decide (v_sb y = p)) as [E|].
    + rewrite E in H1. assert (sb = x) as -> by congruence. exists (set_data x (RootData (l ++ [i]))), j. simpl. rewrite E, lookup_insert_eq. split_and!; [done|done|].
      rewrite Hl in H3. simpl in H3. rewrite length_map in *. rewrite length_app. lia.
    + exists sb, j. simpl. by rewrite lookup_insert_ne.
  - destruct W8 as (q & z & Hq & Hz & Hd). destruct (decide (q = p)) as [->|]; [|exists q, z; by rewrite lookup_insert_ne].
    assert (z = x) as -> by congruence. exists p, (set_data x (RootData (l ++ [i]))). by rewrite lookup_insert_eq.
Qed.

(** A new connection. *)
Lemma wf_conn s c t ts : wf s -> Hash.ht_wf ts t -> client_ok s c ->
  Hash.contents (Hash.table (conn_table s)) !! c_in c = None ->
  (exists d, Hash.contents (Hash.table t) = <[c_in c := (heap_next s, d)]> (Hash.contents (Hash.table (conn_table s)))) ->
  wf (set_conns (set_clients (set_next s (heap_next s + 1)) (<[heap_next s := c]> (clients s))) t).
Proof.
  intros [W1 W2 W3 W4 W5 W6 W7 W8] Ht Hc Hnone (d & Hd). split; simpl; try done.
  - intros p x Hx. destruct (W2 p x Hx) as [A1 A2 A3]. by split.
  - intros p z [[<- <-]|[_ Hz]]%lookup_insert_Some; [done|by apply (W4 p)].
  - split; simpl; [by exists ts|]. intros k p e. rewrite Hd. intros [[<- [= <- <-]]|[Hk Hp]]%lookup_insert_Some.
    + exists c. by rewrite lookup_insert_eq.
    + destruct W5 as [_ A2]. destruct (A2 k p e Hp) as (z & Hz & Hin). exists z. split; [|done]. rewrite lookup_insert_ne; [done|].
      intros <-. destruct (W7 (heap_next s)) as (_ & _ & E); [lia|]. congruence.
  - lia.
  - intros k Hk. destruct (W7 k) as (A1 & A2 & A3); [lia|]. split_and!; [done|done|]. rewrite lookup_insert_ne by lia. done.
Qed.

Lemma wf_stale s b : wf s -> wf (set_stale s b).
Proof. intros [W1 W2 W3 W4 W5 W6 W7 W8]. split; try done. intros p x Hx. destruct (W2 p x Hx) as [A1 A2 A3]. by split. Qed.

(** ** fs_find *)

Lemma str_at_unique m a : forall p b, str_at m p a -> str_at m p b -> a = b.
Proof.
  induction a as [|c a IH]; intros p [|d b]; simpl; [done|..].
  - intros H1 (H2 & Hr & _). rewrite H1 in H2. simplify_eq. lia.
  - intros (H2 & Hr & _) H1. rewrite H1 in H2. simplify_eq. lia.
  - intros (H1 & _ & A) (H2 & _ & B). rewrite H1 in H2. simplify_eq. f_equal. by eapply IH.
Qed.

Lemma slice_str m str : forall p, str_at m p str -> slice m p (length str) = str.
Proof.
  induction str as [|c str IH]; intros p Hs; [done|]. pose proof (str_at_range _ _ _ Hs) as Hr. simpl in Hr. destruct Hs as (Hc & _ & Hs).
  simpl. rewrite (slice_cons _ _ _ c); [|unfold fits; lia|done]. f_equal. by apply IH.
Qed.

Lemma str_copy_ok m p str : str_at m p str -> str_copy m p = Ok (str ++ [0]).
Proof. intros Hs. unfold str_copy. rewrite (strlen_ok _ _ _ Hs). simpl. rewrite Nat2Z.id. by rewrite (slice_str _ _ _ Hs). Qed.

(** A block that holds a string and its terminator. *)
Lemma str_at_self str : Forall (fun c => 0 < c < 256) str -> str_at (str ++ [0]) 0 str.
Proof.
  intros H. pose proof (str_at_splice (str ++ [0]) 0 str) as Hs. unfold splice in Hs. simpl in Hs.
  rewrite drop_ge, app_nil_r in Hs by (rewrite !length_app; simpl; lia). apply Hs; [|done]. unfold fits. rewrite length_app. simpl. lia.
Qed.

Lemma wf_root_max s n : wf s -> wf (set_root_max s n).
Proof. intros [W1 W2 W3 W4 W5 W6 W7 W8]. split; try done. intros p x Hx. destruct (W2 p x Hx) as [A1 A2 A3]. by split. Qed.

(** The directories that are mounted, with their superblocks: the newest first. *)
Definition mounts_at (s : vst) (p : Z) (e : Z * list Z) : Prop :=
  e.1 = p /\ exists x, supers s !! p = Some x /\ str_at (sb_dir x) 0 e.2.
Definition mounts (s : vst) (ds : list (Z * list Z)) : Prop := Forall2 (mounts_at s) (mount_list s) ds.

Lemma mounts_ex s : wf s -> exists ds, mounts s ds.
Proof.
  intros W. unfold mounts. pose proof (w_mount s W) as H. revert H. generalize (mount_list s). induction l as [|p l IH]; intros H.
  { exists []. constructor. }
  destruct IH as [ds Hds]; [intros q Hq; apply H; by apply list_elem_of_further|]. destruct (H p) as [x Hx]; [by apply list_elem_of_here|].
  destruct (so_dir _ _ _ (w_super s W p x Hx)) as [d Hd]. exists ((p, d) :: ds). constructor; [|done]. split; [done|]. by exists x.
Qed.

(** The longest directory that is a prefix of the name, the newest if there are several. *)
Definition dir_len (b : option (Z * list Z)) : Z := match b with None => 0 | Some e => Z.of_nat (length e.2) end.
Fixpoint best_dir (ds : list (Z * list Z)) (name : list Z) (b : option (Z * list Z)) : option (Z * list Z) :=
  match ds with
  | [] => b
  | e :: ds => best_dir ds name (if decide (e.2 `prefix_of` name /\ dir_len b < Z.of_nat (length e.2)) then Some e else b)
  end.

Lemma best_dir_spec ds name : forall b, (forall e, b = Some e -> e.2 `prefix_of` name /\ e.2 <> []) ->
  match best_dir ds name b with
  | Some e => (e ∈ ds \/ b = Some e) /\ e.2 `prefix_of` name /\ e.2 <> [] /\ dir_len b <= Z.of_nat (length e.2) /\
      forall e', e' ∈ ds -> e'.2 `prefix_of` name -> (length e'.2 <= length e.2)%nat
  | None => b = None /\ forall e, e ∈ ds -> e.2 `prefix_of` name -> e.2 = []
  end.
Proof.
  induction ds as [|e ds IH]; intros b Hb; cbn [best_dir].
  { destruct b as [e|]; [|split; [done|by intros e ?%elem_of_nil]]. destruct (Hb e eq_refl). split_and!; [by right|done..|]. by intros e' ?%elem_of_nil. }
  case_decide as Hd.
  - destruct Hd as [Hp Hl]. specialize (IH (Some e)). destruct (best_dir ds name (Some e)) as [r|].
    + destruct IH as (A1 & A2 & A3 & A4 & A5).
      { intros ? [= <-]. split; [done|]. intros E. rewrite E in Hl. destruct b; simpl in Hl; lia. }
      simpl in A4. split_and!; [destruct A1 as [?|[= ->]]; left; [by right|by left]|done|done|lia|].
      intros e' [->|He']%elem_of_cons Hpre; [lia|by apply A5].
    + destruct IH as [? _]; [|done]. intros ? [= <-]. split; [done|]. intros E. rewrite E in Hl. destruct b; simpl in Hl; lia.
  - specialize (IH b Hb). destruct (best_dir ds name b) as [r|].
    + destruct IH as (A1 & A2 & A3 & A4 & A5). split_and!; [destruct A1; [left; by right|by right]|done..|].
      intros e' [->|He']%elem_of_cons Hpre; [|by apply A5]. destruct (decide (dir_len b < Z.of_nat (length e.2))); [by destruct Hd|lia].
    + destruct IH as (-> & A). split; [done|]. intros e' [->|He']%elem_of_cons Hpre; [|by apply A]. destruct e.2 eqn:E; [done|].
      destruct Hd. split; [done|]. simpl. lia.
Qed.

Lemma prefix_strncmp (d name : list Z) :
  ((length d <= length d)%nat /\ (length d <= length name)%nat /\ take (length d) d = take (length d) name) <-> d `prefix_of` name.
Proof.
  split.
  - intros (_ & _ & H). rewrite (take_ge d) in H by lia. rewrite H. apply prefix_take.
  - intros [k ->]. rewrite length_app, take_app_length, firstn_all. split_and!; [lia..|done].
Qed.

Lemma fs_find_loop_ok s m node name : str_at m node name -> forall l ds b, Forall2 (mounts_at s) l ds ->
  vwp (fs_find_loop l m node (dir_len b) (fst <$> b)) (fun r s' => s' = s /\ r = fst <$> best_dir ds name b) s.
Proof.
  intros Hn. induction l as [|p l IH]; intros ds b Hl; inversion Hl as [|? [q d] ? ds' [Hp (x & Hx & Hd)] Hr]; subst; simpl in *.
  { vgo. done. }
  cbn [fs_find_loop]. vgo. eapply vwp_lift; [by apply strlen_ok|]. vgo. eapply vwp_lift; [by apply strncmp_run|]. vgo.
  rewrite Nat2Z.id. destruct (decide (d `prefix_of` name)) as [Hpre|Hpre].
  - rewrite (decide_True (P := _ /\ _ /\ _)) by (by apply prefix_strncmp). destruct (decide (dir_len b < Z.of_nat (length d))).
    + rewrite decide_True by done. rewrite decide_True by done. by apply (IH ds' (Some (q, d))).
    + rewrite decide_False by tauto. rewrite decide_False by tauto. by apply IH.
  - rewrite (decide_False (P := _ /\ _ /\ _)) by (by rewrite prefix_strncmp). rewrite !decide_False by (intros []; done). by apply IH.
Qed.

Lemma fs_find_ok s m node name ds (Q : option Z -> vst -> Prop) : str_at m node name -> mounts s ds ->
  Q (fst <$> best_dir ds name None) s -> vwp (fs_find m node) Q s.
Proof.
  intros Hn Hm HQ. unfold fs_find. vgo. eapply vwp_mono; [by eapply (fs_find_loop_ok s m node name Hn _ ds None)|].
  intros r s' [-> ->]. done.
Qed.

(** What the server knows of the file system it found. *)
Lemma found s ds name e : mounts s ds -> best_dir ds name None = Some e ->
  exists x, supers s !! e.1 = Some x /\ str_at (sb_dir x) 0 e.2 /\ e.2 `prefix_of` name /\ (0 < length e.2)%nat.
Proof.
  intros Hm He. pose proof (best_dir_spec ds name None ltac:(done)) as H. rewrite He in H. destruct H as ([Hin|?] & Hp & Hne & _); [|done].
  apply list_elem_of_lookup in Hin as [i Hi]. destruct (Forall2_lookup_r _ _ _ _ _ Hm Hi) as (p & Hp' & <- & x & Hx & Hd).
  exists x. split_and!; [done..|]. destruct e.2; simpl; [done|lia].
Qed.

(** ** Vnodes *)

Lemma inode_index_Some d ino i : inode_index d ino = Some i -> exists n, inodes_of d !! i = Some (ino, n).
Proof.
  destruct d as [|l|l]; simpl; [done|..]; intros ([j z] & Hf & Hi)%fmap_Some; simpl in Hi; subst j; apply list_find_Some in Hf as (Hz & <- & _);
    rewrite list_lookup_fmap, Hz; by eexists.
Qed.

Lemma inode_index_ex d e : e ∈ inodes_of d -> exists i, inode_index d e.1 = Some i.
Proof.
  destruct d as [|l|l]; simpl; [by intros ?%elem_of_nil|..]; intros (z & -> & Hz)%list_elem_of_fmap; simpl.
  - destruct (list_find_elem_of (fun i => ri_ino i = ri_ino z) l z Hz eq_refl) as [[j w] ->]. by exists j.
  - destruct (list_find_elem_of (fun i => bi_ino i = bi_ino z) l z Hz eq_refl) as [[j w] ->]. by exists j.
Qed.

Lemma vget_ok s p sb ino i (Q : Z -> vst -> Prop) : supers s !! p = Some sb -> inode_index (sb_data sb) ino = Some i ->
  Q (heap_next s) (with_vnode s (Vnode ino 1 p (Some i))) -> vwp (vget p ino) Q s.
Proof.
  intros Hp Hi HQ. unfold vget, op_read_vnode, rootfs_read_vnode, bootfs_read_vnode. vgo.
  destruct (sb_vops sb); vgo; simpl; rewrite Hi; vgo; simpl; rewrite insert_insert_eq; exact HQ.
Qed.

Lemma vnode_of_inode s p sb ino i : supers s !! p = Some sb -> inode_index (sb_data sb) ino = Some i -> vnode_ok s (Vnode ino 1 p (Some i)).
Proof. intros Hp Hi. exists sb, i. split_and!; [done|done|]. apply inode_index_Some in Hi as [n Hn]. by apply lookup_lt_Some in Hn. Qed.

(** ** Looking a name up *)

(** The loops of rootfs_walk and bootfs_walk. *)
Fixpoint search (l : list (Z * list Z)) (m : list Z) (path : Z) : cres (option Z) :=
  match l with
  | [] => Ok None
  | e :: l => let! c := strcmp e.2 0 m path in if decide (c = 0) then Ok (Some e.1) else search l m path
  end.

Lemma rootfs_walk_search l m path : rootfs_walk_loop l m path = search (map (fun i => (ri_ino i, ri_name i)) l) m path.
Proof. induction l as [|i l IH]; [done|]. simpl. destruct (strcmp _ _ _ _) as [c| |]; simpl; [|done|done]. case_decide; case_decide; [lia|done|done|lia]. Qed.
Lemma bootfs_walk_search l m path : bootfs_walk_loop l m path = search (map (fun i => (bi_ino i, bi_name i)) l) m path.
Proof. induction l as [|i l IH]; [done|]. simpl. destruct (strcmp _ _ _ _) as [c| |]; simpl; [|done|done]. by case_decide. Qed.

(** The first entry with the name. *)
Definition first_named (l : list (Z * list Z)) (str : list Z) (r : option (Z * list Z)) : Prop :=
  match r with
  | Some e => exists l1 l2, l = l1 ++ e :: l2 /\ str_at e.2 0 str /\ Forall (fun e' => ~ str_at e'.2 0 str) l1
  | None => Forall (fun e => ~ str_at e.2 0 str) l
  end.

Lemma search_ok l m path str : Forall (fun e => is_str e.2 0) l -> str_at m path str ->
  exists r, search l m path = Ok (fst <$> r) /\ first_named l str r.
Proof.
  intros Hl Hs. induction Hl as [|e l [n Hn] Hl IH]; [exists None; split; [done|constructor]|]. simpl.
  destruct (strcmp_ok e.2 0 m path n str Hn Hs) as (c & -> & Hc). simpl. case_decide as Hd.
  - apply Hc in Hd as ->. exists (Some e). split; [done|]. by exists [], l.
  - assert (~ str_at e.2 0 str) as Hne. { intros H. apply Hd, Hc. by eapply str_at_unique. }
    destruct IH as (r & E & Hr). exists r. split; [done|]. destruct r as [e'|]; simpl in *.
    + destruct Hr as (l1 & l2 & -> & H1 & H2). exists (e :: l1), l2. split_and!; [done|done|]. by constructor.
    + by constructor.
Qed.

Lemma data_names f d : data_ok f d -> Forall (fun e => is_str e.2 0) (inodes_of d).
Proof.
  destruct f, d as [|l|l]; simpl; try done.
  - intros [_ H]. apply Forall_map. done.
  - intros H. apply Forall_map. eapply Forall_impl; [exact H|]. by intros i [].
Qed.

(** The root of a file system that is mounted. *)
Record root_of (s : vst) (p : Z) (x : superblock) (v : Z) (y : vnode) : Prop := {
  ro_super : supers s !! p = Some x;
  ro_root : sb_root x = Some v;
  ro_vnode : vnodes s !! v = Some y;
  ro_vnid : v_vnid y = 0;
  ro_sb : v_sb y = p
}.

Lemma root_ex s p x : wf s -> supers s !! p = Some x -> exists v y, root_of s p x v y.
Proof. intros W Hx. destruct (so_root _ _ _ (w_super s W p x Hx)) as (v & y & H1 & H2 & H3 & H4). by exists v, y. Qed.

(** What a walk from the root does: nothing, or a vnode for the inode it found. *)
Definition walked (s : vst) (p : Z) (l : list (Z * list Z)) (str : list Z) (r : option Z) (s' : vst) : Prop :=
  match r with
  | None => s' = s /\ first_named l str None
  | Some v => exists e i sb, first_named l str (Some e) /\ supers s !! p = Some sb /\ inode_index (sb_data sb) e.1 = Some i /\
      v = heap_next s /\ s' = with_vnode s (Vnode e.1 1 p (Some i))
  end.

Lemma elem_drop {A} (x : A) n l : x ∈ drop n l -> x ∈ l.
Proof. intros H. rewrite <- (take_drop n l). apply elem_of_app. by right. Qed.

Lemma named_elem l str e : first_named l str (Some e) -> e ∈ l.
Proof. intros (l1 & l2 & -> & _). apply elem_of_app. right. apply list_elem_of_here. Qed.

Lemma rootfs_walk_ok s p x v y m path str : wf s -> root_of s p x v y -> sb_vops x = rootfs -> str_at m path str ->
  exists n, vwp (rootfs_walk v m path) (walked s p (drop n (inodes_of (sb_data x))) str) s.
Proof.
  intros W [Hx Hv Hy H0 <-] Hf Hs. pose proof (so_data _ _ _ (w_super s W _ x Hx)) as Hd. pose proof (data_names _ _ Hd) as Hn.
  rewrite Hf in Hd. destruct (sb_data x) as [|l|l] eqn:El; try done.
  destruct (w_vnode s W v y Hy) as (sb & i & Hsb & Hi & _). rewrite Hx in Hsb. injection Hsb as <-.
  exists i. unfold rootfs_walk. vgo. rewrite El. eapply vwp_lift; [reflexivity|]. vgo. rewrite rootfs_walk_search, <- skipn_map.
  destruct (search_ok (drop i (inodes_of (RootData l))) m path str) as (r & E & Hr); [by apply Forall_drop|done|].
  eapply vwp_lift; [exact E|]. destruct r as [e|]; simpl.
  - destruct (inode_index_ex (sb_data x) e) as [j Hj]. { rewrite El. eapply elem_drop. by eapply named_elem. }
    vgo. eapply vget_ok; [done|done|]. vgo. exists e, j, x. by rewrite El in *.
  - vgo. done.
Qed.

Lemma bootfs_walk_ok s p x v y m path str : wf s -> root_of s p x v y -> sb_vops x = bootfs -> str_at m path str ->
  vwp (bootfs_walk v m path) (walked s p (inodes_of (sb_data x)) str) s.
Proof.
  intros W [Hx Hv Hy H0 <-] Hf Hs. pose proof (so_data _ _ _ (w_super s W _ x Hx)) as Hd. pose proof (data_names _ _ Hd) as Hn.
  rewrite Hf in Hd. destruct (sb_data x) as [|l|l] eqn:El; try done. unfold bootfs_walk. vgo. rewrite decide_False by lia. vgo. rewrite El.
  eapply vwp_lift; [reflexivity|]. vgo. rewrite bootfs_walk_search.
  destruct (search_ok (inodes_of (BootData l)) m path str) as (r & E & Hr); [done|done|].
  eapply vwp_lift; [exact E|]. destruct r as [e|]; simpl.
  - destruct (inode_index_ex (sb_data x) e) as [j Hj]. { rewrite El. by eapply named_elem. }
    vgo. eapply vget_ok; [done|done|]. vgo. exists e, j, x. by rewrite El in *.
  - vgo. done.
Qed.

Lemma walk_ok s p x v y m path str : wf s -> root_of s p x v y -> str_at m path str ->
  exists w n, walk (t_vops bd (sb_vops x)) = Some w /\ vwp (w v m path) (walked s p (drop n (inodes_of (sb_data x))) str) s.
Proof.
  intros W R Hs. destruct (sb_vops x) eqn:Hf; simpl.
  - destruct (rootfs_walk_ok s p x v y m path str W R Hf Hs) as [n H]. by exists rootfs_walk, n.
  - exists bootfs_walk, 0%nat. split; [done|]. rewrite drop_0. by eapply bootfs_walk_ok.
Qed.

(** What a walk is used for: it keeps the invariant, and the vnode is of the file system. *)
Definition walk_post (s : vst) (p : Z) (r : option Z) (s' : vst) : Prop :=
  wf s' /\ keeps s s' /\ supers s' = supers s /\ forall v, r = Some v -> exists y, vnodes s' !! v = Some y /\ v_sb y = p.

Lemma walked_post s p l str r s' : wf s -> walked s p l str r s' -> walk_post s p r s'.
Proof.
  intros W H. destruct r as [v|]; simpl in H; [|destruct H as [-> _]; by split_and!].
  destruct H as (e & i & sb & _ & Hp & Hi & -> & ->). split_and!; [|by apply keeps_vnode|done|].
  - apply wf_vnode; [done|]. by eapply vnode_of_inode.
  - intros v [= <-]. eexists. split; [simpl; apply lookup_insert_eq|done].
Qed.

(** ** Directories *)

(** An entry of a listing stands for an inode. *)
Definition dir_entry (e : Z * list Z) (d : dirent) : Prop :=
  d_fileno d = u32 e.1 /\ length (d_name d) = 33%nat /\ forall str, str_at e.2 0 str -> (length str < 33)%nat -> str_at (d_name d) 0 str.

Lemma list_dir_ok l : Forall (fun e => is_str e.2 0) l -> forall head, exists ds, list_dir l head = Ok (rev ds ++ head) /\ Forall2 dir_entry l ds.
Proof.
  induction 1 as [|[ino n] l [str Hn] Hl IH]; intros head; [by exists []|]. cbn [list_dir]. simpl in Hn.
  assert (fits name_space 0 33) as Hf by (unfold fits; simpl; lia). rewrite (strncpy_ok _ _ _ _ _ _ Hn Hf). cbn [cbind].
  destruct (IH (Dirent (u32 ino) sizeof_dirent (splice name_space 0 (strncpy_text str 33)) :: head)) as (ds & -> & Hds).
  exists (Dirent (u32 ino) sizeof_dirent (splice name_space 0 (strncpy_text str 33)) :: ds). simpl. rewrite <- app_assoc. split; [done|].
  constructor; [|done]. pose proof (strncpy_text_length str 33) as Hlen. split_and!; [done|simpl; rewrite length_splice; [done|unfold fits; simpl; lia]|].
  simpl. intros str' Hs' Hl'. rewrite (str_at_unique _ _ _ _ Hs' Hn) in *. unfold strncpy_text. rewrite decide_True by done.
  apply str_at_splice; [unfold fits; simpl; lia|]. by eapply str_at_chars.
Qed.

(** The entries of an open directory: the last inode first. *)
Definition listing (d : sbdata) (h : list dirent) : Prop := exists ds, h = rev ds /\ Forall2 dir_entry (inodes_of d) ds.

Lemma listing_names d h : listing d h -> Forall (fun o => length (d_name o) = 33%nat) h.
Proof. intros (ds & -> & Hds). apply Forall_rev. eapply Forall2_Forall_r; [exact Hds|]. apply Forall_true. by intros e o (_ & H & _). Qed.

Lemma dir_open_ok s v y sb : wf s -> vnodes s !! v = Some y -> supers s !! v_sb y = Some sb ->
  vwp (dir_open v) (fun r s' =>
    (r = (ENOTDIR, None) /\ v_vnid y <> 0 /\ s' = s) \/
    (exists h, v_vnid y = 0 /\ r = (0, Some (heap_next s)) /\ listing (sb_data sb) h /\
      s' = with_cookies s (<[heap_next s := DirCookie h h]> (cookies s)) (heap_next s + 1))) s.
Proof.
  intros W Hv Hsb. unfold dir_open. vgo. apply vwp_if; intros H0; [vgo; by left|]. vgo.
  destruct (list_dir_ok (inodes_of (sb_data sb))) with (head := @nil dirent) as (ds & E & Hds).
  { eapply data_names. by eapply so_data, (w_super s W). }
  rewrite app_nil_r in E. eapply vwp_lift; [exact E|]. vgo. right. exists (rev ds). split_and!; [lia|done|by exists ds|done].
Qed.

Lemma wf_new_cookie s c : wf s -> wf (with_cookies s (<[heap_next s := c]> (cookies s)) (heap_next s + 1)).
Proof.
  intros W. apply wf_cookies; [done|lia|]. intros k Hk. pose proof (w_next s W). rewrite lookup_insert_ne by lia. apply (w_fresh s W). lia.
Qed.

Lemma wf_set_cookie s k o c : wf s -> cookies s !! k = Some o -> wf (with_cookies s (<[k := c]> (cookies s)) (heap_next s)).
Proof.
  intros W Hk. apply wf_cookies; [done|lia|]. intros j Hj. destruct (w_fresh s W j Hj) as (_ & Hc & _). rewrite lookup_insert_ne; [done|]. congruence.
Qed.

Lemma wf_free_cookie s k : wf s -> wf (with_cookies s (delete k (cookies s)) (heap_next s)).
Proof.
  intros W. apply wf_cookies; [done|lia|]. intros j Hj. destruct (w_fresh s W j Hj) as (_ & Hc & _). by apply lookup_delete_None; right.
Qed.

Lemma with_cookies_set s c : set_cookies s c = with_cookies s c (heap_next s).
Proof. by destruct s. Qed.

(** An entry that readdir copied. *)
Definition same_entry (o d : dirent) : Prop :=
  d_fileno d = d_fileno o /\ length (d_name d) = 33%nat /\ forall str, str_at (d_name o) 0 str -> (length str < 32)%nat -> str_at (d_name d) 0 str.

Definition names_33 (l : list dirent) : Prop := Forall (fun o => length (d_name o) = 33%nat) l.

Lemma copy_dirent_name d o : length (d_name d) = 33%nat -> length (d_name o) = 33%nat ->
  exists r, strncpy (d_name d) 0 (d_name o) 0 (Z.to_nat BLT_MAX_NAME_LENGTH) = Ok r /\ same_entry o (Dirent (d_fileno o) (d_reclen o) r).
Proof.
  intros Hd Ho. change (Z.to_nat BLT_MAX_NAME_LENGTH) with 32%nat.
  destruct (strncpy_safe (d_name o) 32 (d_name d) 0 0) as (r & E & Hr); [unfold fits; lia|unfold fits; lia|]. exists r. split; [done|].
  split_and!; simpl; [done|lia|]. intros str Hs Hl. rewrite (strncpy_ok _ _ _ _ str) in E by (done || unfold fits; lia). injection E as <-.
  unfold strncpy_text. rewrite decide_True by done. apply str_at_splice; [unfold fits; lia|by eapply str_at_chars].
Qed.

Lemma dir_cookie_ok s c h l (Q : list dirent * list dirent -> vst -> Prop) :
  cookies s !! c = Some (DirCookie h l) -> Q (h, l) s -> vwp (dir_cookie c) Q s.
Proof. intros E H. exists (h, l), s. unfold dir_cookie. by rewrite E. Qed.

Definition at_entry (s : vst) (c : Z) (h l : list dirent) : vst := with_cookies s (<[c := DirCookie h l]> (cookies s)) (heap_next s).

Lemma dir_read_ok s c h o l v d : cookies s !! c = Some (DirCookie h (o :: l)) -> length (d_name d) = 33%nat -> length (d_name o) = 33%nat ->
  vwp (dir_read v d c) (fun r s' => s' = at_entry s c h l /\ fst r = 0 /\ same_entry o (snd r)) s.
Proof.
  intros Hc Hd Ho. unfold dir_read. vgo. eapply dir_cookie_ok; [done|]. cbn [snd fst]. destruct (copy_dirent_name d o Hd Ho) as (r & E & Hs).
  vgo. split_and!; [by destruct s|done|done].
Qed.

(** Where the entries go. *)
Definition places (doff i : Z) (n : nat) : list Z := map (fun k => doff + (i + Z.of_nat k) * sizeof_dirent) (seq 0 n).

Lemma places_S doff i n : places doff i (S n) = doff + i * sizeof_dirent :: places doff (i + 1) n.
Proof.
  unfold places. simpl. f_equal; [f_equal; f_equal; lia|]. rewrite <- (seq_shift n 0), map_map. apply map_ext. intros k. f_equal. f_equal. lia.
Qed.

Definition copied (l : list dirent) (doff i : Z) (n : nat) (r : Z * list (Z * dirent)) : Prop :=
  fst r = i + (if decide (n <= length l)%nat then Z.of_nat n else Z.of_nat (length l) + 1) /\
  map fst (snd r) = places doff i (min n (length l)) /\ Forall2 same_entry (take n l) (map snd (snd r)).

Lemma copy_loop_ok n : forall s c h l v doff d i, cookies s !! c = Some (DirCookie h l) -> length (d_name d) = 33%nat -> names_33 l ->
  vwp (copy_loop dir_read v c doff d i n) (fun r s' => (exists k, s' = at_entry s c h k) /\ copied l doff i n r) s.
Proof.
  induction n as [|n IH]; intros s c h l v doff d i Hc Hd Hl; cbn [copy_loop].
  { vgo. split.
    - exists l. unfold at_entry. rewrite insert_id by done. by destruct s.
    - unfold copied. rewrite decide_True by lia. simpl. split_and!; [lia|done|constructor]. }
  destruct l as [|o l].
  - unfold dir_read. vgo. eapply dir_cookie_ok; [done|]. simpl. vgo. simpl. vgo. split.
    + exists []. unfold at_entry. rewrite insert_id by done. by destruct s.
    + unfold copied. simpl. split_and!; [lia|done|constructor].
  - inversion Hl as [|? ? Ho Hl']; subst. vgo. eapply vwp_mono; [by apply (dir_read_ok s c h o l v d)|].
    intros [e d'] s' (-> & He & Hs). simpl in He, Hs. subst e. cbn [fst snd]. apply vwp_if; [intros _|done]. vgo.
    eapply vwp_mono; [apply (IH (at_entry s c h l) c h l); [simpl; apply lookup_insert_eq|apply Hs|done]|].
    intros [j w] s' ((k & ->) & Hj & Hp & Hw). vgo. simpl in *. split.
    + exists k. unfold at_entry, with_cookies. simpl. by rewrite insert_insert_eq.
    + unfold copied. simpl. rewrite places_S, Hp. split_and!; [|done|by constructor].
      rewrite Hj. case_decide; case_decide; lia.
Qed.

(** The number of entries that is reported: one less than the area holds when that is not more
  than there are. *)
Definition reported (n len : nat) : Z := if decide (n <= len)%nat then Z.of_nat (n - 1) else Z.of_nat len.

Lemma shm_write_dir_ok s o c h y sb len junk : vnodes s !! o_vnode o = Some y -> supers s !! v_sb y = Some sb -> o_cookie o = Some c ->
  cookies s !! c = Some (DirCookie h h) -> names_33 h -> length (d_name junk) = 33%nat -> let n := Z.to_nat (u32 len / sizeof_dirent) in
  vwp (shm_write_dir bd o 0 0 len junk) (fun r s' => (exists k, s' = at_entry s c h k) /\ r.1.1 = reported n (length h) /\ r.1.2 = 0 /\
    map fst r.2 = places 0 0 (min n (length h)) /\ Forall2 same_entry (take n h) (map snd r.2)) s.
Proof.
  intros Hv Hsb Hoc Hc Hh Hj n. unfold shm_write_dir. vgo.
  assert (rewinddir (t_vops bd (sb_vops sb)) = Some dir_rewind /\ readdir (t_vops bd (sb_vops sb)) = Some dir_read) as [-> ->] by by destruct (sb_vops sb).
  vgo. unfold dir_rewind. vgo. eapply dir_cookie_ok; [done|]. vgo. change (Z.to_nat 0) with 0%nat. cbn [fst skip_loop]. vgo.
  eapply vwp_mono; [apply (copy_loop_ok _ (set_cookies s (<[c := DirCookie h h]> (cookies s))) c h h); [simpl; apply lookup_insert_eq|done|done]|].
  intros [j w] s' ((k & ->) & Hj1 & Hp & Hw). fold n in Hj1, Hp, Hw. vgo. simpl in *. split_and!; [|..|done|done|done].
  - exists k. unfold at_entry, with_cookies. simpl. by rewrite insert_insert_eq.
  - unfold reported. rewrite Hj1. case_decide; case_decide; lia.
Qed.
End invariant.

End VfsInv.
