(* ===== verification/VfsSafe.v ===== *)
(** The requests to the vfs server: no request of a client that keeps to the protocol makes
  the server fault, and every one keeps its invariant. *)
From S2P Require Import Prelude LibC Path Hash Vfs VfsInv.
Import LibC Vfs VfsInv.
Local Open Scope Z_scope.
Local Open Scope c_scope.
Local Open Scope vfs_scope.

Module VfsSafe.

(** Select the command of a request. *)
Ltac pick_case H := rewrite H; repeat (rewrite decide_False by done); try (rewrite decide_True by done).

Section server.
Context (bd : list Z).

Abbreviation wf := (VfsInv.wf bd).

(** The file systems that are mounted stay, and the boot file system does not change. *)
Definition stable (s s' : vst) : Prop :=
  mount_list s' = mount_list s /\ forall p x, supers s !! p = Some x -> exists x', supers s' !! p = Some x' /\
    sb_dir x' = sb_dir x /\ sb_vops x' = sb_vops x /\ (sb_vops x = bootfs -> sb_data x' = sb_data x).

#[local] Instance stable_refl : Reflexive stable.
Proof. intros s. split; [done|]. intros p x Hx. by exists x. Qed.

Lemma stable_trans s1 s2 s3 : stable s1 s2 -> stable s2 s3 -> stable s1 s3.
Proof.
  intros [M1 H1] [M2 H2]. split; [congruence|]. intros p x Hx. destruct (H1 p x Hx) as (x' & Hx' & A1 & A2 & A3).
  destruct (H2 p x' Hx') as (y & Hy & B1 & B2 & B3). exists y. split_and!; [done|congruence|congruence|]. intros E. rewrite B3 by congruence. by apply A3.
Qed.

Lemma keeps_stable s s' : keeps s s' -> stable s s'.
Proof. intros K. split; [apply K|]. intros p x Hx. exists x. by rewrite (k_supers _ _ K). Qed.

(** What a request of the client [c] at [cl] does to the others: nothing. *)
Record served (s : vst) (cl : Z) (c : client) (s' : vst) : Prop := {
  sv_wf : wf s';
  sv_port : vfs_port s' = vfs_port s;
  sv_conns : conn_table s' = conn_table s;
  sv_stable : stable s s';
  sv_vnodes : vnodes s ⊆ vnodes s';
  sv_clients : exists l, clients s' = <[cl := Client (c_in c) (c_out c) (c_filename_area c) (c_cwd c) l]> (clients s)
}.

Lemma served_refl s cl c : wf s -> clients s !! cl = Some c -> served s cl c s.
Proof. intros W Hc. split; [done..|]. exists (c_ofile c). rewrite insert_id; [done|]. by destruct c. Qed.

Lemma served_keeps s cl c s1 s2 : served s cl c s1 -> keeps s1 s2 -> wf s2 -> served s cl c s2.
Proof.
  intros [W Hp Ht Hs Hv [l Hl]] K W2.
  split; [done|by rewrite (k_port _ _ K)|by rewrite (k_conns _ _ K)|by eapply stable_trans, keeps_stable|etrans; [done|apply K]|].
  exists l. by rewrite (k_clients _ _ K).
Qed.

Lemma served_ofile s cl c s1 c1 fd o : served s cl c s1 -> clients s1 !! cl = Some c1 -> (forall x, o = Some x -> ofile_ok s1 x) ->
  served s cl c (with_ofile s1 cl c1 fd o).
Proof.
  intros [W Hp Ht Hs Hv [l Hl]] Hc Ho. split; [by apply wf_ofile|done|done|done|done|]. rewrite Hl, lookup_insert_eq in Hc. injection Hc as <-.
  eexists. simpl. by rewrite Hl, insert_insert_eq.
Qed.

Lemma served_client s cl c s1 : served s cl c s1 -> exists l, clients s1 !! cl = Some (Client (c_in c) (c_out c) (c_filename_area c) (c_cwd c) l).
Proof. intros [_ _ _ _ _ [l Hl]]. exists l. by rewrite Hl, lookup_insert_eq. Qed.

(** ** Descriptors *)

Lemma aget_nat {A} (l : list A) i : aget l (Z.of_nat i) = l !! i.
Proof. unfold aget. rewrite decide_True by lia. by rewrite Nat2Z.id. Qed.

Lemma set_ofile_ok s cl c fd o (Q : unit -> vst -> Prop) : clients s !! cl = Some c -> (fd < length (c_ofile c))%nat ->
  Q tt (with_ofile s cl c fd o) -> vwp (set_ofile cl (Z.of_nat fd) o) Q s.
Proof.
  intros Hc Hfd HQ. unfold set_ofile. vgo. eapply vwp_deref; [by rewrite aset_in_range by lia|]. vgo. by rewrite Nat2Z.id.
Qed.

Lemma set_ofile_Z s cl c fd o (Q : unit -> vst -> Prop) : clients s !! cl = Some c -> 0 <= fd < Z.of_nat (length (c_ofile c)) ->
  Q tt (with_ofile s cl c (Z.to_nat fd) o) -> vwp (set_ofile cl fd o) Q s.
Proof. intros Hc Hfd HQ. rewrite <- (Z2Nat.id fd) by lia. eapply set_ofile_ok; [done|lia|done]. Qed.

Lemma free_fd_Some l i : free_fd l = Some i -> l !! i = Some None /\ forall j, (j < i)%nat -> exists o, l !! j = Some (Some o).
Proof.
  unfold free_fd. intros ([j o] & Hf & ->)%fmap_Some. apply list_find_Some in Hf as (H1 & -> & H2). simpl. split; [done|]. intros k Hk.
  destruct (lookup_lt_is_Some_2 l k) as [[o|] Ho]; [apply lookup_lt_Some in H1; lia|by exists o|]. by destruct (H2 k None Ho Hk).
Qed.

(** ** The operations that handlers call *)

Lemma inode_of_ok s v y sb (Q : bootfs_inode -> vst -> Prop) : wf s -> vnodes s !! v = Some y -> supers s !! v_sb y = Some sb -> sb_vops sb = bootfs ->
  (forall l i z, sb_data sb = BootData l -> v_data y = Some i -> l !! i = Some z -> file_ok bd z -> Q z s) -> vwp (bootfs_inode_of v) Q s.
Proof.
  intros W Hv Hsb Hf HQ. destruct (w_vnode bd s W v y Hv) as (sb' & i & Hsb' & Hi & Hlt). rewrite Hsb in Hsb'. injection Hsb' as <-.
  pose proof (so_data _ _ _ _ (w_super bd s W _ _ Hsb)) as Hd. rewrite Hf in Hd. destruct (sb_data sb) as [|l|l] eqn:El; try done.
  simpl in Hlt. rewrite length_map in Hlt. destruct (lookup_lt_is_Some_2 l i Hlt) as [z Hz].
  unfold bootfs_inode_of. vgo. rewrite El. eapply vwp_lift; [reflexivity|]. vgo. eapply HQ; try done. by eapply (Forall_lookup_1 _ _ _ _ Hd Hz).
Qed.

Lemma open_ok s v y sb f : wf s -> vnodes s !! v = Some y -> supers s !! v_sb y = Some sb -> open (t_vops bd (sb_vops sb)) = Some f ->
  vwp (f v) (fun r s' => exists k, r = (0, Some (heap_next s)) /\ s' = with_cookies s (<[heap_next s := k]> (cookies s)) (heap_next s + 1)) s.
Proof.
  intros W Hv Hsb Hf. destruct (sb_vops sb) eqn:E; simpl in Hf; [done|]. injection Hf as <-. unfold bootfs_open. vgo.
  eapply inode_of_ok; [done..|]. intros l i z _ _ _ _. vgo. by eexists.
Qed.

Lemma copy_out_ok p n : 0 <= p -> p + Z.of_nat n <= Z.of_nat (length bd) -> copy_out bd p n = Ok (slice bd p n).
Proof. intros H1 H2. unfold copy_out. by rewrite decide_True. Qed.

(** What a read at [offset] delivers: the bytes of the file from there, at most [count]. *)
Definition file_bytes (z : bootfs_inode) : list Z := slice bd (s32 (bi_offset z * 0x1000)) (Z.to_nat (bi_size z)).

Lemma slice_slice m p n o k : 0 <= p -> 0 <= o -> (Z.to_nat o + k <= n)%nat -> slice m (p + o) k = take k (drop (Z.to_nat o) (slice m p n)).
Proof.
  intros Hp Ho Hk. unfold slice. rewrite skipn_firstn_comm, drop_drop, take_take. f_equal; [lia|]. f_equal. lia.
Qed.

Lemma read_ok s v y sb f count offset c : wf s -> vnodes s !! v = Some y -> supers s !! v_sb y = Some sb -> read (t_vops bd (sb_vops sb)) = Some f ->
  0 <= count < 2 ^ 32 -> 0 <= offset < 2 ^ 32 ->
  vwp (f v count offset c) (fun r s' => s' = s /\ exists l i z, sb_data sb = BootData l /\ v_data y = Some i /\ l !! i = Some z /\
    r = (0, take (Z.to_nat count) (drop (Z.to_nat offset) (file_bytes z)))) s.
Proof.
  intros W Hv Hsb Hf Hc Ho. destruct (sb_vops sb) eqn:E; simpl in Hf; [done|]. injection Hf as <-. unfold bootfs_read. vgo.
  eapply inode_of_ok; [done..|]. intros l i z Hl Hi Hz (Hs & H0 & Hb). rewrite (u32_small (bi_size z)) by lia.
  assert (length (file_bytes z) = Z.to_nat (bi_size z)) as Hlen by (unfold file_bytes; rewrite length_slice; [done|unfold fits; lia]).
  apply vwp_if; intros Hle.
  - vgo. split; [done|]. exists l, i, z. split_and!; [done..|]. by rewrite drop_ge, take_nil by lia.
  - cbv zeta. rewrite u32_small by lia. set (n := if decide (count <= bi_size z - offset) then count else bi_size z - offset).
    assert (n = Z.min count (bi_size z - offset)) as Hn by (subst n; case_decide; lia). vgo. eapply vwp_lift; [apply copy_out_ok; lia|]. vgo. split; [done|].
    exists l, i, z. split_and!; [done..|]. f_equal. rewrite (slice_slice bd _ (Z.to_nat (bi_size z))) by lia. fold (file_bytes z).
    destruct (decide (count <= bi_size z - offset)); [f_equal; lia|]. rewrite !take_ge; [done|..]; rewrite length_drop; lia.
Qed.

Lemma rstat_ok s v y sb f : wf s -> vnodes s !! v = Some y -> supers s !! v_sb y = Some sb -> rstat (t_vops bd (sb_vops sb)) = Some f ->
  vwp (f v) (fun r s' => s' = s /\ exists l i z st, sb_data sb = BootData l /\ v_data y = Some i /\ l !! i = Some z /\ r = (0, Some st) /\ st_size st = bi_size z) s.
Proof.
  intros W Hv Hsb Hf. destruct (sb_vops sb) eqn:E; simpl in Hf; [done|]. injection Hf as <-. unfold bootfs_rstat. vgo.
  eapply inode_of_ok; [done..|]. intros l i z Hl Hi Hz (Hs & _). vgo. split; [done|]. exists l, i, z. eexists. split_and!; [done..|]. simpl. apply u32_small. lia.
Qed.

(** ** What a client must keep to *)

(** Four arguments are there, each a word. *)
Definition args_ok (q : request) : Prop := length (q_data q) = 6%nat /\ Forall (fun d => 0 <= d < 2 ^ 32) (q_data q).

Lemma args_get q i : args_ok q -> (i < 6)%nat -> exists d, q_data q !! i = Some d /\ 0 <= d < 2 ^ 32.
Proof. intros [Hl Hf] Hi. destruct (lookup_lt_is_Some_2 (q_data q) i) as [d Hd]; [lia|]. exists d. split; [done|]. by eapply (Forall_lookup_1 _ _ _ _ Hf Hd). Qed.

(** A name, with another string behind it: the area of names is filled with 0. *)
Definition followed (m : list Z) (p : Z) (str : list Z) : Prop := str_at m p str /\ is_str m (p + Z.of_nat (length str) + 1).

Lemma followed_suffix m p str k : followed m p str -> (k <= length str + 1)%nat -> is_str m (p + Z.of_nat k).
Proof.
  intros [Hs Hf] Hk. destruct (decide (k <= length str)%nat) as [Hle|].
  - exists (drop k str). by apply str_at_drop.
  - replace (p + Z.of_nat k) with (p + Z.of_nat (length str) + 1) by lia. done.
Qed.

(** ** The handlers *)

(** A look-up in the file system that was found for a name. *)
Lemma found_walk s ds m path str e x : wf s -> mounts s ds -> best_dir ds str None = Some e -> supers s !! e.1 = Some x ->
  is_str m (path + Z.of_nat (length e.2) + 1) ->
  exists v y w, root_of s e.1 x v y /\ strlen (sb_dir x) 0 = Ok (Z.of_nat (length e.2)) /\ walk (t_vops bd (sb_vops x)) = Some w /\
    vwp (w v m (path + Z.of_nat (length e.2) + 1)) (walk_post bd s e.1) s.
Proof.
  intros W Hm He Hx [rest Hr]. destruct (found s ds str e Hm He) as (x' & Hx' & Hd & _). assert (x' = x) as -> by congruence.
  destruct (root_ex bd s e.1 x W Hx) as (v & y & R).
  destruct (walk_ok bd s e.1 x v y _ _ _ W R Hr) as (w & n & Hw & Hp). exists v, y, w. split_and!; [done|by apply strlen_ok|done|].
  eapply vwp_mono; [exact Hp|]. intros r s' H. by eapply walked_post.
Qed.

Lemma found_rest s ds m path str e : mounts s ds -> best_dir ds str None = Some e -> followed m path str -> is_str m (path + Z.of_nat (length e.2) + 1).
Proof.
  intros Hm He Hf. destruct (found s ds str e Hm He) as (_ & _ & _ & [k Hk] & _).
  replace (path + Z.of_nat (length e.2) + 1) with (path + Z.of_nat (length e.2 + 1)) by lia. eapply followed_suffix; [exact Hf|]. rewrite Hk, length_app. lia.
Qed.

Lemma vfs_open_ok s cl c q path str : wf s -> clients s !! cl = Some c -> args_ok q -> q_data q !! 0%nat = Some path -> followed (e_names q) path str ->
  vwp (vfs_open bd cl q) (fun _ s' => served s cl c s') s.
Proof.
  intros W Hc Ha H0 Hf. pose proof (served_refl s cl c W Hc) as S0. unfold vfs_open. vgo.
  destruct (free_fd (c_ofile c)) as [i|] eqn:Efd; [|by vgo]. destruct (mounts_ex bd s W) as [ds Hm]. vgo.
  eapply fs_find_ok; [apply Hf|exact Hm|]. destruct (best_dir ds str None) as [e|] eqn:He; simpl; [|by vgo].
  destruct (found s ds str e Hm He) as (x & Hx & _). vgo. destruct (open (t_vops bd (sb_vops x))) as [f|] eqn:Eo; [|by vgo].
  destruct (found_walk s ds _ _ _ e x W Hm He Hx (found_rest _ _ _ _ _ _ Hm He Hf)) as (v & y & w & R & Hl & Hw & Hp). vgo.
  eapply vwp_deref; [apply R|]. vgo. eapply vwp_mono; [exact Hp|]. intros r s1 (W1 & K & Hsup & Hr).
  pose proof (served_keeps _ _ _ _ _ S0 K W1) as S1. destruct r as [u|]; [|by vgo]. destruct (Hr u eq_refl) as (z & Hz & Hzs).
  destruct (args_get q 1 Ha) as (d1 & H1 & _); [lia|]. destruct (args_get q 2 Ha) as (d2 & H2 & _); [lia|]. destruct (args_get q 3 Ha) as (d3 & H3 & _); [lia|].
  vgo.
  apply free_fd_Some in Efd as [Hi _]. apply lookup_lt_Some in Hi.
  assert (clients s1 !! cl = Some c) as Hc1 by by rewrite (k_clients _ _ K).
  assert (forall k, ofile_ok s1 (OFile u k d1 d2 d3 (Some 0))) as Hok by by exists z.
  eapply set_ofile_ok; [exact Hc1|done|]. set (s2 := with_ofile s1 cl c i (Some (OFile u None d1 d2 d3 (Some 0)))).
  assert (served s cl c s2) as S2. { apply served_ofile; [done|done|]. intros ? [= <-]. apply Hok. }
  vgo. eapply vwp_mono; [eapply (open_ok s2 u z x f); [apply S2|done|simpl; congruence|done]|]. intros r s3 (k & -> & ->). vgo.
  pose proof (served_keeps _ _ _ _ _ S2 (keeps_cookies s2 _ (heap_next s2 + 1) ltac:(lia)) (wf_new_cookie bd s2 k ltac:(apply S2))) as S3.
  eapply set_ofile_ok; [simpl; apply lookup_insert_eq|simpl; by rewrite length_insert|]. vgo.
  apply served_ofile; [done|simpl; apply lookup_insert_eq|]. intros ? [= <-]. exists z. done.
Qed.

(** The slot of a descriptor that is in range. *)
Lemma slot_ex s cl c fd : wf s -> clients s !! cl = Some c -> 0 <= fd < 256 ->
  exists o, aget (c_ofile c) fd = Some o /\ 0 <= fd < Z.of_nat (length (c_ofile c)) /\
    forall x, o = Some x -> exists y sb, vnodes s !! o_vnode x = Some y /\ supers s !! v_sb y = Some sb.
Proof.
  intros W Hc Hfd. destruct (w_client bd s W cl c Hc) as (Hl & _ & Ho). unfold MAX_FDS in Hl.
  destruct (aget_in_range (c_ofile c) fd) as [o E]; [lia|]. exists o. split_and!; [done|lia|lia|]. intros x ->.
  apply aget_Some in E as [_ E]. destruct (Ho _ _ E) as [y Hy]. destruct (w_vnode bd s W _ y Hy) as (sb & j & Hsb & _). by exists y, sb.
Qed.

Lemma vfs_closedir_ok s cl c q fd : wf s -> clients s !! cl = Some c -> q_data q !! 0%nat = Some fd -> 0 <= fd < 256 ->
  vwp (vfs_closedir bd cl q) (fun _ s' => served s cl c s') s.
Proof.
  intros W Hc H0 Hfd. pose proof (served_refl s cl c W Hc) as S0. destruct (slot_ex s cl c fd W Hc Hfd) as (o & Ho & Hr & Hx).
  unfold vfs_closedir, get_ofile. vgo. destruct o as [o|]; [|by vgo]. destruct (Hx o eq_refl) as (y & sb & Hy & Hsb). vgo.
  assert (closedir (t_vops bd (sb_vops sb)) = Some (fun _ _ => vret tt) /\ free_dircookie (t_vops bd (sb_vops sb)) = None) as [-> ->] by by destruct (sb_vops sb).
  vgo. eapply set_ofile_Z; [done|done|]. vgo. by apply served_ofile.
Qed.

(** The cookie of an open file has not been freed. *)
Definition live_cookie (s : vst) (o : ofile) : Prop := exists k, o_cookie o = Some k /\ is_Some (cookies s !! k).

Lemma vfs_close_ok s cl c q fd : wf s -> clients s !! cl = Some c -> q_data q !! 0%nat = Some fd -> 0 <= fd < 256 ->
  (forall o, aget (c_ofile c) fd = Some (Some o) -> live_cookie s o) -> vwp (vfs_close bd cl q) (fun _ s' => served s cl c s') s.
Proof.
  intros W Hc H0 Hfd Hlive. pose proof (served_refl s cl c W Hc) as S0. destruct (slot_ex s cl c fd W Hc Hfd) as (o & Ho & Hr & Hx).
  unfold vfs_close, get_ofile. vgo. destruct o as [o|]; [|by vgo]. destruct (Hx o eq_refl) as (y & sb & Hy & Hsb). vgo.
  destruct (Hlive o Ho) as (k & Hk & z & Hz). destruct (sb_vops sb); simpl; [by vgo|]. unfold bootfs_close, bootfs_free_cookie. vgo.
  eexists tt, _. rewrite Hk. simpl. rewrite Hz. split; [done|]. vgo. rewrite with_cookies_set.
  eapply served_keeps; [done|apply keeps_cookies; lia|by apply wf_free_cookie].
Qed.

Lemma vfs_read_ok s cl c q fd : wf s -> clients s !! cl = Some c -> args_ok q -> q_data q !! 0%nat = Some fd -> 0 <= fd < 256 ->
  (forall o, aget (c_ofile c) fd = Some (Some o) -> is_Some (o_pos o)) -> vwp (vfs_read bd cl q) (fun _ s' => served s cl c s') s.
Proof.
  intros W Hc Ha H0 Hfd Hpos. pose proof (served_refl s cl c W Hc) as S0. destruct (slot_ex s cl c fd W Hc Hfd) as (o & Ho & Hr & Hx).
  destruct (args_get q 1 Ha) as (n & H1 & Hn); [lia|]. unfold vfs_read, get_ofile. vgo. destruct o as [o|]; [|by vgo].
  destruct (Hx o eq_refl) as (y & sb & Hy & Hsb). vgo. destruct (read (t_vops bd (sb_vops sb))) as [f|] eqn:Ef; [|by vgo].
  destruct (Hpos o Ho) as [pos Hp]. vgo. eapply vwp_mono; [apply (read_ok s (o_vnode o) y sb f n (u32 pos)); try done; apply u32_range|].
  intros r s' (-> & _). vgo. cbv zeta. vgo. eapply set_ofile_Z; [done|done|]. vgo. apply served_ofile; [done|done|]. intros ? [= <-]. by exists y.
Qed.

Lemma vfs_scroll_ok s cl c q fd o : wf s -> clients s !! cl = Some c -> q_data q !! 0%nat = Some fd -> aget (c_ofile c) fd = Some (Some o) ->
  vwp (vfs_scroll_area cl q) (fun _ s' => served s cl c s') s.
Proof.
  intros W Hc H0 Ho. unfold vfs_scroll_area, get_ofile, shm_write. vgo. by apply served_refl.
Qed.

Lemma vfs_rstat_ok s cl c q path str : wf s -> clients s !! cl = Some c -> q_data q !! 0%nat = Some path -> followed (e_names q) path str ->
  vwp (vfs_rstat bd cl q) (fun _ s' => served s cl c s') s.
Proof.
  intros W Hc H0 Hf. pose proof (served_refl s cl c W Hc) as S0. unfold vfs_rstat. vgo. destruct (mounts_ex bd s W) as [ds Hm].
  eapply fs_find_ok; [apply Hf|exact Hm|]. destruct (best_dir ds str None) as [e|] eqn:He; simpl; [|by vgo].
  destruct (found s ds str e Hm He) as (x & Hx & _). vgo. destruct (rstat (t_vops bd (sb_vops x))) as [f|] eqn:Eo; [|by vgo].
  destruct (found_walk s ds _ _ _ e x W Hm He Hx (found_rest _ _ _ _ _ _ Hm He Hf)) as (v & y & w & R & Hl & Hw & Hp). vgo.
  eapply vwp_deref; [apply R|]. vgo. eapply vwp_mono; [exact Hp|]. intros r s1 (W1 & K & Hsup & Hr).
  pose proof (served_keeps _ _ _ _ _ S0 K W1) as S1. destruct r as [u|]; [|by vgo]. destruct (Hr u eq_refl) as (z & Hz & Hzs). vgo.
  eapply vwp_mono; [apply (rstat_ok s1 u z x f); [done|done|congruence|done]|]. intros r s2 (-> & _). by vgo.
Qed.

(** The state with a new directory in the file system at [p]. *)
Definition with_dir (s : vst) (p : Z) (x : superblock) (l : list rootfs_inode) (name : list Z) : vst :=
  set_supers (set_root_max s (root_max s + 1)) (<[p := set_data x (RootData (l ++ [RI (root_max s) (name ++ [0])]))]> (supers s)).

Lemma vfs_mkdir_exact s m name mode str ds e x l : wf s -> str_at m name str -> mounts s ds -> best_dir ds str None = Some e -> supers s !! e.1 = Some x ->
  sb_vops x = rootfs -> sb_data x = RootData l ->
  vwp (vfs_mkdir bd m name mode) (fun r s' => r = 0 /\ s' = with_dir s e.1 x l (drop (length e.2) str)) s.
Proof.
  intros W Hs Hm He Hx Ef El. unfold vfs_mkdir. vgo. eapply fs_find_ok; [exact Hs|exact Hm|]. rewrite He.
  destruct (found s ds _ e Hm He) as (x' & Hx' & Hd & [k Hk] & _). assert (x' = x) as -> by congruence. cbn [fmap option_fmap option_map]. vgo.
  rewrite Ef. simpl. destruct (root_ex bd s e.1 x W Hx) as (v & y & [R1 R2 R3 R4 R5]). vgo.
  eapply vwp_lift; [by apply strlen_ok|]. vgo. unfold rootfs_mkdir. vgo. rewrite decide_False by lia. unfold rootfs_inew. vgo.
  pose proof (str_at_drop m (length e.2) _ _ Hs) as Hsuf. rewrite Hk, length_app in Hsuf. specialize (Hsuf ltac:(lia)). rewrite <- Hk in Hsuf.
  eapply vwp_lift; [by apply str_copy_ok|]. vgo. rewrite R5. vgo.
  pose proof (so_data _ _ _ _ (w_super bd s W _ _ Hx)) as Hdat. rewrite Ef, El in Hdat. destruct Hdat as [Hne _].
  rewrite El. eapply vwp_lift; [reflexivity|]. destruct l as [|i0 l]; [done|]. vgo. done.
Qed.

Lemma served_dir s cl c e x l name : wf s -> clients s !! cl = Some c -> supers s !! e = Some x -> sb_vops x = rootfs -> sb_data x = RootData l ->
  Forall (fun c => 0 < c < 256) name -> served s cl c (with_dir s e x l name).
Proof.
  intros W Hc Hx Ef El Hn. pose proof (served_refl s cl c W Hc) as S0. split; [|done|done| |done|apply S0].
  2: { split; [done|]. intros p z Hz. simpl. destruct (decide (p = e)) as [->|]; [|exists z; by rewrite lookup_insert_ne].
       assert (z = x) as -> by congruence. eexists. rewrite lookup_insert_eq. split_and!; [done..|congruence]. }
  apply (wf_mkdir bd (set_root_max s (root_max s + 1)) e x l (RI (root_max s) (name ++ [0]))); [by apply wf_root_max|done|done|].
  exists name. by apply str_at_self.
Qed.

(** A name that starts with '/' is found. *)
Lemma root_found s ds str : wf s -> mounts s ds -> exists e, best_dir ds (47 :: str) None = Some e.
Proof.
  intros W Hm. destruct (w_root bd s W) as (p0 & x0 & Hp0 & Hx0 & Hd0). destruct (best_dir ds (47 :: str) None) as [e|] eqn:He; [by exists e|].
  exfalso. pose proof (best_dir_spec ds (47 :: str) None ltac:(done)) as Hb. rewrite He in Hb. destruct Hb as [_ Hb].
  apply list_elem_of_lookup in Hp0 as [i Hi]. destruct (Forall2_lookup_l _ _ _ _ _ Hm Hi) as ([p d] & Hd & Hat).
  destruct Hat as [Hp (x & Hx & Hdir)]. simpl in Hp, Hdir. subst p. rewrite Hx in Hx0. injection Hx0 as <-.
  rewrite (str_at_unique _ _ _ [47] Hdir Hd0) in Hd. apply list_elem_of_lookup_2 in Hd. specialize (Hb _ Hd). simpl in Hb. discriminate Hb. by exists str.
Qed.

Lemma vfs_mkdir_ok s cl c m name mode str : wf s -> clients s !! cl = Some c ->
  str_at m name (47 :: str) -> vwp (vfs_mkdir bd m name mode) (fun _ s' => served s cl c s') s.
Proof.
  intros W Hc Hs. destruct (mounts_ex bd s W) as [ds Hm]. destruct (root_found s ds str W Hm) as [e He].
  destruct (found s ds _ e Hm He) as (x & Hx & Hd & _). pose proof (so_data _ _ _ _ (w_super bd s W _ _ Hx)) as Hdat. destruct (sb_vops x) eqn:Ef.
  - destruct (sb_data x) as [|l|l] eqn:El; try done. eapply vwp_mono; [by eapply vfs_mkdir_exact|]. intros r s' [_ ->]. apply served_dir; try done.
    apply Forall_drop. by eapply str_at_chars.
  - unfold vfs_mkdir. vgo. eapply fs_find_ok; [exact Hs|exact Hm|]. rewrite He. cbn [fmap option_fmap option_map]. vgo. rewrite Ef. simpl. vgo. by apply served_refl.
Qed.

(** An open directory with the inodes [d]: its descriptor, and the entries that are to be listed. *)
Definition dir_opened (s : vst) (cl : Z) (r : vres) (d : sbdata) : Prop :=
  exists i c o y sb k h, r_data r = <[0%nat := Some (Z.of_nat i)]> no_data /\ clients s !! cl = Some c /\ c_ofile c !! i = Some (Some o) /\
    vnodes s !! o_vnode o = Some y /\ supers s !! v_sb y = Some sb /\ o_cookie o = Some k /\ cookies s !! k = Some (DirCookie h h) /\ listing d h.

(** opendir on a vnode, with a descriptor that is free. *)
Lemma opendir_rest s cl c s1 i u z x d1 d2 d3 : served s cl c s1 -> clients s1 !! cl = Some c -> (i < length (c_ofile c))%nat ->
  vnodes s1 !! u = Some z -> supers s1 !! v_sb z = Some x ->
  vwp (set_ofile cl (Z.of_nat i) (Some (OFile u None d1 d2 d3 None)) ;;
    r <- dir_open u ;;
    set_ofile cl (Z.of_nat i) (Some (OFile u (snd r) d1 d2 d3 None)) ;;
    vret (VRes (if decide (fst r = 0) then VFS_OK else VFS_ERROR) (fst r) (<[0%nat := Some (Z.of_nat i)]> no_data)))
    (fun r s' => served s cl c s' /\ (r_status r = VFS_OK -> dir_opened s' cl r (sb_data x)) /\ (v_vnid z = 0 -> r_status r = VFS_OK)) s1.
Proof.
  intros S1 Hc1 Hi Hz Hx. assert (forall k, ofile_ok s1 (OFile u k d1 d2 d3 None)) as Hok by by exists z. vgo.
  eapply set_ofile_ok; [exact Hc1|done|]. set (s2 := with_ofile s1 cl c i (Some (OFile u None d1 d2 d3 None))).
  assert (served s cl c s2) as S2. { apply served_ofile; [done|done|]. intros ? [= <-]. apply Hok. }
  vgo. eapply vwp_mono; [eapply (dir_open_ok bd s2 u z x); [apply S2|done|done]|]. intros r s3 [(-> & Hv & ->)|(h & _ & -> & Hh & ->)].
  - vgo. eapply set_ofile_ok; [simpl; apply lookup_insert_eq|simpl; by rewrite length_insert|]. vgo. split; [|split; [intros H; discriminate H|by intros H]].
    apply served_ofile; [done|simpl; apply lookup_insert_eq|]. intros ? [= <-]. exists z. done.
  - pose proof (served_keeps _ _ _ _ _ S2 (keeps_cookies s2 _ (heap_next s2 + 1) ltac:(lia)) (wf_new_cookie bd s2 (DirCookie h h) ltac:(apply S2))) as S3.
    vgo. eapply set_ofile_ok; [simpl; apply lookup_insert_eq|simpl; by rewrite length_insert|]. vgo. split; [|split; [|done]].
    + apply served_ofile; [done|simpl; apply lookup_insert_eq|]. intros ? [= <-]. exists z. done.
    + intros _. eexists i, _, (OFile u (Some (heap_next s2)) d1 d2 d3 None), z, x, (heap_next s2), h. split_and!; simpl; [done|apply lookup_insert_eq| |done|done|done|apply lookup_insert_eq|done].
      apply list_lookup_insert_eq. simpl. by rewrite length_insert.
Qed.

Lemma vfs_opendir_ok s cl c q name dir str : wf s -> clients s !! cl = Some c -> args_ok q -> q_data q !! 0%nat = Some name ->
  full_name (c_cwd c) (e_names q) name = Ok dir -> str_at dir 0 str ->
  vwp (vfs_opendir bd cl q) (fun r s' => served s cl c s' /\ (r_status r = VFS_OK -> exists d, dir_opened s' cl r d)) s.
Proof.
  intros W Hc Ha H0 Hfull Hs. pose proof (served_refl s cl c W Hc) as S0. unfold vfs_opendir. vgo.
  destruct (free_fd (c_ofile c)) as [i|] eqn:Efd; [|by vgo]. apply free_fd_Some in Efd as [Hi _]. apply lookup_lt_Some in Hi.
  destruct (mounts_ex bd s W) as [ds Hm]. vgo.
  eapply fs_find_ok; [exact Hs|exact Hm|]. destruct (best_dir ds str None) as [e|] eqn:He; simpl; [|by vgo].
  destruct (found s ds str e Hm He) as (x & Hx & Hd & [t Ht] & _). vgo.
  assert (opendir (t_vops bd (sb_vops x)) = Some dir_open) as -> by by destruct (sb_vops x).
  destruct (strcmp_ok dir 0 (sb_dir x) 0 str e.2 Hs Hd) as (k & Ek & Hk). vgo. destruct (root_ex bd s e.1 x W Hx) as (v & y & R).
  eapply vwp_deref; [apply R|]. vgo. eapply vwp_lift; [by apply strlen_ok|]. vgo.
  destruct (args_get q 1 Ha) as (d1 & H1 & _); [lia|]. destruct (args_get q 2 Ha) as (d2 & H2 & _); [lia|]. destruct (args_get q 3 Ha) as (d3 & H3 & _); [lia|].
  apply vwp_if; intros Hk0.
  - vgo. destruct R as [R1 R2 R3 R4 R5]. apply vwp_bind_inv. eapply vwp_mono; [eapply opendir_rest; try done; by rewrite R5|].
    intros r s' (S & Hr & _). split; [done|]. intros Hst. eexists. by apply Hr.
  - assert (str <> e.2) as Hne by (intros E; by apply Hk0, Hk). destruct t as [|a t]; [by rewrite app_nil_r in Ht|].
    assert (is_str dir (0 + Z.of_nat (length e.2) + 1)) as Hrest.
    { exists (drop (length e.2 + 1) str). replace (0 + Z.of_nat (length e.2) + 1) with (0 + Z.of_nat (length e.2 + 1)) by lia.
      apply str_at_drop; [done|]. rewrite Ht, length_app. simpl. lia. }
    destruct (found_walk s ds dir 0 str e x W Hm He Hx Hrest) as (v' & y' & w & R' & Hl & Hw & Hp).
    assert (v' = v) as -> by (pose proof (ro_root _ _ _ _ _ R); pose proof (ro_root _ _ _ _ _ R'); congruence). vgo.
    rewrite Z.add_0_l in Hp. eapply vwp_mono; [exact Hp|]. intros r s1 (W1 & K & Hsup & Hr).
    pose proof (served_keeps _ _ _ _ _ S0 K W1) as S1. destruct r as [u|]; [|by vgo]. destruct (Hr u eq_refl) as (z & Hz & Hzs). vgo.
    apply vwp_bind_inv. eapply vwp_mono; [eapply opendir_rest; [done|by rewrite (k_clients _ _ K)|done|done|by rewrite Hzs, Hsup]|].
    intros r s' (S & Hr' & _). split; [done|]. intros Hst. eexists. by apply Hr'.
Qed.

(** The directory a file system is mounted on. *)
Lemma vfs_opendir_mount s cl c q name dir ds e x i : wf s -> clients s !! cl = Some c -> args_ok q -> q_data q !! 0%nat = Some name ->
  full_name (c_cwd c) (e_names q) name = Ok dir -> str_at dir 0 e.2 -> mounts s ds -> best_dir ds e.2 None = Some e -> supers s !! e.1 = Some x ->
  free_fd (c_ofile c) = Some i ->
  vwp (vfs_opendir bd cl q) (fun r s' => served s cl c s' /\ r_status r = VFS_OK /\ dir_opened s' cl r (sb_data x)) s.
Proof.
  intros W Hc Ha H0 Hfull Hs Hm He Hx Hi. pose proof (served_refl s cl c W Hc) as S0. unfold vfs_opendir. vgo. rewrite Hi. vgo.
  apply free_fd_Some in Hi as [Hi _]. apply lookup_lt_Some in Hi. eapply fs_find_ok; [exact Hs|exact Hm|]. rewrite He. cbn [fmap option_fmap option_map]. vgo.
  assert (opendir (t_vops bd (sb_vops x)) = Some dir_open) as -> by by destruct (sb_vops x).
  destruct (found s ds _ e Hm He) as (x' & Hx' & Hd & _). assert (x' = x) as -> by congruence.
  destruct (strcmp_ok dir 0 (sb_dir x) 0 _ _ Hs Hd) as (k & Ek & Hk). vgo. destruct (root_ex bd s e.1 x W Hx) as (v & y & [R1 R2 R3 R4 R5]).
  vgo. eapply vwp_lift; [by apply strlen_ok|]. vgo. rewrite decide_True by (by apply Hk). vgo.
  destruct (args_get q 1 Ha) as (d1 & H1 & _); [lia|]. destruct (args_get q 2 Ha) as (d2 & H2 & _); [lia|]. destruct (args_get q 3 Ha) as (d3 & H3 & _); [lia|].
  vgo. apply vwp_bind_inv. eapply vwp_mono; [eapply opendir_rest; try done; by rewrite R5|]. intros r s' (S & Hr & Hst). specialize (Hst R4). auto.
Qed.


(** ** Requests *)

(** A command of the client [c] that keeps to the protocol. *)
Inductive cmd_ok (s : vst) (c : client) (q : request) : Prop :=
| ok_scroll fd o : q_cmd q = VFS_SCROLL_AREA -> q_data q !! 0%nat = Some fd -> aget (c_ofile c) fd = Some (Some o) -> cmd_ok s c q
| ok_opendir name dir str : q_cmd q = VFS_OPENDIR -> q_data q !! 0%nat = Some name ->
    full_name (c_cwd c) (e_names q) name = Ok dir -> str_at dir 0 str -> cmd_ok s c q
| ok_closedir fd : q_cmd q = VFS_CLOSEDIR -> q_data q !! 0%nat = Some fd -> 0 <= fd < 256 -> cmd_ok s c q
| ok_open name str : q_cmd q = VFS_OPEN -> q_data q !! 0%nat = Some name -> followed (e_names q) name str -> cmd_ok s c q
| ok_close fd : q_cmd q = VFS_CLOSE -> q_data q !! 0%nat = Some fd -> 0 <= fd < 256 ->
    (forall o, aget (c_ofile c) fd = Some (Some o) -> live_cookie s o) -> cmd_ok s c q
| ok_read fd : q_cmd q = VFS_READ -> q_data q !! 0%nat = Some fd -> 0 <= fd < 256 ->
    (forall o, aget (c_ofile c) fd = Some (Some o) -> is_Some (o_pos o)) -> cmd_ok s c q
| ok_rstat name str : q_cmd q = VFS_RSTAT -> q_data q !! 0%nat = Some name -> followed (e_names q) name str -> cmd_ok s c q
| ok_mkdir name str : q_cmd q = VFS_MKDIR -> q_data q !! 0%nat = Some name -> str_at (e_names q) name (47 :: str) -> cmd_ok s c q.

(** The table of the connections, as a map from ports. *)
Definition conns (s : vst) : gmap Z (Z * Z) := Hash.contents (Hash.table (conn_table s)).

Inductive req_ok (s : vst) (q : request) : Prop :=
| ok_conn : q_cmd q = VFS_OPENCONN -> conns s !! q_src q = None -> Hash.used (conn_table s) < 700000 -> req_ok s q
| ok_cmd cl sz c : conns s !! q_src q = Some (cl, sz) -> clients s !! cl = Some c -> cmd_ok s c q -> req_ok s q.

Definition well_formed (q : request) : Prop := args_ok q /\ length (d_name (e_junk q)) = 33%nat.

(** How many entries the shared area holds. *)
Definition room_for (len : Z) : nat := Z.to_nat (u32 (s32 len) / sizeof_dirent).

(** What the client is told of a directory with the inodes [d]. *)
Definition dir_reply (r : vres) (d : sbdata) (n : nat) (p : payload) (w : list (Z * dirent)) : Prop :=
  exists h, listing d h /\ p = PRes (listed r (reported n (length h)) 0) /\ map fst w = places 0 0 (min n (length h)) /\ Forall2 same_entry (take n h) (map snd w).

Lemma list_opened s cl q r d len : wf s -> dir_opened s cl r d -> q_data q !! 3%nat = Some len -> length (d_name (e_junk q)) = 33%nat ->
  vwp (fd <- vlift (deref (mjoin (r_data r !! 0%nat))) ;;
      o <- get_ofile cl fd ;;
      o <- vlift (deref o) ;;
      len <- arg q 3 ;;
      w <- shm_write_dir bd o 0 0 (s32 len) (e_junk q) ;;
      vret (Some (PRes (listed r (fst (fst w)) (snd (fst w))), None : option (list Z), snd w)))
    (fun r' s' => wf s' /\ keeps s s' /\ exists p w, r' = Some (p, None, w) /\ dir_reply r d (room_for len) p w) s.
Proof.
  intros W (i & c1 & o & y & sb & k & h & A1 & A2 & A3 & A4 & A5 & A6 & A7 & A8) H3 Hj. rewrite A1. vgo.
  unfold get_ofile. vgo. eapply vwp_deref; [by rewrite aget_nat|]. vgo.
  eapply vwp_mono; [eapply (shm_write_dir_ok bd s o k h y sb); try done; by eapply listing_names|]. intros [[n more] w] s2 ((l & ->) & B1 & B2 & B3 & B4). vgo.
  simpl in *. split; [by eapply wf_set_cookie|]. split; [apply keeps_cookies; lia|]. eexists _, w. split; [done|]. exists h. by rewrite B1, B2.
Qed.

Lemma dispatch_dir s cl c q name dir str : wf s -> clients s !! cl = Some c -> well_formed q -> q_cmd q = VFS_OPENDIR -> q_data q !! 0%nat = Some name ->
  full_name (c_cwd c) (e_names q) name = Ok dir -> str_at dir 0 str ->
  vwp (dispatch bd cl q) (fun r s' => served s cl c s' /\ is_Some r) s.
Proof.
  intros W Hc [Ha Hj] Hq H0 Hfull Hs. destruct (args_get q 3 Ha) as (d3 & H3 & _); [lia|]. unfold dispatch. pick_case Hq.
  vgo. eapply vwp_mono; [by eapply vfs_opendir_ok|]. intros r s1 [S1 Hr]. apply vwp_if; intros Hst; [|by vgo]. destruct (Hr Hst) as [d Hd].
  eapply vwp_mono; [eapply (list_opened s1 cl q r d d3); try done; apply S1|]. intros r' s2 (W2 & K & p & w & -> & _). split; [|done].
  by eapply served_keeps.
Qed.

Lemma dispatch_ok s cl c q : wf s -> clients s !! cl = Some c -> well_formed q -> cmd_ok s c q ->
  vwp (dispatch bd cl q) (fun r s' => served s cl c s' /\ is_Some r) s.
Proof.
  intros W Hc Hw Hok. pose proof Hw as [Ha _]. destruct Hok as [fd o Hq H0 Ho|name dir str Hq H0 Hf Hs|fd Hq H0 Hfd|name str Hq H0 Hf|fd Hq H0 Hfd Hl|fd Hq H0 Hfd Hp|name str Hq H0 Hf|name str Hq H0 Hs].
  2: by eapply dispatch_dir.
  all: unfold dispatch; pick_case Hq; vgo.
  - eapply vwp_mono; [by eapply vfs_scroll_ok|]. intros; by vgo.
  - eapply vwp_mono; [by eapply vfs_closedir_ok|]. intros; by vgo.
  - eapply vwp_mono; [by eapply vfs_open_ok|]. intros r s1 S1. vgo. unfold shm_write. apply vwp_if; intros _; by vgo.
  - eapply vwp_mono; [by eapply vfs_close_ok|]. intros; by vgo.
  - eapply vwp_mono; [by eapply vfs_read_ok|]. intros; by vgo.
  - eapply vwp_mono; [by eapply vfs_rstat_ok|]. intros; by vgo.
  - destruct (args_get q 1 Ha) as (d1 & H1 & _); [lia|]. vgo. eapply vwp_mono; [by eapply vfs_mkdir_ok|]. intros; by vgo.
Qed.

(** ** One turn of the loop *)

(** What the sender of a request gets, and what the other clients notice of it. *)
Record turn (s : vst) (q : request) (rs : list reply) (s' : vst) : Prop := {
  t_wf : wf s';
  t_stable : stable s s';
  t_vnodes : vnodes s ⊆ vnodes s';
  t_conns : conns s ⊆ conns s';
  t_replies : rs <> [] /\ Forall (fun r => m_dst r = q_src q) rs;
  t_others : forall p c, clients s !! p = Some c -> c_in c <> q_src q -> clients s' !! p = Some c
}.

Lemma replies_to src dst p data : match data with
  | None => Forall (fun r => m_dst r = dst) [Reply src dst p]
  | Some l => Forall (fun r => m_dst r = dst) (Reply src dst p :: map (fun x => Reply src dst (PData x)) (send_data l))
  end.
Proof. destruct data as [l|]; constructor; [done|apply Forall_map, Forall_true; done|done|constructor]. Qed.

Lemma cmd_known s c q : cmd_ok s c q -> q_cmd q <> VFS_OPENCONN.
Proof. by destruct 1 as [? ? H|? ? ? H|? H|? ? H|? H|? H|? ? H|? ? H]; rewrite H. Qed.

Lemma serve_cmd s q cl sz c : wf s -> well_formed q -> conns s !! q_src q = Some (cl, sz) -> clients s !! cl = Some c -> cmd_ok s c q ->
  vwp (serve bd q) (fun r s' => turn s q r.1 s') s.
Proof.
  intros W Hw Hk Hc Hok. pose proof (cmd_known s c q Hok) as Hcmd. destruct (w_conns bd s W) as [[ts Ht] Hconn]. unfold serve. vgo.
  rewrite decide_True by done. vgo. eapply vwp_lift; [by apply (Hash.lookup_ok ts)|]. vgo. unfold Hash.value. fold (conns s). rewrite Hk. simpl.
  eapply vwp_mono; [by eapply dispatch_ok|]. intros r s1 [S1 [[[p data] w] ->]]. destruct (served_client _ _ _ _ S1) as [l Hc1].
  assert (forall x, Forall (fun r => m_dst r = q_src q) x -> x <> [] -> turn s q x (set_stale s1 true)) as Hturn.
  { intros x Hx Hne. split; [by apply wf_stale, S1|apply (sv_stable _ _ _ _ S1)|apply (sv_vnodes _ _ _ _ S1)|unfold conns; simpl; by rewrite (sv_conns _ _ _ _ S1)|done|]. intros p' c' Hp' Hin. simpl. destruct (sv_clients _ _ _ _ S1) as [l' ->].
    destruct (decide (p' = cl)) as [->|]; [|by rewrite lookup_insert_ne]. destruct (Hconn _ _ _ Hk) as (c2 & Hc2 & Hin2). congruence. }
  rewrite decide_False by done. vgo. pose proof (replies_to (c_out c) (q_src q) p data) as Hrep.
  destruct data as [d|]; vgo; apply Hturn; done.
Qed.

Lemma serve_conn s q : wf s -> well_formed q -> q_cmd q = VFS_OPENCONN -> conns s !! q_src q = None -> Hash.used (conn_table s) < 700000 ->
  vwp (serve bd q) (fun r s' => turn s q r.1 s') s.
Proof.
  intros W [Ha _] Hq Hk Hu. destruct (args_get q 0 Ha) as (d0 & H0 & _); [lia|]. destruct (w_conns bd s W) as [[ts Ht] Hconn]. unfold serve. vgo.
  rewrite decide_False by (by intros H). vgo. unfold dispatch. rewrite decide_True by done. vgo. unfold vfs_openconn. vgo.
  destruct (Hash.insert_ok 1 ts (conn_table s) (q_src q) (heap_next s) 1044 Ht (Hash.room ts _ Ht Hu) Hk) as (ts' & t' & E & Ht' & (Hcon & _) & _).
  eapply vwp_lift; [exact E|]. vgo. rewrite decide_True by done. vgo. split; [|apply (stable_refl s)|done|unfold conns in *; simpl; rewrite Hcon; by apply insert_subseteq|split; [done|by constructor]|].
  - apply wf_stale. apply (wf_conn bd s (Client (q_src q) (e_port q) d0 root_cwd (replicate MAX_FDS None)) t' ts'); [done|done| |done|by exists 1044].
    split_and!; [done|done|]. intros i o Hi. cbn [c_ofile] in Hi. by apply lookup_replicate in Hi as [? _].
  - intros p c Hp _. simpl. rewrite lookup_insert_ne; [done|]. intros E'. destruct (w_fresh bd s W p) as (_ & _ & Hn); [lia|]. congruence.
Qed.

Lemma serve_ok s q : wf s -> well_formed q -> req_ok s q -> vwp (serve bd q) (fun r s' => turn s q r.1 s') s.
Proof. intros W Hw [Hq Hn Hu|cl sz c Hk Hc Hok]; [by apply serve_conn|by eapply serve_cmd]. Qed.

(** The states that requests lead to. *)
Inductive reach (s0 : vst) : vst -> Prop :=
| reach_refl : reach s0 s0
| reach_step s q r s' : reach s0 s -> well_formed q -> req_ok s q -> serve bd q s = Ok (r, s') -> reach s0 s'.

Lemma reach_ok s0 s : wf s0 -> reach s0 s -> wf s /\ stable s0 s.
Proof.
  intros W. induction 1 as [|s q r s' Hr [IH1 IH2] Hw Hok E]; [done|].
  destruct (vwp_Ok _ _ _ _ _ (serve_ok s q IH1 Hw Hok) E) as [T1 T2 _ _ _ _]. split; [done|]. by eapply stable_trans.
Qed.

(** ** The start of the server *)

(** Entry [j] of the boot directory is a file of [v] bytes at page [o], called [str]. *)
Definition is_file (j o v : Z) (str : list Z) : Prop :=
  exists t, be_type bd j = Ok t /\ t <> 0 /\ be_offset bd j = Ok o /\ be_vsize bd j = Ok v /\ str_at bd (be_name j) str /\ str <> cstr "SBBB/Directory".

(** A boot area the server can read: every entry in use has a name, and its file is in the area. *)
Definition boot_ok : Prop := forall j, 0 <= j < 64 -> exists t, be_type bd j = Ok t /\
  (t <> 0 -> exists o v str, be_offset bd j = Ok o /\ be_vsize bd j = Ok v /\ str_at bd (be_name j) str /\ file_ok bd (BI 0 o v [])).

(** An inode for a file; names are cut to 31 characters. *)
Definition inode_for (z : bootfs_inode) (o v : Z) (str : list Z) : Prop :=
  bi_offset z = o /\ bi_size z = v /\ str_at (bi_name z) 0 (take 31 str).

Definition inode_ok (z : bootfs_inode) : Prop := is_str (bi_name z) 0 /\ file_ok bd z.

Lemma inew_ok s m name str o v : str_at m name str ->
  vwp (bootfs_inew m name o v) (fun z s' => s' = set_boot_max s (boot_max s + 1) /\ bi_ino z = boot_max s /\ inode_for z o v str) s.
Proof.
  intros Hs. unfold bootfs_inew. vgo. eapply vwp_lift; [apply strlcpy_run; [exact Hs|unfold fits, BOOTDIR_NAMELEN; rewrite length_replicate; lia|unfold BOOTDIR_NAMELEN; lia]|]. vgo.
  split_and!; [done|done|]. split_and!; [done|done|]. cbn [bi_name fst]. apply str_at_splice.
  - unfold fits. rewrite length_take, length_replicate. unfold BOOTDIR_NAMELEN. lia.
  - apply Forall_take. by eapply str_at_chars.
Qed.

(** What the scan of the boot directory leaves. *)
Record scanned (i : Z) (n : nat) (l l' : list bootfs_inode) (bmax : Z) : Prop := {
  sc_ok : Forall inode_ok l';
  sc_keep : forall z, z ∈ l -> z ∈ l';
  sc_files : forall j o v str, i <= j < i + Z.of_nat n -> is_file j o v str -> exists z, (z ∈ l') /\ inode_for z o v str;
  sc_only : forall z, z ∈ l' -> z ∈ l \/ exists j o v str, i <= j < i + Z.of_nat n /\ is_file j o v str /\ inode_for z o v str;
  sc_nodup : NoDup (map bi_ino l');
  sc_max : Forall (fun z => bi_ino z < bmax) l'
}.

Lemma scanned_cons i n l l' bmax z o v str : is_file i o v str -> inode_for z o v str -> scanned (i + 1) n (z :: l) l' bmax -> scanned i (S n) l l' bmax.
Proof.
  intros Hf Hz [A1 A2 A3 A4 A5 A6]. split; [done| | | |done|done].
  - intros y Hy. apply A2. by right.
  - intros j o' v' str' Hj Hj'. destruct (decide (j = i)) as [->|]; [|apply (A3 j); [lia|done]].
    exists z. split; [apply A2; by left|]. destruct Hf as (t & F1 & F2 & F3 & F4 & F5 & _). destruct Hj' as (t' & G1 & G2 & G3 & G4 & G5 & _).
    assert (o' = o) as -> by congruence. assert (v' = v) as -> by congruence. by rewrite (str_at_unique _ _ _ _ G5 F5).
  - intros y Hy. destruct (A4 y Hy) as [[->|?]%elem_of_cons|(j & o' & v' & str' & Hj & F & G)].
    + right. exists i, o, v, str. split_and!; [lia|lia|done..].
    + by left.
    + right. exists j, o', v', str'. split_and!; [lia|lia|done..].
Qed.

Lemma scanned_skip i n l l' bmax : (forall o v str, ~ is_file i o v str) -> scanned (i + 1) n l l' bmax -> scanned i (S n) l l' bmax.
Proof.
  intros Hn [A1 A2 A3 A4 A5 A6]. split; try done.
  - intros j o v str Hj Hf. destruct (decide (j = i)) as [->|]; [by destruct (Hn o v str)|apply (A3 j); [lia|done]].
  - intros z Hz. destruct (A4 z Hz) as [?|(j & o & v & str & Hj & F & G)]; [by left|]. right. exists j, o, v, str. split_and!; [lia|lia|done..].
Qed.

Lemma bootfs_scan_ok n : boot_ok -> forall s i l, 0 <= i -> i + Z.of_nat n <= 64 -> Forall inode_ok l -> NoDup (map bi_ino l) ->
  Forall (fun z => bi_ino z < boot_max s) l ->
  vwp (bootfs_scan bd i l n) (fun l' s' => (exists k, s' = set_boot_max s k) /\ scanned i n l l' (boot_max s')) s.
Proof.
  intros Hb. induction n as [|n IH]; intros s i l Hi Hn Hl Hnd Hmax; cbn [bootfs_scan].
  { vgo. split; [exists (boot_max s); by destruct s|]. split; try done; [intros; lia|by left]. }
  destruct (Hb i) as (t & Ht & Hrest); [lia|]. vgo. destruct (decide (t <> 0)) as [H0|H0].
  2: { vgo. rewrite decide_False by (by intros []). eapply vwp_mono; [apply IH; [lia|lia|done..]|]. intros l' s' [Hs' Hsc]. split; [done|].
       apply scanned_skip; [|done]. intros o v str (t' & E & ? & _). apply H0. congruence. }
  destruct (Hrest H0) as (o & v & str & Ho & Hv & Hs & Hf).
  destruct (strcmp_ok bd (be_name i) (lit "SBBB/Directory") 0 str (cstr "SBBB/Directory") Hs) as (c & Ec & Hc).
  { apply str_at_self. by apply (bool_decide_unpack _); vm_compute. }
  vgo. destruct (decide (t <> 0 /\ c <> 0)) as [[_ Hc0]|Hc0].
  - assert (str <> cstr "SBBB/Directory") as Hne by (intros E; by apply Hc0, Hc). vgo. eapply vwp_mono; [by apply inew_ok|].
    intros z s1 (-> & Hino & Hz). assert (is_file i o v str) as Hfile by by exists t.
    eapply vwp_mono; [apply (IH (set_boot_max s (boot_max s + 1)) (i + 1) (z :: l)); [lia|lia|..]|].
    + constructor; [|done]. destruct Hz as (Z1 & Z2 & Z3). split; [by eexists|]. unfold file_ok in *. simpl in Hf. by rewrite Z1, Z2.
    + simpl. constructor; [|done]. intros (y & Hy & Hin)%list_elem_of_fmap. rewrite Forall_forall in Hmax. specialize (Hmax y Hin). lia.
    + simpl. constructor; [lia|]. eapply Forall_impl; [exact Hmax|]. simpl. intros. lia.
    + intros l' s' [[k ->] Hsc]. split; [by exists k|]. by eapply scanned_cons.
  - eapply vwp_mono; [apply IH; [lia|lia|done..]|]. intros l' s' [Hs' Hsc]. split; [done|]. apply scanned_skip; [|done].
    intros o' v' str' (t' & _ & _ & _ & _ & Hstr & Hne). rewrite (str_at_unique _ _ _ _ Hstr Hs) in Hne. apply Hc0. split; [done|]. intros E. by apply Hne, Hc.
Qed.

Definition new_table : Hash.hashtable := Hash.HT (Hash.fresh 7) 0 0 0 3 4.

(** The state when the root is mounted and /boot is made in it. *)
Definition rooted (port : Z) : vst :=
  VSt [rootfs; bootfs]
    {[1 := SB (lit "/") (Some 2) rootfs (RootData [RI 0 (lit "."); RI 1 (lit ".."); RI 2 (lit "boot")]) new_table]}
    [1] {[2 := Vnode 0 1 1 (Some 0%nat)]} ∅ ∅ new_table 3 3 0 port false.

Lemma init_root port : (_ <- fs_register rootfs ;; _ <- fs_register bootfs ;; _ <- vfs_mount bd (lit "/") (lit "rootfs") ;;
    vfs_mkdir bd (lit "/boot") 0 755) (VSt [] ∅ [] ∅ ∅ ∅ new_table 1 0 0 port false) = Ok (0, rooted port).
Proof. vm_compute. reflexivity. Qed.

(** The state when the boot file system is mounted too, with the inodes [l]. *)
Definition booted (port : Z) (l : list bootfs_inode) (k : Z) (i : nat) : vst :=
  VSt [rootfs; bootfs]
    (<[3 := SB (lit "/boot") (Some 4) bootfs (BootData l) new_table]> (supers (rooted port)))
    [3; 1] (<[4 := Vnode 0 1 3 (Some i)]> (vnodes (rooted port))) ∅ ∅ new_table 5 3 k port false.

Definition dots (l : list bootfs_inode) : Prop :=
  exists a b, l = [a; b] /\ bi_ino a = 0 /\ bi_ino b = 1 /\ inode_for a 0 0 (cstr ".") /\ inode_for b 0 0 (cstr "..").

Lemma mount_boot port : boot_ok ->
  vwp (vfs_mount bd (lit "/boot") (lit "bootfs")) (fun _ s' => exists l0 l k i, s' = booted port l k i /\
    dots l0 /\ scanned 0 64 l0 l k /\ inode_index (BootData l) 0 = Some i) (rooted port).
Proof.
  intros Hb. unfold vfs_mount. apply vwp_bind, vwp_st, vwp_bind, (vwp_lift _ (Some bootfs)); [done|].
  apply vwp_bind, vwp_new, vwp_bind, (vwp_lift _ (lit "/boot")); [done|]. apply vwp_bind, (vwp_lift _ new_table); [done|].
  vgo. unfold bootfs_mount. vgo.
  assert (forall str, bool_decide (Forall (fun c => 0 < c < 256) str) = true -> str_at (str ++ [0]) 0 str) as Hlit.
  { intros str H. apply str_at_self. by rewrite bool_decide_eq_true in H. }
  eapply vwp_mono; [by apply (inew_ok _ (lit ".") 0 (cstr ".")), Hlit|]. intros a s1 (-> & Ha & Hia). vgo.
  eapply vwp_mono; [by apply (inew_ok _ (lit "..") 0 (cstr "..")), Hlit|]. intros b s2 (-> & Hbi & Hib). vgo. simpl in Ha, Hbi.
  assert (forall z str, inode_for z 0 0 str -> inode_ok z) as Hok.
  { intros z str (Z1 & Z2 & Z3). split; [by eexists|]. unfold file_ok. rewrite Z1, Z2. change (s32 (0 * 4096)) with 0. lia. }
  eapply vwp_mono; [apply (bootfs_scan_ok 64 Hb _ 0 [a; b]); [lia|lia|..]|].
  { constructor; [by eapply Hok|]. constructor; [by eapply Hok|constructor]. }
  { simpl. rewrite Ha, Hbi. by apply (bool_decide_unpack _); vm_compute. }
  { simpl. constructor; [lia|]. constructor; [lia|constructor]. }
  intros l s3 [[k ->] Hsc]. simpl in Hsc. vgo.
  destruct (inode_index_ex (BootData l) (bi_ino a, bi_name a)) as [i Hi].
  { simpl. apply list_elem_of_fmap. exists a. split; [done|]. apply (sc_keep _ _ _ _ _ Hsc). by left. }
  simpl in Hi. rewrite Ha in Hi. eapply vget_ok; [simpl; apply lookup_insert_eq|exact Hi|]. vgo.
  rewrite decide_True by done. vgo.
  exists [a; b], l, k, i. split_and!; [|by exists a, b|done|done]. unfold booted, with_vnode. simpl. by rewrite !insert_insert_eq.
Qed.


Lemma booted_wf port l0 l k i : scanned 0 64 l0 l k -> inode_index (BootData l) 0 = Some i -> wf (booted port l k i).
Proof.
  intros Hsc Hi. split; simpl.
  - intros p [->|[->|?%elem_of_nil]%elem_of_cons]%elem_of_cons; [by rewrite lookup_insert_eq| |done]. rewrite lookup_insert_ne by done. by rewrite lookup_singleton_eq.
  - intros p x [[<- <-]|[_ [<- <-]%lookup_singleton_Some]]%lookup_insert_Some; split; simpl.
    + exists (cstr "/boot"). by vm_compute.
    + apply (sc_ok _ _ _ _ _ Hsc).
    + exists 4, (Vnode 0 1 3 (Some i)). by rewrite lookup_insert_eq.
    + exists (cstr "/"). by vm_compute.
    + split; [done|]. apply Forall_cons. split; [exists (cstr "."); by vm_compute|]. apply Forall_cons. split; [exists (cstr ".."); by vm_compute|].
      apply Forall_singleton. exists (cstr "boot"). by vm_compute.
    + exists 2, (Vnode 0 1 1 (Some 0%nat)). rewrite lookup_insert_ne by done. by rewrite lookup_singleton_eq.
  - intros v y [[<- <-]|[_ [<- <-]%lookup_singleton_Some]]%lookup_insert_Some; simpl.
    + eexists _, i. simpl. rewrite lookup_insert_eq. split_and!; [done|done|]. apply inode_index_Some in Hi as [n Hn]. by apply lookup_lt_Some in Hn.
    + eexists _, 0%nat. simpl. rewrite lookup_insert_ne, lookup_singleton_eq by done. split_and!; [done|done|simpl; lia].
  - intros p c. by rewrite lookup_empty.
  - split; simpl; [exists 7; apply Hash.ht_wf_fresh; [unfold Hash.max_index; lia|done|lia]|]. intros j p d Hj.
    unfold Hash.contents in Hj. by rewrite (proj1 (Hash.live_fresh 7)) in Hj.
  - lia.
  - intros j Hj. split_and!; [|done|done]. rewrite !lookup_insert_ne by lia. rewrite lookup_singleton_ne by lia. done.
  - exists 1. eexists. split; [right; by left|]. split; [rewrite lookup_insert_ne by done; apply lookup_singleton_eq|by vm_compute].
Qed.

Lemma vfs_init_ok port : boot_ok -> exists l0 l k i, vfs_init bd port = Ok (booted port l k i) /\ dots l0 /\ scanned 0 64 l0 l k /\
  inode_index (BootData l) 0 = Some i.
Proof.
  intros Hb. destruct (mount_boot port Hb) as (r & s & E & l0 & l & k & i & -> & Hd & Hs & Hi). exists l0, l, k, i. split; [|done].
  pose proof (init_root port) as E0. unfold vfs_init, vbind in *. cbn [Hash.hashtable_new] in *.
  change (Hash.hashtable_new 3 4) with (Ok new_table : cres _). cbn [cbind].
  destruct (fs_register rootfs _) as [[a1 s1]| |]; [|done|done]. cbn [cbind] in *. destruct (fs_register bootfs s1) as [[a2 s2]| |]; [|done|done].
  cbn [cbind] in *. destruct (vfs_mount bd (lit "/") (lit "rootfs") s2) as [[a3 s3]| |]; [|done|done]. cbn [cbind] in *.
  rewrite E0. cbn [cbind]. by rewrite E.
Qed.

(** C40. The vfs server: it starts on every boot area it can read, and in every state that requests lead to, its heap is
  well formed and a request that keeps to the protocol is answered: the server does not
  fault, replies to the sender only, leaves the descriptors of the other clients alone,
  and is in a well-formed state again. *)
Theorem vfs_server_safe port (Hb : boot_ok) :
  exists s0, vfs_init bd port = Ok s0 /\ forall s, reach s0 s -> wf s /\
    forall q, well_formed q -> req_ok s q -> exists rs w s', serve bd q s = Ok ((rs, w), s') /\ turn s q rs s'.
Proof.
  destruct (vfs_init_ok port Hb) as (l0 & l & k & i & E & _ & Hs & Hi). eexists. split; [exact E|]. intros s Hr.
  destruct (reach_ok _ s (booted_wf port l0 l k i Hs Hi) Hr) as [W _]. split; [done|]. intros q Hw Hok.
  destruct (serve_ok s q W Hw Hok) as ([rs w] & s' & E' & Ht). by exists rs, w, s'.
Qed.

(** ** What the conditions rule out *)

(** vfs_close frees the cookie and keeps the descriptor: closing a file again frees the
  cookie again. *)
Lemma close_twice_faults s cl c q fd o y sb k z : clients s !! cl = Some c -> q_data q !! 0%nat = Some fd -> aget (c_ofile c) fd = Some (Some o) ->
  vnodes s !! o_vnode o = Some y -> supers s !! v_sb y = Some sb -> sb_vops sb = bootfs -> o_cookie o = Some k -> cookies s !! k = Some z ->
  exists r s1, vfs_close bd cl q s = Ok (r, s1) /\ vfs_close bd cl q s1 = Fault.
Proof.
  intros Hc H0 Ho Hy Hsb Hf Hk Hz.
  assert (forall s1, clients s1 = clients s -> vnodes s1 = vnodes s -> supers s1 = supers s ->
    vfs_close bd cl q s1 = (_ <- bootfs_free_cookie (Some k) ;; vret (VRes VFS_OK 0 no_data)) s1) as Hclose.
  { intros s1 E1 E2 E3. unfold vfs_close, get_ofile, arg, get_client, get_vnode, get_super, vbind, vlift. change 0 with (Z.of_nat 0). rewrite aget_nat, H0. cbn [deref cbind].
    rewrite E1, Hc. cbn [deref cbind]. rewrite Ho. cbn [deref cbind]. rewrite E2, Hy. cbn [deref cbind]. rewrite E3, Hsb. cbn [deref cbind]. rewrite Hf, Hk. done. }
  rewrite Hclose by done. unfold bootfs_free_cookie at 1, vbind at 1. cbn [deref cbind]. rewrite Hz. cbn [deref cbind]. eexists _, _. split; [done|].
  rewrite Hclose by done. unfold bootfs_free_cookie, vbind. cbn [deref cbind cookies set_cookies]. by rewrite lookup_delete_eq.
Qed.

(** A request from a port that never connected is served with a null pointer for its client. *)
Lemma unknown_client_faults s q fd : wf s -> conns s !! q_src q = None -> q_cmd q = VFS_CLOSE -> q_data q !! 0%nat = Some fd -> serve bd q s = Fault.
Proof.
  intros W Hk Hq H0. destruct (w_conns bd s W) as [[ts Ht] _]. destruct (w_fresh bd s W 0) as (_ & _ & Hn); [lia|].
  unfold serve, vbind, vget_st, vlift. cbn [cbind]. rewrite Hq. rewrite (decide_True (P := VFS_CLOSE <> _)) by done. rewrite (Hash.lookup_ok ts) by done. cbn [cbind].
  unfold Hash.value. fold (conns s). rewrite Hk. cbn [default fst]. change (vret 0 s) with (Ok (0, s)). cbn [cbind].
  unfold dispatch. pick_case Hq. unfold vfs_close, get_ofile, arg, get_client, vbind, vlift.
  change (aget (q_data q) 0) with (q_data q !! 0%nat). rewrite H0. cbn [deref cbind]. by rewrite Hn.
Qed.

(** ** Checking a boot area *)

Fixpoint read_str (m : list Z) (p : Z) (fuel : nat) : option (list Z) :=
  match fuel with
  | O => None
  | S fuel =>
      match aget m p with
      | None => None
      | Some c => if decide (c = 0) then Some [] else if decide (0 < c < 256) then cons c <$> read_str m (p + 1) fuel else None
      end
  end.

Lemma read_str_ok m fuel : forall p str, read_str m p fuel = Some str -> str_at m p str.
Proof.
  induction fuel as [|fuel IH]; intros p str; simpl; [done|]. destruct (aget m p) as [c|] eqn:E; [|done]. case_decide; [intros [= <-]; by subst|].
  case_decide; [|done]. intros (t & Ht & ->)%fmap_Some. simpl. split_and!; [done|lia|lia|]. by apply IH.
Qed.

#[local] Instance file_ok_dec z : Decision (file_ok bd z) := _.

Definition entry_okb (j : Z) : bool :=
  match be_type bd j with
  | Ok t => if decide (t = 0) then true else
      match be_offset bd j, be_vsize bd j, read_str bd (be_name j) 32 with
      | Ok o, Ok v, Some _ => bool_decide (file_ok bd (BI 0 o v []))
      | _, _, _ => false
      end
  | _ => false
  end.

Lemma boot_okb_ok : forallb entry_okb (seqZ 0 64) = true -> boot_ok.
Proof.
  intros H j Hj. rewrite forallb_forall in H. specialize (H j). unfold entry_okb in H. assert (j ∈ seqZ 0 64) as Hin by (apply elem_of_seqZ; lia).
  apply list_elem_of_In in Hin. specialize (H Hin). destruct (be_type bd j) as [t| |]; [|done|done]. exists t. split; [done|]. intros Ht. rewrite decide_False in H by done.
  destruct (be_offset bd j) as [o| |]; [|done|done]. destruct (be_vsize bd j) as [v| |]; [|done|done].
  destruct (read_str bd (be_name j) 32) as [str|] eqn:E; [|done]. exists o, v, str. split_and!; [done|done|by eapply read_str_ok|]. by rewrite bool_decide_eq_true in H.
Qed.
End server.

(** ** An example *)

Definition pad (l : list Z) (n : nat) : list Z := l ++ replicate (n - length l) 0.
Definition le32 (x : Z) : list Z := [x mod 256; x / 256 mod 256; x / 65536 mod 256; x / 16777216 mod 256].
Definition ex_entry (name : string) (offset type vsize : Z) : list Z :=
  pad (pad (cstr name) 32 ++ le32 offset ++ le32 type ++ le32 1 ++ le32 vsize) 64.

(** A boot area with one file, of five bytes. *)
Definition ex_boot : list Z := pad (ex_entry "SBBB/Directory" 0 1 1 ++ ex_entry "motd" 1 4 5) 4096 ++ pad (cstr "Hello") 4096.

Definition ex_junk : dirent := Dirent 0 0 (replicate 33 0).
(** A program connects from port 9. *)
Definition ex_conn : request := Req 9 VFS_OPENCONN [5; 0; 0; 0; 0; 0] (replicate 64 0) 77 ex_junk.

Lemma ex_boot_ok : boot_ok ex_boot.
Proof. apply boot_okb_ok. by vm_compute. Qed.

Lemma ex_conn_formed : well_formed ex_conn.
Proof. split; [split; [done|]|done]. simpl. repeat (apply Forall_cons; split; [lia|]). by apply Forall_nil. Qed.

Lemma ex_conn_ok s : vfs_init ex_boot 50 = Ok s -> req_ok s ex_conn.
Proof.
  intros E. assert (match vfs_init ex_boot 50 with Ok s => bool_decide (conns s !! 9 = None /\ Hash.used (conn_table s) < 700000) | _ => false end = true) as H by by vm_compute.
  rewrite E, bool_decide_eq_true in H. destruct H as [H1 H2]. apply ok_conn; [reflexivity|exact H1|exact H2].
Qed.

Lemma vfs_server_safe_witness : exists s0, vfs_init ex_boot 50 = Ok s0 /\ exists rs w s', serve ex_boot ex_conn s0 = Ok ((rs, w), s') /\ turn ex_boot s0 ex_conn rs s'.
Proof.
  destruct (vfs_server_safe ex_boot 50 ex_boot_ok) as (s0 & E & H). exists s0. split; [done|].
  apply (H s0); [apply reach_refl|apply ex_conn_formed|by apply ex_conn_ok].
Defined.

End VfsSafe.
