(* ===== verification/VfsFile.v ===== *)
(** lib/libposix/vfs.c: the library's side of the vfs protocol, and what a program reads
  through it.

  A call sends its request, the server takes a turn on it and its replies are queued at
  the library's port; the call then receives from the head of the queue.  [Panic] stands
  for a wait for a message that does not come.  A result that is read although no result
  was received is a [Fault].  The words of a request that are not set are 0, [junk] is
  what the stack of the server holds, [area] what area_create returns. *)
From S2P Require Import Prelude LibC Path Hash Vfs VfsInv VfsSafe.
Import LibC Vfs VfsInv VfsSafe.
Local Open Scope Z_scope.
Local Open Scope c_scope.

Module VfsFile.

(** ** The library *)

Record cst := CSt { k_srv : vst; k_queue : list payload; k_names : list Z; k_local : Z; k_remote : Z; k_errno : Z }.
Definition set_queue (k : cst) (q : list payload) : cst := CSt (k_srv k) q (k_names k) (k_local k) (k_remote k) (k_errno k).
Definition set_errno (k : cst) (e : Z) : cst := CSt (k_srv k) (k_queue k) (k_names k) (k_local k) (k_remote k) e.
Definition set_names (k : cst) (m : list Z) : cst := CSt (k_srv k) (k_queue k) m (k_local k) (k_remote k) (k_errno k).

(** vfs_fd and DIR. *)
Record vfs_fd := VFd { srv_fd : Z; fd_offset : Z; fd_length : option Z; fd_more : option Z }.
Record DIR := Dir { dir_fd : Z; dir_area : list (Z * dirent); dir_current : Z; dir_more : Z; dir_len : Z; dir_left : Z }.

Section library.
Context (bd : list Z) (junk : dirent).

(** old_port_send to the server, which answers. *)
Definition send (k : cst) (cmd : Z) (data : list Z) (port : Z) : cres (cst * list (Z * dirent)) :=
  let! (r, srv) := serve bd (Req (k_local k) cmd (data ++ replicate (6 - length data) 0) (k_names k) port junk) (k_srv k) in
  Ok (CSt srv (k_queue k ++ map m_payload (fst r)) (k_names k) (k_local k) (k_remote k) (k_errno k), snd r).

(** old_port_recv. *)
Definition recv (k : cst) : cres (payload * cst) :=
  match k_queue k with [] => Panic "wait" | p :: l => Ok (p, set_queue k l) end.
(** Into a vfs_res_t: file data is no result. *)
Definition recv_res (k : cst) : cres (option vres * cst) :=
  let! (p, k) := recv k in Ok (match p with PRes r | PStat r _ => Some r | PData _ => None end, k).
(** Into a buffer of [size] bytes. *)
Definition recv_data (k : cst) (size : Z) : cres (list Z * cst) :=
  let! (p, k) := recv k in match p with PData l => Ok (take (Z.to_nat size) l, k) | _ => Fault end.
Definition word (r : vres) (i : nat) : cres Z := deref (mjoin (r_data r !! i)).

Definition __vfs_openconn (k : cst) (filename_area port : Z) : cres cst :=
  let! (k, _) := send k VFS_OPENCONN [filename_area] port in
  let! (vr, k) := recv_res k in
  let? vr := vr in
  let! p := word vr 0 in
  Ok (CSt (k_srv k) (k_queue k) (k_names k) (if decide (r_status vr <> VFS_OK) then -1 else k_local k) p (k_errno k)).

(** [strlcpy (nameptr, name, BLT_MAX_NAME_LENGTH);] *)
Definition put_name (k : cst) (m : list Z) (name : Z) : cres cst :=
  let! r := strlcpy (k_names k) 0 m name BLT_MAX_NAME_LENGTH in Ok (set_names k (fst r)).

Definition _opendir (k : cst) (m : list Z) (name area : Z) : cres (option DIR * cst) :=
  let! k := put_name k m name in
  let! (k, w) := send k VFS_OPENDIR [0; area; 0; 0x2000] 0 in
  let! (vr, k) := recv_res k in
  let? vr := vr in
  if decide (r_status vr <> VFS_OK) then Ok (None, set_errno k (r_errno vr)) else
  let! fd := word vr 0 in let! more := word vr 2 in let! len := word vr 1 in
  Ok (Some (Dir fd w 0 more len len), k).

(** The entry at dirp->current, in the area the server wrote to. *)
Definition _readdir (d : DIR) : cres (option dirent * DIR) :=
  if decide (0 < dir_left d) then
    let? e := list_find (fun e => fst e = dir_current d * sizeof_dirent) (dir_area d) in
    Ok (Some (snd (snd e)), Dir (dir_fd d) (dir_area d) (dir_current d + 1) (dir_more d) (dir_len d) (dir_left d - 1))
  else Ok (None, Dir (dir_fd d) (dir_area d) (dir_current d) (dir_more d) (dir_len d) (dir_left d - 1)).

Definition _closedir (k : cst) (d : option DIR) : cres (Z * cst) :=
  match d with
  | None => Ok (-1, set_errno k EBADF)
  | Some d =>
      let! (k, _) := send k VFS_CLOSEDIR [dir_fd d] 0 in
      let! (vr, k) := recv_res k in
      let? vr := vr in
      Ok (if decide (r_status vr = VFS_OK) then 0 else 1, set_errno k (r_errno vr))
  end.

(** The descriptor in the table of the process comes with fdl.c; this is the vfs_fd. *)
Definition _open (k : cst) (m : list Z) (path area : Z) : cres (option vfs_fd * cst) :=
  let! k := put_name k m path in
  let! (k, _) := send k VFS_OPEN [0; area; 0; 0x2000] 0 in
  let! (vr, k) := recv_res k in
  let? vr := vr in
  if decide (r_status vr <> VFS_OK) then Ok (None, set_errno k (r_errno vr)) else
  let! fd := word vr 0 in
  Ok (Some (VFd fd 0 (mjoin (r_data vr !! 1%nat)) (mjoin (r_data vr !! 2%nat))), k).

Definition _vfs_close (k : cst) (vfd : vfs_fd) : cres (Z * cst) :=
  let! (k, _) := send k VFS_CLOSE [srv_fd vfd] 0 in
  let! (vr, k) := recv_res k in
  let? vr := vr in
  if decide (r_status vr <> VFS_OK) then Ok (-1, set_errno k (r_errno vr)) else Ok (0, k).

(** [for (i = 0; len > 0x1000; i += 0x1000, len -= 0x1000)] and the message behind it. *)
Fixpoint recv_loop (k : cst) (len : Z) (fuel : nat) : cres (list Z * cst) :=
  match fuel with
  | O => Fault
  | S fuel =>
      if decide (0x1000 < len) then
        let! (a, k) := recv_data k 0x1000 in
        let! (b, k) := recv_loop k (len - 0x1000) fuel in
        Ok (a ++ b, k)
      else recv_data k len
  end.

(** The result, and what is in the buffer. *)
Definition _vfs_read (k : cst) (vfd : vfs_fd) (count : Z) : cres (Z * list Z * cst) :=
  let! (k, _) := send k VFS_READ [srv_fd vfd; count] 0 in
  let! (vr, k) := recv_res k in
  let? vr := vr in
  let! len := word vr 0 in
  let len := s32 len in
  if decide (len = 0) then Ok (0, [], set_errno k 0) else
  if decide (len < 0x1000) then
    let! (buf, k) := recv_data k count in
    Ok (len, buf, set_errno k (r_errno vr))
  else
    let! (buf, k) := recv_loop k len (S (Z.to_nat (len / 0x1000))) in
    Ok (len, buf, set_errno k (r_errno vr)).

Definition _stat (k : cst) (m : list Z) (name : Z) : cres (Z * option stat * cst) :=
  let! k := put_name k m name in
  let! (k, _) := send k VFS_RSTAT [0] 0 in
  let! (p, k) := recv k in
  match p with
  | PStat vr st => if decide (r_status vr = VFS_OK) then Ok (0, st, k) else Ok (-1, None, set_errno k (r_errno vr))
  | PRes vr => if decide (r_status vr = VFS_OK) then Fault else Ok (-1, None, set_errno k (r_errno vr))
  | PData _ => Fault
  end.

Definition _mkdir (k : cst) (m : list Z) (path mode : Z) : cres (Z * cst) :=
  let! k := put_name k m path in
  let! (k, _) := send k VFS_MKDIR [0; mode] 0 in
  let! (vr, k) := recv_res k in
  let? vr := vr in
  if decide (r_status vr <> VFS_OK) then Ok (-1, set_errno k (r_errno vr)) else Ok (0, k).

(** ** Data in several messages *)

Lemma recv_loop_chunks data : forall f1 f2 k rest, (length data <= f1)%nat -> Z.of_nat (length data) <= 0x1000 * Z.of_nat f2 -> (0 < f2)%nat ->
  k_queue k = map PData (chunk_loop data f1) ++ rest -> recv_loop k (Z.of_nat (length data)) f2 = Ok (data, set_queue k rest).
Proof.
  intros f1 f2. revert data f1. induction f2 as [|f2 IH]; intros data f1 k rest H1 H2 Hpos Hq; [lia|]. cbn [recv_loop].
  destruct (decide (0x1000 < Z.of_nat (length data))) as [Hlt|Hle].
  - destruct f1 as [|f1]; [lia|]. cbn [chunk_loop] in Hq. rewrite decide_True in Hq by done. simpl in Hq.
    unfold recv_data at 1, recv at 1. rewrite Hq. cbn [cbind]. rewrite take_take, Nat.min_id.
    assert (length (drop 4096 data) = length data - 4096)%nat as Hd by by rewrite length_drop.
    specialize (IH (drop 4096 data) f1 (set_queue k (map PData (chunk_loop (drop 4096 data) f1) ++ rest)) rest).
    rewrite Hd in IH. replace (Z.of_nat (length data - 4096)) with (Z.of_nat (length data) - 0x1000) in IH by lia.
    rewrite IH by (lia || done). cbn [cbind]. by rewrite take_drop.
  - assert (chunk_loop data f1 = [data]) as Hch by (destruct f1; [done|cbn [chunk_loop]; by rewrite decide_False]).
    rewrite Hch in Hq. simpl in Hq. unfold recv_data, recv. rewrite Hq. cbn [cbind]. by rewrite take_ge by lia.
Qed.

(** What [_vfs_read] makes of the replies to a read of [data]. *)
Lemma recv_data_ok data k rest count : 0 < Z.of_nat (length data) -> Z.of_nat (length data) <= count ->
  k_queue k = map PData (send_data data) ++ rest ->
  (if decide (Z.of_nat (length data) < 0x1000) then recv_data k count
   else recv_loop k (Z.of_nat (length data)) (S (Z.to_nat (Z.of_nat (length data) / 0x1000)))) = Ok (data, set_queue k rest).
Proof.
  intros Hpos Hc Hq. unfold send_data in Hq. case_decide as Hd.
  - simpl in Hq. unfold recv_data, recv. rewrite Hq. cbn [cbind]. by rewrite take_ge by lia.
  - eapply recv_loop_chunks; [reflexivity| |lia|exact Hq]. pose proof (Z.div_mod (Z.of_nat (length data)) 0x1000 ltac:(lia)).
    pose proof (Z.mod_pos_bound (Z.of_nat (length data)) 0x1000 ltac:(lia)). pose proof (Z.div_pos (Z.of_nat (length data)) 0x1000 ltac:(lia) ltac:(lia)). lia.
Qed.

(** ** Open files *)

(** The descriptor [fd] of the client at port [lp] is the file [z], read up to [pos]. *)
Definition opened (s : vst) (lp cl fd : Z) (z : bootfs_inode) (pos : Z) : Prop :=
  exists sz c o y x l j, conns s !! lp = Some (cl, sz) /\ clients s !! cl = Some c /\ aget (c_ofile c) fd = Some (Some o) /\
    vnodes s !! o_vnode o = Some y /\ v_data y = Some j /\ supers s !! v_sb y = Some x /\ sb_vops x = bootfs /\ sb_data x = BootData l /\
    l !! j = Some z /\ o_pos o = Some pos.

(** Requests of other clients do not touch it. *)
Lemma opened_other s q rs s' lp cl fd z pos : wf bd s -> turn bd s q rs s' -> q_src q <> lp -> opened s lp cl fd z pos -> opened s' lp cl fd z pos.
Proof.
  intros W T Hq (sz & c & o & y & x & l & j & H1 & H2 & H3 & H4 & H5 & H6 & H7 & H8 & H9 & H10).
  destruct (w_conns bd s W) as [_ Hc]. destruct (Hc _ _ _ H1) as (c' & Hc' & Hin). rewrite H2 in Hc'. injection Hc' as <-.
  destruct (t_stable _ _ _ _ _ T) as [_ Hst]. destruct (Hst _ _ H6) as (x' & Hx' & _ & A2 & A3).
  exists sz, c, o, y, x', l, j. split_and!; try done.
  - eapply lookup_weaken; [exact H1|apply (t_conns _ _ _ _ _ T)].
  - apply (t_others _ _ _ _ _ T); [done|congruence].
  - eapply lookup_weaken; [exact H4|apply (t_vnodes _ _ _ _ _ T)].
  - congruence.
  - rewrite A3 by done. done.
Qed.

(** The bytes from [pos] on, at most [count]. *)
Definition next_bytes (z : bootfs_inode) (pos count : Z) : list Z := take (Z.to_nat count) (drop (Z.to_nat pos) (file_bytes bd z)).

Lemma vfs_read_exact s cl c q fd count o y x l j z pos : wf bd s -> clients s !! cl = Some c -> q_data q !! 0%nat = Some fd -> q_data q !! 1%nat = Some count ->
  0 <= count < 2 ^ 32 -> aget (c_ofile c) fd = Some (Some o) -> vnodes s !! o_vnode o = Some y -> v_data y = Some j -> supers s !! v_sb y = Some x ->
  sb_vops x = bootfs -> sb_data x = BootData l -> l !! j = Some z -> o_pos o = Some pos -> 0 <= pos < 2 ^ 31 ->
  let data := next_bytes z pos count in let n := Z.of_nat (length data) in
  vwp (vfs_read bd cl q) (fun r s' => r = (VRes VFS_OK 0 (<[0%nat := Some n]> no_data), Some data) /\
    s' = with_ofile s cl c (Z.to_nat fd) (Some (OFile (o_vnode o) (o_cookie o) (o_area o) (o_offset o) (o_length o) (Some (s32 (pos + n)))))) s.
Proof.
  intros W Hc H0 H1 Hn Ho Hy Hj Hx Hf Hl Hz Hp Hpos data n. unfold vfs_read, get_ofile. vgo. cbv iota. vgo.
  assert (read (t_vops bd (sb_vops x)) = Some (bootfs_read bd)) as Hread by by rewrite Hf. rewrite Hread. vgo. rewrite (u32_small pos) by lia.
  eapply vwp_mono; [apply (read_ok bd s (o_vnode o) y x _ count pos (o_cookie o)); [done|done|done|exact Hread|lia|lia]|].
  intros r s' (-> & l' & j' & z' & Hl' & Hj' & Hz' & ->). assert (z' = z) as -> by congruence. cbv zeta. vgo.
  eapply set_ofile_Z; [done|by apply aget_Some in Ho as [? _]|]. vgo. done.
Qed.

(** The replies to a read. *)
Definition read_replies (src lp : Z) (data : list Z) : list reply :=
  Reply src lp (PRes (VRes VFS_OK 0 (<[0%nat := Some (Z.of_nat (length data))]> no_data))) :: map (fun x => Reply src lp (PData x)) (send_data data).

Lemma file_length z : file_ok bd z -> Z.of_nat (length (file_bytes bd z)) = bi_size z.
Proof. intros (H1 & H2 & H3). unfold file_bytes. rewrite length_slice; [lia|]. unfold fits. lia. Qed.

Lemma next_length z pos count : file_ok bd z -> 0 <= pos -> pos + Z.of_nat (length (next_bytes z pos count)) <= Z.max pos (bi_size z).
Proof. intros Hf Hp. pose proof (file_length z Hf). unfold next_bytes. rewrite length_take, length_drop. lia. Qed.

Lemma opened_file s lp cl fd z pos : wf bd s -> opened s lp cl fd z pos -> file_ok bd z.
Proof.
  intros W (sz & c & o & y & x & l & j & _ & _ & _ & _ & _ & Hx & Hf & Hl & Hz & _). pose proof (so_data _ _ _ _ (w_super bd s W _ _ Hx)) as Hd.
  rewrite Hf, Hl in Hd. simpl in Hd. by eapply (Forall_lookup_1 _ _ _ _ Hd Hz).
Qed.

Lemma serve_read s lp cl fd z pos q count : wf bd s -> opened s lp cl fd z pos -> 0 <= pos < 2 ^ 31 -> q_src q = lp -> q_cmd q = VFS_READ ->
  q_data q !! 0%nat = Some fd -> q_data q !! 1%nat = Some count -> 0 <= count < 2 ^ 32 ->
  let data := next_bytes z pos count in
  vwp (serve bd q) (fun r s' => (exists src, r = (read_replies src lp data, [])) /\ wf bd s' /\ stable s s' /\ opened s' lp cl fd z (pos + Z.of_nat (length data))) s.
Proof.
  intros W Hop Hpos Hsrc Hq H0 H1 Hn data. pose proof (opened_file _ _ _ _ _ _ W Hop) as Hfile. pose proof (next_length z pos count Hfile ltac:(lia)) as Hlen.
  destruct Hop as (sz & c & o & y & x & l & j & A1 & A2 & A3 & A4 & A5 & A6 & A7 & A8 & A9 & A10).
  destruct (w_conns bd s W) as [[ts Ht] _]. unfold serve. vgo. rewrite Hq. rewrite (decide_True (P := VFS_READ <> _)) by done. vgo.
  eapply vwp_lift; [by apply (Hash.lookup_ok ts)|]. vgo. unfold Hash.value. fold (conns s). rewrite Hsrc, A1. simpl.
  unfold dispatch. pick_case Hq. vgo. eapply vwp_mono; [by apply (vfs_read_exact s cl c q fd count o y x l j z pos)|].
  intros r s' [-> ->]. vgo. cbn [snd fst]. vgo.
  destruct Hfile as (Hsz & _). fold data in Hlen |- *. rewrite (s32_small (pos + _)) by lia. set (o' := OFile _ _ _ _ _ _). split; [|split; [|split]].
  - by exists (c_out c).
  - apply wf_stale. apply wf_ofile; [done|done|]. intros ? [= <-]. by exists y.
  - apply (stable_refl s).
  - eexists sz, _, o', y, x, l, j. simpl. split_and!; [done|apply lookup_insert_eq| |done..]. simpl.
    apply aget_Some in A3 as [Hr _]. by rewrite aget_insert_eq by lia.
Qed.

(** ** Opening a file *)

Lemma index_of_inode l j z : NoDup (map bi_ino l) -> l !! j = Some z -> inode_index (BootData l) (bi_ino z) = Some j.
Proof.
  intros Hnd Hj. simpl. assert (list_find (fun i => bi_ino i = bi_ino z) l = Some (j, z)) as ->; [|done]. apply list_find_Some. split_and!; [done|done|].
  intros k y Hk Hlt E. apply (NoDup_lookup (map bi_ino l) k j (bi_ino z)) in Hnd; [lia|..]; rewrite list_lookup_fmap; [by rewrite Hk, <- E|by rewrite Hj].
Qed.

Lemma named_inode l name e : first_named (inodes_of (BootData l)) name (Some e) -> exists j z, l !! j = Some z /\ e = (bi_ino z, bi_name z) /\ str_at (bi_name z) 0 name.
Proof.
  intros H. pose proof (named_elem _ _ _ H) as Hin. destruct H as (_ & _ & _ & Hs & _). simpl in Hin. apply list_elem_of_fmap in Hin as (z & -> & Hz).
  apply list_elem_of_lookup in Hz as [j Hj]. by exists j, z.
Qed.

(** The file [z] of the file system at [p] is open at [fd]. *)
Lemma vfs_open_exact s cl c q path str name ds e x l i : wf bd s -> clients s !! cl = Some c -> args_ok q -> q_data q !! 0%nat = Some path ->
  free_fd (c_ofile c) = Some i -> str_at (e_names q) path str -> mounts s ds -> best_dir ds str None = Some e -> supers s !! e.1 = Some x ->
  sb_vops x = bootfs -> sb_data x = BootData l -> NoDup (map bi_ino l) -> str_at (e_names q) (path + Z.of_nat (length e.2) + 1) name ->
  (exists z, (z ∈ l) /\ str_at (bi_name z) 0 name) ->
  vwp (vfs_open bd cl q) (fun r s' => served bd s cl c s' /\ r = VRes VFS_OK 0 (<[0%nat := Some (Z.of_nat i)]> no_data) /\
    exists c' o y j z, clients s' !! cl = Some c' /\ c_ofile c' !! i = Some (Some o) /\ vnodes s' !! o_vnode o = Some y /\ v_data y = Some j /\ v_sb y = e.1 /\
      l !! j = Some z /\ o_pos o = Some 0 /\ str_at (bi_name z) 0 name) s.
Proof.
  intros W Hc Ha H0 Hi Hs Hm He Hx Hf Hl Hnd Hname (z0 & Hz0 & Hn0). pose proof (served_refl bd s cl c W Hc) as S0. unfold vfs_open. vgo. rewrite Hi. vgo.
  eapply fs_find_ok; [done|exact Hm|]. rewrite He. cbn [fmap option_fmap option_map]. vgo. rewrite Hf. cbn [t_vops open bootfs_vnode_ops].
  destruct (found s ds str e Hm He) as (x' & Hx' & Hd & _). assert (x' = x) as -> by congruence. destruct (root_ex bd s e.1 x W Hx) as (v & y & R).
  vgo. eapply vwp_deref; [apply R|]. vgo. eapply vwp_lift; [by apply strlen_ok|]. vgo.
  eapply vwp_mono; [eapply (bootfs_walk_ok bd s e.1 x v y); done|]. intros r s1 Hw. pose proof (walked_post bd _ _ _ _ _ _ W Hw) as (W1 & K & Hsup & _).
  rewrite Hl in Hw. destruct r as [u|]; simpl in Hw.
  2: { exfalso. destruct Hw as [_ Hw]. rewrite Forall_forall in Hw. apply (Hw (bi_ino z0, bi_name z0)); [|done]. apply list_elem_of_fmap. by exists z0. }
  destruct Hw as (e' & j & sb & Hfirst & Hsb & Hij & -> & ->). destruct (named_inode _ _ _ Hfirst) as (j' & z & Hz & -> & Hzn).
  assert (sb = x) as -> by congruence. rewrite Hl in Hij. simpl in Hij. pose proof (index_of_inode l j' z Hnd Hz) as Hij'. simpl in Hij'.
  rewrite Hij in Hij'. injection Hij' as ->. cbn [fst] in *. set (vn := Vnode _ _ _ _) in *. set (s1 := with_vnode s vn) in *.
  pose proof (served_keeps bd _ _ _ _ _ S0 K W1) as S1.
  destruct (args_get q 1 Ha) as (d1 & H1 & _); [lia|]. destruct (args_get q 2 Ha) as (d2 & H2 & _); [lia|]. destruct (args_get q 3 Ha) as (d3 & H3 & _); [lia|].
  vgo. apply free_fd_Some in Hi as [Hi _]. apply lookup_lt_Some in Hi.
  assert (vnodes s1 !! heap_next s = Some vn) as Hvn by (simpl; apply lookup_insert_eq).
  eapply set_ofile_ok; [done|done|]. set (s2 := with_ofile s1 cl c i (Some (OFile (heap_next s) None d1 d2 d3 (Some 0)))).
  assert (served bd s cl c s2) as S2. { apply served_ofile; [done|done|]. intros ? [= <-]. by exists vn. }
  vgo. eapply vwp_mono; [eapply (open_ok bd s2 (heap_next s) vn x); [apply S2|done|done|by rewrite Hf]|]. intros r s3 (k & -> & ->). vgo.
  pose proof (served_keeps bd _ _ _ _ _ S2 (keeps_cookies s2 _ (heap_next s2 + 1) ltac:(lia)) (wf_new_cookie bd s2 k ltac:(apply S2))) as S3.
  eapply set_ofile_ok; [simpl; apply lookup_insert_eq|simpl; by rewrite length_insert|]. vgo. split; [|split; [done|]].
  - apply served_ofile; [done|simpl; apply lookup_insert_eq|]. intros ? [= <-]. by exists vn.
  - eexists _, (OFile (heap_next s) (Some (heap_next s2)) d1 d2 d3 (Some 0)), vn, j', z. split_and!; simpl; [apply lookup_insert_eq| |done..].
    apply list_lookup_insert_eq. simpl. by rewrite length_insert.
Qed.


(** The two file systems the server starts with. *)
Definition boot_mounts (s : vst) (l : list bootfs_inode) : Prop :=
  mount_list s = [3; 1] /\ exists x1 x3, supers s !! 1 = Some x1 /\ sb_dir x1 = lit "/" /\
    supers s !! 3 = Some x3 /\ sb_dir x3 = lit "/boot" /\ sb_vops x3 = bootfs /\ sb_data x3 = BootData l.

Lemma booted_mounts port l k i s : stable (booted port l k i) s -> boot_mounts s l.
Proof.
  intros [Hm H]. split; [done|]. destruct (H 1 (SB (lit "/") (Some 2) rootfs (RootData [RI 0 (lit "."); RI 1 (lit ".."); RI 2 (lit "boot")]) new_table)) as (x1 & ? & ? & _); [done|].
  destruct (H 3 (SB (lit "/boot") (Some 4) bootfs (BootData l) new_table)) as (x3 & A1 & A2 & A3 & A4); [simpl; apply lookup_insert_eq|].
  exists x1, x3. split_and!; try done. by rewrite A4.
Qed.

Definition boot_dirs : list (Z * list Z) := [(3, cstr "/boot"); (1, cstr "/")].

Lemma mounts_boot s l : boot_mounts s l -> mounts s boot_dirs.
Proof.
  intros (Hm & x1 & x3 & H1 & D1 & H3 & D3 & _). unfold mounts. rewrite Hm. constructor; [|constructor; [|constructor]]; (split; [done|]).
  - exists x3. rewrite D3. split; [done|]. by vm_compute.
  - exists x1. rewrite D1. split; [done|]. by vm_compute.
Qed.

Lemma best_boot name : best_dir boot_dirs (cstr "/boot" ++ 47 :: name) None = Some (3, cstr "/boot").
Proof.
  cbn [best_dir boot_dirs]. rewrite (decide_True (P := cstr "/boot" `prefix_of` _ /\ _)).
  - by rewrite decide_False by (intros [_ H]; by vm_compute in H).
  - split; [by exists (47 :: name)|done].
Qed.

Lemma serve_open s lp cl sz c q l i name path : wf bd s -> boot_mounts s l -> NoDup (map bi_ino l) -> conns s !! lp = Some (cl, sz) -> clients s !! cl = Some c ->
  free_fd (c_ofile c) = Some i -> args_ok q -> q_src q = lp -> q_cmd q = VFS_OPEN -> q_data q !! 0%nat = Some path ->
  str_at (e_names q) path (cstr "/boot" ++ 47 :: name) -> (exists z, (z ∈ l) /\ str_at (bi_name z) 0 name) ->
  vwp (serve bd q) (fun r s' => (exists src, r = ([Reply src lp (PRes (VRes VFS_OK 0 (<[0%nat := Some (Z.of_nat i)]> no_data)))], [])) /\ wf bd s' /\ stable s s' /\
    exists z, (z ∈ l) /\ str_at (bi_name z) 0 name /\ opened s' lp cl (Z.of_nat i) z 0) s.
Proof.
  intros W Hb Hnd Hk Hc Hi Ha Hsrc Hq H0 Hs Hex. pose proof (mounts_boot s l Hb) as Hm. destruct Hb as (_ & _ & x3 & _ & _ & H3 & D3 & F3 & B3).
  pose proof (str_at_drop (e_names q) 6 _ _ Hs ltac:(rewrite length_app; simpl; lia)) as Hname. change (drop 6 (cstr "/boot" ++ 47 :: name)) with name in Hname.
  replace (path + Z.of_nat 6) with (path + Z.of_nat (length (3, cstr "/boot").2) + 1) in Hname by (change (length (3, cstr "/boot").2) with 5%nat; lia).
  destruct (w_conns bd s W) as [[ts Ht] _]. unfold serve. vgo. rewrite Hq. rewrite (decide_True (P := VFS_OPEN <> _)) by done. vgo.
  eapply vwp_lift; [by apply (Hash.lookup_ok ts)|]. vgo. unfold Hash.value. fold (conns s). rewrite Hsrc, Hk. simpl.
  unfold dispatch. pick_case Hq. vgo.
  eapply vwp_mono; [eapply (vfs_open_exact s cl c q path _ name boot_dirs (3, cstr "/boot") x3 l i); try done; apply best_boot|].
  intros r s' (S & -> & c' & o & y & j & z & A1 & A2 & A3 & A4 & A5 & A6 & A7 & A8). rewrite decide_True by done. unfold shm_write. vgo.
  split; [by eexists|]. split; [by apply wf_stale, S|]. split; [apply (sv_stable _ _ _ _ _ S)|]. exists z. split; [by eapply list_elem_of_lookup_2|]. split; [done|].
  destruct (sv_stable _ _ _ _ _ S) as [_ Hst]. destruct (Hst _ _ H3) as (x' & Hx' & _ & E2 & E3).
  exists sz, c', o, y, x', l, j. simpl. split_and!; try done.
  - unfold conns. simpl. rewrite (sv_conns _ _ _ _ _ S). done.
  - by rewrite aget_nat.
  - by rewrite A5.
  - congruence.
  - by rewrite E3.
Qed.

(** ** Calls of the library *)

(** The library between two calls: no message is waiting, and a name fits its area. *)
Definition idle (k : cst) : Prop := wf bd (k_srv k) /\ k_queue k = [] /\ fits (k_names k) 0 32.

(** A file that is open, for the library. *)
Definition reading (k : cst) (cl : Z) (vfd : vfs_fd) (z : bootfs_inode) (pos : Z) : Prop :=
  idle k /\ opened (k_srv k) (k_local k) cl (srv_fd vfd) z pos.

Lemma send_ok k cmd data port r s' : serve bd (Req (k_local k) cmd (data ++ replicate (6 - length data) 0) (k_names k) port junk) (k_srv k) = Ok (r, s') ->
  send k cmd data port = Ok (CSt s' (k_queue k ++ map m_payload (fst r)) (k_names k) (k_local k) (k_remote k) (k_errno k), snd r).
Proof. intros E. unfold send. by rewrite E. Qed.

Lemma open_call k m p area l cl sz c i name : idle k -> boot_mounts (k_srv k) l -> NoDup (map bi_ino l) -> conns (k_srv k) !! k_local k = Some (cl, sz) ->
  clients (k_srv k) !! cl = Some c -> free_fd (c_ofile c) = Some i -> str_at m p (cstr "/boot" ++ 47 :: name) -> (length name <= 25)%nat ->
  0 <= area < 2 ^ 32 -> (exists z, (z ∈ l) /\ str_at (bi_name z) 0 name) ->
  exists vfd k' z, _open k m p area = Ok (Some vfd, k') /\ srv_fd vfd = Z.of_nat i /\ reading k' cl vfd z 0 /\ (z ∈ l) /\ str_at (bi_name z) 0 name.
Proof.
  intros (W & Hq & Hn) Hb Hnd Hk Hc Hi Hs Hlen Harea Hex. set (path := cstr "/boot" ++ 47 :: name) in *.
  assert (length path <= 31)%nat as Hp by (subst path; rewrite length_app; simpl; lia).
  pose proof (strlcpy_run (k_names k) 0 m p path BLT_MAX_NAME_LENGTH Hs Hn ltac:(unfold BLT_MAX_NAME_LENGTH; lia)) as Hcpy.
  rewrite take_ge in Hcpy by (unfold BLT_MAX_NAME_LENGTH; lia). set (m' := splice (k_names k) 0 (path ++ [0])) in *.
  assert (fits (k_names k) 0 (S (length path))) as Hf by (unfold fits in *; lia).
  assert (str_at m' 0 path) as Hs'. { apply str_at_splice; [done|]. by eapply str_at_chars. }
  unfold _open, put_name. rewrite Hcpy. cbn [cbind fst].
  set (q := Req (k_local k) VFS_OPEN ([0; area; 0; 0x2000] ++ replicate (6 - 4) 0) m' 0 junk).
  destruct (serve_open (k_srv k) (k_local k) cl sz c q l i name 0 W Hb Hnd Hk Hc Hi) as (r & s' & E & (src & ->) & W' & St & z & Hz & Hzn & Ho); try done.
  { split; [done|]. simpl. repeat (apply Forall_cons; split; [lia|]). apply Forall_nil. done. }
  rewrite (send_ok (set_names k m') VFS_OPEN [0; area; 0; 0x2000] 0 _ _ E). cbn [cbind]. unfold recv_res, recv. simpl. rewrite Hq. simpl.
  eexists _, _, z. split; [reflexivity|]. split; [done|]. split; [|done]. split; [split; [done|split; [done|]]|done]. simpl. subst m'. unfold fits. rewrite length_splice; [apply Hn|].
  rewrite length_app. simpl. by rewrite Nat.add_1_r.
Qed.

Lemma read_call k cl vfd z pos count : reading k cl vfd z pos -> 0 <= pos < bi_size z -> 0 < count < 2 ^ 31 -> 0 <= srv_fd vfd < 2 ^ 32 ->
  let data := next_bytes z pos count in
  exists k', _vfs_read k vfd count = Ok (Z.of_nat (length data), data, k') /\ reading k' cl vfd z (pos + Z.of_nat (length data)) /\ data <> [].
Proof.
  intros ((W & Hq & Hn) & Ho) Hpos Hc Hfd data. pose proof (opened_file _ _ _ _ _ _ W Ho) as Hfile. pose proof (file_length z Hfile) as Hlen.
  pose proof (next_length z pos count Hfile ltac:(lia)) as Hnext. fold data in Hnext. destruct Hfile as (Hsz & _).
  assert (0 < Z.of_nat (length data) <= count) as Hd by (subst data; unfold next_bytes; rewrite length_take, length_drop; lia).
  set (q := Req (k_local k) VFS_READ ([srv_fd vfd; count] ++ replicate (6 - 2) 0) (k_names k) 0 junk).
  destruct (serve_read (k_srv k) (k_local k) cl (srv_fd vfd) z pos q count W Ho) as (r & s' & E & (src & ->) & W' & _ & Ho'); [lia|done|done|done|done|lia|].
  fold data in Ho', E. unfold _vfs_read. rewrite (send_ok k VFS_READ [srv_fd vfd; count] 0 _ _ E). cbn [cbind]. unfold recv_res, recv. rewrite Hq. cbn [app map fst].
  cbn [read_replies map m_payload k_queue cbind deref]. unfold word. cbn [r_data]. change (<[0%nat:=Some (Z.of_nat (length data))]> no_data !! 0%nat) with (Some (Some (Z.of_nat (length data)))).
  cbn [mjoin option_join deref cbind]. cbv zeta. rewrite s32_small by lia. rewrite decide_False by lia.
  set (k1 := set_queue _ _). pose proof (recv_data_ok data k1 [] count ltac:(lia) ltac:(lia)) as Hr.
  assert (k_queue k1 = map PData (send_data data) ++ []) as Hk1. { subst k1. simpl. rewrite app_nil_r, map_map. done. }
  specialize (Hr Hk1). exists (set_errno (set_queue k1 []) 0). split; [|split; [done|by destruct data; simpl in Hd; [lia|]]].
  destruct (decide (Z.of_nat (length data) < 0x1000)); rewrite Hr; done.
Qed.

(** At the end of the file, the server sends an empty message behind its result, which the
  library leaves in its port. *)
Lemma read_end k cl vfd z pos count : reading k cl vfd z pos -> 0 <= pos < 2 ^ 31 -> bi_size z <= pos -> 0 < count < 2 ^ 31 ->
  exists k', _vfs_read k vfd count = Ok (0, [], k') /\ k_queue k' = [PData []].
Proof.
  intros ((W & Hq & Hn) & Ho) Hpos Hend Hc. pose proof (opened_file _ _ _ _ _ _ W Ho) as Hfile. pose proof (file_length z Hfile) as Hlen.
  assert (next_bytes z pos count = []) as Hd by (unfold next_bytes; rewrite drop_ge by lia; apply take_nil).
  set (q := Req (k_local k) VFS_READ ([srv_fd vfd; count] ++ replicate (6 - 2) 0) (k_names k) 0 junk).
  destruct (serve_read (k_srv k) (k_local k) cl (srv_fd vfd) z pos q count W Ho) as (r & s' & E & (src & ->) & _ & _ & _); [lia|done|done|done|done|lia|].
  rewrite Hd in E. unfold _vfs_read. rewrite (send_ok k VFS_READ [srv_fd vfd; count] 0 _ _ E). cbn [cbind]. unfold recv_res, recv. rewrite Hq.
  eexists. split; reflexivity.
Qed.

(** The calls of a program that reads the file, with those of other programs between them;
  the outputs are what the reads delivered, up to the first that delivers nothing. *)
Inductive steps (vfd : vfs_fd) (k : cst) : list (list Z) -> cst -> Prop :=
| steps_open : steps vfd k [] k
| steps_read outs k1 count n buf k2 : steps vfd k outs k1 -> 0 < count < 2 ^ 31 -> _vfs_read k1 vfd count = Ok (n, buf, k2) -> n <> 0 ->
    steps vfd k (outs ++ [buf]) k2
| steps_other outs k1 q r s' : steps vfd k outs k1 -> well_formed q -> req_ok (k_srv k1) q -> q_src q <> k_local k1 -> serve bd q (k_srv k1) = Ok (r, s') ->
    steps vfd k outs (CSt s' (k_queue k1) (k_names k1) (k_local k1) (k_remote k1) (k_errno k1)).

Lemma steps_reading vfd k cl z outs k' : reading k cl vfd z 0 -> 0 <= srv_fd vfd < 2 ^ 32 -> steps vfd k outs k' ->
  concat outs `prefix_of` file_bytes bd z /\ reading k' cl vfd z (Z.of_nat (length (concat outs))).
Proof.
  intros H0 Hfd. induction 1 as [|outs k1 count n buf k2 _ [IHp IH] Hc E Hn|outs k1 q r s' _ [IHp IH] Hw Hok Hsrc E].
  - split; [apply prefix_nil|done].
  - pose proof (opened_file _ _ _ _ _ _ (proj1 (proj1 IH)) (proj2 IH)) as Hfile. pose proof (file_length z Hfile) as Hlen. pose proof (prefix_length _ _ IHp) as Hle.
    destruct Hfile as (Hsz & _). destruct (decide (Z.of_nat (length (concat outs)) < bi_size z)) as [Hlt|Hge].
    + destruct (read_call k1 cl vfd z _ count IH ltac:(lia) Hc Hfd) as (k3 & E3 & Hr & _). rewrite E in E3. injection E3 as -> -> ->.
      rewrite concat_app, length_app. simpl. rewrite app_nil_r, Nat2Z.inj_add. split; [|exact Hr]. destruct IHp as [t Ht].
      unfold next_bytes. rewrite Nat2Z.id, Ht, drop_app_length. exists (drop (Z.to_nat count) t). by rewrite <- app_assoc, take_drop.
    + destruct (read_end k1 cl vfd z _ count IH ltac:(lia) ltac:(lia) Hc) as (k3 & E3 & _). rewrite E in E3. congruence.
  - split; [done|]. destruct IH as [(W & Hq & Hnm) Ho]. pose proof (vwp_Ok _ _ _ _ _ (serve_ok bd _ _ W Hw Hok) E) as T. split; [split; [apply T|done]|].
    simpl. eapply opened_other; [exact W|exact T|done|done].
Qed.

(** The inode that the server finds for a file of the boot directory. *)
Lemma boot_inode l0 l kmax j o v name z : dots l0 -> scanned bd 0 64 l0 l kmax -> (z ∈ l) -> str_at (bi_name z) 0 name ->
  name <> cstr "." -> name <> cstr ".." -> is_file bd j o v name ->
  (forall j' o' v' name', 0 <= j' < 64 -> is_file bd j' o' v' name' -> take 31 name' = name -> j' = j) ->
  file_bytes bd z = slice bd (s32 (o * 0x1000)) (Z.to_nat v).
Proof.
  intros (a & b & -> & _ & _ & (_ & _ & Ha) & (_ & _ & Hb)) Hsc Hz Hn Hd1 Hd2 Hf Hu. unfold file_bytes.
  destruct (sc_only _ _ _ _ _ _ Hsc z Hz) as [Hin|(j' & o' & v' & name' & Hj' & Hf' & Ho & Hv & Hn')].
  - exfalso. apply elem_of_cons in Hin as [->|[->|?%elem_of_nil]%elem_of_cons]; [..|done].
    + apply Hd1. by eapply str_at_unique.
    + apply Hd2. by eapply str_at_unique.
  - assert (j' = j) as ->. { apply (Hu j' o' v' name'); [lia|done|]. by eapply str_at_unique. }
    destruct Hf as (t & _ & _ & F1 & F2 & _). destruct Hf' as (t' & _ & _ & G1 & G2 & _).
    assert (o' = o) as <- by congruence. assert (v' = v) as <- by congruence. by rewrite Ho, Hv.
Qed.

(** A program whose library is connected to the server, which has served any requests
  since its start, and which has a descriptor left. *)
Definition ready (port : Z) (k : cst) : Prop := exists s0 cl sz c i,
  (vfs_init bd port = Ok s0 /\ reach bd s0 (k_srv k)) /\ (k_queue k = [] /\ fits (k_names k) 0 32) /\
  conns (k_srv k) !! k_local k = Some (cl, sz) /\ clients (k_srv k) !! cl = Some c /\ free_fd (c_ofile c) = Some i.

(** Opening the path succeeds, and then every sequence of reads delivers the bytes [f] in
  order; as long as the end is not reached, a read returns as many bytes as asked for, or
  as are left. *)
Definition delivers (k : cst) (m : list Z) (p area : Z) (f : list Z) : Prop :=
  exists vfd k1, _open k m p area = Ok (Some vfd, k1) /\ forall outs k2, steps vfd k1 outs k2 ->
    concat outs `prefix_of` f /\
    ((length (concat outs) < length f)%nat -> forall count, 0 < count < 2 ^ 31 ->
      let d := take (Z.to_nat count) (drop (length (concat outs)) f) in
      d <> [] /\ exists k3, _vfs_read k2 vfd count = Ok (Z.of_nat (length d), d, k3)).

(** Entry [j] is the only file of the boot directory with its name. *)
Definition only_file (j : Z) (name : list Z) : Prop :=
  forall j' o' v' name', 0 <= j' < 64 -> is_file bd j' o' v' name' -> take 31 name' = name -> j' = j.

Lemma boot_file_delivers port k m p area j o v name : boot_ok bd -> ready port k ->
  str_at m p (cstr "/boot" ++ 47 :: name) -> (length name <= 25)%nat -> 0 <= area < 2 ^ 32 ->
  0 <= j < 64 -> is_file bd j o v name -> only_file j name -> name <> cstr "." /\ name <> cstr ".." ->
  delivers k m p area (slice bd (s32 (o * 0x1000)) (Z.to_nat v)).
Proof.
  intros Hboot (s0 & cl & sz & c & i & (Hinit & Hreach) & (Hq & Hn) & Hconn & Hcl & Hfd) Hpath Hlen Harea Hj Hfile Hone Hdot.
  destruct (vfs_init_ok bd port Hboot) as (l0 & l & kmax & i0 & E0 & Hdots & Hsc & Hi0). rewrite Hinit in E0. injection E0 as ->.
  destruct (reach_ok bd _ (k_srv k) (booted_wf bd port l0 l kmax i0 Hsc Hi0) Hreach) as [W Hst].
  assert (take 31 name = name) as Htake by (apply take_ge; lia).
  assert (exists z, (z ∈ l) /\ str_at (bi_name z) 0 name) as Hex.
  { destruct (sc_files _ _ _ _ _ _ Hsc j o v name ltac:(lia) Hfile) as (z & Hz & _ & _ & Hzn). rewrite Htake in Hzn. by exists z. }
  destruct (w_client bd _ W _ _ Hcl) as [Hmax _]. assert (i < 256)%nat as Hi.
  { apply free_fd_Some in Hfd as [Hfd _]. apply lookup_lt_Some in Hfd. unfold MAX_FDS in Hmax. lia. }
  destruct (open_call k m p area l cl sz c i name) as (vfd & k1 & z & E & Hv & Hr & Hz & Hzn); try done.
  { by eapply booted_mounts. }
  { apply (sc_nodup _ _ _ _ _ _ Hsc). }
  exists vfd, k1. split; [done|]. intros outs k2 Hsteps. set (f := slice bd (s32 (o * 0x1000)) (Z.to_nat v)).
  assert (file_bytes bd z = f) as Hf by (destruct Hdot; by eapply boot_inode).
  destruct (steps_reading vfd k1 cl z outs k2 Hr ltac:(lia) Hsteps) as [Hpre Hr2]. rewrite Hf in Hpre. split; [done|]. intros Hlt count Hcount d.
  pose proof (file_length z (opened_file _ _ _ _ _ _ (proj1 (proj1 Hr2)) (proj2 Hr2))) as Hsz. rewrite Hf in Hsz.
  destruct (read_call k2 cl vfd z _ count Hr2 ltac:(lia) Hcount ltac:(lia)) as (k3 & E3 & _ & Hne). unfold next_bytes in E3, Hne.
  rewrite Hf, Nat2Z.id in E3, Hne. split; [done|]. by exists k3.
Qed.



(** ** Directories *)

(** [while ((e = readdir (d)) != NULL)] *)
Fixpoint read_all (d : DIR) (fuel : nat) : cres (list dirent) :=
  match fuel with
  | O => Fault
  | S fuel =>
      let! (e, d) := _readdir d in
      match e with None => Ok [] | Some e => let! es := read_all d fuel in Ok (e :: es) end
  end.

Lemma read_all_S d fuel : read_all d (S fuel) =
  let! (e, d) := _readdir d in match e with None => Ok [] | Some e => let! es := read_all d fuel in Ok (e :: es) end.
Proof. done. Qed.

Lemma find_place (w : list (Z * dirent)) n i e : map fst w = places 0 0 n -> w !! i = Some e -> list_find (fun e => fst e = Z.of_nat i * sizeof_dirent) w = Some (i, e).
Proof.
  intros Hw Hi. assert (forall j e', w !! j = Some e' -> e'.1 = Z.of_nat j * sizeof_dirent) as H.
  { intros j e' Hj. assert (map fst w !! j = Some e'.1) as Hf by by rewrite list_lookup_fmap, Hj. rewrite Hw in Hf. unfold places in Hf.
    rewrite list_lookup_fmap in Hf. apply fmap_Some in Hf as (j' & Hj' & ->). apply lookup_seq in Hj' as [-> _]. lia. }
  apply list_find_Some. split_and!; [done|by apply H|]. intros j e' Hj Hlt E. rewrite (H j e' Hj) in E. unfold sizeof_dirent in E. lia.
Qed.

Lemma read_all_ok fd (w : list (Z * dirent)) more len n : map fst w = places 0 0 n -> forall m i, (i + m = length w)%nat ->
  read_all (Dir fd w (Z.of_nat i) more len (Z.of_nat m)) (S m) = Ok (map snd (drop i w)).
Proof.
  intros Hw. induction m as [|m IH]; intros i Hi; rewrite read_all_S; unfold _readdir; cbn [dir_left dir_area dir_current dir_fd dir_more dir_len].
  - rewrite decide_False by lia. cbn [cbind]. by rewrite drop_ge by lia.
  - rewrite decide_True by lia. destruct (lookup_lt_is_Some_2 w i) as [e He]; [lia|]. rewrite (find_place w n i e Hw He). cbn [deref cbind snd].
    specialize (IH (S i) ltac:(lia)). replace (Z.of_nat i + 1) with (Z.of_nat (S i)) by lia. replace (Z.of_nat (S m) - 1) with (Z.of_nat m) by lia.
    rewrite IH. cbn [cbind]. by rewrite (drop_S _ _ _ He).
Qed.

(** The entry of a listing that stands for the inode [e]. *)
Definition lists (e : Z * list Z) (d : dirent) : Prop := d_fileno d = u32 e.1 /\ forall str, str_at e.2 0 str -> (length str < 32)%nat -> str_at (d_name d) 0 str.

Lemma listed_entries d h w : listing d h -> Forall2 same_entry h w -> Forall2 lists (rev (inodes_of d)) w.
Proof.
  intros (ds & -> & Hds) Hw. assert (Forall2 dir_entry (rev (inodes_of d)) (rev ds)) as H by (rewrite !rev_alt; by apply Forall2_reverse).
  eapply Forall2_trans; [|exact H|exact Hw]. intros e o x (A1 & A2 & A3) (B1 & B2 & B3). split; [congruence|]. intros str Hs Hl. apply B3; [|lia]. apply A3; [done|lia].
Qed.

Lemma serve_mkdir s lp cl sz c q ds e x l str mode : wf bd s -> mounts s ds -> conns s !! lp = Some (cl, sz) -> clients s !! cl = Some c -> q_src q = lp ->
  q_cmd q = VFS_MKDIR -> q_data q !! 0%nat = Some 0 -> q_data q !! 1%nat = Some mode -> str_at (e_names q) 0 str -> best_dir ds str None = Some e ->
  supers s !! e.1 = Some x -> sb_vops x = rootfs -> sb_data x = RootData l ->
  vwp (serve bd q) (fun r s' => (exists src, r = ([Reply src lp (PRes (VRes 0 0 no_data))], [])) /\ wf bd s' /\
    s' = set_stale (with_dir s e.1 x l (drop (length e.2) str)) true) s.
Proof.
  intros W Hm Hk Hc Hsrc Hq H0 H1 Hs He Hx Ef El. destruct (w_conns bd s W) as [[ts Ht] _]. unfold serve. vgo. rewrite Hq. rewrite (decide_True (P := VFS_MKDIR <> _)) by done.
  vgo. eapply vwp_lift; [by apply (Hash.lookup_ok ts)|]. vgo. unfold Hash.value. fold (conns s). rewrite Hsrc, Hk. simpl. unfold dispatch. pick_case Hq. vgo.
  eapply vwp_mono; [by eapply vfs_mkdir_exact|]. intros r s' [-> ->]. vgo. cbn [snd fst]. vgo. split; [by eexists|]. split; [|done]. apply wf_stale.
  eapply (sv_wf bd s cl c). apply served_dir; try done. apply Forall_drop. by eapply str_at_chars.
Qed.

Lemma serve_opendir s lp cl sz c q ds e x dir i len : wf bd s -> mounts s ds -> conns s !! lp = Some (cl, sz) -> clients s !! cl = Some c -> well_formed q ->
  q_src q = lp -> q_cmd q = VFS_OPENDIR -> q_data q !! 0%nat = Some 0 -> q_data q !! 3%nat = Some len -> full_name (c_cwd c) (e_names q) 0 = Ok dir -> str_at dir 0 e.2 ->
  best_dir ds e.2 None = Some e -> supers s !! e.1 = Some x -> free_fd (c_ofile c) = Some i ->
  vwp (serve bd q) (fun r s' => wf bd s' /\ exists src p w r0, r = ([Reply src lp p], w) /\ r_status r0 = VFS_OK /\ (exists fd, r_data r0 = <[0%nat := Some fd]> no_data) /\
    dir_reply r0 (sb_data x) (room_for len) p w) s.
Proof.
  intros W Hm Hk Hc [Ha Hj] Hsrc Hq H0 H3 Hfull Hs He Hx Hi. destruct (w_conns bd s W) as [[ts Ht] _]. unfold serve. vgo. rewrite Hq.
  rewrite (decide_True (P := VFS_OPENDIR <> _)) by done.
  vgo. eapply vwp_lift; [by apply (Hash.lookup_ok ts)|]. vgo. unfold Hash.value. fold (conns s). rewrite Hsrc, Hk. simpl. unfold dispatch. pick_case Hq. vgo.
  eapply vwp_mono; [by eapply vfs_opendir_mount|]. intros r s1 (S1 & Hst & Hd). rewrite decide_True by done.
  eapply vwp_mono; [eapply (list_opened bd s1 cl q r (sb_data x) len); try done; apply S1|]. intros r' s2 (W2 & K & p & w & -> & Hrep).
  destruct (served_client _ _ _ _ _ S1) as [l Hc1]. vgo. eapply vwp_get_client; [by rewrite (k_clients _ _ K)|]. vgo. split; [by apply wf_stale|].
  eexists _, p, w, r. split; [done|]. split; [done|]. split; [|done]. destruct Hd as (fd & _ & _ & _ & _ & _ & _ & Hfd & _). by exists (Z.of_nat fd).
Qed.

(** The path "/" is the root for every client. *)
Lemma full_name_root tm : aget tm 0 = Some 47 -> aget tm 1 = Some 0 -> exists dir, full_name root_cwd tm 0 = Ok dir /\ str_at dir 0 (cstr "/").
Proof.
  destruct tm as [|a [|b tm]]; try done. intros [= ->] [= ->]. eexists. split; [reflexivity|]. by vm_compute.
Qed.

Lemma put_name_ok k m p str : fits (k_names k) 0 32 -> str_at m p str -> (length str <= 31)%nat ->
  exists m', put_name k m p = Ok (set_names k m') /\ str_at m' 0 str /\ fits m' 0 32.
Proof.
  intros Hn Hs Hp. pose proof (strlcpy_run (k_names k) 0 m p str BLT_MAX_NAME_LENGTH Hs Hn ltac:(unfold BLT_MAX_NAME_LENGTH; lia)) as Hcpy.
  rewrite take_ge in Hcpy by (unfold BLT_MAX_NAME_LENGTH; lia). exists (splice (k_names k) 0 (str ++ [0])). unfold put_name. rewrite Hcpy. split; [done|].
  assert (fits (k_names k) 0 (S (length str))) as Hf by (unfold fits in *; lia). split.
  - apply str_at_splice; [done|]. by eapply str_at_chars.
  - unfold fits. rewrite length_splice; [apply Hn|]. rewrite length_app. simpl. by rewrite Nat.add_1_r.
Qed.

Lemma mkdir_call k m p mode ds e x l cl sz c str : idle k -> mounts (k_srv k) ds -> conns (k_srv k) !! k_local k = Some (cl, sz) ->
  clients (k_srv k) !! cl = Some c -> str_at m p str -> (length str <= 31)%nat -> best_dir ds str None = Some e -> supers (k_srv k) !! e.1 = Some x ->
  sb_vops x = rootfs -> sb_data x = RootData l -> 0 <= mode < 2 ^ 32 ->
  exists k', _mkdir k m p mode = Ok (-1, k') /\ idle k' /\ k_local k' = k_local k /\ k_srv k' = set_stale (with_dir (k_srv k) e.1 x l (drop (length e.2) str)) true.
Proof.
  intros (W & Hq & Hn) Hm Hk Hc Hs Hlen He Hx Ef El Hmode. destruct (put_name_ok k m p str Hn Hs Hlen) as (m' & Hput & Hs' & Hn').
  set (q := Req (k_local k) VFS_MKDIR ([0; mode] ++ replicate (6 - 2) 0) m' 0 junk).
  destruct (serve_mkdir (k_srv k) (k_local k) cl sz c q ds e x l str mode W Hm Hk Hc) as (r & s' & E & (src & ->) & W' & Hs2); try done.
  unfold _mkdir. rewrite Hput. cbn [cbind]. rewrite (send_ok (set_names k m') VFS_MKDIR [0; mode] 0 _ _ E). cbn [cbind]. unfold recv_res, recv. simpl. rewrite Hq. simpl.
  eexists. split; [reflexivity|]. split; [split; [done|by split]|]. by split.
Qed.

Lemma opendir_call k m p area ds e x cl sz c i : idle k -> mounts (k_srv k) ds -> conns (k_srv k) !! k_local k = Some (cl, sz) ->
  clients (k_srv k) !! cl = Some c -> free_fd (c_ofile c) = Some i -> str_at m p (cstr "/") -> e.2 = cstr "/" -> best_dir ds e.2 None = Some e ->
  supers (k_srv k) !! e.1 = Some x -> 0 <= area < 2 ^ 32 -> length (d_name junk) = 33%nat -> (length (inodes_of (sb_data x)) < 204)%nat ->
  exists D k' es, _opendir k m p area = Ok (Some D, k') /\ read_all D (S (length es)) = Ok es /\ Forall2 lists (rev (inodes_of (sb_data x))) es.
Proof.
  intros (W & Hq & Hn) Hm Hk Hc Hi Hs He2 He Hx Harea Hj Hmany. destruct (put_name_ok k m p _ Hn Hs ltac:(simpl; lia)) as (m' & Hput & (H47 & _ & H0) & Hn').
  destruct (full_name_root m' H47 H0) as (dir & Hfull & Hdir). destruct (w_client bd _ W _ _ Hc) as (_ & Hcwd & _).
  set (q := Req (k_local k) VFS_OPENDIR ([0; area; 0; 0x2000] ++ replicate (6 - 4) 0) m' 0 junk).
  destruct (serve_opendir (k_srv k) (k_local k) cl sz c q ds e x dir i 0x2000 W Hm Hk Hc) as (r & s' & E & W' & src & pl & w & r0 & -> & Hst & (fd & Hfd) & h & Hh & -> & Hp & Hw); try done.
  { split; [|done]. split; [done|]. simpl. repeat (apply Forall_cons; split; [lia|]). by apply Forall_nil. }
  { by rewrite Hcwd. }
  { by rewrite He2. }
  change (room_for 0x2000) with 204%nat in *.
  assert (length h = length (inodes_of (sb_data x))) as Hlen. { destruct Hh as (ds' & -> & Hds). rewrite length_rev. symmetry. by eapply Forall2_length. }
  unfold _opendir. rewrite Hput. cbn [cbind]. rewrite (send_ok (set_names k m') VFS_OPENDIR [0; area; 0; 0x2000] 0 _ _ E). cbn [cbind]. unfold recv_res, recv. simpl. rewrite Hq. simpl.
  rewrite Hst. rewrite decide_False by (by intros H). unfold word, listed. cbn [r_data]. rewrite Hfd. cbn [deref cbind r_data listed mjoin option_join lookup list_lookup insert list_insert no_data replicate].
  assert (reported 204 (length h) = Z.of_nat (length w)) as Hrep.
  { unfold reported. rewrite decide_False by lia. assert (length (map fst w) = min 204 (length h)) as Hwl by (rewrite Hp; unfold places; by rewrite length_map, length_seq).
    rewrite length_map in Hwl. lia. }
  rewrite Hrep. eexists _, _, (map snd w). split; [reflexivity|]. rewrite length_map. split.
  - apply (read_all_ok fd w 0 (Z.of_nat (length w)) _ Hp (length w) 0). done.
  - rewrite take_ge in Hw by lia. by eapply listed_entries.
Qed.


Lemma best_root name : ~ cstr "/boot" `prefix_of` 47 :: name -> best_dir boot_dirs (47 :: name) None = Some (1, cstr "/").
Proof.
  intros H. cbn [best_dir boot_dirs]. rewrite (decide_False (P := cstr "/boot" `prefix_of` _ /\ _)) by (by intros []).
  rewrite decide_True; [done|]. split; [by exists name|done].
Qed.

(** A directory that a program makes is there when it lists the root: after _mkdir of
  '/' and a name, which is not below /boot, _opendir of "/" succeeds and _readdir delivers an entry for each inode of the root, the
  new one first, with its number and its name, and then the end; though _mkdir itself returns -1. *)
Theorem mkdir_then_listed port s0 k m p mode dm dp area cl sz c i x l name
  (Hboot : boot_ok bd) (Hinit : vfs_init bd port = Ok s0) (Hreach : reach bd s0 (k_srv k))
  (Hq : k_queue k = []) (Hn : fits (k_names k) 0 32) (Hjunk : length (d_name junk) = 33%nat)
  (Hconn : conns (k_srv k) !! k_local k = Some (cl, sz)) (Hcl : clients (k_srv k) !! cl = Some c) (Hfd : free_fd (c_ofile c) = Some i)
  (Hroot : supers (k_srv k) !! 1 = Some x) (Hl : sb_data x = RootData l) (Hmany : (length l < 203)%nat)
  (Hpath : str_at m p (47 :: name)) (Hlen : (length name <= 30)%nat) (Hnot : ~ cstr "/boot" `prefix_of` 47 :: name) (Hmode : 0 <= mode < 2 ^ 32)
  (Hdir : str_at dm dp (cstr "/")) (Harea : 0 <= area < 2 ^ 32) :
  exists k1 D k2 es, _mkdir k m p mode = Ok (-1, k1) /\ _opendir k1 dm dp area = Ok (Some D, k2) /\
    read_all D (S (length es)) = Ok es /\
    Forall2 lists ((root_max (k_srv k), name ++ [0]) :: rev (inodes_of (RootData l))) es.
Proof.
  destruct (vfs_init_ok bd port Hboot) as (l0 & lb & kmax & i0 & E0 & Hdots & Hsc & Hi0). rewrite Hinit in E0. injection E0 as ->.
  destruct (reach_ok bd _ (k_srv k) (booted_wf bd port l0 lb kmax i0 Hsc Hi0) Hreach) as [W Hst]. pose proof (booted_mounts _ _ _ _ _ Hst) as Hb.
  pose proof (mounts_boot _ _ Hb) as Hm. assert (sb_vops x = rootfs) as Ef.
  { pose proof (so_data _ _ _ _ (w_super bd _ W _ _ Hroot)) as Hd. rewrite Hl in Hd. by destruct (sb_vops x). }
  destruct (mkdir_call k m p mode boot_dirs (1, cstr "/") x l cl sz c (47 :: name)) as (k1 & E1 & Hidle & Hloc & Hsrv); try done; [simpl; lia|by apply best_root|].
  set (l' := l ++ [RI (root_max (k_srv k)) (name ++ [0])]). assert (drop (length (1, cstr "/").2) (47 :: name) = name) as Hdrop by done. rewrite Hdrop in Hsrv. cbn [fst] in Hsrv.
  assert (supers (k_srv k1) !! 1 = Some (set_data x (RootData l'))) as Hx1 by (rewrite Hsrv; simpl; apply lookup_insert_eq).
  destruct (opendir_call k1 dm dp area boot_dirs (1, cstr "/") (set_data x (RootData l')) cl sz c i) as (D & k2 & es & E2 & Er & Hes); try done.
  - rewrite Hsrv. eapply (mounts_boot _ lb). destruct Hb as (Hml & x1 & x3 & B1 & B2 & B3 & B4). split; [done|]. exists (set_data x1 (RootData l')), x3.
    assert (x1 = x) as -> by congruence. simpl. rewrite lookup_insert_eq. rewrite lookup_insert_ne by done. split_and!; try done; apply B4.
  - by rewrite Hsrv, Hloc.
  - by rewrite Hsrv.
  - simpl. rewrite length_map. subst l'. rewrite length_app. simpl. lia.
  - exists k1, D, k2, es. split; [done|]. split; [done|]. split; [done|]. simpl in Hes |- *. subst l'. by rewrite map_app, rev_app_distr in Hes.
Qed.
End library.

(** ** An example *)

Definition ex_name : list Z := lit "/boot/motd".

Lemma ex_is_file : is_file ex_boot 1 1 5 (cstr "motd").
Proof. exists 4. split_and!; [by vm_compute|done|by vm_compute|by vm_compute| |by vm_compute]. apply (read_str_ok _ 32). by vm_compute. Qed.

Lemma ex_one_file j o v name : 0 <= j < 64 -> is_file ex_boot j o v name -> take 31 name = cstr "motd" -> j = 1.
Proof.
  intros Hj (t & Ht & Ht0 & _ & _ & Hs & Hne) _.
  assert (forallb (fun j => match be_type ex_boot j with Ok t => bool_decide (j = 0 \/ j = 1 \/ t = 0) | _ => false end) (seqZ 0 64) = true) as H by by vm_compute.
  rewrite forallb_forall in H. assert (j ∈ seqZ 0 64) as Hin by (apply elem_of_seqZ; lia). apply list_elem_of_In in Hin. specialize (H j Hin). cbv beta in H.
  rewrite Ht, bool_decide_eq_true in H. destruct H as [->|[->|?]]; [|done|done]. exfalso. apply Hne.
  eapply str_at_unique; [exact Hs|]. apply (read_str_ok _ 32). by vm_compute.
Qed.

(** The state of the server once the program is connected. *)
Definition ex_server : cres vst :=
  let! s := vfs_init ex_boot 50 in let! (_, s) := serve ex_boot ex_conn s in Ok s.

Lemma ex_server_reach s : ex_server = Ok s -> exists s0, vfs_init ex_boot 50 = Ok s0 /\ reach ex_boot s0 s.
Proof.
  unfold ex_server. intros H. apply cbind_Ok in H as (s0 & E0 & H). apply cbind_Ok in H as ([r s'] & E1 & H). injection H as ->. exists s0. split; [done|].
  eapply reach_step; [apply reach_refl|apply ex_conn_formed|by apply ex_conn_ok|exact E1].
Qed.

(** The library of the program. *)
Definition ex_lib (s : vst) : cst := CSt s [] (replicate 4096 0) 9 77 0.

Lemma ex_ready : exists s, ex_server = Ok s /\ ready ex_boot 50 (ex_lib s).
Proof.
  assert (match ex_server with Ok s => match conns s !! 9 with Some (cl, _) =>
    match clients s !! cl with Some c => bool_decide (free_fd (c_ofile c) = Some 0%nat) | None => false end | None => false end | _ => false end = true) as H by by vm_compute.
  destruct ex_server as [s| |] eqn:Es; [|done|done]. destruct (conns s !! 9) as [[cl sz]|] eqn:Ec; [|done].
  destruct (clients s !! cl) as [c|] eqn:Ecl; [|done]. rewrite bool_decide_eq_true in H. destruct (ex_server_reach s Es) as (s0 & E0 & Hr).
  exists s. split; [done|]. exists s0, cl, sz, c, 0%nat. split; [split; [exact E0|exact Hr]|]. split; [|split; [exact Ec|split; [exact Ecl|exact H]]]. split; [reflexivity|].
  unfold fits, ex_lib. cbn [k_names]. rewrite length_replicate. lia.
Qed.


Lemma mkdir_then_listed_witness : exists s k1 D k2 e es, ex_server = Ok s /\ _mkdir ex_boot ex_junk (ex_lib s) (lit "/tmp") 0 493 = Ok (-1, k1) /\
  _opendir ex_boot ex_junk k1 (lit "/") 0 3 = Ok (Some D, k2) /\ read_all D 5 = Ok (e :: es) /\ str_at (d_name e) 0 (cstr "tmp").
Proof.
  assert (match ex_server with Ok s => match conns s !! 9, supers s !! 1 with Some (cl, _), Some x =>
    match clients s !! cl, sb_data x with Some c, RootData l => bool_decide (free_fd (c_ofile c) = Some 0%nat /\ length l = 3%nat) | _, _ => false end
    | _, _ => false end | _ => false end = true) as H by by vm_compute.
  destruct ex_server as [s| |] eqn:Es; [|done|done]. destruct (conns s !! 9) as [[cl sz]|] eqn:Ec; [|done]. destruct (supers s !! 1) as [x|] eqn:Ex; [|done].
  destruct (clients s !! cl) as [c|] eqn:Ecl; [|done]. destruct (sb_data x) as [|l|] eqn:El; [done| |done]. rewrite bool_decide_eq_true in H. destruct H as [Hfd Hl].
  destruct (ex_server_reach s Es) as (s0 & E0 & Hr).
  destruct (mkdir_then_listed ex_boot ex_junk 50 s0 (ex_lib s) (lit "/tmp") 0 493 (lit "/") 0 3 cl sz c 0 x l (cstr "tmp") ex_boot_ok E0 Hr) as (k1 & D & k2 & es & E1 & E2 & E3 & Hes).
  - reflexivity.
  - unfold fits, ex_lib. cbn [k_names]. rewrite length_replicate. lia.
  - reflexivity.
  - exact Ec.
  - exact Ecl.
  - exact Hfd.
  - exact Ex.
  - exact El.
  - lia.
  - apply (read_str_ok _ 32). by vm_compute.
  - simpl. lia.
  - intros [t Ht]. discriminate Ht.
  - lia.
  - apply (read_str_ok _ 32). by vm_compute.
  - lia.
  - pose proof (Forall2_length _ _ _ Hes) as Hlen. simpl in Hlen. rewrite length_rev, length_map, Hl in Hlen.
    inversion Hes as [|a e la es' [_ Hname] Hrest]; subst. exists s, k1, D, k2, e, es'. split; [done|]. split; [exact E1|]. split; [exact E2|]. split.
    + rewrite <- Hlen in E3. exact E3.
    + apply Hname; [|simpl; lia]. apply (read_str_ok _ 32). by vm_compute.
Defined.

End VfsFile.
