(* ===== verification/BootMaker.v ===== *)
(** util/bootmaker.c and util/bootblock.h: the tool that builds the boot image from a
  description in an ini file and the files it names.

  The tool runs on the host, whose file system is a function from names to contents. A
  buffer with the contents of an ini file is a block of bytes; the strings of sections
  and pairs are offsets into it, ended by zeros that the parser writes over the
  punctuation. *)
From S2P Require Import Prelude LibC Vfs.
Import LibC Vfs.
Local Open Scope Z_scope.
Local Open Scope c_scope.

Module BootMaker.

(** ** Data *)

Record nvpair := NV { nv_name : Z; nv_value : Z }.

(** A section, with the buffer its strings are in and its pairs, the last one first. *)
Record section := Sec { sec_buf : nat; sec_name : Z; firstnv : list nvpair }.

(** The globals: the buffers in memory and the list from [first] to [last]. *)
Record world := World { w_bufs : list (list Z); w_secs : list section }.

Inductive parse_state := stNEWLINE | stSKIPLINE | stHEADER | stLHS | stRHS.

(** The variables of load_ini; pointers are undefined until they are set, and [cur] is
  the number of a section. *)
Record parser := Parser {
  p_data : list Z; p_state : parse_state; p_lhs : option Z; p_rhs : option Z;
  p_cur : option nat; p_secs : list section }.

Definition set_state (p : parser) (st : parse_state) : parser :=
  Parser (p_data p) st (p_lhs p) (p_rhs p) (p_cur p) (p_secs p).
Definition set_lhs (p : parser) (st : parse_state) (lhs : Z) : parser :=
  Parser (p_data p) st (Some lhs) (p_rhs p) (p_cur p) (p_secs p).

(** ** load_ini *)

(** One turn of the loop, on the byte at [i] of the buffer numbered [b]. *)
Definition ini_step (b : nat) (i : Z) (p : parser) : cres parser :=
  let! c := rd (p_data p) i in
  match p_state p with
  | stSKIPLINE => Ok (if decide (c = 10) then set_state p stNEWLINE else p)
  | stNEWLINE =>
      if decide (c = 10) then Ok p else
      if decide (c = 91) then Ok (set_lhs p stHEADER (i + 1)) else
      if decide (c = 35 \/ schar c <= 32) then Ok (set_state p stSKIPLINE) else
      Ok (set_lhs p stLHS i)
  | stHEADER =>
      if decide (c = 93) then
        let? lhs := p_lhs p in
        let! data := wr (p_data p) i 0 in
        Ok (Parser data stSKIPLINE (p_lhs p) (p_rhs p) (Some (length (p_secs p))) (p_secs p ++ [Sec b lhs []]))
      else Ok p
  | stLHS =>
      let p := if decide (c = 10) then set_state p stNEWLINE else p in
      if decide (c = 61) then
        let! data := wr (p_data p) i 0 in
        Ok (Parser data stRHS (p_lhs p) (Some (i + 1)) (p_cur p) (p_secs p))
      else Ok p
  | stRHS =>
      if decide (c = 10) then
        let? lhs := p_lhs p in
        let? rhs := p_rhs p in
        let! data := wr (p_data p) i 0 in
        let? cur := p_cur p in
        let? s := p_secs p !! cur in
        Ok (Parser data stNEWLINE (p_lhs p) (p_rhs p) (p_cur p)
             (<[cur := Sec (sec_buf s) (sec_name s) (NV lhs rhs :: firstnv s)]> (p_secs p)))
      else Ok p
  end.

(** The loop over the [n] bytes from [i] on. *)
Fixpoint ini_loop (b : nat) (i : Z) (p : parser) (n : nat) : cres parser :=
  match n with
  | O => Ok p
  | S n => let! p := ini_step b i p in ini_loop b (i + 1) p n
  end.

Section host.

(** The files of the host that can be read, and the names that can be written to. *)
Variable files : list Z -> option (list Z).
Variable writable : list Z -> bool.

Definition loadfile (file : list Z) : option (list Z) := files file.

(** The result tells whether the list of sections is not empty. *)
Definition load_ini (w : world) (file : list Z) : cres (bool * world) :=
  match loadfile file with
  | None => Ok (false, w)
  | Some data =>
      let! p := ini_loop (length (w_bufs w)) 0 (Parser data stNEWLINE None None None (w_secs w)) (length data) in
      Ok (match p_secs p with [] => false | _ => true end, World (w_bufs w ++ [p_data p]) (p_secs p))
  end.

(** ** Strings *)

(** The characters of a string, as printf and open read them. *)
Fixpoint cstring (m : list Z) (p : Z) (fuel : nat) : cres (list Z) :=
  match fuel with
  | O => Fault
  | S fuel => let! c := rd m p in if decide (c = 0) then Ok [] else let! r := cstring m (p + 1) fuel in Ok (c :: r)
  end.
Definition string_of (m : list Z) (p : Z) : cres (list Z) := cstring m p (S (length m)).

Definition buf_of (w : world) (s : section) : cres (list Z) := deref (w_bufs w !! sec_buf s).

Fixpoint print_pairs (m : list Z) (l : list nvpair) : cres (list Z) :=
  match l with
  | [] => Ok []
  | p :: l =>
      let! n := string_of m (nv_name p) in
      let! v := string_of m (nv_value p) in
      let! r := print_pairs m l in
      Ok (n ++ [61] ++ v ++ [10] ++ r)
  end.
Fixpoint print_sections (w : world) (l : list section) : cres (list Z) :=
  match l with
  | [] => Ok []
  | s :: l =>
      let! m := buf_of w s in
      let! n := string_of m (sec_name s) in
      let! ps := print_pairs m (firstnv s) in
      let! r := print_sections w l in
      Ok ([10; 91] ++ n ++ [93; 10] ++ ps ++ r)
  end.

(** A value is a string: a block and an offset. *)
Fixpoint getval_loop (m : list Z) (l : list nvpair) (name : list Z) : cres (option Z) :=
  match l with
  | [] => Ok None
  | p :: l =>
      let! c := strcmp m (nv_name p) name 0 in
      if decide (c = 0) then Ok (Some (nv_value p)) else getval_loop m l name
  end.
Definition getval (w : world) (s : section) (name : list Z) : cres (option (list Z * Z)) :=
  let! m := buf_of w s in
  let! v := getval_loop m (firstnv s) name in
  Ok ((fun v => (m, v)) <$> v).
Definition getvaldef (w : world) (s : section) (name def : list Z) : cres (list Z * Z) :=
  let! v := getval w s name in
  Ok (default (def, 0) v).

(** ** The C library of the host *)

(** strncpy fills what is left of the [n] bytes with zeros. *)
Fixpoint host_strncpy (dm : list Z) (dst : Z) (sm : list Z) (src : Z) (n : nat) : cres (list Z) :=
  match n with
  | O => Ok dm
  | S n' =>
      let! c := rd sm src in
      if decide (c = 0) then memset dm dst 0 n else
      let! dm := wr dm dst c in
      host_strncpy dm (dst + 1) sm (src + 1) n'
  end.

Fixpoint digits_from (str : list Z) (acc : Z) : Z :=
  match str with
  | c :: str => if decide (48 <= c <= 57) then digits_from str (10 * acc + (c - 48)) else acc
  | [] => acc
  end.
Fixpoint host_atoi (str : list Z) : Z :=
  match str with
  | c :: r =>
      if decide (c = 32 \/ 9 <= c <= 13) then host_atoi r else
      if decide (c = 45) then s32 (- digits_from r 0) else
      if decide (c = 43) then s32 (digits_from r 0) else s32 (digits_from str 0)
  | [] => 0
  end.

(** An int in the memory of the host, which is little endian. *)
Definition wr_int (m : list Z) (p v : Z) : cres (list Z) :=
  let! m := wr m p v in
  let! m := wr m (p + 1) (Z.shiftr v 8) in
  let! m := wr m (p + 2) (Z.shiftr v 16) in
  wr m (p + 3) (Z.shiftr v 24).

(** ** makeboot *)

Definition BE_TYPE_DIRECTORY : Z := 1.
Definition BE_TYPE_BOOTSTRAP : Z := 2.
Definition BE_TYPE_CODE : Z := 3.
Definition BE_TYPE_DATA : Z := 4.
Definition BE_TYPE_ELF32 : Z := 5.

(** Why the tool gives up. *)
Inductive death :=
| NoFile (sec : list Z)
| CannotLoad (file : list Z)
| UnknownType (type : list Z)
| TooMany
| CannotWrite (file : list Z).

(** The variables of makeboot: the directory, the objects with their sizes, the number of
  entries and the next free page. *)
Record maker := Maker { bdir : list Z; rawdata : list (option (list Z)); rawsize : list Z; mk_c : Z; nextpage : Z }.

Definition at_name (c : Z) : Z := 64 * c.
Definition at_offset (c : Z) : Z := 64 * c + 32.
Definition at_type (c : Z) : Z := 64 * c + 36.
Definition at_size (c : Z) : Z := 64 * c + 40.
Definition at_vsize (c : Z) : Z := 64 * c + 44.
Definition at_vaddr (c : Z) : Z := 64 * c + 48.
Definition at_ventr (c : Z) : Z := 64 * c + 52.

Definition make_init : cres maker :=
  let b := replicate 4096 0 in
  let! b := wr_int b (at_type 0) BE_TYPE_DIRECTORY in
  let! b := wr_int b (at_size 0) 1 in
  let! b := wr_int b (at_vsize 0) 1 in
  let! b := host_strncpy b (at_name 0) (lit "SBBB/Directory") 0 15 in
  Ok (Maker b (replicate 64 None) (<[0%nat := 4096]> (replicate 64 0)) 1 1).

(** [strcmp] of two strings for equality. *)
Definition same (v : list Z * Z) (name : string) : cres bool :=
  let! c := strcmp (fst v) (snd v) (lit name) 0 in Ok (bool_decide (c = 0)).

(** The type of entry [c], with the addresses that code has. *)
Definition put_addrs (w : world) (s : section) (b : list Z) (c : Z) : cres (list Z) :=
  let! a := getvaldef w s (lit "vaddr") (lit "0") in
  let! a := string_of (fst a) (snd a) in
  let! b := wr_int b (at_vaddr c) (host_atoi a) in
  let! a := getvaldef w s (lit "ventry") (lit "0") in
  let! a := string_of (fst a) (snd a) in
  wr_int b (at_ventr c) (host_atoi a).
Definition put_type (w : world) (s : section) (type : list Z * Z) (b : list Z) (c : Z) : cres (list Z) :=
  let! q := same type "boot" in
  let! b := (if q : bool then let! b := wr_int b (at_type c) BE_TYPE_BOOTSTRAP in put_addrs w s b c else Ok b) in
  let! q := same type "code" in
  let! b := (if q : bool then let! b := wr_int b (at_type c) BE_TYPE_CODE in put_addrs w s b c else Ok b) in
  let! q := same type "data" in
  let! b := (if q : bool then wr_int b (at_type c) BE_TYPE_DATA else Ok b) in
  let! q := same type "elf32" in
  if q : bool then wr_int b (at_type c) BE_TYPE_ELF32 else Ok b.

(** The entry of one section. *)
Definition make_entry (w : world) (s : section) (k : maker) : cres (death + maker) :=
  let c := mk_c k in
  let! m := buf_of w s in
  let! type := getvaldef w s (lit "type") (lit "NONE") in
  let! file := getval w s (lit "file") in
  let! b := host_strncpy (bdir k) (at_name c) m (sec_name s) 32 in
  let! b := wr b (at_name c + 31) 0 in
  match file with
  | None => let! n := string_of m (sec_name s) in Ok (inl (NoFile n))
  | Some file =>
      let! f := string_of (fst file) (snd file) in
      match loadfile f with
      | None => Ok (inl (CannotLoad f))
      | Some data =>
          let? raw := aset (rawdata k) c (Some data) in
          let size := s32 (Z.of_nat (length data)) in
          let? sizes := aset (rawsize k) c size in
          let vsize := s32 (Z.of_nat (length data)) in
          let pages := s32 (Z.quot size 4096 + (if decide (Z.rem size 4096 <> 0) then 1 else 0)) in
          let! b := wr_int b (at_size c) pages in
          let! b := wr_int b (at_vsize c) (if decide (vsize < pages) then pages else vsize) in
          let! b := wr_int b (at_offset c) (nextpage k) in
          let next := s32 (nextpage k + pages) in
          let! b := put_type w s type b c in
          let! t := rd_int b (at_type c) in
          if decide (t = 0) then let! n := string_of (fst type) (snd type) in Ok (inl (UnknownType n))
          else Ok (inr (Maker b raw sizes (c + 1) next))
      end
  end.

Fixpoint make_loop (w : world) (l : list section) (k : maker) : cres (death + maker) :=
  match l with
  | [] => Ok (inr k)
  | s :: l =>
      let! r := make_entry w s k in
      match r with
      | inl d => Ok (inl d)
      | inr k => if decide (mk_c k = 64) then Ok (inl TooMany) else make_loop w l k
      end
  end.

(** What the writes to the output file append, from object [i] on. *)
Fixpoint write_objects (k : maker) (i : Z) (n : nat) : cres (list Z) :=
  match n with
  | O => Ok []
  | S n =>
      let? size := aget (rawsize k) i in
      let? raw := aget (rawdata k) i in
      let? data := (if decide (i = 0) then Some (bdir k) else raw) in
      let! data := (if decide (0 <= size <= Z.of_nat (length data)) then Ok (take (Z.to_nat size) data) else Fault) in
      let fill := (if decide (Z.rem size 4096 <> 0) then replicate (Z.to_nat (4096 - Z.rem size 4096)) 0 else []) in
      let! r := write_objects k (i + 1) n in
      Ok (data ++ fill ++ r)
  end.

(** The boot block of util/bootblock.h. *)
Definition bootblock : list Z :=
  [ 235; 3; 0; 0; 0; 250; 51; 192; 142; 208; 188; 0; 124; 232; 196; 1; 54; 15; 1; 22; 79; 125; 15; 32;
  192; 12; 1; 15; 34; 192; 102; 234; 38; 124; 0; 0; 8; 0; 187; 16; 0; 142; 219; 142; 195; 142; 211; 36;
  254; 15; 34; 192; 234; 57; 0; 192; 7; 51; 192; 142; 192; 142; 216; 142; 208; 102; 191; 0; 0; 16; 0; 187;
  2; 0; 46; 139; 14; 2; 0; 51; 210; 251; 232; 18; 1; 250; 232; 75; 1; 102; 163; 0; 64; 102; 199; 6;
  4; 64; 0; 0; 1; 0; 102; 137; 193; 102; 193; 233; 12; 102; 139; 62; 4; 64; 102; 129; 193; 0; 4; 0;
  0; 102; 51; 192; 243; 103; 102; 171; 102; 139; 30; 4; 64; 102; 139; 14; 0; 64; 102; 193; 233; 12; 102; 184;
  3; 0; 0; 0; 102; 191; 0; 16; 0; 0; 102; 103; 137; 4; 59; 102; 5; 0; 16; 0; 0; 102; 131; 199;
  4; 226; 239; 102; 139; 14; 0; 64; 102; 193; 233; 22; 102; 65; 102; 161; 4; 64; 102; 5; 3; 16; 0; 0;
  102; 51; 255; 102; 103; 137; 4; 59; 102; 103; 137; 132; 59; 0; 15; 0; 0; 102; 5; 0; 16; 0; 0; 102;
  131; 199; 4; 226; 230; 102; 161; 4; 64; 102; 137; 193; 12; 3; 102; 103; 137; 131; 252; 15; 0; 0; 102; 103;
  139; 29; 116; 0; 16; 0; 102; 129; 195; 0; 16; 16; 0; 102; 189; 0; 0; 16; 0; 176; 207; 46; 162; 93;
  1; 46; 162; 101; 1; 46; 15; 1; 22; 79; 1; 15; 34; 217; 102; 184; 1; 0; 0; 128; 15; 34; 192; 102;
  234; 39; 125; 0; 0; 8; 0; 102; 184; 16; 0; 102; 142; 216; 102; 142; 192; 102; 142; 224; 102; 142; 232; 102;
  142; 208; 137; 204; 131; 236; 4; 186; 4; 124; 0; 0; 85; 82; 103; 255; 54; 0; 64; 255; 211; 235; 254; 255;
  255; 79; 125; 0; 0; 0; 0; 255; 255; 0; 0; 0; 154; 143; 0; 255; 255; 0; 0; 0; 146; 143; 0; 83;
  81; 176; 19; 40; 216; 139; 203; 187; 0; 128; 180; 2; 205; 19; 114; 42; 102; 190; 0; 128; 0; 0; 102; 51;
  201; 136; 193; 193; 225; 7; 243; 103; 102; 165; 89; 91; 128; 246; 1; 117; 2; 254; 199; 179; 1; 50; 228; 43;
  200; 127; 204; 176; 12; 186; 242; 3; 238; 195; 235; 254; 184; 50; 49; 102; 187; 240; 15; 16; 0; 103; 139; 19;
  103; 137; 3; 103; 139; 59; 103; 137; 19; 57; 199; 117; 9; 102; 129; 195; 0; 16; 0; 0; 235; 231; 102; 139;
  195; 102; 45; 0; 16; 0; 0; 102; 131; 192; 16; 195; 232; 15; 0; 117; 27; 176; 209; 230; 100; 232; 6; 0;
  117; 18; 176; 223; 230; 96; 102; 185; 0; 0; 2; 0; 235; 0; 228; 100; 168; 2; 224; 248; 195; 144; 144; 144;
  144; 144; 144; 144; 144; 144; 85; 170 ].

(** The number of disk blocks is at location 2, in 16 bits. *)
Definition writebootblock (blocks : Z) : cres (list Z) :=
  let blocks := u32 (blocks * 8) in
  let! b := wr (take 512 bootblock) 2 (Z.land blocks 255) in
  wr b 3 (Z.shiftr (Z.land blocks 65280) 8).

Definition makeboot (make_floppy : bool) (w : world) (outfile : list Z) : cres (death + list Z) :=
  let! k := make_init in
  let! r := make_loop w (w_secs w) k in
  match r with
  | inl d => Ok (inl d)
  | inr k =>
      if negb (writable outfile) then Ok (inl (CannotWrite outfile)) else
      let! bb := (if make_floppy then writebootblock (nextpage k + 1) else Ok []) in
      let! l := write_objects k 0 (Z.to_nat (mk_c k)) in
      Ok (inr (bb ++ l))
  end.

(** ** main *)

Inductive outcome :=
| Usage
| Died (d : death)
| Written (file image : list Z).

(** The loop over the arguments after the name of the program; [None] is the jump to the
  usage message. *)
Fixpoint main_loop (w : world) (floppy : bool) (file : option (list Z)) (argv : list (list Z))
  : cres (option (world * bool * option (list Z))) :=
  match argv with
  | [] => Ok (Some (w, floppy, file))
  | a :: argv =>
      if decide (a = cstr "--floppy") then main_loop w true file argv else
      if decide (a = cstr "-o") then
        match argv with
        | [] => Ok None
        | f :: argv => main_loop w floppy (Some f) argv
        end
      else
        let! (r, w) := load_ini w a in
        main_loop w floppy file argv
  end.

Definition main (argv : list (list Z)) : cres outcome :=
  match argv with
  | [] => Ok Usage
  | _ =>
      let! r := main_loop (World [] []) false None argv in
      match r with
      | None => Ok Usage
      | Some (w, floppy, file) =>
          match file with
          | None => Ok Usage
          | Some file =>
              match w_secs w with
              | [] => Ok Usage
              | _ =>
                  let! r := makeboot floppy w file in
                  Ok (match r with inl d => Died d | inr image => Written file image end)
              end
          end
      end
  end.

End host.

(** ** The language of ini files *)

(** A line: empty, to be skipped, a section, a setting or text without a setting. *)
Inductive line :=
| Blank
| Skip (c : Z) (rest : list Z)
| Header (name rest : list Z)
| Pair (c : Z) (name value : list Z)
| Bare (c : Z) (rest : list Z).

Definition render (ln : line) : list Z :=
  match ln with
  | Blank => [10]
  | Skip c rest => c :: rest ++ [10]
  | Header name rest => 91 :: name ++ 93 :: rest ++ [10]
  | Pair c name value => c :: name ++ 61 :: value ++ [10]
  | Bare c rest => c :: rest ++ [10]
  end.

Definition char (c : Z) : Prop := 0 < c < 256.
(** The first character of a setting. *)
Definition starts (c : Z) : Prop := char c /\ c <> 91 /\ c <> 35 /\ 32 < schar c.
Definition lacks (x : Z) (l : list Z) : Prop := Forall (fun c => c <> x) l.

Definition line_ok (ln : line) : Prop :=
  match ln with
  | Blank => True
  | Skip c rest => c <> 10 /\ (c = 35 \/ schar c <= 32) /\ lacks 10 rest
  | Header name rest => Forall char name /\ lacks 93 name /\ lacks 10 rest
  | Pair c name value => starts c /\ Forall char name /\ lacks 10 name /\ lacks 61 name /\ Forall char value /\ lacks 10 value
  | Bare c rest => starts c /\ lacks 10 rest /\ lacks 61 rest
  end.

(** What the lines mean: names with their settings, the last one first. A setting before
  the first section of its file has no meaning. *)
Abbreviation meaning := (list (list Z * list (list Z * list Z))).

Definition feed (ln : line) (st : bool * meaning) : option (bool * meaning) :=
  match ln with
  | Header name _ => Some (true, snd st ++ [(name, [])])
  | Pair c name value =>
      match fst st, last (snd st) with
      | true, Some (n, ps) => Some (true, <[pred (length (snd st)) := (n, (c :: name, value) :: ps)]> (snd st))
      | _, _ => None
      end
  | _ => Some st
  end.
Fixpoint feeds (l : list line) (st : bool * meaning) : option (bool * meaning) :=
  match l with
  | [] => Some st
  | ln :: l => st ← feed ln st; feeds l st
  end.

(** ** Strings in blocks that grow *)

Lemma aget_app_l (m r : list Z) q x : aget m q = Some x -> aget (m ++ r) q = Some x.
Proof. intros [H1 H2]%aget_Some. unfold aget. rewrite decide_True by lia. by rewrite lookup_app_l by lia. Qed.

Lemma aget_mid (m r : list Z) x : aget (m ++ x :: r) (Z.of_nat (length m)) = Some x.
Proof. unfold aget. rewrite decide_True by lia. by rewrite Nat2Z.id, list_lookup_middle. Qed.

Lemma str_at_app m r str : forall p, str_at m p str -> str_at (m ++ r) p str.
Proof.
  induction str as [|c str IH]; intros p; simpl; [apply aget_app_l|].
  intros (H1 & H2 & H3). split; [by apply aget_app_l|split; [done|by apply IH]].
Qed.

Lemma str_at_end m str r : Forall char str -> str_at (m ++ str ++ 0 :: r) (Z.of_nat (length m)) str.
Proof.
  intros H. revert m. induction H as [|c str Hc H IH]; intros m; simpl; [by apply aget_mid|].
  split; [by apply aget_mid|]. split; [done|]. specialize (IH (m ++ [c])). rewrite length_app, <- app_assoc in IH. simpl in IH.
  by replace (Z.of_nat (length m) + 1) with (Z.of_nat (length m + 1)) by lia.
Qed.

Lemma wr_mid m x r v : wr (m ++ x :: r) (Z.of_nat (length m)) v = Ok (m ++ u8 v :: r).
Proof.
  unfold wr, aset. rewrite decide_True by (rewrite length_app; simpl; lia). simpl. by rewrite Nat2Z.id, insert_app_r_alt, Nat.sub_diag.
Qed.

(** ** The parser, line by line *)

Section parser_proofs.
Variable b : nat.

Lemma ini_loop_app n1 n2 : forall i p, ini_loop b i p (n1 + n2) = let! p := ini_loop b i p n1 in ini_loop b (i + Z.of_nat n1) p n2.
Proof.
  induction n1 as [|n1 IH]; intros i p; simpl; [by rewrite Z.add_0_r|]. destruct (ini_step b i p) as [p'| |]; [|done..]. simpl.
  rewrite IH. by replace (i + 1 + Z.of_nat n1) with (i + Z.pos (Pos.of_succ_nat n1)) by lia.
Qed.

Lemma length_snoc_Z (m : list Z) c : Z.of_nat (length m) + 1 = Z.of_nat (length (m ++ [c])).
Proof. rewrite length_app. simpl. lia. Qed.

Lemma loop_step p p' done c rest n : p_data p = done ++ c :: rest ->
  (rd (p_data p) (Z.of_nat (length done)) = Ok c -> ini_step b (Z.of_nat (length done)) p = Ok p') ->
  ini_loop b (Z.of_nat (length done)) p (S n) = ini_loop b (Z.of_nat (length (done ++ [c]))) p' n.
Proof. intros E H. simpl. rewrite H by (apply rd_Some; rewrite E; apply aget_mid). simpl. by rewrite (length_snoc_Z _ c). Qed.

(** Text that the parser runs over in one state. *)
Lemma loop_scan p txt rest n : forall done, p_data p = done ++ txt ++ rest ->
  Forall (fun c => forall i, rd (p_data p) i = Ok c -> ini_step b i p = Ok p) txt ->
  ini_loop b (Z.of_nat (length done)) p (length txt + n) = ini_loop b (Z.of_nat (length (done ++ txt))) p n.
Proof.
  induction txt as [|c txt IH]; intros done E H; [by rewrite app_nil_r|]. apply Forall_cons in H as [Hc H].
  change (length (c :: txt) + n)%nat with (S (length txt + n)). rewrite (loop_step p p done c (txt ++ rest)); [|done|by intros ?; apply Hc].
  rewrite IH; [by rewrite <- app_assoc|by rewrite <- app_assoc|done].
Qed.

(** The state of the parser between two lines: what was read, and the meaning so far. *)
Definition pair_at (m : list Z) (p : nvpair) (kv : list Z * list Z) : Prop := str_at m (nv_name p) kv.1 /\ str_at m (nv_value p) kv.2.
Definition sec_at (bufs : list (list Z)) (s : section) (x : list Z * list (list Z * list Z)) : Prop :=
  exists m, bufs !! sec_buf s = Some m /\ str_at m (sec_name s) x.1 /\ Forall2 (pair_at m) (firstnv s) x.2.

Record between (bufs : list (list Z)) (done rest : list Z) (st : bool * meaning) (p : parser) : Prop := {
  bt_data : p_data p = done ++ rest;
  bt_state : p_state p = stNEWLINE;
  bt_cur : p_cur p = if st.1 then Some (pred (length (p_secs p))) else None;
  bt_buf : st.1 = true -> sec_buf <$> last (p_secs p) = Some b;
  bt_secs : Forall2 (sec_at (bufs ++ [done])) (p_secs p) st.2 }.

Lemma sec_at_grow bufs m r s x : sec_at (bufs ++ [m]) s x -> sec_at (bufs ++ [m ++ r]) s x.
Proof.
  intros (m' & Hm & Hn & Hp). destruct (decide (sec_buf s = length bufs)) as [E|E].
  - exists (m ++ r). rewrite E in *. rewrite list_lookup_middle in Hm by done. injection Hm as ->. split; [by rewrite list_lookup_middle|].
    split; [by apply str_at_app|]. eapply Forall2_impl; [exact Hp|]. intros q kv [H1 H2]. split; by apply str_at_app.
  - exists m'. split; [|done]. apply lookup_app_Some in Hm as [Hm|[Hl Hm]]; [by apply lookup_app_l_Some|].
    apply lookup_lt_Some in Hm. simpl in Hm. lia.
Qed.

(** The state after the line [ln]. *)
Definition line_done bufs done ln rest st p : Prop := exists p' done',
  ini_loop b (Z.of_nat (length done)) p (length (render ln)) = Ok p' /\ length done' = length (done ++ render ln) /\ between bufs done' rest st p'.

Lemma step_skip p i c : p_state p = stSKIPLINE -> c <> 10 -> rd (p_data p) i = Ok c -> ini_step b i p = Ok p.
Proof. intros E Hc Hr. unfold ini_step. rewrite Hr, E. simpl. by rewrite decide_False. Qed.

(** The rest of a line that is skipped. *)
Lemma skip_rest p done txt rest : p_data p = done ++ txt ++ 10 :: rest -> p_state p = stSKIPLINE -> lacks 10 txt ->
  ini_loop b (Z.of_nat (length done)) p (length txt + 1) = Ok (set_state p stNEWLINE).
Proof.
  intros E Hs Ht. rewrite (loop_scan p txt (10 :: rest) 1 done E).
  - rewrite (loop_step p (set_state p stNEWLINE) (done ++ txt) 10 rest); [done|by rewrite <- app_assoc|]. intros Hr. unfold ini_step. by rewrite Hr, Hs.
  - eapply Forall_impl; [exact Ht|]. intros c Hc i Hr. by apply (step_skip p i c).
Qed.

Lemma between_keep bufs done more rest st p q : between bufs done (more ++ rest) st p -> p_data q = p_data p -> p_state q = stNEWLINE ->
  p_cur q = p_cur p -> p_secs q = p_secs p -> between bufs (done ++ more) rest st q.
Proof.
  intros [B1 B2 B3 B4 B5] E1 E2 E3 E4. split; rewrite ?E4; [by rewrite E1, B1, app_assoc|done|by rewrite E3|done|].
  eapply Forall2_impl; [exact B5|]. intros. by apply sec_at_grow.
Qed.

Lemma blank_line bufs done rest st p : between bufs done (render Blank ++ rest) st p -> line_done bufs done Blank rest st p.
Proof.
  intros B. pose proof (bt_data _ _ _ _ _ B) as B1. pose proof (bt_state _ _ _ _ _ B) as B2. exists p, (done ++ [10]). split; [|split; [done|by apply (between_keep bufs done [10] rest st p)]].
  change (length (render Blank)) with 1%nat. rewrite (loop_step p p done 10 rest 0 B1); [done|]. intros Hr. unfold ini_step. by rewrite Hr, B2.
Qed.

Lemma skip_line bufs done rest st p c txt : line_ok (Skip c txt) -> between bufs done (render (Skip c txt) ++ rest) st p ->
  line_done bufs done (Skip c txt) rest st p.
Proof.
  intros (H1 & H2 & H3) B. pose proof (bt_data _ _ _ _ _ B) as B1. pose proof (bt_state _ _ _ _ _ B) as B2.
  assert (c <> 91) as H4. { intros ->. by destruct H2. }
  exists (set_state (set_state p stSKIPLINE) stNEWLINE), (done ++ render (Skip c txt)). split; [|split; [done|by apply (between_keep bufs done _ rest st p)]].
  cbn [render app length] in *. rewrite <- app_assoc in B1. rewrite length_app. cbn [length]. rewrite (loop_step p (set_state p stSKIPLINE) done c (txt ++ 10 :: rest) _ B1).
  - apply (skip_rest _ _ _ rest); [|done|done]. simpl. rewrite B1. by rewrite <- app_assoc.
  - intros Hr. unfold ini_step. rewrite Hr, B2. simpl. by rewrite decide_False, decide_False, decide_True.
Qed.

Lemma step_header p i c : p_state p = stHEADER -> c <> 93 -> rd (p_data p) i = Ok c -> ini_step b i p = Ok p.
Proof. intros E Hc Hr. unfold ini_step. rewrite Hr, E. simpl. by rewrite decide_False. Qed.

Lemma step_lhs p i c : p_state p = stLHS -> c <> 10 -> c <> 61 -> rd (p_data p) i = Ok c -> ini_step b i p = Ok p.
Proof. intros E H1 H2 Hr. unfold ini_step. rewrite Hr, E. simpl. by rewrite (decide_False (P := c = 10)), decide_False. Qed.

Lemma step_rhs p i c : p_state p = stRHS -> c <> 10 -> rd (p_data p) i = Ok c -> ini_step b i p = Ok p.
Proof. intros E Hc Hr. unfold ini_step. rewrite Hr, E. simpl. by rewrite decide_False. Qed.

(** The first character of a setting. *)
Lemma step_start p i c : p_state p = stNEWLINE -> starts c -> rd (p_data p) i = Ok c -> ini_step b i p = Ok (set_lhs p stLHS i).
Proof.
  intros E (H1 & H2 & H3 & H4) Hr. unfold ini_step. rewrite Hr, E. simpl.
  rewrite decide_False, decide_False, decide_False; [done| |done|]; [intros [?|?]; [done|lia]|intros ->; unfold schar in H4; simpl in H4; lia].
Qed.

Lemma bare_line bufs done rest st p c txt : line_ok (Bare c txt) -> between bufs done (render (Bare c txt) ++ rest) st p ->
  line_done bufs done (Bare c txt) rest st p.
Proof.
  intros (H1 & H2 & H3) B. pose proof (bt_data _ _ _ _ _ B) as B1. pose proof (bt_state _ _ _ _ _ B) as B2.
  set (q := set_lhs p stLHS (Z.of_nat (length done))).
  exists (set_state q stNEWLINE), (done ++ render (Bare c txt)). split; [|split; [done|by apply (between_keep bufs done _ rest st p)]].
  cbn [render app length] in *. rewrite <- app_assoc in B1. rewrite length_app. cbn [length].
  rewrite (loop_step p q done c (txt ++ 10 :: rest) _ B1) by (intros; by apply (step_start p _ c)).
  rewrite (loop_scan q txt (10 :: rest) 1); [|simpl; rewrite B1; by rewrite <- app_assoc|].
  - rewrite (loop_step q (set_state q stNEWLINE) _ 10 rest); [done|simpl; rewrite B1; by rewrite <- !app_assoc|]. intros Hr. unfold ini_step. by rewrite Hr.
  - apply Forall_forall. intros x Hx i Hr. unfold lacks in *. rewrite Forall_forall in H2, H3. apply (step_lhs q i x); auto.
Qed.

Lemma header_line bufs done rest st p name txt : length bufs = b -> line_ok (Header name txt) -> between bufs done (render (Header name txt) ++ rest) st p ->
  line_done bufs done (Header name txt) rest (true, st.2 ++ [(name, [])]) p.
Proof.
  intros Hb (H1 & H2 & H3) B. pose proof (bt_data _ _ _ _ _ B) as B1. pose proof (bt_state _ _ _ _ _ B) as B2.
  cbn [render app] in B1. rewrite <- app_assoc in B1. cbn [app] in B1. rewrite <- app_assoc in B1. cbn [app] in B1.
  set (q := set_lhs p stHEADER (Z.of_nat (length done) + 1)).
  set (done1 := (done ++ [91]) ++ name). set (done2 := done1 ++ [0]).
  set (r := Parser (done2 ++ txt ++ 10 :: rest) stSKIPLINE (p_lhs q) (p_rhs q) (Some (length (p_secs p))) (p_secs p ++ [Sec b (Z.of_nat (length done) + 1) []])).
  assert (p_data p = done1 ++ 93 :: txt ++ 10 :: rest) as E1 by (rewrite B1; unfold done1; by rewrite <- !app_assoc).
  exists (set_state r stNEWLINE), (done2 ++ txt ++ [10]). split; [|split].
  - cbn [render length]. rewrite length_app. cbn [length]. rewrite length_app. cbn [length].
    rewrite (loop_step p q done 91 (name ++ 93 :: txt ++ 10 :: rest) _ B1) by (intros Hr; unfold ini_step; by rewrite Hr, B2).
    rewrite (loop_scan q name (93 :: txt ++ 10 :: rest)); [|simpl; rewrite B1; by rewrite <- app_assoc|].
    + rewrite (loop_step q r done1 93 (txt ++ 10 :: rest)); [|done|].
      * rewrite (length_app done1). change (length [93]) with (length [0]). rewrite <- length_app. by apply (skip_rest r done2 txt rest).
      * intros Hr. unfold ini_step. rewrite Hr. cbn [cbind p_state q set_lhs p_data p_lhs deref]. rewrite decide_True by done. rewrite E1, wr_mid.
        cbn [cbind]. unfold r, done2. by rewrite <- app_assoc.
    + eapply Forall_impl; [exact H2|]. intros c Hc i Hr. by apply (step_header q i c).
  - unfold done2, done1. rewrite !length_app. simpl. rewrite !length_app. simpl. rewrite !length_app. simpl. lia.
  - split; cbn [p_data p_state p_cur p_secs set_state r fst snd].
    + by rewrite <- !app_assoc.
    + done.
    + by rewrite length_app, Nat.add_1_r.
    + intros _. by rewrite last_snoc.
    + apply Forall2_app.
      * eapply Forall2_impl; [exact (bt_secs _ _ _ _ _ B)|]. intros s x Hs. unfold done2, done1. rewrite <- !app_assoc. by apply sec_at_grow.
      * constructor; [|constructor]. exists (done2 ++ txt ++ [10]). cbn [sec_buf sec_name firstnv fst snd]. split; [by rewrite <- Hb, list_lookup_middle|].
        split; [|constructor]. unfold done2, done1. rewrite (length_snoc_Z done 91), <- !app_assoc. rewrite (app_assoc done). by apply str_at_end.
Qed.

Lemma pair_line bufs done rest l p c name value n ps : length bufs = b -> line_ok (Pair c name value) ->
  between bufs done (render (Pair c name value) ++ rest) (true, l) p -> last l = Some (n, ps) ->
  line_done bufs done (Pair c name value) rest (true, <[pred (length l) := (n, (c :: name, value) :: ps)]> l) p.
Proof.
  intros Hb (H1 & H2 & H3 & H4 & H5 & H6) B Hlast. pose proof (bt_data _ _ _ _ _ B) as B1. pose proof (bt_state _ _ _ _ _ B) as B2.
  pose proof (bt_secs _ _ _ _ _ B) as B5. pose proof (Forall2_length _ _ _ B5) as Hlen. cbn [snd] in Hlen, B5.
  destruct (last (p_secs p)) as [s|] eqn:Es; [|pose proof (bt_buf _ _ _ _ _ B eq_refl) as E; by rewrite Es in E].
  pose proof (bt_buf _ _ _ _ _ B eq_refl) as Hsb. rewrite Es in Hsb. injection Hsb as Hsb. rewrite last_lookup in Es. rewrite last_lookup in Hlast.
  cbn [render app] in B1. rewrite <- app_assoc in B1. cbn [app] in B1. rewrite <- app_assoc in B1. cbn [app] in B1.
  set (q := set_lhs p stLHS (Z.of_nat (length done))).
  set (done1 := (done ++ [c]) ++ name). set (done2 := done1 ++ [0]). set (done3 := done2 ++ value). set (done4 := done3 ++ [0]).
  set (r := Parser (done2 ++ value ++ 10 :: rest) stRHS (p_lhs q) (Some (Z.of_nat (length done1) + 1)) (p_cur p) (p_secs p)).
  set (t := Parser (done4 ++ rest) stNEWLINE (p_lhs r) (p_rhs r) (p_cur p)
    (<[pred (length (p_secs p)) := Sec (sec_buf s) (sec_name s) (NV (Z.of_nat (length done)) (Z.of_nat (length done1) + 1) :: firstnv s)]> (p_secs p))).
  assert (p_data p = done1 ++ 61 :: value ++ 10 :: rest) as E1 by (rewrite B1; unfold done1; by rewrite <- !app_assoc).
  exists t, done4. split; [|split].
  - cbn [render length]. rewrite length_app. cbn [length]. rewrite length_app. cbn [length].
    rewrite (loop_step p q done c (name ++ 61 :: value ++ 10 :: rest) _ B1) by (intros; by apply (step_start p _ c)).
    rewrite (loop_scan q name (61 :: value ++ 10 :: rest)); [|simpl; rewrite B1; by rewrite <- app_assoc|].
    2: { apply Forall_forall. intros x Hx i Hr. unfold lacks in *. rewrite Forall_forall in H3, H4. apply (step_lhs q i x); auto. }
    rewrite (loop_step q r done1 61 (value ++ 10 :: rest)); [|done|].
    2: { intros Hr. unfold ini_step. rewrite Hr. cbn [cbind p_state q set_lhs p_data]. rewrite (decide_False (P := 61 = 10)) by done.
         rewrite decide_True by done. change (p_data q) with (p_data p). rewrite E1, wr_mid. cbn [cbind]. unfold r, done2. by rewrite <- app_assoc. }
    rewrite (length_app done1). change (length [61]) with (length [0]). rewrite <- length_app. fold done2.
    rewrite (loop_scan r value (10 :: rest) 1 done2 eq_refl).
    2: { eapply Forall_impl; [exact H6|]. intros x Hx i Hr. by apply (step_rhs r i x). }
    rewrite (loop_step r t done3 10 rest); [done|unfold r, done3; cbn [p_data]; by rewrite <- app_assoc|].
    intros Hr. unfold ini_step. rewrite Hr. cbn [cbind p_state r p_data p_lhs p_rhs q set_lhs deref p_cur p_secs]. rewrite decide_True by done.
    replace (done2 ++ value ++ 10 :: rest) with (done3 ++ 10 :: rest) by (unfold done3; by rewrite <- app_assoc). rewrite wr_mid.
    cbn [cbind]. rewrite (bt_cur _ _ _ _ _ B). cbn [fst deref cbind]. rewrite Es. cbn [deref cbind]. unfold t, done4. rewrite (bt_cur _ _ _ _ _ B). by rewrite <- app_assoc.
  - unfold done4, done3, done2, done1. rewrite !length_app. simpl. rewrite !length_app. simpl. rewrite !length_app. simpl. lia.
  - assert (forall s' x, sec_at (bufs ++ [done]) s' x -> sec_at (bufs ++ [done4]) s' x) as Hgrow.
    { intros s' x Hs'. unfold done4, done3, done2, done1. rewrite <- !app_assoc. by apply sec_at_grow. }
    split; cbn [p_data p_state p_cur p_secs t fst snd].
    + done.
    + done.
    + by rewrite (bt_cur _ _ _ _ _ B), length_insert.
    + intros _. rewrite last_lookup, length_insert, list_lookup_insert_eq by (apply lookup_lt_Some in Es; lia). simpl. by rewrite Hsb.
    + rewrite Hlen. apply Forall2_insert; [eapply Forall2_impl; [exact B5|]; by intros; apply Hgrow|]. rewrite <- Hlen in Hlast.
      destruct (Hgrow s (n, ps)) as (m & Hm & Hn & Hp); [by eapply Forall2_lookup_lr|].
      assert (m = done4) as ->. { rewrite Hsb, <- Hb, list_lookup_middle in Hm by done. by injection Hm. }
      exists done4. split; [done|]. split; [done|]. cbn [firstnv snd]. constructor; [|done]. split; cbn [nv_name nv_value fst snd].
      * unfold done4, done3, done2, done1. rewrite <- !app_assoc. apply (str_at_end done (c :: name)). constructor; [apply H1|done].
      * rewrite (length_snoc_Z done1 0). fold done2. unfold done4, done3. rewrite <- app_assoc. by apply str_at_end.
Qed.

Lemma line_parsed bufs done ln rest st st' p : length bufs = b -> line_ok ln -> between bufs done (render ln ++ rest) st p -> feed ln st = Some st' ->
  line_done bufs done ln rest st' p.
Proof.
  intros Hb Hok B Hf. destruct ln as [|c txt|name txt|c name value|c txt]; simpl in Hf.
  - injection Hf as <-. by apply blank_line.
  - injection Hf as <-. by apply skip_line.
  - injection Hf as <-. by apply header_line.
  - destruct st as [[] l]; [|done]. cbn [fst snd] in Hf. destruct (last l) as [[n ps]|] eqn:El; [|done]. injection Hf as <-. by apply pair_line.
  - injection Hf as <-. by apply bare_line.
Qed.

Lemma lines_parsed bufs l : forall done st st' p, length bufs = b -> Forall line_ok l -> between bufs done (concat (map render l)) st p ->
  feeds l st = Some st' ->
  exists p' done', ini_loop b (Z.of_nat (length done)) p (length (concat (map render l))) = Ok p' /\ between bufs done' [] st' p'.
Proof.
  induction l as [|ln l IH]; intros done st st' p Hb Hok B Hf.
  - injection Hf as <-. exists p, done. by split.
  - apply Forall_cons in Hok as [Hln Hok]. cbn [map concat feeds] in *. destruct (feed ln st) as [st1|] eqn:E1; [|done]. cbn in Hf.
    destruct (line_parsed bufs done ln (concat (map render l)) st st1 p Hb Hln B E1) as (p1 & done1 & L1 & L2 & L3).
    destruct (IH done1 st1 st' p1 Hb Hok L3 Hf) as (p' & done' & M1 & M2). exists p', done'. split; [|done].
    rewrite length_app, ini_loop_app, L1. cbn [cbind]. by rewrite <- Nat2Z.inj_add, <- length_app, <- L2.
Qed.

End parser_proofs.

(** ** Loading and printing *)

(** The sections in memory mean [l]. *)
Definition holds (w : world) (l : meaning) : Prop := Forall2 (sec_at (w_bufs w)) (w_secs w) l.

Lemma load_ini_ok files w file lines l seen l' : holds w l -> files file = Some (concat (map render lines)) -> Forall line_ok lines ->
  feeds lines (false, l) = Some (seen, l') -> exists w', load_ini files w file = Ok (bool_decide (l' <> []), w') /\ holds w' l'.
Proof.
  intros Hw Hf Hok Hl. unfold load_ini, loadfile. rewrite Hf.
  destruct (lines_parsed (length (w_bufs w)) (w_bufs w) lines [] (false, l) (seen, l')
    (Parser (concat (map render lines)) stNEWLINE None None None (w_secs w))) as (p & dn & E & B); [done|done| |done|].
  { split; try done. eapply Forall2_impl; [exact Hw|]. intros s x (m & Hm & Hr). exists m. split; [by apply lookup_app_l_Some|done]. }
  change (Z.of_nat (length [])) with 0 in E. rewrite E. cbn [cbind]. exists (World (w_bufs w ++ [p_data p]) (p_secs p)). destruct B as [B1 _ _ _ B5]. cbn [snd] in B5. split.
  - do 2 f_equal. destruct B5; by rewrite ?bool_decide_eq_false_2, ?bool_decide_eq_true_2 by auto.
  - unfold holds. cbn [w_bufs w_secs]. by rewrite B1, app_nil_r.
Qed.

Lemma cstring_ok m str : forall p fuel, str_at m p str -> (length str < fuel)%nat -> cstring m p fuel = Ok str.
Proof.
  induction str as [|c str IH]; intros p fuel Hs Hf; (destruct fuel as [|fuel]; [simpl in Hf; lia|]); simpl in *.
  - by rewrite (rd_Some _ _ _ Hs).
  - destruct Hs as (H1 & H2 & H3). rewrite (rd_Some _ _ _ H1). cbn [cbind]. rewrite decide_False by lia. by rewrite IH by (done || lia).
Qed.
Lemma string_of_ok m p str : str_at m p str -> string_of m p = Ok str.
Proof. intros H. apply cstring_ok; [done|]. apply str_at_range in H. lia. Qed.

(** Names that can be told apart from the punctuation. *)
Definition plain_pair (kv : list Z * list Z) : Prop :=
  exists c name, kv.1 = c :: name /\ line_ok (Pair c name kv.2).
Definition plain (x : list Z * list (list Z * list Z)) : Prop :=
  (Forall char x.1 /\ lacks 93 x.1) /\ Forall plain_pair x.2.

(** The lines that describe a section. *)
Definition pair_lines (kv : list Z * list Z) : list line := match kv.1 with c :: name => [Pair c name kv.2] | [] => [] end.
Definition sec_lines (x : list Z * list (list Z * list Z)) : list line := Blank :: Header x.1 [] :: concat (map pair_lines x.2).

Lemma print_pairs_ok m nvs l : Forall2 (pair_at m) nvs l -> Forall plain_pair l ->
  print_pairs m nvs = Ok (concat (map render (concat (map pair_lines l)))).
Proof.
  induction 1 as [|p [k v] nvs l [H1 H2] _ IH]; intros Hl; [done|]. apply Forall_cons in Hl as [(c & name & Hk & _) Hl]. cbn [fst snd] in *. subst k. simpl.
  rewrite (string_of_ok _ _ _ H1), (string_of_ok _ _ _ H2). cbn [cbind]. rewrite IH by done. simpl. rewrite <- app_assoc. simpl. by rewrite <- app_assoc.
Qed.

Lemma print_sections_ok w secs l : Forall2 (sec_at (w_bufs w)) secs l -> Forall plain l ->
  print_sections w secs = Ok (concat (map render (concat (map sec_lines l)))).
Proof.
  induction 1 as [|s [n ps] secs l (m & Hm & Hn & Hp) _ IH]; intros Hl; [done|]. apply Forall_cons in Hl as [[_ Hps] Hl]. cbn [fst snd] in *.
  cbn [print_sections]. unfold buf_of. rewrite Hm. cbn [deref cbind]. rewrite (string_of_ok _ _ _ Hn). cbn [cbind].
  rewrite (print_pairs_ok _ _ _ Hp Hps). cbn [cbind]. rewrite IH by done. cbn [cbind map concat sec_lines app render]. rewrite !map_app, !concat_app.
  simpl. rewrite <- !app_assoc. simpl. done.
Qed.

Lemma feeds_app l1 l2 : forall st, feeds (l1 ++ l2) st = st ← feeds l1 st; feeds l2 st.
Proof. induction l1 as [|ln l1 IH]; intros st; simpl; [done|]. destruct (feed ln st); simpl; [apply IH|done]. Qed.

Lemma feeds_pairs l0 n ps : forall qs, Forall plain_pair ps ->
  feeds (concat (map pair_lines ps)) (true, l0 ++ [(n, qs)]) = Some (true, l0 ++ [(n, reverse ps ++ qs)]).
Proof.
  induction ps as [|[k v] ps IH]; intros qs Hps; [done|]. apply Forall_cons in Hps as [(c & name & Hk & _) Hps]. cbn [fst snd] in *. subst k. simpl.
  rewrite last_snoc, length_app, Nat.add_1_r. simpl. rewrite insert_app_r_alt, Nat.sub_diag by done. simpl. rewrite IH by done.
  by rewrite reverse_cons, <- app_assoc.
Qed.

Lemma feeds_sections l : forall seen l0, Forall plain l ->
  exists seen', feeds (concat (map sec_lines l)) (seen, l0) = Some (seen', l0 ++ map (fun x => (x.1, reverse x.2)) l).
Proof.
  induction l as [|[n ps] l IH]; intros seen l0 Hl; [exists seen; by rewrite app_nil_r|]. apply Forall_cons in Hl as [[_ Hps] Hl].
  cbn [map concat]. rewrite feeds_app. cbn [sec_lines feeds feed fst snd mbind option_bind]. rewrite feeds_pairs by done. cbn [mbind option_bind].
  destruct (IH true (l0 ++ [(n, reverse ps ++ [])]) Hl) as [seen' E]. exists seen'. rewrite E. do 2 f_equal. by rewrite app_nil_r, <- app_assoc.
Qed.

Lemma sec_lines_ok l : Forall plain l -> Forall line_ok (concat (map sec_lines l)).
Proof.
  induction 1 as [|[n ps] l [[Hn1 Hn2] Hps] _ IH]; [constructor|]. cbn [map concat sec_lines app]. constructor; [done|]. constructor; [split; [done|split; [done|constructor]]|].
  apply Forall_app. split; [|done]. clear IH. induction Hps as [|[k v] ps' (c & name & Hk & H) _ IH']; [constructor|]. cbn [fst snd] in *. subst k. simpl. by constructor.
Qed.

(** What print_sections prints load_ini reads back: for sections with plain names, the
  printed text is loaded after any sections that are in memory, with the same names and
  settings; each section has its settings in the opposite order, as its list grows at the
  front. *)
Theorem print_load_roundtrip files w l w0 l0 file
  (Hw : holds w l) (Hl : Forall plain l) (Hne : l <> []) (H0 : holds w0 l0)
  (Hfile : forall text, print_sections w (w_secs w) = Ok text -> files file = Some text) :
  exists text w', print_sections w (w_secs w) = Ok text /\ load_ini files w0 file = Ok (true, w') /\
    holds w' (l0 ++ map (fun x => (x.1, reverse x.2)) l).
Proof.
  pose proof (print_sections_ok w (w_secs w) l Hw Hl) as E. destruct (feeds_sections l false l0 Hl) as [seen Hf].
  destruct (load_ini_ok files w0 file _ l0 _ _ H0 (Hfile _ E) (sec_lines_ok l Hl) Hf) as (w' & E' & Hw'). eexists _, w'. split; [exact E|].
  split; [|done]. rewrite E', bool_decide_eq_true_2; [done|]. destruct l; [done|]. by destruct l0.
Qed.

(** A section in memory. *)
Definition ex_world : world := World [lit "motd" ++ lit "type" ++ lit "data"] [Sec 0 0 [NV 5 10]].
Definition ex_text : list Z := [10] ++ cstr "[motd]" ++ [10] ++ cstr "type=data" ++ [10].

Lemma print_load_roundtrip_witness : exists w', print_sections ex_world (w_secs ex_world) = Ok ex_text /\
  load_ini (fun _ => Some ex_text) (World [] []) (cstr "a.ini") = Ok (true, w') /\ holds w' [(cstr "motd", [(cstr "type", cstr "data")])].
Proof.
  destruct (print_load_roundtrip (fun _ => Some ex_text) ex_world [(cstr "motd", [(cstr "type", cstr "data")])] (World [] []) [] (cstr "a.ini"))
    as (text & w' & E1 & E2 & H).
  - constructor; [|constructor]. eexists. split; [reflexivity|]. split; [by vm_compute; repeat split|]. constructor; [|constructor]. split; by vm_compute; repeat split.
  - constructor; [|constructor]. split; [split; repeat (constructor; [by vm_compute|]); constructor|]. constructor; [|constructor].
    exists 116, (cstr "ype"). split; [done|]. repeat split; try (by vm_compute); repeat (constructor; [by vm_compute|]); constructor.
  - done.
  - constructor.
  - intros text E. vm_compute in E. injection E as <-. done.
  - exists w'. split; [by vm_compute|]. split; [exact E2|exact H].
Defined.

End BootMaker.
