(* ===== verification/BootImage.v ===== *)
(** The boot image: what util/bootmaker.c writes is a boot area that the file-system
  server of srv/vfs can read, and programs read back the files that went into it. *)
From S2P Require Import Prelude LibC Path Vfs VfsInv VfsSafe VfsFile BootMaker.
Import LibC Vfs VfsInv VfsSafe VfsFile BootMaker.
Local Open Scope Z_scope.
Local Open Scope c_scope.

Module BootImage.

(** ** Writes and what they leave alone *)

(** Only bytes at positions in [P] differ. *)
Definition touch (P : Z -> Prop) (b b' : list Z) : Prop :=
  length b' = length b /\ forall q, ~ P q -> aget b' q = aget b q.

Lemma touch_refl P b : touch P b b.
Proof. by split. Qed.

Lemma touch_trans P b1 b2 b3 : touch P b1 b2 -> touch P b2 b3 -> touch P b1 b3.
Proof. intros [L1 H1] [L2 H2]. split; [congruence|]. intros q Hq. by rewrite H2, H1. Qed.

Lemma touch_weaken (P Q : Z -> Prop) b b' : touch P b b' -> (forall q, P q -> Q q) -> touch Q b b'.
Proof. intros [L H] HQ. split; [done|]. intros q Hq. apply H. by intros ?%HQ. Qed.

Lemma rd_int_touch P b b' p : touch P b b' -> (forall q, p <= q < p + 4 -> ~ P q) -> rd_int b' p = rd_int b p.
Proof. intros [_ H] HP. unfold rd_int, rd. by rewrite !H by (apply HP; lia). Qed.

Lemma str_at_touch P b b' str : forall p, touch P b b' -> (forall q, p <= q <= p + Z.of_nat (length str) -> ~ P q) ->
  str_at b p str -> str_at b' p str.
Proof.
  intros p [L H]. revert p. induction str as [|c str IH]; intros p HP; simpl in *.
  - by rewrite H by (apply HP; lia).
  - intros (H1 & H2 & H3). rewrite H by (apply HP; lia). split; [done|]. split; [done|]. apply IH; [|done]. intros q Hq. apply HP. lia.
Qed.

Lemma wr_touch b p v : 0 <= p < Z.of_nat (length b) ->
  exists b', wr b p v = Ok b' /\ touch (fun q => q = p) b b' /\ aget b' p = Some (u8 v).
Proof.
  intros Hp. unfold wr. pose proof (aset_in_range b p (u8 v) Hp) as E. rewrite E. eexists. split; [done|].
  pose proof (aset_length _ _ _ _ E). split; [split; [done|]|by apply (aget_aset_eq b)]. intros q Hq. eapply aget_aset_ne; [exact E|congruence].
Qed.

(** Four bytes make up an integer. *)
Lemma bytes_int v : s32 (u8 v + 256 * u8 (Z.shiftr v 8) + 65536 * u8 (Z.shiftr v 16) + 16777216 * u8 (Z.shiftr v 24)) = s32 v.
Proof.
  apply s32_cong. unfold u8. rewrite !Z.shiftr_div_pow2 by lia. change (2 ^ 8) with 256. change (2 ^ 16) with 65536. change (2 ^ 24) with 16777216.
  change (2 ^ 32) with 4294967296. Z.div_mod_to_equations. lia.
Qed.

Lemma wr_int_ok b p v : 0 <= p -> p + 4 <= Z.of_nat (length b) ->
  exists b', wr_int b p v = Ok b' /\ touch (fun q => p <= q < p + 4) b b' /\ rd_int b' p = Ok (s32 v).
Proof.
  intros H0 H4. unfold wr_int.
  destruct (wr_touch b p v) as (b1 & E1 & T1 & G1); [lia|]. rewrite E1. cbn [cbind]. pose proof (proj1 T1) as L1.
  destruct (wr_touch b1 (p + 1) (Z.shiftr v 8)) as (b2 & E2 & T2 & G2); [lia|]. rewrite E2. cbn [cbind]. pose proof (proj1 T2) as L2.
  destruct (wr_touch b2 (p + 2) (Z.shiftr v 16)) as (b3 & E3 & T3 & G3); [lia|]. rewrite E3. cbn [cbind]. pose proof (proj1 T3) as L3.
  destruct (wr_touch b3 (p + 3) (Z.shiftr v 24)) as (b4 & E4 & T4 & G4); [lia|]. exists b4. split; [done|].
  assert (forall P : Z -> Prop, (forall i, p <= i < p + 4 -> P i) -> touch P b b4) as T.
  { intros P HP. eapply touch_trans; [eapply touch_weaken; [exact T1|]; intros q ->; apply HP; lia|].
    eapply touch_trans; [eapply touch_weaken; [exact T2|]; intros q ->; apply HP; lia|].
    eapply touch_trans; [eapply touch_weaken; [exact T3|]; intros q ->; apply HP; lia|].
    eapply touch_weaken; [exact T4|]; intros q ->; apply HP; lia. }
  split; [by apply T|]. unfold rd_int, rd. rewrite G4. rewrite (proj2 T4) by lia. rewrite (proj2 T3) by lia. rewrite (proj2 T2) by lia. rewrite G1.
  rewrite (proj2 T4) by lia. rewrite (proj2 T3) by lia. rewrite G2. rewrite (proj2 T4) by lia. rewrite G3. cbn [deref cbind]. by rewrite bytes_int.
Qed.

Lemma memset_zero n : forall b p, 0 <= p -> p + Z.of_nat n <= Z.of_nat (length b) ->
  exists b', memset b p 0 n = Ok b' /\ touch (fun q => p <= q < p + Z.of_nat n) b b' /\ forall q, p <= q < p + Z.of_nat n -> aget b' q = Some 0.
Proof.
  induction n as [|n IH]; intros b p H0 H4; cbn [memset]; [exists b; split; [done|]; split; [apply touch_refl|lia]|].
  destruct (wr_touch b p 0) as (b1 & E1 & T1 & G1); [lia|]. rewrite E1. cbn [cbind]. pose proof (proj1 T1) as L1.
  destruct (IH b1 (p + 1)) as (b2 & E2 & T2 & G2); [lia|lia|]. exists b2. split; [done|]. split.
  - eapply touch_trans; [eapply touch_weaken; [exact T1|]|eapply touch_weaken; [exact T2|]]; simpl; intros; lia.
  - intros q Hq. destruct (decide (q = p)) as [->|Hne]; [|apply G2; lia]. by rewrite (proj2 T2) by lia.
Qed.

(** The text of a string in a field, filled up with zeros. *)
Lemma host_strncpy_ok sm n : forall str src dm dst, str_at sm src str -> 0 <= dst -> dst + Z.of_nat n <= Z.of_nat (length dm) ->
  exists b, host_strncpy dm dst sm src n = Ok b /\ touch (fun q => dst <= q < dst + Z.of_nat n) dm b /\
    forall i, (i < n)%nat -> aget b (dst + Z.of_nat i) = Some (default 0 (str !! i)).
Proof.
  induction n as [|n IH]; intros str src dm dst Hs H0 H4; cbn [host_strncpy]; [exists dm; split; [done|]; split; [apply touch_refl|lia]|].
  destruct str as [|c str]; cbn [str_at] in Hs.
  - rewrite (rd_Some _ _ _ Hs). cbn [cbind]. rewrite decide_True by done. destruct (memset_zero (S n) dm dst H0 H4) as (b & E & T & G).
    exists b. split; [done|]. split; [done|]. intros i Hi. rewrite G by lia. done.
  - destruct Hs as (H1 & H2 & H3). rewrite (rd_Some _ _ _ H1). cbn [cbind]. rewrite decide_False by lia.
    destruct (wr_touch dm dst c) as (b1 & E1 & T1 & G1); [lia|]. rewrite E1. cbn [cbind]. pose proof (proj1 T1) as L1.
    destruct (IH str (src + 1) b1 (dst + 1) H3) as (b & E & T & G); [lia|lia|]. exists b. split; [done|]. split.
    + eapply touch_trans; [eapply touch_weaken; [exact T1|]|eapply touch_weaken; [exact T|]]; simpl; intros; lia.
    + intros [|i] Hi; simpl; [rewrite (proj2 T), Z.add_0_r by lia; rewrite G1; f_equal; apply u8_small; lia|].
      replace (dst + Z.of_nat (S i)) with (dst + 1 + Z.of_nat i) by lia. apply G. lia.
Qed.

Lemma str_at_intro m str : forall p, Forall char str -> (forall i c, str !! i = Some c -> aget m (p + Z.of_nat i) = Some c) ->
  aget m (p + Z.of_nat (length str)) = Some 0 -> str_at m p str.
Proof.
  induction str as [|c str IH]; intros p Hc Hi H0; cbn [str_at].
  - by rewrite Z.add_0_r in H0.
  - apply Forall_cons in Hc as [Hc Hcs]. split; [specialize (Hi 0%nat c eq_refl); by rewrite Z.add_0_r in Hi|]. split; [done|]. apply IH; [done| |].
    + intros i x Hx. replace (p + 1 + Z.of_nat i) with (p + Z.of_nat (S i)) by lia. by apply Hi.
    + by replace (p + 1 + Z.of_nat (length str)) with (p + Z.of_nat (length (c :: str))) by (simpl; lia).
Qed.

(** The name of an entry, cut to 31 characters. *)
Lemma entry_name_ok b dst sm src str : str_at sm src str -> 0 <= dst -> dst + 32 <= Z.of_nat (length b) ->
  exists b1 b2, host_strncpy b dst sm src 32 = Ok b1 /\ wr b1 (dst + 31) 0 = Ok b2 /\
    touch (fun q => dst <= q < dst + 32) b b2 /\ str_at b2 dst (take 31 str).
Proof.
  intros Hs H0 H32. destruct (host_strncpy_ok sm 32 str src b dst Hs H0 ltac:(lia)) as (b1 & E1 & T1 & G1). pose proof (proj1 T1) as L1.
  destruct (wr_touch b1 (dst + 31) 0) as (b2 & E2 & T2 & G2); [lia|]. exists b1, b2. split; [done|]. split; [done|]. split.
  - eapply touch_trans; [exact T1|]. eapply touch_weaken; [exact T2|]. simpl. intros. lia.
  - apply str_at_intro; [by eapply Forall_take, str_at_chars| |].
    + intros i c Hi. apply lookup_take_Some in Hi as [Hi Hlt]. rewrite (proj2 T2) by lia. rewrite G1 by lia. by rewrite Hi.
    + rewrite length_take. destruct (decide (31 <= length str)%nat) as [Hl|Hl].
      * rewrite Nat.min_l by lia. exact G2.
      * rewrite Nat.min_r by lia. rewrite (proj2 T2) by lia. rewrite G1 by lia. by rewrite lookup_ge_None_2 by lia.
Qed.

(** ** Settings of a section *)

Fixpoint assoc (k : list Z) (l : list (list Z * list Z)) : option (list Z) :=
  match l with
  | [] => None
  | (a, v) :: l => if decide (a = k) then Some v else assoc k l
  end.

(** A C string that stands for an optional one. *)
Definition opt_at (r : option (list Z * Z)) (v : option (list Z)) : Prop :=
  match r, v with
  | Some (m, p), Some str => str_at m p str
  | None, None => True
  | _, _ => False
  end.

Lemma getval_loop_ok m nvs ps k : Forall2 (pair_at m) nvs ps -> Forall char k ->
  exists r, getval_loop m nvs (k ++ [0]) = Ok r /\ opt_at ((fun p => (m, p)) <$> r) (assoc k ps).
Proof.
  intros H Hk. induction H as [|p [a v] nvs ps [H1 H2] _ IH]; cbn [getval_loop assoc]; [by exists None|].
  destruct (strcmp_ok m (nv_name p) (k ++ [0]) 0 a k H1 (str_at_self k Hk)) as (c & E & Hc). rewrite E. cbn [cbind].
  destruct (decide (c = 0)) as [H0|H0].
  - rewrite decide_True by by apply Hc. by exists (Some (nv_value p)).
  - rewrite decide_False by (by intros ?%Hc). exact IH.
Qed.

Section sections.
Variable w : world.
Variable s : section.
Variable n : list Z.
Variable ps : list (list Z * list Z).
Hypothesis Hs : sec_at (w_bufs w) s (n, ps).

Lemma getval_ok k : Forall char (cstr k) -> exists r, getval w s (lit k) = Ok r /\ opt_at r (assoc (cstr k) ps).
Proof.
  intros Hk. destruct Hs as (m & Hm & _ & Hp). unfold getval, buf_of. rewrite Hm. cbn [deref cbind].
  destruct (getval_loop_ok m _ _ (cstr k) Hp Hk) as (r & E & Hr). unfold lit. rewrite E. cbn [cbind]. eauto.
Qed.

Lemma getvaldef_ok k d : Forall char (cstr k) -> Forall char (cstr d) ->
  exists m p, getvaldef w s (lit k) (lit d) = Ok (m, p) /\ str_at m p (default (cstr d) (assoc (cstr k) ps)).
Proof.
  intros Hk Hd. unfold getvaldef. destruct (getval_ok k Hk) as (r & E & Hr). rewrite E. cbn [cbind].
  destruct r as [[m p]|], (assoc (cstr k) ps) as [v|]; cbn [opt_at default] in *; try done; [by exists m, p|]. exists (lit d), 0. split; [done|]. by apply str_at_self.
Qed.

Lemma same_ok m p str k : str_at m p str -> Forall char (cstr k) -> same (m, p) k = Ok (bool_decide (str = cstr k)).
Proof.
  intros H Hk. unfold same. cbn [fst snd]. destruct (strcmp_ok m p (lit k) 0 str (cstr k) H (str_at_self _ Hk)) as (c & E & Hc). rewrite E. cbn [cbind].
  f_equal. by apply bool_decide_ext.
Qed.

(** The fields that describe the type. *)
Definition type_field (c q : Z) : Prop := at_type c <= q < at_type c + 4 \/ at_vaddr c <= q < at_vaddr c + 8.

Lemma put_addrs_ok b c : 0 <= c < 64 -> length b = 4096%nat ->
  exists b', put_addrs w s b c = Ok b' /\ touch (fun q => at_vaddr c <= q < at_vaddr c + 8) b b'.
Proof.
  intros Hc Hb. unfold put_addrs.
  destruct (getvaldef_ok "vaddr" "0") as (m1 & p1 & E1 & S1); [by apply (bool_decide_unpack _); vm_compute..|]. rewrite E1. cbn [cbind fst snd].
  rewrite (string_of_ok _ _ _ S1). cbn [cbind]. unfold at_vaddr, at_ventr in *.
  destruct (wr_int_ok b (64 * c + 48) (host_atoi (default (cstr "0") (assoc (cstr "vaddr") ps)))) as (b1 & F1 & T1 & _); [lia|lia|]. rewrite F1. cbn [cbind].
  destruct (getvaldef_ok "ventry" "0") as (m2 & p2 & E2 & S2); [by apply (bool_decide_unpack _); vm_compute..|]. rewrite E2. cbn [cbind fst snd].
  rewrite (string_of_ok _ _ _ S2). cbn [cbind]. pose proof (proj1 T1).
  destruct (wr_int_ok b1 (64 * c + 52) (host_atoi (default (cstr "0") (assoc (cstr "ventry") ps)))) as (b2 & F2 & T2 & _); [lia|lia|]. rewrite F2.
  exists b2. split; [done|]. eapply touch_trans; [eapply touch_weaken; [exact T1|]|eapply touch_weaken; [exact T2|]]; simpl; intros; lia.
Qed.

(** One of the four tests of the type. *)
Lemma set_type_ok (q : bool) (addrs : bool) b c v : 0 <= c < 64 -> length b = 4096%nat -> 0 <= v < 8 ->
  exists b', (if q then let! b := wr_int b (at_type c) v in if addrs then put_addrs w s b c else Ok b else Ok b) = Ok b' /\
    touch (type_field c) b b' /\ rd_int b' (at_type c) = if q then Ok v else rd_int b (at_type c).
Proof.
  intros Hc Hb Hv. destruct q; [|exists b; split; [done|]; split; [apply touch_refl|done]].
  destruct (wr_int_ok b (at_type c) v) as (b1 & E1 & T1 & G1); [unfold at_type; lia..|]. rewrite E1. cbn [cbind]. pose proof (proj1 T1).
  rewrite s32_small in G1 by lia. assert (touch (type_field c) b b1) as T by (eapply touch_weaken; [exact T1|]; intros ? ?; by left).
  destruct addrs; [|by exists b1]. destruct (put_addrs_ok b1 c) as (b2 & E2 & T2); [done|lia|]. exists b2. split; [done|]. split.
  - eapply touch_trans; [exact T|]. eapply touch_weaken; [exact T2|]. intros ? ?. by right.
  - rewrite <- G1. eapply rd_int_touch; [exact T2|]. unfold at_type, at_vaddr. intros. lia.
Qed.

Definition type_code (str : list Z) : Z :=
  if decide (str = cstr "boot") then BE_TYPE_BOOTSTRAP else
  if decide (str = cstr "code") then BE_TYPE_CODE else
  if decide (str = cstr "data") then BE_TYPE_DATA else
  if decide (str = cstr "elf32") then BE_TYPE_ELF32 else 0.

Lemma put_type_ok b c m p str : 0 <= c < 64 -> length b = 4096%nat -> str_at m p str ->
  exists b', put_type w s (m, p) b c = Ok b' /\ touch (type_field c) b b' /\ (type_code str <> 0 -> rd_int b' (at_type c) = Ok (type_code str)).
Proof.
  intros Hc Hb Hstr. unfold put_type.
  assert (forall k, bool_decide (Forall char (cstr k)) = true -> same (m, p) k = Ok (bool_decide (str = cstr k))) as Hsame.
  { intros k Hk. apply same_ok; [done|]. by apply bool_decide_eq_true in Hk. }
  rewrite !Hsame by by vm_compute. cbn [cbind].
  destruct (set_type_ok (bool_decide (str = cstr "boot")) true b c BE_TYPE_BOOTSTRAP Hc Hb) as (b1 & E1 & T1 & G1); [done|]. rewrite E1. cbn [cbind]. pose proof (proj1 T1).
  destruct (set_type_ok (bool_decide (str = cstr "code")) true b1 c BE_TYPE_CODE Hc) as (b2 & E2 & T2 & G2); [lia|done|]. rewrite E2. cbn [cbind]. pose proof (proj1 T2).
  destruct (set_type_ok (bool_decide (str = cstr "data")) false b2 c BE_TYPE_DATA Hc) as (b3 & E3 & T3 & G3); [lia|done|]. pose proof (proj1 T3).
  destruct (set_type_ok (bool_decide (str = cstr "elf32")) false b3 c BE_TYPE_ELF32 Hc) as (b4 & E4 & T4 & G4); [lia|done|].
  exists b4. split; [|split].
  - destruct (bool_decide (str = cstr "data")); destruct (bool_decide (str = cstr "elf32")); cbn [cbind] in *;
      destruct (wr_int b2 (at_type c) BE_TYPE_DATA); try done; cbn [cbind] in *; simplify_eq; cbn [cbind]; try done;
      destruct (wr_int _ (at_type c) BE_TYPE_ELF32); done.
  - by do 3 (eapply touch_trans; [eassumption|]).
  - unfold type_code. intros H'. rewrite G4, G3, G2, G1. repeat case_bool_decide; subst; try done; repeat case_decide; done.
Qed.

End sections.

(** ** Entries *)

(** What goes into the image: a name, a type and the contents of a file. *)
Record job := Job { j_name : list Z; j_type : Z; j_data : list Z }.

(** Entry [j] of the directory [b]. *)
Definition entry_at (b : list Z) (j off t v : Z) (name : list Z) : Prop :=
  (rd_int b (at_offset j) = Ok off /\ rd_int b (at_type j) = Ok t /\ rd_int b (at_vsize j) = Ok v) /\
  (str_at b (at_name j) name /\ (length name <= 31)%nat).

(** The pages that [len] bytes take up. *)
Definition pages (len : Z) : Z := (len + 4095) / 4096.

Lemma pages_eq len : 0 <= len < 2 ^ 31 -> s32 (Z.quot len 4096 + (if decide (Z.rem len 4096 <> 0) then 1 else 0)) = pages len.
Proof.
  intros H. unfold pages. rewrite Z.quot_div_nonneg, Z.rem_mod_nonneg by lia. rewrite s32_small; [|case_decide; Z.div_mod_to_equations; lia].
  case_decide; Z.div_mod_to_equations; lia.
Qed.

Lemma pages_bound len : 0 <= len -> 0 <= pages len <= len /\ len <= 4096 * pages len < len + 4096.
Proof. intros H. unfold pages. Z.div_mod_to_equations. lia. Qed.

Lemma entry_touch P b b' j off t v name : touch P b b' -> (forall q, 64 * j <= q < 64 * j + 64 -> ~ P q) -> entry_at b j off t v name -> entry_at b' j off t v name.
Proof.
  unfold entry_at, at_offset, at_type, at_vsize, at_name. intros T HP [(H1 & H2 & H3) [H4 H5]].
  split; [|split; [|done]]; [|eapply str_at_touch; [exact T| |done]; intros q Hq; apply HP; lia].
  split; [|split]; [rewrite <- H1|rewrite <- H2|rewrite <- H3]; (eapply rd_int_touch; [exact T|]; intros q Hq; apply HP; lia).
Qed.

Section maker_proofs.
Variable files : list Z -> option (list Z).

(** What makes an entry out of a section. *)
Definition job_of (x : list Z * list (list Z * list Z)) : option job :=
  f ← assoc (cstr "file") x.2;
  data ← files f;
  let t := type_code (default (cstr "NONE") (assoc (cstr "type") x.2)) in
  if decide (t = 0) then None else Some (Job x.1 t data).

Lemma job_of_Some x jb : job_of x = Some jb -> exists f, assoc (cstr "file") x.2 = Some f /\ files f = Some (j_data jb) /\ j_name jb = x.1 /\
  j_type jb = type_code (default (cstr "NONE") (assoc (cstr "type") x.2)) /\ j_type jb <> 0.
Proof.
  unfold job_of. intros (f & Hf & (data & Hd & H)%bind_Some)%bind_Some. case_decide as Ht; [done|]. injection H as <-. by exists f.
Qed.

Definition size_of (jb : job) : Z := Z.of_nat (length (j_data jb)).

(** The buffers and sizes after an object was loaded. *)
Definition loaded (k : maker) (jb : job) (b : list Z) : maker :=
  Maker b (<[Z.to_nat (mk_c k) := Some (j_data jb)]> (rawdata k)) (<[Z.to_nat (mk_c k) := size_of jb]> (rawsize k)) (mk_c k + 1) (nextpage k + pages (size_of jb)).

Lemma make_entry_ok w s x jb k : sec_at (w_bufs w) s x -> job_of x = Some jb ->
  0 <= mk_c k < 64 -> length (bdir k) = 4096%nat -> length (rawdata k) = 64%nat -> length (rawsize k) = 64%nat ->
  size_of jb < 2 ^ 31 -> 0 <= nextpage k -> nextpage k + pages (size_of jb) < 2 ^ 31 ->
  exists b, make_entry files w s k = Ok (inr (loaded k jb b)) /\
    touch (fun q => 64 * mk_c k <= q < 64 * mk_c k + 64) (bdir k) b /\
    entry_at b (mk_c k) (nextpage k) (j_type jb) (size_of jb) (take 31 (j_name jb)).
Proof.
  intros Hs Hj Hc Hb Hr Hz Hsz Hn Hnext. destruct (job_of_Some _ _ Hj) as (f & Hf & Hd & Hname & Htype & Ht0). destruct x as [n ps]. cbn [fst snd] in *.
  pose proof Hs as (m & Hm & Hsn & _). cbn [fst snd] in *. unfold make_entry, buf_of. rewrite Hm. cbn [deref cbind].
  destruct (getvaldef_ok w s n ps Hs "type" "NONE") as (tm & tp & E1 & S1); [by apply (bool_decide_unpack _); vm_compute..|]. rewrite E1. cbn [cbind].
  destruct (getval_ok w s n ps Hs "file") as (fr & E2 & S2); [by apply (bool_decide_unpack _); vm_compute|]. rewrite E2. cbn [cbind].
  rewrite Hf in S2. destruct fr as [[fm fp]|]; [|done]. cbn [opt_at] in S2.
  destruct (entry_name_ok (bdir k) (at_name (mk_c k)) m (sec_name s) n Hsn) as (b1 & b2 & F1 & F2 & T2 & N2); [unfold at_name; lia..|].
  rewrite F1. cbn [cbind]. rewrite F2. cbn [cbind fst snd]. rewrite (string_of_ok _ _ _ S2). cbn [cbind]. unfold loadfile. rewrite Hd.
  rewrite !aset_in_range by lia. cbn [deref cbind]. fold (size_of jb). assert (0 <= size_of jb) as Hpos by (unfold size_of; lia).
  rewrite !(s32_small (size_of jb)) by lia. rewrite !pages_eq by lia. pose proof (pages_bound (size_of jb) Hpos) as Hpg. pose proof (proj1 T2) as L2.
  unfold at_name, at_size, at_vsize, at_offset in *.
  destruct (wr_int_ok b2 (64 * mk_c k + 40) (pages (size_of jb))) as (b3 & F3 & T3 & G3); [lia..|]. rewrite F3. cbn [cbind]. pose proof (proj1 T3) as L3.
  rewrite (decide_False (P := size_of jb < pages (size_of jb))) by lia.
  destruct (wr_int_ok b3 (64 * mk_c k + 44) (size_of jb)) as (b4 & F4 & T4 & G4); [lia..|]. rewrite F4. cbn [cbind]. pose proof (proj1 T4) as L4.
  destruct (wr_int_ok b4 (64 * mk_c k + 32) (nextpage k)) as (b5 & F5 & T5 & G5); [lia..|]. rewrite F5. cbn [cbind]. pose proof (proj1 T5) as L5.
  rewrite s32_small in G4, G5 by lia. rewrite (s32_small (nextpage k + _)) by lia.
  destruct (put_type_ok w s n ps Hs b5 (mk_c k) tm tp _ Hc ltac:(lia) S1) as (b6 & F6 & T6 & G6). rewrite F6. cbn [cbind].
  rewrite <- Htype in G6. rewrite (G6 Ht0). cbn [cbind]. rewrite decide_False by done. exists b6. split; [done|]. unfold type_field, at_type, at_vaddr in T6. split.
  - do 4 (eapply touch_trans; [eapply touch_weaken; [eassumption|]; simpl; intros; lia|]). eapply touch_weaken; [exact T6|]. simpl. intros. lia.
  - unfold entry_at, at_offset, at_vsize, at_name. split; [split; [|split; [by apply G6|]]|split; [|rewrite length_take; lia]].
    + rewrite <- G5. eapply rd_int_touch; [exact T6|]. simpl. intros. lia.
    + rewrite <- G4. rewrite <- (rd_int_touch _ _ _ (64 * mk_c k + 44) T5) by (simpl; intros; lia). eapply rd_int_touch; [exact T6|]. simpl. intros. lia.
    + rewrite Hname. assert (length (take 31 n) <= 31)%nat by (rewrite length_take; lia).
      do 4 (eapply str_at_touch; [eassumption|simpl; intros; lia|]). exact N2.
Qed.

(** ** All entries *)

(** The page where the object after [l] starts. *)
Definition start (l : list job) : Z := foldr (fun jb n => pages (size_of jb) + n) 1 l.

Lemma start_snoc l jb : start (l ++ [jb]) = start l + pages (size_of jb).
Proof. induction l as [|x l IH]; simpl; [lia|]. fold (start (l ++ [jb])) (start l). lia. Qed.

Lemma size_of_pos jb : 0 <= size_of jb.
Proof. unfold size_of. lia. Qed.

Lemma start_pos l : 1 <= start l.
Proof. induction l as [|jb l IH]; simpl; [lia|]. fold (start l). pose proof (pages_bound _ (size_of_pos jb)). lia. Qed.

Lemma start_app l l' : start (l ++ l') = start l + start l' - 1.
Proof. induction l as [|x l IH]; simpl; [lia|]. fold (start (l ++ l')) (start l). lia. Qed.

(** The state of makeboot after the jobs [l]. *)
Record made (l : list job) (k : maker) : Prop := {
  md_c : mk_c k = 1 + Z.of_nat (length l);
  md_next : nextpage k = start l;
  md_len : length (bdir k) = 4096%nat /\ length (rawdata k) = 64%nat /\ length (rawsize k) = 64%nat;
  md_zero : rawsize k !! 0%nat = Some 4096;
  md_dir : entry_at (bdir k) 0 0 1 1 (cstr "SBBB/Directory");
  md_free : forall j, mk_c k <= j < 64 -> rd_int (bdir k) (at_type j) = Ok 0;
  md_jobs : forall i jb, l !! i = Some jb -> rawdata k !! S i = Some (Some (j_data jb)) /\ rawsize k !! S i = Some (size_of jb) /\
    entry_at (bdir k) (Z.of_nat (S i)) (start (take i l)) (j_type jb) (size_of jb) (take 31 (j_name jb)) }.

#[local] Instance cres_eq_dec : EqDecision (cres Z).
Proof. solve_decision. Defined.

(** The start, by computation. *)
Definition init_checks (k : maker) : bool :=
  bool_decide ((mk_c k = 1 /\ nextpage k = 1) /\ (length (bdir k) = 4096%nat /\ length (rawdata k) = 64%nat /\ length (rawsize k) = 64%nat) /\
    rawsize k !! 0%nat = Some 4096 /\ (rd_int (bdir k) (at_offset 0) = Ok 0 /\ rd_int (bdir k) (at_type 0) = Ok 1 /\ rd_int (bdir k) (at_vsize 0) = Ok 1) /\
    read_str (bdir k) (at_name 0) 32 = Some (cstr "SBBB/Directory") /\ Forall (fun j => rd_int (bdir k) (at_type j) = Ok 0) (seqZ 1 63)).

Lemma made_init : exists k, make_init = Ok k /\ made [] k.
Proof.
  assert (match make_init with Ok k => init_checks k | _ => false end = true) as H by by vm_compute.
  destruct make_init as [k| |]; [|done..]. exists k. split; [done|]. unfold init_checks in H. rewrite bool_decide_eq_true in H.
  destruct H as ((H1 & H2) & H3 & H4 & H5 & H6 & H7). split; try done.
  - split; [done|]. split; [|simpl; lia]. by apply (read_str_ok _ 32).
  - intros j Hj. rewrite Forall_forall in H7. apply H7, elem_of_seqZ. lia.
Qed.

Lemma made_step l k jb b : made l k -> (length l < 63)%nat ->
  touch (fun q => 64 * mk_c k <= q < 64 * mk_c k + 64) (bdir k) b ->
  entry_at b (mk_c k) (nextpage k) (j_type jb) (size_of jb) (take 31 (j_name jb)) -> made (l ++ [jb]) (loaded k jb b).
Proof.
  intros [M1 M2 (M3 & M4 & M5) M6 M7 M8 M9] Hl T He. assert (Z.to_nat (mk_c k) = S (length l)) as Hc by lia.
  split; cbn [loaded mk_c nextpage bdir rawdata rawsize].
  - rewrite length_app. simpl. lia.
  - by rewrite start_snoc, M2.
  - rewrite !length_insert. pose proof (proj1 T). lia.
  - rewrite list_lookup_insert_ne by lia. done.
  - eapply entry_touch; [exact T| |done]. simpl. lia.
  - intros j Hj. rewrite <- (M8 j) by lia. eapply rd_int_touch; [exact T|]. unfold at_type. intros. lia.
  - intros i jb' Hi. rewrite Hc. apply lookup_app_Some in Hi as [Hi|[Hge Hi]].
    + destruct (M9 i jb' Hi) as (H1 & H2 & H3). apply lookup_lt_Some in Hi. rewrite !list_lookup_insert_ne by lia. split; [done|]. split; [done|].
      rewrite take_app_le by lia. eapply entry_touch; [exact T| |exact H3]. cbv beta. intros. lia.
    + apply list_lookup_singleton_Some in Hi as [Hi <-]. assert (i = length l) as -> by lia. rewrite !list_lookup_insert_eq by lia. split; [done|]. split; [done|].
      rewrite take_app_length, <- M2. by replace (Z.of_nat (S (length l))) with (mk_c k) by lia.
Qed.

Lemma make_loop_ok w secs xs : Forall2 (sec_at (w_bufs w)) secs xs -> forall jobs l k, mapM job_of xs = Some jobs -> made l k ->
  (length l + length jobs < 63)%nat -> start (l ++ jobs) * 4096 < 2 ^ 31 ->
  exists k', make_loop files w secs k = Ok (inr k') /\ made (l ++ jobs) k'.
Proof.
  induction 1 as [|s x secs xs Hs _ IH]; intros jobs l k Hj Hk Hl Ht.
  - injection Hj as <-. exists k. by rewrite app_nil_r.
  - cbn [mapM] in Hj. apply bind_Some in Hj as (jb & Hjb & (jobs' & Hjs & E)%bind_Some). injection E as <-. cbn [length] in Hl.
    pose proof (start_pos jobs'). pose proof (start_pos l). pose proof (pages_bound _ (size_of_pos jb)) as Hp. pose proof (size_of_pos jb).
    assert (start (l ++ jb :: jobs') = start l + pages (size_of jb) + start jobs' - 1) as Es by (rewrite start_app; simpl; fold (start jobs'); lia).
    destruct (make_entry_ok w s x jb k Hs Hjb) as (b & E & T & He); try (destruct Hk as [? ? (? & ? & ?) ? ? ? ?]; lia).
    cbn [make_loop]. rewrite E. cbn [cbind]. pose proof (made_step l k jb b Hk ltac:(lia) T He) as Hk'.
    rewrite decide_False by (rewrite (md_c _ _ Hk'), length_app; simpl; lia).
    destruct (IH jobs' (l ++ [jb]) _ Hjs Hk') as (k' & E' & Hm); [rewrite length_app; simpl; lia|by rewrite <- app_assoc|].
    exists k'. split; [done|]. by rewrite <- app_assoc in Hm.
Qed.

(** ** The image *)

Definition padded (jb : job) : list Z := j_data jb ++ replicate (Z.to_nat (4096 * pages (size_of jb) - size_of jb)) 0.

Lemma length_padded jb : Z.of_nat (length (padded jb)) = 4096 * pages (size_of jb).
Proof. unfold padded. rewrite length_app, length_replicate. pose proof (pages_bound _ (size_of_pos jb)). unfold size_of in *. lia. Qed.

Lemma length_objects l : Z.of_nat (length (concat (map padded l))) = 4096 * (start l - 1).
Proof.
  induction l as [|jb l IH]; [done|]. cbn [map concat start foldr]. fold (start l). rewrite length_app, Nat2Z.inj_add, length_padded, IH. lia.
Qed.

Lemma fill_eq len : 0 <= len -> (if decide (Z.rem len 4096 <> 0) then replicate (Z.to_nat (4096 - Z.rem len 4096)) 0 else []) =
  replicate (Z.to_nat (4096 * pages len - len)) (0 : Z).
Proof.
  intros H. rewrite Z.rem_mod_nonneg by lia. unfold pages. case_decide as Hr.
  - f_equal. f_equal. Z.div_mod_to_equations. lia.
  - replace (Z.to_nat _) with 0%nat; [done|]. Z.div_mod_to_equations. lia.
Qed.

Lemma write_jobs k l : made l k -> forall l2 l1, l = l1 ++ l2 -> write_objects k (Z.of_nat (S (length l1))) (length l2) = Ok (concat (map padded l2)).
Proof.
  intros Hk. induction l2 as [|jb l2 IH]; intros l1 E; [done|]. cbn [length write_objects].
  destruct (md_jobs _ _ Hk (length l1) jb) as (H1 & H2 & _); [subst l; by rewrite list_lookup_middle|].
  unfold aget. rewrite !decide_True by lia. rewrite !Nat2Z.id. rewrite H1, H2. cbn [deref cbind]. rewrite decide_False by lia. cbn [deref cbind].
  pose proof (size_of_pos jb). rewrite decide_True by (unfold size_of in *; lia). cbn [cbind]. rewrite fill_eq by done.
  replace (Z.of_nat (S (length l1)) + 1) with (Z.of_nat (S (length (l1 ++ [jb])))) by (rewrite length_app; simpl; lia).
  rewrite IH by (by rewrite <- app_assoc). cbn [cbind map concat]. unfold padded at 2, size_of at 1. rewrite Nat2Z.id, take_ge by done. by rewrite <- app_assoc.
Qed.

Lemma write_ok k l : made l k -> write_objects k 0 (Z.to_nat (mk_c k)) = Ok (bdir k ++ concat (map padded l)).
Proof.
  intros Hk. rewrite (md_c _ _ Hk). replace (Z.to_nat (1 + Z.of_nat (length l))) with (S (length l)) by lia. cbn [write_objects].
  destruct (md_len _ _ Hk) as (L1 & L2 & _). unfold aget. rewrite !decide_True by lia. change (Z.to_nat 0) with 0%nat. rewrite (md_zero _ _ Hk). cbn [deref cbind].
  destruct (lookup_lt_is_Some_2 (rawdata k) 0) as [raw Hraw]; [lia|]. rewrite Hraw. cbn [deref cbind]. rewrite (decide_True (P := 0 = 0)) by done. cbn [deref cbind]. rewrite decide_True by (rewrite L1; lia). cbn [cbind].
  change (if decide (Z.rem 4096 4096 <> 0) then replicate (Z.to_nat (4096 - Z.rem 4096 4096)) (0 : Z) else []) with (@nil Z).
  change (0 + 1) with (Z.of_nat (S (length (@nil job)))). rewrite (write_jobs k l Hk l []) by done. cbn [cbind app]. by rewrite take_ge by lia.
Qed.

Definition image (l : list job) (k : maker) : list Z := bdir k ++ concat (map padded l).

Lemma length_image l k : made l k -> Z.of_nat (length (image l k)) = 4096 * start l.
Proof. intros Hk. destruct (md_len _ _ Hk) as (L & _). unfold image. rewrite length_app, Nat2Z.inj_add, length_objects, L. lia. Qed.

Lemma start_take l i jb : l !! i = Some jb -> start (take i l) + pages (size_of jb) <= start l.
Proof.
  intros H. rewrite <- (take_drop_middle l i jb H) at 2. rewrite start_app. cbn [start foldr]. fold (start (drop (S i) l)). pose proof (start_pos (drop (S i) l)). lia.
Qed.

Lemma image_slice l k i jb : made l k -> l !! i = Some jb -> slice (image l k) (4096 * start (take i l)) (length (j_data jb)) = j_data jb.
Proof.
  intros Hk Hi. unfold slice, image. rewrite <- (take_drop_middle l i jb Hi) at 2. rewrite map_app, concat_app. cbn [map concat]. rewrite app_assoc.
  rewrite drop_app_length'; [|rewrite length_app; destruct (md_len _ _ Hk) as (L & _); pose proof (length_objects (take i l)); pose proof (start_pos (take i l)); lia].
  unfold padded. by rewrite <- app_assoc, take_app_length.
Qed.

Lemma rd_int_app m r p v : rd_int m p = Ok v -> rd_int (m ++ r) p = Ok v.
Proof.
  unfold rd_int, rd. intros H. apply cbind_Ok in H as (a & Ha%deref_Ok & H). apply cbind_Ok in H as (b & Hb%deref_Ok & H).
  apply cbind_Ok in H as (c & Hc%deref_Ok & H). apply cbind_Ok in H as (d & Hd%deref_Ok & H). injection H as <-.
  by rewrite (aget_app_l _ r _ _ Ha), (aget_app_l _ r _ _ Hb), (aget_app_l _ r _ _ Hc), (aget_app_l _ r _ _ Hd).
Qed.

Lemma entry_app b r j off t v name : entry_at b j off t v name -> entry_at (b ++ r) j off t v name.
Proof. intros [(H1 & H2 & H3) [H4 H5]]. split; [split_and!; by apply rd_int_app|]. split; [by apply str_at_app|done]. Qed.

(** The entries of the image: the directory, the objects, and those not in use. *)
Lemma image_entry l k j : made l k -> 0 <= j < 64 ->
  (j = 0 /\ entry_at (image l k) 0 0 1 1 (cstr "SBBB/Directory")) \/
  (exists i jb, j = Z.of_nat (S i) /\ l !! i = Some jb /\
    entry_at (image l k) j (start (take i l)) (j_type jb) (size_of jb) (take 31 (j_name jb))) \/
  be_type (image l k) j = Ok 0.
Proof.
  intros Hk Hj. destruct (decide (j = 0)) as [->|H0]; [left; split; [done|]; apply entry_app, Hk|right].
  destruct (decide (j < mk_c k)) as [Hlt|Hge].
  - left. rewrite (md_c _ _ Hk) in Hlt. destruct (lookup_lt_is_Some_2 l (Z.to_nat (j - 1))) as [jb Hi]; [lia|]. exists (Z.to_nat (j - 1)), jb.
    assert (j = Z.of_nat (S (Z.to_nat (j - 1)))) as Ej by lia. split; [done|]. split; [done|]. apply entry_app. rewrite Ej at 1. by apply (md_jobs _ _ Hk).
  - right. apply rd_int_app, (md_free _ _ Hk). lia.
Qed.

Lemma image_file_ok l k i jb : made l k -> start l * 4096 < 2 ^ 31 -> l !! i = Some jb ->
  s32 (start (take i l) * 0x1000) = 4096 * start (take i l) /\ file_ok (image l k) (BI 0 (start (take i l)) (size_of jb) []).
Proof.
  intros Hk Hl Hi. pose proof (start_take l i jb Hi). pose proof (start_pos (take i l)). pose proof (pages_bound _ (size_of_pos jb)). pose proof (size_of_pos jb).
  assert (s32 (start (take i l) * 0x1000) = 4096 * start (take i l)) as E by (rewrite s32_small; lia). split; [done|].
  unfold file_ok. cbn [bi_size bi_offset]. rewrite E, (length_image _ _ Hk). lia.
Qed.

Lemma image_boot_ok l k : made l k -> start l * 4096 < 2 ^ 31 -> boot_ok (image l k).
Proof.
  intros Hk Hl j Hj. destruct (image_entry l k j Hk Hj) as [[-> [(H1 & H2 & H3) [H4 _]]]|[(i & jb & -> & Hi & [(H1 & H2 & H3) [H4 _]])|H]].
  - exists 1. split; [done|]. intros _. exists 0, 1, (cstr "SBBB/Directory"). split_and!; [done|done|done|]. unfold file_ok. cbn [bi_size bi_offset].
    change (s32 (0 * 4096)) with 0. rewrite (length_image _ _ Hk). pose proof (start_pos l). lia.
  - exists (j_type jb). split; [done|]. intros _. exists (start (take i l)), (size_of jb), (take 31 (j_name jb)). split; [done|]. split; [done|]. split; [done|].
    by apply image_file_ok.
  - exists 0. split; [done|]. by intros [].
Qed.

Lemma jobs_typed xs : forall jobs, mapM job_of xs = Some jobs -> Forall (fun jb => j_type jb <> 0) jobs.
Proof.
  intros jobs H. apply mapM_Some in H. induction H as [|x jb xs jobs Hx _ IH]; [constructor|]. constructor; [|done].
  apply job_of_Some in Hx as (f & _ & _ & _ & _ & H). done.
Qed.

(** ** Reading the files of an image *)

(** No two names are equal in their first 31 characters. *)
Definition told_apart (l : list job) : Prop := NoDup (map (fun jb => take 31 (j_name jb)) l).

(** A name that a program can open. *)
Definition openable (name : list Z) : Prop :=
  (length name <= 25)%nat /\ (name <> cstr "." /\ name <> cstr "..") /\ name <> cstr "SBBB/Directory".

Lemma image_only_file l k i jb : made l k -> told_apart l -> l !! i = Some jb -> take 31 (j_name jb) = j_name jb ->
  only_file (image l k) (Z.of_nat (S i)) (j_name jb).
Proof.
  intros Hk Hd Hi Ht j' o' v' name' Hj' (t & F1 & F2 & _ & _ & F5 & F6) Hn.
  destruct (image_entry l k j' Hk Hj') as [[-> [_ [H4 _]]]|[(i' & jb' & -> & Hi' & [_ [H4 _]])|H]].
  - exfalso. apply F6. by eapply str_at_unique.
  - rewrite (str_at_unique _ _ _ _ F5 H4), take_take in Hn. change (31 `min` 31)%nat with 31%nat in Hn. do 2 f_equal.
    eapply (NoDup_lookup _ _ _ (j_name jb) Hd); rewrite list_lookup_fmap; [rewrite Hi'|rewrite Hi]; simpl; by f_equal.
  - exfalso. rewrite H in F1. injection F1 as <-. done.
Qed.

Lemma image_is_file l k i jb : made l k -> l !! i = Some jb -> j_type jb <> 0 -> take 31 (j_name jb) = j_name jb -> j_name jb <> cstr "SBBB/Directory" ->
  (length l < 63)%nat -> is_file (image l k) (Z.of_nat (S i)) (start (take i l)) (size_of jb) (j_name jb).
Proof.
  intros Hk Hi Hty Ht Hn Hl. pose proof (lookup_lt_Some _ _ _ Hi).
  destruct (image_entry l k (Z.of_nat (S i)) Hk ltac:(lia)) as [[? _]|[(i' & jb' & E & Hi' & [(H1 & H2 & H3) [H4 _]])|E]]; [lia| |].
  - assert (i' = i) as -> by lia. rewrite Hi in Hi'. injection Hi' as <-. exists (j_type jb). rewrite Ht in H4. done.
  - exfalso. destruct (md_jobs _ _ Hk i jb Hi) as (_ & _ & [(_ & H2 & _) _]). apply (rd_int_app _ (concat (map padded l))) in H2. unfold be_type, image in E.
    unfold at_type in H2. congruence.
Qed.

Lemma image_delivers l k i jb junk port c m p area : made l k -> (length l < 63)%nat -> start l * 4096 < 2 ^ 31 -> told_apart l -> l !! i = Some jb -> j_type jb <> 0 ->
  openable (j_name jb) -> ready (image l k) port c -> str_at m p (cstr "/boot" ++ 47 :: j_name jb) -> 0 <= area < 2 ^ 32 ->
  delivers (image l k) junk c m p area (j_data jb).
Proof.
  intros Hk Hl Hs Hd Hi Hty (N1 & N2 & N3) Hr Hp Ha. pose proof (lookup_lt_Some _ _ _ Hi). assert (take 31 (j_name jb) = j_name jb) as Ht by (apply take_ge; lia).
  destruct (image_file_ok l k i jb Hk Hs Hi) as [E _]. rewrite <- (image_slice l k i jb Hk Hi), <- E. replace (length (j_data jb)) with (Z.to_nat (size_of jb)) by (unfold size_of; lia).
  apply (boot_file_delivers (image l k) junk port c m p area (Z.of_nat (S i)) _ (size_of jb) (j_name jb)); try done.
  - by apply image_boot_ok.
  - lia.
  - by apply image_is_file.
  - by apply image_only_file.
Qed.

End maker_proofs.

(** C28. From the files to the program: when the ini file describes at most 62 sections with
  known types and files that exist, names that differ in their first 31 characters and
  an image below 2 GB, the tool writes an image; a server that has it as its boot area
  starts, and a program that opens "/boot/" and the name of a section, of at most 25
  characters, reads exactly the contents of the section's file. *)
Theorem boot_image_read_back files writable ini out lines seen xs jobs
  (Hini : files ini = Some (concat (map render lines))) (Hopt : ini <> cstr "--floppy" /\ ini <> cstr "-o") (Hout : writable out = true)
  (Hlines : Forall line_ok lines) (Hmean : feeds lines (false, []) = Some (seen, xs)) (Hjobs : mapM (job_of files) xs = Some jobs)
  (Hcount : (0 < length jobs < 63)%nat) (Hsize : start jobs * 4096 < 2 ^ 31) (Hnames : told_apart jobs) :
  exists img, main files writable [ini; cstr "-o"; out] = Ok (Written out img) /\ boot_ok img /\
    forall jb junk port k m p area, jb ∈ jobs -> openable (j_name jb) -> ready img port k ->
      str_at m p (cstr "/boot" ++ 47 :: j_name jb) -> 0 <= area < 2 ^ 32 -> delivers img junk k m p area (j_data jb).
Proof.
  destruct (load_ini_ok files (World [] []) ini lines [] seen xs) as (w & E & Hw); [constructor|done|done|done|].
  destruct made_init as (k0 & E0 & Hk0). destruct (make_loop_ok files w _ xs Hw jobs [] k0 Hjobs Hk0) as (k & E1 & Hk); [simpl; lia|done|].
  exists (image jobs k). split; [|split].
  - unfold main. cbn [main_loop]. rewrite decide_False by apply Hopt. rewrite decide_False by apply Hopt. rewrite E. cbn [cbind].
    rewrite decide_False by done. rewrite decide_True by done. cbn [cbind]. unfold makeboot. rewrite E0. cbn [cbind]. rewrite E1, Hout. cbn [cbind negb].
    rewrite (write_ok k jobs Hk). cbn [cbind app]. destruct (w_secs w) eqn:Ew; [|done]. exfalso.
    unfold holds in Hw. rewrite Ew in Hw. inversion Hw; subst. injection Hjobs as <-. simpl in Hcount. lia.
  - by apply image_boot_ok.
  - intros jb junk port c m p area [i Hi]%list_elem_of_lookup Hn Hr Hp Ha. apply (image_delivers jobs k i jb junk port); try done; [lia|].
    pose proof (jobs_typed files xs jobs Hjobs) as Hty. rewrite Forall_lookup in Hty. by apply (Hty i).
Qed.

(** ** An example *)

(** The file system of the host: a description of a boot image with one file. *)
Definition ex_lines : list line :=
  [Header (cstr "motd") []; Pair 116 (cstr "ype") (cstr "data"); Pair 102 (cstr "ile") (cstr "motd.txt"); Skip 35 (cstr " the end")].
Definition ex_files (f : list Z) : option (list Z) :=
  if decide (f = cstr "boot.ini") then Some (concat (map render ex_lines)) else
  if decide (f = cstr "motd.txt") then Some (cstr "Hello") else None.
Definition ex_job : job := Job (cstr "motd") BE_TYPE_DATA (cstr "Hello").

Example ex_main : main ex_files (fun _ => true) [cstr "boot.ini"; cstr "-o"; cstr "image"] = Ok (Written (cstr "image") ex_boot).
Proof. by vm_compute. Qed.

#[local] Instance char_dec c : Decision (char c).
Proof. unfold char. apply _. Defined.
#[local] Instance starts_dec c : Decision (starts c).
Proof. unfold starts. apply _. Defined.
#[local] Instance line_ok_dec ln : Decision (line_ok ln).
Proof. unfold line_ok, lacks. destruct ln; apply _. Defined.

Lemma boot_image_read_back_witness : exists s vfd k1, ex_server = Ok s /\
  _open ex_boot ex_junk (ex_lib s) ex_name 0 3 = Ok (Some vfd, k1) /\ exists k2, _vfs_read ex_boot ex_junk k1 vfd 5 = Ok (5, cstr "Hello", k2).
Proof.
  destruct ex_ready as (s & Es & Hready).
  destruct (boot_image_read_back ex_files (fun _ => true) (cstr "boot.ini") (cstr "image") ex_lines true
    [(cstr "motd", [(cstr "file", cstr "motd.txt"); (cstr "type", cstr "data")])] [ex_job]) as (img & E & _ & Hread).
  - by vm_compute.
  - split; done.
  - done.
  - by apply (bool_decide_unpack _); vm_compute.
  - by vm_compute.
  - by vm_compute.
  - simpl. lia.
  - vm_compute. done.
  - apply NoDup_singleton.
  - rewrite ex_main in E. injection E as <-. destruct (Hread ex_job ex_junk 50 (ex_lib s) ex_name 0 3) as (vfd & k1 & E1 & Hr).
    + by left.
    + split; [simpl; lia|]. split; [split|]; done.
    + exact Hready.
    + apply (read_str_ok _ 32). by vm_compute.
    + lia.
    + exists s, vfd, k1. split; [exact Es|]. split; [exact E1|]. destruct (Hr [] k1) as [_ Hr1]; [constructor|].
      destruct (Hr1 ltac:(vm_compute; lia) 5 ltac:(lia)) as [_ (k3 & E3)]. exists k3. exact E3.
Defined.

End BootImage.
