(* ===== verification/Dl.v ===== *)
(** lib/libdl: elf.c, sym.c and load.c, the dynamic loader.

  The loader works on the whole memory of the program, a finite map from addresses to
  bytes; an address that is not mapped is a [Fault]. Libraries are records in a finite
  map, and the list that starts at [file] is a sequence of them. *)
From S2P Require Import Prelude LibC.
Import LibC.
Local Open Scope Z_scope.
Local Open Scope c_scope.

Module Dl.

(** ** Memory *)

Abbreviation memory := (gmap Z Z).

Definition ld8 (m : memory) (p : Z) : cres Z := deref (m !! p).
Definition ld16 (m : memory) (p : Z) : cres Z :=
  let! a := ld8 m p in let! b := ld8 m (p + 1) in Ok (a + 256 * b).
Definition ld32 (m : memory) (p : Z) : cres Z :=
  let! a := ld16 m p in let! b := ld16 m (p + 2) in Ok (a + 65536 * b).
Definition st8 (m : memory) (p v : Z) : cres memory := let! _ := ld8 m p in Ok (<[p := u8 v]> m).
Definition st32 (m : memory) (p v : Z) : cres memory :=
  let! m := st8 m p v in
  let! m := st8 m (p + 1) (Z.shiftr v 8) in
  let! m := st8 m (p + 2) (Z.shiftr v 16) in
  st8 m (p + 3) (Z.shiftr v 24).

Fixpoint ld_bytes (m : memory) (p : Z) (n : nat) : cres (list Z) :=
  match n with
  | O => Ok []
  | S n => let! c := ld8 m p in let! r := ld_bytes m (p + 1) n in Ok (c :: r)
  end.
Fixpoint st_bytes (m : memory) (p : Z) (l : list Z) : cres memory :=
  match l with
  | [] => Ok m
  | c :: l => let! m := st8 m p c in st_bytes m (p + 1) l
  end.

(** memmove reads everything before it writes, as its order of copying makes sure. *)
Definition mem_move (m : memory) (dest src : Z) (n : nat) : cres memory :=
  let! l := ld_bytes m src n in st_bytes m dest l.

(** A string: where its bytes are read and at which address it starts. *)
Record cname := CName { n_read : Z -> cres Z; n_ptr : Z }.
Definition in_mem (m : memory) (p : Z) : cname := CName (ld8 m) p.
Definition literal (s : list Z) : cname := CName (rd (s ++ [0])) 0.

(** strcmp of the string at [p] with a name. *)
Fixpoint cmp_loop (m : memory) (p : Z) (g : Z -> cres Z) (q : Z) (fuel : nat) : cres Z :=
  match fuel with
  | O => Fault
  | S fuel =>
      let! a := ld8 m p in
      let! b := g q in
      if decide (a = 0 \/ a <> b) then Ok (a - b) else cmp_loop m (p + 1) g (q + 1) fuel
  end.
Definition mem_strcmp (m : memory) (p : Z) (n : cname) : cres Z := cmp_loop m p (n_read n) (n_ptr n) (S (size m)).

(** ** elf.c *)

Definition e_phoff (m : memory) (h : Z) : cres Z := ld32 m (h + 28).
Definition e_shoff (m : memory) (h : Z) : cres Z := ld32 m (h + 32).
Definition e_phnum (m : memory) (h : Z) : cres Z := ld16 m (h + 44).
Definition e_shentsize (m : memory) (h : Z) : cres Z := ld16 m (h + 46).
Definition e_shnum (m : memory) (h : Z) : cres Z := ld16 m (h + 48).
Definition e_shstrndx (m : memory) (h : Z) : cres Z := ld16 m (h + 50).
Definition sh_name (m : memory) (s : Z) : cres Z := ld32 m s.
Definition sh_offset (m : memory) (s : Z) : cres Z := ld32 m (s + 16).
Definition sh_size (m : memory) (s : Z) : cres Z := ld32 m (s + 20).

Fixpoint section_loop (m : memory) (names entsize : Z) (name : cname) (s : Z) (n : nat) : cres Z :=
  match n with
  | O => Ok 0
  | S n =>
      let! off := sh_name m s in
      let! c := mem_strcmp m (names + off) name in
      if decide (c = 0) then Ok s else section_loop m names entsize name (u32 (s + entsize)) n
  end.

(** NULL is 0. *)
Definition elf_find_section_hdr (m : memory) (h : Z) (name : list Z) : cres Z :=
  let! shoff := e_shoff m h in
  let! ndx := e_shstrndx m h in
  let! entsize := e_shentsize m h in
  let! o := sh_offset m (u32 (h + shoff + ndx * entsize)) in
  let! n := e_shnum m h in
  section_loop m (u32 (h + o)) entsize (literal name) (u32 (h + shoff)) (Z.to_nat n).

Definition elf_find_section_data (m : memory) (h : Z) (name : list Z) : cres Z :=
  let! s := elf_find_section_hdr m h name in
  if decide (s = 0) then Ok 0 else let! o := sh_offset m s in Ok (u32 (h + o)).

Definition elf_section_size (m : memory) (h : Z) (name : list Z) : cres Z :=
  let! s := elf_find_section_hdr m h name in
  if decide (s = 0) then Ok 0 else let! n := sh_size m s in Ok (s32 n).

(** ** sym.c *)

(** The fields that __dlinit leaves undefined are [None]. *)
Record lib_t := Lib {
  hdr : Z; strtab : Z; symtab : Z; dynstr : option Z; dynsym : option Z;
  symtab_data : Z; dynsym_data : option Z; strtab_data : Z; dynstr_data : option Z;
  l_area : option Z; strtab_size : Z; symtab_size : Z; dynsym_size : option Z; dynstr_size : option Z }.

Definition st_name (m : memory) (tab i : Z) : cres Z := ld32 m (tab + 16 * i).
Definition st_value (m : memory) (tab i : Z) : cres Z := ld32 m (tab + 16 * i + 4).

(** The value of the first symbol of the table with the name, from number [i] on. *)
Fixpoint sym_loop (m : memory) (tab strs i : Z) (name : cname) (n : nat) : cres (option Z) :=
  match n with
  | O => Ok None
  | S n =>
      let! off := st_name m tab i in
      let! c := mem_strcmp m (strs + off) name in
      if decide (c = 0) then let! v := st_value m tab i in Ok (Some v) else sym_loop m tab strs (i + 1) name n
  end.
Definition count_syms (size : Z) : nat := Z.to_nat (u32 size / 16).

Definition _dlsym (m : memory) (lib : lib_t) (symbol : cname) : cres Z :=
  let? size := dynsym_size lib in
  let! v := (if decide (count_syms size = 0%nat) then Ok None else
             let? tab := dynsym_data lib in let? strs := dynstr_data lib in sym_loop m tab strs 0 symbol (count_syms size)) in
  match v with
  | Some v => Ok (u32 (hdr lib + v))
  | None =>
      let! v := sym_loop m (symtab_data lib) (strtab_data lib) 0 symbol (count_syms (symtab_size lib)) in
      Ok (match v with Some v => u32 (hdr lib + v) | None => 0 end)
  end.

Definition __dl_lookup_sym (m : memory) (lib : lib_t) (name : cname) : cres Z :=
  let! v := sym_loop m (symtab_data lib) (strtab_data lib) 0 name (count_syms (symtab_size lib)) in
  Ok (default 0 v).

Definition r_offset (m : memory) (rel i : Z) : cres Z := ld32 m (rel + 8 * i).
Definition r_info (m : memory) (rel i : Z) : cres Z := ld32 m (rel + 8 * i + 4).
Definition ELF32_R_SYM (i : Z) : Z := Z.shiftr i 8.
Definition ELF32_R_TYPE (i : Z) : Z := u8 i.
Definition R_386_32 : Z := 1.
Definition R_386_PC32 : Z := 2.
Definition R_386_RELATIVE : Z := 8.

(** The loop over the list of libraries: the number of the one that has the symbol, with
  its value. *)
Fixpoint chain_loop (m : memory) (chain : list lib_t) (name : cname) (k : nat) : cres (option (nat * lib_t * Z)) :=
  match chain with
  | [] => Ok None
  | p :: chain =>
      let! sym := __dl_lookup_sym m p name in
      if decide (sym = 0) then chain_loop m chain name (S k) else Ok (Some (k, p, sym))
  end.

(** The value of a symbol, [None] when it is unresolved. *)
Definition find_symbol (m : memory) (lib : lib_t) (chain : list lib_t) (name : cname) : cres (option Z) :=
  let! sym := __dl_lookup_sym m lib name in
  if decide (sym = 0) then
    let! r := chain_loop m chain name 0 in
    match r with
    | None => Ok None
    | Some (k, p, sym) => Ok (Some (if decide (k = 0%nat) then sym else u32 (sym + hdr p)))
    end
  else Ok (Some (u32 (sym + hdr lib))).

(** The loop of __dl_patch_section: [sym] keeps its value from one turn to the next. *)
Fixpoint patch_loop (m : memory) (lib : lib_t) (chain : list lib_t) (rel sym i : Z) (n : nat) : cres (Z * memory) :=
  match n with
  | O => Ok (0, m)
  | S n =>
      let! off := r_offset m rel i in
      let word := u32 (hdr lib + off) in
      let! info := r_info m rel i in
      let! sym := (if decide (ELF32_R_SYM info = 0) then Ok (Some sym) else
        let? tab := dynsym_data lib in
        let? strs := dynstr_data lib in
        let! o := st_name m tab (ELF32_R_SYM info) in
        find_symbol m lib chain (in_mem m (strs + o))) in
      match sym with
      | None => Ok (-1, m)
      | Some sym =>
          let ty := ELF32_R_TYPE info in
          let! m :=
            (if decide (ty = R_386_32) then let! w := ld32 m word in st32 m word (u32 (w + sym)) else
             if decide (ty = R_386_PC32) then let! w := ld32 m word in st32 m word (u32 (w + (sym - word))) else
             if decide (ty = R_386_RELATIVE) then let! w := ld32 m word in st32 m word (u32 (w + hdr lib)) else Ok m) in
          patch_loop m lib chain rel sym (i + 1) n
      end
  end.
Definition __dl_patch_section (m : memory) (lib : lib_t) (chain : list lib_t) (rel size : Z) : cres (Z * memory) :=
  patch_loop m lib chain rel 0 0 (Z.to_nat size).

Definition __dl_patchup (m : memory) (lib : lib_t) (chain : list lib_t) : cres (Z * memory) :=
  let! rel := elf_find_section_data m (hdr lib) (cstr ".rel.text") in
  let! size := elf_section_size m (hdr lib) (cstr ".rel.text") in
  let! (r, m) := __dl_patch_section m lib chain rel (u32 size / 8) in
  if decide (r <> 0) then Ok (-1, m) else
  let! rel := elf_find_section_data m (hdr lib) (cstr ".rel.data") in
  let! size := elf_section_size m (hdr lib) (cstr ".rel.data") in
  let! (r, m) := __dl_patch_section m lib chain rel (u32 size / 8) in
  Ok (if decide (r <> 0) then -1 else 0, m).

(** ** load.c *)

(** The globals, the memory, the libraries by address and the list from [file] on; the
  list is undefined until __dlinit has run. *)
Record dls := Dls { d_mem : memory; d_init : bool; d_libs : gmap Z lib_t; d_file : list Z }.

(** What the environment does: the files that can be read, the code that is called at an
  address, and where the kernel and malloc put things. *)
Record env := Env {
  files : list Z -> option (list Z);
  call : Z -> memory -> cres (Z * memory);
  new_area : Z -> memory -> Z * Z * list Z; (* for a size: the area, its address and its contents *)
  new_lib : dls -> Z }.

Definition RTLD_GLOBAL : Z := 1.

Definition __dlinit (e : env) (s : dls) : cres dls :=
  let m := d_mem s in
  let h := 0x1000 in
  let! strtab := elf_find_section_hdr m h (cstr ".strtab") in
  let! strtab_data := elf_find_section_data m h (cstr ".strtab") in
  let! strtab_size := elf_section_size m h (cstr ".strtab") in
  let! symtab := elf_find_section_hdr m h (cstr ".symtab") in
  let! symtab_data := elf_find_section_data m h (cstr ".symtab") in
  let! symtab_size := elf_section_size m h (cstr ".symtab") in
  let file := new_lib e s in
  let l := Lib h strtab symtab None None symtab_data None strtab_data None None strtab_size symtab_size None None in
  Ok (Dls m true (<[file := l]> (d_libs s)) [file]).

(** The segments, from the last program header to the first. *)
Fixpoint segment_loop (m : memory) (h pgm : Z) (n : nat) : cres memory :=
  match n with
  | O => Ok m
  | S i =>
      let p := pgm + 32 * Z.of_nat i in
      let! vaddr := ld32 m (p + 8) in
      let! offset := ld32 m (p + 4) in
      let! filesz := ld32 m (p + 16) in
      let! m := mem_move m (u32 (h + vaddr)) (u32 (h + offset)) (Z.to_nat filesz) in
      segment_loop m h pgm i
  end.

(** The size of the area for a file. *)
Definition area_size (size : Z) : Z := if decide (Z.land size (-4) <> 0) then Z.land size (-4) + 0x1000 else size.

Definition map_area (m : memory) (base : Z) (bytes : list Z) : memory := list_to_map (zip (seqZ base (Z.of_nat (length bytes))) bytes) ∪ m.

(** The descriptor of a library that was read to [h]; the sizes of two tables are taken
  from the program, as the code has it. *)
Definition describe (m : memory) (prog : lib_t) (h area : Z) : cres lib_t :=
  let! strtab := elf_find_section_hdr m h (cstr ".strtab") in
  let! strtab_data := elf_find_section_data m h (cstr ".strtab") in
  let! strtab_size := elf_section_size m h (cstr ".strtab") in
  let! symtab := elf_find_section_hdr m h (cstr ".symtab") in
  let! symtab_data := elf_find_section_data m h (cstr ".symtab") in
  let! symtab_size := elf_section_size m h (cstr ".symtab") in
  let! dynstr := elf_find_section_hdr m h (cstr ".dynstr") in
  let! dynstr_data := elf_find_section_data m h (cstr ".dynstr") in
  let! dynstr_size := elf_section_size m (hdr prog) (cstr ".dynstr") in
  let! dynsym := elf_find_section_hdr m h (cstr ".dynsym") in
  let! dynsym_data := elf_find_section_data m h (cstr ".dynsym") in
  let! dynsym_size := elf_section_size m (hdr prog) (cstr ".dynsym") in
  Ok (Lib h strtab symtab (Some dynstr) (Some dynsym) symtab_data (Some dynsym_data) strtab_data (Some dynstr_data)
    (Some area) strtab_size symtab_size (Some dynsym_size) (Some dynstr_size)).

(** The libraries of the list. *)
Definition chain_of (s : dls) : cres (list lib_t) := deref (mapM (fun a => d_libs s !! a) (d_file s)).

Definition unmap (m : memory) (base : Z) (n : nat) : memory := filter (fun x => ~ (base <= fst x < base + Z.of_nat n)) m.

(** NULL is [None]; otherwise the address of the descriptor. *)
Definition _dlopen (e : env) (s : dls) (filename : list Z) (flag : Z) : cres (option Z * dls) :=
  let! s := (if d_init s then Ok s else __dlinit e s) in
  match files e filename with
  | None => Ok (None, s)
  | Some data =>
      let handle := new_lib e s in
      let '(area, c, bytes) := new_area e (area_size (Z.of_nat (length data))) (d_mem s) in
      let m := map_area (d_mem s) c bytes in
      let! m := st_bytes m c data in
      let! phoff := e_phoff m c in
      let! phnum := e_phnum m c in
      let! m := segment_loop m c (u32 (c + phoff)) (Z.to_nat phnum) in
      let! chain := chain_of s in
      let? prog := head chain in
      let! lib := describe m prog c area in
      let! (r, m) := __dl_patchup m lib chain in
      if decide (r <> 0) then Ok (None, Dls (unmap m c (length bytes)) true (d_libs s) (d_file s))
      else
        let! v := __dl_lookup_sym m lib (literal (cstr "_init")) in
        let fn := u32 (v + c) in
        let! (res, m) := (if decide (fn = 0) then Ok (0, m) else call e fn m) in
        let chain := if decide (Z.land flag (Z.lnot RTLD_GLOBAL) <> 0 \/ res <> 0) then d_file s ++ [handle] else d_file s in
        Ok (Some handle, Dls m true (<[handle := lib]> (d_libs s)) chain)
  end.

(** [size] is what the area of the library has; the list loses the library if it is in it. *)
Definition _dlclose (e : env) (s : dls) (handle : Z) (size : nat) : cres dls :=
  let? lib := d_libs s !! handle in
  let! chain := (match d_file s with [] => Fault | _ => Ok (filter (fun a => a <> handle) (d_file s)) end) in
  let m := d_mem s in
  let! v := __dl_lookup_sym m lib (literal (cstr "_fini")) in
  let fn := u32 (v + hdr lib) in
  let! (_, m) := (if decide (fn = 0) then Ok (0, m) else call e fn m) in
  let? _ := l_area lib in
  Ok (Dls (unmap m (hdr lib) size) (d_init s) (delete handle (d_libs s)) chain).

End Dl.
