(* ===== verification/DlProof.v ===== *)
(** The dynamic loader of lib/libdl: symbols are found by their names, and relocation
  gives every word the value that the ELF specification prescribes. *)
From S2P Require Import Prelude LibC Dl.
Import LibC Dl.
Local Open Scope Z_scope.
Local Open Scope c_scope.

Module DlProof.

(** ** Memory that grows *)

(** What holds of the tables in [t] holds of every memory that contains them. *)
Lemma ld8_mono t m p v : t ⊆ m -> ld8 t p = Ok v -> ld8 m p = Ok v.
Proof. unfold ld8. rewrite !deref_Ok. intros. by eapply lookup_weaken. Qed.

Lemma ld16_mono t m p v : t ⊆ m -> ld16 t p = Ok v -> ld16 m p = Ok v.
Proof.
  unfold ld16. intros Hs H. apply cbind_Ok in H as (a & Ha & H). apply cbind_Ok in H as (b & Hb & H).
  by rewrite (ld8_mono t m _ _ Hs Ha), (ld8_mono t m _ _ Hs Hb).
Qed.

Lemma ld32_mono t m p v : t ⊆ m -> ld32 t p = Ok v -> ld32 m p = Ok v.
Proof.
  unfold ld32. intros Hs H. apply cbind_Ok in H as (a & Ha & H). apply cbind_Ok in H as (b & Hb & H).
  by rewrite (ld16_mono t m _ _ Hs Ha), (ld16_mono t m _ _ Hs Hb).
Qed.

Lemma ld8_frame m m' p : m' !! p = m !! p -> ld8 m' p = ld8 m p.
Proof. unfold ld8. by intros ->. Qed.

Lemma ld32_frame m m' p : (forall a, p <= a < p + 4 -> m' !! a = m !! a) -> ld32 m' p = ld32 m p.
Proof. intros H. unfold ld32, ld16. by rewrite !(ld8_frame m m') by (apply H; lia). Qed.

Lemma ld32_mapped m p w : ld32 m p = Ok w -> forall a, p <= a < p + 4 -> is_Some (m !! a).
Proof.
  unfold ld32, ld16, ld8. intros H a Ha. apply cbind_Ok in H as (x & H1 & H). apply cbind_Ok in H as (y & H2 & _).
  apply cbind_Ok in H1 as (b0 & E0%deref_Ok & H1). apply cbind_Ok in H1 as (b1 & E1%deref_Ok & _).
  apply cbind_Ok in H2 as (b2 & E2%deref_Ok & H2). apply cbind_Ok in H2 as (b3 & E3%deref_Ok & _).
  assert (a = p \/ a = p + 1 \/ a = p + 2 \/ a = p + 2 + 1) as [->|[->|[->| ->]]] by lia; eauto.
Qed.

Lemma st8_ok m p v : is_Some (m !! p) -> st8 m p v = Ok (<[p := u8 v]> m).
Proof. intros [x Hx]. unfold st8, ld8. by rewrite Hx. Qed.

(** The four bytes of a word, put together again. *)
Lemma word_bytes v : 0 <= v < 2 ^ 32 ->
  u8 v + 256 * u8 (Z.shiftr v 8) + 65536 * (u8 (Z.shiftr v 16) + 256 * u8 (Z.shiftr v 24)) = v.
Proof.
  intros H. unfold u8. rewrite !Z.shiftr_div_pow2 by lia. change (2 ^ 8) with 256. change (2 ^ 16) with 65536. change (2 ^ 24) with 16777216.
  change (2 ^ 32) with 4294967296 in H. Z.div_mod_to_equations. lia.
Qed.

Lemma st32_ok m p v : (forall a, p <= a < p + 4 -> is_Some (m !! a)) -> 0 <= v < 2 ^ 32 ->
  exists m', st32 m p v = Ok m' /\ ld32 m' p = Ok v /\ forall a, ~ (p <= a < p + 4) -> m' !! a = m !! a.
Proof.
  intros Hm Hv. unfold st32. rewrite st8_ok by (apply Hm; lia). cbn [cbind].
  rewrite st8_ok by (rewrite lookup_insert_ne by lia; apply Hm; lia). cbn [cbind].
  rewrite st8_ok by (rewrite !lookup_insert_ne by lia; apply Hm; lia). cbn [cbind].
  rewrite st8_ok by (rewrite !lookup_insert_ne by lia; apply Hm; lia). eexists. split; [done|]. split.
  - unfold ld32, ld16, ld8. replace (p + 2 + 1) with (p + 3) by lia.
    assert (forall (m : memory) a b x, a <> b -> <[a := x]> m !! b = m !! b) as Hne by (intros; by apply lookup_insert_ne).
    rewrite lookup_insert_eq. rewrite !(Hne _ (p + 3)) by lia. rewrite lookup_insert_eq. rewrite !(Hne _ (p + 2)) by lia. rewrite lookup_insert_eq.
    rewrite (Hne _ (p + 1)) by lia. rewrite lookup_insert_eq. cbn [deref cbind]. by rewrite word_bytes.
  - intros a Ha. by rewrite !lookup_insert_ne by lia.
Qed.

(** ** Strings *)

Fixpoint mstr (m : memory) (p : Z) (s : list Z) : Prop :=
  match s with
  | [] => m !! p = Some 0
  | c :: s => m !! p = Some c /\ 0 < c < 256 /\ mstr m (p + 1) s
  end.

(** The string that a name stands for. *)
Fixpoint gstr (g : Z -> cres Z) (q : Z) (s : list Z) : Prop :=
  match s with
  | [] => g q = Ok 0
  | c :: s => g q = Ok c /\ 0 < c < 256 /\ gstr g (q + 1) s
  end.
Definition named (n : cname) (s : list Z) : Prop := gstr (n_read n) (n_ptr n) s.

Lemma mstr_mono t m s : t ⊆ m -> forall p, mstr t p s -> mstr m p s.
Proof.
  intros Hs. induction s as [|c s IH]; intros p; simpl; [intros; by eapply lookup_weaken|].
  intros (H1 & H2 & H3). split; [by eapply lookup_weaken|]. split; [done|by apply IH].
Qed.

Lemma named_mem m p s : mstr m p s -> named (in_mem m p) s.
Proof.
  unfold named, in_mem. cbn [n_read n_ptr]. revert p. induction s as [|c s IH]; intros p; simpl; unfold ld8; [by intros ->|].
  intros (-> & H2 & H3). split; [done|]. split; [done|by apply IH].
Qed.

Lemma named_literal s : Forall (fun c => 0 < c < 256) s -> named (literal s) s.
Proof.
  intros H. unfold named, literal. cbn [n_read n_ptr].
  assert (forall pre suf, s = pre ++ suf -> gstr (rd (s ++ [0])) (Z.of_nat (length pre)) suf) as G; [|by apply (G [] s)].
  intros pre suf. revert pre. induction suf as [|c suf IH]; intros pre E; simpl.
  - rewrite app_nil_r in E. subst pre. apply rd_Some. unfold aget. rewrite decide_True by lia. by rewrite Nat2Z.id, list_lookup_middle.
  - split; [|split].
    + apply rd_Some. unfold aget. rewrite decide_True by lia. rewrite Nat2Z.id, E, <- app_assoc. simpl. by rewrite list_lookup_middle.
    + rewrite E, Forall_app in H. destruct H as [_ H]. by apply Forall_cons in H as [? _].
    + specialize (IH (pre ++ [c])). rewrite length_app in IH. simpl in IH. replace (Z.of_nat (length pre) + 1) with (Z.of_nat (length pre + 1)) by lia.
      apply IH. by rewrite <- app_assoc.
Qed.

(** A string is shorter than the memory it is in, so the comparison ends. *)
Lemma mstr_size m s : forall p, mstr m p s -> (length s < size m)%nat.
Proof.
  intros p H. assert (forall a, p <= a < p + Z.of_nat (S (length s)) -> is_Some (m !! a)) as Hd.
  { revert p H. induction s as [|c s IH]; intros p H a Ha; simpl in H, Ha.
    - replace a with p by lia. eauto.
    - destruct H as (H1 & _ & H3). destruct (decide (a = p)) as [->|]; [eauto|]. apply (IH (p + 1)); [done|]. lia. }
  assert (list_to_set (seqZ p (Z.of_nat (S (length s)))) ⊆ dom m) as Hsub.
  { intros a. rewrite elem_of_list_to_set, elem_of_seqZ, elem_of_dom. apply Hd. }
  apply subseteq_size in Hsub. rewrite size_dom, size_list_to_set, length_seqZ in Hsub by apply NoDup_seqZ. lia.
Qed.

Lemma mem_strcmp_ok m p a n b : mstr m p a -> named n b -> exists c, mem_strcmp m p n = Ok c /\ (c = 0 <-> a = b).
Proof.
  intros Ha Hb. unfold mem_strcmp, named in *. assert (length a < S (size m))%nat as Hf by (apply mstr_size in Ha; lia). revert Hf Ha Hb.
  generalize (S (size m)) as fuel. generalize (n_read n) as g. generalize (n_ptr n) as q. intros q g fuel. revert p q a b.
  induction fuel as [|fuel IH]; intros p q a b Hf Ha Hb; [lia|]. destruct a as [|x a]; cbn [cmp_loop mstr] in *.
  - unfold ld8. rewrite Ha. cbn [deref cbind]. destruct b as [|y b]; cbn [gstr] in Hb; [rewrite Hb|destruct Hb as (-> & Hy & _)]; cbn [cbind]; rewrite decide_True by auto;
      eexists; (split; [done|]); split; try done; intros; lia.
  - destruct Ha as (Hx & Hc & Ha). unfold ld8. rewrite Hx. cbn [deref cbind length] in *. destruct b as [|y b]; cbn [gstr] in Hb.
    + rewrite Hb. cbn [cbind]. rewrite decide_True by (right; lia). eexists. split; [done|]. split; [lia|done].
    + destruct Hb as (-> & Hy & Hb). cbn [cbind]. destruct (decide (x = y)) as [->|Hne].
      * rewrite decide_False by (intros [?|?]; [lia|done]). destruct (IH (p + 1) (q + 1) a b) as (c & E & H); [lia|done|done|].
        exists c. split; [exact E|]. rewrite H. split; congruence.
      * rewrite decide_True by auto. eexists. split; [done|]. split; [lia|congruence].
Qed.

(** ** Symbols *)

Abbreviation symbols := (list (list Z * Z)).

(** The value of the first symbol with a name. *)
Fixpoint first (l : symbols) (n : list Z) : option Z :=
  match l with
  | [] => None
  | (a, v) :: l => if decide (a = n) then Some v else first l n
  end.

(** The table at [tab], with its names at [strs], holds the symbols [l]. *)
Definition syms_at (m : memory) (tab strs : Z) (l : symbols) : Prop :=
  forall i n v, l !! i = Some (n, v) -> exists off, st_name m tab (Z.of_nat i) = Ok off /\ st_value m tab (Z.of_nat i) = Ok v /\ mstr m (strs + off) n.

Lemma syms_at_mono t m tab strs l : t ⊆ m -> syms_at t tab strs l -> syms_at m tab strs l.
Proof.
  intros Hs H i n v Hi. destruct (H i n v Hi) as (off & H1 & H2 & H3). exists off. unfold st_name, st_value in *.
  split; [by eapply ld32_mono|]. split; [by eapply ld32_mono|by eapply mstr_mono].
Qed.

Lemma sym_loop_ok m tab strs name n l2 : named name n -> forall l1, syms_at m tab strs (l1 ++ l2) ->
  sym_loop m tab strs (Z.of_nat (length l1)) name (length l2) = Ok (first l2 n).
Proof.
  intros Hn. induction l2 as [|[a v] l2 IH]; intros l1 H; [done|]. cbn [sym_loop length first].
  destruct (H (length l1) a v) as (off & H1 & H2 & H3); [by rewrite list_lookup_middle|]. rewrite H1. cbn [cbind].
  destruct (mem_strcmp_ok m (strs + off) a name n H3 Hn) as (c & E & Hc). rewrite E. cbn [cbind]. destruct (decide (c = 0)) as [H0|H0].
  - rewrite H2. cbn [cbind]. by rewrite decide_True by by apply Hc.
  - rewrite (decide_False (P := a = n)) by (by intros ?%Hc). specialize (IH (l1 ++ [(a, v)])). rewrite length_app, <- app_assoc in IH. simpl in IH.
    replace (Z.of_nat (length l1) + 1) with (Z.of_nat (length l1 + 1)) by lia. by apply IH.
Qed.

(** The symbol table of a library. *)
Definition lib_syms (m : memory) (lib : lib_t) (l : symbols) : Prop :=
  syms_at m (symtab_data lib) (strtab_data lib) l /\ count_syms (symtab_size lib) = length l.

Lemma lib_syms_mono t m lib l : t ⊆ m -> lib_syms t lib l -> lib_syms m lib l.
Proof. intros Hs [H1 H2]. split; [by eapply syms_at_mono|done]. Qed.

Lemma lookup_sym_ok m lib l name n : lib_syms m lib l -> named name n -> __dl_lookup_sym m lib name = Ok (default 0 (first l n)).
Proof. intros [H1 H2] Hn. unfold __dl_lookup_sym. rewrite H2. pose proof (sym_loop_ok m _ _ name n l Hn [] H1) as E. change (Z.of_nat (length (@nil (list Z * Z)))) with 0 in E. by rewrite E. Qed.

(** ** Resolution *)

(** A library with its symbols. *)
Abbreviation loaded_lib := (lib_t * symbols)%type.

(** The symbols that the list of libraries offers, the program first; the program is
  linked to its addresses. *)
Fixpoint from_chain (l : list loaded_lib) (n : list Z) (k : nat) : option Z :=
  match l with
  | [] => None
  | (p, syms) :: l =>
      let v := default 0 (first syms n) in
      if decide (v = 0) then from_chain l n (S k) else Some (if decide (k = 0%nat) then v else u32 (v + hdr p))
  end.
Definition resolve (own : loaded_lib) (chain : list loaded_lib) (n : list Z) : option Z :=
  let v := default 0 (first own.2 n) in
  if decide (v = 0) then from_chain chain n 0 else Some (u32 (v + hdr own.1)).

Definition libs_at (m : memory) (l : list loaded_lib) : Prop := Forall (fun x => lib_syms m x.1 x.2) l.

Lemma libs_at_mono t m l : t ⊆ m -> libs_at t l -> libs_at m l.
Proof. intros Hs H. eapply Forall_impl; [exact H|]. intros x. by apply lib_syms_mono. Qed.

Lemma chain_loop_ok m name n l : named name n -> libs_at m l -> forall k, exists r, chain_loop m (map fst l) name k = Ok r /\
  from_chain l n k = (fun x => if decide (x.1.1 = 0%nat) then x.2 else u32 (x.2 + hdr x.1.2)) <$> r.
Proof.
  intros Hn. induction 1 as [|[p syms] l Hp _ IH]; intros k; cbn [map chain_loop from_chain fst snd] in *; [by exists None|].
  rewrite (lookup_sym_ok m p syms name n Hp Hn). cbn [cbind]. destruct (decide (default 0 (first syms n) = 0)); [apply IH|]. by eexists.
Qed.

Lemma find_symbol_ok m own chain name n : named name n -> lib_syms m own.1 own.2 -> libs_at m chain ->
  find_symbol m own.1 (map fst chain) name = Ok (resolve own chain n).
Proof.
  intros Hn Ho Hc. unfold find_symbol, resolve. rewrite (lookup_sym_ok m own.1 own.2 name n Ho Hn). cbn [cbind]. case_decide; [|done].
  destruct (chain_loop_ok m name n chain Hn Hc 0) as (r & E & ->). rewrite E. cbn [cbind]. by destruct r as [[[k p] v]|].
Qed.

(** ** Relocations *)

Record reloc := Reloc { rl_off : Z; rl_type : Z; rl_name : option (list Z) }.

Section relocation.
Variable own : loaded_lib.
Variable chain : list loaded_lib.

Definition base : Z := hdr own.1.
(** The address of the word that a relocation changes. *)
Definition target (r : reloc) : Z := u32 (base + rl_off r).
Definition hits (r : reloc) (a : Z) : Prop := target r <= a < target r + 4.

(** The symbol of a relocation. *)
Definition symbol (r : reloc) : option Z := match rl_name r with None => Some 0 | Some n => resolve own chain n end.

(** The relocations of a section with the symbols they are given, when [s] is the one before
  the first: a relocation without a symbol gets the one of the relocation before it, and 0 at
  the start of the section. *)
Definition sym_after (s : Z) (r : reloc) : Z := match rl_name r with None => s | Some n => default 0 (resolve own chain n) end.
Fixpoint with_syms (s : Z) (l : list reloc) : list (reloc * Z) :=
  match l with [] => [] | r :: l => (r, sym_after s r) :: with_syms (sym_after s r) l end.

(** What the ELF specification makes of a word for the symbol S: S + A, S + A - P or B + A. *)
Definition relocated (x : reloc * Z) (w : Z) : Z :=
  let (r, sym) := x in
  if decide (rl_type r = R_386_32) then u32 (w + sym) else
  if decide (rl_type r = R_386_PC32) then u32 (w + (sym - target r)) else
  if decide (rl_type r = R_386_RELATIVE) then u32 (w + base) else w.

Lemma with_syms_fst l : forall s, map fst (with_syms s l) = l.
Proof. induction l as [|r l IH]; intros s; [done|]. cbn [with_syms map fst]. by rewrite IH. Qed.

(** The name of symbol [k] of the dynamic table. *)
Definition dyn_name (m : memory) (k : Z) (n : list Z) : Prop := exists tab strs o,
  dynsym_data own.1 = Some tab /\ dynstr_data own.1 = Some strs /\ st_name m tab k = Ok o /\ mstr m (strs + o) n.

Definition rel_at (m : memory) (rel : Z) (i : nat) (r : reloc) : Prop := exists info,
  r_offset m rel (Z.of_nat i) = Ok (rl_off r) /\ r_info m rel (Z.of_nat i) = Ok info /\ ELF32_R_TYPE info = rl_type r /\
  match rl_name r with None => ELF32_R_SYM info = 0 | Some n => ELF32_R_SYM info <> 0 /\ dyn_name m (ELF32_R_SYM info) n end.
Definition rels_at (m : memory) (rel : Z) (l : list reloc) : Prop := forall i r, l !! i = Some r -> rel_at m rel i r.

(** What a relocation needs: a word outside the tables. *)
Definition place_ok (t m : memory) (r : reloc) : Prop := (exists w, ld32 m (target r) = Ok w) /\ forall a, hits r a -> t !! a = None.
(** No two relocations change the same word. *)
Definition apart (l : list reloc) : Prop := forall i j r r' a, l !! i = Some r -> l !! j = Some r' -> hits r a -> hits r' a -> i = j.

(** The memory after the relocations [l]. *)
Definition patched (m : memory) (l : list (reloc * Z)) (m' : memory) : Prop :=
  (forall x w, x ∈ l -> ld32 m (target x.1) = Ok w -> ld32 m' (target x.1) = Ok (relocated x w)) /\
  (forall a, (forall x, x ∈ l -> ~ hits x.1 a) -> m' !! a = m !! a).

Lemma dyn_name_mono t m k n : t ⊆ m -> dyn_name t k n -> dyn_name m k n.
Proof.
  intros Hs (tab & strs & o & H1 & H2 & H3 & H4). exists tab, strs, o. split; [done|]. split; [done|]. split; [by eapply ld32_mono|by eapply mstr_mono].
Qed.

Lemma rel_at_mono t m rel i r : t ⊆ m -> rel_at t rel i r -> rel_at m rel i r.
Proof.
  intros Hs (info & H1 & H2 & H3 & H4). exists info. split; [by eapply ld32_mono|]. split; [by eapply ld32_mono|]. split; [done|].
  destruct (rl_name r); [|done]. destruct H4 as [? ?]. split; [done|by eapply dyn_name_mono].
Qed.

(** The word of one relocation. *)
Lemma put_word t m r w v : t ⊆ m -> place_ok t m r -> ld32 m (target r) = Ok w -> 0 <= v < 2 ^ 32 ->
  exists m', st32 m (target r) v = Ok m' /\ ld32 m' (target r) = Ok v /\ t ⊆ m' /\ forall a, ~ hits r a -> m' !! a = m !! a.
Proof.
  intros Hs [_ Ht] Hw Hv. destruct (st32_ok m (target r) v (ld32_mapped _ _ _ Hw) Hv) as (m' & E & H1 & H2). exists m'. split; [done|]. split; [done|]. split; [|done].
  apply map_subseteq_spec. intros a x Ha. rewrite H2; [by eapply lookup_weaken|]. intros Hh. rewrite (Ht a Hh) in Ha. done.
Qed.

Lemma patch_step t m rel i r sym n : t ⊆ m -> lib_syms t own.1 own.2 -> libs_at t chain -> rel_at t rel i r -> place_ok t m r ->
  match symbol r with
  | None => patch_loop m own.1 (map fst chain) rel sym (Z.of_nat i) (S n) = Ok (-1, m)
  | Some _ => exists m1, patch_loop m own.1 (map fst chain) rel sym (Z.of_nat i) (S n) = patch_loop m1 own.1 (map fst chain) rel (sym_after sym r) (Z.of_nat (S i)) n /\
      t ⊆ m1 /\ patched m [(r, sym_after sym r)] m1
  end.
Proof.
  intros Hs Ho Hc Hr Hp. destruct (rel_at_mono t m rel i r Hs Hr) as (info & H1 & H2 & H3 & H4). destruct (proj1 Hp) as [w Hw].
  assert ((if decide (ELF32_R_SYM info = 0) then Ok (Some sym) else
        let? tab := dynsym_data own.1 in let? strs := dynstr_data own.1 in let! o := st_name m tab (ELF32_R_SYM info) in
        find_symbol m own.1 (map fst chain) (in_mem m (strs + o))) = Ok (match symbol r with None => None | Some _ => Some (sym_after sym r) end)) as Es.
  { unfold symbol, sym_after. destruct (rl_name r) as [nm|]; [|by rewrite decide_True by done].
    destruct H4 as [H0 (tab & strs & o & D1 & D2 & D3 & D4)]. rewrite decide_False by done. rewrite D1, D2. cbn [deref cbind]. rewrite D3. cbn [cbind].
    rewrite (find_symbol_ok m own chain _ nm (named_mem _ _ _ D4)); [by destruct (resolve own chain nm)|by eapply lib_syms_mono|by eapply libs_at_mono]. }
  cbn [patch_loop]. rewrite H1. cbn [cbind]. fold base. fold (target r). rewrite H2. cbn [cbind]. rewrite Es. cbn [cbind]. rewrite H3.
  replace (Z.of_nat i + 1) with (Z.of_nat (S i)) by lia. destruct (symbol r) as [v0|]; [|done]. generalize (sym_after sym r) as v. intros v.
  assert (forall x m1, relocated (r, v) w = x -> ld32 m1 (target r) = Ok x -> (forall a, ~ hits r a -> m1 !! a = m !! a) -> patched m [(r, v)] m1) as Hpat.
  { intros x m1 Hx Hl Hfr. split; [|intros a Ha; apply Hfr, (Ha (r, v)); by left]. intros r' w' ->%list_elem_of_singleton Hw'. cbn [fst] in *. rewrite Hw in Hw'. injection Hw' as <-. by rewrite Hx. }
  assert (forall x, relocated (r, v) w = u32 x -> exists m1, st32 m (target r) (u32 x) = Ok m1 /\ t ⊆ m1 /\ patched m [(r, v)] m1) as Hst.
  { intros x Hx. destruct (put_word t m r w (u32 x) Hs Hp Hw (u32_range _)) as (m1 & F1 & F2 & F3 & F4). exists m1. split; [done|]. split; [done|]. by eapply Hpat. }
  rewrite Hw. cbn [cbind]. unfold relocated in Hst, Hpat.
  destruct (decide (rl_type r = R_386_32)); [destruct (Hst (w + v) eq_refl) as (m1 & -> & R1); by exists m1|].
  destruct (decide (rl_type r = R_386_PC32)); [destruct (Hst (w + (v - target r)) eq_refl) as (m1 & -> & R1); by exists m1|].
  destruct (decide (rl_type r = R_386_RELATIVE)); [destruct (Hst (w + base) eq_refl) as (m1 & -> & R1); by exists m1|]. exists m. split; [done|]. split; [done|]. by eapply Hpat.
Qed.

Lemma apart_app l1 l2 : apart (l1 ++ l2) -> apart l1 /\ apart l2 /\ forall r r' a, r ∈ l1 -> r' ∈ l2 -> hits r a -> ~ hits r' a.
Proof.
  intros H. split; [|split].
  - intros i j r r' a Hi Hj. apply H; by apply lookup_app_l_Some.
  - intros i j r r' a Hi Hj H1 H2. assert (length l1 + i = length l1 + j)%nat; [|lia].
    apply (H _ _ r r' a); [by rewrite lookup_app_r, Nat.add_comm, Nat.add_sub by lia|by rewrite lookup_app_r, Nat.add_comm, Nat.add_sub by lia|done|done].
  - intros r r' a [i Hi]%list_elem_of_lookup [j Hj]%list_elem_of_lookup H1 H2. assert (i = length l1 + j)%nat; [|apply lookup_lt_Some in Hi; lia].
    apply (H _ _ r r' a); [by apply lookup_app_l_Some|by rewrite lookup_app_r, Nat.add_comm, Nat.add_sub by lia|done|done].
Qed.

Lemma patched_app m m1 m' l1 l2 : apart (map fst (l1 ++ l2)) -> patched m l1 m1 -> patched m1 l2 m' -> patched m (l1 ++ l2) m'.
Proof.
  rewrite map_app. intros Ha [P1 P2] [Q1 Q2]. destruct (apart_app _ _ Ha) as (_ & _ & Hne).
  assert (forall x y a, x ∈ l1 -> y ∈ l2 -> hits x.1 a -> ~ hits y.1 a) as Hne' by (intros x y a Hx Hy; apply Hne; by apply list_elem_of_fmap_2). split.
  - intros x w [Hr|Hr]%elem_of_app Hw.
    + rewrite (ld32_frame m1 m'); [by apply P1|]. intros a Hh. apply Q2. intros y Hy. by apply (Hne' x).
    + apply Q1; [done|]. rewrite (ld32_frame m m1); [done|]. intros a Hh. apply P2. intros y Hy Hh'. by apply (Hne' y x a).
  - intros a Hh. rewrite Q2 by (intros; apply Hh, elem_of_app; by right). apply P2. intros x Hx. apply Hh, elem_of_app. by left.
Qed.

Definition resolved (r : reloc) : Prop := is_Some (symbol r).
Definition all_ok (t m : memory) (l : list reloc) : Prop := Forall (place_ok t m) l.

(** How a run of the loop over [l] ends. *)
Definition outcome (t m : memory) (l : list (reloc * Z)) (res : Z) (m' : memory) : Prop :=
  t ⊆ m' /\ ((Forall resolved (map fst l) /\ res = 0 /\ patched m l m') \/ (~ Forall resolved (map fst l) /\ res = -1)).

Lemma all_ok_app t m m1 l1 l2 : apart (map fst l1 ++ l2) -> patched m l1 m1 -> all_ok t m l2 -> all_ok t m1 l2.
Proof.
  intros Ha [_ P2] H. destruct (apart_app _ l2 Ha) as (_ & _ & Hne). apply Forall_forall. intros r' Hr'. unfold all_ok in H. rewrite Forall_forall in H.
  destruct (H r' Hr') as [[w Hw] H2]. split; [|done]. exists w. rewrite (ld32_frame m m1); [done|]. intros a Hh. apply P2.
  intros x Hx Hh'. apply (Hne x.1 r' a); [by apply list_elem_of_fmap_2|done|done|done].
Qed.

Lemma patch_loop_ok t rel l : forall k m sym, t ⊆ m -> lib_syms t own.1 own.2 -> libs_at t chain ->
  (forall i r, l !! i = Some r -> rel_at t rel (k + i) r) -> all_ok t m l -> apart l ->
  exists res m', patch_loop m own.1 (map fst chain) rel sym (Z.of_nat k) (length l) = Ok (res, m') /\ outcome t m (with_syms sym l) res m'.
Proof.
  induction l as [|r l IH]; intros k m sym Hs Ho Hc Hr Hok Ha.
  { exists 0, m. split; [done|]. split; [done|]. left. split; [constructor|]. split; [done|]. split; [intros r w ?%elem_of_nil; done|done]. }
  pose proof Hok as [Hok2 Hok3]%Forall_cons. pose proof (patch_step t m rel k r sym (length l) Hs Ho Hc) as Hstep.
  specialize (Hstep ltac:(rewrite <- (Nat.add_0_r k); by apply Hr) Hok2). cbn [length with_syms]. destruct (symbol r) as [v|] eqn:Ev.
  - destruct Hstep as (m1 & E & Hs1 & P). rewrite E.
    destruct (IH (S k) m1 (sym_after sym r) Hs1 Ho Hc) as (res & m' & E' & Hs' & Hout).
    + intros i r' Hi. replace (S k + i)%nat with (k + S i)%nat by lia. by apply Hr.
    + by eapply (all_ok_app t m m1 [(r, _)]).
    + by apply (apart_app [r]) in Ha as (_ & ? & _).
    + exists res, m'. split; [done|]. split; [done|]. destruct Hout as [(R1 & R2 & R3)|(R1 & R2)].
      * left. split; [constructor; [by exists v|done]|]. split; [done|]. eapply (patched_app m m1 m' [(r, _)]); [cbn [app map fst]; by rewrite with_syms_fst|done|done].
      * right. split; [|done]. by intros [_ ?]%Forall_cons.
  - exists (-1), m. split; [done|]. split; [done|]. right. split; [|done]. cbn [map fst]. intros [[? E] _]%Forall_cons. congruence.
Qed.

End relocation.

(** ** Sections *)

Record sec := MkSec { s_name : list Z; s_off : Z; s_size : Z }.

Fixpoint find_sec (l : list sec) (n : list Z) : option sec :=
  match l with
  | [] => None
  | x :: l => if decide (s_name x = n) then Some x else find_sec l n
  end.

(** The header at [s] is that of section [x]. *)
Definition sec_hdr (m : memory) (names s : Z) (x : sec) : Prop :=
  s <> 0 /\ sh_offset m s = Ok (s_off x) /\ sh_size m s = Ok (s_size x) /\ exists off, sh_name m s = Ok off /\ mstr m (names + off) (s_name x).

(** The image at [h] has the sections [l]. *)
Definition elf_at (m : memory) (h : Z) (l : list sec) : Prop := exists shoff ndx entsize o,
  (e_shoff m h = Ok shoff /\ e_shstrndx m h = Ok ndx /\ e_shentsize m h = Ok entsize /\ e_shnum m h = Ok (Z.of_nat (length l)) /\
   sh_offset m (u32 (h + shoff + ndx * entsize)) = Ok o) /\
  forall i x, l !! i = Some x -> sec_hdr m (u32 (h + o)) (u32 (h + shoff + Z.of_nat i * entsize)) x.

Lemma elf_at_mono t m h l : t ⊆ m -> elf_at t h l -> elf_at m h l.
Proof.
  intros Hs (shoff & ndx & entsize & o & (H1 & H2 & H3 & H4 & H5) & H). exists shoff, ndx, entsize, o.
  split; [split; [by eapply ld32_mono|]; split; [by eapply ld16_mono|]; split; [by eapply ld16_mono|]; split; [by eapply ld16_mono|by eapply ld32_mono]|].
  intros i x Hi. destruct (H i x Hi) as (G1 & G2 & G3 & off & G4 & G5). split; [done|]. split; [by eapply ld32_mono|]. split; [by eapply ld32_mono|].
  exists off. split; [by eapply ld32_mono|by eapply mstr_mono].
Qed.

Definition found (m : memory) (s : Z) (x : option sec) : Prop :=
  match x with None => s = 0 | Some x => s <> 0 /\ sh_offset m s = Ok (s_off x) /\ sh_size m s = Ok (s_size x) end.

Lemma section_loop_ok m names entsize a name n l : named name n -> forall k,
  (forall i x, l !! i = Some x -> sec_hdr m names (u32 (a + Z.of_nat (k + i) * entsize)) x) ->
  exists s, section_loop m names entsize name (u32 (a + Z.of_nat k * entsize)) (length l) = Ok s /\ found m s (find_sec l n).
Proof.
  intros Hn. induction l as [|x l IH]; intros k H; [by exists 0|]. cbn [section_loop length find_sec].
  destruct (H 0%nat x eq_refl) as (G1 & G2 & G3 & off & G4 & G5). rewrite Nat.add_0_r in *. rewrite G4. cbn [cbind].
  destruct (mem_strcmp_ok m (names + off) (s_name x) name n G5 Hn) as (c & E & Hc). rewrite E. cbn [cbind]. destruct (decide (c = 0)) as [H0|H0].
  - rewrite decide_True by by apply Hc. by eexists.
  - rewrite (decide_False (P := s_name x = n)) by (by intros ?%Hc).
    replace (u32 (u32 (a + Z.of_nat k * entsize) + entsize)) with (u32 (a + Z.of_nat (S k) * entsize)).
    + apply IH. intros i y Hi. replace (S k + i)%nat with (k + S i)%nat by lia. by apply H.
    + unfold u32. rewrite Zplus_mod_idemp_l. f_equal. lia.
Qed.

Lemma find_section_ok m h l n : elf_at m h l -> Forall (fun c => 0 < c < 256) n ->
  exists s, elf_find_section_hdr m h n = Ok s /\ found m s (find_sec l n).
Proof.
  intros (shoff & ndx & entsize & o & (H1 & H2 & H3 & H4 & H5) & H) Hn. unfold elf_find_section_hdr. rewrite H1. cbn [cbind]. rewrite H2. cbn [cbind]. rewrite H3. cbn [cbind]. rewrite H5. cbn [cbind]. rewrite H4. cbn [cbind]. rewrite Nat2Z.id.
  pose proof (section_loop_ok m (u32 (h + o)) entsize (h + shoff) (literal n) n l (named_literal n Hn) 0 H) as Hf. by rewrite Z.add_0_r in Hf.
Qed.

Lemma section_data_ok m h l n : elf_at m h l -> Forall (fun c => 0 < c < 256) n ->
  elf_find_section_data m h n = Ok (match find_sec l n with None => 0 | Some x => u32 (h + s_off x) end).
Proof.
  intros H Hn. unfold elf_find_section_data. destruct (find_section_ok m h l n H Hn) as (s & E & F). rewrite E. cbn [cbind].
  destruct (find_sec l n) as [x|]; cbn [found] in F; [|by rewrite decide_True]. destruct F as (F1 & F2 & _). rewrite decide_False by done. by rewrite F2.
Qed.

Lemma section_size_ok m h l n : elf_at m h l -> Forall (fun c => 0 < c < 256) n ->
  elf_section_size m h n = Ok (match find_sec l n with None => 0 | Some x => s32 (s_size x) end).
Proof.
  intros H Hn. unfold elf_section_size. destruct (find_section_ok m h l n H Hn) as (s & E & F). rewrite E. cbn [cbind].
  destruct (find_sec l n) as [x|]; cbn [found] in F; [|by rewrite decide_True]. destruct F as (F1 & _ & F2). rewrite decide_False by done. by rewrite F2.
Qed.

(** ** The whole image *)

Section image.
Variable own : loaded_lib.
Variable chain : list loaded_lib.

(** The relocations of the section called [n] are [l]. *)
Definition rel_section (m : memory) (secs : list sec) (n : list Z) (l : list reloc) : Prop :=
  match find_sec secs n with
  | None => l = []
  | Some x => rels_at own m (u32 (base own + s_off x)) l /\ s_size x / 8 = Z.of_nat (length l) /\ 0 <= s_size x < 2 ^ 32
  end.

Lemma patch_section_ok t m secs n l : Forall (fun c => 0 < c < 256) n -> t ⊆ m -> lib_syms t own.1 own.2 -> libs_at t chain -> elf_at t (base own) secs ->
  rel_section t secs n l -> all_ok own t m l -> apart own l ->
  exists rel size res m', elf_find_section_data m (base own) n = Ok rel /\ elf_section_size m (base own) n = Ok size /\
    __dl_patch_section m own.1 (map fst chain) rel (u32 size / 8) = Ok (res, m') /\ outcome own chain t m (with_syms own chain 0 l) res m'.
Proof.
  intros Hn Hs Ho Hc He Hr Hok Ha. pose proof (elf_at_mono t m _ _ Hs He) as He'. rewrite (section_data_ok m _ secs n He' Hn), (section_size_ok m _ secs n He' Hn).
  unfold rel_section in Hr. unfold __dl_patch_section. destruct (find_sec secs n) as [x|].
  - destruct Hr as (R1 & R2 & R3). destruct (patch_loop_ok own chain t (u32 (base own + s_off x)) l 0 m 0 Hs Ho Hc) as (res & m' & E & Hout); [apply R1|done|done|].
    do 2 eexists. exists res, m'. split; [done|]. split; [done|]. rewrite u32_s32, (u32_small (s_size x)) by lia. rewrite R2, Nat2Z.id. by split.
  - subst l. do 2 eexists. exists 0, m. split; [done|]. split; [done|]. split; [done|]. split; [done|]. left. split; [constructor|]. split; [done|].
    split; [intros r w ?%elem_of_nil; done|done].
Qed.

(** What makes the tables of the image and of the libraries readable in [t]. *)
Record tables (t : memory) (secs : list sec) (lt ld : list reloc) : Prop := {
  tb_own : lib_syms t own.1 own.2;
  tb_chain : libs_at t chain;
  tb_elf : elf_at t (base own) secs;
  tb_text : rel_section t secs (cstr ".rel.text") lt;
  tb_data : rel_section t secs (cstr ".rel.data") ld }.

(** C25. Relocation: __dl_patchup of an image whose relocations change different words, all
  mapped and outside the tables, reports success if every symbol they name is defined, in the
  image itself or in a library of the list, and failure otherwise.  On success each of the
  words holds the value that the ELF specification prescribes for its relocation (S + A,
  S + A - P or B + A; other types change nothing), where S is the symbol that the relocation
  names, that of the image first and then those of the list in its order; for a relocation
  that names none S is not 0 but what the relocation before it in the section used.  No
  other byte of memory has changed. *)
Theorem patchup_relocates t m secs lt ld (Ht : tables t secs lt ld) (Hm : t ⊆ m)
  (Hok : all_ok own t m (lt ++ ld)) (Hap : apart own (lt ++ ld)) :
  exists res m', __dl_patchup m own.1 (map fst chain) = Ok (res, m') /\ outcome own chain t m (with_syms own chain 0 lt ++ with_syms own chain 0 ld) res m'.
Proof.
  destruct Ht as [T1 T2 T3 T4 T5]. apply Forall_app in Hok as [Hok1 Hok2]. destruct (apart_app own lt ld Hap) as (Ha1 & Ha2 & _). unfold __dl_patchup. fold (base own).
  assert (map fst (with_syms own chain 0 lt ++ with_syms own chain 0 ld) = lt ++ ld) as Efst by (by rewrite map_app, !with_syms_fst).
  destruct (patch_section_ok t m secs (cstr ".rel.text") lt) as (rel & size & res & m1 & E1 & E2 & E3 & Hs1 & Hout); try done.
  { by apply (bool_decide_unpack _); vm_compute. }
  rewrite E1. cbn [cbind]. rewrite E2. cbn [cbind]. rewrite E3. cbn [cbind]. unfold outcome. rewrite with_syms_fst in Hout. rewrite Efst. destruct Hout as [(R1 & -> & R3)|(R1 & ->)].
  - rewrite decide_False by (by intros []). destruct (patch_section_ok t m1 secs (cstr ".rel.data") ld) as (rel' & size' & res' & m2 & F1 & F2 & F3 & Hs2 & Hout); try done.
    { by apply (bool_decide_unpack _); vm_compute. }
    { eapply all_ok_app; [by rewrite with_syms_fst|done|done]. }
    rewrite F1. cbn [cbind]. rewrite F2. cbn [cbind]. rewrite F3. cbn [cbind]. eexists _, m2. split; [done|]. split; [done|]. rewrite with_syms_fst in Hout. destruct Hout as [(S1 & -> & S3)|(S1 & ->)].
    + left. split; [by apply Forall_app|]. split; [done|]. eapply patched_app; [by rewrite Efst|done|done].
    + right. split; [by intros [_ ?]%Forall_app|done].
  - rewrite decide_True by done. exists (-1), m1. split; [done|]. split; [done|]. right. split; [by intros [? _]%Forall_app|done].
Qed.

End image.

(** ** Looking up a symbol of a library *)

(** What _dlsym returns: the address of the first symbol of the dynamic table with the name,
  or else of the symbol table. *)
Lemma dlsym_ok m lib dyn syms name n tab strs size : lib_syms m lib syms -> named name n ->
  dynsym_data lib = Some tab -> dynstr_data lib = Some strs -> dynsym_size lib = Some size -> count_syms size = length dyn -> syms_at m tab strs dyn ->
  _dlsym m lib name = Ok (match first (dyn ++ syms) n with Some v => u32 (hdr lib + v) | None => 0 end).
Proof.
  intros [H1 H2] Hn Ht Hs Hz Hc Hd. unfold _dlsym. rewrite Hz. cbn [deref cbind]. rewrite Hc, Ht, Hs, H2. cbn [deref cbind].
  pose proof (sym_loop_ok m tab strs name n dyn Hn [] Hd) as E. pose proof (sym_loop_ok m _ _ name n syms Hn [] H1) as E'.
  change (Z.of_nat (length (@nil (list Z * Z)))) with 0 in E, E'. rewrite E'.
  assert (forall l, first (l ++ syms) n = match first l n with Some v => Some v | None => first syms n end) as Hf.
  { induction l as [|[a v] l IH]; [done|]. simpl. by case_decide. }
  rewrite Hf. destruct dyn as [|x dyn]; [done|]. rewrite decide_False by done. rewrite E. cbn [cbind]. by destruct (first (x :: dyn) n).
Qed.

(** ** An example *)

Definition le16 (x : Z) : list Z := [x mod 256; x / 256 mod 256].
Definition le32 (x : Z) : list Z := le16 (x mod 65536) ++ le16 (x / 65536).
Definition pad_to (l : list Z) (n : nat) : list Z := l ++ replicate (n - length l) 0.
Definition ex_shdr (name offset size : Z) : list Z := concat (map le32 [name; 0; 0; 0; offset; size; 0; 0; 0; 0]).
Definition ex_ehdr (shoff shnum : Z) : list Z :=
  replicate 16 0 ++ le16 3 ++ le16 3 ++ concat (map le32 [1; 0; 0; shoff; 0]) ++ concat (map le16 [52; 32; 0; 40; shnum; 0]).
Definition ex_sym (name value : Z) : list Z := concat (map le32 [name; value; 0; 0]).
Definition strs (l : list string) : list Z := 0 :: concat (map (fun s => cstr s ++ [0]) l).
Definition ex_names : list Z := strs [".shstrtab"; ".strtab"; ".symtab"; ".dynstr"; ".dynsym"; ".rel.text"]%string.

(** The program, at 0x1000: it defines g. *)
Definition ex_prog_image : list Z :=
  pad_to (ex_ehdr 132 3 ++ ex_names) 108 ++ pad_to (strs ["g"]%string) 8 ++ ex_sym 1 0x1500 ++
  ex_shdr 1 52 53 ++ ex_shdr 11 108 3 ++ ex_shdr 19 116 16.

(** A library that defines f, with three relocations. *)
Definition ex_lib_image : list Z :=
  pad_to (ex_ehdr 228 6 ++ ex_names) 108 ++ pad_to (strs ["f"]%string) 4 ++ ex_sym 1 200 ++ pad_to (strs ["f"; "g"]%string) 8 ++
  ex_sym 0 0 ++ ex_sym 1 200 ++ ex_sym 3 0 ++
  concat (map le32 [216; 256 + 1; 220; 512 + 2; 224; 8]) ++ replicate 8 144 ++ concat (map le32 [4; 2 ^ 32 - 4; 208]) ++
  ex_shdr 1 52 53 ++ ex_shdr 11 108 3 ++ ex_shdr 19 112 16 ++ ex_shdr 27 128 5 ++ ex_shdr 35 136 48 ++ ex_shdr 43 184 24.

Definition ex_env : env := Env (fun f => if decide (f = cstr "lib.so") then Some ex_lib_image else None)
  (fun _ m => Ok (0, m)) (fun size _ => (5, 0x8000, replicate (Z.to_nat size) 0)) (fun s => 16 * Z.of_nat (size (d_libs s)) + 16).
Definition ex_start : dls := Dls (map_area ∅ 0x1000 ex_prog_image) false ∅ [].

(** Opening the library and looking up its symbol. *)
Example ex_dlopen : match _dlopen ex_env ex_start (cstr "lib.so") 2 with
  | Ok (Some h, s) => match d_libs s !! h with
      | Some lib => _dlsym (d_mem s) lib (literal (cstr "f")) = Ok (0x8000 + 200) /\ d_file s = [16; h] /\
          ld32 (d_mem s) (0x8000 + 220) = Ok (u32 (0x1500 - 4 - (0x8000 + 220)))
      | None => False
      end
  | _ => False
  end.
Proof. by vm_compute. Qed.

(** The memory before the relocation, and the tables in it. *)
Definition ex_mem : memory := map_area (map_area ∅ 0x1000 ex_prog_image) 0x8000 ex_lib_image.
Definition ex_tables : memory := filter (fun x => ~ (0x80D8 <= x.1 < 0x80E4)) ex_mem.
Definition ex_prog : lib_t := Lib 0x1000 0x10AC 0x10D4 None None 0x1074 None 0x106C None None 3 16 None None.
Definition ex_lib : lib_t := Lib 0x8000 0x810C 0x8134 (Some 0x815C) (Some 0x8184) 0x8070 (Some 0x8088) 0x806C (Some 0x8080) (Some 5) 3 16 (Some 0) (Some 0).

Example ex_describe : describe ex_mem ex_prog 0x8000 5 = Ok ex_lib /\
  match __dlinit ex_env ex_start with Ok s => d_libs s !! 16 = Some ex_prog | _ => False end.
Proof. by vm_compute. Qed.

Definition ex_own : loaded_lib := (ex_lib, [(cstr "f", 200)]).
Definition ex_chain : list loaded_lib := [(ex_prog, [(cstr "g", 0x1500)])].
Definition ex_relocs : list reloc := [Reloc 216 R_386_32 (Some (cstr "f")); Reloc 220 R_386_PC32 (Some (cstr "g")); Reloc 224 R_386_RELATIVE None].
Definition ex_secs : list sec :=
  [MkSec (cstr ".shstrtab") 52 53; MkSec (cstr ".strtab") 108 3; MkSec (cstr ".symtab") 112 16; MkSec (cstr ".dynstr") 128 5;
   MkSec (cstr ".dynsym") 136 48; MkSec (cstr ".rel.text") 184 24].

(** A quantifier over the places of a concrete list. *)
Ltac each_place := let i := fresh "i" in let H := fresh "H" in intros i ? H;
  repeat (destruct i as [|i]; [injection H as <-|try discriminate H]); try discriminate H.
Ltac by_reading := by vm_compute; repeat split.

Lemma ex_elf_at : elf_at ex_tables 0x8000 ex_secs.
Proof.
  exists 228, 0, 40, 52. split; [by_reading|]. each_place; (split; [done|]; split; [by_reading|]; split; [by_reading|]; eexists; split; [vm_compute; reflexivity|by_reading]).
Qed.

Lemma ex_rels_at : rels_at ex_own ex_tables 0x80B8 ex_relocs.
Proof.
  each_place; (eexists; split; [by_reading|]; split; [vm_compute; reflexivity|]; split; [done|]; cbn [rl_name]; try done);
    (split; [done|]; do 3 eexists; split; [reflexivity|]; split; [reflexivity|]; split; [vm_compute; reflexivity|by_reading]).
Qed.

Lemma ex_tables_ok : tables ex_own ex_chain ex_tables ex_secs ex_relocs [].
Proof.
  split.
  - split; [|done]. intros i n v H. destruct i as [|i]; [|discriminate H]. injection H as <- <-. eexists. split; [vm_compute; reflexivity|]. split; by_reading.
  - constructor; [|constructor]. split; [|done]. intros i n v H. destruct i as [|i]; [|discriminate H]. injection H as <- <-.
    eexists. split; [vm_compute; reflexivity|]. split; by_reading.
  - exact ex_elf_at.
  - split; [exact ex_rels_at|]. split; [done|]. vm_compute. done.
  - done.
Qed.

Lemma patchup_relocates_witness : exists m', __dl_patchup ex_mem ex_lib [ex_prog] = Ok (0, m') /\
  ld32 m' 0x80D8 = Ok (0x8000 + 204) /\ ld32 m' 0x80DC = Ok (u32 (0x1500 - 4 - 0x80DC)) /\ ld32 m' 0x80E0 = Ok (0x8000 + 208).
Proof.
  destruct (patchup_relocates ex_own ex_chain ex_tables ex_mem ex_secs ex_relocs [] ex_tables_ok) as (res & m' & E & _ & Hout).
  - apply map_filter_subseteq.
  - apply Forall_forall. intros r Hr.
    assert (Forall (fun r => (exists w, ld32 ex_mem (target ex_own r) = Ok w) /\ 0x80D8 <= target ex_own r <= 0x80E0) ex_relocs) as H.
    { repeat (constructor; [split; [eexists; vm_compute; reflexivity|by vm_compute]|]). constructor. }
    rewrite Forall_forall in H. destruct (H r Hr) as [H1 H2]. split; [done|]. intros a Ha. unfold hits in Ha. apply map_lookup_filter_None. right. simpl. intros x _. lia.
  - assert (forall i r, ex_relocs !! i = Some r -> target ex_own r = 0x80D8 + 4 * Z.of_nat i) as H by (each_place; done).
    intros i j r r' a Hi Hj Ha Ha'. rewrite app_nil_r in Hi, Hj. unfold hits in *. rewrite (H i r Hi) in Ha. rewrite (H j r' Hj) in Ha'. lia.
  - exists m'. destruct Hout as [(_ & -> & P & _)|(Hn & _)].
    + split; [exact E|]. split; [|split].
      * apply (P (Reloc 216 R_386_32 (Some (cstr "f")), 0x8000 + 200) 4); [by left|by vm_compute].
      * apply (P (Reloc 220 R_386_PC32 (Some (cstr "g")), 0x1500) (2 ^ 32 - 4)); [right; by left|by vm_compute].
      * apply (P (Reloc 224 R_386_RELATIVE None, 0x1500) 208); [right; right; by left|by vm_compute].
    + exfalso. apply Hn. repeat (constructor; [eexists; vm_compute; reflexivity|]). constructor.
Defined.

End DlProof.
