(* ===== verification/Bytes.v ===== *)
(** Blocks of bytes: copies between blocks, and what a write leaves where. The components
  that work on packets, disk blocks and messages share it. *)
From S2P Require Import Prelude LibC.
Import LibC.
Local Open Scope Z_scope.
Local Open Scope c_scope.

Module Bytes.

(** ** Copies *)

(** Writing bytes one after the other. *)
Fixpoint store (m : list Z) (p : Z) (l : list Z) : cres (list Z) :=
  match l with
  | [] => Ok m
  | c :: l => let! m := wr m p c in store m (p + 1) l
  end.
Fixpoint fetch (m : list Z) (p : Z) (n : nat) : cres (list Z) :=
  match n with
  | O => Ok []
  | S n => let! c := rd m p in let! r := fetch m (p + 1) n in Ok (c :: r)
  end.
(** memcpy from one block to another. *)
Definition memcpy (dm : list Z) (d : Z) (sm : list Z) (s : Z) (n : nat) : cres (list Z) :=
  let! l := fetch sm s n in store dm d l.

Definition byte (c : Z) : Prop := 0 <= c < 256.

(** [m'] is [m] with [l] written at [p]. *)
Record put (m : list Z) (p : Z) (l : list Z) (m' : list Z) : Prop := {
  pt_len : length m' = length m;
  pt_in : forall i c, l !! i = Some c -> aget m' (p + Z.of_nat i) = Some (u8 c);
  pt_out : forall q, q < p \/ p + Z.of_nat (length l) <= q -> aget m' q = aget m q }.

Lemma store_put l : forall m p, fits m p (length l) -> exists m', store m p l = Ok m' /\ put m p l m'.
Proof.
  induction l as [|c l IH]; intros m p [H0 H1]; cbn [store length] in *.
  - exists m. split; [done|]. by split.
  - unfold wr. rewrite aset_in_range by lia. cbn [deref cbind]. destruct (IH (<[Z.to_nat p := u8 c]> m) (p + 1)) as (m' & E & [P1 P2 P3]).
    { split; [lia|]. rewrite length_insert. lia. }
    exists m'. split; [done|]. rewrite length_insert in P1. split; [done| |].
    + intros [|i] x Hi; simpl in Hi.
      * injection Hi as <-. rewrite Z.add_0_r, P3 by lia. apply aget_insert_eq. lia.
      * replace (p + Z.of_nat (S i)) with (p + 1 + Z.of_nat i) by lia. by apply P2.
    + intros q Hq. cbn [length] in Hq. rewrite P3 by lia. apply aget_insert_ne; lia.
Qed.

Lemma fetch_ok n : forall m p, fits m p n -> fetch m p n = Ok (slice m p n).
Proof.
  induction n as [|n IH]; intros m p Hf; cbn [fetch]; [done|]. destruct (fits_aget m p (S n) 0 Hf) as [c Hc]; [lia|]. rewrite Z.add_0_r in Hc.
  rewrite (rd_Some _ _ _ Hc). cbn [cbind]. rewrite IH by (unfold fits in *; lia). cbn [cbind]. by rewrite (slice_cons m p n c Hf Hc).
Qed.

Lemma memcpy_put dm d sm s n : fits dm d n -> fits sm s n -> exists m', memcpy dm d sm s n = Ok m' /\ put dm d (slice sm s n) m'.
Proof.
  intros Hd Hs. unfold memcpy. rewrite fetch_ok by done. cbn [cbind]. apply store_put. by rewrite length_slice.
Qed.

Lemma put_bytes m p l m' : bytes m -> put m p l m' -> bytes m'.
Proof.
  intros Hm [P1 P2 P3]. apply Forall_lookup. intros i x Hi. assert (aget m' (Z.of_nat i) = Some x) as E.
  { unfold aget. rewrite decide_True by lia. by rewrite Nat2Z.id. }
  destruct (decide (p <= Z.of_nat i < p + Z.of_nat (length l))) as [H|H].
  - destruct (lookup_lt_is_Some_2 l (Z.to_nat (Z.of_nat i - p))) as [c Hc]; [lia|]. specialize (P2 _ _ Hc).
    replace (p + Z.of_nat (Z.to_nat (Z.of_nat i - p))) with (Z.of_nat i) in P2 by lia. rewrite E in P2. injection P2 as ->. apply u8_range.
  - rewrite P3 in E by lia. unfold bytes in Hm. rewrite Forall_lookup in Hm. apply aget_Some in E as [_ E]. by eapply Hm.
Qed.

(** What is behind the bytes that were written, and the bytes themselves. *)
Lemma put_slice m p l m' : fits m p (length l) -> bytes l -> put m p l m' -> slice m' p (length l) = l.
Proof.
  intros Hf Hl [P1 P2 P3]. apply list_eq. intros i. destruct (decide (i < length l)%nat) as [Hi|Hi].
  - rewrite <- (aget_slice m' p (length l) i) by (done || (unfold fits in *; lia)). destruct (lookup_lt_is_Some_2 l i Hi) as [c Hc]. rewrite Hc, (P2 i c Hc).
    f_equal. unfold bytes in Hl. rewrite Forall_lookup in Hl. apply u8_small. by eapply Hl.
  - rewrite !lookup_ge_None_2; [done|lia|]. rewrite length_slice by (unfold fits in *; lia). lia.
Qed.

Lemma slice_put_out m p l m' q n : put m p l m' -> fits m q n -> q + Z.of_nat n <= p \/ p + Z.of_nat (length l) <= q -> slice m' q n = slice m q n.
Proof.
  intros [P1 P2 P3] Hf Hd. apply list_eq. intros i. destruct (decide (i < n)%nat) as [Hi|Hi].
  - rewrite <- !aget_slice by (done || (unfold fits in *; lia)). apply P3. lia.
  - rewrite !lookup_ge_None_2; [done|rewrite length_slice by done; lia|rewrite length_slice by (unfold fits in *; lia); lia].
Qed.

Record buffer (n : nat) (m : list Z) : Prop := { bf_len : length m = n; bf_bytes : bytes m }.

Lemma put_buffer n m p l m' : buffer n m -> put m p l m' -> buffer n m'.
Proof. intros [<- Hb] P. split; [by destruct P|]. by eapply put_bytes. Qed.

Lemma slice_bytes m p n : bytes m -> bytes (slice m p n).
Proof. intros H. unfold slice. by apply Forall_take, Forall_drop. Qed.

Lemma slice_split m p a b : fits m p (a + b) -> slice m p (a + b) = slice m p a ++ slice m (p + Z.of_nat a) b.
Proof.
  intros [H1 H2]. unfold slice. rewrite <- (take_drop a (drop (Z.to_nat p) m)) at 1. rewrite take_app_add' by (rewrite length_take, length_drop; lia). rewrite drop_drop. do 3 f_equal. lia.
Qed.

(** One more write in a sequence of writes to a buffer, with what it leaves. *)
Lemma step_store {A} k m p l (f : list Z -> cres A) (Q : cres A -> Prop) : buffer k m -> 0 <= p /\ p + Z.of_nat (length l) <= Z.of_nat k ->
  (forall m', buffer k m' -> put m p l m' -> Q (f m')) -> Q (let! m' := store m p l in f m').
Proof.
  intros [Hl Hb] Hp H. destruct (store_put l m p) as (m' & -> & P); [unfold fits; lia|]. cbn [cbind]. apply H; [|done]. by eapply put_buffer.
Qed.

Lemma step_memcpy {A} k m p j sm q n (f : list Z -> cres A) (Q : cres A -> Prop) : buffer k m -> buffer j sm ->
  0 <= p /\ p + Z.of_nat n <= Z.of_nat k -> 0 <= q /\ q + Z.of_nat n <= Z.of_nat j ->
  (forall m', buffer k m' -> length (slice sm q n) = n -> put m p (slice sm q n) m' -> Q (f m')) -> Q (let! m' := memcpy m p sm q n in f m').
Proof.
  intros [Hl Hb] [Hl' Hb'] Hp Hq H. unfold memcpy. rewrite fetch_ok by (unfold fits; lia). cbn [cbind].
  apply (step_store k); [by split|rewrite length_slice by (unfold fits; lia); lia|]. intros m' B P. apply H; [done|rewrite length_slice by (unfold fits; lia); lia|done].
Qed.

(** The bytes of a field after the write that sets it, and after the others. *)
Lemma put_field m p l m' n : bytes l -> put m p l m' -> length l = n -> fits m p n -> slice m' p n = l.
Proof. intros Hb P <- Hf. by eapply put_slice. Qed.

Lemma slice_in m p k i n : fits m p k -> (i + n <= k)%nat -> slice m (p + Z.of_nat i) n = take n (drop i (slice m p k)).
Proof.
  intros [H1 H2] Hi. unfold slice. rewrite skipn_firstn_comm, drop_drop, take_take. replace (Z.to_nat (p + Z.of_nat i)) with (Z.to_nat p + i)%nat by lia. f_equal. lia.
Qed.

Lemma slice2 m p : bytes m -> fits m p 2 -> exists a b, slice m p 2 = [a; b] /\ rd m p = Ok a /\ rd m (p + 1) = Ok b /\ byte a /\ byte b.
Proof.
  intros Hb Hf. destruct (fits_aget m p 2 0 Hf) as [a Ha]; [lia|]. destruct (fits_aget m p 2 1 Hf) as [b Hb']; [lia|]. rewrite Z.add_0_r in Ha. change (Z.of_nat 1) with 1 in Hb'.
  assert (fits m (p + 1) 1) as Hf1 by (unfold fits in *; lia). assert (slice m p 2 = [a; b]) as E by (by rewrite (slice_cons m p 1 a), (slice_cons m (p + 1) 0 b)).
  exists a, b. split; [done|]. rewrite (rd_Some _ _ _ Ha), (rd_Some _ _ _ Hb'). pose proof (slice_bytes m p 2 Hb) as B. rewrite E in B. apply Forall_cons in B as [? B]. apply Forall_cons in B as [? _]. done.
Qed.

Lemma slice_app_l l r p n : fits l p n -> slice (l ++ r) p n = slice l p n.
Proof. intros [? ?]. unfold slice. rewrite drop_app_le, take_app_le by (rewrite ?length_drop; lia). done. Qed.

Lemma slice_take m k p n : 0 <= p -> p + Z.of_nat n <= Z.of_nat k -> slice (take k m) p n = slice m p n.
Proof. intros ? ?. unfold slice. rewrite skipn_firstn_comm, take_take. f_equal. lia. Qed.

Lemma slice1 m p : fits m p 1 -> exists a, slice m p 1 = [a] /\ rd m p = Ok a.
Proof.
  intros Hf. destruct (fits_aget m p 1 0 Hf) as [a Ha]; [lia|]. rewrite Z.add_0_r in Ha. exists a. split; [by rewrite (slice_cons m p 0 a)|by apply rd_Some].
Qed.

Lemma slice_buffer k m p n : buffer k m -> 0 <= p -> p + Z.of_nat n <= Z.of_nat k -> buffer n (slice m p n).
Proof. intros [L B] ? ?. split; [apply length_slice; unfold fits; lia|by apply slice_bytes]. Qed.

Lemma wr_ok n m p v : buffer n m -> 0 <= p < Z.of_nat n -> exists m', wr m p v = Ok m' /\ buffer n m' /\ aget m' p = Some (u8 v) /\ forall q, q <> p -> aget m' q = aget m q.
Proof.
  intros [L B] Hp. unfold wr. rewrite aset_in_range by lia. eexists. split; [reflexivity|]. split.
  - split; [by rewrite length_insert|]. apply (Forall_insert _ m); [exact B|apply u8_range].
  - split; [apply aget_insert_eq; lia|]. intros q Hq. apply aget_insert_ne; lia.
Qed.

(** ** A place in the middle *)

Lemma rd_app pre x post : rd (pre ++ x :: post) (Z.of_nat (length pre)) = Ok x.
Proof. apply rd_Some. unfold aget. rewrite decide_True, Nat2Z.id by lia. by apply list_lookup_middle. Qed.

Lemma wr_app pre x post v : 0 <= v < 256 -> wr (pre ++ x :: post) (Z.of_nat (length pre)) v = Ok (pre ++ v :: post).
Proof.
  intros Hv. unfold wr. rewrite u8_small by done. rewrite aset_in_range by (rewrite length_app; cbn [length]; lia). cbn [deref]. rewrite Nat2Z.id. f_equal.
  replace (length pre) with (length pre + 0)%nat by lia. by rewrite insert_app_r.
Qed.

(** ** Copies as splices *)

Lemma store_splice l : forall m p, bytes l -> fits m p (length l) -> store m p l = Ok (splice m p l).
Proof.
  intros m p Hl Hf. destruct (store_put l m p Hf) as (m' & -> & P). f_equal. apply mem_ext; [by rewrite (pt_len _ _ _ _ P), length_splice|]. intros q Hq.
  destruct (decide (p <= q < p + Z.of_nat (length l))) as [Hin|Hout].
  - destruct (lookup_lt_is_Some_2 l (Z.to_nat (q - p))) as [c Hc]; [lia|]. replace q with (p + Z.of_nat (Z.to_nat (q - p))) by lia.
    rewrite (pt_in _ _ _ _ P _ _ Hc), (aget_splice_in m p l _ c Hf Hc). f_equal. apply u8_small. unfold bytes in Hl. rewrite Forall_lookup in Hl. by eapply Hl.
  - rewrite (pt_out _ _ _ _ P) by lia. rewrite aget_splice_out by (done || lia). done.
Qed.

Lemma memcpy_splice dm d sm s n : bytes sm -> fits dm d n -> fits sm s n -> memcpy dm d sm s n = Ok (splice dm d (slice sm s n)).
Proof.
  intros B Hd Hs. unfold memcpy. rewrite fetch_ok by done. cbn [cbind]. apply store_splice; [by apply slice_bytes|by rewrite length_slice].
Qed.

(** A copy of more than the block has. *)
Lemma fetch_fault n : forall m p, 0 <= p <= Z.of_nat (length m) -> Z.of_nat (length m) < p + Z.of_nat n -> fetch m p n = Fault.
Proof.
  induction n as [|n IH]; intros m p Hp Hl; cbn [fetch]; [lia|]. destruct (decide (p = Z.of_nat (length m))) as [->|Hne].
  - unfold rd, aget. rewrite decide_True, Nat2Z.id, lookup_ge_None_2 by lia. done.
  - destruct (fits_aget m p 1 0) as [c Hc]; [unfold fits; lia|lia|]. rewrite Z.add_0_r in Hc. rewrite (rd_Some _ _ _ Hc). cbn [cbind]. rewrite IH by lia. done.
Qed.

(** Two splices, one behind the other. *)
Lemma splice_app m p l1 l2 : fits m p (length l1 + length l2) -> splice (splice m p l1) (p + Z.of_nat (length l1)) l2 = splice m p (l1 ++ l2).
Proof.
  intros [H1 H2]. unfold splice. replace (Z.to_nat (p + Z.of_nat (length l1))) with (Z.to_nat p + length l1)%nat by lia.
  rewrite take_app_ge by (rewrite length_take; lia). rewrite length_take, Nat.min_l by lia. replace (Z.to_nat p + length l1 - Z.to_nat p)%nat with (length l1) by lia.
  rewrite take_app_length. rewrite drop_app_ge by (rewrite length_take; lia). rewrite length_take, Nat.min_l by lia.
  rewrite drop_app_ge by lia. rewrite drop_drop, length_app, <- !app_assoc. do 3 f_equal. f_equal. lia.
Qed.

End Bytes.
