(* ===== verification/NetBoot.v ===== *)
(** netboot/netboot.c, the boot loader that waits for an image from the network, and
  util/netboot.c, the program that sends it.

  Packets are blocks of bytes at the offsets of the packed structures of netboot/net.h and
  netboot/netboot.h, with numbers in network order; the memory above NETBOOT_BASE is a
  finite map. The driver hands over frames of 60 to 1518 bytes in the static buffer
  [blah], which it also uses to pad what it sends. *)
From S2P Require Import Prelude LibC Bytes.
Import LibC Bytes.
Local Open Scope Z_scope.
Local Open Scope c_scope.

Module NetBoot.

(** ** Numbers and copies *)

Definition be16 (m : list Z) (p : Z) : cres Z := let! a := rd m p in let! b := rd m (p + 1) in Ok (256 * a + b).
(** The bytes of a short in network order. *)
Definition net16 (x : Z) : list Z := [u8 (Z.shiftr x 8); u8 x].

(** memcmp of this file: 0 when the bytes are equal. *)
Fixpoint memcmp (m1 : list Z) (p1 : Z) (m2 : list Z) (p2 : Z) (n : nat) : cres Z :=
  match n with
  | O => Ok 0
  | S n =>
      let! a := rd m1 p1 in let! b := rd m2 p2 in
      if decide (a <> b) then Ok 1 else memcmp m1 (p1 + 1) m2 (p2 + 1) n
  end.

(** The sum over [n] shorts of the machine, which is little endian. *)
Fixpoint chksum_loop (m : list Z) (p sum : Z) (n : nat) : cres Z :=
  match n with
  | O => Ok sum
  | S n =>
      let! a := rd m p in let! b := rd m (p + 1) in
      let sum := sum + (a + 256 * b) in
      chksum_loop m (p + 2) (if decide (0xFFFF < sum) then sum - 0xFFFF else sum) n
  end.
Definition ipchksum (m : list Z) (p len : Z) : cres Z :=
  let! sum := chksum_loop m p 0 (Z.to_nat (Z.shiftr len 1)) in Ok (Z.land (Z.lnot sum) 0xFFFF).

(** ** The globals *)

Record nbt := Nbt {
  blah : list Z; param : list Z; got_server : bool; next_id : Z; reset : bool; got_ip : bool; ipmsg : string;
  prom : list Z; ip0 : list Z; server_ip : list Z; server_mac : list Z; nbr : list Z; linebuf : list Z; lp : Z; ram : gmap Z Z }.

Definition set_blah (s : nbt) (v : list Z) : nbt :=
  Nbt v (param s) (got_server s) (next_id s) (reset s) (got_ip s) (ipmsg s) (prom s) (ip0 s) (server_ip s) (server_mac s) (nbr s) (linebuf s) (lp s) (ram s).
Definition set_param (s : nbt) (v : list Z) : nbt :=
  Nbt (blah s) v (got_server s) (next_id s) (reset s) (got_ip s) (ipmsg s) (prom s) (ip0 s) (server_ip s) (server_mac s) (nbr s) (linebuf s) (lp s) (ram s).
Definition set_server (s : nbt) (i m : list Z) : nbt :=
  Nbt (blah s) (param s) true (next_id s) (reset s) (got_ip s) (ipmsg s) (prom s) (ip0 s) i m (nbr s) (linebuf s) (lp s) (ram s).
Definition set_nbr (s : nbt) (v : list Z) (id : Z) : nbt :=
  Nbt (blah s) (param s) (got_server s) id (reset s) (got_ip s) (ipmsg s) (prom s) (ip0 s) (server_ip s) (server_mac s) v (linebuf s) (lp s) (ram s).
Definition set_line (s : nbt) (v : list Z) (l : Z) : nbt :=
  Nbt (blah s) (param s) (got_server s) (next_id s) (reset s) (got_ip s) (ipmsg s) (prom s) (ip0 s) (server_ip s) (server_mac s) (nbr s) v l (ram s).
Definition set_ip (s : nbt) (v : list Z) (msg : string) : nbt :=
  Nbt (blah s) (param s) (got_server s) (next_id s) (reset s) (got_ip s) msg (prom s) v (server_ip s) (server_mac s) (nbr s) (linebuf s) (lp s) (ram s).
Definition set_flags (s : nbt) (r g : bool) : nbt :=
  Nbt (blah s) (param s) (got_server s) (next_id s) r g (ipmsg s) (prom s) (ip0 s) (server_ip s) (server_mac s) (nbr s) (linebuf s) (lp s) (ram s).
Definition set_ram (s : nbt) (v : gmap Z Z) : nbt :=
  Nbt (blah s) (param s) (got_server s) (next_id s) (reset s) (got_ip s) (ipmsg s) (prom s) (ip0 s) (server_ip s) (server_mac s) (nbr s) (linebuf s) (lp s) v.

(** What leaves the loader: a frame, or control, with the start address and the parameters. *)
Inductive event := Sent (frame : list Z) | Started (start : Z) (arg : list Z).

Definition NETBOOT_CMD_LOAD : Z := 1.
Definition NETBOOT_CMD_EXEC : Z := 2.
Definition NETBOOT_CMD_ACK : Z := 3.
Definition NETBOOT_PORT : Z := 4242.
Definition NETBOOT_BASE : Z := 0x00100000.

(** ** Sending and receiving *)

(** nic_send_packet pads a short frame in the buffer that alloc_buffer gives out. *)
Definition nic_send_packet (s : nbt) (f : list Z) : cres (nbt * list event) :=
  if decide (Z.of_nat (length f) < 60) then
    let f := f ++ replicate (60 - length f) 0 in
    let! b := store (blah s) 0 f in
    Ok (set_blah s b, [Sent f])
  else Ok (s, [Sent f]).

Definition put_ram (m : gmap Z Z) (a : Z) (l : list Z) : gmap Z Z := list_to_map (zip (seqZ a (Z.of_nat (length l))) l) ∪ m.
Definition ram32 (m : gmap Z Z) (a : Z) : cres Z :=
  let? b0 := m !! a in let? b1 := m !! (a + 1) in let? b2 := m !! (a + 2) in let? b3 := m !! (a + 3) in
  Ok (b0 + 256 * b1 + 65536 * b2 + 16777216 * b3).

(** The source address of a reply is copied from the variable [ip] itself, a pointer: these
  are its bytes. *)
Section loader.
Variable ip_var : list Z.

(** The reply in [nbr]. The identification counts up twice, since the macro ntohs has its
  argument twice. *)
Definition make_ack (s : nbt) : cres nbt :=
  let! n := memcpy (nbr s) 6 (prom s) 0 6 in
  let! n := memcpy n 0 (server_mac s) 0 6 in
  let! n := store n 12 (net16 0x0800) in
  let! n := memcpy n 26 ip_var 0 4 in
  let! n := memcpy n 30 (server_ip s) 0 4 in
  let! n := store n 14 [0x45; 0] in
  let! n := store n 16 (net16 (20 + 8 + 8)) in
  let! n := store n 18 [u8 (Z.shiftr (next_id s) 8); u8 (next_id s + 1)] in
  let! n := store n 20 [0; 0; 128; 17; 0; 0] in
  let! c := ipchksum n 14 20 in
  let! n := store n 24 [u8 c; u8 (Z.shiftr c 8)] in
  let! n := memcpy n 36 (blah s) 34 2 in
  let! n := memcpy n 34 (blah s) 36 2 in
  let! n := store n 40 [0; 0] in
  let! n := store n 38 (net16 (8 + 4)) in
  let! n := store n 42 (net16 NETBOOT_CMD_ACK) in
  let! n := memcpy n 44 (blah s) 44 2 in
  Ok (set_nbr s n (next_id s + 2)).

Definition handle_udp (s : nbt) : cres (nbt * list event) :=
  let b := blah s in
  let! dst := be16 b 36 in
  if decide (dst <> NETBOOT_PORT) then Ok (s, []) else
  let! cmd := be16 b 42 in
  let! blk := be16 b 44 in
  let addr := blk * 1024 + NETBOOT_BASE in
  if decide (cmd <> NETBOOT_CMD_LOAD /\ cmd <> NETBOOT_CMD_EXEC) then Ok (s, []) else
  let! s := (if got_server s then Ok s else
    let! mac := memcpy (server_mac s) 0 b 6 6 in
    let! i := memcpy (server_ip s) 0 b 26 4 in
    Ok (set_server s i mac)) in
  let! s := (if decide (cmd = NETBOOT_CMD_LOAD) then
    let! l := fetch b 46 1024 in Ok (set_ram s (put_ram (ram s) addr l)) else Ok s) in
  let! s := make_ack s in
  if decide (cmd = NETBOOT_CMD_EXEC) then
    let! ventr := ram32 (ram s) (NETBOOT_BASE + 64 + 52) in
    let! p0 := rd (param s) 0 in
    Ok (s, [Started (u32 (ventr + 0x1000 + NETBOOT_BASE)) (if decide (p0 <> 0) then param s else ip0 s)])
  else nic_send_packet s (take 46 (nbr s)).

Definition handle_ip (s : nbt) : cres (nbt * list event) :=
  let! c := memcmp (blah s) 30 (ip0 s) 3 4 in
  if decide (c = 0) then
    let! k := ipchksum (blah s) 14 20 in
    if decide (k <> 0) then Ok (s, []) else
    let! proto := rd (blah s) 23 in
    if decide (proto = 17) then handle_udp s else Ok (s, [])
  else Ok (s, []).

(** ** Address resolution *)

Definition bcast : list Z := replicate 6 0xff.
Definition RARP_OP_REPLY : Z := 4.

(** The 42 bytes of an ARP packet: Ethernet header, then the ARP fields. *)
Definition arp_frame (dst src : list Z) (type op : Z) (es si et ti : list Z) : list Z :=
  dst ++ src ++ net16 type ++ net16 1 ++ net16 0x0800 ++ [6; 4] ++ net16 op ++ es ++ si ++ et ++ ti.

Definition issue_rarp_request (s : nbt) : cres (nbt * list event) :=
  let! mac := fetch (prom s) 0 6 in
  nic_send_packet s (arp_frame bcast mac 0x8035 3 mac (take 4 bcast) mac (take 4 bcast)).

Definition handle_rarp (s : nbt) : cres (nbt * list event) :=
  let! op := be16 (blah s) 20 in
  if decide (op = RARP_OP_REPLY) then
    let! c := memcmp (blah s) 32 (prom s) 0 6 in
    if decide (c = 0) then
      let! d := memcmp (blah s) 38 (ip0 s) 3 4 in
      if decide (d <> 0) then
        let! i := memcpy (ip0 s) 3 (blah s) 38 4 in
        Ok (set_flags (set_ip s i "(RARP'd)") true true, [])
      else Ok (s, [])
    else Ok (s, [])
  else Ok (s, []).

Definition handle_arp (s : nbt) : cres (nbt * list event) :=
  let! op := be16 (blah s) 20 in
  if decide (op = 1) then
    let! c := memcmp (blah s) 38 (ip0 s) 3 4 in
    if decide (c = 0) then
      let! mac := fetch (prom s) 0 6 in
      let! dst := fetch (blah s) 6 6 in
      let! own := fetch (ip0 s) 3 4 in
      let! es := fetch (blah s) 22 6 in
      let! si := fetch (blah s) 28 4 in
      nic_send_packet s (arp_frame dst mac 0x0806 2 mac own es si)
    else Ok (s, [])
  else Ok (s, []).

Definition receive (s : nbt) : cres (nbt * list event) :=
  let! b12 := rd (blah s) 12 in
  let! b13 := rd (blah s) 13 in
  if decide (b12 = 0x80 /\ b13 = 0x35) then handle_rarp s else
  if decide (b12 <> 0x08) then Ok (s, []) else
  if decide (b13 = 0x06) then handle_arp s else
  if decide (b13 = 0x00) then handle_ip s else Ok (s, []).

(** nic_rx: the driver checks the length and copies the frame into the buffer. *)
Definition nic_rx (s : nbt) (f : list Z) : cres (nbt * list event) :=
  if decide (Z.of_nat (length f) < 60 \/ 1518 < Z.of_nat (length f)) then Ok (s, []) else
  let! b := store (blah s) 0 f in
  receive (set_blah s b).

End loader.

(** ** Options and the console *)

(** The loop over the four parts of an address. *)
Fixpoint number (m : list Z) (p v : Z) (fuel : nat) : cres (Z * Z) :=
  match fuel with
  | O => Fault
  | S fuel =>
      let! c := rd m p in
      if decide (c <> 0 /\ c <> 46) then number m (p + 1) (s32 (v * 10 + schar c - 48)) fuel else Ok (v, p)
  end.
Fixpoint read_ip (m : list Z) (s : Z) (ip : list Z) (d : Z) (n : nat) : cres (list Z) :=
  match n with
  | O => Ok ip
  | S n =>
      let! (v, p) := number m s 0 (S (length m)) in
      let! ip := wr ip d v in
      let! c := rd m p in
      if decide (c = 0) then Ok ip else read_ip m (p + 1) ip (d + 1) n
  end.

Definition option_ (s : nbt) (m : list Z) (lhs rhs : Z) : cres nbt :=
  let! c := strcmp m lhs (cstr "ip" ++ [0]) 0 in
  if decide (c = 0) then let! i := read_ip m rhs (ip0 s) 3 4 in Ok (set_ip s i "(manual)") else Ok s.

Inductive pstate := SKIP | LHS | RHS.

(** The loop of parse on the string at [p]; the pointers are undefined until they are set. *)
Fixpoint parse_loop (s : nbt) (m : list Z) (p : Z) (st : pstate) (lhs rhs : option Z) (fuel : nat) : cres (nbt * list Z) :=
  match fuel with
  | O => Fault
  | S fuel =>
      let! c := rd m p in
      if decide (c = 0) then
        match st with
        | RHS => let? l := lhs in let? r := rhs in let! s := option_ s m l r in Ok (s, m)
        | _ => Ok (s, m)
        end
      else
        match st with
        | RHS =>
            if decide (schar c <= 32) then
              let! m := wr m p 0 in
              let? l := lhs in let? r := rhs in
              let! s := option_ s m l r in
              parse_loop s m (p + 1) SKIP lhs rhs fuel
            else parse_loop s m (p + 1) RHS lhs rhs fuel
        | _ =>
            let skip := (match st with SKIP => true | _ => false end) in
            if decide (skip = true /\ schar c <= 32) then parse_loop s m (p + 1) SKIP lhs rhs fuel
            else
              let lhs := if skip then Some p else lhs in
              if decide (c = 61) then let! m := wr m p 0 in parse_loop s m (p + 1) RHS lhs (Some (p + 1)) fuel
              else parse_loop s m (p + 1) LHS lhs rhs fuel
        end
  end.
Definition parse (s : nbt) (m : list Z) (p : Z) : cres (nbt * list Z) := parse_loop s m p SKIP None None (S (length m)).

Definition newline (s : nbt) : cres nbt :=
  let! b := store (linebuf s) 0 (cstr "netboot> ") in
  let! b := store b 9 (replicate 70 32) in
  let! b := wr b 79 0 in
  Ok (set_line s b 9).

(** The copy of the parameters of the boot command. *)
Fixpoint copy_param (d : list Z) (p : Z) (m : list Z) (q : Z) (fuel : nat) : cres (list Z) :=
  match fuel with
  | O => Fault
  | S fuel =>
      let! c := rd m q in
      if decide (c = 0) then wr d p 0 else
      let! d := wr d p c in copy_param d (p + 1) m (q + 1) fuel
  end.

(** A test of the bytes at [p], up to the first that differs. *)
Fixpoint starts_with (m : list Z) (p : Z) (l : list Z) : cres bool :=
  match l with
  | [] => Ok true
  | c :: l => let! x := rd m p in if decide (x = c) then starts_with m (p + 1) l else Ok false
  end.

Definition command (s : nbt) (cmd : Z) : cres (nbt * bool) :=
  let! q := starts_with (linebuf s) cmd (cstr "go" ++ [0]) in
  if q : bool then Ok (s, true) else
  let! q := starts_with (linebuf s) cmd (cstr "boot=") in
  if q : bool then
    let! p := copy_param (param s) 0 (linebuf s) (cmd + 5) (S (length (linebuf s))) in
    Ok (set_param s p, false)
  else
    let! (s, m) := parse s (linebuf s) cmd in
    Ok (set_line s m (lp s), false).

Definition ESC : Z := 27.
Definition BS : Z := 8.
Definition CR : Z := 13.

Definition keypress (s : nbt) (key : Z) : cres (nbt * bool) :=
  if decide (key = ESC) then let! b := store (linebuf s) 9 (replicate 70 32) in Ok (set_line s b 9, false) else
  if decide (key = CR) then
    let! b := wr (linebuf s) (lp s) 0 in
    let! (s, go) := command (set_line s b (lp s)) 9 in
    if go : bool then Ok (s, true) else let! s := newline s in Ok (s, false)
  else if decide (key = BS) then
    if decide (9 < lp s) then let! b := wr (linebuf s) (lp s - 1) 32 in Ok (set_line s b (lp s - 1), false) else Ok (s, false)
  else
    if decide (lp s < 79) then let! b := wr (linebuf s) (lp s) key in Ok (set_line s b (lp s + 1), false) else Ok (s, false).

Definition ScanTable : list Z :=
  [32; ESC] ++ cstr "1234567890-=" ++ [BS; 9] ++ cstr "qwertyuiop[]" ++ [CR; 32] ++ cstr "asdfghjkl;'~ \zxcvbnm,./     ".
Definition ShiftTable : list Z :=
  [32; ESC] ++ cstr "!@#$%^&*()_+  QWERTYUIOP{}" ++ [CR; 32] ++ cstr "ASDFGHJKL:" ++ [34] ++ cstr "~ |ZXCVBNM<>?     ".
Definition LSHIFT : Z := 42.
Definition RSHIFT : Z := 54.

(** The loop of console over the scan codes that arrive; [true] when the loader goes on. *)
Fixpoint console_loop (s : nbt) (shift : bool) (keys : list Z) : cres (nbt * bool) :=
  match keys with
  | [] => Ok (s, false)
  | key :: keys =>
      if decide (key = LSHIFT \/ key = RSHIFT) then console_loop s true keys else
      if decide (key = Z.lor LSHIFT 0x80 \/ key = Z.lor RSHIFT 0x80) then console_loop s false keys else
      if decide (Z.land key 0x80 <> 0) then console_loop s shift keys else
      if decide (key < 59) then
        let? k := aget (if shift then ShiftTable else ScanTable) key in
        let! (s, go) := keypress s k in
        if go : bool then Ok (s, true) else console_loop s shift keys
      else console_loop s shift keys
  end.
Definition console (s : nbt) (keys : list Z) : cres (nbt * bool) := let! s := newline s in console_loop s false keys.

(** ** Start *)

(** The globals before main, with the memory and the address that the card reports. *)
Definition globals (mac : list Z) (m : gmap Z Z) : nbt :=
  Nbt (replicate 1500 0) (replicate 80 0) false 1 false false "" (mac ++ replicate 26 0) (cstr "ip=" ++ replicate 5 0)
    (replicate 4 0) (replicate 6 0) (replicate 1070 0) (replicate 80 0) 0 m.

(** One turn of the outer loop of main, up to the point where packets are taken. *)
Definition restart (s : nbt) : cres (nbt * list event) :=
  let s := set_flags s false (got_ip s) in
  if got_ip s then Ok (s, []) else
    let! (s, e1) := issue_rarp_request s in
    let! (s, e2) := issue_rarp_request s in
    let! (s, e3) := issue_rarp_request s in
    Ok (s, e1 ++ e2 ++ e3).

Definition main (mac : list Z) (m : gmap Z Z) : cres (nbt * list event) :=
  let s := globals mac m in
  let! p := wr (param s) 0 0 in
  let! (s, _) := parse (set_param s p) (cstr "ip=0.0.0.0" ++ [0]) 0 in
  let! i := store (ip0 s) 3 [10; 10; 10; 10] in
  restart (set_ip s i "(default)").

(** ** util/netboot.c *)

(** The program on the server: what is left of the file, the number of the block, the
  message that is sent and the one that was received last. *)
Record host := Host { h_rest : list Z; h_i : Z; h_nb : list Z; h_nbr : list Z; h_done : bool }.

Definition sizeof_net_boot : nat := 1028.

(** The head of the loop: the next block is read and sent, or the last command. A short
  block leaves the end of the one before in the message. *)
Definition host_next (h : host) : host * list Z :=
  match take 1024 (h_rest h) with
  | [] =>
      let nb := net16 NETBOOT_CMD_EXEC ++ net16 0 ++ drop 4 (h_nb h) in
      (Host (h_rest h) (h_i h) nb (h_nbr h) true, take 4 nb)
  | data =>
      let nb := net16 NETBOOT_CMD_LOAD ++ net16 (h_i h) ++ data ++ drop (4 + length data) (h_nb h) in
      (Host (drop 1024 (h_rest h)) (h_i h) nb (h_nbr h) false, nb)
  end.

(** The answer of select and recvfrom: no message in time, an error, or a message. *)
Inductive answer := Timeout | RecvError | Message (d : list Z).

(** After a message was sent: it is sent again unless the answer acknowledges it. *)
Definition host_wait (h : host) (a : answer) : host * list Z :=
  match a with
  | Timeout | RecvError => (h, h_nb h)
  | Message d =>
      let nbr := take sizeof_net_boot d ++ drop (length (take sizeof_net_boot d)) (h_nbr h) in
      let h := Host (h_rest h) (h_i h) (h_nb h) nbr (h_done h) in
      if decide (take 2 nbr <> net16 NETBOOT_CMD_ACK) then (h, h_nb h) else
      if decide (take 2 (drop 2 nbr) <> take 2 (drop 2 (h_nb h))) then (h, h_nb h) else
      host_next (Host (h_rest h) (h_i h + 1) (h_nb h) nbr (h_done h))
  end.

(** The start, with what the two messages hold before they are used. *)
Definition host_main (file nb nbr : list Z) : host * list Z := host_next (Host file 0 nb nbr false).

End NetBoot.
