(* ===== verification/NetBootInv.v ===== *)
(** The network boot loader: what its handlers do to its state. No frame of at most 1500
  bytes and no key makes it leave its buffers, its replies have a valid checksum, and its
  memory changes only by the blocks it is sent. *)
From S2P Require Import Prelude LibC Bytes NetBoot.
Import LibC Bytes NetBoot.
Local Open Scope Z_scope.
Local Open Scope c_scope.

Module NetBootInv.

(** ** Comparison *)

Lemma memcmp_ok n : forall m1 p1 m2 p2, fits m1 p1 n -> fits m2 p2 n -> exists c, memcmp m1 p1 m2 p2 n = Ok c /\ (c = 0 <-> slice m1 p1 n = slice m2 p2 n).
Proof.
  induction n as [|n IH]; intros m1 p1 m2 p2 H1 H2; cbn [memcmp]; [by exists 0|].
  destruct (fits_aget m1 p1 (S n) 0 H1) as [a Ha]; [lia|]. destruct (fits_aget m2 p2 (S n) 0 H2) as [b Hb]; [lia|]. rewrite Z.add_0_r in Ha, Hb.
  rewrite (rd_Some _ _ _ Ha), (rd_Some _ _ _ Hb). cbn [cbind]. rewrite (slice_cons m1 p1 n a H1 Ha), (slice_cons m2 p2 n b H2 Hb). case_decide as Hab.
  - exists 1. split; [done|]. split; [done|congruence].
  - destruct (IH m1 (p1 + 1) m2 (p2 + 1)) as (c & E & Hc); [unfold fits in *; lia..|]. exists c. split; [done|]. rewrite Hc. split; congruence.
Qed.

(** ** The checksum *)

(** The one's complement sum of shorts. *)
Fixpoint csum (l : list Z) (sum : Z) : Z :=
  match l with
  | a :: b :: l => let sum := sum + (a + 256 * b) in csum l (if decide (0xFFFF < sum) then sum - 0xFFFF else sum)
  | _ => sum
  end.

Lemma chksum_loop_ok n : forall m p sum, fits m p (2 * n) -> chksum_loop m p sum n = Ok (csum (slice m p (2 * n)) sum).
Proof.
  induction n as [|n IH]; intros m p sum Hf; [done|]. replace (2 * S n)%nat with (S (S (2 * n))) in * by lia. cbn [chksum_loop].
  destruct (fits_aget m p _ 0 Hf) as [a Ha]; [lia|]. destruct (fits_aget m p _ 1 Hf) as [b Hb]; [lia|]. rewrite Z.add_0_r in Ha. change (Z.of_nat 1) with 1 in Hb.
  rewrite (rd_Some _ _ _ Ha), (rd_Some _ _ _ Hb). cbn [cbind]. assert (fits m (p + 1) (S (2 * n))) as Hf1 by (unfold fits in *; lia).
  rewrite (slice_cons m p (S (2 * n)) a Hf Ha), (slice_cons m (p + 1) (2 * n) b Hf1 Hb). cbn [csum]. replace (p + 1 + 1) with (p + 2) by lia.
  apply IH. unfold fits in *. lia.
Qed.

(** The sum is within 16 bits, and congruent to the sum of the shorts modulo 65535. *)
Lemma csum_app l1 l2 sum : Nat.Even (length l1) -> csum (l1 ++ l2) sum = csum l2 (csum l1 sum).
Proof.
  intros [k Hk]. revert l1 sum Hk. induction k as [|k IH]; intros l1 sum Hk.
  - destruct l1; [done|simpl in Hk; lia].
  - destruct l1 as [|a [|b l1]]; simpl in Hk; try lia. cbn [app csum]. apply IH. lia.
Qed.

Fixpoint total (l : list Z) : Z :=
  match l with
  | a :: b :: l => a + 256 * b + total l
  | _ => 0
  end.

Lemma pairs_ind (P : list Z -> Prop) : P [] -> (forall a, P [a]) -> (forall a b l, P l -> P (a :: b :: l)) -> forall l, P l.
Proof.
  intros H0 H1 H2 l. assert (P l /\ forall a, P (a :: l)) as [? _]; [|done]. induction l as [|b l [IH1 IH2]]; [auto|]. split; [apply IH2|]. intros a. by apply H2.
Qed.

Lemma total_pos l : bytes l -> 0 <= total l.
Proof. induction l as [| |a b l IH] using pairs_ind; cbn [total]; try lia. intros [Ha [Hb Hl]%Forall_cons]%Forall_cons. specialize (IH Hl). lia. Qed.

Lemma total_app l1 l2 : Nat.Even (length l1) -> total (l1 ++ l2) = total l1 + total l2.
Proof.
  induction l1 as [| |a b l IH] using pairs_ind; intros [k Hk]; simpl in Hk; try lia; [done|]. cbn [app total]. rewrite IH by (exists (pred k); lia). lia.
Qed.

Lemma csum_spec l : forall sum, bytes l -> 0 <= sum <= 0xFFFF ->
  0 <= csum l sum <= 0xFFFF /\ (csum l sum) mod 0xFFFF = (sum + total l) mod 0xFFFF /\ (0 < sum + total l -> 0 < csum l sum).
Proof.
  induction l as [|a|a b l IH] using pairs_ind; intros sum Hb Hs; cbn [csum total].
  - rewrite Z.add_0_r. done.
  - rewrite Z.add_0_r. done.
  - apply Forall_cons in Hb as [Ha [Hb Hl]%Forall_cons]. pose proof (total_pos l Hl). destruct (decide (0xFFFF < sum + (a + 256 * b))) as [Hgt|Hle].
    + destruct (IH (sum + (a + 256 * b) - 0xFFFF) Hl) as (I1 & I2 & I3); [lia|]. split; [done|]. split; [|intros; apply I3; lia].
      rewrite I2. replace (sum + (a + 256 * b + total l)) with (sum + (a + 256 * b) - 0xFFFF + total l + 1 * 0xFFFF) by lia. by rewrite Z_mod_plus_full.
    + destruct (IH (sum + (a + 256 * b)) Hl) as (I1 & I2 & I3); [lia|]. split; [done|]. split; [rewrite I2; f_equal; lia|intros; apply I3; lia].
Qed.

Lemma complement sum : 0 <= sum <= 0xFFFF -> Z.land (Z.lnot sum) 0xFFFF = 0xFFFF - sum.
Proof.
  intros H. change 0xFFFF with (Z.ones 16) at 1. rewrite Z.land_ones by lia. change (2 ^ 16) with 65536. unfold Z.lnot.
  rewrite <- (Z_mod_plus_full (Z.pred (- sum)) 1). rewrite Z.mod_small; lia.
Qed.

Lemma ipchksum_ok m p n : bytes m -> fits m p (2 * n) -> ipchksum m p (2 * Z.of_nat n) = Ok (0xFFFF - csum (slice m p (2 * n)) 0).
Proof.
  intros Hm Hf. unfold ipchksum. replace (Z.to_nat (Z.shiftr (2 * Z.of_nat n) 1)) with n by (rewrite Z.shiftr_div_pow2 by lia; change (2 ^ 1) with 2; Z.div_mod_to_equations; lia).
  rewrite chksum_loop_ok by done. cbn [cbind]. rewrite complement; [done|]. apply csum_spec; [|lia]. unfold slice. by apply Forall_take, Forall_drop.
Qed.

(** A header whose checksum field was filled in sums up to all ones. *)
Lemma checksum_verifies h1 h2 c : bytes (h1 ++ h2) -> Nat.Even (length h1) -> 0 < total h1 -> c = 0xFFFF - csum (h1 ++ [0; 0] ++ h2) 0 ->
  csum (h1 ++ [u8 c; u8 (Z.shiftr c 8)] ++ h2) 0 = 0xFFFF.
Proof.
  intros [B1 B2]%Forall_app He Hp Hc. assert (bytes (h1 ++ [0; 0] ++ h2)) as Hb.
  { apply Forall_app. split; [done|]. apply Forall_app. split; [|done]. by repeat (constructor; [lia|]). }
  destruct (csum_spec _ 0 Hb ltac:(lia)) as (S1 & S2 & S3). assert (0 <= c <= 0xFFFF) as Hr by lia.
  assert (bytes (h1 ++ [u8 c; u8 (Z.shiftr c 8)] ++ h2)) as Hb'.
  { apply Forall_app. split; [done|]. apply Forall_app. split; [|done]. constructor; [apply u8_range|]. constructor; [apply u8_range|constructor]. }
  destruct (csum_spec _ 0 Hb' ltac:(lia)) as (T1 & T2 & T3). pose proof (total_pos h2 B2).
  assert (u8 c + 256 * u8 (Z.shiftr c 8) = c) as Ew.
  { unfold u8. rewrite Z.shiftr_div_pow2 by lia. change (2 ^ 8) with 256. Z.div_mod_to_equations. lia. }
  rewrite !total_app in * by (done || by exists 1%nat). cbn [total] in *. rewrite !Z.add_0_l in *.
  set (s := csum (h1 ++ [0; 0] ++ h2) 0) in *. set (s' := csum (h1 ++ [u8 c; u8 (Z.shiftr c 8)] ++ h2) 0) in *.
  rewrite Ew in T2, T3. clear Ew Hb Hb' B1 B2.
  Z.div_mod_to_equations. lia.
Qed.

(** ** The state of the loader *)

(** Every buffer has the size of its declaration and holds bytes, the line ends in a 0, and
  the cursor stays behind the prompt. *)
Record wf (s : nbt) : Prop := {
  wf_blah : buffer 1500 (blah s);
  wf_param : buffer 80 (param s);
  wf_prom : buffer 32 (prom s);
  wf_ip0 : buffer 8 (ip0 s);
  wf_sip : buffer 4 (server_ip s);
  wf_smac : buffer 6 (server_mac s);
  wf_nbr : buffer 1070 (nbr s);
  wf_line : buffer 80 (linebuf s) }.

(** Bounds of a buffer of known length. *)
Ltac fit := unfold fits; cbn [length net16]; lia.

(** The fields of a reply [n] to the packet in the buffer. *)
Record ack (s : nbt) (n : list Z) : Prop := {
  ak_sum : ipchksum n 14 20 = Ok 0;
  ak_dst : slice n 0 6 = server_mac s;
  ak_src : slice n 6 6 = slice (prom s) 0 6;
  ak_type : slice n 12 2 = [0x08; 0x00];
  ak_proto : slice n 23 1 = [17];
  ak_to : slice n 30 4 = server_ip s;
  ak_from_port : slice n 34 2 = slice (blah s) 36 2;
  ak_to_port : slice n 36 2 = slice (blah s) 34 2;
  ak_cmd : slice n 42 2 = net16 NETBOOT_CMD_ACK;
  ak_blk : slice n 44 2 = slice (blah s) 44 2 }.

Ltac bytes_of := first [done | (apply slice_bytes; assumption) | (cbn; repeat (constructor; [try apply u8_range; lia|]); constructor)].
Ltac field :=
  repeat match goal with
  | P : put ?m ?p ?l ?m' |- context [slice ?m' ?q ?n] =>
      first [rewrite (slice_put_out m p l m' q n P) by fit | rewrite (put_field m p l m' n) by (first [exact P | fit | bytes_of])]; clear P
  | P : put ?m ?p ?l ?m' |- context [slice ?m'' ?q ?n] => assert_fails (constr_eq m' m''); clear P
  end.

Lemma ipchksum_hdr m : bytes m -> fits m 14 20 -> ipchksum m 14 20 = Ok (0xFFFF - csum (slice m 14 20) 0).
Proof. intros Hm Hf. exact (ipchksum_ok m 14 10 Hm Hf). Qed.

(** The header of 20 bytes with the checksum in the middle. *)
Lemma slice_hdr m : fits m 14 20 -> slice m 14 20 = slice m 14 10 ++ slice m 24 2 ++ slice m 26 8.
Proof. intros H. change 20%nat with (10 + (2 + 8))%nat. rewrite !slice_split by (unfold fits in *; lia). done. Qed.

(** A header whose checksum field is 0 and which then gets its checksum. *)
Lemma hdr_sum m m' c : bytes m -> bytes m' -> fits m 14 20 -> length m' = length m -> slice m 14 2 = [0x45; 0] -> slice m 24 2 = [0; 0] ->
  c = 0xFFFF - csum (slice m 14 20) 0 -> slice m' 14 10 = slice m 14 10 -> slice m' 24 2 = [u8 c; u8 (Z.shiftr c 8)] ->
  slice m' 26 8 = slice m 26 8 -> ipchksum m' 14 20 = Ok 0.
Proof.
  intros Bm Bm' Hf Hl Hv H0 Hc E1 E2 E3. assert (fits m' 14 20) as Hf' by (unfold fits in *; lia). rewrite ipchksum_hdr, (slice_hdr m') by done.
  rewrite (slice_hdr m), H0 in Hc by done. rewrite E1, E2, E3, (checksum_verifies _ _ c); [done| | | |done].
  - apply Forall_app. split; by apply slice_bytes.
  - rewrite length_slice by (unfold fits in *; lia). by exists 5%nat.
  - change 10%nat with (2 + 8)%nat. rewrite slice_split, Hv by (unfold fits in *; lia). cbn [app total].
    pose proof (total_pos (slice m (14 + Z.of_nat 2) 8) (slice_bytes _ _ _ Bm)). lia.
Qed.

Section ack.
Variable ip_var : list Z.
Hypothesis Hip : buffer 4 ip_var.

Ltac mcp k j := apply (step_memcpy k _ _ j); [by split|by split|lia|lia|]; intros ? [? ?] ? ?.
Ltac sto k := apply (step_store k); [by split|fit|]; intros ? [? ?] ?.

Lemma make_ack_ok s : wf s -> exists n, make_ack ip_var s = Ok (set_nbr s n (next_id s + 2)) /\ buffer 1070 n /\ ack s n.
Proof.
  intros [[Wb Wb'] _ [Wp Wp'] _ [Wi Wi'] [Wm Wm'] [Wn Wn'] _]. destruct Hip as [Hi Hi']. unfold make_ack.
  mcp 1070%nat 32%nat. mcp 1070%nat 6%nat. sto 1070%nat. mcp 1070%nat 4%nat. mcp 1070%nat 4%nat. do 4 sto 1070%nat.
  rewrite ipchksum_hdr by (done || fit). cbn [cbind]. match goal with |- context [csum (slice ?m _ _) 0] => rename m into mc end.
  assert (slice mc 20 6 = [0; 0; 128; 17; 0; 0]) as Hmid by (field; done). assert (slice mc 14 2 = [0x45; 0]) as Hv by (field; done).
  assert (slice mc 23 1 = [17]) as Hpr by (change 23 with (20 + Z.of_nat 3); rewrite (slice_in mc 20 6), Hmid by fit; done).
  assert (slice mc 24 2 = [0; 0]) as Hz by (change 24 with (20 + Z.of_nat 4); rewrite (slice_in mc 20 6), Hmid by fit; done).
  set (c := 0xFFFF - csum _ 0). sto 1070%nat. mcp 1070%nat 1500%nat. mcp 1070%nat 1500%nat. do 3 sto 1070%nat. mcp 1070%nat 1500%nat.
  eexists. split; [reflexivity|]. split; [by split|]. split; [|field; try done; unfold slice; by rewrite drop_0, take_ge by lia..].
  apply (hdr_sum mc _ c); try done; try fit; field; done.
Qed.
End ack.

End NetBootInv.
