(* ===== verification/NetRx.v ===== *)
(** The network boot loader: what its handlers do with a packet. No frame of at most 1500
  bytes makes them leave a buffer, and the memory above the load address changes only by
  the blocks that the loader is told to load. *)
From S2P Require Import Prelude LibC Bytes NetBoot NetBootInv.
Import LibC Bytes NetBoot NetBootInv.
Local Open Scope Z_scope.
Local Open Scope c_scope.

Module NetRx.

(** ** The handlers *)

(** A short in network order is the number whose bytes it holds. *)
Lemma be16_ok m p : bytes m -> fits m p 2 -> exists v, be16 m p = Ok v /\ 0 <= v < 65536 /\ slice m p 2 = net16 v.
Proof.
  intros Hb Hf. destruct (slice2 m p Hb Hf) as (a & b & E & Ra & Rb & Ha & Hb'). unfold byte in *. exists (256 * a + b). unfold be16. rewrite Ra, Rb. cbn [cbind]. split; [done|]. split; [lia|].
  rewrite E. unfold net16, u8. rewrite Z.shiftr_div_pow2 by lia. change (2 ^ 8) with 256. f_equal; [|f_equal]; Z.div_mod_to_equations; lia.
Qed.

Lemma net16_inj v w : 0 <= v < 65536 -> 0 <= w < 65536 -> net16 v = net16 w -> v = w.
Proof.
  unfold net16, u8. rewrite !Z.shiftr_div_pow2 by lia. change (2 ^ 8) with 256. intros Hv Hw [= E1 E2]. Z.div_mod_to_equations. lia.
Qed.

(** A packet for the loader with this command. *)
Record boot_pkt (b : list Z) (cmd : Z) : Prop := {
  bp_type : slice b 12 2 = [0x08; 0x00];
  bp_proto : slice b 23 1 = [17];
  bp_port : slice b 36 2 = net16 NETBOOT_PORT;
  bp_cmd : slice b 42 2 = net16 cmd }.

(** The address that a packet asks for, and the addresses in which the entry point is. *)
Definition load_addr (blk : Z) : Z := blk * 1024 + NETBOOT_BASE.
Definition has_dir (m : gmap Z Z) : Prop := forall i, 0 <= i < 4 -> is_Some (m !! (NETBOOT_BASE + 116 + i)).

Lemma ram32_ok m a : (forall i, 0 <= i < 4 -> is_Some (m !! (a + i))) -> exists v, ram32 m a = Ok v.
Proof.
  intros H. unfold ram32. destruct (H 0 ltac:(lia)) as [b0 E0], (H 1 ltac:(lia)) as [b1 E1], (H 2 ltac:(lia)) as [b2 E2], (H 3 ltac:(lia)) as [b3 E3].
  rewrite Z.add_0_r in E0. rewrite E0, E1, E2, E3. by eexists.
Qed.

Lemma put_ram_lookup m a l x : put_ram m a l !! x = if decide (a <= x < a + Z.of_nat (length l)) then l !! Z.to_nat (x - a) else m !! x.
Proof.
  unfold put_ram. revert a. induction l as [|c l IH]; intros a.
  - simpl. rewrite (left_id_L ∅ (∪)). rewrite decide_False; [done|simpl; lia].
  - cbn [length]. rewrite seqZ_cons by lia. cbn [zip zip_with list_to_map foldr]. replace (Z.pred (Z.of_nat (S (length l)))) with (Z.of_nat (length l)) by lia.
    rewrite <- insert_union_l. destruct (decide (x = a)) as [->|Hne].
    + rewrite lookup_insert_eq, decide_True by lia. by rewrite Z.sub_diag.
    + rewrite lookup_insert_ne by done. specialize (IH (Z.succ a)). unfold fst, snd in *. rewrite IH. destruct (decide (a <= x < a + Z.of_nat (S (length l)))) as [Hd|Hd].
      * rewrite decide_True by lia. replace (Z.to_nat (x - a)) with (S (Z.to_nat (x - Z.succ a))) by lia. done.
      * rewrite decide_False by lia. done.
Qed.

(** What a packet in the buffer does: the memory stays and at most an address is resolved,
  or a block is loaded and acknowledged, or the image is started. *)
Definition not_ip (e : event) : Prop := exists f, e = Sent f /\ slice f 12 2 <> [0x08; 0x00].

(** A packet that the loader acts on: a command, addressed to it, with a sound header. *)
Definition accepted (s : nbt) (b : list Z) : Prop :=
  (boot_pkt b NETBOOT_CMD_LOAD \/ boot_pkt b NETBOOT_CMD_EXEC) /\ slice b 30 4 = slice (ip0 s) 3 4 /\ ipchksum b 14 20 = Ok 0.

Inductive rx (b : list Z) (s s' : nbt) : list event -> Prop :=
| rx_quiet evs : ~ accepted s b -> ram s' = ram s -> Forall not_ip evs -> rx b s s' evs
| rx_load f blk : boot_pkt b NETBOOT_CMD_LOAD -> 0 <= blk < 65536 -> slice b 44 2 = net16 blk ->
    ram s' = put_ram (ram s) (load_addr blk) (slice b 46 1024) -> ip0 s' = ip0 s ->
    slice f 12 2 = [0x08; 0x00] -> slice f 23 1 = [17] -> ipchksum f 14 20 = Ok 0 -> slice f 42 4 = net16 NETBOOT_CMD_ACK ++ net16 blk -> rx b s s' [Sent f]
| rx_exec v arg : boot_pkt b NETBOOT_CMD_EXEC -> ram s' = ram s -> ram32 (ram s) (NETBOOT_BASE + 64 + 52) = Ok v ->
    rx b s s' [Started (u32 (v + 0x1000 + NETBOOT_BASE)) arg].

Definition ok_dir (s : nbt) : Prop := wf s /\ has_dir (ram s).

Lemma wf_set_blah s b : wf s -> buffer 1500 b -> wf (set_blah s b).
Proof. intros [] ?. by split. Qed.

Lemma nic_send_ok s f : wf s -> bytes f -> (length f <= 60)%nat ->
  exists s', nic_send_packet s f = Ok (s', [Sent (f ++ replicate (60 - length f) 0)]) /\ wf s' /\ ram s' = ram s /\ ip0 s' = ip0 s.
Proof.
  intros W Hf Hl. unfold nic_send_packet. destruct (decide (Z.of_nat (length f) < 60)) as [H|H].
  - apply (step_store 1500); [apply W|rewrite length_app, length_replicate; lia|]. intros b B _. eexists. split; [reflexivity|]. split; [by apply wf_set_blah|done].
  - replace (60 - length f)%nat with 0%nat by lia. rewrite app_nil_r. by exists s.
Qed.

Section handlers.
Variable ip_var : list Z.
Hypothesis Hip : buffer 4 ip_var.

Lemma put_ram_dir m a l : has_dir m -> has_dir (put_ram m a l).
Proof.
  intros H i Hi. rewrite put_ram_lookup. destruct (decide _) as [Hd|Hd]; [|by apply H]. apply lookup_lt_is_Some. lia.
Qed.

(** The state when the server is known. *)
Lemma learn_server s : ok_dir s -> exists s1,
  (if got_server s then Ok s else
    let! mac := memcpy (server_mac s) 0 (blah s) 6 6 in
    let! i := memcpy (server_ip s) 0 (blah s) 26 4 in
    Ok (set_server s i mac)) = Ok s1 /\ ok_dir s1 /\ ram s1 = ram s /\ ip0 s1 = ip0 s /\ blah s1 = blah s.
Proof.
  intros [W D]. destruct (got_server s); [by exists s|].
  apply (step_memcpy 6 _ _ 1500); [apply W|apply W|lia|lia|]. intros mac Bm _ _. apply (step_memcpy 4 _ _ 1500); [apply W|apply W|lia|lia|]. intros i Bi _ _.
  eexists. split; [reflexivity|]. split; [|done]. split; [|done]. destruct W. by split.
Qed.

Lemma handle_udp_ok s : ok_dir s -> slice (blah s) 12 2 = [0x08; 0x00] -> slice (blah s) 23 1 = [17] ->
  exists s' evs, handle_udp ip_var s = Ok (s', evs) /\ ok_dir s' /\ rx (blah s) s s' evs.
Proof.
  intros [W D] Ht Hp. pose proof (bf_len _ _ (wf_blah _ W)) as Lb. pose proof (bf_bytes _ _ (wf_blah _ W)) as Bb. unfold handle_udp.
  destruct (be16_ok (blah s) 36) as (dst & -> & Rd & Ed); [done|fit|]. cbn [cbind]. destruct (decide (dst <> NETBOOT_PORT)) as [Hd|Hd%dec_stable].
  { exists s, []. split; [done|]. split; [done|]. apply rx_quiet; [|done|done]. intros [[[? ? Q _]|[? ? Q _]] _]; rewrite Ed in Q; apply net16_inj in Q; first [done | by split]. }
  subst dst. destruct (be16_ok (blah s) 42) as (cmd & -> & Rc & Ec); [done|fit|]. destruct (be16_ok (blah s) 44) as (blk & -> & Rb & Eb); [done|fit|]. cbn [cbind].
  destruct (decide (cmd <> NETBOOT_CMD_LOAD /\ cmd <> NETBOOT_CMD_EXEC)) as [Hc|Hc].
  { exists s, []. split; [done|]. split; [done|]. apply rx_quiet; [|done|done]. intros [[[? ? _ Q]|[? ? _ Q]] _]; rewrite Ec in Q; apply net16_inj in Q; first [tauto | done | by split]. }
  destruct (learn_server s) as (s1 & -> & [W1 D1] & R1 & I1 & B1); [done|]. cbn [cbind].
  destruct (decide (cmd = NETBOOT_CMD_LOAD)) as [->|Hl].
  - rewrite fetch_ok by fit. cbn [cbind]. set (s2 := set_ram s1 _). assert (wf s2) as W2 by (destruct W1; by split).
    destruct (make_ack_ok ip_var Hip s2 W2) as (n & -> & Bn & A). cbn [cbind]. destruct (decide (NETBOOT_CMD_LOAD = NETBOOT_CMD_EXEC)) as [?|_]; [done|].
    assert (wf (set_nbr s2 n (next_id s2 + 2))) as W3 by (destruct W2; by split).
    destruct Bn as [Ln Bn]. change (nbr (set_nbr s2 n (next_id s2 + 2))) with n. destruct (nic_send_ok _ (take 46 n) W3) as (s' & -> & W' & R' & I'); [by apply Forall_take|rewrite length_take; lia|].
    eexists _, _. split; [reflexivity|]. split; [split; [done|rewrite R'; cbn; by apply put_ram_dir]|].
    assert (forall p k, 0 <= p -> p + Z.of_nat k <= 46 -> slice (take 46 n ++ replicate (60 - length (take 46 n)) 0) p k = slice n p k) as Hs.
    { intros p k ? ?. rewrite slice_app_l by (unfold fits; rewrite length_take; lia). apply slice_take; lia. }
    apply (rx_load _ _ _ _ blk); [by split|done|done|rewrite R'; cbn; by rewrite R1|rewrite I'; cbn; done|rewrite Hs by lia; apply A|rewrite Hs by lia; apply A| |].
    { assert (fits n 14 20) as Hf by fit. pose proof (ak_sum _ _ A) as Ak. rewrite (ipchksum_hdr n Bn Hf) in Ak. rewrite ipchksum_hdr, Hs by
        (first [lia | unfold fits; rewrite length_app, length_replicate, length_take; lia | apply Forall_app; split; [by apply Forall_take|apply Forall_replicate; lia]]). done. }
    rewrite Hs by lia. change 4%nat with (2 + 2)%nat. rewrite slice_split by fit. rewrite (ak_cmd _ _ A). change (42 + Z.of_nat 2) with 44. rewrite (ak_blk _ _ A). cbn. by rewrite B1, Eb.
  - assert (cmd = NETBOOT_CMD_EXEC) as -> by lia. cbn [cbind]. destruct (make_ack_ok ip_var Hip s1 W1) as (n & -> & Bn & A). cbn [cbind]. rewrite decide_True by done.
    destruct (ram32_ok (ram s1) (NETBOOT_BASE + 64 + 52)) as [v Ev]; [by apply D1|]. change (ram (set_nbr s1 n (next_id s1 + 2))) with (ram s1). rewrite Ev. cbn [cbind].
    change (param (set_nbr s1 n (next_id s1 + 2))) with (param s1). pose proof (wf_param _ W1) as [Lp _]. destruct (fits_aget (param s1) 0 1 0) as [p0 E0]; [fit|lia|]. rewrite Z.add_0_r in E0.
    rewrite (rd_Some _ _ _ E0). cbn [cbind]. eexists _, _. split; [reflexivity|]. split; [split; [destruct W1; by split|done]|]. apply rx_exec; [by split|done|by rewrite <- R1].
Qed.

(** A handler that stays quiet. *)
Lemma quiet s : ok_dir s -> ~ accepted s (blah s) -> exists s' evs, Ok (s, []) = Ok (s', evs) /\ ok_dir s' /\ rx (blah s) s s' evs.
Proof. intros H N. exists s, []. split; [done|]. split; [done|]. by apply rx_quiet. Qed.

Lemma handle_ip_ok s : ok_dir s -> slice (blah s) 12 2 = [0x08; 0x00] ->
  exists s' evs, handle_ip ip_var s = Ok (s', evs) /\ ok_dir s' /\ rx (blah s) s s' evs.
Proof.
  intros [W D] Ht. destruct (wf_blah _ W) as [Lb Bb]. destruct (wf_ip0 _ W) as [Li Bi]. unfold handle_ip.
  destruct (memcmp_ok 4 (blah s) 30 (ip0 s) 3) as (c & -> & Hc); [fit|fit|]. cbn [cbind].
  destruct (decide (c = 0)) as [H0|H0]; [|apply quiet; [done|]; intros (_ & Q & _); tauto].
  pose proof (ipchksum_hdr (blah s) Bb ltac:(fit)) as Ek. rewrite Ek. cbn [cbind]. destruct (decide (_ <> 0)) as [Hk|Hk]; [apply quiet; [done|]; intros (_ & _ & Q); congruence|].
  destruct (slice1 (blah s) 23) as (x & Ex & ->); [fit|]. cbn [cbind]. destruct (decide (x = 17)) as [->|Hx]; [by apply handle_udp_ok|].
  apply quiet; [done|]. intros [[[_ Q]|[_ Q]] _]; congruence.
Qed.

(** The type of an address resolution packet. *)
Lemma arp_type dst src type op es si et ti r : length dst = 6%nat -> length src = 6%nat ->
  slice (arp_frame dst src type op es si et ti ++ r) 12 2 = net16 type.
Proof. intros. do 7 (destruct dst as [|? dst]; try done). by do 7 (destruct src as [|? src]; try done). Qed.

Lemma arp_bytes dst src type op es si et ti : bytes dst -> bytes src -> bytes es -> bytes si -> bytes et -> bytes ti -> bytes (arp_frame dst src type op es si et ti).
Proof.
  intros. assert (forall x, bytes (net16 x)) by (intros; constructor; [apply u8_range|constructor; [apply u8_range|constructor]]).
  unfold arp_frame, bytes in *. rewrite !Forall_app. repeat split; auto. repeat (constructor; [lia|]); constructor.
Qed.

Lemma send_arp s dst src type op es si et ti : ok_dir s -> ~ accepted s (blah s) -> net16 type <> [0x08; 0x00] ->
  buffer 6 dst -> buffer 6 src -> buffer 6 es -> buffer 4 si -> buffer 6 et -> buffer 4 ti ->
  exists s' evs, nic_send_packet s (arp_frame dst src type op es si et ti) = Ok (s', evs) /\ ok_dir s' /\ rx (blah s) s s' evs.
Proof.
  intros [W D] N Ht [L1 B1] [L2 B2] [L3 B3] [L4 B4] [L5 B5] [L6 B6]. destruct (nic_send_ok s (arp_frame dst src type op es si et ti)) as (s' & -> & W' & R & _); [done|by apply arp_bytes|unfold arp_frame; rewrite !length_app; simpl; lia|].
  eexists _, _. split; [reflexivity|]. split; [split; [done|by rewrite R]|]. apply rx_quiet; [done|done|]. constructor; [|constructor]. eexists. split; [reflexivity|]. by rewrite arp_type.
Qed.

Lemma bcast_buffer n : (n <= 6)%nat -> buffer n (take n bcast).
Proof. intros H. split; [rewrite length_take; simpl; lia|]. apply Forall_take, Forall_replicate. lia. Qed.

(** The type of the packet in the buffer decides whether the loader may act on it. *)
Lemma not_accepted s x : slice (blah s) 12 2 = x -> x <> [0x08; 0x00] -> ~ accepted s (blah s).
Proof. intros <- N [[[Q]|[Q]] _]; done. Qed.

Lemma handle_rarp_ok s : ok_dir s -> ~ accepted s (blah s) -> exists s' evs, handle_rarp s = Ok (s', evs) /\ ok_dir s' /\ rx (blah s) s s' evs.
Proof.
  intros [W D] N. destruct (wf_blah _ W) as [Lb Bb]. destruct (wf_ip0 _ W) as [Li Bi]. destruct (wf_prom _ W) as [Lp Bp]. unfold handle_rarp.
  destruct (be16_ok (blah s) 20) as (op & -> & _ & _); [done|fit|]. cbn [cbind]. destruct (decide (op = RARP_OP_REPLY)) as [_|_]; [|by apply quiet].
  destruct (memcmp_ok 6 (blah s) 32 (prom s) 0) as (c & -> & _); [fit|fit|]. cbn [cbind]. destruct (decide (c = 0)) as [_|_]; [|by apply quiet].
  destruct (memcmp_ok 4 (blah s) 38 (ip0 s) 3) as (d & -> & _); [fit|fit|]. cbn [cbind]. destruct (decide (d <> 0)) as [_|_]; [|by apply quiet].
  apply (step_memcpy 8 _ _ 1500); [apply W|apply W|lia|lia|]. intros i B _ _. eexists _, _. split; [reflexivity|]. split; [split; [destruct W; by split|done]|]. by apply rx_quiet.
Qed.

Lemma handle_arp_ok s : ok_dir s -> ~ accepted s (blah s) -> exists s' evs, handle_arp s = Ok (s', evs) /\ ok_dir s' /\ rx (blah s) s s' evs.
Proof.
  intros [W D] N. pose proof (wf_blah _ W) as Xb. pose proof (wf_ip0 _ W) as Xi. pose proof (wf_prom _ W) as Xp. destruct Xb as [Lb Bb], Xi as [Li Bi], Xp as [Lp Bp]. unfold handle_arp.
  destruct (be16_ok (blah s) 20) as (op & -> & _ & _); [done|fit|]. cbn [cbind]. destruct (decide (op = 1)) as [_|_]; [|by apply quiet].
  destruct (memcmp_ok 4 (blah s) 38 (ip0 s) 3) as (c & -> & _); [fit|fit|]. cbn [cbind]. destruct (decide (c = 0)) as [_|_]; [|by apply quiet].
  rewrite !fetch_ok by fit. cbn [cbind]. apply send_arp; [done|done|done|..]; (eapply slice_buffer; [by split|lia|lia]).
Qed.

Lemma issue_rarp_ok s : ok_dir s -> exists s' evs, issue_rarp_request s = Ok (s', evs) /\ ok_dir s' /\ ram s' = ram s /\ Forall not_ip evs.
Proof.
  intros [W D]. pose proof (wf_prom _ W) as Xp. destruct Xp as [Lp Bp]. unfold issue_rarp_request. rewrite fetch_ok by fit. cbn [cbind].
  assert (buffer 6 (slice (prom s) 0 6)) as [L1 B1] by (eapply slice_buffer; [by split|lia|lia]). pose proof (bcast_buffer 4 ltac:(lia)) as [L2 B2]. pose proof (bcast_buffer 6 ltac:(lia)) as [L3 B3].
  set (f := arp_frame _ _ _ _ _ _ _ _). destruct (nic_send_ok s f) as (s' & -> & W' & R & _); [done|by apply arp_bytes|unfold f, arp_frame; rewrite !length_app, L1; simpl; lia|].
  eexists _, _. split; [reflexivity|]. split; [split; [done|by rewrite R]|]. split; [done|]. constructor; [|constructor]. eexists. split; [reflexivity|]. by unfold f; rewrite arp_type.
Qed.

Lemma receive_ok s : ok_dir s -> exists s' evs, receive ip_var s = Ok (s', evs) /\ ok_dir s' /\ rx (blah s) s s' evs.
Proof.
  intros H. pose proof H as [W D]. pose proof (wf_blah _ W) as Xb. destruct Xb as [Lb Bb]. unfold receive.
  destruct (slice2 (blah s) 12) as (a & b & E & -> & Rb & _); [done|fit|]. change (12 + 1) with 13 in Rb. rewrite Rb. cbn [cbind].
  pose proof (not_accepted s _ E) as N. destruct (decide (a = 0x80 /\ b = 0x35)) as [[-> ->]|_]; [apply handle_rarp_ok; [done|by apply N]|].
  destruct (decide (a <> 0x08)) as [Ha|Ha%dec_stable]; [apply quiet; [done|]; apply N; congruence|]. subst a.
  destruct (decide (b = 0x06)) as [->|_]; [apply handle_arp_ok; [done|by apply N]|].
  destruct (decide (b = 0x00)) as [->|Hb]; [by apply handle_ip_ok|]. apply quiet; [done|]. apply N. congruence.
Qed.

(** A frame as the driver hands it over: its bytes are in the buffer, and the rest of the
  buffer is what was there before. *)
Definition filled (s : nbt) (f : list Z) (b : list Z) : Prop := buffer 1500 b /\ take (length f) b = f /\ drop (length f) b = drop (length f) (blah s).

Lemma fill s f : wf s -> bytes f -> (length f <= 1500)%nat -> exists b, store (blah s) 0 f = Ok b /\ filled s f b.
Proof.
  intros W Bf Lf. destruct (wf_blah _ W) as [Lb Bb]. destruct (store_put f (blah s) 0) as (b & Eb & P); [unfold fits; lia|].
  exists b. split; [done|]. split; [eapply put_buffer; [apply W|done]|]. split.
  - pose proof (put_slice (blah s) 0 f b ltac:(unfold fits; lia) Bf P) as Q. unfold slice in Q. by rewrite drop_0 in Q.
  - pose proof (slice_put_out (blah s) 0 f b (Z.of_nat (length f)) (1500 - length f) P ltac:(unfold fits; lia) ltac:(lia)) as Q. unfold slice in Q. rewrite Nat2Z.id in Q.
    destruct P as [P1 _ _]. rewrite !take_ge in Q by (rewrite length_drop; lia). done.
Qed.

Lemma nic_rx_ok s f : ok_dir s -> bytes f -> (60 <= length f <= 1500)%nat ->
  exists b s' evs, filled s f b /\ nic_rx ip_var s f = Ok (s', evs) /\ ok_dir s' /\ rx b s s' evs.
Proof.
  intros [W D] Bf Lf. unfold nic_rx. rewrite decide_False by lia. destruct (fill s f W Bf) as (b & -> & Hb); [lia|]. cbn [cbind].
  destruct (receive_ok (set_blah s b)) as (s' & evs & E & H' & R); [split; [apply wf_set_blah; [done|apply Hb]|done]|].
  exists b, s', evs. split; [done|]. split; [done|]. split; [done|]. inversion R; subst; [by apply rx_quiet|by eapply rx_load|by apply rx_exec].
Qed.

Lemma restart_ok s : ok_dir s -> exists s' evs, restart s = Ok (s', evs) /\ ok_dir s' /\ ram s' = ram s /\ Forall not_ip evs.
Proof.
  intros [W D]. unfold restart. set (s0 := set_flags s false (got_ip s)). assert (ok_dir s0) as H0 by (split; [destruct W; by split|done]).
  change (got_ip s0) with (got_ip s). destruct (got_ip s); [by exists s0, []|].
  destruct (issue_rarp_ok s0 H0) as (s1 & e1 & -> & H1 & R1 & F1). cbn [cbind]. destruct (issue_rarp_ok s1 H1) as (s2 & e2 & -> & H2 & R2 & F2). cbn [cbind].
  destruct (issue_rarp_ok s2 H2) as (s3 & e3 & -> & H3 & R3 & F3). cbn [cbind]. exists s3, (e1 ++ e2 ++ e3). split; [done|]. split; [done|].
  split; [by rewrite R3, R2, R1|]. by rewrite !Forall_app.
Qed.

End handlers.

(** A loader that is ready, for the witnesses. *)
Definition ready : nbt :=
  set_ram (globals [2; 0; 0; 0; 0; 9] ∅) (put_ram ∅ (NETBOOT_BASE + 116) [0; 0; 0; 0]).

Lemma ready_ok : ok_dir ready.
Proof.
  split.
  - split; (split; [reflexivity|]); unfold bytes; apply (bool_decide_eq_true_1 _); vm_compute; reflexivity.
  - intros i Hi. change (is_Some (put_ram ∅ (NETBOOT_BASE + 116) [0; 0; 0; 0] !! (NETBOOT_BASE + 116 + i))). rewrite put_ram_lookup, decide_True by (cbn [length]; lia). apply lookup_lt_is_Some. cbn [length]. lia.
Qed.

(** C19. Whatever frame of at most 1500 bytes the driver hands over, the loader deals with it
  without leaving a buffer, and every buffer keeps its size and holds bytes. A reply that it
  sends over IP has a header whose checksum is valid and acknowledges the block that the
  frame names. *)
Theorem nic_rx_typed (ip_var : list Z) (s : nbt) (f : list Z)
  (Hip : buffer 4 ip_var) (Hs : ok_dir s) (Hf : bytes f) (Hl : (60 <= length f <= 1500)%nat) :
  exists s' evs, nic_rx ip_var s f = Ok (s', evs) /\ ok_dir s' /\
    forall g, Sent g ∈ evs -> slice g 12 2 = [0x08; 0x00] ->
      ipchksum g 14 20 = Ok 0 /\ slice g 42 2 = net16 NETBOOT_CMD_ACK /\ slice g 44 2 = slice f 44 2.
Proof.
  destruct (nic_rx_ok ip_var Hip s f Hs Hf Hl) as (b & s' & evs & F & E & H' & R). exists s', evs. split; [done|]. split; [done|]. intros g Hg Et.
  inversion R as [? _ _ Q|g' blk _ _ Eb _ _ _ _ Es Ea|]; subst; [|apply list_elem_of_singleton in Hg; injection Hg as ->|by apply list_elem_of_singleton in Hg].
  - rewrite Forall_forall in Q. destruct (Q _ Hg) as (g' & [= <-] & N). done.
  - split; [done|]. destruct F as (_ & Ef & _). assert (slice f 44 2 = slice b 44 2) as -> by (rewrite <- Ef; apply slice_take; lia). rewrite Eb.
    assert (forall p n, (p + n <= 4)%nat -> take n (drop p (slice g' 42 4)) = slice g' (42 + Z.of_nat p) n) as Hx.
    { intros p n Hp. unfold slice. rewrite skipn_firstn_comm, drop_drop, take_take. f_equal; [lia|]. f_equal. lia. }
    pose proof (Hx 0%nat 2%nat ltac:(lia)) as X1. pose proof (Hx 2%nat 2%nat ltac:(lia)) as X2. rewrite Ea in X1, X2. split; symmetry; [exact X1|exact X2].
Qed.

Lemma nic_rx_typed_witness :
  buffer 4 [0; 0; 0; 0] /\ exists s' evs, nic_rx [0; 0; 0; 0] ready (replicate 60 0) = Ok (s', evs) /\ ok_dir s'.
Proof.
  assert (buffer 4 [0; 0; 0; 0]) as B by (split; [reflexivity|]; repeat (constructor; [lia|]); constructor). split; [exact B|].
  destruct (nic_rx_typed [0; 0; 0; 0] ready (replicate 60 0) B ready_ok) as (s' & evs & E & H & _).
  - apply Forall_replicate. lia.
  - rewrite length_replicate. lia.
  - exists s', evs. split; [exact E|exact H].
Defined.

End NetRx.
