(* ===== verification/NetKeys.v ===== *)
(** The console of the network boot loader: whatever keys arrive, the line, the parameters
  and the address stay within their buffers, and the memory is not touched. *)
From S2P Require Import Prelude LibC Bytes NetBoot NetBootInv.
Import LibC Bytes NetBoot NetBootInv.
Local Open Scope Z_scope.
Local Open Scope c_scope.

Module NetKeys.

(** ** Strings that end within their buffer *)

(** A buffer of [n] bytes with a 0 at [z]. *)
Record line (n : nat) (z : Z) (m : list Z) : Prop := { ln_buf : buffer n m; ln_end : aget m z = Some 0 }.

Lemma wr_line n z m p v : line n z m -> 0 <= p < z -> exists m', wr m p v = Ok m' /\ line n z m'.
Proof.
  intros [B E] Hp. pose proof E as E'. apply aget_Some in E' as [_ E']. apply lookup_lt_Some in E'. pose proof (bf_len _ _ B).
  destruct (wr_ok n m p v) as (m' & -> & B' & _ & O); [done|lia|]. exists m'. split; [done|]. split; [done|]. rewrite O by lia. done.
Qed.

Lemma line_rd n z m p : line n z m -> 0 <= p <= z -> exists c, rd m p = Ok c /\ byte c /\ (c <> 0 -> p < z) /\ aget m p = Some c.
Proof.
  intros [[L B] E] Hp. pose proof E as E'. apply aget_Some in E' as [_ E']. apply lookup_lt_Some in E'.
  destruct (fits_aget m p 1 0) as [c Ec]; [unfold fits; lia|lia|]. rewrite Z.add_0_r in Ec. exists c. split; [by apply rd_Some|]. split.
  - apply aget_Some in Ec as [_ Ec]. unfold bytes in B. rewrite Forall_lookup in B. by apply (B _ _ Ec).
  - split; [|done]. intros Hc. destruct (decide (p = z)) as [->|]; [congruence|lia].
Qed.

(** From any place before the 0 a string starts. *)
Lemma line_str n z m p : line n z m -> 0 <= p <= z -> exists str, str_at m p str.
Proof.
  intros H Hp. remember (Z.to_nat (z - p)) as k eqn:Ek. revert p Hp Ek. induction k as [|k IH]; intros p Hp Ek.
  - assert (p = z) as -> by lia. exists []. apply H.
  - destruct (line_rd n z m p H Hp) as (c & _ & Hc & Hlt & Ec). destruct (decide (c = 0)) as [->|Hne]; [by exists []|].
    destruct (IH (p + 1)) as [str Hs]; [lia|lia|]. exists (c :: str). unfold byte in Hc. split; [done|]. split; [lia|done].
Qed.

Lemma number_ok n z m fuel : line n z m -> forall p v, 0 <= p <= z -> z - p < Z.of_nat fuel ->
  exists w q c, number m p v fuel = Ok (w, q) /\ p <= q <= z /\ rd m q = Ok c /\ (c <> 0 -> q < z).
Proof.
  intros H. induction fuel as [|fuel IH]; intros p v Hp Hf; [lia|]. cbn [number]. destruct (line_rd n z m p H Hp) as (c & E & _ & Hlt & _). rewrite E. cbn [cbind].
  destruct (decide (c <> 0 /\ c <> 46)) as [[H0 _]|_].
  - destruct (IH (p + 1) (s32 (v * 10 + schar c - 48))) as (w & q & c' & -> & ? & ? & ?); [lia|lia|]. exists w, q, c'. split; [done|]. split; [lia|done].
  - exists v, p, c. split; [done|]. split; [lia|done].
Qed.

Lemma read_ip_ok n z m k : line n z m -> forall s i d, 0 <= s <= z -> buffer 8 i -> 0 <= d -> d + Z.of_nat k <= 8 -> exists i', read_ip m s i d k = Ok i' /\ buffer 8 i'.
Proof.
  intros H. pose proof (ln_end _ _ _ H) as E'. apply aget_Some in E' as [_ E']. apply lookup_lt_Some in E'.
  induction k as [|k IH]; intros s i d Hs B Hd Hk; cbn [read_ip]; [by exists i|].
  destruct (number_ok n z m (S (length m)) H s 0) as (v & q & c & -> & Hq & Ec & Hlt); [lia|lia|]. cbn [cbind].
  destruct (wr_ok 8 i d v B) as (i' & -> & B' & _); [lia|]. cbn [cbind]. rewrite Ec. cbn [cbind]. destruct (decide (c = 0)) as [_|Hc]; [by exists i'|].
  apply IH; [specialize (Hlt Hc); lia|done|lia|lia].
Qed.

(** ** What the console leaves alone *)

Record same (s s' : nbt) : Prop := {
  sm_ram : ram s' = ram s; sm_nbr : nbr s' = nbr s; sm_blah : blah s' = blah s; sm_prom : prom s' = prom s;
  sm_sip : server_ip s' = server_ip s; sm_smac : server_mac s' = server_mac s; sm_got : got_server s' = got_server s }.

#[export] Instance same_preorder : PreOrder same.
Proof. split; [by intros s|]. intros s1 s2 s3 [] []. split; congruence. Qed.

Lemma option_ok s n z m l r : wf s -> line n z m -> 0 <= l <= z -> 0 <= r <= z ->
  exists s', option_ s m l r = Ok s' /\ wf s' /\ same s s' /\ param s' = param s /\ linebuf s' = linebuf s /\ lp s' = lp s.
Proof.
  intros W H Hl Hr. unfold option_. destruct (line_str n z m l H Hl) as [str Hs]. destruct (strcmp_ok m l (cstr "ip" ++ [0]) 0 str (cstr "ip")) as (c & -> & _); [done|done|].
  cbn [cbind]. destruct (decide (c = 0)) as [_|_]; [|by exists s]. destruct (read_ip_ok n z m 4 H r (ip0 s) 3) as (i & -> & B); [done|apply W|lia|lia|].
  eexists. split; [reflexivity|]. split; [destruct W; by split|done].
Qed.

(** The pointers that parse has set in a state. *)
Definition pointers (st : pstate) (lhs rhs : option Z) (p : Z) : Prop :=
  match st with
  | SKIP => True
  | LHS => exists l, lhs = Some l /\ 0 <= l <= p
  | RHS => exists l r, lhs = Some l /\ rhs = Some r /\ 0 <= l <= p /\ 0 <= r <= p
  end.

Lemma parse_loop_ok n z fuel : forall s m p st lhs rhs, wf s -> line n z m -> 0 <= p <= z -> pointers st lhs rhs p -> z - p < Z.of_nat fuel ->
  exists s' m', parse_loop s m p st lhs rhs fuel = Ok (s', m') /\ wf s' /\ line n z m' /\ same s s' /\ param s' = param s /\ lp s' = lp s.
Proof.
  induction fuel as [|fuel IH]; intros s m p st lhs rhs W H Hp Hq Hf; [lia|]. cbn [parse_loop]. destruct (line_rd n z m p H Hp) as (c & -> & _ & Hlt & _). cbn [cbind].
  destruct (decide (c = 0)) as [_|Hc].
  - destruct st; [by exists s, m|by exists s, m|]. destruct Hq as (l & r & -> & -> & Hl & Hr). cbn [deref cbind].
    destruct (option_ok s n z m l r) as (s' & -> & W' & S' & P' & _ & L'); [done|done|lia|lia|]. cbn [cbind]. exists s', m. done.
  - specialize (Hlt Hc). assert (forall s1 m1 st1 l1 r1, wf s1 -> line n z m1 -> same s s1 -> param s1 = param s -> lp s1 = lp s -> pointers st1 l1 r1 (p + 1) ->
      exists s' m', parse_loop s1 m1 (p + 1) st1 l1 r1 fuel = Ok (s', m') /\ wf s' /\ line n z m' /\ same s s' /\ param s' = param s /\ lp s' = lp s) as Hgo.
    { intros s1 m1 st1 l1 r1 W1 H1 S1 P1 L1 Hq1. destruct (IH s1 m1 (p + 1) st1 l1 r1 W1 H1) as (s' & m' & -> & W' & H' & S' & P' & L'); [lia|done|lia|].
      exists s', m'. split; [done|]. split; [done|]. split; [done|]. split; [by transitivity s1|]. split; congruence. }
    clear IH. assert (line n z m /\ exists m', wr m p 0 = Ok m' /\ line n z m') as (_ & m' & Ew & H') by (split; [done|]; by apply wr_line; [|lia]).
    destruct st.
    + cbn zeta. destruct (decide (true = true /\ schar c <= 32)) as [_|_]; [by apply Hgo|].
      destruct (decide (c = 61)) as [_|_]; [rewrite Ew; cbn [cbind]|]; apply Hgo; try done; cbn; [exists p, (p + 1)|exists p]; repeat split; lia.
    + cbn zeta. destruct Hq as (l & -> & Hl). rewrite decide_False by (intros [? _]; done).
      destruct (decide (c = 61)) as [_|_]; [rewrite Ew; cbn [cbind]|]; apply Hgo; try done; cbn; [exists l, (p + 1)|exists l]; repeat split; lia.
    + destruct Hq as (l & r & -> & -> & Hl & Hr). destruct (decide (schar c <= 32)) as [_|_].
      * rewrite Ew. cbn [cbind deref]. destruct (option_ok s n z m' l r) as (s' & -> & W' & S' & P' & _ & L'); [done|done|lia|lia|]. cbn [cbind]. by apply Hgo.
      * apply Hgo; try done. exists l, r. repeat split; lia.
Qed.

(** ** The console *)

Record con (s : nbt) : Prop := { cn_wf : wf s; cn_line : line 80 79 (linebuf s); cn_lp : 9 <= lp s <= 79 }.

Lemma set_line_ok s b l : wf s -> line 80 79 b -> 9 <= l <= 79 -> con (set_line s b l) /\ same s (set_line s b l).
Proof. intros [] H Hl. split; [|done]. split; [split; try done; apply H|done|done]. Qed.

Lemma newline_ok s : wf s -> exists s', newline s = Ok s' /\ con s' /\ same s s'.
Proof.
  intros W. unfold newline. apply (step_store 80); [apply W|cbn; lia|]. intros b1 B1 _. apply (step_store 80); [done|rewrite length_replicate; lia|]. intros b2 B2 _.
  destruct (wr_ok 80 b2 79 0 B2) as (b3 & -> & B3 & E3 & _); [lia|]. cbn [cbind]. eexists. split; [reflexivity|]. apply set_line_ok; [done|by split|lia].
Qed.

Lemma copy_param_ok n z m fuel : line n z m -> forall d p q, buffer 80 d -> 0 <= q <= z -> 0 <= p -> p + (z - q) < 80 -> z - q < Z.of_nat fuel ->
  exists d', copy_param d p m q fuel = Ok d' /\ buffer 80 d'.
Proof.
  intros H. induction fuel as [|fuel IH]; intros d p q B Hq Hp Hd Hf; [lia|]. cbn [copy_param]. destruct (line_rd n z m q H Hq) as (c & -> & _ & Hlt & _). cbn [cbind].
  destruct (decide (c = 0)) as [_|Hc].
  - destruct (wr_ok 80 d p 0 B) as (d' & -> & B' & _); [lia|]. by exists d'.
  - specialize (Hlt Hc). destruct (wr_ok 80 d p c B) as (d' & -> & B' & _); [lia|]. cbn [cbind]. apply IH; [done|lia..].
Qed.

Lemma starts_with_ok m l : forall p, fits m p (length l) -> exists b, starts_with m p l = Ok b.
Proof.
  induction l as [|c l IH]; intros p Hf; cbn [starts_with]; [by eexists|]. cbn [length] in Hf. destruct (fits_aget m p _ 0 Hf) as [x Ex]; [lia|]. rewrite Z.add_0_r in Ex.
  rewrite (rd_Some _ _ _ Ex). cbn [cbind]. destruct (decide (x = c)) as [_|_]; [|by eexists]. apply IH. unfold fits in *. lia.
Qed.

Lemma command_ok s : con s -> exists s' go, command s 9 = Ok (s', go) /\ con s' /\ same s s'.
Proof.
  intros [W H Hl]. pose proof (bf_len _ _ (ln_buf _ _ _ H)) as L. unfold command.
  destruct (starts_with_ok (linebuf s) (cstr "go" ++ [0]) 9) as [go ->]; [split; cbn; lia|]. cbn [cbind]. destruct go; [by exists s, true|].
  destruct (starts_with_ok (linebuf s) (cstr "boot=") 9) as [bo ->]; [split; cbn; lia|]. cbn [cbind]. destruct bo.
  - destruct (copy_param_ok 80 79 (linebuf s) (S (length (linebuf s))) H (param s) 0 (9 + 5)) as (d & -> & B); [apply W|lia..|]. cbn [cbind].
    eexists _, _. split; [reflexivity|]. split; [|done]. split; [destruct W; by split|done|done].
  - unfold parse. destruct (parse_loop_ok 80 79 (S (length (linebuf s))) s (linebuf s) 9 SKIP None None) as (s' & m' & -> & W' & H' & S' & _ & L'); [done|done|lia|done|lia|].
    cbn [cbind]. eexists _, _. split; [reflexivity|]. rewrite L'. destruct (set_line_ok s' m' (lp s) W' H' Hl) as [C S2]. split; [done|]. by transitivity s'.
Qed.

Lemma store_line n z m p l : line n z m -> 0 <= p -> p + Z.of_nat (length l) <= z -> exists m', store m p l = Ok m' /\ line n z m'.
Proof.
  intros H Hp. revert m p H Hp. induction l as [|c l IH]; intros m p H Hp Hz; cbn [store length] in *; [by exists m|].
  destruct (wr_line n z m p c H) as (m1 & -> & H1); [lia|]. cbn [cbind]. apply IH; [done|lia|lia].
Qed.

Lemma keypress_ok s key : con s -> exists s' go, keypress s key = Ok (s', go) /\ con s' /\ same s s'.
Proof.
  intros [W H Hl]. unfold keypress. destruct (decide (key = ESC)) as [_|_].
  { destruct (store_line 80 79 (linebuf s) 9 (replicate 70 32) H) as (b & -> & Hb); [lia|rewrite length_replicate; lia|]. cbn [cbind]. eexists _, _. split; [reflexivity|]. apply set_line_ok; [done|done|lia]. }
  destruct (decide (key = CR)) as [_|_].
  { destruct (wr_ok 80 (linebuf s) (lp s) 0 (ln_buf _ _ _ H)) as (b & -> & B & E & O); [lia|]. cbn [cbind].
    assert (line 80 79 b) as Hb. { split; [done|]. destruct (decide (lp s = 79)) as [E9|E9]; [by rewrite E9 in E|]. rewrite O by lia. apply H. }
    destruct (set_line_ok s b (lp s) W Hb Hl) as [C1 S1]. destruct (command_ok _ C1) as (s' & go & -> & C' & S'). cbn [cbind].
    destruct go; [exists s', true; split; [done|]; split; [done|]; by transitivity (set_line s b (lp s))|].
    destruct (newline_ok s' (cn_wf _ C')) as (s2 & -> & C2 & S2). cbn [cbind]. exists s2, false. split; [done|]. split; [done|]. transitivity s'; [|done]. by transitivity (set_line s b (lp s)). }
  destruct (decide (key = BS)) as [_|_].
  - destruct (decide (9 < lp s)) as [H9|_]; [|by exists s, false]. destruct (wr_line 80 79 (linebuf s) (lp s - 1) 32 H) as (b & -> & Hb); [lia|]. cbn [cbind].
    eexists _, _. split; [reflexivity|]. apply set_line_ok; [done|done|lia].
  - destruct (decide (lp s < 79)) as [H9|_]; [|by exists s, false]. destruct (wr_line 80 79 (linebuf s) (lp s) key H) as (b & -> & Hb); [lia|]. cbn [cbind].
    eexists _, _. split; [reflexivity|]. apply set_line_ok; [done|done|lia].
Qed.

Lemma table_ok (shift : bool) key : 0 <= key < 59 -> exists k, aget (if shift then ShiftTable else ScanTable) key = Some k.
Proof.
  intros Hk. unfold aget. rewrite decide_True by lia. apply lookup_lt_is_Some_2. destruct shift; [change (length ShiftTable) with 59%nat|change (length ScanTable) with 59%nat]; lia.
Qed.

Lemma console_loop_ok keys : forall s shift, con s -> Forall (fun k => 0 <= k < 256) keys -> exists s' go, console_loop s shift keys = Ok (s', go) /\ con s' /\ same s s'.
Proof.
  induction keys as [|key keys IH]; intros s shift C Hk; cbn [console_loop]; [by exists s, false|]. apply Forall_cons in Hk as [Hk Hks].
  destruct (decide _) as [_|_]; [by apply IH|]. destruct (decide _) as [_|_]; [by apply IH|]. destruct (decide _) as [_|_]; [by apply IH|].
  destruct (decide (key < 59)) as [H59|_]; [|by apply IH]. destruct (table_ok shift key) as [k ->]; [lia|]. cbn [deref cbind].
  destruct (keypress_ok s k C) as (s1 & go & -> & C1 & S1). cbn [cbind]. destruct go; [by exists s1, true|].
  destruct (IH s1 shift C1 Hks) as (s' & go & -> & C' & S'). exists s', go. split; [done|]. split; [done|]. by transitivity s1.
Qed.

Lemma console_ok s keys : wf s -> Forall (fun k => 0 <= k < 256) keys -> exists s' go, console s keys = Ok (s', go) /\ con s' /\ same s s'.
Proof.
  intros W Hk. unfold console. destruct (newline_ok s W) as (s1 & -> & C1 & S1). cbn [cbind]. destruct (console_loop_ok keys s1 false C1 Hk) as (s' & go & -> & C' & S').
  exists s', go. split; [done|]. split; [done|]. by transitivity s1.
Qed.

(** Whatever keys are pressed, the console of the loader ends or waits for more: it never
  leaves a buffer, the cursor stays between the prompt and the end of the line, the line
  stays terminated, and the memory, the reply and the server are as before. *)
Theorem console_in_bounds (s : nbt) (keys : list Z) (Hs : wf s) (Hk : Forall (fun k => 0 <= k < 256) keys) :
  exists s' go, console s keys = Ok (s', go) /\ wf s' /\ 9 <= lp s' <= 79 /\ aget (linebuf s') 79 = Some 0 /\ same s s'.
Proof.
  destruct (console_ok s keys Hs Hk) as (s' & go & E & [W [_ Hl] Hp] & S). exists s', go. done.
Qed.

Lemma globals_wf mac m : buffer 6 mac -> wf (globals mac m).
Proof.
  intros [Lm Bm]. assert (forall n, bytes (replicate n 0)) as Bz by (intros n; apply Forall_replicate; lia).
  split; cbn [globals blah param prom ip0 server_ip server_mac nbr linebuf]; try (split; [by rewrite length_replicate|apply Bz]).
  - split; [by rewrite length_app, length_replicate, Lm|apply Forall_app; split; [done|apply Bz]].
  - split; [done|]. unfold bytes. apply (bool_decide_eq_true_1 _). vm_compute. reflexivity.
Qed.

Lemma console_in_bounds_witness : exists s' go,
  console (globals [2; 0; 0; 0; 0; 9] ∅) (replicate 100 30 ++ [14; 28; 23; 25; 13; 6; 28; 34; 24; 28]) = Ok (s', go) /\ 9 <= lp s' <= 79.
Proof.
  destruct (console_in_bounds (globals [2; 0; 0; 0; 0; 9] ∅) (replicate 100 30 ++ [14; 28; 23; 25; 13; 6; 28; 34; 24; 28])) as (s' & go & E & _ & H & _).
  - apply globals_wf. split; [reflexivity|]. repeat (constructor; [lia|]). constructor.
  - apply Forall_app. split; [apply Forall_replicate; lia|]. repeat (constructor; [lia|]). constructor.
  - exists s', go. split; [exact E|exact H].
Defined.

(** The keys "ip=5" and Enter set the first part of the address; "go" leaves the console. *)
Example console_ip : exists s, console (globals [2; 0; 0; 0; 0; 9] ∅) [23; 25; 13; 6; 28; 34; 24; 28] = Ok (s, true) /\ aget (ip0 s) 3 = Some 5.
Proof. eexists. split; [vm_compute; reflexivity|reflexivity]. Qed.

End NetKeys.
