(* ===== verification/NetLoad.v ===== *)
(** The network boot: the program on the server and the loader together, over a network that
  loses, repeats, delays and reorders what they send, and that carries other traffic. When
  the loader starts the image, the file is in its memory, byte for byte; and the load goes
  on in spite of losses, block by block. *)
From S2P Require Import Prelude LibC Bytes NetBoot NetBootInv NetRx NetKeys.
Import LibC Bytes NetBoot NetBootInv NetRx NetKeys.
Local Open Scope Z_scope.
Local Open Scope c_scope.

Module NetLoad.

(** ** The network *)

(** The frame [f] carries the datagram [d] to the port of the loader. *)
Record encaps (f d : list Z) : Prop := {
  en_bytes : bytes f;
  en_len : (60 <= length f <= 1500)%nat;
  en_type : slice f 12 2 = [0x08; 0x00];
  en_proto : slice f 23 1 = [17];
  en_port : slice f 36 2 = net16 NETBOOT_PORT;
  en_fits : (42 + length d <= length f)%nat;
  en_data : slice f 42 (length d) = d }.

(** Other traffic: any frame that is not a command for the loader. *)
Record foreign (f : list Z) : Prop := {
  fo_bytes : bytes f;
  fo_len : (60 <= length f <= 1500)%nat;
  fo_load : ~ boot_pkt f NETBOOT_CMD_LOAD;
  fo_exec : ~ boot_pkt f NETBOOT_CMD_EXEC }.

(** What the server may receive: the four bytes of a reply, or another datagram that is no
  acknowledgement. *)
Definition heard (fs : list (list Z)) (a : answer) : Prop :=
  match a with
  | Timeout | RecvError => True
  | Message d =>
      (exists f, (f ∈ fs) /\ slice f 12 2 = [0x08; 0x00] /\ slice f 23 1 = [17] /\ d = slice f 42 4)
      \/ ((2 <= length d)%nat /\ take 2 d <> net16 NETBOOT_CMD_ACK)
  end.

(** What was sent may arrive at any later time, more than once, or never; [w_run] is the start
  of the image.  (Who loses what is fixed in the rounds below.) *)
Record world := World { w_host : host; w_tgt : nbt; w_dgrams : list (list Z); w_frames : list (list Z); w_run : option (Z * list Z) }.

Definition sent (evs : list event) : list (list Z) := omap (fun e => match e with Sent f => Some f | _ => None end) evs.
Definition started (evs : list event) : option (Z * list Z) := head (omap (fun e => match e with Started a p => Some (a, p) | _ => None end) evs).

Ltac proj := cbn [w_host w_tgt w_dgrams w_frames w_run h_rest h_i h_nb h_nbr h_done] in *.

(** The start of the loader. *)
Lemma main_ok mac m : buffer 6 mac -> has_dir m -> exists t evs, main mac m = Ok (t, evs) /\ ok_dir t /\ Forall not_ip evs.
Proof.
  intros Bm D. pose proof (globals_wf mac m Bm) as W.
  unfold main. destruct (wr_ok 80 (param (globals mac m)) 0 0) as (p & -> & Bp & _); [apply W|lia|]. cbn [cbind].
  assert (wf (set_param (globals mac m) p)) as W1 by (destruct W; by split). assert (line 11 10 (cstr "ip=0.0.0.0" ++ [0])) as Hl.
  { split; [|done]. split; [done|]. unfold bytes. apply (bool_decide_eq_true_1 _). vm_compute. reflexivity. }
  unfold parse. destruct (parse_loop_ok 11 10 12 (set_param (globals mac m) p) (cstr "ip=0.0.0.0" ++ [0]) 0 SKIP None None W1 Hl) as (s' & m' & E & W' & _ & S' & _); [lia|done|lia|].
  change (S (length (cstr "ip=0.0.0.0" ++ [0]))) with 12%nat. rewrite E. cbn [cbind]. apply (step_store 8); [apply W'|cbn; lia|]. intros i Bi _.
  destruct (restart_ok (set_ip s' i "(default)")) as (t & evs & -> & T & _ & F); [|by exists t, evs]. split; [destruct W'; by split|]. change (has_dir (ram s')). rewrite (sm_ram _ _ S'). done.
Qed.

Section system.
Variable ip_var : list Z.
Hypothesis Hip : buffer 4 ip_var.

Inductive step : world -> world -> Prop :=
| host_step h t ds fs a h' d : h_done h = false -> heard fs a -> host_wait h a = (h', d) ->
    step (World h t ds fs None) (World h' t (d :: ds) fs None)
| rx_step h t ds fs f t' evs : (exists d, (d ∈ ds) /\ encaps f d) \/ foreign f -> nic_rx ip_var t f = Ok (t', evs) ->
    step (World h t ds fs None) (World h t' ds (sent evs ++ fs) (started evs))
| key_step h t ds fs keys t' go : Forall (fun k => 0 <= k < 256) keys -> console t keys = Ok (t', go) ->
    step (World h t ds fs None) (World h t' ds fs None)
| restart_step h t ds fs t' evs : restart t = Ok (t', evs) ->
    step (World h t ds fs None) (World h t' ds (sent evs ++ fs) None).

(** The start: the loader is up, the server sends the first message. *)
Inductive init (file : list Z) : world -> Prop :=
| init_world nb nbr mac m h d t evs : buffer sizeof_net_boot nb -> length nbr = sizeof_net_boot -> buffer 6 mac -> has_dir m ->
    host_main file nb nbr = (h, d) -> main mac m = Ok (t, evs) -> init file (World h t [d] (sent evs) None).

Definition reachable (file : list Z) (w : world) : Prop := exists w0, init file w0 /\ rtc step w0 w.

(** ** The invariant *)

Section file.
Variable file : list Z.
Hypothesis Hsize : Z.of_nat (length file) <= 2 ^ 26.
Hypothesis Hbytes : bytes file.

(** Block [i] of the file, in a message and in the memory. *)
Record load_msg (i : Z) (d : list Z) : Prop := {
  lm_range : 0 <= i < 65536;
  lm_len : length d = 1028%nat;
  lm_bytes : bytes d;
  lm_head : take 4 d = net16 NETBOOT_CMD_LOAD ++ net16 i;
  lm_data : forall j c, (j < 1024)%nat -> file !! (1024 * Z.to_nat i + j)%nat = Some c -> d !! (4 + j)%nat = Some c }.
Definition exec_msg : list Z := net16 NETBOOT_CMD_EXEC ++ net16 0.

Definition in_ram (m : gmap Z Z) (i : Z) : Prop :=
  forall j c, (j < 1024)%nat -> file !! (1024 * Z.to_nat i + j)%nat = Some c -> m !! (NETBOOT_BASE + 1024 * i + Z.of_nat j) = Some c.
Definition all_in_ram (m : gmap Z Z) : Prop := forall i, 0 <= i -> in_ram m i.

Record host_inv (h : host) : Prop := {
  hi_i : 0 <= h_i h;
  hi_nb : buffer 1028 (h_nb h);
  hi_nbr : length (h_nbr h) = 1028%nat;
  hi_wait : h_done h = false -> load_msg (h_i h) (h_nb h) /\ h_rest h = drop (1024 * (Z.to_nat (h_i h) + 1)) file /\ 1024 * h_i h < Z.of_nat (length file);
  hi_done : h_done h = true -> Z.of_nat (length file) <= 1024 * h_i h }.

(** A message that the server may have sent. *)
Definition good_msg (m : gmap Z Z) (d : list Z) : Prop := (exists i, load_msg i d) \/ (d = exec_msg /\ all_in_ram m).
(** A frame that the loader may have sent: a reply acknowledges a block that is in memory. *)
Definition good_frame (m : gmap Z Z) (f : list Z) : Prop :=
  slice f 12 2 = [0x08; 0x00] -> exists i, 0 <= i < 65536 /\ slice f 42 4 = net16 NETBOOT_CMD_ACK ++ net16 i /\ in_ram m i.
Definition good_start (m : gmap Z Z) (r : Z * list Z) : Prop :=
  all_in_ram m /\ exists v, ram32 m (NETBOOT_BASE + 64 + 52) = Ok v /\ r.1 = u32 (v + 0x1000 + NETBOOT_BASE).

Record inv (w : world) : Prop := {
  iv_tgt : ok_dir (w_tgt w);
  iv_host : host_inv (w_host w);
  iv_msgs : Forall (good_msg (ram (w_tgt w))) (w_dgrams w);
  iv_last : h_done (w_host w) = false -> h_nb (w_host w) ∈ w_dgrams w;
  iv_exec : h_done (w_host w) = true -> exec_msg ∈ w_dgrams w;
  iv_blocks : forall i, 0 <= i < h_i (w_host w) -> in_ram (ram (w_tgt w)) i;
  iv_frames : Forall (good_frame (ram (w_tgt w))) (w_frames w);
  iv_run : forall r, w_run w = Some r -> good_start (ram (w_tgt w)) r }.

Lemma net16_bytes x : bytes (net16 x).
Proof. constructor; [apply u8_range|constructor; [apply u8_range|constructor]]. Qed.

(** The next message of the server. *)
Lemma host_next_ok h : 0 <= h_i h -> buffer 1028 (h_nb h) -> length (h_nbr h) = 1028%nat -> h_rest h = drop (1024 * Z.to_nat (h_i h)) file ->
  exists h' d, host_next h = (h', d) /\ host_inv h' /\ h_i h' = h_i h /\ ((h_done h' = false /\ d = h_nb h') \/ (h_done h' = true /\ d = exec_msg)).
Proof.
  intros Hi [Ln Bn] Lr Hr. unfold host_next. rewrite Hr. destruct (take 1024 (drop (1024 * Z.to_nat (h_i h)) file)) as [|x l] eqn:E.
  - eexists _, _. split; [reflexivity|]. assert (Z.of_nat (length file) <= 1024 * h_i h).
    { apply (f_equal length) in E. rewrite length_take, length_drop in E. cbn [length] in E. lia. }
    split; [|split; [done|]; right; by split]. split; proj; try done. split; [rewrite !length_app, length_drop; cbn [net16 length]; lia|]. apply Forall_app; split; [apply net16_bytes|]; apply Forall_app; split; [apply net16_bytes|by apply Forall_drop].
  - assert (1024 * h_i h < Z.of_nat (length file) /\ (1 <= length (x :: l) <= 1024)%nat) as [Hlt Hl].
    { rewrite <- E, length_take, length_drop. apply (f_equal length) in E. rewrite length_take, length_drop in E. cbn [length] in E. lia. }
    rewrite <- E in Hl |- *. clear E x l. set (l := take 1024 _) in *. eexists _, _. split; [reflexivity|]. split; [|split; [done|]; left; by split].
    assert (length (net16 NETBOOT_CMD_LOAD ++ net16 (h_i h) ++ l ++ drop (4 + length l) (h_nb h)) = 1028%nat) as Lm by (rewrite !length_app, length_drop; cbn [net16 length]; lia).
    assert (bytes (net16 NETBOOT_CMD_LOAD ++ net16 (h_i h) ++ l ++ drop (4 + length l) (h_nb h))) as Bm.
    { apply Forall_app; split; [apply net16_bytes|]. apply Forall_app; split; [apply net16_bytes|]. apply Forall_app; split; [by apply Forall_take, Forall_drop|by apply Forall_drop]. }
    split; proj; [done|by split|done| |done]. intros _. split; [|split; [rewrite drop_drop; f_equal; lia|done]]. split; [lia|done|done|done|].
    intros k c Hk Hc. assert (l !! k = Some c) as Ek by (unfold l; by rewrite lookup_take_lt, lookup_drop by lia). change ((l ++ drop (4 + length l) (h_nb h)) !! k = Some c). rewrite lookup_app_l; [done|]. by eapply lookup_lt_Some.
Qed.

(** A block that is loaded stays loaded: the messages agree on what belongs in it. *)
Lemma slice_lookup m p n j : (j < n)%nat -> slice m p n !! j = m !! (Z.to_nat p + j)%nat.
Proof. intros H. unfold slice. by rewrite lookup_take_lt, lookup_drop. Qed.

Lemma load_ram m k d x j c : load_msg k d -> (j < 1024)%nat -> x = load_addr k + Z.of_nat j -> file !! (1024 * Z.to_nat k + j)%nat = Some c ->
  put_ram m (load_addr k) (slice d 4 1024) !! x = Some c.
Proof.
  intros [Hk Ld _ _ Hd] Hj -> Hc. rewrite put_ram_lookup, length_slice by (unfold fits; lia). rewrite decide_True by lia. rewrite slice_lookup by lia.
  replace (Z.to_nat (load_addr k + Z.of_nat j - load_addr k)) with j by lia. by apply Hd.
Qed.

Lemma in_ram_new m k d : load_msg k d -> in_ram (put_ram m (load_addr k) (slice d 4 1024)) k.
Proof. intros H j c Hj Hc. apply (load_ram m k d _ j); [done|done| |done]. unfold load_addr. lia. Qed.

Lemma in_ram_put m i k d : 0 <= i -> in_ram m i -> load_msg k d -> in_ram (put_ram m (load_addr k) (slice d 4 1024)) i.
Proof.
  intros Hi H L j c Hj Hc. destruct (decide (i = k)) as [->|Hne]; [by apply (in_ram_new m k d L)|]. destruct L as [Hk Ld _ _ _].
  rewrite put_ram_lookup, length_slice by (unfold fits; lia). rewrite decide_False by (unfold load_addr; lia). by apply H.
Qed.

(** [grows m m']: no block is lost. *)
Definition grows (m m' : gmap Z Z) : Prop := forall i, 0 <= i -> in_ram m i -> in_ram m' i.

Lemma good_msg_grows m m' d : grows m m' -> good_msg m d -> good_msg m' d.
Proof. intros G [H|[-> H]]; [by left|right]. split; [done|]. intros i Hi. by apply G, H. Qed.

Lemma good_frame_grows m m' f : grows m m' -> good_frame m f -> good_frame m' f.
Proof. intros G H E. destruct (H E) as (i & Hi & Ef & Hr). exists i. split; [done|]. split; [done|]. apply G; [lia|done]. Qed.

Lemma inv_grows h t ds fs t' : inv (World h t ds fs None) -> ok_dir t' -> grows (ram t) (ram t') -> inv (World h t' ds fs None).
Proof.
  intros [I1 I2 I3 I4 I5 I6 I7 _] T G. proj. split; proj; try done.
  - eapply Forall_impl; [exact I3|]. intros d. by apply good_msg_grows.
  - intros i Hi. apply G; [lia|]. by apply I6.
  - eapply Forall_impl; [exact I7|]. intros f. by apply good_frame_grows.
Qed.

Lemma inv_frames h t ds fs fs' : inv (World h t ds fs None) -> Forall (good_frame (ram t)) fs' -> inv (World h t ds (fs' ++ fs) None).
Proof. intros [] F. split; proj; try done. by apply Forall_app. Qed.

Lemma not_ip_good m evs : Forall not_ip evs -> Forall (good_frame m) (sent evs) /\ started evs = None.
Proof.
  induction 1 as [|e evs (f & -> & N) _ [IH1 IH2]]; [done|]. cbn. split; [|exact IH2]. constructor; [|exact IH1]. intros E. by destruct N.
Qed.

(** What the server does with an answer. *)
Lemma host_wait_ok h t ds fs a : inv (World h t ds fs None) -> h_done h = false -> heard fs a ->
  exists h' d, host_wait h a = (h', d) /\ inv (World h' t (d :: ds) fs None).
Proof.
  intros I Hd Ha. pose proof I as [I1 [J1 J2 J3 J4 J5] I3 I4 I5 I6 I7 _]. proj. destruct (J4 Hd) as (Lm & Hr & _).
  assert (forall nbr, length nbr = 1028%nat -> inv (World (Host (h_rest h) (h_i h) (h_nb h) nbr (h_done h)) t (h_nb h :: ds) fs None)) as Hagain.
  { intros nbr Ln. split; proj; [done|by split|by constructor; [left; exists (h_i h)|]|intros; by left|rewrite Hd; done|done|done|done]. }
  assert (exists h' d, (h, h_nb h) = (h', d) /\ inv (World h' t (d :: ds) fs None)) as Hsame.
  { exists h, (h_nb h). split; [done|]. destruct h. by apply Hagain. }
  destruct a as [| |d]; cbn [host_wait]; [done|done|]. set (nbr' := take sizeof_net_boot d ++ _). proj.
  assert (length nbr' = 1028%nat) as Ln'. { unfold nbr', sizeof_net_boot. rewrite length_app, length_drop, length_take. lia. }
  destruct (decide (take 2 nbr' <> net16 NETBOOT_CMD_ACK)) as [_|H1%dec_stable]; [eexists _, _; split; [reflexivity|]; by apply Hagain|].
  destruct (decide (take 2 (drop 2 nbr') <> take 2 (drop 2 (h_nb h)))) as [_|H2%dec_stable]; [eexists _, _; split; [reflexivity|]; by apply Hagain|].
  clear Hagain Hsame. destruct Ha as [(f & Hf & Et & _ & ->)|[Hl Hn]].
  2:{ destruct Hn. rewrite <- H1. unfold nbr', sizeof_net_boot. rewrite take_app_le by (rewrite length_take; lia). by rewrite take_take. }
  rewrite Forall_forall in I7. destruct (I7 f Hf Et) as (i & Hi & Ef & Hin). assert (i = h_i h) as ->.
  { apply net16_inj; [done|apply Lm|]. unfold nbr' in H2. rewrite Ef in H2. change (net16 i = take 2 (drop 2 (h_nb h))) in H2. rewrite H2. pose proof (lm_head _ _ Lm) as Eh.
    transitivity (drop 2 (take 4 (h_nb h))); [by rewrite skipn_firstn_comm|by rewrite Eh]. }
  destruct (host_next_ok (Host (h_rest h) (h_i h + 1) (h_nb h) nbr' (h_done h))) as (h' & d' & -> & Hh & Ei & Hcase); proj; [lia|done|done|rewrite Hr; f_equal; lia|].
  exists h', d'. split; [done|]. assert (forall k, 0 <= k < h_i h' -> in_ram (ram t) k) as Hb.
  { intros k Hk. destruct (decide (k = h_i h)) as [->|]; [done|]. apply I6. lia. }
  split; proj; [done|done| | | |done|by rewrite Forall_forall|done].
  - constructor; [|done]. destruct Hcase as [[Hn ->]|[Hn ->]]; [left; eexists; by apply Hh|right]. split; [done|]. intros k Hk. destruct (decide (k < h_i h')) as [?|?]; [by apply Hb|].
    intros j c Hj Hc. apply lookup_lt_Some in Hc. pose proof (hi_done _ Hh Hn). lia.
  - intros Hn. destruct Hcase as [[_ ->]|[Hx _]]; [by left|congruence].
  - intros Hn. destruct Hcase as [[Hx _]|[_ ->]]; [congruence|by left].
Qed.

(** What the loader does with a frame. *)
Lemma filled_slice s f b p n : filled s f b -> 0 <= p -> p + Z.of_nat n <= Z.of_nat (length f) -> slice b p n = slice f p n.
Proof. intros (_ & E & _) Hp Hn. rewrite <- E. by rewrite slice_take by lia. Qed.

Lemma filled_pkt s f b cmd : filled s f b -> (60 <= length f)%nat -> boot_pkt b cmd <-> boot_pkt f cmd.
Proof.
  intros F L. assert (forall p n, 0 <= p -> p + Z.of_nat n <= 60 -> slice b p n = slice f p n) as E by (intros; eapply filled_slice; [done|lia|lia]).
  split; intros [P1 P2 P3 P4]; (split; [rewrite <- P1|rewrite <- P2|rewrite <- P3|rewrite <- P4]); rewrite E by lia; done.
Qed.

Lemma encaps_slice f d p n : encaps f d -> 42 <= p -> p + Z.of_nat n <= 42 + Z.of_nat (length d) -> slice f p n = slice d (p - 42) n.
Proof.
  intros [_ _ _ _ _ L E] Hp Hn. replace (slice d (p - 42) n) with (slice (slice f 42 (length d)) (p - 42) n) by (by rewrite E).
  replace p with (42 + Z.of_nat (Z.to_nat (p - 42))) at 1 by lia. rewrite (slice_in f 42 (length d)) by (unfold fits; lia). done.
Qed.

Lemma load_msg_head i d : load_msg i d -> slice d 0 2 = net16 NETBOOT_CMD_LOAD /\ slice d 2 2 = net16 i.
Proof.
  intros [_ _ _ H _]. assert (forall p n, 0 <= p -> p + Z.of_nat n <= 4 -> slice d p n = slice (net16 NETBOOT_CMD_LOAD ++ net16 i) p n) as E.
  { intros p n Hp Hn. rewrite <- H. by rewrite slice_take by lia. }
  by rewrite !E by lia.
Qed.

(** A command that arrives was sent by the server. *)
Lemma pkt_msg h t ds fs f b cmd : inv (World h t ds fs None) -> (exists d, (d ∈ ds) /\ encaps f d) \/ foreign f -> filled t f b -> (60 <= length f)%nat ->
  cmd = NETBOOT_CMD_LOAD \/ cmd = NETBOOT_CMD_EXEC -> boot_pkt b cmd ->
  (cmd = NETBOOT_CMD_LOAD /\ exists i d, load_msg i d /\ slice b 44 2 = net16 i /\ slice b 46 1024 = slice d 4 1024) \/ (cmd = NETBOOT_CMD_EXEC /\ all_in_ram (ram t)).
Proof.
  intros I Hf F L Hc P. pose proof (iv_msgs _ I) as Hm. proj. rewrite Forall_forall in Hm. apply (filled_pkt _ _ _ _ F L) in P.
  destruct Hf as [(d & Hd & En)|[_ _ F1 F2]]; [|destruct Hc as [-> | ->]; [by destruct F1|by destruct F2]].
  pose proof (bp_cmd _ _ P) as Ec. pose proof (en_fits _ _ En) as Lf. pose proof (en_len _ _ En) as Lf'. destruct (Hm d Hd) as [[i Lm]|[-> Hall]].
  - pose proof (lm_len _ _ Lm) as Ld. destruct (load_msg_head i d Lm) as [H1 H2]. left.
    rewrite (encaps_slice f d) in Ec by (done || lia). change (42 - 42) with 0 in Ec. rewrite H1 in Ec. split; [destruct Hc as [-> | ->]; [done|discriminate]|].
    exists i, d. split; [done|]. rewrite !(filled_slice t f b) by (done || lia). rewrite !(encaps_slice f d) by (done || lia). done.
  - right. change (length exec_msg) with 4%nat in *. rewrite (encaps_slice f exec_msg) in Ec by (done || (change (length exec_msg) with 4%nat; lia)). split; [|done]. destruct Hc as [-> | ->]; [discriminate|done].
Qed.

Lemma rx_step_ok h t ds fs f : inv (World h t ds fs None) -> (exists d, (d ∈ ds) /\ encaps f d) \/ foreign f ->
  exists t' evs, nic_rx ip_var t f = Ok (t', evs) /\ inv (World h t' ds (sent evs ++ fs) (started evs)).
Proof.
  intros I Hf. pose proof (iv_tgt _ I) as T. pose proof (iv_msgs _ I) as Hm. proj. rewrite Forall_forall in Hm.
  assert (bytes f /\ (60 <= length f <= 1500)%nat) as [Bf Lf] by (destruct Hf as [(d & _ & [])|[]]; done).
  destruct (nic_rx_ok ip_var Hip t f T Bf Lf) as (b & t' & evs & F & E & T' & R). exists t', evs. split; [done|]. clear E.
  inversion R as [? _ Er Q|g blk P Hblk Eb Er _ Eg _ _ Ea|v arg P Er Ev]; subst.
  - destruct (not_ip_good (ram t') evs Q) as [Hg ->]. apply inv_frames; [|done]. apply (inv_grows h t); [done|done|]. rewrite Er. by intros ?.
  - destruct (pkt_msg h t ds fs f b NETBOOT_CMD_LOAD I Hf F ltac:(lia) ltac:(by left) P) as [(_ & i & d & Lm & Ei & Ed)|[? _]]; [|discriminate].
    assert (blk = i) as -> by (apply net16_inj; [done|apply Lm|congruence]). rewrite Ed in Er. apply (inv_frames h t' ds fs [g]).
    + apply (inv_grows h t); [done|done|]. rewrite Er. intros k Hk Hin. by apply in_ram_put.
    + constructor; [|constructor]. intros _. exists i. split; [done|]. split; [done|]. rewrite Er. by apply in_ram_new.
  - destruct (pkt_msg h t ds fs f b NETBOOT_CMD_EXEC I Hf F ltac:(lia) ltac:(by right) P) as [[? _]|[_ Hall]]; [discriminate|].
    destruct (inv_grows h t ds fs t' I T' ltac:(rewrite Er; by intros ?)) as [J1 J2 J3 J4 J5 J6 J7 _]. split; proj; try done. intros r [= <-]. rewrite Er. split; [done|]. by exists v.
Qed.

Lemma inv_step w w' : inv w -> step w w' -> inv w'.
Proof.
  intros I H. destruct H as [h t ds fs a h' d Hd Ha E|h t ds fs f t' evs Hf E|h t ds fs keys t' go Hk E|h t ds fs t' evs E].
  - destruct (host_wait_ok h t ds fs a I Hd Ha) as (h1 & d1 & E1 & I1). rewrite E in E1. by injection E1 as -> ->.
  - destruct (rx_step_ok h t ds fs f I Hf) as (t1 & e1 & E1 & I1). rewrite E in E1. by injection E1 as -> ->.
  - pose proof (iv_tgt _ I) as [W D]. proj. destruct (console_ok t keys W Hk) as (t1 & g1 & E1 & C & S). rewrite E in E1. injection E1 as -> ->.
    apply (inv_grows h t); [done|split; [apply C|by rewrite (sm_ram _ _ S)]|]. rewrite (sm_ram _ _ S). by intros ?.
  - pose proof (iv_tgt _ I) as T. proj. destruct (restart_ok t T) as (t1 & e1 & E1 & T1 & R1 & F1). rewrite E in E1. injection E1 as -> ->.
    apply inv_frames; [|by apply not_ip_good]. apply (inv_grows h t); [done|done|]. rewrite R1. by intros ?.
Qed.

Lemma inv_init w : init file w -> inv w.
Proof.
  intros [nb nbr mac m h d t evs Ln Lr Bm D Eh Em]. destruct (main_ok mac m Bm D) as (t1 & e1 & E1 & T & F). rewrite Em in E1. injection E1 as -> ->.
  destruct (host_next_ok (Host file 0 nb nbr false)) as (h1 & d1 & E1 & Hh & Hi & Hc); [done|done|done|done|]. unfold host_main in Eh. rewrite Eh in E1. injection E1 as -> ->.
  proj. split; proj; [done|done| | | |lia|by apply not_ip_good|done].
  - constructor; [|constructor]. destruct Hc as [[Hn ->]|[Hn ->]]; [left; eexists; by apply Hh|right]. split; [done|]. intros i Hi0 j c Hj Hx. apply lookup_lt_Some in Hx. pose proof (hi_done _ Hh Hn). lia.
  - intros Hn. destruct Hc as [[_ ->]|[Hx _]]; [by left|congruence].
  - intros Hn. destruct Hc as [[Hx _]|[_ ->]]; [congruence|by left].
Qed.

Lemma inv_rtc w w' : inv w -> rtc step w w' -> inv w'.
Proof. intros I S. induction S as [w|w w1 w2 S1 _ IH]; [done|]. apply IH. by eapply inv_step. Qed.

Lemma reachable_inv w : reachable file w -> inv w.
Proof. intros (w0 & H0 & H). exact (inv_rtc w0 w (inv_init w0 H0) H). Qed.

(** A byte of the file is in its block. *)
Lemma all_bytes m j c : all_in_ram m -> file !! j = Some c -> m !! (NETBOOT_BASE + Z.of_nat j) = Some c.
Proof.
  intros H Hj. set (i := (j / 1024)%nat). set (k := (j mod 1024)%nat). assert (j = (1024 * i + k)%nat /\ (k < 1024)%nat) as [E Hk].
  { unfold i, k. split; [apply Nat.div_mod_eq|apply Nat.mod_upper_bound; lia]. }
  specialize (H (Z.of_nat i) ltac:(lia) k c Hk). rewrite Nat2Z.id, <- E in H. rewrite <- H by done. f_equal. lia.
Qed.

(** ** Progress *)

(** A frame that brings the datagram [d] to the loader [t]. *)
Definition wrap (t : nbt) (d : list Z) : list Z :=
  let h1 := [0x45; 0; 0; 0; 0; 0; 0; 0; 64; 17] in
  let h2 := replicate 4 0 ++ slice (ip0 t) 3 4 in
  let c := 0xFFFF - csum (h1 ++ [0; 0] ++ h2) 0 in
  replicate 12 0 ++ [0x08; 0x00] ++ h1 ++ [u8 c; u8 (Z.shiftr c 8)] ++ h2 ++ net16 NETBOOT_PORT ++ net16 NETBOOT_PORT ++ replicate 4 0 ++ d ++ replicate 18 0.

Lemma wrap_ok t d : ok_dir t -> bytes d -> (4 <= length d <= 1028)%nat -> encaps (wrap t d) d /\ slice (wrap t d) 30 4 = slice (ip0 t) 3 4 /\ ipchksum (wrap t d) 14 20 = Ok 0.
Proof.
  intros [W _] Bd Ld. destruct (slice_buffer 8 (ip0 t) 3 4 (wf_ip0 _ W)) as [Li Bi]; [lia|lia|]. unfold wrap. cbn zeta.
  set (h1 := [0x45; 0; 0; 0; 0; 0; 0; 0; 64; 17]). set (h2 := replicate 4 0 ++ slice (ip0 t) 3 4). set (c := 0xFFFF - csum (h1 ++ [0; 0] ++ h2) 0).
  assert (bytes (h1 ++ h2)) as Bh. { apply Forall_app. split; [unfold bytes; apply (bool_decide_eq_true_1 _); reflexivity|]. apply Forall_app. split; [apply Forall_replicate; lia|done]. }
  pose proof (checksum_verifies h1 h2 c Bh ltac:(by exists 5%nat) ltac:(done) eq_refl) as Hsum. clearbody c. unfold h2 in *. clear h2.
  destruct (slice (ip0 t) 3 4) as [|i0 [|i1 [|i2 [|i3 [|]]]]]; try discriminate Li. set (f := replicate 12 0 ++ _). assert (bytes f) as Bf.
  { apply Forall_app in Bh as [B1 B2]. assert (forall n, bytes (replicate n 0)) as Bz by (intros n; apply Forall_replicate; lia).
    assert (bytes [0x08; 0x00]) as B8 by (constructor; [lia|constructor; [lia|constructor]]). assert (bytes [u8 c; u8 (Z.shiftr c 8)]) as Bc by (constructor; [apply u8_range|constructor; [apply u8_range|constructor]]).
    repeat (apply Forall_app; split); [apply Bz|exact B8|exact B1|exact Bc|apply Bz|exact Bi|apply net16_bytes|apply net16_bytes|apply Bz|exact Bd|apply Bz]. }
  assert (length f = 60 + length d)%nat as Lf. { unfold f. rewrite !length_app, !length_replicate. cbn [length net16 h1]. lia. }
  split; [|split; [reflexivity|]].
  - split; [exact Bf|lia|reflexivity|reflexivity|reflexivity|lia|]. change (slice f 42 (length d)) with (take (length d) (d ++ replicate 18 0)). by rewrite take_app_length.
  - assert (fits f 14 20) as Hf by (split; lia). rewrite (ipchksum_hdr f Bf Hf). change (slice f 14 20) with (h1 ++ [u8 c; u8 (Z.shiftr c 8)] ++ replicate 4 0 ++ [i0; i1; i2; i3]). by rewrite Hsum.
Qed.

(** The datagram [d] arrives at the loader [t] in a frame with its address and a valid header. *)
Definition delivers (t : nbt) (d : list Z) (t' : nbt) (evs : list event) : Prop :=
  exists f, encaps f d /\ slice f 30 4 = slice (ip0 t) 3 4 /\ ipchksum f 14 20 = Ok 0 /\ nic_rx ip_var t f = Ok (t', evs).

(** A command of the server that arrives is obeyed. *)
Lemma delivered h t ds fs d cmd t' evs : inv (World h t ds fs None) -> d ∈ ds -> (4 <= length d)%nat -> slice d 0 2 = net16 cmd ->
  cmd = NETBOOT_CMD_LOAD \/ cmd = NETBOOT_CMD_EXEC -> delivers t d t' evs ->
  step (World h t ds fs None) (World h t' ds (sent evs ++ fs) (started evs)) /\ exists b, slice b 44 2 = slice d 2 2 /\ boot_pkt b cmd /\ accepted t b /\ rx b t t' evs.
Proof.
  intros I Hd Ld Ec Hc (f & En & Ei & Es & E). pose proof (iv_tgt _ I) as T. proj.
  pose proof (en_len _ _ En) as Lw. pose proof (en_fits _ _ En) as Lf. destruct (nic_rx_ok ip_var Hip t f T (en_bytes _ _ En) Lw) as (b & t1 & e1 & F & E1 & T' & R). rewrite E in E1. injection E1 as <- <-.
  split; [eapply rx_step; [left; by exists d|done]|]. exists b. split; [rewrite (filled_slice t f b), (encaps_slice f d) by (done || lia); done|]. assert (boot_pkt f cmd) as P.
  { pose proof En as []. split; [done|done|done|]. rewrite (encaps_slice f d) by (done || lia). done. }
  apply (filled_pkt t f b cmd F ltac:(lia)) in P. split; [done|]. split; [|done]. split; [destruct Hc as [-> | ->]; [by left|by right]|].
  rewrite (filled_slice t f b) by (done || lia). split; [done|]. destruct F as ([Lb Bb] & Et & Edr). rewrite ipchksum_hdr in Es |- * by (done || apply En || (unfold fits; lia)).
  by rewrite (filled_slice t f b) by (done || lia).
Qed.

Lemma delivery t d : ok_dir t -> bytes d -> (4 <= length d <= 1028)%nat -> exists t' evs, delivers t d t' evs.
Proof.
  intros T Bd Ld. destruct (wrap_ok t d T Bd Ld) as (En & Ei & Es). destruct (nic_rx_ok ip_var Hip t (wrap t d) T (en_bytes _ _ En) (en_len _ _ En)) as (b & t' & evs & _ & E & _).
  exists t', evs, (wrap t d). done.
Qed.

Lemma load_not_exec b : boot_pkt b NETBOOT_CMD_LOAD -> boot_pkt b NETBOOT_CMD_EXEC -> False.
Proof. intros [_ _ _ E1] [_ _ _ E2]. rewrite E1 in E2. discriminate E2. Qed.

Lemma exec_bytes : bytes exec_msg.
Proof. apply Forall_app; split; apply net16_bytes. Qed.

(** A block that arrives is acknowledged, and the acknowledgement that arrives makes the
  server go on. *)
Lemma pass_ok h t ds fs t' evs : inv (World h t ds fs None) -> h_done h = false -> delivers t (h_nb h) t' evs ->
  inv (World h t' ds (sent evs ++ fs) None) /\ step (World h t ds fs None) (World h t' ds (sent evs ++ fs) None) /\
  exists g h' d', evs = [Sent g] /\ host_wait h (Message (slice g 42 4)) = (h', d') /\ inv (World h' t' (d' :: ds) (g :: fs) None) /\ step (World h t' ds (g :: fs) None) (World h' t' (d' :: ds) (g :: fs) None) /\
    h_i h' = h_i h + 1 /\ ((h_done h' = false /\ d' = h_nb h') \/ (h_done h' = true /\ d' = exec_msg)).
Proof.
  intros I Hd De. pose proof (iv_host _ I) as [J1 J2 J3 J4 _]. pose proof (iv_last _ I Hd) as Hin. proj. destruct (J4 Hd) as (Lm & Hr & _).
  destruct (load_msg_head _ _ Lm) as [E0 E2]. pose proof (lm_len _ _ Lm) as Ld.
  destruct (delivered h t ds fs (h_nb h) NETBOOT_CMD_LOAD t' evs I Hin ltac:(lia) E0 ltac:(by left) De) as (St & b & Eb' & P & A & R).
  inversion R as [? N _ _|g blk _ Hblk Eb Er _ Eg Ep _ Ea|v arg Q _ _]; subst; [done| |by destruct (load_not_exec b P Q)].
  change (started [Sent g]) with (@None (Z * list Z)) in St. pose proof (inv_step _ _ I St) as I'. split; [done|]. split; [done|].
  assert (Bk : net16 blk = net16 (h_i h)) by congruence. change (sent [Sent g] ++ fs) with (g :: fs) in *.
  assert (heard (g :: fs) (Message (slice g 42 4))) as Hh by (left; exists g; split; [by left|done]).
  destruct (host_wait_ok h t' ds (g :: fs) _ I' Hd Hh) as (h' & d' & Ew & I2). exists g, h', d'. split; [done|]. split; [done|]. split; [done|]. split; [by eapply host_step|].
  revert Ew. rewrite Ea. cbn [host_wait]. set (nbr' := take _ _ ++ _). proj.
  change (take 2 nbr') with (net16 NETBOOT_CMD_ACK). change (take 2 (drop 2 nbr')) with (net16 blk). rewrite decide_False by tauto. rewrite decide_False.
  2:{ intros Q. apply Q. rewrite Bk. symmetry. exact E2. }
  assert (length nbr' = 1028%nat) as Ln by (unfold nbr'; rewrite length_app, length_drop, length_take, J3; cbn [length net16 app]; unfold sizeof_net_boot; lia).
  destruct (host_next_ok (Host (h_rest h) (h_i h + 1) (h_nb h) nbr' (h_done h))) as (h1 & d1 & -> & _ & Ei & Hcase); proj; [lia|done|done|rewrite Hr; f_equal; lia|]. intros [= <- <-]. done.
Qed.

(** Without an acknowledgement the server sends the same block again. *)
Lemma retry_ok h t ds fs a : inv (World h t ds fs None) -> h_done h = false -> heard [] a ->
  exists h', host_wait h a = (h', h_nb h) /\ inv (World h' t (h_nb h :: ds) fs None) /\ h_i h' = h_i h /\ h_done h' = false /\ h_nb h' = h_nb h.
Proof.
  intros I Hd Ha. assert (heard fs a) as Ha'. { destruct a as [| |d]; [done|done|]. destruct Ha as [(f & Hf & _)|?]; [by apply elem_of_nil in Hf|by right]. }
  destruct (host_wait_ok h t ds fs a I Hd Ha') as (h' & d & E & I'). destruct a as [| |d0]; cbn [host_wait] in *; [injection E as <- <-; by eexists|injection E as <- <-; by eexists|].
  destruct Ha as [(f & Hf & _)|[Hl Hn]]; [by apply elem_of_nil in Hf|]. assert (take 2 (take sizeof_net_boot d0 ++ drop (length (take sizeof_net_boot d0)) (h_nbr h)) <> net16 NETBOOT_CMD_ACK) as Hne.
  { rewrite take_app_le by (rewrite length_take; unfold sizeof_net_boot; lia). by rewrite take_take. }
  rewrite decide_True in E by exact Hne. rewrite decide_True by exact Hne. injection E as <- <-. by eexists.
Qed.

(** ** Rounds

  The server has sent a message and waits.  A round passes if the message reaches the loader
  and its reply the server; otherwise one of the two is lost, and the server runs into its
  timeout, an error, or a message that is no acknowledgement. *)
Inductive fate := Lost | Passed.
Definition state : Type := host * nbt * list Z.
Inductive round : fate -> state -> state -> Prop :=
| round_lost h t d a h' d' : h_done h = false -> heard [] a -> host_wait h a = (h', d') -> round Lost (h, t, d) (h', t, d')
| round_unheard h t d t' evs a h' d' : h_done h = false -> delivers t d t' evs -> heard [] a -> host_wait h a = (h', d') -> round Lost (h, t, d) (h', t', d')
| round_passed h t d t' evs g h' d' : h_done h = false -> delivers t d t' evs -> g ∈ sent evs -> host_wait h (Message (slice g 42 4)) = (h', d') -> round Passed (h, t, d) (h', t', d').

Fixpoint rounds (l : list fate) (s s' : state) : Prop :=
  match l with [] => s = s' | x :: l => exists s1, round x s s1 /\ rounds l s1 s' end.
Definition passes (x : fate) : Z := match x with Lost => 0 | Passed => 1 end.
Definition passed (l : list fate) : Z := foldr (fun x n => passes x + n) 0 l.
(** The blocks of the file that are still to be acknowledged. *)
Definition blocks_left (h : host) : Z := (Z.of_nat (length file) - 1024 * h_i h + 1023) / 1024.

(** [s] is a state of the two programs, with the last message of the server. *)
Definition runs (s : state) : Prop :=
  let '(h, t, d) := s in (exists ds fs, inv (World h t ds fs None)) /\ (h_done h = false -> d = h_nb h) /\ (h_done h = true -> d = exec_msg /\ 1024 * h_i h - Z.of_nat (length file) < 1024).

Lemma round_runs x h t d s' : runs (h, t, d) -> round x (h, t, d) s' -> runs s' /\ h_i s'.1.1 = h_i h + passes x.
Proof.
  intros ((ds & fs & I) & Hf & _) R. inversion R as [? ? ? a h' d' Hd Ha E|? ? ? t' evs a h' d' Hd De Ha E|? ? ? t' evs g h' d' Hd De Hg E]; subst; cbn [fst snd passes]; rewrite (Hf Hd) in *; clear Hf.
  - destruct (retry_ok h t ds fs a I Hd Ha) as (h1 & E1 & I1 & H1 & H2 & H3). rewrite E in E1. injection E1 as -> ->. split; [|lia]. split; [eauto|]. split; [done|]. intros Q. congruence.
  - destruct (pass_ok h t ds fs t' evs I Hd De) as (I' & _). destruct (retry_ok h t' ds _ a I' Hd Ha) as (h1 & E1 & I1 & H1 & H2 & H3). rewrite E in E1. injection E1 as -> ->. split; [|lia]. split; [eauto|]. split; [done|]. intros Q. congruence.
  - destruct (pass_ok h t ds fs t' evs I Hd De) as (I' & _ & g' & h1 & d1 & -> & E1 & I1 & _ & Hi & Hcase). change (sent [Sent g']) with [g'] in Hg. apply list_elem_of_singleton in Hg as ->. rewrite E in E1. injection E1 as -> ->. split; [|done].
    split; [eauto|]. pose proof (hi_wait _ (iv_host _ I) Hd) as (_ & _ & Hlt). proj. split; [intros Hn; destruct Hcase as [[_ ->]|[Q _]]; [done|congruence]|]. intros Hn. destruct Hcase as [[Q _]|[_ ->]]; [congruence|]. split; [done|lia].
Qed.

Lemma round_exists x h t d : runs (h, t, d) -> h_done h = false -> exists s', round x (h, t, d) s'.
Proof.
  intros ((ds & fs & I) & Hf & _) Hd. rewrite (Hf Hd). destruct x.
  - destruct (retry_ok h t ds fs Timeout I Hd Logic.I) as (h' & E & _). eexists. by eapply (round_lost h t (h_nb h) Timeout).
  - pose proof (hi_wait _ (iv_host _ I) Hd) as (Lm & _). proj. pose proof (lm_len _ _ Lm) as Ld. destruct (delivery t (h_nb h) (iv_tgt _ I) (lm_bytes _ _ Lm) ltac:(lia)) as (t' & evs & De).
    destruct (pass_ok h t ds fs t' evs I Hd De) as (_ & _ & g & h' & d' & -> & E & _). eexists. eapply round_passed; [done|done|by left|exact E].
Qed.

(** The server has finished when all blocks are acknowledged. *)
Lemma runs_done h t d : runs (h, t, d) -> 0 <= blocks_left h /\ (h_done h = true <-> blocks_left h = 0).
Proof.
  intros ((ds & fs & I) & _ & Ht). unfold blocks_left. pose proof (iv_host _ I) as J. proj. destruct (h_done h) eqn:Hd.
  - destruct (Ht eq_refl) as [_ Hlt]. pose proof (hi_done _ J Hd). rewrite Z.div_small by lia. done.
  - destruct (hi_wait _ J Hd) as (_ & _ & Hlt). assert (1 <= (Z.of_nat (length file) - 1024 * h_i h + 1023) / 1024) by (apply Z.div_le_lower_bound; lia). split; [lia|]. split; [done|lia].
Qed.

Lemma rounds_runs l : forall h t d h' t' d', runs (h, t, d) -> rounds l (h, t, d) (h', t', d') -> runs (h', t', d') /\ h_i h' = h_i h + passed l.
Proof.
  induction l as [|x l IH]; intros h t d h' t' d' Hs R; cbn [rounds passed foldr] in *; [injection R as <- <- <-; split; [done|lia]|].
  destruct R as ([[h1 t1] d1] & R1 & R). destruct (round_runs x h t d _ Hs R1) as [Hs1 E1]. cbn [fst snd] in E1. destruct (IH _ _ _ _ _ _ Hs1 R) as [Hs' E']. split; [done|]. unfold passed in E'. lia.
Qed.

Lemma rounds_exist l : forall x h t d, runs (h, t, d) -> passed l < blocks_left h -> exists s', rounds (l ++ [x]) (h, t, d) s'.
Proof.
  assert (forall l, 0 <= passed l) as Hpos by (intros k; induction k as [|[] k IH]; cbn; unfold passed in *; lia).
  induction l as [|y l IH]; intros x h t d Hs Hl; destruct (runs_done h t d Hs) as [_ Hd].
  - destruct (round_exists x h t d Hs) as [s' R]; [destruct (h_done h); [cbn in Hl; destruct Hd as [Hd _]; specialize (Hd eq_refl); lia|done]|]. exists s', s'. done.
  - pose proof (Hpos l) as Hp. cbn [passed foldr] in Hl. fold (passed l) in Hl. assert (0 <= passes y) as Hy by (destruct y; cbn; lia). destruct (round_exists y h t d Hs) as [[[h1 t1] d1] R]; [destruct (h_done h); [destruct Hd as [Hd _]; specialize (Hd eq_refl); lia|done]|].
    destruct (round_runs y h t d _ Hs R) as [Hs1 E1]. cbn [fst snd] in E1. destruct (IH x h1 t1 d1 Hs1) as [s' R']; [|exists s'; cbn [app rounds]; by exists (h1, t1, d1)].
    unfold blocks_left in *. rewrite E1. replace (Z.of_nat (length file) - 1024 * (h_i h + passes y) + 1023) with (Z.of_nat (length file) - 1024 * h_i h + 1023 + (- passes y) * 1024) by lia. rewrite Z.div_add by lia. lia.
Qed.

(** The last command starts the image. *)
Lemma exec_starts h t d : runs (h, t, d) -> h_done h = true -> (exists t' evs, delivers t d t' evs) /\ forall t' evs, delivers t d t' evs -> is_Some (started evs).
Proof.
  intros ((ds & fs & I) & _ & Ht) Hd. destruct (Ht Hd) as [-> _]. split; [apply delivery; [exact (iv_tgt _ I)|apply exec_bytes|cbn; lia]|]. intros t' evs De.
  destruct (delivered h t ds fs exec_msg NETBOOT_CMD_EXEC t' evs I (iv_exec _ I Hd) ltac:(cbn; lia) eq_refl ltac:(by right) De) as (_ & b & _ & P & A & R).
  inversion R as [? N _ _|g blk Q|v arg]; subst; [done|by destruct (load_not_exec b Q P)|by eexists].
Qed.

Lemma complete n : forall h t ds fs, inv (World h t ds fs None) -> Z.of_nat (length file) < 1024 * (h_i h + Z.of_nat n) -> exists w', rtc step (World h t ds fs None) w' /\ is_Some (w_run w').
Proof.
  induction n as [|n IH]; intros h t ds fs I Hn; destruct (h_done h) eqn:Hd.
  all: try (destruct (delivery t exec_msg (iv_tgt _ I) exec_bytes ltac:(cbn; lia)) as (t' & evs & De); destruct (delivered h t ds fs exec_msg NETBOOT_CMD_EXEC t' evs I (iv_exec _ I Hd) ltac:(cbn; lia) eq_refl ltac:(by right) De) as (St & b & _ & P & A & R);
    inversion R as [? N _ _|g blk Q|v arg]; subst; [done|by destruct (load_not_exec b Q P)|]; eexists; split; [apply rtc_once; exact St|by eexists]).
  - pose proof (iv_host _ I) as J. proj. destruct (hi_wait _ J Hd) as (_ & _ & Hlt). lia.
  - pose proof (hi_wait _ (iv_host _ I) Hd) as (Lm & _). proj. pose proof (lm_len _ _ Lm) as Ld. destruct (delivery t (h_nb h) (iv_tgt _ I) (lm_bytes _ _ Lm) ltac:(lia)) as (t' & evs & De).
    destruct (pass_ok h t ds fs t' evs I Hd De) as (_ & S1 & g & h' & d' & -> & _ & I' & S2 & Ei & _). destruct (IH h' t' (d' :: ds) (g :: fs)) as (w' & S' & Hr); [done|lia|].
    exists w'. split; [|done]. eapply rtc_l; [exact S1|]. by eapply rtc_l.
Qed.

End file.
End system.

(** C5. For a file of at most 64 MB: whatever the network loses, repeats, delays or reorders, and
  whatever other traffic, in frames of 60 to 1500 bytes, and keys there are: when the loader
  starts the image, the file of the server is in its memory from the load address on, byte for
  byte, and it jumps to the entry point that the file gives. *)
Theorem netboot_delivers (ip_var file : list Z) (w : world) (r : Z * list Z)
  (Hip : buffer 4 ip_var) (Hsize : Z.of_nat (length file) <= 2 ^ 26) (Hbytes : bytes file)
  (Hw : reachable ip_var file w) (Hr : w_run w = Some r) :
  (forall j c, file !! j = Some c -> ram (w_tgt w) !! (NETBOOT_BASE + Z.of_nat j) = Some c) /\
  (forall b0 b1 b2 b3, take 4 (drop 116 file) = [b0; b1; b2; b3] ->
    r.1 = u32 (b0 + 256 * b1 + 65536 * b2 + 16777216 * b3 + 0x1000 + NETBOOT_BASE)).
Proof.
  pose proof (reachable_inv ip_var Hip file Hsize Hbytes w Hw) as I. destruct (iv_run _ _ I r Hr) as (Hall & v & Ev & Es).
  assert (forall j c, file !! j = Some c -> ram (w_tgt w) !! (NETBOOT_BASE + Z.of_nat j) = Some c) as H by (intros j c; by apply all_bytes).
  split; [exact H|]. intros b0 b1 b2 b3 Hb. rewrite Es. assert (forall k c, [b0; b1; b2; b3] !! k = Some c -> ram (w_tgt w) !! (NETBOOT_BASE + 64 + 52 + Z.of_nat k) = Some c) as Hk.
  { intros k c Hc. rewrite <- (H (116 + k)%nat c); [f_equal; lia|]. rewrite <- Hb in Hc. rewrite lookup_take_Some in Hc. destruct Hc as [Hc _]. by rewrite lookup_drop in Hc. }
  unfold ram32 in Ev. pose proof (Hk 0%nat b0 eq_refl) as E0. rewrite Z.add_0_r in E0.
  pose proof (Hk 1%nat b1 eq_refl) as E1. pose proof (Hk 2%nat b2 eq_refl) as E2. pose proof (Hk 3%nat b3 eq_refl) as E3.
  change (Z.of_nat 1) with 1 in E1. change (Z.of_nat 2) with 2 in E2. change (Z.of_nat 3) with 3 in E3. rewrite E0, E1, E2, E3 in Ev. cbn [deref cbind] in Ev. injection Ev as <-. done.
Qed.

(** C13. Progress in spite of losses: from every state in which the server still waits for an
  acknowledgement, it and the loader go on in rounds, a message of the server and what it
  hears before it sends the next.  A round in which the message or the reply is lost leaves
  the server at its block, which it sends again; a round in which both arrive takes it to the
  next block.  So rounds of either fate go on until as many have passed as blocks are left,
  whatever the losses in between; then the server has finished, its last message is EXEC,
  and if that arrives the loader starts the image.  It is sent only once: nothing follows it
  (util/netboot.c:115). *)
Theorem netboot_completes (ip_var file : list Z) (w : world)
  (Hip : buffer 4 ip_var) (Hsize : Z.of_nat (length file) <= 2 ^ 26) (Hbytes : bytes file) (Hw : reachable ip_var file w)
  (Hrun : w_run w = None) (Hd : h_done (w_host w) = false) :
  (forall l x, passed l < blocks_left file (w_host w) -> exists s, rounds ip_var (l ++ [x]) (w_host w, w_tgt w, h_nb (w_host w)) s) /\
  (forall l h t d, rounds ip_var l (w_host w, w_tgt w, h_nb (w_host w)) (h, t, d) ->
    h_i h = h_i (w_host w) + passed l /\ (h_done h = true <-> passed l = blocks_left file (w_host w)) /\
    (h_done h = true -> d = exec_msg /\ (exists t' evs, delivers ip_var t d t' evs) /\ (forall t' evs, delivers ip_var t d t' evs -> is_Some (started evs)) /\ forall x s, ~ round ip_var x (h, t, d) s)).
Proof.
  pose proof (reachable_inv ip_var Hip file Hsize Hbytes w Hw) as I. destruct w as [h0 t0 ds fs run]. cbn [w_host w_tgt w_run] in *. subst run.
  assert (runs file (h0, t0, h_nb h0)) as Hs. { split; [by exists ds, fs|]. split; [done|]. intros Q. congruence. }
  split; [intros l x Hl; by apply (rounds_exist ip_var Hip file Hsize Hbytes)|]. intros l h t d R.
  destruct (rounds_runs ip_var Hip file Hsize Hbytes l h0 t0 _ h t d Hs R) as [Hs' Ei]. split; [done|]. split.
  - destruct (runs_done file h t d Hs') as [_ ->]. unfold blocks_left. rewrite Ei. replace (Z.of_nat (length file) - 1024 * (h_i h0 + passed l) + 1023) with (Z.of_nat (length file) - 1024 * h_i h0 + 1023 + (- passed l) * 1024) by lia. rewrite Z.div_add by lia. lia.
  - intros Hdone. destruct (exec_starts ip_var Hip file h t d Hs' Hdone) as [H1 H2]. split; [by apply Hs'|]. split; [done|]. split; [done|]. intros x s Rx. inversion Rx; congruence.
Qed.

(** A file of 1200 bytes, whose entry point is 0x05040302. *)
Definition demo_file : list Z := replicate 116 1 ++ [2; 3; 4; 5] ++ replicate 1080 7.
Definition demo_mac : list Z := [2; 0; 0; 0; 0; 9].
Definition demo_ram : gmap Z Z := put_ram ∅ (NETBOOT_BASE + 116) [0; 0; 0; 0].

Lemma demo_bytes : buffer 4 [0; 0; 0; 0] /\ bytes demo_file /\ buffer 6 demo_mac /\ has_dir demo_ram.
Proof.
  assert (forall l, bool_decide (bytes l) = true -> bytes l) as D by (intros l; apply bool_decide_eq_true_1).
  split; [split; [done|]; apply Forall_replicate with (n := 4%nat) (x := 0); lia|]. split; [|split; [split; [done|]; unfold bytes; apply (bool_decide_eq_true_1 _); vm_compute; reflexivity|]].
  - unfold bytes. apply (bool_decide_eq_true_1 _). vm_compute. reflexivity.
  - intros i Hi. unfold demo_ram. rewrite put_ram_lookup, decide_True by (cbn [length]; lia). apply lookup_lt_is_Some. cbn [length]. lia.
Qed.

Lemma demo_start : exists w, reachable [0; 0; 0; 0] demo_file w.
Proof.
  destruct demo_bytes as (_ & _ & Bm & D). destruct (main_ok demo_mac demo_ram Bm D) as (t & evs & E & _). destruct (host_main demo_file (replicate 1028 0) (replicate 1028 0)) as [h d] eqn:Eh.
  eexists. eexists. split; [|reflexivity]. eapply (init_world demo_file (replicate 1028 0) (replicate 1028 0)); [|apply length_replicate|exact Bm|exact D|exact Eh|exact E].
  split; [apply length_replicate|]. apply Forall_replicate. lia.
Qed.

Lemma netboot_delivers_witness : exists w r, reachable [0; 0; 0; 0] demo_file w /\ w_run w = Some r /\
  ram (w_tgt w) !! (NETBOOT_BASE + 1199) = Some 7 /\ r.1 = 0x05040302 + 0x1000 + NETBOOT_BASE.
Proof.
  destruct demo_bytes as (Bi & Bf & _ & _). destruct demo_start as (w0 & H0). assert (Z.of_nat (length demo_file) <= 2 ^ 26) as Hs by (vm_compute; discriminate).
  destruct H0 as (wi & Hi & S0). destruct wi as [h t ds fs run]. pose proof (inv_init demo_file Hs Bf _ Hi) as I.
  destruct run as [r|]; [inversion Hi|]. destruct (complete [0; 0; 0; 0] Bi demo_file Hs Bf 2000 h t ds fs I) as (w & S & [r Hr]).
  { pose proof (hi_i _ _ (iv_host _ _ I)). proj. change (Z.of_nat (length demo_file)) with 1200. lia. }
  assert (reachable [0; 0; 0; 0] demo_file w) as Hw by (eexists; split; [exact Hi|exact S]). exists w, r. split; [exact Hw|]. split; [exact Hr|].
  destruct (netboot_delivers [0; 0; 0; 0] demo_file w r Bi Hs Bf Hw Hr) as [H1 H2]. split; [exact (H1 1199%nat 7 eq_refl)|]. exact (H2 2 3 4 5 eq_refl).
Defined.

Lemma netboot_completes_witness : exists w s, reachable [0; 0; 0; 0] demo_file w /\ rounds [0; 0; 0; 0] [Lost; Passed; Lost; Lost; Passed] (w_host w, w_tgt w, h_nb (w_host w)) s /\ h_done s.1.1 = true.
Proof.
  destruct demo_bytes as (Bi & Bf & Bm & D). assert (Z.of_nat (length demo_file) <= 2 ^ 26) as Hs by (vm_compute; discriminate).
  destruct (main_ok demo_mac demo_ram Bm D) as (t & evs & E & _). destruct (host_main demo_file (replicate 1028 0) (replicate 1028 0)) as [h d] eqn:Eh.
  assert (h_done h = false /\ h_i h = 0) as [Hd Hi0] by (apply (f_equal fst) in Eh; cbn [fst] in Eh; rewrite <- Eh; split; vm_compute; reflexivity).
  set (w := World h t [d] (sent evs) None). assert (reachable [0; 0; 0; 0] demo_file w) as Hw.
  { exists w. split; [|reflexivity]. eapply (init_world demo_file (replicate 1028 0) (replicate 1028 0)); [|apply length_replicate|exact Bm|exact D|exact Eh|exact E]. split; [apply length_replicate|]. apply Forall_replicate. lia. }
  destruct (netboot_completes [0; 0; 0; 0] demo_file w Bi Hs Bf Hw eq_refl Hd) as [H1 H2]. assert (blocks_left demo_file (w_host w) = 2) as Hb by (unfold blocks_left; cbn [w_host w]; rewrite Hi0; vm_compute; reflexivity).
  destruct (H1 [Lost; Passed; Lost; Lost] Passed) as [[[h' t'] d'] R]; [rewrite Hb; vm_compute; reflexivity|]. exists w, (h', t', d'). split; [exact Hw|]. split; [exact R|].
  destruct (H2 _ _ _ _ R) as (_ & Hdone & _). apply Hdone. rewrite Hb. vm_compute. reflexivity.
Defined.

End NetLoad.
