(* ===== verification/Ffs.v ===== *)
(** The driver for the file system of BSD, srv/vfs/drivers/ffs (super.c, inode.c, dir.c and
  file.c), which reads from a block device through lib/libblt/blkdev.c.

  A device is a function from sectors to their bytes, or to the error of the server. A
  structure on the disk is decoded from the bytes of the buffer it was read into, at the
  offsets that its declaration gives. The vnodes that are in use are a finite map. What a
  buffer holds when malloc gives it out is the argument [junk]. *)
From S2P Require Import Prelude LibC Bytes.
Import LibC Bytes.
Local Open Scope Z_scope.
Local Open Scope c_scope.

Module Ffs.

(** ** Numbers in a buffer *)

Definition ld16 (m : list Z) (p : Z) : cres Z := let! a := rd m p in let! b := rd m (p + 1) in Ok (a + 256 * b).
Definition ld32 (m : list Z) (p : Z) : cres Z := let! a := ld16 m p in let! b := ld16 m (p + 2) in Ok (a + 65536 * b).
Definition ld64 (m : list Z) (p : Z) : cres Z := let! a := ld32 m p in let! b := ld32 m (p + 4) in Ok (a + 2 ^ 32 * b).
Definition lds32 (m : list Z) (p : Z) : cres Z := let! a := ld32 m p in Ok (s32 a).
Definition s16 (x : Z) : Z := (x + 2 ^ 15) mod 2 ^ 16 - 2 ^ 15.
(** [n] signed words from [p]. *)
Fixpoint ldwords (m : list Z) (p : Z) (n : nat) : cres (list Z) :=
  match n with
  | O => Ok []
  | S n => let! a := lds32 m p in let! r := ldwords m (p + 4) n in Ok (a :: r)
  end.

(** ** blkdev.c *)

Record blkdev := Dev { blksize : Z; sector : Z -> list Z + Z }.

(** The loop of _blk_read; the status of the last answer is undefined before the first. *)
Fixpoint blk_loop (dev : blkdev) (buf : list Z) (p block : Z) (count : nat) (status : option Z) : cres (list Z * Z) :=
  match count with
  | O => let? st := status in Ok (buf, st)
  | S count =>
      match sector dev block with
      | inr st => Ok (buf, st)
      | inl d =>
          let! buf := memcpy buf p d 0 (Z.to_nat (blksize dev)) in
          blk_loop dev buf (p + blksize dev) (s32 (block + 1)) count (Some 0)
      end
  end.
Definition blk_read (dev : blkdev) (buf : list Z) (p block count : Z) : cres (list Z * Z) :=
  blk_loop dev buf p block (Z.to_nat count) None.

(** ** The structures *)

Definition BLKSIZE : Z := 8192.
Definition SBSIZE : Z := 8192.
Definition SBOFF : Z := 8192.
Definition NDADDR : Z := 12.
Definition NIADDR : Z := 3.
Definition ROOTINO : Z := 2.
Definition MAXNAMLEN : nat := 255.
Definition BLT_MAX_NAME_LENGTH : nat := 32.

Record ffs_super := Super {
  fs_iblkno : Z; fs_cgoffset : Z; fs_cgmask : Z; fs_fragshift : Z; fs_fsbtodb : Z; fs_nindir : Z; fs_inopb : Z; fs_ipg : Z; fs_fpg : Z }.
Definition as_super (m : list Z) : cres ffs_super :=
  let! iblkno := ld32 m 16 in let! cgoffset := lds32 m 24 in let! cgmask := lds32 m 28 in
  let! fragshift := lds32 m 96 in let! fsb := lds32 m 100 in let! nindir := lds32 m 116 in
  let! inopb := lds32 m 120 in let! ipg := lds32 m 184 in let! fpg := lds32 m 188 in
  Ok (Super iblkno cgoffset cgmask fragshift fsb nindir inopb ipg fpg).

Record ffs_dinode := Dinode { di_nlink : Z; di_size : Z; di_db : list Z; di_ib : list Z; di_blocks : Z; di_uid : Z; di_gid : Z }.
Definition sizeof_dinode : Z := 128.
Definition as_dinode (m : list Z) (p : Z) : cres ffs_dinode :=
  let! nlink := ld16 m (p + 2) in let! size := ld64 m (p + 8) in
  let! db := ldwords m (p + 40) 12 in let! ib := ldwords m (p + 88) 3 in
  let! blocks := lds32 m (p + 104) in let! uid := ld32 m (p + 112) in let! gid := ld32 m (p + 116) in
  Ok (Dinode (s16 nlink) size db ib blocks uid gid).

(** ** The macros of ffs.h *)

Definition fsbtodb (fs : ffs_super) (b : Z) : Z := s32 (Z.shiftl b (fs_fsbtodb fs)).
Definition cgbase (fs : ffs_super) (c : Z) : Z := u32 (fs_fpg fs * c).
Definition cgstart (fs : ffs_super) (c : Z) : Z := u32 (cgbase fs c + fs_cgoffset fs * Z.land c (Z.lnot (fs_cgmask fs))).
Definition cgimin (fs : ffs_super) (c : Z) : Z := u32 (cgstart fs c + fs_iblkno fs).
Definition blkstofrags (fs : ffs_super) (b : Z) : Z := Z.shiftl b (fs_fragshift fs).
Definition ino_to_fsba (fs : ffs_super) (x : Z) : cres Z :=
  if decide (fs_ipg fs = 0 \/ fs_inopb fs = 0) then Fault else
  Ok (u32 (cgimin fs (Z.quot x (fs_ipg fs)) + blkstofrags fs (Z.quot (Z.rem x (fs_ipg fs)) (fs_inopb fs)))).
Definition ino_to_fsbo (fs : ffs_super) (x : Z) : Z := Z.rem x (fs_inopb fs).

(** ** The driver *)

(** The vnodes in use: their number and the inode, and the next address of malloc. *)
Record vnode := Vnode { v_vnid : Z; v_data : ffs_dinode }.
Record fst_ := Fst { vnodes : gmap Z vnode; next_addr : Z }.

Section driver.
Variable dev : blkdev.
Variable junk : list Z.

(** A block of the file system, read into a buffer; the drivers ignore the status. *)
Definition read_block (buf : list Z) (block : Z) : cres (list Z) :=
  if decide (blksize dev = 0) then Fault else
  let! r := blk_read dev buf 0 block (Z.quot BLKSIZE (blksize dev)) in Ok (fst r).

Section mounted.
Variable fs : ffs_super.

(** *** inode.c *)

Definition ffs_read_vnode (vnid : Z) : cres ffs_dinode :=
  let! a := ino_to_fsba fs (s32 vnid) in
  let! buf := read_block junk (fsbtodb fs a) in
  as_dinode buf (ino_to_fsbo fs (s32 vnid) * sizeof_dinode).

(** vget and vput of vnode.c on this driver: the only reference goes with vput. *)
Definition vget (s : fst_) (vnid : Z) : cres (Z * fst_) :=
  let! di := ffs_read_vnode vnid in
  Ok (next_addr s, Fst (<[next_addr s := Vnode vnid di]> (vnodes s)) (next_addr s + 1)).
Definition vput (s : fst_) (v : Z) : cres fst_ :=
  let? _ := vnodes s !! v in Ok (Fst (delete v (vnodes s)) (next_addr s)).

(** The entries of a block from [offset]: the number of the one with the name at [p]. *)
Fixpoint find_entry (buf : list Z) (offset : Z) (m : list Z) (p : Z) (fuel : nat) : cres (option Z) :=
  match fuel with
  | O => Fault
  | S fuel =>
      if decide (offset < BLKSIZE) then
        let! c := strcmp buf (offset + 8) m p in
        if decide (c = 0) then let! ino := ld32 buf offset in Ok (Some ino) else
        let! reclen := ld16 buf (offset + 4) in
        find_entry buf (offset + reclen) m p fuel
      else Ok None
  end.
Fixpoint find_block (buf : list Z) (db : list Z) (m : list Z) (p : Z) : cres (option Z) :=
  match db with
  | [] => Ok None
  | b :: db =>
      if decide (b <> 0) then
        let! buf := read_block buf (fsbtodb fs b) in
        let! r := find_entry buf 0 m p (S (Z.to_nat BLKSIZE)) in
        match r with Some ino => Ok (Some ino) | None => find_block buf db m p end
      else find_block buf db m p
  end.
Definition ffs_walk_one (s : fst_) (parent : option Z) (m : list Z) (p : Z) : cres (option Z * fst_) :=
  let? a := parent in let? v := vnodes s !! a in
  let! r := find_block junk (di_db (v_data v)) m p in
  match r with
  | Some ino => let! (v, s) := vget s (s32 ino) in Ok (Some v, s)
  | None => Ok (None, s)
  end.

(** The end of a component: the next slash, or the end of the path. *)
Fixpoint component_end (name : list Z) (j len : Z) (fuel : nat) : cres Z :=
  match fuel with
  | O => Fault
  | S fuel =>
      let! c := rd name j in
      if decide (c <> 47 /\ j < len) then component_end name (j + 1) len fuel else Ok j
  end.
Fixpoint walk_loop (s : fst_) (parent : Z) (vn : option Z) (name : list Z) (len i : Z) (fuel : nat) : cres (option Z * fst_) :=
  match fuel with
  | O => Fault
  | S fuel =>
      if decide (i < len) then
        let! j := component_end name i len (S (length name)) in
        let! name := wr name j 0 in
        let! (vnnext, s) := ffs_walk_one s vn name i in
        let! s := (if decide (vn <> Some parent) then let? v := vn in vput s v else Ok s) in
        walk_loop s parent vnnext name len (j + 1) fuel
      else Ok (vn, s)
  end.
Definition ffs_walk (s : fst_) (parent : Z) (m : list Z) (path : Z) : cres (option Z * fst_) :=
  let! len := strlen m path in
  let! name := fetch m path (S (Z.to_nat len)) in
  walk_loop s parent (Some parent) name len 0 (S (S (Z.to_nat len))).

(** *** dir.c *)

Record dirent := Dirent { d_fileno : Z; d_reclen : Z; d_name : list Z }.
Definition sizeof_dirent : Z := 40.
(** The list that opendir makes and the place of readdir in it. *)
Record ffs_dircookie := Dircookie { head : list dirent; current : list dirent }.

Definition new_dirent (buf : list Z) (offset ino : Z) : cres dirent :=
  let! name := strncpy (take (S BLT_MAX_NAME_LENGTH) junk) 0 buf (offset + 8) (S BLT_MAX_NAME_LENGTH) in
  Ok (Dirent ino sizeof_dirent name).
Fixpoint list_entries (buf : list Z) (offset : Z) (l : list dirent) (fuel : nat) : cres (list dirent) :=
  match fuel with
  | O => Fault
  | S fuel =>
      if decide (offset < BLKSIZE) then
        let! ino := ld32 buf offset in
        if decide (ino = 0) then Ok l else
        let! d := new_dirent buf offset ino in
        let! reclen := ld16 buf (offset + 4) in
        list_entries buf (offset + reclen) (d :: l) fuel
      else Ok l
  end.
Fixpoint list_blocks (buf : list Z) (db : list Z) (l : list dirent) : cres (list dirent) :=
  match db with
  | [] => Ok l
  | b :: db =>
      if decide (b <> 0) then
        let! buf := read_block buf (fsbtodb fs b) in
        let! l := list_entries buf 0 l (S (Z.to_nat BLKSIZE)) in
        list_blocks buf db l
      else list_blocks buf db l
  end.
Definition ffs_opendir (s : fst_) (dir : Z) : cres (Z * ffs_dircookie) :=
  let? v := vnodes s !! dir in
  let! l := list_blocks junk (di_db (v_data v)) [] in
  Ok (0, Dircookie l l).
Definition ffs_rewinddir (c : ffs_dircookie) : Z * ffs_dircookie := (0, Dircookie (head c) (head c)).
Definition ffs_readdir (d : dirent) (c : ffs_dircookie) : cres (Z * dirent * ffs_dircookie) :=
  match current c with
  | [] => Ok (1, d, c)
  | orig :: rest =>
      let! name := strncpy (d_name d) 0 (d_name orig) 0 MAXNAMLEN in
      Ok (0, Dirent (d_fileno orig) (d_reclen orig) name, Dircookie (head c) rest)
  end.

(** *** file.c *)

(** The block of the file system that holds block [fb] of the file. *)
Definition ffs_fbtofsb (di : ffs_dinode) (fb : Z) : cres Z :=
  if decide (fb < NDADDR) then deref (aget (di_db di) fb) else
  let fb := fb - NDADDR in
  let n := fs_nindir fs in
  if decide (fb < u32 n) then
    let? ib := aget (di_ib di) 0 in
    let! buf := read_block junk (fsbtodb fs ib) in
    lds32 buf (4 * fb)
  else
    let fb := fb - u32 n in
    if decide (fb < u32 (n * n)) then Ok 0 else
    let fb := fb - u32 (n * n) in
    if decide (fb < u32 (n * n * n)) then Ok 0 else Ok (-1).

(** The block with the byte [pos] of the file, in [temp]. *)
Definition file_block (di : ffs_dinode) (temp : list Z) (pos : Z) : cres (list Z) :=
  let! block := ffs_fbtofsb di (u32 (Z.quot pos BLKSIZE)) in read_block temp (fsbtodb fs block).

(** The loop over whole blocks. *)
Fixpoint whole_blocks (di : ffs_dinode) (buf temp : list Z) (count pos numbytes i : Z) (fuel : nat) : cres (list Z * list Z * Z * Z) :=
  match fuel with
  | O => Fault
  | S fuel =>
      if decide (i < (count - numbytes) / BLKSIZE) then
        let! temp := file_block di temp pos in
        let! buf := memcpy buf numbytes temp 0 (Z.to_nat BLKSIZE) in
        whole_blocks di buf temp count (pos + BLKSIZE) (numbytes + BLKSIZE) (i + 1) fuel
      else Ok (buf, temp, pos, numbytes)
  end.

(** The buffer and *numbytes; the result is always 0. *)
Definition ffs_read (di : ffs_dinode) (buf : list Z) (count pos : Z) : cres (list Z * Z) :=
  if decide (count = 0) then Ok (buf, 0) else
  if decide (di_size di <= pos mod 2 ^ 64) then Ok (buf, 0) else
  let count := if decide (di_size di < (pos + count) mod 2 ^ 64) then u32 (di_size di - pos) else count in
  let offset := Z.rem pos BLKSIZE in
  let! (buf, temp, pos, numbytes) :=
    (if decide (offset <> 0) then
       let! temp := file_block di junk pos in
       let len := if decide (count < BLKSIZE - offset) then count else BLKSIZE - offset in
       let! buf := memcpy buf 0 temp offset (Z.to_nat len) in
       Ok (buf, temp, pos + len, len)
     else Ok (buf, junk, pos, 0)) in
  if decide (numbytes = count) then Ok (buf, numbytes) else
  let! (buf, temp, pos, numbytes) := whole_blocks di buf temp count pos numbytes 0 (S (Z.to_nat (count / BLKSIZE))) in
  if decide (numbytes = count) then Ok (buf, numbytes) else
  let! temp := file_block di temp pos in
  let len := count - numbytes in
  let! buf := memcpy buf numbytes temp 0 (Z.to_nat len) in
  Ok (buf, numbytes + len).

Record stat := Stat { st_ino : Z; st_nlink : Z; st_uid : Z; st_gid : Z; st_size : Z; st_blocks : Z }.
Definition ffs_rstat (v : vnode) : stat :=
  let di := v_data v in Stat (v_vnid v) (di_nlink di) (di_uid di) (di_gid di) (di_size di) (di_blocks di).

End mounted.

(** *** super.c *)

(** The superblock and the vnode of the root. *)
Definition ffs_mount (s : fst_) : cres (ffs_super * Z * fst_) :=
  if decide (blksize dev = 0) then Fault else
  let! r := blk_read dev junk 0 (Z.quot SBOFF (blksize dev)) (Z.quot SBSIZE (blksize dev)) in
  let! fs := as_super (fst r) in
  let! (root, s) := vget fs s ROOTINO in
  Ok (fs, root, s).
Definition ffs_unmount (s : fst_) (root : Z) : cres fst_ := vput s root.

End driver.

End Ffs.
