(* ===== verification/FfsDisk.v ===== *)
(** The file system of BSD as it is on the disk, apart from the driver: the bytes of a block,
  numbers in it, the place of an inode, and the blocks of a file.  What the driver computes
  (Ffs) is shown to be this in FfsRead and FfsDir. *)
From S2P Require Import Prelude LibC Bytes Ffs.
Import LibC Bytes Ffs.
Local Open Scope Z_scope.
Local Open Scope c_scope.

Module FfsDisk.

(** ** Blocks of the device *)

(** A device whose sectors make up a block, and a block whose sectors it can read. *)
Record good_dev (dev : blkdev) : Prop := { gd_pos : 0 < blksize dev; gd_div : (blksize dev | BLKSIZE) }.
Definition spb (dev : blkdev) : nat := Z.to_nat (BLKSIZE / blksize dev).
Record readable (dev : blkdev) (block : Z) : Prop := {
  rb_range : 0 <= block /\ block + Z.of_nat (spb dev) < 2 ^ 31;
  rb_sector : forall k, (k < spb dev)%nat -> exists d, sector dev (block + Z.of_nat k) = inl d /\ buffer (Z.to_nat (blksize dev)) d }.

Definition sector_data (dev : blkdev) (b : Z) : list Z := match sector dev b with inl d => d | inr _ => [] end.
Fixpoint sectors (dev : blkdev) (b : Z) (n : nat) : list Z :=
  match n with
  | O => []
  | S n => sector_data dev b ++ sectors dev (b + 1) n
  end.
(** The bytes of a block. *)
Definition data (dev : blkdev) (b : Z) : list Z := sectors dev b (spb dev).

Section device.
Variable dev : blkdev.
Hypothesis Hdev : good_dev dev.

Lemma spb_size : Z.of_nat (spb dev) * blksize dev = BLKSIZE /\ 0 < Z.of_nat (spb dev).
Proof.
  destruct Hdev as [Hp [q Hq]]. unfold spb. rewrite Hq, Z.div_mul by lia. unfold BLKSIZE in Hq. split; nia.
Qed.

Lemma blk_loop_ok buf n : forall l b st, (forall k, (k < n)%nat -> exists d, sector dev (b + Z.of_nat k) = inl d /\ buffer (Z.to_nat (blksize dev)) d) ->
  0 <= b /\ b + Z.of_nat n < 2 ^ 31 -> Z.of_nat (length l) + Z.of_nat n * blksize dev <= Z.of_nat (length buf) -> n <> 0%nat \/ st = Some 0 ->
  blk_loop dev (splice buf 0 l) (Z.of_nat (length l)) b n st = Ok (splice buf 0 (l ++ sectors dev b n), 0).
Proof.
  destruct Hdev as [Hp _]. induction n as [|n IH]; intros l b st Hs Hb Hl Hn; cbn [blk_loop sectors].
  - destruct Hn as [?| ->]; [done|]. by rewrite app_nil_r.
  - destruct (Hs 0%nat ltac:(lia)) as (d & Ed & Ld & Bd). rewrite Z.add_0_r in Ed. unfold sector_data. rewrite Ed.
    assert (fits buf 0 (length l)) as Hf by (unfold fits; nia). assert (length (splice buf 0 l) = length buf) as Lb by (by apply length_splice).
    rewrite memcpy_splice; [|done|unfold fits; rewrite Lb; nia|unfold fits; lia]. cbn [cbind].
    assert (slice d 0 (Z.to_nat (blksize dev)) = d) as -> by (unfold slice; rewrite drop_0; apply take_ge; lia).
    pose proof (splice_app buf 0 l d ltac:(unfold fits; nia)) as E. rewrite Z.add_0_l in E. rewrite E.
    replace (Z.of_nat (length l) + blksize dev) with (Z.of_nat (length (l ++ d))) by (rewrite length_app; lia).
    rewrite s32_small by lia. rewrite (IH (l ++ d) (b + 1) (Some 0)); [by rewrite <- app_assoc| |lia|rewrite length_app; nia|by right].
    intros k Hk. destruct (Hs (S k) ltac:(lia)) as (d' & Ed' & Bd'). exists d'. split; [|done]. rewrite <- Ed'. f_equal. lia.
Qed.

Lemma sectors_buffer n : forall b, (forall k, (k < n)%nat -> exists d, sector dev (b + Z.of_nat k) = inl d /\ buffer (Z.to_nat (blksize dev)) d) ->
  buffer (n * Z.to_nat (blksize dev)) (sectors dev b n).
Proof.
  induction n as [|n IH]; intros b Hs; cbn [sectors]; [split; [done|constructor]|]. destruct (Hs 0%nat ltac:(lia)) as (d & Ed & Ld & Bd). rewrite Z.add_0_r in Ed.
  unfold sector_data. rewrite Ed. destruct (IH (b + 1)) as [L B].
  { intros k Hk. destruct (Hs (S k) ltac:(lia)) as (d' & Ed' & Bd'). exists d'. split; [|done]. rewrite <- Ed'. f_equal. lia. }
  split; [rewrite length_app; lia|by apply Forall_app].
Qed.

Lemma data_buffer b : readable dev b -> buffer (Z.to_nat BLKSIZE) (data dev b).
Proof.
  intros [_ Hs]. destruct spb_size as [E _]. destruct Hdev as [Hp _]. replace (Z.to_nat BLKSIZE) with (spb dev * Z.to_nat (blksize dev))%nat by lia. by apply sectors_buffer.
Qed.

Lemma read_block_ok buf b : length buf = Z.to_nat BLKSIZE -> readable dev b -> read_block dev buf b = Ok (data dev b).
Proof.
  intros Lb R. pose proof R as [Hb Hs]. destruct spb_size as [E H0]. pose proof (data_buffer b R) as [Ld _]. destruct Hdev as [Hp Hd]. unfold read_block. rewrite decide_False by lia.
  unfold blk_read. rewrite Z.quot_div_nonneg by (unfold BLKSIZE; lia). fold (spb dev).
  pose proof (blk_loop_ok buf (spb dev) [] b None Hs Hb ltac:(cbn [length]; unfold BLKSIZE in *; lia) ltac:(left; lia)) as X. rewrite splice_nil in X. cbn [length app] in X.
  change (Z.of_nat 0) with 0 in X. rewrite X. cbn [cbind fst]. f_equal. unfold splice. change (Z.to_nat 0) with 0%nat. rewrite take_0, drop_ge, app_nil_r; [done|]. fold (data dev b). lia.
Qed.

End device.

(** ** Numbers in a block *)

(** The number whose bytes, the lowest first, are [l]. *)
Fixpoint le (l : list Z) : Z := match l with [] => 0 | c :: l => c + 256 * le l end.
Definition num (m : list Z) (p : Z) (n : nat) : Z := le (slice m p n).

Lemma rd_slice m p : fits m p 1 -> exists c, rd m p = Ok c /\ slice m p 1 = [c].
Proof. intros Hf. destruct (slice1 m p Hf) as (c & E & R). by exists c. Qed.

Lemma le_app l k : le (l ++ k) = le l + 256 ^ Z.of_nat (length l) * le k.
Proof.
  induction l as [|c l IH]; cbn [app le length]; [lia|]. rewrite IH. rewrite Nat2Z.inj_succ, Z.pow_succ_r by lia. lia.
Qed.

Lemma num_split m p a b : fits m p (a + b) -> num m p (a + b) = num m p a + 256 ^ Z.of_nat a * num m (p + Z.of_nat a) b.
Proof. intros Hf. unfold num. rewrite slice_split by done. rewrite le_app, length_slice; [done|unfold fits in *; lia]. Qed.

Lemma ld16_num m p : fits m p 2 -> ld16 m p = Ok (num m p 2).
Proof.
  intros Hf. unfold ld16. destruct (rd_slice m p) as (a & -> & E1); [unfold fits in *; lia|]. destruct (rd_slice m (p + 1)) as (b & -> & E2); [unfold fits in *; lia|]. cbn [cbind].
  pose proof (num_split m p 1 1 Hf) as E. cbn [Nat.add] in E. rewrite E. unfold num. change (Z.of_nat 1) with 1. rewrite E1, E2. cbn [le]. f_equal. lia.
Qed.

Lemma ld32_num m p : fits m p 4 -> ld32 m p = Ok (num m p 4).
Proof.
  intros Hf. unfold ld32. rewrite ld16_num by (unfold fits in *; lia). cbn [cbind]. rewrite ld16_num by (unfold fits in *; lia). cbn [cbind]. pose proof (num_split m p 2 2 Hf) as E. cbn [Nat.add] in E. by rewrite E.
Qed.

Lemma ld64_num m p : fits m p 8 -> ld64 m p = Ok (num m p 8).
Proof.
  intros Hf. unfold ld64. rewrite ld32_num by (unfold fits in *; lia). cbn [cbind]. rewrite ld32_num by (unfold fits in *; lia). cbn [cbind]. pose proof (num_split m p 4 4 Hf) as E. cbn [Nat.add] in E. by rewrite E.
Qed.

(** [n] signed words from [p]. *)
Definition words (m : list Z) (p : Z) (n : nat) : list Z := map (fun i => s32 (num m (p + 4 * Z.of_nat i) 4)) (seq 0 n).

Lemma ldwords_words m n : forall p, fits m p (4 * n) -> ldwords m p n = Ok (words m p n).
Proof.
  induction n as [|n IH]; intros p Hf; [done|]. cbn [ldwords]. unfold lds32. rewrite ld32_num by (unfold fits in *; lia). cbn [cbind]. rewrite IH by (unfold fits in *; lia). cbn [cbind].
  unfold words. cbn [seq map]. rewrite Z.mul_0_r, Z.add_0_r. do 2 f_equal. rewrite <- seq_shift, map_map. apply map_ext. intros i. do 2 f_equal. lia.
Qed.

(** ** Blocks, inodes and files *)

Section disk.
Variable dev : blkdev.
Variable fs : ffs_super.

(** The sector where block [n] of the file system begins, and its bytes. *)
Definition place (n : Z) : Z := n * 2 ^ fs_fsbtodb fs.
Definition block (n : Z) : list Z := data dev (place n).
Definition stored (n : Z) : Prop := 0 < n /\ readable dev (place n).

(** The numbers of the superblock that this needs. *)
Record sound : Prop := {
  sd_shift : 0 <= fs_fsbtodb fs; sd_frag : 0 <= fs_fragshift fs; sd_ipg : 0 < fs_ipg fs; sd_inopb : 0 < fs_inopb fs <= 64;
  sd_fpg : 0 <= fs_fpg fs; sd_off : 0 <= fs_cgoffset fs; sd_iblk : 0 <= fs_iblkno fs; sd_nindir : 0 < fs_nindir fs <= 2048 }.

(** An inode lies in the inode blocks of its cylinder group, [inopb] of them in a block. *)
Definition inode_block (ino : Z) : Z :=
  let c := ino / fs_ipg fs in
  fs_fpg fs * c + fs_cgoffset fs * Z.land c (Z.lnot (fs_cgmask fs)) + fs_iblkno fs + ino mod fs_ipg fs / fs_inopb fs * 2 ^ fs_fragshift fs.
Definition inode_offset (ino : Z) : Z := 128 * (ino mod fs_inopb fs).
(** The inode with its fields at their offsets. *)
Definition inode_in (m : list Z) (p : Z) : ffs_dinode :=
  Dinode (s16 (num m (p + 2) 2)) (num m (p + 8) 8) (words m (p + 40) 12) (words m (p + 88) 3) (s32 (num m (p + 104) 4)) (num m (p + 112) 4) (num m (p + 116) 4).
Definition inode (ino : Z) (di : ffs_dinode) : Prop :=
  0 <= ino < 2 ^ 31 /\ stored (inode_block ino) /\ di = inode_in (block (inode_block ino)) (inode_offset ino).

(** The number of block [k] of a file: of the first twelve in the inode, of the next ones in
  the indirect block.  A block number of 0 is a hole. *)
Definition block_number (di : ffs_dinode) (k : Z) : option Z :=
  if decide (k < 12) then di_db di !! Z.to_nat k
  else if decide (k < 12 + fs_nindir fs) then
    match di_ib di with ib :: _ => if decide (ib = 0) then Some 0 else Some (s32 (num (block ib) (4 * (k - 12)) 4)) | [] => None end
  else None.

(** [content] is the file: no block of it is a hole or lies behind two levels of indirection. *)
Record stores (di : ffs_dinode) (content : list Z) : Prop := {
  so_size : Z.of_nat (length content) = di_size di;
  so_indirect : forall ib l, 12 * BLKSIZE < di_size di -> di_ib di = ib :: l -> stored ib;
  so_block : forall k, 0 <= k -> k * BLKSIZE < di_size di -> exists n, block_number di k = Some n /\ stored n /\
    forall j, (j < Z.to_nat BLKSIZE)%nat -> k * BLKSIZE + Z.of_nat j < di_size di -> block n !! j = content !! (Z.to_nat (k * BLKSIZE) + j)%nat }.

(** ** What the driver computes *)

Hypothesis Hdev : good_dev dev.
Hypothesis Hfs : sound.
Lemma stores_max di content : stores di content -> di_size di <= (12 + fs_nindir fs) * BLKSIZE.
Proof.
  intros [_ _ Hb]. destruct (decide (di_size di <= (12 + fs_nindir fs) * BLKSIZE)) as [?|Hgt]; [done|]. destruct Hfs as [_ _ _ _ _ _ _ S8]. destruct (Hb (12 + fs_nindir fs)) as (n & E & _); [lia|lia|].
  unfold block_number in E. rewrite !decide_False in E by lia. done.
Qed.

Lemma fsbtodb_place n : stored n -> fsbtodb fs n = place n.
Proof. intros [_ [[H1 H2] _]]. destruct Hfs. unfold fsbtodb. rewrite Z.shiftl_mul_pow2 by done. apply s32_small. unfold place in *. lia. Qed.

Lemma block_buffer n : stored n -> buffer (Z.to_nat BLKSIZE) (block n).
Proof. intros [_ R]. by apply data_buffer. Qed.

Lemma read_stored buf n : length buf = Z.to_nat BLKSIZE -> stored n -> read_block dev buf (fsbtodb fs n) = Ok (block n).
Proof. intros Lb H. rewrite (fsbtodb_place n H). apply read_block_ok; [done|done|apply H]. Qed.

Variable junk : list Z.
Hypothesis Hjunk : length junk = Z.to_nat BLKSIZE.

Lemma inode_fsba ino : 0 <= ino < 2 ^ 31 -> stored (inode_block ino) -> ino_to_fsba fs ino = Ok (inode_block ino) /\ ino_to_fsbo fs ino * sizeof_dinode = inode_offset ino.
Proof.
  intros Hi [_ [[H1 H2] _]]. destruct Hfs as [S1 S2 S3 S4 S5 S6 S7 _]. unfold ino_to_fsba. rewrite decide_False by lia. rewrite Z.quot_div_nonneg, Z.rem_mod_nonneg by lia. pose proof (Z.mod_pos_bound ino (fs_ipg fs) ltac:(lia)) as Hm. rewrite Z.quot_div_nonneg by lia.
  unfold ino_to_fsbo, sizeof_dinode, inode_offset. rewrite Z.rem_mod_nonneg by lia. split; [|lia]. f_equal. unfold cgimin, cgstart, cgbase, blkstofrags. rewrite Z.shiftl_mul_pow2 by done.
  assert (0 <= ino / fs_ipg fs) as Hc by (apply Z.div_pos; lia). assert (0 <= Z.land (ino / fs_ipg fs) (Z.lnot (fs_cgmask fs))) as Hl by (apply Z.land_nonneg; by left).
  assert (0 <= ino mod fs_ipg fs / fs_inopb fs) as Hd by (apply Z.div_pos; lia). pose proof (Z.pow_pos_nonneg 2 (fs_fragshift fs) ltac:(lia) S2) as Hp. pose proof (Z.pow_pos_nonneg 2 (fs_fsbtodb fs) ltac:(lia) S1) as Hq.
  unfold place in *. assert (inode_block ino < 2 ^ 31) as Hb by nia. unfold inode_block in *. revert Hb Hl. set (c := ino / fs_ipg fs) in *. set (w := Z.land c _). set (d := ino mod fs_ipg fs / fs_inopb fs) in *. intros Hb Hl.
  assert (0 <= fs_fpg fs * c) by nia. assert (0 <= fs_cgoffset fs * w) by nia. assert (0 <= d * 2 ^ fs_fragshift fs) by nia.
  rewrite (u32_small (fs_fpg fs * c)) by lia. rewrite (u32_small (fs_fpg fs * c + _)) by lia. rewrite (u32_small (fs_fpg fs * c + _ + _)) by lia. rewrite u32_small by lia. reflexivity.
Qed.

Lemma as_dinode_in m p : fits m p 128 -> as_dinode m p = Ok (inode_in m p).
Proof.
  intros Hf. unfold as_dinode. rewrite ld16_num by (unfold fits in *; lia). cbn [cbind]. rewrite ld64_num by (unfold fits in *; lia). cbn [cbind]. rewrite ldwords_words by (unfold fits in *; lia). cbn [cbind]. rewrite ldwords_words by (unfold fits in *; lia). cbn [cbind].
  unfold lds32. rewrite !ld32_num by (unfold fits in *; lia). cbn [cbind]. done.
Qed.

Lemma read_vnode_ok ino di : inode ino di -> ffs_read_vnode dev junk fs ino = Ok di.
Proof.
  intros (Hi & Hs & ->). unfold ffs_read_vnode. rewrite s32_small by lia. destruct (inode_fsba ino Hi Hs) as [-> ->]. cbn [cbind]. rewrite read_stored by done. cbn [cbind]. apply as_dinode_in.
  destruct (block_buffer _ Hs) as [L _]. destruct Hfs as [_ _ _ S4 _ _ _ _]. pose proof (Z.mod_pos_bound ino (fs_inopb fs) ltac:(lia)). unfold fits, inode_offset, BLKSIZE in *. lia.
Qed.

Lemma inode_fun ino di di' : inode ino di -> inode ino di' -> di = di'.
Proof. intros (_ & _ & ->) (_ & _ & ->). done. Qed.

(** The block map of the driver is that of the file system. *)
Lemma fbtofsb_ok di k n : 0 <= k -> (12 <= k -> forall ib l, di_ib di = ib :: l -> stored ib) -> block_number di k = Some n -> ffs_fbtofsb dev junk fs di k = Ok n.
Proof.
  intros Hk Hi E. destruct Hfs as [_ _ _ _ _ _ _ S8]. unfold block_number in E. unfold ffs_fbtofsb. change NDADDR with 12. destruct (decide (k < 12)) as [H12|H12].
  - unfold aget. rewrite decide_True by lia. by rewrite E.
  - destruct (decide (k < 12 + fs_nindir fs)) as [Hn|Hn]; [|done]. rewrite u32_small by lia. rewrite decide_True by lia. destruct (di_ib di) as [|ib l] eqn:Eb; [done|]. change (aget (ib :: l) 0) with (Some ib). cbn [deref cbind].
    pose proof (Hi ltac:(lia) ib l eq_refl) as Hib. rewrite decide_False in E by (destruct Hib; lia). injection E as <-. rewrite read_stored by done. cbn [cbind]. unfold lds32. rewrite ld32_num; [done|]. destruct (block_buffer _ Hib) as [L _]. unfold fits, BLKSIZE in *. lia.
Qed.

End disk.

End FfsDisk.
