(* ===== verification/FfsRead.v ===== *)
(** The driver for the file system of BSD: what ffs_read delivers. *)
From S2P Require Import Prelude LibC Bytes Ffs FfsDisk.
Import LibC Bytes Ffs FfsDisk.
Local Open Scope Z_scope.
Local Open Scope c_scope.

Module FfsRead.

Section device.
Variable dev : blkdev.
Hypothesis Hdev : good_dev dev.

(** ** Files *)

Section file.
Variable junk : list Z.
Hypothesis Hjunk : length junk = Z.to_nat BLKSIZE.
Variable fs : ffs_super.
Variable di : ffs_dinode.
Variable content : list Z.

Hypothesis Hfs : sound fs.
Hypothesis Hst : stores dev fs di content.

(** The block with a byte of the file: its part within the file is that of the content. *)
Lemma file_block_ok temp pos : length temp = Z.to_nat BLKSIZE -> 0 <= pos < di_size di ->
  exists t, file_block dev junk fs di temp pos = Ok t /\ buffer (Z.to_nat BLKSIZE) t /\
    forall n, 0 <= n -> pos mod BLKSIZE + n <= BLKSIZE -> pos + n <= di_size di -> slice t (pos mod BLKSIZE) (Z.to_nat n) = slice content pos (Z.to_nat n).
Proof.
  intros Lt Hp. pose proof (stores_max dev fs Hfs di content Hst) as Hm. pose proof (sd_nindir _ Hfs) as Hn12. destruct Hst as [Hs Hind Hb]. pose proof (Z.div_mod pos BLKSIZE ltac:(done)) as Edm. pose proof (Z.mod_pos_bound pos BLKSIZE ltac:(done)) as Hmod.
  assert (0 <= pos / BLKSIZE < 2 ^ 32) as Hq by (split; [apply Z.div_pos; [lia|done]|apply Z.div_lt_upper_bound; [done|unfold BLKSIZE in *; lia]]).
  destruct (Hb (pos / BLKSIZE)) as (b & Eb & R & Hd); [lia|lia|]. assert (ffs_fbtofsb dev junk fs di (pos / BLKSIZE) = Ok b) as Ef.
  { apply fbtofsb_ok; [done|done|done|lia| |done]. intros H12 ib l. apply Hind. unfold BLKSIZE in *. lia. } unfold file_block. rewrite Z.quot_div_nonneg by (done || lia). rewrite u32_small by lia. rewrite Ef. cbn [cbind].
  rewrite (read_stored dev fs Hdev Hfs temp b) by done. eexists. split; [reflexivity|]. pose proof (block_buffer dev fs Hdev b R) as Bd. split; [done|]. intros n Hn H1 H2. apply list_eq. intros i.
  destruct (decide (i < Z.to_nat n)%nat) as [Hi|Hi].
  - unfold slice. rewrite !lookup_take_lt, !lookup_drop by done. rewrite Hd by (unfold BLKSIZE in *; lia). f_equal. unfold BLKSIZE in *. lia.
  - destruct Bd as [Ld _]. rewrite !lookup_ge_None_2; [done| |]; rewrite length_slice by (unfold fits, BLKSIZE in *; lia); lia.
Qed.

(** What has been read so far. *)
Definition got (buf : list Z) (pos : Z) (n : Z) : list Z := splice buf 0 (slice content pos (Z.to_nat n)).

Lemma slice_more p a b : 0 <= p -> 0 <= a -> 0 <= b -> p + a + b <= di_size di ->
  slice content p (Z.to_nat (a + b)) = slice content p (Z.to_nat a) ++ slice content (p + a) (Z.to_nat b).
Proof.
  intros. rewrite Z2Nat.inj_add by lia. rewrite slice_split by (unfold fits; rewrite (so_size _ _ _ _ Hst); lia). by rewrite Z2Nat.id by lia.
Qed.

(** One more piece of the file behind what was read. *)
Lemma got_more buf pos n t off len : 0 <= pos -> 0 <= n -> 0 <= len -> pos + n + len <= di_size di -> n + len <= Z.of_nat (length buf) ->
  bytes t -> fits t off (Z.to_nat len) -> slice t off (Z.to_nat len) = slice content (pos + n) (Z.to_nat len) ->
  memcpy (got buf pos n) n t off (Z.to_nat len) = Ok (got buf pos (n + len)).
Proof.
  intros Hp Hn Hl Hs Hb Bt Ft Et. assert (length (slice content pos (Z.to_nat n)) = Z.to_nat n) as L1 by (apply length_slice; unfold fits; rewrite (so_size _ _ _ _ Hst); lia).
  assert (length (slice content (pos + n) (Z.to_nat len)) = Z.to_nat len) as L2 by (apply length_slice; unfold fits; rewrite (so_size _ _ _ _ Hst); lia).
  unfold got. rewrite memcpy_splice; [|done|unfold fits; rewrite length_splice by (unfold fits; lia); lia|done].
  rewrite Et, slice_more by lia. pose proof (splice_app buf 0 (slice content pos (Z.to_nat n)) (slice content (pos + n) (Z.to_nat len)) ltac:(unfold fits; lia)) as E.
  rewrite L1, Z.add_0_l, Z2Nat.id in E by lia. by rewrite E.
Qed.

(** The loop over whole blocks ends early: its counter goes up while its bound goes down. *)
Lemma whole_blocks_ok buf pos0 count fuel : forall temp n i, length temp = Z.to_nat BLKSIZE -> 0 <= pos0 -> 0 <= n <= count -> 0 <= i ->
  pos0 + count <= di_size di -> count <= Z.of_nat (length buf) -> (pos0 + n) mod BLKSIZE = 0 -> Z.max 0 ((count - n) / BLKSIZE - i) < Z.of_nat fuel ->
  let k := Z.max 0 (((count - n) / BLKSIZE - i + 1) / 2) in
  exists t, length t = Z.to_nat BLKSIZE /\
    whole_blocks dev junk fs di (got buf pos0 n) temp count (pos0 + n) n i fuel = Ok (got buf pos0 (n + k * BLKSIZE), t, pos0 + (n + k * BLKSIZE), n + k * BLKSIZE).
Proof.
  induction fuel as [|fuel IH]; intros temp n i Lt Hp Hn Hi Hs Hb Ha Hf k; [lia|]. cbn [whole_blocks].
  destruct (decide (i < (count - n) / BLKSIZE)) as [Hlt|Hge].
  - assert (n + BLKSIZE <= count /\ (count - (n + BLKSIZE)) / BLKSIZE = (count - n) / BLKSIZE - 1) as [Hc Hd].
    { replace (count - (n + BLKSIZE)) with (count - n + (-1) * BLKSIZE) by lia. rewrite Z_div_plus_full by done. split; [|lia]. pose proof (Z.mul_div_le (count - n) BLKSIZE ltac:(done)). unfold BLKSIZE in *. nia. }
    destruct (file_block_ok temp (pos0 + n) Lt) as (t & -> & [L B] & Hsl); [unfold BLKSIZE in *; lia|]. cbn [cbind]. rewrite Ha in Hsl.
    rewrite got_more; [|unfold BLKSIZE in *; lia..|done|unfold fits, BLKSIZE in *; lia|apply Hsl; unfold BLKSIZE in *; lia]. cbn [cbind].
    destruct (IH t (n + BLKSIZE) (i + 1)) as (t' & Lt' & E); [done|done|unfold BLKSIZE in *; lia|lia|done|done| |lia|].
    { replace (pos0 + (n + BLKSIZE)) with (pos0 + n + 1 * BLKSIZE) by lia. by rewrite Z_mod_plus_full. }
    exists t'. split; [done|]. rewrite Hd in E. replace (pos0 + n + BLKSIZE) with (pos0 + (n + BLKSIZE)) by lia. rewrite E.
    assert (n + BLKSIZE + Z.max 0 (((count - n) / BLKSIZE - 1 - (i + 1) + 1) / 2) * BLKSIZE = n + k * BLKSIZE) as ->; [|done].
    unfold k. replace ((count - n) / BLKSIZE - i + 1) with ((count - n) / BLKSIZE - 1 - (i + 1) + 1 + 1 * 2) by lia. rewrite Z_div_plus_full by lia.
    assert (0 <= ((count - n) / BLKSIZE - 1 - (i + 1) + 1) / 2) as Hx by (set (x := (count - n) / BLKSIZE) in *; Z.div_mod_to_equations; lia).
    revert Hx. generalize (((count - n) / BLKSIZE - 1 - (i + 1) + 1) / 2). unfold BLKSIZE. lia.
  - exists temp. split; [done|]. assert (k = 0) as ->.
    { unfold k. set (x := (count - n) / BLKSIZE) in *. assert ((x - i + 1) / 2 <= 0) by (Z.div_mod_to_equations; lia). lia. }
    by rewrite Z.mul_0_l, Z.add_0_r.
Qed.

(** How many bytes are left for the last copy of a read of [n] bytes from [pos]. *)
Definition first_part (pos n : Z) : Z := if decide (pos mod BLKSIZE = 0) then 0 else Z.min n (BLKSIZE - pos mod BLKSIZE).
Definition left_over (pos n : Z) : Z := let r := n - first_part pos n in r - (r / BLKSIZE + 1) / 2 * BLKSIZE.

(** The bytes that a read delivers. *)
Definition delivered (count pos : Z) : Z := Z.max 0 (Z.min count (di_size di - pos)).

(** The rest of a read, behind the part that is not aligned. *)
Lemma read_rest buf pos n temp m : 0 <= pos -> 0 < n -> pos + n <= di_size di -> n <= Z.of_nat (length buf) ->
  length temp = Z.to_nat BLKSIZE -> m = first_part pos n -> m <= n -> (m < n -> (pos + m) mod BLKSIZE = 0) ->
  (if decide (m = n) then Ok (got buf pos m, m) else
    let! (buf, temp, pos, numbytes) := whole_blocks dev junk fs di (got buf pos m) temp n (pos + m) m 0 (S (Z.to_nat (n / BLKSIZE))) in
    if decide (numbytes = n) then Ok (buf, numbytes) else
    let! temp := file_block dev junk fs di temp pos in
    let len := n - numbytes in
    let! buf := memcpy buf numbytes temp 0 (Z.to_nat len) in
    Ok (buf, numbytes + len))
  = if decide (left_over pos n <= BLKSIZE) then Ok (got buf pos n, n) else Fault.
Proof.
  intros Hp Hn Hpn Hnb Lt Em Hmn Ha. pose proof (Z.mod_pos_bound pos BLKSIZE ltac:(done)) as Hm. assert (0 <= m) as Hm0. { rewrite Em. unfold first_part. destruct (decide _); lia. }
  destruct (decide (m = n)) as [E|Hne].
  { rewrite decide_True; [by rewrite E|]. unfold left_over. rewrite <- Em, E, Z.sub_diag. done. }
  destruct (whole_blocks_ok buf pos n (S (Z.to_nat (n / BLKSIZE))) temp m 0 Lt Hp ltac:(lia) ltac:(lia) Hpn ltac:(lia) (Ha ltac:(lia))) as (t & Lt' & ->).
  { rewrite Z.sub_0_r. assert ((n - m) / BLKSIZE <= n / BLKSIZE) by (apply Z.div_le_mono; [done|lia]). pose proof (Z.div_pos n BLKSIZE ltac:(lia) ltac:(done)). lia. }
  rewrite Z.sub_0_r. cbn [cbind]. assert (0 <= (n - m) / BLKSIZE) as HD by (apply Z.div_pos; [lia|done]).
  rewrite Z.max_r by (apply Z.div_pos; lia). set (k := ((n - m) / BLKSIZE + 1) / 2). assert (left_over pos n = n - (m + k * BLKSIZE)) as -> by (unfold left_over, k; rewrite <- Em; lia).
  assert (0 <= k /\ k * BLKSIZE <= n - m) as [Hk Hk'].
  { split; [apply Z.div_pos; lia|]. assert (k <= (n - m) / BLKSIZE \/ (n - m) / BLKSIZE = 0 /\ k = 0) as [?|[_ ->]]; [unfold k; set (D := (n - m) / BLKSIZE) in *; Z.div_mod_to_equations; lia| |lia].
    pose proof (Z.mul_div_le (n - m) BLKSIZE ltac:(done)). unfold BLKSIZE in *. lia. }
  set (q := m + k * BLKSIZE). assert (0 <= q <= n) as Hq by (unfold q, BLKSIZE in *; lia).
  destruct (decide (q = n)) as [E|Hqn]; [rewrite decide_True by (rewrite E, Z.sub_diag; done); by rewrite E|].
  destruct (file_block_ok t (pos + q) Lt') as (t' & -> & [L' B'] & Hsl); [lia|]. cbn [cbind].
  assert ((pos + q) mod BLKSIZE = 0) as Hz by (unfold q; rewrite Z.add_assoc, Z_mod_plus_full; apply Ha; lia). rewrite Hz in Hsl.
  destruct (decide (n - q <= BLKSIZE)) as [Hle|Hgt].
  - rewrite got_more; [|lia..|done|unfold fits; lia|apply Hsl; lia]. cbn [cbind]. by replace (q + (n - q)) with n by lia.
  - unfold memcpy. rewrite fetch_fault; [done|lia|lia].
Qed.

Lemma ffs_read_run buf count pos : 0 <= pos -> 0 <= count < 2 ^ 32 -> pos + count < 2 ^ 63 -> count <= Z.of_nat (length buf) ->
  ffs_read dev junk fs di buf count pos =
    if decide (left_over pos (delivered count pos) <= BLKSIZE) then Ok (got buf pos (delivered count pos), delivered count pos) else Fault.
Proof.
  intros Hp Hc Hpc Hb. unfold ffs_read. pose proof (so_size _ _ _ _ Hst) as Hsz. assert (forall k, got buf k 0 = buf) as G0 by (intros; unfold got; apply splice_nil).
  assert (forall p, left_over p 0 = 0) as L0. { intros q. unfold left_over, first_part. pose proof (Z.mod_pos_bound q BLKSIZE ltac:(done)). destruct (decide _); [done|]. rewrite Z.min_l by (unfold BLKSIZE in *; lia). done. }
  destruct (decide (count = 0)) as [->|Hc0].
  { replace (delivered 0 pos) with 0 by (unfold delivered; lia). rewrite L0, G0. done. }
  rewrite (Z.mod_small pos) by lia. destruct (decide (di_size di <= pos)) as [Hend|Hin].
  { replace (delivered count pos) with 0 by (unfold delivered; lia). rewrite L0, G0. done. }
  rewrite (Z.mod_small (pos + count)) by lia. set (n := if decide (di_size di < pos + count) then u32 (di_size di - pos) else count).
  assert (n = delivered count pos /\ 0 < n /\ pos + n <= di_size di /\ n <= count) as (<- & Hn & Hpn & Hnc).
  { unfold n, delivered. destruct (decide _); [rewrite u32_small by lia|]; lia. }
  clearbody n. rewrite Z.rem_mod_nonneg by (done || lia). pose proof (Z.mod_pos_bound pos BLKSIZE ltac:(done)) as Hm.
  destruct (decide (pos mod BLKSIZE <> 0)) as [Hoff|Hoff].
  - destruct (file_block_ok junk pos Hjunk) as (t & -> & [Lt Bt] & Hsl); [lia|]. cbn [cbind]. set (len := if decide (n < BLKSIZE - pos mod BLKSIZE) then n else BLKSIZE - pos mod BLKSIZE).
    assert (len = first_part pos n /\ 0 <= len <= n /\ pos mod BLKSIZE + len <= BLKSIZE) as (El & Hl & Hl').
    { unfold len, first_part. rewrite (decide_False (P := pos mod BLKSIZE = 0)) by done. destruct (decide (n < BLKSIZE - pos mod BLKSIZE)); split_and!; try lia. }
    rewrite <- (G0 pos) at 1. rewrite got_more; [|lia..|done|unfold fits; lia|]. 2:{ rewrite Z.add_0_r. apply Hsl; lia. }
    cbn [cbind]. rewrite Z.add_0_l. apply read_rest; [lia|lia|lia|lia|done|done|lia|]. intros Hlt. assert (len = BLKSIZE - pos mod BLKSIZE) as -> by (revert Hlt; unfold len; destruct (decide (n < BLKSIZE - pos mod BLKSIZE)); lia).
    rewrite (Z.div_mod pos BLKSIZE) at 1 by done. replace (BLKSIZE * (pos / BLKSIZE) + pos mod BLKSIZE + (BLKSIZE - pos mod BLKSIZE)) with ((pos / BLKSIZE + 1) * BLKSIZE) by ring. by apply Z.mod_mul.
  - apply dec_stable in Hoff. cbn [cbind]. pose proof (read_rest buf pos n junk 0 Hp Hn Hpn ltac:(lia) Hjunk) as X. rewrite G0, Z.add_0_r in X. apply X; [|lia|done]. unfold first_part. by rewrite decide_True by done.
Qed.

End file.

End device.

(** A read of less than two blocks leaves no more than a block to the last copy. *)
Lemma left_over_small pos n : 0 <= n < 2 * BLKSIZE -> left_over pos n <= BLKSIZE.
Proof.
  intros Hn. unfold left_over, first_part. pose proof (Z.mod_pos_bound pos BLKSIZE ltac:(done)) as Hm. set (f := if decide _ then _ else _).
  assert (0 <= f) as Hf by (unfold f; destruct (decide _); lia). assert (n - f < 2 * BLKSIZE) as Hr by lia. clearbody f. destruct (decide (n - f < 0)) as [Hneg|Hpos].
  - revert Hr Hneg. unfold BLKSIZE. intros. Z.div_mod_to_equations. lia.
  - revert Hr Hpos. unfold BLKSIZE. intros. Z.div_mod_to_equations. lia.
Qed.

(** C12. ffs_read of a file without holes, all of whose blocks are in the inode or in the
  indirect block and on readable sectors: it delivers exactly the bytes of the file from the
  position on, as many as were asked for and as the file has, and leaves the rest of the
  buffer alone, for every read of less than two blocks, and for a longer one exactly if the
  loop over whole blocks, which stops half-way, leaves no more than one block.  Otherwise the
  last copy reads beyond its buffer.  The bytes of the file are those of the blocks that the
  inode and the indirect block list on the disk (FfsDisk.stores). *)
Theorem ffs_read_delivers (dev : blkdev) (junk : list Z) (fs : ffs_super) (di : ffs_dinode) (content buf : list Z) (count pos : Z)
  (Hdev : good_dev dev) (Hjunk : length junk = Z.to_nat BLKSIZE) (Hfs : sound fs) (Hst : stores dev fs di content)
  (Hpos : 0 <= pos) (Hcount : 0 <= count < 2 ^ 32) (Hsum : pos + count < 2 ^ 63) (Hbuf : count <= Z.of_nat (length buf)) :
  let n := delivered di count pos in
  (n < 2 * BLKSIZE \/ left_over pos n <= BLKSIZE ->
     ffs_read dev junk fs di buf count pos = Ok (splice buf 0 (slice content pos (Z.to_nat n)), n)) /\
  (BLKSIZE < left_over pos n -> ffs_read dev junk fs di buf count pos = Fault).
Proof.
  intros n. rewrite (ffs_read_run dev Hdev junk Hjunk fs di content Hfs Hst buf count pos) by done. fold n. split.
  - intros H. rewrite decide_True; [done|]. destruct H as [H|H]; [|done]. apply left_over_small. unfold n, delivered in *. lia.
  - intros H. rewrite decide_False by lia. done.
Qed.

(** A disk of sectors that hold their numbers, but for those of an indirect block, which names
  block 20 first; and a file of 13 blocks, the last one short. *)
Definition demo_indirect : list Z := [20; 0; 0; 0] ++ replicate (Z.to_nat 508) 0.
Definition demo_dev : blkdev := Dev 512 (fun b => inl (if decide (b = 16 * 15) then demo_indirect else replicate 512 (b mod 256))).
Definition demo_fs : ffs_super := Super 0 0 0 0 4 2048 64 64 4096.
Definition demo_di : ffs_dinode := Dinode 1 98404 [1; 2; 3; 4; 5; 6; 7; 8; 9; 10; 11; 12] [15; 0; 0] 14 0 0.
Definition demo_content : list Z := take (Z.to_nat 98404) (concat (map (block demo_dev demo_fs) [1; 2; 3; 4; 5; 6; 7; 8; 9; 10; 11; 12; 20])).
Definition demo_junk : list Z := replicate (Z.to_nat BLKSIZE) 0.

Lemma demo_dev_ok : good_dev demo_dev /\ forall b, 0 <= b < 2 ^ 30 -> readable demo_dev b.
Proof.
  split; [split; [done|by exists 16]|]. intros b Hb. split; [change (spb demo_dev) with 16%nat; lia|]. intros k Hk. eexists. split; [reflexivity|].
  change (Z.to_nat (blksize demo_dev)) with 512%nat. destruct (decide _).
  - unfold demo_indirect. split; [rewrite length_app, length_replicate; reflexivity|]. apply Forall_app. split; [repeat constructor; lia|apply Forall_replicate; lia].
  - split; [apply length_replicate|]. apply Forall_replicate. apply Z.mod_pos_bound. lia.
Qed.

Lemma demo_sound : sound demo_fs.
Proof. split; cbn; lia. Qed.

Lemma demo_stored n : 0 < n < 2 ^ 20 -> stored demo_dev demo_fs n.
Proof. intros Hn. split; [lia|]. apply (proj2 demo_dev_ok). unfold place. cbn [demo_fs fs_fsbtodb]. lia. Qed.

(** Byte [j] of block [k] of blocks one after the other. *)
Lemma concat_blocks (ns : list Z) : Forall (fun n => 0 < n < 2 ^ 20) ns -> forall k n j, ns !! k = Some n -> (j < Z.to_nat BLKSIZE)%nat ->
  concat (map (block demo_dev demo_fs) ns) !! (k * Z.to_nat BLKSIZE + j)%nat = block demo_dev demo_fs n !! j.
Proof.
  induction 1 as [|m ns Hm _ IH]; intros k n j Hk Hj; [by rewrite lookup_nil in Hk|]. destruct (block_buffer demo_dev demo_fs (proj1 demo_dev_ok) m (demo_stored m Hm)) as [L _]. cbn [map concat].
  destruct k as [|k]; cbn [lookup list_lookup] in Hk.
  - injection Hk as <-. rewrite lookup_app_l by lia. f_equal.
  - rewrite lookup_app_r by lia. rewrite L. replace (S k * Z.to_nat BLKSIZE + j - Z.to_nat BLKSIZE)%nat with (k * Z.to_nat BLKSIZE + j)%nat by lia. by apply IH.
Qed.

Lemma concat_length (ns : list Z) : Forall (fun n => 0 < n < 2 ^ 20) ns -> Z.of_nat (length (concat (map (block demo_dev demo_fs) ns))) = Z.of_nat (length ns) * BLKSIZE.
Proof.
  induction 1 as [|m ns Hm _ IH]; [done|]. destruct (block_buffer demo_dev demo_fs (proj1 demo_dev_ok) m (demo_stored m Hm)) as [L _]. cbn [map concat length]. rewrite length_app, L. unfold BLKSIZE in *. lia.
Qed.

Lemma demo_stores : stores demo_dev demo_fs demo_di demo_content.
Proof.
  set (ns := [1; 2; 3; 4; 5; 6; 7; 8; 9; 10; 11; 12; 20]). assert (Forall (fun n => 0 < n < 2 ^ 20) ns) as Hns by (repeat constructor; lia). pose proof (concat_length ns Hns) as Hlen. change (Z.of_nat (length ns)) with 13 in Hlen.
  split.
  - unfold demo_content. fold ns. rewrite length_take. cbn [demo_di di_size]. unfold BLKSIZE in *. lia.
  - intros ib l _ [= <- <-]. apply demo_stored. lia.
  - cbn [demo_di di_size]. intros k Hk Hlt. assert (k < 13) as Hk13 by (unfold BLKSIZE in *; lia). destruct (lookup_lt_is_Some_2 ns (Z.to_nat k)) as [n Hn]; [cbn; lia|]. exists n.
    assert (block_number demo_dev demo_fs demo_di k = Some n) as Eb.
    { unfold block_number. destruct (decide (k < 12)) as [H12|H12].
      - rewrite <- Hn. cbn [demo_di di_db]. replace ns with ([1; 2; 3; 4; 5; 6; 7; 8; 9; 10; 11; 12] ++ [20]) by reflexivity. rewrite lookup_app_l by (cbn [length]; lia). reflexivity.
      - assert (k = 12) as -> by lia. cbn in Hn. injection Hn as <-. rewrite decide_True by (cbn; lia). cbn [demo_di di_ib]. rewrite decide_False by lia. vm_compute. reflexivity. }
    split; [exact Eb|]. rewrite Forall_lookup in Hns. split; [apply demo_stored; by apply (Hns _ _ Hn)|]. intros j Hj Hs. unfold demo_content. fold ns. rewrite lookup_take_lt by (unfold BLKSIZE in *; lia).
    rewrite <- (concat_blocks ns ltac:(by apply Forall_lookup) (Z.to_nat k) n j Hn Hj). f_equal. unfold BLKSIZE. lia.
Qed.

Lemma ffs_read_delivers_witness : ffs_read demo_dev demo_junk demo_fs demo_di (replicate (Z.to_nat 9000) 0) 9000 90000 = Ok (splice (replicate (Z.to_nat 9000) 0) 0 (slice demo_content 90000 (Z.to_nat 8404)), 8404).
Proof.
  destruct (ffs_read_delivers demo_dev demo_junk demo_fs demo_di demo_content (replicate (Z.to_nat 9000) 0) 9000 90000) as [H _].
  - exact (proj1 demo_dev_ok).
  - apply length_replicate.
  - exact demo_sound.
  - exact demo_stores.
  - lia.
  - lia.
  - lia.
  - rewrite length_replicate. lia.
  - change (delivered demo_di 9000 90000) with 8404 in H. apply H. left. unfold BLKSIZE. lia.
Defined.

End FfsRead.
