(* ===== verification/FfsDir.v ===== *)
(** The driver for the file system of BSD: directories. Paths are resolved as in the tree
  that the disk holds, and a directory is listed entry by entry. *)
From S2P Require Import Prelude LibC Bytes Ffs FfsDisk.
Import LibC Bytes Ffs FfsDisk.
Local Open Scope Z_scope.
Local Open Scope c_scope.

Module FfsDir.

(** ** Directory blocks *)

Record entry := Entry { e_ino : Z; e_name : list Z; e_reclen : Z }.
(** An entry with the number 0 is free (dir.h). *)
Definition in_use (e : entry) : Prop := e_ino e <> 0.
#[export] Instance in_use_dec e : Decision (in_use e).
Proof. unfold in_use. apply _. Defined.

(** The entries fill the block from [off] to its end. *)
Fixpoint laid (buf : list Z) (off : Z) (es : list entry) : Prop :=
  match es with
  | [] => off = BLKSIZE
  | e :: es =>
      (0 <= off /\ num buf off 4 = e_ino e /\ num buf (off + 4) 2 = e_reclen e) /\ str_at buf (off + 8) (e_name e) /\
      0 < e_reclen e /\ laid buf (off + e_reclen e) es
  end.

(** The number of the first entry with a name. *)
Fixpoint lookup_name (es : list entry) (name : list Z) : option Z :=
  match es with
  | [] => None
  | e :: es => if decide (e_name e = name) then Some (e_ino e) else lookup_name es name
  end.

Lemma lookup_name_app es1 es2 name : lookup_name (es1 ++ es2) name = match lookup_name es1 name with Some i => Some i | None => lookup_name es2 name end.
Proof. induction es1 as [|e es1 IH]; [done|]. cbn [app lookup_name]. by destruct (decide _). Qed.

Section device.
Variable dev : blkdev.
Hypothesis Hdev : good_dev dev.
Variable junk : list Z.
Hypothesis Hjunk : length junk = Z.to_nat BLKSIZE.
Variable fs : ffs_super.
Hypothesis Hfs : sound fs.

Lemma laid_lt buf off e es : length buf = Z.to_nat BLKSIZE -> laid buf off (e :: es) -> off < BLKSIZE.
Proof. intros Lb (_ & Hs & _). apply str_at_range in Hs. unfold BLKSIZE in *. lia. Qed.

Lemma laid_head buf off e es : length buf = Z.to_nat BLKSIZE -> laid buf off (e :: es) -> ld32 buf off = Ok (e_ino e) /\ ld16 buf (off + 4) = Ok (e_reclen e).
Proof. intros Lb ((H0 & <- & <-) & Hs & _). apply str_at_range in Hs. split; [apply ld32_num|apply ld16_num]; unfold fits, BLKSIZE in *; lia. Qed.

Lemma find_entry_ok buf m p name fuel : length buf = Z.to_nat BLKSIZE -> str_at m p name -> forall es off, laid buf off es -> BLKSIZE - off < Z.of_nat fuel ->
  find_entry buf off m p fuel = Ok (lookup_name es name).
Proof.
  intros Lb Hm. induction fuel as [|fuel IH]; intros es off Hl Hf.
  - destruct es as [|e es]; [cbn in Hl; lia|]. pose proof (laid_lt _ _ _ _ Lb Hl). lia.
  - cbn [find_entry]. destruct es as [|e es]; [cbn in Hl; rewrite decide_False by lia; done|]. rewrite decide_True by (by eapply laid_lt). destruct (laid_head _ _ _ _ Lb Hl) as [Hi Hr]. destruct Hl as (_ & Hs & H0 & Hl).
    destruct (strcmp_ok buf (off + 8) m p (e_name e) name Hs Hm) as (c & -> & Hc). cbn [cbind lookup_name]. destruct (decide (c = 0)) as [E|E].
    + rewrite decide_True by (by apply Hc). rewrite Hi. done.
    + rewrite decide_False by (rewrite <- Hc; done). rewrite Hr. cbn [cbind]. apply IH; [done|lia].
Qed.

(** A directory whose blocks hold [es]. *)
Definition dir_blocks (db : list Z) (ents : Z -> list entry) : Prop :=
  forall b, b ∈ db -> b <> 0 -> stored dev fs b /\ laid (block dev fs b) 0 (ents b).
Definition dir_entries (db : list Z) (ents : Z -> list entry) : list entry := concat (map ents (filter (fun b => b <> 0) db)).

Lemma find_block_ok ents m p name : str_at m p name -> forall db buf, length buf = Z.to_nat BLKSIZE -> dir_blocks db ents ->
  find_block dev fs buf db m p = Ok (lookup_name (dir_entries db ents) name).
Proof.
  intros Hm. induction db as [|b db IH]; intros buf Lb Hd; [done|]. cbn [find_block]. assert (dir_blocks db ents) as Hd' by (intros x Hx; apply Hd; by right).
  unfold dir_entries. rewrite filter_cons. destruct (decide (b <> 0)) as [Hb|Hb]; [|by apply IH].
  destruct (Hd b ltac:(by left) Hb) as [R Hl]. rewrite (read_stored dev fs Hdev Hfs) by done. cbn [cbind]. destruct (block_buffer dev fs Hdev _ R) as [Ld _].
  rewrite (find_entry_ok _ m p name _ Ld Hm (ents b)) by (done || (unfold BLKSIZE; lia)). cbn [cbind map concat]. rewrite lookup_name_app. destruct (lookup_name (ents b) name); [done|]. by apply IH.
Qed.

(** ** Trees *)

(** The directory of an inode, as it is on the disk: all entries of its direct blocks. *)
Definition directory (ino : Z) (all : list entry) : Prop :=
  exists di ents, inode dev fs ino di /\ dir_blocks (di_db di) ents /\ all = dir_entries (di_db di) ents.

(** The tree that the disk holds: the entries of each directory that are in use, by its
  inode.  A free entry keeps its old name; it is not one of [names]. *)
Record holds_tree (names : list (list Z)) (tree : Z -> option (list entry)) : Prop := {
  ht_dir : forall ino es, tree ino = Some es -> exists all, directory ino all /\ es = filter in_use all /\
    forall e, e ∈ all -> ~ in_use e -> e_name e ∉ names;
  ht_ino : forall ino es e, tree ino = Some es -> e ∈ es -> exists di, inode dev fs (e_ino e) di }.

Lemma lookup_in_use c all : (forall e, e ∈ all -> ~ in_use e -> e_name e <> c) -> lookup_name all c = lookup_name (filter in_use all) c.
Proof.
  induction all as [|e all IH]; intros H; [done|]. rewrite filter_cons. assert (lookup_name all c = lookup_name (filter in_use all) c) as E by (apply IH; intros x Hx; apply H; by right).
  cbn [lookup_name]. destruct (decide (in_use e)) as [Hu|Hu]; [cbn [lookup_name]; by rewrite E|]. rewrite decide_False by (apply H; [by left|done]). exact E.
Qed.

(** Where a path leads, through directories: to an inode; to a name that the last directory
  does not have; or to one that a directory before the last does not have. *)
Inductive walked := Found (ino : Z) | Missing | Broken.
Inductive walks (tree : Z -> option (list entry)) : Z -> list (list Z) -> walked -> Prop :=
| walks_found ino es c i : tree ino = Some es -> lookup_name es c = Some i -> walks tree ino [c] (Found i)
| walks_missing ino es c : tree ino = Some es -> lookup_name es c = None -> walks tree ino [c] Missing
| walks_broken ino es c cs : tree ino = Some es -> lookup_name es c = None -> cs <> [] -> walks tree ino (c :: cs) Broken
| walks_more ino es c i cs r : tree ino = Some es -> lookup_name es c = Some i -> walks tree i cs r -> walks tree ino (c :: cs) r.

(** The components of a path, with slashes between them. *)
Fixpoint join (cs : list (list Z)) : list Z :=
  match cs with
  | [] => []
  | [c] => c
  | c :: cs => c ++ 47 :: join cs
  end.
Definition comp_ok (c : list Z) : Prop := c <> [] /\ Forall (fun x => 0 < x < 256 /\ x <> 47) c.

Lemma str_at_comp c : forall pre post, Forall (fun x => 0 < x < 256) c -> str_at (pre ++ c ++ 0 :: post) (Z.of_nat (length pre)) c.
Proof.
  induction c as [|x c IH]; intros pre post Hc; cbn [app str_at].
  - unfold aget. rewrite decide_True, Nat2Z.id by lia. by apply list_lookup_middle.
  - apply Forall_cons in Hc as [Hx Hc]. split; [unfold aget; rewrite decide_True, Nat2Z.id by lia; by apply list_lookup_middle|]. split; [done|].
    specialize (IH (pre ++ [x]) post Hc). rewrite length_app, <- app_assoc in IH. cbn [length app] in IH. replace (Z.of_nat (length pre) + 1) with (Z.of_nat (length pre + 1)) by lia. done.
Qed.

Lemma component_end_ok len c : forall pre x post fuel, Forall (fun x => 0 < x < 256 /\ x <> 47) c -> (length c < fuel)%nat ->
  Z.of_nat (length pre + length c) <= len -> x = 47 \/ Z.of_nat (length pre + length c) = len ->
  component_end (pre ++ c ++ x :: post) (Z.of_nat (length pre)) len fuel = Ok (Z.of_nat (length pre + length c)).
Proof.
  induction c as [|y c IH]; intros pre x post [|fuel] Hc Hf Hl Hx; cbn [length] in *; try lia; cbn [component_end app].
  - rewrite rd_app. cbn [cbind]. rewrite decide_False by lia. by rewrite Nat.add_0_r.
  - apply Forall_cons in Hc as [[_ Hy] Hc]. rewrite rd_app. cbn [cbind]. rewrite decide_True by lia.
    specialize (IH (pre ++ [y]) x post fuel Hc). rewrite length_app, <- app_assoc in IH. cbn [length app] in IH. replace (Z.of_nat (length pre) + 1) with (Z.of_nat (length pre + 1)) by lia.
    rewrite IH by lia. f_equal. lia.
Qed.

Lemma lookup_name_elem es name i : lookup_name es name = Some i -> exists e, (e ∈ es) /\ e_ino e = i.
Proof.
  induction es as [|e es IH]; [done|]. cbn [lookup_name]. destruct (decide _); [intros [= <-]; exists e; split; [by left|done]|]. intros H. destruct (IH H) as (e' & He & Ei). exists e'. split; [by right|done].
Qed.

Section tree.
Variable names : list (list Z).
Variable tree : Z -> option (list entry).
Hypothesis Htree : holds_tree names tree.

(** A vnode of an inode. *)
Definition vnode_of (ino : Z) (v : vnode) : Prop := v_vnid v = ino /\ inode dev fs ino (v_data v).

Lemma walk_one_ok s a v ino es m p name : vnodes s !! a = Some v -> vnode_of ino v -> tree ino = Some es -> str_at m p name -> name ∈ names ->
  match lookup_name es name with
  | Some i => exists v', vnode_of i v' /\ ffs_walk_one dev junk fs s (Some a) m p = Ok (Some (next_addr s), Fst (<[next_addr s := v']> (vnodes s)) (next_addr s + 1))
  | None => ffs_walk_one dev junk fs s (Some a) m p = Ok (None, s)
  end.
Proof.
  intros Ha [Ev Ed] Ht Hm Hn. destruct Htree as [T1 T2]. destruct (T1 ino es Ht) as (all & (di & ents & Ei & Hb & Ea) & Es & Hfree). pose proof (inode_fun _ _ _ _ _ Ed Ei) as E. rewrite <- E in Hb, Ea. clear di Ei E.
  unfold ffs_walk_one. cbn [deref cbind]. rewrite Ha. cbn [deref cbind]. rewrite (find_block_ok ents m p name Hm) by done. cbn [cbind]. rewrite <- Ea, (lookup_in_use name all) by (intros e He Hu E; by apply (Hfree e He Hu); rewrite E). rewrite <- Es.
  destruct (lookup_name es name) as [i|] eqn:El; [|done]. destruct (lookup_name_elem es name i El) as (e & He & <-). destruct (T2 ino es e Ht He) as [di Edi]. pose proof (proj1 Edi) as Hr.
  rewrite s32_small by lia. exists (Vnode (e_ino e) di). split; [done|]. unfold vget. rewrite (read_vnode_ok dev fs Hdev Hfs junk Hjunk _ _ Edi). done.
Qed.

(** The vnode [vn] stands for [ino], and apart from it the table is [base]. *)
Record at_vnode (base : gmap Z vnode) (parent : Z) (s : fst_) (vn ino : Z) : Prop := {
  av_vnode : exists v, vnodes s !! vn = Some v /\ vnode_of ino v;
  av_base : if decide (vn = parent) then vnodes s = base else delete vn (vnodes s) = base;
  av_fresh : forall a, next_addr s <= a -> vnodes s !! a = None;
  av_parent : parent < next_addr s }.

(** One turn of the loop, after the component was found or not. *)
Lemma step_vnode base parent s vn ino i v' : at_vnode base parent s vn ino -> vnode_of i v' ->
  let s' := Fst (<[next_addr s := v']> (vnodes s)) (next_addr s + 1) in
  exists s'', (if decide (Some vn <> Some parent) then let? v := Some vn in vput s' v else Ok s') = Ok s'' /\ at_vnode base parent s'' (next_addr s) i /\
    vnodes s'' = <[next_addr s := v']> base /\ base !! next_addr s = None.
Proof.
  intros [(v & Hv & Ev) Hb Hf Hp] Hv' s'. assert (vn <> next_addr s) as Hn by (intros ->; rewrite Hf in Hv by lia; done). assert (next_addr s <> parent) as Hnp by lia.
  destruct (decide (vn = parent)) as [->|Hne].
  - rewrite decide_False by tauto. exists s'. split; [done|]. rewrite <- Hb. split; [|split; [done|apply Hf; lia]].
    split; cbn; [exists v'; by rewrite lookup_insert_eq|rewrite decide_False by done; apply delete_insert_id, Hf; lia| |lia]. intros a Ha. rewrite lookup_insert_ne by lia. apply Hf. lia.
  - rewrite decide_True by congruence. cbn [deref cbind]. unfold vput. cbn [s' vnodes next_addr]. rewrite lookup_insert_ne, Hv by done. cbn [deref cbind]. eexists. split; [reflexivity|].
    assert (delete vn (<[next_addr s := v']> (vnodes s)) = <[next_addr s := v']> base) as E by (rewrite delete_insert_ne by done; by rewrite Hb).
    assert (base !! next_addr s = None) as Hbn by (rewrite <- Hb, lookup_delete_ne by done; apply Hf; lia).
    split; [|split; [exact E|done]]. split; cbn [vnodes next_addr]; rewrite ?E; [exists v'; by rewrite lookup_insert_eq|rewrite decide_False by done; by apply delete_insert_id| |lia].
    intros a Ha. rewrite lookup_insert_ne by lia. rewrite <- Hb. destruct (decide (vn = a)) as [->|?]; [apply lookup_delete_eq|]. rewrite lookup_delete_ne by done. apply Hf. lia.
Qed.

Lemma drop_vnode base parent s vn ino : at_vnode base parent s vn ino ->
  exists s'', (if decide (Some vn <> Some parent) then let? v := Some vn in vput s v else Ok s) = Ok s'' /\ vnodes s'' = base.
Proof.
  intros [(v & Hv & Ev) Hb Hf Hp]. destruct (decide (vn = parent)) as [->|Hne]; [rewrite decide_False by tauto; by exists s|].
  rewrite decide_True by congruence. cbn [deref cbind]. unfold vput. rewrite Hv. cbn [deref cbind]. eexists. split; [reflexivity|]. done.
Qed.

(** The text of a path at its first component. *)
Lemma join_split c cs : exists x post, join (c :: cs) ++ [0] = c ++ x :: post /\ length (join (c :: cs)) = (length c + length post)%nat /\
  ((cs = [] /\ post = []) \/ (cs <> [] /\ x = 47 /\ post = join cs ++ [0] /\ length post = S (length (join cs)))).
Proof.
  destruct cs as [|c' cs].
  - exists 0, []. split; [done|]. split; [cbn; lia|by left].
  - exists 47, (join (c' :: cs) ++ [0]). cbn [join]. split; [by rewrite <- app_assoc|]. split; [rewrite !length_app; cbn [length]; lia|]. right. split; [done|]. split; [done|]. split; [done|]. rewrite length_app. cbn [length]. lia.
Qed.

(** One turn of the loop. *)
Lemma walk_turn s parent vn c cs pre fuel x post len : comp_ok c -> join (c :: cs) ++ [0] = c ++ x :: post -> x = 47 \/ post = [] ->
  len = Z.of_nat (length pre + length c + length post) ->
  walk_loop dev junk fs s parent vn (pre ++ join (c :: cs) ++ [0]) len (Z.of_nat (length pre)) (S fuel) =
    let name := pre ++ c ++ 0 :: post in
    let! (vnnext, s) := ffs_walk_one dev junk fs s vn name (Z.of_nat (length pre)) in
    let! s := (if decide (vn <> Some parent) then let? v := vn in vput s v else Ok s) in
    walk_loop dev junk fs s parent vnnext name len (Z.of_nat (length pre + length c + 1)) fuel.
Proof.
  intros [Hne Hc] E Hx ->. rewrite E. cbn [walk_loop]. destruct c as [|y c]; [done|]. rewrite decide_True by (cbn [length]; lia). set (c' := y :: c) in *.
  rewrite component_end_ok; [|done|rewrite !length_app; lia|lia|destruct Hx as [->| ->]; [by left|right; cbn [length]; lia]]. cbn [cbind].
  replace (pre ++ c' ++ x :: post) with ((pre ++ c') ++ x :: post) by (by rewrite <- app_assoc). rewrite <- length_app, wr_app by lia. cbn [cbind].
  rewrite <- app_assoc. rewrite length_app. replace (Z.of_nat (length pre + length c') + 1) with (Z.of_nat (length pre + length c' + 1)) by lia. done.
Qed.

Lemma walk_loop_ok base parent ino cs r : walks tree ino cs r -> Forall comp_ok cs -> (forall c, c ∈ cs -> c ∈ names) -> forall s vn pre fuel, at_vnode base parent s vn ino -> (length (join cs) + 1 < fuel)%nat ->
  let res := walk_loop dev junk fs s parent (Some vn) (pre ++ join cs ++ [0]) (Z.of_nat (length pre + length (join cs))) (Z.of_nat (length pre)) fuel in
  match r with
  | Found i => exists a v' s', res = Ok (Some a, s') /\ vnode_of i v' /\ vnodes s' = <[a := v']> base /\ base !! a = None
  | Missing => exists s', res = Ok (None, s') /\ vnodes s' = base
  | Broken => res = Fault
  end.
Proof.
  assert (forall c, comp_ok c -> Forall (fun x => 0 < x < 256) c) as Hbytes by (intros c [_ Hc]; eapply Forall_impl; [exact Hc|]; by intros ? [? _]).
  induction 1 as [ino es c i Ht Hl|ino es c Ht Hl|ino es c cs Ht Hl Hne|ino es c i cs r Ht Hl Hw IH]; intros [Hc Hcs]%Forall_cons Hnm s vn pre fuel A Hf; cbn zeta.
  all: match goal with H : context [join (?c :: ?l)] |- _ => destruct (join_split c l) as (x & post & E & Lj & Hp) end.
  all: destruct fuel as [|fuel]; [lia|]; rewrite (walk_turn s parent (Some vn) c _ pre fuel x post) by first [done | lia | (destruct Hp as [[_ ->]|(_ & -> & _)]; [by right|by left])].
  all: cbn zeta; pose proof (str_at_comp c pre post (Hbytes c Hc)) as Hs; destruct (av_vnode _ _ _ _ _ A) as (v & Hv & Ev); pose proof (walk_one_ok s vn v ino es _ _ c Hv Ev Ht Hs (Hnm c ltac:(by left))) as W; rewrite Hl in W.
  - destruct W as (v' & Hv' & ->). cbn [cbind]. destruct (step_vnode base parent s vn ino i v' A Hv') as (s'' & -> & A'' & Es & Hn). cbn [cbind].
    destruct Hp as [[_ ->]|[? _]]; [|done]. destruct fuel as [|fuel]; [lia|]. cbn [walk_loop]. rewrite decide_False by (rewrite Lj; cbn [length]; lia). by exists (next_addr s), v', s''.
  - rewrite W. cbn [cbind]. destruct (drop_vnode base parent s vn ino A) as (s'' & -> & Es). cbn [cbind].
    destruct Hp as [[_ ->]|[? _]]; [|done]. destruct fuel as [|fuel]; [lia|]. cbn [walk_loop]. rewrite decide_False by (rewrite Lj; cbn [length]; lia). by exists s''.
  - rewrite W. cbn [cbind]. destruct (drop_vnode base parent s vn ino A) as (s'' & -> & Es). cbn [cbind]. destruct Hp as [[? _]|(_ & -> & -> & Lp)]; [done|].
    destruct cs as [|c2 cs]; [done|]. apply Forall_cons in Hcs as [Hc2 _]. destruct (join_split c2 cs) as (x2 & post2 & E2 & L2 & Hp2). destruct fuel as [|fuel]; [lia|].
    replace (pre ++ c ++ 0 :: join (c2 :: cs) ++ [0]) with ((pre ++ c ++ [0]) ++ join (c2 :: cs) ++ [0]) by (by rewrite <- !app_assoc).
    replace (length pre + length c + 1)%nat with (length (pre ++ c ++ [0])) by (rewrite !length_app; cbn [length]; lia).
    rewrite (walk_turn s'' parent None c2 cs (pre ++ c ++ [0]) fuel x2 post2); [done|done|done|destruct Hp2 as [[_ ->]|(_ & -> & _)]; [by right|by left]|rewrite !length_app; cbn [length]; lia].
  - destruct W as (v' & Hv' & ->). cbn [cbind]. destruct (step_vnode base parent s vn ino i v' A Hv') as (s'' & -> & A'' & Es & Hn). cbn [cbind].
    assert (cs <> []) as Hcne by (by inversion Hw). destruct Hp as [[? _]|(_ & -> & -> & Lp)]; [done|].
    specialize (IH Hcs ltac:(intros x Hx; apply Hnm; by right) s'' (next_addr s) (pre ++ c ++ [0]) fuel A'' ltac:(lia)).
    replace ((pre ++ c ++ [0]) ++ join cs ++ [0]) with (pre ++ c ++ 0 :: join cs ++ [0]) in IH by (by rewrite <- !app_assoc).
    replace (length (pre ++ c ++ [0])) with (length pre + length c + 1)%nat in IH by (rewrite !length_app; cbn [length]; lia).
    replace (length pre + length c + 1 + length (join cs))%nat with (length pre + length (join (c :: cs)))%nat in IH by lia. exact IH.
Qed.

End tree.

(** ** Listing *)

Lemma strncpy_short dm d sm s str n : str_at sm s str -> (length str < n)%nat -> fits dm d (S (length str)) -> strncpy dm d sm s n = Ok (splice dm d (str ++ [0])).
Proof.
  intros Hs Hn Hf. assert (forall l str s n, str_at sm s str -> (length str < n)%nat -> fits dm d (length l + S (length str)) ->
    strncpy (splice dm d l) (d + Z.of_nat (length l)) sm s n = Ok (splice dm d (l ++ str ++ [0]))) as H.
  { clear. intros l str. revert l. induction str as [|c str IH]; intros l s [|n] Hs Hn Hf; cbn [length] in *; try lia; cbn [strncpy str_at] in *.
    - rewrite (rd_Some _ _ _ Hs). cbn [cbind]. rewrite decide_True by done. by rewrite wr_snoc by (lia || unfold fits in *; lia).
    - destruct Hs as (Hc & Hr & Hs). rewrite (rd_Some _ _ _ Hc). cbn [cbind]. rewrite decide_False by lia. rewrite wr_snoc by (lia || unfold fits in *; lia). cbn [cbind].
      specialize (IH (l ++ [c]) (s + 1) n Hs). rewrite length_app in IH. cbn [length] in IH. replace (d + Z.of_nat (length l) + 1) with (d + Z.of_nat (length l + 1)) by lia.
      rewrite IH by (lia || unfold fits in *; lia). by rewrite <- app_assoc. }
  specialize (H [] str s n Hs Hn Hf). cbn [length app] in H. change (Z.of_nat 0) with 0 in H. by rewrite Z.add_0_r, splice_nil in H.
Qed.

(** The entries that opendir finds in a block: those before the first free one. *)
Fixpoint up_to_free (es : list entry) : list entry :=
  match es with [] => [] | e :: es => if decide (e_ino e = 0) then [] else e :: up_to_free es end.
Definition shown (db : list Z) (ents : Z -> list entry) : list entry := concat (map (fun b => up_to_free (ents b)) (filter (fun b => b <> 0) db)).

(** The entry that opendir makes of one on the disk: a name of 33 characters or more has no
  end. *)
Definition dirent_of (e : entry) : dirent := Dirent (e_ino e) sizeof_dirent (splice (take 33 junk) 0 (strncpy_text (e_name e) 33)).

Lemma list_entries_ok buf fuel : length buf = Z.to_nat BLKSIZE -> forall es off l, laid buf off es -> BLKSIZE - off < Z.of_nat fuel ->
  list_entries junk buf off l fuel = Ok (rev (map dirent_of (up_to_free es)) ++ l).
Proof.
  intros Lb. induction fuel as [|fuel IH]; intros es off l Hl Hf.
  - destruct es as [|e es]; [cbn in Hl; lia|]. pose proof (laid_lt _ _ _ _ Lb Hl). lia.
  - cbn [list_entries]. destruct es as [|e es]; [cbn in Hl; rewrite decide_False by lia; done|]. rewrite decide_True by (by eapply laid_lt). destruct (laid_head _ _ _ _ Lb Hl) as [Hi Hr]. destruct Hl as (_ & Hs & H0 & Hl).
    rewrite Hi. cbn [cbind up_to_free]. destruct (decide (e_ino e = 0)) as [Hz|Hz]; [done|]. unfold new_dirent. change (S BLT_MAX_NAME_LENGTH) with 33%nat.
    pose proof (strncpy_run (take 33 junk) 0 buf 33 (e_name e) [] (off + 8) Hs ltac:(unfold fits; rewrite length_take, Hjunk; cbn [length]; unfold BLKSIZE; lia)) as E. cbn [length app] in E. change (0 + Z.of_nat 0) with 0 in E. rewrite splice_nil in E.
    rewrite E. cbn [cbind]. rewrite Hr. cbn [cbind]. rewrite (IH es) by (done || lia). cbn [map rev]. by rewrite <- app_assoc.
Qed.

Lemma list_blocks_ok ents : forall db buf l, length buf = Z.to_nat BLKSIZE -> dir_blocks db ents ->
  list_blocks dev junk fs buf db l = Ok (rev (map dirent_of (shown db ents)) ++ l).
Proof.
  induction db as [|b db IH]; intros buf l Lb Hd; [done|]. cbn [list_blocks]. assert (dir_blocks db ents) as Hd' by (intros x Hx; apply Hd; by right).
  unfold shown in *. rewrite filter_cons. destruct (decide (b <> 0)) as [Hb|Hb]; [|by apply IH].
  destruct (Hd b ltac:(by left) Hb) as [R Hl]. rewrite (read_stored dev fs Hdev Hfs) by done. cbn [cbind map concat] in *. destruct (block_buffer dev fs Hdev _ R) as [Ld _].
  rewrite (list_entries_ok _ _ Ld (ents b)) by (done || (unfold BLKSIZE; lia)). cbn [cbind]. rewrite IH by done. by rewrite map_app, rev_app_distr, <- app_assoc.
Qed.

(** The name in a buffer, up to its end. *)
Fixpoint c_string (l : list Z) : list Z := match l with [] => [] | c :: l => if decide (c = 0) then [] else c :: c_string l end.
(** What a program sees that calls readdir until it fails. *)
Fixpoint readdir_all (d : dirent) (c : ffs_dircookie) (fuel : nat) : cres (list (Z * list Z)) :=
  match fuel with
  | O => Fault
  | S fuel =>
      let! (r, d, c) := ffs_readdir d c in
      if decide (r = 0) then let! l := readdir_all d c fuel in Ok ((d_fileno d, c_string (d_name d)) :: l) else Ok []
  end.

Lemma c_string_app str l : Forall (fun x => 0 < x < 256) str -> c_string (str ++ 0 :: l) = str.
Proof. induction 1 as [|x str Hx _ IH]; [done|]. cbn [app c_string]. rewrite decide_False by lia. by rewrite IH. Qed.

(** A copy from a buffer without an end. *)
Lemma strncpy_unended sm : Forall (fun c => c <> 0) sm -> forall n dm d s, (0 <= s <= Z.of_nat (length sm)) -> Z.of_nat (length sm) < s + Z.of_nat n -> strncpy dm d sm s n = Fault.
Proof.
  intros Hs. induction n as [|n IH]; intros dm d s H1 H2; [lia|]. cbn [strncpy]. unfold rd. destruct (aget sm s) as [c|] eqn:E; [|done]. cbn [deref cbind]. apply aget_Some in E as [Hr E].
  rewrite Forall_lookup in Hs. rewrite decide_False by (by apply (Hs _ _ E)). unfold wr. destruct (aset dm d (u8 c)) as [dm'|]; [|done]. cbn [deref cbind]. apply IH; lia.
Qed.

Definition short (e : entry) : Prop := (length (e_name e) <= 32)%nat.
Definition readable_name (e : entry) : Prop := Forall (fun x => 0 < x < 256) (e_name e).

Lemma readdir_one h e l d : readable_name e -> length (d_name d) = 33%nat ->
  (short e -> exists name, length name = 33%nat /\ c_string name = e_name e /\ ffs_readdir d (Dircookie h (dirent_of e :: l)) = Ok (0, Dirent (e_ino e) sizeof_dirent name, Dircookie h l)) /\
  (~ short e -> ffs_readdir d (Dircookie h (dirent_of e :: l)) = Fault).
Proof.
  intros Hx Ld. assert (length (take 33 junk) = 33%nat) as L33 by (rewrite length_take, Hjunk; unfold BLKSIZE; lia). unfold ffs_readdir. cbn [current]. unfold short, strncpy_text in *. split; intros Hn.
  - assert (d_name (dirent_of e) = splice (take 33 junk) 0 (e_name e ++ [0])) as En by (unfold dirent_of, strncpy_text; cbn [d_name]; by rewrite decide_True by lia).
    assert (str_at (d_name (dirent_of e)) 0 (e_name e)) as Hs by (rewrite En; apply str_at_splice; [unfold fits; lia|done]).
    exists (splice (d_name d) 0 (e_name e ++ [0])). split; [rewrite length_splice; [done|unfold fits; rewrite length_app; cbn [length]; lia]|]. split.
    + unfold splice. change (Z.to_nat 0) with 0%nat. rewrite take_0. cbn [app]. rewrite <- app_assoc. cbn [app]. by apply c_string_app.
    + rewrite (strncpy_short _ _ _ _ (e_name e)); [done|done|unfold MAXNAMLEN; lia|unfold fits; lia].
  - assert (d_name (dirent_of e) = take 33 (e_name e)) as En.
    { unfold dirent_of, strncpy_text. cbn [d_name]. rewrite decide_False by lia. unfold splice. change (Z.to_nat 0) with 0%nat. rewrite take_0, drop_ge; [apply app_nil_r|]. rewrite !length_take, Hjunk. unfold BLKSIZE. lia. }
    rewrite En. rewrite (strncpy_unended (take 33 (e_name e))); [done| |lia|rewrite length_take; unfold MAXNAMLEN; lia].
    apply Forall_take. eapply Forall_impl; [exact Hx|]. simpl. lia.
Qed.

Lemma readdir_all_ok h es : Forall (fun e => short e /\ readable_name e) es -> forall d fuel, length (d_name d) = 33%nat -> (length es < fuel)%nat ->
  readdir_all d (Dircookie h (map dirent_of es)) fuel = Ok (map (fun e => (e_ino e, e_name e)) es).
Proof.
  induction 1 as [|e es [Hn Hx] _ IH]; intros d [|fuel] Ld Hf; cbn [length] in Hf; try lia; [done|]. cbn [readdir_all map]. destruct (proj1 (readdir_one h e (map dirent_of es) d Hx Ld) Hn) as (name & Ln & Ec & ->). cbn [cbind]. rewrite decide_True by done.
  rewrite IH by (done || lia). cbn [cbind d_fileno d_name]. by rewrite Ec.
Qed.

Lemma readdir_all_fault h es : Forall readable_name es -> Exists (fun e => ~ short e) es -> forall d fuel, length (d_name d) = 33%nat -> readdir_all d (Dircookie h (map dirent_of es)) fuel = Fault.
Proof.
  induction 1 as [|e es Hx _ IH]; intros He d [|fuel] Ld; [by apply Exists_nil in He|by apply Exists_nil in He|done|]. cbn [readdir_all map]. destruct (readdir_one h e (map dirent_of es) d Hx Ld) as [R1 R2].
  destruct (decide (length (e_name e) <= 32)%nat) as [Hs|Hs]; [|by rewrite (R2 Hs)]. destruct (R1 Hs) as (name & Ln & _ & ->). cbn [cbind]. rewrite decide_True by done. apply Exists_cons in He as [He|He]; [by destruct He|]. rewrite IH by done. done.
Qed.

Lemma laid_names buf es : forall off, laid buf off es -> Forall readable_name es.
Proof.
  assert (forall str p, str_at buf p str -> Forall (fun x => 0 < x < 256) str) as Hs by (induction str as [|c str IH]; intros p H; constructor; [apply H|eapply IH; apply H]).
  induction es as [|e es IH]; intros off Hl; [constructor|]. destruct Hl as (_ & Hn & _ & Hl). constructor; [by eapply Hs|by eapply IH].
Qed.

End device.

Lemma str_at_fetch str : forall m p, str_at m p str -> fetch m p (S (length str)) = Ok (str ++ [0]).
Proof.
  induction str as [|c str IH]; intros m p H.
  - cbn [fetch length str_at] in *. rewrite (rd_Some _ _ _ H). done.
  - destruct H as (Hc & _ & H). cbn [length]. change (fetch m p (S (S (length str)))) with (let! c := rd m p in let! r := fetch m (p + 1) (S (length str)) in Ok (c :: r)).
    rewrite (rd_Some _ _ _ Hc). cbn [cbind]. rewrite (IH m (p + 1) H). done.
Qed.

Lemma up_to_free_Forall P es : Forall P es -> Forall P (up_to_free es).
Proof. induction 1 as [|e es He _ IH]; [constructor|]. cbn [up_to_free]. destruct (decide _); [constructor|by constructor]. Qed.

(** C24. A path leads where it leads in the tree on the disk, which the inodes and the entries
  in the direct blocks of the directories make up; an entry with the number 0 is free and not
  part of it, and none of the free ones still carries a name of the path.  When every
  component is found, ffs_walk returns a new vnode of that inode, and no vnode of a directory
  on the way stays in use; when only the last is missing it returns NULL and nothing stays in
  use; when another is missing it follows a null pointer. *)
Theorem ffs_walk_resolves (dev : blkdev) (junk : list Z) (fs : ffs_super) (tree : Z -> option (list entry)) (s : fst_) (parent ino : Z) (v : vnode)
  (cs : list (list Z)) (r : walked) (m : list Z) (p : Z)
  (Hdev : good_dev dev) (Hjunk : length junk = Z.to_nat BLKSIZE) (Hfs : sound fs) (Htree : holds_tree dev fs cs tree)
  (Hv : vnodes s !! parent = Some v) (Hino : vnode_of dev fs ino v)
  (Hfresh : forall a, next_addr s <= a -> vnodes s !! a = None)
  (Hcs : Forall comp_ok cs) (Hp : str_at m p (join cs)) (Hw : walks tree ino cs r) :
  match r with
  | Found i => exists a v' s', ffs_walk dev junk fs s parent m p = Ok (Some a, s') /\ vnode_of dev fs i v' /\
      vnodes s' = <[a := v']> (vnodes s) /\ vnodes s !! a = None
  | Missing => exists s', ffs_walk dev junk fs s parent m p = Ok (None, s') /\ vnodes s' = vnodes s
  | Broken => ffs_walk dev junk fs s parent m p = Fault
  end.
Proof.
  assert (at_vnode dev fs (vnodes s) parent s parent ino) as A.
  { split; [by exists v|by rewrite decide_True|done|]. destruct (decide (parent < next_addr s)) as [?|Hn]; [done|]. rewrite Hfresh in Hv by lia. done. }
  unfold ffs_walk. rewrite (strlen_ok _ _ _ Hp). cbn [cbind]. rewrite Nat2Z.id, (str_at_fetch _ _ _ Hp). cbn [cbind].
  exact (walk_loop_ok dev Hdev junk Hjunk fs Hfs cs tree Htree (vnodes s) parent ino cs r Hw Hcs ltac:(done) s parent [] (S (S (length (join cs)))) A ltac:(lia)).
Qed.

(** C23. Listing a directory whose direct blocks are filled with entries: opendir and the calls
  of readdir deliver, with its number and its name, each entry of these blocks that stands
  before the first free one of its block, once, from the last to the first, and then the end,
  if their names have at most 32 characters; entries behind a free one of the block are lost.
  If one of the names is longer, readdir copies it beyond the end of its field. *)
Theorem ffs_directory_listed (dev : blkdev) (junk : list Z) (fs : ffs_super) (s : fst_) (dir : Z) (v : vnode) (ents : Z -> list entry) (d : dirent)
  (Hdev : good_dev dev) (Hjunk : length junk = Z.to_nat BLKSIZE) (Hfs : sound fs) (Hv : vnodes s !! dir = Some v)
  (Hblocks : dir_blocks dev fs (di_db (v_data v)) ents) (Hd : length (d_name d) = 33%nat) :
  let es := shown (di_db (v_data v)) ents in
  exists c, ffs_opendir dev junk fs s dir = Ok (0, c) /\
    (Forall short es -> readdir_all d c (S (length es)) = Ok (rev (map (fun e => (e_ino e, e_name e)) es))) /\
    (Exists (fun e => ~ short e) es -> forall fuel, readdir_all d c fuel = Fault).
Proof.
  intros es. unfold ffs_opendir. rewrite Hv. cbn [deref cbind]. rewrite (list_blocks_ok dev Hdev junk Hjunk fs Hfs ents) by done. cbn [cbind]. eexists. split; [reflexivity|].
  fold es. rewrite app_nil_r, <- !map_rev. assert (Forall readable_name es) as Hn.
  { unfold es, shown. clear -Hblocks. induction (di_db (v_data v)) as [|b db IH]; [constructor|].
    rewrite filter_cons. assert (dir_blocks dev fs db ents) as Hb by (intros x Hx; apply Hblocks; by right). destruct (decide (b <> 0)) as [Hne|_]; [|by apply IH].
    cbn [map concat]. apply Forall_app. split; [|by apply IH]. destruct (Hblocks b ltac:(by left) Hne) as [_ Hl]. apply up_to_free_Forall. by eapply laid_names. }
  split.
  - intros Hs. rewrite (readdir_all_ok junk Hjunk _ (rev es)); [done| |done|rewrite length_rev; lia]. apply Forall_rev, Forall_and. done.
  - intros He fuel. apply (readdir_all_fault junk Hjunk); [by apply Forall_rev| |done]. apply Exists_exists in He as (e & He & Hs). apply Exists_exists. exists e. split; [|done]. apply list_elem_of_In. rewrite <- in_rev. by apply list_elem_of_In.
Qed.

(** A disk with two inodes, the root and a file, and a directory block with an entry of the
  file and a free one, which was called b. *)
Definition le32 (x : Z) : list Z := [x mod 256; x / 256 mod 256; x / 65536 mod 256; x / 16777216 mod 256].
Definition demo_inode (size block : Z) : list Z := replicate 8 0 ++ le32 size ++ replicate 28 0 ++ le32 block ++ replicate 84 0.
Definition demo_inodes : list Z := replicate 256 0 ++ demo_inode 8192 3 ++ replicate 256 0 ++ demo_inode 100 4 ++ replicate (Z.to_nat 7424) 0.
Definition demo_dirblk : list Z := le32 5 ++ [0; 2; 8; 1; 97; 0] ++ replicate (Z.to_nat 502) 0 ++ le32 0 ++ [0; 30; 8; 1; 98; 0] ++ replicate (Z.to_nat 7670) 0.
Definition demo_junk : list Z := replicate (Z.to_nat BLKSIZE) 0.
Definition disk : blkdev := Dev 512 (fun b => inl
  (if decide (32 <= b < 48) then slice demo_inodes ((b - 32) * 512) 512 else if decide (48 <= b < 64) then slice demo_dirblk ((b - 48) * 512) 512 else replicate 512 0)).
Definition disk_fs : ffs_super := Super 2 0 0 0 4 2048 64 64 4096.
Definition root_entries : list entry := [Entry 5 [97] 512].
Definition root_block : list entry := root_entries ++ [Entry 0 [98] 7680].
Definition disk_tree (ino : Z) : option (list entry) := if decide (ino = 2) then Some root_entries else None.
Definition root_di : ffs_dinode := Dinode 0 8192 (3 :: replicate 11 0) [0; 0; 0] 0 0 0.
Definition file_di : ffs_dinode := Dinode 0 100 (4 :: replicate 11 0) [0; 0; 0] 0 0 0.

Lemma disk_ok : good_dev disk /\ forall b, 0 <= b < 2 ^ 30 -> readable disk b.
Proof.
  split; [split; [done|by exists 16]|]. intros b Hb. split; [change (spb disk) with 16%nat; lia|]. intros k Hk. eexists. split; [reflexivity|]. change (Z.to_nat (blksize disk)) with 512%nat.
  assert (buffer (Z.to_nat 8192) demo_inodes /\ buffer (Z.to_nat 8192) demo_dirblk) as [B1 B2].
  { split; (split; [reflexivity|unfold bytes; apply (bool_decide_eq_true_1 _); vm_compute; reflexivity]). }
  destruct (decide _); [eapply slice_buffer; [exact B1|lia|lia]|]. destruct (decide _); [eapply slice_buffer; [exact B2|lia|lia]|].
  split; [apply length_replicate|apply Forall_replicate; lia].
Qed.

Lemma disk_sound : sound disk_fs.
Proof. split; cbn; lia. Qed.

Lemma disk_stored n : 0 < n < 2 ^ 20 -> stored disk disk_fs n.
Proof. intros Hn. split; [lia|]. apply (proj2 disk_ok). unfold place. cbn [disk_fs fs_fsbtodb]. lia. Qed.

Lemma disk_inodes : inode disk disk_fs 2 root_di /\ inode disk disk_fs 5 file_di.
Proof.
  split; (split; [lia|]; split; [apply (disk_stored 2); lia|vm_compute; reflexivity]).
Qed.

Definition block_entries (b : Z) : list entry := if decide (b = 3) then root_block else [].

Lemma disk_dir : dir_blocks disk disk_fs (di_db root_di) block_entries /\ dir_entries (di_db root_di) block_entries = root_block /\ shown (di_db root_di) block_entries = root_entries.
Proof.
  split; [|split; vm_compute; reflexivity]. intros b Hb Hne. cbn [root_di di_db replicate] in Hb. assert (b = 3) as -> by (apply list_elem_of_In in Hb; cbn [In] in Hb; lia). unfold block_entries. rewrite decide_True by done.
  split; [apply (disk_stored 3); lia|]. cbn [laid root_block root_entries app e_ino e_name e_reclen str_at]. split_and!; first [vm_compute; reflexivity | lia].
Qed.

Lemma disk_tree_inv ino es : disk_tree ino = Some es -> ino = 2 /\ es = root_entries.
Proof. unfold disk_tree. destruct (decide (ino = 2)) as [->|_]; [|discriminate]. intros [= <-]. split; reflexivity. Qed.

Lemma disk_holds : holds_tree disk disk_fs [[97]] disk_tree.
Proof.
  split.
  - intros ino es [-> ->]%disk_tree_inv. exists root_block. split; [|split; [vm_compute; reflexivity|]].
    + exists root_di, block_entries. split; [exact (proj1 disk_inodes)|]. split; [exact (proj1 disk_dir)|]. symmetry. exact (proj1 (proj2 disk_dir)).
    + intros e He Hu. apply list_elem_of_In in He. destruct He as [<-|[<-|[]]]; [by destruct Hu|]. apply (bool_decide_eq_true_1 _). vm_compute. reflexivity.
  - intros ino es e [-> ->]%disk_tree_inv ->%list_elem_of_singleton. exists file_di. exact (proj2 disk_inodes).
Qed.

Definition disk_state : fst_ := Fst {[ 1 := Vnode 2 root_di ]} 2.

Lemma ffs_walk_resolves_witness : exists a v' s',
  ffs_walk disk demo_junk disk_fs disk_state 1 [97; 0] 0 = Ok (Some a, s') /\ v_vnid v' = 5 /\ vnodes s' = <[a := v']> (vnodes disk_state).
Proof.
  destruct (ffs_walk_resolves disk demo_junk disk_fs disk_tree disk_state 1 2 (Vnode 2 root_di) [[97]] (Found 5) [97; 0] 0) as (a & v' & s' & E & [H1 _] & H2 & _).
  - exact (proj1 disk_ok).
  - apply length_replicate.
  - exact disk_sound.
  - exact disk_holds.
  - reflexivity.
  - split; [reflexivity|exact (proj1 disk_inodes)].
  - intros b Hb. cbn [disk_state vnodes next_addr] in *. apply lookup_singleton_ne. lia.
  - constructor; [|constructor]. split; [discriminate|]. constructor; [lia|constructor].
  - split_and!; [reflexivity|lia|lia|reflexivity].
  - apply (walks_found disk_tree 2 root_entries [97] 5); reflexivity.
  - exists a, v', s'. split; [exact E|]. split; [exact H1|exact H2].
Defined.

Lemma ffs_directory_listed_witness : exists c,
  ffs_opendir disk demo_junk disk_fs disk_state 1 = Ok (0, c) /\ readdir_all (Dirent 0 0 (replicate 33 0)) c 2 = Ok [(5, [97])].
Proof.
  destruct disk_dir as (D1 & _ & D3).
  destruct (ffs_directory_listed disk demo_junk disk_fs disk_state 1 (Vnode 2 root_di) block_entries (Dirent 0 0 (replicate 33 0))) as (c & E & R & _).
  - exact (proj1 disk_ok).
  - apply length_replicate.
  - exact disk_sound.
  - reflexivity.
  - exact D1.
  - reflexivity.
  - exists c. split; [exact E|]. cbn [v_data] in R. rewrite D3 in R. apply R. constructor; [unfold short; cbn; lia|constructor].
Defined.

End FfsDir.
