(* ===== verification/Ic.v ===== *)
(** util/ic.c, the compiler for interfaces of remote procedures: its scanner on the text of
  the file and on the buffer of the token, its parser by recursive descent, and the C code
  that it prints.

  A call of die ends the program: a step yields [None] then. The objects that the parser
  allocates are never changed after they are linked, so a linked list is a list. *)
From S2P Require Import Prelude LibC Bytes.
Import LibC Bytes.
Local Open Scope Z_scope.
Local Open Scope c_scope.

Module Ic.

(** ** The objects *)

Inductive kind := BASIC | ARRAY | STRING | STRUCT.
Record ic_type := Type_ { t_name : list Z; t_type : kind; t_size : Z }.
Inductive dir := IN | OUT.
Record ic_param := Param { p_name : list Z; p_type : ic_type; p_flags : dir }.
Record ic_func := Func { f_name : list Z; f_params : list ic_param }.
Record ic_ifc := Ifc { i_name : list Z; i_key : list Z; i_funcs : list ic_func }.

Definition builtins : list ic_type :=
  [Type_ (cstr "int32") BASIC 4; Type_ (cstr "uint32") BASIC 4; Type_ (cstr "int16") BASIC 2; Type_ (cstr "uint16") BASIC 2].
(** main puts each type in front of the list. *)
Definition types : list ic_type := rev builtins.

(** ** The scanner *)

(** The globals [data], [line] and [token], and what was printed. *)
Record ics := Ics { pos : Z; line : Z; token : list Z; stdout : list Z }.

Section compiler.
Variable src : list Z.

Definition P (A : Type) : Type := ics -> cres (option A * ics).
Definition ret {A} (a : A) : P A := fun s => Ok (Some a, s).
Definition die {A} : P A := fun s => Ok (None, s).
Definition bind {A B} (m : P A) (f : A -> P B) : P B :=
  fun s => let! (r, s) := m s in match r with Some a => f a s | None => Ok (None, s) end.
Definition lift {A} (c : cres A) : P A := fun s => let! a := c in Ok (Some a, s).
Notation "x <- m ;; k" := (bind m (fun x => k)) (at level 100, m at next level, right associativity).
Notation "m ;;; k" := (bind m (fun _ => k)) (at level 100, right associativity).

Fixpoint skip_comment (p : Z) (fuel : nat) : cres Z :=
  match fuel with
  | O => Fault
  | S fuel => let! c := rd src p in if decide (c <> 10) then skip_comment (p + 1) fuel else Ok p
  end.
Fixpoint eat_space (p ln : Z) (fuel : nat) : cres (Z * Z) :=
  match fuel with
  | O => Fault
  | S fuel =>
      let! c := rd src p in
      if decide (schar c <= 32) then eat_space (p + 1) (if decide (c = 10) then ln + 1 else ln) fuel else
      if decide (c = 35) then let! p := skip_comment p (S (length src)) in eat_space p ln fuel else Ok (p, ln)
  end.
Fixpoint quoted (p : Z) (tok : list Z) (x : Z) (fuel : nat) : cres (list Z * Z) :=
  match fuel with
  | O => Fault
  | S fuel =>
      let! c := rd src p in
      if decide (c <> 34) then let! tok := wr tok x c in quoted (p + 1) tok (x + 1) fuel else
      let! tok := wr tok x 0 in Ok (tok, p + 1)
  end.
(** The characters that are tokens of their own: braces, parentheses, comma, hash, double
  quote and colon. *)
Definition specials : list Z := cstr "{}()," ++ [35; 34; 58].
Fixpoint word (p : Z) (tok : list Z) (x : Z) (fuel : nat) : cres (option (list Z * Z)) :=
  match fuel with
  | O => Fault
  | S fuel =>
      let! c := rd src p in
      if decide (c ∈ specials) then
        if decide (x = 0) then let! tok := wr tok 0 c in let! tok := wr tok 1 0 in Ok (Some (tok, p + 1))
        else let! tok := wr tok x 0 in Ok (Some (tok, p))
      else if decide (schar c <= 32) then let! tok := wr tok x 0 in Ok (Some (tok, p))
      else
        let! tok := wr tok x c in
        if decide (255 < x + 1) then Ok None else word (p + 1) tok (x + 1) fuel
  end.

Definition next : P unit := fun s =>
  let! c := rd src (pos s) in
  if decide (c = 0) then let! tok := wr (token s) 0 0 in Ok (Some tt, Ics (pos s) (line s) tok (stdout s)) else
  let! (p, ln) := eat_space (pos s) (line s) (S (length src)) in
  let! c := rd src p in
  if decide (c = 34) then
    let! (tok, p) := quoted (p + 1) (token s) 0 (S (length src)) in Ok (Some tt, Ics p ln tok (stdout s))
  else
    let! r := word p (token s) 0 (S (length src)) in
    match r with
    | Some (tok, p) => Ok (Some tt, Ics p ln tok (stdout s))
    | None => Ok (None, Ics p ln (token s) (stdout s))
    end.

(** ** The parser *)

Definition tok_is (t : list Z) : P bool := fun s => let! c := strcmp (token s) 0 (t ++ [0]) 0 in Ok (Some (bool_decide (c = 0)), s).
Definition match_ (t : list Z) : P bool :=
  b <- tok_is t ;; if b : bool then next ;;; ret true else ret false.
Definition force (t : list Z) : P unit :=
  b <- tok_is t ;; if b : bool then next else die.
(** strdup (token). *)
Definition dup_token : P (list Z) := fun s => let! n := strlen (token s) 0 in let! l := fetch (token s) 0 (Z.to_nat n) in Ok (Some l, s).
Definition atoi_token : P Z := fun s => let! n := atoi (token s) 0 in Ok (Some n, s).

Fixpoint find_type (l : list ic_type) : P ic_type :=
  match l with
  | [] => die
  | t :: l => b <- match_ (t_name t) ;; if b : bool then ret t else find_type l
  end.
Definition type : P ic_type :=
  b <- match_ (cstr "string") ;;
  if b : bool then
    force (cstr ":") ;;;
    n <- atoi_token ;; next ;;;
    ret (Type_ (cstr "string") STRING n)
  else find_type types.

Definition param : P ic_param :=
  b <- match_ (cstr "in") ;;
  f <- (if b : bool then ret IN else b <- match_ (cstr "out") ;; if b : bool then ret OUT else die) ;;
  t <- type ;;
  n <- dup_token ;; next ;;;
  ret (Param n t f).

(** The loops of function and interface over their parts. *)
Fixpoint params (fuel : nat) : P (list ic_param) :=
  match fuel with
  | O => fun _ => Fault
  | S fuel =>
      b <- match_ (cstr ")") ;;
      if b : bool then match_ (cstr ";") ;;; ret [] else
      p <- param ;;
      match_ (cstr ",") ;;;
      l <- params fuel ;;
      ret (p :: l)
  end.
Definition function (fuel : nat) : P ic_func :=
  n <- dup_token ;; next ;;;
  force (cstr "(") ;;;
  l <- params fuel ;;
  ret (Func n l).
Fixpoint funcs (fuel : nat) : P (list ic_func) :=
  match fuel with
  | O => fun _ => Fault
  | S fuel =>
      b <- match_ (cstr "}") ;;
      if b : bool then match_ (cstr ";") ;;; ret [] else
      f <- function fuel ;;
      l <- funcs fuel ;;
      ret (f :: l)
  end.
Definition interface (fuel : nat) : P ic_ifc :=
  n <- dup_token ;; next ;;;
  k <- dup_token ;; next ;;;
  force (cstr "{") ;;;
  l <- funcs fuel ;;
  ret (Ifc n k l).

(** ** The code *)

Definition TAB : list Z := [9].
Definition NL : list Z := [10].
Definition QUOTE : list Z := [34].
Definition toupper (c : Z) : Z := if decide (97 <= c <= 122) then c - 32 else c.
Definition generated : list Z := cstr "/* Generated File - DO NOT EDIT */" ++ NL ++ NL.

Fixpoint header_params (l : list ic_param) : list Z :=
  match l with
  | [] => []
  | p :: l => TAB ++ TAB ++ t_name (p_type p) ++ cstr " " ++ p_name p ++ (match l with [] => [] | _ => cstr "," end) ++ NL ++ header_params l
  end.
Definition header_func (f : ic_func) : list Z :=
  TAB ++ cstr "status_t (" ++ cstr "*" ++ f_name f ++ cstr ")(" ++ NL
  ++ TAB ++ TAB ++ cstr "const ifc_handle *handle" ++ (match f_params f with [] => [] | _ => cstr "," end) ++ NL
  ++ header_params (f_params f) ++ TAB ++ TAB ++ cstr ");" ++ NL.
Definition mkheader (i : ic_ifc) : list Z :=
  generated ++ cstr "#define IFC_" ++ map toupper (i_name i) ++ cstr " " ++ QUOTE ++ i_key i ++ QUOTE ++ NL ++ NL
  ++ cstr "typedef struct {" ++ NL ++ concat (map header_func (i_funcs i)) ++ cstr "} ifc_" ++ i_name i ++ cstr ";" ++ NL.

Definition stub_func (f : ic_func) : list Z :=
  cstr "static status_t" ++ NL ++ cstr "stub_" ++ f_name f ++ cstr "(" ++ NL ++ TAB ++ cstr ")" ++ NL ++ cstr "{" ++ NL
  ++ TAB ++ cstr "return -1;" ++ NL ++ cstr "}" ++ NL ++ NL.
Fixpoint stub_table (l : list ic_func) : list Z :=
  match l with
  | [] => []
  | f :: l => TAB ++ cstr "&stub_" ++ f_name f ++ (match l with [] => [] | _ => cstr "," end) ++ NL ++ stub_table l
  end.
Definition mkstub (i : ic_ifc) : list Z :=
  generated ++ concat (map stub_func (i_funcs i)) ++ cstr "ifc_" ++ i_name i ++ cstr " ifc_" ++ i_name i ++ cstr "_impl = {" ++ NL
  ++ stub_table (i_funcs i) ++ cstr "};" ++ NL.

Definition print (l : list Z) : P unit := fun s => Ok (Some tt, Ics (pos s) (line s) (token s) (stdout s ++ l)).

(** parse: after an interface only the end of the file is accepted, so the loop has one turn. *)
Definition parse (fuel : nat) : P unit :=
  next ;;;
  b <- match_ (cstr "interface") ;;
  (if b : bool then i <- interface fuel ;; print (mkheader i ++ mkstub i) else ret tt) ;;;
  b <- match_ [] ;;
  if b : bool then ret tt else die.

End compiler.

(** main on a file with the bytes [text]: whether it ends without an error, and the output.
  The contents of [token] before the start are 0. *)
Definition main (text : list Z) : cres (bool * list Z) :=
  let src := text ++ [0] in
  let! (r, s) := parse src (S (length src)) (Ics 0 1 (replicate 256 0) []) in
  Ok (match r with Some _ => true | None => false end, stdout s).

End Ic.

