(* ===== verification/IcProof.v ===== *)
(** The compiler for interfaces: whatever blanks and comments a file has, the compiler reads
  the interface that it describes and prints the code for it. *)
From S2P Require Import Prelude LibC Bytes Ic.
Import LibC Bytes Ic.
Local Open Scope Z_scope.
Local Open Scope c_scope.

Module IcProof.

(** ** Texts *)

Inductive tok := Word (w : list Z) | Quoted (q : list Z) | Punct (c : Z).
Definition tok_text (t : tok) : list Z := match t with Word w => w | Quoted q => 34 :: q ++ [34] | Punct c => [c] end.
Definition tok_str (t : tok) : list Z := match t with Word w => w | Quoted q => q | Punct c => [c] end.

Definition word_char (c : Z) : Prop := 32 < c < 128 /\ c ∉ specials.
Definition tok_ok (t : tok) : Prop :=
  match t with
  | Word w => w <> [] /\ Forall word_char w /\ (length w <= 255)%nat
  | Quoted q => Forall (fun c => 0 < c < 256 /\ c <> 34) q /\ (length q <= 255)%nat
  | Punct c => (c ∈ specials) /\ c <> 35 /\ c <> 34
  end.

(** Blanks and comments. *)
Definition space (c : Z) : Prop := 0 < c < 256 /\ schar c <= 32.
Inductive blank : list Z -> Prop :=
| blank_nil : blank []
| blank_space c b : space c -> blank b -> blank (c :: b)
| blank_comment l b : Forall (fun c => c <> 10) l -> blank b -> blank (35 :: l ++ 10 :: b).

(** What may stand behind the last token: blanks and comments, the last of which may lack its
  newline. *)
Definition trailing (e : list Z) : Prop := blank e \/ exists b l, e = b ++ 35 :: l /\ blank b /\ Forall (fun c => c <> 10) l.

(** A text: each token behind blanks; two words have a blank between them. *)
Definition is_word (t : tok) : bool := match t with Word _ => true | _ => false end.
Fixpoint layout (l : list (list Z * tok)) : list Z := match l with [] => [] | (b, t) :: l => b ++ tok_text t ++ layout l end.
Fixpoint good (prev : bool) (l : list (list Z * tok)) : Prop :=
  match l with
  | [] => True
  | (b, t) :: l => blank b /\ tok_ok t /\ (prev = true -> is_word t = true -> b <> []) /\ good (is_word t) l
  end.

Ltac assoc := repeat first [rewrite <- app_assoc | rewrite <- app_comm_cons]; cbn [app]; reflexivity.

Definition plain (t : list Z) : Prop := Forall (fun c => 0 < c < 256) t.
Ltac plain_str := unfold plain; apply (bool_decide_eq_true_1 _); vm_compute; reflexivity.

#[export] Instance space_dec c : Decision (space c).
Proof. unfold space. apply _. Defined.
#[export] Instance word_char_dec c : Decision (word_char c).
Proof. unfold word_char. apply _. Defined.

(** What may follow a word. *)
Definition stop (c : Z) : Prop := c ∈ specials \/ schar c <= 32.

Section text.
Variable src : list Z.
(** What follows the last token. *)
Variable rest : list Z.
Hypothesis rest_ok : trailing rest.

Lemma rd_src pre c post : src = pre ++ c :: post -> rd src (Z.of_nat (length pre)) = Ok c.
Proof. intros ->. apply rd_app. Qed.

Lemma skip_comment_ok l : forall pre post fuel, src = pre ++ l ++ 10 :: post -> Forall (fun c => c <> 10) l -> (length l < fuel)%nat ->
  skip_comment src (Z.of_nat (length pre)) fuel = Ok (Z.of_nat (length (pre ++ l))).
Proof.
  induction l as [|c l IH]; intros pre post [|fuel] E Hl Hf; cbn [length] in *; try lia; cbn [skip_comment].
  - rewrite (rd_src pre 10 post E). cbn [cbind]. rewrite decide_False by tauto. by rewrite app_nil_r.
  - apply Forall_cons in Hl as [Hc Hl]. rewrite (rd_src pre c (l ++ 10 :: post) E). cbn [cbind]. rewrite decide_True by done.
    specialize (IH (pre ++ [c]) post fuel). rewrite length_app in IH. cbn [length] in IH. replace (Z.of_nat (length pre) + 1) with (Z.of_nat (length pre + 1)) by lia.
    rewrite IH; [|by rewrite <- app_assoc|done|lia]. do 2 f_equal. rewrite !length_app. cbn [length]. lia.
Qed.

Lemma eat_space_ok b : blank b -> forall pre c post ln fuel, src = pre ++ b ++ c :: post -> 32 < c < 128 -> c <> 35 -> (length b < fuel)%nat ->
  exists ln', eat_space src (Z.of_nat (length pre)) ln fuel = Ok (Z.of_nat (length (pre ++ b)), ln').
Proof.
  induction 1 as [|x b [Hx Hs] _ IH|l b Hl _ IH]; intros pre c post ln [|fuel] E Hc Hh Hf; cbn [length] in *; try lia; cbn [eat_space].
  - rewrite (rd_src pre c post E). cbn [cbind]. rewrite decide_False by (unfold schar; destruct (decide _); lia). rewrite decide_False by done. rewrite app_nil_r. by eexists.
  - rewrite (rd_src pre x (b ++ c :: post) E). cbn [cbind]. rewrite decide_True by done.
    destruct (IH (pre ++ [x]) c post (if decide (x = 10) then ln + 1 else ln) fuel) as [ln' E']; [by rewrite <- app_assoc|done|done|lia|].
    rewrite length_app in E'. cbn [length] in E'. replace (Z.of_nat (length pre) + 1) with (Z.of_nat (length pre + 1)) by lia. rewrite E'. rewrite <- app_assoc. by eexists.
  - rewrite <- app_comm_cons, <- app_assoc in E. rewrite (rd_src pre 35 _ E). cbn [cbind]. change (schar 35) with 35. rewrite decide_False by lia. rewrite decide_True by done.
    rewrite (skip_comment_ok (35 :: l) pre (b ++ c :: post)); [|done|by constructor|rewrite E, !length_app; cbn [length]; rewrite length_app; cbn [length]; lia]. cbn [cbind].
    rewrite length_app in Hf. cbn [length] in Hf. destruct fuel as [|fuel]; [lia|]. cbn [eat_space]. rewrite (rd_src (pre ++ 35 :: l) 10 (b ++ c :: post)) by (by rewrite <- app_assoc). cbn [cbind].
    change (schar 10) with 10. rewrite decide_True by lia. destruct (IH (pre ++ 35 :: l ++ [10]) c post (if decide (10 = 10) then ln + 1 else ln) fuel) as [ln' E'].
    { rewrite E. assoc. } { done. } { done. } { lia. }
    replace (Z.of_nat (length (pre ++ 35 :: l)) + 1) with (Z.of_nat (length (pre ++ 35 :: l ++ [10]))) by (rewrite !length_app; cbn [length]; rewrite length_app; cbn [length]; lia). rewrite E'.
    exists ln'. do 4 f_equal. assoc.
Qed.

(** Behind the last token the scanner runs over the terminator. *)
Lemma rd_beyond p : Z.of_nat (length src) <= p -> rd src p = Fault.
Proof. intros H. unfold rd, aget. rewrite decide_True by lia. by rewrite lookup_ge_None_2 by lia. Qed.

Lemma skip_comment_fault l : forall pre fuel, src = pre ++ l -> Forall (fun c => c <> 10) l -> skip_comment src (Z.of_nat (length pre)) fuel = Fault.
Proof.
  induction l as [|c l IH]; intros pre [|fuel] E Hl; cbn [skip_comment]; try done.
  - rewrite rd_beyond; [done|]. rewrite E, app_nil_r. lia.
  - apply Forall_cons in Hl as [Hc Hl]. rewrite (rd_src pre c l E). cbn [cbind]. rewrite decide_True by done. specialize (IH (pre ++ [c]) fuel). rewrite length_app in IH. cbn [length] in IH.
    replace (Z.of_nat (length pre) + 1) with (Z.of_nat (length pre + 1)) by lia. apply IH; [by rewrite <- app_assoc|done].
Qed.

Lemma eat_space_fault b : blank b -> forall e pre ln fuel, src = pre ++ b ++ e -> e = [0] \/ (exists l, e = 35 :: l /\ Forall (fun c => c <> 10) l) -> eat_space src (Z.of_nat (length pre)) ln fuel = Fault.
Proof.
  induction 1 as [|x b [Hx Hs] _ IH|l b Hl _ IH]; intros e pre ln [|fuel] E He; cbn [eat_space]; try done.
  - destruct He as [->|(l & -> & Hl)]; rewrite (rd_src pre _ _ E); cbn [cbind].
    + change (schar 0) with 0. rewrite decide_True by lia. destruct fuel as [|fuel]; [done|]. cbn [eat_space]. rewrite rd_beyond; [done|]. rewrite E, length_app. cbn [app length]. lia.
    + change (schar 35) with 35. rewrite decide_False by lia. rewrite decide_True by done. rewrite (skip_comment_fault (35 :: l) pre); [done|exact E|by constructor].
  - rewrite (rd_src pre x (b ++ e) E). cbn [cbind]. rewrite decide_True by done. specialize (IH e (pre ++ [x]) (if decide (x = 10) then ln + 1 else ln) fuel). rewrite length_app in IH. cbn [length] in IH.
    replace (Z.of_nat (length pre) + 1) with (Z.of_nat (length pre + 1)) by lia. apply IH; [by rewrite <- app_assoc|done].
  - rewrite <- app_comm_cons, <- app_assoc in E. rewrite (rd_src pre 35 _ E). cbn [cbind]. change (schar 35) with 35. rewrite decide_False by lia. rewrite decide_True by done.
    rewrite (skip_comment_ok (35 :: l) pre (b ++ e)); [|done|by constructor|rewrite E, !length_app; cbn [length]; rewrite length_app; cbn [length]; lia]. cbn [cbind].
    destruct fuel as [|fuel]; [done|]. cbn [eat_space]. rewrite (rd_src (pre ++ 35 :: l) 10 (b ++ e)) by (by rewrite <- app_assoc). cbn [cbind].
    change (schar 10) with 10. rewrite decide_True by lia. specialize (IH e (pre ++ 35 :: l ++ [10]) (if decide (10 = 10) then ln + 1 else ln) fuel).
    replace (Z.of_nat (length (pre ++ 35 :: l)) + 1) with (Z.of_nat (length (pre ++ 35 :: l ++ [10]))) by (rewrite !length_app; cbn [length]; rewrite length_app; cbn [length]; lia). apply IH; [rewrite E; assoc|done].
Qed.

Lemma trailing_fault pre ln fuel : src = pre ++ rest ++ [0] -> eat_space src (Z.of_nat (length pre)) ln fuel = Fault.
Proof.
  intros E. destruct rest_ok as [Hb|(b & l & Er & Hb & Hl)]; [apply (eat_space_fault rest Hb [0]); [done|by left]|].
  apply (eat_space_fault b Hb (35 :: l ++ [0])); [rewrite E, Er; assoc|]. right. exists (l ++ [0]). split; [done|]. apply Forall_app. split; [done|]. by constructor.
Qed.

Lemma trailing_first : rest <> [] -> exists c r, rest = c :: r /\ c <> 0 /\ stop c.
Proof.
  assert (forall b e, blank b -> b ++ e <> [] -> (b = [] -> exists r, e = 35 :: r) -> exists c r, b ++ e = c :: r /\ c <> 0 /\ stop c) as H.
  { assert (stop 35) as H35 by (left; by apply (bool_decide_eq_true_1 (35 ∈ specials))). intros b e Hb Hn He. destruct Hb as [|x b [Hx Hs] _|l b _ _].
    - destruct (He eq_refl) as [r ->]. by exists 35, r.
    - exists x, (b ++ e). split; [done|]. split; [lia|by right].
    - eexists _, _. split; [reflexivity|]. done. }
  intros Hn. destruct rest_ok as [Hb|(b & l & Er & Hb & Hl)].
  - rewrite <- (app_nil_r rest) in Hn |- *. apply H; [done|done|]. intros E. rewrite E in Hn. done.
  - rewrite Er. apply H; [done|by destruct b|]. by exists l.
Qed.

Lemma quoted_ok q : forall pre post m l fuel, src = pre ++ q ++ 34 :: post -> Forall (fun c => 0 < c < 256 /\ c <> 34) q -> length m = 256%nat -> (length l + length q <= 255)%nat -> (length q < fuel)%nat ->
  quoted src (Z.of_nat (length pre)) (splice m 0 l) (Z.of_nat (length l)) fuel = Ok (splice m 0 (l ++ q ++ [0]), Z.of_nat (length (pre ++ q ++ [34]))).
Proof.
  induction q as [|c q IH]; intros pre post m l [|fuel] E Hq Lm Hl Hf; cbn [length] in *; try lia; cbn [quoted].
  - rewrite (rd_src pre 34 post E). cbn [cbind]. rewrite decide_False by tauto. pose proof (wr_snoc m 0 l 0 ltac:(unfold fits; lia) ltac:(lia)) as W. rewrite Z.add_0_l in W. rewrite W. cbn [cbind app].
    rewrite length_app. cbn [length]. do 2 f_equal. lia.
  - apply Forall_cons in Hq as [[Hc Hne] Hq]. rewrite (rd_src pre c (q ++ 34 :: post) E). cbn [cbind]. rewrite decide_True by done.
    pose proof (wr_snoc m 0 l c ltac:(unfold fits; lia) ltac:(lia)) as W. rewrite Z.add_0_l in W. rewrite W. cbn [cbind]. specialize (IH (pre ++ [c]) post m (l ++ [c]) fuel). rewrite !length_app in IH. cbn [length] in IH.
    replace (Z.of_nat (length pre) + 1) with (Z.of_nat (length pre + 1)) by lia. replace (Z.of_nat (length l) + 1) with (Z.of_nat (length l + 1)) by lia.
    rewrite IH; [|by rewrite <- app_assoc|done|done|lia|lia]. rewrite <- app_assoc. do 2 f_equal. repeat (rewrite length_app; cbn [length]). lia.
Qed.

Lemma word_ok w : forall pre c post m l fuel, src = pre ++ w ++ c :: post -> Forall word_char w -> stop c -> length m = 256%nat -> (1 <= length l + length w <= 255)%nat -> (length w < fuel)%nat ->
  word src (Z.of_nat (length pre)) (splice m 0 l) (Z.of_nat (length l)) fuel = Ok (Some (splice m 0 (l ++ w ++ [0]), Z.of_nat (length (pre ++ w)))).
Proof.
  induction w as [|x w IH]; intros pre c post m l [|fuel] E Hw Hc Lm Hl Hf; cbn [length] in *; try lia; cbn [word].
  - rewrite (rd_src pre c post E). cbn [cbind]. pose proof (wr_snoc m 0 l 0 ltac:(unfold fits; lia) ltac:(lia)) as W. rewrite Z.add_0_l in W. rewrite app_nil_r.
    destruct (decide (c ∈ specials)) as [_|Hn]; [rewrite decide_False by lia; by rewrite W|]. destruct Hc as [?|Hc]; [done|]. rewrite decide_True by done. by rewrite W.
  - apply Forall_cons in Hw as [[Hx Hn] Hw]. rewrite (rd_src pre x (w ++ c :: post) E). cbn [cbind]. rewrite decide_False by done. rewrite decide_False by (unfold schar; destruct (decide _); lia).
    pose proof (wr_snoc m 0 l x ltac:(unfold fits; lia) ltac:(lia)) as W. rewrite Z.add_0_l in W. rewrite W. cbn [cbind]. rewrite decide_False by lia. specialize (IH (pre ++ [x]) c post m (l ++ [x]) fuel). rewrite !length_app in IH. cbn [length] in IH.
    replace (Z.of_nat (length pre) + 1) with (Z.of_nat (length pre + 1)) by lia. replace (Z.of_nat (length l) + 1) with (Z.of_nat (length l + 1)) by lia.
    rewrite IH; [|by rewrite <- app_assoc|done|done|done|lia|lia]. rewrite <- app_assoc. do 3 f_equal. rewrite !length_app. cbn [length]. lia.
Qed.

(** ** The stream of tokens *)

(** The scanner holds the first of [ts], and the others are still to be read. *)
Record reads (s : ics) (ts : list (list Z)) : Prop := {
  re_len : length (token s) = 256%nat;
  re_str : str_at (token s) 0 (hd [] ts);
  re_more : rest <> [] -> ts <> [];
  re_rest : exists l pre prev, src = pre ++ layout l ++ rest ++ [0] /\ pos s = Z.of_nat (length pre) /\ good prev l /\ tail ts = map (fun x => tok_str x.2) l }.

(** The character behind a word. *)
Lemma layout_stop l : good true l -> exists c post, layout l ++ rest ++ [0] = c :: post /\ stop c.
Proof.
  destruct l as [|[b t] l].
  { intros _. cbn [layout app]. destruct (decide (rest = [])) as [->|Hn]; [exists 0, []; split; [done|right; done]|]. destruct (trailing_first Hn) as (c & r & -> & _ & Hc). exists c, (r ++ [0]). done. } intros (Hb & Ht & Hw & _). destruct Hb as [|c b [_ Hc] _|c b _ _]; cbn [layout].
  - destruct t as [w|q|c]; [by destruct (Hw eq_refl eq_refl)| |]; cbn [tok_text app]; eexists _, _; (split; [reflexivity|]); left; [by apply (bool_decide_eq_true_1 (34 ∈ specials))|apply Ht].
  - rewrite <- app_assoc. eexists _, _. split; [reflexivity|]. by right.
  - cbn [app]. eexists _, _. split; [reflexivity|]. left. by apply (bool_decide_eq_true_1 (35 ∈ specials)).
Qed.

(** The first character of a token. *)
Lemma tok_first t : tok_ok t -> exists c r, tok_text t = c :: r /\ 32 < c < 128 /\ c <> 35.
Proof.
  assert (35 ∈ specials) as H35 by (by apply (bool_decide_eq_true_1 (35 ∈ specials))). destruct t as [w|q|c]; cbn [tok_text tok_ok].
  - intros (Hn & Hw & _). destruct w as [|c w]; [done|]. apply Forall_cons in Hw as [[Hc Hs] _]. exists c, w. split; [done|]. split; [done|]. by intros ->.
  - intros _. eexists _, _. split; [reflexivity|]. done.
  - intros (Hc & H1 & H2). eexists _, _. split; [reflexivity|]. split; [|done]. clear H1 H2. unfold specials in Hc. apply list_elem_of_In in Hc. cbn in Hc. lia.
Qed.

Lemma first_nonzero b t : blank b -> tok_ok t -> exists c r, b ++ tok_text t = c :: r /\ c <> 0.
Proof.
  intros Hb Ht. destruct (tok_first t Ht) as (c & r & E & Hc & _). rewrite E. destruct Hb as [|x b [Hx _] _|l b _ _]; eexists _, _; (split; [reflexivity|]); lia.
Qed.

Lemma splice_str m str : length m = 256%nat -> (length str <= 255)%nat -> Forall (fun c => 0 < c < 256) str -> length (splice m 0 (str ++ [0])) = 256%nat /\ str_at (splice m 0 (str ++ [0])) 0 str.
Proof.
  intros Lm Hl Hs. split; [rewrite length_splice; [done|unfold fits; rewrite length_app; cbn [length]; lia]|]. apply str_at_splice; [unfold fits; lia|done].
Qed.

Lemma tok_str_ok t : tok_ok t -> (length (tok_str t) <= 255)%nat /\ Forall (fun c => 0 < c < 256) (tok_str t).
Proof.
  destruct t as [w|q|c]; cbn [tok_ok tok_str].
  - intros (_ & Hw & Hl). split; [done|]. eapply Forall_impl; [exact Hw|]. intros c [? _]. lia.
  - intros [Hq Hl]. split; [done|]. eapply Forall_impl; [exact Hq|]. by intros c [? _].
  - intros H. destruct (tok_first (Punct c) H) as (c' & r & E & Hc & _). cbn in E. injection E as -> <-. split; [cbn; lia|]. constructor; [lia|constructor].
Qed.

(** Reading one token, behind the blanks: the place behind it and the buffer. *)
Definition scan (p : Z) (m : list Z) : cres (option (list Z * Z)) :=
  let! c := rd src p in
  if decide (c = 34) then let! r := quoted src (p + 1) m 0 (S (length src)) in Ok (Some r) else word src p m 0 (S (length src)).

Lemma scan_ok pre t post m : src = pre ++ tok_text t ++ post -> tok_ok t -> (is_word t = true -> exists c r, post = c :: r /\ stop c) -> length m = 256%nat ->
  scan (Z.of_nat (length pre)) m = Ok (Some (splice m 0 (tok_str t ++ [0]), Z.of_nat (length (pre ++ tok_text t)))).
Proof.
  intros E Ht Hstop Lm. unfold scan. assert (length pre + length (tok_text t) <= length src)%nat as Ls by (rewrite E, !length_app; lia). destruct t as [w|q|c]; cbn [tok_text tok_str tok_ok] in *.
  - destruct (Hstop eq_refl) as (c & r & -> & Hc). destruct Ht as (Hn & Hw & Hl). destruct w as [|x w]; [done|]. pose proof Hw as [[Hx Hs] _]%Forall_cons.
    rewrite (rd_src pre x (w ++ c :: r) E). cbn [cbind]. assert (34 ∈ specials) by (by apply (bool_decide_eq_true_1 (34 ∈ specials))). rewrite decide_False by (by intros ->).
    pose proof (word_ok (x :: w) pre c r m [] (S (length src)) E Hw Hc Lm ltac:(cbn [length] in *; lia) ltac:(lia)) as W. rewrite splice_nil in W. exact W.
  - destruct Ht as [Hq Hl]. rewrite (rd_src pre 34 _ E). cbn [cbind]. rewrite decide_True by done.
    pose proof (quoted_ok q (pre ++ [34]) post m [] (S (length src)) ltac:(rewrite E; assoc) Hq Lm ltac:(cbn [length] in *; lia) ltac:(cbn [length] in Ls; rewrite length_app in Ls; lia)) as W. rewrite splice_nil in W.
    replace (Z.of_nat (length pre) + 1) with (Z.of_nat (length (pre ++ [34]))) by (rewrite length_app; cbn [length]; lia). cbn [length app] in W. change (Z.of_nat 0) with 0 in W. replace ((pre ++ [34]) ++ q ++ [34]) with (pre ++ 34 :: q ++ [34]) in W by assoc. rewrite W. done.
  - destruct Ht as (Hc & H35 & H34). rewrite (rd_src pre c post E). cbn [cbind]. rewrite decide_False by done. cbn [word]. rewrite (rd_src pre c post E). cbn [cbind]. rewrite decide_True by done. rewrite decide_True by done.
    destruct (tok_first (Punct c)) as (c' & r & Ec & Hr & _); [done|]. cbn in Ec. injection Ec as -> <-.
    pose proof (wr_snoc m 0 [] c' ltac:(unfold fits; cbn; lia) ltac:(lia)) as W1. rewrite splice_nil in W1. cbn [length app] in W1. change (0 + Z.of_nat 0) with 0 in W1. rewrite W1. cbn [cbind].
    pose proof (wr_snoc m 0 [c'] 0 ltac:(unfold fits; cbn; lia) ltac:(lia)) as W2. cbn [length app] in W2. change (0 + Z.of_nat 1) with 1 in W2. rewrite W2. cbn [cbind]. do 4 f_equal. rewrite length_app. cbn [length]. lia.
Qed.

Lemma next_ok s ts : reads s ts -> (exists s', next src s = Ok (Some tt, s') /\ reads s' (tail ts) /\ stdout s' = stdout s) \/ (rest <> [] /\ next src s = Fault).
Proof.
  intros [Lm Hs Hm (l & pre & prev & E & Ep & Hg & Et)]. unfold next. rewrite Ep. destruct l as [|[b t] l].
  - cbn [layout app] in E. destruct (decide (rest = [])) as [Hn|Hn].
    2: { right. split; [done|]. destruct (trailing_first Hn) as (c & r & Er & Hc & _). rewrite (rd_src pre c (r ++ [0])) by (rewrite E, Er; done). cbn [cbind]. rewrite decide_False by done. by rewrite trailing_fault. }
    left. rewrite (rd_src pre 0 []) by (rewrite E, Hn; done). cbn [cbind]. rewrite decide_True by done. pose proof (wr_snoc (token s) 0 [] 0 ltac:(unfold fits; cbn; lia) ltac:(lia)) as W. rewrite splice_nil in W. cbn [length app] in W. change (0 + Z.of_nat 0) with 0 in W.
    rewrite W. cbn [cbind]. eexists. split; [reflexivity|]. split; [|done]. destruct (splice_str (token s) [] Lm ltac:(cbn; lia) ltac:(constructor)) as [L1 S1]. cbn [map] in Et. rewrite Et.
    split; [done|done|by intros []|]. exists [], pre, prev. done.
  - left. destruct Hg as (Hb & Ht & _ & Hg). destruct (first_nonzero b t Hb Ht) as (c & r & Ec & Hc). cbn [layout] in E.
    assert (src = pre ++ c :: r ++ layout l ++ rest ++ [0]) as E1. { rewrite E. replace ((b ++ tok_text t ++ layout l) ++ rest ++ [0]) with ((b ++ tok_text t) ++ layout l ++ rest ++ [0]) by assoc. by rewrite Ec. }
    rewrite (rd_src pre c _ E1). cbn [cbind]. rewrite decide_False by done. destruct (tok_first t Ht) as (x & r' & Ex & Hx & H35).
    destruct (eat_space_ok b Hb pre x (r' ++ layout l ++ rest ++ [0]) (line s) (S (length src))) as [ln Els]; [rewrite E, Ex; assoc|done|done|rewrite E, !length_app; lia|]. rewrite Els. cbn [cbind].
    assert (src = (pre ++ b) ++ tok_text t ++ layout l ++ rest ++ [0]) as E2 by (rewrite E; assoc).
    pose proof (scan_ok (pre ++ b) t (layout l ++ rest ++ [0]) (token s) E2 Ht) as W. specialize (W ltac:(intros Hw; rewrite Hw in Hg; apply layout_stop; exact Hg) Lm).
    unfold scan in W. assert (rd src (Z.of_nat (length (pre ++ b))) = Ok x) as Rx by (apply (rd_src _ _ (r' ++ layout l ++ rest ++ [0])); rewrite E2, Ex; assoc). rewrite Rx in W |- *. cbn [cbind] in W |- *.
    assert (forall ln', reads (Ics (Z.of_nat (length ((pre ++ b) ++ tok_text t))) ln' (splice (token s) 0 (tok_str t ++ [0])) (stdout s)) (tail ts)) as Hr.
    { intros ln'. destruct (tok_str_ok t Ht) as [Hl Hc']. destruct (splice_str (token s) (tok_str t) Lm Hl Hc') as [L1 S1]. rewrite Et. split; [done|done|by destruct l|].
      exists l, ((pre ++ b) ++ tok_text t), (is_word t). split; [rewrite E; assoc|done]. }
    destruct (decide (x = 34)) as [_|_].
    + destruct (quoted src (Z.of_nat (length (pre ++ b)) + 1) (token s) 0 (S (length src))) as [[tk q]| |]; cbn [cbind] in W; try discriminate W. injection W as -> ->. cbn [cbind].
      eexists. split; [reflexivity|]. split; [apply Hr|done].
    + rewrite W. cbn [cbind]. eexists. split; [reflexivity|]. split; [apply Hr|done].
Qed.

(** ** The parser *)

(** [m] reads the tokens of [ts] up to [ts'] and yields [a], unless it comes to the end of a
  file that has something behind the last token. *)
Definition parses {A} (m : P A) (ts ts' : list (list Z)) (a : A) : Prop :=
  forall s, reads s ts -> (exists s', m s = Ok (Some a, s') /\ reads s' ts' /\ stdout s' = stdout s) \/ (rest <> [] /\ m s = Fault).

Lemma parses_ret {A} (a : A) ts : parses (ret a) ts ts a.
Proof. intros s H. left. by exists s. Qed.

Lemma parses_bind {A B} (m : P A) (f : A -> P B) ts ts1 ts2 a b : parses m ts ts1 a -> parses (f a) ts1 ts2 b -> parses (bind m f) ts ts2 b.
Proof.
  intros Hm Hf s H. unfold bind. destruct (Hm s H) as [(s1 & E1 & H1 & O1)|[Hn E1]]; rewrite E1; cbn [cbind]; [|by right].
  destruct (Hf s1 H1) as [(s2 & E2 & H2 & O2)|[Hn E2]]; [|by right]. left. exists s2. split; [done|]. split; [done|congruence].
Qed.

Lemma parses_next ts : parses (next src) ts (tail ts) tt.
Proof. intros s H. by apply next_ok. Qed.

Lemma parses_tok_is t ts : plain t -> parses (tok_is t) ts ts (bool_decide (hd [] ts = t)).
Proof.
  intros Ht s H. left. exists s. split; [|done]. unfold tok_is. pose proof (str_at_splice (t ++ [0]) 0 t ltac:(unfold fits; rewrite length_app; cbn [length]; lia) Ht) as S.
  assert (splice (t ++ [0]) 0 (t ++ [0]) = t ++ [0]) as Esp by (unfold splice; change (Z.to_nat 0) with 0%nat; rewrite take_0, drop_ge by lia; by rewrite app_nil_r). rewrite Esp in S.
  destruct (strcmp_ok (token s) 0 (t ++ [0]) 0 _ t (re_str _ _ H) S) as (c & -> & Hc). cbn [cbind]. do 3 f_equal. apply bool_decide_ext. exact Hc.
Qed.

Lemma match_yes t ts : plain t -> parses (match_ src t) (t :: ts) ts true.
Proof.
  intros Ht. unfold match_. eapply parses_bind; [by apply parses_tok_is|]. cbn [hd]. rewrite bool_decide_eq_true_2 by done. eapply parses_bind; [apply parses_next|apply parses_ret].
Qed.

Lemma match_no t ts : plain t -> hd [] ts <> t -> parses (match_ src t) ts ts false.
Proof.
  intros Ht Hn. unfold match_. eapply parses_bind; [by apply parses_tok_is|]. rewrite bool_decide_eq_false_2 by done. apply parses_ret.
Qed.

Lemma force_yes t ts : plain t -> parses (force src t) (t :: ts) ts tt.
Proof.
  intros Ht. unfold force. eapply parses_bind; [by apply parses_tok_is|]. cbn [hd]. rewrite bool_decide_eq_true_2 by done. apply parses_next.
Qed.

Lemma str_at_prefix str : forall m p, str_at m p str -> fetch m p (length str) = Ok str.
Proof.
  induction str as [|c str IH]; intros m p H; [done|]. destruct H as (Hc & _ & H). cbn [length fetch]. rewrite (rd_Some _ _ _ Hc). cbn [cbind]. by rewrite (IH m (p + 1) H).
Qed.

Lemma parses_dup ts : parses dup_token ts ts (hd [] ts).
Proof.
  intros s H. left. exists s. split; [|done]. unfold dup_token. rewrite (strlen_ok _ _ _ (re_str _ _ H)). cbn [cbind]. rewrite Nat2Z.id, (str_at_prefix _ _ _ (re_str _ _ H)). done.
Qed.

Lemma parses_atoi n ts : numeral n -> parses atoi_token (n :: ts) (n :: ts) (s32 (numval n)).
Proof. intros Hn s H. left. exists s. split; [|done]. unfold atoi_token. rewrite (atoi_numeral _ _ _ (re_str _ _ H) Hn). done. Qed.

(** ** Interfaces and their tokens *)

Inductive tsyn := Basic (t : ic_type) | Str (size : list Z).
Record psyn := Psyn { ps_dir : dir; ps_type : tsyn; ps_name : list Z; ps_comma : bool }.
Record fsyn := Fsyn { fs_name : list Z; fs_params : list psyn; fs_semi : bool }.
Record isyn := Isyn { is_name : list Z; is_key : list Z; is_funcs : list fsyn; is_semi : bool }.

Definition opt (b : bool) (t : list Z) : list (list Z) := if b then [t] else [].
Definition type_toks (t : tsyn) : list (list Z) := match t with Basic t => [t_name t] | Str n => [cstr "string"; cstr ":"; n] end.
Definition dir_tok (d : dir) : list Z := match d with IN => cstr "in" | OUT => cstr "out" end.
Definition param_toks (p : psyn) : list (list Z) := dir_tok (ps_dir p) :: type_toks (ps_type p) ++ ps_name p :: opt (ps_comma p) (cstr ",").
Definition params_toks (l : list psyn) (semi : bool) : list (list Z) := concat (map param_toks l) ++ cstr ")" :: opt semi (cstr ";").
Definition func_toks (f : fsyn) : list (list Z) := fs_name f :: cstr "(" :: params_toks (fs_params f) (fs_semi f).
Definition funcs_toks (l : list fsyn) (semi : bool) : list (list Z) := concat (map func_toks l) ++ cstr "}" :: opt semi (cstr ";").
Definition ifc_toks (i : isyn) : list (list Z) := cstr "interface" :: is_name i :: is_key i :: cstr "{" :: funcs_toks (is_funcs i) (is_semi i).

Definition type_val (t : tsyn) : ic_type := match t with Basic t => t | Str n => Type_ (cstr "string") STRING (s32 (numval n)) end.
Definition param_val (p : psyn) : ic_param := Param (ps_name p) (type_val (ps_type p)) (ps_dir p).
Definition func_val (f : fsyn) : ic_func := Func (fs_name f) (map param_val (fs_params f)).
Definition ifc_val (i : isyn) : ic_ifc := Ifc (is_name i) (is_key i) (map func_val (is_funcs i)).

(** The types exist, sizes are numbers, and no function is called like a token that may
  stand in its place. *)
Definition type_ok (t : tsyn) : Prop := match t with Basic t => t ∈ builtins | Str n => numeral n end.
Definition func_ok (f : fsyn) : Prop := fs_name f <> cstr "}" /\ fs_name f <> cstr ";" /\ Forall (fun p => type_ok (ps_type p)) (fs_params f).

Lemma find_type_ok t ts : forall l, Forall (fun t => plain (t_name t)) l -> NoDup (map t_name l) -> t ∈ l -> parses (find_type src l) (t_name t :: ts) ts t.
Proof.
  induction l as [|u l IH]; intros Hp Hd Ht; [by apply not_elem_of_nil in Ht|]. apply Forall_cons in Hp as [Hu Hp]. cbn [map] in Hd. apply NoDup_cons in Hd as [Hn Hd]. cbn [find_type].
  apply elem_of_cons in Ht as [->|Ht].
  - eapply parses_bind; [by apply match_yes|]. apply parses_ret.
  - eapply parses_bind; [apply match_no; [done|]|by apply IH]. cbn [hd]. intros E. apply Hn. rewrite <- E. apply list_elem_of_fmap. by exists t.
Qed.

Lemma types_plain : Forall (fun t => plain (t_name t)) types /\ NoDup (map t_name types).
Proof. split; [unfold plain; apply (bool_decide_eq_true_1 _); vm_compute; reflexivity|apply (bool_decide_eq_true_1 _); vm_compute; reflexivity]. Qed.

Lemma builtin_name t : t ∈ builtins -> t ∈ types /\ t_name t <> cstr "string".
Proof.
  intros Ht. split; [apply list_elem_of_In; unfold types; rewrite <- in_rev; by apply list_elem_of_In|]. apply list_elem_of_In in Ht. cbn [builtins In] in Ht.
  destruct Ht as [<-|[<-|[<-|[<-|[]]]]]; discriminate.
Qed.

Lemma parses_type t ts : type_ok t -> parses (type src) (type_toks t ++ ts) ts (type_val t).
Proof.
  intros Ht. unfold type. destruct t as [t|n]; cbn [type_toks type_val app type_ok] in *.
  - destruct (builtin_name t Ht) as [Hin Hn]. destruct types_plain as [Hp Hd]. eapply parses_bind; [apply match_no; [plain_str|exact Hn]|]. by apply find_type_ok.
  - eapply parses_bind; [apply match_yes; plain_str|]. eapply parses_bind; [apply force_yes; plain_str|]. eapply parses_bind; [by apply parses_atoi|].
    eapply parses_bind; [apply parses_next|]. apply parses_ret.
Qed.

Lemma parses_param p ts : type_ok (ps_type p) -> parses (param src) (dir_tok (ps_dir p) :: type_toks (ps_type p) ++ ps_name p :: ts) ts (param_val p).
Proof.
  intros Ht. unfold param. assert (forall d, parses (type src) (type_toks (ps_type p) ++ ps_name p :: ts) (ps_name p :: ts) (type_val (ps_type p)) /\
    parses (bind dup_token (fun n => bind (next src) (fun _ => ret (Param n (type_val (ps_type p)) d)))) (ps_name p :: ts) ts (Param (ps_name p) (type_val (ps_type p)) d)) as H.
  { intros d. split; [by apply parses_type|]. eapply parses_bind; [apply parses_dup|]. eapply parses_bind; [apply parses_next|]. apply parses_ret. }
  unfold param_val. destruct (ps_dir p); cbn [dir_tok].
  - eapply parses_bind; [apply match_yes; plain_str|]. eapply parses_bind; [apply parses_ret|]. eapply parses_bind; apply (H IN).
  - eapply parses_bind; [apply match_no; [plain_str|discriminate]|]. eapply parses_bind; [eapply parses_bind; [apply match_yes; plain_str|apply parses_ret]|]. eapply parses_bind; apply (H OUT).
Qed.

(** An optional token. *)
Lemma parses_opt (b : bool) t ts : plain t -> (b = false -> hd [] ts <> t) -> parses (match_ src t) (opt b t ++ ts) ts b.
Proof. intros Hp Hn. destruct b; [by apply match_yes|]. apply match_no; [done|by apply Hn]. Qed.

Lemma parses_params semi ts : (semi = false -> hd [] ts <> cstr ";") -> forall l fuel, Forall (fun p => type_ok (ps_type p)) l -> (length l < fuel)%nat ->
  parses (params src fuel) (params_toks l semi ++ ts) ts (map param_val l).
Proof.
  intros Hs. induction l as [|p l IH]; intros [|fuel] Hl Hf; cbn [length] in Hf; try lia; unfold params_toks; cbn [map concat app params].
  - eapply parses_bind; [apply match_yes; plain_str|]. cbn zeta. eapply parses_bind; [apply (parses_opt semi); [plain_str|done]|]. apply parses_ret.
  - apply Forall_cons in Hl as [Hp Hl]. unfold param_toks. rewrite <- !app_assoc. cbn [app]. rewrite <- !app_assoc. cbn [app]. eapply parses_bind; [apply match_no; [plain_str|cbn [hd]; destruct (ps_dir p); discriminate]|].
    eapply parses_bind; [by apply parses_param|]. eapply parses_bind; [apply (parses_opt (ps_comma p)); [plain_str|]|].
    { intros _. destruct l as [|p' l]; cbn [map concat app hd]; [discriminate|]. destruct (ps_dir p'); discriminate. }
    eapply parses_bind; [|apply parses_ret]. specialize (IH fuel Hl ltac:(lia)). unfold params_toks in IH. rewrite <- app_assoc in IH. exact IH.
Qed.

Lemma parses_function f ts fuel : func_ok f -> (fs_semi f = false -> hd [] ts <> cstr ";") -> (length (fs_params f) < fuel)%nat ->
  parses (function src fuel) (func_toks f ++ ts) ts (func_val f).
Proof.
  intros (_ & _ & Hp) Hs Hf. unfold function, func_toks. cbn [app]. eapply parses_bind; [apply parses_dup|]. eapply parses_bind; [apply parses_next|]. cbn [tail hd].
  eapply parses_bind; [apply force_yes; plain_str|]. eapply parses_bind; [by apply parses_params|]. apply parses_ret.
Qed.

Lemma parses_funcs semi ts : (semi = false -> hd [] ts <> cstr ";") -> forall l fuel, Forall func_ok l -> (length (concat (map func_toks l)) < fuel)%nat ->
  parses (funcs src fuel) (funcs_toks l semi ++ ts) ts (map func_val l).
Proof.
  intros Hs. induction l as [|f l IH]; intros [|fuel] Hl Hf; try lia; unfold funcs_toks; cbn [map concat app funcs] in *.
  - eapply parses_bind; [apply match_yes; plain_str|]. cbn zeta. eapply parses_bind; [apply (parses_opt semi); [plain_str|done]|]. apply parses_ret.
  - apply Forall_cons in Hl as [Hk Hl]. pose proof Hk as (H1 & H2 & _). rewrite <- !app_assoc. rewrite length_app in Hf.
    assert (length (fs_params f) < fuel)%nat as Hlen.
    { enough (length (fs_params f) <= length (concat (map param_toks (fs_params f))))%nat as Hle.
      { assert (length (func_toks f) = S (S (length (concat (map param_toks (fs_params f))) + length (cstr ")" :: opt (fs_semi f) (cstr ";"))))) as E by (unfold func_toks, params_toks; cbn [length]; by rewrite length_app). lia. }
      induction (fs_params f) as [|p ps IHp]; [done|]. cbn [map concat]. rewrite length_app. unfold param_toks at 1. cbn [length]. lia. }
    eapply parses_bind; [apply match_no; [plain_str|exact H1]|]. eapply parses_bind; [apply parses_function; [done| |done]|].
    { intros _. destruct l as [|f' l]; cbn [map concat app hd]; [discriminate|]. apply Forall_cons in Hl as [(_ & H' & _) _]. exact H'. }
    eapply parses_bind; [|apply parses_ret]. specialize (IH fuel Hl). unfold funcs_toks in IH. rewrite <- app_assoc in IH. apply IH. unfold func_toks in Hf at 1. cbn [length] in Hf. lia.
Qed.

Lemma parses_interface i ts fuel : Forall func_ok (is_funcs i) -> (is_semi i = false -> hd [] ts <> cstr ";") -> (length (ifc_toks i) < fuel)%nat ->
  parses (interface src fuel) (tail (ifc_toks i) ++ ts) ts (ifc_val i).
Proof.
  intros Hf Hs Hl. unfold interface, ifc_toks. cbn [tail app]. eapply parses_bind; [apply parses_dup|]. eapply parses_bind; [apply parses_next|]. cbn [tail hd].
  eapply parses_bind; [apply parses_dup|]. eapply parses_bind; [apply parses_next|]. cbn [tail hd]. eapply parses_bind; [apply force_yes; plain_str|].
  eapply parses_bind; [apply parses_funcs; [done|done|]|apply parses_ret]. unfold ifc_toks, funcs_toks in Hl. cbn [length] in Hl. rewrite length_app in Hl. lia.
Qed.

Lemma match_end : parses (match_ src []) [] [] true.
Proof.
  unfold match_. eapply parses_bind; [apply parses_tok_is; constructor|]. cbn [hd]. rewrite bool_decide_eq_true_2 by done. eapply parses_bind; [apply parses_next|apply parses_ret].
Qed.

(** The whole file. *)
Lemma ifc_parse_ok i s fuel : Forall func_ok (is_funcs i) -> (length (ifc_toks i) < fuel)%nat -> reads s ([] :: ifc_toks i) ->
  (rest = [] /\ exists s', parse src fuel s = Ok (Some tt, s') /\ stdout s' = stdout s ++ mkheader (ifc_val i) ++ mkstub (ifc_val i)) \/ (rest <> [] /\ parse src fuel s = Fault).
Proof.
  intros Hi Hlen H0. remember (parse src fuel s) as R eqn:E. unfold parse in E. unfold bind at 1 in E. destruct (parses_next _ s H0) as [(s1 & E1 & H1 & O1)|[Hn E1]]; rewrite E1 in E; cbn [cbind] in E; [|by right]. cbn [tail] in H1.
  unfold ifc_toks in H1. unfold bind at 1 in E. destruct (match_yes (cstr "interface") _ ltac:(plain_str) s1 H1) as [(s2 & E2 & H2 & O2)|[Hn E2]]; rewrite E2 in E; cbn [cbind] in E; [|by right]. unfold bind at 2 in E.
  unfold bind at 1 in E. destruct (parses_interface i [] fuel Hi ltac:(by intros _) Hlen s2) as [(s3 & E3 & H3 & O3)|[Hn E3]]; [rewrite app_nil_r; exact H2| |]; rewrite E3 in E; cbn [cbind] in E; [|by right].
  unfold print in E. cbn [cbind] in E. set (s4 := Ics (pos s3) (line s3) (token s3) _) in E. assert (rest = []) as Hr by (destruct (decide (rest = [])) as [|Hn]; [done|]; by destruct (re_more _ _ H3 Hn)).
  assert (reads s4 []) as H4 by (destruct H3; by split). unfold bind at 1 in E. destruct (match_end s4 H4) as [(s5 & E5 & _ & O5)|[Hn _]]; [|done]. rewrite E5 in E. cbn [cbind ret] in E. left. split; [done|].
  exists s5. split; [done|]. rewrite O5. cbn [s4 stdout]. by rewrite O3, O2, O1.
Qed.

End text.

Lemma layout_length l : forall prev, good prev l -> (length l <= length (layout l))%nat.
Proof.
  induction l as [|[b t] l IH]; intros prev Hg; [done|]. destruct Hg as (_ & Ht & _ & Hg). destruct (tok_first t Ht) as (c & r & E & _). specialize (IH _ Hg). cbn [layout length].
  rewrite !length_app, E. cbn [length]. lia.
Qed.

(** C17. However one interface is laid out in a file, with any blanks and comments in front of
  its tokens (words of ASCII characters, quoted strings, punctuation, each of at most 255
  characters), with or without the optional commas and semicolons: if the file ends right
  behind the last token, the compiler ends without an error, and what it prints is the header
  and the stubs of exactly that interface; if anything, a newline or a comment, follows the
  last token, the scanner runs over the terminator and beyond the text. *)
Theorem ic_compiles (l : list (list Z * tok)) (rest : list Z) (i : isyn)
  (Hl : good false l) (Hr : trailing rest) (Ht : map (fun x => tok_str x.2) l = ifc_toks i) (Hi : Forall func_ok (is_funcs i)) :
  main (layout l ++ rest) = if decide (rest = []) then Ok (true, mkheader (ifc_val i) ++ mkstub (ifc_val i)) else Fault.
Proof.
  unfold main. rewrite <- app_assoc. set (src := layout l ++ rest ++ [0]). set (s0 := Ics 0 1 (replicate 256 0) []).
  assert (reads src rest s0 ([] :: ifc_toks i)) as H0 by (split; [done|done|done|exists l, [], false; split; [done|]; split; [done|]; split; [done|]; symmetry; exact Ht]).
  assert (length (ifc_toks i) < S (length src))%nat as Hlen. { rewrite <- Ht, length_map. pose proof (layout_length l false Hl). unfold src. rewrite length_app. lia. }
  destruct (ifc_parse_ok src rest Hr i s0 (S (length src)) Hi Hlen H0) as [[Hn (s & -> & Hs)]|[Hn ->]]; cbn [cbind]; [rewrite decide_True by done; by rewrite Hs|by rewrite decide_False].
Qed.

(** An interface with one function, its type and a string of 256 bytes, and a comment. *)
Definition demo_layout : list (list Z * tok) :=
  [(35 :: cstr " names" ++ [10], Word (cstr "interface")); (cstr " ", Word (cstr "namer")); (cstr " ", Quoted (cstr "/blt/system/namer")); (cstr " ", Punct 123);
   ([10], Word (cstr "lookup")); ([], Punct 40); ([], Word (cstr "in")); (cstr " ", Word (cstr "string")); ([], Punct 58); ([], Word (cstr "256")); (cstr " ", Word (cstr "name")); ([], Punct 44);
   (cstr " ", Word (cstr "out")); (cstr " ", Word (cstr "int32")); (cstr " ", Word (cstr "port")); ([], Punct 41); ([10], Punct 125)].
Definition demo_ifc : isyn :=
  Isyn (cstr "namer") (cstr "/blt/system/namer")
    [Fsyn (cstr "lookup") [Psyn IN (Str (cstr "256")) (cstr "name") true; Psyn OUT (Basic (Type_ (cstr "int32") BASIC 4)) (cstr "port") false] false] false.

Lemma ic_compiles_witness : main (layout demo_layout ++ []) = Ok (true, mkheader (ifc_val demo_ifc) ++ mkstub (ifc_val demo_ifc)) /\ main (layout demo_layout ++ [10]) = Fault.
Proof.
  assert (forall rest, trailing rest -> good false demo_layout -> Forall func_ok (is_funcs demo_ifc) -> main (layout demo_layout ++ rest) = if decide (rest = []) then Ok (true, mkheader (ifc_val demo_ifc) ++ mkstub (ifc_val demo_ifc)) else Fault) as H
    by (intros rest Hr Hl Hi; exact (ic_compiles demo_layout rest demo_ifc Hl Hr eq_refl Hi)).
  assert (good false demo_layout) as Hl.
  { assert (forall w, bool_decide (w <> [] /\ Forall word_char w /\ (length w <= 255)%nat) = true -> tok_ok (Word w)) as Hw by (intros w; apply bool_decide_eq_true_1).
    assert (forall c, bool_decide ((c ∈ specials) /\ c <> 35 /\ c <> 34) = true -> tok_ok (Punct c)) as Hp by (intros c; apply bool_decide_eq_true_1).
    assert (forall b, bool_decide (Forall space b) = true -> blank b) as Hb.
    { intros b Hb. apply bool_decide_eq_true_1 in Hb. induction Hb; [constructor|by constructor]. }
    assert (blank (35 :: cstr " names" ++ [10])) as Hc by (apply (blank_comment (cstr " names") []); [apply (bool_decide_eq_true_1 _); vm_compute; reflexivity|constructor]).
    assert (tok_ok (Quoted (cstr "/blt/system/namer"))) as Hq by (split; [apply (bool_decide_eq_true_1 _); vm_compute; reflexivity|cbn; lia]).
    cbn [good demo_layout is_word]. repeat match goal with |- _ /\ _ => apply conj end; first [exact I | idtac]; first [exact Hc | exact Hq | apply Hw; vm_compute; reflexivity | apply Hp; vm_compute; reflexivity | apply Hb; vm_compute; reflexivity | (intros; discriminate)]. }
  assert (Forall func_ok (is_funcs demo_ifc)) as Hi.
  { constructor; [|constructor]. split; [discriminate|]. split; [discriminate|]. constructor; [|constructor; [|constructor]].
    + left. unfold digits. apply (bool_decide_eq_true_1 _). vm_compute. reflexivity.
    + left. }
  split; [exact (H [] (or_introl blank_nil) Hl Hi)|]. refine (H [10] (or_introl (blank_space 10 [] _ blank_nil)) Hl Hi). split; [lia|vm_compute; discriminate].
Defined.

End IcProof.
