(* ===== verification/Region.v ===== *)
(** srv/window/Rect.h and Region.cpp: rectangles and regions of the window server.

  A rectangle has inclusive corners.  A region is an array of rectangles that do not
  overlap; the array grows and shrinks in steps of kRectAllocSize by realloc, which may
  move it: [in_place old new] says whether it does not, for the two sizes in
  rectangles.  [fRects] are the rectangles in use, [fAlloc] the size of the array (0
  when there is none).  The counter [fOpLevel] delays Consolidate to the end of the
  outermost operation. *)
From S2P Require Import Prelude.
Local Open Scope Z_scope.
Local Open Scope c_scope.

Module Region.

(** ** Rect.h *)

Record rect := Rect { left : Z; top : Z; right : Z; bottom : Z }.
#[global] Instance rect_eq_dec : EqDecision rect.
Proof. solve_decision. Defined.

(** util.h: the macros max and min. *)
Definition max (a b : Z) : Z := if decide (b < a) then a else b.
Definition min (a b : Z) : Z := if decide (a < b) then a else b.

Definition InsetBy (r : rect) (h v : Z) : rect := Rect (s32 (left r + h)) (s32 (top r + v)) (s32 (right r - h)) (s32 (bottom r - v)).
Definition OffsetBy (r : rect) (h v : Z) : rect := Rect (s32 (left r + h)) (s32 (top r + v)) (s32 (right r + h)) (s32 (bottom r + v)).
Definition OffsetTo (r : rect) (h v : Z) : rect := Rect h v (s32 (right r + s32 (h - left r))) (s32 (bottom r + s32 (v - top r))).
Definition Intersects (a b : rect) : bool :=
  bool_decide (max (left a) (left b) <= min (right a) (right b)) && bool_decide (max (top a) (top b) <= min (bottom a) (bottom b)).
Definition Valid (r : rect) : bool := bool_decide (left r <= right r) && bool_decide (top r <= bottom r).
Definition Width (r : rect) : Z := s32 (right r - left r).
Definition Height (r : rect) : Z := s32 (bottom r - top r).
Definition Contains (r : rect) (x y : Z) : bool :=
  bool_decide (left r <= x) && bool_decide (x <= right r) && bool_decide (top r <= y) && bool_decide (y <= bottom r).
Definition ContainsRect (a b : rect) : bool :=
  bool_decide (left a <= left b) && bool_decide (right b <= right a) && bool_decide (top a <= top b) && bool_decide (bottom b <= bottom a).
Definition Intersect_rect (a b : rect) : rect :=
  Rect (max (left a) (left b)) (max (top a) (top b)) (min (right a) (right b)) (min (bottom a) (bottom b)).

(** ** The array of a region *)

Record region := Reg { fRects : list rect; fAlloc : Z; fOpLevel : Z }.
Definition fNumRects (r : region) : Z := Z.of_nat (length (fRects r)).

Definition COORD_MAX : Z := 0x7ffffff0.
Definition kRectAllocSize : Z := 16.
Definition empty : region := Reg [] 0 0.

Definition round_up (n : Z) : Z := Z.quot (n + kRectAllocSize - 1) kRectAllocSize * kRectAllocSize.

Section allocator.
Context (in_place : Z -> Z -> bool).

(** The array has room for [numRects]; the flag says that it was moved. *)
Definition AllocSpace (r : region) (numRects : Z) : region * bool :=
  let currentAlloc := round_up (fNumRects r) in
  let sizeWanted := round_up numRects in
  if decide (sizeWanted <> currentAlloc) then
    if decide (fAlloc r = 0 /\ 0 < sizeWanted) then (Reg (fRects r) sizeWanted (fOpLevel r), false)
    else if decide (sizeWanted = 0 /\ fAlloc r <> 0) then (Reg (fRects r) 0 (fOpLevel r), true)
    else (Reg (fRects r) sizeWanted (fOpLevel r), negb (in_place (fAlloc r) sizeWanted))
  else (r, false).

Definition AddRect (r : region) (x : rect) : cres (region * bool) :=
  let '(r, moved) := AllocSpace r (fNumRects r + 1) in
  if decide (fNumRects r < fAlloc r) then Ok (Reg (fRects r ++ [x]) (fAlloc r) (fOpLevel r), moved) else Fault.

(** memcpy copies upwards, so the overlapping move is sound. *)
Definition RemoveRect (r : region) (index : nat) : cres region :=
  if decide (index < length (fRects r))%nat then
    let r := Reg (delete index (fRects r)) (fAlloc r) (fOpLevel r) in Ok (fst (AllocSpace r (fNumRects r)))
  else Fault.

Definition RectAt (r : region) (i : nat) : cres rect := deref (fRects r !! i).

(** [SetTo]: the rectangles of another region. *)
Definition SetTo (r copyRegion : region) : cres region :=
  let '(r, _) := AllocSpace r (fNumRects copyRegion) in
  if decide (fNumRects copyRegion <= fAlloc r) then Ok (Reg (fRects copyRegion) (fAlloc r) (fOpLevel r)) else Fault.
Definition copy (copyRegion : region) : cres region := SetTo empty copyRegion.

Definition Clear (r : region) : region := fst (AllocSpace (Reg [] (fAlloc r) (fOpLevel r)) 0).

Fixpoint add_all (r : region) (l : list rect) : cres region :=
  match l with
  | [] => Ok r
  | x :: l => let! (r, _) := AddRect r x in add_all r l
  end.
Definition AddRegionRects (r other : region) : cres region := add_all r (fRects other).

(** ** Consolidate *)

Definition set_rect (r : region) (i : nat) (x : rect) : region := Reg (<[i := x]> (fRects r)) (fAlloc r) (fOpLevel r).

(** The rectangle that replaces two adjacent ones, if they are. *)
Definition joined (a b : rect) : option rect :=
  if decide (top a = top b /\ bottom a = bottom b) then
    if decide (s32 (right a + 1) = left b) then Some (Rect (left a) (top a) (right b) (bottom a))
    else if decide (s32 (right b + 1) = left a) then Some (Rect (left b) (top a) (right a) (bottom a))
    else None
  else if decide (left a = left b /\ right a = right b) then
    if decide (top a = s32 (bottom b + 1)) then Some (Rect (left a) (top b) (right a) (bottom a))
    else if decide (s32 (bottom a + 1) = top b) then Some (Rect (left a) (top a) (right a) (bottom b))
    else None
  else None.

(** [for (int j = fNumRects - 1; j > i; j--)], from [j] on. *)
Fixpoint consolidate_with (r : region) (i j : nat) : cres region :=
  if decide (i < j)%nat then
    let! rect1 := RectAt r i in
    let! rect2 := RectAt r j in
    let! r := match joined rect1 rect2 with
              | Some x => RemoveRect (set_rect r i x) j
              | None => Ok r
              end in
    match j with O => Ok r | S j => consolidate_with r i j end
  else Ok r.

(** [for (int i = 0; i < fNumRects; i++)]; [n] bounds the turns left. *)
Fixpoint consolidate_from (r : region) (i n : nat) : cres region :=
  match n with
  | O => Ok r
  | S n =>
      if decide (i < length (fRects r))%nat then
        let! r := consolidate_with r i (length (fRects r) - 1) in consolidate_from r (S i) n
      else Ok r
  end.
Definition Consolidate (r : region) : cres region := consolidate_from r 0 (length (fRects r)).

Definition BeginOperation (r : region) : region := Reg (fRects r) (fAlloc r) (s32 (fOpLevel r + 1)).
Definition EndOperation (r : region) : cres region :=
  let r := Reg (fRects r) (fAlloc r) (s32 (fOpLevel r - 1)) in
  if decide (fOpLevel r = 0) then Consolidate r else Ok r.

(** ** Exclude *)

Definition SPLIT_TEST (a b : rect) : bool :=
  bool_decide (max (left a) (left b) < min (right a) (right b)) && bool_decide (max (top a) (top b) < min (bottom a) (bottom b)).

(** The pieces of [c] around [e]: quad1 to quad8. *)
Definition quads (c e : rect) : list rect :=
  [Rect (left c) (top c) (s32 (left e - 1)) (s32 (top e - 1));
   Rect (left e) (top c) (right e) (s32 (top e - 1));
   Rect (s32 (right e + 1)) (top c) (right c) (s32 (top e - 1));
   Rect (left c) (top e) (s32 (left e - 1)) (bottom e);
   Rect (s32 (right e + 1)) (top e) (right c) (bottom e);
   Rect (left c) (s32 (bottom e + 1)) (s32 (left e - 1)) (bottom c);
   Rect (left e) (s32 (bottom e + 1)) (right e) (bottom c);
   Rect (s32 (right e + 1)) (s32 (bottom e + 1)) (right c) (bottom c)].

(** The tests of the quads one after the other.  [clipRect] is a reference into the
  array: once the array has been moved ([alive] is false) looking at it is a fault. *)
Fixpoint split (r : region) (clipRect : rect) (alive : bool) (qs : list rect) : cres region :=
  match qs with
  | [] => Ok r
  | q :: qs =>
      if alive then
        if SPLIT_TEST clipRect q then
          let! (r, moved) := AddRect r (Intersect_rect q clipRect) in split r clipRect (negb moved) qs
        else split r clipRect alive qs
      else Fault
  end.

(** [while (index < rectsToCheck)]: [n] rectangles are left to check. *)
Fixpoint exclude_loop (r : region) (e : rect) (index n : nat) : cres region :=
  match n with
  | O => Ok r
  | S n =>
      let! clipRect := RectAt r index in
      if Intersects e clipRect then
        let! r := split r clipRect true (quads clipRect e) in
        let! r := RemoveRect r index in
        exclude_loop r e index n
      else exclude_loop r e (S index) n
  end.

Definition Exclude (r : region) (e : rect) : cres region :=
  let r := BeginOperation r in
  let! r := exclude_loop r e 0 (length (fRects r)) in
  EndOperation r.

Fixpoint exclude_all (r : region) (l : list rect) : cres region :=
  match l with
  | [] => Ok r
  | e :: l => let! r := Exclude r e in exclude_all r l
  end.

(** ** The other operations *)

Definition Include (r : region) (x : rect) : cres region :=
  let r := BeginOperation r in
  let! (temp, _) := AddRect empty x in
  let! temp := exclude_all temp (fRects r) in
  let! r := AddRegionRects r temp in
  EndOperation r.

Fixpoint include_all (r : region) (l : list rect) : cres region :=
  match l with
  | [] => Ok r
  | x :: l => let! r := Include r x in include_all r l
  end.
Definition IncludeRegion (r other : region) : cres region :=
  let r := BeginOperation r in
  let! r := include_all r (fRects other) in
  EndOperation r.

(** The loops of Intersect: the rectangles added to newRegion, in order. *)
Definition meets (l1 l2 : list rect) : list rect :=
  l1 ≫= fun a => l2 ≫= fun b => if Intersects a b then [Intersect_rect a b] else [].
Definition Intersect (r other : region) : cres region :=
  let r := BeginOperation r in
  let! newRegion := add_all empty (meets (fRects r) (fRects other)) in
  let! r := SetTo r newRegion in
  EndOperation r.

Definition Invert (r : region) : cres region :=
  let r := BeginOperation r in
  let! temp := Include empty (Rect (- COORD_MAX) (- COORD_MAX) COORD_MAX COORD_MAX) in
  let! temp := exclude_all temp (fRects r) in
  let! r := SetTo r temp in
  EndOperation r.

Definition ExcludeRegion (r ex : region) : cres region :=
  let r := BeginOperation r in
  let! temp := copy ex in
  let! temp := Invert temp in
  let! r := Intersect r temp in
  EndOperation r.

(** [for (int i = fNumRects - 1; i >= 0; i--)], the first [n] rectangles left. *)
Fixpoint constrain_loop (r : region) (x : rect) (n : nat) : cres region :=
  match n with
  | O => Ok r
  | S i =>
      let! c := RectAt r i in
      let c := Rect (max (left x) (left c)) (max (top x) (top c)) (min (right x) (right c)) (min (bottom x) (bottom c)) in
      let r := set_rect r i c in
      let! r := if Valid c then Ok r else RemoveRect r i in
      constrain_loop r x i
  end.
Definition ConstrainTo (r : region) (x : rect) : cres region :=
  let r := BeginOperation r in
  let! r := constrain_loop r x (length (fRects r)) in
  EndOperation r.

Definition Translate (r : region) (x y : Z) : region := Reg (map (fun c => OffsetBy c x y) (fRects r)) (fAlloc r) (fOpLevel r).

Definition Bounds (r : region) : rect :=
  fold_left (fun b c => Rect (min (left b) (left c)) (min (top b) (top c)) (max (right b) (right c)) (max (bottom b) (bottom c)))
    (fRects r) (Rect COORD_MAX COORD_MAX (- COORD_MAX) (- COORD_MAX)).

Definition FindRect (r : region) (x y : Z) : option rect := List.find (fun c => Contains c x y) (fRects r).
Definition RegionValid (r : region) : bool := bool_decide (0 < fNumRects r).

End allocator.

End Region.
