(* ===== verification/RegionProof.v ===== *)
(** Regions (Region) as sets of points.

  The rectangles of a region are valid, do not overlap and stay away from the ends of
  the integers ([rok]).  Each operation is described by its effect on the set of points
  [pts]; it fails only when realloc moves an array under a reference, which needs more
  than sixteen rectangles ([ends]). *)
From S2P Require Import Prelude Region.
Import Region.
Local Open Scope Z_scope.
Local Open Scope c_scope.

Module RegionProof.

(** ** Rectangles *)

Definition inside (r : rect) (x y : Z) : Prop := left r <= x <= right r /\ top r <= y <= bottom r.
Definition apart (a b : rect) : Prop := forall x y, inside a x y -> inside b x y -> False.

(** Adding or subtracting 1 at a side does not overflow. *)
Definition inner (r : rect) : Prop := - 2 ^ 31 < left r < 2 ^ 31 /\ - 2 ^ 31 < top r < 2 ^ 31 /\ - 2 ^ 31 <= right r < 2 ^ 31 - 1 /\ - 2 ^ 31 <= bottom r < 2 ^ 31 - 1.
Definition good (r : rect) : Prop := inner r /\ left r <= right r /\ top r <= bottom r.

Lemma max_spec a b : max a b = Z.max a b.
Proof. unfold max. case_decide; lia. Qed.
Lemma min_spec a b : min a b = Z.min a b.
Proof. unfold min. case_decide; lia. Qed.

Lemma Contains_spec r x y : Contains r x y = true <-> inside r x y.
Proof. unfold Contains, inside. rewrite !andb_true_iff, !bool_decide_eq_true. lia. Qed.

Lemma Intersects_spec a b : Intersects a b = true <-> Z.max (left a) (left b) <= Z.min (right a) (right b) /\ Z.max (top a) (top b) <= Z.min (bottom a) (bottom b).
Proof. unfold Intersects. rewrite andb_true_iff, !bool_decide_eq_true, !max_spec, !min_spec. done. Qed.

Lemma Valid_spec r : Valid r = true <-> left r <= right r /\ top r <= bottom r.
Proof. unfold Valid. rewrite andb_true_iff, !bool_decide_eq_true. done. Qed.

Lemma inside_Intersect a b x y : inside (Intersect_rect a b) x y <-> inside a x y /\ inside b x y.
Proof. unfold inside, Intersect_rect. simpl. rewrite !max_spec, !min_spec. lia. Qed.

Lemma Intersects_inside a b x y : inside a x y -> inside b x y -> Intersects a b = true.
Proof. intros Ha Hb. apply Intersects_spec. unfold inside in *. lia. Qed.

Lemma good_Intersect a b : inner a -> inner b -> Intersects a b = true -> good (Intersect_rect a b).
Proof. intros Ha Hb Hi%Intersects_spec. unfold good, inner, Intersect_rect in *. simpl. rewrite !max_spec, !min_spec. lia. Qed.

Lemma apart_sym a b : apart a b -> apart b a.
Proof. intros H x y Hb Ha. by apply (H x y). Qed.

Lemma apart_sub a b a' b' : apart a b -> (forall x y, inside a' x y -> inside a x y) -> (forall x y, inside b' x y -> inside b x y) -> apart a' b'.
Proof. intros H Ha Hb x y H1 H2. eapply H; eauto. Qed.

(** ** Sets of rectangles *)

Definition pts (l : list rect) (x y : Z) : Prop := exists r, r ∈ l /\ inside r x y.

Fixpoint disj (l : list rect) : Prop := match l with [] => True | a :: l => Forall (apart a) l /\ disj l end.

#[global] Instance pts_proper : Proper ((≡ₚ) ==> eq ==> eq ==> iff) pts.
Proof. intros l1 l2 E x _ <- y _ <-. unfold pts. by setoid_rewrite E. Qed.

#[global] Instance disj_proper : Proper ((≡ₚ) ==> iff) disj.
Proof.
  assert (forall l1 l2, l1 ≡ₚ l2 -> disj l1 -> disj l2) as H; [|intros l1 l2 E; split; apply H; [done|by symmetry]].
  intros l1 l2 E. induction E as [|a l1 l2 E IH|a b l|l1 l2 l3 _ IH1 _ IH2]; simpl; [done| | |tauto].
  - intros [Ha Hd]. split; [by rewrite <- E|auto].
  - intros [[Hab Ha]%Forall_cons [Hb Hd]]. rewrite Forall_cons. split_and!; [by apply apart_sym|done|done|done].
Qed.

Lemma pts_nil x y : ~ pts [] x y.
Proof. intros (r & H & _). by apply elem_of_nil in H. Qed.
Lemma pts_cons a l x y : pts (a :: l) x y <-> inside a x y \/ pts l x y.
Proof.
  unfold pts. split.
  - intros (r & [->|Hr]%elem_of_cons & Hi); eauto.
  - intros [Hi|(r & Hr & Hi)]; [exists a|exists r]; rewrite elem_of_cons; auto.
Qed.
Lemma pts_app l1 l2 x y : pts (l1 ++ l2) x y <-> pts l1 x y \/ pts l2 x y.
Proof.
  unfold pts. setoid_rewrite elem_of_app. split; [intros (r & [H|H] & Hi); eauto|].
  intros [(r & H & Hi)|(r & H & Hi)]; eauto.
Qed.
Lemma pts_bind (f : rect -> list rect) l x y : pts (l ≫= f) x y <-> exists r, r ∈ l /\ pts (f r) x y.
Proof.
  unfold pts. setoid_rewrite list_elem_of_bind. split.
  - intros (q & (r & Hq & Hr) & Hi). eauto.
  - intros (r & Hr & q & Hq & Hi). eauto.
Qed.

Lemma disj_app l1 l2 : disj (l1 ++ l2) <-> disj l1 /\ disj l2 /\ forall a b, a ∈ l1 -> b ∈ l2 -> apart a b.
Proof.
  induction l1 as [|c l1 IH]; simpl; [split; [intros H; split_and!; [done|done|]; intros a b Ha; by apply elem_of_nil in Ha|tauto]|].
  rewrite IH, Forall_app. split.
  - intros [[H1 H2] (H3 & H4 & H5)]. split_and!; try done. intros a b [->|Ha]%elem_of_cons Hb; [|auto]. rewrite Forall_forall in H2. auto.
  - intros ([H1 H2] & H3 & H4). split_and!; try done.
    + apply Forall_forall. intros b Hb. apply H4; [by left|done].
    + intros a b Ha Hb. apply H4; [by right|done].
Qed.

(** Families of rectangles that refine a disjoint list are disjoint. *)
Lemma disj_bind (f : rect -> list rect) l : disj l -> (forall r, r ∈ l -> disj (f r) /\ forall q x y, q ∈ f r -> inside q x y -> inside r x y) -> disj (l ≫= f).
Proof.
  induction l as [|a l IH]; intros Hd Hf; [done|]. rewrite bind_cons. apply disj_app. destruct Hd as [Ha Hd].
  destruct (Hf a) as [Hfa Hsub]; [by left|]. split_and!; [done|apply IH; [done|intros r Hr; apply Hf; by right]|].
  intros q1 q2 Hq1 (r & Hq2 & Hr)%list_elem_of_bind. rewrite Forall_forall in Ha. apply (apart_sub a r); [by apply Ha|eauto|].
  intros x y. apply (Hf r); [by right|done].
Qed.

Lemma disj_filter (f : rect -> bool) l : disj l -> disj (base.filter (fun r => f r = true) l).
Proof.
  induction l as [|a l IH]; [done|]. intros [Ha Hd]. rewrite filter_cons. case_decide; [|auto]. split; [|auto].
  rewrite Forall_forall in *. intros b [_ Hb]%list_elem_of_filter. auto.
Qed.

Lemma disj_map (f : rect -> rect) l : disj l -> (forall r x y, inside (f r) x y -> inside r x y) -> disj (map f l).
Proof.
  intros Hd Hf. induction l as [|a l IH]; [done|]. destruct Hd as [Ha Hd]. simpl. split; [|auto].
  rewrite Forall_forall in *. intros b (r & -> & Hr)%list_elem_of_fmap. apply (apart_sub a r); eauto.
Qed.

(** ** Cutting a rectangle *)

(** What Exclude leaves of [c] when it cuts out [e]. *)
Definition pieces (c e : rect) : list rect :=
  map (fun q => Intersect_rect q c) (base.filter (fun q => SPLIT_TEST c q = true) (quads c e)).

(** The cell of [c], divided along the sides of [e], in which a point lies. *)
Definition cell (c e : rect) (x y : Z) : rect :=
  Rect (if decide (x < left e) then left c else if decide (x <= right e) then Z.max (left c) (left e) else Z.max (left c) (right e + 1))
       (if decide (y < top e) then top c else if decide (y <= bottom e) then Z.max (top c) (top e) else Z.max (top c) (bottom e + 1))
       (if decide (x < left e) then Z.min (right c) (left e - 1) else if decide (x <= right e) then Z.min (right c) (right e) else right c)
       (if decide (y < top e) then Z.min (bottom c) (top e - 1) else if decide (y <= bottom e) then Z.min (bottom c) (bottom e) else bottom c).

(** At least two points wide and high. *)
Definition fat (r : rect) : Prop := left r < right r /\ top r < bottom r.

(** The points of [c] that survive: the cell they lie in must be fat. *)
Definition survives (c e : rect) (x y : Z) : Prop := inside c x y /\ ~ inside e x y /\ (Intersects e c = true -> fat (cell c e x y)).

Lemma SPLIT_TEST_spec a b : SPLIT_TEST a b = true <-> fat (Intersect_rect b a).
Proof. unfold SPLIT_TEST, fat, Intersect_rect. simpl. rewrite andb_true_iff, !bool_decide_eq_true, !max_spec, !min_spec. lia. Qed.

Lemma quads_run c e : inner c -> inner e -> quads c e =
  [Rect (left c) (top c) (left e - 1) (top e - 1); Rect (left e) (top c) (right e) (top e - 1); Rect (right e + 1) (top c) (right c) (top e - 1);
   Rect (left c) (top e) (left e - 1) (bottom e); Rect (right e + 1) (top e) (right c) (bottom e);
   Rect (left c) (bottom e + 1) (left e - 1) (bottom c); Rect (left e) (bottom e + 1) (right e) (bottom c); Rect (right e + 1) (bottom e + 1) (right c) (bottom c)].
Proof. intros Hc He. unfold quads, inner in *. rewrite !s32_small by lia. done. Qed.

Lemma pieces_pts c e x y : pts (pieces c e) x y <-> inside c x y /\ exists q, q ∈ quads c e /\ inside q x y /\ fat (Intersect_rect q c).
Proof.
  unfold pts, pieces. split.
  - intros (r & (q & -> & [Hs Hq]%list_elem_of_filter)%list_elem_of_fmap & [H1 H2]%inside_Intersect). apply SPLIT_TEST_spec in Hs. eauto.
  - intros (Hc & q & Hq & Hi & Hf). exists (Intersect_rect q c). rewrite inside_Intersect. split; [|done].
    apply list_elem_of_fmap. exists q. split; [done|]. apply list_elem_of_filter. by rewrite SPLIT_TEST_spec.
Qed.

Ltac at_quad n := eexists; split; [apply (list_elem_of_lookup_2 _ n); reflexivity|]; cbn [left top right bottom]; lia.

Lemma pieces_ok c e : good c -> inner e -> Intersects e c = true ->
  Forall good (pieces c e) /\ disj (pieces c e) /\ forall x y, pts (pieces c e) x y <-> survives c e x y.
Proof.
  intros [Hc Hv] He Hi. pose proof (proj1 (Intersects_spec _ _) Hi) as Hi'. split_and!.
  - apply Forall_forall. intros r (q & -> & [Hs Hq]%list_elem_of_filter)%list_elem_of_fmap. apply SPLIT_TEST_spec in Hs.
    rewrite quads_run in Hq by done. unfold good, inner, fat, Intersect_rect in *. simpl in *. rewrite !max_spec, !min_spec in *.
    repeat (apply elem_of_cons in Hq as [->|Hq]; [simpl in *; lia|]). by apply elem_of_nil in Hq.
  - apply disj_map; [|intros r x y [H _]%inside_Intersect; done]. apply disj_filter. rewrite quads_run by done.
    simpl. repeat split; repeat constructor; unfold apart, inside; simpl; intros; lia.
  - intros x y. rewrite pieces_pts. unfold survives. setoid_rewrite quads_run; [|done..]. unfold fat, inside, cell, Intersect_rect. cbn [left top right bottom].
    setoid_rewrite max_spec. setoid_rewrite min_spec. split.
    + intros (H1 & q & Hq & H2 & H3). split; [done|].
      repeat (apply elem_of_cons in Hq as [->|Hq]; [cbn [left top right bottom] in *; split; [lia|]; intros _; repeat case_decide; lia|]). by apply elem_of_nil in Hq.
    + intros (H1 & H2 & H3). split; [done|]. specialize (H3 Hi).
      destruct (decide (x < left e)); [|destruct (decide (x <= right e))];
        (destruct (decide (y < top e)); [|destruct (decide (y <= bottom e))]);
        [at_quad 0%nat|at_quad 3%nat|at_quad 5%nat|at_quad 1%nat|lia|at_quad 6%nat|at_quad 2%nat|at_quad 4%nat|at_quad 7%nat].
Qed.

(** ** The array *)

Definition alloc_ok (r : region) : Prop := round_up (fNumRects r) <= fAlloc r.

Lemma round_up_spec n : 0 <= n -> n <= round_up n < n + 16.
Proof. intros H. unfold round_up, kRectAllocSize. rewrite Z.quot_div_nonneg by lia. pose proof (Z.div_mod (n + 16 - 1) 16). pose proof (Z.mod_pos_bound (n + 16 - 1) 16). lia. Qed.

Lemma round_up_mono m n : 0 <= m <= n -> round_up m <= round_up n.
Proof. intros H. unfold round_up, kRectAllocSize. rewrite !Z.quot_div_nonneg by lia. pose proof (Z.div_le_mono (m + 16 - 1) (n + 16 - 1) 16). lia. Qed.

Section allocator.
Context (in_place : Z -> Z -> bool).
Abbreviation AllocSpace := (AllocSpace in_place).
Abbreviation AddRect := (AddRect in_place).

(** Some reallocation moves an array. *)
Definition moving : Prop := exists a b, in_place a b = false.

Lemma AddRect_ok r x : alloc_ok r -> exists r' moved, AddRect r x = Ok (r', moved) /\ fRects r' = fRects r ++ [x] /\ alloc_ok r' /\
  fOpLevel r' = fOpLevel r /\ (moved = true -> moving) /\ (Z.of_nat (length (fRects r)) mod 16 <> 0 -> moved = false).
Proof.
  intros Ha. unfold Region.AddRect, Region.AllocSpace. unfold alloc_ok in Ha. set (n := fNumRects r) in *.
  assert (0 <= n) by (unfold n, fNumRects; lia). pose proof (round_up_spec n). pose proof (round_up_spec (n + 1)). pose proof (round_up_mono n (n + 1)).
  assert (forall k m, n + 1 <= k -> round_up (n + 1) <= k -> (m = true -> moving) -> (n mod 16 <> 0 -> m = false) ->
    exists r' moved, (if decide (fNumRects (Reg (fRects r) k (fOpLevel r)) < fAlloc (Reg (fRects r) k (fOpLevel r)))
       then Ok (Reg (fRects (Reg (fRects r) k (fOpLevel r)) ++ [x]) (fAlloc (Reg (fRects r) k (fOpLevel r))) (fOpLevel (Reg (fRects r) k (fOpLevel r))), m) else Fault) = Ok (r', moved) /\
      fRects r' = fRects r ++ [x] /\ alloc_ok r' /\ fOpLevel r' = fOpLevel r /\ (moved = true -> moving) /\
      (Z.of_nat (length (fRects r)) mod 16 <> 0 -> moved = false)) as Hk.
  { intros k m Hk1 Hk2 Hm Hz. change (fNumRects (Reg (fRects r) k (fOpLevel r))) with n. cbn [fAlloc fRects fOpLevel]. rewrite decide_True by lia.
    eexists _, _. split; [done|]. split_and!; try done. unfold alloc_ok, fNumRects. simpl. rewrite length_app, Nat2Z.inj_add. simpl. done. }
  case_decide as D1.
  - case_decide as D2; [apply Hk; [lia|lia|done|done]|]. rewrite decide_False by lia. apply Hk; [lia|lia| |].
    + intros Hm. exists (fAlloc r), (round_up (n + 1)). by destruct (in_place _ _).
    + intros Hz. exfalso. apply D1. unfold round_up, kRectAllocSize. rewrite !Z.quot_div_nonneg by lia.
      f_equal. pose proof (Z.mod_pos_bound n 16 ltac:(lia)). pose proof (Z.div_mod n 16 ltac:(lia)).
      replace (n + 1 + 16 - 1) with (n mod 16 + (n / 16 + 1) * 16) by lia. replace (n + 16 - 1) with ((n mod 16 - 1) + (n / 16 + 1) * 16) by lia.
      rewrite !Z.div_add by lia. rewrite (Z.div_small (n mod 16)), (Z.div_small (n mod 16 - 1)) by lia. lia.
  - specialize (Hk (fAlloc r) false). destruct r; simpl in *. apply Hk; [lia|lia|done|done].
Qed.

Lemma SetTo_ok r c : alloc_ok r -> exists r', SetTo in_place r c = Ok r' /\ fRects r' = fRects c /\ alloc_ok r' /\ fOpLevel r' = fOpLevel r.
Proof.
  intros Ha. unfold SetTo, Region.AllocSpace. unfold alloc_ok in *. assert (0 <= fNumRects r /\ 0 <= fNumRects c) as [H0 H1] by (unfold fNumRects; lia).
  pose proof (round_up_spec _ H0). pose proof (round_up_spec _ H1).
  case_decide; [case_decide; [|case_decide]|]; cbn [fAlloc]; rewrite decide_True by lia; eexists; (split; [done|]); (split; [done|]); (split; [|done]);
    unfold fNumRects in *; simpl; lia.
Qed.

Lemma RemoveRect_ok r i : alloc_ok r -> (i < length (fRects r))%nat ->
  exists r', RemoveRect in_place r i = Ok r' /\ fRects r' = delete i (fRects r) /\ alloc_ok r' /\ fOpLevel r' = fOpLevel r.
Proof.
  intros Ha Hi. unfold RemoveRect, Region.AllocSpace. rewrite decide_True by done. rewrite decide_False by (intros H; by apply H).
  eexists. split; [done|]. simpl. split; [done|]. split; [|done]. unfold alloc_ok, fNumRects in *. simpl. rewrite length_delete by (by apply lookup_lt_is_Some).
  etransitivity; [apply round_up_mono|exact Ha]. lia.
Qed.

Lemma add_all_ok l : forall r, alloc_ok r -> exists r', add_all in_place r l = Ok r' /\ fRects r' = fRects r ++ l /\ alloc_ok r' /\ fOpLevel r' = fOpLevel r.
Proof.
  induction l as [|x l IH]; intros r Ha; cbn [add_all]; [exists r; by rewrite app_nil_r|].
  destruct (AddRect_ok r x Ha) as (r1 & m & -> & E1 & Ha1 & Eo1 & _). cbn [cbind].
  destruct (IH r1 Ha1) as (r2 & -> & E2 & Ha2 & Eo2). exists r2. split; [done|]. rewrite E2, E1, <- app_assoc. split; [done|]. split; [done|congruence].
Qed.

Lemma empty_ok : alloc_ok empty.
Proof. done. Qed.

(** ** Consolidate *)

(** A region: the invariant, at any level of operations. *)
Record rok (r : region) : Prop := {
  ro_good : Forall good (fRects r);
  ro_disj : disj (fRects r);
  ro_alloc : alloc_ok r
}.

Lemma joined_ok a b x : good a -> good b -> joined a b = Some x -> good x /\ forall p q, inside x p q <-> inside a p q \/ inside b p q.
Proof.
  intros [Ha1 Ha2] [Hb1 Hb2]. unfold joined. unfold inner in *. rewrite !s32_small by lia. unfold good, inner, inside.
  repeat case_decide; intros [= <-]; simpl; (split; [lia|intros; lia]).
Qed.

Lemma split_pair {A} (l : list A) i j a b : l !! i = Some a -> l !! j = Some b -> (i < j)%nat ->
  exists l1 l2 l3, l = l1 ++ a :: l2 ++ b :: l3 /\ forall x, delete j (<[i := x]> l) = l1 ++ x :: l2 ++ l3.
Proof.
  intros Ha Hb Hij. destruct (list_elem_of_split_length l i a Ha) as (l1 & k & -> & ->).
  rewrite lookup_app_r in Hb by lia. destruct (j - length l1)%nat as [|j'] eqn:Ej; [lia|]. simpl in Hb.
  destruct (list_elem_of_split_length k j' b Hb) as (l2 & l3 & -> & ->). exists l1, l2, l3. split; [done|]. intros x.
  rewrite insert_app_r_alt by lia. rewrite Nat.sub_diag. simpl. rewrite delete_take_drop.
  replace j with (length l1 + S (length l2))%nat by lia. rewrite take_app_add. simpl. rewrite take_app_length.
  replace (S (length l1 + S (length l2))) with (length l1 + S (S (length l2)))%nat by lia. rewrite drop_app_add. simpl.
  replace (S (length l2)) with (length l2 + 1)%nat by lia. rewrite drop_app_add. simpl. rewrite <- app_assoc. simpl. by rewrite drop_0.
Qed.

(** One pair of rectangles. *)
Lemma join_ok r i j a b x : rok r -> fRects r !! i = Some a -> fRects r !! j = Some b -> (i < j)%nat -> joined a b = Some x ->
  exists r', RemoveRect in_place (set_rect r i x) j = Ok r' /\ rok r' /\ (forall p q, pts (fRects r') p q <-> pts (fRects r) p q) /\
    fOpLevel r' = fOpLevel r /\ S (length (fRects r')) = length (fRects r).
Proof.
  intros [Hg Hd Hal] Ha Hb Hij Hx. pose proof (lookup_lt_Some _ _ _ Hb).
  destruct (RemoveRect_ok (set_rect r i x) j) as (r' & E & Er & Hal' & Eo); [unfold alloc_ok, fNumRects in *; simpl; by rewrite length_insert|simpl; by rewrite length_insert|].
  exists r'. split; [done|]. simpl in Er. destruct (split_pair _ _ _ _ _ Ha Hb Hij) as (l1 & l2 & l3 & E1 & E2). rewrite E2 in Er.
  assert (fRects r ≡ₚ a :: b :: l1 ++ l2 ++ l3) as P1 by (rewrite E1; solve_Permutation).
  assert (fRects r' ≡ₚ x :: l1 ++ l2 ++ l3) as P2 by (rewrite Er; solve_Permutation).
  rewrite P1 in Hg, Hd. apply Forall_cons in Hg as [Hga Hg]. apply Forall_cons in Hg as [Hgb Hg]. destruct Hd as [Hda [Hdb Hd]].
  apply Forall_cons in Hda as [_ Hda]. destruct (joined_ok a b x Hga Hgb Hx) as [Hgx Hin]. split_and!; [split|..]; [|..|by rewrite Eo|].
  - rewrite P2. by constructor.
  - rewrite P2. simpl. split; [|done]. rewrite Forall_forall in *. intros c Hc p q [H1|H1]%Hin H2; [by apply (Hda c Hc p q)|by apply (Hdb c Hc p q)].
  - done.
  - intros p q. rewrite P1, P2, !pts_cons, Hin. tauto.
  - rewrite P1, P2. simpl. done.
Qed.

Lemma consolidate_with_ok i : forall j r, rok r -> (j < length (fRects r))%nat -> exists r', consolidate_with in_place r i j = Ok r' /\ rok r' /\
  (forall p q, pts (fRects r') p q <-> pts (fRects r) p q) /\ fOpLevel r' = fOpLevel r.
Proof.
  induction j as [|j IH]; intros r Hr Hj; cbn [consolidate_with]; (case_decide as Hij; [|exists r; done]); [lia|].
  destruct (lookup_lt_is_Some_2 (fRects r) i) as [a Ha]; [lia|]. destruct (lookup_lt_is_Some_2 (fRects r) (S j)) as [b Hb]; [lia|].
  unfold RectAt. rewrite Ha, Hb. cbn [deref cbind]. destruct (joined a b) as [x|] eqn:Ex; [|cbn [cbind]; apply IH; [done|lia]].
  destruct (join_ok r i (S j) a b x Hr Ha Hb Hij Ex) as (r1 & -> & Hr1 & Hp1 & Eo1 & El1). cbn [cbind].
  destruct (IH r1 Hr1) as (r2 & -> & Hr2 & Hp2 & Eo2); [lia|]. exists r2. split; [done|]. split; [done|]. split; [|congruence].
  intros p q. by rewrite Hp2, Hp1.
Qed.

Lemma consolidate_from_ok n : forall i r, rok r -> exists r', consolidate_from in_place r i n = Ok r' /\ rok r' /\
  (forall p q, pts (fRects r') p q <-> pts (fRects r) p q) /\ fOpLevel r' = fOpLevel r.
Proof.
  induction n as [|n IH]; intros i r Hr; cbn [consolidate_from]; [exists r; done|]. case_decide; [|exists r; done].
  destruct (consolidate_with_ok i (length (fRects r) - 1) r Hr) as (r1 & -> & Hr1 & Hp1 & Eo1); [lia|]. cbn [cbind].
  destruct (IH (S i) r1 Hr1) as (r2 & -> & Hr2 & Hp2 & Eo2). exists r2. split; [done|]. split; [done|]. split; [|congruence].
  intros p q. by rewrite Hp2, Hp1.
Qed.

(** The end of an operation at level [k]. *)
Lemma EndOperation_ok r k : rok r -> fOpLevel r = k + 1 -> 0 <= k < 2 ^ 31 - 1 -> exists r', EndOperation in_place r = Ok r' /\ rok r' /\
  (forall p q, pts (fRects r') p q <-> pts (fRects r) p q) /\ fOpLevel r' = k.
Proof.
  intros Hr Ho Hk. unfold EndOperation. rewrite Ho. replace (k + 1 - 1) with k by lia. rewrite s32_small by lia. cbn [fOpLevel].
  assert (rok (Reg (fRects r) (fAlloc r) k)) as Hr' by (by destruct Hr; split). case_decide; [|eexists; done].
  destruct (consolidate_from_ok (length (fRects r)) 0 _ Hr') as (r' & E & H1 & H2 & H3). exists r'. done.
Qed.

Lemma BeginOperation_ok r k : rok r -> fOpLevel r = k -> 0 <= k < 2 ^ 31 - 1 -> rok (BeginOperation r) /\ fOpLevel (BeginOperation r) = k + 1.
Proof. intros [] Ho Hk. split; [by split|]. simpl. rewrite Ho. apply s32_small. lia. Qed.

(** ** Exclude *)

(** The outcome of an operation on [r]: the rectangles satisfy [Q], or an array was moved. *)
Definition ends (r0 : region) (Q : list rect -> Prop) (res : cres region) : Prop :=
  match res with
  | Ok r => rok r /\ fOpLevel r = fOpLevel r0 /\ Q (fRects r)
  | Fault => moving
  | Panic _ => False
  end.

(** The rectangles cover [P]. *)
Definition covers (P : Z -> Z -> Prop) (l : list rect) : Prop := forall x y, pts l x y <-> P x y.

Lemma ends_bind r0 r1 Q res k R : ends r1 Q res -> (forall r, rok r -> fOpLevel r = fOpLevel r1 -> Q (fRects r) -> ends r0 R (k r)) -> ends r0 R (cbind res k).
Proof. destruct res; simpl; [intros (H1 & H2 & H3) H; by apply H|done|done]. Qed.

Lemma ends_impl r0 Q R res : ends r0 Q res -> (forall l, Q l -> R l) -> ends r0 R res.
Proof. destruct res; simpl; [|done|done]. intros (H1 & H2 & H3) H. auto. Qed.

Lemma ends_level r0 r1 Q res : fOpLevel r1 = fOpLevel r0 -> ends r1 Q res -> ends r0 Q res.
Proof. destruct res; simpl; [|done|done]. intros -> H. done. Qed.

(** The end of an operation that began on [r0], when the rectangles satisfy [Q]. *)
Lemma ends_op r0 r Q : rok r -> fOpLevel r = fOpLevel r0 + 1 -> 0 <= fOpLevel r0 < 2 ^ 31 - 1 -> Q (fRects r) ->
  (forall l l', Q l -> (forall x y, pts l' x y <-> pts l x y) -> Q l') -> ends r0 Q (EndOperation in_place r).
Proof.
  intros Hr Ho Hk HQ HP. destruct (EndOperation_ok r (fOpLevel r0) Hr Ho Hk) as (r' & -> & Hr' & Hp & Eo). split_and!; [done|done|]. eauto.
Qed.

Lemma covers_same P l l' : covers P l -> (forall x y, pts l' x y <-> pts l x y) -> covers P l'.
Proof. intros H H' x y. etransitivity; [apply H'|apply H]. Qed.

Lemma split_ok c qs : forall r alive, alloc_ok r -> (alive = false -> moving) ->
  match split in_place r c alive qs with
  | Ok r' => fRects r' = fRects r ++ map (fun q => Intersect_rect q c) (base.filter (fun q => SPLIT_TEST c q = true) qs) /\ alloc_ok r' /\ fOpLevel r' = fOpLevel r
  | Fault => moving
  | Panic _ => False
  end.
Proof.
  induction qs as [|q qs IH]; intros r alive Ha Hal; cbn [split]; [simpl; by rewrite app_nil_r|].
  destruct alive; [|by apply Hal]. rewrite filter_cons. destruct (SPLIT_TEST c q) eqn:Es.
  - rewrite decide_True by done. destruct (AddRect_ok r (Intersect_rect q c) Ha) as (r1 & m & -> & E1 & Ha1 & Eo1 & Hm & _). cbn [cbind].
    specialize (IH r1 (negb m) Ha1). destruct (split in_place r1 c (negb m) qs) as [r2| |]; [|apply IH; by destruct m; auto..].
    destruct IH as (E2 & Ha2 & Eo2); [destruct m; auto; done|]. rewrite E2, E1, <- app_assoc. split_and!; [done|done|congruence].
  - rewrite decide_False by done. apply (IH r true); done.
Qed.

Definition cut (e c : rect) : list rect := if Intersects e c then pieces c e else [c].

Lemma exclude_loop_ok e : forall todo r done added, alloc_ok r -> fRects r = done ++ todo ++ added ->
  match exclude_loop in_place r e (length done) (length todo) with
  | Ok r' => fRects r' ≡ₚ done ++ (todo ≫= cut e) ++ added /\ alloc_ok r' /\ fOpLevel r' = fOpLevel r
  | Fault => moving
  | Panic _ => False
  end.
Proof.
  induction todo as [|c todo IH]; intros r done added Ha E; cbn [exclude_loop length]; [by rewrite E|].
  assert (fRects r !! length done = Some c) as Hc by (rewrite E; apply list_lookup_middle; done). unfold RectAt. rewrite Hc. cbn [deref cbind].
  rewrite bind_cons. unfold cut at 1. destruct (Intersects e c).
  - pose proof (split_ok c (quads c e) r true Ha) as Hs. destruct (split in_place r c true (quads c e)) as [r1| |]; [|by apply Hs..].
    destruct Hs as (E1 & Ha1 & Eo1); [done|]. cbn [cbind]. fold (pieces c e) in E1.
    destruct (RemoveRect_ok r1 (length done) Ha1) as (r2 & -> & E2 & Ha2 & Eo2); [rewrite E1, E, !length_app; simpl; lia|]. cbn [cbind].
    specialize (IH r2 done (added ++ pieces c e) Ha2). destruct (exclude_loop in_place r2 e (length done) (length todo)) as [r3| |].
    + destruct IH as (P3 & Ha3 & Eo3); [rewrite E2, E1, E; rewrite <- !app_assoc; simpl; rewrite delete_middle; by rewrite <- ?app_assoc|].
      split_and!; [|done|congruence]. rewrite P3. solve_Permutation.
    + apply IH. rewrite E2, E1, E; rewrite <- !app_assoc; simpl; rewrite delete_middle; by rewrite <- ?app_assoc.
    + apply IH. rewrite E2, E1, E; rewrite <- !app_assoc; simpl; rewrite delete_middle; by rewrite <- ?app_assoc.
  - specialize (IH r (done ++ [c]) added Ha). rewrite length_app in IH. simpl in IH. replace (length done + 1)%nat with (S (length done)) in IH by lia.
    destruct (exclude_loop in_place r e (S (length done)) (length todo)) as [r3| |].
    + destruct IH as (P3 & Ha3 & Eo3); [rewrite E, <- app_assoc; done|]. split_and!; [|done|done]. rewrite P3. solve_Permutation.
    + apply IH. rewrite E, <- app_assoc. done.
    + apply IH. rewrite E, <- app_assoc. done.
Qed.

(** The points that are left of a list of rectangles. *)
Definition left_of (l : list rect) (e : rect) (x y : Z) : Prop := exists c, c ∈ l /\ survives c e x y.

Lemma cut_ok c e : good c -> inner e -> Forall good (cut e c) /\ disj (cut e c) /\ forall x y, pts (cut e c) x y <-> survives c e x y.
Proof.
  intros Hc He. unfold cut. destruct (Intersects e c) eqn:Ei; [by apply pieces_ok|]. split_and!; [by constructor|by repeat constructor|].
  intros x y. rewrite pts_cons. unfold survives. rewrite Ei. split.
  - intros [H|H]; [|by apply pts_nil in H]. split_and!; [done| |done]. intros H'. by rewrite (Intersects_inside e c x y) in Ei.
  - intros (H & _). by left.
Qed.

Lemma cut_rok r r1 e : rok r -> inner e -> fRects r1 ≡ₚ fRects r ≫= cut e -> alloc_ok r1 -> rok r1.
Proof.
  intros [Hg Hd _] He P1 Ha1. rewrite Forall_forall in Hg. split; [| |done]; rewrite P1.
  - apply Forall_forall. intros q (c & Hq & Hc)%list_elem_of_bind. destruct (cut_ok c e (Hg c Hc) He) as (H & _). rewrite Forall_forall in H. auto.
  - apply disj_bind; [done|]. intros c Hc. destruct (cut_ok c e (Hg c Hc) He) as (_ & H & Hp). split; [done|].
    intros q x y Hq Hi. assert (pts (cut e c) x y) as H' by (by exists q). apply Hp in H' as (H' & _). done.
Qed.

(** The loop of Exclude, at the level it runs at. *)
Lemma exclude_begin r e : rok r -> inner e -> 0 <= fOpLevel r < 2 ^ 31 - 1 ->
  match exclude_loop in_place (BeginOperation r) e 0 (length (fRects r)) with
  | Ok r1 => rok r1 /\ fOpLevel r1 = fOpLevel r + 1 /\ fRects r1 ≡ₚ fRects r ≫= cut e
  | Fault => moving
  | Panic _ => False
  end.
Proof.
  intros Hr He Ho. destruct (BeginOperation_ok r (fOpLevel r) Hr eq_refl Ho) as [Hr0 Eo0].
  pose proof (exclude_loop_ok e (fRects r) (BeginOperation r) [] [] (ro_alloc _ Hr0)) as Hl. simpl length in Hl.
  change (fRects (BeginOperation r)) with (fRects r) in *. simpl in Hl. rewrite app_nil_r in Hl. specialize (Hl eq_refl).
  destruct (exclude_loop in_place (BeginOperation r) e 0 (length (fRects r))) as [r1| |]; [|done|done].
  destruct Hl as (P1 & Ha1 & Eo1). rewrite app_nil_r in P1. split_and!; [by eapply cut_rok|rewrite Eo1; exact Eo0|done].
Qed.

Lemma Exclude_ok r e : rok r -> inner e -> 0 <= fOpLevel r < 2 ^ 31 - 1 -> ends r (covers (left_of (fRects r) e)) (Exclude in_place r e).
Proof.
  intros Hr He Ho. pose proof (exclude_begin r e Hr He Ho) as Hl. unfold Exclude. change (fRects (BeginOperation r)) with (fRects r).
  destruct (exclude_loop in_place (BeginOperation r) e 0 (length (fRects r))) as [r1| |]; simpl; [|done|done].
  destruct Hl as (Hr1 & Eo1 & P1). pose proof Hr as [Hg _ _]. rewrite Forall_forall in Hg.
  apply ends_op; [done|done|done| |intros l l'; apply covers_same].
  intros x y. rewrite P1, pts_bind. unfold left_of. split.
  - intros (c & Hc & Hq). exists c. split; [done|]. by apply (cut_ok c e (Hg c Hc) He).
  - intros (c & Hc & Hq). exists c. split; [done|]. by apply (cut_ok c e (Hg c Hc) He).
Qed.

(** What is left is in the region and outside [e]; a rectangle apart from the region leaves it as it is. *)
Lemma left_of_sub l e x y : left_of l e x y -> pts l x y /\ ~ inside e x y.
Proof. intros (c & Hc & H1 & H2 & _). split; [by exists c|done]. Qed.

Lemma left_of_apart l e x y : Forall good l -> (forall x y, inside e x y -> ~ pts l x y) -> left_of l e x y <-> pts l x y.
Proof.
  intros Hg Ha. split; [by intros [H _]%left_of_sub|]. intros (c & Hc & Hi). exists c. split; [done|]. split; [done|].
  split; [intros H; by apply (Ha x y H); exists c|]. intros H%Intersects_spec. rewrite Forall_forall in Hg. destruct (Hg c Hc) as [_ Hv].
  exfalso. apply (Ha (Z.max (left e) (left c)) (Z.max (top e) (top c))); [unfold inside; lia|]. exists c. split; [done|]. unfold inside. lia.
Qed.

(** ** The other operations *)

Definition outside (l : list rect) (x y : Z) : Prop := forall e, e ∈ l -> ~ inside e x y.

Lemma exclude_all_ok l : forall r, rok r -> Forall inner l -> 0 <= fOpLevel r < 2 ^ 31 - 1 ->
  ends r (fun k => (forall x y, pts k x y -> pts (fRects r) x y /\ outside l x y) /\
    ((forall x y, pts (fRects r) x y -> outside l x y) -> covers (pts (fRects r)) k)) (exclude_all in_place r l).
Proof.
  induction l as [|e l IH]; intros r Hr Hl Ho; cbn [exclude_all].
  { split_and!; [done|done| |done]. intros x y H. split; [done|]. intros e He. by apply elem_of_nil in He. }
  apply Forall_cons in Hl as [He Hl]. eapply ends_bind; [by apply Exclude_ok|]. intros r1 Hr1 Eo1 Hc1.
  eapply ends_level; [exact Eo1|]. eapply ends_impl; [apply IH; [done|done|lia]|]. simpl. intros k [H1 H2]. split.
  - intros x y Hp. destruct (H1 x y Hp) as [Hp1 Hout]. apply Hc1, left_of_sub in Hp1 as [Hp1 Hne]. split; [done|].
    intros e' [->|He']%elem_of_cons; [done|by apply Hout].
  - intros Hout. assert (covers (pts (fRects r)) (fRects r1)) as Hsame.
    { intros x y. rewrite (Hc1 x y). apply left_of_apart; [apply Hr|]. intros x' y' Hi Hp. by apply (Hout x' y' Hp e); [left|]. }
    intros x y. etransitivity; [apply H2|apply Hsame]. intros x' y' Hp e' He'. apply (Hout x' y'); [by apply Hsame|by right].
Qed.

(** AddRect on a region with nothing in it. *)
Lemma single_ok x : good x -> exists r m, Region.AddRect in_place empty x = Ok (r, m) /\ rok r /\ fOpLevel r = 0 /\ fRects r = [x].
Proof.
  intros Hx. destruct (AddRect_ok empty x empty_ok) as (r & m & -> & E & Ha & Eo & _). exists r, m. split; [done|]. simpl in E.
  split; [|done]. split; [rewrite E; by constructor|rewrite E; by repeat constructor|done].
Qed.

Lemma inners r : rok r -> Forall inner (fRects r).
Proof. intros [H _ _]. eapply Forall_impl; [exact H|]. intros c [Hc _]. done. Qed.

(** Include adds points of [x] only, and all of them when they are new. *)
Definition included (l : list rect) (x : rect) (k : list rect) : Prop :=
  (forall p q, pts l p q -> pts k p q) /\ (forall p q, pts k p q -> pts l p q \/ inside x p q) /\
  ((forall p q, inside x p q -> ~ pts l p q) -> covers (fun p q => pts l p q \/ inside x p q) k).

Lemma included_same l x k k' : included l x k -> (forall p q, pts k' p q <-> pts k p q) -> included l x k'.
Proof.
  intros (H1 & H2 & H3) H. split_and!.
  - intros p q Hp. by apply H, H1.
  - intros p q Hp%H. auto.
  - intros Ha. eapply covers_same; [by apply H3|done].
Qed.

Lemma Include_ok r x : rok r -> good x -> 0 <= fOpLevel r < 2 ^ 31 - 1 -> ends r (included (fRects r) x) (Include in_place r x).
Proof.
  intros Hr Hx Ho. destruct (BeginOperation_ok r (fOpLevel r) Hr eq_refl Ho) as [Hr0 Eo0]. unfold Include.
  destruct (single_ok x Hx) as (t & m & -> & Ht & Et & Etr). cbn [cbind].
  eapply ends_bind; [apply exclude_all_ok; [done|by apply inners|lia]|]. rewrite Etr. intros t1 Ht1 Eo1 [Hsub Hall].
  destruct (add_all_ok (fRects t1) (BeginOperation r) (ro_alloc _ Hr0)) as (r1 & E1 & Er1 & Ha1 & Eo1').
  unfold AddRegionRects. rewrite E1. cbn [cbind]. change (fRects (BeginOperation r)) with (fRects r) in *.
  assert (forall p q, pts (fRects t1) p q -> inside x p q /\ outside (fRects r) p q) as Hsub'.
  { intros p q Hp. destruct (Hsub p q Hp) as [H1 H2]. apply pts_cons in H1 as [H1|H1]; [done|by apply pts_nil in H1]. }
  apply ends_op; [|by rewrite Eo1', Eo0|done| |intros; by eapply included_same].
  - split; [|..|done]; rewrite Er1.
    + apply Forall_app. split; [apply Hr|apply Ht1].
    + apply disj_app. split_and!; [apply Hr|apply Ht1|]. intros a b Ha Hb p q H1 H2. destruct (Hsub' p q) as [_ H3]; [by exists b|]. by apply (H3 a Ha).
  - rewrite Er1. split_and!.
    + intros p q Hp. rewrite pts_app. by left.
    + intros p q. rewrite pts_app. intros [H|H]; [by left|right; by apply Hsub'].
    + intros Ha p q. rewrite pts_app. rewrite (Hall ltac:(intros p' q' H' e He Hi; apply pts_cons in H' as [H'|H']; [by apply (Ha p' q' H'); exists e|by apply pts_nil in H']) p q).
      rewrite pts_cons. split; [|tauto]. intros [H|[H|H]]; auto. by apply pts_nil in H.
Qed.

End allocator.

End RegionProof.
