(* ===== verification/RegionOps.v ===== *)
(** The operations on whole regions (Region), on top of RegionProof: Include, Intersect,
  Invert, Exclude, ConstrainTo, Translate, Bounds and FindRect in terms of points, and
  the claims. *)
From S2P Require Import Prelude Region RegionProof.
Import Region RegionProof.
Local Open Scope Z_scope.
Local Open Scope c_scope.

Module RegionOps.

Section allocator.
Context (in_place : Z -> Z -> bool).
Abbreviation ends := (ends in_place).

Lemma empty_rok : rok empty.
Proof. by split. Qed.

(** ** Intersect *)

Lemma meets_ok l1 l2 : Forall good l1 -> Forall good l2 -> disj l1 -> disj l2 ->
  Forall good (meets l1 l2) /\ disj (meets l1 l2) /\ covers (fun x y => pts l1 x y /\ pts l2 x y) (meets l1 l2).
Proof.
  intros Hg1 Hg2 Hd1 Hd2. rewrite Forall_forall in Hg1, Hg2. unfold meets. split_and!.
  - apply Forall_forall. intros q (a & (b & Hq & Hb)%list_elem_of_bind & Ha)%list_elem_of_bind. destruct (Intersects a b) eqn:E; [|by apply elem_of_nil in Hq].
    apply list_elem_of_singleton in Hq as ->. apply good_Intersect; [apply (Hg1 a Ha)|apply (Hg2 b Hb)|done].
  - apply disj_bind; [done|]. intros a Ha. split.
    + apply disj_bind; [done|]. intros b Hb. destruct (Intersects a b); [|split; [done|intros q x y Hq; by apply elem_of_nil in Hq]].
      split; [by repeat constructor|]. intros q x y ->%list_elem_of_singleton Hi. by apply inside_Intersect in Hi as [_ Hi].
    + intros q x y (b & Hq & Hb)%list_elem_of_bind Hi. destruct (Intersects a b); [|by apply elem_of_nil in Hq].
      apply list_elem_of_singleton in Hq as ->. by apply inside_Intersect in Hi as [Hi _].
  - intros x y. rewrite pts_bind. split.
    + intros (a & Ha & (b & Hb & Hp)%pts_bind). destruct (Intersects a b); [|by apply pts_nil in Hp].
      apply pts_cons in Hp as [[H1 H2]%inside_Intersect|Hp]; [|by apply pts_nil in Hp]. split; [by exists a|by exists b].
    + intros [(a & Ha & H1) (b & Hb & H2)]. exists a. split; [done|]. apply pts_bind. exists b. split; [done|].
      rewrite (Intersects_inside a b x y) by done. apply pts_cons. left. by apply inside_Intersect.
Qed.

Lemma Intersect_ok r o : rok r -> rok o -> 0 <= fOpLevel r < 2 ^ 31 - 1 ->
  ends r (covers (fun x y => pts (fRects r) x y /\ pts (fRects o) x y)) (Intersect in_place r o).
Proof.
  intros Hr Hq Ho. destruct (BeginOperation_ok r (fOpLevel r) Hr eq_refl Ho) as [Hr0 Eo0]. unfold Intersect.
  change (fRects (BeginOperation r)) with (fRects r).
  destruct (meets_ok (fRects r) (fRects o)) as (Hg & Hd & Hc); [apply Hr|apply Hq|apply Hr|apply Hq|].
  destruct (add_all_ok in_place (meets (fRects r) (fRects o)) empty empty_ok) as (n & -> & En & Han & _). cbn [cbind]. simpl in En.
  destruct (SetTo_ok in_place (BeginOperation r) n (ro_alloc _ Hr0)) as (r1 & -> & Er1 & Ha1 & Eo1). cbn [cbind].
  apply ends_op; [|by rewrite Eo1, Eo0|done|by rewrite Er1, En|intros l l'; apply covers_same]. split; [..|done]; by rewrite Er1, En.
Qed.

(** ** ConstrainTo *)

Lemma constrain_loop_ok x : forall todo r post, alloc_ok r -> fRects r = todo ++ post ->
  exists r', constrain_loop in_place r x (length todo) = Ok r' /\ alloc_ok r' /\ fOpLevel r' = fOpLevel r /\
    fRects r' = base.filter (fun c => Valid c = true) (map (Intersect_rect x) todo) ++ post.
Proof.
  induction todo as [|c todo IH] using rev_ind; intros r post Ha E; [exists r; done|].
  rewrite length_app. simpl. rewrite Nat.add_1_r. cbn [constrain_loop].
  assert (fRects r !! length todo = Some c) as Hc by (rewrite E, <- app_assoc; by apply list_lookup_middle). unfold RectAt. rewrite Hc. cbn [deref cbind].
  fold (Intersect_rect x c). set (r1 := set_rect r (length todo) (Intersect_rect x c)).
  assert (fRects r1 = todo ++ Intersect_rect x c :: post) as E1.
  { simpl. rewrite E, <- app_assoc. rewrite insert_app_r_alt by lia. by rewrite Nat.sub_diag. }
  assert (alloc_ok r1) as Ha1 by (unfold alloc_ok, fNumRects in *; simpl; by rewrite length_insert).
  rewrite map_app, filter_app. cbn [map]. rewrite filter_cons, filter_nil. destruct (Valid (Intersect_rect x c)) eqn:Ev.
  - cbn [cbind]. rewrite decide_True by done. destruct (IH r1 (Intersect_rect x c :: post) Ha1 E1) as (r2 & -> & Ha2 & Eo2 & E2).
    exists r2. split_and!; [done|done|done|]. by rewrite E2, <- app_assoc.
  - rewrite decide_False by done. destruct (RemoveRect_ok in_place r1 (length todo) Ha1) as (r2 & -> & E2 & Ha2 & Eo2); [rewrite E1, length_app; simpl; lia|].
    cbn [cbind]. destruct (IH r2 post Ha2) as (r3 & -> & Ha3 & Eo3 & E3); [by rewrite E2, E1, delete_middle|].
    exists r3. split_and!; [done|done|by rewrite Eo3, Eo2|]. by rewrite E3, app_nil_r.
Qed.

(** The rectangles of a region cut off at [x]. *)
Lemma constrained_ok x l : Forall good l -> disj l -> let k := base.filter (fun c => Valid c = true) (map (Intersect_rect x) l) in
  Forall good k /\ disj k /\ covers (fun p q => pts l p q /\ inside x p q) k.
Proof.
  intros Hg Hd k. subst k. rewrite Forall_forall in Hg. split_and!.
  - apply Forall_forall. intros q [Hv%Valid_spec (c & -> & Hc)%list_elem_of_fmap]%list_elem_of_filter. destruct (Hg c Hc) as [Hi _].
    unfold good, inner, Intersect_rect in *. simpl in *. rewrite !max_spec, !min_spec in *. lia.
  - apply disj_filter, disj_map; [done|]. intros c p q [_ H]%inside_Intersect. done.
  - intros p q. split.
    + intros (c & [_ (d & -> & Hd')%list_elem_of_fmap]%list_elem_of_filter & [H1 H2]%inside_Intersect). split; [by exists d|done].
    + intros [(d & Hd' & H1) H2]. exists (Intersect_rect x d). assert (inside (Intersect_rect x d) p q) as Hi by (by apply inside_Intersect).
      split; [|done]. apply list_elem_of_filter. split; [apply Valid_spec; unfold inside in Hi; lia|]. apply list_elem_of_fmap. eauto.
Qed.

Lemma ConstrainTo_ok r x : rok r -> 0 <= fOpLevel r < 2 ^ 31 - 1 -> exists r', ConstrainTo in_place r x = Ok r' /\ rok r' /\ fOpLevel r' = fOpLevel r /\
  covers (fun p q => pts (fRects r) p q /\ inside x p q) (fRects r').
Proof.
  intros Hr Ho. destruct (BeginOperation_ok r (fOpLevel r) Hr eq_refl Ho) as [Hr0 Eo0]. unfold ConstrainTo.
  destruct (constrain_loop_ok x (fRects r) (BeginOperation r) [] (ro_alloc _ Hr0)) as (r1 & E & Ha1 & Eo1 & E1); [by rewrite app_nil_r|].
  change (fRects (BeginOperation r)) with (fRects r). rewrite E. cbn [cbind]. rewrite app_nil_r in E1.
  destruct (constrained_ok x (fRects r)) as (Hg & Hd & Hc); [apply Hr|apply Hr|].
  assert (rok r1) as Hr1 by (split; rewrite ?E1; done).
  destruct (EndOperation_ok in_place r1 (fOpLevel r) Hr1) as (r2 & -> & Hr2 & Hp & Eo2); [by rewrite Eo1, Eo0|done|].
  exists r2. split_and!; [done|done|done|]. eapply covers_same; [exact Hc|]. by rewrite <- E1.
Qed.

(** ** Include, Invert and Exclude of regions *)

(** Points are added, and only from [l]. *)
Definition joined_with (k l k' : list rect) : Prop := (forall x y, pts k x y -> pts k' x y) /\ (forall x y, pts k' x y -> pts k x y \/ pts l x y).

Lemma include_all_ok l : forall r, rok r -> Forall good l -> 0 <= fOpLevel r < 2 ^ 31 - 1 -> ends r (joined_with (fRects r) l) (include_all in_place r l).
Proof.
  induction l as [|a l IH]; intros r Hr Hl Ho; cbn [include_all]; [split_and!; [done|done|]; split; [done|by left]|].
  apply Forall_cons in Hl as [Ha Hl]. eapply ends_bind; [by apply Include_ok|]. intros r1 Hr1 Eo1 (H1 & H2 & _).
  eapply ends_level; [exact Eo1|]. eapply ends_impl; [apply IH; [done|done|lia]|]. intros k [H3 H4]. split; [auto|].
  intros x y Hp. rewrite pts_cons. destruct (H4 x y Hp) as [H|H]; [|tauto]. destruct (H2 x y H); tauto.
Qed.

Lemma IncludeRegion_ok r o : rok r -> rok o -> 0 <= fOpLevel r < 2 ^ 31 - 2 -> ends r (joined_with (fRects r) (fRects o)) (IncludeRegion in_place r o).
Proof.
  intros Hr Hq Ho. destruct (BeginOperation_ok r (fOpLevel r) Hr eq_refl) as [Hr0 Eo0]; [lia|]. unfold IncludeRegion.
  eapply ends_bind; [apply include_all_ok; [done|apply Hq|lia]|]. intros r1 Hr1 Eo1 [H1 H2]. apply ends_op; [done|lia|lia|by split|].
  intros l l' [H3 H4] H. split; [intros x y Hp; by apply H, H3|intros x y Hp%H; auto].
Qed.

(** The whole plane, as far as coordinates go. *)
Definition plane : rect := Rect (- COORD_MAX) (- COORD_MAX) COORD_MAX COORD_MAX.

Lemma plane_good : good plane.
Proof. unfold good, inner, plane, COORD_MAX. simpl. lia. Qed.

Lemma Invert_ok r : rok r -> 0 <= fOpLevel r < 2 ^ 31 - 1 ->
  ends r (fun k => forall x y, pts k x y -> inside plane x y /\ ~ pts (fRects r) x y) (Invert in_place r).
Proof.
  intros Hr Ho. destruct (BeginOperation_ok r (fOpLevel r) Hr eq_refl Ho) as [Hr0 Eo0]. unfold Invert. fold plane.
  eapply ends_bind; [apply Include_ok; [apply empty_rok|apply plane_good|done]|]. intros t Ht Et (_ & Hin & _).
  eapply ends_bind; [apply exclude_all_ok; [done|by apply (inners (BeginOperation r))|simpl in Et; lia]|]. intros t1 Ht1 _ [Hsub _].
  destruct (SetTo_ok in_place (BeginOperation r) t1 (ro_alloc _ Hr0)) as (r1 & -> & Er1 & Ha1 & Eo1). cbn [cbind].
  apply ends_op; [|by rewrite Eo1, Eo0|done|rewrite Er1|intros l l' H1 H2 x y Hp%H2; by apply H1].
  - split; rewrite ?Er1; [apply Ht1|apply Ht1|done].
  - intros x y Hp. destruct (Hsub x y Hp) as [H1 H2]. split; [|intros (c & Hc & Hi); by apply (H2 c Hc)].
    destruct (Hin x y H1) as [H|H]; [by apply pts_nil in H|done].
Qed.

Lemma ExcludeRegion_ok r o : rok r -> rok o -> 0 <= fOpLevel r < 2 ^ 31 - 2 ->
  ends r (fun k => forall x y, pts k x y -> pts (fRects r) x y /\ ~ pts (fRects o) x y) (ExcludeRegion in_place r o).
Proof.
  intros Hr Hq Ho. destruct (BeginOperation_ok r (fOpLevel r) Hr eq_refl) as [Hr0 Eo0]; [lia|]. unfold ExcludeRegion, copy.
  destruct (SetTo_ok in_place empty o empty_ok) as (t & -> & Et & Hat & Eot). cbn [cbind].
  assert (rok t) as Ht by (split; rewrite ?Et; [apply Hq|apply Hq|done]).
  eapply ends_bind; [apply Invert_ok; [done|simpl in Eot; lia]|]. rewrite Et. intros t1 Ht1 Eo1 Hsub.
  eapply ends_bind; [apply Intersect_ok; [exact Hr0|exact Ht1|lia]|]. intros r1 Hr1 Er1 Hc.
  apply ends_op; [done|lia|lia| |intros l l' H1 H2 x y Hp%H2; by apply H1].
  intros x y [H1 H2]%Hc. split; [done|]. by apply Hsub in H2 as [_ H2].
Qed.

(** ** Translate, Bounds and FindRect *)

Lemma Translate_ok r dx dy : rok r -> Forall (fun c => good (Rect (left c + dx) (top c + dy) (right c + dx) (bottom c + dy))) (fRects r) ->
  rok (Translate r dx dy) /\ covers (fun x y => pts (fRects r) (x - dx) (y - dy)) (fRects (Translate r dx dy)).
Proof.
  intros [Hg Hd Ha] Hm. unfold Translate. cbn [fRects].
  assert (map (fun c => OffsetBy c dx dy) (fRects r) = map (fun c => Rect (left c + dx) (top c + dy) (right c + dx) (bottom c + dy)) (fRects r)) as E.
  { apply map_ext_in. intros c Hc%list_elem_of_In. rewrite Forall_forall in Hm. specialize (Hm c Hc). unfold good, inner in Hm. simpl in Hm.
    unfold OffsetBy. rewrite !s32_small by lia. done. }
  rewrite E. split; [split; simpl|].
  - apply Forall_map. exact Hm.
  - clear -Hd. induction (fRects r) as [|a l IH]; [done|]. destruct Hd as [H1 H2]. simpl. split; [|auto].
    apply Forall_map. eapply Forall_impl; [exact H1|]. intros b Hb x y Hx Hy. apply (Hb (x - dx) (y - dy)); unfold inside in *; simpl in *; lia.
  - unfold alloc_ok, fNumRects in *. simpl. by rewrite length_map.
  - intros x y. unfold pts. split.
    + intros (q & (c & -> & Hc)%list_elem_of_fmap & Hi). exists c. split; [done|]. unfold inside in *. simpl in *. lia.
    + intros (c & Hc & Hi). eexists. split; [apply list_elem_of_fmap; exists c; split; [reflexivity|done]|]. unfold inside in *. simpl. lia.
Qed.

Lemma FindRect_ok r x y : match FindRect r x y with Some c => c ∈ fRects r /\ inside c x y | None => ~ pts (fRects r) x y end.
Proof.
  unfold FindRect. destruct (List.find _ _) as [c|] eqn:E.
  - apply List.find_some in E as [H1%list_elem_of_In H2%Contains_spec]. done.
  - intros (c & Hc%list_elem_of_In & Hi%Contains_spec). by rewrite (List.find_none _ _ E c Hc) in Hi.
Qed.

(** ** Regions that fit the first array *)

(** Sixteen rectangles are enough for the region and the pieces of those that [e] meets. *)
Definition roomy (r : region) (e : rect) : Prop :=
  (length (fRects r) + 8 * length (base.filter (fun c => Intersects e c = true) (fRects r)) <= 16)%nat.

Lemma split_small c qs : forall r, alloc_ok r -> (0 < length (fRects r))%nat -> (length (fRects r) + length qs <= 16)%nat -> exists r', split in_place r c true qs = Ok r'.
Proof.
  induction qs as [|q qs IH]; intros r Ha H0 Hn; cbn [split]; [eauto|]. simpl in Hn. destruct (SPLIT_TEST c q); [|apply IH; [done|done|lia]].
  destruct (AddRect_ok in_place r (Intersect_rect q c) Ha) as (r1 & m & -> & E1 & Ha1 & _ & _ & Hm). cbn [cbind].
  rewrite Hm by (rewrite Z.mod_small by lia; lia). apply IH; [done|rewrite E1, length_app; simpl; lia|rewrite E1, length_app; simpl; lia].
Qed.

Lemma exclude_loop_small e : forall todo r before added, alloc_ok r -> fRects r = before ++ todo ++ added ->
  (length (fRects r) + 8 * length (base.filter (fun c => Intersects e c = true) todo) <= 16)%nat ->
  exists r', exclude_loop in_place r e (length before) (length todo) = Ok r'.
Proof.
  induction todo as [|c todo IH]; intros r before added Ha E Hn; cbn [exclude_loop length]; [eauto|].
  assert (fRects r !! length before = Some c) as Hc by (rewrite E; apply list_lookup_middle; done). unfold RectAt. rewrite Hc. cbn [deref cbind].
  rewrite filter_cons in Hn. destruct (Intersects e c) eqn:Ei.
  - rewrite decide_True in Hn by done. simpl in Hn. pose proof (lookup_lt_Some _ _ _ Hc).
    destruct (split_small c (quads c e) r Ha) as [r1 E1]; [lia|simpl; lia|].
    pose proof (split_ok in_place c (quads c e) r true Ha) as Hs. rewrite E1 in *. destruct Hs as (E2 & Ha1 & _); [done|]. cbn [cbind]. fold (pieces c e) in E2.
    assert (length (pieces c e) <= 8)%nat as Hp by (unfold pieces; rewrite length_map; apply (length_filter (fun q => SPLIT_TEST c q = true) (quads c e))).
    destruct (RemoveRect_ok in_place r1 (length before) Ha1) as (r2 & -> & E3 & Ha2 & _); [rewrite E2, length_app; lia|]. cbn [cbind].
    assert (fRects r2 = before ++ todo ++ (added ++ pieces c e)) as E4 by (rewrite E3, E2, E; rewrite <- !app_assoc; simpl; rewrite delete_middle; by rewrite <- ?app_assoc).
    apply (IH r2 before (added ++ pieces c e)); [done|done|]. rewrite E4. rewrite E in Hn. rewrite !length_app in *. simpl in Hn. lia.
  - rewrite decide_False in Hn by done. replace (S (length before)) with (length (before ++ [c])) by (rewrite length_app; simpl; lia).
    apply (IH r (before ++ [c]) added); [done|by rewrite E, <- app_assoc|done].
Qed.

Lemma Exclude_small r e : rok r -> inner e -> 0 <= fOpLevel r < 2 ^ 31 - 1 -> roomy r e -> exists r', Exclude in_place r e = Ok r'.
Proof.
  intros Hr He Ho Hn. pose proof (exclude_begin in_place r e Hr He Ho) as Hl. unfold Exclude. change (fRects (BeginOperation r)) with (fRects r).
  destruct (BeginOperation_ok r (fOpLevel r) Hr eq_refl Ho) as [Hr0 _].
  destruct (exclude_loop_small e (fRects r) (BeginOperation r) [] [] (ro_alloc _ Hr0)) as [r1 E1]; [simpl; by rewrite app_nil_r|exact Hn|].
  simpl length in E1. rewrite E1 in *. destruct Hl as (Hr1 & Eo1 & _). cbn [cbind].
  destruct (EndOperation_ok in_place r1 (fOpLevel r) Hr1 Eo1 Ho) as (r2 & -> & _). eauto.
Qed.

(** ** The claims *)

(** C15. Exclude(rect) on a region: the rectangles stay valid and disjoint, and the
  points that are left are those outside rect, except that a piece one point wide or
  high is lost; the call fails only when realloc moves the array, and never while
  sixteen rectangles are enough. *)
Theorem exclude_points r e (Hr : rok r) (He : inner e) (Ho : fOpLevel r = 0) :
  ends r (covers (fun x y => exists c, c ∈ fRects r /\ survives c e x y)) (Exclude in_place r e) /\
  (roomy r e -> exists r', Exclude in_place r e = Ok r').
Proof.
  split; [apply Exclude_ok; [done|done|lia]|]. intros Hn. apply Exclude_small; [done|done|lia|done].
Qed.

(** C21. The other operations in terms of points: Intersect is the intersection,
  ConstrainTo the part inside a rectangle, Translate a shift; Include adds the points of
  a rectangle that are new when the rectangle is apart from the region, and never
  anything else; Invert and Exclude(region) yield only points outside the region. *)
Theorem region_algebra r o x dx dy (Hr : rok r) (Hq : rok o) (Hx : good x) (Ho : fOpLevel r = 0)
  (Ht : Forall (fun c => good (Rect (left c + dx) (top c + dy) (right c + dx) (bottom c + dy))) (fRects r)) :
  ends r (covers (fun p q => pts (fRects r) p q /\ pts (fRects o) p q)) (Intersect in_place r o) /\
  ends r (covers (fun p q => pts (fRects r) p q /\ inside x p q)) (ConstrainTo in_place r x) /\
  covers (fun p q => pts (fRects r) (p - dx) (q - dy)) (fRects (Translate r dx dy)) /\
  ends r (included (fRects r) x) (Include in_place r x) /\
  ends r (joined_with (fRects r) (fRects o)) (IncludeRegion in_place r o) /\
  ends r (fun k => forall p q, pts k p q -> inside plane p q /\ ~ pts (fRects r) p q) (Invert in_place r) /\
  ends r (fun k => forall p q, pts k p q -> pts (fRects r) p q /\ ~ pts (fRects o) p q) (ExcludeRegion in_place r o).
Proof.
  split_and!.
  - apply Intersect_ok; [done|done|lia].
  - destruct (ConstrainTo_ok r x Hr) as (r' & -> & H1 & H2 & H3); [lia|]. done.
  - by apply Translate_ok.
  - apply Include_ok; [done|done|lia].
  - apply IncludeRegion_ok; [done|done|lia].
  - apply Invert_ok; [done|lia].
  - apply ExcludeRegion_ok; [done|done|lia].
Qed.

End allocator.

(** ** Witnesses *)

Definition ex_region : region := Reg [Rect 0 0 9 9; Rect 20 0 29 9] 16 0.

Lemma ex_region_rok : rok ex_region.
Proof.
  split; [repeat constructor; simpl; lia| |unfold alloc_ok; vm_compute; discriminate].
  simpl. split; [|by repeat constructor]. repeat constructor. unfold apart, inside. simpl. lia.
Qed.

Lemma exclude_points_witness : exists r', Exclude (fun _ _ => false) ex_region (Rect 3 3 5 5) = Ok r' /\ length (fRects r') = 5%nat.
Proof.
  destruct (exclude_points (fun _ _ => false) ex_region (Rect 3 3 5 5) ex_region_rok) as [_ H]; [unfold inner; simpl; lia|reflexivity|].
  destruct H as [r' E]; [unfold roomy; vm_compute; lia|]. exists r'. split; [exact E|]. vm_compute in E. injection E as <-. reflexivity.
Defined.

(** A column of width one is lost. *)
Example exclude_loses_column : Exclude (fun _ _ => true) (Reg [Rect 0 0 9 9] 16 0) (Rect 1 0 9 9) = Ok (Reg [] 16 0).
Proof. reflexivity. Qed.

(** With sixteen rectangles the array is reallocated under the reference. *)
Example exclude_moves : Exclude (fun _ _ => false) (Reg (map (fun i => Rect (20 * i) 0 (20 * i + 9) 9) (seqZ 0 16)) 16 0) (Rect 3 3 5 5) = Fault.
Proof. reflexivity. Qed.

Lemma region_algebra_witness : exists r', Intersect (fun _ _ => false) ex_region ex_region = Ok r' /\ covers (fun p q => pts (fRects ex_region) p q /\ pts (fRects ex_region) p q) (fRects r').
Proof.
  destruct (region_algebra (fun _ _ => false) ex_region ex_region (Rect 3 3 5 5) 1 1 ex_region_rok ex_region_rok) as (H & _);
    [unfold good, inner; simpl; lia|reflexivity|repeat constructor; simpl; lia|].
  destruct (Intersect (fun _ _ => false) ex_region ex_region) as [r'| |] eqn:E; [|vm_compute in E; discriminate E|vm_compute in E; discriminate E].
  exists r'. split; [reflexivity|]. apply H.
Defined.

End RegionOps.
