(* ===== verification/Line.v ===== *)
(** Clipping of lines, which srv/window/GraphicsContext.cpp and Renderer_vga.cpp both
  contain: the loop ends, and what is left of a line lies within the rectangle. *)
From S2P Require Import Prelude Region RegionProof.
Import Region RegionProof.
Local Open Scope Z_scope.
Local Open Scope c_scope.

Module Line.

(** On which sides of a rectangle a point lies. *)
Definition kBottom : Z := 1.
Definition kTop : Z := 2.
Definition kLeft : Z := 4.
Definition kRight : Z := 8.
Definition clipmask (x y : Z) (r : rect) : Z :=
  Z.lor (if decide (x < left r) then kLeft else if decide (right r < x) then kRight else 0) (if decide (y < top r) then kTop else if decide (bottom r < y) then kBottom else 0).
Definition vert_intersection (x1 y1 x2 y2 x : Z) : cres Z :=
  let d := s32 (x2 - x1) in if decide (d = 0) then Fault else Ok (s32 (y1 + Z.quot (s32 (s32 (y2 - y1) * s32 (x - x1))) d)).
Definition horz_intersection (x1 y1 x2 y2 y : Z) : cres Z :=
  let d := s32 (y2 - y1) in if decide (d = 0) then Fault else Ok (s32 (x1 + Z.quot (s32 (s32 (x2 - x1) * s32 (y - y1))) d)).

(** The place where the line crosses the side that [mask] names first. *)
Definition crossing (r : rect) (mask x1 y1 x2 y2 : Z) : cres (Z * Z) :=
  if decide (Z.land mask kBottom <> 0) then let! x := horz_intersection x1 y1 x2 y2 (bottom r) in Ok (x, bottom r)
  else if decide (Z.land mask kTop <> 0) then let! x := horz_intersection x1 y1 x2 y2 (top r) in Ok (x, top r)
  else if decide (Z.land mask kRight <> 0) then let! y := vert_intersection x1 y1 x2 y2 (right r) in Ok (right r, y)
  else if decide (Z.land mask kLeft <> 0) then let! y := vert_intersection x1 y1 x2 y2 (left r) in Ok (left r, y)
  else Ok (0, 0).

(** The loop for one rectangle; [None] is a line that is rejected. *)
Fixpoint clip_line (r : rect) (x1 y1 x2 y2 point1mask point2mask : Z) (fuel : nat) : cres (option (Z * Z * Z * Z)) :=
  if decide (point1mask <> 0 \/ point2mask <> 0) then
    if decide (Z.land point1mask point2mask <> 0) then Ok None else
    match fuel with
    | O => Fault
    | S fuel =>
        let! (x, y) := crossing r (if decide (point1mask <> 0) then point1mask else point2mask) x1 y1 x2 y2 in
        if decide (point1mask <> 0) then clip_line r x y x2 y2 (clipmask x y r) point2mask fuel
        else clip_line r x1 y1 x y point1mask (clipmask x y r) fuel
    end
  else Ok (Some (x1, y1, x2, y2)).
(** ** The loop ends *)

(** Coordinates whose products fit an int. *)
Definition small (x : Z) : Prop := - 2 ^ 14 <= x <= 2 ^ 14.
Definition between (a b x : Z) : Prop := Z.min a b <= x <= Z.max a b.

Lemma between_sym a b c : between a b c -> between b a c.
Proof. unfold between. lia. Qed.

Lemma clipmask_spec x y r : left r <= right r -> top r <= bottom r ->
  (clipmask x y r = 0 <-> inside r x y) /\
  (Z.land (clipmask x y r) kBottom <> 0 <-> bottom r < y) /\ (Z.land (clipmask x y r) kTop <> 0 <-> y < top r) /\
  (Z.land (clipmask x y r) kRight <> 0 <-> right r < x) /\ (Z.land (clipmask x y r) kLeft <> 0 <-> x < left r).
Proof.
  intros Hx Hy. unfold clipmask, inside, kBottom, kTop, kLeft, kRight. repeat case_decide; cbv [Z.lor Z.land Z.of_N Pos.lor Pos.land Pos.Nsucc_double Pos.Ndouble N.succ_double N.double]; repeat split; intros; try lia; try discriminate.
Qed.

(** Two points that are not on a common side. *)
Lemma clipmask_apart x1 y1 x2 y2 r : left r <= right r -> top r <= bottom r -> Z.land (clipmask x1 y1 r) (clipmask x2 y2 r) = 0 ->
  ~ (bottom r < y1 /\ bottom r < y2) /\ ~ (y1 < top r /\ y2 < top r) /\ ~ (right r < x1 /\ right r < x2) /\ ~ (x1 < left r /\ x2 < left r).
Proof.
  intros Hx Hy. unfold clipmask, kBottom, kTop, kLeft, kRight. repeat case_decide; cbv [Z.lor Z.land Z.of_N Pos.lor Pos.land Pos.Nsucc_double Pos.Ndouble N.succ_double N.double]; intros E; try discriminate E; lia.
Qed.

Lemma quot_between a t d : d <> 0 -> between 0 d t -> between 0 a (Z.quot (a * t) d).
Proof.
  intros Hd Ht. unfold between in *. assert (forall a t d, 0 < d -> 0 <= t <= d -> 0 <= a -> 0 <= Z.quot (a * t) d <= a) as H.
  { intros a' t' d' H1 H2 H3. rewrite Z.quot_div_nonneg by nia. split; [apply Z.div_pos; nia|]. apply Z.div_le_upper_bound; nia. }
  destruct (decide (0 < d)), (decide (0 <= a)).
  - specialize (H a t d). lia.
  - specialize (H (- a) t d). rewrite Z.mul_opp_l, Z.quot_opp_l in H by lia. lia.
  - specialize (H a (- t) (- d)). rewrite Z.mul_opp_r, Z.quot_opp_opp in H by lia. lia.
  - specialize (H (- a) (- t) (- d)). rewrite Z.mul_opp_opp, Z.quot_opp_r in H by lia. lia.
Qed.

Lemma horz_ok x1 y1 x2 y2 y : small x1 -> small y1 -> small x2 -> small y2 -> y1 <> y2 -> between y1 y2 y -> exists x, horz_intersection x1 y1 x2 y2 y = Ok x /\ between x1 x2 x.
Proof.
  unfold small, between. intros Hx1 Hy1 Hx2 Hy2 Hne Hy. unfold horz_intersection. rewrite (s32_small (y2 - y1)), (s32_small (x2 - x1)), (s32_small (y - y1)) by lia. rewrite decide_False by lia.
  assert (- 2 ^ 31 <= (x2 - x1) * (y - y1) < 2 ^ 31) by nia. rewrite (s32_small ((x2 - x1) * (y - y1))) by done.
  pose proof (quot_between (x2 - x1) (y - y1) (y2 - y1) ltac:(lia) ltac:(unfold between; lia)) as H'. unfold between in H'. rewrite s32_small by lia. eexists. split; [done|]. lia.
Qed.

Lemma vert_ok x1 y1 x2 y2 x : small x1 -> small y1 -> small x2 -> small y2 -> x1 <> x2 -> between x1 x2 x -> exists y, vert_intersection x1 y1 x2 y2 x = Ok y /\ between y1 y2 y.
Proof. intros. destruct (horz_ok y1 x1 y2 x2 x) as (y & E & Hb); try done. exists y. split; [|done]. exact E. Qed.

(** A crossing lies on the line, strictly nearer to the point on the other side. *)
Lemma crossing_ok r x y u v : left r <= right r -> top r <= bottom r -> small x -> small y -> small u -> small v ->
  Z.land (clipmask x y r) (clipmask u v r) = 0 -> clipmask x y r <> 0 ->
  (exists p q, crossing r (clipmask x y r) x y u v = Ok (p, q) /\ between x u p /\ between y v q /\ (p <> x \/ q <> y)) /\
  (exists p q, crossing r (clipmask x y r) u v x y = Ok (p, q) /\ between x u p /\ between y v q /\ (p <> x \/ q <> y)).
Proof.
  intros Hx Hy Sx Sy Su Sv Ha Hm. destruct (clipmask_spec x y r Hx Hy) as (M0 & MB & MT & MR & ML). destruct (clipmask_apart _ _ _ _ _ Hx Hy Ha) as (AB & AT & AR & AL).
  unfold crossing.
  destruct (decide (Z.land (clipmask x y r) kBottom <> 0)) as [H|H]; [|destruct (decide (Z.land (clipmask x y r) kTop <> 0)) as [H'|H']; [|destruct (decide (Z.land (clipmask x y r) kRight <> 0)) as [H2|H2];
    [|destruct (decide (Z.land (clipmask x y r) kLeft <> 0)) as [H3|H3]]]].
  - apply MB in H. clear M0 MB MT MR ML Hm Ha. destruct (horz_ok x y u v (bottom r)) as (p & E & Hb); try done; [lia|unfold between; lia|]. destruct (horz_ok u v x y (bottom r)) as (p' & E' & Hb'); try done; [lia|unfold between; lia|].
    rewrite E, E'. cbn [cbind]. split; [exists p|exists p']; exists (bottom r); (split_and!; [done|first [done|by apply between_sym]|unfold between; lia|right; lia]).
  - apply MT in H'. clear M0 MB MT MR ML Hm Ha. destruct (horz_ok x y u v (top r)) as (p & E & Hb); try done; [lia|unfold between; lia|]. destruct (horz_ok u v x y (top r)) as (p' & E' & Hb'); try done; [lia|unfold between; lia|].
    rewrite E, E'. cbn [cbind]. split; [exists p|exists p']; exists (top r); (split_and!; [done|first [done|by apply between_sym]|unfold between; lia|right; lia]).
  - apply MR in H2. clear M0 MB MT MR ML Hm Ha. destruct (vert_ok x y u v (right r)) as (q & E & Hb); try done; [lia|unfold between; lia|]. destruct (vert_ok u v x y (right r)) as (q' & E' & Hb'); try done; [lia|unfold between; lia|].
    rewrite E, E'. cbn [cbind]. split; exists (right r); [exists q|exists q']; (split_and!; [done|unfold between; lia|first [done|by apply between_sym]|left; lia]).
  - apply ML in H3. clear M0 MB MT MR ML Hm Ha. destruct (vert_ok x y u v (left r)) as (q & E & Hb); try done; [lia|unfold between; lia|]. destruct (vert_ok u v x y (left r)) as (q' & E' & Hb'); try done; [lia|unfold between; lia|].
    rewrite E, E'. cbn [cbind]. split; exists (left r); [exists q|exists q']; (split_and!; [done|unfold between; lia|first [done|by apply between_sym]|left; lia]).
  - exfalso. apply Hm, M0. unfold inside. split; split; apply Z.nlt_ge; intros Hlt; [apply H3, ML|apply H2, MR|apply H', MT|apply H, MB]; done.
Qed.

(** The loop ends: each turn brings the points nearer to each other. *)
Lemma clip_line_ok r : left r <= right r -> top r <= bottom r -> forall fuel x1 y1 x2 y2, small x1 -> small y1 -> small x2 -> small y2 ->
  Z.abs (x2 - x1) + Z.abs (y2 - y1) <= Z.of_nat fuel ->
  exists o, clip_line r x1 y1 x2 y2 (clipmask x1 y1 r) (clipmask x2 y2 r) fuel = Ok o /\
    match o with Some (a, b, c, d) => inside r a b /\ inside r c d | None => True end.
Proof.
  intros Hx Hy. induction fuel as [|fuel IH]; intros x1 y1 x2 y2 S1 T1 S2 T2 Hf; cbn [clip_line];
    (destruct (decide (clipmask x1 y1 r <> 0 \/ clipmask x2 y2 r <> 0)) as [Hm|Hm];
     [|eexists; split; [done|]; destruct (clipmask_spec x1 y1 r Hx Hy) as (M & _), (clipmask_spec x2 y2 r Hx Hy) as (M' & _); split; [apply M|apply M'];
       match goal with |- ?a = 0 => destruct (decide (a = 0)); [done|tauto] end]);
    (destruct (decide (Z.land (clipmask x1 y1 r) (clipmask x2 y2 r) <> 0)) as [Hl|Hl]; [by exists None|]).
  - exfalso. assert (x2 = x1) as -> by lia. assert (y2 = y1) as -> by lia. rewrite Z.land_diag in Hl. tauto.
  - assert (Z.land (clipmask x1 y1 r) (clipmask x2 y2 r) = 0) as Ha by lia. destruct (decide (clipmask x1 y1 r <> 0)) as [H1|H1].
    + destruct (crossing_ok r x1 y1 x2 y2 Hx Hy S1 T1 S2 T2 Ha H1) as [(p & q & E & Bp & Bq & Hpq) _]. rewrite E. cbn [cbind]. unfold small, between in *. apply IH; lia.
    + assert (clipmask x2 y2 r <> 0) as H2 by tauto. rewrite Z.land_comm in Ha.
      destruct (crossing_ok r x2 y2 x1 y1 Hx Hy S2 T2 S1 T1 Ha H2) as [_ (p & q & E & Bp & Bq & Hpq)]. rewrite E. cbn [cbind]. unfold small, between in *. apply IH; lia.
Qed.

End Line.
