(* ===== verification/Win.v ===== *)
(** srv/window/Window.cpp and GraphicsContext.cpp: the windows of the window server.

  The windows live in a heap of records that point at each other: a window has a list
  of children from front to back, each child knows the next one, the cell that points at
  it (the pointer to a pointer [fPreviousSibling] is a [link]) and its parent.  What a
  window may draw on is its clip region: its visible region without its children.  The
  renderer is an interface; the calls made of it are recorded in [drawn], the events sent
  to programs in [posted].  Walks along pointers run on fuel, one more than there are
  windows. *)
From S2P Require Import Prelude Region Line.
Import Region Line.
Local Open Scope Z_scope.
Local Open Scope c_scope.

Module Win.

(** ** Data *)

(** &parent->fChildList, or &sibling->fNextSibling. *)
Inductive link := ChildListOf (w : nat) | NextOf (w : nat).

(** The calls of the renderer. *)
Inductive draw :=
| DLine (x1 y1 x2 y2 color : Z)
| DFill (r : rect) (color : Z)
| DStretch (image_rect screen_rect : rect) (image bytes_per_row : Z)
| DBlit (x y image width height bytes_per_row : Z)
| DCopy (src dest : rect).

Record graphics := GC { gc_clip : region; gc_renderer : bool; gc_color : Z; gc_x : Z; gc_y : Z }.

Record window := Window {
  fID : Z;
  fNextSibling : option nat;
  fPreviousSibling : option link;
  fChildList : option nat;
  fParent : option nat;
  fInvalidRegion : region;
  fCurrentRedrawRegion : region;
  fVisibleRegion : region;
  fClipRegion : region;
  fFrame : rect;
  fGC : graphics;
  fIsVisible : bool;
  fInRedraw : bool;
  fPaintMsgSent : bool;
  fColor : Z
}.

Definition set_links (nx : option nat) (pv : option link) (ch pa : option nat) (w : window) : window :=
  Window (fID w) nx pv ch pa (fInvalidRegion w) (fCurrentRedrawRegion w) (fVisibleRegion w) (fClipRegion w) (fFrame w) (fGC w) (fIsVisible w) (fInRedraw w) (fPaintMsgSent w) (fColor w).
Definition set_next (v : option nat) (w : window) : window := set_links v (fPreviousSibling w) (fChildList w) (fParent w) w.
Definition set_prev (v : option link) (w : window) : window := set_links (fNextSibling w) v (fChildList w) (fParent w) w.
Definition set_children (v : option nat) (w : window) : window := set_links (fNextSibling w) (fPreviousSibling w) v (fParent w) w.
Definition set_parent (v : option nat) (w : window) : window := set_links (fNextSibling w) (fPreviousSibling w) (fChildList w) v w.
Definition set_regions (inval redraw vis clip : region) (w : window) : window :=
  Window (fID w) (fNextSibling w) (fPreviousSibling w) (fChildList w) (fParent w) inval redraw vis clip (fFrame w) (fGC w) (fIsVisible w) (fInRedraw w) (fPaintMsgSent w) (fColor w).
Definition set_invalid (v : region) (w : window) : window := set_regions v (fCurrentRedrawRegion w) (fVisibleRegion w) (fClipRegion w) w.
Definition set_redraw (v : region) (w : window) : window := set_regions (fInvalidRegion w) v (fVisibleRegion w) (fClipRegion w) w.
Definition set_visible (v : region) (w : window) : window := set_regions (fInvalidRegion w) (fCurrentRedrawRegion w) v (fClipRegion w) w.
Definition set_clip (v : region) (w : window) : window := set_regions (fInvalidRegion w) (fCurrentRedrawRegion w) (fVisibleRegion w) v w.
Definition set_frame (v : rect) (w : window) : window :=
  Window (fID w) (fNextSibling w) (fPreviousSibling w) (fChildList w) (fParent w) (fInvalidRegion w) (fCurrentRedrawRegion w) (fVisibleRegion w) (fClipRegion w) v (fGC w) (fIsVisible w) (fInRedraw w) (fPaintMsgSent w) (fColor w).
Definition set_gc (v : graphics) (w : window) : window :=
  Window (fID w) (fNextSibling w) (fPreviousSibling w) (fChildList w) (fParent w) (fInvalidRegion w) (fCurrentRedrawRegion w) (fVisibleRegion w) (fClipRegion w) (fFrame w) v (fIsVisible w) (fInRedraw w) (fPaintMsgSent w) (fColor w).
Definition set_flags (vis redraw sent : bool) (w : window) : window :=
  Window (fID w) (fNextSibling w) (fPreviousSibling w) (fChildList w) (fParent w) (fInvalidRegion w) (fCurrentRedrawRegion w) (fVisibleRegion w) (fClipRegion w) (fFrame w) (fGC w) vis redraw sent (fColor w).

Record world := World { wins : gmap nat window; bounds : rect; drawn : list draw; posted : list Z }.

Definition get (s : world) (w : nat) : cres window := deref (wins s !! w).
Definition put (s : world) (w : nat) (v : window) : world := World (<[w := v]> (wins s)) (bounds s) (drawn s) (posted s).
Definition modify (s : world) (w : nat) (f : window -> window) : cres world := let! v := get s w in Ok (put s w (f v)).
Definition render (s : world) (l : list draw) : world := World (wins s) (bounds s) (drawn s ++ l) (posted s).
Definition post (s : world) (id : Z) : world := World (wins s) (bounds s) (drawn s) (posted s ++ [id]).

(** ** Coordinates *)

(** The loop of LocalToScreen from [w] up, [sign] 1, and of ScreenToLocal, [sign] -1. *)
Fixpoint offset_up (s : world) (sign : Z) (w : option nat) (r : rect) (fuel : nat) : cres rect :=
  match w with
  | None => Ok r
  | Some w =>
      match fuel with
      | O => Fault
      | S fuel => let! v := get s w in offset_up s sign (fParent v) (OffsetBy r (s32 (sign * left (fFrame v))) (s32 (sign * top (fFrame v)))) fuel
      end
  end.
Definition LocalToScreen (s : world) (w : nat) (r : rect) : cres rect := offset_up s 1 (Some w) r (S (size (wins s))).
Definition ScreenToLocal (s : world) (w : nat) (r : rect) : cres rect := offset_up s (-1) (Some w) r (S (size (wins s))).
Definition WindowBounds (v : window) : rect := OffsetTo (fFrame v) 0 0.

Section allocator.
Context (in_place : Z -> Z -> bool).

(** ** The graphics context *)

(** GraphicsContext::SetClipRegion; the renderer must be there. *)
Definition SetClipRegion (s : world) (g : graphics) (r : region) : cres graphics :=
  let! c := SetTo in_place (gc_clip g) r in
  if gc_renderer g then
    let! c := ConstrainTo in_place c (bounds s) in Ok (GC c true (gc_color g) (gc_x g) (gc_y g))
  else Fault.
Definition SetOrigin (g : graphics) (x y : Z) : graphics := GC (gc_clip g) (gc_renderer g) (gc_color g) x y.
Definition gc_set_clip (s : world) (w : nat) (r : region) : cres world :=
  let! v := get s w in let! g := SetClipRegion s (fGC v) r in Ok (put s w (set_gc g v)).

(** DrawLine: what is left of the line in the rectangles of the clip region. *)
Definition line_in (x1 y1 x2 y2 color : Z) (r : rect) : cres (list draw) :=
  let! o := clip_line r x1 y1 x2 y2 (clipmask x1 y1 r) (clipmask x2 y2 r) (Z.to_nat (Z.abs (x2 - x1) + Z.abs (y2 - y1))) in
  Ok (match o with Some (x1, y1, x2, y2) => [DLine x1 y1 x2 y2 color] | None => [] end).
Fixpoint lines_in (x1 y1 x2 y2 color : Z) (l : list rect) : cres (list draw) :=
  match l with
  | [] => Ok []
  | r :: l => let! d := line_in x1 y1 x2 y2 color r in let! ds := lines_in x1 y1 x2 y2 color l in Ok (d ++ ds)
  end.
Definition DrawLine (g : graphics) (x1 y1 x2 y2 : Z) : cres (list draw) :=
  lines_in (s32 (x1 + gc_x g)) (s32 (y1 + gc_y g)) (s32 (x2 + gc_x g)) (s32 (y2 + gc_y g)) (gc_color g) (fRects (gc_clip g)).

(** FillRect: what is drawn in the rectangles of the clip region. *)
Definition fill_in (x1 y1 x2 y2 color : Z) (clipRect : rect) : list draw :=
  let clipleft := max x1 (left clipRect) in
  let cliptop := max y1 (top clipRect) in
  let clipright := min x2 (right clipRect) in
  let clipbottom := min y2 (bottom clipRect) in
  if decide (clipleft <= clipright /\ cliptop <= clipbottom) then [DFill (Rect clipleft cliptop clipright clipbottom) color] else [].
Definition FillRect (g : graphics) (x1 y1 x2 y2 : Z) : list draw :=
  let '(x1, x2) := (s32 (x1 + gc_x g), s32 (x2 + gc_x g)) in
  let '(y1, y2) := (s32 (y1 + gc_y g), s32 (y2 + gc_y g)) in
  let '(x1, x2) := if decide (x2 < x1) then (x2, x1) else (x1, x2) in
  let '(y1, y2) := if decide (y2 < y1) then (y2, y1) else (y1, y2) in
  fRects (gc_clip g) ≫= fill_in x1 y1 x2 y2 (gc_color g).

Definition blit_in (x y image width height bpr : Z) (clipRect : rect) : list draw :=
  let clipleft := max x (left clipRect) in
  let cliptop := max y (top clipRect) in
  let clipright := min (s32 (s32 (x + width) - 1)) (right clipRect) in
  let clipbottom := min (s32 (s32 (y + height) - 1)) (bottom clipRect) in
  if decide (clipleft <= clipright /\ cliptop <= clipbottom) then
    [DBlit clipleft cliptop (image + s32 (clipleft - x) + s32 (s32 (cliptop - y) * bpr)) (s32 (s32 (clipright - clipleft) + 1)) (s32 (s32 (clipbottom - cliptop) + 1)) bpr]
  else [].
Definition Blit (g : graphics) (x y image width height bpr : Z) : list draw :=
  fRects (gc_clip g) ≫= blit_in (s32 (x + gc_x g)) (s32 (y + gc_y g)) image width height bpr.

Definition stretch_in (imageRect screenRect : rect) (image bpr : Z) (clipRect : rect) : cres (list draw) :=
  let c := Rect (max (left screenRect) (left clipRect)) (max (top screenRect) (top clipRect)) (min (right screenRect) (right clipRect)) (min (bottom screenRect) (bottom clipRect)) in
  if decide (0 < Width c /\ 0 < Height c) then
    if decide (Width screenRect = 0 \/ Height screenRect = 0) then Fault else
    let across x := Z.quot (s32 (s32 (x - left screenRect) * Width imageRect)) (Width screenRect) in
    let down y := Z.quot (s32 (s32 (y - top screenRect) * Height imageRect)) (Height screenRect) in
    Ok [DStretch (Rect (across (left c)) (down (top c)) (across (right c)) (down (bottom c))) c image bpr]
  else Ok [].
Fixpoint stretch_all (imageRect screenRect : rect) (image bpr : Z) (l : list rect) : cres (list draw) :=
  match l with
  | [] => Ok []
  | r :: l => let! d := stretch_in imageRect screenRect image bpr r in let! ds := stretch_all imageRect screenRect image bpr l in Ok (d ++ ds)
  end.
Definition StretchBlit (g : graphics) (imageRect screenRect : rect) (image bpr : Z) : cres (list draw) :=
  stretch_all imageRect (OffsetBy screenRect (gc_x g) (gc_y g)) image bpr (fRects (gc_clip g)).

(** DrawString: the characters, 5 points apart, from the font at [font]. *)
Fixpoint DrawString (g : graphics) (font x y : Z) (str : list Z) : list draw :=
  match str with
  | [] => []
  | c :: str => Blit g x y (font + c * 40) 5 8 5 ++ DrawString g font (s32 (x + 5)) y str
  end.

(** GraphicsContext::CopyRect: what is copied, and the region that was not. *)
Definition CopyRect (g : graphics) (src dest : rect) (inClean : region) : cres (list draw * region) :=
  let src := OffsetBy src (gc_x g) (gc_y g) in
  let dest := OffsetBy dest (gc_x g) (gc_y g) in
  let dX := s32 (left dest - left src) in
  let dY := s32 (top dest - top src) in
  let! c := copy in_place inClean in
  let! c := ConstrainTo in_place c dest in
  let! c := Intersect in_place (Translate c (s32 (- dX)) (s32 (- dY))) inClean in
  let l := map (fun r => DCopy r (OffsetBy r dX dY)) (fRects c) in
  let! c := Invert in_place c in
  let! c := Intersect in_place c (gc_clip g) in Ok (l, c).

Definition GCBounds (g : graphics) : rect := OffsetBy (Bounds (gc_clip g)) (s32 (- gc_x g)) (s32 (- gc_y g)).

(** ** Invalidation *)

Definition erase (r : region) (color : Z) : list draw := map (fun c => DFill c color) (fRects r).

(** [if (!fPaintMsgSent)] a paint event is posted. *)
Definition paint_message (s : world) (w : nat) : cres world :=
  let! v := get s w in
  if fPaintMsgSent v then Ok s else Ok (put (post s (fID v)) w (set_flags (fIsVisible v) (fInRedraw v) true v)).

Definition InvalidateRegion (s : world) (w : nat) (r : region) : cres world :=
  let! v := get s w in
  if negb (gc_renderer (fGC v)) && RegionValid r then Fault else
  let s := render s (erase r (fColor v)) in
  let! i := IncludeRegion in_place (fInvalidRegion v) r in
  paint_message (put s w (set_invalid i v)) w.

Definition Invalidate (s : world) (w : nat) (r : rect) : cres world :=
  let! v := get s w in
  let! screenRect := LocalToScreen s w r in
  let! eraseRegion := copy in_place (fVisibleRegion v) in
  let! invalRegion := Include in_place empty screenRect in
  let! eraseRegion := Intersect in_place eraseRegion invalRegion in
  if negb (gc_renderer (fGC v)) && RegionValid eraseRegion then Fault else
  let s := render s (erase eraseRegion (fColor v)) in
  let! i := Include in_place (fInvalidRegion v) screenRect in
  paint_message (put s w (set_invalid i v)) w.

(** ** Clipping *)

(** The part of UpdateClipRegion behind the loop: exposures and the new clip region. *)
Definition finish_clip (s : world) (w : nat) (newClip : region) (frame : rect) : cres world :=
  let! v := get s w in
  let! exposed := copy in_place (fClipRegion v) in
  let! exposed := Invert in_place exposed in
  let! exposed := Intersect in_place exposed newClip in
  let! s := (if RegionValid exposed then InvalidateRegion s w exposed else Ok s) in
  let! v := get s w in
  let! c := SetTo in_place (fClipRegion v) newClip in
  let s := put s w (set_clip c v) in
  let! s := gc_set_clip s w c in
  modify s w (fun v => set_gc (SetOrigin (fGC v) (left frame) (top frame)) v).

(** The loop over the children; [set_vis] is SetVisibleRegion of a child. *)
Fixpoint clip_children (set_vis : nat -> region -> world -> cres world) (w : nat) (child : option nat) (newClip : region) (s : world) (fuel : nat) : cres (region * world) :=
  match child with
  | None => Ok (newClip, s)
  | Some c =>
      match fuel with
      | O => Fault
      | S fuel =>
          let! v := get s c in
          if fIsVisible v then
            let! childClip := copy in_place newClip in
            let! frame := LocalToScreen s w (fFrame v) in
            let! childClip := ConstrainTo in_place childClip frame in
            let! s := set_vis c childClip s in
            let! newClip := Exclude in_place newClip frame in
            let! v := get s c in
            clip_children set_vis w (fNextSibling v) newClip s fuel
          else
            let! s := set_vis c empty s in
            let! v := get s c in
            clip_children set_vis w (fNextSibling v) newClip s fuel
      end
  end.

(** SetVisibleRegion, given UpdateClipRegion. *)
Definition set_visible_region (update : nat -> world -> cres world) (w : nat) (r : region) (s : world) : cres world :=
  let! v := get s w in
  let! vis := SetTo in_place (fVisibleRegion v) r in
  let! s := update w (put s w (set_visible vis v)) in
  let! v := get s w in
  if fInRedraw v then
    let! drawRegion := copy in_place (fCurrentRedrawRegion v) in
    let! drawRegion := Intersect in_place drawRegion (fClipRegion v) in
    gc_set_clip s w drawRegion
  else gc_set_clip s w (fClipRegion v).

Fixpoint update_clip (fuel : nat) (w : nat) (s : world) : cres world :=
  match fuel with
  | O => Fault
  | S fuel =>
      let! v := get s w in
      let! newClip := copy in_place (fVisibleRegion v) in
      let! myFrame := LocalToScreen s w (WindowBounds v) in
      let! (newClip, s) := clip_children (set_visible_region (update_clip fuel)) w (fChildList v) newClip s (S (size (wins s))) in
      finish_clip s w newClip myFrame
  end.
Definition UpdateClipRegion (w : nat) (s : world) : cres world := update_clip (S (size (wins s))) w s.
Definition SetVisibleRegion (w : nat) (r : region) (s : world) : cres world := set_visible_region UpdateClipRegion w r s.

(** ** Windows *)

(** A window without renderer: fInRedraw, the colour and the origin of its graphics
  context are not initialised. *)
Definition new_window (id : Z) (inredraw : bool) (color x y : Z) : window :=
  Window id None None None None empty empty empty empty (Rect 0 0 0 0) (GC empty false color x y) false inredraw false 0.

(** The window that is attached to the renderer. *)
Definition new_root (s : world) (id : Z) (inredraw : bool) (color x y : Z) : cres window :=
  let v := new_window id inredraw color x y in
  let! vis := Include in_place (Clear in_place (fVisibleRegion v)) (bounds s) in
  let! clip := SetTo in_place (fClipRegion v) vis in
  let! g := SetClipRegion s (GC (gc_clip (fGC v)) true color x y) clip in
  Ok (set_gc g (set_clip clip (set_visible vis (set_frame (bounds s) v)))).

(** The new child in front of the others. *)
Definition attach (s : world) (w : nat) (frame : rect) (child : nat) : cres world :=
  let! p := get s w in
  let! s := modify s child (fun c => set_gc (GC (gc_clip (fGC c)) (gc_renderer (fGC p)) (gc_color (fGC c)) (gc_x (fGC c)) (gc_y (fGC c))) (set_frame frame c)) in
  let! s := modify s child (set_next (fChildList p)) in
  let! s := modify s child (set_prev (Some (ChildListOf w))) in
  let! s := (match fChildList p with Some h => modify s h (set_prev (Some (NextOf child))) | None => Ok s end) in
  let! s := modify s w (set_children (Some child)) in
  modify s child (set_parent (Some w)).
Definition AddChild (s : world) (w : nat) (frame : rect) (child : nat) : cres world :=
  let! s := attach s w frame child in
  let! c := get s child in
  if fIsVisible c then UpdateClipRegion w s else Ok s.

(** [*window->fPreviousSibling = window->fNextSibling; fParent = 0;] the assignment
  clears the parent of the parent. *)
Definition RemoveChild (s : world) (w : nat) (child : nat) : cres world :=
  let! c := get s child in
  let! s := match fPreviousSibling c with
            | Some (ChildListOf p) => modify s p (set_children (fNextSibling c))
            | Some (NextOf q) => modify s q (set_next (fNextSibling c))
            | None => Fault
            end in
  let! s := modify s w (set_parent None) in
  UpdateClipRegion w s.

Definition MoveToFront (s : world) (w : nat) : cres world :=
  let! v := get s w in
  let? p := fParent v in
  let! s := RemoveChild s p w in
  let! v := get s w in
  let? p := fParent v in
  let! s := AddChild s p (fFrame v) w in
  UpdateClipRegion w s.

Definition MoveTo (s : world) (w : nat) (x y : Z) : cres world :=
  let! s := modify s w (fun v => set_frame (OffsetTo (fFrame v) x y) v) in UpdateClipRegion w s.
Definition ResizeTo (s : world) (w : nat) (width height : Z) : cres world :=
  let! s := modify s w (fun v => set_frame (Rect (left (fFrame v)) (top (fFrame v)) (s32 (left (fFrame v) + width)) (s32 (top (fFrame v) + height))) v) in
  UpdateClipRegion w s.
Definition SetColor (s : world) (w : nat) (c : Z) : cres world :=
  modify s w (fun v => Window (fID v) (fNextSibling v) (fPreviousSibling v) (fChildList v) (fParent v) (fInvalidRegion v) (fCurrentRedrawRegion v) (fVisibleRegion v)
    (fClipRegion v) (fFrame v) (fGC v) (fIsVisible v) (fInRedraw v) (fPaintMsgSent v) c).

Definition set_shown (b : bool) (s : world) (w : nat) : cres world :=
  let! v := get s w in
  if decide (fIsVisible v <> b) then
    let s := put s w (set_flags b (fInRedraw v) (fPaintMsgSent v) v) in
    match fParent v with Some p => UpdateClipRegion p s | None => Ok s end
  else Ok s.
Definition Show : world -> nat -> cres world := set_shown true.
Definition Hide : world -> nat -> cres world := set_shown false.

(** The region that is repainted, and its bounds in the window's coordinates. *)
Definition BeginPaint (s : world) (w : nat) : cres (rect * world) :=
  let! v := get s w in
  let v := set_flags (fIsVisible v) true false v in
  let! redraw := SetTo in_place (fCurrentRedrawRegion v) (fInvalidRegion v) in
  let v := set_invalid (Clear in_place (fInvalidRegion v)) (set_redraw redraw v) in
  let! drawRegion := copy in_place redraw in
  let! drawRegion := Intersect in_place drawRegion (fClipRegion v) in
  let s := put s w v in
  let! out := ScreenToLocal s w (Bounds drawRegion) in
  let! s := gc_set_clip s w drawRegion in Ok (out, s).
Definition EndPaint (s : world) (w : nat) : cres world := modify s w (fun v => set_flags (fIsVisible v) false (fPaintMsgSent v) v).

(** The child that covers a point, by frames alone. *)
Fixpoint child_at (s : world) (child : option nat) (x y : Z) (fuel : nat) : cres (option (nat * Z * Z)) :=
  match child with
  | None => Ok None
  | Some c =>
      match fuel with
      | O => Fault
      | S fuel =>
          let! v := get s c in
          if Contains (fFrame v) x y then Ok (Some (c, s32 (x - left (fFrame v)), s32 (y - top (fFrame v))))
          else child_at s (fNextSibling v) x y fuel
      end
  end.
Fixpoint ChildAtPoint (s : world) (w : nat) (x y : Z) (fuel : nat) : cres nat :=
  match fuel with
  | O => Fault
  | S fuel =>
      let! v := get s w in
      let! o := child_at s (fChildList v) x y (S (size (wins s))) in
      match o with None => Ok w | Some (c, x, y) => ChildAtPoint s c x y fuel end
  end.

(** A program draws in its window. *)
Definition draw_fill (s : world) (w : nat) (x1 y1 x2 y2 : Z) : cres world :=
  let! v := get s w in Ok (render s (FillRect (fGC v) x1 y1 x2 y2)).
Definition draw_line (s : world) (w : nat) (x1 y1 x2 y2 : Z) : cres world :=
  let! v := get s w in let! l := DrawLine (fGC v) x1 y1 x2 y2 in Ok (render s l).
Definition draw_blit (s : world) (w : nat) (x y image width height bpr : Z) : cres world :=
  let! v := get s w in Ok (render s (Blit (fGC v) x y image width height bpr)).

End allocator.

End Win.
