(* ===== verification/WinProof.v ===== *)
(** Clipping (Win): UpdateClipRegion on a tree of windows.

  The windows of a tree are laid out ([laid]) when the clip region of a window is part of
  its visible region and the visible regions of its children are disjoint parts of the
  rest.  UpdateClipRegion lays out the tree below a window whatever the regions were,
  and touches no window outside it. *)
From S2P Require Import Prelude Region RegionProof RegionOps Win.
Import Region RegionProof RegionOps Win.
Local Open Scope Z_scope.
Local Open Scope c_scope.

Module WinProof.

(** ** Outcomes *)

Section outcome.
Context (in_place : Z -> Z -> bool).

(** The result satisfies [Q], or realloc moved an array that was in use. *)
Definition fine {A} (Q : A -> Prop) (res : cres A) : Prop :=
  match res with Ok a => Q a | Fault => moving in_place | Panic _ => False end.

Lemma fine_bind {A B} (P : A -> Prop) (Q : B -> Prop) m k : fine P m -> (forall a, P a -> fine Q (k a)) -> fine Q (cbind m k).
Proof. destruct m; simpl; auto; done. Qed.

Lemma fine_impl {A} (P Q : A -> Prop) m : fine P m -> (forall a, P a -> Q a) -> fine Q m.
Proof. destruct m; simpl; auto. Qed.

(** Regions between operations. *)
Definition gr (r : region) : Prop := rok r /\ fOpLevel r = 0.

(** [k] lies within [l]. *)
Definition sub (k l : list rect) : Prop := forall x y, pts k x y -> pts l x y.
Definition dis (k l : list rect) : Prop := forall x y, pts k x y -> pts l x y -> False.

Lemma sub_trans a b c : sub a b -> sub b c -> sub a c.
Proof. intros H1 H2 x y H. auto. Qed.
Lemma dis_sub a b a' b' : dis a b -> sub a' a -> sub b' b -> dis a' b'.
Proof. intros H Ha Hb x y H1 H2. eapply H; eauto. Qed.
Lemma dis_sym a b : dis a b -> dis b a.
Proof. intros H x y H1 H2. eauto. Qed.
Lemma sub_nil l : sub [] l.
Proof. intros x y H. by apply pts_nil in H. Qed.

Lemma gr_empty : gr empty.
Proof. split; [apply empty_rok|done]. Qed.

Lemma SetTo_gr r c : gr r -> gr c -> fine (fun r' => gr r' /\ fRects r' = fRects c) (SetTo in_place r c).
Proof.
  intros [Hr Ho] [Hc _]. destruct (SetTo_ok in_place r c (ro_alloc _ Hr)) as (r' & -> & E & Ha & Eo). simpl. split; [|done].
  split; [split; rewrite ?E; [apply Hc|apply Hc|done]|congruence].
Qed.

Lemma copy_gr c : gr c -> fine (fun r' => gr r' /\ fRects r' = fRects c) (copy in_place c).
Proof. apply SetTo_gr, gr_empty. Qed.

Lemma ends_fine r Q res : ends in_place r Q res -> fOpLevel r = 0 -> fine (fun r' => gr r' /\ Q (fRects r')) res.
Proof. destruct res; simpl; [|done|done]. intros (H1 & H2 & H3) H. split; [split; [done|congruence]|done]. Qed.

Lemma Intersect_gr r o : gr r -> gr o -> fine (fun r' => gr r' /\ sub (fRects r') (fRects r) /\ sub (fRects r') (fRects o)) (Intersect in_place r o).
Proof.
  intros [Hr Ho] [Hq _]. eapply fine_impl; [eapply ends_fine; [apply Intersect_ok; [done|done|lia]|done]|].
  intros r' [H1 H2]. split; [done|]. split; intros x y Hp; by apply H2 in Hp as [? ?].
Qed.

Lemma Invert_gr r : gr r -> fine gr (Invert in_place r).
Proof. intros [Hr Ho]. eapply fine_impl; [eapply ends_fine; [apply Invert_ok; [done|lia]|done]|]. intros r' [H1 _]. done. Qed.

Lemma IncludeRegion_gr r o : gr r -> gr o -> fine gr (IncludeRegion in_place r o).
Proof. intros [Hr Ho] [Hq _]. eapply fine_impl; [eapply ends_fine; [apply IncludeRegion_ok; [done|done|lia]|done]|]. intros r' [H1 _]. done. Qed.

Lemma ConstrainTo_gr r x : gr r -> fine (fun r' => gr r' /\ sub (fRects r') (fRects r) /\ sub (fRects r') [x]) (ConstrainTo in_place r x).
Proof.
  intros [Hr Ho]. destruct (ConstrainTo_ok in_place r x Hr) as (r' & -> & H1 & H2 & H3); [lia|]. simpl. split; [split; [done|congruence]|].
  split; intros p q Hp; apply H3 in Hp as [H4 H5]; [done|]. apply pts_cons. by left.
Qed.

Lemma Exclude_gr r e : gr r -> inner e -> fine (fun r' => gr r' /\ sub (fRects r') (fRects r) /\ dis (fRects r') [e]) (Exclude in_place r e).
Proof.
  intros [Hr Ho] He. eapply fine_impl; [eapply ends_fine; [apply Exclude_ok; [done|done|lia]|done]|].
  intros r' [H1 H2]. split; [done|]. split; intros x y Hp; apply H2, left_of_sub in Hp as [H3 H4]; [done|].
  intros [H|H]%pts_cons; [done|by apply pts_nil in H].
Qed.

End outcome.

(** ** Worlds that differ in regions only *)

Definition skel (v : window) :=
  (fNextSibling v, fChildList v, fParent v, fFrame v, gc_renderer (fGC v)).

Record same (X : list nat) (s s' : world) : Prop := {
  sm_bounds : bounds s' = bounds s;
  sm_other : forall x, x ∉ X -> wins s' !! x = wins s !! x;
  sm_skel : forall x, skel <$> wins s' !! x = skel <$> wins s !! x
}.

Lemma same_refl X s : same X s s.
Proof. done. Qed.
Lemma same_trans X s1 s2 s3 : same X s1 s2 -> same X s2 s3 -> same X s1 s3.
Proof. intros [A1 A2 A3] [B1 B2 B3]. split; [congruence| |]; intros x; [intros Hx; by rewrite B2, A2|by rewrite B3, A3]. Qed.
Lemma same_weaken X Y s s' : same X s s' -> X ⊆ Y -> same Y s s'.
Proof. intros [A1 A2 A3] H. split; [done| |done]. intros x Hx. apply A2. set_solver. Qed.
Lemma same_win s w v v' : wins s !! w = Some v -> skel v' = skel v -> same [w] s (put s w v').
Proof.
  intros Hv E. split; [done| |]; simpl; intros x.
  - intros Hx. apply lookup_insert_ne. set_solver.
  - destruct (decide (w = x)) as [<-|Hne]; [by rewrite lookup_insert_eq, Hv; simpl; rewrite E|by rewrite lookup_insert_ne].
Qed.
Lemma same_render s l X : same X s (render s l).
Proof. done. Qed.
Lemma same_post s i X : same X s (post s i).
Proof. done. Qed.

Lemma same_size X s s' : same X s s' -> size (wins s') = size (wins s).
Proof.
  intros [_ _ H]. rewrite <- !size_dom. f_equal. apply set_eq. intros x. rewrite !elem_of_dom. specialize (H x).
  split; intros [v Hv]; rewrite Hv in H; [destruct (wins s !! x)|destruct (wins s' !! x)]; done.
Qed.

Lemma same_get X s s' x v : same X s s' -> wins s !! x = Some v -> exists v', wins s' !! x = Some v' /\ skel v' = skel v.
Proof. intros H Hv. pose proof (sm_skel _ _ _ H x) as E. rewrite Hv in E. destruct (wins s' !! x) as [v'|]; [|done]. exists v'. split; [done|]. by apply (inj Some) in E. Qed.

Lemma same_offset X s s' sign : same X s s' -> forall fuel w r, offset_up s' sign w r fuel = offset_up s sign w r fuel.
Proof.
  intros H. induction fuel as [|fuel IH]; intros [w|] r; simpl; try done. unfold get. pose proof (sm_skel _ _ _ H w) as E.
  destruct (wins s' !! w) as [v'|], (wins s !! w) as [v|]; try done. unfold skel in E. simpl in *. injection E as _ _ E1 E2 _. rewrite E1, E2. apply IH.
Qed.

Lemma same_LocalToScreen X s s' w r : same X s s' -> LocalToScreen s' w r = LocalToScreen s w r.
Proof. intros H. unfold LocalToScreen. rewrite (same_size _ _ _ H). by eapply same_offset. Qed.

(** ** Trees of windows *)

Inductive tree := Node (w : nat) (ts : list tree).
Definition root (t : tree) : nat := match t with Node w _ => w end.
Definition kids (t : tree) : list tree := match t with Node _ ts => ts end.
Fixpoint ids (t : tree) : list nat := match t with Node w ts => w :: (ts ≫= ids) end.

Lemma tree_ind' (P : tree -> Prop) : (forall w ts, Forall P ts -> P (Node w ts)) -> forall t, P t.
Proof.
  intros H. fix IH 1. intros [w ts]. apply H. induction ts as [|t ts IHts]; constructor; [apply IH|exact IHts].
Qed.

Lemma root_ids t : root t ∈ ids t.
Proof. destruct t. by left. Qed.

(** The children of a window, linked from front to back. *)
Fixpoint linked (s : world) (ts : list tree) : Prop :=
  match ts with
  | [] => True
  | t :: ts => (exists v, wins s !! root t = Some v /\ fNextSibling v = head (map root ts)) /\ linked s ts
  end.

(** The tree as it is in the heap; its windows have a renderer. *)
Fixpoint shaped (s : world) (pa : option nat) (t : tree) : Prop :=
  match t with
  | Node w ts =>
      (exists v, wins s !! w = Some v /\ fParent v = pa /\ fChildList v = head (map root ts) /\ gc_renderer (fGC v) = true) /\
      linked s ts /\ (fix all l := match l with [] => True | t :: l => shaped s (Some w) t /\ all l end) ts
  end.

Lemma shaped_node s pa w ts : shaped s pa (Node w ts) <->
  (exists v, wins s !! w = Some v /\ fParent v = pa /\ fChildList v = head (map root ts) /\ gc_renderer (fGC v) = true) /\
  linked s ts /\ Forall (shaped s (Some w)) ts.
Proof.
  simpl. assert (forall l, (fix all l := match l with [] => True | t :: l => shaped s (Some w) t /\ all l end) l <-> Forall (shaped s (Some w)) l) as ->.
  { induction l as [|t l IH]; [done|]. rewrite Forall_cons, <- IH. done. }
  done.
Qed.

(** The windows have a place on the screen, away from the ends of the integers. *)
Record placed (s : world) (X : list nat) : Prop := {
  pl_located : forall w r, w ∈ X -> exists r', LocalToScreen s w r = Ok r';
  pl_inner : forall c v w r, c ∈ X -> wins s !! c = Some v -> fParent v = Some w -> LocalToScreen s w (fFrame v) = Ok r -> inner r
}.

(** Only regions differ, so the shape is the same. *)
Lemma linked_same X s s' ts : same X s s' -> linked s ts -> linked s' ts.
Proof.
  intros H. induction ts as [|t ts IH]; [done|]. intros [(v & Hv & En) Hl]. split; [|auto].
  destruct (same_get _ _ _ _ _ H Hv) as (v' & Hv' & E). exists v'. split; [done|]. unfold skel in E. injection E as E1 _ _ _ _. congruence.
Qed.

Lemma shaped_same X s s' t : same X s s' -> forall pa, shaped s pa t -> shaped s' pa t.
Proof.
  intros H. induction t as [w ts IH] using tree_ind'. intros pa. rewrite !shaped_node. intros ((v & Hv & E1 & E2 & E3) & Hl & Hts). split_and!.
  - destruct (same_get _ _ _ _ _ H Hv) as (v' & Hv' & E). exists v'. split; [done|]. unfold skel in E. injection E as _ F1 F2 _ F3. split_and!; congruence.
  - by eapply linked_same.
  - rewrite Forall_forall in *. intros t Ht. apply IH; auto.
Qed.

Lemma placed_same X s s' Y : same X s s' -> placed s Y -> placed s' Y.
Proof.
  intros H [H1 H2]. split.
  - intros w r Hw. rewrite (same_LocalToScreen _ _ _ w r H). auto.
  - intros c v' w r Hc Hv' Ep E. rewrite (same_LocalToScreen _ _ _ _ _ H) in E. pose proof (sm_skel _ _ _ H c) as Es. rewrite Hv' in Es.
    destruct (wins s !! c) as [u|] eqn:Eu; [|done]. unfold skel in Es. simpl in Es. injection Es as _ _ F1 F2 _. rewrite F2 in E. rewrite F1 in Ep. by eapply H2.
Qed.

Lemma placed_sub s X Y : placed s X -> Y ⊆ X -> placed s Y.
Proof. intros [H1 H2] H. split; [intros w r Hw; apply H1; by apply H|intros c v w r Hc; apply (H2 c); by apply H]. Qed.

(** ** The layout *)

Record good_win (v : window) : Prop := {
  gw_invalid : gr (fInvalidRegion v);
  gw_redraw : gr (fCurrentRedrawRegion v);
  gw_visible : gr (fVisibleRegion v);
  gw_clip : gr (fClipRegion v);
  gw_gc : gr (gc_clip (fGC v))
}.

Definition ready (s : world) (X : list nat) : Prop := forall x v, x ∈ X -> wins s !! x = Some v -> good_win v.

Definition vis (s : world) (w : nat) : list rect := match wins s !! w with Some v => fRects (fVisibleRegion v) | None => [] end.
Definition clp (s : world) (w : nat) : list rect := match wins s !! w with Some v => fRects (fClipRegion v) | None => [] end.
Definition gcc (s : world) (w : nat) : list rect := match wins s !! w with Some v => fRects (gc_clip (fGC v)) | None => [] end.

(** The visible regions of the children are parts of [l] and disjoint. *)
Fixpoint tiled (s : world) (l : list rect) (ts : list tree) : Prop :=
  match ts with
  | [] => True
  | t :: ts => sub (vis s (root t)) l /\ (forall u, u ∈ ts -> dis (vis s (root t)) (vis s (root u))) /\ tiled s l ts
  end.

Fixpoint laid (s : world) (t : tree) : Prop :=
  match t with
  | Node w ts =>
      sub (clp s w) (vis s w) /\ sub (gcc s w) (clp s w) /\ tiled s (vis s w) ts /\
      (forall u, u ∈ ts -> dis (clp s w) (vis s (root u))) /\
      (fix all l := match l with [] => True | t :: l => laid s t /\ all l end) ts
  end.

Lemma laid_node s w ts : laid s (Node w ts) <->
  sub (clp s w) (vis s w) /\ sub (gcc s w) (clp s w) /\ tiled s (vis s w) ts /\ (forall u, u ∈ ts -> dis (clp s w) (vis s (root u))) /\ Forall (laid s) ts.
Proof.
  simpl. assert (forall l, (fix all l := match l with [] => True | t :: l => laid s t /\ all l end) l <-> Forall (laid s) l) as ->.
  { induction l as [|t l IH]; [done|]. rewrite Forall_cons, <- IH. done. }
  done.
Qed.

Lemma vis_eq s s' w : wins s' !! w = wins s !! w -> vis s' w = vis s w /\ clp s' w = clp s w /\ gcc s' w = gcc s w.
Proof. unfold vis, clp, gcc. by intros ->. Qed.

Lemma tiled_eq s s' l ts : (forall t, t ∈ ts -> wins s' !! root t = wins s !! root t) -> tiled s l ts -> tiled s' l ts.
Proof.
  induction ts as [|t ts IH]; intros H; [done|]. intros (H1 & H2 & H3). simpl.
  rewrite (proj1 (vis_eq _ _ _ (H t ltac:(left)))). split_and!; [done| |apply IH; [|done]; intros u Hu; apply H; by right].
  intros u Hu. rewrite (proj1 (vis_eq s s' (root u) (H u ltac:(by right)))). auto.
Qed.

(** The layout of a tree depends on its windows only. *)
Lemma laid_eq s s' t : (forall x, x ∈ ids t -> wins s' !! x = wins s !! x) -> laid s t -> laid s' t.
Proof.
  induction t as [w ts IH] using tree_ind'. intros H. rewrite !laid_node.
  assert (forall t, t ∈ ts -> forall x, x ∈ ids t -> wins s' !! x = wins s !! x) as Hts.
  { intros t Ht x Hx. apply H. simpl. right. apply list_elem_of_bind. eauto. }
  destruct (vis_eq s s' w (H w (root_ids (Node w ts)))) as (-> & -> & ->).
  intros (H1 & H2 & H3 & H4 & H5). split_and!; [done|done| | |].
  - eapply tiled_eq; [|done]. intros t Ht. apply (Hts t Ht), root_ids.
  - intros u Hu. destruct (vis_eq s s' (root u)) as (-> & _); [apply (Hts u Hu), root_ids|]. auto.
  - rewrite Forall_forall in *. intros t Ht. apply IH; [done|by apply Hts|auto].
Qed.

(** ** One window *)

Section update.
Context (in_place : Z -> Z -> bool).
Abbreviation fine := (fine in_place).

Lemma get_fine s w v : wins s !! w = Some v -> get s w = Ok v.
Proof. intros H. unfold get. by rewrite H. Qed.

Lemma put_lookup s w v : wins (put s w v) !! w = Some v.
Proof. apply lookup_insert_eq. Qed.

(** SetClipRegion of the graphics context. *)
Lemma gc_set_clip_ok s w v r : wins s !! w = Some v -> good_win v -> gc_renderer (fGC v) = true -> gr r ->
  fine (fun s' => same [w] s s' /\ exists g, wins s' !! w = Some (set_gc g v) /\ gr (gc_clip g) /\ sub (fRects (gc_clip g)) (fRects r) /\ gc_renderer g = true) (gc_set_clip in_place s w r).
Proof.
  intros Hv Hg Hr Hgr. unfold gc_set_clip. rewrite (get_fine _ _ _ Hv). cbn [cbind]. unfold SetClipRegion.
  eapply fine_bind; [|intros g Hgd; cbn [WinProof.fine]].
  - eapply fine_bind; [by apply SetTo_gr; [apply Hg|]|]. intros c [Hc Ec]. rewrite Hr.
    eapply fine_bind; [by apply ConstrainTo_gr|]. intros d (Hd & Hsub & _). cbn [WinProof.fine].
    refine (_ : (fun g => gr (gc_clip g) /\ sub (fRects (gc_clip g)) (fRects r) /\ gc_renderer g = true) _). simpl. rewrite <- Ec. done.
  - split; [|exists g; by rewrite put_lookup]. apply same_win with v; [done|]. unfold skel. simpl. destruct Hgd as (_ & _ & ->). by rewrite Hr.
Qed.

(** Invalidate of a region: only the invalid region and the flag change. *)
Lemma InvalidateRegion_ok s w v r : wins s !! w = Some v -> good_win v -> gc_renderer (fGC v) = true -> gr r ->
  fine (fun s' => same [w] s s' /\ exists v', wins s' !! w = Some v' /\ good_win v' /\ fVisibleRegion v' = fVisibleRegion v /\ fClipRegion v' = fClipRegion v /\ fGC v' = fGC v)
    (InvalidateRegion in_place s w r).
Proof.
  intros Hv Hg Hr Hgr. unfold InvalidateRegion. rewrite (get_fine _ _ _ Hv). cbn [cbind]. rewrite Hr. cbn [negb andb].
  eapply fine_bind; [apply IncludeRegion_gr; [apply Hg|done]|]. intros i Hi. unfold paint_message.
  rewrite (get_fine _ _ _ (put_lookup _ _ _)). cbn [cbind].
  assert (same [w] s (put (render s (erase r (fColor v))) w (set_invalid i v))) as Hs by (eapply same_trans; [apply (same_render s)|by apply same_win with v]).
  destruct (fPaintMsgSent (set_invalid i v)); cbn [WinProof.fine].
  - split; [done|]. eexists. split; [apply put_lookup|]. split_and!; [by destruct Hg; split|done..].
  - split; [|eexists; split; [apply put_lookup|]; split_and!; [by destruct Hg; split|done..]].
    eapply same_trans; [exact Hs|]. eapply same_trans; [apply (same_post _ (fID (set_invalid i v)))|]. eapply same_win; [apply put_lookup|done].
Qed.

(** The end of UpdateClipRegion. *)
Lemma finish_clip_ok s w v newClip frame : wins s !! w = Some v -> good_win v -> gc_renderer (fGC v) = true -> gr newClip ->
  fine (fun s' => same [w] s s' /\ exists v', wins s' !! w = Some v' /\ good_win v' /\ fRects (fVisibleRegion v') = fRects (fVisibleRegion v) /\
          fRects (fClipRegion v') = fRects newClip /\ sub (fRects (gc_clip (fGC v'))) (fRects (fClipRegion v'))) (finish_clip in_place s w newClip frame).
Proof.
  intros Hv Hg Hr Hn. unfold finish_clip. rewrite (get_fine _ _ _ Hv). cbn [cbind].
  eapply fine_bind; [apply copy_gr, Hg|]. intros e1 [He1 _]. eapply fine_bind; [by apply Invert_gr|]. intros e2 He2.
  eapply fine_bind; [by apply Intersect_gr|]. intros e3 (He3 & _).
  eapply (fine_bind _ (fun s' => same [w] s s' /\ exists v', wins s' !! w = Some v' /\ good_win v' /\ fVisibleRegion v' = fVisibleRegion v /\ gc_renderer (fGC v') = true)).
  { destruct (RegionValid e3); [|by cbn [WinProof.fine]; eauto 10 using same_refl].
    eapply fine_impl; [by apply (InvalidateRegion_ok s w v)|]. intros s1 (Hs1 & v1 & Hv1 & Hg1 & E1 & E2 & E3). split; [done|]. exists v1. rewrite E3. done. }
  intros s1 (Hs1 & v1 & Hv1 & Hg1 & E1 & Hr1). rewrite (get_fine _ _ _ Hv1). cbn [cbind].
  eapply fine_bind; [by apply SetTo_gr; [apply Hg1|]|]. intros c [Hc Ec]. cbv zeta.
  eapply fine_bind; [apply (gc_set_clip_ok _ w (set_clip c v1) c); [apply put_lookup|by destruct Hg1; split|done|done]|].
  intros s2 (Hs2 & g & Hv2 & Hgg & Hsub & Hgr). unfold modify. rewrite (get_fine _ _ _ Hv2). cbn [cbind WinProof.fine]. split.
  - eapply same_trans; [exact Hs1|]. eapply same_trans; [apply (same_win s1 w v1 (set_clip c v1)); done|]. eapply same_trans; [exact Hs2|]. eapply same_win; [exact Hv2|done].
  - eexists. split; [apply put_lookup|]. cbn [fVisibleRegion fClipRegion fGC set_gc set_clip set_regions SetOrigin gc_clip]. split_and!; [|by rewrite E1|done|done].
    destruct Hg1. split; done.
Qed.

(** ** The tree *)

(** What UpdateClipRegion does to the tree [t]. *)
Definition updated (s : world) (t : tree) (res : cres world) : Prop :=
  fine (fun s' => same (ids t) s s' /\ ready s' (ids t) /\ laid s' t /\ vis s' (root t) = vis s (root t)) res.

Definition updates (update : nat -> world -> cres world) (t : tree) : Prop :=
  forall s pa, shaped s pa t -> placed s (ids t) -> NoDup (ids t) -> ready s (ids t) -> updated s t (update (root t) s).

Lemma ready_same X s s' Y : same X s s' -> ready s Y -> (forall x, x ∈ X -> x ∉ Y) -> ready s' Y.
Proof. intros Hs Hr Hd x v Hx Hv. rewrite (sm_other _ _ _ Hs) in Hv; [by eapply Hr|]. intros H. by apply (Hd x H). Qed.

Lemma shaped_root s pa t : shaped s pa t -> exists v, wins s !! root t = Some v /\ gc_renderer (fGC v) = true.
Proof. destruct t. rewrite shaped_node. intros ((v & Hv & _ & _ & Hr) & _). eauto. Qed.

Lemma ids_sub w ts t x : t ∈ ts -> x ∈ ids t -> x ∈ ids (Node w ts).
Proof. intros Ht Hx. simpl. right. apply list_elem_of_bind. eauto. Qed.

(** SetVisibleRegion of the root of a tree: the layout has the new visible region. *)
Lemma set_visible_region_ok update t s pa r : updates update t -> shaped s pa t -> placed s (ids t) -> NoDup (ids t) -> ready s (ids t) -> gr r ->
  fine (fun s' => same (ids t) s s' /\ ready s' (ids t) /\ laid s' t /\ vis s' (root t) = fRects r) (set_visible_region in_place update (root t) r s).
Proof.
  intros Hu Hsh Hpl Hnd Hrd Hr. destruct (shaped_root _ _ _ Hsh) as (v & Hv & Hrend). pose proof (Hrd _ _ (root_ids t) Hv) as Hg.
  unfold set_visible_region. rewrite (get_fine _ _ _ Hv). cbn [cbind]. eapply fine_bind; [by apply SetTo_gr; [apply Hg|]|]. intros c [Hc Ec].
  set (s1 := put s (root t) (set_visible c v)).
  assert (same [root t] s s1) as Hs1 by (by apply same_win with v).
  assert (same (ids t) s s1) as Hs1' by (eapply same_weaken; [exact Hs1|]; intros x ->%list_elem_of_singleton; apply root_ids).
  eapply fine_bind; [apply (Hu s1 pa); [by eapply shaped_same|by eapply placed_same|done|]|].
  { intros x u Hx Hxu. destruct (decide (x = root t)) as [->|Hne]; [|rewrite (sm_other _ _ _ Hs1) in Hxu by set_solver; by eapply Hrd].
    unfold s1 in Hxu. rewrite put_lookup in Hxu. injection Hxu as <-. destruct Hg. by split. }
  intros s2 (Hs2 & Hrd2 & Hl2 & Ev2). pose proof (same_trans _ _ _ _ Hs1' Hs2) as Hs02.
  destruct (same_get _ _ _ _ _ Hs02 Hv) as (v2 & Hv2 & Esk). pose proof (Hrd2 _ _ (root_ids t) Hv2) as Hg2.
  assert (gc_renderer (fGC v2) = true) as Hrend2 by (unfold skel in Esk; injection Esk as _ _ _ _ E; congruence).
  rewrite (get_fine _ _ _ Hv2). cbn [cbind].
  assert (forall k, gr k -> sub (fRects k) (fRects (fClipRegion v2)) ->
    fine (fun s' => same (ids t) s s' /\ ready s' (ids t) /\ laid s' t /\ vis s' (root t) = fRects r) (gc_set_clip in_place s2 (root t) k)) as Hk.
  { intros k Hk Hsub. eapply fine_impl; [by apply (gc_set_clip_ok s2 (root t) v2 k)|].
    intros s3 (Hs3 & g & Hv3 & Hgg & Hgs & Hgr).
    assert (forall x, x <> root t -> wins s3 !! x = wins s2 !! x) as Hoth by (intros x Hx; apply (sm_other _ _ _ Hs3); set_solver).
    split_and!.
    - eapply same_trans; [exact Hs02|]. eapply same_weaken; [exact Hs3|]. intros x ->%list_elem_of_singleton. apply root_ids.
    - intros x u Hx Hxu. destruct (decide (x = root t)) as [->|Hne]; [|rewrite Hoth in Hxu by done; by eapply Hrd2].
      rewrite Hv3 in Hxu. injection Hxu as <-. destruct Hg2. by split.
    - destruct t as [w ts]. simpl root in *. apply laid_node in Hl2 as (L1 & L2 & L3 & L4 & L5). apply laid_node.
      assert (vis s3 w = vis s2 w /\ clp s3 w = clp s2 w) as [-> ->] by (unfold vis, clp; by rewrite Hv3, Hv2).
      assert (forall u x, u ∈ ts -> x ∈ ids u -> wins s3 !! x = wins s2 !! x) as Hkids.
      { intros u x Hu' Hx. apply Hoth. intros ->. simpl in Hnd. apply NoDup_cons in Hnd as [Hnd _]. apply Hnd, list_elem_of_bind. eauto. }
      split_and!; [done| | | |].
      + unfold gcc, clp. rewrite Hv3, Hv2. simpl. eapply sub_trans; [exact Hgs|exact Hsub].
      + eapply tiled_eq; [|done]. intros u Hu'. apply (Hkids u); [done|apply root_ids].
      + intros u Hu'. destruct (vis_eq s2 s3 (root u)) as (-> & _); [apply (Hkids u); [done|apply root_ids]|]. auto.
      + rewrite Forall_forall in *. intros u Hu'. eapply laid_eq; [|by apply L5]. intros x Hx. by apply (Hkids u).
    - unfold vis. rewrite Hv3. simpl. unfold vis in Ev2. rewrite Hv2 in Ev2. rewrite Ev2. unfold s1. rewrite put_lookup. done. }
  destruct (fInRedraw v2); [|apply Hk; [apply Hg2|by intros x y]].
  eapply fine_bind; [apply copy_gr, Hg2|]. intros d1 [Hd1 _]. eapply fine_bind; [by apply Intersect_gr; [|apply Hg2]|]. intros d2 (Hd2 & _ & Hsub). by apply Hk.
Qed.

(** The windows below [w], given that the windows below each child can be updated. *)
Lemma clip_children_ok update w : forall ts fuel s nc, Forall (updates update) ts -> linked s ts -> Forall (shaped s (Some w)) ts ->
  (forall r, exists r', LocalToScreen s w r = Ok r') ->
  placed s (ts ≫= ids) -> NoDup (ts ≫= ids) -> ready s (ts ≫= ids) -> gr nc -> (length ts < fuel)%nat ->
  fine (fun res => gr res.1 /\ sub (fRects res.1) (fRects nc) /\ same (ts ≫= ids) s res.2 /\ ready res.2 (ts ≫= ids) /\ tiled res.2 (fRects nc) ts /\
      (forall u, u ∈ ts -> dis (fRects res.1) (vis res.2 (root u))) /\ Forall (laid res.2) ts)
    (clip_children in_place (set_visible_region in_place update) w (head (map root ts)) nc s fuel).
Proof.
  induction ts as [|t ts IH]; intros fuel s nc Hu Hl Hsh Hloc Hpl Hnd Hrd Hnc Hf; (destruct fuel as [|fuel]; [lia|]); cbn [clip_children map head].
  { cbn [WinProof.fine fst snd]. split_and!; [done|by intros x y|apply same_refl|done|done|intros u Hu'; by apply elem_of_nil in Hu'|done]. }
  apply Forall_cons in Hu as [Hut Hu]. apply Forall_cons in Hsh as [Hsht Hsh]. destruct Hl as [(v & Hv & Enext) Hl]. simpl length in Hf.
  rewrite bind_cons in Hnd, Hrd, Hpl. apply NoDup_app in Hnd as (Hndt & Hdisj & Hnd). rewrite (get_fine _ _ _ Hv). cbn [cbind].
  assert (forall s1 k nc1, same (ids t) s s1 -> ready s1 (ids t) -> laid s1 t -> vis s1 (root t) = fRects k -> sub (fRects k) (fRects nc) ->
    gr nc1 -> sub (fRects nc1) (fRects nc) -> dis (fRects nc1) (fRects k) ->
    fine (fun res => gr res.1 /\ sub (fRects res.1) (fRects nc) /\ same (ids t ++ (ts ≫= ids)) s res.2 /\ ready res.2 (ids t ++ (ts ≫= ids)) /\
        tiled res.2 (fRects nc) (t :: ts) /\ (forall u, u ∈ t :: ts -> dis (fRects res.1) (vis res.2 (root u))) /\ Forall (laid res.2) (t :: ts))
      (let! v := get s1 (root t) in clip_children in_place (set_visible_region in_place update) w (fNextSibling v) nc1 s1 fuel)) as Hgo.
  { intros s1 k nc1 Hs1 Hrd1 Hl1 Ev1 Hk Hn1 Hsn Hdn. destruct (same_get _ _ _ _ _ Hs1 Hv) as (v1 & Hv1 & Esk). rewrite (get_fine _ _ _ Hv1). cbn [cbind].
    assert (fNextSibling v1 = head (map root ts)) as -> by (unfold skel in Esk; injection Esk as E _ _ _ _; congruence).
    eapply fine_impl; [apply IH; [done|by eapply linked_same| | | |done| |done|lia]|].
    - eapply Forall_impl; [exact Hsh|]. intros u. apply (shaped_same _ _ _ u Hs1).
    - intros r. rewrite (same_LocalToScreen _ _ _ _ _ Hs1). apply Hloc.
    - eapply placed_same; [exact Hs1|]. eapply placed_sub; [exact Hpl|set_solver].
    - eapply ready_same; [exact Hs1| |]; [intros x u Hx; apply Hrd; apply elem_of_app; by right|exact Hdisj].
    - intros [nc2 s2]. cbn [fst snd]. intros (Hn2 & Hsub2 & Hs2 & Hrd2 & Htl & Hdis2 & Hlaid2).
      assert (forall x, x ∈ ids t -> wins s2 !! x = wins s1 !! x) as Hkeep by (intros x Hx; apply (sm_other _ _ _ Hs2); by apply Hdisj).
      assert (vis s2 (root t) = fRects k) as Ev2 by (rewrite (proj1 (vis_eq _ _ _ (Hkeep _ (root_ids t)))); done).
      assert (forall u, u ∈ ts -> sub (vis s2 (root u)) (fRects nc1)) as Hus.
      { intros u Hu'. clear -Htl Hu'. induction ts as [|t' ts IH]; [by apply elem_of_nil in Hu'|]. destruct Htl as (H1 & _ & H3). apply elem_of_cons in Hu' as [->|Hu']; auto. }
      split_and!; [done|by eapply sub_trans| | | | |].
      + eapply same_trans; [eapply same_weaken; [exact Hs1|set_solver]|eapply same_weaken; [exact Hs2|set_solver]].
      + intros x u [Hx|Hx]%elem_of_app Hxu; [rewrite Hkeep in Hxu by done; by eapply Hrd1|by eapply Hrd2].
      + simpl. rewrite Ev2. split_and!; [done| |].
        * intros u Hu'. apply dis_sym. eapply dis_sub; [exact Hdn|by apply Hus|by intros x y].
        * clear -Htl Hsn. induction ts as [|t' ts IH]; [done|]. destruct Htl as (H1 & H2 & H3). split_and!; [by eapply sub_trans|done|auto].
      + intros u [->|Hu']%elem_of_cons; [rewrite Ev2; by eapply dis_sub; [exact Hdn|exact Hsub2|by intros x y]|by apply Hdis2].
      + constructor; [|done]. by eapply laid_eq; [exact Hkeep|]. }
  destruct (fIsVisible v).
  - eapply fine_bind; [by apply copy_gr|]. intros k0 [Hk0 Ek0]. destruct (Hloc (fFrame v)) as [fr Efr]. rewrite Efr. cbn [cbind].
    assert (inner fr) as Hfr.
    { destruct t as [c us]. apply shaped_node in Hsht as ((u & Hu' & Ep & _) & _). simpl in Hv. rewrite Hv in Hu'. injection Hu' as <-.
      eapply (pl_inner _ _ Hpl c); [apply elem_of_app; left; by left|done|done|done]. }
    assert (placed s (ids t)) as Hplt by (eapply placed_sub; [exact Hpl|set_solver]).
    eapply fine_bind; [by apply ConstrainTo_gr|]. intros k (Hk & Hk1 & Hk2).
    eapply fine_bind; [apply (set_visible_region_ok update t s (Some w) k); try done; intros x u Hx; apply Hrd, elem_of_app; by left|].
    intros s1 (Hs1 & Hrd1 & Hl1 & Ev1). eapply fine_bind; [by apply (Exclude_gr in_place nc fr)|]. intros nc1 (Hn1 & Hsn & Hdn).
    apply (Hgo s1 k nc1); try done; [by rewrite <- Ek0|]. by eapply dis_sub; [exact Hdn|by intros x y|].
  - assert (placed s (ids t)) as Hplt by (eapply placed_sub; [exact Hpl|set_solver]).
    eapply fine_bind; [apply (set_visible_region_ok update t s (Some w) empty); try done; intros x u Hx; apply Hrd, elem_of_app; by left|].
    intros s1 (Hs1 & Hrd1 & Hl1 & Ev1). apply (Hgo s1 empty nc); try done; [apply sub_nil|by intros x y|]. intros x y _ H. by apply pts_nil in H.
Qed.

Lemma shaped_dom s t : forall pa, shaped s pa t -> forall x, x ∈ ids t -> x ∈ dom (wins s).
Proof.
  induction t as [w ts IH] using tree_ind'. intros pa. rewrite shaped_node. intros ((v & Hv & _) & _ & Hts) x. simpl.
  intros [->|(t & Hx & Ht)%list_elem_of_bind]%elem_of_cons; [apply elem_of_dom; eauto|]. rewrite Forall_forall in IH, Hts. eapply IH; eauto.
Qed.

Lemma ids_bound (X : list nat) (s : world) : NoDup X -> (forall x, x ∈ X -> x ∈ dom (wins s)) -> (length X <= size (wins s))%nat.
Proof.
  intros Hnd H. rewrite <- size_dom. rewrite <- (size_list_to_set (C := gset nat) X Hnd). apply subseteq_size. intros x Hx. apply H. by apply elem_of_list_to_set in Hx.
Qed.

Lemma length_kids ts : (length ts <= length (ts ≫= ids))%nat.
Proof. induction ts as [|t ts IH]; [done|]. rewrite bind_cons, length_app. destruct t. simpl in *. lia. Qed.

Lemma length_kid t ts : t ∈ ts -> (length (ids t) <= length (ts ≫= ids))%nat.
Proof.
  induction ts as [|u ts IH]; intros H; [by apply elem_of_nil in H|]. rewrite bind_cons, length_app. apply elem_of_cons in H as [->|H]; [lia|]. specialize (IH H). lia.
Qed.

Lemma update_clip_ok t : forall fuel, (length (ids t) <= fuel)%nat -> updates (update_clip in_place fuel) t.
Proof.
  induction t as [w ts IH] using tree_ind'. intros fuel Hfuel s pa Hsh Hpl Hnd Hrd. cbn [ids length] in Hfuel. destruct fuel as [|fuel]; [lia|].
  pose proof Hsh as Hsh0. apply shaped_node in Hsh as ((v & Hv & _ & Echild & Hrend) & Hlk & Hts). cbn [root update_clip].
  assert (forall r, exists r', LocalToScreen s w r = Ok r') as Hloc by (intros r; apply (pl_located _ _ Hpl); by left).
  rewrite (get_fine _ _ _ Hv). cbn [cbind]. pose proof (Hrd w v (root_ids (Node w ts)) Hv) as Hg.
  pose proof Hnd as Hnd0. simpl in Hnd. apply NoDup_cons in Hnd as [Hwn Hnd]. unfold updated.
  eapply fine_bind; [apply copy_gr, Hg|]. intros nc [Hnc Enc]. destruct (Hloc (WindowBounds v)) as [fr ->]. cbn [cbind]. rewrite Echild.
  assert (length ts < S (size (wins s)))%nat as Hsz.
  { pose proof (length_kids ts). assert (length (ts ≫= ids) <= size (wins s))%nat; [|lia]. apply ids_bound; [done|].
    intros x Hx. eapply shaped_dom; [exact Hsh0|]. simpl. by right. }
  eapply fine_bind; [apply (clip_children_ok (update_clip in_place fuel) w ts _ s nc); try done|].
  - rewrite Forall_forall in *. intros t Ht. apply IH; [done|]. pose proof (length_kid t ts Ht). lia.
  - eapply placed_sub; [exact Hpl|]. simpl. set_solver.
  - intros x u Hx. apply Hrd. simpl. by right.
  - intros [nc1 s1]. cbn [fst snd]. intros (Hn1 & Hsn & Hs1 & Hrd1 & Htl & Hdis & Hlaid).
    assert (wins s1 !! w = Some v) as Hv1 by (rewrite (sm_other _ _ _ Hs1); done).
    eapply fine_impl; [by apply (finish_clip_ok s1 w v nc1 fr)|]. intros s2 (Hs2 & v2 & Hv2 & Hg2 & Ev2 & Ec2 & Hgc2).
    assert (forall u x, u ∈ ts -> x ∈ ids u -> wins s2 !! x = wins s1 !! x) as Hkeep.
    { intros u x Hu Hx. apply (sm_other _ _ _ Hs2). intros ->%list_elem_of_singleton. apply Hwn, list_elem_of_bind. eauto. }
    assert (vis s2 w = vis s w) as Evis by (unfold vis; rewrite Hv2, Hv; done).
    split_and!; [| | |done].
    + eapply same_trans; [eapply same_weaken; [exact Hs1|]|eapply same_weaken; [exact Hs2|]]; simpl; set_solver.
    + intros x u. simpl. intros [->|Hx]%elem_of_cons Hxu; [congruence|]. pose proof Hx as (t & Hxt & Ht)%list_elem_of_bind.
      rewrite (Hkeep t x Ht Hxt) in Hxu. by eapply Hrd1.
    + apply laid_node. assert (clp s2 w = fRects nc1) as -> by (unfold clp; by rewrite Hv2).
      assert (vis s2 w = fRects nc) as -> by (rewrite Evis; unfold vis; by rewrite Hv, Enc).
      split_and!; [done|unfold gcc; rewrite Hv2; by rewrite <- Ec2| | |].
      * eapply tiled_eq; [|exact Htl]. intros t Ht. apply (Hkeep t); [done|apply root_ids].
      * intros u Hu. destruct (vis_eq s1 s2 (root u)) as (-> & _); [apply (Hkeep u); [done|apply root_ids]|]. auto.
      * rewrite Forall_forall in *. intros t Ht. eapply laid_eq; [intros x Hx; by apply (Hkeep t)|auto].
Qed.

(** UpdateClipRegion has enough fuel. *)
Lemma UpdateClipRegion_ok t s pa : shaped s pa t -> placed s (ids t) -> NoDup (ids t) -> ready s (ids t) -> updated s t (UpdateClipRegion in_place (root t) s).
Proof.
  intros Hsh Hpl Hnd Hrd. apply (update_clip_ok t (S (size (wins s))) ltac:(pose proof (ids_bound (ids t) s Hnd (shaped_dom s t pa Hsh)); lia) s pa Hsh Hpl Hnd Hrd).
Qed.

End update.

End WinProof.
