(* ===== verification/WinRun.v ===== *)
(** The window server at work (Win): windows are created, added, shown, hidden,
  invalidated, painted and drawn on, in any order.  Windows never share a point: the
  invariant [wok] and the claims. *)
From S2P Require Import Prelude Region RegionProof RegionOps Line Win WinProof.
Import Region RegionProof RegionOps Line Win WinProof.
Local Open Scope Z_scope.
Local Open Scope c_scope.

Module WinRun.

(** ** Parts of a tree *)

Inductive subtree (u : tree) : tree -> Prop :=
| st_refl : subtree u u
| st_kid w l1 t l2 : subtree u t -> subtree u (Node w (l1 ++ t :: l2)).

Lemma subtree_at p t : p ∈ ids t -> exists u, subtree u t /\ root u = p.
Proof.
  induction t as [w ts IH] using tree_ind'. simpl. intros [->|(t & Hp & Ht)%list_elem_of_bind]%elem_of_cons; [exists (Node w ts); split; [constructor|done]|].
  rewrite Forall_forall in IH. destruct (IH t Ht Hp) as (u & Hu & E). apply list_elem_of_split in Ht as (l1 & l2 & ->). exists u. split; [by apply st_kid|done].
Qed.

Lemma subtree_ids u t : subtree u t -> ids u ⊆ ids t.
Proof. induction 1 as [|w l1 t l2 _ IH]; [done|]. intros x Hx. eapply (ids_sub w _ t); [set_solver|by apply IH]. Qed.

(** The windows of a tree around one of its children. *)
Lemma NoDup_kids w l1 t l2 : NoDup (ids (Node w (l1 ++ t :: l2))) ->
  w ∉ ids t /\ NoDup (ids t) /\ forall a x, a ∈ l1 ++ l2 -> x ∈ ids a -> x ∉ ids t.
Proof.
  simpl. intros [Hw Hnd]%NoDup_cons. rewrite bind_app, bind_cons in Hnd, Hw. apply NoDup_app in Hnd as (_ & H1 & H2). apply NoDup_app in H2 as (H2 & H3 & _). split_and!.
  - set_solver.
  - done.
  - intros a x [Ha|Ha]%elem_of_app Hx Hxt; [apply (H1 x); [apply list_elem_of_bind; eauto|set_solver]|]. apply (H3 x Hxt), list_elem_of_bind. eauto.
Qed.

Lemma subtree_NoDup u t : subtree u t -> NoDup (ids t) -> NoDup (ids u).
Proof. induction 1 as [|w l1 t l2 _ IH]; [done|]. intros (_ & H & _)%NoDup_kids. auto. Qed.

Lemma subtree_shaped s u t : subtree u t -> forall pa, shaped s pa t -> exists pa', shaped s pa' u.
Proof.
  induction 1 as [|w l1 t l2 _ IH]; [eauto|]. intros pa (_ & _ & H)%shaped_node. apply Forall_app in H as [_ H]. apply Forall_cons in H as [H _]. by apply (IH (Some w)).
Qed.

(** ** The layout *)

(** The visible regions of the children, when they do not change. *)
Lemma tiled_vis s s' l ts : (forall t, t ∈ ts -> vis s' (root t) = vis s (root t)) -> tiled s l ts -> tiled s' l ts.
Proof.
  induction ts as [|t ts IH]; [done|]. intros Hv (A & B & C). simpl. rewrite (Hv t) by (by left). split_and!; [done| |].
  - intros b Hb. rewrite (Hv b) by (by right). auto.
  - apply IH; [|done]. intros b Hb. apply Hv. by right.
Qed.

(** A tree is laid out when its regions are the ones of a tree that is. *)
Lemma laid_regions s s' t : (forall x, x ∈ ids t -> vis s' x = vis s x /\ clp s' x = clp s x /\ sub (gcc s' x) (clp s' x)) -> laid s t -> laid s' t.
Proof.
  induction t as [w ts IH] using tree_ind'. intros H. rewrite !laid_node. destruct (H w (root_ids (Node w ts))) as (Ev & Ec & Hg).
  assert (forall t x, t ∈ ts -> x ∈ ids t -> vis s' x = vis s x /\ clp s' x = clp s x /\ sub (gcc s' x) (clp s' x)) as Hk by (intros t x Ht Hx; apply H; by eapply ids_sub).
  intros (H1 & H2 & H3 & H4 & H5). split_and!; [by rewrite Ev, Ec|done| | |].
  - rewrite Ev. eapply tiled_vis; [|done]. intros t Ht. apply (Hk t); [done|apply root_ids].
  - intros u Hu. rewrite Ec. destruct (Hk u _ Hu (root_ids u)) as (-> & _). auto.
  - rewrite Forall_forall in *. intros t Ht. apply IH; [done|intros x Hx; by eapply Hk|auto].
Qed.

(** The part below a window is laid out anew within the same visible region. *)
Lemma laid_subtree s s' u t : subtree u t -> NoDup (ids t) -> laid s t -> (forall x, x ∉ ids u -> wins s' !! x = wins s !! x) ->
  laid s' u -> vis s' (root u) = vis s (root u) -> laid s' t /\ vis s' (root t) = vis s (root t).
Proof.
  intros Hsub. induction Hsub as [|w l1 t l2 Hut IH]; intros Hnd Hl Hoth Hlu Hv; [done|]. apply NoDup_kids in Hnd as (Hw & Hnd & Hsib).
  apply laid_node in Hl as (H1 & H2 & H3 & H4 & H5). pose proof (proj1 (Forall_forall _ _) H5) as H5'.
  destruct IH as [Hlt Hvt]; [done|apply H5'; set_solver|done|done|done|]. pose proof (subtree_ids u t Hut) as Hids.
  destruct (vis_eq s s' w) as (Ev & Ec & Eg); [apply Hoth; set_solver|].
  assert (forall a x, a ∈ l1 ++ l2 -> x ∈ ids a -> wins s' !! x = wins s !! x) as Hs.
  { intros a x Ha Hx. apply Hoth. intros Hxu. apply (Hsib a x Ha Hx). by apply Hids. }
  assert (forall a, a ∈ l1 ++ t :: l2 -> vis s' (root a) = vis s (root a)) as Hvs.
  { intros a Ha. assert (a = t \/ a ∈ l1 ++ l2) as [->|Ha'] by set_solver; [done|]. apply vis_eq. apply (Hs a); [done|apply root_ids]. }
  split; [|exact Ev]. apply laid_node. rewrite Ev, Ec, Eg. split_and!; [done|done|by eapply tiled_vis|intros a Ha; rewrite (Hvs a Ha); auto|].
  apply Forall_forall. intros a Ha. assert (a = t \/ a ∈ l1 ++ l2) as [->|Ha'] by set_solver; [done|]. eapply laid_eq; [intros x Hx; by eapply Hs|auto].
Qed.

(** In a layout the clip regions are within the visible region of the root ... *)
Lemma laid_within s t : laid s t -> forall x, x ∈ ids t -> sub (clp s x) (vis s (root t)).
Proof.
  induction t as [w ts IH] using tree_ind'. intros (H1 & _ & H3 & _ & H5)%laid_node x. simpl. intros [->|(t & Hx & Ht)%list_elem_of_bind]%elem_of_cons; [done|].
  rewrite Forall_forall in IH, H5. eapply sub_trans; [by apply (IH t Ht (H5 t Ht))|]. clear -H3 Ht.
  induction ts as [|a ts IH]; [by apply elem_of_nil in Ht|]. destruct H3 as (A & _ & C). apply elem_of_cons in Ht as [->|Ht]; auto.
Qed.

Lemma tiled_dis s l l1 t l2 : tiled s l (l1 ++ t :: l2) -> forall u, u ∈ l1 ++ l2 -> dis (vis s (root t)) (vis s (root u)).
Proof.
  induction l1 as [|a l1 IH]; simpl; intros (A & B & C) u; [apply B|]. intros [->|Hu]%elem_of_cons; [|by apply IH]. apply dis_sym, B. set_solver.
Qed.

(** ... and pairwise disjoint. *)
Lemma laid_apart s t : laid s t -> forall a b, a ∈ ids t -> b ∈ ids t -> a <> b -> dis (clp s a) (clp s b).
Proof.
  induction t as [w ts IH] using tree_ind'. intros (H1 & _ & H3 & H4 & H5)%laid_node. rewrite Forall_forall in IH, H5.
  assert (forall b t, t ∈ ts -> b ∈ ids t -> dis (clp s w) (clp s b)) as Hroot.
  { intros b t Ht Hb. eapply dis_sub; [by apply (H4 t Ht)|by intros x y|]. apply (laid_within s t); [by apply H5|done]. }
  intros a b. simpl. intros [->|(t & Ha & Ht)%list_elem_of_bind]%elem_of_cons [->|(u & Hb & Hu)%list_elem_of_bind]%elem_of_cons Hne.
  - done.
  - by eapply Hroot.
  - apply dis_sym. by eapply Hroot.
  - apply list_elem_of_split in Ht as (l1 & l2 & ->). assert (u = t \/ u ∈ l1 ++ l2) as [->|Hu'] by set_solver; [apply (IH t); [set_solver|apply H5; set_solver|done|done|done]|].
    eapply dis_sub; [eapply tiled_dis; [exact H3|exact Hu']| |]; [apply (laid_within s t)|apply (laid_within s u)]; try done; apply H5; set_solver.
Qed.

(** ** Places *)

Lemma offset_mono s sign : forall fuel w r r' fuel', offset_up s sign w r fuel = Ok r' -> (fuel <= fuel')%nat -> offset_up s sign w r fuel' = Ok r'.
Proof.
  induction fuel as [|fuel IH]; intros [w|] r r' [|fuel'] H Hf; simpl in *; try done; [lia|].
  apply cbind_Ok in H as (v & -> & H). simpl. apply (IH _ _ _ fuel' H). lia.
Qed.

Lemma shaped_located s sign t : forall pa n, shaped s pa t -> (forall r, exists r', offset_up s sign pa r n = Ok r') ->
  forall w r, w ∈ ids t -> exists r', offset_up s sign (Some w) r (n + length (ids t)) = Ok r'.
Proof.
  induction t as [w ts IH] using tree_ind'. intros pa n ((v & Hv & Ep & _) & _ & Hts)%shaped_node Hpa.
  assert (forall k r, (n < k)%nat -> exists r', offset_up s sign (Some w) r k = Ok r') as Hw.
  { intros [|k] r Hk; [lia|]. simpl. unfold get. rewrite Hv. simpl. rewrite Ep. destruct (Hpa (OffsetBy r (s32 (sign * left (fFrame v))) (s32 (sign * top (fFrame v))))) as [r' E].
    exists r'. eapply offset_mono; [exact E|lia]. }
  intros x r. simpl. intros [->|(t & Hx & Ht)%list_elem_of_bind]%elem_of_cons; [apply Hw; lia|].
  rewrite Forall_forall in IH, Hts. destruct (IH t Ht (Some w) (S n) (Hts t Ht)) with x r as [r' E]; [intros r0; apply Hw; lia|done|].
  exists r'. eapply offset_mono; [exact E|]. pose proof (length_kid t ts Ht). lia.
Qed.

(** Every window of the tree has a place. *)
Lemma located s t sign w r : shaped s None t -> NoDup (ids t) -> w ∈ ids t -> exists r', offset_up s sign (Some w) r (S (size (wins s))) = Ok r'.
Proof.
  intros Hsh Hnd Hw. destruct (shaped_located s sign t None 0 Hsh) with w r as [r' E]; [eauto|done|]. exists r'. eapply offset_mono; [exact E|].
  pose proof (ids_bound (ids t) s Hnd (shaped_dom s t None Hsh)). lia.
Qed.

Lemma shaped_parent s t : forall pa x, shaped s pa t -> x ∈ ids t -> exists v, wins s !! x = Some v /\ gc_renderer (fGC v) = true /\
  (x = root t /\ fParent v = pa \/ exists p, p ∈ ids t /\ fParent v = Some p).
Proof.
  induction t as [w ts IH] using tree_ind'. intros pa x ((v & Hv & Ep & _ & Hr) & _ & Hts)%shaped_node. simpl.
  intros [->|(t & Hx & Ht)%list_elem_of_bind]%elem_of_cons; [exists v; auto|]. rewrite Forall_forall in IH, Hts.
  destruct (IH t Ht (Some w) x (Hts t Ht) Hx) as (u & Hu & Hru & Hor). exists u. split; [done|]. split; [done|]. right. destruct Hor as [[_ E]|(p & Hp & E)]; [exists w|exists p].
  - split; [by left|done].
  - split; [right; apply list_elem_of_bind; eauto|done].
Qed.

(** Places depend on the windows on the way up only. *)
Lemma offset_agree s s' sign (X : list nat) :
  (forall x, x ∈ X -> exists v v', wins s !! x = Some v /\ wins s' !! x = Some v' /\ fParent v' = fParent v /\ fFrame v' = fFrame v /\ forall p, fParent v = Some p -> p ∈ X) ->
  forall fuel w r, w ∈ X -> offset_up s' sign (Some w) r fuel = offset_up s sign (Some w) r fuel.
Proof.
  intros H. induction fuel as [|fuel IH]; intros w r Hw; [done|]. simpl. destruct (H w Hw) as (v & v' & Hv & Hv' & E1 & E2 & Hp).
  unfold get. rewrite Hv, Hv'. simpl. rewrite E1, E2. destruct (fParent v) as [p|] eqn:E; [apply IH; auto|by destruct fuel].
Qed.

(** ** The invariant *)

(** A window that is in no tree. *)
Record detached (v : window) : Prop := {
  dt_good : good_win v;
  dt_links : fParent v = None /\ fChildList v = None;
  dt_regions : fRects (fVisibleRegion v) = [] /\ fRects (fClipRegion v) = [] /\ fRects (gc_clip (fGC v)) = []
}.

(** The screen. *)
Section invariant.
Context (scr : rect).

Record wok (t : tree) (s : world) : Prop := {
  wk_shaped : shaped s None t;
  wk_nodup : NoDup (ids t);
  wk_ready : ready s (ids t);
  wk_laid : laid s t;
  wk_inner : forall c v w r, c ∈ ids t -> wins s !! c = Some v -> fParent v = Some w -> LocalToScreen s w (fFrame v) = Ok r -> inner r;
  wk_free : forall x v, wins s !! x = Some v -> x ∉ ids t -> detached v;
  wk_screen : sub (vis s (root t)) [scr];
  wk_bounds : bounds s = scr
}.

Lemma wok_placed t s : wok t s -> placed s (ids t).
Proof. intros []. split; [|done]. intros w r Hw. by apply (located s t). Qed.

(** The points of different windows are different. *)
Lemma wok_apart t s a b : wok t s -> a <> b -> dis (clp s a) (clp s b).
Proof.
  intros Hw Hne. assert (forall x, x ∈ ids t \/ clp s x = []) as Hx.
  { intros x. destruct (decide (x ∈ ids t)) as [|Hx]; [by left|right]. unfold clp. destruct (wins s !! x) as [v|] eqn:Ev; [|done]. by destruct (wk_free _ _ Hw x v Ev Hx) as [_ _ (_ & ? & _)]. }
  destruct (Hx a) as [Ha| ->], (Hx b) as [Hb| ->]; [by apply (laid_apart s t (wk_laid _ _ Hw))|intros x y _ H; by apply pts_nil in H|intros x y H; by apply pts_nil in H..].
Qed.

Lemma laid_part s u t : subtree u t -> laid s t -> laid s u.
Proof. induction 1 as [|w l1 t l2 _ IH]; [done|]. intros (_ & _ & _ & _ & H)%laid_node. apply IH. rewrite Forall_forall in H. apply H. set_solver. Qed.

Lemma wok_gcc t s a : wok t s -> sub (gcc s a) (clp s a).
Proof.
  intros Hw. destruct (decide (a ∈ ids t)) as [Ha|Ha].
  - destruct (subtree_at a t Ha) as (u & Hu & <-). pose proof (laid_part s u t Hu (wk_laid _ _ Hw)) as Hl. destruct u. by apply laid_node in Hl as (_ & ? & _).
  - unfold gcc. destruct (wins s !! a) as [v|] eqn:Ev; [|apply sub_nil]. destruct (wk_free _ _ Hw a v Ev Ha) as [_ _ (_ & _ & ->)]. apply sub_nil.
Qed.

(** Nothing is drawn beyond the screen. *)
Lemma wok_screen t s a : wok t s -> sub (gcc s a) [scr].
Proof.
  intros Hw. destruct (decide (a ∈ ids t)) as [Ha|Ha].
  - eapply sub_trans; [by apply (wok_gcc t)|]. eapply sub_trans; [by apply (laid_within s t (wk_laid _ _ Hw))|apply Hw].
  - unfold gcc. destruct (wins s !! a) as [v|] eqn:Ev; [|apply sub_nil]. destruct (wk_free _ _ Hw a v Ev Ha) as [_ _ (_ & _ & ->)]. apply sub_nil.
Qed.

(** A world that differs in the regions of one window, which keeps what it shows. *)
Lemma wok_change t s s' x v v' : wok t s -> same [x] s s' -> wins s !! x = Some v -> wins s' !! x = Some v' -> good_win v' ->
  fRects (fVisibleRegion v') = fRects (fVisibleRegion v) -> fRects (fClipRegion v') = fRects (fClipRegion v) ->
  sub (fRects (gc_clip (fGC v'))) (fRects (fClipRegion v')) -> (x ∉ ids t -> detached v') -> wok t s'.
Proof.
  intros Hw Hs Hv Hv' Hg Evis Eclip Hgc Hdet. pose proof Hw as [Hsh Hnd Hrd Hl Hin Hfr Hsc Hbd].
  assert (forall y, y <> x -> wins s' !! y = wins s !! y) as Hoth by (intros y Hy; apply (sm_other _ _ _ Hs); set_solver). constructor.
  - by eapply shaped_same.
  - done.
  - intros y u Hy Hu. destruct (decide (y = x)) as [->|Hne]; [congruence|]. rewrite Hoth in Hu by done. by eapply Hrd.
  - eapply laid_regions; [|exact Hl]. intros y Hy. unfold vis, clp, gcc. destruct (decide (y = x)) as [->|Hne]; [by rewrite Hv, Hv'|].
    rewrite Hoth by done. split_and!; [done|done|]. pose proof (wok_gcc t s y Hw) as H. unfold gcc, clp in H. done.
  - pose proof (placed_same _ _ _ _ Hs (wok_placed _ _ Hw)) as [_ H]. done.
  - intros y u Hu Hy. destruct (decide (y = x)) as [->|Hne]; [rewrite Hv' in Hu; injection Hu as <-; by apply Hdet|]. rewrite Hoth in Hu by done. by apply (Hfr y).
  - assert (vis s' (root t) = vis s (root t)) as ->; [|done]. unfold vis. destruct (decide (root t = x)) as [->|Hne]; [by rewrite Hv, Hv'|by rewrite Hoth].
  - by rewrite (sm_bounds _ _ _ Hs).
Qed.

(** The shape depends on the windows of the tree only. *)
Lemma shaped_agree s s' t : forall pa, (forall x, x ∈ ids t -> skel <$> wins s' !! x = skel <$> wins s !! x) -> shaped s pa t -> shaped s' pa t.
Proof.
  induction t as [w ts IH] using tree_ind'. intros pa H. rewrite !shaped_node. intros ((v & Hv & E1 & E2 & E3) & Hl & Hts).
  assert (forall t, t ∈ ts -> forall x, x ∈ ids t -> skel <$> wins s' !! x = skel <$> wins s !! x) as Hk by (intros t Ht x Hx; apply H; by eapply ids_sub). split_and!.
  - pose proof (H w (root_ids (Node w ts))) as E. rewrite Hv in E. destruct (wins s' !! w) as [v'|]; [|done]. exists v'. split; [done|].
    unfold skel in E. simpl in E. injection E as _ F1 F2 _ F3. split_and!; congruence.
  - clear -Hl Hk. revert Hk Hl. induction ts as [|t ts IH]; [done|]. intros Hk [(v & Hv & En) Hl]. split; [|apply IH; [intros u Hu; apply Hk; by right|exact Hl]].
    pose proof (Hk t ltac:(by left) (root t) (root_ids t)) as E. rewrite Hv in E. destruct (wins s' !! root t) as [v'|]; [|done]. exists v'. split; [done|].
    unfold skel in E. simpl in E. injection E as F _ _ _ _. congruence.
  - rewrite Forall_forall in *. intros t Ht. apply IH; [done|by apply Hk|auto].
Qed.

(** Places of windows of the tree in a world with at least as many windows. *)
Lemma place_agree t s s' w r r' : wok t s -> (size (wins s) <= size (wins s'))%nat ->
  (forall x, x ∈ ids t -> exists v v', wins s !! x = Some v /\ wins s' !! x = Some v' /\ fParent v' = fParent v /\ fFrame v' = fFrame v) ->
  w ∈ ids t -> LocalToScreen s w r = Ok r' -> LocalToScreen s' w r = Ok r'.
Proof.
  intros Hw Hsz H Hin E. unfold LocalToScreen in *. eapply offset_mono; [|apply -> Nat.succ_le_mono; exact Hsz]. erewrite (offset_agree s s' 1 (ids t)); [exact E| |done].
  intros x Hx. destruct (H x Hx) as (v & v' & Hv & Hv' & E1 & E2). exists v, v'. split_and!; try done. intros p Ep.
  destruct (shaped_parent s t None x (wk_shaped _ _ Hw) Hx) as (u & Hu & _ & [[_ Eu]|(q & Hq & Eu)]); congruence.
Qed.

(** ** Grafts *)

(** [t'] is [t] with a new first child [c] of [p]. *)
Inductive grafted (p c : nat) : tree -> tree -> Prop :=
| gf_here ts : grafted p c (Node p ts) (Node p (Node c [] :: ts))
| gf_kid w l1 t t' l2 : grafted p c t t' -> grafted p c (Node w (l1 ++ t :: l2)) (Node w (l1 ++ t' :: l2)).

Lemma graft_at p c t : p ∈ ids t -> exists t', grafted p c t t'.
Proof.
  induction t as [w ts IH] using tree_ind'. simpl. intros [->|(t & Hp & Ht)%list_elem_of_bind]%elem_of_cons; [eexists; constructor|].
  rewrite Forall_forall in IH. destruct (IH t Ht Hp) as (t' & H). apply list_elem_of_split in Ht as (l1 & l2 & ->). eexists. by apply gf_kid.
Qed.

Lemma graft_root p c t t' : grafted p c t t' -> root t' = root t.
Proof. by destruct 1. Qed.

Lemma graft_ids p c t t' : grafted p c t t' -> ids t' ≡ₚ c :: ids t.
Proof.
  induction 1 as [ts|w l1 t t' l2 _ IH]; [simpl; apply Permutation_swap|]. cbn [ids]. rewrite !bind_app, !bind_cons, IH. solve_Permutation.
Qed.

Lemma graft_parent p c t t' : grafted p c t t' -> p ∈ ids t.
Proof. induction 1 as [ts|w l1 t t' l2 _ IH]; [by left|]. eapply (ids_sub w _ t); [set_solver|done]. Qed.

(** A window that shows nothing fits anywhere. *)
Lemma graft_laid s p c t t' : grafted p c t t' -> vis s c = [] -> clp s c = [] -> gcc s c = [] -> laid s t -> laid s t'.
Proof.
  intros Hg Ev Ec Eg. assert (forall l, dis l []) as Hd by (intros l x y _ H; by apply pts_nil in H).
  induction Hg as [ts|w l1 t t' l2 Hg IH]; rewrite !laid_node; intros (H1 & H2 & H3 & H4 & H5); (split_and!; [done|done| | |]).
  - simpl. rewrite Ev. split_and!; [apply sub_nil|intros u _; apply dis_sym, Hd|done].
  - intros u [->|Hu]%elem_of_cons; [simpl; rewrite Ev; apply Hd|auto].
  - constructor; [|done]. apply laid_node. rewrite Ec, Eg, Ev. split_and!; [by intros x y|by intros x y|done|intros u Hu; by apply elem_of_nil in Hu|done].
  - clear -H3 Hg. apply graft_root in Hg. induction l1 as [|a l1 IH]; simpl in *; [by rewrite Hg|]. destruct H3 as (A & B & C). split_and!; [done| |auto].
    intros u Hu. assert (u = t' \/ u ∈ l1 ++ t :: l2) as [->|Hu'] by set_solver; [rewrite Hg; apply B; set_solver|auto].
  - intros u Hu. assert (u = t' \/ u ∈ l1 ++ t :: l2) as [->|Hu'] by set_solver; [rewrite (graft_root _ _ _ _ Hg); apply H4; set_solver|auto].
  - apply Forall_app in H5 as [H5 H6]. apply Forall_cons in H6 as [H6 H7]. apply Forall_app. split; [done|]. constructor; auto.
Qed.

(** The links of the windows of [s], kept in [s'] but for the children of [p]. *)
Definition relinked (p : nat) (v v' : window) (x : nat) : Prop :=
  fNextSibling v' = fNextSibling v /\ fParent v' = fParent v /\ fFrame v' = fFrame v /\ gc_renderer (fGC v') = gc_renderer (fGC v) /\
  (x <> p -> fChildList v' = fChildList v).

Lemma linked_agree s s' p ts ts' : map root ts' = map root ts -> (forall t v, t ∈ ts -> wins s !! root t = Some v -> exists v', wins s' !! root t = Some v' /\ relinked p v v' (root t)) ->
  linked s ts -> linked s' ts'.
Proof.
  revert ts'. induction ts as [|t ts IH]; intros [|t' ts'] E; try done. injection E as E1 E2. intros H [(v & Hv & En) Hl]. simpl. rewrite E1, E2.
  destruct (H t v ltac:(by left) Hv) as (v' & Hv' & F & _). split; [exists v'; split; [done|congruence]|]. apply IH; [done|intros u w Hu; apply H; by right|done].
Qed.

Lemma relinked_skel p v v' x : relinked p v v' x -> x <> p -> skel v' = skel v.
Proof. intros (E1 & E2 & E3 & E4 & E5) Hne. unfold skel. rewrite E1, E2, E3, E4, E5; done. Qed.

Lemma graft_shaped s s' p c t t' u : grafted p c t t' -> NoDup (ids t) ->
  (forall x v, x ∈ ids t -> wins s !! x = Some v -> exists v', wins s' !! x = Some v' /\ relinked p v v' x) ->
  (forall v, wins s !! p = Some v -> fNextSibling u = fChildList v /\ exists v', wins s' !! p = Some v' /\ fChildList v' = Some c) ->
  wins s' !! c = Some u -> fParent u = Some p -> fChildList u = None -> gc_renderer (fGC u) = true ->
  forall pa, shaped s pa t -> shaped s' pa t'.
Proof.
  intros Hg. induction Hg as [ts|w l1 t t' l2 Hg IH]; intros Hnd Hre Hp Hu Eu1 Eu2 Eu3 pa; rewrite !shaped_node; intros ((v & Hv & E1 & E2 & E3) & Hl & Hts).
  - destruct (Hp v Hv) as (En & v' & Hv' & Ec). destruct (Hre p v (root_ids (Node p ts)) Hv) as (v2 & Hv2 & (F1 & F2 & F3 & F4 & _)). rewrite Hv' in Hv2. injection Hv2 as <-.
    simpl in Hnd. apply NoDup_cons in Hnd as [Hpn _].
    assert (forall t x w, t ∈ ts -> x ∈ ids t -> wins s !! x = Some w -> exists w', wins s' !! x = Some w' /\ relinked p w w' x) as Hk by (intros t x w Ht Hx; apply Hre; by eapply ids_sub).
    split_and!.
    + exists v'. split_and!; [done|congruence|done|congruence].
    + split; [exists u; split; [done|congruence]|]. eapply (linked_agree s s' p ts); [done|intros t x Ht; apply (Hk t); [done|apply root_ids]|done].
    + constructor; [apply shaped_node; split_and!; [exists u; done|done|done]|]. rewrite Forall_forall in *. intros t Ht. eapply shaped_agree; [|by apply Hts].
      intros x Hx. pose proof (shaped_dom s t _ (Hts t Ht) x Hx) as [y Hy]%elem_of_dom. destruct (Hk t x y Ht Hx Hy) as (y' & Hy' & Hr). rewrite Hy, Hy'. simpl. f_equal.
      eapply relinked_skel; [exact Hr|]. intros ->. apply Hpn, list_elem_of_bind. eauto.
  - pose proof Hnd as Hnd0. apply NoDup_kids in Hnd as (Hw & Hnd & Hsib). pose proof (graft_parent _ _ _ _ Hg) as Hpt.
    assert (forall a x w', a ∈ l1 ++ t :: l2 -> x ∈ ids a -> wins s !! x = Some w' -> exists w'', wins s' !! x = Some w'' /\ relinked p w' w'' x) as Hk by (intros a x w' Ha Hx; apply Hre; by eapply ids_sub).
    assert (map root (l1 ++ t' :: l2) = map root (l1 ++ t :: l2)) as Er by (rewrite !map_app; simpl; by rewrite (graft_root _ _ _ _ Hg)).
    assert (w <> p) as Hne by (intros ->; done). destruct (Hre w v (root_ids (Node w _)) Hv) as (v' & Hv' & (F1 & F2 & F3 & F4 & F5)). rewrite Er. split_and!.
    + exists v'. split_and!; [done|congruence|rewrite F5; done|congruence].
    + eapply (linked_agree s s' p); [exact Er|intros a x Ha; apply (Hk a); [done|apply root_ids]|done].
    + apply Forall_app in Hts as [T1 T2]. apply Forall_cons in T2 as [T2 T3].
      assert (forall l, l ⊆ l1 ++ l2 -> Forall (shaped s (Some w)) l -> Forall (shaped s' (Some w)) l) as Hl12.
      { intros l Hsub Hf. rewrite Forall_forall in *. intros a Ha. eapply shaped_agree; [|by apply Hf]. intros x Hx. pose proof (shaped_dom s a _ (Hf a Ha) x Hx) as [y Hy]%elem_of_dom.
        destruct (Hk a x y) as (y' & Hy' & Hr); [apply Hsub in Ha; set_solver|done|done|]. rewrite Hy, Hy'. simpl. f_equal. eapply relinked_skel; [exact Hr|]. intros ->. by apply (Hsib a p (Hsub a Ha) Hx). }
      apply Forall_app. split; [apply Hl12; [set_solver|done]|]. constructor; [|apply Hl12; [set_solver|done]]. apply IH; try done. intros x y Hx. apply (Hk t); [set_solver|done].
Qed.

(** ** The operations *)

Section operations.
Context (in_place : Z -> Z -> bool).
Abbreviation fine := (fine in_place).

Lemma wok_update t s p : wok t s -> p ∈ ids t -> fine (wok t) (UpdateClipRegion in_place p s).
Proof.
  intros Hw Hp. pose proof Hw as [Hsh Hnd Hrd Hl Hin Hfr Hsc Hbd]. destruct (subtree_at p t Hp) as (u & Hu & <-).
  pose proof (subtree_ids u t Hu) as Hids. destruct (subtree_shaped s u t Hu None Hsh) as [pa Hshu].
  eapply fine_impl; [apply (UpdateClipRegion_ok in_place u s pa Hshu)|].
  - eapply placed_sub; [by apply wok_placed|done].
  - by eapply subtree_NoDup.
  - intros x v Hx. apply Hrd. by apply Hids.
  - intros s' (Hs & Hrd' & Hl' & Hv'). assert (forall x, x ∉ ids u -> wins s' !! x = wins s !! x) as Hoth by apply (sm_other _ _ _ Hs). constructor.
    + by eapply shaped_same.
    + done.
    + intros x v Hx Hv. destruct (decide (x ∈ ids u)); [by eapply Hrd'|]. rewrite Hoth in Hv by done. by eapply Hrd.
    + by eapply laid_subtree.
    + pose proof (placed_same _ _ _ _ Hs (wok_placed _ _ Hw)) as [_ H]. done.
    + intros x v Hv Hx. rewrite Hoth in Hv by set_solver. by eapply Hfr.
    + destruct (laid_subtree s s' u t Hu Hnd Hl Hoth Hl' Hv') as [_ ->]. done.
    + by rewrite (sm_bounds _ _ _ Hs).
Qed.

(** A window in the tree. *)
Lemma wok_get t s x : wok t s -> x ∈ ids t -> exists v, wins s !! x = Some v /\ good_win v /\ gc_renderer (fGC v) = true /\ sub (fRects (gc_clip (fGC v))) (fRects (fClipRegion v)).
Proof.
  intros Hw Hx. destruct (shaped_parent s t None x (wk_shaped _ _ Hw) Hx) as (v & Hv & Hr & _). exists v. split_and!; [done|by eapply (wk_ready _ _ Hw)|done|].
  pose proof (wok_gcc t s x Hw) as H. unfold gcc, clp in H. by rewrite Hv in H.
Qed.

Lemma set_shown_ok t s b x : wok t s -> wins s !! x <> None -> fine (wok t) (set_shown in_place b s x).
Proof.
  intros Hw Hx. unfold set_shown. destruct (wins s !! x) as [v|] eqn:Hv; [|done]. rewrite (get_fine _ _ _ Hv). cbn [cbind]. case_decide; [|done].
  set (v' := set_flags b (fInRedraw v) (fPaintMsgSent v) v).
  assert (wok t (put s x v')) as Hw'.
  { eapply (wok_change t s _ x v v'); [done|by apply same_win with v|done|apply put_lookup| |done|done| |].
    - destruct (decide (x ∈ ids t)) as [Hxt|Hxt]; [destruct (wk_ready _ _ Hw x v Hxt Hv)|destruct (dt_good _ (wk_free _ _ Hw x v Hv Hxt))]; by split.
    - pose proof (wok_gcc t s x Hw) as H'. unfold gcc, clp in H'. by rewrite Hv in H'.
    - intros Hxt. destruct (wk_free _ _ Hw x v Hv Hxt) as [H1 H2 H3]. split; [by destruct H1; split|done|done]. }
  destruct (fParent v) as [p|] eqn:Ep; [|done]. apply wok_update; [done|]. destruct (decide (x ∈ ids t)) as [Hxt|Hxt].
  - destruct (shaped_parent s t None x (wk_shaped _ _ Hw) Hxt) as (u & Hu & _ & [[_ E]|(q & Hq & E)]); congruence.
  - destruct (wk_free _ _ Hw x v Hv Hxt) as [_ [E _] _]. congruence.
Qed.

Lemma EndPaint_ok t s x : wok t s -> x ∈ ids t -> fine (wok t) (EndPaint s x).
Proof.
  intros Hw Hx. destruct (wok_get t s x Hw Hx) as (v & Hv & Hg & Hr & Hsub). unfold EndPaint, modify. rewrite (get_fine _ _ _ Hv). cbn [cbind WinProof.fine].
  eapply (wok_change t s _ x v _); [done|apply same_win with v; done|done|apply put_lookup|by destruct Hg; split|done|done|done|done].
Qed.

Lemma Clear_gr r : gr r -> gr (Clear in_place r) /\ fRects (Clear in_place r) = [].
Proof.
  intros [Hr Ho]. pose proof (ro_alloc _ Hr) as Ha. unfold alloc_ok in Ha. pose proof (round_up_spec (fNumRects r) ltac:(unfold fNumRects; lia)). unfold Clear, AllocSpace.
  rewrite decide_False by (intros H0; by apply H0). simpl. split; [|done]. split; [|done]. split; [constructor|done|]. unfold alloc_ok. cbn [fAlloc]. change (round_up (fNumRects _)) with 0. assert (0 <= fNumRects r) by (unfold fNumRects; lia). lia.
Qed.

Lemma BeginPaint_ok t s x : wok t s -> x ∈ ids t -> fine (fun res => wok t res.2) (BeginPaint in_place s x).
Proof.
  intros Hw Hx. destruct (wok_get t s x Hw Hx) as (v & Hv & Hg & Hr & Hsub). unfold BeginPaint. rewrite (get_fine _ _ _ Hv). cbn [cbind]. cbv zeta.
  eapply fine_bind; [apply SetTo_gr; [apply Hg|apply Hg]|]. intros rd [Hrd _]. eapply fine_bind; [by apply copy_gr|]. intros d1 [Hd1 _].
  eapply fine_bind; [apply Intersect_gr; [done|apply Hg]|]. intros d2 (Hd2 & _ & Hd2s). cbn [fClipRegion set_invalid set_redraw set_flags set_regions] in Hd2s.
  match goal with |- context [put s x ?u] => set (v1 := u) end. set (s1 := put s x v1).
  assert (same [x] s s1) as Hs1 by (by apply same_win with v). assert (good_win v1) as Hg1 by (destruct Hg as [G1 G2 G3 G4 G5]; split; simpl; try done; by apply Clear_gr).
  assert (exists o, ScreenToLocal s1 x (Bounds d2) = Ok o) as [o ->].
  { apply (located s1 t (-1) x); [|apply Hw|done]. eapply shaped_same; [exact Hs1|apply Hw]. }
  cbn [cbind]. eapply fine_bind; [by apply (gc_set_clip_ok in_place s1 x v1 d2); [apply put_lookup| | |]|].
  intros s2 (Hs2 & g & Hv2 & Hgg & Hgs & Hgr). cbn [WinProof.fine snd].
  eapply (wok_change t s s2 x v (set_gc g v1)); [done|by eapply same_trans|done|done|by destruct Hg1; split|done|done| |].
  - simpl. eapply sub_trans; [exact Hgs|exact Hd2s].
  - done.
Qed.

Lemma Include_gr r x : gr r -> good x -> fine gr (Include in_place r x).
Proof. intros [Hr Ho] Hx. eapply fine_impl; [eapply ends_fine; [apply Include_ok; [done|done|lia]|done]|]. intros r' [H1 _]. done. Qed.

Lemma Invalidate_ok t s x r : wok t s -> x ∈ ids t -> (forall sr, LocalToScreen s x r = Ok sr -> good sr) -> fine (wok t) (Invalidate in_place s x r).
Proof.
  intros Hw Hx Hgood. destruct (wok_get t s x Hw Hx) as (v & Hv & Hg & Hr & Hsub). unfold Invalidate. rewrite (get_fine _ _ _ Hv). cbn [cbind].
  destruct (located s t 1 x r (wk_shaped _ _ Hw) (wk_nodup _ _ Hw) Hx) as [sr Esr]. fold (LocalToScreen s x r) in Esr. rewrite Esr. cbn [cbind]. specialize (Hgood sr Esr).
  eapply fine_bind; [apply copy_gr, Hg|]. intros e1 [He1 _]. eapply fine_bind; [apply Include_gr; [apply gr_empty|done]|]. intros e2 He2.
  eapply fine_bind; [by apply Intersect_gr|]. intros e3 (He3 & _). rewrite Hr. cbn [negb andb]. cbv zeta.
  eapply fine_bind; [apply Include_gr; [apply Hg|done]|]. intros i Hi. unfold paint_message. rewrite (get_fine _ _ _ (put_lookup _ _ _)). cbn [cbind].
  set (v1 := set_invalid i v). set (s1 := put (render s (erase e3 (fColor v))) x v1). assert (same [x] s s1) as Hs1 by (eapply same_trans; [apply (same_render s)|by apply same_win with v]).
  destruct (fPaintMsgSent v1); cbn [WinProof.fine].
  - eapply (wok_change t s s1 x v v1); [done|done|done|apply put_lookup|by destruct Hg; split|done..].
  - set (v2 := set_flags (fIsVisible v1) (fInRedraw v1) true v1). eapply (wok_change t s _ x v v2); [done| |done|apply put_lookup|by destruct Hg; split|done..].
    eapply same_trans; [exact Hs1|]. eapply same_trans; [apply (same_post _ (fID v1))|]. eapply same_win; [apply put_lookup|done].
Qed.

(** Drawing does not touch the windows. *)
Lemma wok_wins t s s' : wok t s -> wins s' = wins s -> bounds s' = bounds s -> wok t s'.
Proof.
  intros Hw E Eb. pose proof Hw as [Hsh Hnd Hrd Hl Hin Hfr Hsc Hbd]. assert (same [] s s') as Hs by (split; [done|intros x _; by rewrite E|intros x; by rewrite E]). constructor.
  - by eapply shaped_same.
  - done.
  - intros x v. rewrite E. apply Hrd.
  - eapply laid_eq; [|exact Hl]. intros x _. by rewrite E.
  - pose proof (placed_same _ _ _ _ Hs (wok_placed _ _ Hw)) as [_ H]. done.
  - intros x v. rewrite E. apply Hfr.
  - unfold vis. by rewrite E.
  - by rewrite Eb.
Qed.

(** A new window. *)
Lemma new_ok t s x id inredraw color gx gy : wok t s -> wins s !! x = None -> wok t (put s x (new_window id inredraw color gx gy)).
Proof.
  intros Hw Hx. pose proof Hw as [Hsh Hnd Hrd Hl Hin Hfr Hsc Hbd]. set (s' := put s x _).
  assert (x ∉ ids t) as Hxt by (intros H; apply (shaped_dom s t None Hsh), elem_of_dom in H as [v Hv]; congruence).
  assert (forall y, y ∈ ids t -> wins s' !! y = wins s !! y) as Hoth by (intros y Hy; apply lookup_insert_ne; by intros ->).
  assert (forall y, y ∈ ids t -> exists v, wins s !! y = Some v /\ wins s' !! y = Some v) as Hget.
  { intros y Hy. pose proof (shaped_dom s t None Hsh y Hy) as [v Hv]%elem_of_dom. exists v. by rewrite Hoth. } constructor.
  - eapply shaped_agree; [|exact Hsh]. intros y Hy. by rewrite Hoth.
  - done.
  - intros y v Hy Hv. rewrite Hoth in Hv by done. by eapply Hrd.
  - by eapply laid_eq.
  - intros c v w r Hc Hv Ep E. rewrite Hoth in Hv by done.
    assert (w ∈ ids t) as Hwt by (destruct (shaped_parent s t None c Hsh Hc) as (u & Hu & _ & [[_ Eu]|(q & Hq & Eu)]); congruence).
    destruct (located s t 1 w (fFrame v) Hsh Hnd Hwt) as [r0 E0]. apply (Hin c v w r); try done. fold (LocalToScreen s w (fFrame v)) in E0. rewrite E0.
    assert (LocalToScreen s' w (fFrame v) = Ok r0) as E1; [|congruence]. apply (place_agree t s s'); [done|simpl; rewrite map_size_insert_None by done; lia| |done|done].
    intros y Hy. destruct (Hget y Hy) as (u & H1 & H2). eauto 10.
  - intros y v Hv Hy. destruct (decide (y = x)) as [->|Hne].
    + unfold s' in Hv. rewrite put_lookup in Hv. injection Hv as <-. split; [split; simpl; apply gr_empty|done|done].
    + unfold s' in Hv. simpl in Hv. rewrite lookup_insert_ne in Hv by done. by eapply Hfr.
  - rewrite (proj1 (vis_eq s s' (root t) (Hoth _ (root_ids t)))). done.
  - done.
Qed.

(** AddChild links a window; no region changes. *)
Definition keeps (v v' : window) : Prop :=
  fInvalidRegion v' = fInvalidRegion v /\ fCurrentRedrawRegion v' = fCurrentRedrawRegion v /\ fVisibleRegion v' = fVisibleRegion v /\
  fClipRegion v' = fClipRegion v /\ gc_clip (fGC v') = gc_clip (fGC v).

Lemma keeps_good v v' : keeps v v' -> good_win v -> good_win v'.
Proof. intros (E1 & E2 & E3 & E4 & E5) []. split; congruence. Qed.

Lemma keeps_regions s s' x v v' : wins s !! x = Some v -> wins s' !! x = Some v' -> keeps v v' -> vis s' x = vis s x /\ clp s' x = clp s x /\ gcc s' x = gcc s x.
Proof. intros Hv Hv' (_ & _ & E3 & E4 & E5). unfold vis, clp, gcc. rewrite Hv, Hv'. split_and!; congruence. Qed.

Lemma modify_fine s x v f : wins s !! x = Some v -> modify s x f = Ok (put s x (f v)).
Proof. intros H. unfold modify. by rewrite (get_fine _ _ _ H). Qed.

Lemma attach_ok s p frame c vp vc : wins s !! p = Some vp -> wins s !! c = Some vc -> p <> c ->
  (forall h, fChildList vp = Some h -> h <> p /\ h <> c /\ exists vh, wins s !! h = Some vh) ->
  exists s', attach s p frame c = Ok s' /\ bounds s' = bounds s /\ (size (wins s) <= size (wins s'))%nat /\ (forall x, wins s !! x = None -> wins s' !! x = None) /\
    (forall x v, wins s !! x = Some v -> x <> c -> exists v', wins s' !! x = Some v' /\ keeps v v' /\ relinked p v v' x) /\
    (exists v', wins s' !! p = Some v' /\ fChildList v' = Some c) /\
    exists u, wins s' !! c = Some u /\ keeps vc u /\ fNextSibling u = fChildList vp /\ fParent u = Some p /\ fChildList u = fChildList vc /\ fFrame u = frame /\
      gc_renderer (fGC u) = gc_renderer (fGC vp).
Proof.
  intros Hp Hc Hne Hh. unfold attach. rewrite (get_fine _ _ _ Hp). cbn [cbind]. rewrite (modify_fine _ _ _ _ Hc). cbn [cbind].
  rewrite (modify_fine _ _ _ _ (put_lookup _ _ _)). cbn [cbind]. rewrite (modify_fine _ _ _ _ (put_lookup _ _ _)). cbn [cbind].
  match goal with |- context [put (put (put s c _) c _) c ?u] => set (v3 := u) end. set (s3 := put _ c v3).
  assert (forall x, x <> c -> wins s3 !! x = wins s !! x) as H3 by (intros x Hx; unfold s3; simpl; by rewrite !lookup_insert_ne).
  assert (wins s3 !! c = Some v3) as Hc3 by apply put_lookup. assert (bounds s3 = bounds s) as Eb3 by done. clearbody s3.
  assert (exists s4, (match fChildList vp with Some h => modify s3 h (set_prev (Some (NextOf c))) | None => Ok s3 end) = Ok s4 /\ bounds s4 = bounds s /\ wins s4 !! p = Some vp /\ wins s4 !! c = Some v3 /\
    forall x, x <> p -> x <> c -> wins s4 !! x = wins s !! x \/ exists v, wins s !! x = Some v /\ wins s4 !! x = Some (set_prev (Some (NextOf c)) v)) as (s4 & E4 & Eb4 & Hp4 & Hc4 & Ho4).
  { destruct (fChildList vp) as [h|] eqn:Eh; [|exists s3; split_and!; [done|done|by rewrite H3|done|intros x _ Hx; left; by apply H3]].
    destruct (Hh h eq_refl) as (Hhp & Hhc & vh & Hvh). rewrite (modify_fine _ _ vh) by (by rewrite H3). eexists. split; [done|]. split; [done|]. simpl. rewrite !lookup_insert_ne by done.
    split_and!; [by rewrite H3|done|]. intros x Hx1 Hx2. destruct (decide (x = h)) as [->|Hxh]; [right; exists vh; by rewrite lookup_insert_eq|left; rewrite lookup_insert_ne by done; by apply H3]. }
  rewrite E4. cbn [cbind]. rewrite (modify_fine _ _ _ _ Hp4). cbn [cbind]. rewrite (modify_fine _ _ v3) by (simpl; by rewrite lookup_insert_ne).
  set (p' := set_children (Some c) vp). set (u := set_parent (Some p) v3). set (s' := put (put s4 p p') c u).
  assert (wins s' !! c = Some u) as Hcu by apply put_lookup. assert (wins s' !! p = Some p') as Hpp by (simpl; rewrite lookup_insert_ne by done; apply lookup_insert_eq).
  assert (forall x, x <> p -> x <> c -> wins s' !! x = wins s4 !! x) as Hs' by (intros x Hx1 Hx2; simpl; by rewrite !lookup_insert_ne).
  assert (forall x v, wins s !! x = Some v -> x <> c -> exists v', wins s' !! x = Some v' /\ keeps v v' /\ relinked p v v' x) as Hold.
  { intros x v Hv Hx. destruct (decide (x = p)) as [->|Hxp]; [exists p'; rewrite Hp in Hv; injection Hv as <-; done|]. rewrite Hs' by done.
    destruct (Ho4 x Hxp Hx) as [->|(w & Hw & ->)]; [by exists v|]. rewrite Hv in Hw. injection Hw as <-. by eexists. }
  assert (forall x, wins s !! x = None -> wins s' !! x = None) as Hnone.
  { intros x Hx. rewrite Hs' by congruence. destruct (Ho4 x) as [->|(w & Hw & _)]; congruence. }
  exists s'. split_and!; [done|done| |done|done|by exists p'|by exists u].
  rewrite <- !size_dom. apply subseteq_size. intros x [v Hv]%elem_of_dom. apply elem_of_dom. destruct (decide (x = c)) as [->|Hx]; [by exists u|]. destruct (Hold x v Hv Hx) as (v' & ? & _). by exists v'.
Qed.

Lemma first_child t s p vp h : wok t s -> p ∈ ids t -> wins s !! p = Some vp -> fChildList vp = Some h -> h ∈ ids t /\ h <> p.
Proof.
  intros Hw Hp Hv Eh. destruct (subtree_at p t Hp) as (u & Hu & Er). destruct (subtree_shaped s u t Hu None (wk_shaped _ _ Hw)) as [pa Hs].
  pose proof (subtree_NoDup u t Hu (wk_nodup _ _ Hw)) as Hnd. pose proof (subtree_ids u t Hu) as Hids. destruct u as [q ts]. simpl in Er. subst q.
  apply shaped_node in Hs as ((v & Hv' & _ & Ec & _) & _). rewrite Hv in Hv'. injection Hv' as <-. destruct ts as [|a ts]; [simpl in Ec; congruence|]. simpl in Ec. assert (h = root a) as -> by congruence.
  split; [apply Hids, (ids_sub p (a :: ts) a); [by left|apply root_ids]|]. intros E. simpl in Hnd. apply NoDup_cons in Hnd as [Hnd _]. apply Hnd. rewrite <- E, elem_of_app. left. apply root_ids.
Qed.

(** A window joins the tree. *)
Lemma attach_wok t s p frame c vc : wok t s -> p ∈ ids t -> wins s !! c = Some vc -> c ∉ ids t -> (forall r, LocalToScreen s p frame = Ok r -> inner r) ->
  exists s' t', attach s p frame c = Ok s' /\ wok t' s' /\ root t' = root t /\ p ∈ ids t' /\ exists u, wins s' !! c = Some u.
Proof.
  intros Hw Hp Hc Hct Hr. pose proof Hw as [Hsh Hnd Hrd Hl Hin Hfr Hsc Hbd]. destruct (wok_get t s p Hw Hp) as (vp & Hvp & _ & Hrp & _).
  destruct (Hfr c vc Hc Hct) as [Hgc [Epc Ecc] (Ev & Ek & Eg)]. assert (p <> c) as Hne by (by intros ->).
  destruct (attach_ok s p frame c vp vc Hvp Hc Hne) as (s' & E & Eb & Hsz & Hnone & Hold & (p' & Hp' & Ep') & u & Hu & Hku & En & Epu & Ecu & Efu & Eru).
  { intros h Eh. destruct (first_child t s p vp h Hw Hp Hvp Eh) as [Hht Hhp]. split_and!; [done|by intros ->|]. by apply (shaped_dom s t None Hsh), elem_of_dom in Hht. }
  destruct (graft_at p c t Hp) as [t' Hg]. pose proof (graft_ids p c t t' Hg) as Hids. exists s', t'. split; [done|].
  assert (forall x, x ∈ ids t' <-> x = c \/ x ∈ ids t) as Hin' by (intros x; rewrite Hids; apply elem_of_cons).
  assert (forall x, x ∈ ids t -> exists v v', wins s !! x = Some v /\ wins s' !! x = Some v' /\ keeps v v' /\ relinked p v v' x) as Hget.
  { intros x Hx. pose proof (shaped_dom s t None Hsh x Hx) as [v Hv]%elem_of_dom. destruct (Hold x v Hv ltac:(by intros ->)) as (v' & Hv' & H1 & H2). eauto 10. }
  assert (forall w r r', w ∈ ids t -> LocalToScreen s' w r = Ok r' -> LocalToScreen s w r = Ok r') as Hplace.
  { intros w r r' Hwt Er. destruct (located s t 1 w r Hsh Hnd Hwt) as [r0 E0]. fold (LocalToScreen s w r) in E0. assert (LocalToScreen s' w r = Ok r0) as E1; [|congruence].
    apply (place_agree t s s'); try done. intros x Hx. destruct (Hget x Hx) as (v & v' & H1 & H2 & _ & _ & H3 & H4 & _). eauto 10. }
  split; [|split; [by eapply graft_root|split; [apply Hin'; by right|by exists u]]]. constructor.
  - eapply (graft_shaped s s' p c t t' u Hg Hnd); try done; [| |by rewrite Ecu|congruence].
    + intros x v Hx Hv. destruct (Hold x v Hv ltac:(by intros ->)) as (v' & Hv' & _ & H2). eauto.
    + intros v Hv. rewrite Hvp in Hv. injection Hv as <-. eauto.
  - rewrite Hids. by constructor.
  - intros x v [->|Hx]%Hin' Hv; [rewrite Hu in Hv; injection Hv as <-; by eapply keeps_good|]. destruct (Hget x Hx) as (w & w' & H1 & H2 & H3 & _). rewrite H2 in Hv. injection Hv as <-. eapply keeps_good; [exact H3|by eapply Hrd].
  - destruct (keeps_regions s s' c vc u Hc Hu Hku) as (E1 & E2 & E3). eapply graft_laid; [exact Hg|rewrite E1; unfold vis; by rewrite Hc|rewrite E2; unfold clp; by rewrite Hc|rewrite E3; unfold gcc; by rewrite Hc|].
    eapply laid_regions; [|exact Hl]. intros x Hx. destruct (Hget x Hx) as (w & w' & H1 & H2 & H3 & _). destruct (keeps_regions s s' x w w' H1 H2 H3) as (-> & -> & ->). split_and!; [done|done|]. by apply (wok_gcc t).
  - intros x v w r [->|Hx]%Hin' Hv Epv Er.
    + rewrite Hu in Hv. injection Hv as <-. assert (w = p) as -> by congruence. rewrite Efu in Er. by apply Hr, Hplace.
    + destruct (Hget x Hx) as (y & y' & H1 & H2 & _ & (_ & F1 & F2 & _)). rewrite H2 in Hv. injection Hv as <-. rewrite F1 in Epv. rewrite F2 in Er.
      assert (w ∈ ids t) as Hwt by (destruct (shaped_parent s t None x Hsh Hx) as (z & Hz & _ & [[_ Ez]|(q & Hq & Ez)]); congruence). eapply Hin; [exact Hx|done|done|by apply Hplace].
  - intros x v Hv Hx. rewrite Hin' in Hx. destruct (wins s !! x) as [y|] eqn:Hy; [|by rewrite Hnone in Hv].
    destruct (Hold x y Hy ltac:(intros ->; apply Hx; by left)) as (y' & Hy' & Hk & (_ & F1 & _ & _ & F5)). rewrite Hy' in Hv. injection Hv as <-.
    destruct (Hfr x y Hy ltac:(intros H; apply Hx; by right)) as [G1 [G2 G3] (G4 & G5 & G6)]. pose proof (keeps_good _ _ Hk G1). destruct Hk as (K1 & K2 & K3 & K4 & K5). split; [done|rewrite F1, F5 by (intros ->; apply Hx; by right); done|rewrite K3, K4, K5; done].
  - rewrite (graft_root _ _ _ _ Hg). destruct (Hget (root t) (root_ids t)) as (w & w' & H1 & H2 & H3 & _). by destruct (keeps_regions s s' (root t) w w' H1 H2 H3) as (-> & _).
  - by rewrite Eb.
Qed.

Lemma AddChild_ok t s p frame c vc : wok t s -> p ∈ ids t -> wins s !! c = Some vc -> c ∉ ids t -> (forall r, LocalToScreen s p frame = Ok r -> inner r) ->
  fine (fun s' => exists t', wok t' s' /\ root t' = root t) (AddChild in_place s p frame c).
Proof.
  intros Hw Hp Hc Hct Hr. destruct (attach_wok t s p frame c vc Hw Hp Hc Hct Hr) as (s' & t' & E & Hw' & Er & Hp' & u & Hu). unfold AddChild. rewrite E. cbn [cbind].
  rewrite (get_fine _ _ _ Hu). cbn [cbind]. destruct (fIsVisible u); [|by exists t']. eapply fine_impl; [by apply (wok_update t')|]. intros s2 H2. by exists t'.
Qed.

(** DrawLine draws within the clip region. *)
Lemma lines_in_ok x1 y1 x2 y2 color l : small x1 -> small y1 -> small x2 -> small y2 -> Forall (fun r => left r <= right r /\ top r <= bottom r) l ->
  exists ds, lines_in x1 y1 x2 y2 color l = Ok ds /\ forall d, d ∈ ds -> exists r a b c e, r ∈ l /\ d = DLine a b c e color /\ inside r a b /\ inside r c e.
Proof.
  intros S1 T1 S2 T2. induction 1 as [|r l [Hx Hy] Hl IH]; [exists []; split; [done|]; intros d Hd; by apply elem_of_nil in Hd|]. destruct IH as (ds & E & Hds). cbn [lines_in]. unfold line_in.
  destruct (clip_line_ok r Hx Hy (Z.to_nat (Z.abs (x2 - x1) + Z.abs (y2 - y1))) x1 y1 x2 y2 S1 T1 S2 T2 ltac:(lia)) as (o & -> & Ho). cbn [cbind]. rewrite E. cbn [cbind]. eexists. split; [done|].
  intros d [Hd|Hd]%elem_of_app.
  - destruct o as [[[[a b] c] e]|]; [|by apply elem_of_nil in Hd]. apply list_elem_of_singleton in Hd as ->. exists r, a, b, c, e. destruct Ho. split_and!; [by left|done|done|done].
  - destruct (Hds d Hd) as (r' & a & b & c & e & Hr & H). exists r', a, b, c, e. split; [by right|done].
Qed.

(** The rectangles of a graphics context are valid. *)
Lemma wok_valid t s x v : wok t s -> wins s !! x = Some v -> Forall (fun r => left r <= right r /\ top r <= bottom r) (fRects (gc_clip (fGC v))).
Proof.
  intros Hw Hv. assert (gr (gc_clip (fGC v))) as [Hr _].
  { destruct (decide (x ∈ ids t)) as [Hx|Hx]; [apply (wk_ready _ _ Hw x v Hx Hv)|apply (dt_good _ (wk_free _ _ Hw x v Hv Hx))]. }
  eapply Forall_impl; [apply Hr|]. intros r (_ & H). exact H.
Qed.

(** FillRect of a graphics context stays within its clip region. *)
Lemma FillRect_within g x1 y1 x2 y2 d : d ∈ FillRect g x1 y1 x2 y2 -> exists r, d = DFill r (gc_color g) /\ sub [r] (fRects (gc_clip g)).
Proof.
  unfold FillRect. destruct (if decide (s32 (x2 + gc_x g) < _) then _ else _) as [a1 a2]. destruct (if decide (s32 (y2 + gc_y g) < _) then _ else _) as [b1 b2].
  intros (c & Hd & Hc)%list_elem_of_bind. unfold fill_in in Hd. case_decide; [|by apply elem_of_nil in Hd]. apply list_elem_of_singleton in Hd as ->.
  eexists. split; [done|]. intros x y [Hi|Hi]%pts_cons; [|by apply pts_nil in Hi]. exists c. split; [done|]. unfold inside in *. simpl in Hi. rewrite !max_spec, !min_spec in Hi. lia.
Qed.

End operations.

End invariant.

End WinRun.
