(* ===== verification/WinSafe.v ===== *)
(** The window server as a machine: windows are created, added, shown, hidden,
  invalidated, painted and drawn on in any order. *)
From S2P Require Import Prelude Region RegionProof RegionOps Line Win WinProof WinRun.
Import Region RegionProof RegionOps Line Win WinProof WinRun.
Local Open Scope Z_scope.
Local Open Scope c_scope.

Module WinSafe.

Inductive op :=
| ONew (x : nat) (id : Z) (inredraw : bool) (color gx gy : Z)
| OAdd (p : nat) (frame : rect) (c : nat)
| OShow (x : nat)
| OHide (x : nat)
| OInvalidate (x : nat) (r : rect)
| OBegin (x : nat)
| OEnd (x : nat)
| OFill (x : nat) (x1 y1 x2 y2 : Z)
| OLine (x : nat) (x1 y1 x2 y2 : Z).

(** The root window, attached to the renderer, is window 0. *)
Definition in_tree (s : world) (x : nat) : Prop := exists v, wins s !! x = Some v /\ (x = 0%nat \/ fParent v <> None).

(** Windows are allocated before they are used, a window is added once and below the
  root window, rectangles have screen coordinates away from the ends of int, and the ends
  of lines have coordinates of 15 bits, whose products fit an int. *)
Definition allowed (s : world) (o : op) : Prop :=
  match o with
  | ONew x _ _ _ _ _ => wins s !! x = None
  | OAdd p frame c => in_tree s p /\ c <> 0%nat /\ (exists v, wins s !! c = Some v /\ fParent v = None) /\ (forall r, LocalToScreen s p frame = Ok r -> inner r)
  | OShow x | OHide x | OFill x _ _ _ _ => wins s !! x <> None
  | OInvalidate x r => in_tree s x /\ (forall sr, LocalToScreen s x r = Ok sr -> good sr)
  | OBegin x | OEnd x => in_tree s x
  | OLine x x1 y1 x2 y2 => exists v, wins s !! x = Some v /\ small (s32 (x1 + gc_x (fGC v))) /\ small (s32 (y1 + gc_y (fGC v))) /\ small (s32 (x2 + gc_x (fGC v))) /\ small (s32 (y2 + gc_y (fGC v)))
  end.

Section machine.
Context (in_place : Z -> Z -> bool).

Definition perform (s : world) (o : op) : cres world :=
  match o with
  | ONew x id inredraw color gx gy => Ok (put s x (new_window id inredraw color gx gy))
  | OAdd p frame c => AddChild in_place s p frame c
  | OShow x => Show in_place s x
  | OHide x => Hide in_place s x
  | OInvalidate x r => Invalidate in_place s x r
  | OBegin x => let! (_, s) := BeginPaint in_place s x in Ok s
  | OEnd x => EndPaint s x
  | OFill x x1 y1 x2 y2 => draw_fill s x x1 y1 x2 y2
  | OLine x x1 y1 x2 y2 => draw_line s x x1 y1 x2 y2
  end.

(** The server with its root window on a screen. *)
Definition start (screen : rect) (id : Z) (inredraw : bool) (color gx gy : Z) : cres world :=
  let s := World ∅ screen [] [] in
  let! v := new_root in_place s id inredraw color gx gy in Ok (put s 0%nat v).

Inductive reach (screen : rect) : world -> Prop :=
| r_start id inredraw color gx gy s : start screen id inredraw color gx gy = Ok s -> reach screen s
| r_step s o s' : reach screen s -> allowed s o -> perform s o = Ok s' -> reach screen s'.

(** ** The invariant *)

Definition served (screen : rect) (s : world) : Prop := exists t, wok screen t s /\ root t = 0%nat.

Lemma Include_points r x : gr r -> fRects r = [] -> good x -> fine in_place (fun r' => gr r' /\ sub (fRects r') [x]) (Include in_place r x).
Proof.
  intros [Hr Ho] E Hx. eapply fine_impl; [eapply ends_fine; [apply Include_ok; [done|done|lia]|done]|]. intros r' [H1 H2]. split; [done|]. intros p q Hp. apply pts_cons. left.
  apply (proj1 (proj2 H2)) in Hp as [Hp|Hp]; [|done]. rewrite E in Hp. by apply pts_nil in Hp.
Qed.

Lemma start_ok screen id inredraw color gx gy : good screen -> fine in_place (served screen) (start screen id inredraw color gx gy).
Proof.
  intros Hb. unfold start, new_root. cbv zeta. cbn [fVisibleRegion new_window].
  eapply (fine_bind in_place (fun v => good_win v /\ skel v = (None, None, None, screen, true) /\ sub (fRects (fClipRegion v)) (fRects (fVisibleRegion v)) /\ sub (fRects (gc_clip (fGC v))) (fRects (fClipRegion v)) /\ sub (fRects (fVisibleRegion v)) [screen])).
  - eapply fine_bind; [apply (Include_points (Clear in_place empty) screen); [by apply Clear_gr, gr_empty|reflexivity|exact Hb]|]. intros r [Hr Hrs]. eapply fine_bind; [apply SetTo_gr; [apply gr_empty|exact Hr]|]. intros c [Hc Ec].
    unfold SetClipRegion. cbn [gc_clip gc_renderer fGC new_window bounds]. eapply (fine_bind in_place (fun g => gr (gc_clip g) /\ gc_renderer g = true /\ sub (fRects (gc_clip g)) (fRects c))).
    + eapply fine_bind; [apply SetTo_gr; [apply gr_empty|exact Hc]|]. intros d [Hd Ed]. eapply fine_bind; [apply ConstrainTo_gr, Hd|]. intros e (He & Hs & _). cbn [WinProof.fine gc_clip gc_renderer]. rewrite <- Ed. done.
    + intros g (G1 & G2 & G3). cbn [WinProof.fine]. split_and!; [split; simpl; try done; apply gr_empty|unfold skel; simpl; by rewrite G2|simpl; rewrite Ec; by intros x y|exact G3|exact Hrs].
  - intros v (Hg & Es & Hs1 & Hs2 & Hs0). cbn [WinProof.fine]. exists (Node 0 []). split; [|done]. unfold skel in Es. injection Es as E1 E2 E3 E4 E5.
    set (s := put _ _ v). assert (wins s !! 0%nat = Some v) as Hv by apply put_lookup. constructor.
    + apply shaped_node. split_and!; [exists v|done|done]. done.
    + simpl. apply NoDup_singleton.
    + intros x u ->%list_elem_of_singleton Hu. congruence.
    + apply laid_node. unfold clp, vis, gcc. rewrite Hv. split_and!; [done|done|done|intros u Hu; by apply elem_of_nil in Hu|done].
    + intros c u w r ->%list_elem_of_singleton Hu Ep. congruence.
    + intros x u Hu Hx. simpl in Hu. rewrite lookup_insert_ne, lookup_empty in Hu by (intros <-; apply Hx; by left). done.
    + unfold vis. simpl root. rewrite Hv. exact Hs0.
    + done.
Qed.

Lemma in_tree_ids scr t s x : wok scr t s -> root t = 0%nat -> in_tree s x -> x ∈ ids t.
Proof.
  intros Hw Hr (v & Hv & H). destruct (decide (x ∈ ids t)) as [|Hx]; [done|]. destruct (wk_free _ _ _ Hw x v Hv Hx) as [_ [Ep _] _].
  destruct H as [->|H]; [|done]. exfalso. apply Hx. rewrite <- Hr. apply root_ids.
Qed.

Lemma out_of_tree scr t s x v : wok scr t s -> root t = 0%nat -> wins s !! x = Some v -> fParent v = None -> x <> 0%nat -> x ∉ ids t.
Proof.
  intros Hw Hr Hv Ep Hx Hin. destruct (shaped_parent s t None x (wk_shaped _ _ _ Hw) Hin) as (u & Hu & _ & [[E _]|(p & _ & E)]); congruence.
Qed.

Lemma perform_ok scr s o : served scr s -> allowed s o -> fine in_place (served scr) (perform s o).
Proof.
  intros (t & Hw & Hr). assert (forall s', wok scr t s' -> served scr s') as Hk by (intros s' H; by exists t).
  destruct o as [x id b color gx gy|p frame c|x|x|x r|x|x|x x1 y1 x2 y2|x x1 y1 x2 y2]; cbn [allowed perform].
  - intros Hx. apply Hk. by apply new_ok.
  - intros (Hp & Hc0 & (v & Hv & Ep) & Hfr). eapply fine_impl; [eapply (AddChild_ok scr in_place t s p frame c v); try done; [by eapply in_tree_ids|by eapply out_of_tree]|].
    intros s' (t' & Hw' & E). exists t'. split; [done|congruence].
  - intros Hx. eapply fine_impl; [by apply set_shown_ok|exact Hk].
  - intros Hx. eapply fine_impl; [by apply set_shown_ok|exact Hk].
  - intros [Hx Hg]. eapply fine_impl; [apply Invalidate_ok; [done|by eapply in_tree_ids|exact Hg]|exact Hk].
  - intros Hx. eapply fine_bind; [eapply (BeginPaint_ok scr in_place t); [done|by eapply in_tree_ids]|]. intros [q s'] H. by apply Hk.
  - intros Hx. eapply fine_impl; [apply (EndPaint_ok scr in_place t); [done|by eapply in_tree_ids]|exact Hk].
  - intros Hx. unfold draw_fill. destruct (wins s !! x) as [v|] eqn:Hv; [|done]. rewrite (get_fine _ _ _ Hv). cbn [cbind WinProof.fine]. apply Hk. by eapply wok_wins.
  - intros (v & Hv & S1 & T1 & S2 & T2). unfold draw_line, DrawLine. rewrite (get_fine _ _ _ Hv). cbn [cbind].
    destruct (lines_in_ok _ _ _ _ (gc_color (fGC v)) (fRects (gc_clip (fGC v))) S1 T1 S2 T2 (wok_valid _ _ _ _ _ Hw Hv)) as (ds & -> & _). apply Hk. by eapply wok_wins.
Qed.

Lemma reach_served screen s : good screen -> reach screen s -> served screen s.
Proof.
  intros Hb. induction 1 as [id b color gx gy s E|s o s' _ IH Ha E].
  - pose proof (start_ok screen id b color gx gy Hb) as H. by rewrite E in H.
  - pose proof (perform_ok screen s o IH Ha) as H. by rewrite E in H.
Qed.

(** C29. On a screen whose server has done any sequence of new windows, AddChild, Show,
  Hide, Invalidate, BeginPaint, EndPaint, FillRect and DrawLine, lines with coordinates
  within 15 bits: the clip regions of different
  windows have no point in common; the region a window's graphics context draws in is
  within its clip region, so what FillRect draws for one window touches no point another
  window draws on, and each piece of a line has both ends in one rectangle of the clip
  region; and each further operation succeeds, unless realloc moves an array of
  rectangles. *)
Theorem windows_apart screen s : good screen -> reach screen s ->
  (forall a b, a <> b -> dis (clp s a) (clp s b)) /\
  (forall a, sub (gcc s a) (clp s a)) /\
  (forall a x1 y1 x2 y2 s', perform s (OFill a x1 y1 x2 y2) = Ok s' ->
     exists l, drawn s' = drawn s ++ l /\ forall d, d ∈ l -> exists r color, d = DFill r color /\ sub [r] (clp s a) /\ forall b, a <> b -> dis [r] (clp s b)) /\
  (forall a x1 y1 x2 y2 s', allowed s (OLine a x1 y1 x2 y2) -> perform s (OLine a x1 y1 x2 y2) = Ok s' ->
     exists l, drawn s' = drawn s ++ l /\ forall d, d ∈ l -> exists r u v w z color, d = DLine u v w z color /\ inside r u v /\ inside r w z /\ sub [r] (clp s a) /\ forall b, a <> b -> dis [r] (clp s b)) /\
  (forall o, allowed s o -> fine in_place (fun s' => reach screen s') (perform s o)).
Proof.
  intros Hb Hreach. destruct (reach_served screen s Hb Hreach) as (t & Hw & Hr).
  assert (forall a b, a <> b -> dis (clp s a) (clp s b)) as Hdis by (intros a b; by apply (wok_apart screen t)). split_and!; [done|intros a; by apply (wok_gcc screen t)| | |].
  - intros a x1 y1 x2 y2 s' E. cbn [perform] in E. unfold draw_fill, get in E. destruct (wins s !! a) as [v|] eqn:Hv; [|done]. injection E as <-. eexists. split; [done|].
    intros d (r & -> & Hs)%FillRect_within. exists r, (gc_color (fGC v)). split; [done|]. assert (sub [r] (clp s a)) as Hsub.
    { eapply sub_trans; [exact Hs|]. pose proof (wok_gcc screen t s a Hw) as H. unfold gcc in H. by rewrite Hv in H. }
    split; [done|]. intros b Hne. eapply dis_sub; [by apply (Hdis a b Hne)|done|by intros x y].
  - intros a x1 y1 x2 y2 s' (v & Hv & S1 & T1 & S2 & T2) E. cbn [perform] in E. unfold draw_line, DrawLine in E. rewrite (get_fine _ _ _ Hv) in E. cbn [cbind] in E.
    destruct (lines_in_ok _ _ _ _ (gc_color (fGC v)) (fRects (gc_clip (fGC v))) S1 T1 S2 T2 (wok_valid _ _ _ _ _ Hw Hv)) as (ds & Eds & Hds). rewrite Eds in E. injection E as <-. exists ds. split; [done|].
    intros d Hd. destruct (Hds d Hd) as (r & p & q & u & w & Hrin & -> & H1 & H2). exists r, p, q, u, w, (gc_color (fGC v)). assert (sub [r] (clp s a)) as Hsub.
    { intros x y Hp. apply (wok_gcc screen t s a Hw). unfold gcc. rewrite Hv. exists r. split; [done|]. apply pts_cons in Hp as [Hp|Hp]; [done|by apply pts_nil in Hp]. }
    split_and!; try done. intros b Hne. eapply dis_sub; [by apply (Hdis a b Hne)|done|by intros x y].
  - intros o Ha. pose proof (perform_ok screen s o (ex_intro _ t (conj Hw Hr)) Ha) as H. destruct (perform s o) as [s'| |] eqn:E; [|done|done]. by eapply r_step.
Qed.

End machine.

(** ** A screen with two windows *)

Abbreviation stays := (fun _ _ => true) (only parsing).
Definition screen : rect := Rect 0 0 99 99.
Definition one_op (m : cres world) (o : op) : cres world := let! s := m in perform stays s o.
Definition world0 : cres world := start stays screen 1 false 0 0 0.
Definition world1 : cres world := one_op (one_op (one_op world0 (ONew 1 10 false 7 0 0)) (OAdd 0 (Rect 10 10 40 40) 1)) (OShow 1).
Definition world2 : cres world := one_op (one_op (one_op world1 (ONew 2 11 false 8 0 0)) (OAdd 0 (Rect 20 20 60 60) 2)) (OShow 2).

Lemma reach_op m o s s' : m = Ok s -> reach stays screen s -> allowed s o -> one_op m o = Ok s' -> reach stays screen s'.
Proof. intros -> Hr Ha E. by eapply r_step. Qed.

(** The second window is in front: what is left of the first is an L. *)
Example world2_clips : exists s, world2 = Ok s /\ clp s 2 = [Rect 20 20 60 60] /\ clp s 1 = [Rect 10 10 19 40; Rect 20 10 40 19].
Proof. eexists. split; [vm_compute; reflexivity|]. vm_compute. split; reflexivity. Qed.

(** Windows are reached by steps whose guards evaluate. *)
Ltac evaluates := vm_compute; reflexivity.
Ltac rect_in := let r := fresh in let E := fresh in intros r E; vm_compute in E; injection E as <-; unfold inner; simpl; lia.
Ltac add_allowed := split; [eexists; split; [evaluates|by left]|split; [lia|split; [eexists; split; evaluates|rect_in]]].
Ltac shown_allowed := vm_compute; discriminate.

Lemma world0_reach : exists s, world0 = Ok s /\ reach stays screen s.
Proof. eexists. split; [evaluates|]. eapply (r_start stays screen 1 false 0 0 0). evaluates. Qed.

Lemma world1_reach : exists s, world1 = Ok s /\ reach stays screen s.
Proof.
  eexists. split; [evaluates|]. eapply (reach_op (one_op (one_op world0 (ONew 1 10 false 7 0 0)) (OAdd 0 (Rect 10 10 40 40) 1)) (OShow 1)); [| | |evaluates]; [evaluates| |shown_allowed].
  eapply (reach_op (one_op world0 (ONew 1 10 false 7 0 0)) (OAdd 0 (Rect 10 10 40 40) 1)); [| | |evaluates]; [evaluates| |add_allowed].
  destruct world0_reach as (s & E & Hr). eapply (reach_op world0 (ONew 1 10 false 7 0 0) s); [exact E|exact Hr| |evaluates]. vm_compute in E. injection E as <-. evaluates.
Qed.

Lemma world2_reach : exists s, world2 = Ok s /\ reach stays screen s.
Proof.
  eexists. split; [evaluates|]. eapply (reach_op (one_op (one_op world1 (ONew 2 11 false 8 0 0)) (OAdd 0 (Rect 20 20 60 60) 2)) (OShow 2)); [| | |evaluates]; [evaluates| |shown_allowed].
  eapply (reach_op (one_op world1 (ONew 2 11 false 8 0 0)) (OAdd 0 (Rect 20 20 60 60) 2)); [| | |evaluates]; [evaluates| |add_allowed].
  destruct world1_reach as (s & E & Hr). eapply (reach_op world1 (ONew 2 11 false 8 0 0) s); [exact E|exact Hr| |evaluates]. vm_compute in E. injection E as <-. evaluates.
Qed.

Lemma windows_apart_witness : exists s, world2 = Ok s /\ clp s 1 = [Rect 10 10 19 40; Rect 20 10 40 19] /\ dis (clp s 1) (clp s 2) /\ sub (gcc s 1) (clp s 1).
Proof.
  destruct world2_reach as (s & E & Hr). exists s. split; [exact E|]. split.
  - vm_compute in E. injection E as <-. evaluates.
  - destruct (windows_apart stays screen s) as (H1 & H2 & _ & _); [unfold good, inner; simpl; lia|exact Hr|]. split; [apply H1; lia|apply H2].
Defined.

End WinSafe.
