(* ===== verification/Pixels.v ===== *)
(** srv/window/Renderer.h, Renderer_8bpp.cpp and Renderer_vga.cpp: drawing on a frame
  buffer of one byte per pixel, and the mouse pointer on top of it.

  The frame buffer is a block of bytes; [ptr] and the like are offsets from
  BufferBaseAddress.  An image is a block of its own.  The loops over rows and columns
  run for as many turns as the code has; the loops with a condition run on fuel. *)
From S2P Require Import Prelude LibC Bytes Region Line.
Import LibC Bytes Region Line.
Local Open Scope Z_scope.
Local Open Scope c_scope.

Module Pixels.

Record renderer := Renderer { BufferWidth : Z; BufferHeight : Z; BufferBytesPerRow : Z }.
Definition BufferBounds (g : renderer) : rect := Rect 0 0 (s32 (BufferWidth g - 1)) (s32 (BufferHeight g - 1)).

(** The offset of a pixel. *)
Definition spot (g : renderer) (x y : Z) : Z := x + s32 (y * BufferBytesPerRow g).

(** ** FillRect *)

Definition longcolor (color : Z) : Z :=
  Z.lor (Z.lor (Z.lor (u8 color) (Z.shiftl (u8 color) 8)) (Z.shiftl (u8 color) 16)) (Z.shiftl (u8 color) 24).

(** The store of a long on a little-endian machine. *)
Definition store32 (m : list Z) (ptr v : Z) : cres (list Z) := store m ptr [v; Z.shiftr v 8; Z.shiftr v 16; Z.shiftr v 24].

Fixpoint fill_head (m : list Z) (ptr x x2 color : Z) (fuel : nat) : cres (list Z * Z * Z) :=
  if decide (x <= x2 /\ Z.land x 3 <> 0) then
    match fuel with
    | O => Fault
    | S fuel => let! m := wr m ptr color in fill_head m (ptr + 1) (s32 (x + 1)) x2 color fuel
    end
  else Ok (m, ptr, x).
Fixpoint fill_words (m : list Z) (ptr x x2 color : Z) (fuel : nat) : cres (list Z * Z * Z) :=
  if decide (s32 (x + 4) <= x2) then
    match fuel with
    | O => Fault
    | S fuel => let! m := store32 m ptr (longcolor color) in fill_words m (ptr + 4) (s32 (x + 4)) x2 color fuel
    end
  else Ok (m, ptr, x).
Fixpoint fill_tail (m : list Z) (ptr x x2 color : Z) (fuel : nat) : cres (list Z * Z * Z) :=
  if decide (x <= x2) then
    match fuel with
    | O => Fault
    | S fuel => let! m := wr m ptr color in fill_tail m (ptr + 1) (s32 (x + 1)) x2 color fuel
    end
  else Ok (m, ptr, x).
Definition fill_row (m : list Z) (ptr x1 x2 color : Z) : cres (list Z * Z) :=
  let fuel := Z.to_nat (x2 - x1 + 1) in
  let! (m, ptr, x) := fill_head m ptr x1 x2 color fuel in
  let! (m, ptr, x) := fill_words m ptr x x2 color fuel in
  let! (m, ptr, x) := fill_tail m ptr x x2 color fuel in Ok (m, ptr).
(** The rows from [y] on. *)
Fixpoint fill_rows (m : list Z) (ptr y x1 x2 y2 wrap color : Z) (fuel : nat) : cres (list Z) :=
  if decide (y <= y2) then
    match fuel with
    | O => Fault
    | S fuel => let! (m, ptr) := fill_row m ptr x1 x2 color in fill_rows m (ptr + wrap) (s32 (y + 1)) x1 x2 y2 wrap color fuel
    end
  else Ok m.
Definition FillRect (g : renderer) (m : list Z) (x1 y1 x2 y2 color : Z) : cres (list Z) :=
  let wrap := s32 (s32 (BufferBytesPerRow g - s32 (x2 - x1)) - 1) in
  fill_rows m (spot g x1 y1) y1 x1 x2 y2 wrap color (Z.to_nat (y2 - y1 + 1)).

(** ** Blit *)

(** One row: a byte 0xff of the image is transparent. *)
Fixpoint blit_row (m im : list Z) (screen_ptr image_ptr : Z) (n : nat) : cres (list Z) :=
  match n with
  | O => Ok m
  | S n =>
      let! c := rd im image_ptr in
      let! m := (if decide (c <> 255) then wr m screen_ptr c else Ok m) in
      blit_row m im (screen_ptr + 1) (image_ptr + 1) n
  end.
(** [h] rows of [w]; both pointers are behind the row when the offsets are added. *)
Fixpoint blit_rows (m im : list Z) (screen_ptr image_ptr screenOffs imageOffs : Z) (w h : nat) : cres (list Z) :=
  match h with
  | O => Ok m
  | S h =>
      let! m := blit_row m im screen_ptr image_ptr w in
      blit_rows m im (screen_ptr + Z.of_nat w + screenOffs) (image_ptr + Z.of_nat w + imageOffs) screenOffs imageOffs w h
  end.
Definition Blit (g : renderer) (m : list Z) (x y : Z) (im : list Z) (image imageWidth imageHeight imageBytesPerRow : Z) : cres (list Z) :=
  blit_rows m im (spot g x y) image (s32 (BufferBytesPerRow g - imageWidth)) (s32 (imageBytesPerRow - imageWidth)) (Z.to_nat imageWidth) (Z.to_nat imageHeight).

(** ** StretchBlit *)

(** [while (herror >= w)]: the error and the image pointer. *)
Fixpoint advance (herror w p : Z) (fuel : nat) : cres (Z * Z) :=
  if decide (w <= herror) then
    match fuel with O => Fault | S fuel => advance (s32 (herror - w)) w (p + 1) fuel end
  else Ok (herror, p).
(** [while (verror > h)]: the error and the line of the image. *)
Fixpoint descend (verror h line imageBytesPerRow : Z) (fuel : nat) : cres (Z * Z) :=
  if decide (h < verror) then
    match fuel with O => Fault | S fuel => descend (s32 (verror - h)) h (line + imageBytesPerRow) imageBytesPerRow fuel end
  else Ok (verror, line).
Fixpoint stretch_row (m im : list Z) (screen_ptr image_ptr herror iw dw : Z) (n : nat) : cres (list Z) :=
  match n with
  | O => Ok m
  | S n =>
      let! c := rd im image_ptr in
      let! m := (if decide (c <> 255) then wr m screen_ptr c else Ok m) in
      let! (herror, image_ptr) := advance (s32 (herror + iw)) dw image_ptr (Z.to_nat (s32 (herror + iw))) in
      stretch_row m im (screen_ptr + 1) image_ptr herror iw dw n
  end.
Fixpoint stretch_rows (m im : list Z) (screen_ptr line verror screenOffs iw dw ih dh imageBytesPerRow : Z) (w n : nat) : cres (list Z) :=
  match n with
  | O => Ok m
  | S n =>
      let! m := stretch_row m im screen_ptr line 0 iw dw w in
      let! (verror, line) := descend (s32 (verror + ih)) dh line imageBytesPerRow (Z.to_nat (s32 (verror + ih))) in
      stretch_rows m im (screen_ptr + Z.of_nat w + screenOffs) line verror screenOffs iw dw ih dh imageBytesPerRow w n
  end.
Definition StretchBlit (g : renderer) (m : list Z) (imageRect displayRect : rect) (im : list Z) (image imageBytesPerRow : Z) : cres (list Z) :=
  stretch_rows m im (spot g (left displayRect) (top displayRect)) (image + left imageRect + s32 (top imageRect * imageBytesPerRow)) 0
    (s32 (s32 (BufferBytesPerRow g - Width displayRect) - 1)) (Width imageRect) (Width displayRect) (Height imageRect) (Height displayRect) imageBytesPerRow
    (Z.to_nat (right displayRect - left displayRect + 1)) (Z.to_nat (bottom displayRect - top displayRect + 1)).

(** ** DrawLine *)

(** [n] pixels, [step] apart: the vertical and the horizontal line. *)
Fixpoint line_straight (m : list Z) (ptr step color : Z) (n : nat) : cres (list Z) :=
  match n with
  | O => Ok m
  | S n => let! m := wr m ptr color in line_straight m (ptr + step) step color n
  end.
(** A diagonal: [n] pixels, [major] apart, with a step of [minor] whenever the error
  exceeds [big]. *)
Fixpoint line_diagonal (m : list Z) (ptr error major minor big small color : Z) (n : nat) : cres (list Z) :=
  match n with
  | O => Ok m
  | S n =>
      let! m := wr m ptr color in
      let error := s32 (error + small) in
      let '(ptr, error) := if decide (big < error) then (ptr + minor, s32 (error - big)) else (ptr, error) in
      line_diagonal m (ptr + major) error major minor big small color n
  end.
Definition DrawLine (g : renderer) (m : list Z) (x1 y1 x2 y2 color : Z) : cres (list Z) :=
  let '(x1, y1, x2, y2) := if decide (y2 < y1) then (x2, y2, x1, y1) else (x1, y1, x2, y2) in
  let deltaY := s32 (y2 - y1) in
  let deltaX := if decide (x1 < x2) then s32 (x2 - x1) else s32 (x1 - x2) in
  let xDir := if decide (x1 < x2) then 1 else -1 in
  let ptr := spot g x1 y1 in
  if decide (deltaX = 0) then line_straight m ptr (BufferBytesPerRow g) color (Z.to_nat (deltaY + 1))
  else if decide (deltaY = 0) then line_straight m ptr xDir color (Z.to_nat (deltaX + 1))
  else if decide (deltaY < deltaX) then line_diagonal m ptr 0 xDir (BufferBytesPerRow g) deltaX deltaY color (Z.to_nat (deltaX + 1))
  else line_diagonal m ptr 0 (BufferBytesPerRow g) xDir deltaY deltaX color (Z.to_nat (deltaY + 1)).

(** ** CopyRect *)

Fixpoint copy_row (m : list Z) (srcptr offset dX : Z) (n : nat) : cres (list Z) :=
  match n with
  | O => Ok m
  | S n => let! c := rd m srcptr in let! m := wr m (srcptr + offset) c in copy_row m (srcptr + dX) offset dX n
  end.
Fixpoint copy_rows (m : list Z) (srcptr offset dX dY : Z) (w h : nat) : cres (list Z) :=
  match h with
  | O => Ok m
  | S h => let! m := copy_row m srcptr offset dX w in copy_rows m (srcptr + Z.of_nat w * dX + dY) offset dX dY w h
  end.
Definition CopyRect (g : renderer) (m : list Z) (source dest : rect) : cres (list Z) :=
  let bpr := BufferBytesPerRow g in
  let '(dX, startX) := if decide (left source < left dest /\ left dest < right source) then (-1, right source) else (1, left source) in
  let '(dY, startY) := if decide (top source < top dest /\ top dest < bottom source) then (s32 (- s32 (bpr + s32 (dX * s32 (Width source + 1)))), bottom source)
                       else (s32 (bpr - s32 (dX * s32 (Width source - 1))), top source) in
  let offset := s32 (s32 (left dest - left source) + s32 (s32 (top dest - top source) * bpr)) in
  copy_rows m (spot g startX startY) offset dX dY (Z.to_nat (right source - left source + 1)) (Z.to_nat (bottom source - top source + 1)).

(** ** The pointer (Renderer_vga) *)

Definition kCursorBits : list Z :=
  [0x3f;0x3f;0x00;0x00;0xff;0xff;0xff;0xff;0xff;0xff;0xff;0xff;0xff;0xff;0xff;0xff;
   0x3f;0x3f;0x3f;0x3f;0x00;0xff;0xff;0xff;0xff;0xff;0xff;0xff;0xff;0xff;0xff;0xff;
   0xff;0x3f;0x3f;0x3f;0x3f;0x00;0x00;0xff;0xff;0xff;0xff;0xff;0xff;0xff;0xff;0xff;
   0xff;0x3f;0x3f;0x3f;0x3f;0x3f;0x3f;0x00;0xff;0xff;0xff;0xff;0xff;0xff;0xff;0xff;
   0xff;0xff;0x3f;0x3f;0x3f;0x3f;0x3f;0x3f;0x3f;0x00;0xff;0xff;0xff;0xff;0xff;0xff;
   0xff;0xff;0xff;0x3f;0x3f;0x3f;0x3f;0x3f;0x3f;0x3f;0x00;0xff;0xff;0xff;0xff;0xff;
   0xff;0xff;0xff;0x3f;0x3f;0x3f;0x3f;0x3f;0x3f;0xff;0xff;0xff;0xff;0xff;0xff;0xff;
   0xff;0xff;0xff;0xff;0x3f;0x3f;0x3f;0x3f;0x00;0xff;0xff;0xff;0xff;0xff;0xff;0xff;
   0xff;0xff;0xff;0xff;0x3f;0x3f;0x3f;0xff;0x3f;0x00;0xff;0xff;0xff;0xff;0xff;0xff;
   0xff;0xff;0xff;0xff;0xff;0x3f;0xff;0xff;0xff;0x3f;0x00;0xff;0xff;0xff;0xff;0xff;
   0xff;0xff;0xff;0xff;0xff;0xff;0xff;0xff;0xff;0xff;0x3f;0x00;0xff;0xff;0xff;0xff;
   0xff;0xff;0xff;0xff;0xff;0xff;0xff;0xff;0xff;0xff;0xff;0x3f;0x00;0xff;0xff;0xff;
   0xff;0xff;0xff;0xff;0xff;0xff;0xff;0xff;0xff;0xff;0xff;0xff;0x3f;0x00;0xff;0xff;
   0xff;0xff;0xff;0xff;0xff;0xff;0xff;0xff;0xff;0xff;0xff;0xff;0xff;0x3f;0x00;0xff;
   0xff;0xff;0xff;0xff;0xff;0xff;0xff;0xff;0xff;0xff;0xff;0xff;0xff;0xff;0x3f;0xff;
   0xff;0xff;0xff;0xff;0xff;0xff;0xff;0xff;0xff;0xff;0xff;0xff;0xff;0xff;0xff;0xff].

(** The frame buffer, the position of the pointer and what is below it. *)
Record vga := Vga { frame : list Z; fCursorX : Z; fCursorY : Z; fSavedBackground : list Z }.

Definition MIN (a b : Z) : Z := if decide (a < b) then a else b.
Definition cursorDisplayWidth (g : renderer) (cx : Z) : Z := MIN 16 (s32 (BufferBytesPerRow g - cx)).
Definition cursorDisplayHeight (g : renderer) (cy : Z) : Z := MIN 16 (s32 (BufferHeight g - cy)).

(** EraseCursor copies what was saved back, as Blit copies an image. *)
Definition EraseCursor (g : renderer) (s : vga) : cres vga :=
  let cw := cursorDisplayWidth g (fCursorX s) in
  let! m := blit_rows (frame s) (fSavedBackground s) (spot g (fCursorX s) (fCursorY s)) 0 (s32 (BufferBytesPerRow g - cw)) (16 - cw) (Z.to_nat cw)
              (Z.to_nat (cursorDisplayHeight g (fCursorY s))) in
  Ok (Vga m (fCursorX s) (fCursorY s) (fSavedBackground s)).

Fixpoint cursor_row (m saved : list Z) (screen_ptr cursorImage saveBackground : Z) (n : nat) : cres (list Z * list Z) :=
  match n with
  | O => Ok (m, saved)
  | S n =>
      let! b := rd kCursorBits cursorImage in
      let! (m, saved) :=
        (if decide (b <> 255) then
           let! c := rd m screen_ptr in
           let! saved := wr saved saveBackground c in
           let! m := wr m screen_ptr b in Ok (m, saved)
         else let! saved := wr saved saveBackground 255 in Ok (m, saved)) in
      cursor_row m saved (screen_ptr + 1) (cursorImage + 1) (saveBackground + 1) n
  end.
Fixpoint cursor_rows (m saved : list Z) (screen_ptr cursorImage saveBackground stride : Z) (w h : nat) : cres (list Z * list Z) :=
  match h with
  | O => Ok (m, saved)
  | S h =>
      let! (m, saved) := cursor_row m saved screen_ptr cursorImage saveBackground w in
      cursor_rows m saved (screen_ptr + Z.of_nat w + stride) (cursorImage + Z.of_nat w + (16 - Z.of_nat w)) (saveBackground + Z.of_nat w + (16 - Z.of_nat w)) stride w h
  end.
Definition DrawCursor (g : renderer) (s : vga) : cres vga :=
  let cw := cursorDisplayWidth g (fCursorX s) in
  let! (m, saved) := cursor_rows (frame s) (fSavedBackground s) (spot g (fCursorX s) (fCursorY s)) 0 0 (s32 (BufferBytesPerRow g - cw)) (Z.to_nat cw)
                       (Z.to_nat (cursorDisplayHeight g (fCursorY s))) in
  Ok (Vga m (fCursorX s) (fCursorY s) saved).

Definition cursorRect (s : vga) : rect := Rect (fCursorX s) (fCursorY s) (s32 (fCursorX s + 16)) (s32 (fCursorY s + 16)).

(** An operation of the 8-bit renderer, with the pointer taken away if it is in the way. *)
Definition below (g : renderer) (s : vga) (hit : bool) (f : list Z -> cres (list Z)) : cres vga :=
  let! s := (if hit then EraseCursor g s else Ok s) in
  let! m := f (frame s) in
  let s := Vga m (fCursorX s) (fCursorY s) (fSavedBackground s) in
  if hit then DrawCursor g s else Ok s.

(** Renderer_vga::DrawLine clips the line against the pointer to see if it is in the way. *)
Definition vga_DrawLine (g : renderer) (s : vga) (x1 y1 x2 y2 color : Z) : cres vga :=
  let r := cursorRect s in
  let! o := clip_line r x1 y1 x2 y2 (clipmask x1 y1 r) (clipmask x2 y2 r) (Z.to_nat (Z.abs (x2 - x1) + Z.abs (y2 - y1))) in
  below g s (match o with Some _ => true | None => false end) (fun m => DrawLine g m x1 y1 x2 y2 color).
Definition vga_FillRect (g : renderer) (s : vga) (x1 y1 x2 y2 color : Z) : cres vga :=
  below g s (Intersects (Rect x1 y1 x2 y2) (cursorRect s)) (fun m => FillRect g m x1 y1 x2 y2 color).
Definition vga_Blit (g : renderer) (s : vga) (x y : Z) (im : list Z) (image imageWidth imageHeight imageBytesPerRow : Z) : cres vga :=
  below g s (Intersects (Rect x y (s32 (x + imageWidth)) (s32 (y + imageHeight))) (cursorRect s)) (fun m => Blit g m x y im image imageWidth imageHeight imageBytesPerRow).
Definition vga_StretchBlit (g : renderer) (s : vga) (imageRect displayRect : rect) (im : list Z) (image imageBytesPerRow : Z) : cres vga :=
  below g s (Intersects displayRect (cursorRect s)) (fun m => StretchBlit g m imageRect displayRect im image imageBytesPerRow).
Definition vga_CopyRect (g : renderer) (s : vga) (source dest : rect) : cres vga :=
  below g s (Intersects (cursorRect s) source || Intersects (cursorRect s) dest) (fun m => CopyRect g m source dest).
Definition SetCursorPosition (g : renderer) (s : vga) (x y : Z) : cres vga :=
  let! s := EraseCursor g s in
  DrawCursor g (Vga (frame s) x y (fSavedBackground s)).

(** A screen with the pointer in the middle; [saved] is what the memory held. *)
Definition new_vga (g : renderer) (m saved : list Z) : cres vga :=
  DrawCursor g (Vga m (Z.quot (BufferWidth g) 2) (Z.quot (BufferHeight g) 2) saved).

(** The rows of a copied rectangle are not below each other: each is two pixels off. *)
Example copy_rect_skews : CopyRect (Renderer 5 5 5) (seqZ 0 25) (Rect 0 0 1 1) (Rect 1 2 2 3) =
  Ok [0; 1; 2; 3; 4; 5; 6; 7; 8; 9; 10; 0; 1; 13; 14; 15; 16; 17; 7; 8; 20; 21; 22; 23; 24].
Proof. vm_compute. reflexivity. Qed.

End Pixels.
