(* ===== verification/PixelsProof.v ===== *)
(** What the renderers paint (Pixels).

  An operation of the 8-bit renderer paints a picture [pic], a partial map from offsets to
  bytes, over whatever the frame buffer holds ([Paints]).  Its extent is a rectangle
  ([area]), so operations away from the pointer leave it alone. *)
From S2P Require Import Prelude LibC Bytes Region Pixels.
Import LibC Bytes Region Pixels.
Local Open Scope Z_scope.
Local Open Scope c_scope.

Module PixelsProof.

(** ** Pictures *)

Definition pic := Z -> option Z.
Definition paint (f : pic) (m : list Z) : list Z := imap (fun i v => default v (f (Z.of_nat i))) m.
Definition over (g f : pic) : pic := fun i => match g i with Some v => Some v | None => f i end.
Definition dot (p c : Z) : pic := fun i => if decide (i = p) then Some c else None.
(** [n] bytes from [p] on. *)
Definition run (p n : Z) (v : Z -> option Z) : pic := fun i => if decide (p <= i < p + n) then v (i - p) else None.
(** The pixels of a rectangle in a buffer of [bpr] bytes per row. *)
Definition area (bpr : Z) (r : rect) (v : Z -> Z -> option Z) : pic :=
  fun i => if Contains r (i mod bpr) (i / bpr) then v (i mod bpr) (i / bpr) else None.

Lemma length_paint f m : length (paint f m) = length m.
Proof. apply length_imap. Qed.

Lemma aget_paint f m i : aget (paint f m) i = (fun v => default v (f i)) <$> aget m i.
Proof.
  unfold aget. case_decide; [|done]. unfold paint. rewrite list_lookup_imap. by rewrite Z2Nat.id.
Qed.

Lemma list_aget_eq (l k : list Z) : length l = length k -> (forall i, 0 <= i < Z.of_nat (length l) -> aget l i = aget k i) -> l = k.
Proof.
  intros Hl H. apply list_eq. intros i. destruct (decide (i < length l)%nat) as [Hi|Hi].
  - specialize (H (Z.of_nat i) ltac:(lia)). unfold aget in H. rewrite !decide_True in H by lia. by rewrite !Nat2Z.id in H.
  - rewrite !lookup_ge_None_2 by lia. done.
Qed.

Lemma paint_ext f g m : (forall i, 0 <= i < Z.of_nat (length m) -> f i = g i) -> paint f m = paint g m.
Proof. intros H. apply list_aget_eq; [by rewrite !length_paint|]. rewrite length_paint. intros i Hi. by rewrite !aget_paint, H. Qed.

Lemma paint_over g f m : paint g (paint f m) = paint (over g f) m.
Proof.
  apply list_aget_eq; [by rewrite !length_paint|]. intros i _. rewrite !aget_paint. destruct (aget m i); [|done]. simpl. f_equal. unfold over. by destruct (g i).
Qed.

Lemma paint_none f m : (forall i, 0 <= i < Z.of_nat (length m) -> f i = None) -> paint f m = m.
Proof. intros H. apply list_aget_eq; [apply length_paint|]. rewrite length_paint. intros i Hi. rewrite aget_paint, H by done. by destruct (aget m i). Qed.

Lemma wr_paint m p v : 0 <= p < Z.of_nat (length m) -> wr m p v = Ok (paint (dot p (u8 v)) m).
Proof.
  intros Hp. unfold wr. rewrite aset_in_range by done. simpl. f_equal. apply list_aget_eq; [by rewrite length_paint, length_insert|]. intros i _. rewrite aget_paint. unfold dot.
  case_decide as H; [subst i; rewrite aget_insert_eq by done|rewrite aget_insert_ne by lia; by destruct (aget m i)].
  destruct (aget_in_range m p Hp) as [x ->]. done.
Qed.

Lemma rd_in m p : 0 <= p < Z.of_nat (length m) -> exists c, rd m p = Ok c /\ aget m p = Some c.
Proof. intros H. destruct (aget_in_range m p H) as [c E]. exists c. unfold rd. by rewrite E. Qed.

Lemma aget_byte m p c : bytes m -> aget m p = Some c -> 0 <= c < 256.
Proof. intros H [_ E]%aget_Some. unfold bytes in H. rewrite Forall_forall in H. apply H. apply list_elem_of_lookup. eauto. Qed.

(** An operation that paints [f] over any buffer of [n] bytes. *)
Definition Paints (n : Z) (f : pic) (op : list Z -> cres (list Z)) : Prop := forall m, Z.of_nat (length m) = n -> op m = Ok (paint f m).

(** Rows of a rectangle: the first row and the ones below. *)
Lemma row_area bpr x1 x2 y y2 v m : 0 < bpr -> 0 <= x1 -> x2 < bpr -> 0 <= y -> y <= y2 ->
  paint (area bpr (Rect x1 (y + 1) x2 y2) v) (paint (run (x1 + y * bpr) (x2 - x1 + 1) (fun j => v (x1 + j) y)) m) = paint (area bpr (Rect x1 y x2 y2) v) m.
Proof.
  intros Hb Hx1 Hx2 Hy Hy2. rewrite paint_over. apply paint_ext. intros i Hi. unfold over, area, run, Contains. cbn [left top right bottom].
  pose proof (Z.div_mod i bpr ltac:(lia)) as E. pose proof (Z.mod_pos_bound i bpr Hb) as Hm. revert E Hm. generalize (i / bpr) as q, (i mod bpr) as x. intros q x E Hm.
  case_decide as Hr.
  - assert (q = y) as -> by nia. rewrite (bool_decide_eq_false_2 (y + 1 <= y)) by lia. rewrite andb_false_r. simpl. replace (i - (x1 + y * bpr)) with (x - x1) by lia.
    replace (x1 + (x - x1)) with x by lia. rewrite !bool_decide_eq_true_2 by lia. done.
  - destruct (decide (q = y)) as [Eq|Eq].
    + subst q. rewrite (bool_decide_eq_false_2 (y + 1 <= y)) by lia. rewrite andb_false_r. simpl.
      destruct (decide (x1 <= x)); [rewrite (bool_decide_eq_false_2 (x <= x2)) by lia; by rewrite andb_false_r|rewrite (bool_decide_eq_false_2 (x1 <= x)) by lia; done].
    + rewrite (bool_decide_ext (y + 1 <= q) (y <= q)) by lia. destruct (_ && _); [|done]. by destruct (v x q).
Qed.

Lemma no_rows bpr x1 x2 y y2 v m : y2 < y -> paint (area bpr (Rect x1 y x2 y2) v) m = m.
Proof.
  intros H. apply paint_none. intros i _. unfold area, Contains. cbn [left top right bottom]. destruct (decide (y <= i / bpr)); [rewrite (bool_decide_eq_false_2 (i / bpr <= y2)) by lia; by rewrite andb_false_r|].
  rewrite (bool_decide_eq_false_2 (y <= i / bpr)) by lia. by rewrite andb_false_r.
Qed.

(** The runs of a row. *)
Lemma run_app p a b v m : 0 <= a -> 0 <= b -> paint (run (p + a) b (fun j => v (a + j))) (paint (run p a v) m) = paint (run p (a + b) v) m.
Proof.
  intros Ha Hb. rewrite paint_over. apply paint_ext. intros i Hi. unfold over, run. case_decide as H1.
  - rewrite (decide_False (P := p <= i < p + a)) by lia. rewrite decide_True by lia. replace (a + (i - (p + a))) with (i - p) by lia. by destruct (v (i - p)).
  - destruct (decide (p <= i < p + a)); [rewrite decide_True by lia; done|rewrite decide_False by lia; done].
Qed.

Lemma run_one p c m : paint (run p 1 (fun _ => Some c)) m = paint (dot p c) m.
Proof. apply paint_ext. intros i Hi. unfold run, dot. destruct (decide (i = p)); [rewrite decide_True by lia|rewrite decide_False by lia]; done. Qed.

Lemma run_none p v m : paint (run p 0 v) m = m.
Proof. apply paint_none. intros i _. unfold run. by rewrite decide_False by lia. Qed.

(** ** FillRect *)

Abbreviation flat c := (fun _ : Z => Some c).

Lemma run_flat p a b c m : 0 <= a -> 0 <= b -> paint (run (p + a) b (flat c)) (paint (run p a (flat c)) m) = paint (run p (a + b) (flat c)) m.
Proof. apply (run_app p a b (flat c)). Qed.

Lemma run_first p b c m : 0 <= b -> paint (run (p + 1) b (flat c)) (paint (dot p c) m) = paint (run p (1 + b) (flat c)) m.
Proof. intros. rewrite <- (run_one p c m). apply run_flat; lia. Qed.

(** The part of a row that a loop fills: [k] bytes from [ptr] on. *)
Definition filled (ptr x x2 color : Z) (m : list Z) (res : cres (list Z * Z * Z)) : Prop :=
  exists k, 0 <= k <= x2 + 1 - x /\ res = Ok (paint (run ptr k (flat (u8 color))) m, ptr + k, x + k).

Lemma filled_stop ptr x x2 color m : x <= x2 + 1 -> filled ptr x x2 color m (Ok (m, ptr, x)).
Proof. intros H. exists 0. split; [lia|]. by rewrite run_none, !Z.add_0_r. Qed.

Lemma filled_more j ptr x x2 color m res : 0 <= j -> filled (ptr + j) (x + j) x2 color (paint (run ptr j (flat (u8 color))) m) res -> filled ptr x x2 color m res.
Proof. intros Hj (k & Hk & ->). exists (j + k). split; [lia|]. by rewrite run_flat, !Z.add_assoc by lia. Qed.

Lemma fill_head_ok x2 color : forall fuel ptr x m, 0 <= ptr -> - 2 ^ 31 <= x -> x2 + 1 < 2 ^ 31 -> x <= x2 + 1 -> ptr + (x2 + 1 - x) <= Z.of_nat (length m) -> x2 + 1 - x <= Z.of_nat fuel ->
  filled ptr x x2 color m (fill_head m ptr x x2 color fuel).
Proof.
  induction fuel as [|fuel IH]; intros ptr x m Hp Hx Hx2 Hle Hl Hf; cbn [fill_head]; (case_decide as Hc; [|by apply filled_stop]); [lia|].
  rewrite wr_paint by lia. cbn [cbind]. rewrite s32_small by lia. rewrite <- run_one. apply (filled_more 1); [lia|]. apply IH; rewrite ?length_paint; lia.
Qed.

Lemma fill_tail_ok x2 color : forall fuel ptr x m, 0 <= ptr -> - 2 ^ 31 <= x -> x2 + 1 < 2 ^ 31 -> x <= x2 + 1 -> ptr + (x2 + 1 - x) <= Z.of_nat (length m) -> x2 + 1 - x <= Z.of_nat fuel ->
  fill_tail m ptr x x2 color fuel = Ok (paint (run ptr (x2 + 1 - x) (flat (u8 color))) m, ptr + (x2 + 1 - x), x2 + 1).
Proof.
  induction fuel as [|fuel IH]; intros ptr x m Hp Hx Hx2 Hle Hl Hf; cbn [fill_tail]; (case_decide as Hc; [|replace x with (x2 + 1) by lia; rewrite Z.sub_diag, run_none, Z.add_0_r; done]); [lia|].
  rewrite wr_paint by lia. cbn [cbind]. rewrite s32_small by lia. rewrite IH by (rewrite ?length_paint; lia). rewrite run_first by lia.
  replace (1 + (x2 + 1 - (x + 1))) with (x2 + 1 - x) by lia. replace (ptr + 1 + (x2 + 1 - (x + 1))) with (ptr + (x2 + 1 - x)) by lia. done.
Qed.

Lemma longcolor_bytes c : 0 <= c < 256 -> map u8 [longcolor c; Z.shiftr (longcolor c) 8; Z.shiftr (longcolor c) 16; Z.shiftr (longcolor c) 24] = [c; c; c; c].
Proof.
  intros Hc. assert (Forall (fun c => map u8 [longcolor c; Z.shiftr (longcolor c) 8; Z.shiftr (longcolor c) 16; Z.shiftr (longcolor c) 24] = [c; c; c; c]) (seqZ 0 256)) as H.
  { apply (bool_decide_unpack _). vm_compute. reflexivity. }
  rewrite Forall_forall in H. apply H. apply elem_of_seqZ. lia.
Qed.

Lemma u8_idem c : u8 (u8 c) = u8 c.
Proof. apply u8_small, u8_range. Qed.

Lemma longcolor_u8 c : longcolor c = longcolor (u8 c).
Proof. unfold longcolor. by rewrite u8_idem. Qed.

Lemma store32_ok m ptr color : 0 <= ptr -> ptr + 4 <= Z.of_nat (length m) -> store32 m ptr (longcolor color) = Ok (paint (run ptr 4 (flat (u8 color))) m).
Proof.
  intros Hp Hl. rewrite longcolor_u8. pose proof (longcolor_bytes (u8 color) (u8_range color)) as E. unfold store32. cbn [map] in E. injection E as E1 E2 E3 E4. cbn [store].
  rewrite wr_paint by lia. cbn [cbind]. rewrite E1, wr_paint by (rewrite length_paint; lia). cbn [cbind]. rewrite E2, wr_paint by (rewrite !length_paint; lia). cbn [cbind].
  rewrite E3, wr_paint by (rewrite !length_paint; lia). cbn [cbind]. rewrite E4. f_equal. rewrite <- !(run_one _ (u8 color)).
  replace (ptr + 1 + 1 + 1) with (ptr + 3) by lia. replace (ptr + 1 + 1) with (ptr + 2) by lia.
  rewrite (run_flat ptr 1 1) by lia. change (1 + 1) with 2. rewrite (run_flat ptr 2 1) by lia. change (2 + 1) with 3. by rewrite (run_flat ptr 3 1) by lia.
Qed.

Lemma fill_words_ok x2 color : forall fuel ptr x m, 0 <= ptr -> - 2 ^ 31 <= x -> x2 + 5 < 2 ^ 31 -> x <= x2 + 1 -> ptr + (x2 + 1 - x) <= Z.of_nat (length m) -> x2 + 1 - x <= Z.of_nat fuel ->
  filled ptr x x2 color m (fill_words m ptr x x2 color fuel).
Proof.
  induction fuel as [|fuel IH]; intros ptr x m Hp Hx Hx2 Hle Hl Hf; cbn [fill_words]; rewrite s32_small by lia; (case_decide as Hc; [|by apply filled_stop]); [lia|].
  rewrite store32_ok by lia. cbn [cbind]. apply (filled_more 4); [lia|]. apply IH; rewrite ?length_paint; lia.
Qed.

Lemma fill_row_ok m ptr x1 x2 color : 0 <= ptr -> 0 <= x1 -> x2 + 5 < 2 ^ 31 -> x1 <= x2 + 1 -> ptr + (x2 - x1 + 1) <= Z.of_nat (length m) ->
  fill_row m ptr x1 x2 color = Ok (paint (run ptr (x2 - x1 + 1) (flat (u8 color))) m, ptr + (x2 - x1 + 1)).
Proof.
  intros Hp Hx1 Hx2 Hle Hl. unfold fill_row. destruct (fill_head_ok x2 color (Z.to_nat (x2 - x1 + 1)) ptr x1 m) as (a & Ha & ->); try lia. cbn [cbind].
  destruct (fill_words_ok x2 color (Z.to_nat (x2 - x1 + 1)) (ptr + a) (x1 + a) (paint (run ptr a (flat (u8 color))) m)) as (b & Hb & ->); try lia; [rewrite length_paint; lia|]. cbn [cbind].
  rewrite run_flat by lia. rewrite fill_tail_ok by (rewrite ?length_paint; lia). cbn [cbind]. rewrite <- (Z.add_assoc ptr a b), run_flat by lia. 
  replace (a + b + (x2 + 1 - (x1 + a + b))) with (x2 - x1 + 1) by lia. replace (ptr + (a + b) + (x2 + 1 - (x1 + a + b))) with (ptr + (x2 - x1 + 1)) by lia. done.
Qed.

(** A buffer of [n] bytes for the renderer. *)
Record sized (g : renderer) (n : Z) : Prop := {
  sz_width : 0 < BufferWidth g <= BufferBytesPerRow g;
  sz_height : 0 < BufferHeight g;
  sz_row : BufferBytesPerRow g < 2 ^ 31 - 32;
  sz_tall : BufferHeight g < 2 ^ 31 - 32;
  sz_size : BufferHeight g * BufferBytesPerRow g = n;
  sz_small : n < 2 ^ 31
}.
Definition on_screen (g : renderer) (r : rect) : Prop := 0 <= left r /\ right r < BufferWidth g /\ 0 <= top r /\ bottom r < BufferHeight g /\ left r <= right r + 1.

(** A pixel of the buffer. *)
Lemma pixel_in g n x y : sized g n -> 0 <= x <= BufferBytesPerRow g -> 0 <= y < BufferHeight g -> 0 <= x + y * BufferBytesPerRow g <= n /\ 0 <= y * BufferBytesPerRow g /\ (y + 1) * BufferBytesPerRow g <= n.
Proof. intros [] Hx Hy. nia. Qed.

Lemma fill_rows_ok g n x1 x2 y2 color : sized g n -> forall fuel y m, Z.of_nat (length m) = n -> 0 <= x1 -> x2 < BufferWidth g -> x1 <= x2 + 1 -> 0 <= y -> y2 < BufferHeight g -> y2 + 1 - y <= Z.of_nat fuel ->
  fill_rows m (x1 + y * BufferBytesPerRow g) y x1 x2 y2 (BufferBytesPerRow g - (x2 - x1) - 1) color fuel = Ok (paint (area (BufferBytesPerRow g) (Rect x1 y x2 y2) (fun _ _ => Some (u8 color))) m).
Proof.
  intros Hsz. induction fuel as [|fuel IH]; intros y m Hm Hx1 Hx2 Hle Hy Hy2 Hf; cbn [fill_rows]; (case_decide as Hc; [|by rewrite no_rows by lia]); [lia|].
  pose proof (pixel_in g n x1 y Hsz ltac:(destruct Hsz; lia) ltac:(lia)) as (H1 & H2 & H3). destruct Hsz as [S1 S2 S3 S4 S5 S6].
  rewrite fill_row_ok by lia. cbn [cbind]. rewrite s32_small by lia.
  replace (x1 + y * BufferBytesPerRow g + (x2 - x1 + 1) + (BufferBytesPerRow g - (x2 - x1) - 1)) with (x1 + (y + 1) * BufferBytesPerRow g) by lia.
  rewrite IH by (rewrite ?length_paint; lia). f_equal. apply (row_area (BufferBytesPerRow g) x1 x2 y y2 (fun _ _ => Some (u8 color)) m); lia.
Qed.

(** FillRect paints the rectangle, and nothing else. *)
Lemma FillRect_paints g n x1 y1 x2 y2 color : sized g n -> on_screen g (Rect x1 y1 x2 y2) -> Paints n (area (BufferBytesPerRow g) (Rect x1 y1 x2 y2) (fun _ _ => Some (u8 color))) (fun m => FillRect g m x1 y1 x2 y2 color).
Proof.
  intros Hsz (H1 & H2 & H3 & H4 & H5) m Hm. cbn [left top right bottom] in *. unfold FillRect, spot. destruct (decide (y1 < BufferHeight g)) as [Hy|Hy].
  - pose proof (pixel_in g n x1 y1 Hsz ltac:(destruct Hsz; lia) ltac:(lia)) as (P1 & P2 & P3). pose proof Hsz as []. rewrite (s32_small (x2 - x1)), (s32_small (BufferBytesPerRow g - (x2 - x1))), !s32_small by lia. eapply fill_rows_ok; try done; lia.
  - rewrite no_rows by lia. replace (Z.to_nat (y2 - y1 + 1)) with O by lia. cbn [fill_rows]. by rewrite decide_False by lia.
Qed.

(** ** Blit *)

Definition opaque (c : Z) : option Z := if decide (c = 255) then None else Some c.
(** What the byte of an image at [p] paints. *)
Definition img (im : list Z) (p : Z) : option Z := match aget im p with Some c => opaque c | None => None end.

Lemma run_ext p n v w m : (forall j, 0 <= j < n -> v j = w j) -> paint (run p n v) m = paint (run p n w) m.
Proof. intros H. apply paint_ext. intros i _. unfold run. case_decide; [|done]. apply H. lia. Qed.

Lemma area_ext bpr r v w m : (forall x y, Contains r x y = true -> v x y = w x y) -> paint (area bpr r v) m = paint (area bpr r w) m.
Proof. intros H. apply paint_ext. intros i _. unfold area. destruct (Contains r _ _) eqn:E; [|done]. by apply H. Qed.

Lemma run_head p v m : paint (run p 1 v) m = match v 0 with Some c => paint (dot p c) m | None => m end.
Proof.
  destruct (v 0) as [c|] eqn:E; [apply paint_ext|apply paint_none]; intros i _; unfold run, dot.
  - destruct (decide (i = p)) as [->|]; [rewrite decide_True by lia; by rewrite Z.sub_diag|by rewrite decide_False by lia].
  - case_decide; [|done]. by replace (i - p) with 0 by lia.
Qed.

Lemma run_cons p n v m : 0 <= n -> paint (run (p + 1) n (fun j => v (1 + j))) (match v 0 with Some c => paint (dot p c) m | None => m end) = paint (run p (1 + n) v) m.
Proof. intros Hn. rewrite <- run_head. by apply run_app. Qed.

(** A byte of an image, painted unless it is transparent. *)
Lemma img_step im m p sp : bytes im -> 0 <= p < Z.of_nat (length im) -> 0 <= sp < Z.of_nat (length m) ->
  exists c, rd im p = Ok c /\ (if decide (c <> 255) then wr m sp c else Ok m) = Ok (match img im p with Some c => paint (dot sp c) m | None => m end).
Proof.
  intros Hb Hp Hs. destruct (rd_in im p Hp) as (c & E & Ea). exists c. split; [done|]. unfold img, opaque. rewrite Ea.
  destruct (decide (c = 255)); [rewrite decide_False by tauto; done|]. rewrite decide_True by done. rewrite wr_paint by done. by rewrite u8_small by (by eapply aget_byte).
Qed.

Lemma blit_row_ok im : bytes im -> forall n m sp ip, 0 <= sp -> sp + Z.of_nat n <= Z.of_nat (length m) -> 0 <= ip -> ip + Z.of_nat n <= Z.of_nat (length im) ->
  blit_row m im sp ip n = Ok (paint (run sp (Z.of_nat n) (fun j => img im (ip + j))) m).
Proof.
  intros Hb. induction n as [|n IH]; intros m sp ip Hs Hm Hi Him; [by rewrite run_none|]. cbn [blit_row].
  destruct (img_step im m ip sp Hb ltac:(lia) ltac:(lia)) as (c & Ec & Ew). rewrite Ec. cbn [cbind]. rewrite Ew. cbn [cbind]. rewrite IH by (rewrite ?Nat2Z.inj_succ in *; destruct (img im ip); rewrite ?length_paint; lia).
  f_equal. replace (Z.of_nat (S n)) with (1 + Z.of_nat n) by lia. rewrite <- run_cons by lia. rewrite Z.add_0_r. apply run_ext. intros j _. f_equal. lia.
Qed.

Lemma blit_rows_ok g n im ib x w : sized g n -> bytes im -> 0 <= x -> x + Z.of_nat w <= BufferBytesPerRow g -> forall h m y ip, Z.of_nat (length m) = n -> 0 <= y -> y + Z.of_nat h <= BufferHeight g ->
  (forall k, 0 <= k < Z.of_nat h -> 0 <= ip + k * ib /\ ip + k * ib + Z.of_nat w <= Z.of_nat (length im)) ->
  blit_rows m im (x + y * BufferBytesPerRow g) ip (BufferBytesPerRow g - Z.of_nat w) (ib - Z.of_nat w) w h =
    Ok (paint (area (BufferBytesPerRow g) (Rect x y (x + Z.of_nat w - 1) (y + Z.of_nat h - 1)) (fun px py => img im (ip + (py - y) * ib + (px - x)))) m).
Proof.
  intros Hsz Hb Hx Hw. induction h as [|h IH]; intros m y ip Hm Hy Hh Him; [by rewrite no_rows by lia|]. cbn [blit_rows].
  pose proof (pixel_in g n x y Hsz ltac:(destruct Hsz; lia) ltac:(lia)) as (H1 & H2 & H3). pose proof (Him 0 ltac:(lia)) as [I1 I2].
  rewrite blit_row_ok by (rewrite ?Hm; try lia; done). cbn [cbind].
  replace (x + y * BufferBytesPerRow g + Z.of_nat w + (BufferBytesPerRow g - Z.of_nat w)) with (x + (y + 1) * BufferBytesPerRow g) by lia.
  replace (ip + Z.of_nat w + (ib - Z.of_nat w)) with (ip + ib) by lia.
  rewrite IH; [|by rewrite length_paint|lia|lia|intros k Hk; specialize (Him (k + 1) ltac:(lia)); split; lia].
  f_equal. rewrite <- (row_area (BufferBytesPerRow g) x (x + Z.of_nat w - 1) y (y + Z.of_nat (S h) - 1)) by (destruct Hsz; lia).
  replace (y + 1 + Z.of_nat h - 1) with (y + Z.of_nat (S h) - 1) by lia. replace (x + Z.of_nat w - 1 - x + 1) with (Z.of_nat w) by lia.
  rewrite (run_ext _ _ (fun j => img im (ip + j)) (fun j => img im (ip + (y - y) * ib + (x + j - x)))) by (intros j _; f_equal; lia).
  apply area_ext. intros px py _. f_equal. lia.
Qed.

(** The bytes of an image that Blit reads. *)
Definition in_image (im : list Z) (ip w h ib : Z) : Prop := bytes im /\ forall k, 0 <= k < h -> 0 <= ip + k * ib /\ ip + k * ib + w <= Z.of_nat (length im).

Definition blit_pic (g : renderer) (x y : Z) (im : list Z) (ip w h ib : Z) : pic :=
  area (BufferBytesPerRow g) (Rect x y (x + w - 1) (y + h - 1)) (fun px py => img im (ip + (py - y) * ib + (px - x))).

Lemma Blit_paints g n x y im ip w h ib : sized g n -> 0 <= w -> 0 <= h -> on_screen g (Rect x y (x + w - 1) (y + h - 1)) -> in_image im ip w h ib -> 0 <= ib < 2 ^ 31 ->
  Paints n (blit_pic g x y im ip w h ib) (fun m => Blit g m x y im ip w h ib).
Proof.
  intros Hsz Hw Hh (H1 & H2 & H3 & H4 & H5) [Hb Hi] Hib m Hm. cbn [left top right bottom] in *. unfold Blit, spot, blit_pic. destruct (decide (h = 0)) as [->|Hh0].
  - rewrite no_rows by lia. done.
  - pose proof (pixel_in g n x y Hsz ltac:(destruct Hsz; lia) ltac:(lia)) as (P1 & P2 & P3). pose proof Hsz as []. rewrite !s32_small by lia.
    pose proof (blit_rows_ok g n im ib x (Z.to_nat w) Hsz Hb H1 ltac:(lia) (Z.to_nat h) m y ip Hm H3 ltac:(lia)) as H. rewrite !Z2Nat.id in H by lia. apply H. done.
Qed.

(** ** StretchBlit *)

Lemma advance_divides dw : 0 < dw -> forall fuel e p, 0 <= e < 2 ^ 31 -> e <= Z.of_nat fuel -> advance e dw p fuel = Ok (e mod dw, p + e / dw).
Proof.
  intros Hd. induction fuel as [|fuel IH]; intros e p He Hf; cbn [advance]; (case_decide as Hc; [|rewrite Z.mod_small, Z.div_small, Z.add_0_r by lia; done]); [lia|].
  rewrite s32_small by lia. rewrite IH by lia. replace e with (e - dw + 1 * dw) at 3 4 by lia. rewrite Z.mod_add, Z.div_add by lia. f_equal. f_equal. lia.
Qed.

(** How many lines of the image have been passed at the error [t]. *)
Definition lines (t dh : Z) : Z := Z.max 0 ((t - 1) / dh).

Lemma descend_ok dh ib : 0 < dh -> forall fuel e p, 0 <= e < 2 ^ 31 -> e <= Z.of_nat fuel -> descend e dh p ib fuel = Ok (e - lines e dh * dh, p + lines e dh * ib).
Proof.
  intros Hd. assert (forall e, 0 <= e <= dh -> lines e dh = 0) as H0.
  { intros e He. unfold lines. destruct (decide (e = 0)) as [->|]; [apply Z.max_l; by apply Z.lt_le_incl, Z.div_lt_upper_bound; lia|rewrite Z.div_small by lia; lia]. }
  induction fuel as [|fuel IH]; intros e p He Hf; cbn [descend]; (case_decide as Hc; [|rewrite H0 by lia; do 2 f_equal; lia]); [lia|].
  rewrite s32_small by lia. rewrite IH by lia. assert (lines e dh = lines (e - dh) dh + 1) as ->.
  { unfold lines. replace (e - 1) with (e - dh - 1 + 1 * dh) by lia. rewrite Z.div_add by lia. assert (0 <= (e - dh - 1) / dh) by (apply Z.div_pos; lia). lia. }
  f_equal. f_equal; lia.
Qed.

Lemma lines_add e k dh : 0 < dh -> 0 < e -> 0 <= k -> lines (e + k * dh) dh = lines e dh + k.
Proof. intros Hd He Hk. unfold lines. replace (e + k * dh - 1) with (e - 1 + k * dh) by lia. rewrite Z.div_add by lia. assert (0 <= (e - 1) / dh) by (apply Z.div_pos; lia). lia. Qed.

Lemma stretch_row_ok im iw dw : bytes im -> 0 <= iw < 2 ^ 30 -> 0 < dw < 2 ^ 30 -> forall n m sp ip e, 0 <= e < dw -> 0 <= sp -> sp + Z.of_nat n <= Z.of_nat (length m) -> 0 <= ip ->
  (forall j, 0 <= j < Z.of_nat n -> ip + (e + j * iw) / dw < Z.of_nat (length im)) ->
  stretch_row m im sp ip e iw dw n = Ok (paint (run sp (Z.of_nat n) (fun j => img im (ip + (e + j * iw) / dw))) m).
Proof.
  intros Hb Hiw Hdw. induction n as [|n IH]; intros m sp ip e He Hs Hm Hip Him; [by rewrite run_none|]. cbn [stretch_row].
  pose proof (Him 0 ltac:(lia)) as H0. rewrite Z.mul_0_l, Z.add_0_r, Z.div_small, Z.add_0_r in H0 by lia.
  destruct (img_step im m ip sp Hb ltac:(lia) ltac:(lia)) as (c & Ec & Ew). rewrite Ec. cbn [cbind]. rewrite Ew. cbn [cbind]. rewrite s32_small by lia. rewrite advance_divides by lia. cbn [cbind].
  assert (forall j, ip + (e + iw) / dw + ((e + iw) mod dw + j * iw) / dw = ip + (e + (1 + j) * iw) / dw) as Ej.
  { intros j. replace (e + (1 + j) * iw) with ((e + iw) mod dw + j * iw + (e + iw) / dw * dw) by (pose proof (Z.div_mod (e + iw) dw ltac:(lia)); lia). rewrite Z.div_add by lia. lia. }
  rewrite IH; [|apply Z.mod_pos_bound; lia|lia|destruct (img im ip); rewrite ?length_paint; lia|pose proof (Z.div_pos (e + iw) dw ltac:(lia) ltac:(lia)); lia|intros j Hj; rewrite Ej; apply Him; lia].
  f_equal. replace (Z.of_nat (S n)) with (1 + Z.of_nat n) by lia. rewrite <- run_cons by lia. rewrite Z.mul_0_l, Z.add_0_r, (Z.div_small e dw), Z.add_0_r by lia. apply run_ext. intros j _. by rewrite Ej.
Qed.

(** Rows of a stretched image: [t] is the error at the first of them. *)
Lemma stretch_rows_ok g n im iw dw ih dh ib x : sized g n -> bytes im -> 0 <= iw < 2 ^ 30 -> 0 < dw < 2 ^ 30 -> 0 <= ih < 2 ^ 30 -> 0 < dh < 2 ^ 30 -> 0 <= ib ->
  0 <= x -> x + dw < BufferBytesPerRow g -> forall h m y line t, Z.of_nat (length m) = n -> 0 <= y -> y + Z.of_nat h <= BufferHeight g -> 0 <= t <= dh -> 0 <= line ->
  (forall k j, 0 <= k < Z.of_nat h -> 0 <= j <= dw -> line + lines (t + k * ih) dh * ib + j * iw / dw < Z.of_nat (length im)) ->
  stretch_rows m im (x + y * BufferBytesPerRow g) line t (BufferBytesPerRow g - dw - 1) iw dw ih dh ib (Z.to_nat (dw + 1)) h =
    Ok (paint (area (BufferBytesPerRow g) (Rect x y (x + dw) (y + Z.of_nat h - 1)) (fun px py => img im (line + lines (t + (py - y) * ih) dh * ib + (px - x) * iw / dw))) m).
Proof.
  intros Hsz Hb Hiw Hdw Hih Hdh Hib Hx Hw. induction h as [|h IH]; intros m y line t Hm Hy Hh Ht Hline Him; [by rewrite no_rows by lia|]. cbn [stretch_rows].
  pose proof (pixel_in g n x y Hsz ltac:(lia) ltac:(lia)) as (H1 & H2 & H3). assert (lines t dh = 0) as Et.
  { unfold lines. destruct (decide (t = 0)) as [->|]; [apply Z.max_l; by apply Z.lt_le_incl, Z.div_lt_upper_bound; lia|rewrite Z.div_small by lia; lia]. }
  rewrite stretch_row_ok; [|done|done|done|lia|lia|rewrite Z2Nat.id by lia; lia|done|intros j Hj; rewrite Z2Nat.id in Hj by lia; specialize (Him 0 j ltac:(lia) ltac:(lia)); rewrite Z.mul_0_l, Z.add_0_r, Et in Him; rewrite Z.add_0_l; lia].
  cbn [cbind]. rewrite s32_small by lia. rewrite descend_ok by lia. cbn [cbind]. rewrite Z2Nat.id by lia. set (k := lines (t + ih) dh).
  replace (x + y * BufferBytesPerRow g + (dw + 1) + (BufferBytesPerRow g - dw - 1)) with (x + (y + 1) * BufferBytesPerRow g) by lia.
  assert (0 <= t + ih - k * dh <= dh /\ 0 <= k) as [Hk Hk0].
  { unfold k, lines. destruct (decide (t + ih = 0)) as [->|]; [replace (Z.max 0 ((0 - 1) / dh)) with 0; [lia|]; symmetry; apply Z.max_l; by apply Z.lt_le_incl, Z.div_lt_upper_bound; lia|].
    pose proof (Z.div_mod (t + ih - 1) dh ltac:(lia)). pose proof (Z.mod_pos_bound (t + ih - 1) dh ltac:(lia)). assert (0 <= (t + ih - 1) / dh) by (apply Z.div_pos; lia). nia. }
  assert (forall j, 0 <= j -> line + k * ib + lines (t + ih - k * dh + j * ih) dh * ib = line + lines (t + (1 + j) * ih) dh * ib) as Ej.
  { intros j Hj. destruct (decide (t + ih = 0)) as [E0|E0]; [assert (t = 0 /\ ih = 0) as [-> ->] by lia; assert (k = 0) as Ek by (unfold k; by rewrite Z.add_0_r); rewrite Ek; replace (0 + 0 - 0 * dh + j * 0) with 0 by lia; replace (0 + (1 + j) * 0) with 0 by lia; lia|].
    assert (0 < t + ih - k * dh) as Hpos.
    { unfold k, lines. pose proof (Z.div_mod (t + ih - 1) dh ltac:(lia)). pose proof (Z.mod_pos_bound (t + ih - 1) dh ltac:(lia)). assert (0 <= (t + ih - 1) / dh) by (apply Z.div_pos; lia). nia. }
    replace (t + (1 + j) * ih) with (t + ih - k * dh + j * ih + k * dh) by lia. rewrite lines_add by nia. lia. }
  rewrite IH; [|by rewrite length_paint|lia|lia|lia|nia|intros i j Hi Hj; rewrite Ej by lia; replace (t + (1 + i) * ih) with (t + (i + 1) * ih) by lia; apply Him; lia].
  f_equal. rewrite <- (row_area (BufferBytesPerRow g) x (x + dw) y (y + Z.of_nat (S h) - 1)) by (destruct Hsz; lia).
  replace (y + 1 + Z.of_nat h - 1) with (y + Z.of_nat (S h) - 1) by lia. replace (x + dw - x + 1) with (dw + 1) by lia.
  rewrite (run_ext _ _ (fun j => img im (line + (0 + j * iw) / dw)) (fun j => img im (line + lines (t + (y - y) * ih) dh * ib + (x + j - x) * iw / dw)))
    by (intros j _; rewrite Z.sub_diag, Z.mul_0_l, Z.add_0_r, Et; f_equal; rewrite Z.add_0_l, Z.add_0_r; by replace (x + j - x) with j by lia).
  apply area_ext. intros px py Hc. rewrite Ej by (unfold Contains in Hc; simpl in Hc; repeat (apply andb_true_iff in Hc as [Hc ?]); match goal with H : bool_decide (y + 1 <= py) = true |- _ => apply bool_decide_eq_true in H end; lia).
  by replace (1 + (py - (y + 1))) with (py - y) by lia.
Qed.

(** Where an image is scaled from: it is in its block, and the sizes do not overflow. *)
Record scalable (im : list Z) (ir dr : rect) (ip ib : Z) : Prop := {
  sc_bytes : bytes im;
  sc_width : 0 <= right ir - left ir < 2 ^ 30 /\ 0 < right dr - left dr < 2 ^ 30;
  sc_height : 0 <= bottom ir - top ir < 2 ^ 30 /\ 0 < bottom dr - top dr < 2 ^ 30;
  sc_line : 0 <= ib /\ 0 <= top ir /\ top ir * ib < 2 ^ 31 /\ 0 <= ip + left ir;
  sc_size : ip + right ir + bottom ir * ib < Z.of_nat (length im)
}.

Definition stretch_pic (g : renderer) (ir dr : rect) (im : list Z) (ip ib : Z) : pic :=
  let iw := right ir - left ir in let ih := bottom ir - top ir in let dw := right dr - left dr in let dh := bottom dr - top dr in
  area (BufferBytesPerRow g) dr (fun px py => img im (ip + left ir + (top ir + lines ((py - top dr) * ih) dh) * ib + (px - left dr) * iw / dw)).

Lemma StretchBlit_paints g n ir dr im ip ib : sized g n -> on_screen g dr -> scalable im ir dr ip ib ->
  Paints n (stretch_pic g ir dr im ip ib) (fun m => StretchBlit g m ir dr im ip ib).
Proof.
  intros Hsz (H1 & H2 & H3 & H4 & H5) [Hb [W1 W2] [T1 T2] (L1 & L2 & L3 & L4) Hl] m Hm. unfold StretchBlit, spot, stretch_pic, Width, Height.
  pose proof (pixel_in g n (left dr) (top dr) Hsz ltac:(destruct Hsz; lia) ltac:(lia)) as (P1 & P2 & P3). pose proof Hsz as [].
  rewrite (s32_small (right ir - left ir)), (s32_small (right dr - left dr)), (s32_small (bottom ir - top ir)), (s32_small (bottom dr - top dr)), (s32_small (BufferBytesPerRow g - _)), !s32_small by nia.
  set (iw := right ir - left ir) in *. set (ih := bottom ir - top ir) in *. set (dw := right dr - left dr) in *. set (dh := bottom dr - top dr) in *.
  rewrite (stretch_rows_ok g n im iw dw ih dh ib (left dr)); try done; try lia; try (unfold dw, dh in *; lia).
  - f_equal. replace (left dr + dw) with (right dr) by (unfold dw; lia). replace (top dr + Z.of_nat (Z.to_nat (dh + 1)) - 1) with (bottom dr) by (unfold dh in *; lia).
    replace (Rect (left dr) (top dr) (right dr) (bottom dr)) with dr by (by destruct dr).
    apply area_ext. intros px py _. f_equal. rewrite (Z.add_0_l ((py - top dr) * ih)). ring.
  - intros k j Hk Hj. rewrite Z2Nat.id in Hk by lia. assert (0 <= lines (0 + k * ih) dh <= ih) as Hlines.
    { unfold lines. assert ((0 + k * ih - 1) / dh < ih + 1) by (apply Z.div_lt_upper_bound; nia). lia. }
    assert (j * iw / dw < iw + 1) by (apply Z.div_lt_upper_bound; nia). assert (lines (0 + k * ih) dh * ib <= ih * ib) by (apply Z.mul_le_mono_nonneg_r; lia).
    assert (bottom ir * ib = top ir * ib + ih * ib) by (unfold ih; ring). unfold iw in *. lia.
Qed.

(** ** DrawLine *)

(** [f] paints nothing but [c], within the rectangle [r]. *)
Definition strokes (bpr : Z) (r : rect) (c : Z) (f : pic) : Prop := forall i v, f i = Some v -> v = c /\ Contains r (i mod bpr) (i / bpr) = true.

Lemma strokes_dot bpr r c x y : 0 < bpr -> 0 <= x < bpr -> Contains r x y = true -> strokes bpr r c (dot (x + y * bpr) c).
Proof.
  intros Hb Hx Hc i v. unfold dot. case_decide; [|done]. intros [= <-]. subst i. rewrite Z.mod_add, Z.div_add, Z.mod_small, Z.div_small by lia. done.
Qed.

Lemma strokes_over bpr r c f h : strokes bpr r c f -> strokes bpr r c h -> strokes bpr r c (over h f).
Proof. intros Hf Hh i v. unfold over. destruct (h i) eqn:E; [intros [= <-]; by apply Hh|apply Hf]. Qed.

(** A walk over pixels of [r]: the place, and how it goes on. *)
Definition within_box (g : renderer) (r : rect) (color : Z) (m : list Z) (res : cres (list Z)) : Prop :=
  exists f, strokes (BufferBytesPerRow g) r (u8 color) f /\ res = Ok (paint f m).

Lemma within_none g r color m : within_box g r color m (Ok m).
Proof. exists (fun _ => None). split; [done|]. by rewrite paint_none. Qed.

Lemma within_step g n r color m x y k : sized g n -> on_screen g r -> Z.of_nat (length m) = n -> Contains r x y = true ->
  (forall m', length m' = length m -> within_box g r color m' (k m')) -> within_box g r color m (cbind (wr m (x + y * BufferBytesPerRow g) color) k).
Proof.
  intros Hsz (H1 & H2 & H3 & H4 & H5) Hm Hc Hk. pose proof Hc as Hin. unfold Contains in Hin. repeat (apply andb_true_iff in Hin as [Hin ?]).
  repeat match goal with H : bool_decide _ = true |- _ => apply bool_decide_eq_true in H end.
  assert (0 <= x + y * BufferBytesPerRow g < n) by (destruct Hsz; nia). rewrite wr_paint by lia. cbn [cbind].
  destruct (Hk (paint (dot (x + y * BufferBytesPerRow g) (u8 color)) m)) as (f & Hf & ->); [apply length_paint|]. exists (over f (dot (x + y * BufferBytesPerRow g) (u8 color))). split; [|by rewrite paint_over].
  apply strokes_over; [|done]. apply strokes_dot; [destruct Hsz; lia|destruct Hsz; lia|done].
Qed.

Definition InBox (r : rect) (x y : Z) : Prop := left r <= x <= right r /\ top r <= y <= bottom r.
Lemma InBox_Contains r x y : InBox r x y -> Contains r x y = true.
Proof. intros [H1 H2]. unfold Contains. rewrite !bool_decide_eq_true_2 by lia. done. Qed.

Lemma line_straight_ok g n r color dx dy : sized g n -> on_screen g r -> forall k m x y, Z.of_nat (length m) = n ->
  (forall j, 0 <= j < Z.of_nat k -> InBox r (x + j * dx) (y + j * dy)) ->
  within_box g r color m (line_straight m (x + y * BufferBytesPerRow g) (dx + dy * BufferBytesPerRow g) color k).
Proof.
  intros Hsz Hr. induction k as [|k IH]; intros m x y Hm Hin; [apply within_none|]. cbn [line_straight].
  eapply within_step; [done|done|done|apply InBox_Contains; specialize (Hin 0 ltac:(lia)); by rewrite !Z.mul_0_l, !Z.add_0_r in Hin|]. intros m' Hm'.
  replace (x + y * BufferBytesPerRow g + (dx + dy * BufferBytesPerRow g)) with (x + dx + (y + dy) * BufferBytesPerRow g) by lia. apply IH; [by rewrite Hm'|].
  intros j Hj. specialize (Hin (j + 1) ltac:(lia)). unfold InBox in *. lia.
Qed.

(** A diagonal: after [i] pixels the minor coordinate has moved [q] steps, and the error
  is what is left of [i * small]. *)
Lemma line_diagonal_ok g n r color mx my nx ny big small x0 y0 : sized g n -> on_screen g r -> 0 < big < 2 ^ 30 -> 0 <= small <= big ->
  (forall i q, 0 <= i <= big -> 0 <= q <= small -> InBox r (x0 + i * mx + q * nx) (y0 + i * my + q * ny)) ->
  forall k m i q e, Z.of_nat (length m) = n -> 0 <= i -> i + Z.of_nat k = big + 1 -> 0 <= q -> 0 <= e <= big -> i * small = q * big + e ->
  within_box g r color m (line_diagonal m (x0 + i * mx + q * nx + (y0 + i * my + q * ny) * BufferBytesPerRow g) e (mx + my * BufferBytesPerRow g) (nx + ny * BufferBytesPerRow g) big small color k).
Proof.
  intros Hsz Hr Hbig Hsmall Hin. induction k as [|k IH]; intros m i q e Hm Hi Hk Hq He E; [apply within_none|]. cbn [line_diagonal].
  eapply within_step; [done|done|done|apply InBox_Contains, Hin; nia|]. intros m' Hm'. rewrite s32_small by lia. case_decide as Hc.
  - rewrite s32_small by lia. replace (x0 + i * mx + q * nx + (y0 + i * my + q * ny) * BufferBytesPerRow g + (nx + ny * BufferBytesPerRow g) + (mx + my * BufferBytesPerRow g))
      with (x0 + (i + 1) * mx + (q + 1) * nx + (y0 + (i + 1) * my + (q + 1) * ny) * BufferBytesPerRow g) by lia. apply IH; lia.
  - replace (x0 + i * mx + q * nx + (y0 + i * my + q * ny) * BufferBytesPerRow g + (mx + my * BufferBytesPerRow g))
      with (x0 + (i + 1) * mx + q * nx + (y0 + (i + 1) * my + q * ny) * BufferBytesPerRow g) by lia. apply IH; lia.
Qed.

(** A line stays in the rectangle between its ends. *)
Lemma DrawLine_within g n m x1 y1 x2 y2 color : sized g n -> Z.of_nat (length m) = n -> 0 <= x1 < BufferWidth g -> 0 <= x2 < BufferWidth g -> 0 <= y1 < BufferHeight g -> 0 <= y2 < BufferHeight g ->
  BufferWidth g <= 2 ^ 30 -> BufferHeight g <= 2 ^ 30 ->
  within_box g (Rect (Z.min x1 x2) (Z.min y1 y2) (Z.max x1 x2) (Z.max y1 y2)) color m (DrawLine g m x1 y1 x2 y2 color).
Proof.
  intros Hsz Hm Hx1 Hx2 Hy1 Hy2 HW HH. set (r := Rect _ _ _ _). assert (on_screen g r) as Hr by (unfold on_screen; simpl; lia).
  assert (forall a b c d, 0 <= a < BufferWidth g -> 0 <= c < BufferWidth g -> 0 <= b -> d < BufferHeight g -> b <= d -> InBox r a b -> InBox r c d ->
    within_box g r color m (let deltaY := s32 (d - b) in let deltaX := if decide (a < c) then s32 (c - a) else s32 (a - c) in let xDir := if decide (a < c) then 1 else -1 in let ptr := spot g a b in
      if decide (deltaX = 0) then line_straight m ptr (BufferBytesPerRow g) color (Z.to_nat (deltaY + 1))
      else if decide (deltaY = 0) then line_straight m ptr xDir color (Z.to_nat (deltaX + 1))
      else if decide (deltaY < deltaX) then line_diagonal m ptr 0 xDir (BufferBytesPerRow g) deltaX deltaY color (Z.to_nat (deltaX + 1))
      else line_diagonal m ptr 0 (BufferBytesPerRow g) xDir deltaY deltaX color (Z.to_nat (deltaY + 1)))) as H.
  { intros a b c d Ha Hc Hb Hd Hbd [B1 B2] [B3 B4]. cbv zeta. unfold spot. pose proof (pixel_in g n a b Hsz ltac:(destruct Hsz; lia) ltac:(lia)) as (P1 & P2 & P3). pose proof Hsz as [].
    rewrite !s32_small by lia. set (dir := if decide (a < c) then 1 else -1). set (dX := if decide (a < c) then c - a else a - c).
    assert (c = a + dX * dir /\ 0 <= dX < 2 ^ 30 /\ (dir = 1 \/ dir = -1)) as (Ec & HdX & Hdir) by (unfold dX, dir; case_decide; lia).
    assert (forall i q, 0 <= i <= dX -> 0 <= q <= d - b -> InBox r (a + i * dir) (b + q)) as Hbox by (intros i q Hi Hq; unfold InBox in *; nia).
    destruct (decide (dX = 0)) as [E0|E0]; [|destruct (decide (d - b = 0)) as [E1|E1]; [|case_decide as E2]].
    - pose proof (line_straight_ok g n r color 0 1 Hsz Hr (Z.to_nat (d - b + 1)) m a b Hm) as L. rewrite Z.mul_1_l, Z.add_0_l in L. apply L. intros j Hj.
      specialize (Hbox 0 j ltac:(lia) ltac:(lia)). unfold InBox in *. lia.
    - pose proof (line_straight_ok g n r color dir 0 Hsz Hr (Z.to_nat (dX + 1)) m a b Hm) as L. rewrite Z.mul_0_l, Z.add_0_r in L. apply L. intros j Hj.
      specialize (Hbox j 0 ltac:(lia) ltac:(lia)). unfold InBox in *. lia.
    - pose proof (line_diagonal_ok g n r color dir 0 0 1 dX (d - b) a b Hsz Hr ltac:(lia) ltac:(lia)) as L. rewrite Z.mul_0_l, Z.mul_1_l, Z.add_0_r, Z.add_0_l in L.
      specialize (L ltac:(intros i q Hi Hq; specialize (Hbox i q ltac:(lia) ltac:(lia)); unfold InBox in *; lia) (Z.to_nat (dX + 1)) m 0 0 0). rewrite !Z.mul_0_l, !Z.add_0_r in L. apply L; lia.
    - pose proof (line_diagonal_ok g n r color 0 1 dir 0 (d - b) dX a b Hsz Hr ltac:(lia) ltac:(lia)) as L. rewrite Z.mul_0_l, Z.mul_1_l, Z.add_0_r, Z.add_0_l in L.
      specialize (L ltac:(intros i q Hi Hq; specialize (Hbox q i ltac:(lia) ltac:(lia)); unfold InBox in *; lia) (Z.to_nat (d - b + 1)) m 0 0 0). rewrite !Z.mul_0_l, !Z.add_0_r in L. apply L; lia. }
  unfold DrawLine. case_decide; apply H; try lia; unfold InBox, r; simpl; lia.
Qed.

End PixelsProof.
