(* ===== verification/Pointer.v ===== *)
(** The mouse pointer (Pixels): whatever is drawn, the screen shows the picture with the
  pointer on top, and the picture is what the 8-bit renderer alone would have painted. *)
From S2P Require Import Prelude LibC Bytes Region RegionProof Pixels PixelsProof.
Import LibC Bytes Region RegionProof Pixels PixelsProof.
Local Open Scope Z_scope.
Local Open Scope c_scope.

Module Pointer.

(** ** The pointer on a picture *)

Lemma kCursorBits_bytes : bytes kCursorBits.
Proof. unfold bytes. apply (bool_decide_unpack _). vm_compute. reflexivity. Qed.

(** The byte of [m] at [p] where the pointer covers it, 255 elsewhere. *)
Definition under (m : list Z) (p b : Z) : Z := match img kCursorBits b with Some _ => default 0 (aget m p) | None => 255 end.

Lemma under_byte m p b : bytes m -> 0 <= under m p b < 256.
Proof. intros Hm. unfold under. destruct (img kCursorBits b); [|lia]. destruct (aget m p) as [c|] eqn:E; simpl; [by eapply aget_byte|lia]. Qed.

Lemma paint_bytes f m : bytes m -> (forall i c, f i = Some c -> 0 <= c < 256) -> bytes (paint f m).
Proof.
  intros Hm Hf. unfold bytes in *. rewrite Forall_forall in *. intros c (i & Hi)%list_elem_of_lookup. unfold paint in Hi. rewrite list_lookup_imap in Hi.
  destruct (m !! i) as [v|] eqn:E; [|done]. simpl in Hi. injection Hi as <-. destruct (f (Z.of_nat i)) eqn:Ef; simpl; [by eapply Hf|]. apply Hm, list_elem_of_lookup. eauto.
Qed.

Lemma img_byte im p c : bytes im -> img im p = Some c -> 0 <= c < 255.
Proof. intros Hb. unfold img, opaque. destruct (aget im p) as [d|] eqn:E; [|done]. case_decide; [done|]. intros [= <-]. pose proof (aget_byte im p d Hb E). lia. Qed.

Lemma default_id (o : option Z) : (fun v => default v None) <$> o = o.
Proof. by destruct o. Qed.

Lemma cursor_row_ok : forall n m saved sp ci, bytes m -> 0 <= sp -> sp + Z.of_nat n <= Z.of_nat (length m) -> 0 <= ci -> ci + Z.of_nat n <= 256 -> length saved = 256%nat ->
  cursor_row m saved sp ci ci n = Ok (paint (run sp (Z.of_nat n) (fun j => img kCursorBits (ci + j))) m, paint (run ci (Z.of_nat n) (fun j => Some (under m (sp + j) (ci + j)))) saved).
Proof.
  induction n as [|n IH]; intros m saved sp ci Hm Hs Hl Hc Hc2 Hsv; [by rewrite !run_none|]. cbn [cursor_row].
  assert (length kCursorBits = 256%nat) as Hk by reflexivity. destruct (rd_in kCursorBits ci ltac:(lia)) as (b & Eb & Ab). rewrite Eb. cbn [cbind].
  destruct (rd_in m sp ltac:(lia)) as (c & Ec & Ac). pose proof (aget_byte m sp c Hm Ac) as Hcb.
  assert (bytes (match img kCursorBits ci with Some v => paint (dot sp v) m | None => m end)) as Hm'.
  { destruct (img kCursorBits ci) as [v|] eqn:Ei; [|done]. apply paint_bytes; [done|]. intros i w. unfold dot. case_decide; [|done]. intros [= <-]. pose proof (img_byte _ _ _ kCursorBits_bytes Ei). lia. }
  assert ((if decide (b <> 255) then let! c := rd m sp in let! saved := wr saved ci c in let! m := wr m sp b in Ok (m, saved) else let! saved := wr saved ci 255 in Ok (m, saved)) =
    Ok (match img kCursorBits ci with Some v => paint (dot sp v) m | None => m end, paint (dot ci (under m sp ci)) saved)) as ->.
  { unfold under, img, opaque in *. rewrite Ab in *. destruct (decide (b = 255)) as [->|Hb].
    - rewrite decide_False by tauto. rewrite wr_paint by lia. done.
    - rewrite decide_True by done. rewrite Ec. cbn [cbind]. rewrite wr_paint by lia. cbn [cbind]. rewrite wr_paint by lia. cbn [cbind]. rewrite Ac. simpl. rewrite (u8_small c) by done.
      by rewrite u8_small by (eapply aget_byte; [apply kCursorBits_bytes|exact Ab]). }
  cbn [cbind]. rewrite IH; [|done|lia|destruct (img kCursorBits ci); rewrite ?length_paint; lia|lia|lia|by rewrite length_paint].
  replace (Z.of_nat (S n)) with (1 + Z.of_nat n) by lia. f_equal. f_equal.
  - rewrite <- run_cons by lia. rewrite Z.add_0_r. apply run_ext. intros j _. f_equal. lia.
  - rewrite <- run_cons by lia. rewrite !Z.add_0_r. apply run_ext. intros j Hj. f_equal. replace (sp + 1 + j) with (sp + (1 + j)) by lia. replace (ci + 1 + j) with (ci + (1 + j)) by lia.
    unfold under. destruct (img kCursorBits (ci + (1 + j))); [|done]. f_equal. destruct (img kCursorBits ci); [|done]. rewrite aget_paint. unfold dot. rewrite decide_False by lia. apply default_id.
Qed.

Lemma Contains_inv r x y : Contains r x y = true -> left r <= x <= right r /\ top r <= y <= bottom r.
Proof. apply Contains_spec. Qed.

Lemma cursor_rows_ok g n x w : sized g n -> 0 <= x -> (w <= 16)%nat -> x + Z.of_nat w <= BufferBytesPerRow g -> forall h m saved y k, Z.of_nat (length m) = n -> bytes m -> length saved = 256%nat ->
  0 <= y -> y + Z.of_nat h <= BufferHeight g -> 0 <= k -> k + Z.of_nat h <= 16 ->
  cursor_rows m saved (x + y * BufferBytesPerRow g) (k * 16) (k * 16) (BufferBytesPerRow g - Z.of_nat w) w h =
    Ok (paint (area (BufferBytesPerRow g) (Rect x y (x + Z.of_nat w - 1) (y + Z.of_nat h - 1)) (fun px py => img kCursorBits ((k + (py - y)) * 16 + (px - x)))) m,
        paint (area 16 (Rect 0 k (Z.of_nat w - 1) (k + Z.of_nat h - 1)) (fun j i => Some (under m (x + j + (y + (i - k)) * BufferBytesPerRow g) (i * 16 + j)))) saved).
Proof.
  intros Hsz Hx Hw Hxw. induction h as [|h IH]; intros m saved y k Hm Hb Hsv Hy Hh Hk Hk2; [by rewrite !no_rows by lia|]. cbn [cursor_rows].
  pose proof (pixel_in g n x y Hsz ltac:(destruct Hsz; lia) ltac:(lia)) as (H1 & H2 & H3). rewrite cursor_row_ok by (try done; lia). cbn [cbind].
  replace (x + y * BufferBytesPerRow g + Z.of_nat w + (BufferBytesPerRow g - Z.of_nat w)) with (x + (y + 1) * BufferBytesPerRow g) by lia.
  replace (k * 16 + Z.of_nat w + (16 - Z.of_nat w)) with ((k + 1) * 16) by lia.
  rewrite IH; [|by rewrite length_paint| |by rewrite length_paint|lia..].
  - f_equal. f_equal.
    + rewrite <- (row_area (BufferBytesPerRow g) x (x + Z.of_nat w - 1) y (y + Z.of_nat (S h) - 1)) by (destruct Hsz; lia).
      replace (y + 1 + Z.of_nat h - 1) with (y + Z.of_nat (S h) - 1) by lia. replace (x + Z.of_nat w - 1 - x + 1) with (Z.of_nat w) by lia.
      rewrite (run_ext _ _ (fun j => img kCursorBits (k * 16 + j)) (fun j => img kCursorBits ((k + (y - y)) * 16 + (x + j - x)))) by (intros j _; f_equal; lia).
      apply area_ext. intros px py _. f_equal. lia.
    + rewrite <- (row_area 16 0 (Z.of_nat w - 1) k (k + Z.of_nat (S h) - 1)) by lia. replace (k + 1 + Z.of_nat h - 1) with (k + Z.of_nat (S h) - 1) by lia. replace (Z.of_nat w - 1 - 0 + 1) with (Z.of_nat w) by lia. rewrite Z.add_0_l.
      rewrite (run_ext _ _ (fun j => Some (under m (x + y * BufferBytesPerRow g + j) (k * 16 + j))) (fun j => Some (under m (x + (0 + j) + (y + (k - k)) * BufferBytesPerRow g) (k * 16 + (0 + j))))) by (intros j _; do 2 f_equal; lia).
      apply area_ext. intros j i [Hj Hi]%Contains_inv. cbn [left right top bottom] in *. f_equal. replace (y + 1 + (i - (k + 1))) with (y + (i - k)) by lia.
      unfold under. destruct (img kCursorBits (i * 16 + j)); [|done]. f_equal. rewrite aget_paint. unfold run. rewrite decide_False by nia. apply default_id.
  - apply paint_bytes; [done|]. intros i c. unfold run. case_decide; [|done]. intros Hi. pose proof (img_byte _ _ _ kCursorBits_bytes Hi). lia.
Qed.

(** The part of the screen that the pointer may cover, and what it paints there. *)
Definition cursor_area (g : renderer) (cx cy : Z) : rect := Rect cx cy (cx + cursorDisplayWidth g cx - 1) (cy + cursorDisplayHeight g cy - 1).
Definition cursor_pic (g : renderer) (cx cy : Z) : pic := area (BufferBytesPerRow g) (cursor_area g cx cy) (fun px py => img kCursorBits ((py - cy) * 16 + (px - cx))).
Definition pointable (g : renderer) (cx cy : Z) : Prop := 0 <= cx < BufferWidth g /\ 0 <= cy < BufferHeight g.

Definition picture (n : Z) (b : list Z) : Prop := Z.of_nat (length b) = n /\ bytes b.

Lemma picture_bytes n b : picture n b -> bytes b.
Proof. by intros [_ H]. Qed.

Lemma picture_paint n b f : picture n b -> (forall i c, f i = Some c -> 0 <= c < 256) -> picture n (paint f b).
Proof. intros [Hn Hb] Hf. split; [by rewrite length_paint|by apply paint_bytes]. Qed.

(** The picture that EraseCursor leaves: it takes 255 for "not covered by the pointer", so a
  pixel of that colour below the pointer keeps the colour of the pointer. *)
Definition erased (g : renderer) (cx cy : Z) (b : list Z) : list Z :=
  paint (fun i => if decide (aget b i = Some 255) then cursor_pic g cx cy i else None) b.

Lemma cursor_pic_byte g cx cy i c : cursor_pic g cx cy i = Some c -> 0 <= c < 255.
Proof. unfold cursor_pic, area. destruct (Contains _ _ _); [|done]. apply img_byte, kCursorBits_bytes. Qed.

Lemma erased_picture g n cx cy b : picture n b -> picture n (erased g cx cy b).
Proof. intros Hb. apply picture_paint; [done|]. intros i c. case_decide; [|done]. intros Hc. apply cursor_pic_byte in Hc. lia. Qed.

(** No pixel is lost of a picture without the colour 255. *)
Lemma erased_plain g cx cy b : Forall (fun c => c <> 255) b -> erased g cx cy b = b.
Proof.
  intros Hb. apply paint_none. intros i. rewrite decide_False; [done|]. intros [_ E]%aget_Some. rewrite Forall_lookup in Hb. by apply (Hb _ _ E).
Qed.

(** The screen shows the picture [b] with the pointer on top. *)
Record shows (g : renderer) (b : list Z) (s : vga) : Prop := {
  sh_place : pointable g (fCursorX s) (fCursorY s);
  sh_frame : frame s = paint (cursor_pic g (fCursorX s) (fCursorY s)) b;
  sh_saved : length (fSavedBackground s) = 256%nat /\ bytes (fSavedBackground s);
  sh_under : forall px py, inside (cursor_area g (fCursorX s) (fCursorY s)) px py ->
    aget (fSavedBackground s) ((py - fCursorY s) * 16 + (px - fCursorX s)) = Some (under b (px + py * BufferBytesPerRow g) ((py - fCursorY s) * 16 + (px - fCursorX s)))
}.

Section screen.
Context (g : renderer) (n : Z) (Hsz : sized g n).

Lemma cursor_size cx cy : pointable g cx cy -> 0 < cursorDisplayWidth g cx <= 16 /\ cx + cursorDisplayWidth g cx <= BufferBytesPerRow g /\
  0 < cursorDisplayHeight g cy <= 16 /\ cy + cursorDisplayHeight g cy <= BufferHeight g.
Proof.
  intros [H1 H2]. unfold cursorDisplayWidth, cursorDisplayHeight, MIN. destruct Hsz. rewrite !s32_small by lia. repeat case_decide; lia.
Qed.

Lemma area_inside r v i c : area (BufferBytesPerRow g) r v i = Some c -> inside r (i mod BufferBytesPerRow g) (i / BufferBytesPerRow g).
Proof. unfold area. destruct (Contains r _ _) eqn:E; [|done]. intros _. by apply Contains_spec. Qed.

Lemma area_at r v x y : 0 <= x < BufferBytesPerRow g -> inside r x y -> area (BufferBytesPerRow g) r v (x + y * BufferBytesPerRow g) = v x y.
Proof. intros Hx Hin. unfold area. rewrite Z.mod_add, Z.div_add, Z.mod_small, Z.div_small, Z.add_0_l by lia. by rewrite (proj2 (Contains_spec r x y)). Qed.

Lemma DrawCursor_shows b s : picture n b -> frame s = b -> pointable g (fCursorX s) (fCursorY s) -> length (fSavedBackground s) = 256%nat -> bytes (fSavedBackground s) ->
  exists s', DrawCursor g s = Ok s' /\ shows g b s' /\ fCursorX s' = fCursorX s /\ fCursorY s' = fCursorY s.
Proof.
  intros Hb Ef Hp Hl Hsv. pose proof (cursor_size _ _ Hp) as (W1 & W2 & H1 & H2). pose proof Hp as [P1 P2].
  pose proof (pixel_in g n (fCursorX s) (fCursorY s) Hsz ltac:(lia) ltac:(lia)) as (Q1 & Q2 & Q3). unfold DrawCursor, spot. pose proof Hsz as []. rewrite !s32_small by lia. rewrite Ef.
  pose proof (cursor_rows_ok g n (fCursorX s) (Z.to_nat (cursorDisplayWidth g (fCursorX s))) Hsz ltac:(lia) ltac:(lia) ltac:(lia) (Z.to_nat (cursorDisplayHeight g (fCursorY s))) b (fSavedBackground s) (fCursorY s) 0
    ltac:(apply Hb) ltac:(by eapply picture_bytes) Hl ltac:(lia) ltac:(lia) ltac:(lia) ltac:(lia)) as E. rewrite !Z2Nat.id in E by lia. rewrite Z.mul_0_l in E. rewrite E. cbn [cbind].
  eexists. split; [done|]. split; [|done]. constructor; cbn [fCursorX fCursorY frame fSavedBackground]; [done|done| |].
  - rewrite length_paint. split; [done|]. apply paint_bytes; [done|]. intros i c. unfold area. destruct (Contains _ _ _); [|done]. intros [= <-]. apply under_byte. by eapply picture_bytes.
  - intros px py Hin. unfold inside, cursor_area in Hin. simpl in Hin. set (x := px - fCursorX s). set (y := py - fCursorY s). assert (0 <= x < 16 /\ 0 <= y < 16) as [Hx Hy] by (unfold x, y; lia).
    rewrite aget_paint. destruct (aget_in_range (fSavedBackground s) (y * 16 + x)) as [c Hc]; [rewrite Hl; lia|]. rewrite Hc. simpl. f_equal. unfold area.
    replace (y * 16 + x) with (x + y * 16) by lia. rewrite Z.mod_add, Z.div_add, Z.mod_small, Z.div_small, Z.add_0_l by lia.
    rewrite (proj2 (Contains_spec (Rect 0 0 _ _) x y)) by (unfold inside; simpl; unfold x, y; lia). simpl. f_equal; unfold x, y; lia.
Qed.

(** EraseCursor brings the picture back, except where it is 255 below the pointer. *)
Lemma EraseCursor_shows b s : picture n b -> shows g b s -> exists s', EraseCursor g s = Ok s' /\ frame s' = erased g (fCursorX s) (fCursorY s) b /\ fCursorX s' = fCursorX s /\ fCursorY s' = fCursorY s /\ fSavedBackground s' = fSavedBackground s.
Proof.
  intros Hb [Hp Ef [Hl Hsv] Hu]. pose proof (cursor_size _ _ Hp) as (W1 & W2 & H1 & H2). pose proof Hp as [P1 P2].
  pose proof (pixel_in g n (fCursorX s) (fCursorY s) Hsz ltac:(lia) ltac:(lia)) as (Q1 & Q2 & Q3). unfold EraseCursor, spot. pose proof Hsz as []. rewrite !s32_small by lia.
  pose proof (blit_rows_ok g n (fSavedBackground s) 16 (fCursorX s) (Z.to_nat (cursorDisplayWidth g (fCursorX s))) Hsz Hsv ltac:(lia) ltac:(lia) (Z.to_nat (cursorDisplayHeight g (fCursorY s))) (frame s) (fCursorY s) 0
    ltac:(rewrite Ef, length_paint; apply Hb) ltac:(lia) ltac:(lia) ltac:(intros k Hk; lia)) as E. rewrite !Z2Nat.id in E by lia. rewrite E. cbn [cbind].
  eexists. split; [done|]. split; [|done]. cbn [frame]. rewrite Ef, paint_over. fold (cursor_area g (fCursorX s) (fCursorY s)). unfold erased. apply list_aget_eq; [by rewrite !length_paint|]. rewrite length_paint. intros i Hi. rewrite !aget_paint.
  destruct (aget_in_range b i Hi) as [c Hc]. rewrite Hc. simpl. f_equal. unfold over, cursor_pic, area. set (px := i mod BufferBytesPerRow g). set (py := i / BufferBytesPerRow g).
  destruct (Contains _ px py) eqn:Ec; [|by destruct (decide _)]. apply Contains_spec in Ec. rewrite Z.add_0_l. unfold img at 1. rewrite (Hu px py Ec).
  replace (px + py * BufferBytesPerRow g) with i by (unfold px, py; pose proof (Z.div_mod i (BufferBytesPerRow g)); lia). unfold under, opaque. rewrite Hc.
  destruct (img kCursorBits _) as [v|]; simpl; [|by destruct (decide _)]. destruct (decide (c = 255)) as [->|Hne]; [done|]. by destruct (decide (Some c = Some 255)) as [[= ?]|_].
Qed.

(** The pointer on a picture that changes elsewhere. *)
Lemma shows_elsewhere b s f : picture n b -> shows g b s -> (forall i c px py, f i = Some c -> inside (cursor_area g (fCursorX s) (fCursorY s)) px py -> i <> px + py * BufferBytesPerRow g) ->
  shows g (paint f b) (Vga (paint f (frame s)) (fCursorX s) (fCursorY s) (fSavedBackground s)).
Proof.
  intros Hb [Hp Ef Hsv Hu] Hf. pose proof (cursor_size _ _ Hp) as (W1 & W2 & H1 & H2). constructor; cbn [fCursorX fCursorY frame fSavedBackground]; [done| |done|].
  - rewrite Ef, !paint_over. apply paint_ext. intros i Hi. unfold over. destruct (f i) as [c|] eqn:Efi; [|by destruct (cursor_pic g _ _ i)]. destruct (cursor_pic g _ _ i) as [d|] eqn:Ecp; [|done].
    exfalso. apply area_inside in Ecp. eapply Hf; [exact Efi|exact Ecp|]. destruct Hsz. pose proof (Z.div_mod i (BufferBytesPerRow g)). lia.
  - intros px py Hin. rewrite (Hu px py Hin). f_equal. unfold under. destruct (img kCursorBits _); [|done]. f_equal. rewrite aget_paint.
    destruct (f (px + py * BufferBytesPerRow g)) as [c|] eqn:Efi; [by destruct (Hf _ _ _ _ Efi Hin)|]. symmetry. apply default_id.
Qed.

(** An operation below the pointer, which is erased first if it is met. *)
Lemma below_shows b s hit f op : picture n b -> shows g b s -> Paints n f op -> (forall i c, f i = Some c -> 0 <= c < 256) ->
  (hit = false -> forall i c px py, f i = Some c -> inside (cursor_area g (fCursorX s) (fCursorY s)) px py -> i <> px + py * BufferBytesPerRow g) ->
  let b0 := if hit : bool then erased g (fCursorX s) (fCursorY s) b else b in
  exists s', below g s hit op = Ok s' /\ shows g (paint f b0) s' /\ picture n (paint f b0) /\ fCursorX s' = fCursorX s /\ fCursorY s' = fCursorY s.
Proof.
  intros Hb Hs Hop Hf Hit. unfold below. destruct hit; cbn zeta.
  - pose proof (erased_picture g n (fCursorX s) (fCursorY s) b Hb) as He. pose proof (picture_paint n _ f He Hf) as Hb'. set (b0 := erased g (fCursorX s) (fCursorY s) b) in *.
    destruct (EraseCursor_shows b s Hb Hs) as (s1 & E1 & Ef1 & Ex1 & Ey1 & Es1). fold b0 in Ef1. rewrite E1. cbn [cbind]. rewrite Hop by (rewrite Ef1; apply He). cbn [cbind].
    destruct (DrawCursor_shows (paint f b0) (Vga (paint f (frame s1)) (fCursorX s1) (fCursorY s1) (fSavedBackground s1)) Hb') as (s' & E' & H' & Hx & Hy); cbn [frame fCursorX fCursorY fSavedBackground].
    + by rewrite Ef1.
    + rewrite Ex1, Ey1. apply Hs.
    + rewrite Es1. apply Hs.
    + rewrite Es1. apply Hs.
    + exists s'. cbn [fCursorX fCursorY] in *. split_and!; [done|done|done|congruence|congruence].
  - pose proof (picture_paint n _ f Hb Hf) as Hb'. cbn [cbind]. rewrite Hop by (rewrite (sh_frame _ _ _ Hs), length_paint; apply Hb). cbn [cbind]. eexists. split; [done|]. split; [|done]. apply shows_elsewhere; [done|done|by apply Hit].
Qed.

(** A rectangle that does not meet the pointer. *)
Lemma miss s r r' v i c px py : Intersects r' (cursorRect s) = false -> (forall x y, inside r x y -> inside r' x y) -> pointable g (fCursorX s) (fCursorY s) ->
  area (BufferBytesPerRow g) r v i = Some c -> inside (cursor_area g (fCursorX s) (fCursorY s)) px py -> i <> px + py * BufferBytesPerRow g.
Proof.
  intros Hi Hsub Hp Ha Hin ->. pose proof (cursor_size _ _ Hp) as (W1 & W2 & H1 & H2). apply area_inside in Ha. pose proof Hin as [[I1 I2] [I3 I4]]. cbn [cursor_area left right top bottom] in *. destruct Hp. destruct Hsz.
  rewrite Z.mod_add, Z.div_add, Z.mod_small, Z.div_small, Z.add_0_l in Ha by lia. apply Hsub in Ha. rewrite (Intersects_inside r' (cursorRect s) px py) in Hi; [done|done|].
  unfold inside, cursorRect. cbn [left right top bottom]. rewrite !s32_small by lia. lia.
Qed.

End screen.

(** ** Sequences of operations *)

Inductive sop :=
| SFill (x1 y1 x2 y2 color : Z)
| SBlit (x y : Z) (im : list Z) (image w h bytes_per_row : Z)
| SStretch (ir dr : rect) (im : list Z) (image bytes_per_row : Z)
| SMove (x y : Z).

Definition screen_op (g : renderer) (s : vga) (o : sop) : cres vga :=
  match o with
  | SFill x1 y1 x2 y2 color => vga_FillRect g s x1 y1 x2 y2 color
  | SBlit x y im image w h ib => vga_Blit g s x y im image w h ib
  | SStretch ir dr im image ib => vga_StretchBlit g s ir dr im image ib
  | SMove x y => SetCursorPosition g s x y
  end.
Fixpoint screen_ops (g : renderer) (s : vga) (l : list sop) : cres vga :=
  match l with [] => Ok s | o :: l => let! s := screen_op g s o in screen_ops g s l end.

(** Rectangles on the screen, images in their blocks. *)
Definition drawable (g : renderer) (o : sop) : Prop :=
  match o with
  | SFill x1 y1 x2 y2 color => on_screen g (Rect x1 y1 x2 y2)
  | SBlit x y im image w h ib => 0 <= w /\ 0 <= h /\ on_screen g (Rect x y (x + w - 1) (y + h - 1)) /\ in_image im image w h ib /\ 0 <= ib < 2 ^ 31
  | SStretch ir dr im image ib => on_screen g dr /\ scalable im ir dr image ib
  | SMove x y => pointable g x y
  end.

(** What each paints on the picture. *)
Definition op_pic (g : renderer) (o : sop) : pic :=
  match o with
  | SFill x1 y1 x2 y2 color => area (BufferBytesPerRow g) (Rect x1 y1 x2 y2) (fun _ _ => Some (u8 color))
  | SBlit x y im image w h ib => blit_pic g x y im image w h ib
  | SStretch ir dr im image ib => stretch_pic g ir dr im image ib
  | SMove _ _ => fun _ => None
  end.
Definition painted (g : renderer) (b : list Z) (l : list sop) : list Z := fold_left (fun b o => paint (op_pic g o) b) l b.
Definition moved (p : Z * Z) (l : list sop) : Z * Z := fold_left (fun p o => match o with SMove x y => (x, y) | _ => p end) l p.

(** Whether an operation makes the renderer erase the pointer. *)
Definition pointer_box (p : Z * Z) : rect := Rect p.1 p.2 (s32 (p.1 + 16)) (s32 (p.2 + 16)).
Definition touches (p : Z * Z) (o : sop) : bool :=
  match o with
  | SFill x1 y1 x2 y2 _ => Intersects (Rect x1 y1 x2 y2) (pointer_box p)
  | SBlit x y _ _ w h _ => Intersects (Rect x y (s32 (x + w)) (s32 (y + h))) (pointer_box p)
  | SStretch _ dr _ _ _ => Intersects dr (pointer_box p)
  | SMove _ _ => true
  end.
(** The picture after operations, with the pointer at [p] before them. *)
Definition after (g : renderer) (p : Z * Z) (b : list Z) (o : sop) : list Z := paint (op_pic g o) (if touches p o then erased g p.1 p.2 b else b).
Fixpoint left_by (g : renderer) (p : Z * Z) (b : list Z) (l : list sop) : list Z :=
  match l with [] => b | o :: l => left_by g (moved p [o]) (after g p b o) l end.

(** Operations that do not paint the colour 255. *)
Definition plain_op (o : sop) : Prop := match o with SFill _ _ _ _ color => u8 color <> 255 | _ => True end.
Definition plain (b : list Z) : Prop := Forall (fun c => c <> 255) b.

Lemma plain_paint f b : plain b -> (forall i, f i <> Some 255) -> plain (paint f b).
Proof.
  unfold plain. rewrite !Forall_lookup. intros Hb Hf i c Hi. unfold paint in Hi. rewrite list_lookup_imap in Hi. destruct (b !! i) as [v|] eqn:E; [|done]. simpl in Hi. injection Hi as <-.
  destruct (f (Z.of_nat i)) eqn:Ef; simpl; [intros ->; by apply (Hf (Z.of_nat i))|by apply (Hb i)].
Qed.

Lemma area_img g r im q i c : bytes im -> area (BufferBytesPerRow g) r (fun px py => img im (q px py)) i = Some c -> 0 <= c < 255.
Proof. intros Hb. unfold area. destruct (Contains r _ _); [|done]. by apply img_byte. Qed.

Lemma op_pic_plain g o i : drawable g o -> plain_op o -> op_pic g o i <> Some 255.
Proof.
  destruct o as [x1 y1 x2 y2 color|x y im ip w h ib|ir dr im ip ib|x y]; cbn [drawable plain_op op_pic]; intros Hd Hp E; [| | |done].
  - revert E. unfold area. destruct (Contains _ _ _); [|done]. intros [= E]. done.
  - assert (0 <= 255 < 255); [|lia]. destruct Hd as (_ & _ & _ & Him & _). apply (area_img g _ im (fun px py => ip + (py - y) * ib + (px - x)) i 255 (proj1 Him) E).
  - assert (0 <= 255 < 255); [|lia]. destruct Hd as [_ Hsc]. unfold stretch_pic in E. eapply (area_img g dr im (fun px py => _)); [apply Hsc|exact E].
Qed.

Lemma left_by_plain g : forall l p b, plain b -> Forall (fun o => drawable g o /\ plain_op o) l -> left_by g p b l = painted g b l /\ plain (painted g b l).
Proof.
  induction l as [|o l IH]; intros p b Hb Hl; [done|]. apply Forall_cons in Hl as [[Ho Hp] Hl]. cbn [left_by]. assert (after g p b o = paint (op_pic g o) b) as ->.
  { unfold after. destruct (touches p o); [|done]. by rewrite erased_plain. }
  apply (IH (moved p [o]) (paint (op_pic g o) b)); [|done]. apply plain_paint; [done|]. intros i. by apply op_pic_plain.
Qed.

Lemma screen_op_shows g n b s o : sized g n -> picture n b -> shows g b s -> drawable g o -> let b' := after g (fCursorX s, fCursorY s) b o in
  exists s', screen_op g s o = Ok s' /\ shows g b' s' /\ picture n b' /\ (fCursorX s', fCursorY s') = moved (fCursorX s, fCursorY s) [o].
Proof.
  intros Hsz Hb Hs. pose proof (sh_place _ _ _ Hs) as Hp. unfold after. destruct o as [x1 y1 x2 y2 color|x y im ip w h ib|ir dr im ip ib|x y]; cbn [drawable screen_op op_pic moved fold_left touches fst snd].
  - intros Hon. destruct (below_shows g n Hsz b s (Intersects (Rect x1 y1 x2 y2) (cursorRect s)) _ _ Hb Hs (FillRect_paints g n x1 y1 x2 y2 color Hsz Hon)) as (s' & E & H1 & H2 & H3 & H4).
    + intros i c. unfold area. destruct (Contains _ _ _); [|done]. intros [= <-]. apply u8_range.
    + intros Hi i c px py Hf. eapply (miss g n Hsz s _ _ _ i c px py Hi); [done|done|exact Hf].
    + exists s'. split_and!; [done|done|done|congruence].
  - intros (Hw & Hh & Hon & Him & Hib). pose proof Hon as (O1 & O2 & O3 & O4 & O5). cbn [left right top bottom] in *. pose proof Hsz as [].
    destruct (below_shows g n Hsz b s (Intersects (Rect x y (s32 (x + w)) (s32 (y + h))) (cursorRect s)) _ _ Hb Hs (Blit_paints g n x y im ip w h ib Hsz Hw Hh Hon Him Hib)) as (s' & E & H1 & H2 & H3 & H4).
    + intros i c Hi. enough (0 <= c < 255) by lia. revert Hi. apply (area_img g _ im (fun px py => ip + (py - y) * ib + (px - x))), Him.
    + intros Hi i c px py Hf. eapply (miss g n Hsz s _ _ _ i c px py Hi); [|done|exact Hf]. unfold inside. cbn [left right top bottom]. destruct (decide (y + h <= BufferHeight g)); [|lia]. intros x' y'. rewrite !s32_small by lia. lia.
    + exists s'. split_and!; [done|done|done|congruence].
  - intros (Hon & Hsc). destruct (below_shows g n Hsz b s (Intersects dr (cursorRect s)) _ _ Hb Hs (StretchBlit_paints g n ir dr im ip ib Hsz Hon Hsc)) as (s' & E & H1 & H2 & H3 & H4).
    + intros i c Hi. enough (0 <= c < 255) by lia. revert Hi. unfold stretch_pic. eapply (area_img g dr im (fun px py => _)), Hsc.
    + intros Hi i c px py Hf. eapply (miss g n Hsz s _ _ _ i c px py Hi); [done|done|exact Hf].
    + exists s'. split_and!; [done|done|done|congruence].
  - intros Hxy. rewrite paint_none by done. unfold SetCursorPosition. destruct (EraseCursor_shows g n Hsz b s Hb Hs) as (s1 & -> & Ef & _ & _ & Es). cbn [cbind].
    pose proof (erased_picture g n (fCursorX s) (fCursorY s) b Hb) as He.
    destruct (DrawCursor_shows g n Hsz _ (Vga (frame s1) x y (fSavedBackground s1)) He Ef Hxy) as (s' & E & H1 & H2 & H3); cbn [fSavedBackground]; [rewrite Es; apply Hs..|].
    exists s'. cbn [fCursorX fCursorY] in *. split_and!; [done|done|done|congruence].
Qed.

Lemma screen_ops_show g n : sized g n -> forall l b s, picture n b -> shows g b s -> Forall (drawable g) l -> let b' := left_by g (fCursorX s, fCursorY s) b l in
  exists s', screen_ops g s l = Ok s' /\ shows g b' s' /\ picture n b' /\ (fCursorX s', fCursorY s') = moved (fCursorX s, fCursorY s) l.
Proof.
  intros Hsz. induction l as [|o l IH]; intros b s Hb Hs Hl; [exists s; done|]. apply Forall_cons in Hl as [Ho Hl].
  destruct (screen_op_shows g n b s o Hsz Hb Hs Ho) as (s1 & E1 & H1 & H2 & H3). destruct (IH _ s1 H2 H1 Hl) as (s' & E & H4 & H5 & H6). exists s'. cbn [screen_ops left_by]. rewrite E1. cbn [cbind]. rewrite H3 in *.
  split_and!; [done|done|done|]. rewrite H6. done.
Qed.


(** ** Witness *)

Definition small_screen : renderer := Renderer 20 18 20.
Definition small_ops : list sop := [SFill 2 2 17 15 9; SMove 3 3; SBlit 4 4 [7; 255; 8; 9] 0 2 2 2; SStretch (Rect 0 0 1 1) (Rect 5 9 8 11) [1; 2; 3; 4] 0 2; SMove 18 17].


(** A pixel of colour 255 below the pointer is not brought back. *)
Example erase_forgets_white : exists s, new_vga small_screen (replicate 360 255) (replicate 256 0) = Ok s /\ frame s !! 190%nat = Some 63 /\
  exists s', EraseCursor small_screen s = Ok s' /\ frame s' !! 190%nat = Some 63.
Proof. eexists. split; [vm_compute; reflexivity|]. split; [reflexivity|]. eexists. split; vm_compute; reflexivity. Qed.

End Pointer.
