(* ===== verification/WinScreen.v ===== *)
(** From the window to the pixel: what a program draws in its window (Win, WinSafe) is
  carried out by the renderer (Pixels, Pointer) on the frame buffer. *)
From S2P Require Import Prelude LibC Bytes Region RegionProof RegionOps Win WinProof WinRun WinSafe Pixels PixelsProof Pointer.
Import LibC Region RegionProof RegionOps Win WinProof WinRun WinSafe.
Import Pixels PixelsProof Pointer.
Local Open Scope Z_scope.
Local Open Scope c_scope.

Module WinScreen.

(** The calls of the renderer, in order; images are in the memory [mem]. *)
Definition show (g : renderer) (mem : list Z) (v : vga) (d : draw) : cres vga :=
  match d with
  | DLine x1 y1 x2 y2 color => vga_DrawLine g v x1 y1 x2 y2 color
  | DStretch ir dr image ib => vga_StretchBlit g v ir dr mem image ib
  | DFill r color => vga_FillRect g v (left r) (top r) (right r) (bottom r) color
  | DBlit x y image w h ib => vga_Blit g v x y mem image w h ib
  | DCopy src dest => vga_CopyRect g v src dest
  end.
Fixpoint show_all (g : renderer) (mem : list Z) (v : vga) (l : list draw) : cres vga :=
  match l with [] => Ok v | d :: l => let! v := show g mem v d in show_all g mem v l end.

Lemma show_all_app g mem l k : forall v, show_all g mem v (l ++ k) = (let! v := show_all g mem v l in show_all g mem v k).
Proof. induction l as [|d l IH]; intros v; [done|]. simpl. destruct (show g mem v d); simpl; [apply IH|done|done]. Qed.

(** The rectangle that FillRect means, on the screen. *)
Definition extent (c : graphics) (x1 y1 x2 y2 : Z) : rect :=
  Rect (Z.min (s32 (x1 + gc_x c)) (s32 (x2 + gc_x c))) (Z.min (s32 (y1 + gc_y c)) (s32 (y2 + gc_y c)))
       (Z.max (s32 (x1 + gc_x c)) (s32 (x2 + gc_x c))) (Z.max (s32 (y1 + gc_y c)) (s32 (y2 + gc_y c))).

Lemma fill_in_extent e c r : fill_in (left e) (top e) (right e) (bottom e) c r = if Valid (Intersect_rect e r) then [DFill (Intersect_rect e r) c] else [].
Proof. unfold fill_in, Valid, Intersect_rect. cbn [left right top bottom]. case_decide as H; destruct (bool_decide _) eqn:E1, (bool_decide _) eqn:E2 in |- *; try done; rewrite ?bool_decide_eq_true, ?bool_decide_eq_false in *; tauto. Qed.

Lemma FillRect_extent c x1 y1 x2 y2 : Win.FillRect c x1 y1 x2 y2 = fRects (gc_clip c) ≫= fill_in (left (extent c x1 y1 x2 y2)) (top (extent c x1 y1 x2 y2)) (right (extent c x1 y1 x2 y2)) (bottom (extent c x1 y1 x2 y2)) (gc_color c).
Proof.
  unfold Win.FillRect, extent. cbn [left right top bottom]. destruct (decide (s32 (x2 + gc_x c) < s32 (x1 + gc_x c))), (decide (s32 (y2 + gc_y c) < s32 (y1 + gc_y c)));
    rewrite ?(Z.min_l (s32 (x1 + gc_x c))), ?(Z.min_r (s32 (x1 + gc_x c))), ?(Z.max_l (s32 (x1 + gc_x c))), ?(Z.max_r (s32 (x1 + gc_x c))), ?(Z.min_l (s32 (y1 + gc_y c))), ?(Z.min_r (s32 (y1 + gc_y c))), ?(Z.max_l (s32 (y1 + gc_y c))), ?(Z.max_r (s32 (y1 + gc_y c))) by lia; done.
Qed.

#[local] Instance inside_dec r x y : Decision (inside r x y).
Proof. unfold inside. apply _. Defined.
#[local] Instance pts_dec l x y : Decision (pts l x y).
Proof. refine (cast_if (decide (Exists (fun r => inside r x y) l))); unfold pts; by rewrite <- Exists_exists. Defined.

Definition pixel (g : renderer) (b : list Z) (x y : Z) : option Z := aget b (x + y * BufferBytesPerRow g).

(** The pointer is on the pixel. *)
Definition below_pointer (g : renderer) (v : vga) (x y : Z) : Prop := is_Some (cursor_pic g (fCursorX v) (fCursorY v) (x + y * BufferBytesPerRow g)).
(** The pixel is [c], except that the colour 255 may be lost below the pointer. *)
Definition pixel_is (g : renderer) (v : vga) (b : list Z) (x y : Z) (c : option Z) : Prop := pixel g b x y = c \/ (c = Some 255 /\ below_pointer g v x y).

Lemma pixel_is_trans g v b b' x y c : pixel_is g v b' x y (pixel g b x y) -> pixel_is g v b x y c -> pixel_is g v b' x y c.
Proof. unfold pixel_is. intros [H1|[H1 H2]] [H3|[H3 H4]]; [left; congruence|by right|right; split; [congruence|done]|by right]. Qed.

Lemma pixel_erased g v b x y : pixel_is g v (erased g (fCursorX v) (fCursorY v) b) x y (pixel g b x y).
Proof.
  unfold pixel_is, pixel, erased. rewrite aget_paint. destruct (aget b _) as [c|] eqn:E; [|by left]. simpl. destruct (decide (Some c = Some 255)) as [[= ->]|_]; [|by left].
  unfold below_pointer. destruct (cursor_pic _ _ _ _); [right; split; [done|by eexists]|by left].
Qed.

(** Filling the part of [e] in each of the rectangles [k]. *)
Lemma fills_ok g n mem e color : sized g n -> forall k b v, picture n b -> shows g b v -> sub k [BufferBounds g] ->
  exists v' b', show_all g mem v (k ≫= fill_in (left e) (top e) (right e) (bottom e) color) = Ok v' /\ shows g b' v' /\ picture n b' /\ (fCursorX v', fCursorY v') = (fCursorX v, fCursorY v) /\
    forall x y, inside (BufferBounds g) x y -> (inside e x y /\ pts k x y -> pixel_is g v b' x y (Some (u8 color))) /\ (~ (inside e x y /\ pts k x y) -> pixel_is g v b' x y (pixel g b x y)).
Proof.
  intros Hsz. induction k as [|r k IH]; intros b v Hb Hv Hk.
  { exists v, b. split_and!; [done|done|done|done|]. intros x y _. split; [|by left]. intros [_ H]. by apply pts_nil in H. }
  rewrite bind_cons, fill_in_extent. assert (sub k [BufferBounds g]) as Hk' by (intros x y H; apply (Hk x y); apply pts_cons; by right).
  assert (forall x y, inside (Intersect_rect e r) x y -> inside (BufferBounds g) x y) as Hr.
  { intros x y [_ H]%inside_Intersect. destruct (Hk x y) as (q & Hq & Hi); [apply pts_cons; by left|]. by apply list_elem_of_singleton in Hq as ->. }
  destruct (Valid (Intersect_rect e r)) eqn:Eval.
  - apply Valid_spec in Eval as [V1 V2]. assert (on_screen g (Intersect_rect e r)) as Hon.
    { pose proof (Hr (left (Intersect_rect e r)) (top (Intersect_rect e r)) ltac:(unfold inside; lia)) as [A1 A2]. pose proof (Hr (right (Intersect_rect e r)) (bottom (Intersect_rect e r)) ltac:(unfold inside; lia)) as [A3 A4].
      unfold BufferBounds in *. cbn [left right top bottom] in *. destruct Hsz. rewrite !s32_small in * by lia. unfold on_screen. lia. }
    assert (forall x y, inside (Intersect_rect e r) x y <-> inside e x y /\ inside r x y) as Hq' by (intros; apply inside_Intersect).
    set (q := Intersect_rect e r) in *. clearbody q. destruct (screen_op_shows g n b v (SFill (left q) (top q) (right q) (bottom q) color) Hsz Hb Hv) as (v1 & E1 & H1 & H2 & Hpos); [by destruct q|]. unfold after in H1, H2. cbn [screen_op op_pic moved fold_left fst snd] in *.
    set (b0 := if touches _ _ then _ else b) in *. assert (picture n b0) as Hb0 by (unfold b0; destruct (touches _ _); [by apply erased_picture|done]).
    assert (forall x y, pixel_is g v b0 x y (pixel g b x y)) as Hera by (intros x y; unfold b0; destruct (touches _ _); [apply pixel_erased|by left]). clearbody b0.
    assert (forall b x y c, pixel_is g v1 b x y c <-> pixel_is g v b x y c) as Hpis by (intros; unfold pixel_is, below_pointer; injection Hpos as -> ->; done).
    replace (Rect (left q) (top q) (right q) (bottom q)) with q in * by (by destruct q).
    destruct (IH _ v1 H2 H1 Hk') as (v' & b' & E & Hs' & Hb' & Hp' & Hpix). exists v', b'. rewrite show_all_app. cbn [show_all show cbind]. rewrite E1. cbn [cbind]. split_and!; [done|done|done|by rewrite Hp', Hpos|].
    intros x y Hin. destruct (Hpix x y Hin) as [P1 P2]. rewrite !Hpis in P1, P2. assert (0 <= x < BufferBytesPerRow g /\ 0 <= y < BufferHeight g) as [Hx Hy].
    { destruct Hin as [I1 I2]. unfold BufferBounds in *. cbn [left right top bottom] in *. destruct Hsz. rewrite !s32_small in * by lia. lia. }
    assert (exists o, aget b0 (x + y * BufferBytesPerRow g) = Some o) as [o Ho] by (apply aget_in_range; destruct Hb0 as [-> _]; destruct Hsz; nia).
    assert (pixel g (paint (area (BufferBytesPerRow g) q (fun _ _ => Some (u8 color))) b0) x y = if decide (left q <= x <= right q /\ top q <= y <= bottom q) then Some (u8 color) else pixel g b0 x y) as Epix.
    { unfold pixel. rewrite aget_paint, Ho. simpl. unfold area. rewrite Z.mod_add, Z.div_add, Z.mod_small, Z.div_small, Z.add_0_l by lia. unfold Contains.
      case_decide as Hd; [rewrite !bool_decide_eq_true_2 by lia; done|]. destruct (_ && _) eqn:Eb; [|done]. exfalso. apply Hd. rewrite !andb_true_iff, !bool_decide_eq_true in Eb. lia. }
    pose proof (Hq' x y) as Hq. unfold inside at 1 in Hq.
    destruct (decide (left q <= x <= right q /\ top q <= y <= bottom q)) as [Hd|Hd].
    + split; [intros _|intros []; split; [tauto|]; apply pts_cons; left; tauto]. assert (pts k x y \/ ~ pts k x y) as [Hp|Hp]; [|apply P1; tauto|rewrite <- Epix; apply P2; tauto].
      destruct (decide (pts k x y)); tauto.
    + split; [intros [He Hp]; apply P1; split; [done|]; apply pts_cons in Hp as [Hp|Hp]; tauto|]. intros Hn. assert (~ (inside e x y /\ pts k x y)) as Hn2 by (intros [He Hp]; apply Hn; split; [done|]; apply pts_cons; by right).
      specialize (P2 Hn2). rewrite Epix in P2. eapply pixel_is_trans; [exact P2|apply Hera].
  - cbn [app]. destruct (IH b v Hb Hv Hk') as (v' & b' & E & Hs' & Hb' & Hp' & Hpix). exists v', b'. split_and!; [done|done|done|done|]. intros x y Hin. destruct (Hpix x y Hin) as [P1 P2].
    assert (inside e x y -> ~ inside r x y) as Hno. { intros He Hri. assert (inside (Intersect_rect e r) x y) as Hi by (by apply inside_Intersect). destruct (Valid (Intersect_rect e r)) eqn:Eq; [done|]. assert (Valid (Intersect_rect e r) = true) as Et; [apply Valid_spec; unfold inside in Hi; lia|congruence]. }
    split; [intros [He Hp]; apply P1; split; [done|]; apply pts_cons in Hp as [Hp|Hp]; [by destruct (Hno He)|done]|]. intros Hn. apply P2. intros [He Hp]. apply Hn. split; [done|]. apply pts_cons. by right.
Qed.

Lemma bounds_good g n : sized g n -> good (BufferBounds g).
Proof. intros []. unfold good, inner, BufferBounds. cbn [left right top bottom]. rewrite !s32_small by lia. lia. Qed.

(** C36. A program that fills a rectangle of its window, after any sequence of new windows,
  AddChild, Show, Hide, Invalidate, BeginPaint, EndPaint, FillRect and DrawLine: the renderer
  carries the calls out, the pointer stays on top where it was, and the picture has the
  colour on exactly the points of the rectangle that the window may draw on, and what it had
  everywhere else; no pixel in the clip region of another window changes.  The exception are
  the pixels below the pointer whose colour should be 255: they may be lost ([pixel_is]). *)
Theorem window_pixels in_place g n mem s a x1 y1 x2 y2 s' b v (Hsz : sized g n) (Hreach : reach in_place (BufferBounds g) s)
  (Hfill : perform in_place s (OFill a x1 y1 x2 y2) = Ok s') (Hb : picture n b) (Hv : shows g b v) :
  exists w l v' b', wins s !! a = Some w /\ drawn s' = drawn s ++ l /\ show_all g mem v l = Ok v' /\ shows g b' v' /\ picture n b' /\ (fCursorX v', fCursorY v') = (fCursorX v, fCursorY v) /\
    forall x y, inside (BufferBounds g) x y ->
      (inside (extent (fGC w) x1 y1 x2 y2) x y /\ pts (gcc s a) x y -> pixel_is g v b' x y (Some (u8 (gc_color (fGC w))))) /\
      (~ (inside (extent (fGC w) x1 y1 x2 y2) x y /\ pts (gcc s a) x y) -> pixel_is g v b' x y (pixel g b x y)) /\
      (forall c, a <> c -> pts (clp s c) x y -> pixel_is g v b' x y (pixel g b x y)).
Proof.
  pose proof (bounds_good g n Hsz) as Hgood. destruct (reach_served in_place _ s Hgood Hreach) as (t & Hw & Hr).
  cbn [perform] in Hfill. unfold draw_fill, get in Hfill. destruct (wins s !! a) as [w|] eqn:Hwa; [|done]. injection Hfill as <-.
  pose proof (wok_screen _ t s a Hw) as Hsc. unfold gcc in Hsc. rewrite Hwa in Hsc.
  destruct (fills_ok g n mem (extent (fGC w) x1 y1 x2 y2) (gc_color (fGC w)) Hsz (fRects (gc_clip (fGC w))) b v Hb Hv Hsc) as (v' & b' & E & Hs' & Hb' & Hp' & Hpix).
  exists w, (Win.FillRect (fGC w) x1 y1 x2 y2), v', b'. rewrite FillRect_extent. split_and!; [done|done|done|done|done|done|]. intros x y Hin. destruct (Hpix x y Hin) as [P1 P2].
  assert (gcc s a = fRects (gc_clip (fGC w))) as -> by (unfold gcc; by rewrite Hwa). split_and!; [done|done|]. intros c Hne Hp. apply P2. intros [_ Hg].
  apply (wok_apart _ t s a c Hw Hne x y); [|done]. apply (wok_gcc _ t s a Hw). unfold gcc. by rewrite Hwa.
Qed.

(** ** Witness: window 1 of the example fills a square that window 2 covers in part *)

Definition example_screen : renderer := Renderer 100 100 100.

Lemma example_sized : sized example_screen 10000.
Proof. split; simpl; lia. Qed.

Lemma window_pixels_witness : exists s s' l v v' b', world2 = Ok s /\ perform stays s (OFill 1 5 5 20 20) = Ok s' /\ drawn s' = drawn s ++ l /\ show_all example_screen [] v l = Ok v' /\
  pixel example_screen b' 16 16 = Some 7 /\ pixel example_screen b' 24 24 = Some 0.
Proof.
  destruct world2_reach as (s & E & Hr).
  assert (picture 10000 (replicate (Z.to_nat 10000) 0)) as Hb by (split; [rewrite length_replicate; lia|apply Forall_replicate; lia]).
  destruct (DrawCursor_shows example_screen 10000 example_sized _ (Vga (replicate (Z.to_nat 10000) 0) 50 50 (replicate 256 0)) Hb eq_refl) as (v & _ & Hv & _);
    [unfold pointable; simpl; lia|apply length_replicate|apply Forall_replicate; lia|].
  assert (exists s', perform stays s (OFill 1 5 5 20 20) = Ok s' /\ exists w, wins s !! 1%nat = Some w /\ gc_color (fGC w) = 7 /\ gc_x (fGC w) = 10 /\ gc_y (fGC w) = 10 /\
    fRects (gc_clip (fGC w)) = [Rect 10 10 19 40; Rect 20 10 40 19]) as (s' & E' & w & Hw & Ec & Ex & Ey & Er).
  { clear Hr. vm_compute in E. injection E as <-. eexists. split; [vm_compute; reflexivity|]. eexists. split; [vm_compute; reflexivity|]. repeat split; reflexivity. }
  destruct (window_pixels stays example_screen 10000 [] s 1 5 5 20 20 s' _ v example_sized Hr E' Hb Hv) as (w' & l & v' & b' & Hw' & El & Es & _ & _ & _ & Hpix).
  rewrite Hw in Hw'. injection Hw' as <-. exists s, s', l, v, v', b'. split; [exact E|]. split; [exact E'|]. split; [exact El|]. split; [exact Es|]. unfold gcc in Hpix. rewrite Hw, Ec, Er in Hpix. unfold extent in Hpix. rewrite Ex, Ey in Hpix. split.
  - destruct (Hpix 16 16) as [H _]; [vm_compute; split; split; discriminate|]. destruct H as [H|[H _]]; [|rewrite H; reflexivity|vm_compute in H; discriminate]. split; [vm_compute; split; split; discriminate|]. exists (Rect 10 10 19 40). split; [left|vm_compute; split; split; discriminate].
  - destruct (Hpix 24 24) as (_ & H & _); [vm_compute; split; split; discriminate|].
    assert (pixel example_screen (replicate (Z.to_nat 10000) 0) 24 24 = Some 0) as E0 by (unfold pixel, aget; simpl BufferBytesPerRow; rewrite decide_True by lia; apply lookup_replicate_2; lia). rewrite E0 in H. destruct H as [H|[H _]]; [|exact H|discriminate H].
    intros [_ (r & [->|[->|Hr']%elem_of_cons]%elem_of_cons & H2)]; [unfold inside in H2; simpl in H2; lia|unfold inside in H2; simpl in H2; lia|by apply elem_of_nil in Hr'].
Defined.

End WinScreen.
