(* ===== verification/Wm.v ===== *)
(** srv/window/WindowManager.cpp: the requests of programs to the window server, and
  protocol.h, the numbers of the requests.

  The dispatch thread reads bytes from the messages of its port ([inp]: the rest of the
  buffer and the messages that are still to come) and acts on the windows (Win).  A read
  when there is no message left suspends the thread ([Waits]).  What the replies carry is
  recorded in [sent].  The lock of the pointer, which keeps the mouse thread away from the
  screen while something is drawn, has no effect on this thread. *)
From S2P Require Import Prelude LibC Region Line Win.
Import LibC Region Line Win.
Local Open Scope Z_scope.
Local Open Scope c_scope.

Module Wm.

(** ** protocol.h *)

Definition OP_DRAW_LINE : Z := 1.
Definition OP_FILL_RECT : Z := 2.
Definition OP_SET_PEN_COLOR : Z := 3.
Definition OP_DRAW_STRING : Z := 4.
Definition OP_DESTROY_WINDOW : Z := 5.
Definition OP_HIDE_WINDOW : Z := 6.
Definition OP_SHOW_WINDOW : Z := 7.
Definition OP_MAKE_FOCUS : Z := 8.
Definition OP_BEGIN_PAINT : Z := 9.
Definition OP_END_PAINT : Z := 10.
Definition OP_SET_BG_COLOR : Z := 11.
Definition OP_CREATE_WINDOW : Z := 12.
Definition OP_COPY_RECT : Z := 13.
Definition OP_INVALIDATE : Z := 14.
Definition OP_LOCK_MOUSE_FOCUS : Z := 15.

(** ** State *)

Definition kReceiveBufferSize : nat := Z.to_nat 16384.
Definition kMaxStrLen : nat := 256.
Definition kMaxWindows : Z := 255.

Record wm := WM {
  windows : world;
  fWindowArray : list (option nat);
  fNextWindowID : Z;
  fMouseBoundries : rect;
  fMouseFocusLocked : bool;
  sent : list (Z * list Z)
}.
Definition set_windows (s : world) (m : wm) : wm := WM s (fWindowArray m) (fNextWindowID m) (fMouseBoundries m) (fMouseFocusLocked m) (sent m).
Definition InvalidateMouseBoundries (m : wm) : wm := WM (windows m) (fWindowArray m) (fNextWindowID m) (Rect (-1) (-1) (-1) (-1)) (fMouseFocusLocked m) (sent m).
Definition Respond (port : Z) (data : list Z) (m : wm) : wm := WM (windows m) (fWindowArray m) (fNextWindowID m) (fMouseBoundries m) (fMouseFocusLocked m) (sent m ++ [(port, data)]).

Record inp := Inp { fReceiveBuffer : list Z; fRequestorPort : Z; queue : list (Z * list Z) }.

(** ** Reading *)

(** ReadServicePort: what the buffer has, then the next messages. *)
Fixpoint read_port (n : nat) (buf : list Z) (port : Z) (q : list (Z * list Z)) : option (list Z * inp) :=
  if decide (n <= length buf)%nat then Some (take n buf, Inp (drop n buf) port q)
  else match q with
       | [] => None
       | (p, m) :: q => match read_port (n - length buf) (take kReceiveBufferSize m) p q with Some (bs, i) => Some (buf ++ bs, i) | None => None end
       end.
Definition ReadServicePort (n : nat) (i : inp) : option (list Z * inp) := read_port n (fReceiveBuffer i) (fRequestorPort i) (queue i).

(** An int in memory, and back. *)
Definition le32 (v : Z) : list Z := map u8 [v; Z.shiftr v 8; Z.shiftr v 16; Z.shiftr v 24].
Definition of_le32 (l : list Z) : Z := match l with [a; b; c; d] => s32 (a + 256 * b + 65536 * c + 16777216 * d) | _ => 0 end.

Inductive outcome (A : Type) := Done (a : A) (m : wm) (i : inp) | Waits (m : wm).
Arguments Done {A} a m i.
Arguments Waits {A} m.
Definition M (A : Type) := wm -> inp -> cres (outcome A).
Definition mret {A} (a : A) : M A := fun m i => Ok (Done a m i).
Definition mbind {A B} (x : M A) (k : A -> M B) : M B := fun m i =>
  let! o := x m i in match o with Done a m i => k a m i | Waits m => Ok (Waits m) end.
Notation "x <~ e ; k" := (mbind e (fun x => k)) (at level 100, e at level 200, k at level 200, right associativity).

Definition read (n : nat) : M (list Z) := fun m i => Ok (match ReadServicePort n i with Some (l, i) => Done l m i | None => Waits m end).
Definition ReadInt32 : M Z := l <~ read 4; mret (of_le32 l).
Definition ReadInt8 : M Z := l <~ read 1; mret (match l with [a] => schar a | _ => 0 end).
Definition ReadRect : M rect := l <~ ReadInt32; t <~ ReadInt32; r <~ ReadInt32; b <~ ReadInt32; mret (Rect l t r b).

Inductive req :=
| RLine (id x1 y1 x2 y2 : Z)
| RFill (id x1 y1 x2 y2 : Z)
| RPen (id color : Z)
| RBack (id color : Z)
| RDestroy (id : Z)
| RShow (id : Z)
| RHide (id : Z)
| RFocus (id : Z)
| RBegin (id : Z)
| REnd (id : Z)
| RCreate (parent : Z) (r : rect) (port : Z)
| RCopy (id : Z) (src : rect) (x y : Z)
| RInval (id : Z) (r : rect)
| RLock
| RUnknown (opcode : Z).

(** The arguments of each request, in the order of the reads. *)
Definition read_args (opcode : Z) : M req :=
  if decide (opcode = OP_DRAW_LINE) then id <~ ReadInt32; r <~ ReadRect; mret (RLine id (left r) (top r) (right r) (bottom r))
  else if decide (opcode = OP_FILL_RECT) then id <~ ReadInt32; r <~ ReadRect; mret (RFill id (left r) (top r) (right r) (bottom r))
  else if decide (opcode = OP_SET_PEN_COLOR) then id <~ ReadInt32; c <~ ReadInt8; mret (RPen id c)
  else if decide (opcode = OP_SET_BG_COLOR) then id <~ ReadInt32; c <~ ReadInt8; mret (RBack id c)
  else if decide (opcode = OP_DESTROY_WINDOW) then id <~ ReadInt32; mret (RDestroy id)
  else if decide (opcode = OP_SHOW_WINDOW) then id <~ ReadInt32; mret (RShow id)
  else if decide (opcode = OP_HIDE_WINDOW) then id <~ ReadInt32; mret (RHide id)
  else if decide (opcode = OP_MAKE_FOCUS) then id <~ ReadInt32; mret (RFocus id)
  else if decide (opcode = OP_BEGIN_PAINT) then id <~ ReadInt32; mret (RBegin id)
  else if decide (opcode = OP_END_PAINT) then id <~ ReadInt32; mret (REnd id)
  else if decide (opcode = OP_CREATE_WINDOW) then p <~ ReadInt32; r <~ ReadRect; e <~ ReadInt32; mret (RCreate p r e)
  else if decide (opcode = OP_COPY_RECT) then id <~ ReadInt32; r <~ ReadRect; x <~ ReadInt32; y <~ ReadInt32; mret (RCopy id r x y)
  else if decide (opcode = OP_INVALIDATE) then id <~ ReadInt32; r <~ ReadRect; mret (RInval id r)
  else if decide (opcode = OP_LOCK_MOUSE_FOCUS) then mret RLock
  else mret (RUnknown opcode).

(** The string of OP_DRAW_STRING: the first kMaxStrLen characters. *)
Fixpoint read_string (buf : list Z) (fuel : nat) : M (list Z) :=
  match fuel with
  | O => fun _ _ => Fault
  | S fuel => c <~ ReadInt8; if decide (c = 0) then mret buf else read_string (if decide (length buf < kMaxStrLen)%nat then buf ++ [c] else buf) fuel
  end.

(** ** Acting *)

Section server.
(** Whether realloc leaves an array in place; what a new window's memory holds; where the
  font is. *)
Context (in_place : Z -> Z -> bool) (junk : nat -> bool * Z * Z * Z) (font : Z).

Definition slot (id : Z) : cres nat := let i := Z.rem id kMaxWindows in if decide (i < 0) then Fault else Ok (Z.to_nat i).

Definition LookupWindow (m : wm) (id : Z) : cres (option nat) :=
  let! i := slot id in
  match fWindowArray m !! i with
  | Some (Some w) => let! v := get (windows m) w in Ok (if decide (fID v = id) then Some w else None)
  | Some None => Ok None
  | None => Fault
  end.

(** [while (fWindowArray[...] != 0) fNextWindowID++]: with all slots in use it does not end. *)
Fixpoint find_slot (a : list (option nat)) (id : Z) (fuel : nat) : cres Z :=
  let! i := slot id in
  match a !! i with
  | Some None => Ok id
  | Some (Some _) => match fuel with O => Fault | S fuel => find_slot a (s32 (id + 1)) fuel end
  | None => Fault
  end.

Definition CreateWindow (m : wm) (parent : nat) (r : rect) : cres (Z * wm) :=
  let! id := find_slot (fWindowArray m) (fNextWindowID m) (Z.to_nat kMaxWindows) in
  let! i := slot id in
  let w := fresh (dom (wins (windows m))) in
  let '(inredraw, color, x, y) := junk w in
  let s := put (windows m) w (new_window id inredraw color x y) in
  let! s := AddChild in_place s parent r w in
  Ok (id, WM s (<[i := Some w]> (fWindowArray m)) (s32 (id + 1)) (fMouseBoundries m) (fMouseFocusLocked m) (sent m)).

(** [delete window]: the destructor, and the memory is free. *)
Definition delete_window (s : world) (w : nat) : cres world :=
  let! v := get s w in
  let! s := (match fParent v with Some p => RemoveChild in_place s p w | None => Ok s end) in
  Ok (World (base.delete w (wins s)) (bounds s) (drawn s) (posted s)).
Definition DestroyWindow (m : wm) (w : nat) : cres wm :=
  let! v := get (windows m) w in
  let! i := slot (fID v) in
  let! s := delete_window (windows m) w in
  Ok (WM s (<[i := None]> (fWindowArray m)) (fNextWindowID m) (fMouseBoundries m) (fMouseFocusLocked m) (sent m)).

(** [if (targetWindow) ...] *)
Definition on_window (m : wm) (id : Z) (f : world -> nat -> cres world) : cres wm :=
  let! o := LookupWindow m id in
  match o with
  | Some w => let! s := f (windows m) w in Ok (set_windows s m)
  | None => Ok m
  end.

Definition set_pen (c : Z) (s : world) (w : nat) : cres world :=
  modify s w (fun v => set_gc (GC (gc_clip (fGC v)) (gc_renderer (fGC v)) c (gc_x (fGC v)) (gc_y (fGC v))) v).
Definition set_back (c : Z) (s : world) (w : nat) : cres world :=
  let! s := SetColor s w c in let! v := get s w in Invalidate in_place s w (WindowBounds v).
Definition copy_rect (src : rect) (x y : Z) (s : world) (w : nat) : cres world :=
  let! v := get s w in
  let! clean := (if RegionValid (fInvalidRegion v) then let! c := copy in_place (fClipRegion v) in ExcludeRegion in_place c (fInvalidRegion v) else Ok (fClipRegion v)) in
  let! (l, rest) := CopyRect in_place (fGC v) src (OffsetTo src x y) clean in
  InvalidateRegion in_place (render s l) w rest.

Definition rect_bytes (r : rect) : list Z := le32 (left r) ++ le32 (top r) ++ le32 (right r) ++ le32 (bottom r).

Definition handle (port : Z) (m : wm) (r : req) : cres wm :=
  match r with
  | RLine id x1 y1 x2 y2 => on_window m id (fun s w => draw_line s w x1 y1 x2 y2)
  | RFill id x1 y1 x2 y2 => on_window m id (fun s w => draw_fill s w x1 y1 x2 y2)
  | RPen id c => on_window m id (set_pen c)
  | RBack id c => on_window m id (set_back c)
  | RDestroy id =>
      let! o := LookupWindow m id in
      let! m := (match o with Some w => DestroyWindow m w | None => Ok m end) in Ok (InvalidateMouseBoundries m)
  | RShow id => let! m := on_window m id (Show in_place) in Ok (InvalidateMouseBoundries m)
  | RHide id => let! m := on_window m id (Hide in_place) in Ok (InvalidateMouseBoundries m)
  | RFocus id => let! m := on_window m id (MoveToFront in_place) in Ok (InvalidateMouseBoundries m)
  | RBegin id =>
      let! o := LookupWindow m id in
      let! (r, m) := (match o with Some w => let! (r, s) := BeginPaint in_place (windows m) w in Ok (r, set_windows s m) | None => Ok (Rect 0 0 0 0, m) end) in
      Ok (Respond port (rect_bytes r) m)
  | REnd id => on_window m id EndPaint
  | RCreate p r _ =>
      let! o := LookupWindow m p in
      let! (id, m) := (match o with Some w => CreateWindow m w r | None => Ok (-1, m) end) in
      Ok (InvalidateMouseBoundries (Respond port (le32 id) m))
  | RCopy id src x y => on_window m id (copy_rect src x y)
  | RInval id r => on_window m id (fun s w => Invalidate in_place s w r)
  | RLock => Ok (WM (windows m) (fWindowArray m) (fNextWindowID m) (fMouseBoundries m) true (sent m))
  | RUnknown _ => Ok m
  end.

Definition act (r : req) : M unit := fun m i => let! m := handle (fRequestorPort i) m r in Ok (Done tt m i).
Definition draw_string (id x y : Z) (str : list Z) : M unit := fun m i =>
  let! m := on_window m id (fun s w => let! v := get s w in Ok (render s (DrawString (fGC v) font x y str))) in Ok (Done tt m i).

(** The bytes that can still be read. *)
Definition stream (i : inp) : list Z := fReceiveBuffer i ++ (queue i ≫= fun x => take kReceiveBufferSize (snd x)).

(** One turn of the loop.  The case of OP_DRAW_STRING runs into OP_DESTROY_WINDOW. *)
Definition dispatch : M unit :=
  opcode <~ ReadInt8;
  if decide (opcode = OP_DRAW_STRING) then
    id <~ ReadInt32; x <~ ReadInt32; y <~ ReadInt32;
    str <~ (fun m i => read_string [] (S (length (stream i))) m i);
    _ <~ draw_string id x y str;
    r <~ read_args OP_DESTROY_WINDOW; act r
  else r <~ read_args opcode; act r.

(** The loop, until it waits. *)
Fixpoint DispatchThread (m : wm) (i : inp) (fuel : nat) : cres wm :=
  match fuel with
  | O => Fault
  | S fuel => let! o := dispatch m i in match o with Done _ m i => DispatchThread m i fuel | Waits m => Ok m end
  end.

(** The server at its start: the root window is window 0 of the array. *)
Definition new_wm (screen : rect) (inredraw : bool) (color x y : Z) : cres wm :=
  let s := World ∅ screen [] [] in
  let! v := new_root in_place s 0 inredraw color x y in
  let! r := Include in_place empty screen in
  let! s := SetVisibleRegion in_place 0 r (put s 0%nat v) in
  Ok (WM s (Some 0%nat :: replicate 254 None) 1 (Rect 0 0 0 0) false []).

End server.

End Wm.
