(* ===== verification/LibWin.v ===== *)
(** lib/libwin: the library of programs that draw: Connection.cpp, the methods of Canvas.cpp,
  and those of Window.cpp that send requests.

  A connection keeps the bytes that wait in its buffer, the messages it has sent, and the
  replies: the rest of the one that is being read and those that follow.  A read without a
  reply suspends the program ([None]). *)
From S2P Require Import Prelude LibC Region Wm.
Import LibC Region Wm.
Local Open Scope Z_scope.
Local Open Scope c_scope.

Module LibWin.

(** ** Connection *)

Definition kSendBufferSize : nat := Z.to_nat 4096.
Definition kMaxCommandSize : nat := 270.
Definition kReplyBufferSize : nat := 1024.

Record connection := Conn { fSendBuffer : list Z; out : list (list Z); fReplyBuffer : list Z; replies : list (list Z) }.

Definition Flush (c : connection) : connection := Conn [] (out c ++ [fSendBuffer c]) (fReplyBuffer c) (replies c).
Fixpoint write_loop (c : connection) (data : list Z) (fuel : nat) : cres connection :=
  match data with
  | [] => Ok c
  | _ =>
      match fuel with
      | O => Fault
      | S fuel =>
          let sizeToWrite := Nat.min (length data) (kSendBufferSize - length (fSendBuffer c)) in
          if decide (sizeToWrite = 0%nat) then write_loop (Flush c) data fuel
          else write_loop (Conn (fSendBuffer c ++ take sizeToWrite data) (out c) (fReplyBuffer c) (replies c)) (drop sizeToWrite data) fuel
      end
  end.
Definition Write (data : list Z) (c : connection) : cres connection := write_loop c data (2 * length data).
Definition EndCommand (c : connection) : connection := if decide (kSendBufferSize - kMaxCommandSize < length (fSendBuffer c))%nat then Flush c else c.
Definition WriteInt32 (v : Z) : connection -> cres connection := Write (le32 v).
Definition WriteInt8 (v : Z) : connection -> cres connection := Write [u8 v].
Fixpoint write_ints (l : list Z) (c : connection) : cres connection :=
  match l with [] => Ok c | v :: l => let! c := WriteInt32 v c in write_ints l c end.

Fixpoint read_replies (n : nat) (buf : list Z) (q : list (list Z)) : option (list Z * list Z * list (list Z)) :=
  if decide (n <= length buf)%nat then Some (take n buf, drop n buf, q)
  else match q with
       | [] => None
       | r :: q => match read_replies (n - length buf) (take kReplyBufferSize r) q with Some (bs, b, q) => Some (buf ++ bs, b, q) | None => None end
       end.
Definition ReadInt32 (c : connection) : option (Z * connection) :=
  match read_replies 4 (fReplyBuffer c) (replies c) with Some (l, b, q) => Some (of_le32 l, Conn (fSendBuffer c) (out c) b q) | None => None end.

(** ** Canvas *)

Record canvas := Canvas { fID : Z; fWindow : bool; fInPaint : bool; fShowLevel : Z; fBounds : rect }.
Definition new_canvas : canvas := Canvas (-1) false false 0 (Rect 0 0 0 0).

(** A request of an opcode and ints, sent when the buffer is nearly full. *)
Definition command (opcode : Z) (args : list Z) (c : connection) : cres connection :=
  let! c := WriteInt8 opcode c in let! c := write_ints args c in Ok (EndCommand c).
(** The same, sent at once. *)
Definition command_now (opcode : Z) (args : list Z) (c : connection) : cres connection :=
  let! c := WriteInt8 opcode c in let! c := write_ints args c in Ok (Flush c).

Definition DrawLine (k : canvas) (x1 y1 x2 y2 : Z) (c : connection) : cres connection :=
  if fWindow k then command OP_DRAW_LINE [fID k; x1; y1; x2; y2] c else Ok c.
Definition FillRect (k : canvas) (x1 y1 x2 y2 : Z) (c : connection) : cres connection :=
  if fWindow k then command OP_FILL_RECT [fID k; x1; y1; x2; y2] c else Ok c.
Definition color_command (opcode : Z) (k : canvas) (color : Z) (c : connection) : cres connection :=
  if fWindow k then
    let! c := WriteInt8 opcode c in let! c := WriteInt32 (fID k) c in let! c := WriteInt8 color c in Ok (EndCommand c)
  else Ok c.
Definition SetPenColor : canvas -> Z -> connection -> cres connection := color_command OP_SET_PEN_COLOR.
Definition SetBackgroundColor : canvas -> Z -> connection -> cres connection := color_command OP_SET_BG_COLOR.
Fixpoint write_chars (l : list Z) (c : connection) : cres connection :=
  match l with [] => Ok c | v :: l => let! c := WriteInt8 v c in write_chars l c end.
Definition DrawString (k : canvas) (x y : Z) (str : list Z) (c : connection) : cres connection :=
  if fWindow k then
    let! c := WriteInt8 OP_DRAW_STRING c in let! c := write_ints [fID k; x; y] c in
    let! c := write_chars str c in let! c := WriteInt8 0 c in Ok (EndCommand c)
  else Ok c.
Definition CopyRect (k : canvas) (r : rect) (newLeft newTop : Z) (c : connection) : cres connection :=
  if fWindow k then command OP_COPY_RECT [fID k; left r; top r; right r; bottom r; newLeft; newTop] c else Ok c.

Definition set_level (k : canvas) (n : Z) : canvas := Canvas (fID k) (fWindow k) (fInPaint k) n (fBounds k).
Definition Hide (k : canvas) (c : connection) : cres (canvas * connection) :=
  if fWindow k then
    let k := set_level k (s32 (fShowLevel k - 1)) in
    let! c := (if decide (fShowLevel k = 0) then command_now OP_HIDE_WINDOW [fID k] c else Ok c) in Ok (k, c)
  else Ok (k, c).
Definition Show (k : canvas) (c : connection) : cres (canvas * connection) :=
  if fWindow k then
    let k := set_level k (s32 (fShowLevel k + 1)) in
    let! c := (if decide (fShowLevel k = 1) then command_now OP_SHOW_WINDOW [fID k] c else Ok c) in Ok (k, c)
  else Ok (k, c).

Definition set_paint (k : canvas) (b : bool) : canvas := Canvas (fID k) (fWindow k) b (fShowLevel k) (fBounds k).
(** BeginPaint up to the first read, and the reads of the rectangle. *)
Definition BeginPaint_send (k : canvas) (c : connection) : cres (canvas * connection) :=
  if fInPaint k then Ok (k, c) else
  if fWindow k then let! c := command_now OP_BEGIN_PAINT [fID k] c in Ok (set_paint k true, c) else Fault.
Definition read_rect (c : connection) : option (rect * connection) :=
  match ReadInt32 c with None => None | Some (l, c) =>
  match ReadInt32 c with None => None | Some (t, c) =>
  match ReadInt32 c with None => None | Some (r, c) =>
  match ReadInt32 c with None => None | Some (b, c) => Some (Rect l t r b, c) end end end end.
Definition EndPaint (k : canvas) (c : connection) : cres (canvas * connection) :=
  if fInPaint k then
    if fWindow k then let! c := command_now OP_END_PAINT [fID k] c in Ok (set_paint k false, c) else Fault
  else Ok (k, c).

(** AddChild up to the read of the identifier, and what it does with it: the child, which is
  then shown. *)
Definition AddChild_send (k : canvas) (eventPort : Z) (r : rect) (c : connection) : cres connection :=
  if fWindow k then command_now OP_CREATE_WINDOW [fID k; left r; top r; right r; bottom r; eventPort] c else Ok c.
Definition AddChild_receive (child : canvas) (id : Z) (r : rect) (c : connection) : cres (canvas * connection) :=
  Show (Canvas id true (fInPaint child) (fShowLevel child) (Rect 0 0 (s32 (right r - left r)) (s32 (bottom r - top r)))) c.
Definition RemoveChild (k child : canvas) (c : connection) : cres connection :=
  if fWindow k then command_now OP_DESTROY_WINDOW [fID child] c else Fault.
Definition Invalidate (k : canvas) (r : rect) (c : connection) : cres connection :=
  if fWindow k then command_now OP_INVALIDATE [fID k; left r; top r; right r; bottom r] c else Fault.
Definition LockMouseFocus (k : canvas) (c : connection) : cres connection :=
  if fWindow k then let! c := WriteInt8 OP_LOCK_MOUSE_FOCUS c in Ok (Flush c) else Fault.

(** Window::MakeFocus, of the window with identifier [id]. *)
Definition MakeFocus (id : Z) (c : connection) : cres connection := command_now OP_MAKE_FOCUS [id] c.

(** ** Programs: calls of one canvas *)

Inductive call :=
| CLine (x1 y1 x2 y2 : Z)
| CFill (x1 y1 x2 y2 : Z)
| CPen (color : Z)
| CBack (color : Z)
| CCopy (r : rect) (newLeft newTop : Z)
| CHide
| CShow
| CEnd
| CInval (r : rect)
| CLock
| CFlush.

Definition do_call (o : call) (k : canvas) (c : connection) : cres (canvas * connection) :=
  match o with
  | CLine x1 y1 x2 y2 => let! c := DrawLine k x1 y1 x2 y2 c in Ok (k, c)
  | CFill x1 y1 x2 y2 => let! c := FillRect k x1 y1 x2 y2 c in Ok (k, c)
  | CPen color => let! c := SetPenColor k color c in Ok (k, c)
  | CBack color => let! c := SetBackgroundColor k color c in Ok (k, c)
  | CCopy r x y => let! c := CopyRect k r x y c in Ok (k, c)
  | CHide => Hide k c
  | CShow => Show k c
  | CEnd => EndPaint k c
  | CInval r => let! c := Invalidate k r c in Ok (k, c)
  | CLock => let! c := LockMouseFocus k c in Ok (k, c)
  | CFlush => Ok (k, Flush c)
  end.
Fixpoint do_calls (l : list call) (k : canvas) (c : connection) : cres (canvas * connection) :=
  match l with [] => Ok (k, c) | o :: l => let! (k, c) := do_call o k c in do_calls l k c end.

End LibWin.
