(* ===== verification/WmProof.v ===== *)
(** Programs and the window server (LibWin, Wm): what the methods of a canvas ask for is
  what the server does, however the bytes are cut into messages. *)
From S2P Require Import Prelude LibC Region Line Win Wm LibWin.
Import LibC Region Line Win Wm.
Local Open Scope Z_scope.
Local Open Scope c_scope.

Module WmProof.

(** ** Ints *)

Definition int32 (v : Z) : Prop := - 2 ^ 31 <= v < 2 ^ 31.
Definition int8 (v : Z) : Prop := - 128 <= v < 128.

Lemma of_le32_le32 v : int32 v -> of_le32 (le32 v) = v.
Proof.
  intros Hv. unfold of_le32, le32. cbn [map]. unfold u8. rewrite !Z.shiftr_div_pow2 by lia. change (2 ^ 8) with 256. change (2 ^ 16) with 65536. change (2 ^ 24) with 16777216. rewrite <- (s32_small v) at 5 by exact Hv.
  apply s32_cong. change (2 ^ 32) with 4294967296. clear Hv.
  pose proof (Z.div_mod v 256 ltac:(lia)). pose proof (Z.div_mod (v / 256) 256 ltac:(lia)) as H1. rewrite Z.div_div in H1 by lia. change (256 * 256) with 65536 in H1.
  pose proof (Z.div_mod (v / 65536) 256 ltac:(lia)) as H2. rewrite Z.div_div in H2 by lia. change (65536 * 256) with 16777216 in H2. pose proof (Z.div_mod (v / 16777216) 256 ltac:(lia)) as H3.
  replace v with (v mod 256 + 256 * ((v / 256) mod 256) + 65536 * ((v / 65536) mod 256) + 16777216 * ((v / 16777216) mod 256) + (v / 16777216 / 256) * 4294967296) at 5 by lia.
  by rewrite Z.mod_add by lia.
Qed.

Lemma schar_u8 c : int8 c -> schar (u8 c) = c.
Proof. unfold int8, schar, u8. intros Hc. destruct (decide (0 <= c)); [rewrite Z.mod_small by lia; rewrite decide_True by lia; done|]. replace (c mod 2 ^ 8) with (c + 256) by (apply (Z.mod_unique c (2 ^ 8) (-1)); lia). rewrite decide_False by lia. lia. Qed.

Lemma length_le32 v : length (le32 v) = 4%nat.
Proof. done. Qed.

(** ** The stream of a program *)

Import LibWin.

Record wc (c : connection) : Prop := {
  wc_buffer : (length (fSendBuffer c) <= kSendBufferSize)%nat;
  wc_out : Forall (fun m => length m <= kSendBufferSize)%nat (out c)
}.
Definition written (c : connection) : list Z := concat (out c) ++ fSendBuffer c.

(** [c'] is [c] after the bytes [l]. *)
Definition after (c : connection) (l : list Z) (c' : connection) : Prop :=
  wc c' /\ written c' = written c ++ l /\ fReplyBuffer c' = fReplyBuffer c /\ replies c' = replies c.
Definition sends (c : connection) (l : list Z) (res : cres connection) : Prop := exists c', res = Ok c' /\ after c l c'.

Lemma after_refl c : wc c -> after c [] c.
Proof. intros H. split_and!; [done|by rewrite app_nil_r|done|done]. Qed.

Lemma after_trans c l c1 k c2 : after c l c1 -> after c1 k c2 -> after c (l ++ k) c2.
Proof. intros (A1 & A2 & A3 & A4) (B1 & B2 & B3 & B4). split_and!; [done|by rewrite B2, A2, app_assoc|congruence|congruence]. Qed.

Lemma sends_bind c l k x f : sends c l x -> (forall c', after c l c' -> sends c' k (f c')) -> sends c (l ++ k) (cbind x f).
Proof. intros (c1 & -> & H1) H. destruct (H c1 H1) as (c2 & E & H2). exists c2. split; [exact E|]. by eapply after_trans. Qed.

Lemma Flush_after c : wc c -> after c [] (Flush c).
Proof.
  intros [H1 H2]. unfold after, written, Flush. simpl. split_and!; [split; simpl; [unfold kSendBufferSize; lia|apply Forall_app; by split; [|constructor]]| |done|done].
  rewrite concat_app. simpl. by rewrite !app_nil_r.
Qed.

Lemma EndCommand_after c : wc c -> after c [] (EndCommand c).
Proof. intros H. unfold EndCommand. case_decide; [by apply Flush_after|by apply after_refl]. Qed.

Lemma write_loop_ok : forall fuel data c, wc c -> (2 * length data <= fuel + (if decide (length (fSendBuffer c) < kSendBufferSize)%nat then 1 else 0))%nat -> sends c data (write_loop c data fuel).
Proof.
  induction fuel as [|fuel IH]; intros data c Hc Hf; (destruct data as [|x data]; [exists c; split; [done|by apply after_refl]|]).
  - exfalso. simpl in Hf. case_decide; lia.
  - cbn [write_loop]. destruct (decide (length (fSendBuffer c) < kSendBufferSize)%nat) as [Hr|Hr].
    + set (n := Nat.min (length (x :: data)) (kSendBufferSize - length (fSendBuffer c))). assert (1 <= n <= length (x :: data) /\ n <= kSendBufferSize - length (fSendBuffer c))%nat as Hn by (unfold n; cbn [length]; lia). rewrite decide_False by lia.
      set (c1 := Conn _ _ _ _). assert (after c (take n (x :: data)) c1) as H1.
      { unfold after, written, c1. cbn [fSendBuffer out fReplyBuffer replies]. split_and!; [|by rewrite app_assoc|done|done]. destruct Hc. split; cbn [fSendBuffer out]; [|done]. rewrite length_app, length_take. lia. }
      destruct (IH (drop n (x :: data)) c1) as (c2 & E & H2); [apply H1|rewrite length_drop; case_decide; cbn [length] in *; lia|]. exists c2. split; [exact E|]. rewrite <- (take_drop n (x :: data)). by eapply after_trans.
    + replace (kSendBufferSize - length (fSendBuffer c))%nat with 0%nat by lia. rewrite Nat.min_0_r, decide_True by done.
      destruct (IH (x :: data) (Flush c)) as (c2 & E & H2); [by apply Flush_after|simpl fSendBuffer; rewrite decide_True by (unfold kSendBufferSize; simpl; lia); lia|]. exists c2. split; [exact E|].
      change (x :: data) with ([] ++ x :: data). eapply after_trans; [by apply Flush_after|done].
Qed.

Lemma Write_sends data c : wc c -> sends c data (Write data c).
Proof. intros Hc. apply write_loop_ok; [done|lia]. Qed.

Lemma write_ints_sends l : forall c, wc c -> sends c (l ≫= le32) (write_ints l c).
Proof.
  induction l as [|v l IH]; intros c Hc; [exists c; split; [done|by apply after_refl]|]. rewrite bind_cons. apply sends_bind; [by apply Write_sends|]. intros c' H. apply IH, H.
Qed.

Lemma command_sends op args c : wc c -> sends c (u8 op :: (args ≫= le32)) (command op args c).
Proof.
  intros Hc. change (u8 op :: ?l) with ([u8 op] ++ l). unfold command. apply sends_bind; [by apply Write_sends|]. intros c1 H1.
  rewrite <- (app_nil_r (args ≫= le32)). apply sends_bind; [apply write_ints_sends, H1|]. intros c2 H2. eexists. split; [done|]. apply EndCommand_after, H2.
Qed.

Lemma command_now_sends op args c : wc c -> sends c (u8 op :: (args ≫= le32)) (command_now op args c).
Proof.
  intros Hc. change (u8 op :: ?l) with ([u8 op] ++ l). unfold command_now. apply sends_bind; [by apply Write_sends|]. intros c1 H1.
  rewrite <- (app_nil_r (args ≫= le32)). apply sends_bind; [apply write_ints_sends, H1|]. intros c2 H2. eexists. split; [done|]. apply Flush_after, H2.
Qed.

(** The bytes of a request. *)
Definition encode (r : req) : list Z :=
  match r with
  | RLine id x1 y1 x2 y2 => u8 OP_DRAW_LINE :: ([id; x1; y1; x2; y2] ≫= le32)
  | RFill id x1 y1 x2 y2 => u8 OP_FILL_RECT :: ([id; x1; y1; x2; y2] ≫= le32)
  | RPen id c => u8 OP_SET_PEN_COLOR :: le32 id ++ [u8 c]
  | RBack id c => u8 OP_SET_BG_COLOR :: le32 id ++ [u8 c]
  | RDestroy id => u8 OP_DESTROY_WINDOW :: ([id] ≫= le32)
  | RShow id => u8 OP_SHOW_WINDOW :: ([id] ≫= le32)
  | RHide id => u8 OP_HIDE_WINDOW :: ([id] ≫= le32)
  | RFocus id => u8 OP_MAKE_FOCUS :: ([id] ≫= le32)
  | RBegin id => u8 OP_BEGIN_PAINT :: ([id] ≫= le32)
  | REnd id => u8 OP_END_PAINT :: ([id] ≫= le32)
  | RCreate p r e => u8 OP_CREATE_WINDOW :: ([p; left r; top r; right r; bottom r; e] ≫= le32)
  | RCopy id r x y => u8 OP_COPY_RECT :: ([id; left r; top r; right r; bottom r; x; y] ≫= le32)
  | RInval id r => u8 OP_INVALIDATE :: ([id; left r; top r; right r; bottom r] ≫= le32)
  | RLock => [u8 OP_LOCK_MOUSE_FOCUS]
  | RUnknown op => [u8 op]
  end.

(** What a call asks for, and the canvas after it. *)
Definition call_reqs (k : canvas) (o : call) : list req :=
  match o with
  | CLine x1 y1 x2 y2 => [RLine (LibWin.fID k) x1 y1 x2 y2]
  | CFill x1 y1 x2 y2 => [RFill (LibWin.fID k) x1 y1 x2 y2]
  | CPen c => [RPen (LibWin.fID k) c]
  | CBack c => [RBack (LibWin.fID k) c]
  | CCopy r x y => [RCopy (LibWin.fID k) r x y]
  | CHide => if decide (s32 (fShowLevel k - 1) = 0) then [RHide (LibWin.fID k)] else []
  | CShow => if decide (s32 (fShowLevel k + 1) = 1) then [RShow (LibWin.fID k)] else []
  | CEnd => if fInPaint k then [REnd (LibWin.fID k)] else []
  | CInval r => [RInval (LibWin.fID k) r]
  | CLock => [RLock]
  | CFlush => []
  end.
Definition call_canvas (k : canvas) (o : call) : canvas :=
  match o with
  | CHide => set_level k (s32 (fShowLevel k - 1))
  | CShow => set_level k (s32 (fShowLevel k + 1))
  | CEnd => if fInPaint k then set_paint k false else k
  | _ => k
  end.
Fixpoint calls_reqs (k : canvas) (l : list call) : list req :=
  match l with [] => [] | o :: l => call_reqs k o ++ calls_reqs (call_canvas k o) l end.

Lemma color_sends op k v c : fWindow k = true -> wc c -> sends c (u8 op :: le32 (LibWin.fID k) ++ [u8 v]) (color_command op k v c).
Proof.
  intros Hw Hc. unfold color_command. rewrite Hw. change (u8 op :: ?l) with ([u8 op] ++ l). apply sends_bind; [by apply Write_sends|]. intros c1 H1.
  apply sends_bind; [apply Write_sends, H1|]. intros c2 H2. rewrite <- (app_nil_r [u8 v]). apply sends_bind; [apply Write_sends, H2|]. intros c3 H3. eexists. split; [done|]. apply EndCommand_after, H3.
Qed.

(** The bytes of a string that is to be drawn. *)
Definition encode_string (id x y : Z) (str : list Z) : list Z := u8 OP_DRAW_STRING :: ([id; x; y] ≫= le32) ++ map u8 str ++ [u8 0].

Lemma write_chars_sends l : forall c, wc c -> sends c (map u8 l) (write_chars l c).
Proof.
  induction l as [|v l IH]; intros c Hc; [exists c; split; [done|by apply after_refl]|]. change (map u8 (v :: l)) with ([u8 v] ++ map u8 l). apply sends_bind; [by apply Write_sends|]. intros c' H. apply IH, H.
Qed.

Lemma DrawString_sends k x y str c : fWindow k = true -> wc c -> sends c (encode_string (LibWin.fID k) x y str) (LibWin.DrawString k x y str c).
Proof.
  intros Hw Hc. unfold LibWin.DrawString, encode_string. rewrite Hw. change (u8 OP_DRAW_STRING :: ?l) with ([u8 OP_DRAW_STRING] ++ l). apply sends_bind; [by apply Write_sends|]. intros c1 H1.
  apply sends_bind; [apply write_ints_sends, H1|]. intros c2 H2. apply sends_bind; [apply write_chars_sends, H2|]. intros c3 H3. rewrite <- (app_nil_r [u8 0]). apply sends_bind; [apply Write_sends, H3|]. intros c4 H4.
  eexists. split; [done|]. apply EndCommand_after, H4.
Qed.

(** [do_call] sends what [call_reqs] says. *)
Definition calls (k : canvas) (c : connection) (l : list Z) (k' : canvas) (res : cres (canvas * connection)) : Prop := exists c', res = Ok (k', c') /\ after c l c'.

Lemma calls_of_sends k c l x : sends c l x -> calls k c l k (let! c := x in Ok (k, c)).
Proof. intros (c' & -> & H). exists c'. done. Qed.

Lemma do_call_sends o k c : fWindow k = true -> wc c -> calls k c (call_reqs k o ≫= encode) (call_canvas k o) (do_call o k c) /\ fWindow (call_canvas k o) = true.
Proof.
  intros Hw Hc. assert (calls k c [] k (Ok (k, c))) as Hnone by (exists c; split; [done|by apply after_refl]). destruct o; cbn [do_call call_reqs call_canvas mbind list_bind]; rewrite ?app_nil_r; (split; [|try done; try by destruct (fInPaint k)]).
  - apply calls_of_sends. unfold DrawLine. rewrite Hw. by apply command_sends.
  - apply calls_of_sends. unfold FillRect. rewrite Hw. by apply command_sends.
  - apply calls_of_sends. by apply color_sends.
  - apply calls_of_sends. by apply color_sends.
  - apply calls_of_sends. unfold CopyRect. rewrite Hw. by apply command_sends.
  - unfold Hide. rewrite Hw. cbn [fShowLevel set_level LibWin.fID]. case_decide; cbn [mbind list_bind]; rewrite ?app_nil_r; [apply calls_of_sends; by apply command_now_sends|exists c; split; [done|by apply after_refl]].
  - unfold Show. rewrite Hw. cbn [fShowLevel set_level LibWin.fID]. case_decide; cbn [mbind list_bind]; rewrite ?app_nil_r; [apply calls_of_sends; by apply command_now_sends|exists c; split; [done|by apply after_refl]].
  - unfold EndPaint. rewrite Hw. destruct (fInPaint k); cbn [mbind list_bind]; rewrite ?app_nil_r; [apply calls_of_sends; by apply command_now_sends|done].
  - apply calls_of_sends. unfold Invalidate. rewrite Hw. by apply command_now_sends.
  - apply calls_of_sends. unfold LockMouseFocus. rewrite Hw. apply (sends_bind c [u8 OP_LOCK_MOUSE_FOCUS] []); [by apply Write_sends|]. intros c1 H1. eexists. split; [done|]. apply Flush_after, H1.
  - exists (Flush c). split; [done|by apply Flush_after].
Qed.

(** ** The stream of the server *)

Definition from_queue (p : Z) (q : list (Z * list Z)) : Prop := Forall (fun x => fst x = p /\ (length (snd x) <= kReceiveBufferSize)%nat) q.
(** All bytes that are left come from the port [p]; [strong] after the first read. *)
Definition from (p : Z) (i : inp) : Prop := (fReceiveBuffer i = [] \/ fRequestorPort i = p) /\ from_queue p (queue i).
Definition strong (p : Z) (i : inp) : Prop := fRequestorPort i = p /\ from_queue p (queue i).

Lemma strong_from p i : strong p i -> from p i.
Proof. intros [H1 H2]. split; [by right|done]. Qed.

Lemma read_head n buf port q l rest : (n <= length buf)%nat -> stream (Inp buf port q) = l ++ rest -> length l = n -> take n buf = l /\ stream (Inp (drop n buf) port q) = rest.
Proof.
  intros Hb Hs Hl. unfold stream in *. cbn [fReceiveBuffer queue] in *. rewrite <- (take_drop n buf), <- app_assoc in Hs. apply app_inj_1 in Hs as [-> <-]; [|rewrite length_take; lia].
  split; [|by rewrite drop_drop || done]. done.
Qed.

Lemma read_port_ok p : forall q n buf port l rest, from_queue p q -> buf = [] \/ port = p -> stream (Inp buf port q) = l ++ rest -> length l = n -> (0 < n)%nat ->
  exists i', read_port n buf port q = Some (l, i') /\ stream i' = rest /\ strong p i'.
Proof.
  induction q as [|[p' m] q IH]; intros n buf port l rest Hq Hp Hs Hl Hn; cbn [read_port]; (destruct (decide (n <= length buf)%nat) as [Hb|Hb];
    [destruct (read_head n buf port _ l rest Hb Hs Hl) as [E1 E2]; eexists; split; [by rewrite E1|]; split; [exact E2|]; split; [|done]; destruct Hp as [->|Hp]; [simpl in Hb; lia|done]|]).
  - exfalso. unfold stream in Hs. cbn [fReceiveBuffer queue] in Hs. rewrite app_nil_r in Hs. apply (f_equal length) in Hs. rewrite length_app in Hs. lia.
  - apply Forall_cons in Hq as [[E1 Hm] Hq]. cbn [fst snd] in *. subst p'. rewrite take_ge by done. unfold stream in Hs. cbn [fReceiveBuffer queue] in Hs. rewrite bind_cons in Hs. cbn [snd] in Hs. rewrite take_ge in Hs by done.
    assert (l = buf ++ drop (length buf) l) as El.
    { rewrite <- (take_drop (length buf) l) at 1. f_equal. apply (f_equal (take (length buf))) in Hs. rewrite take_app_length in Hs. rewrite take_app_le in Hs by lia. done. }
    destruct (IH (n - length buf)%nat m p (drop (length buf) l) rest Hq) as (i' & E & Hst & Hstr); [by right| |rewrite length_drop; lia|lia|].
    + unfold stream. cbn [fReceiveBuffer queue]. rewrite El, <- app_assoc in Hs. apply app_inv_head in Hs. done.
    + exists i'. rewrite E. split; [by rewrite <- El|done].
Qed.

Lemma read_port_none : forall q n buf port, (length (stream (Inp buf port q)) < n)%nat -> read_port n buf port q = None.
Proof.
  induction q as [|[p' m] q IH]; intros n buf port Hs; unfold stream in *; cbn [fReceiveBuffer queue] in *; rewrite length_app in Hs; cbn [read_port]; rewrite decide_False by lia; [done|].
  rewrite bind_cons, length_app in Hs. cbn [snd] in Hs. rewrite IH; [done|]. cbn [fReceiveBuffer queue]. rewrite length_app. lia.
Qed.

(** [x] reads [l] and yields [v]. *)
Definition yields {A} (x : M A) (v : A) (l : list Z) : Prop :=
  forall p i rest, strong p i -> stream i = l ++ rest -> exists i', (forall m, x m i = Ok (Done v m i')) /\ stream i' = rest /\ strong p i'.

Lemma yields_ret {A} (v : A) : yields (mret v) v [].
Proof. intros p i rest Hp Hs. exists i. done. Qed.

Lemma yields_bind {A B} (x : M A) (k : A -> M B) v w l l' : yields x v l -> yields (k v) w l' -> yields (Wm.mbind x k) w (l ++ l').
Proof.
  intros Hx Hk p i rest Hp Hs. rewrite <- app_assoc in Hs. destruct (Hx p i _ Hp Hs) as (i1 & E1 & Hs1 & Hp1). destruct (Hk p i1 rest Hp1 Hs1) as (i2 & E2 & Hs2 & Hp2).
  exists i2. split; [|done]. intros m. unfold Wm.mbind. rewrite E1. cbn [cbind]. apply E2.
Qed.

Lemma yields_bind_nil {A B} (x : M A) (k : A -> M B) v w l : yields x v l -> yields (k v) w [] -> yields (Wm.mbind x k) w l.
Proof. intros Hx Hk. rewrite <- (app_nil_r l). by eapply yields_bind. Qed.

Lemma yields_read l : l <> [] -> yields (Wm.read (length l)) l l.
Proof.
  intros Hl p i rest [Hp Hq] Hs. destruct i as [buf port q]. cbn [fRequestorPort queue] in *. destruct (read_port_ok p q (length l) buf port l rest Hq (or_intror Hp) Hs eq_refl) as (i' & E & H1 & H2); [destruct l; [done|simpl; lia]|].
  exists i'. split; [|done]. intros m. unfold Wm.read, ReadServicePort. cbn [fReceiveBuffer fRequestorPort queue]. by rewrite E.
Qed.

Lemma yields_int v : int32 v -> yields Wm.ReadInt32 v (le32 v).
Proof. intros Hv. eapply yields_bind_nil; [by apply (yields_read (le32 v))|]. rewrite of_le32_le32 by done. apply yields_ret. Qed.

Lemma yields_char v : int8 v -> yields ReadInt8 v [u8 v].
Proof. intros Hv. eapply yields_bind_nil; [by apply (yields_read [u8 v])|]. cbv beta iota. rewrite schar_u8 by done. apply yields_ret. Qed.

Definition int_rect (r : rect) : Prop := int32 (left r) /\ int32 (top r) /\ int32 (right r) /\ int32 (bottom r).

Lemma yields_rect r : int_rect r -> yields ReadRect r (rect_bytes r).
Proof.
  intros (H1 & H2 & H3 & H4). unfold ReadRect, rect_bytes. eapply yields_bind; [by apply yields_int|]. eapply yields_bind; [by apply yields_int|]. eapply yields_bind; [by apply yields_int|].
  eapply yields_bind_nil; [by apply yields_int|]. destruct r. apply yields_ret.
Qed.

(** Requests whose numbers fit. *)
Definition sendable (r : req) : Prop :=
  match r with
  | RLine id x1 y1 x2 y2 | RFill id x1 y1 x2 y2 => int32 id /\ int32 x1 /\ int32 y1 /\ int32 x2 /\ int32 y2
  | RPen id c | RBack id c => int32 id /\ int8 c
  | RDestroy id | RShow id | RHide id | RFocus id | RBegin id | REnd id => int32 id
  | RCreate p r e => int32 p /\ int_rect r /\ int32 e
  | RCopy id r x y => int32 id /\ int_rect r /\ int32 x /\ int32 y
  | RInval id r => int32 id /\ int_rect r
  | RLock => True
  | RUnknown _ => False
  end.
Definition opcode_of (r : req) : Z :=
  match r with
  | RLine _ _ _ _ _ => OP_DRAW_LINE | RFill _ _ _ _ _ => OP_FILL_RECT | RPen _ _ => OP_SET_PEN_COLOR | RBack _ _ => OP_SET_BG_COLOR | RDestroy _ => OP_DESTROY_WINDOW
  | RShow _ => OP_SHOW_WINDOW | RHide _ => OP_HIDE_WINDOW | RFocus _ => OP_MAKE_FOCUS | RBegin _ => OP_BEGIN_PAINT | REnd _ => OP_END_PAINT | RCreate _ _ _ => OP_CREATE_WINDOW
  | RCopy _ _ _ _ => OP_COPY_RECT | RInval _ _ => OP_INVALIDATE | RLock => OP_LOCK_MOUSE_FOCUS | RUnknown op => op
  end.

Lemma yields_args r : sendable r -> exists l, encode r = u8 (opcode_of r) :: l /\ yields (read_args (opcode_of r)) r l.
Proof.
  assert (forall x1 y1 x2 y2 l, le32 x1 ++ le32 y1 ++ le32 x2 ++ le32 y2 ++ l = rect_bytes (Rect x1 y1 x2 y2) ++ l) as Hr by (intros; unfold rect_bytes; by rewrite <- !app_assoc).
  assert (forall r l, le32 (left r) ++ le32 (top r) ++ le32 (right r) ++ le32 (bottom r) ++ l = rect_bytes r ++ l) as Hr' by (intros [] l; apply Hr).
  destruct r as [id x1 y1 x2 y2|id x1 y1 x2 y2|id c|id c|id|id|id|id|id|id|p r e|id r x y|id r| |op]; cbn [sendable opcode_of encode mbind list_bind]; intros H; try done;
    (eexists; split; [reflexivity|]); unfold read_args; repeat (first [rewrite decide_True by reflexivity|rewrite decide_False by discriminate]); rewrite ?app_nil_r.
  - destruct H as (H1 & H2). eapply yields_bind; [by apply yields_int|]. rewrite Hr. eapply yields_bind; [by apply (yields_rect (Rect x1 y1 x2 y2))|apply yields_ret].
  - destruct H as (H1 & H2). eapply yields_bind; [by apply yields_int|]. rewrite Hr. eapply yields_bind; [by apply (yields_rect (Rect x1 y1 x2 y2))|apply yields_ret].
  - destruct H as (H1 & H2). eapply yields_bind; [by apply yields_int|]. eapply yields_bind_nil; [by apply yields_char|apply yields_ret].
  - destruct H as (H1 & H2). eapply yields_bind; [by apply yields_int|]. eapply yields_bind_nil; [by apply yields_char|apply yields_ret].
  - eapply yields_bind; [by apply yields_int|apply yields_ret].
  - eapply yields_bind; [by apply yields_int|apply yields_ret].
  - eapply yields_bind; [by apply yields_int|apply yields_ret].
  - eapply yields_bind; [by apply yields_int|apply yields_ret].
  - eapply yields_bind; [by apply yields_int|apply yields_ret].
  - eapply yields_bind; [by apply yields_int|apply yields_ret].
  - destruct H as (H1 & H2 & H3). eapply yields_bind; [by apply yields_int|]. rewrite Hr'. eapply yields_bind; [by apply yields_rect|]. eapply yields_bind; [by apply yields_int|apply yields_ret].
  - destruct H as (H1 & H2 & H3 & H4). eapply yields_bind; [by apply yields_int|]. rewrite Hr'. eapply yields_bind; [by apply yields_rect|]. eapply yields_bind; [by apply yields_int|]. eapply yields_bind; [by apply yields_int|apply yields_ret].
  - destruct H as (H1 & H2). eapply yields_bind; [by apply yields_int|]. rewrite Hr'. eapply yields_bind; [by apply yields_rect|apply yields_ret].
  - apply yields_ret.
Qed.

(** The bytes of a request of BeginPaint, when the server takes the first four for a number. *)
Lemma begin_after_string id : 0 <= id < 2 ^ 23 -> encode (RBegin id) = le32 (OP_BEGIN_PAINT + 256 * id) ++ [u8 0].
Proof.
  intros Hid. unfold OP_BEGIN_PAINT. cbn [encode mbind list_bind]. unfold le32. cbn [map app]. rewrite !Z.shiftr_div_pow2 by lia.
  assert (forall n, 0 <= n -> (9 + 256 * id) / 2 ^ (8 + n) = id / 2 ^ n) as E. { intros n Hn. rewrite Z.pow_add_r, <- Z.div_div by lia. f_equal. symmetry. apply (Z.div_unique_pos _ _ _ 9); lia. }
  unfold OP_BEGIN_PAINT; change ([id] ≫= ?f) with (f id ++ []). cbn [app]. rewrite !Z.shiftr_div_pow2 by lia. replace ((9 + 256 * id) `div` 2 ^ 8) with id by (rewrite <- (Z.div_1_r id) at 1; symmetry; apply (E 0); lia). replace ((9 + 256 * id) `div` 2 ^ 16) with (id `div` 2 ^ 8) by (symmetry; apply (E 8); lia). replace ((9 + 256 * id) `div` 2 ^ 24) with (id `div` 2 ^ 16) by (symmetry; apply (E 16); lia). assert (u8 (9 + 256 * id) = u8 9) as -> by (unfold u8; replace (9 + 256 * id) with (9 + id * 2 ^ 8) by lia; by rewrite Z.mod_add by lia).
  by rewrite (Z.div_small id (2 ^ 24)) by lia.
Qed.

(** ** A turn of the loop, and the loop *)

Section server.
Context (in_place : Z -> Z -> bool) (junk : nat -> bool * Z * Z * Z) (font : Z).

Lemma opcode_int8 r : sendable r -> int8 (opcode_of r) /\ opcode_of r <> OP_DRAW_STRING.
Proof. destruct r; cbn [sendable opcode_of]; intros H; try done; (split; [done|discriminate]). Qed.

Lemma dispatch_req p i r rest : sendable r -> from p i -> stream i = encode r ++ rest ->
  exists i', (forall m, dispatch in_place junk font m i = (let! m' := handle in_place junk p m r in Ok (Done tt m' i'))) /\ stream i' = rest /\ strong p i'.
Proof.
  intros Hr [Hb Hq] Hs. destruct (yields_args r Hr) as (l & El & Hy). destruct (opcode_int8 r Hr) as [H8 Hns]. rewrite El in Hs. destruct i as [buf port q]. cbn [fReceiveBuffer fRequestorPort queue] in *.
  destruct (read_port_ok p q 1 buf port [u8 (opcode_of r)] (l ++ rest) Hq Hb Hs eq_refl ltac:(lia)) as (i1 & E1 & Hs1 & Hp1). destruct (Hy p i1 rest Hp1 Hs1) as (i2 & E2 & Hs2 & Hp2).
  exists i2. split; [|done]. intros m. unfold dispatch, ReadInt8, Wm.mbind, Wm.read, ReadServicePort. cbn [fReceiveBuffer fRequestorPort queue]. rewrite E1. cbn [cbind]. unfold mret. cbn [cbind]. rewrite schar_u8, decide_False by done.
  rewrite E2. cbn [cbind]. unfold act. by rewrite (proj1 Hp2).
Qed.

Lemma dispatch_waits m i : stream i = [] -> dispatch in_place junk font m i = Ok (Waits m).
Proof.
  intros Hs. destruct i as [buf port q]. unfold dispatch, ReadInt8, Wm.mbind, Wm.read, ReadServicePort. cbn [fReceiveBuffer fRequestorPort queue]. by rewrite (read_port_none q 1 buf port) by (rewrite Hs; simpl; lia).
Qed.

(** What OP_DRAW_STRING draws. *)
Definition draw_text (m : wm) (id x y : Z) (str : list Z) : cres wm :=
  on_window m id (fun s w => let! v := get s w in Ok (render s (Win.DrawString (fGC v) font x y (take kMaxStrLen str)))).

Lemma yields_string : forall str buf fuel, Forall (fun ch => int8 ch /\ ch <> 0) str -> (length buf <= kMaxStrLen)%nat -> (length str < fuel)%nat -> yields (read_string buf fuel) (take kMaxStrLen (buf ++ str)) (map u8 str ++ [u8 0]).
Proof.
  induction str as [|ch str IH]; intros buf [|fuel] Hs Hb Hf; try (simpl in Hf; lia); cbn [read_string].
  - apply (yields_bind_nil _ _ 0 _ [u8 0]); [by apply yields_char|]. rewrite decide_True, app_nil_r, take_ge by done. apply yields_ret.
  - apply Forall_cons in Hs as [[H8 H0] Hs]. cbn [map app]. change (u8 ch :: ?l) with ([u8 ch] ++ l). eapply yields_bind; [by apply yields_char|]. cbv beta. rewrite decide_False by done.
    destruct (decide (length buf < kMaxStrLen)%nat) as [Hl|Hl].
    + replace (buf ++ ch :: str) with ((buf ++ [ch]) ++ str) by (by rewrite <- app_assoc). apply IH; [done|rewrite length_app; simpl; lia|simpl in Hf; lia].
    + replace (take kMaxStrLen (buf ++ ch :: str)) with (take kMaxStrLen (buf ++ str)) by (rewrite !take_app_le by lia; done). apply IH; [done|lia|simpl in Hf; lia].
Qed.

(** The case of OP_DRAW_STRING: the string, and then the window with the number that stands in
  the next four bytes is destroyed. *)
Lemma dispatch_string p i id x y str v rest : int32 id -> int32 x -> int32 y -> int32 v -> Forall (fun ch => int8 ch /\ ch <> 0) str -> from p i -> stream i = encode_string id x y str ++ le32 v ++ rest ->
  exists i', (forall m, dispatch in_place junk font m i = (let! m := draw_text m id x y str in let! m := handle in_place junk p m (RDestroy v) in Ok (Done tt m i'))) /\ stream i' = rest /\ strong p i'.
Proof.
  intros Hid Hx Hy Hv Hstr [Hb Hq] Hs. unfold encode_string in Hs. change ([id; x; y] ≫= le32) with (le32 id ++ le32 x ++ le32 y ++ []) in Hs. rewrite app_nil_r in Hs. destruct i as [buf port q]. cbn [fReceiveBuffer fRequestorPort queue] in *.
  destruct (read_port_ok p q 1 buf port [u8 OP_DRAW_STRING] ((le32 id ++ le32 x ++ le32 y) ++ (map u8 str ++ [u8 0]) ++ le32 v ++ rest) Hq Hb) as (i1 & E1 & Hs1 & Hp1); [by rewrite Hs; cbn [app]; rewrite <- !app_assoc|done|lia|].
  rewrite <- !app_assoc in Hs1. destruct (yields_int id Hid p i1 _ Hp1 Hs1) as (i2 & E2 & Hs2 & Hp2). destruct (yields_int x Hx p i2 _ Hp2 Hs2) as (i3 & E3 & Hs3 & Hp3). destruct (yields_int y Hy p i3 _ Hp3 Hs3) as (i4 & E4 & Hs4 & Hp4).
  destruct (yields_string str [] (S (length (stream i4))) Hstr ltac:(simpl; lia) ltac:(rewrite Hs4, !length_app, length_map; lia) p i4 (le32 v ++ rest) Hp4 ltac:(by rewrite Hs4, <- !app_assoc)) as (i5 & E5 & Hs5 & Hp5).
  destruct (yields_int v Hv p i5 rest Hp5 Hs5) as (i6 & E6 & Hs6 & Hp6). exists i6. split; [|done]. intros m.
  unfold dispatch, ReadInt8, Wm.mbind at 1 2, Wm.read, ReadServicePort. cbn [fReceiveBuffer fRequestorPort queue]. rewrite E1. cbn [cbind]. unfold mret at 1. cbn [cbind]. change (schar (u8 OP_DRAW_STRING)) with OP_DRAW_STRING. rewrite decide_True by done.
  unfold Wm.mbind at 1. rewrite E2. cbn [cbind]. unfold Wm.mbind at 1. rewrite E3. cbn [cbind]. unfold Wm.mbind at 1. rewrite E4. cbn [cbind]. unfold Wm.mbind at 1. rewrite E5. cbn [cbind app]. unfold Wm.mbind at 1, draw_string, draw_text.
  destruct (on_window m id _) as [m1| |]; cbn [cbind]; [|done|done]. change (read_args OP_DESTROY_WINDOW) with (Wm.mbind Wm.ReadInt32 (fun id => mret (RDestroy id))). unfold Wm.mbind. rewrite E6. cbn [cbind]. unfold mret. cbn [cbind]. unfold act. by rewrite (proj1 Hp6).
Qed.

(** A byte that is no request. *)
Lemma dispatch_zero p m i : from p i -> stream i = [u8 0] -> exists i', dispatch in_place junk font m i = Ok (Done tt m i') /\ stream i' = [].
Proof.
  intros [Hb Hq] Hs. destruct i as [buf port q]. cbn [fReceiveBuffer fRequestorPort queue] in *. destruct (read_port_ok p q 1 buf port [u8 0] [] Hq Hb Hs eq_refl ltac:(lia)) as (i1 & E1 & Hs1 & Hp1).
  exists i1. split; [|done]. unfold dispatch, ReadInt8, Wm.mbind, Wm.read, ReadServicePort. cbn [fReceiveBuffer fRequestorPort queue]. rewrite E1. reflexivity.
Qed.

(** The requests of a program, one after the other. *)
Fixpoint handle_all (p : Z) (m : wm) (l : list req) : cres wm :=
  match l with [] => Ok m | r :: l => let! m := handle in_place junk p m r in handle_all p m l end.

Lemma DispatchThread_all p : forall l m i fuel, Forall sendable l -> from p i -> stream i = l ≫= encode -> (length l < fuel)%nat -> DispatchThread in_place junk font m i fuel = handle_all p m l.
Proof.
  induction l as [|r l IH]; intros m i [|fuel] Hl Hp Hs Hf; try (simpl in Hf; lia); cbn [DispatchThread handle_all].
  - by rewrite dispatch_waits.
  - apply Forall_cons in Hl as [Hr Hl]. rewrite bind_cons in Hs. destruct (dispatch_req p i r _ Hr Hp Hs) as (i' & E & Hs' & Hp'). rewrite E. destruct (handle in_place junk p m r) as [m'| |]; cbn [cbind]; [|done|done].
    apply IH; [done|by apply strong_from|done|simpl in Hf; lia].
Qed.

Lemma DispatchThread_app p rest : forall l i, Forall sendable l -> from p i -> stream i = (l ≫= encode) ++ rest ->
  exists i', stream i' = rest /\ from p i' /\ forall m n, DispatchThread in_place junk font m i (length l + n) = (let! m := handle_all p m l in DispatchThread in_place junk font m i' n).
Proof.
  induction l as [|r l IH]; intros i Hl Hp Hs; [exists i; done|]. apply Forall_cons in Hl as [Hr Hl]. rewrite bind_cons, <- app_assoc in Hs. destruct (dispatch_req p i r _ Hr Hp Hs) as (i1 & E1 & Hs1 & Hp1).
  destruct (IH i1 Hl (strong_from _ _ Hp1) Hs1) as (i' & H1 & H2 & H3). exists i'. split; [done|]. split; [done|]. intros m n. cbn [length Nat.add DispatchThread handle_all]. rewrite E1. destruct (handle in_place junk p m r); cbn [cbind]; [apply H3|done|done].
Qed.

(** The requests [l], a string, and the request of BeginPaint for a window with a small number. *)
Lemma DispatchThread_string p i l id x y str m m1 m2 m3 n : Forall sendable l -> 0 <= id < 2 ^ 23 -> int32 x -> int32 y -> Forall (fun ch => int8 ch /\ ch <> 0) str ->
  from p i -> stream i = (l ≫= encode) ++ encode_string id x y str ++ encode (RBegin id) ->
  handle_all p m l = Ok m1 -> draw_text m1 id x y str = Ok m2 -> handle in_place junk p m2 (RDestroy (OP_BEGIN_PAINT + 256 * id)) = Ok m3 -> (length l + 3 <= n)%nat -> DispatchThread in_place junk font m i n = Ok m3.
Proof.
  intros Hl Hid Hx Hy Hstr Hp Hs E1 E2 E3 Hn. replace n with (length l + (3 + (n - length l - 3)))%nat by lia. generalize (n - length l - 3)%nat. clear Hn n. intros n. destruct (DispatchThread_app p _ l i Hl Hp Hs) as (i1 & Hs1 & Hp1 & E). rewrite E, E1. cbn [cbind Nat.add DispatchThread].
  destruct (dispatch_string p i1 id x y str (OP_BEGIN_PAINT + 256 * id) [u8 0]) as (i2 & E4 & Hs2 & Hp2); [unfold int32; lia|done|done|unfold int32, OP_BEGIN_PAINT; lia|done|done|by rewrite Hs1, begin_after_string|].
  rewrite E4, E2. cbn [cbind]. rewrite E3. cbn [cbind]. destruct (dispatch_zero p m3 i2 (strong_from _ _ Hp2) Hs2) as (i3 & E5 & Hs3). rewrite E5. cbn [cbind]. by rewrite dispatch_waits.
Qed.

Lemma handle_all_app p l k : forall m, handle_all p m (l ++ k) = (let! m := handle_all p m l in handle_all p m k).
Proof. induction l as [|r l IH]; intros m; [done|]. cbn [app handle_all]. destruct (handle in_place junk p m r); [apply IH|done|done]. Qed.

(** Requests without an answer. *)
Definition quiet (r : req) : Prop := match r with RBegin _ | RCreate _ _ _ => False | _ => True end.

Lemma on_window_sent m id f m' : on_window m id f = Ok m' -> sent m' = sent m.
Proof. unfold on_window. destruct (LookupWindow m id) as [[w|]| |]; cbn [cbind]; [|by intros [= <-]|done|done]. destruct (f (windows m) w); cbn [cbind]; [by intros [= <-]|done|done]. Qed.

Lemma shown_sent m id f m' : (let! m := on_window m id f in Ok (InvalidateMouseBoundries m)) = Ok m' -> sent m' = sent m.
Proof. destruct (on_window m id f) as [m1| |] eqn:E; cbn [cbind]; [|done|done]. intros [= <-]. by apply on_window_sent in E. Qed.

Lemma handle_sent p m r m' : quiet r -> handle in_place junk p m r = Ok m' -> sent m' = sent m.
Proof.
  destruct r; cbn [quiet handle]; intros Hq H; try done; try (by eapply on_window_sent); try (by eapply shown_sent); [| |by injection H as <-].
  - destruct (LookupWindow m id) as [[w|]| |]; cbn [cbind] in H; [|by injection H as <-|done|done]. unfold DestroyWindow in H.
    destruct (get (windows m) w); cbn [cbind] in H; [|done|done]. destruct (slot _); cbn [cbind] in H; [|done|done]. destruct (delete_window in_place (windows m) w); cbn [cbind] in H; [|done|done]. by injection H as <-.
  - by injection H as <-.
Qed.

Lemma handle_all_sent p : forall l m m', Forall quiet l -> handle_all p m l = Ok m' -> sent m' = sent m.
Proof.
  induction l as [|r l IH]; intros m m' Hl H; cbn [handle_all] in H; [by injection H as <-|]. apply Forall_cons in Hl as [Hr Hl]. destruct (handle in_place junk p m r) as [m1| |] eqn:E; cbn [cbind] in H; [|done|done].
  rewrite (IH _ _ Hl H). by eapply handle_sent.
Qed.

End server.

(** ** The reply of BeginPaint *)

Lemma OffsetBy_ints r x y : int_rect (OffsetBy r x y).
Proof. unfold int_rect, OffsetBy, int32. cbn [left top right bottom]. split_and!; apply s32_range. Qed.

Lemma offset_up_ints s sign : forall fuel w r r', int_rect r -> offset_up s sign w r fuel = Ok r' -> int_rect r'.
Proof.
  induction fuel as [|fuel IH]; intros [w|] r r' Hr H; cbn [offset_up] in H; try done; try (by injection H as <-). destruct (get s w); cbn [cbind] in H; [|done|done]. eapply IH; [|exact H]. apply OffsetBy_ints.
Qed.

Lemma ScreenToLocal_ints s w r r' : ScreenToLocal s w r = Ok r' -> int_rect r'.
Proof.
  unfold ScreenToLocal. cbn [offset_up]. destruct (get s w); cbn [cbind]; [|done|done]. intros H. eapply offset_up_ints; [|exact H]. apply OffsetBy_ints.
Qed.

Lemma BeginPaint_ints in_place s w r s' : Win.BeginPaint in_place s w = Ok (r, s') -> int_rect r.
Proof.
  unfold Win.BeginPaint. destruct (get s w) as [v| |]; cbn [cbind]; [|done|done]. destruct (SetTo _ _ _) as [rd| |]; cbn [cbind]; [|done|done]. destruct (copy _ _) as [d| |]; cbn [cbind]; [|done|done].
  destruct (Intersect _ _ _) as [d'| |]; cbn [cbind]; [|done|done]. destruct (ScreenToLocal _ _ _) as [o| |] eqn:E; cbn [cbind]; [|done|done]. destruct (gc_set_clip _ _ _ _); cbn [cbind]; [|done|done].
  intros [= <- _]. by eapply ScreenToLocal_ints.
Qed.

Lemma read_reply v l b o q : int32 v -> LibWin.ReadInt32 (Conn b o (le32 v ++ l) q) = Some (v, Conn b o l q).
Proof.
  intros Hv. unfold LibWin.ReadInt32. cbn [fReplyBuffer replies fSendBuffer out]. destruct q as [|x q]; cbn [read_replies]; rewrite decide_True by (rewrite length_app, length_le32; lia); rewrite (take_app_length' _ _ 4) by done; rewrite (drop_app_length' _ _ 4) by done; by rewrite of_le32_le32.
Qed.

(** The first read of a reply takes it from the port. *)
Lemma read_first v l b o q : (length (le32 v ++ l) <= kReplyBufferSize)%nat -> int32 v -> LibWin.ReadInt32 (Conn b o [] ((le32 v ++ l) :: q)) = Some (v, Conn b o l q).
Proof.
  intros Hl Hv. pose proof (read_reply v l b o q Hv) as H. unfold LibWin.ReadInt32 in *. cbn [fReplyBuffer replies fSendBuffer out] in *. cbn [read_replies]. rewrite decide_False by (simpl; lia). rewrite take_ge by done.
  change (4 - length (@nil Z))%nat with 4%nat. destruct (read_replies 4 (le32 v ++ l) q) as [[[bs b'] q']|]; [|done]. exact H.
Qed.

Lemma read_rect_reply r b o q : int_rect r -> read_rect (Conn b o [] (rect_bytes r :: q)) = Some (r, Conn b o [] q).
Proof.
  intros (H1 & H2 & H3 & H4). unfold read_rect, rect_bytes. rewrite read_first by (done || (rewrite !length_app, !length_le32; unfold kReplyBufferSize; lia)). rewrite !read_reply by done.
  rewrite <- (app_nil_r (le32 (bottom r))). rewrite read_reply by done. by destruct r.
Qed.

(** ** A program and the server *)

Lemma calls_keep k o : LibWin.fID (call_canvas k o) = LibWin.fID k /\ (fInPaint k = false -> fInPaint (call_canvas k o) = false).
Proof. destruct o; cbn [call_canvas]; try done. by destruct (fInPaint k) eqn:E. Qed.

Definition calls_canvas (k : canvas) (l : list call) : canvas := fold_left call_canvas l k.

Lemma do_calls_sends : forall l k c, fWindow k = true -> wc c ->
  calls k c (calls_reqs k l ≫= encode) (calls_canvas k l) (do_calls l k c) /\ fWindow (calls_canvas k l) = true.
Proof.
  induction l as [|o l IH]; intros k c Hw Hc; [split; [exists c; split; [done|by apply after_refl]|done]|].
  destruct (do_call_sends o k c Hw Hc) as [(c1 & E1 & H1) Hw1]. destruct (IH (call_canvas k o) c1 Hw1 (proj1 H1)) as [(c2 & E2 & H2) Hw2]. cbn [do_calls calls_reqs calls_canvas fold_left]. split; [|exact Hw2].
  exists c2. rewrite E1. cbn [cbind]. split; [exact E2|]. rewrite bind_app. by eapply after_trans.
Qed.

Lemma calls_canvas_keep : forall l k, LibWin.fID (calls_canvas k l) = LibWin.fID k /\ (fInPaint k = false -> fInPaint (calls_canvas k l) = false).
Proof. induction l as [|o l IH]; intros k; [done|]. destruct (calls_keep k o) as [H1 H2]. destruct (IH (call_canvas k o)) as [H3 H4]. cbn [calls_canvas fold_left]. split; [by rewrite <- H1|auto]. Qed.

Lemma calls_quiet : forall l k, Forall quiet (calls_reqs k l).
Proof.
  induction l as [|o l IH]; intros k; cbn [calls_reqs]; [constructor|]. apply Forall_app. split; [|apply IH]. destruct o; cbn [call_reqs]; repeat case_decide; try destruct (fInPaint k); repeat constructor.
Qed.

Lemma command_now_empty op args c c' : command_now op args c = Ok c' -> fSendBuffer c' = [].
Proof. unfold command_now. destruct (WriteInt8 op c) as [c1| |]; cbn [cbind]; [|done|done]. destruct (write_ints args c1); cbn [cbind]; [by intros [= <-]|done|done]. Qed.

(** The program: its calls, then the request of BeginPaint. *)
Definition paints (l : list call) (k : canvas) (c : connection) : cres (canvas * connection) := let! (k, c) := do_calls l k c in BeginPaint_send k c.
Definition new_connection : connection := Conn [] [] [] [].

Lemma paints_sends l k : fWindow k = true -> fInPaint k = false ->
  exists c, paints l k new_connection = Ok (set_paint (calls_canvas k l) true, c) /\ fSendBuffer c = [] /\ concat (out c) = (calls_reqs k l ++ [RBegin (LibWin.fID k)]) ≫= encode /\
    Forall (fun m => length m <= kSendBufferSize)%nat (out c) /\ fReplyBuffer c = [] /\ replies c = [].
Proof.
  intros Hw Hp. assert (wc new_connection) as Hc by (split; [unfold kSendBufferSize; simpl; lia|constructor]). destruct (do_calls_sends l k new_connection Hw Hc) as [(c1 & E1 & H1) Hw1]. destruct (calls_canvas_keep l k) as [Hid Hin]. specialize (Hin Hp).
  destruct (command_now_sends OP_BEGIN_PAINT [LibWin.fID (calls_canvas k l)] c1 (proj1 H1)) as (c2 & E2 & H2). exists c2. unfold paints. rewrite E1. cbn [cbind]. unfold BeginPaint_send. rewrite Hin, Hw1, E2. cbn [cbind].
  pose proof (after_trans _ _ _ _ _ H1 H2) as ([_ Ho] & Hwr & Hf & Hr). pose proof (command_now_empty _ _ _ _ E2) as He. split_and!; try done.
  unfold written in Hwr. rewrite He, app_nil_r in Hwr. cbn [new_connection fSendBuffer out concat app] in Hwr. rewrite Hwr, bind_app, Hid. reflexivity.
Qed.

Lemma out_stream p o : Forall (fun m => length m <= kSendBufferSize)%nat o -> from p (Inp [] 0 (map (pair p) o)) /\ stream (Inp [] 0 (map (pair p) o)) = concat o.
Proof.
  intros Ho. assert (from_queue p (map (pair p) o) /\ (map (pair p) o ≫= fun x => take kReceiveBufferSize (snd x)) = concat o) as [H1 H2].
  { induction Ho as [|x l Hx Hl [IH1 IH2]]; [split; [constructor|done]|]. assert (length x <= kReceiveBufferSize)%nat as Hx' by (unfold kReceiveBufferSize, kSendBufferSize in *; lia). cbn [map concat].
    split; [constructor; [done|exact IH1]|]. rewrite bind_cons, IH2. cbn [snd]. by rewrite take_ge. }
  split; [split; [by left|done]|]. unfold stream. cbn [fReceiveBuffer queue]. by rewrite H2.
Qed.

Lemma calls_reqs_length : forall l k, (length (calls_reqs k l) <= length l)%nat.
Proof.
  induction l as [|o l IH]; intros k; [done|]. cbn [calls_reqs length]. rewrite length_app. specialize (IH (call_canvas k o)). enough (length (call_reqs k o) <= 1)%nat by lia.
  destruct o; cbn [call_reqs]; repeat case_decide; try destruct (fInPaint k); simpl; lia.
Qed.

(** The same with a string in between. *)
Definition paints_string (l : list call) (x y : Z) (str : list Z) (k : canvas) (c : connection) : cres (canvas * connection) :=
  let! (k, c) := do_calls l k c in let! c := LibWin.DrawString k x y str c in BeginPaint_send k c.

Lemma paints_string_sends l x y str k : fWindow k = true -> fInPaint k = false ->
  exists c, paints_string l x y str k new_connection = Ok (set_paint (calls_canvas k l) true, c) /\ fSendBuffer c = [] /\ concat (out c) = (calls_reqs k l ≫= encode) ++ encode_string (LibWin.fID k) x y str ++ encode (RBegin (LibWin.fID k)) /\
    Forall (fun m => length m <= kSendBufferSize)%nat (out c) /\ fReplyBuffer c = [] /\ replies c = [].
Proof.
  intros Hw Hp. assert (wc new_connection) as Hc by (split; [unfold kSendBufferSize; simpl; lia|constructor]). destruct (do_calls_sends l k new_connection Hw Hc) as [(c1 & E1 & H1) Hw1]. destruct (calls_canvas_keep l k) as [Hid Hin]. specialize (Hin Hp).
  destruct (DrawString_sends (calls_canvas k l) x y str c1 Hw1 (proj1 H1)) as (c2 & E2 & H2). destruct (command_now_sends OP_BEGIN_PAINT [LibWin.fID (calls_canvas k l)] c2 (proj1 H2)) as (c3 & E3 & H3). exists c3. unfold paints_string. rewrite E1. cbn [cbind]. rewrite E2. cbn [cbind]. unfold BeginPaint_send. rewrite Hin, Hw1, E3. cbn [cbind].
  pose proof (after_trans _ _ _ _ _ (after_trans _ _ _ _ _ H1 H2) H3) as ([_ Ho] & Hwr & Hf & Hr). pose proof (command_now_empty _ _ _ _ E3) as He. split_and!; try done.
  unfold written in Hwr. rewrite He, app_nil_r in Hwr. cbn [new_connection fSendBuffer out concat app] in Hwr. rewrite Hwr, Hid, <- app_assoc. reflexivity.
Qed.

(** C31. Programs and the window server: a program with a new connection makes calls of its
  canvas (lines, rectangles, colours, copies, show, hide, end of painting, invalidation,
  lock, flush), all with ints, and then BeginPaint, and the server, which has no messages of
  other programs, carries their requests out without a fault.  The bytes leave the program in
  messages of at most 4096 bytes, cut anywhere, with nothing kept back; the dispatch thread
  does exactly the requests of the calls, in their order and each with its arguments, and
  ends up waiting for the next; and from its single reply the program reads the very
  rectangle the server's BeginPaint gave.  If it draws a string right before BeginPaint, the
  server draws (the first 256 characters) and runs on into the case of OP_DESTROY_WINDOW
  (WindowManager.cpp:257): it takes four bytes of the request of BeginPaint for the number of
  a window to destroy, and never answers; the program waits for ever. *)
Theorem program_served in_place junk font port l k m m1 :
  fWindow k = true -> fInPaint k = false -> int32 (LibWin.fID k) -> Forall sendable (calls_reqs k l) ->
  handle_all in_place junk port m (calls_reqs k l) = Ok m1 ->
  (forall w r s, LookupWindow m1 (LibWin.fID k) = Ok (Some w) -> Win.BeginPaint in_place (windows m1) w = Ok (r, s) ->
    exists k' c m', paints l k new_connection = Ok (k', c) /\ fSendBuffer c = [] /\ Forall (fun x => length x <= kSendBufferSize)%nat (out c) /\
      DispatchThread in_place junk font m (Inp [] 0 (map (pair port) (out c))) (length l + 2) = Ok m' /\ windows m' = s /\ sent m' = sent m ++ [(port, rect_bytes r)] /\
      read_rect (Conn (fSendBuffer c) (out c) (fReplyBuffer c) [rect_bytes r]) = Some (r, c)) /\
  (forall x y str m2 m3, 0 <= LibWin.fID k < 2 ^ 23 -> int32 x -> int32 y -> Forall (fun ch => int8 ch /\ ch <> 0) str ->
    draw_text font m1 (LibWin.fID k) x y str = Ok m2 -> handle in_place junk port m2 (RDestroy (OP_BEGIN_PAINT + 256 * LibWin.fID k)) = Ok m3 ->
    exists k' c, paints_string l x y str k new_connection = Ok (k', c) /\
      DispatchThread in_place junk font m (Inp [] 0 (map (pair port) (out c))) (length l + 3) = Ok m3 /\ sent m3 = sent m /\ read_rect c = None).
Proof.
  intros Hw Hp Hid Hl E1. pose proof (calls_reqs_length l k) as Hlen. split.
  - intros w r s E2 E3. destruct (paints_sends l k Hw Hp) as (c & Ec & Hb & Ho & Hf & Hrb & Hrs). exists (set_paint (calls_canvas k l) true), c. eexists. split; [exact Ec|]. split; [done|]. split; [exact Hf|].
    destruct (out_stream port (out c) Hf) as [Hq Hst]. rewrite (DispatchThread_all in_place junk font port (calls_reqs k l ++ [RBegin (LibWin.fID k)])); [|apply Forall_app; by split; [|constructor]|done|by rewrite Hst|rewrite length_app; simpl; lia].
    rewrite handle_all_app, E1. cbn [cbind handle_all handle]. rewrite E2. cbn [cbind]. rewrite E3. cbn [cbind]. split; [reflexivity|]. split; [done|]. cbn [sent Respond set_windows].
    rewrite (handle_all_sent _ _ _ _ _ _ (calls_quiet l k) E1). split; [done|]. rewrite Hb, Hrb. destruct c as [b o rb rs]. cbn [fSendBuffer out fReplyBuffer replies] in *. subst. apply read_rect_reply. by eapply BeginPaint_ints.
  - intros x y str m2 m3 Hid' Hx Hy Hstr E2 E3. destruct (paints_string_sends l x y str k Hw Hp) as (c & Ec & Hb & Ho & Hf & Hrb & Hrs). exists (set_paint (calls_canvas k l) true), c. split; [exact Ec|].
    destruct (out_stream port (out c) Hf) as [Hq Hst]. split; [apply (DispatchThread_string _ _ _ port _ (calls_reqs k l) (LibWin.fID k) x y str m m1 m2 m3); try done; [by rewrite Hst|lia]|].
    split; [|unfold read_rect, LibWin.ReadInt32; by rewrite Hrb, Hrs]. rewrite (handle_sent in_place junk port m2 (RDestroy (OP_BEGIN_PAINT + 256 * LibWin.fID k)) m3 I E3), (on_window_sent _ _ _ _ E2). by apply (handle_all_sent in_place junk port (calls_reqs k l) _ _ (calls_quiet l k)).
Qed.

(** A server with one window on a screen of 100 by 100, and a program that draws on it. *)
Abbreviation stays := (fun _ _ : Z => true) (only parsing).
Abbreviation memory := (fun _ : nat => (false, 5, 0, 0)) (only parsing).
Definition server : cres wm := let! m := new_wm stays (Rect 0 0 99 99) false 0 0 0 in handle_all stays memory 7 m [RCreate 0 (Rect 10 10 40 40) 9; RShow 1].
Definition drawing : list call := [CPen 3; CFill 0 0 5 5; CInval (Rect 2 2 8 8)].
Definition window1 : canvas := Canvas 1 true false 1 (Rect 0 0 30 30).

Lemma program_served_witness : exists m k' c m', server = Ok m /\ paints drawing window1 new_connection = Ok (k', c) /\ DispatchThread stays memory 0 m (Inp [] 0 (map (pair 7) (out c))) 5 = Ok m' /\
  sent m' = sent m ++ [(7, rect_bytes (Rect 0 0 30 30))] /\ read_rect (Conn (fSendBuffer c) (out c) (fReplyBuffer c) [rect_bytes (Rect 0 0 30 30)]) = Some (Rect 0 0 30 30, c) /\
  exists k'' c' m'', paints_string drawing 2 2 [72; 105] window1 new_connection = Ok (k'', c') /\ DispatchThread stays memory 0 m (Inp [] 0 (map (pair 7) (out c'))) 6 = Ok m'' /\ sent m'' = sent m /\ read_rect c' = None.
Proof.
  eexists. destruct (program_served stays memory 0 7 drawing window1 ltac:(let x := eval vm_compute in server in match x with Ok ?m => exact m end) _ eq_refl eq_refl ltac:(vm_compute; done) ltac:(repeat constructor; vm_compute; done) ltac:(vm_compute; reflexivity)) as [P Q].
  destruct (P _ (Rect 0 0 30 30) _ ltac:(vm_compute; reflexivity) ltac:(vm_compute; reflexivity)) as (k' & c & m' & E1 & _ & _ & E2 & _ & E3 & E4).
  destruct (Q 2 2 [72; 105] _ _ ltac:(vm_compute; split; [intros ?; discriminate|reflexivity]) ltac:(vm_compute; split; [intros ?; discriminate|reflexivity]) ltac:(vm_compute; split; [intros ?; discriminate|reflexivity])
    ltac:(repeat (apply Forall_cons; split; [split; [vm_compute; split; [intros ?; discriminate|reflexivity]|intros ?; discriminate]|]); apply Forall_nil; exact I) ltac:(vm_compute; reflexivity) ltac:(vm_compute; reflexivity)) as (k'' & c' & E5 & E6 & E7 & E8).
  exists k', c, m'. split; [vm_compute; reflexivity|]. split; [exact E1|]. split; [exact E2|]. split; [exact E3|]. split; [exact E4|]. exists k'', c'. eexists. split; [exact E5|]. split; [exact E6|]. split; [exact E7|exact E8].
Defined.

End WmProof.
