(* ===== verification/Msg.v ===== *)
(** lib/libblt/Message.cpp: messages of named fields, packed into one block of bytes.

  A block that malloc returned is the list of its bytes, and what it holds before it is
  written is [fresh]; reading or writing outside it is a [Fault].  Pointers into a message
  are offsets into its block. *)
From S2P Require Import Prelude LibC Bytes.
Import LibC Bytes.
Local Open Scope Z_scope.
Local Open Scope c_scope.

Module Msg.

(** ** Words *)

Definition word (v : Z) : list Z := [u8 v; u8 (Z.shiftr v 8); u8 (Z.shiftr v 16); u8 (Z.shiftr v 24)].
Definition unword (l : list Z) : Z := match l with [a; b; c; d] => a + 256 * b + 65536 * c + 16777216 * d | _ => 0 end.
Definition ld32 (m : list Z) (p : Z) : cres Z := let! l := fetch m p 4 in Ok (unword l).
Definition st32 (m : list Z) (p v : Z) : cres (list Z) := store m p (word v).

(** A constant of four characters, the first one in the highest byte. *)
Definition fourcc (s : string) : Z := fold_left (fun v c => 256 * v + c) (cstr s) 0.

Definition GROW_BY : Z := 128.
Definition BLT_ID_MESSAGE : Z := 1107439639.
Definition BLT_TYPE_INT32 : Z := fourcc "bI32".
Definition BLT_TYPE_STRING : Z := fourcc "bSTR".
Definition BLT_TYPE_POINTER : Z := fourcc "bPTR".
Definition BLT_TYPE_MESSAGE : Z := fourcc "bMSG".

(** [12 + ((len + 3) & ~3)]: the bytes of a field of [len] bytes. *)
Definition chunk_size (len : Z) : Z := u32 (12 + Z.land (u32 (len + 3)) (2 ^ 32 - 4)).

Record message := Message { _data : list Z; _length : Z; _available : Z; _reply_port : Z }.

Section heap.
(** What a new block of a size holds. *)
Context (fresh : Z -> list Z).

Definition realloc (m : list Z) (n : Z) : list Z := take (Z.to_nat n) (m ++ drop (length m) (fresh n)).

(** The type, the identifier and the length at the start of a field. *)
Definition put_chunk (m : list Z) (p type id len : Z) : cres (list Z) :=
  let! m := st32 m p type in let! m := st32 m (p + 4) id in st32 m (p + 8) len.

(** The constructor. *)
Definition new_message : cres message :=
  let! m := put_chunk (fresh GROW_BY) 0 BLT_TYPE_MESSAGE BLT_ID_MESSAGE 0 in
  Ok (Message m 12 (GROW_BY - 12) 0).

(** ** Putting *)

(** [while (_available < size) _available += GROW_BY] *)
Fixpoint grow (available size : Z) (fuel : nat) : cres Z :=
  if decide (available < size) then
    match fuel with O => Fault | S fuel => grow (u32 (available + GROW_BY)) size fuel end
  else Ok available.

(** The [len] bytes at [s] of the block [sm] become a field.  The function has no result. *)
Definition PutData (type id : Z) (sm : list Z) (s len : Z) (g : message) : cres message :=
  let size := chunk_size len in
  let! (data, available) :=
    (if decide (_available g < size) then
       let! available := grow (_available g) size (Z.to_nat size) in
       Ok (realloc (_data g) (u32 (_length g + available)), available)
     else Ok (_data g, _available g)) in
  let! data := put_chunk data (_length g) type id len in
  let! data := memcpy data (_length g + 12) sm s (Z.to_nat len) in
  let length := u32 (_length g + size) in
  let! data := st32 data 8 (u32 (length - 12)) in
  Ok (Message data length available (_reply_port g)).

Definition PutInt32 (id v : Z) : message -> cres message := PutData BLT_TYPE_INT32 id (word v) 0 4.
Definition PutString (id : Z) (sm : list Z) (s : Z) (g : message) : cres message :=
  let! n := strlen sm s in PutData BLT_TYPE_STRING id sm s (u32 (n + 1)) g.
(** The four bytes the pointer points to, not the pointer. *)
Definition PutPointer (id : Z) (sm : list Z) (s : Z) : message -> cres message := PutData BLT_TYPE_POINTER id sm s 4.
Definition PutMessage (id : Z) (msg g : message) : cres message := PutData BLT_TYPE_MESSAGE id (_data msg) 0 (_length msg) g.

(** ** Getting *)

(** The loop of GetData: where the first field is for which [hit] holds. *)
Fixpoint find_chunk (hit : Z -> Z -> Z -> bool) (m : list Z) (x count : Z) (fuel : nat) : cres (option (Z * Z)) :=
  if decide (12 < count) then
    match fuel with
    | O => Fault
    | S fuel =>
        let! type := ld32 m x in let! id := ld32 m (x + 4) in let! len := ld32 m (x + 8) in
        if hit type id len then Ok (Some (x + 12, len)) else
        let size := chunk_size len in
        find_chunk hit m (x + size) (u32 (count - size)) fuel
    end
  else Ok None.
Definition search (hit : Z -> Z -> Z -> bool) (g : message) : cres (option (Z * Z)) :=
  find_chunk hit (_data g) 12 (u32 (_length g - 12)) (S (length (_data g))).

(** GetData of a field with a given length: the bytes that are copied. *)
Definition GetData (type id len : Z) (g : message) : cres (option (list Z)) :=
  let! o := search (fun t i n => bool_decide (type = t /\ id = i /\ len = n)) g in
  match o with
  | Some (p, n) => let! l := fetch (_data g) p (Z.to_nat n) in Ok (Some l)
  | None => Ok None
  end.
(** GetData of a field with any length: a pointer into the message, and the length. *)
Definition GetDataPtr (type id : Z) (g : message) : cres (option (Z * Z)) :=
  search (fun t i _ => bool_decide (type = t /\ id = i)) g.

(** The result, and the variable that held [old]. *)
Definition GetInt32 (id old : Z) (g : message) : cres (Z * Z) :=
  let! o := GetData BLT_TYPE_INT32 id 4 g in
  Ok (match o with Some l => (0, s32 (unword l)) | None => (-1, old) end).
Definition GetPointer (id old : Z) (g : message) : cres (Z * Z) :=
  let! o := GetData BLT_TYPE_POINTER id 4 g in
  Ok (match o with Some l => (0, unword l) | None => (-1, old) end).
(** The pointer is [None] for NULL. *)
Definition GetString (id : Z) (g : message) : cres (Z * option Z) :=
  let! o := GetDataPtr BLT_TYPE_STRING id g in
  Ok (match o with Some (p, _) => (0, Some p) | None => (-1, None) end).

(** GetEntry, with the outputs type, id and length. *)
Fixpoint entry_loop (m : list Z) (x count n : Z) (found : option (Z * Z * Z)) (fuel : nat) : cres (option (Z * Z * Z)) :=
  if decide (12 < count) then
    match fuel with
    | O => Fault
    | S fuel =>
        let! found := (if decide (0 = n) then
            let! type := ld32 m x in let! id := ld32 m (x + 4) in let! len := ld32 m (x + 8) in Ok (Some (type, id, len))
          else Ok found) in
        let! len := ld32 m (x + 8) in
        let size := 12 + Z.land (u32 (len + 3)) 3 in
        entry_loop m (x + size) (u32 (count - size)) n found fuel
    end
  else Ok found.
Definition GetEntry (n : Z) (g : message) : cres (Z * option (Z * Z * Z) * option Z) :=
  let! found := entry_loop (_data g) 12 (u32 (_length g - 12)) n None (S (length (_data g))) in
  Ok (-1, found, None).

(** ** Packing *)

Definition GetPackedData (g : message) : cres (list Z) := fetch (_data g) 0 (Z.to_nat (_length g)).

(** The [length] bytes at [s] of the block [sm] become the message. *)
Definition PutPackedData (sm : list Z) (s length reply_port : Z) (g : message) : cres (Z * message) :=
  if decide (length < 12) then Ok (-1, g) else
  let! type := ld32 sm s in
  if decide (type <> BLT_TYPE_MESSAGE) then Ok (-1, g) else
  let! id := ld32 sm (s + 4) in
  if decide (id <> BLT_ID_MESSAGE) then Ok (-1, g) else
  let! len := ld32 sm (s + 8) in
  if decide (len <> u32 (length - 12)) then Ok (-1, g) else
  let! data := memcpy (fresh length) 0 sm s (Z.to_nat length) in
  Ok (0, Message data length 0 reply_port).

(** GetMessage: without the field, the pointer is NULL and the length is not initialised. *)
Definition GetMessage (id : Z) (g msg : message) : cres (Z * message) :=
  let! o := GetDataPtr BLT_TYPE_MESSAGE id g in
  match o with
  | Some (p, len) => PutPackedData (_data g) p len (-1) msg
  | None => Fault
  end.

Definition Empty (g : message) : cres message :=
  let! data := st32 (_data g) 8 0 in
  Ok (Message data 12 (u32 (_available g + _length g - 12)) 0).

End heap.

End Msg.
