(* ===== verification/MsgProof.v ===== *)
(** Messages (Msg): the fields that are put into a message are the fields that are got out
  of it after it has been packed, sent and unpacked. *)
From S2P Require Import Prelude LibC Bytes Msg.
Import LibC Bytes Msg.
Local Open Scope Z_scope.
Local Open Scope c_scope.

Module MsgProof.

(** ** Bytes at a place *)

Definition has (m : list Z) (p : Z) (l : list Z) : Prop := forall i c, l !! i = Some c -> aget m (p + Z.of_nat i) = Some c.

Lemma has_cons m p c l : has m p (c :: l) <-> aget m p = Some c /\ has m (p + 1) l.
Proof.
  split.
  - intros H. split; [specialize (H 0%nat c eq_refl); by rewrite Z.add_0_r in H|]. intros i x Hi. specialize (H (S i) x Hi). by replace (p + 1 + Z.of_nat i) with (p + Z.of_nat (S i)) by lia.
  - intros [H1 H2] [|i] x Hi; [injection Hi as <-; by rewrite Z.add_0_r|]. replace (p + Z.of_nat (S i)) with (p + 1 + Z.of_nat i) by lia. by apply H2.
Qed.

Lemma has_app m p l k : has m p (l ++ k) <-> has m p l /\ has m (p + Z.of_nat (length l)) k.
Proof.
  revert p. induction l as [|c l IH]; intros p; cbn [app length]; [rewrite Z.add_0_r; split; [intros H; split; [intros i x Hi; by rewrite lookup_nil in Hi|done]|by intros [_ H]]|].
  rewrite !has_cons, IH. replace (p + 1 + Z.of_nat (length l)) with (p + Z.of_nat (S (length l))) by lia. tauto.
Qed.

Lemma has_put m p l m' : bytes l -> put m p l m' -> has m' p l.
Proof. intros Hl P i c Hi. rewrite (pt_in _ _ _ _ P i c Hi). f_equal. apply u8_small. unfold bytes in Hl. rewrite Forall_lookup in Hl. by eapply Hl. Qed.

Lemma has_out m p l m' q k : put m p l m' -> has m q k -> q + Z.of_nat (length k) <= p \/ p + Z.of_nat (length l) <= q -> has m' q k.
Proof. intros P H Hd i c Hi. rewrite (pt_out _ _ _ _ P); [by apply H|]. apply lookup_lt_Some in Hi. lia. Qed.

Lemma fetch_has l : forall m p, has m p l -> fetch m p (length l) = Ok l.
Proof. induction l as [|c l IH]; intros m p H; [done|]. apply has_cons in H as [H1 H2]. cbn [length fetch]. rewrite (rd_Some _ _ _ H1). cbn [cbind]. by rewrite (IH m (p + 1) H2). Qed.

(** ** Words *)

Lemma length_word v : length (word v) = 4%nat.
Proof. done. Qed.

Lemma bytes_word v : bytes (word v).
Proof. repeat constructor; apply u8_range. Qed.

Lemma unword_word v : unword (word v) = u32 v.
Proof.
  unfold unword, word, u8, u32. rewrite !Z.shiftr_div_pow2 by lia. change (2 ^ 8) with 256. change (2 ^ 16) with 65536. change (2 ^ 24) with 16777216. change (2 ^ 32) with 4294967296.
  pose proof (Z.div_mod v 256 ltac:(lia)). pose proof (Z.div_mod (v / 256) 256 ltac:(lia)) as H1. rewrite Z.div_div in H1 by lia. change (256 * 256) with 65536 in H1.
  pose proof (Z.div_mod (v / 65536) 256 ltac:(lia)) as H2. rewrite Z.div_div in H2 by lia. change (65536 * 256) with 16777216 in H2. pose proof (Z.div_mod (v / 16777216) 256 ltac:(lia)) as H3.
  pose proof (Z.mod_pos_bound v 256 ltac:(lia)). pose proof (Z.mod_pos_bound (v / 256) 256 ltac:(lia)). pose proof (Z.mod_pos_bound (v / 65536) 256 ltac:(lia)). pose proof (Z.mod_pos_bound (v / 16777216) 256 ltac:(lia)).
  apply (Z.mod_unique v 4294967296 (v / 16777216 / 256)); lia.
Qed.

Lemma ld32_has m p v : 0 <= v < 2 ^ 32 -> has m p (word v) -> ld32 m p = Ok v.
Proof. intros Hv H. unfold ld32. rewrite <- (length_word v), (fetch_has _ _ _ H). cbn [cbind]. by rewrite unword_word, u32_small. Qed.

(** ** Fields *)

Record field := Field { f_type : Z; f_id : Z; f_data : list Z }.
Definition f_len (f : field) : Z := Z.of_nat (length (f_data f)).
(** The length with the bytes that fill up the last word. *)
Definition pad (n : Z) : Z := 4 * ((n + 3) / 4).
Definition span (f : field) : Z := 12 + pad (f_len f).
Definition image (f : field) : list Z := word (f_type f) ++ word (f_id f) ++ word (f_len f) ++ f_data f.
Definition good_field (f : field) : Prop := 0 <= f_type f < 2 ^ 32 /\ 0 <= f_id f < 2 ^ 32 /\ bytes (f_data f) /\ f_len f < 2 ^ 30.
Fixpoint room (fs : list field) : Z := match fs with [] => 0 | f :: fs => span f + room fs end.

Lemma pad_bounds n : n <= pad n < n + 4.
Proof. unfold pad. pose proof (Z.div_mod (n + 3) 4 ltac:(lia)). pose proof (Z.mod_pos_bound (n + 3) 4 ltac:(lia)). lia. Qed.

Lemma chunk_size_pad n : 0 <= n < 2 ^ 30 -> chunk_size n = 12 + pad n.
Proof.
  intros Hn. pose proof (pad_bounds n). unfold chunk_size. rewrite (u32_small (n + 3)) by lia.
  assert (Z.land (n + 3) (2 ^ 32 - 4) = pad n) as ->; [|apply u32_small; lia].
  change (2 ^ 32 - 4) with (Z.shiftl (Z.ones 30) 2). unfold pad. rewrite Z.mul_comm. change 4 with (2 ^ 2) at 2. rewrite <- Z.shiftl_mul_pow2 by lia. change 4 with (2 ^ 2). rewrite <- Z.shiftr_div_pow2 by lia.
  apply Z.bits_inj'. intros k Hk. rewrite Z.land_spec. destruct (decide (k < 2)) as [Hl|Hl].
  - rewrite !Z.shiftl_spec_low by lia. apply andb_false_r.
  - rewrite !Z.shiftl_spec by lia. rewrite Z.shiftr_spec by lia. replace (k - 2 + 2) with k by lia. destruct (decide (k - 2 < 30)) as [Ho|Ho]; [rewrite Z.ones_spec_low by lia; apply andb_true_r|].
    rewrite Z.ones_spec_high, andb_false_r by lia. symmetry. apply Z.bits_above_log2; [lia|]. apply Z.log2_lt_pow2; [lia|]. apply (Z.lt_le_trans _ (2 ^ 31)); [lia|]. apply Z.pow_le_mono_r; lia.
Qed.

Lemma f_len_nonneg f : 0 <= f_len f.
Proof. apply Nat2Z.is_nonneg. Qed.

Lemma chunk_size_span f : good_field f -> chunk_size (f_len f) = span f.
Proof. intros (_ & _ & _ & H). pose proof (f_len_nonneg f). apply chunk_size_pad. lia. Qed.

Lemma span_bounds f : good_field f -> 12 <= span f <= f_len f + 15.
Proof. intros (_ & _ & _ & H). pose proof (f_len_nonneg f). pose proof (pad_bounds (f_len f)). unfold span. lia. Qed.

Lemma length_field_image f : Z.of_nat (length (image f)) = 12 + f_len f.
Proof. unfold image, f_len. rewrite !length_app, !length_word. lia. Qed.

(** The fields one after the other from [x]. *)
Fixpoint lay (m : list Z) (x : Z) (fs : list field) : Prop :=
  match fs with [] => True | f :: fs => has m x (image f) /\ lay m (x + span f) fs end.

Lemma room_nonneg fs : Forall good_field fs -> 0 <= room fs.
Proof. induction 1 as [|f fs Hf _ IH]; [done|]. pose proof (span_bounds f Hf). cbn [room]. lia. Qed.

Lemma room_app fs gs : room (fs ++ gs) = room fs + room gs.
Proof. induction fs as [|f fs IH]; [done|]. cbn [app room]. lia. Qed.

Lemma room_words fs : (4 | room fs).
Proof. induction fs as [|f fs [k IH]]; [by exists 0|]. cbn [room]. rewrite IH. unfold span, pad. exists (3 + (f_len f + 3) / 4 + k). lia. Qed.

Lemma lay_app m gs : forall fs x, lay m x (fs ++ gs) <-> lay m x fs /\ lay m (x + room fs) gs.
Proof.
  induction fs as [|f fs IH]; intros x; cbn [app lay room]; [rewrite Z.add_0_r; tauto|]. rewrite IH. rewrite Z.add_assoc. tauto.
Qed.

Lemma lay_agree m m' : forall fs x, Forall good_field fs -> (forall q, x <= q < x + room fs -> aget m' q = aget m q) -> lay m x fs -> lay m' x fs.
Proof.
  induction fs as [|f fs IH]; intros x Hg Hq H; [done|]. apply Forall_cons in Hg as [Hf Hg]. destruct H as [H1 H2]. cbn [room] in Hq. pose proof (room_nonneg fs Hg). pose proof (length_field_image f). pose proof (pad_bounds (f_len f)). pose proof (span_bounds f Hf). split.
  - intros i c Hi. rewrite Hq; [by apply H1|]. apply lookup_lt_Some in Hi. unfold span in *. lia.
  - apply IH; [done| |done]. intros q Hq'. apply Hq. lia.
Qed.

(** ** Looking for a field *)

Fixpoint first_field (hit : Z -> Z -> Z -> bool) (x : Z) (fs : list field) : option (Z * list Z) :=
  match fs with
  | [] => None
  | f :: fs => if hit (f_type f) (f_id f) (f_len f) then Some (x + 12, f_data f) else first_field hit (x + span f) fs
  end.

(** The fields that the loop of GetData looks at: it stops when 12 bytes are left, which are
  those of a last field without bytes. *)
Fixpoint seen (fs : list field) : list field :=
  match fs with
  | [] => []
  | f :: fs => match fs with [] => if decide (f_len f = 0) then [] else [f] | _ :: _ => f :: seen fs end
  end.

Lemma seen_cons f fs : 12 < span f + room fs -> Forall good_field fs -> seen (f :: fs) = f :: seen fs.
Proof.
  intros H _. destruct fs as [|e fs]; [|done]. cbn [seen room] in *. unfold span in H. rewrite decide_False; [done|]. intros E. rewrite E in H. change (pad 0) with 0 in H. lia.
Qed.

Lemma seen_short f fs : good_field f -> Forall good_field fs -> span f + room fs <= 12 -> seen (f :: fs) = [].
Proof.
  intros Hf Hg H. pose proof (span_bounds f Hf). pose proof (pad_bounds (f_len f)). pose proof (f_len_nonneg f). destruct fs as [|e fs].
  - cbn [seen room] in *. unfold span in H. rewrite decide_True; [done|lia].
  - apply Forall_cons in Hg as [He Hg]. pose proof (span_bounds e He). cbn [room] in H. enough (0 <= room fs) by lia. clear -Hg. induction Hg as [|g gs Hg _ IH]; [done|]. pose proof (span_bounds g Hg). cbn [room]. lia.
Qed.

Lemma find_chunk_ok hit m : forall fs x fuel, Forall good_field fs -> lay m x fs -> room fs < 2 ^ 32 -> (length fs <= fuel)%nat ->
  find_chunk hit m x (room fs) fuel = Ok (match first_field hit x (seen fs) with Some (p, d) => Some (p, Z.of_nat (length d)) | None => None end).
Proof.
  induction fs as [|f fs IH]; intros x fuel Hg Hl Hr Hf; [by destruct fuel|]. apply Forall_cons in Hg as [Hgf Hg]. destruct Hl as [H1 H2]. pose proof (span_bounds f Hgf). pose proof (room_nonneg fs Hg). pose proof (f_len_nonneg f). cbn [room] in *.
  destruct fuel as [|fuel]; [simpl in Hf; lia|]. cbn [find_chunk]. destruct (decide (12 < span f + room fs)) as [Hc|Hc]; [|by rewrite seen_short by (done || lia)].
  rewrite (seen_cons f fs Hc Hg). cbn [first_field]. pose proof (chunk_size_span f Hgf) as Ec. destruct Hgf as (G1 & G2 & _ & G4).
  unfold image in H1. apply has_app in H1 as [T1 H1]. apply has_app in H1 as [T2 H1]. apply has_app in H1 as [T3 _]. rewrite !length_word in *. change (Z.of_nat 4) with 4 in *. rewrite (ld32_has _ _ _ G1 T1). cbn [cbind]. rewrite (ld32_has _ _ _ G2 T2). cbn [cbind].
  replace (x + 4 + 4) with (x + 8) in T3 by lia. rewrite (ld32_has _ _ (f_len f) ltac:(lia) T3). cbn [cbind]. destruct (hit _ _ _); [done|]. rewrite Ec.
  replace (u32 (span f + room fs - span f)) with (room fs) by (rewrite u32_small; lia). apply IH; [done|done|lia|simpl in Hf; lia].
Qed.

Lemma seen_lay m : forall fs x, lay m x fs -> lay m x (seen fs).
Proof.
  induction fs as [|f fs IH]; intros x H; [done|]. destruct H as [H1 H2]. cbn [seen]. destruct fs as [|e fs]; [destruct (decide _); done|]. split; [done|]. by apply IH.
Qed.

Lemma first_field_has hit m : forall fs x p d, lay m x fs -> first_field hit x fs = Some (p, d) -> has m p d.
Proof.
  induction fs as [|f fs IH]; intros x p d H E; [done|]. destruct H as [H1 H2]. cbn [first_field] in E. destruct (hit _ _ _); [|by eapply IH]. injection E as <- <-.
  unfold image in H1. apply has_app in H1 as [_ H1]. apply has_app in H1 as [_ H1]. apply has_app in H1 as [_ H1]. rewrite !length_word in H1. by replace (x + 12) with (x + Z.of_nat 4 + Z.of_nat 4 + Z.of_nat 4) by lia.
Qed.

(** ** Messages with fields *)

Record holds (g : message) (fs : list field) : Prop := {
  hd_good : Forall good_field fs;
  hd_length : _length g = 12 + room fs;
  hd_fits : 12 + room fs <= Z.of_nat (length (_data g)) < 2 ^ 31;
  hd_bytes : bytes (_data g);
  hd_head : has (_data g) 0 (word BLT_TYPE_MESSAGE ++ word BLT_ID_MESSAGE ++ word (room fs));
  hd_lay : lay (_data g) 12 fs
}.

Lemma search_fields hit g fs : holds g fs -> search hit g = Ok (match first_field hit 12 (seen fs) with Some (p, d) => Some (p, Z.of_nat (length d)) | None => None end).
Proof.
  intros [Hg Hl Hf Hb Hh Hy]. unfold search. rewrite Hl. pose proof (room_nonneg fs Hg). replace (u32 (12 + room fs - 12)) with (room fs) by (rewrite u32_small; lia). apply find_chunk_ok; [done|done|lia|].
  enough (12 * Z.of_nat (length fs) <= room fs) by lia. clear -Hg. induction Hg as [|f fs Hf _ IH]; [cbn; lia|]. pose proof (span_bounds f Hf). cbn [room length]. lia.
Qed.

Lemma GetData_ok type id len g fs : holds g fs ->
  GetData type id len g = Ok (option_map snd (first_field (fun t i n => bool_decide (type = t /\ id = i /\ len = n)) 12 (seen fs))).
Proof.
  intros H. unfold GetData. rewrite (search_fields _ _ _ H). cbn [cbind]. destruct (first_field _ 12 (seen fs)) as [[p d]|] eqn:E; [|done]. rewrite Nat2Z.id. rewrite (fetch_has d); [done|]. eapply first_field_has; [apply seen_lay, H|exact E].
Qed.

(** ** Putting a field *)

Lemma store_has m p l : bytes m -> bytes l -> fits m p (length l) -> exists m', store m p l = Ok m' /\ put m p l m' /\ bytes m' /\ has m' p l.
Proof. intros Hm Hl Hf. destruct (store_put l m p Hf) as (m' & E & P). exists m'. split; [done|]. split; [done|]. split; [exact (put_bytes _ _ _ _ Hm P)|exact (has_put _ _ _ _ Hl P)]. Qed.

(** [m'] is [m] except for the [n] bytes from [p]. *)
Definition changed (m : list Z) (p n : Z) (m' : list Z) : Prop := length m' = length m /\ bytes m' /\ forall q, q < p \/ p + n <= q -> aget m' q = aget m q.

Lemma put_chunk_ok m p type id len : bytes m -> fits m p 12 ->
  exists m', put_chunk m p type id len = Ok m' /\ changed m p 12 m' /\ has m' p (word type ++ word id ++ word len).
Proof.
  intros Hm [F1 F2]. unfold put_chunk, st32. destruct (store_has m p (word type) Hm (bytes_word _)) as (m1 & -> & P1 & B1 & T1); [unfold fits; rewrite length_word; lia|]. cbn [cbind].
  pose proof (pt_len _ _ _ _ P1) as L1. destruct (store_has m1 (p + 4) (word id) B1 (bytes_word _)) as (m2 & -> & P2 & B2 & T2); [unfold fits; rewrite length_word; lia|]. cbn [cbind].
  pose proof (pt_len _ _ _ _ P2) as L2. destruct (store_has m2 (p + 8) (word len) B2 (bytes_word _)) as (m3 & -> & P3 & B3 & T3); [unfold fits; rewrite length_word; lia|]. pose proof (pt_len _ _ _ _ P3) as L3.
  exists m3. split; [done|]. split.
  - split; [lia|]. split; [done|]. intros q Hq. rewrite (pt_out _ _ _ _ P3), (pt_out _ _ _ _ P2), (pt_out _ _ _ _ P1) by (rewrite length_word; lia). done.
  - apply has_app. split; [eapply has_out; [exact P3|eapply has_out; [exact P2|exact T1|]|]; rewrite !length_word; lia|]. rewrite length_word. change (Z.of_nat 4) with 4. apply has_app.
    split; [eapply has_out; [exact P3|exact T2|rewrite !length_word; lia]|]. rewrite length_word. change (Z.of_nat 4) with 4. by replace (p + 4 + 4) with (p + 8) by lia.
Qed.

Lemma has_changed m p n m' q k : changed m p n m' -> has m q k -> q + Z.of_nat (length k) <= p \/ p + n <= q -> has m' q k.
Proof. intros (_ & _ & H) Hk Hd i c Hi. rewrite H; [by apply Hk|]. apply lookup_lt_Some in Hi. lia. Qed.

Section heap.
Context (fresh : Z -> list Z).

(** The block has room for the field, and the message knows. *)
Definition roomy (g : message) (f : field) : Prop := span f <= _available g /\ _length g + span f <= Z.of_nat (length (_data g)).

Lemma PutData_ok g fs f sm s : holds g fs -> good_field f -> roomy g f -> bytes sm -> has sm s (f_data f) -> fits sm s (length (f_data f)) ->
  exists g', PutData fresh (f_type f) (f_id f) sm s (f_len f) g = Ok g' /\ holds g' (fs ++ [f]) /\ length (_data g') = length (_data g) /\ _available g' = _available g /\ _reply_port g' = _reply_port g.
Proof.
  intros [Hg Hl Hft Hb Hh Hy] Hf [R1 R2] Hsm Hs Hfs. pose proof (room_nonneg fs Hg) as Hr. pose proof (span_bounds f Hf) as Hsp. pose proof (pad_bounds (f_len f)) as Hp. unfold PutData. rewrite (chunk_size_span f Hf), decide_False by lia. cbn [cbind].
  destruct (put_chunk_ok (_data g) (_length g) (f_type f) (f_id f) (f_len f) Hb) as (m1 & -> & C1 & T1); [unfold fits; lia|]. cbn [cbind]. destruct C1 as (L1 & B1 & O1).
  unfold memcpy. replace (Z.to_nat (f_len f)) with (length (f_data f)) by (unfold f_len; lia). rewrite (fetch_has _ _ _ Hs). cbn [cbind].
  destruct (store_has m1 (_length g + 12) (f_data f) B1) as (m2 & -> & P2 & B2 & T2); [apply Hf|unfold fits, span, f_len in *; lia|]. cbn [cbind]. pose proof (pt_len _ _ _ _ P2) as L2.
  replace (u32 (u32 (_length g + span f) - 12)) with (room (fs ++ [f])) by (rewrite room_app; cbn [room]; rewrite !u32_small by (rewrite ?u32_small by lia; lia); lia).
  destruct (store_has m2 8 (word (room (fs ++ [f]))) B2 (bytes_word _)) as (m3 & E3 & P3 & B3 & T3); [unfold fits; rewrite length_word; lia|]. unfold st32. rewrite E3. cbn [cbind]. pose proof (pt_len _ _ _ _ P3) as L3.
  eexists. split; [reflexivity|]. cbn [_data _available _reply_port]. split_and!; [|lia|done|done]. assert (forall q, 12 <= q < _length g -> aget m3 q = aget (_data g) q) as Hold.
  { intros q Hq. rewrite (pt_out _ _ _ _ P3), (pt_out _ _ _ _ P2), O1 by (rewrite ?length_word; lia). done. }
  split; cbn [_data _length].
  - apply Forall_app. by split; [|constructor].
  - rewrite room_app. cbn [room]. rewrite u32_small; lia.
  - rewrite room_app. cbn [room]. lia.
  - done.
  - rewrite app_assoc in *. apply has_app in Hh as [Hh _]. apply has_app. split; [|exact T3]. intros i c Hi. specialize (Hh i c Hi). apply lookup_lt_Some in Hi. rewrite length_app, !length_word in Hi.
    rewrite (pt_out _ _ _ _ P3), (pt_out _ _ _ _ P2), O1 by (rewrite ?length_word; lia). done.
  - apply lay_app. split; [eapply lay_agree; [done| |exact Hy]; intros q Hq; apply Hold; lia|]. rewrite <- Hl. split; [|done]. unfold image. rewrite !app_assoc, <- (app_assoc (word _)). apply has_app. split.
    + eapply has_out; [exact P3| |rewrite !length_app, !length_word; lia]. eapply has_out; [exact P2|exact T1|rewrite !length_app, !length_word; lia].
    + rewrite !length_app, !length_word. eapply has_out; [exact P3|exact T2|rewrite length_word; lia].
Qed.

Hypothesis fresh_bytes : forall n, bytes (fresh n) /\ (0 <= n -> length (fresh n) = Z.to_nat n).

Lemma new_message_ok : exists g, new_message fresh = Ok g /\ holds g [] /\ length (_data g) = 128%nat /\ _available g = 116 /\ _reply_port g = 0.
Proof.
  destruct (fresh_bytes GROW_BY) as [Hb Hl]. specialize (Hl ltac:(done)). change (Z.to_nat GROW_BY) with 128%nat in Hl. unfold new_message.
  destruct (put_chunk_ok (fresh GROW_BY) 0 BLT_TYPE_MESSAGE BLT_ID_MESSAGE 0 Hb) as (m & -> & (L & B & _) & T); [unfold fits; lia|]. cbn [cbind]. eexists. split; [reflexivity|]. cbn [_data _available _reply_port].
  split_and!; [|lia|done|done]. split; cbn [_data _length room]; try done; lia.
Qed.

(** ** Packing and unpacking *)

Lemma GetPackedData_ok g fs : holds g fs -> GetPackedData g = Ok (slice (_data g) 0 (Z.to_nat (12 + room fs))).
Proof. intros [Hg Hl Hf Hb Hh Hy]. pose proof (room_nonneg fs Hg). unfold GetPackedData. rewrite Hl. apply fetch_ok. unfold fits. lia. Qed.

Lemma has_slice m n p l : has m p l -> 0 <= p -> p + Z.of_nat (length l) <= Z.of_nat n -> has (slice m 0 n) p l.
Proof.
  intros H Hp Hn i c Hi. specialize (H i c Hi). apply lookup_lt_Some in Hi. apply aget_Some in H as [H1 H2]. unfold aget. rewrite decide_True by lia. unfold slice. rewrite drop_0, lookup_take_lt by lia. done.
Qed.

Lemma slice_all l : slice l 0 (length l) = l.
Proof. unfold slice. rewrite drop_0. by apply take_ge. Qed.

Lemma splice_all m l : length m = length l -> splice m 0 l = l.
Proof. intros H. unfold splice. change (Z.to_nat 0) with 0%nat. rewrite take_0, drop_ge by lia. apply app_nil_r. Qed.

Lemma message_words : 0 <= BLT_TYPE_MESSAGE < 2 ^ 32 /\ 0 <= BLT_ID_MESSAGE < 2 ^ 32.
Proof. split; vm_compute; split; (discriminate || reflexivity). Qed.

Lemma PutPackedData_ok g fs l port g0 : holds g fs -> GetPackedData g = Ok l ->
  PutPackedData fresh l 0 (Z.of_nat (length l)) port g0 = Ok (0, Message l (Z.of_nat (length l)) 0 port) /\ holds (Message l (Z.of_nat (length l)) 0 port) fs.
Proof.
  intros H E. rewrite (GetPackedData_ok g fs H) in E. injection E as <-. destruct H as [Hg Hl Hf Hb Hh Hy]. pose proof (room_nonneg fs Hg) as Hr. set (n := Z.to_nat (12 + room fs)). set (l := slice (_data g) 0 n).
  assert (length l = n) as Ll by (apply length_slice; unfold fits, n; lia). assert (bytes l) as Bl by (by apply slice_bytes).
  assert (has l 0 (word BLT_TYPE_MESSAGE ++ word BLT_ID_MESSAGE ++ word (room fs))) as Hl' by (apply has_slice; [done|lia|rewrite !length_app, !length_word; unfold n; lia]).
  assert (forall q, 0 <= q < 12 + room fs -> aget l q = aget (_data g) q) as Ha by (intros q Hq; unfold l, aget, slice; rewrite !decide_True, drop_0, lookup_take_lt by (unfold n; lia); done).
  split.
  - pose proof Hl' as T. apply has_app in T as [T1 T]. apply has_app in T as [T2 T3]. rewrite !length_word in *. change (Z.of_nat 4) with 4 in *. unfold PutPackedData. rewrite decide_False by (unfold n in *; lia).
    rewrite (ld32_has _ _ _ (proj1 message_words) T1). cbn [cbind]. rewrite decide_False by (intros X; by apply X). rewrite (ld32_has _ _ _ (proj2 message_words) T2). cbn [cbind]. rewrite decide_False by (intros X; by apply X).
    change (0 + 4 + 4) with (0 + 8) in T3. rewrite (ld32_has _ _ (room fs) ltac:(lia) T3). cbn [cbind]. rewrite decide_False by (rewrite u32_small; unfold n in *; lia). rewrite Nat2Z.id. destruct (fresh_bytes (Z.of_nat (length l))) as [Fb Fl]. specialize (Fl ltac:(lia)). rewrite Nat2Z.id in Fl.
    rewrite memcpy_splice by (done || (unfold fits; lia)). cbn [cbind]. rewrite slice_all, splice_all by lia. done.
  - split; cbn [_data _length]; try done; [unfold n in *; lia|unfold n in *; lia|]. eapply lay_agree; [done| |exact Hy]. intros q Hq. apply Ha. lia.
Qed.

(** ** Any fields *)

Fixpoint put_all (fs : list field) (g : message) : cres message :=
  match fs with [] => Ok g | f :: fs => let! g := PutData fresh (f_type f) (f_id f) (f_data f) 0 (f_len f) g in put_all fs g end.

Lemma has_self l : has l 0 l.
Proof. intros i c Hi. unfold aget. rewrite decide_True by lia. by replace (Z.to_nat (0 + Z.of_nat i)) with i by lia. Qed.

Lemma put_fields_ok : forall fs gs g, holds g gs -> Forall good_field fs -> _length g + room fs <= Z.of_nat (length (_data g)) -> room fs <= _available g ->
  exists g', put_all fs g = Ok g' /\ holds g' (gs ++ fs).
Proof.
  induction fs as [|f fs IH]; intros gs g H Hg H1 H2; [exists g; split; [done|by rewrite app_nil_r]|]. apply Forall_cons in Hg as [Hf Hg]. cbn [room] in *. pose proof (room_nonneg fs Hg). pose proof (span_bounds f Hf).
  destruct (PutData_ok g gs f (f_data f) 0 H Hf) as (g1 & E1 & G1 & L1 & A1 & _); [split; lia|apply Hf|apply has_self|unfold fits; lia|]. cbn [put_all]. rewrite E1. cbn [cbind].
  destruct (IH (gs ++ [f]) g1 G1 Hg) as (g2 & E2 & G2); [|lia|exists g2; split; [done|by rewrite <- app_assoc in G2]].
  rewrite L1, (hd_length _ _ G1), room_app. rewrite (hd_length _ _ H) in H1. cbn [room]. lia.
Qed.

(** What GetData should give: the bytes of the first field with the type, the identifier
  and the length. *)
Definition field_of (type id len : Z) (fs : list field) : option (list Z) :=
  option_map f_data (List.find (fun f => bool_decide (type = f_type f /\ id = f_id f /\ len = f_len f)) fs).

Lemma first_field_find type id len : forall fs x, option_map snd (first_field (fun t i n => bool_decide (type = t /\ id = i /\ len = n)) x fs) = field_of type id len fs.
Proof. induction fs as [|f fs IH]; intros x; [done|]. unfold field_of in *. cbn [first_field List.find]. destruct (bool_decide _); [done|apply IH]. Qed.

(** A write that begins in a block and ends beyond it. *)
Lemma store_fault l : forall m p, 0 <= p <= Z.of_nat (length m) -> Z.of_nat (length m) < p + Z.of_nat (length l) -> store m p l = Fault.
Proof.
  induction l as [|c l IH]; intros m p Hp Hl; cbn [store length] in *; [lia|]. destruct (decide (p = Z.of_nat (length m))) as [->|Hne].
  - unfold wr. unfold aset. rewrite decide_False by lia. done.
  - unfold wr. rewrite aset_in_range by lia. cbn [deref cbind]. apply IH; rewrite length_insert; lia.
Qed.

Lemma put_chunk_fault m p type id len : bytes m -> 0 <= p <= Z.of_nat (length m) -> Z.of_nat (length m) < p + 12 -> put_chunk m p type id len = Fault.
Proof.
  intros Hm Hp Hl. unfold put_chunk, st32. destruct (decide (p + 4 <= Z.of_nat (length m))) as [H1|H1]; [|rewrite (store_fault (word type)) by (rewrite ?length_word; lia); done].
  destruct (store_has m p (word type) Hm (bytes_word _)) as (m1 & -> & P1 & B1 & _); [unfold fits; rewrite length_word; lia|]. cbn [cbind]. pose proof (pt_len _ _ _ _ P1) as L1.
  destruct (decide (p + 8 <= Z.of_nat (length m))) as [H2|H2]; [|rewrite (store_fault (word id)) by (rewrite ?length_word; lia); done].
  destruct (store_has m1 (p + 4) (word id) B1 (bytes_word _)) as (m2 & -> & P2 & B2 & _); [unfold fits; rewrite length_word; lia|]. cbn [cbind]. pose proof (pt_len _ _ _ _ P2) as L2.
  rewrite (store_fault (word len)) by (rewrite ?length_word; lia). done.
Qed.

(** A field that the message takes for granted is written beyond the block. *)
Lemma PutData_overruns g fs f sm s : holds g fs -> good_field f -> span f <= _available g -> Z.of_nat (length (_data g)) < _length g + 12 + f_len f -> has sm s (f_data f) ->
  PutData fresh (f_type f) (f_id f) sm s (f_len f) g = Fault.
Proof.
  intros H Hf Ha Hl Hs. pose proof (hd_length _ _ H) as E. pose proof (hd_fits _ _ H) as F. pose proof (room_nonneg fs (hd_good _ _ H)) as Hr. pose proof (f_len_nonneg f). unfold PutData. rewrite (chunk_size_span f Hf), decide_False by lia. cbn [cbind].
  destruct (decide (_length g + 12 <= Z.of_nat (length (_data g)))) as [H1|H1]; [|rewrite put_chunk_fault by (try apply H; lia); done].
  destruct (put_chunk_ok (_data g) (_length g) (f_type f) (f_id f) (f_len f) (hd_bytes _ _ H)) as (m1 & -> & (L1 & _) & _); [unfold fits; lia|]. cbn [cbind].
  unfold memcpy. replace (Z.to_nat (f_len f)) with (length (f_data f)) by (unfold f_len; lia). rewrite (fetch_has _ _ _ Hs). cbn [cbind]. rewrite store_fault; [done|lia|unfold f_len in *; lia].
Qed.

(** Fields of at most 104 bytes that do not fit. *)
Lemma put_fields_overrun : forall fs gs g, holds g gs -> Forall (fun f => good_field f /\ span f <= _available g) fs -> (4 | Z.of_nat (length (_data g))) -> Z.of_nat (length (_data g)) < _length g + room fs ->
  put_all fs g = Fault.
Proof.
  induction fs as [|f fs IH]; intros gs g H Hg H4 Hr; [cbn [room] in Hr; pose proof (hd_fits _ _ H); rewrite (hd_length _ _ H) in Hr; lia|]. apply Forall_cons in Hg as [[Hf Ha] Hg]. cbn [put_all room] in *.
  destruct (decide (_length g + span f <= Z.of_nat (length (_data g)))) as [Hs|Hs].
  - destruct (PutData_ok g gs f (f_data f) 0 H Hf) as (g1 & -> & G1 & L1 & A1 & _); [by split|apply Hf|apply has_self|unfold fits; lia|]. cbn [cbind]. apply (IH (gs ++ [f])); [done|by rewrite A1|by rewrite L1|].
    rewrite L1, (hd_length _ _ G1), room_app. rewrite (hd_length _ _ H) in Hr. cbn [room]. lia.
  - rewrite (PutData_overruns g gs f _ _ H Hf Ha); [done| |apply has_self]. rewrite (hd_length _ _ H) in *. pose proof (pad_bounds (f_len f)). destruct H4 as [k Hk]. destruct (room_words gs) as [j Hj]. unfold span, pad in *. lia.
Qed.

(** C4. Messages: fields of any types and identifiers with at most 104 bytes each, put into a
  new message one after the other.  If they fill at most 128 bytes together with the header,
  the message is packed, sent and unpacked into another; each step succeeds within its
  blocks, and for every type, identifier and length GetData delivers the bytes of the first
  such field and reports those that were not put, except that a field without bytes at the
  very end of the message is never found.  If they fill more, PutData writes beyond the
  block, since it never takes a field from _available. *)
Theorem message_roundtrip fs port g0 (Hg : Forall good_field fs) (Hsp : Forall (fun f => f_len f <= 104) fs) :
  exists g1, new_message fresh = Ok g1 /\
  (room fs <= 116 -> exists g l g', put_all fs g1 = Ok g /\ GetPackedData g = Ok l /\ (length l <= 128)%nat /\
     PutPackedData fresh l 0 (Z.of_nat (length l)) port g0 = Ok (0, g') /\ _reply_port g' = port /\
     forall type id len, GetData type id len g' = Ok (field_of type id len (seen fs))) /\
  (116 < room fs -> put_all fs g1 = Fault).
Proof.
  destruct new_message_ok as (g1 & E1 & H1 & L1 & A1 & _). exists g1. split; [done|]. split; intros Hr.
  - destruct (put_fields_ok fs [] g1 H1 Hg) as (g & E2 & H2); [rewrite (hd_length _ _ H1), L1; cbn [room]; lia|lia|]. cbn [app] in H2.
    pose proof (GetPackedData_ok g fs H2) as E3. destruct (PutPackedData_ok g fs _ port g0 H2 E3) as [E4 H4]. exists g. do 2 eexists. split_and!; [exact E2|exact E3| |exact E4|reflexivity|].
    + pose proof (hd_fits _ _ H2). pose proof (room_nonneg fs Hg). rewrite length_slice by (unfold fits; lia). lia.
    + intros type id len. rewrite (GetData_ok type id len _ _ H4). by rewrite first_field_find.
  - apply (put_fields_overrun fs [] g1 H1); [|rewrite L1; by exists 32|rewrite L1, (hd_length _ _ H1); cbn [room]; lia]. rewrite A1. rewrite Forall_forall in *. intros f Hf. split; [by apply Hg|].
    specialize (Hsp f Hf). simpl in Hsp. pose proof (pad_bounds (f_len f)). unfold span, pad in *. lia.
Qed.

End heap.

(** The message of the test of Message.cpp. *)
Abbreviation zeros := (fun n => replicate (Z.to_nat n) 0) (only parsing).
Definition demo_fields : list field := [Field BLT_TYPE_INT32 (fourcc "foob") (word 42); Field BLT_TYPE_STRING (fourcc "none") []; Field BLT_TYPE_STRING (fourcc "blah") (cstr "Hello, Message" ++ [0]); Field BLT_TYPE_STRING (fourcc "last") []].

Lemma message_roundtrip_witness : exists g1 g l g', new_message zeros = Ok g1 /\ put_all zeros demo_fields g1 = Ok g /\ GetPackedData g = Ok l /\
  PutPackedData zeros l 0 (Z.of_nat (length l)) 3 g1 = Ok (0, g') /\ GetData BLT_TYPE_INT32 (fourcc "foob") 4 g' = Ok (Some (word 42)) /\
  GetData BLT_TYPE_STRING (fourcc "none") 0 g' = Ok (Some []) /\ GetData BLT_TYPE_STRING (fourcc "last") 0 g' = Ok None.
Proof.
  assert (forall n, bytes (replicate (Z.to_nat n) 0) /\ (0 <= n -> length (replicate (Z.to_nat n) 0) = Z.to_nat n)) as Hz by (intros n; split; [apply Forall_replicate; lia|intros _; apply length_replicate]).
  destruct (new_message_ok zeros Hz) as (g0 & E0 & _).
  destruct (message_roundtrip zeros Hz demo_fields 3 g0) as (g1 & E1 & H & _).
  - repeat constructor; vm_compute; (discriminate || reflexivity).
  - repeat constructor; vm_compute; discriminate.
  - destruct H as (g & l & g' & E2 & E3 & _ & E4 & _ & E5); [vm_compute; discriminate|]. assert (g1 = g0) as -> by congruence. exists g0, g, l, g'.
    split; [exact E1|]. split; [exact E2|]. split; [exact E3|]. split; [exact E4|]. rewrite !E5. vm_compute. done.
Defined.

End MsgProof.
