(* ===== verification/Namer.v ===== *)
(** The name service: srv/namer/namer.cpp, and lib/libblt/namer.cpp and Connection.cpp
  through which programs reach it.

  The kernel's ports (Port) carry a message as its bytes and the port it came from, and a
  receiver gets at most the size it asks for.  What a send and port_create return are
  parameters: a send that does not return the size of the message has not delivered it. *)
From S2P Require Import Prelude LibC Bytes Msg.
Import LibC Bytes Msg.
Local Open Scope Z_scope.
Local Open Scope c_scope.

Module Namer.

Definition NAMER_PORT : Z := 1.
Definition NAMER_FIND : Z := 1.
Definition NAMER_REGISTER : Z := 2.
Definition kReceiveSize : nat := 1024.

(** A list of ports with their names, each a block with a terminated string. *)
Record nentry := Nentry { port : Z; name : list Z }.

(** A string is an offset into a block; NULL is [None]. *)
Definition str := option (list Z * Z).

(** ** srv/namer/namer.cpp *)

Fixpoint find_name (l : list nentry) (m : list Z) (s : Z) : cres (option nentry) :=
  match l with
  | [] => Ok None
  | e :: l => let! c := strcmp (name e) 0 m s in if decide (c = 0) then Ok (Some e) else find_name l m s
  end.

Definition do_namer_find (first : list nentry) (n : str) : cres Z :=
  match n with
  | None => Ok (-1)
  | Some (m, s) => let! o := find_name first m s in Ok (match o with Some e => port e | None => -1 end)
  end.

Definition do_namer_register (first : list nentry) (p : Z) (n : str) : cres (Z * list nentry) :=
  match n with
  | None => Ok (-1, first)
  | Some (m, s) =>
      if decide (p < 1) then Ok (-1, first) else
      let! o := find_name first m s in
      match o with
      | Some _ => Ok (-1, first)
      | None => let! k := strlen m s in let! copy := fetch m s (Z.to_nat (k + 1)) in Ok (0, Nentry p copy :: first)
      end
  end.

Section kernel.
Context (fresh : Z -> list Z) (send : Z -> Z -> list Z -> Z) (new_port : Z).

(** ** Messages through ports *)

(** A message on its way: from, to, and its bytes. *)
Record packet := Packet { src : Z; dst : Z; body : list Z }.

(** Connection::Send: the packet, if it was delivered, and the result. *)
Definition Send (local remote : Z) (g : message) : cres (Z * option packet) :=
  let! l := GetPackedData g in
  let res := send local remote l in
  Ok (if decide (res = _length g) then (0, Some (Packet local remote l)) else (res, None)).

(** Connection::Recv of a packet that has come. *)
Definition Recv (p : packet) (g : message) : cres (Z * message) :=
  let buf := take kReceiveSize (body p) in PutPackedData fresh buf 0 (Z.of_nat (length buf)) (src p) g.

(** Message::Reply *)
Definition Reply (g reply : message) : cres (Z * option packet) :=
  if decide (0 < _reply_port g) then
    if decide (new_port < 0) then Ok (new_port, None) else
    let! l := fetch (_data reply) 0 (Z.to_nat (_length reply)) in
    let res := send new_port (_reply_port g) l in
    Ok (if decide (res = _length reply) then (0, Some (Packet new_port (_reply_port g) l)) else (res, None))
  else Ok (-1, None).

(** ** The loop of the server *)

Record namer := Server { first : list nentry; msg : message; reply : message }.

Definition start : cres namer :=
  let! (_, l) := do_namer_register [] NAMER_PORT (Some (cstr "namer" ++ [0], 0)) in
  let! m := new_message fresh in Ok (Server l m m).

(** One turn, on a packet: the reply, if one is sent.  [None]: the packet is not a message,
  and the server ends. *)
Definition serve (n : namer) (p : packet) : cres (option (namer * option packet)) :=
  let! (res, m) := Recv p (msg n) in
  if decide (res <> 0) then Ok None else
  let! (_, op) := GetInt32 (fourcc "code") (-1) m in
  let! (_, port) := GetInt32 (fourcc "port") (-1) m in
  let! (_, s) := GetString (fourcc "name") m in
  let name := match s with Some s => Some (_data m, s) | None => None end in
  let! (res, l) :=
    (if decide (op = NAMER_FIND) then let! res := do_namer_find (first n) name in Ok (res, first n)
     else if decide (op = NAMER_REGISTER) then do_namer_register (first n) port name
     else Ok (-1, first n)) in
  let! r := Empty (reply n) in
  let! r := PutInt32 fresh (fourcc "resp") res r in
  let! (_, out) := Reply m r in
  Ok (Some (Server l m r, out)).

(** ** Clients *)

(** Connection::Call to the server, which is waiting: the message, which holds the reply
  then, and the server.  [None]: there will be no reply, and the caller waits. *)
Definition Call (n : namer) (local : Z) (g : message) : cres (option (message * namer)) :=
  let! (res, out) := Send local NAMER_PORT g in
  match out with
  | None => Ok (Some (g, n))
  | Some p =>
      let! o := serve n p in
      match o with
      | None | Some (_, None) => Ok None
      | Some (n, Some q) => let! (_, g) := Recv q g in Ok (Some (g, n))
      end
  end.

(** The result of the calls: the number, and the server after it. *)
Definition resp (o : option (message * namer)) : cres (option (Z * namer)) :=
  match o with
  | None => Ok None
  | Some (g, n) => let! (_, res) := GetInt32 (fourcc "resp") (-1) g in Ok (Some (res, n))
  end.

(** The connection is one with a port of its own. *)
Definition namer_register (n : namer) (p : Z) (m : list Z) (s : Z) : cres (option (Z * namer)) :=
  let! g := new_message fresh in
  let! g := PutInt32 fresh (fourcc "code") NAMER_REGISTER g in
  let! g := PutInt32 fresh (fourcc "port") p g in
  let! g := PutString fresh (fourcc "name") m s g in
  let! o := Call n new_port g in resp o.

Definition namer_find (n : namer) (m : list Z) (s : Z) : cres (option (Z * namer)) :=
  let! g := new_message fresh in
  let! g := PutInt32 fresh (fourcc "code") NAMER_FIND g in
  let! g := PutString fresh (fourcc "name") m s g in
  let! o := Call n new_port g in resp o.

End kernel.

End Namer.
