(* ===== verification/NamerProof.v ===== *)
(** The name service (Namer) as programs see it: a directory of names. *)
From S2P Require Import Prelude LibC Bytes Msg MsgProof Namer.
Import LibC Bytes Msg MsgProof Namer.
Local Open Scope Z_scope.
Local Open Scope c_scope.

Module NamerProof.

(** ** Names and numbers *)

Definition text (n : list Z) : Prop := Forall (fun c => 0 < c < 256) n.
(** A registration with a name of 71 characters fills the 128 bytes of a new message, and a
  look-up with one of 87.  A longer name, up to 103 characters, is written beyond them. *)
Definition good_name (n : list Z) : Prop := text n /\ (length n <= 71)%nat.
Definition good_find (n : list Z) : Prop := text n /\ (length n <= 87)%nat.
Definition int32 (v : Z) : Prop := - 2 ^ 31 <= v < 2 ^ 31.

Lemma has_str m str : forall p, Forall (fun c => 0 < c < 256) str -> has m p (str ++ [0]) -> str_at m p str.
Proof.
  induction str as [|c str IH]; intros p Hs H; cbn [app str_at] in *; apply has_cons in H as [H1 H2]; [done|]. apply Forall_cons in Hs as [Hc Hs]. split_and!; [done|lia|lia|by apply IH].
Qed.

Lemma bytes_name n : text n -> bytes (n ++ [0]).
Proof. intros H. apply Forall_app. split; [eapply Forall_impl; [exact H|]; simpl; lia|by repeat constructor]. Qed.

Lemma s32_word v : int32 v -> s32 (unword (word v)) = v.
Proof. intros Hv. rewrite unword_word. unfold u32. rewrite <- (s32_small v) at 2 by exact Hv. apply s32_cong. apply Z.mod_mod. lia. Qed.

Definition int_field (id v : Z) : field := Field BLT_TYPE_INT32 id (word v).
Definition str_field (id : Z) (n : list Z) : field := Field BLT_TYPE_STRING id (n ++ [0]).

Lemma good_int id v : 0 <= id < 2 ^ 32 -> good_field (int_field id v).
Proof. intros Hi. split_and!; try done; try apply Hi. apply bytes_word. Qed.

Lemma len_str id n : f_len (str_field id n) = Z.of_nat (length n) + 1.
Proof. unfold f_len, str_field. cbn [f_data]. rewrite length_app. cbn [length]. lia. Qed.

Lemma good_str id n : 0 <= id < 2 ^ 32 -> text n -> (length n <= 103)%nat -> good_field (str_field id n).
Proof. intros Hi Hn Hl. pose proof (len_str id n). split_and!; try done; try apply Hi; [by apply bytes_name|lia]. Qed.

Lemma span_int id v : span (int_field id v) = 16.
Proof. done. Qed.

(** The bytes of the field are whole words. *)
Lemma span_str id n (k : nat) : (length n < 4 * k)%nat -> 12 < span (str_field id n) <= 12 + 4 * Z.of_nat k.
Proof.
  intros H. unfold span. pose proof (pad_bounds (f_len (str_field id n))). unfold pad in *. rewrite len_str in *. split; [lia|]. apply Z.add_le_mono_l, Z.mul_le_mono_nonneg_l; [lia|]. apply Z.lt_succ_r, Z.div_lt_upper_bound; lia.
Qed.

Lemma seen_int id v : seen [int_field id v] = [int_field id v].
Proof. reflexivity. Qed.

Lemma seen_str a b id n : seen [a; str_field id n] = [a; str_field id n] /\ seen [a; b; str_field id n] = [a; b; str_field id n].
Proof. pose proof (len_str id n). cbn [seen]. rewrite decide_False by lia. done. Qed.

Lemma ids : (0 <= fourcc "code" < 2 ^ 32 /\ 0 <= fourcc "port" < 2 ^ 32) /\ 0 <= fourcc "name" < 2 ^ 32 /\ 0 <= fourcc "resp" < 2 ^ 32.
Proof. split_and!; vm_compute; (discriminate || reflexivity). Qed.

(** ** The list of the server *)

(** A name and its port, as the server keeps it. *)
Definition entry (e : list Z * Z) : nentry := Nentry (snd e) (fst e ++ [0]).

Lemma find_name_ok m s n : forall es, str_at m s n -> Forall (fun e => good_name (fst e)) es ->
  find_name (map entry es) m s = Ok (option_map entry (List.find (fun e => bool_decide (fst e = n)) es)).
Proof.
  induction es as [|e es IH]; intros Hs Hg; [done|]. apply Forall_cons in Hg as [He Hg]. cbn [map find_name List.find entry name].
  destruct (strcmp_ok (fst e ++ [0]) 0 m s (fst e) n) as (c & -> & Hc); [apply has_str; [apply He|apply has_self]|done|]. cbn [cbind].
  destruct (decide (c = 0)) as [E|E]; [rewrite bool_decide_true by tauto; done|rewrite bool_decide_false by tauto; by apply IH].
Qed.

(** The directory: from names to ports. *)
Abbreviation directory := (gmap (list Z) Z).

Lemma find_map (n : list Z) : forall es : list (list Z * Z), (list_to_map es : directory) !! n = option_map snd (List.find (fun e => bool_decide (fst e = n)) es).
Proof.
  induction es as [|[a p] es IH]; [apply lookup_empty|]. rewrite list_to_map_cons. cbn [List.find fst]. destruct (decide (a = n)) as [->|Hn].
  - rewrite bool_decide_true by done. apply lookup_insert_eq.
  - rewrite bool_decide_false by done. etrans; [by apply lookup_insert_ne|exact IH].
Qed.

(** ** What the calls do to the directory *)

Inductive ncall :=
| NRegister (p : Z) (n : list Z)
| NFind (n : list Z).
Definition good_call (c : ncall) : Prop := match c with NRegister p n => int32 p /\ good_name n | NFind n => good_find n end.

Definition spec_call (d : directory) (c : ncall) : Z * directory :=
  match c with
  | NRegister p n =>
      if decide (p < 1) then (-1, d) else
      match d !! n with Some _ => (-1, d) | None => (0, <[n := p]> d) end
  | NFind n => (default (-1) (d !! n), d)
  end.
Fixpoint spec_calls (d : directory) (l : list ncall) : list Z * directory :=
  match l with [] => ([], d) | c :: l => let (r, d) := spec_call d c in let (rs, d) := spec_calls d l in (r :: rs, d) end.

(** The server's list is the directory. *)
Definition keeps (l : list nentry) (d : directory) : Prop :=
  exists es, l = map entry es /\ d = list_to_map es /\ Forall (fun e => good_name (fst e) /\ int32 (snd e)) es.

Lemma keeps_names es : Forall (fun e : list Z * Z => good_name (fst e) /\ int32 (snd e)) es -> Forall (fun e => good_name (fst e)) es.
Proof. intros H. eapply Forall_impl; [exact H|]. by intros e []. Qed.

Lemma do_namer_find_ok l d m s n : keeps l d -> str_at m s n -> exists r, do_namer_find l (Some (m, s)) = Ok r /\ r = (spec_call d (NFind n)).1 /\ int32 r.
Proof.
  intros (es & -> & -> & Hg) Hs. cbn [do_namer_find spec_call fst]. rewrite (find_name_ok m s n es Hs (keeps_names es Hg)), find_map. cbn [cbind]. eexists. split; [done|].
  destruct (List.find _ es) as [e|] eqn:E; cbn [option_map entry port default]; [|done]. split; [done|]. apply find_some in E as [E _]. rewrite Forall_forall in Hg. apply (Hg e). by apply list_elem_of_In.
Qed.

Lemma do_namer_register_ok l d p m s n : keeps l d -> str_at m s n -> good_name n -> int32 p ->
  exists l', do_namer_register l p (Some (m, s)) = Ok ((spec_call d (NRegister p n)).1, l') /\ keeps l' (spec_call d (NRegister p n)).2 /\ int32 (spec_call d (NRegister p n)).1.
Proof.
  intros K Hs Hn Hp. pose proof K as (es & -> & -> & Hg). cbn [do_namer_register spec_call]. destruct (decide (p < 1)); [by eexists|]. rewrite (find_name_ok m s n es Hs (keeps_names es Hg)), find_map. cbn [cbind].
  destruct (List.find _ es) as [e|] eqn:E; cbn [option_map fst snd]; [by eexists|]. rewrite (strlen_ok m s n Hs). cbn [cbind]. replace (Z.to_nat (Z.of_nat (length n) + 1)) with (length (n ++ [0])) by (rewrite length_app; cbn [length]; lia).
  rewrite fetch_has; [|clear -Hs; revert s Hs; induction n as [|c n IH]; intros s Hs; cbn [app str_at] in *; apply has_cons; [split; [done|]; intros i c Hi; by rewrite lookup_nil in Hi|destruct Hs as (H1 & _ & H2); by split; [|apply IH]]].
  cbn [cbind]. eexists. split; [reflexivity|]. split; [|done]. exists ((n, p) :: es). split_and!; [done|done|by constructor].
Qed.

(** ** The fields of messages *)

Lemma GetInt32_ok id old g fs : holds g fs ->
  GetInt32 id old g = Ok (match option_map snd (first_field (fun t i n => bool_decide (BLT_TYPE_INT32 = t /\ id = i /\ 4 = n)) 12 (seen fs)) with Some l => (0, s32 (unword l)) | None => (-1, old) end).
Proof. intros H. unfold GetInt32. by rewrite (GetData_ok _ _ _ _ _ H). Qed.

Definition request (c : ncall) : list field :=
  match c with
  | NRegister p n => [int_field (fourcc "code") NAMER_REGISTER; int_field (fourcc "port") p; str_field (fourcc "name") n]
  | NFind n => [int_field (fourcc "code") NAMER_FIND; str_field (fourcc "name") n]
  end.

Lemma room_request c : good_call c -> 0 <= room (request c) <= 116.
Proof. destruct c as [p n|n]; cbn [good_call request room]; rewrite !span_int; [intros [_ [_ H]]; pose proof (span_str (fourcc "name") n 18 ltac:(lia))|intros [_ H]; pose proof (span_str (fourcc "name") n 22 ltac:(lia))]; lia. Qed.

Lemma seen_request c : seen (request c) = request c.
Proof. destruct c; apply (seen_str _ (int_field 0 0)) || apply seen_str. Qed.

(** Fields of other types and identifiers are passed over. *)
Lemma field_skip hit x f fs : hit (f_type f) (f_id f) (f_len f) = false -> first_field hit x (f :: fs) = first_field hit (x + span f) fs.
Proof. intros E. cbn [first_field]. by rewrite E. Qed.

Lemma field_take hit x f fs : hit (f_type f) (f_id f) (f_len f) = true -> first_field hit x (f :: fs) = Some (x + 12, f_data f).
Proof. intros E. cbn [first_field]. by rewrite E. Qed.

Ltac fields := repeat (first [rewrite field_take by (vm_compute; reflexivity)|rewrite field_skip by (try (vm_compute; reflexivity); apply bool_decide_eq_false; intros (X & _); vm_compute in X; discriminate X)]).

(** What the server reads in the request of a call. *)
Definition opcode (c : ncall) : Z := match c with NRegister _ _ => NAMER_REGISTER | NFind _ => NAMER_FIND end.
Definition call_port (c : ncall) : Z := match c with NRegister p _ => p | NFind _ => -1 end.
Definition call_name (c : ncall) : list Z := match c with NRegister _ n | NFind n => n end.

Lemma read_code g c : holds g (request c) -> GetInt32 (fourcc "code") (-1) g = Ok (0, opcode c).
Proof. intros H. rewrite (GetInt32_ok _ _ _ _ H), seen_request. destruct c; cbn [request opcode]; fields; cbn [option_map snd int_field f_data]; by rewrite s32_word. Qed.

Lemma read_port g c : good_call c -> holds g (request c) -> exists r, GetInt32 (fourcc "port") (-1) g = Ok (r, call_port c).
Proof.
  intros Hc H. rewrite (GetInt32_ok _ _ _ _ H), seen_request. destruct c as [p n|n]; cbn [request call_port good_call] in *; fields; cbn [option_map snd int_field f_data first_field].
  - exists 0. rewrite s32_word by apply Hc. done.
  - exists (-1). done.
Qed.

Lemma read_name g c : good_call c -> holds g (request c) -> exists p, GetString (fourcc "name") g = Ok (0, Some p) /\ str_at (_data g) p (call_name c).
Proof.
  intros Hc H. assert (exists p, first_field (fun t i _ => bool_decide (BLT_TYPE_STRING = t /\ fourcc "name" = i)) 12 (request c) = Some (p, call_name c ++ [0])) as [p E].
  { destruct c as [q n|n]; cbn [request call_name]; eexists; do 2 (try rewrite field_skip by (vm_compute; reflexivity)); by rewrite field_take by (vm_compute; reflexivity). }
  exists p. unfold GetString, GetDataPtr. rewrite (search_fields _ _ _ H), seen_request, E. split; [done|]. apply has_str; [destruct c as [q n|n]; apply Hc|]. eapply first_field_has; [apply H|exact E].
Qed.

Section kernel.
Context (fresh : Z -> list Z) (send : Z -> Z -> list Z -> Z) (new_port : Z).
Hypothesis fresh_bytes : forall n, bytes (fresh n) /\ (0 <= n -> length (fresh n) = Z.to_nat n).
(** The kernel delivers messages and has ports. *)
Hypothesis send_all : forall s d l, send s d l = Z.of_nat (length l).
Hypothesis port_there : 0 < new_port < 2 ^ 31.

(** ** The request of a client *)

Lemma PutInt32_ok g fs id v : holds g fs -> 0 <= id < 2 ^ 32 -> roomy g (int_field id v) ->
  exists g', PutInt32 fresh id v g = Ok g' /\ holds g' (fs ++ [int_field id v]) /\ length (_data g') = length (_data g) /\ _available g' = _available g /\ _reply_port g' = _reply_port g.
Proof.
  intros H Hi Hr. apply (PutData_ok fresh g fs (int_field id v) (word v) 0 H (good_int id v Hi) Hr (bytes_word v) (has_self _)). unfold fits. cbn [int_field f_data]. rewrite length_word. lia.
Qed.

Lemma PutString_ok g fs id n : holds g fs -> 0 <= id < 2 ^ 32 -> text n -> (length n <= 103)%nat -> roomy g (str_field id n) ->
  exists g', PutString fresh id (n ++ [0]) 0 g = Ok g' /\ holds g' (fs ++ [str_field id n]) /\ length (_data g') = length (_data g) /\ _available g' = _available g /\ _reply_port g' = _reply_port g.
Proof.
  intros H Hi Hn Hl Hr. unfold PutString. rewrite (strlen_ok (n ++ [0]) 0 n) by (apply has_str; [apply Hn|apply has_self]). cbn [cbind].
  replace (u32 (Z.of_nat (length n) + 1)) with (f_len (str_field id n)) by (rewrite len_str, u32_small; lia).
  apply (PutData_ok fresh g fs (str_field id n) (n ++ [0]) 0 H (good_str id n Hi Hn Hl) Hr (bytes_name n Hn) (has_self _)). unfold fits. cbn [str_field f_data]. lia.
Qed.

(** The call as the library makes it. *)
Definition do_ncall (n : namer) (c : ncall) : cres (option (Z * namer)) :=
  match c with
  | NRegister p s => namer_register fresh send new_port n p (s ++ [0]) 0
  | NFind s => namer_find fresh send new_port n (s ++ [0]) 0
  end.

Lemma request_built n c : good_call c ->
  exists g, do_ncall n c = (let! o := Call fresh send new_port n new_port g in resp o) /\ holds g (request c).
Proof.
  intros Hc. destruct (new_message_ok fresh fresh_bytes) as (g0 & E0 & H0 & L0 & A0 & _). destruct ids as [[I1 I2] [I3 _]].
  destruct (PutInt32_ok g0 [] (fourcc "code") (opcode c) H0 I1) as (g1 & E1 & H1 & L1 & A1 & _); [split; rewrite ?span_int, ?(hd_length _ _ H0), ?L0; cbn [room]; lia|]. cbn [app] in H1. pose proof (hd_length _ _ H1) as D1. cbn [room] in D1. rewrite span_int in D1.
  destruct c as [p s|s]; cbn [do_ncall request good_call opcode] in *; unfold namer_register, namer_find; rewrite E0; cbn [cbind]; rewrite E1; cbn [cbind].
  - destruct Hc as [Hp Hs]. destruct Hs as [Hs Hsl]. pose proof (span_str (fourcc "name") s 18 ltac:(lia)) as Hsp.
    destruct (PutInt32_ok g1 _ (fourcc "port") p H1 I2) as (g2 & E2 & H2 & L2 & A2 & _); [split; rewrite ?span_int; lia|]. pose proof (hd_length _ _ H2) as D2. cbn [room app] in D2. rewrite !span_int in D2.
    rewrite E2. cbn [cbind]. destruct (PutString_ok g2 _ (fourcc "name") s H2 I3 Hs ltac:(lia)) as (g3 & E3 & H3 & _); [split; lia|]. exists g3. rewrite E3. split; [done|exact H3].
  - destruct Hc as [Hc Hsl]. pose proof (span_str (fourcc "name") s 22 ltac:(lia)) as Hsp. destruct (PutString_ok g1 _ (fourcc "name") s H1 I3 Hc ltac:(lia)) as (g3 & E3 & H3 & _); [split; lia|]. exists g3. rewrite E3. split; [done|exact H3].
Qed.

(** ** A packet that holds fields *)

Lemma Recv_ok g fs l a b g0 : holds g fs -> GetPackedData g = Ok l -> room fs <= 1012 ->
  exists g', Recv fresh (Packet a b l) g0 = Ok (0, g') /\ holds g' fs /\ _reply_port g' = a.
Proof.
  intros H E Hr. destruct (PutPackedData_ok fresh fresh_bytes g fs l a g0 H E) as [E' H']. pose proof E as El. rewrite (GetPackedData_ok g fs H) in El. injection El as El. pose proof (hd_fits _ _ H). pose proof (room_nonneg fs (hd_good _ _ H)).
  assert (length l <= kReceiveSize)%nat by (subst l; rewrite length_slice by (unfold fits; lia); unfold kReceiveSize; lia). unfold Recv. cbn [body src]. rewrite take_ge by done. eexists. by rewrite E'.
Qed.

(** ** The reply of the server *)

(** The message it is built in is large enough for a number. *)
Record replying (r : message) : Prop := {
  rp_data : 28 <= Z.of_nat (length (_data r)) < 2 ^ 31;
  rp_bytes : bytes (_data r);
  rp_head : has (_data r) 0 (word BLT_TYPE_MESSAGE ++ word BLT_ID_MESSAGE);
  rp_available : 0 <= _available r < 2 ^ 32
}.

Lemma Empty_ok r : replying r -> exists r', Empty r = Ok r' /\ holds r' [] /\ length (_data r') = length (_data r) /\ 0 <= _available r' < 2 ^ 32.
Proof.
  intros [H1 H2 H3 H4]. unfold Empty, st32. destruct (store_has (_data r) 8 (word 0) H2 (bytes_word 0)) as (m & -> & P & B & T); [unfold fits; rewrite length_word; lia|]. cbn [cbind]. pose proof (pt_len _ _ _ _ P) as L. eexists. split; [reflexivity|].
  cbn [_data _available]. split_and!; [|done|apply u32_range|apply u32_range]. split; cbn [_data _length room]; try done; try lia. rewrite app_assoc. apply has_app. split; [|exact T]. eapply has_out; [exact P|exact H3|rewrite length_app, !length_word; lia].
Qed.

(** The first bytes of a block that grows. *)
Lemma realloc_ok m n : bytes m -> 0 <= n -> length (realloc fresh m n) = Z.to_nat n /\ bytes (realloc fresh m n) /\ forall p l, has m p l -> 0 <= p -> p + Z.of_nat (length l) <= n -> has (realloc fresh m n) p l.
Proof.
  intros Hm Hn. destruct (fresh_bytes n) as [Fb Fl]. specialize (Fl Hn). unfold realloc. split_and!.
  - rewrite length_take, length_app, length_drop. lia.
  - apply Forall_take, Forall_app. split; [done|]. by apply Forall_drop.
  - intros p l H Hp Hl i c Hi. specialize (H i c Hi). apply lookup_lt_Some in Hi. apply aget_Some in H as [H1 H2]. unfold aget. rewrite decide_True by lia. rewrite lookup_take_lt by lia. by apply lookup_app_l_Some.
Qed.

Lemma put_resp r v : holds r [] -> 28 <= Z.of_nat (length (_data r)) -> 0 <= _available r < 2 ^ 32 ->
  exists r', PutInt32 fresh (fourcc "resp") v r = Ok r' /\ holds r' [int_field (fourcc "resp") v] /\ replying r'.
Proof.
  intros H Hd Ha. assert (forall r1, holds r1 [] -> 28 <= Z.of_nat (length (_data r1)) -> 16 <= _available r1 < 2 ^ 32 -> exists r', PutInt32 fresh (fourcc "resp") v r1 = Ok r' /\ holds r' [int_field (fourcc "resp") v] /\ replying r') as Hgo.
  { intros r1 G1 G2 G3. destruct ids as [_ [_ I4]]. destruct (PutInt32_ok r1 [] (fourcc "resp") v G1 I4) as (r2 & E & G & L & A & _); [split; rewrite ?span_int, ?(hd_length _ _ G1); cbn [room]; lia|].
    exists r2. split; [done|]. split; [exact G|]. split; [pose proof (hd_fits _ _ G1); lia|apply G| |lia]. pose proof (hd_head _ _ G) as T. rewrite app_assoc in T. by apply has_app in T as [T _]. }
  destruct (decide (_available r < 16)) as [Hs|Hs]; [|apply Hgo; [done|done|lia]].
  set (r1 := Message (realloc fresh (_data r) (140 + _available r)) 12 (_available r + 128) (_reply_port r)).
  assert (PutInt32 fresh (fourcc "resp") v r = PutInt32 fresh (fourcc "resp") v r1) as ->.
  { unfold PutInt32, PutData. change (chunk_size 4) with 16. rewrite decide_True by done. change (Z.to_nat 16) with 16%nat. cbn [grow]. rewrite decide_True by done. unfold GROW_BY. rewrite (u32_small (_available r + 128)) by lia. rewrite decide_False by lia.
    cbn [cbind]. rewrite decide_False by (cbn [r1 _available]; lia). pose proof (hd_length _ _ H) as D. cbn [room] in D. rewrite D, u32_small by lia. cbn [cbind r1 _data _length _available _reply_port]. by replace (12 + 0 + (_available r + 128)) with (140 + _available r) by lia. }
  destruct (realloc_ok (_data r) (140 + _available r) (hd_bytes _ _ H) ltac:(lia)) as (L & B & T). apply Hgo; cbn [r1 _data _length _available]; [|rewrite L; lia|lia].
  split; cbn [r1 _data _length room]; try done; [rewrite L; lia|]. apply T; [apply (hd_head _ _ H)|lia|rewrite !length_app, !length_word; lia].
Qed.

(** ** A call *)

Record ready (n : namer) (d : directory) : Prop := { rd_keeps : keeps (first n) d; rd_reply : replying (reply n) }.

(** What the server does with its list on a request. *)
Lemma answer l d g c q : good_call c -> keeps l d -> str_at (_data g) q (call_name c) ->
  exists l', (if decide (opcode c = NAMER_FIND) then let! res := do_namer_find l (Some (_data g, q)) in Ok (res, l)
    else if decide (opcode c = NAMER_REGISTER) then do_namer_register l (call_port c) (Some (_data g, q)) else Ok (-1, l)) = Ok ((spec_call d c).1, l') /\
    keeps l' (spec_call d c).2 /\ int32 (spec_call d c).1.
Proof.
  intros Hc K Hs. destruct c as [p n|n]; cbn [opcode call_port call_name good_call] in *.
  - rewrite decide_False by discriminate. rewrite decide_True by done. apply do_namer_register_ok; [done|done|apply Hc|apply Hc].
  - rewrite decide_True by done. destruct (do_namer_find_ok l d (_data g) q n K Hs) as (r & -> & -> & Hr). by exists l.
Qed.

Lemma namer_serve_ok n d g c l a b : ready n d -> good_call c -> holds g (request c) -> GetPackedData g = Ok l -> 0 < a ->
  exists n' k bs, serve fresh send new_port n (Packet a b l) = Ok (Some (n', Some (Packet new_port a bs))) /\ ready n' (spec_call d c).2 /\
    holds k [int_field (fourcc "resp") (spec_call d c).1] /\ GetPackedData k = Ok bs /\ int32 (spec_call d c).1.
Proof.
  intros [K R] Hc H E Ha. pose proof (room_request c Hc). destruct (Recv_ok g (request c) l a b (msg n) H E ltac:(lia)) as (m & Em & Hm & Pm). unfold serve. rewrite Em. cbn [cbind]. rewrite decide_False by (intros X; by apply X).
  rewrite (read_code m c Hm). cbn [cbind]. destruct (read_port m c Hc Hm) as [r0 ->]. cbn [cbind]. destruct (read_name m c Hc Hm) as (q & -> & Hs). cbn [cbind].
  destruct (answer (first n) d m c q Hc K Hs) as (l' & -> & K' & Hi). cbn [cbind]. destruct (Empty_ok (reply n) R) as (r1 & -> & H1 & L1 & A1). cbn [cbind].
  destruct (put_resp r1 (spec_call d c).1 H1) as (r2 & -> & H2 & R2); [rewrite L1; apply R|done|]. cbn [cbind]. unfold Reply. rewrite Pm, decide_True by done. rewrite decide_False by lia.
  pose proof (GetPackedData_ok r2 _ H2) as E2. unfold GetPackedData in E2. rewrite E2. cbn [cbind]. rewrite send_all. rewrite decide_True.
  - exists (Server l' m r2), r2. eexists. split; [reflexivity|]. split; [by split|]. split; [done|]. split; [exact E2|done].
  - rewrite (hd_length _ _ H2). pose proof (hd_fits _ _ H2) as F. cbn [room] in *. rewrite span_int in *. rewrite length_slice by (unfold fits; lia). lia.
Qed.

Lemma ncall_ok n d c : ready n d -> good_call c -> exists n', do_ncall n c = Ok (Some ((spec_call d c).1, n')) /\ ready n' (spec_call d c).2.
Proof.
  intros R Hc. destruct (request_built n c Hc) as (g & -> & H). pose proof (GetPackedData_ok g _ H) as E. pose proof (room_request c Hc). pose proof (hd_fits _ _ H) as F.
  destruct (namer_serve_ok n d g c _ new_port NAMER_PORT R Hc H E ltac:(lia)) as (n' & k & bs & Es & R' & Hk & Ek & Hi). exists n'. split; [|done]. unfold Call, Send. rewrite E. cbn [cbind]. rewrite send_all.
  rewrite decide_True by (rewrite (hd_length _ _ H), length_slice by (unfold fits; lia); lia). rewrite Es. cbn [cbind]. destruct (Recv_ok k _ bs new_port new_port g Hk Ek) as (g' & Eg & Hg & _); [cbn [room]; rewrite span_int; lia|].
  rewrite Eg. cbn [cbind resp]. rewrite (GetInt32_ok _ _ _ _ Hg), seen_int. fields. cbn [option_map snd int_field f_data cbind]. by rewrite s32_word.
Qed.

Fixpoint do_ncalls (n : namer) (l : list ncall) : cres (option (list Z * namer)) :=
  match l with
  | [] => Ok (Some ([], n))
  | c :: l =>
      let! o := do_ncall n c in
      match o with
      | None => Ok None
      | Some (r, n) => let! o := do_ncalls n l in Ok (match o with Some (rs, n) => Some (r :: rs, n) | None => None end)
      end
  end.

Lemma start_ready : exists n, start fresh = Ok n /\ ready n {[ cstr "namer" := NAMER_PORT ]}.
Proof.
  assert (str_at (cstr "namer" ++ [0]) 0 (cstr "namer")) as Hs by (apply has_str; [repeat constructor; lia|apply has_self]). assert (good_name (cstr "namer")) as Hn by (split; [repeat constructor; lia|vm_compute; lia]).
  destruct (do_namer_register_ok [] ∅ NAMER_PORT _ 0 (cstr "namer") ltac:(by exists []) Hs Hn ltac:(done)) as (l & E & K & _). unfold start. rewrite E. cbn [cbind]. destruct (new_message_ok fresh fresh_bytes) as (g & -> & H & L & A & _). cbn [cbind].
  eexists. split; [reflexivity|]. split; [exact K|]. cbn [reply]. pose proof (hd_head _ _ H) as T. rewrite app_assoc in T. apply has_app in T as [T _]. split; [rewrite L; lia|apply H|exact T|rewrite A; lia].
Qed.

(** Names that PutString writes beyond the message. *)
Definition overlong (c : ncall) : Prop :=
  match c with
  | NRegister p n => text n /\ (72 <= length n <= 103)%nat
  | NFind n => text n /\ (88 <= length n <= 103)%nat
  end.

Lemma PutString_overruns g fs id n : holds g fs -> 0 <= id < 2 ^ 32 -> text n -> (length n <= 103)%nat -> _available g = 116 -> Z.of_nat (length (_data g)) < _length g + 13 + Z.of_nat (length n) ->
  PutString fresh id (n ++ [0]) 0 g = Fault.
Proof.
  intros H Hi Hn Hl Ha Hd. unfold PutString. rewrite (strlen_ok (n ++ [0]) 0 n) by (apply has_str; [apply Hn|apply has_self]). cbn [cbind]. pose proof (len_str id n) as E. pose proof (span_str id n 26 ltac:(lia)).
  replace (u32 (Z.of_nat (length n) + 1)) with (f_len (str_field id n)) by (rewrite len_str, u32_small; lia). apply (PutData_overruns fresh g fs (str_field id n) (n ++ [0]) 0 H (good_str id n Hi Hn Hl)); [lia|lia|apply has_self].
Qed.

Lemma overlong_faults n c : overlong c -> do_ncall n c = Fault.
Proof.
  intros Hc. destruct (new_message_ok fresh fresh_bytes) as (g0 & E0 & H0 & L0 & A0 & _). destruct ids as [[I1 I2] [I3 _]].
  destruct (PutInt32_ok g0 [] (fourcc "code") (opcode c) H0 I1) as (g1 & E1 & H1 & L1 & A1 & _); [split; rewrite ?span_int, ?(hd_length _ _ H0), ?L0; cbn [room]; lia|]. cbn [app] in H1. pose proof (hd_length _ _ H1) as D1. cbn [room] in D1. rewrite span_int in D1.
  destruct c as [p s|s]; cbn [do_ncall overlong opcode] in *; destruct Hc as [Hc Hl]; unfold namer_register, namer_find; rewrite E0; cbn [cbind]; rewrite E1; cbn [cbind].
  - destruct (PutInt32_ok g1 _ (fourcc "port") p H1 I2) as (g2 & E2 & H2 & L2 & A2 & _); [split; rewrite ?span_int; lia|]. pose proof (hd_length _ _ H2) as D2. cbn [room app] in D2. rewrite !span_int in D2. rewrite E2. cbn [cbind].
    rewrite (PutString_overruns g2 _ (fourcc "name") s H2 I3 Hc); [done|lia|lia|lia].
  - rewrite (PutString_overruns g1 _ (fourcc "name") s H1 I3 Hc); [done|lia|lia|lia].
Qed.

(** C20. The name service end to end: programs register names of at most 71 characters and
  look up names of at most 87 through the library, in any order and any number of times;
  each call builds its message, sends it, the server unpacks it, compares the names and
  replies, and the program unpacks the reply.  The kernel delivers each message, and has a
  port for each call.  Every call returns, and the results are those of one directory that
  starts with the server's own name: a name keeps the first port it was registered with, a
  second registration and a port below 1 are refused, and an unknown name gives -1.  A call
  with a name beyond these lengths, up to 103 characters, overruns its message: PutData does
  not count down _available. *)
Theorem namer_directory l : Forall good_call l ->
  exists n0 n, start fresh = Ok n0 /\ do_ncalls n0 l = Ok (Some ((spec_calls {[ cstr "namer" := NAMER_PORT ]} l).1, n)) /\
    keeps (first n) (spec_calls {[ cstr "namer" := NAMER_PORT ]} l).2 /\
    forall c, overlong c -> do_ncall n c = Fault.
Proof.
  intros Hl. destruct start_ready as (n0 & E0 & R0). exists n0. revert n0 R0 E0. generalize ({[ cstr "namer" := NAMER_PORT ]} : directory) as d. intros d n0 R0 E0.
  enough (exists n, do_ncalls n0 l = Ok (Some ((spec_calls d l).1, n)) /\ keeps (first n) (spec_calls d l).2) as (n & E & K) by (exists n; split_and!; [done|done|done|intros c; apply overlong_faults]). clear E0. revert d n0 R0.
  induction Hl as [|c l Hc _ IH]; intros d n0 R0; cbn [do_ncalls spec_calls]; [exists n0; split; [done|apply R0]|].
  destruct (ncall_ok n0 d c R0 Hc) as (n1 & -> & R1). cbn [cbind]. destruct (spec_call d c) as [r d1]. cbn [fst snd] in *. destruct (IH d1 n1 R1) as (n & E & K). exists n. rewrite E. cbn [cbind]. destruct (spec_calls d1 l) as [rs d2]. done.
Qed.

End kernel.

(** A server is found once it has been registered, and cannot be replaced. *)
Definition demo_calls : list ncall := [NFind (cstr "window_server"); NRegister 55 (cstr "window_server"); NRegister 56 (cstr "window_server"); NFind (cstr "window_server"); NFind (cstr "namer")].

Lemma namer_directory_witness : exists n0 n, start (fun n => replicate (Z.to_nat n) 0) = Ok n0 /\
  do_ncalls (fun n => replicate (Z.to_nat n) 0) (fun _ _ l => Z.of_nat (length l)) 7 n0 demo_calls = Ok (Some ([-1; 0; -1; 55; 1], n)).
Proof.
  destruct (namer_directory (fun n => replicate (Z.to_nat n) 0) (fun _ _ l => Z.of_nat (length l)) 7) with (l := demo_calls) as (n0 & n & E0 & E & _).
  - intros n. split; [apply Forall_replicate; lia|intros _; apply length_replicate].
  - reflexivity.
  - lia.
  - repeat constructor; vm_compute; (discriminate || reflexivity || lia).
  - exists n0, n. split; [exact E0|exact E].
Defined.

End NamerProof.
