(* ===== verification/Mouse.v ===== *)
(** The mouse: srv/window/SerialMouse.cpp, which decodes the packets of the mouse, and the
  mouse thread of WindowManager.cpp, which moves the pointer and sends events to windows.

  The bytes of the serial port are a list; reading when there is none waits ([None]).  The
  thread shares [wm] with the dispatch thread (Wm). *)
From S2P Require Import Prelude LibC Region Line Win WinProof WinRun WinSafe Wm.
Import LibC Region Line Win Wm.
Local Open Scope Z_scope.
Local Open Scope c_scope.

Module Mouse.

(** ** SerialMouse.cpp *)

Record serial_mouse := SMouse { fXPos : Z; fYPos : Z; fXMax : Z; fYMax : Z }.
Definition new_mouse (xmax ymax : Z) : serial_mouse := SMouse (xmax ÷ 2) (ymax ÷ 2) xmax ymax.

(** The loop until the beginning of a packet. *)
Fixpoint sync (l : list Z) : option (Z * list Z) :=
  match l with
  | [] => None
  | b :: l => if decide (Z.land (schar b) (Z.shiftl 1 6) <> 0) then Some (schar b, l) else sync l
  end.
Definition clip (v hi : Z) : Z := Z.max (Z.min v hi) 0.
Definition GetPos (s : serial_mouse) (l : list Z) : option (serial_mouse * (Z * Z * Z) * list Z) :=
  match sync l with
  | Some (b1, b2 :: b3 :: l) =>
      let b2 := schar b2 in let b3 := schar b3 in
      let x := s32 (fXPos s + schar (u8 (Z.lor (Z.shiftl b1 6) (Z.land b2 63)))) in
      let y := s32 (fYPos s + schar (u8 (Z.lor (Z.land (Z.shiftl b1 4) 192) (Z.land b3 63)))) in
      let s := SMouse (clip x (fXMax s)) (clip y (fYMax s)) (fXMax s) (fYMax s) in
      Some (s, (fXPos s, fYPos s, Z.land (Z.shiftr b1 4) 3), l)
  | _ => None
  end.

(** A packet of the mouse, as the comment of the source has it. *)
Definition packet (dx dy buttons : Z) : list Z :=
  [64 + 16 * buttons + 4 * (u8 dy / 64) + u8 dx / 64; u8 dx mod 64; u8 dy mod 64].

(** Bytes that are not the beginning of a packet are skipped, and the movement of a packet
  is added within the screen. *)
Definition idle_byte (b : Z) : Prop := 0 <= b < 256 /\ Z.testbit b 6 = false.

Lemma land_bit6 b : 0 <= b < 256 -> Z.land (schar b) (Z.shiftl 1 6) = 0 <-> Z.testbit b 6 = false.
Proof.
  intros Hb. assert (Z.testbit (schar b) 6 = Z.testbit b 6) as E.
  { unfold schar. case_decide; [done|]. replace (b - 256) with (b + (-4) * 2 ^ 6) by lia. rewrite !Z.testbit_eqb by lia. rewrite Z.div_add by lia. f_equal. replace (b / 2 ^ 6 + -4) with (b / 2 ^ 6 + (-2) * 2) by lia. by rewrite Z.mod_add by lia. }
  change (Z.shiftl 1 6) with (2 ^ 6). rewrite <- E. split.
  - intros H. pose proof (Z.land_spec (schar b) (2 ^ 6) 6) as S. rewrite H, Z.bits_0, Z.pow2_bits_true, andb_true_r in S by lia. done.
  - intros H. apply Z.bits_inj'. intros k Hk. rewrite Z.land_spec, Z.bits_0. destruct (decide (k = 6)) as [->|Hn]; [by rewrite H|]. rewrite Z.pow2_bits_false by lia. apply andb_false_r.
Qed.

Lemma sync_idle l k : Forall idle_byte l -> sync (l ++ k) = sync k.
Proof. induction 1 as [|b l [H1 H2] _ IH]; [done|]. cbn [app sync]. rewrite decide_False; [done|]. intros H. apply H. by apply land_bit6. Qed.

Lemma packet_bits : forall a b c, 0 <= a < 4 -> 0 <= b < 4 -> 0 <= c < 4 -> let b1 := 64 + 16 * a + 4 * b + c in
  Z.land (schar b1) (Z.shiftl 1 6) <> 0 /\ u8 (Z.shiftl (schar b1) 6) = 64 * c /\ Z.land (Z.shiftl (schar b1) 4) 192 = 64 * b /\ Z.land (Z.shiftr (schar b1) 4) 3 = a.
Proof.
  intros a b c Ha Hb Hc. assert (a = 0 \/ a = 1 \/ a = 2 \/ a = 3) as Ea by lia. assert (b = 0 \/ b = 1 \/ b = 2 \/ b = 3) as Eb by lia. assert (c = 0 \/ c = 1 \/ c = 2 \/ c = 3) as Ec by lia.
  destruct Ea as [->|[->|[->| ->]]]; destruct Eb as [->|[->|[->| ->]]]; destruct Ec as [->|[->|[->| ->]]]; vm_compute; (split; [discriminate|split; [reflexivity|split; reflexivity]]).
Qed.

(** The two high bits and the six low bits of a byte. *)
Lemma join_bits h l : 0 <= h < 4 -> 0 <= l < 64 -> Z.lor (64 * h) l = 64 * h + l.
Proof.
  intros Hh Hl. symmetry. assert (Z.land (64 * h) l = 0) as E; [|rewrite Z.add_nocarry_lxor by exact E; by apply Z.lxor_lor].
  replace l with (Z.land l (Z.ones 6)) by (rewrite Z.land_ones by lia; by apply Z.mod_small). rewrite (Z.land_comm l), Z.land_assoc. rewrite Z.land_ones by lia. rewrite Z.mul_comm. change 64 with (2 ^ 6). rewrite Z.mod_mul by lia. done.
Qed.

Lemma u8_lor a l : 0 <= l < 64 -> u8 (Z.lor a l) = Z.lor (u8 a) l.
Proof.
  intros Hl. unfold u8. rewrite <- !Z.land_ones by lia. rewrite Z.land_lor_distr_l. f_equal. rewrite Z.land_ones by lia. apply Z.mod_small. lia.
Qed.

Lemma low_bits v : 0 <= v < 64 -> Z.land (schar v) 63 = v.
Proof. intros Hv. unfold schar. rewrite decide_True by lia. change 63 with (Z.ones 6). rewrite Z.land_ones by lia. by apply Z.mod_small. Qed.

Lemma schar_byte d : -128 <= d < 128 -> schar (u8 d) = d.
Proof. unfold schar, u8. intros Hc. destruct (decide (0 <= d)); [rewrite Z.mod_small by lia; rewrite decide_True by lia; done|]. replace (d mod 2 ^ 8) with (d + 256) by (apply (Z.mod_unique d (2 ^ 8) (-1)); lia). rewrite decide_False by lia. lia. Qed.

Record on_screen (s : serial_mouse) : Prop := { os_x : 0 <= fXPos s <= fXMax s; os_y : 0 <= fYPos s <= fYMax s; os_max : fXMax s < 2 ^ 30 /\ fYMax s < 2 ^ 30 }.

(** Whatever bytes came before it that begin no packet, a packet moves the position by what
  it says, as far as the screen goes, and tells the buttons. *)
Theorem packet_read s idle dx dy buttons rest : on_screen s -> Forall idle_byte idle -> -128 <= dx < 128 -> -128 <= dy < 128 -> 0 <= buttons < 4 ->
  exists s', GetPos s (idle ++ packet dx dy buttons ++ rest) = Some (s', (clip (fXPos s + dx) (fXMax s), clip (fYPos s + dy) (fYMax s), buttons), rest) /\ on_screen s'.
Proof.
  intros [Hx Hy Hm] Hi Hdx Hdy Hb. pose proof (u8_range dx) as Rx. pose proof (u8_range dy) as Ry. pose proof (Z.div_mod (u8 dx) 64 ltac:(lia)) as Dx. pose proof (Z.div_mod (u8 dy) 64 ltac:(lia)) as Dy.
  pose proof (Z.mod_pos_bound (u8 dx) 64 ltac:(lia)) as Mx. pose proof (Z.mod_pos_bound (u8 dy) 64 ltac:(lia)) as My. assert (0 <= u8 dx / 64 < 4) as Qx by lia. assert (0 <= u8 dy / 64 < 4) as Qy by lia.
  destruct (packet_bits buttons (u8 dy / 64) (u8 dx / 64) Hb Qy Qx) as (B1 & B2 & B3 & B4). unfold GetPos. rewrite sync_idle by done. cbn [packet app sync]. rewrite decide_True by exact B1.
  rewrite !low_bits by lia. rewrite u8_lor, B2, B3, B4 by lia. rewrite !join_bits by lia. rewrite <- Dx, <- Dy. rewrite (u8_small (u8 dy)) by apply u8_range. rewrite !schar_byte by done. rewrite !s32_small by lia.
  eexists. split; [reflexivity|]. split; cbn [fXPos fYPos fXMax fYMax]; unfold clip; lia.
Qed.

(** ** The mouse thread *)

Definition EVT_MOUSE_DOWN : Z := 3.
Definition EVT_MOUSE_UP : Z := 4.
Definition EVT_MOUSE_MOVED : Z := 5.
Definition EVT_MOUSE_ENTER : Z := 6.
Definition EVT_MOUSE_LEAVE : Z := 7.

(** A leave event has no position. *)
Record event := Event { what : Z; target : Z; pos : option (Z * Z) }.

(** The variables of the thread, where the pointer is, and the events that were sent. *)
Record mouse := MT {
  fCurrentMouseFocus : option nat;
  fInFocusLockedWindow : bool;
  last_cx : Z; last_cy : Z; last_buttons : Z;
  cursor : Z * Z;
  events : list event
}.
Definition new_thread : mouse := MT None false 160 100 0 (0, 0) [].
Definition set_focus (f : option nat) (t : mouse) : mouse := MT f (fInFocusLockedWindow t) (last_cx t) (last_cy t) (last_buttons t) (cursor t) (events t).
Definition set_inside (b : bool) (t : mouse) : mouse := MT (fCurrentMouseFocus t) b (last_cx t) (last_cy t) (last_buttons t) (cursor t) (events t).
Definition set_last (cx cy : Z) (t : mouse) : mouse := MT (fCurrentMouseFocus t) (fInFocusLockedWindow t) cx cy (last_buttons t) (cx, cy) (events t).
Definition set_buttons (b : Z) (t : mouse) : mouse := MT (fCurrentMouseFocus t) (fInFocusLockedWindow t) (last_cx t) (last_cy t) b (cursor t) (events t).
Definition add_event (e : event) (t : mouse) : mouse := MT (fCurrentMouseFocus t) (fInFocusLockedWindow t) (last_cx t) (last_cy t) (last_buttons t) (cursor t) (events t ++ [e]).
Definition set_bounds (r : rect) (m : wm) : wm := WM (windows m) (fWindowArray m) (fNextWindowID m) r (fMouseFocusLocked m) (sent m).
Definition unlock (m : wm) : wm := WM (windows m) (fWindowArray m) (fNextWindowID m) (fMouseBoundries m) false (sent m).

(** PostEvent of an event with a position, and of one without. *)
Definition PostEvent (m : wm) (w : option nat) (kind cx cy : Z) (t : mouse) : cres mouse :=
  let? w := w in
  let! v := get (windows m) w in
  let! f := LocalToScreen (windows m) w (WindowBounds v) in
  Ok (add_event (Event kind (fID v) (Some (s32 (cx - left f), s32 (cy - top f)))) t).
Definition PostLeave (m : wm) (w : option nat) (t : mouse) : cres mouse :=
  let? w := w in let! v := get (windows m) w in Ok (add_event (Event EVT_MOUSE_LEAVE (fID v) None) t).

Definition WindowAtPoint (m : wm) (x y : Z) : cres nat :=
  let! o := LookupWindow m 0 in let? root := o in ChildAtPoint (windows m) root x y (S (size (wins (windows m)))).

(** [ClipRegion().FindRect(cx, cy, fMouseBoundries)] *)
Definition find_bounds (m : wm) (w : nat) (cx cy : Z) : cres wm :=
  let! v := get (windows m) w in
  Ok (match FindRect (fClipRegion v) cx cy with Some r => set_bounds r m | None => m end).

(** The window below the pointer, when it may have changed. *)
Definition refocus (m : wm) (t : mouse) (cx cy : Z) : cres (wm * mouse) :=
  if decide (fCurrentMouseFocus t = None \/ Contains (fMouseBoundries m) cx cy = false) then
    let! w := WindowAtPoint m cx cy in
    if fMouseFocusLocked m then
      let! t :=
        (if decide (Some w = fCurrentMouseFocus t /\ fInFocusLockedWindow t = false) then
           let! t := PostEvent m (fCurrentMouseFocus t) EVT_MOUSE_ENTER cx cy t in Ok (set_inside true t)
         else if decide (Some w <> fCurrentMouseFocus t /\ fInFocusLockedWindow t = true) then
           let! t := PostLeave m (fCurrentMouseFocus t) t in Ok (set_inside false t)
         else Ok t) in
      let! m := find_bounds m w cx cy in Ok (m, t)
    else let! m := find_bounds m w cx cy in Ok (m, set_focus (Some w) t)
  else Ok (m, t).

Definition moved (m : wm) (t : mouse) (cx cy : Z) : cres (wm * mouse) :=
  let t := set_last cx cy t in
  let old := fCurrentMouseFocus t in
  let! (m, t) := refocus m t cx cy in
  if decide (old = fCurrentMouseFocus t) then
    let! t := PostEvent m (fCurrentMouseFocus t) EVT_MOUSE_MOVED cx cy t in Ok (m, t)
  else
    let! t := (match old with Some _ => PostLeave m old t | None => Ok t end) in
    let! t := PostEvent m (fCurrentMouseFocus t) EVT_MOUSE_ENTER cx cy t in Ok (m, t).

(** One turn of the loop, with what the mouse reports. *)
Definition turn (m : wm) (t : mouse) (cx cy buttons : Z) : cres (wm * mouse) :=
  let! (m, t) := (if decide (last_cx t <> cx \/ last_cy t <> cy) then moved m t cx cy else Ok (m, t)) in
  if decide (buttons <> last_buttons t /\ fCurrentMouseFocus t <> None) then
    let m := (if decide (buttons = 0 /\ fMouseFocusLocked m = true) then unlock (InvalidateMouseBoundries m) else m) in
    let! t := PostEvent m (fCurrentMouseFocus t) (if decide (buttons <> 0) then EVT_MOUSE_DOWN else EVT_MOUSE_UP) cx cy t in
    Ok (m, set_buttons buttons t)
  else Ok (m, t).

(** ** The window below a point *)

Import WinProof WinRun WinSafe.

Lemma child_at_ok s x y : forall ts fuel, linked s ts -> (length ts <= fuel)%nat ->
  exists o, child_at s (head (map root ts)) x y fuel = Ok o /\ match o with None => True | Some (c, _, _) => exists t, t ∈ ts /\ root t = c end.
Proof.
  induction ts as [|t ts IH]; intros fuel Hl Hf; [destruct fuel; by exists None|]. destruct fuel as [|fuel]; [simpl in Hf; lia|]. destruct Hl as [(v & Hv & En) Hl]. cbn [map head child_at]. rewrite (get_fine _ _ _ Hv). cbn [cbind].
  destruct (Contains _ _ _); [eexists; split; [done|]; exists t; by split; [left|]|]. rewrite En. destruct (IH fuel Hl ltac:(simpl in Hf; lia)) as (o & E & Ho). exists o. split; [exact E|].
  destruct o as [[[c ?] ?]|]; [|done]. destruct Ho as (t' & Ht & Er). exists t'. by split; [right|].
Qed.

Lemma ChildAtPoint_ok s : forall t pa x y fuel, shaped s pa t -> (length (ids t) <= size (wins s))%nat -> (length (ids t) <= fuel)%nat ->
  exists w, ChildAtPoint s (root t) x y fuel = Ok w /\ w ∈ ids t.
Proof.
  induction t as [w ts IH] using tree_ind'. intros pa x y fuel ((v & Hv & _ & Ec & _) & Hl & Hts)%shaped_node Hs Hf. simpl in Hs, Hf. pose proof (length_kids ts). destruct fuel as [|fuel]; [lia|].
  cbn [root ChildAtPoint]. rewrite (get_fine _ _ _ Hv). cbn [cbind]. rewrite Ec. destruct (child_at_ok s x y ts (S (size (wins s))) Hl ltac:(lia)) as (o & -> & Ho). cbn [cbind].
  destruct o as [[[c x'] y']|]; [|exists w; split; [done|by left]]. destruct Ho as (t' & Ht & <-). rewrite Forall_forall in IH, Hts.
  assert (length (ids t') <= length (ts ≫= ids))%nat as Hk by (apply list_elem_of_split in Ht as (l1 & l2 & ->); rewrite bind_app, bind_cons, !length_app; lia).
  destruct (IH t' Ht (Some w) x' y' fuel (Hts t' Ht) ltac:(lia) ltac:(lia)) as (u & E & Hu). exists u. split; [exact E|]. by eapply ids_sub.
Qed.

(** The window server between the turns: laid out, with the root window in its place. *)
Record good_wm (scr : rect) (m : wm) : Prop := {
  gw_served : served scr (windows m);
  gw_root : fWindowArray m !! 0%nat = Some (Some 0%nat);
  gw_id : exists v, wins (windows m) !! 0%nat = Some v /\ fID v = 0
}.

Lemma ids_in_tree scr t s x : wok scr t s -> root t = 0%nat -> x ∈ ids t -> in_tree s x.
Proof.
  intros Hw Hr Hx. destruct (shaped_parent s t None x (wk_shaped _ _ _ Hw) Hx) as (v & Hv & _ & [[E _]|(p & _ & E)]); exists v; (split; [done|]); [left; congruence|right; congruence].
Qed.

Lemma WindowAtPoint_ok scr m x y : good_wm scr m -> exists w, WindowAtPoint m x y = Ok w /\ in_tree (windows m) w.
Proof.
  intros [(t & Hw & Hr) Ha (v & Hv & Ei)]. unfold WindowAtPoint, LookupWindow. change (slot 0) with (Ok 0%nat). cbn [cbind]. rewrite Ha, (get_fine _ _ _ Hv). cbn [cbind]. rewrite decide_True by done. cbn [cbind deref].
  pose proof (ids_bound (ids t) (windows m) (wk_nodup _ _ _ Hw) (shaped_dom _ t None (wk_shaped _ _ _ Hw))) as Hb. destruct (ChildAtPoint_ok (windows m) t None x y (S (size (wins (windows m)))) (wk_shaped _ _ _ Hw) Hb ltac:(lia)) as (w & E & Hin).
  rewrite Hr in E. exists w. split; [exact E|]. by eapply ids_in_tree.
Qed.

Lemma PostEvent_ok scr m w kind cx cy t : good_wm scr m -> in_tree (windows m) w ->
  exists v p, wins (windows m) !! w = Some v /\ PostEvent m (Some w) kind cx cy t = Ok (add_event (Event kind (fID v) (Some p)) t).
Proof.
  intros [(tr & Hw & Hr) _ _] Hin. pose proof (in_tree_ids scr tr (windows m) w Hw Hr Hin) as Hid. destruct Hin as (v & Hv & _). exists v. destruct (located (windows m) tr 1 w (WindowBounds v) (wk_shaped _ _ _ Hw) (wk_nodup _ _ _ Hw) Hid) as [f E].
  fold (LocalToScreen (windows m) w (WindowBounds v)) in E. eexists. split; [done|]. unfold PostEvent. cbn [deref cbind]. rewrite (get_fine _ _ _ Hv). cbn [cbind]. rewrite E. reflexivity.
Qed.

(** ** What windows see *)

(** The window the pointer is in, as the events tell: an enter event comes when it is in
  none, the others to the window it is in. *)
Definition watch (o : option (option Z)) (e : event) : option (option Z) :=
  match o with
  | None => None
  | Some inside =>
      if decide (what e = EVT_MOUSE_ENTER) then if decide (inside = None) then Some (Some (target e)) else None
      else if decide (inside = Some (target e)) then Some (if decide (what e = EVT_MOUSE_LEAVE) then None else inside) else None
  end.
Definition inside (l : list event) : option (option Z) := fold_left watch l (Some None).

Lemma inside_snoc l e : inside (l ++ [e]) = watch (inside l) e.
Proof. unfold inside. by rewrite fold_left_app. Qed.

Lemma watch_enter i p : watch (Some None) (Event EVT_MOUSE_ENTER i p) = Some (Some i).
Proof. done. Qed.
Lemma watch_leave i p : watch (Some (Some i)) (Event EVT_MOUSE_LEAVE i p) = Some None.
Proof. unfold watch. cbn [what target]. rewrite decide_False by done. by rewrite !decide_True by done. Qed.
Lemma watch_other kind i p : kind <> EVT_MOUSE_ENTER -> kind <> EVT_MOUSE_LEAVE -> watch (Some (Some i)) (Event kind i p) = Some (Some i).
Proof. intros H1 H2. unfold watch. cbn [what target]. rewrite decide_False by done. rewrite decide_True by done. by rewrite decide_False by done. Qed.

Definition focus_id (m : wm) (t : mouse) : option Z := match fCurrentMouseFocus t with Some w => fID <$> wins (windows m) !! w | None => None end.

(** The events of the thread and its focus agree. *)
Record minv (m : wm) (t : mouse) : Prop := {
  mi_focus : forall w, fCurrentMouseFocus t = Some w -> in_tree (windows m) w;
  mi_inside : inside (events t) = Some (focus_id m t)
}.

Lemma find_bounds_ok m w cx cy : in_tree (windows m) w -> exists m', find_bounds m w cx cy = Ok m' /\ windows m' = windows m /\ fWindowArray m' = fWindowArray m /\ fMouseFocusLocked m' = fMouseFocusLocked m.
Proof. intros (v & Hv & _). unfold find_bounds. rewrite (get_fine _ _ _ Hv). cbn [cbind]. eexists. split; [done|]. by destruct (FindRect _ _ _). Qed.

Lemma good_same scr m m' : good_wm scr m -> windows m' = windows m -> fWindowArray m' = fWindowArray m -> good_wm scr m'.
Proof. intros [H1 H2 H3] Ew Ea. split; by rewrite ?Ew, ?Ea. Qed.

(** The part of a turn that follows the pointer. *)
Lemma moved_ok scr m t cx cy : good_wm scr m -> fMouseFocusLocked m = false -> minv m t ->
  exists m' t', moved m t cx cy = Ok (m', t') /\ windows m' = windows m /\ fWindowArray m' = fWindowArray m /\ fMouseFocusLocked m' = false /\ minv m' t' /\ fCurrentMouseFocus t' <> None /\ cursor t' = (cx, cy).
Proof.
  intros Hg Hu [Hf Hi]. unfold moved. set (t0 := set_last cx cy t). unfold refocus. rewrite Hu.
  assert (exists m1 w, (if decide (fCurrentMouseFocus t0 = None \/ Contains (fMouseBoundries m) cx cy = false) then let! w := WindowAtPoint m cx cy in let! m := find_bounds m w cx cy in Ok (m, set_focus (Some w) t0) else Ok (m, t0)) = Ok (m1, set_focus (Some w) t0) /\
    windows m1 = windows m /\ fWindowArray m1 = fWindowArray m /\ fMouseFocusLocked m1 = false /\ in_tree (windows m) w) as (m1 & w & -> & Ew & Ea & El & Hw).
  { case_decide as Hd.
    - destruct (WindowAtPoint_ok scr m cx cy Hg) as (w & -> & Hw). cbn [cbind]. destruct (find_bounds_ok m w cx cy Hw) as (m1 & -> & E1 & E2 & E3). exists m1, w. split_and!; [done|done|done|congruence|done].
    - destruct (fCurrentMouseFocus t) as [w|] eqn:E; [|exfalso; apply Hd; by left]. exists m, w. split_and!; try done; [|by apply Hf]. destruct t. simpl in *. by subst. }
  cbn [cbind]. pose proof (good_same _ _ _ Hg Ew Ea) as Hg1. rewrite <- Ew in Hw. change (fCurrentMouseFocus (set_focus (Some w) t0)) with (Some w). change (fCurrentMouseFocus t0) with (fCurrentMouseFocus t). destruct Hg1 as [G1 G2 G3]. assert (good_wm scr m1) as Hg1 by (by split).
  unfold focus_id in Hi. case_decide as Hd.
  - destruct (PostEvent_ok scr m1 w EVT_MOUSE_MOVED cx cy (set_focus (Some w) t0) Hg1 Hw) as (v & p & Hv & ->). cbn [cbind]. do 2 eexists. split; [reflexivity|]. split_and!; try done. split; [by intros u [= <-]|].
    cbn [add_event events]. rewrite inside_snoc. cbn [set_focus t0 set_last events]. rewrite Hi, Hd, <- Ew, Hv. unfold focus_id. cbn [fCurrentMouseFocus add_event set_focus]. rewrite Hv. by apply watch_other.
  - assert (exists t1, (match fCurrentMouseFocus t with Some _ => PostLeave m1 (fCurrentMouseFocus t) (set_focus (Some w) t0) | None => Ok (set_focus (Some w) t0) end) = Ok t1 /\ inside (events t1) = Some None /\ fCurrentMouseFocus t1 = Some w /\ cursor t1 = (cx, cy)) as (t1 & -> & I1 & F1 & C1).
    { destruct (fCurrentMouseFocus t) as [o|] eqn:Eo; [|by eexists]. destruct (Hf o eq_refl) as (vo & Hvo & _). unfold PostLeave. cbn [deref cbind]. rewrite Ew. rewrite (get_fine _ _ _ Hvo). cbn [cbind]. eexists. split; [reflexivity|].
      cbn [add_event events fCurrentMouseFocus cursor set_focus t0 set_last]. split_and!; [|done|done]. rewrite inside_snoc, Hi, Hvo. apply watch_leave. }
    cbn [cbind]. rewrite F1. destruct (PostEvent_ok scr m1 w EVT_MOUSE_ENTER cx cy t1 Hg1 Hw) as (v & p & Hv & ->). cbn [cbind]. do 2 eexists. split; [reflexivity|]. cbn [add_event cursor fCurrentMouseFocus]. rewrite F1. split_and!; try done. split; cbn [add_event fCurrentMouseFocus events].
    + rewrite F1. by intros u [= <-].
    + rewrite inside_snoc, I1. unfold focus_id. cbn [add_event fCurrentMouseFocus]. rewrite F1, Hv. done.
Qed.

Lemma turn_ok scr m t cx cy b : good_wm scr m -> fMouseFocusLocked m = false -> minv m t ->
  exists m' t', turn m t cx cy b = Ok (m', t') /\ windows m' = windows m /\ fWindowArray m' = fWindowArray m /\ fMouseFocusLocked m' = false /\ minv m' t'.
Proof.
  intros Hg Hu Hm. unfold turn. assert (exists m1 t1, (if decide (last_cx t <> cx \/ last_cy t <> cy) then moved m t cx cy else Ok (m, t)) = Ok (m1, t1) /\ windows m1 = windows m /\ fWindowArray m1 = fWindowArray m /\ fMouseFocusLocked m1 = false /\ minv m1 t1) as (m1 & t1 & -> & Ew & Ea & El & [Hf Hi]).
  { case_decide; [|by exists m, t]. destruct (moved_ok scr m t cx cy Hg Hu Hm) as (m1 & t1 & E1 & E2 & E3 & E4 & E5 & _). by exists m1, t1. }
  cbn [cbind]. case_decide as Hb; [|by exists m1, t1]. rewrite decide_False by (intros [_ E]; congruence). destruct (fCurrentMouseFocus t1) as [w|] eqn:Efo; [|by destruct Hb].
  destruct (PostEvent_ok scr m1 w (if decide (b <> 0) then EVT_MOUSE_DOWN else EVT_MOUSE_UP) cx cy t1 (good_same _ _ _ Hg Ew Ea) (Hf w eq_refl)) as (v & p & Hv & ->). cbn [cbind]. do 2 eexists. split; [reflexivity|]. split_and!; try done.
  split; cbn [set_buttons add_event fCurrentMouseFocus events]; [by rewrite Efo|]. rewrite inside_snoc, Hi. unfold focus_id. cbn [set_buttons add_event fCurrentMouseFocus]. rewrite Efo, Hv. apply watch_other; by case_decide.
Qed.

(** The dispatch thread between two turns: it may do anything that leaves the server laid
  out, keeps the windows with their identifiers and does not lock the mouse. *)
Definition others (scr : rect) (m m' : wm) : Prop :=
  good_wm scr m' /\ fMouseFocusLocked m' = false /\
  forall w v, wins (windows m) !! w = Some v -> in_tree (windows m) w -> in_tree (windows m') w /\ fID <$> wins (windows m') !! w = Some (fID v).

Inductive mreach (scr : rect) : wm -> mouse -> Prop :=
| mr_start m : good_wm scr m -> fMouseFocusLocked m = false -> mreach scr m new_thread
| mr_turn m t cx cy b m' t' : mreach scr m t -> turn m t cx cy b = Ok (m', t') -> mreach scr m' t'
| mr_other m t m' : mreach scr m t -> others scr m m' -> mreach scr m' t.

Lemma mreach_inv scr m t : mreach scr m t -> good_wm scr m /\ fMouseFocusLocked m = false /\ minv m t.
Proof.
  induction 1 as [m Hg Hu|m t cx cy b m' t' _ (Hg & Hu & Hm) E|m t m' _ (Hg & Hu & Hf & Hi) (Hg' & Hu' & Hk)].
  - split_and!; [done|done|]. split; [by intros w|done].
  - destruct (turn_ok scr m t cx cy b Hg Hu Hm) as (m1 & t1 & E1 & Ew & Ea & El & Hm1). rewrite E in E1. injection E1 as -> ->. split_and!; [by eapply good_same|done|done].
  - split_and!; [done|done|]. split.
    + intros w Ew. destruct (Hf w Ew) as (v & Hv & _). by apply (Hk w v Hv (Hf w Ew)).
    + rewrite Hi. unfold focus_id. destruct (fCurrentMouseFocus t) as [w|]; [|done]. destruct (Hf w eq_refl) as (v & Hv & _). rewrite Hv. destruct (Hk w v Hv (Hf w eq_refl)) as [_ ->]. done.
Qed.

(** The events of the mouse: whatever it reports, and whatever the dispatch thread does in
  between, as long as no program locks the mouse: windows see enter and leave events in
  pairs, with all other events of the window between them, and the window that is entered
  last is the focus of the thread; each further report is handled. *)
Theorem mouse_events scr m t cx cy b : mreach scr m t ->
  inside (events t) = Some (focus_id m t) /\ exists m' t', turn m t cx cy b = Ok (m', t') /\ inside (events t') = Some (focus_id m' t').
Proof.
  intros H. destruct (mreach_inv scr m t H) as (Hg & Hu & Hm). split; [apply Hm|]. destruct (turn_ok scr m t cx cy b Hg Hu Hm) as (m' & t' & E & _ & _ & _ & Hm'). exists m', t'. split; [done|apply Hm'].
Qed.

(** ** A locked mouse *)

(** A window of 21 by 21 on a screen of 100 by 100. *)
Definition one_window : cres wm :=
  let! m := new_wm (fun _ _ => true) (Rect 0 0 99 99) false 0 0 0 in
  let! m := handle (fun _ _ => true) (fun _ => (false, 5, 0, 0)) 7 m (RCreate 0 (Rect 10 10 30 30) 9) in
  handle (fun _ _ => true) (fun _ => (false, 5, 0, 0)) 7 m (RShow 1).
Definition kinds (r : cres (wm * mouse)) : cres (list (Z * Z)) := let! (_, t) := r in Ok (map (fun e => (what e, target e)) (events t)).

(** The mouse goes to the window, the button goes down, the program locks the mouse, and the
  mouse leaves the window: there is no leave event, and the button is released as if the
  mouse were still there. *)
Example locked_drag :
  kinds (let! m := one_window in
    let! (m, t) := turn m new_thread 20 20 0 in
    let! (m, t) := turn m t 20 20 1 in
    let! m := handle (fun _ _ => true) (fun _ => (false, 5, 0, 0)) 7 m RLock in
    let! (m, t) := turn m t 70 70 1 in
    turn m t 70 70 0)
  = Ok [(EVT_MOUSE_ENTER, 1); (EVT_MOUSE_DOWN, 1); (EVT_MOUSE_MOVED, 1); (EVT_MOUSE_UP, 1)].
Proof. vm_compute. reflexivity. Qed.

(** A lock before the first movement of the mouse makes the thread use a null pointer. *)
Example locked_early :
  kinds (let! m := one_window in
    let! m := handle (fun _ _ => true) (fun _ => (false, 5, 0, 0)) 7 m RLock in turn m new_thread 20 20 0) = Fault.
Proof. vm_compute. reflexivity. Qed.

End Mouse.
