(* ===== verification/Nic.v ===== *)
(** netboot/ne2000.c: the driver of the NE2000 network card that the network boot uses.

  The card is not part of the program: it is a parameter, what reading and writing each of
  its ports does to a state of it ([device]).  The driver runs in a monad over the state of
  the card, the structure [snic], the buffer that alloc_buffer of netboot.c gives out, the
  clock, and a log of the packets that the notify function was called with.  Loops that
  wait for the card run on [fuel]. *)
From S2P Require Import Prelude LibC Bytes.
Import LibC Bytes.
Local Open Scope Z_scope.
Local Open Scope c_scope.

Module Nic.

(** ** ne2000.h and ne2k.h *)

Definition PSTART : Z := 0x20.
Definition PSTOP : Z := 0x40.
Definition PSTARTW : Z := 0x40.
Definition PSTOPW : Z := 0x80.
Definition MAX_LOAD : Z := 12.
Definition MIN_LENGTH : Z := 60.
Definition MAX_LENGTH : Z := 1500.
Definition TIMEOUT_DMAMATCH : nat := 40.
Definition MAX_TX : Z := 2.
Definition MAX_PAGESPERPACKET : Z := 6.
Definition TXPAGES : Z := 12.

Definition COMMAND : Z := 0.
Definition STATUS : Z := 0.
Definition PHYSICAL : Z := 1.
Definition MULTICAST : Z := 8.
Definition PAGESTART : Z := 1.
Definition PAGESTOP : Z := 2.
Definition BOUNDARY : Z := 3.
Definition TRANSMITSTATUS : Z := 4.
Definition TRANSMITPAGE : Z := 4.
Definition TRANSMITBYTECOUNT0 : Z := 5.
Definition TRANSMITBYTECOUNT1 : Z := 6.
Definition INTERRUPTSTATUS : Z := 7.
Definition CURRENT : Z := 7.
Definition REMOTESTARTADDRESS0 : Z := 8.
Definition REMOTESTARTADDRESS1 : Z := 9.
Definition REMOTEBYTECOUNT0 : Z := 10.
Definition REMOTEBYTECOUNT1 : Z := 11.
Definition RECEIVECONFIGURATION : Z := 12.
Definition TRANSMITCONFIGURATION : Z := 13.
Definition FAE_TALLY : Z := 13.
Definition CRC_TALLY : Z := 14.
Definition DATACONFIGURATION : Z := 14.
Definition INTERRUPTMASK : Z := 15.
Definition MISS_PKT_TALLY : Z := 15.
Definition NE_RESET : Z := 0x1f.
Definition NE_DATA : Z := 0x10.

(** Commands, as the driver combines them. *)
Definition NIC_STOP : Z := 0x01.
Definition NIC_START : Z := 0x02.
Definition NIC_PAGE0 : Z := 0x00.
Definition NIC_PAGE1 : Z := 0x40.
Definition NIC_TRANSMIT : Z := 0x04.
Definition NIC_REM_READ : Z := 0x08.
Definition NIC_REM_WRITE : Z := 0x10.
Definition NIC_DMA_DISABLE : Z := 0x20.
Definition DCR_DEFAULT : Z := 0x48.
Definition DCR_DEFAULT_WORD : Z := 0x49.
Definition RCR_AM : Z := 0x08.
Definition RCR_PRO : Z := 0x10.
Definition RCR_MON : Z := 0x20.
Definition RCR_DEFAULT : Z := 0x0c.
Definition RSR_PRX : Z := 0x01.
Definition RSR_FO : Z := 0x08.
Definition TCR_DEFAULT : Z := 0x00.
Definition TCR_INTERNAL_LOOPBACK : Z := 0x02.
Definition TSR_PTX : Z := 0x01.
Definition TSR_COL : Z := 0x04.
Definition TSR_ABT : Z := 0x08.
Definition TSR_CRS : Z := 0x10.
Definition TSR_FU : Z := 0x20.
Definition TSR_CDH : Z := 0x40.
Definition TSR_OWC : Z := 0x80.
Definition ISR_PRX : Z := 0x01.
Definition ISR_PTX : Z := 0x02.
Definition ISR_RXE : Z := 0x04.
Definition ISR_TXE : Z := 0x08.
Definition ISR_OVW : Z := 0x10.
Definition ISR_RDC : Z := 0x40.
Definition ISR_RST : Z := 0x80.
Definition ISR_ALL : Z := 0x3f.
Definition IMR_DEFAULT : Z := 0x3f.

Definition NOERR : Z := 0.
Definition ERR : Z := -1.
Definition ERRFORMAT : Z := -5.
Definition ERRNOTFOUND : Z := -6.
Definition ERRTIMEOUT : Z := -8.

Record nic_stat := Stat {
  rx_packets : Z; tx_buffered : Z; tx_packets : Z;
  frame_alignment : Z; crc : Z; missed_packets : Z;
  rx : Z; rx_size : Z; rx_dropped : Z; rx_fifo : Z; rx_overruns : Z;
  tx_collisions : Z; tx_aborts : Z; tx_carrier : Z; tx_fifo : Z; tx_heartbeat : Z; tx_window : Z
}.
(** A packet that waits to be sent: its length and the page of its copy on the card. *)
Record tx_packet := Tx { tx_len : Z; tx_page : Z; tx_data : list Z }.
Record snic := Snic {
  iobase : Z; pstart : Z; pstop : Z; wordlength : Z; current_page : Z;
  stat : nic_stat; notify : bool; tx : list tx_packet; busy : bool; send : Z
}.
Record buffer_header := Header { status : Z; next : Z; count : Z }.

(** ** The card, and the monad *)

(** The ports of the card, from its base address on. *)
Record device (D : Type) := Device { dev_inb : D -> Z -> Z * D; dev_outb : D -> Z -> Z -> D; dev_inw : D -> Z -> Z * D; dev_outw : D -> Z -> Z -> D }.
Arguments dev_inb {D}. Arguments dev_outb {D}. Arguments dev_inw {D}. Arguments dev_outw {D}.

Record st (D : Type) := St { card : D; nic : snic; blah : list Z; ticks : Z; got : list (list Z) }.
Arguments St {D}. Arguments card {D}. Arguments nic {D}. Arguments blah {D}. Arguments ticks {D}. Arguments got {D}.

Definition set_stat (x : nic_stat) (n : snic) : snic := Snic (iobase n) (pstart n) (pstop n) (wordlength n) (current_page n) x (notify n) (tx n) (busy n) (send n).
Definition set_current (p : Z) (n : snic) : snic := Snic (iobase n) (pstart n) (pstop n) (wordlength n) p (stat n) (notify n) (tx n) (busy n) (send n).
Definition set_tx (l : list tx_packet) (n : snic) : snic := Snic (iobase n) (pstart n) (pstop n) (wordlength n) (current_page n) (stat n) (notify n) l (busy n) (send n).
Definition set_busy (b : bool) (n : snic) : snic := Snic (iobase n) (pstart n) (pstop n) (wordlength n) (current_page n) (stat n) (notify n) (tx n) b (send n).
Definition set_send (f : Z) (n : snic) : snic := Snic (iobase n) (pstart n) (pstop n) (wordlength n) (current_page n) (stat n) (notify n) (tx n) (busy n) f.
Definition set_geometry (w a b : Z) (n : snic) : snic := Snic (iobase n) a b w (current_page n) (stat n) (notify n) (tx n) (busy n) (send n).

Definition add_rx_packets (x : nic_stat) : nic_stat := Stat (s32 (rx_packets x + 1)) (tx_buffered x) (tx_packets x) (frame_alignment x) (crc x) (missed_packets x) (rx x) (rx_size x) (rx_dropped x) (rx_fifo x) (rx_overruns x) (tx_collisions x) (tx_aborts x) (tx_carrier x) (tx_fifo x) (tx_heartbeat x) (tx_window x).
Definition add_tx_buffered (x : nic_stat) : nic_stat := Stat (rx_packets x) (s32 (tx_buffered x + 1)) (tx_packets x) (frame_alignment x) (crc x) (missed_packets x) (rx x) (rx_size x) (rx_dropped x) (rx_fifo x) (rx_overruns x) (tx_collisions x) (tx_aborts x) (tx_carrier x) (tx_fifo x) (tx_heartbeat x) (tx_window x).
Definition add_rx_errors (d_rx d_size d_fifo d_overruns : Z) (x : nic_stat) : nic_stat := Stat (rx_packets x) (tx_buffered x) (tx_packets x) (frame_alignment x) (crc x) (missed_packets x) (s32 (rx x + d_rx)) (s32 (rx_size x + d_size)) (rx_dropped x) (s32 (rx_fifo x + d_fifo)) (s32 (rx_overruns x + d_overruns)) (tx_collisions x) (tx_aborts x) (tx_carrier x) (tx_fifo x) (tx_heartbeat x) (tx_window x).
Definition add_tally (a b c : Z) (x : nic_stat) : nic_stat := Stat (rx_packets x) (tx_buffered x) (tx_packets x) (s32 (frame_alignment x + a)) (s32 (crc x + b)) (s32 (missed_packets x + c)) (rx x) (rx_size x) (rx_dropped x) (rx_fifo x) (rx_overruns x) (tx_collisions x) (tx_aborts x) (tx_carrier x) (tx_fifo x) (tx_heartbeat x) (tx_window x).
Definition bit (v mask : Z) : Z := if decide (Z.land v mask = 0) then 0 else 1.
(** The counters of a transmission, from its status. *)
Definition add_tx_status (s : Z) (x : nic_stat) : nic_stat :=
  let ok := bit s TSR_PTX in let e := fun mask => if decide (ok = 0) then bit s mask else 0 in
  Stat (rx_packets x) (tx_buffered x) (s32 (tx_packets x + ok)) (frame_alignment x) (crc x) (missed_packets x) (rx x) (rx_size x) (rx_dropped x) (rx_fifo x) (rx_overruns x)
    (s32 (tx_collisions x + bit s TSR_COL + 16 * e TSR_ABT)) (s32 (tx_aborts x + e TSR_ABT)) (s32 (tx_carrier x + e TSR_CRS)) (s32 (tx_fifo x + e TSR_FU)) (s32 (tx_heartbeat x + e TSR_CDH)) (s32 (tx_window x + e TSR_OWC)).

Section driver.
Context {D : Type} (dev : device D) (fuel : nat).

Definition N (A : Type) := st D -> cres (A * st D).
Definition ret {A} (a : A) : N A := fun s => Ok (a, s).
Definition bind {A B} (x : N A) (k : A -> N B) : N B := fun s => let! (a, s) := x s in k a s.
Notation "x <~ e ; k" := (bind e (fun x => k)) (at level 100, e at level 200, k at level 200, right associativity).
Notation "e ;; k" := (bind e (fun _ => k)) (at level 100, k at level 200, right associativity).

Definition inb (p : Z) : N Z := fun s => let (v, d) := dev_inb dev (card s) p in Ok (v, St d (nic s) (blah s) (ticks s) (got s)).
Definition inw (p : Z) : N Z := fun s => let (v, d) := dev_inw dev (card s) p in Ok (v, St d (nic s) (blah s) (ticks s) (got s)).
Definition outb (v p : Z) : N unit := fun s => Ok (tt, St (dev_outb dev (card s) p (u8 v)) (nic s) (blah s) (ticks s) (got s)).
Definition outw (v p : Z) : N unit := fun s => Ok (tt, St (dev_outw dev (card s) p (u16 v)) (nic s) (blah s) (ticks s) (got s)).
Definition the {A} (f : snic -> A) : N A := fun s => Ok (f (nic s), s).
Definition change (f : snic -> snic) : N unit := fun s => Ok (tt, St (card s) (f (nic s)) (blah s) (ticks s) (got s)).
(** Bytes written to the buffer that alloc_buffer gives out, which is always there. *)
Definition fill (p : Z) (l : list Z) : N unit := fun s => let! b := store (blah s) p l in Ok (tt, St (card s) (nic s) b (ticks s) (got s)).
(** The notify function is called with the [len] bytes of the buffer. *)
Definition deliver (len : Z) : N unit := fun s => let! l := fetch (blah s) 0 (Z.to_nat len) in Ok (tt, St (card s) (nic s) (blah s) (ticks s) (got s ++ [l])).
(** [n] calls of idle *)
Definition idle (n : Z) : N unit := fun s => Ok (tt, St (card s) (nic s) (blah s) (ticks s + n) (got s)).
Definition fail {A} : N A := fun _ => Fault.

(** [n] bytes, or words, from the data port. *)
Fixpoint in_bytes (n : nat) : N (list Z) :=
  match n with O => ret [] | S n => b <~ inb NE_DATA; l <~ in_bytes n; ret (b :: l) end.
Fixpoint in_words (n : nat) : N (list Z) :=
  match n with O => ret [] | S n => w <~ inw NE_DATA; l <~ in_words n; ret (u8 w :: u8 (Z.shiftr w 8) :: l) end.

(** ** Remote DMA *)

(** Wait until the low byte of the address is what it should be. *)
Fixpoint dma_match (low : Z) (n : nat) : N unit :=
  match n with
  | O => ret tt
  | S n => _ <~ inb REMOTESTARTADDRESS1; v <~ inb REMOTESTARTADDRESS0; if decide (low = v) then ret tt else dma_match low n
  end.

(** The commands that start a read of a number of bytes at an address. *)
Definition start_read (count0 count1 addr0 addr1 : Z) : N unit :=
  outb (NIC_DMA_DISABLE + NIC_PAGE0 + NIC_START) COMMAND ;;
  outb count0 REMOTEBYTECOUNT0 ;;
  outb count1 REMOTEBYTECOUNT1 ;;
  outb addr0 REMOTESTARTADDRESS0 ;;
  outb addr1 REMOTESTARTADDRESS1 ;;
  outb (NIC_REM_READ + NIC_START) COMMAND.

(** The transfers of nic_block_input; the result is 1 if there was one more. *)
Definition read_block (len : Z) : N Z :=
  w <~ the wordlength;
  if decide (w = 2) then
    l <~ in_words (Z.to_nat (Z.shiftr len 1)); fill 0 l ;;
    if decide (Z.land len 1 <> 0) then b <~ inb NE_DATA; fill (len - 1) [b] ;; ret 1 else ret 0
  else l <~ in_bytes (Z.to_nat len); fill 0 l ;; ret 0.
Definition nic_block_input (len offset : Z) : N unit :=
  start_read (Z.land len 255) (Z.shiftr len 8) (Z.land offset 255) (Z.shiftr offset 8) ;;
  odd <~ read_block len;
  dma_match (Z.land (offset + len + odd) 255) TIMEOUT_DMAMATCH ;;
  outb ISR_RDC INTERRUPTSTATUS.

Definition nic_get_header (page : Z) : N buffer_header :=
  start_read 4 0 0 page ;;
  w <~ the wordlength;
  l <~ (if decide (w = 2) then in_words 2 else in_bytes 4);
  outb ISR_RDC INTERRUPTSTATUS ;;
  match l with [a; b; c; d] => ret (Header a b (c + 256 * d)) | _ => fail end.

Fixpoint out_bytes (l : list Z) : N unit := match l with [] => ret tt | b :: l => outb b NE_DATA ;; out_bytes l end.
(** Words; the last byte of an odd number is a word of its own. *)
Fixpoint out_words (l : list Z) : N unit :=
  match l with
  | [] => ret tt
  | [a] => outw a NE_DATA
  | a :: b :: l => outw (a + 256 * b) NE_DATA ;; out_words l
  end.

(** The expression that the address is compared with is [(...) ? len : len + 1], whose
  condition is the sum of the page and the test for an odd word. *)
Definition nic_block_output (buf : list Z) (page : Z) : N unit :=
  let len := Z.of_nat (length buf) in
  outb (NIC_DMA_DISABLE + NIC_PAGE0 + NIC_START) COMMAND ;;
  outb 0x42 REMOTEBYTECOUNT0 ;;
  outb 0 REMOTEBYTECOUNT1 ;;
  outb 0x42 REMOTESTARTADDRESS0 ;;
  outb 0 REMOTESTARTADDRESS1 ;;
  outb (NIC_REM_READ + NIC_START) COMMAND ;;
  outb ISR_RDC INTERRUPTSTATUS ;;
  outb (Z.land len 255) REMOTEBYTECOUNT0 ;;
  outb (Z.shiftr len 8) REMOTEBYTECOUNT1 ;;
  outb 0 REMOTESTARTADDRESS0 ;;
  outb page REMOTESTARTADDRESS1 ;;
  outb (NIC_REM_WRITE + NIC_START) COMMAND ;;
  w <~ the wordlength;
  (if decide (w = 2) then out_words buf else out_bytes buf) ;;
  dma_match (Z.land (if decide (Z.shiftl page 8 <> 0 \/ w = 2 /\ Z.land len 1 <> 0) then len else len + 1) 255) TIMEOUT_DMAMATCH ;;
  outb ISR_RDC INTERRUPTSTATUS.

(** ** Starting *)

(** The result of the test [inb(addr==0xff)], which reads port 0 or 1, is an argument. *)
Definition nic_probe (port01 addr : Z) : N Z :=
  state <~ inb COMMAND;
  if decide (port01 <> 0) then ret ERRNOTFOUND else
  outb (NIC_DMA_DISABLE + NIC_PAGE1 + NIC_STOP) COMMAND ;;
  regd <~ inb 0x0d;
  outb 0xff 0x0d ;;
  outb (NIC_DMA_DISABLE + NIC_PAGE0) COMMAND ;;
  _ <~ inb FAE_TALLY;
  v <~ inb FAE_TALLY;
  if decide (v <> 0) then outb state COMMAND ;; outb regd 0x0d ;; ret ERRNOTFOUND else ret addr.
Definition nic_detect (port01 given : Z) : N Z := nic_probe port01 given.

(** The bytes of the PROM come twice each from a card with words. *)
Fixpoint doubled (l : list Z) : bool := match l with a :: b :: l => bool_decide (a = b) && doubled l | _ => true end.
Fixpoint halves (l : list Z) : list Z := match l with a :: _ :: l => a :: halves l | _ => [] end.
Definition nic_dump_prom : N (Z * list Z) :=
  outb 32 REMOTEBYTECOUNT0 ;;
  outb 0 REMOTEBYTECOUNT1 ;;
  outb 0 REMOTESTARTADDRESS0 ;;
  outb 0 REMOTESTARTADDRESS1 ;;
  outb (NIC_REM_READ + NIC_START) COMMAND ;;
  l <~ in_bytes 32;
  ret (if doubled l then (2, halves l) else (1, take 16 l)).

Definition zero_stat (old : nic_stat) : nic_stat := Stat 0 0 0 0 0 0 0 0 0 0 0 0 (tx_aborts old) (tx_carrier old) (tx_fifo old) (tx_heartbeat old) (tx_window old).
Fixpoint wait_reset (n : nat) : N unit :=
  match n with O => fail | S n => v <~ inb INTERRUPTSTATUS; if decide (Z.land v ISR_RST = 0) then wait_reset n else ret tt end.
Fixpoint out_from (l : list Z) (p : Z) : N unit := match l with [] => ret tt | b :: l => outb b p ;; out_from l (p + 1) end.

(** The result and the PROM.  The writes to RECEIVECONFIGURATION and TRANSMITCONFIGURATION
  lack the address of the card and go to other ports. *)
Definition nic_init (addr : Z) (manual : option (list Z)) : N (Z * list Z) :=
  base <~ the iobase;
  if decide (base <> 0 /\ base <> addr) then ret (ERR, []) else
  (if decide (base = 0) then
     change (fun n => Snic addr 0 0 0 0 (zero_stat (stat n)) false (map (fun x => Tx 0 (tx_page x) (tx_data x)) (tx n)) false (send n))
   else ret tt) ;;
  v <~ inb NE_RESET;
  outb v NE_RESET ;;
  wait_reset fuel ;;
  outb 0xff INTERRUPTSTATUS ;;
  outb (NIC_DMA_DISABLE + NIC_PAGE0 + NIC_STOP) COMMAND ;;
  outb DCR_DEFAULT DATACONFIGURATION ;;
  outb 0 REMOTEBYTECOUNT0 ;;
  outb 0 REMOTEBYTECOUNT1 ;;
  outb 0 INTERRUPTMASK ;;
  outb 0xff INTERRUPTSTATUS ;;
  r <~ nic_dump_prom;
  let '(w, prom) := r in
  match prom !! 14%nat, prom !! 15%nat with
  | Some a, Some b =>
      change (fun n => set_geometry w (pstart n) (pstop n) n) ;;
      if decide (a <> 0x57 \/ b <> 0x57) then ret (ERRNOTFOUND, prom) else
      (if decide (w = 2) then outb DCR_DEFAULT_WORD DATACONFIGURATION else ret tt) ;;
      let ps := if decide (w = 2) then PSTARTW else PSTART in
      let pe := if decide (w = 2) then PSTOPW else PSTOP in
      change (set_geometry w ps pe) ;;
      outb (NIC_DMA_DISABLE + NIC_PAGE0 + NIC_STOP) COMMAND ;;
      outb ps TRANSMITPAGE ;;
      outb (ps + TXPAGES) PAGESTART ;;
      outb (pe - 1) BOUNDARY ;;
      outb pe PAGESTOP ;;
      outb 0 INTERRUPTMASK ;;
      outb 0xff INTERRUPTSTATUS ;;
      change (set_current (ps + TXPAGES)) ;;
      outb (NIC_DMA_DISABLE + NIC_PAGE1 + NIC_STOP) COMMAND ;;
      out_from (match manual with Some m => take 6 m | None => take 6 prom end) PHYSICAL ;;
      out_from (replicate 8 0xff) MULTICAST ;;
      outb (ps + TXPAGES) CURRENT ;;
      outb (NIC_DMA_DISABLE + NIC_PAGE0 + NIC_STOP) COMMAND ;;
      ret (NOERR, prom)
  | _, _ => fail
  end.

Definition nic_register_notify : N unit := change (fun n => Snic (iobase n) (pstart n) (pstop n) (wordlength n) (current_page n) (stat n) true (tx n) (busy n) (send n)).
Definition nic_start (promiscuous : bool) : N unit :=
  base <~ the iobase;
  if decide (base = 0) then ret tt else
  outb 0xff INTERRUPTSTATUS ;;
  outb IMR_DEFAULT INTERRUPTMASK ;;
  outb (NIC_DMA_DISABLE + NIC_PAGE0 + NIC_START) COMMAND ;;
  outb TCR_DEFAULT TRANSMITCONFIGURATION ;;
  outb (if promiscuous then RCR_PRO + RCR_AM else RCR_DEFAULT) RECEIVECONFIGURATION.
Definition nic_stop : N unit :=
  base <~ the iobase;
  if decide (base = 0) then ret tt else _ <~ nic_init base None; ret tt.
Definition nic_get_stats : N nic_stat :=
  a <~ inb FAE_TALLY; b <~ inb CRC_TALLY; c <~ inb MISS_PKT_TALLY;
  change (fun n => set_stat (add_tally a b c (stat n)) n) ;; the stat.

(** ** Receiving *)

(** What becomes of a frame of [len] bytes with the header [h]. *)
Definition rx_frame (h : buffer_header) (len frame : Z) : N unit :=
  if decide (len < 60 \/ 1518 < len) then change (fun n => set_stat (add_rx_errors 0 1 0 0 (stat n)) n)
  else if decide (Z.land (status h) 15 = RSR_PRX) then
    nic_block_input len (Z.shiftl frame 8 + 4) ;;
    f <~ the notify;
    (if f : bool then deliver len else ret tt) ;;
    change (fun n => set_stat (add_rx_packets (stat n)) n)
  else if decide (Z.land (status h) RSR_FO <> 0) then change (fun n => set_stat (add_rx_errors 0 0 1 0 (stat n)) n) else ret tt.

(** The counter of packets is never advanced: the loop ends when the ring is empty.  A
  header that does not fit makes it look at the same page for ever. *)
Fixpoint rx_loop (n : nat) : N unit :=
  match n with
  | O => fail
  | S n =>
      outb (NIC_DMA_DISABLE + NIC_PAGE1) COMMAND ;;
      rx_page <~ inb CURRENT;
      outb (NIC_DMA_DISABLE + NIC_PAGE0) COMMAND ;;
      b <~ inb BOUNDARY;
      ps <~ the pstart; pe <~ the pstop;
      let frame := if decide (pe <= b + 1) then ps + TXPAGES else b + 1 in
      if decide (frame = rx_page) then ret tt else
      h <~ nic_get_header frame;
      let len := u32 (count h - 4) in
      let next_pkt := u32 (frame + 1 + Z.shiftr (u32 (len + 4)) 8) in
      let numpages := pe - (ps + TXPAGES) in
      if decide (next h <> next_pkt /\ next h <> u32 (next_pkt + 1) /\ next h <> u32 (next_pkt - numpages) /\ next h <> u32 (next_pkt + 1 - numpages)) then
        change (set_current frame) ;;
        outb (frame - 1) BOUNDARY ;;
        change (fun n => set_stat (add_rx_errors 1 0 0 0 (stat n)) n) ;;
        rx_loop n
      else
      rx_frame h len frame ;;
      let next_pkt := if decide (pe <= next h) then ps + TXPAGES else next h in
      change (set_current next_pkt) ;;
      outb (next_pkt - 1) BOUNDARY ;;
      rx_loop n
  end.
Definition nic_rx : N unit :=
  base <~ the iobase;
  if decide (base = 0) then ret tt else rx_loop fuel ;; outb (ISR_PRX + ISR_RXE) INTERRUPTSTATUS.

(** ** Sending *)

Definition tx_get (f : Z) : N tx_packet := fun s => let? x := aget (tx (nic s)) f in Ok (x, s).
Definition tx_set (f : Z) (x : tx_packet) : N unit := fun s => let? l := aset (tx (nic s)) f x in change (set_tx l) s.

Definition nic_send (buf : Z) : N Z :=
  outb (NIC_DMA_DISABLE + NIC_PAGE0) COMMAND ;;
  v <~ inb STATUS;
  x <~ tx_get buf;
  if decide (Z.land v NIC_TRANSMIT <> 0) then tx_set buf (Tx 0 (tx_page x) (tx_data x)) ;; ret ERRTIMEOUT else
  outb (Z.land (tx_len x) 255) TRANSMITBYTECOUNT0 ;;
  outb (Z.shiftr (tx_len x) 8) TRANSMITBYTECOUNT1 ;;
  outb (tx_page x) TRANSMITPAGE ;;
  outb (NIC_DMA_DISABLE + NIC_TRANSMIT + NIC_START) COMMAND ;;
  ret NOERR.

(** The loop over the transmit buffers, from [f] on. *)
Fixpoint send_loop (buf : list Z) (f : Z) (n : nat) : N bool :=
  match n with
  | O => ret false
  | S n =>
      x <~ tx_get f;
      if decide (tx_len x = 0) then
        ps <~ the pstart;
        let x := Tx (Z.of_nat (length buf)) (ps + f * MAX_PAGESPERPACKET) buf in
        tx_set f x ;;
        nic_block_output buf (tx_page x) ;;
        change (set_send f) ;;
        r <~ nic_send f;
        ret (bool_decide (0 <= r))
      else send_loop buf (f + 1) n
  end.

(** The packet [buf]; a short one is padded in the buffer of alloc_buffer. *)
Definition nic_send_packet (buf : list Z) : N Z :=
  let len := Z.of_nat (length buf) in
  base <~ the iobase;
  if decide (len = 0 \/ base = 0) then ret ERR else
  if decide (MAX_LENGTH < len) then ret ERRFORMAT else
  b <~ the busy;
  if b : bool then idle 11 ;; ret ERRTIMEOUT else
  change (set_busy true) ;;
  let buf := if decide (len < MIN_LENGTH) then buf ++ replicate (Z.to_nat (MIN_LENGTH - len)) 0 else buf in
  (if decide (len < MIN_LENGTH) then fill 0 buf else ret tt) ;;
  outb 0 INTERRUPTMASK ;;
  ok <~ send_loop buf 0 (Z.to_nat MAX_TX);
  (if ok : bool then change (fun n => set_stat (add_tx_buffered (stat n)) n) else ret tt) ;;
  outb IMR_DEFAULT INTERRUPTMASK ;;
  change (set_busy false) ;;
  ret (if ok : bool then NOERR else ERR).

(** The first buffer that is in use, if any, is sent. *)
Fixpoint next_loop (f : Z) (n : nat) : N unit :=
  match n with
  | O => ret tt
  | S n =>
      x <~ tx_get f;
      if decide (tx_len x <> 0) then change (fun n => set_stat (add_tx_buffered (stat n)) n) ;; _ <~ nic_send f; ret tt else next_loop (f + 1) n
  end.
Definition nic_tx : N unit :=
  base <~ the iobase;
  if decide (base = 0) then ret tt else
  status <~ inb TRANSMITSTATUS;
  f <~ the send;
  x <~ tx_get f;
  if decide (tx_len x = 0) then ret tt else
  tx_set f (Tx 0 (tx_page x) (tx_data x)) ;;
  next_loop 0 (Z.to_nat MAX_TX) ;;
  change (fun n => set_stat (add_tx_status status (stat n)) n) ;;
  outb ISR_PTX INTERRUPTSTATUS.
(** The status is read from the command register. *)
Definition nic_tx_err : N unit :=
  base <~ the iobase;
  if decide (base = 0) then ret tt else
  tsr <~ inb COMMAND;
  outb ISR_TXE INTERRUPTSTATUS ;;
  if decide (Z.land tsr (TSR_ABT + TSR_FU) <> 0) then nic_tx else ret tt.

(** ** Interrupts *)

Definition nic_overrun : N unit :=
  base <~ the iobase;
  if decide (base = 0) then ret tt else
  v <~ inb COMMAND;
  outb (NIC_DMA_DISABLE + NIC_PAGE0 + NIC_STOP) COMMAND ;;
  change (fun n => set_stat (add_rx_errors 0 0 0 1 (stat n)) n) ;;
  idle 11 ;;
  outb 0 REMOTEBYTECOUNT0 ;;
  outb 0 REMOTEBYTECOUNT1 ;;
  resend <~ (if decide (Z.land v NIC_TRANSMIT <> 0) then i <~ inb INTERRUPTSTATUS; ret (bool_decide (Z.land i (ISR_PTX + ISR_TXE) = 0)) else ret false);
  outb TCR_INTERNAL_LOOPBACK TRANSMITCONFIGURATION ;;
  outb (NIC_DMA_DISABLE + NIC_PAGE0 + NIC_START) COMMAND ;;
  nic_rx ;;
  outb ISR_OVW INTERRUPTSTATUS ;;
  outb TCR_DEFAULT TRANSMITCONFIGURATION ;;
  if resend : bool then outb (NIC_DMA_DISABLE + NIC_PAGE0 + NIC_START + NIC_TRANSMIT) COMMAND else ret tt.

Definition isr_turn (isr : Z) : N unit :=
  (if decide (Z.land isr ISR_OVW <> 0) then nic_overrun else if decide (Z.land isr (ISR_PRX + ISR_RXE) <> 0) then nic_rx else ret tt) ;;
  (if decide (Z.land isr ISR_PTX <> 0) then nic_tx else if decide (Z.land isr ISR_TXE <> 0) then nic_tx_err else ret tt) ;;
  (if decide (Z.land isr ISR_RDC <> 0) then outb ISR_RDC INTERRUPTSTATUS else ret tt) ;;
  outb (NIC_DMA_DISABLE + NIC_PAGE0 + NIC_START) COMMAND.
(** The interrupts that were left, with those that are still pending: [--overload <= 0]
  of an unsigned number holds at 0 only. *)
Fixpoint isr_loop (overload : nat) : N unit :=
  isr <~ inb INTERRUPTSTATUS;
  if decide (isr = 0) then ret tt else
  match overload with
  | O => fail
  | S O => outb (NIC_DMA_DISABLE + NIC_PAGE0 + NIC_START) COMMAND ;; outb ISR_ALL INTERRUPTSTATUS
  | S overload => isr_turn isr ;; isr_loop overload
  end.
Definition nic_isr : N unit :=
  base <~ the iobase;
  if decide (base = 0) then ret tt else
  outb (NIC_DMA_DISABLE + NIC_PAGE0) COMMAND ;;
  isr_loop (Z.to_nat (MAX_LOAD + 1)).

End driver.

End Nic.
