(* ===== verification/NicProof.v ===== *)
(** The driver of the network card (Nic): what is in the ring of the card is delivered.

  [Dp8390] states what the data sheet of the controller says about the registers that
  reception uses, as laws on a view of the state of any card.  Module NicCard is a card that
  can be run: the registers and the memory that the driver uses to send and to receive.  It is
  an instance of the laws stated here and in NicSend. *)
From S2P Require Import Prelude LibC Bytes Nic.
Import LibC Bytes Nic.
Local Open Scope Z_scope.

Module NicCard.

Record hw := Hw { h_page : Z; h_cmd : Z; h_bnry : Z; h_curr : Z; h_addr : Z; h_left : Z; h_mem : Z -> Z; h_tpage : Z; h_tcount : Z; h_busy : bool; h_sent : list (list Z) }.

Definition with_dma (a n : Z) (mem : Z -> Z) (c : hw) : hw := Hw (h_page c) (h_cmd c) (h_bnry c) (h_curr c) a n mem (h_tpage c) (h_tcount c) (h_busy c) (h_sent c).
Definition with_tx (p n : Z) (c : hw) : hw := Hw (h_page c) (h_cmd c) (h_bnry c) (h_curr c) (h_addr c) (h_left c) (h_mem c) p n (h_busy c) (h_sent c).
Definition with_bnry (b : Z) (c : hw) : hw := Hw (h_page c) (h_cmd c) b (h_curr c) (h_addr c) (h_left c) (h_mem c) (h_tpage c) (h_tcount c) (h_busy c) (h_sent c).

(** [n] bytes from [a] on, and a byte stored. *)
Fixpoint range (mem : Z -> Z) (a : Z) (n : nat) : list Z := match n with O => [] | S n => mem a :: range mem (a + 1) n end.
Definition upd (mem : Z -> Z) (a v : Z) : Z -> Z := fun x => if decide (x = a) then v else mem x.

(** The address after [a]: the ring from page [lo] to page [hi] wraps around. *)
Definition step (lo hi a : Z) : Z := if decide (a + 1 = 256 * hi) then 256 * lo else a + 1.

(** A command that starts the transmission sends the frame, once the last one is done. *)
Definition command (v : Z) (c : hw) : hw :=
  let start := negb (bool_decide (Z.land v NIC_TRANSMIT = 0)) && negb (h_busy c) in
  Hw (Z.shiftr v 6) v (h_bnry c) (h_curr c) (h_addr c) (h_left c) (h_mem c) (h_tpage c) (h_tcount c) (h_busy c || start)
    (if start then h_sent c ++ [range (h_mem c) (256 * h_tpage c) (Z.to_nat (h_tcount c))] else h_sent c).
(** The frame that was being sent is out. *)
Definition finish (c : hw) : hw := Hw (h_page c) (h_cmd c) (h_bnry c) (h_curr c) (h_addr c) (h_left c) (h_mem c) (h_tpage c) (h_tcount c) false (h_sent c).

Section card.
Context (lo hi : Z).

Definition byte_at (c : hw) (a : Z) : Z := u8 (h_mem c a).
Definition hw_inb (c : hw) (p : Z) : Z * hw :=
  if decide (p = NE_DATA) then (byte_at c (h_addr c), with_dma (step lo hi (h_addr c)) (h_left c - 1) (h_mem c) c)
  else if decide (p = COMMAND) then ((if h_busy c then NIC_TRANSMIT else 0) + NIC_START, c)
  else if decide (p = CURRENT) then (if decide (h_page c = 1) then h_curr c else 0, c)
  else if decide (p = BOUNDARY) then (h_bnry c, c)
  else if decide (p = TRANSMITSTATUS) then (TSR_PTX, c)
  else if decide (p = REMOTESTARTADDRESS0) then (h_addr c mod 256, c)
  else if decide (p = REMOTESTARTADDRESS1) then (h_addr c / 256, c)
  else (0, c).
Definition hw_inw (c : hw) (p : Z) : Z * hw :=
  if decide (p = NE_DATA) then (byte_at c (h_addr c) + 256 * byte_at c (step lo hi (h_addr c)), with_dma (step lo hi (step lo hi (h_addr c))) (h_left c - 2) (h_mem c) c)
  else (0, c).
Definition hw_outb (c : hw) (p v : Z) : hw :=
  if decide (p = COMMAND) then command v c
  else if decide (p = NE_DATA) then with_dma (step lo hi (h_addr c)) (h_left c - 1) (upd (h_mem c) (h_addr c) v) c
  else if decide (h_page c <> 0) then c
  else if decide (p = BOUNDARY) then with_bnry v c
  else if decide (p = TRANSMITPAGE) then with_tx v (h_tcount c) c
  else if decide (p = TRANSMITBYTECOUNT0) then with_tx (h_tpage c) (h_tcount c / 256 * 256 + v) c
  else if decide (p = TRANSMITBYTECOUNT1) then with_tx (h_tpage c) (v * 256 + h_tcount c mod 256) c
  else if decide (p = REMOTESTARTADDRESS0) then with_dma (h_addr c / 256 * 256 + v) (h_left c) (h_mem c) c
  else if decide (p = REMOTESTARTADDRESS1) then with_dma (v * 256 + h_addr c mod 256) (h_left c) (h_mem c) c
  else if decide (p = REMOTEBYTECOUNT0) then with_dma (h_addr c) (h_left c / 256 * 256 + v) (h_mem c) c
  else if decide (p = REMOTEBYTECOUNT1) then with_dma (h_addr c) (v * 256 + h_left c mod 256) (h_mem c) c
  else c.
Definition hw_outw (c : hw) (p v : Z) : hw :=
  if decide (p = NE_DATA) then with_dma (step lo hi (step lo hi (h_addr c))) (h_left c - 2) (upd (upd (h_mem c) (h_addr c) (u8 v)) (step lo hi (h_addr c)) (u8 (Z.shiftr v 8))) c
  else c.

Definition hw_device : device hw := Device hw hw_inb hw_outb hw_inw hw_outw.

End card.

End NicCard.
Import NicCard.
Local Open Scope c_scope.

Module NicProof.

(** ** The controller *)

(** The page of registers that is selected, the boundary and current page registers, whether
  a remote read is on, its address and the number of bytes left, and the memory. *)
Record view := View { v_page : Z; v_bnry : Z; v_curr : Z; v_read : bool; v_addr : Z; v_left : Z; v_mem : Z -> Z }.

(** The registers of the ring and the memory are as they were. *)
Definition same_ring (v v' : view) : Prop := v_page v' = v_page v /\ v_bnry v' = v_bnry v /\ v_curr v' = v_curr v /\ v_mem v' = v_mem v.

(** A card whose transfers are [w] bytes wide, with the ring in pages [lo] to [hi]. *)
Class Dp8390 {D : Type} (dev : device D) (w lo hi : Z) := {
  see : D -> view;
  see_mem : forall d a, 0 <= v_mem (see d) a < 256;
  in_current : forall d, v_page (see d) = 1 -> exists d', dev_inb dev d CURRENT = (v_curr (see d), d') /\ see d' = see d;
  in_boundary : forall d, v_page (see d) = 0 -> exists d', dev_inb dev d BOUNDARY = (v_bnry (see d), d') /\ see d' = see d;
  in_address : forall d p, v_page (see d) = 0 -> p = REMOTESTARTADDRESS0 \/ p = REMOTESTARTADDRESS1 -> see (dev_inb dev d p).2 = see d;
  in_data : forall d, w = 1 -> v_read (see d) = true -> 1 <= v_left (see d) -> exists d', dev_inb dev d NE_DATA = (v_mem (see d) (v_addr (see d)), d') /\
    see d' = (let v := see d in View (v_page v) (v_bnry v) (v_curr v) true (step lo hi (v_addr v)) (v_left v - 1) (v_mem v));
  in_data_last : forall d, w = 2 -> v_read (see d) = true -> v_left (see d) = 1 -> exists d', dev_inb dev d NE_DATA = (v_mem (see d) (v_addr (see d)), d') /\ same_ring (see d) (see d');
  in_data_word : forall d, w = 2 -> v_read (see d) = true -> 2 <= v_left (see d) -> exists d',
    dev_inw dev d NE_DATA = (v_mem (see d) (v_addr (see d)) + 256 * v_mem (see d) (step lo hi (v_addr (see d))), d') /\
    see d' = (let v := see d in View (v_page v) (v_bnry v) (v_curr v) true (step lo hi (step lo hi (v_addr v))) (v_left v - 2) (v_mem v));
  out_command : forall d c, c = NIC_DMA_DISABLE + NIC_PAGE0 \/ c = NIC_DMA_DISABLE + NIC_PAGE1 \/ c = NIC_DMA_DISABLE + NIC_PAGE0 + NIC_START \/ c = NIC_REM_READ + NIC_START ->
    see (dev_outb dev d COMMAND c) = (let v := see d in View (Z.shiftr c 6) (v_bnry v) (v_curr v) (bool_decide (c = NIC_REM_READ + NIC_START)) (v_addr v) (v_left v) (v_mem v));
  out_boundary : forall d c, v_page (see d) = 0 -> 0 <= c < 256 ->
    see (dev_outb dev d BOUNDARY c) = (let v := see d in View (v_page v) c (v_curr v) (v_read v) (v_addr v) (v_left v) (v_mem v));
  out_address0 : forall d c, v_page (see d) = 0 -> 0 <= c < 256 ->
    see (dev_outb dev d REMOTESTARTADDRESS0 c) = (let v := see d in View (v_page v) (v_bnry v) (v_curr v) (v_read v) (v_addr v / 256 * 256 + c) (v_left v) (v_mem v));
  out_address1 : forall d c, v_page (see d) = 0 -> 0 <= c < 256 ->
    see (dev_outb dev d REMOTESTARTADDRESS1 c) = (let v := see d in View (v_page v) (v_bnry v) (v_curr v) (v_read v) (c * 256 + v_addr v mod 256) (v_left v) (v_mem v));
  out_count0 : forall d c, v_page (see d) = 0 -> 0 <= c < 256 ->
    see (dev_outb dev d REMOTEBYTECOUNT0 c) = (let v := see d in View (v_page v) (v_bnry v) (v_curr v) (v_read v) (v_addr v) (v_left v / 256 * 256 + c) (v_mem v));
  out_count1 : forall d c, v_page (see d) = 0 -> 0 <= c < 256 ->
    see (dev_outb dev d REMOTEBYTECOUNT1 c) = (let v := see d in View (v_page v) (v_bnry v) (v_curr v) (v_read v) (v_addr v) (c * 256 + v_left v mod 256) (v_mem v));
  out_status : forall d c, v_page (see d) = 0 -> see (dev_outb dev d INTERRUPTSTATUS c) = see d
}.

Section driver.
Context {D : Type} (dev : device D) (fuel : nat) (w lo hi : Z) {chip : Dp8390 dev w lo hi}.

(** ** Computations *)

Definition gives {A} (x : N A) (s : st D) (Q : A -> st D -> Prop) : Prop := exists a s', x s = Ok (a, s') /\ Q a s'.

Lemma gives_bind {A B} (x : N A) (k : A -> N B) s Q : gives x s (fun a s' => gives (k a) s' Q) -> gives (bind x k) s Q.
Proof. intros (a & s' & E & b & s'' & E' & H). exists b, s''. split; [|done]. unfold bind. rewrite E. exact E'. Qed.

Lemma bind_gives {A B} (R : cres (B * st D) -> Prop) (x : N A) (k : A -> N B) s : gives x s (fun a s' => R (k a s')) -> R (bind x k s).
Proof. intros (a & s' & E & H). unfold bind. rewrite E. exact H. Qed.

Lemma gives_ret {A} (a : A) s (Q : A -> st D -> Prop) : Q a s -> gives (ret a) s Q.
Proof. intros H. by exists a, s. Qed.

Lemma gives_impl {A} (x : N A) s (P Q : A -> st D -> Prop) : gives x s P -> (forall a s', P a s' -> Q a s') -> gives x s Q.
Proof. intros (a & s' & E & H) HQ. exists a, s'. auto. Qed.

(** [s'] is [s] with the card in view [v]. *)
Definition now (s : st D) (v : view) (s' : st D) : Prop := see (card s') = v /\ nic s' = nic s /\ blah s' = blah s /\ ticks s' = ticks s /\ got s' = got s.

Lemma gives_outb v p s (Q : unit -> st D -> Prop) : (forall s', now s (see (dev_outb dev (card s) p (u8 v))) s' -> Q tt s') -> gives (outb dev v p) s Q.
Proof. intros H. eexists tt, _. split; [reflexivity|]. by apply H. Qed.

Lemma gives_inb_data s (Q : Z -> st D -> Prop) : w = 1 -> v_read (see (card s)) = true -> 1 <= v_left (see (card s)) ->
  (forall s', now s (let v := see (card s) in View (v_page v) (v_bnry v) (v_curr v) true (step lo hi (v_addr v)) (v_left v - 1) (v_mem v)) s' -> Q (v_mem (see (card s)) (v_addr (see (card s)))) s') -> gives (inb dev NE_DATA) s Q.
Proof. intros Hw H1 H2 H. destruct (in_data (card s) Hw H1 H2) as (d' & E & Hd). unfold gives, inb. rewrite E. do 2 eexists. split; [reflexivity|]. by apply H. Qed.

Lemma gives_inb_last s (Q : Z -> st D -> Prop) : w = 2 -> v_read (see (card s)) = true -> v_left (see (card s)) = 1 ->
  (forall s', same_ring (see (card s)) (see (card s')) -> nic s' = nic s -> blah s' = blah s -> got s' = got s -> Q (v_mem (see (card s)) (v_addr (see (card s)))) s') -> gives (inb dev NE_DATA) s Q.
Proof. intros Hw H1 H2 H. destruct (in_data_last (card s) Hw H1 H2) as (d' & E & Hd). unfold gives, inb. rewrite E. do 2 eexists. split; [reflexivity|]. by apply H. Qed.

Lemma gives_inw_data s (Q : Z -> st D -> Prop) : w = 2 -> v_read (see (card s)) = true -> 2 <= v_left (see (card s)) ->
  (forall s', now s (let v := see (card s) in View (v_page v) (v_bnry v) (v_curr v) true (step lo hi (step lo hi (v_addr v))) (v_left v - 2) (v_mem v)) s' ->
    Q (v_mem (see (card s)) (v_addr (see (card s))) + 256 * v_mem (see (card s)) (step lo hi (v_addr (see (card s))))) s') -> gives (inw dev NE_DATA) s Q.
Proof. intros Hw H1 H2 H. destruct (in_data_word (card s) Hw H1 H2) as (d' & E & Hd). unfold gives, inw. rewrite E. do 2 eexists. split; [reflexivity|]. by apply H. Qed.

Lemma gives_in p x s (Q : Z -> st D -> Prop) : (exists d', dev_inb dev (card s) p = (x, d') /\ see d' = see (card s)) -> (forall s', now s (see (card s)) s' -> Q x s') -> gives (inb dev p) s Q.
Proof. intros (d' & E & Hd) H. unfold gives, inb. rewrite E. do 2 eexists. split; [reflexivity|]. by apply H. Qed.

(** ** Bytes from the memory of the card *)

(** [n] bytes from [a] on, around the ring, and the address after them. *)
Fixpoint walk (mem : Z -> Z) (a : Z) (n : nat) : list Z := match n with O => [] | S n => mem a :: walk mem (step lo hi a) n end.
Fixpoint skip (a : Z) (n : nat) : Z := match n with O => a | S n => skip (step lo hi a) n end.

Definition dma (v : view) (a left : Z) : view := View (v_page v) (v_bnry v) (v_curr v) true a left (v_mem v).

Lemma in_bytes_ok n : forall s, w = 1 -> v_read (see (card s)) = true -> Z.of_nat n <= v_left (see (card s)) ->
  gives (in_bytes dev n) s (fun l s' => l = walk (v_mem (see (card s))) (v_addr (see (card s))) n /\ now s (dma (see (card s)) (skip (v_addr (see (card s))) n) (v_left (see (card s)) - Z.of_nat n)) s').
Proof.
  induction n as [|n IH]; intros s Hw Hr Hl; cbn [in_bytes].
  - apply gives_ret. split; [done|]. unfold now, dma. cbn [skip]. replace (v_left (see (card s)) - Z.of_nat 0) with (v_left (see (card s))) by lia. split_and!; try done. destruct (see (card s)). simpl in Hr. by subst.
  - apply gives_bind, gives_inb_data; [done|done|lia|]. intros s1 (V1 & N1 & B1 & T1 & G1). apply gives_bind. eapply gives_impl; [apply IH; [done|by rewrite V1|rewrite V1; cbn [v_left]; lia]|].
    intros l s2 (-> & V2 & N2 & B2 & T2 & G2). apply gives_ret. rewrite V1 in *. cbn [v_mem v_addr v_left v_page v_bnry v_curr dma walk skip] in *. split; [done|]. split_and!; try congruence. rewrite V2. unfold dma. cbn. f_equal. lia.
Qed.

Lemma in_words_ok n : forall s, w = 2 -> v_read (see (card s)) = true -> 2 * Z.of_nat n <= v_left (see (card s)) ->
  gives (in_words dev n) s (fun l s' => l = walk (v_mem (see (card s))) (v_addr (see (card s))) (2 * n) /\ now s (dma (see (card s)) (skip (v_addr (see (card s))) (2 * n)) (v_left (see (card s)) - 2 * Z.of_nat n)) s').
Proof.
  induction n as [|n IH]; intros s Hw Hr Hl; cbn [in_words].
  - apply gives_ret. split; [done|]. unfold now, dma. cbn [skip Nat.mul Nat.add]. replace (v_left (see (card s)) - 2 * Z.of_nat 0) with (v_left (see (card s))) by lia. split_and!; try done. destruct (see (card s)). simpl in Hr. by subst.
  - apply gives_bind, gives_inw_data; [done|done|lia|]. intros s1 (V1 & N1 & B1 & T1 & G1). apply gives_bind. eapply gives_impl; [apply IH; [done|by rewrite V1|rewrite V1; cbn [v_left]; lia]|].
    intros l s2 (-> & V2 & N2 & B2 & T2 & G2). apply gives_ret. rewrite V1 in *. replace (2 * S n)%nat with (S (S (2 * n))) by lia. cbn [v_mem v_addr v_left v_page v_bnry v_curr dma walk skip] in *.
    set (a := v_addr (see (card s))) in *. pose proof (see_mem (card s) a) as Ma. pose proof (see_mem (card s) (step lo hi a)) as Mb. split.
    + f_equal; [unfold u8; change (2 ^ 8) with 256; rewrite (Z.mul_comm 256), Z.mod_add by lia; by apply Z.mod_small|]. f_equal.
      rewrite Z.shiftr_div_pow2 by lia. change (2 ^ 8) with 256. rewrite (Z.mul_comm 256), Z.div_add, Z.div_small by lia. by apply u8_small.
    + split_and!; try congruence. rewrite V2. unfold dma. cbn. f_equal. lia.
Qed.

(** ** Setting up a transfer *)

Lemma dma_match_ok low n : forall s, v_page (see (card s)) = 0 -> gives (dma_match dev low n) s (fun _ s' => now s (see (card s)) s').
Proof.
  induction n as [|n IH]; intros s Hp; cbn [dma_match]; [by apply gives_ret|]. apply gives_bind. unfold gives at 1, inb. destruct (dev_inb dev (card s) REMOTESTARTADDRESS1) as [x d1] eqn:E1. do 2 eexists. split; [reflexivity|].
  pose proof (in_address (card s) REMOTESTARTADDRESS1 Hp (or_intror eq_refl)) as V1. rewrite E1 in V1. cbn [snd] in V1. apply gives_bind. unfold gives at 1, inb. cbn [card]. destruct (dev_inb dev d1 REMOTESTARTADDRESS0) as [y d2] eqn:E2. do 2 eexists. split; [reflexivity|].
  pose proof (in_address d1 REMOTESTARTADDRESS0 ltac:(by rewrite V1) (or_introl eq_refl)) as V2. rewrite E2 in V2. cbn [snd] in V2. cbn [nic blah ticks got]. case_decide; [apply gives_ret; unfold now; cbn; split_and!; congruence|].
  eapply gives_impl; [apply IH; cbn [card]; congruence|]. cbn [card]. intros _ s' (V & E). unfold now in *. cbn in E. split; [congruence|done].
Qed.

Lemma start_read_ok len0 len1 a0 a1 s : 0 <= len0 < 256 -> 0 <= len1 < 256 -> 0 <= a0 < 256 -> 0 <= a1 < 256 ->
  gives (start_read dev len0 len1 a0 a1) s (fun _ s' => now s (let v := see (card s) in View 0 (v_bnry v) (v_curr v) true (a1 * 256 + a0) (len1 * 256 + len0) (v_mem v)) s').
Proof.
  intros H1 H2 H3 H4. assert (forall x y, 0 <= y < 256 -> (x / 256 * 256 + y) mod 256 = y) as Hm by (intros x y Hy; rewrite Z.add_comm, Z.mod_add by lia; by apply Z.mod_small).
  unfold start_read. apply gives_bind, gives_outb. intros s1 (V1 & N1 & B1 & T1 & G1). change (u8 (NIC_DMA_DISABLE + NIC_PAGE0 + NIC_START)) with (NIC_DMA_DISABLE + NIC_PAGE0 + NIC_START) in V1. rewrite out_command in V1 by tauto.
  change (Z.shiftr (NIC_DMA_DISABLE + NIC_PAGE0 + NIC_START) 6) with 0 in V1. apply gives_bind, gives_outb. intros s2 (V2 & N2 & B2 & T2 & G2). rewrite u8_small, out_count0 in V2 by (done || by rewrite V1).
  apply gives_bind, gives_outb. intros s3 (V3 & N3 & B3 & T3 & G3). rewrite u8_small, out_count1 in V3 by (done || by rewrite V2, V1). apply gives_bind, gives_outb. intros s4 (V4 & N4 & B4 & T4 & G4). rewrite u8_small, out_address0 in V4 by (done || by rewrite V3, V2, V1).
  apply gives_bind, gives_outb. intros s5 (V5 & N5 & B5 & T5 & G5). rewrite u8_small, out_address1 in V5 by (done || by rewrite V4, V3, V2, V1). apply gives_outb. intros s6 (V6 & N6 & B6 & T6 & G6).
  change (u8 (NIC_REM_READ + NIC_START)) with (NIC_REM_READ + NIC_START) in V6. rewrite out_command in V6 by tauto. split_and!; try congruence. rewrite V6, V5, V4, V3, V2, V1. cbn [v_page v_bnry v_curr v_read v_addr v_left v_mem]. rewrite !Hm by done. reflexivity.
Qed.

Lemma gives_fill p l s (Q : unit -> st D -> Prop) : fits (blah s) p (length l) -> bytes l ->
  (forall s', card s' = card s /\ nic s' = nic s /\ blah s' = splice (blah s) p l /\ got s' = got s -> Q tt s') -> gives (fill p l) s Q.
Proof. intros Hf Hb H. unfold gives, fill. rewrite store_splice by done. do 2 eexists. split; [reflexivity|]. by apply H. Qed.

Lemma length_walk mem : forall n a, length (walk mem a n) = n.
Proof. induction n as [|n IH]; intros a; [done|]. cbn [walk length]. by rewrite IH. Qed.

Lemma walk_bytes d : forall n a, bytes (walk (v_mem (see d)) a n).
Proof. induction n as [|n IH]; intros a; [constructor|]. constructor; [apply see_mem|apply IH]. Qed.

Lemma walk_app mem n : forall m a, walk mem a (n + m) = walk mem a n ++ walk mem (skip a n) m.
Proof. induction n as [|n IH]; intros m a; [done|]. cbn [Nat.add walk skip app]. by rewrite IH. Qed.

Lemma byte_split x : 0 <= x < 65536 -> 0 <= Z.land x 255 < 256 /\ 0 <= Z.shiftr x 8 < 256 /\ Z.shiftr x 8 * 256 + Z.land x 255 = x.
Proof.
  intros Hx. rewrite Z.shiftr_div_pow2 by lia. change 255 with (Z.ones 8). rewrite Z.land_ones by lia. change (2 ^ 8) with 256. pose proof (Z.div_mod x 256 ltac:(lia)). pose proof (Z.mod_pos_bound x 256 ltac:(lia)). lia.
Qed.

(** [len] bytes of the memory of the card are in the buffer. *)
Lemma card_block_ok len s : w = 1 \/ w = 2 -> wordlength (nic s) = w -> 0 < len -> v_read (see (card s)) = true -> v_left (see (card s)) = len -> len <= Z.of_nat (length (blah s)) ->
  gives (read_block dev len) s (fun _ s' => blah s' = splice (blah s) 0 (walk (v_mem (see (card s))) (v_addr (see (card s))) (Z.to_nat len)) /\ nic s' = nic s /\ got s' = got s /\ same_ring (see (card s)) (see (card s'))).
Proof.
  intros Hw Ew Hl Hr Hle Hb. set (mem := v_mem (see (card s))). set (a := v_addr (see (card s))). unfold read_block. apply gives_bind. exists (wordlength (nic s)), s. split; [reflexivity|]. rewrite Ew. destruct (decide (w = 2)) as [E2|E2].
  - rewrite Z.shiftr_div_pow2 by lia. change (2 ^ 1) with 2. assert (Z.land len 1 = len mod 2) as -> by (change 1 with (Z.ones 1); by rewrite Z.land_ones by lia). pose proof (Z.div_mod len 2 ltac:(lia)) as Hd. pose proof (Z.mod_pos_bound len 2 ltac:(lia)).
    apply gives_bind. eapply gives_impl; [apply in_words_ok; [done|done|lia]|]. intros l s1 (-> & V1 & N1 & B1 & T1 & G1). fold mem a. apply gives_bind, gives_fill; [rewrite length_walk, B1; unfold fits; lia|apply walk_bytes|]. intros s2 (C2 & N2 & B2 & G2). case_decide as Ho.
    + apply gives_bind, gives_inb_last; [done|by rewrite C2, V1|rewrite C2, V1; cbn [v_left dma]; lia|]. intros s3 V3 N3 B3 G3. rewrite C2, V1 in *. cbn [v_mem v_addr dma v_page v_bnry v_curr v_left] in *.
      replace (len - 1) with (0 + Z.of_nat (length (walk mem a (2 * Z.to_nat (len / 2))))) by (rewrite length_walk; lia).
      assert (fits (blah s) 0 (Z.to_nat len)) as Hf by (unfold fits; lia).
      apply gives_bind, gives_fill; [rewrite B3, B2, B1; unfold fits; rewrite length_splice by (unfold fits; rewrite length_walk; lia); rewrite length_walk; cbn [length]; lia|repeat constructor; apply see_mem|].
      intros s4 (C4 & N4 & B4 & G4). apply gives_ret. split_and!; try congruence; [|rewrite C4; exact V3]. rewrite B4, B3, B2, B1. rewrite splice_app by (unfold fits; rewrite length_walk; cbn [length]; lia). f_equal.
      replace (Z.to_nat len) with (2 * Z.to_nat (len / 2) + 1)%nat by lia. by rewrite walk_app.
    + apply gives_ret. split_and!; try congruence; [|by rewrite C2, V1]. rewrite B2, B1. do 2 f_equal. lia.
  - apply gives_bind. eapply gives_impl; [apply in_bytes_ok; [lia|done|lia]|]. intros l s1 (-> & V1 & N1 & B1 & T1 & G1). fold mem a. apply gives_bind, gives_fill; [rewrite length_walk, B1; unfold fits; lia|apply walk_bytes|].
    intros s2 (C2 & N2 & B2 & G2). apply gives_ret. split_and!; try congruence. by rewrite C2, V1.
Qed.

(** The same, with page 0 of the registers. *)
Definition ring_same (v v' : view) : Prop := v_page v' = 0 /\ v_bnry v' = v_bnry v /\ v_curr v' = v_curr v /\ v_mem v' = v_mem v.

Lemma nic_block_input_ok len a s : w = 1 \/ w = 2 -> wordlength (nic s) = w -> 0 < len < 65536 -> 0 <= a < 65536 -> len <= Z.of_nat (length (blah s)) ->
  gives (nic_block_input dev len a) s (fun _ s' => blah s' = splice (blah s) 0 (walk (v_mem (see (card s))) a (Z.to_nat len)) /\ nic s' = nic s /\ got s' = got s /\ ring_same (see (card s)) (see (card s'))).
Proof.
  intros Hw Ew Hl Ha Hb. destruct (byte_split len ltac:(lia)) as (L0 & L1 & EL). destruct (byte_split a ltac:(lia)) as (A0 & A1 & EA). unfold nic_block_input. apply gives_bind. eapply gives_impl; [by apply start_read_ok|]. intros [] s1 (V1 & N1 & B1 & T1 & G1).
  rewrite EL, EA in V1. cbv zeta in V1. apply gives_bind. eapply gives_impl; [apply card_block_ok; [done|by rewrite N1|lia|by rewrite V1|by rewrite V1|by rewrite B1]|]. intros odd s2 (B2 & N2 & G2 & P2 & Y2 & C2 & M2). rewrite V1 in *. cbn [v_mem v_addr dma v_page v_bnry v_curr v_left] in *.
  apply gives_bind. eapply gives_impl; [by apply dma_match_ok|]. intros [] s3 (V3 & N3 & B3 & T3 & G3). apply gives_outb. intros s4 (V4 & N4 & B4 & T4 & G4). rewrite out_status in V4 by (by rewrite V3).
  unfold ring_same. rewrite V4, V3. split_and!; congruence.
Qed.

Lemma nic_get_header_ok page s : w = 1 \/ w = 2 -> wordlength (nic s) = w -> 0 <= page < 256 ->
  gives (nic_get_header dev page) s (fun h s' => (exists c d, walk (v_mem (see (card s))) (256 * page) 4 = [status h; next h; c; d] /\ count h = c + 256 * d) /\
    blah s' = blah s /\ nic s' = nic s /\ got s' = got s /\ ring_same (see (card s)) (see (card s'))).
Proof.
  intros Hw Ew Hp. unfold nic_get_header. apply gives_bind. eapply gives_impl; [apply start_read_ok; lia|]. intros [] s1 (V1 & N1 & B1 & T1 & G1). cbv zeta in V1. replace (page * 256 + 0) with (256 * page) in V1 by lia.
  apply gives_bind. exists (wordlength (nic s1)), s1. split; [reflexivity|]. apply gives_bind.
  eapply (gives_impl _ _ (fun l s' => l = walk (v_mem (see (card s))) (256 * page) 4 /\ blah s' = blah s /\ nic s' = nic s /\ got s' = got s /\ ring_same (see (card s)) (see (card s')))).
  - rewrite N1, Ew. case_decide; (eapply gives_impl; [(apply in_words_ok || apply in_bytes_ok); [lia|by rewrite V1|rewrite V1; cbn [v_left]; lia]|]); intros l s2 (-> & V2 & N2 & B2 & T2 & G2); rewrite V1 in *; cbn [v_mem v_addr dma] in *; unfold ring_same; rewrite V2; split_and!; done || congruence.
  - intros l s2 (-> & B2 & N2 & G2 & R2). apply gives_bind, gives_outb. intros s3 (V3 & N3 & B3 & T3 & G3). rewrite out_status in V3 by apply R2. cbn [walk]. apply gives_ret. cbn [status next count]. split; [do 2 eexists; split; reflexivity|]. unfold ring_same in *. rewrite V3. split_and!; done || congruence || apply R2.
Qed.

(** ** The ring *)

(** A frame as the controller leaves it in the ring: its status, the page of the next frame,
  and its bytes. *)
Record frame := Frame { f_status : Z; f_next : Z; f_data : list Z }.
Definition f_len (f : frame) : Z := Z.of_nat (length (f_data f)).
(** The frames that are packets. *)
Definition good (f : frame) : bool := bool_decide (60 <= f_len f <= 1518) && bool_decide (Z.land (f_status f) 15 = RSR_PRX).
Definition received (fs : list frame) : list (list Z) := map f_data (filter good fs).

(** The page that a frame at page [p] names is the one behind its bytes, or one more (the
  checksum may need it), around the ring. *)
Definition follows (p : Z) (f : frame) : Prop :=
  let k := p + 1 + Z.shiftr (f_len f + 4) 8 in let pages := hi - lo in
  lo <= f_next f < hi /\ (f_next f = k \/ f_next f = k + 1 \/ f_next f = k - pages \/ f_next f = k + 1 - pages).

(** The frames [fs] fill the ring from page [p] up to page [q]. *)
Fixpoint ring (mem : Z -> Z) (p : Z) (fs : list frame) (q : Z) : Prop :=
  match fs with
  | [] => p = q
  | f :: fs => p <> q /\ (exists c d, walk mem (256 * p) 4 = [f_status f; f_next f; c; d] /\ c + 256 * d = f_len f + 4) /\
      walk mem (256 * p + 4) (length (f_data f)) = f_data f /\ follows p f /\ ring mem (f_next f) fs q
  end.

(** The page that the driver looks at: the one behind the boundary. *)
Definition at_page (v : view) : Z := if decide (hi <= v_bnry v + 1) then lo else v_bnry v + 1.

(** The driver is set up for the card, with a function to notify. *)
Definition set_up (n : snic) : Prop := pstart n + TXPAGES = lo /\ pstop n = hi /\ (w = 1 \/ w = 2) /\ wordlength n = w /\ notify n = true.

Lemma gives_the {A} (f : snic -> A) s (Q : A -> st D -> Prop) : Q (f (nic s)) s -> gives (the f) s Q.
Proof. intros H. by exists (f (nic s)), s. Qed.

Lemma gives_change f s (Q : unit -> st D -> Prop) : Q tt (St (card s) (f (nic s)) (blah s) (ticks s) (got s)) -> gives (Nic.change f) s Q.
Proof. intros H. eexists tt, _. split; [reflexivity|exact H]. Qed.

Lemma fetch_splice m l : (length l <= length m)%nat -> fetch (splice m 0 l) 0 (length l) = Ok l.
Proof.
  intros Hl. assert (fits m 0 (length l)) as Hf by (unfold fits; lia). rewrite fetch_ok by (unfold fits; rewrite length_splice by done; unfold fits in Hf; lia). f_equal.
  unfold slice, splice. change (Z.to_nat 0) with 0%nat. rewrite take_0, drop_0. cbn [app]. apply take_app_length.
Qed.

Lemma gives_deliver m l s (Q : unit -> st D -> Prop) : blah s = splice m 0 l -> (length l <= length m)%nat ->
  Q tt (St (card s) (nic s) (blah s) (ticks s) (got s ++ [l])) -> gives (deliver (Z.of_nat (length l))) s Q.
Proof. intros E Hl H. eexists tt, _. split; [|exact H]. unfold deliver. rewrite Nat2Z.id, E, fetch_splice by done. reflexivity. Qed.

Lemma received_cons f fs : received (f :: fs) = (if good f then [f_data f] else []) ++ received fs.
Proof. unfold received. rewrite filter_cons. destruct (good f) eqn:E; by case_decide. Qed.

(** What one frame does: [s'] has the packet, if it is one. *)
Definition took (f : frame) (s s' : st D) : Prop :=
  got s' = got s ++ received [f] /\ set_up (nic s') /\ iobase (nic s') = iobase (nic s) /\ length (blah s') = length (blah s) /\
  rx_packets (stat (nic s')) = (if good f then s32 (rx_packets (stat (nic s)) + 1) else rx_packets (stat (nic s))) /\ ring_same (see (card s)) (see (card s')).

Lemma rx_frame_ok f h p s : set_up (nic s) -> v_page (see (card s)) = 0 -> status h = f_status f -> 0 <= p < 256 -> f_len f < 65536 -> walk (v_mem (see (card s))) (256 * p + 4) (length (f_data f)) = f_data f ->
  (good f -> f_len f <= Z.of_nat (length (blah s))) -> gives (rx_frame dev h (f_len f) p) s (fun _ s' => took f s s').
Proof.
  intros Hs Hp0 Hst Hp Hlen Hw Hfit. unfold rx_frame. rewrite Hst. unfold took. assert (ring_same (see (card s)) (see (card s))) as Hsame by (unfold ring_same; done).
  assert (forall g : nic_stat -> nic_stat, (forall x, rx_packets (g x) = rx_packets x) -> good f = false -> gives (Nic.change (fun n => set_stat (g (stat n)) n)) s (fun _ s' => took f s s')) as Hskip.
  { intros g Hg Hgood. apply gives_change. unfold took. rewrite received_cons, Hgood. cbn [app received filter list_filter map got nic set_stat stat iobase card blah]. rewrite app_nil_r, Hg. done. }
  case_decide as Hl; [apply Hskip; [done|]; unfold good; rewrite bool_decide_false by lia; done|]. case_decide as Hprx.
  - assert (good f = true) as Hg by (unfold good; rewrite !bool_decide_true by (done || lia); done). specialize (Hfit ltac:(by rewrite Hg)). unfold f_len in Hfit. rewrite received_cons, Hg.
    rewrite Z.shiftl_mul_pow2 by lia. change (2 ^ 8) with 256. replace (p * 256 + 4) with (256 * p + 4) by lia. apply gives_bind. eapply gives_impl; [apply nic_block_input_ok; [apply Hs|apply Hs|unfold f_len in *; lia|lia|done]|].
    intros [] s1 (B1 & N1 & G1 & R1). unfold f_len in B1. rewrite Nat2Z.id, Hw in B1. apply gives_bind, gives_the. rewrite N1. destruct Hs as (S1 & S2 & S3 & Sw & S4). rewrite S4. apply gives_bind. eapply gives_deliver; [exact B1|lia|]. apply gives_change.
    cbn [got nic set_stat stat iobase card blah map]. rewrite G1, B1, N1, length_splice by (unfold fits; lia). done.
  - assert (good f = false) as Hg by (unfold good; rewrite (bool_decide_false (Z.land _ _ = _)) by done; apply andb_false_r). case_decide; [by apply Hskip|]. apply gives_ret. rewrite received_cons, Hg. cbn. rewrite app_nil_r. done.
Qed.

(** Looking at the registers of the ring. *)
Lemma rx_look_res (R : cres (unit * st D) -> Prop) (k : Z -> Z -> N unit) s : 0 <= v_bnry (see (card s)) ->
  (forall s', nic s' = nic s -> blah s' = blah s -> got s' = got s -> ring_same (see (card s)) (see (card s')) -> R (k (v_curr (see (card s))) (v_bnry (see (card s))) s')) ->
  R (bind (outb dev (NIC_DMA_DISABLE + NIC_PAGE1) COMMAND) (fun _ => bind (inb dev CURRENT) (fun c => bind (outb dev (NIC_DMA_DISABLE + NIC_PAGE0) COMMAND) (fun _ => bind (inb dev BOUNDARY) (k c)))) s).
Proof.
  intros Hb H. apply bind_gives, gives_outb. intros s1 (V1 & N1 & B1 & T1 & G1). change (u8 (NIC_DMA_DISABLE + NIC_PAGE1)) with (NIC_DMA_DISABLE + NIC_PAGE1) in V1. rewrite out_command in V1 by tauto. apply bind_gives. eapply gives_in; [apply in_current; by rewrite V1|].
  intros s2 (V2 & N2 & B2 & T2 & G2). rewrite V1 in *. apply bind_gives, gives_outb. intros s3 (V3 & N3 & B3 & T3 & G3). change (u8 (NIC_DMA_DISABLE + NIC_PAGE0)) with (NIC_DMA_DISABLE + NIC_PAGE0) in V3. rewrite out_command, V2 in V3 by tauto.
  apply bind_gives. eapply gives_in; [apply in_boundary; by rewrite V3|]. intros s4 (V4 & N4 & B4 & T4 & G4). rewrite V3 in *. cbn [v_bnry v_curr]. apply H; [congruence..|]. unfold ring_same. by rewrite V4.
Qed.

Lemma rx_look (k : Z -> Z -> N unit) s Q : 0 <= v_bnry (see (card s)) ->
  (forall s', nic s' = nic s -> blah s' = blah s -> got s' = got s -> ring_same (see (card s)) (see (card s')) -> gives (k (v_curr (see (card s))) (v_bnry (see (card s)))) s' Q) ->
  gives (bind (outb dev (NIC_DMA_DISABLE + NIC_PAGE1) COMMAND) (fun _ => bind (inb dev CURRENT) (fun c => bind (outb dev (NIC_DMA_DISABLE + NIC_PAGE0) COMMAND) (fun _ => bind (inb dev BOUNDARY) (k c))))) s Q.
Proof. apply (rx_look_res (fun r => exists a s', r = Ok (a, s') /\ Q a s')). Qed.

Lemma next_accepted p f : 0 <= lo < hi -> hi <= 256 -> lo <= p < hi -> f_len f < 65536 -> follows p f ->
  let next_pkt := u32 (p + 1 + Z.shiftr (u32 (f_len f + 4)) 8) in
  ~ (f_next f <> next_pkt /\ f_next f <> u32 (next_pkt + 1) /\ f_next f <> u32 (next_pkt - (hi - lo)) /\ f_next f <> u32 (next_pkt + 1 - (hi - lo))).
Proof.
  intros Hr Hh Hp Hl (Hn & Hk). cbv zeta. unfold f_len in *. rewrite (u32_small (Z.of_nat _ + 4)) by lia. rewrite Z.shiftr_div_pow2 in * by lia. change (2 ^ 8) with 256 in *.
  pose proof (Z.div_pos (Z.of_nat (length (f_data f)) + 4) 256 ltac:(lia) ltac:(lia)). pose proof (Z.div_le_upper_bound (Z.of_nat (length (f_data f)) + 4) 256 65540 ltac:(lia) ltac:(lia)).
  set (q := (Z.of_nat (length (f_data f)) + 4) / 256) in *. rewrite (u32_small (p + 1 + q)) by lia. intros (H1 & H2 & H3 & H4). destruct Hk as [E|[E|[E|E]]].
  - lia.
  - rewrite u32_small in H2 by lia. lia.
  - rewrite u32_small in H3 by lia. lia.
  - rewrite u32_small in H4 by lia. lia.
Qed.

(** The loop over the ring: every packet is delivered, and the ring is empty. *)
Lemma rx_loop_ok fs : forall n s, 0 < lo < hi -> hi <= 256 -> (length fs < n)%nat -> set_up (nic s) -> 0 <= v_bnry (see (card s)) -> lo <= at_page (see (card s)) < hi -> ring (v_mem (see (card s))) (at_page (see (card s))) fs (v_curr (see (card s))) ->
  Forall (fun f => good f -> f_len f <= Z.of_nat (length (blah s))) fs ->
  gives (rx_loop dev n) s (fun _ s' => got s' = got s ++ received fs /\ set_up (nic s') /\ iobase (nic s') = iobase (nic s) /\ length (blah s') = length (blah s) /\
    u32 (rx_packets (stat (nic s'))) = u32 (rx_packets (stat (nic s)) + Z.of_nat (length (received fs))) /\
    v_page (see (card s')) = 0 /\ at_page (see (card s')) = v_curr (see (card s)) /\ v_curr (see (card s')) = v_curr (see (card s)) /\ v_mem (see (card s')) = v_mem (see (card s))).
Proof.
  induction fs as [|f fs IH]; intros [|n] s Hlo Hhi Hn Hs Hb Hp Hring Hfit; cbn [length] in Hn; try lia; cbn [rx_loop].
  - apply rx_look; [done|]. intros s1 N1 B1 G1 (P1 & Y1 & C1 & M1). apply gives_bind, gives_the. apply gives_bind, gives_the. rewrite N1. destruct Hs as (S1 & S2 & S3 & Sw & S4). rewrite S1, S2. fold (at_page (see (card s))). cbn [ring] in Hring. rewrite Hring, decide_True by done.
    apply gives_ret. unfold received, set_up. cbn [filter list_filter map length]. rewrite N1, G1, B1, app_nil_r, Z.add_0_r. unfold at_page in *. rewrite Y1. done.
  - cbn [ring] in Hring. destruct Hring as (Hne & (c & d & Hh & Hcd) & Hdata & Hfol & Hring). apply rx_look; [done|]. intros s1 N1 B1 G1 (P1 & Y1 & C1 & M1). apply gives_bind, gives_the. apply gives_bind, gives_the. rewrite N1. pose proof Hs as (S1 & S2 & S3 & Sw & S4). rewrite S1, S2.
    fold (at_page (see (card s))). rewrite decide_False by done. set (p := at_page (see (card s))) in *. apply gives_bind. eapply gives_impl; [apply nic_get_header_ok; [done|by rewrite N1|lia]|].
    intros h s2 ((c' & d' & Hh' & Hc) & B2 & N2 & G2 & P2 & Y2 & C2 & M2). rewrite M1, Hh in Hh'. injection Hh' as E1 E2 <- <-. assert (0 <= c < 256 /\ 0 <= d < 256) as [Hc1 Hd1].
    { pose proof (walk_bytes (card s) 4 (256 * p)) as Hw. rewrite Hh in Hw. inversion_clear Hw as [|? ? _ Hw1]. inversion_clear Hw1 as [|? ? _ Hw2]. inversion_clear Hw2 as [|? ? H1 Hw3]. inversion_clear Hw3. done. }
    rewrite Hc, Hcd. replace (f_len f + 4 - 4) with (f_len f) by lia. rewrite (u32_small (f_len f)) by (unfold f_len in *; lia). rewrite <- E2. rewrite decide_False by (apply next_accepted; [lia..|done]).
    inversion_clear Hfit as [|? ? Hf1 Hf2]. apply gives_bind. eapply gives_impl; [apply (rx_frame_ok f); [by rewrite N2, N1|done|done|lia|lia|by rewrite M2, M1|by rewrite B2, B1]|].
    intros [] s3 (G3 & S3' & I3 & B3 & R3 & P3 & Y3 & C3 & M3). pose proof Hfol as (Hnx & _). rewrite decide_False by lia. apply gives_bind, gives_change. apply gives_bind, gives_outb. intros s4 (V4 & N4 & B4 & T4 & G4). cbn [card nic blah got] in *.
    rewrite u8_small in V4 by lia. rewrite out_boundary in V4 by (done || lia). assert (at_page (see (card s4)) = f_next f) as A4 by (rewrite V4; unfold at_page; cbn [v_bnry]; rewrite decide_False; lia).
    eapply gives_impl; [apply (IH n s4); [done..|lia| | | | |]|].
    + by rewrite N4.
    + rewrite V4. cbn [v_bnry]. lia.
    + by rewrite A4.
    + rewrite A4, V4. cbn [v_mem v_curr]. by rewrite M3, M2, M1, C3, C2, C1.
    + by rewrite B4, B3, B2, B1.
    + intros [] s5 (G5 & S5 & I5 & B5 & R5 & P5 & A5 & C5 & M5). rewrite V4 in *. cbn [v_mem v_curr] in *. rewrite N4 in *. cbn [iobase set_current stat] in *. split_and!; try congruence.
      * rewrite G5, G4, G3, G2, G1, (received_cons f []), (received_cons f fs). change (received []) with (@nil (list Z)). by rewrite app_nil_r, app_assoc.
      * rewrite R5, R3, N2, N1, received_cons, length_app. destruct (good f); cbn [length]; [|do 2 f_equal; lia]. assert (forall x y, u32 (s32 x + y) = u32 (x + y)) as -> by (intros x y; unfold u32; rewrite <- (Zplus_mod_idemp_l (s32 x)); fold (u32 (s32 x)); rewrite u32_s32; unfold u32; by rewrite Zplus_mod_idemp_l). f_equal. lia.
Qed.

(** A frame whose header names a page that is not behind it: the loop never gets past it. *)
Lemma rx_loop_stuck c n : forall s, 0 < lo < hi -> hi <= 256 -> set_up (nic s) -> 0 <= v_bnry (see (card s)) -> lo <= at_page (see (card s)) < hi -> at_page (see (card s)) <> v_curr (see (card s)) ->
  (exists st nx b0 b1, walk (v_mem (see (card s))) (256 * at_page (see (card s))) 4 = [st; nx; b0; b1] /\ c = b0 + 256 * b1 /\ 4 <= c < 65536 /\
     let next_pkt := at_page (see (card s)) + 1 + Z.shiftr c 8 in nx <> next_pkt /\ nx <> next_pkt + 1 /\ nx <> next_pkt - (hi - lo) /\ nx <> next_pkt + 1 - (hi - lo)) ->
  rx_loop dev n s = Fault.
Proof.
  induction n as [|n IH]; intros s Hlo Hhi Hs Hb Hp Hne Hh; [reflexivity|]. cbn [rx_loop]. apply (rx_look_res (fun r => r = Fault)); [done|]. intros s1 N1 B1 G1 (P1 & Y1 & C1 & M1).
  apply (bind_gives (fun r => r = Fault)), gives_the. apply (bind_gives (fun r => r = Fault)), gives_the. rewrite N1. pose proof Hs as (S1 & S2 & S3 & Sw & S4). rewrite S1, S2.
  fold (at_page (see (card s))). rewrite decide_False by done. apply (bind_gives (fun r => r = Fault)). eapply gives_impl; [apply nic_get_header_ok; [done|by rewrite N1|lia]|]. intros h s2 ((c' & d' & Hh' & Hc) & B2 & N2 & G2 & P2 & Y2 & C2 & M2).
  pose proof Hh as (st & nx & b0 & b1 & Hw & Ec & Hr & Hbad). rewrite M1, Hw in Hh'. injection Hh' as E1 E2 <- <-. rewrite Hc, <- Ec, <- E2. set (p := at_page (see (card s))) in *. pose proof (Z.shiftr_div_pow2 c 8 ltac:(lia)) as Hsh. change (2 ^ 8) with 256 in Hsh.
  pose proof (Z.div_pos c 256 ltac:(lia) ltac:(lia)). pose proof (Z.div_le_upper_bound c 256 256 ltac:(lia) ltac:(lia)). rewrite (u32_small (c - 4)) by lia. replace (c - 4 + 4) with c by lia. rewrite (u32_small c) by lia.
  assert (0 <= nx < 256) as Hnx by (pose proof (walk_bytes (card s) 4 (256 * p)) as Hy; rewrite Hw in Hy; by inversion_clear Hy as [|? ? _ Hy1]; inversion_clear Hy1).
  assert (forall x, -512 < x < 1000 -> nx = u32 x -> nx = x) as Hu by (intros x Hx E; unfold u32 in E; pose proof (Z.div_mod x (2 ^ 32) ltac:(lia)); lia).
  cbv zeta in Hbad. rewrite (u32_small (p + 1 + _)) by lia. rewrite decide_True by (split_and!; [lia|..]; intros E%Hu; lia).
  apply (bind_gives (fun r => r = Fault)), gives_change. apply (bind_gives (fun r => r = Fault)), gives_outb. intros s3 (V3 & N3 & B3 & T3 & G3). cbn [card nic blah got] in *. rewrite u8_small, out_boundary in V3 by (done || lia).
  apply (bind_gives (fun r => r = Fault)), gives_change. assert (at_page (see (card s3)) = p) as A3 by (rewrite V3; unfold at_page; cbn [v_bnry]; rewrite decide_False by lia; lia).
  apply IH; cbn [card nic]; [done|done|rewrite N3, N2, N1; exact Hs|rewrite V3; cbn [v_bnry]; lia|by rewrite A3|rewrite A3, V3; cbn [v_curr]; congruence|]. rewrite A3, V3. cbn [v_mem]. rewrite M2, M1. exact Hh.
Qed.

(** Reception of the network boot, for a wire that is quiet while nic_rx runs (no frame comes
  into the ring meanwhile) and a notify function that does not use the driver: on any card that
  behaves as the controller does, when the ring holds the frames [fs], nic_rx hands every one of
  them that is a packet (a good status and a length that is allowed) to the notify function, byte
  for byte and in order, and nothing else, provided the packets fit the buffer they are copied
  to; it ends, the ring is empty, its memory is untouched, and the counter of packets is ahead by
  their number. *)
Theorem nic_rx_delivers fs s : iobase (nic s) <> 0 -> 0 < lo < hi -> hi <= 256 -> (length fs < fuel)%nat -> set_up (nic s) -> 0 <= v_bnry (see (card s)) -> lo <= at_page (see (card s)) < hi ->
  ring (v_mem (see (card s))) (at_page (see (card s))) fs (v_curr (see (card s))) -> Forall (fun f => good f -> f_len f <= Z.of_nat (length (blah s))) fs ->
  gives (nic_rx dev fuel) s (fun _ s' => got s' = got s ++ received fs /\ set_up (nic s') /\ length (blah s') = length (blah s) /\ u32 (rx_packets (stat (nic s'))) = u32 (rx_packets (stat (nic s)) + Z.of_nat (length (received fs))) /\
    at_page (see (card s')) = v_curr (see (card s')) /\ v_curr (see (card s')) = v_curr (see (card s)) /\ v_mem (see (card s')) = v_mem (see (card s))).
Proof.
  intros Hi Hlo Hhi Hn Hs Hb Hp Hring Hfit. unfold nic_rx. apply gives_bind, gives_the. rewrite decide_False by done. apply gives_bind. eapply gives_impl; [by apply rx_loop_ok with (fs := fs)|].
  intros [] s1 (G1 & S1 & I1 & B1 & R1 & P1 & A1 & C1 & M1). apply gives_outb. intros s2 (V2 & N2 & B2 & T2 & G2). rewrite out_status in V2 by done. rewrite V2, N2, B2, G2. split_and!; congruence || apply S1.
Qed.

End driver.

(** ** A card *)

Definition hw_view (c : hw) : view := View (h_page c) (h_bnry c) (h_curr c) (bool_decide (h_cmd c = NIC_REM_READ + NIC_START)) (h_addr c) (h_left c) (byte_at c).

Lemma hw_dp8390 w lo hi : Dp8390 (hw_device lo hi) w lo hi.
Proof.
  refine {| see := hw_view |}.
  - intros d a. unfold hw_view, byte_at. cbn [v_mem]. apply u8_range.
  - intros [] H. cbn in H. subst. by eexists.
  - intros d H. by exists d.
  - intros d p H [->| ->]; reflexivity.
  - intros d _ Hr Hl. eexists. split; [reflexivity|]. cbn in Hr. unfold hw_view. cbn. by rewrite Hr.
  - intros d _ Hr Hl. eexists. split; [reflexivity|]. done.
  - intros d _ Hr Hl. eexists. split; [reflexivity|]. cbn in Hr. unfold hw_view. cbn. by rewrite Hr.
  - intros d c Hc. reflexivity.
  - intros [] c Hp Hc. cbn in Hp. by subst.
  - intros [] c Hp Hc. cbn in Hp. by subst.
  - intros [] c Hp Hc. cbn in Hp. by subst.
  - intros [] c Hp Hc. cbn in Hp. by subst.
  - intros [] c Hp Hc. cbn in Hp. by subst.
  - intros [] c Hp. cbn in Hp. by subst.
Defined.

(** Three frames around the end of the ring, the second of them too short for a packet. *)
Definition some_bytes (n : nat) (x : Z) : list Z := map (fun i => u8 (x + 3 * Z.of_nat i)) (seq 0 n).
Definition three_frames : list frame := [Frame 1 0x4c (some_bytes 60 5); Frame 1 0x4d (some_bytes 10 7); Frame 0x21 0x4e (some_bytes 61 11)].
Definition page_bytes (f : frame) : list Z := [f_status f; f_next f; f_len f + 4; 0] ++ f_data f.
Definition three_mem (a : Z) : Z :=
  match three_frames with
  | [x; y; z] => default 0 (page_bytes (if decide (a / 256 = 0x7f) then x else if decide (a / 256 = 0x4c) then y else z) !! Z.to_nat (a mod 256))
  | _ => 0
  end.
Definition no_stat : nic_stat := Stat 0 0 0 0 0 0 0 0 0 0 0 0 0 0 0 0 0.
Definition a_nic : snic := Snic 0x300 0x40 0x80 2 0 no_stat true [Tx 0 0 []; Tx 0 0 []] false 0.
Definition three_state : st hw := St (Hw 0 (NIC_DMA_DISABLE + NIC_START) 0x7e 0x4e 0 0 three_mem 0 0 false []) a_nic (replicate 1500 0) 0 [].

Lemma nic_rx_delivers_witness :
  gives (nic_rx (hw_device 0x4c 0x80) 4) three_state (fun _ s' => got s' = [some_bytes 60 5; some_bytes 61 11] /\ u32 (rx_packets (stat (nic s'))) = 2 /\ h_bnry (card s') = 0x4d).
Proof.
  assert (gives (nic_rx (hw_device 0x4c 0x80) 4) three_state (fun _ s' => got s' = [] ++ received three_frames /\ set_up 2 0x4c 0x80 (nic s') /\ length (blah s') = 1500%nat /\ u32 (rx_packets (stat (nic s'))) = 2 /\
    at_page 0x4c 0x80 (hw_view (card s')) = h_curr (card s') /\ h_curr (card s') = 0x4e /\ v_mem (hw_view (card s')) = byte_at (card three_state))) as H.
  { apply (nic_rx_delivers (hw_device 0x4c 0x80) 4 2 0x4c 0x80 (chip := hw_dp8390 2 0x4c 0x80) three_frames three_state); [done|lia|lia|cbn; lia|by unfold set_up; cbn; auto|cbn; lia|vm_compute; split; congruence| |].
    - cbn [ring three_frames]. unfold follows. split_and!; try (vm_compute; congruence); try (do 2 eexists; split; [vm_compute; reflexivity|reflexivity]); (left; reflexivity) || (right; right; left; reflexivity) || idtac.
    - repeat constructor; intros _; vm_compute; congruence. }
  eapply gives_impl; [exact H|]. intros _ s' (G & _ & _ & R & A & C & _). split; [rewrite G; vm_compute; reflexivity|]. split; [done|]. rewrite C in A. unfold at_page in A. cbn [v_bnry hw_view] in A. case_decide; lia.
Defined.

End NicProof.
