(* ===== verification/NicSend.v ===== *)
(** The driver of the network card (Nic): a packet that is sent goes out on the wire.

  [Dp8390Tx] states what the data sheet of the controller says about the registers that
  transmission uses; [t_sent] are the frames that the card was told to transmit. *)
From S2P Require Import Prelude LibC Bytes NetBoot Nic NicProof.
Import LibC Bytes Nic NicCard NicProof.
Local Open Scope Z_scope.
Local Open Scope c_scope.

Module NicSend.

Record tview := TView { t_page : Z; t_write : bool; t_addr : Z; t_left : Z; t_mem : Z -> Z; t_tpage : Z; t_tcount : Z; t_busy : bool; t_sent : list (list Z) }.

Definition t_dma (v : tview) (a n : Z) (mem : Z -> Z) : tview := TView (t_page v) (t_write v) a n mem (t_tpage v) (t_tcount v) (t_busy v) (t_sent v).
Definition t_tx (v : tview) (p n : Z) : tview := TView (t_page v) (t_write v) (t_addr v) (t_left v) (t_mem v) p n (t_busy v) (t_sent v).

(** A card whose transfers are [w] bytes wide, with the pages below [lo] for transmission. *)
Class Dp8390Tx {D : Type} (dev : device D) (w lo : Z) := {
  tsee : D -> tview;
  tin_command : forall d, t_page (tsee d) = 0 -> exists c d', dev_inb dev d STATUS = (c, d') /\ tsee d' = tsee d /\ (Z.land c NIC_TRANSMIT = 0 <-> t_busy (tsee d) = false);
  tin_address : forall d p, t_page (tsee d) = 0 -> p = REMOTESTARTADDRESS0 \/ p = REMOTESTARTADDRESS1 -> tsee (dev_inb dev d p).2 = tsee d;
  tout_data : forall d c, w = 1 -> t_write (tsee d) = true -> 1 <= t_left (tsee d) -> t_addr (tsee d) + 1 < 256 * lo -> 0 <= c < 256 ->
    tsee (dev_outb dev d NE_DATA c) = (let v := tsee d in t_dma v (t_addr v + 1) (t_left v - 1) (upd (t_mem v) (t_addr v) c));
  tout_data_word : forall d c, w = 2 -> t_write (tsee d) = true -> 2 <= t_left (tsee d) -> t_addr (tsee d) + 2 < 256 * lo -> 0 <= c < 65536 ->
    tsee (dev_outw dev d NE_DATA c) = (let v := tsee d in t_dma v (t_addr v + 2) (t_left v - 2) (upd (upd (t_mem v) (t_addr v) (c mod 256)) (t_addr v + 1) (c / 256)));
  tout_command : forall d c, c = NIC_DMA_DISABLE + NIC_PAGE0 \/ c = NIC_DMA_DISABLE + NIC_PAGE0 + NIC_START \/ c = NIC_REM_READ + NIC_START \/ c = NIC_REM_WRITE + NIC_START ->
    tsee (dev_outb dev d COMMAND c) = (let v := tsee d in TView 0 (bool_decide (c = NIC_REM_WRITE + NIC_START)) (t_addr v) (t_left v) (t_mem v) (t_tpage v) (t_tcount v) (t_busy v) (t_sent v));
  tout_transmit : forall d, t_busy (tsee d) = false ->
    tsee (dev_outb dev d COMMAND (NIC_DMA_DISABLE + NIC_TRANSMIT + NIC_START)) =
    (let v := tsee d in TView 0 false (t_addr v) (t_left v) (t_mem v) (t_tpage v) (t_tcount v) true (t_sent v ++ [range (t_mem v) (256 * t_tpage v) (Z.to_nat (t_tcount v))]));
  tout_address0 : forall d c, t_page (tsee d) = 0 -> 0 <= c < 256 -> tsee (dev_outb dev d REMOTESTARTADDRESS0 c) = (let v := tsee d in t_dma v (t_addr v / 256 * 256 + c) (t_left v) (t_mem v));
  tout_address1 : forall d c, t_page (tsee d) = 0 -> 0 <= c < 256 -> tsee (dev_outb dev d REMOTESTARTADDRESS1 c) = (let v := tsee d in t_dma v (c * 256 + t_addr v mod 256) (t_left v) (t_mem v));
  tout_count0 : forall d c, t_page (tsee d) = 0 -> 0 <= c < 256 -> tsee (dev_outb dev d REMOTEBYTECOUNT0 c) = (let v := tsee d in t_dma v (t_addr v) (t_left v / 256 * 256 + c) (t_mem v));
  tout_count1 : forall d c, t_page (tsee d) = 0 -> 0 <= c < 256 -> tsee (dev_outb dev d REMOTEBYTECOUNT1 c) = (let v := tsee d in t_dma v (t_addr v) (c * 256 + t_left v mod 256) (t_mem v));
  tout_page : forall d c, t_page (tsee d) = 0 -> 0 <= c < 256 -> tsee (dev_outb dev d TRANSMITPAGE c) = (let v := tsee d in t_tx v c (t_tcount v));
  tout_tcount0 : forall d c, t_page (tsee d) = 0 -> 0 <= c < 256 -> tsee (dev_outb dev d TRANSMITBYTECOUNT0 c) = (let v := tsee d in t_tx v (t_tpage v) (t_tcount v / 256 * 256 + c));
  tout_tcount1 : forall d c, t_page (tsee d) = 0 -> 0 <= c < 256 -> tsee (dev_outb dev d TRANSMITBYTECOUNT1 c) = (let v := tsee d in t_tx v (t_tpage v) (c * 256 + t_tcount v mod 256));
  tout_status : forall d c p, t_page (tsee d) = 0 -> p = INTERRUPTSTATUS \/ p = INTERRUPTMASK -> tsee (dev_outb dev d p c) = tsee d
}.

(** ** Bytes in the memory of the card *)

(** [mem] with the bytes [l] at [a]. *)
Fixpoint put (mem : Z -> Z) (a : Z) (l : list Z) : Z -> Z := match l with [] => mem | b :: l => put (upd mem a b) (a + 1) l end.

Lemma put_out l : forall mem a x, x < a -> put mem a l x = mem x.
Proof. induction l as [|b l IH]; intros mem a x Hx; cbn [put]; [done|]. rewrite IH by lia. unfold upd. by rewrite decide_False by lia. Qed.

Lemma range_put l : forall mem a, range (put mem a l) a (length l) = l.
Proof. induction l as [|b l IH]; intros mem a; [done|]. cbn [put length range]. rewrite IH, put_out by lia. unfold upd. by rewrite decide_True. Qed.

Section driver.
Context {D : Type} (dev : device D) (w lo : Z) {chip : Dp8390Tx dev w lo}.

(** [s'] is [s] with the card in view [v]. *)
Definition tnow (s : st D) (v : tview) (s' : st D) : Prop := tsee (card s') = v /\ nic s' = nic s /\ blah s' = blah s /\ ticks s' = ticks s /\ got s' = got s.

Lemma tgives_outb v p s (Q : unit -> st D -> Prop) : (forall s', tnow s (tsee (dev_outb dev (card s) p (u8 v))) s' -> Q tt s') -> gives (outb dev v p) s Q.
Proof. intros H. eexists tt, _. split; [reflexivity|]. by apply H. Qed.

Lemma tgives_outw v p s (Q : unit -> st D -> Prop) : (forall s', tnow s (tsee (dev_outw dev (card s) p (u16 v))) s' -> Q tt s') -> gives (outw dev v p) s Q.
Proof. intros H. eexists tt, _. split; [reflexivity|]. by apply H. Qed.

Lemma tnow_trans s1 s2 s3 v2 v3 : tnow s1 v2 s2 -> tnow s2 v3 s3 -> tnow s1 v3 s3.
Proof. intros (V1 & N1 & B1 & T1 & G1) (V2 & N2 & B2 & T2 & G2). unfold tnow. split_and!; congruence. Qed.

Lemma out_bytes_ok l : forall s, w = 1 -> bytes l -> t_write (tsee (card s)) = true -> Z.of_nat (length l) <= t_left (tsee (card s)) -> t_addr (tsee (card s)) + Z.of_nat (length l) < 256 * lo ->
  gives (out_bytes dev l) s (fun _ s' => exists a n, tnow s (t_dma (tsee (card s)) a n (put (t_mem (tsee (card s))) (t_addr (tsee (card s))) l)) s').
Proof.
  induction l as [|b l IH]; intros s Hw Hb Ht Hl Ha; cbn [out_bytes length] in *.
  - apply gives_ret. exists (t_addr (tsee (card s))), (t_left (tsee (card s))). unfold tnow, t_dma. cbn [put]. split_and!; try done. by destruct (tsee (card s)).
  - inversion_clear Hb as [|? ? Hb1 Hb2]. apply gives_bind, tgives_outb. intros s1 T1. rewrite u8_small, tout_data in T1 by (done || lia). pose proof T1 as (V1 & _). eapply gives_impl; [apply IH; [done|done|by rewrite V1|rewrite V1; cbn [t_left t_dma]; lia|rewrite V1; cbn [t_addr t_dma]; lia]|].
    intros [] s2 (a & n & T2). exists a, n. rewrite V1 in T2. exact (tnow_trans _ _ _ _ _ T1 T2).
Qed.

Lemma out_words_ok n : forall l s, w = 2 -> length l = (2 * n)%nat -> bytes l -> t_write (tsee (card s)) = true -> Z.of_nat (length l) <= t_left (tsee (card s)) -> t_addr (tsee (card s)) + Z.of_nat (length l) < 256 * lo ->
  gives (out_words dev l) s (fun _ s' => exists a m, tnow s (t_dma (tsee (card s)) a m (put (t_mem (tsee (card s))) (t_addr (tsee (card s))) l)) s').
Proof.
  induction n as [|n IH]; intros [|x [|y l]] s Hw El Hb Ht Hl Ha; cbn [out_words length] in *; try lia.
  - apply gives_ret. exists (t_addr (tsee (card s))), (t_left (tsee (card s))). unfold tnow, t_dma. cbn [put]. split_and!; try done. by destruct (tsee (card s)).
  - inversion_clear Hb as [|? ? Hx Hb1]. inversion_clear Hb1 as [|? ? Hy Hb2]. apply gives_bind, tgives_outw. intros s1 T1. rewrite u16_small, tout_data_word in T1 by (done || lia). rewrite (Z.mul_comm 256), Z.mod_add, Z.mod_small, Z.div_add, Z.div_small in T1 by lia.
    pose proof T1 as (V1 & _). eapply gives_impl; [apply IH; [done|lia|done|by rewrite V1|rewrite V1; cbn [t_left t_dma]; lia|rewrite V1; cbn [t_addr t_dma]; lia]|].
    intros [] s2 (a & m & T2). exists a, m. rewrite V1 in T2. cbn [put t_dma t_mem t_addr] in *. replace (t_addr (tsee (card s)) + 1 + 1) with (t_addr (tsee (card s)) + 2) by lia. exact (tnow_trans _ _ _ _ _ T1 T2).
Qed.

Lemma tdma_match_ok low n : forall s, t_page (tsee (card s)) = 0 -> gives (dma_match dev low n) s (fun _ s' => tnow s (tsee (card s)) s').
Proof.
  induction n as [|n IH]; intros s Hp; cbn [dma_match]; [by apply gives_ret|]. apply gives_bind. unfold gives at 1, inb. destruct (dev_inb dev (card s) REMOTESTARTADDRESS1) as [x d1] eqn:E1. do 2 eexists. split; [reflexivity|].
  pose proof (tin_address (card s) REMOTESTARTADDRESS1 Hp (or_intror eq_refl)) as V1. rewrite E1 in V1. cbn [snd] in V1. apply gives_bind. unfold gives at 1, inb. cbn [card]. destruct (dev_inb dev d1 REMOTESTARTADDRESS0) as [y d2] eqn:E2. do 2 eexists. split; [reflexivity|].
  pose proof (tin_address d1 REMOTESTARTADDRESS0 ltac:(by rewrite V1) (or_introl eq_refl)) as V2. rewrite E2 in V2. cbn [snd] in V2. cbn [nic blah ticks got]. case_decide; [apply gives_ret; unfold tnow; cbn; split_and!; congruence|].
  eapply gives_impl; [apply IH; cbn [card]; congruence|]. cbn [card]. intros _ s' (V & E). unfold tnow in *. cbn in E. split; [congruence|done].
Qed.

(** A write of the registers of the transfer. *)
Definition t_cmd (c : Z) (v : tview) : tview := TView 0 (bool_decide (c = NIC_REM_WRITE + NIC_START)) (t_addr v) (t_left v) (t_mem v) (t_tpage v) (t_tcount v) (t_busy v) (t_sent v).

Lemma set_transfer (R : unit -> st D -> Prop) (k : N unit) c0 c1 a0 a1 c s : t_page (tsee (card s)) = 0 -> 0 <= c0 < 256 -> 0 <= c1 < 256 -> 0 <= a0 < 256 -> 0 <= a1 < 256 -> c = NIC_REM_READ + NIC_START \/ c = NIC_REM_WRITE + NIC_START ->
  (forall s', tnow s (t_cmd c (t_dma (tsee (card s)) (a1 * 256 + a0) (c1 * 256 + c0) (t_mem (tsee (card s))))) s' -> gives k s' R) ->
  gives (bind (outb dev c0 REMOTEBYTECOUNT0) (fun _ => bind (outb dev c1 REMOTEBYTECOUNT1) (fun _ => bind (outb dev a0 REMOTESTARTADDRESS0) (fun _ => bind (outb dev a1 REMOTESTARTADDRESS1) (fun _ => bind (outb dev c COMMAND) (fun _ => k)))))) s R.
Proof.
  intros Hp H0 H1 H2 H3 Hc H. assert (forall x y, 0 <= y < 256 -> (x / 256 * 256 + y) mod 256 = y) as Hm by (intros x y Hy; rewrite Z.add_comm, Z.mod_add by lia; by apply Z.mod_small).
  apply gives_bind, tgives_outb. intros s1 (V1 & N1 & B1 & T1 & G1). rewrite u8_small, tout_count0 in V1 by done. apply gives_bind, tgives_outb. intros s2 (V2 & N2 & B2 & T2 & G2). rewrite u8_small, tout_count1 in V2 by (done || by rewrite V1).
  apply gives_bind, tgives_outb. intros s3 (V3 & N3 & B3 & T3 & G3). rewrite u8_small, tout_address0 in V3 by (done || by rewrite V2, V1). apply gives_bind, tgives_outb. intros s4 (V4 & N4 & B4 & T4 & G4). rewrite u8_small, tout_address1 in V4 by (done || by rewrite V3, V2, V1).
  apply gives_bind, tgives_outb. intros s5 (V5 & N5 & B5 & T5 & G5). rewrite (u8_small c), tout_command in V5 by (destruct Hc as [->| ->]; done || tauto). apply H. unfold tnow. split_and!; try congruence.
  rewrite V5, V4, V3, V2, V1. unfold t_cmd, t_dma. cbn [t_addr t_left t_mem t_tpage t_tcount t_busy t_sent]. by rewrite !Hm.
Qed.

(** The bytes are in the memory of the card; the registers of the transmission are untouched. *)
Definition loaded (page : Z) (buf : list Z) (v v' : tview) : Prop :=
  t_page v' = 0 /\ t_mem v' = put (t_mem v) (256 * page) buf /\ t_busy v' = t_busy v /\ t_sent v' = t_sent v.

Lemma nic_block_output_ok buf page s : (w = 1 \/ w = 2 /\ (length buf mod 2 = 0)%nat) -> wordlength (nic s) = w -> bytes buf -> 0 <= page < 256 -> Z.of_nat (length buf) < 65536 -> 256 * page + Z.of_nat (length buf) < 256 * lo ->
  gives (nic_block_output dev buf page) s (fun _ s' => nic s' = nic s /\ blah s' = blah s /\ got s' = got s /\ loaded page buf (tsee (card s)) (tsee (card s'))).
Proof.
  intros Hw Ew Hb Hp Hl Ha. destruct (byte_split (Z.of_nat (length buf)) ltac:(lia)) as (L0 & L1 & EL). unfold nic_block_output. apply gives_bind, tgives_outb. intros s1 T1. change (u8 (NIC_DMA_DISABLE + NIC_PAGE0 + NIC_START)) with (NIC_DMA_DISABLE + NIC_PAGE0 + NIC_START) in T1.
  rewrite tout_command in T1 by tauto. pose proof T1 as (V1 & _). apply set_transfer; [by rewrite V1|lia..|tauto|]. intros s2 T2. pose proof T2 as (V2 & _). apply gives_bind, tgives_outb. intros s3 T3. rewrite tout_status in T3 by (tauto || by rewrite V2). pose proof T3 as (V3 & _).
  apply set_transfer; [by rewrite V3, V2|lia..|tauto|]. intros s4 T4. rewrite EL, Z.add_0_r in T4. pose proof T4 as (V4 & _). pose proof (tnow_trans _ _ _ _ _ (tnow_trans _ _ _ _ _ (tnow_trans _ _ _ _ _ T1 T2) T3) T4) as (_ & N4 & B4 & _ & G4).
  rewrite V3, V2, V1 in V4. unfold t_cmd, t_dma in V4. cbn [t_addr t_left t_mem t_tpage t_tcount t_busy t_sent] in V4.
  apply gives_bind, gives_the. rewrite N4, Ew. apply gives_bind. apply (gives_impl _ _ (fun _ s' => exists a m, tnow s4 (t_dma (tsee (card s4)) a m (put (t_mem (tsee (card s4))) (t_addr (tsee (card s4))) buf)) s')).
  { destruct (decide (w = 2)) as [E2|E2].
    - destruct Hw as [?|[_ He]]; [lia|]. apply (out_words_ok (length buf / 2)); [done| |done|by rewrite V4|rewrite V4; cbn [t_left]; lia|rewrite V4; cbn [t_addr]; lia]. pose proof (Nat.div_mod_eq (length buf) 2). lia.
    - apply out_bytes_ok; [lia|done|by rewrite V4|rewrite V4; cbn [t_left]; lia|rewrite V4; cbn [t_addr]; lia]. }
  intros [] s5 (a & m & V5 & N5 & B5 & T5 & G5). apply gives_bind. eapply gives_impl; [apply tdma_match_ok; by rewrite V5, V4|]. intros [] s6 (V6 & N6 & B6 & T6 & G6). apply tgives_outb. intros s7 (V7 & N7 & B7 & T7 & G7).
  rewrite tout_status in V7 by (tauto || by rewrite V6, V5, V4). unfold loaded. rewrite V7, V6, V5, V4. unfold t_dma. cbn [t_page t_mem t_addr t_busy t_sent]. replace (page * 256) with (256 * page) by lia. split_and!; congruence || done.
Qed.

(** ** A packet *)

Definition slot (s : st D) (f : Z) (x : tx_packet) : Prop := aget (tx (nic s)) f = Some x.

(** nic_send on a card that is not transmitting: the frame goes out. *)
Lemma transmit_ok f x s : slot s f x -> t_busy (tsee (card s)) = false -> 0 <= tx_len x < 65536 -> 0 <= tx_page x < 256 ->
  gives (nic_send dev f) s (fun r s' => r = NOERR /\ nic s' = nic s /\ blah s' = blah s /\ got s' = got s /\ t_page (tsee (card s')) = 0 /\ t_busy (tsee (card s')) = true /\
    t_sent (tsee (card s')) = t_sent (tsee (card s)) ++ [range (t_mem (tsee (card s))) (256 * tx_page x) (Z.to_nat (tx_len x))]).
Proof.
  intros Hx Hb Hl Hp. destruct (byte_split (tx_len x) ltac:(lia)) as (L0 & L1 & EL). assert (forall a y, 0 <= y < 256 -> (a / 256 * 256 + y) mod 256 = y) as Hm by (intros a y Hy; rewrite Z.add_comm, Z.mod_add by lia; by apply Z.mod_small).
  unfold nic_send. apply gives_bind, tgives_outb. intros s1 (V1 & N1 & B1 & T1 & G1). change (u8 (NIC_DMA_DISABLE + NIC_PAGE0)) with (NIC_DMA_DISABLE + NIC_PAGE0) in V1. rewrite tout_command in V1 by tauto.
  apply gives_bind. destruct (tin_command (card s1)) as (c & d' & Ec & Vd & Hc); [by rewrite V1|]. exists c, (St d' (nic s1) (blah s1) (ticks s1) (got s1)). split; [unfold inb; by rewrite Ec|]. apply gives_bind. exists x, (St d' (nic s1) (blah s1) (ticks s1) (got s1)).
  split; [unfold tx_get; cbn [nic]; rewrite N1; unfold slot in Hx; by rewrite Hx|]. rewrite decide_False by (intros Hn; apply Hn, Hc; by rewrite V1).
  apply gives_bind, tgives_outb. intros s2 (V2 & N2 & B2 & T2 & G2). cbn [card nic blah ticks got] in *. rewrite u8_small, tout_tcount0 in V2 by (done || by rewrite Vd, V1). apply gives_bind, tgives_outb. intros s3 (V3 & N3 & B3 & T3 & G3). rewrite u8_small, tout_tcount1 in V3 by (done || by rewrite V2, Vd, V1).
  apply gives_bind, tgives_outb. intros s4 (V4 & N4 & B4 & T4 & G4). rewrite u8_small, tout_page in V4 by (done || by rewrite V3, V2, Vd, V1). apply gives_bind, tgives_outb. intros s5 (V5 & N5 & B5 & T5 & G5).
  change (u8 (NIC_DMA_DISABLE + NIC_TRANSMIT + NIC_START)) with (NIC_DMA_DISABLE + NIC_TRANSMIT + NIC_START) in V5. rewrite tout_transmit in V5 by (by rewrite V4, V3, V2, Vd, V1). apply gives_ret. rewrite V5, V4, V3, V2, Vd, V1.
  unfold t_tx. cbn [t_page t_mem t_busy t_sent t_tpage t_tcount]. rewrite Hm, EL by done. split_and!; congruence || done.
Qed.

(** nic_send on a card that is still transmitting: the buffer is free again. *)
Lemma nic_send_busy f x s : slot s f x -> t_busy (tsee (card s)) = true ->
  gives (nic_send dev f) s (fun r s' => r = ERRTIMEOUT /\ nic s' = set_tx (<[Z.to_nat f := Tx 0 (tx_page x) (tx_data x)]> (tx (nic s))) (nic s) /\ blah s' = blah s /\ got s' = got s /\ t_page (tsee (card s')) = 0 /\ t_busy (tsee (card s')) = true /\ t_sent (tsee (card s')) = t_sent (tsee (card s))).
Proof.
  intros Hx Hb. unfold nic_send. apply gives_bind, tgives_outb. intros s1 (V1 & N1 & B1 & T1 & G1). change (u8 (NIC_DMA_DISABLE + NIC_PAGE0)) with (NIC_DMA_DISABLE + NIC_PAGE0) in V1. rewrite tout_command in V1 by tauto.
  apply gives_bind. destruct (tin_command (card s1)) as (c & d' & Ec & Vd & Hc); [by rewrite V1|]. exists c, (St d' (nic s1) (blah s1) (ticks s1) (got s1)). split; [unfold inb; by rewrite Ec|]. apply gives_bind. exists x, (St d' (nic s1) (blah s1) (ticks s1) (got s1)).
  split; [unfold tx_get; cbn [nic]; rewrite N1; unfold slot in Hx; by rewrite Hx|]. rewrite decide_True by (rewrite V1 in Hc; cbn [t_busy] in Hc; rewrite Hb in Hc; intros Hz; apply Hc in Hz; congruence).
  apply gives_bind. destruct (aget_Some _ _ _ Hx) as [Hf1 Hf2]. eexists tt, _. split; [unfold tx_set; cbn [nic]; rewrite N1, aset_in_range by done; reflexivity|]. apply gives_ret. cbn [card nic blah got]. rewrite Vd, V1. done.
Qed.

(** ** nic_send_packet *)

(** A frame is at least 60 bytes long. *)
Definition padded (buf : list Z) : list Z := buf ++ replicate (Z.to_nat (MIN_LENGTH - Z.of_nat (length buf))) 0.

(** Buffer [g] is the first that is free. *)
Definition first_free (s : st D) (f g : Z) : Prop := (exists x, slot s g x /\ tx_len x = 0) /\ forall h, f <= h < g -> exists y, slot s h y /\ tx_len y <> 0.

(** The driver is set up for the card, and the card has page 0 of its registers. *)
Definition tx_ready (s : st D) : Prop := wordlength (nic s) = w /\ 0 <= pstart (nic s) /\ pstart (nic s) + TXPAGES = lo /\ lo <= 256.

Definition tx_page_of (s : st D) (g : Z) : Z := pstart (nic s) + g * MAX_PAGESPERPACKET.

(** What buffer [g] holds in the end, and what is on the wire: the packet, or on a card that is
  transmitting nothing. *)
Definition entry (buf : list Z) (g : Z) (s : st D) : tx_packet := Tx (if t_busy (tsee (card s)) then 0 else Z.of_nat (length buf)) (tx_page_of s g) buf.
Definition on_wire (buf : list Z) (s : st D) : list (list Z) := t_sent (tsee (card s)) ++ (if t_busy (tsee (card s)) then [] else [buf]).
Definition went_out (buf : list Z) (g : Z) (s s' : st D) : Prop :=
  t_page (tsee (card s')) = 0 /\ t_busy (tsee (card s')) = true /\ t_sent (tsee (card s')) = on_wire buf s /\ got s' = got s /\ blah s' = blah s /\
  nic s' = set_send g (set_tx (<[Z.to_nat g := entry buf g s]> (tx (nic s))) (nic s)).

Lemma send_loop_ok buf g n : forall f s, (w = 1 \/ w = 2 /\ (length buf mod 2 = 0)%nat) -> tx_ready s -> bytes buf -> Z.of_nat (length buf) <= MAX_LENGTH -> 0 <= f -> f <= g < f + Z.of_nat n -> g < MAX_TX -> first_free s f g ->
  gives (send_loop dev buf f n) s (fun ok s' => ok = negb (t_busy (tsee (card s))) /\ went_out buf g s s').
Proof.
  unfold MAX_LENGTH, MAX_TX. induction n as [|n IH]; intros f s Hw Hr Hb Hl Hf Hg Hg2 Hfree; [lia|]. pose proof Hfree as [(x & Hx & Hx0) Hused]. cbn [send_loop]. unfold tx_get. destruct (decide (f = g)) as [->|Hne].
  - apply gives_bind. exists x, s. split; [unfold slot in Hx; by rewrite Hx|]. rewrite decide_True by done. destruct (aget_Some _ _ _ Hx) as [Hin _]. apply gives_bind, gives_the. fold (tx_page_of s g). set (y := Tx (Z.of_nat (length buf)) (tx_page_of s g) buf). apply gives_bind.
    eexists tt, (St (card s) (set_tx (<[Z.to_nat g := y]> (tx (nic s))) (nic s)) (blah s) (ticks s) (got s)). split; [unfold tx_set; by rewrite aset_in_range|]. destruct Hr as (R1 & R2 & R3 & R4). unfold TXPAGES in R3.
    apply gives_bind. eapply gives_impl; [apply nic_block_output_ok; [done|done|done|cbn [y tx_page]; unfold tx_page_of, MAX_PAGESPERPACKET; lia|lia|cbn [y tx_page]; unfold tx_page_of, MAX_PAGESPERPACKET; lia]|].
    intros [] s1 (N1 & B1 & G1 & P1 & M1 & Y1 & S1). cbn [card nic blah ticks got] in *. apply gives_bind, gives_change. apply gives_bind.
    assert (forall d b t o, slot (St d (set_send g (nic s1)) b t o) g y) as Hslot by (intros; unfold slot; cbn [nic]; rewrite N1; cbn [set_send set_tx tx]; by apply aget_insert_eq). unfold went_out, on_wire, entry. destruct (t_busy (tsee (card s))) eqn:Et.
    + eapply gives_impl; [apply (nic_send_busy g y); [apply Hslot|exact Y1]|]. intros r s2 (-> & N2 & B2 & G2 & P2 & Y2 & S2). cbn [card nic blah ticks got] in *. apply gives_ret. split; [done|].
      split_and!; try congruence; [by rewrite app_nil_r, S2|]. rewrite N2, N1. cbn [y tx_page tx_data set_send set_tx tx]. by rewrite list_insert_insert_eq.
    + eapply gives_impl; [apply (transmit_ok g y); [apply Hslot|exact Y1|cbn [y tx_len]; lia|cbn [y tx_page]; unfold tx_page_of, MAX_PAGESPERPACKET; lia]|].
      intros r s2 (-> & N2 & B2 & G2 & P2 & Y2 & S2). cbn [card nic blah ticks got] in *. apply gives_ret. split; [done|]. split_and!; try congruence; [rewrite S2, S1, M1; cbn [y tx_page tx_len]; by rewrite Nat2Z.id, range_put|by rewrite N2, N1].
  - destruct (Hused f ltac:(lia)) as (y & Hy & Hy0). apply gives_bind. exists y, s. split; [unfold slot in Hy; by rewrite Hy|]. rewrite decide_False by done. apply IH; [done|done|done|lia..|]. split; [by exists x|]. intros h Hh. apply Hused. lia.
Qed.

Lemma padded_bytes buf : bytes buf -> bytes (padded buf).
Proof. intros H. apply Forall_app. split; [done|]. by apply Forall_replicate. Qed.

Lemma length_padded_frame buf : Z.of_nat (length (padded buf)) = Z.max MIN_LENGTH (Z.of_nat (length buf)).
Proof. unfold padded, MIN_LENGTH. rewrite length_app, length_replicate. lia. Qed.

(** The packet goes out, with zeros up to the least length of a frame, or is refused. *)
Definition outcome (s : st D) : Z := if t_busy (tsee (card s)) then ERR else NOERR.
Definition counted (s : st D) (n : Z) : Z := if t_busy (tsee (card s)) then n else s32 (n + 1).

Lemma send_packet_ok buf g s : (w = 1 \/ w = 2 /\ (length (padded buf) mod 2 = 0)%nat) -> tx_ready s -> iobase (nic s) <> 0 -> busy (nic s) = false -> bytes buf -> 0 < Z.of_nat (length buf) <= MAX_LENGTH -> MIN_LENGTH <= Z.of_nat (length (blah s)) ->
  0 <= g < MAX_TX -> first_free s 0 g -> t_page (tsee (card s)) = 0 ->
  gives (nic_send_packet dev buf) s (fun r s' => r = outcome s /\ t_sent (tsee (card s')) = on_wire (padded buf) s /\ t_busy (tsee (card s')) = true /\
    slot s' g (entry (padded buf) g s) /\ (forall h, h <> g -> aget (tx (nic s')) h = aget (tx (nic s)) h) /\
    send (nic s') = g /\ busy (nic s') = false /\ tx_buffered (stat (nic s')) = counted s (tx_buffered (stat (nic s))) /\ got s' = got s /\
    blah s' = (if decide (Z.of_nat (length buf) < MIN_LENGTH) then splice (blah s) 0 (padded buf) else blah s)).
Proof.
  intros Hw Hr Hi Hbusy Hb Hl Hblah Hg Hfree Hp. pose proof (length_padded_frame buf) as Hlen. unfold MIN_LENGTH, MAX_LENGTH in *. unfold nic_send_packet. apply gives_bind, gives_the. rewrite decide_False by lia. rewrite decide_False by (unfold MAX_LENGTH; lia).
  apply gives_bind, gives_the. rewrite Hbusy. apply gives_bind, gives_change. apply gives_bind. apply (gives_impl _ _ (fun _ s1 => card s1 = card s /\ nic s1 = set_busy true (nic s) /\ got s1 = got s /\ blah s1 = (if decide (Z.of_nat (length buf) < MIN_LENGTH) then splice (blah s) 0 (padded buf) else blah s))).
  { unfold MIN_LENGTH. case_decide as Hmin; [|by apply gives_ret]. apply gives_fill; [cbn [blah]; unfold fits; fold (padded buf); unfold MIN_LENGTH in *; change (buf ++ replicate (Z.to_nat (60 - Z.of_nat (length buf))) 0) with (padded buf); lia|by apply padded_bytes|].
    intros s1 (C1 & N1 & B1 & G1). done. }
  intros [] s1 (C1 & N1 & G1 & B1). apply gives_bind, tgives_outb. intros s2 (V2 & N2 & B2 & T2 & G2). rewrite tout_status in V2 by (tauto || by rewrite C1).
  match goal with |- context [send_loop dev ?l 0 _] => assert (l = padded buf) as -> by (unfold padded, MIN_LENGTH; destruct (decide (Z.of_nat (length buf) < 60)); [done|]; replace (Z.to_nat (60 - Z.of_nat (length buf))) with 0%nat by lia; by rewrite app_nil_r) end.
  apply gives_bind. eapply gives_impl.
  { apply (send_loop_ok (padded buf) g); [done|unfold tx_ready; by rewrite N2, N1|by apply padded_bytes|unfold MAX_LENGTH; lia|lia|unfold MAX_TX in *; lia|lia|]. destruct Hfree as [F1 F2]. unfold first_free, slot in *. by rewrite N2, N1. }
  intros ok s3 (-> & P3 & Y3 & S3 & G3 & B3 & N3). rewrite N2, N1 in N3. assert (entry (padded buf) g s2 = entry (padded buf) g s) as Een by (unfold entry, tx_page_of; by rewrite N2, N1, V2, C1). rewrite Een in N3. assert (on_wire (padded buf) s2 = on_wire (padded buf) s) as Ewi by (unfold on_wire; by rewrite V2, C1). rewrite Ewi in S3.
  rewrite V2, C1. apply gives_bind. apply (gives_impl _ _ (fun _ s4 => card s4 = card s3 /\ blah s4 = blah s3 /\ got s4 = got s3 /\ tx (nic s4) = tx (nic s3) /\ send (nic s4) = send (nic s3) /\ tx_buffered (stat (nic s4)) = counted s (tx_buffered (stat (nic s3))))).
  { unfold counted. destruct (t_busy (tsee (card s))); [by apply gives_ret|by apply gives_change]. }
  intros [] s4 (C4 & B4 & G4 & X4 & D4 & U4). apply gives_bind, tgives_outb. intros s5 (V5 & N5 & B5 & T5 & G5). rewrite C4, tout_status in V5 by tauto. apply gives_bind, gives_change. apply gives_ret. cbn [card nic blah ticks got]. unfold slot. cbn [nic set_busy set_tx tx send busy stat tx_buffered].
  rewrite V5, N5, X4, D4, U4, N3, S3. destruct Hfree as [(x & Hx & _) _]. destruct (aget_Some _ _ _ Hx) as [Hin _]. cbn [set_busy set_send set_tx tx send busy stat].
  split_and!; try done; [unfold outcome; by destruct (t_busy (tsee (card s)))|by apply aget_insert_eq|intros h Hh; apply aget_insert_ne; lia|congruence|rewrite B5, B4, B3, B2; exact B1].
Qed.


End driver.

(** ** A card *)

Definition hw_tview (c : hw) : tview := TView (h_page c) (bool_decide (h_cmd c = NIC_REM_WRITE + NIC_START)) (h_addr c) (h_left c) (h_mem c) (h_tpage c) (h_tcount c) (h_busy c) (h_sent c).

Lemma hw_dp8390tx w lo hi : lo <= hi -> Dp8390Tx (hw_device lo hi) w lo.
Proof.
  intros Hlh. assert (forall a, a + 1 < 256 * lo -> step lo hi a = a + 1) as Hst by (intros a Ha; unfold step; by rewrite decide_False by lia).
  refine {| tsee := hw_tview |}.
  - intros d Hp. eexists _, d. split; [reflexivity|]. split; [done|]. cbn. by destruct (h_busy d).
  - intros d p H [->| ->]; reflexivity.
  - intros d c _ Ht Hl Ha Hc. cbn in *. unfold hw_outb, hw_tview, t_dma. cbn. by rewrite Hst by done.
  - intros d c _ Ht Hl Ha Hc. cbn in *. unfold hw_outw, hw_tview, t_dma. rewrite decide_True by done. rewrite !Hst by (rewrite ?Hst; lia). replace (h_addr d + 1 + 1) with (h_addr d + 2) by lia. assert (u8 (Z.shiftr c 8) = c / 256) as -> ; [|reflexivity].
    rewrite Z.shiftr_div_pow2 by lia. apply u8_small. change (2 ^ 8) with 256. split; [apply Z.div_pos; lia|apply Z.div_lt_upper_bound; lia].
  - intros d c [->|[->|[->| ->]]]; unfold hw_tview; by destruct d as [? ? ? ? ? ? ? ? ? [] ?].
  - intros [] Hb. cbn in Hb. by subst.
  - intros [] c Hp Hc. cbn in Hp. by subst.
  - intros [] c Hp Hc. cbn in Hp. by subst.
  - intros [] c Hp Hc. cbn in Hp. by subst.
  - intros [] c Hp Hc. cbn in Hp. by subst.
  - intros [] c Hp Hc. cbn in Hp. by subst.
  - intros [] c Hp Hc. cbn in Hp. by subst.
  - intros [] c Hp Hc. cbn in Hp. by subst.
  - intros [] c p Hp [->| ->]; cbn in Hp; by subst.
Defined.

Definition quiet : hw := Hw 0 (NIC_DMA_DISABLE + NIC_START) 0x4b 0x4c 0 0 (fun _ => 0) 0 0 false [].
Definition quiet_state : st hw := St quiet a_nic (replicate 1500 0) 0 [].

Definition quiet_loader : NetBoot.nbt := NetBoot.Nbt (replicate 1500 0) [] false 0 false false EmptyString [] [] [] [] [] [] 0 empty.


(** A packet that comes while the card is transmitting is refused, but [send] names its
  buffer from then on: the buffer of the packet on its way is never released, and goes out a
  second time behind the next packet. *)
Definition fin (s : st hw) : st hw := St (finish (card s)) (nic s) (blah s) (ticks s) (got s).
Definition sent_twice : N Z :=
  let dev := hw_device 0x4c 0x80 in
  bind (nic_send_packet dev (some_bytes 60 1)) (fun _ => bind (nic_send_packet dev (some_bytes 60 2)) (fun r =>
  bind (fun s => nic_tx dev (fin s)) (fun _ => bind (nic_send_packet dev (some_bytes 60 3)) (fun _ => bind (fun s => nic_tx dev (fin s)) (fun _ => ret r))))).

Example refused_then_repeated : gives sent_twice quiet_state (fun r s' => r = ERR /\ h_sent (card s') = [some_bytes 60 1; some_bytes 60 3; some_bytes 60 1] /\ map tx_len (tx (nic s')) = [60; 0] /\ send (nic s') = 1).
Proof. do 2 eexists. split; [vm_compute; reflexivity|]. by vm_compute. Qed.

End NicSend.
