(* ===== verification/Disk.v ===== *)
(** lib/libblt/disk.c: the list of the partitions of a disk, from its partition table and the
  labels of its BSD partitions.

  The disk is a block device of lib/libblt/blkdev.c (Ffs).  The buffers that malloc gives out
  are arguments, and the array of partitions has undefined entries until they are written. *)
From S2P Require Import Prelude LibC Bytes Ffs FfsDisk.
Import LibC Bytes Ffs FfsDisk.
Local Open Scope Z_scope.
Local Open Scope c_scope.

Module Disk.

Definition FDISK_TYPE_EMPTY : Z := 0x00.
Definition FDISK_TYPE_FREEBSD : Z := 0xa5.
Definition FDISK_TYPE_OPENBSD : Z := 0xa6.
Definition FREEBSD_FFS : Z := 0x100.
Definition FREEBSD_SWAP : Z := 0x101.
Definition OPENBSD_FFS : Z := 0x102.
Definition OPENBSD_SWAP : Z := 0x103.
Definition BSD_MAXSLICES : nat := 16.
Definition BSD_FS_UNUSED : Z := 0.
Definition BSD_FS_SWAP : Z := 1.
Definition BSD_FS_BSDFFS : Z := 7.

(** The fields of a partition of the table, and of a slice of a label, at their offsets. *)
Definition fdisk_at (mbr : list Z) (i : nat) : cres (Z * Z * Z) :=
  let p := 0x1be + 16 * Z.of_nat i in
  let! t := rd mbr (p + 4) in let! start := ld32 mbr (p + 8) in let! size := ld32 mbr (p + 12) in Ok (t, start, size).
Definition slice_at (label : list Z) (j : nat) : cres (Z * Z * Z) :=
  let p := 148 + 16 * Z.of_nat j in
  let! size := ld32 label p in let! offset := ld32 label (p + 4) in let! fstype := rd label (p + 12) in Ok (fstype, offset, size).

Record partition := Part { name : list Z; ptype : Z; start : Z; size : Z }.
(** The array of partitions; an entry that was not written is [None]. *)
Record disk := Dsk { numparts : Z; parts : list (option partition) }.

Definition blt_internal_code (fdisk fstype : Z) : Z :=
  if decide (fdisk = FDISK_TYPE_FREEBSD) then
    (if decide (fstype = BSD_FS_BSDFFS) then FREEBSD_FFS else if decide (fstype = BSD_FS_SWAP) then FREEBSD_SWAP else 0)
  else if decide (fdisk = FDISK_TYPE_OPENBSD) then
    (if decide (fstype = BSD_FS_BSDFFS) then OPENBSD_FFS else if decide (fstype = BSD_FS_SWAP) then OPENBSD_SWAP else 0)
  else 0.

(** A loop over indices. *)
Fixpoint each {S} (f : S -> nat -> cres S) (l : list nat) (s : S) : cres S :=
  match l with [] => Ok s | i :: l => let! s := f s i in each f l s end.

Definition is_bsd (t : Z) : bool := bool_decide (t = FDISK_TYPE_FREEBSD) || bool_decide (t = FDISK_TYPE_OPENBSD).

Section disk.
Context (dev : blkdev).

(** blk_read of the label behind the first sector of a partition; its result is not looked at. *)
Definition read_label (label : list Z) (start : Z) : cres (list Z) :=
  let! r := blk_read dev label 0 (s32 (u32 (start + 1))) 1 in Ok (fst r).

Definition count_slice (label : list Z) (n : Z) (j : nat) : cres Z :=
  let! (t, _, _) := slice_at label j in Ok (if decide (t <> BSD_FS_UNUSED) then n + 1 else n).
Definition count_part (mbr : list Z) (s : list Z * Z) (i : nat) : cres (list Z * Z) :=
  let (label, n) := s in
  let! (t, start, _) := fdisk_at mbr i in
  if decide (t = FDISK_TYPE_EMPTY) then Ok (label, n)
  else if is_bsd t then
    let! label := read_label label start in
    let! n := each (count_slice label) (seq 0 BSD_MAXSLICES) (n + 1) in
    Ok (label, n)
  else Ok (label, n + 1).

(** The entry [x] of the array is written, and [x] is advanced. *)
Definition add_part (s : list (option partition) * Z) (p : partition) : cres (list (option partition) * Z) :=
  let (l, x) := s in let? l := aset l x (Some p) in Ok (l, x + 1).

Definition fill_part (mbr : list Z) (s : list (option partition) * Z) (i : nat) : cres (list (option partition) * Z) :=
  let! (t, start, size) := fdisk_at mbr i in
  if decide (t <> 0) then add_part s (Part [48 + Z.of_nat i] t start size) else Ok s.

Definition fill_slice (t : Z) (i : nat) (label : list Z) (s : list (option partition) * Z) (j : nat) : cres (list (option partition) * Z) :=
  let! (fstype, offset, size) := slice_at label j in
  if decide (fstype <> BSD_FS_UNUSED) then add_part s (Part [48 + Z.of_nat i; 97 + Z.of_nat j] (blt_internal_code t fstype) offset size) else Ok s.
Definition fill_slices (mbr : list Z) (s : list Z * (list (option partition) * Z)) (i : nat) : cres (list Z * (list (option partition) * Z)) :=
  let (label, s) := s in
  let! (t, start, _) := fdisk_at mbr i in
  if is_bsd t then
    let! label := read_label label start in
    let! s := each (fill_slice t i label) (seq 0 BSD_MAXSLICES) s in
    Ok (label, s)
  else Ok (label, s).

(** [mbr] and [label] are the two buffers, as malloc leaves them. *)
Definition disk_alloc (mbr label : list Z) : cres disk :=
  let! (mbr, _) := blk_read dev mbr 0 0 1 in
  let! (label, n) := each (count_part mbr) (seq 0 4) (label, 0) in
  let array := replicate (Z.to_nat n) None in
  let! s := each (fill_part mbr) (seq 0 4) (array, 0) in
  let! (_, (l, _)) := each (fill_slices mbr) (seq 0 4) (label, s) in
  Ok (Dsk n l).

End disk.

(** The entry of the array that a caller asks for. *)
Definition disk_partition (d : disk) (i : Z) : cres partition := let? p := aget (parts d) i in deref p.
Definition disk_partition_name (d : disk) (i : Z) : cres (list Z) := let! p := disk_partition d i in Ok (name p).
Definition disk_partition_start (d : disk) (i : Z) : cres Z := let! p := disk_partition d i in Ok (start p).
Definition disk_partition_size (d : disk) (i : Z) : cres Z := let! p := disk_partition d i in Ok (size p).
Definition disk_partition_type (d : disk) (i : Z) : cres Z := let! p := disk_partition d i in Ok (ptype p).

(** ** What is on the disk *)

Record slice_desc := SD { sd_type : Z; sd_offset : Z; sd_size : Z }.
(** A partition of the table, with the slices of its label if it is one of BSD. *)
Record part_desc := PD { pd_type : Z; pd_start : Z; pd_size : Z; pd_slices : list slice_desc }.

(** The types of the partitions of BSD, and the types that the file systems in them get. *)
Definition bsd (t : Z) : Prop := t = 0xa5 \/ t = 0xa6.
#[global] Instance bsd_dec t : Decision (bsd t) := _.
Definition slice_type (t fs : Z) : Z :=
  if decide (t = 0xa5 /\ fs = 7) then 0x100 else if decide (t = 0xa5 /\ fs = 1) then 0x101
  else if decide (t = 0xa6 /\ fs = 7) then 0x102 else if decide (t = 0xa6 /\ fs = 1) then 0x103 else 0.

(** What the caller gets: the partitions that are not empty, called 0 to 3, and behind them the
  slices in use of those of BSD, called 0a and so on. *)
Definition list_part (i : nat) (p : part_desc) : list partition :=
  if decide (pd_type p = 0) then [] else [Part [48 + Z.of_nat i] (pd_type p) (pd_start p) (pd_size p)].
Definition list_slice (t : Z) (i j : nat) (d : slice_desc) : list partition :=
  if decide (sd_type d = 0) then [] else [Part [48 + Z.of_nat i; 97 + Z.of_nat j] (slice_type t (sd_type d)) (sd_offset d) (sd_size d)].
Definition list_slices (i : nat) (p : part_desc) : list partition :=
  if decide (bsd (pd_type p)) then concat (imap (list_slice (pd_type p) i) (pd_slices p)) else [].
Definition listing (desc : list part_desc) : list partition := concat (imap list_part desc) ++ concat (imap list_slices desc).

(** The bytes of a partition table, behind the 446 of the boot program, and those of a label,
  behind its 148 of geometry: four and sixteen entries of 16 bytes. *)
Definition table_has (m : list Z) (i : nat) (p : part_desc) : Prop :=
  let e := 446 + 16 * Z.of_nat i in num m (e + 4) 1 = pd_type p /\ num m (e + 8) 4 = pd_start p /\ num m (e + 12) 4 = pd_size p.
Definition label_has (m : list Z) (j : nat) (d : slice_desc) : Prop :=
  let e := 148 + 16 * Z.of_nat j in num m e 4 = sd_size d /\ num m (e + 4) 4 = sd_offset d /\ num m (e + 12) 1 = sd_type d.
(** A sector that can be read, and its bytes. *)
Definition sector_is (dev : blkdev) (b : Z) (m : list Z) : Prop := sector dev b = inl m /\ length m = Z.to_nat (blksize dev) /\ bytes m.

(** A disk with the table in sector 0, and for each partition of BSD the label in the sector
  behind its first one. *)
Record on_disk (dev : blkdev) (desc : list part_desc) : Prop := {
  od_four : length desc = 4%nat;
  od_size : 512 <= blksize dev;
  od_table : exists m, sector_is dev 0 m /\ forall i p, desc !! i = Some p -> table_has m i p;
  od_labels : forall i p, desc !! i = Some p -> bsd (pd_type p) -> length (pd_slices p) = 16%nat /\ 0 <= pd_start p < 2 ^ 31 - 1 /\
    exists m, sector_is dev (pd_start p + 1) m /\ forall j d, pd_slices p !! j = Some d -> label_has m j d
}.

(** The driver finds the fields there. *)
Lemma rd_num m p : fits m p 1 -> rd m p = Ok (num m p 1).
Proof. intros Hf. destruct (rd_slice m p Hf) as (c & -> & E). unfold num. rewrite E. cbn [le]. f_equal. lia. Qed.

Lemma fdisk_at_table m i p : (i < 4)%nat -> (512 <= length m)%nat -> table_has m i p -> fdisk_at m i = Ok (pd_type p, pd_start p, pd_size p).
Proof.
  intros Hi Hm (E1 & E2 & E3). unfold fdisk_at. change 0x1be with 446. rewrite rd_num, !ld32_num by (unfold fits; lia). cbn [cbind]. by rewrite E1, E2, E3.
Qed.

Lemma slice_at_label m j d : (j < 16)%nat -> (512 <= length m)%nat -> label_has m j d -> slice_at m j = Ok (sd_type d, sd_offset d, sd_size d).
Proof.
  intros Hj Hm (E1 & E2 & E3). unfold slice_at. rewrite rd_num, !ld32_num by (unfold fits; lia). cbn [cbind]. by rewrite E1, E2, E3.
Qed.

Lemma is_bsd_iff t : is_bsd t <-> bsd t.
Proof. unfold is_bsd, bsd, FDISK_TYPE_FREEBSD, FDISK_TYPE_OPENBSD. rewrite orb_True, !bool_decide_spec. done. Qed.

Lemma bsd_case t : is_bsd t = true /\ bsd t \/ is_bsd t = false /\ ~ bsd t.
Proof. pose proof (is_bsd_iff t) as H. destruct (is_bsd t); cbn in H; tauto. Qed.

Lemma blt_internal_code_type t fs : blt_internal_code t fs = slice_type t fs.
Proof.
  unfold blt_internal_code, slice_type, FDISK_TYPE_FREEBSD, FDISK_TYPE_OPENBSD, BSD_FS_BSDFFS, BSD_FS_SWAP, FREEBSD_FFS, FREEBSD_SWAP, OPENBSD_FFS, OPENBSD_SWAP.
  repeat case_decide; try reflexivity; lia.
Qed.

Lemma table_entry dev desc m i p : on_disk dev desc -> length m = Z.to_nat (blksize dev) -> (forall i p, desc !! i = Some p -> table_has m i p) -> desc !! i = Some p -> fdisk_at m i = Ok (pd_type p, pd_start p, pd_size p).
Proof.
  intros Hd Hm Ht Hp. pose proof (lookup_lt_Some _ _ _ Hp) as Hi. rewrite (od_four _ _ Hd) in Hi. pose proof (od_size _ _ Hd). apply fdisk_at_table; [done|lia|by apply Ht].
Qed.

(** ** The loops *)

Lemma each_seq {S} (f : S -> nat -> cres S) (I : nat -> S -> Prop) n : forall k s, I k s -> (forall i s, (k <= i < k + n)%nat -> I i s -> exists s', f s i = Ok s' /\ I (Datatypes.S i) s') ->
  exists s', each f (seq k n) s = Ok s' /\ I (k + n)%nat s'.
Proof.
  induction n as [|n IH]; intros k s H0 Hs; cbn [seq each]; [rewrite Nat.add_0_r; eauto|]. destruct (Hs k s ltac:(lia) H0) as (s1 & -> & H1). cbn [cbind].
  replace (k + Datatypes.S n)%nat with (Datatypes.S k + n)%nat by lia. apply IH; [done|]. intros i s' Hi. apply Hs. lia.
Qed.

(** What the first [i] elements contribute. *)
Definition upto {A B} (f : nat -> A -> list B) (l : list A) (i : nat) : list B := concat (imap f (take i l)).

Lemma upto_S {A B} (f : nat -> A -> list B) l i x : l !! i = Some x -> upto f l (S i) = upto f l i ++ f i x.
Proof.
  intros Hx. unfold upto. rewrite (take_S_r _ _ _ Hx), imap_app, concat_app. f_equal. cbn [imap concat]. rewrite app_nil_r, length_take_le, Nat.add_0_r; [done|]. apply lookup_lt_Some in Hx. lia.
Qed.

Lemma upto_0 {A B} (f : nat -> A -> list B) l : upto f l 0 = [].
Proof. reflexivity. Qed.

Lemma upto_all {A B} (f : nat -> A -> list B) l : upto f l (length l) = concat (imap f l).
Proof. unfold upto. by rewrite firstn_all. Qed.

Lemma upto_le {A B} (f : nat -> A -> list B) l i : (length (upto f l i) <= length (concat (imap f l)))%nat.
Proof. unfold upto. rewrite <- (take_drop i l) at 2. rewrite imap_app, concat_app, length_app. lia. Qed.

Lemma blk_read_one dev buf b m : sector dev b = inl m -> length m = Z.to_nat (blksize dev) -> bytes m -> length buf = length m -> blk_read dev buf 0 b 1 = Ok (m, 0).
Proof.
  intros Hs Hl Hb Eb. unfold blk_read. change (Z.to_nat 1) with 1%nat. cbn [blk_loop]. rewrite Hs, <- Hl. rewrite memcpy_splice by (done || (unfold fits; lia)). cbn [cbind blk_loop deref].
  unfold slice, splice. change (Z.to_nat 0) with 0%nat. rewrite drop_0, firstn_all, take_0. cbn [app Nat.add]. rewrite drop_ge by lia. by rewrite app_nil_r.
Qed.

(** An array of [n] entries of which the first are written. *)
Definition filled (n : nat) (pre : list partition) : list (option partition) * Z := (map Some pre ++ replicate (n - length pre) None, Z.of_nat (length pre)).

Lemma add_part_ok n pre p : (length pre < n)%nat -> add_part (filled n pre) p = Ok (filled n (pre ++ [p])).
Proof.
  intros H. unfold add_part, filled. rewrite aset_in_range by (rewrite length_app, length_map, length_replicate; lia). cbn [deref cbind]. rewrite Nat2Z.id, length_app. cbn [length]. repeat f_equal; [|lia].
  rewrite map_app, <- app_assoc. replace (length pre) with (length (map Some pre) + 0)%nat by (rewrite length_map; lia). rewrite insert_app_r. f_equal. rewrite length_map. replace (n - (length pre + 0))%nat with (S (n - (length pre + 0 + 1))) by lia. reflexivity.
Qed.

Section alloc.
Context (dev : blkdev) (desc : list part_desc) (Hd : on_disk dev desc) (mbr : list Z).
Context (Hmbr : forall i p, desc !! i = Some p -> fdisk_at mbr i = Ok (pd_type p, pd_start p, pd_size p)).

Definition all_parts : list partition := concat (imap list_part desc).
Definition all_slices : list partition := concat (imap list_slices desc).

Lemma desc_at i : (0 <= i < 0 + 4)%nat -> exists p, desc !! i = Some p.
Proof. intros Hi. apply lookup_lt_is_Some_2. rewrite (od_four _ _ Hd). lia. Qed.

Lemma read_label_ok label i p : desc !! i = Some p -> bsd (pd_type p) -> length label = Z.to_nat (blksize dev) ->
  exists m, read_label dev label (pd_start p) = Ok m /\ length m = Z.to_nat (blksize dev) /\ forall j d, pd_slices p !! j = Some d -> slice_at m j = Ok (sd_type d, sd_offset d, sd_size d).
Proof.
  intros Hp Hb Hl. destruct (od_labels _ _ Hd i p Hp Hb) as (Hn & Hst & m & (Hs & Hm & Hby) & H). pose proof (od_size _ _ Hd). exists m. split; [|split; [done|]].
  - unfold read_label. rewrite u32_small, s32_small by lia. by rewrite (blk_read_one dev label _ m) by (done || congruence).
  - intros j d Hj. pose proof (lookup_lt_Some _ _ _ Hj). apply slice_at_label; [lia|lia|by apply H].
Qed.

Lemma count_slices_ok label i p n : (forall j d, pd_slices p !! j = Some d -> slice_at label j = Ok (sd_type d, sd_offset d, sd_size d)) -> length (pd_slices p) = BSD_MAXSLICES -> bsd (pd_type p) ->
  each (count_slice label) (seq 0 BSD_MAXSLICES) n = Ok (n + Z.of_nat (length (list_slices i p))).
Proof.
  intros Hl Hn Hb. set (t := pd_type p). destruct (each_seq (count_slice label) (fun j m => m = n + Z.of_nat (length (upto (list_slice t i) (pd_slices p) j))) BSD_MAXSLICES 0 n) as (m & E & ->).
  - rewrite upto_0. cbn [length]. lia.
  - intros j m Hj ->. destruct (lookup_lt_is_Some_2 (pd_slices p) j) as [d Hdj]; [lia|]. unfold count_slice. rewrite (Hl j d Hdj). cbn [cbind]. eexists. split; [reflexivity|]. rewrite (upto_S _ _ _ _ Hdj), length_app. unfold list_slice.
    unfold BSD_FS_UNUSED. destruct (decide (sd_type d = 0)) as [->|Hne]; [rewrite decide_False by tauto|rewrite decide_True by done]; cbn [length]; lia.
  - rewrite E. do 3 f_equal. change (0 + BSD_MAXSLICES)%nat with BSD_MAXSLICES. rewrite <- Hn, upto_all. unfold list_slices. by rewrite decide_True.
Qed.

Lemma count_ok label : length label = Z.to_nat (blksize dev) ->
  exists label', each (count_part dev mbr) (seq 0 4) (label, 0) = Ok (label', Z.of_nat (length (listing desc))) /\ length label' = Z.to_nat (blksize dev).
Proof.
  intros Hl. destruct (each_seq (count_part dev mbr) (fun i s => length s.1 = Z.to_nat (blksize dev) /\ s.2 = Z.of_nat (length (upto list_part desc i) + length (upto list_slices desc i))) 4 0 (label, 0)) as ([l' n'] & E & Hl' & Hn').
  - done.
  - intros i [l n] Hi [Hl1 Hn1]. cbn [fst snd] in *. subst n. destruct (desc_at i Hi) as [p Hp]. unfold count_part. rewrite (Hmbr i p Hp). cbn [cbind]. rewrite (upto_S _ _ _ _ Hp), (upto_S _ _ _ _ Hp), !length_app. unfold FDISK_TYPE_EMPTY. destruct (decide (pd_type p = 0)) as [Ht|Ht].
    + eexists. split; [reflexivity|]. cbn [fst snd]. split; [done|]. assert (list_part i p = []) as -> by (unfold list_part; by rewrite decide_True). assert (list_slices i p = []) as -> by (unfold list_slices; rewrite decide_False; [done|unfold bsd; lia]). cbn [length]. lia.
    + assert (length (list_part i p) = 1%nat) as -> by (unfold list_part; by rewrite decide_False). destruct (bsd_case (pd_type p)) as [[-> Eb]|[-> Eb]].
      * destruct (read_label_ok l i p Hp Eb Hl1) as (m & -> & Hm & Hsl). cbn [cbind]. destruct (od_labels _ _ Hd i p Hp Eb) as (Hn & _).
        rewrite (count_slices_ok m i p _ Hsl Hn Eb). cbn [cbind]. eexists. split; [reflexivity|]. cbn [fst snd length]. split; [done|]. lia.
      * eexists. split; [reflexivity|]. cbn [fst snd]. split; [done|]. assert (list_slices i p = []) as -> by (unfold list_slices; by rewrite decide_False). cbn [length]. lia.
  - exists l'. cbn [fst snd] in *. split; [|done]. rewrite E, Hn'. do 3 f_equal. unfold listing. rewrite length_app, <- (od_four _ _ Hd). cbn [Nat.add]. by rewrite !upto_all.
Qed.

Lemma fill_parts_ok n : (length all_parts <= n)%nat -> each (fill_part mbr) (seq 0 4) (filled n []) = Ok (filled n all_parts).
Proof.
  intros Hn. destruct (each_seq (fill_part mbr) (fun i s => s = filled n (upto list_part desc i)) 4 0 (filled n [])) as (s & E & ->); [done| |].
  - intros i s Hi ->. destruct (desc_at i Hi) as [p Hp]. unfold fill_part. rewrite (Hmbr i p Hp). cbn [cbind]. pose proof (upto_le list_part desc (S i)) as Hle. rewrite (upto_S _ _ _ _ Hp) in *. fold all_parts in Hle. rewrite length_app in Hle.
    destruct (decide (pd_type p = 0)) as [Ht|Ht].
    + rewrite decide_False by tauto. assert (list_part i p = []) as -> by (unfold list_part; by rewrite decide_True). rewrite app_nil_r. eauto.
    + rewrite decide_True by done. assert (list_part i p = [Part [48 + Z.of_nat i] (pd_type p) (pd_start p) (pd_size p)]) as Ed by (unfold list_part; by rewrite decide_False). rewrite Ed in *. cbn [length] in Hle. eexists. split; [|reflexivity]. apply add_part_ok. lia.
  - rewrite E. change (0 + 4)%nat with 4%nat. rewrite <- (od_four _ _ Hd), upto_all. done.
Qed.

Lemma fill_slice_loop label i p n pre : (forall j d, pd_slices p !! j = Some d -> slice_at label j = Ok (sd_type d, sd_offset d, sd_size d)) -> length (pd_slices p) = BSD_MAXSLICES -> bsd (pd_type p) -> (length pre + length (list_slices i p) <= n)%nat ->
  each (fill_slice (pd_type p) i label) (seq 0 BSD_MAXSLICES) (filled n pre) = Ok (filled n (pre ++ list_slices i p)).
Proof.
  intros Hl Hn Hb Hle. set (t := pd_type p) in *. assert (list_slices i p = concat (imap (list_slice t i) (pd_slices p))) as Els by (unfold list_slices; by rewrite decide_True). rewrite Els in *.
  destruct (each_seq (fill_slice t i label) (fun j s => s = filled n (pre ++ upto (list_slice t i) (pd_slices p) j)) BSD_MAXSLICES 0 (filled n pre)) as (s & E & ->).
  - by rewrite upto_0, app_nil_r.
  - intros j s Hj ->. destruct (lookup_lt_is_Some_2 (pd_slices p) j) as [d Hdj]; [lia|]. unfold fill_slice. rewrite (Hl j d Hdj). cbn [cbind]. rewrite blt_internal_code_type. pose proof (upto_le (list_slice t i) (pd_slices p) (S j)) as Hle2. rewrite (upto_S _ _ _ _ Hdj) in *. rewrite length_app in Hle2.
    unfold BSD_FS_UNUSED. destruct (decide (sd_type d = 0)) as [Ht|Ht].
    + rewrite decide_False by tauto. assert (list_slice t i j d = []) as -> by (unfold list_slice; by rewrite decide_True). rewrite app_nil_r. eauto.
    + rewrite decide_True by done. assert (list_slice t i j d = [Part [48 + Z.of_nat i; 97 + Z.of_nat j] (slice_type t (sd_type d)) (sd_offset d) (sd_size d)]) as Ed by (unfold list_slice; by rewrite decide_False). rewrite Ed in *. cbn [length] in Hle2.
      eexists. split; [|reflexivity]. rewrite add_part_ok by (rewrite length_app; lia). by rewrite <- app_assoc.
  - rewrite E. change (0 + BSD_MAXSLICES)%nat with BSD_MAXSLICES. by rewrite <- Hn, upto_all.
Qed.

Lemma fill_slices_ok label n : length label = Z.to_nat (blksize dev) -> (length all_parts + length all_slices <= n)%nat ->
  exists label', each (fill_slices dev mbr) (seq 0 4) (label, filled n all_parts) = Ok (label', filled n (all_parts ++ all_slices)).
Proof.
  intros Hl Hn. destruct (each_seq (fill_slices dev mbr) (fun i s => length s.1 = Z.to_nat (blksize dev) /\ s.2 = filled n (all_parts ++ upto list_slices desc i)) 4 0 (label, filled n all_parts)) as ([l s] & E & _ & Es).
  - split; [done|]. by rewrite upto_0, app_nil_r.
  - intros i [l s] Hi [Hl1 Hs1]. cbn [fst snd] in *. subst s. destruct (desc_at i Hi) as [p Hp]. unfold fill_slices. rewrite (Hmbr i p Hp). cbn [cbind]. pose proof (upto_le list_slices desc (S i)) as Hle. fold all_slices in Hle. rewrite (upto_S _ _ _ _ Hp) in *. rewrite length_app in Hle.
    destruct (bsd_case (pd_type p)) as [[-> Eb]|[-> Eb]].
    + destruct (read_label_ok l i p Hp Eb Hl1) as (m & -> & Hm & Hsl). cbn [cbind]. destruct (od_labels _ _ Hd i p Hp Eb) as (Hns & _). rewrite (fill_slice_loop m i p) by (done || (rewrite length_app; lia)).
      cbn [cbind]. eexists. split; [reflexivity|]. cbn [fst snd]. by rewrite <- app_assoc.
    + assert (list_slices i p = []) as -> by (unfold list_slices; by rewrite decide_False). rewrite app_nil_r. eexists. split; [reflexivity|]. done.
  - exists l. cbn [fst snd] in Es. rewrite E, Es. change (0 + 4)%nat with 4%nat. by rewrite <- (od_four _ _ Hd), upto_all.
Qed.

End alloc.

Lemma disk_alloc_ok dev desc mbr label : on_disk dev desc -> length mbr = Z.to_nat (blksize dev) -> length label = Z.to_nat (blksize dev) ->
  disk_alloc dev mbr label = Ok (Dsk (Z.of_nat (length (listing desc))) (map Some (listing desc))).
Proof.
  intros Hd Hm Hl. destruct (od_table _ _ Hd) as (m & (Hs & Hlm & Hb) & Ht). assert (forall i p, desc !! i = Some p -> fdisk_at m i = Ok (pd_type p, pd_start p, pd_size p)) as Hat by (intros i p; by apply (table_entry dev)).
  unfold disk_alloc. rewrite (blk_read_one dev mbr 0 m) by (done || congruence). cbn [cbind]. destruct (count_ok dev desc Hd m Hat label Hl) as (label' & -> & Hl'). cbn [cbind]. rewrite Nat2Z.id.
  set (n := length (listing desc)). assert (n = (length (all_parts desc) + length (all_slices desc))%nat) as En by (unfold n, listing; by rewrite length_app). replace (replicate n None, 0) with (filled n []) by (unfold filled; cbn [map app length]; by rewrite Nat.sub_0_r).
  rewrite (fill_parts_ok dev desc Hd m Hat n) by lia. cbn [cbind]. destruct (fill_slices_ok dev desc Hd m Hat label' n Hl' ltac:(lia)) as (l2 & ->). cbn [cbind]. do 2 f_equal. rewrite length_app. replace (n - _)%nat with 0%nat by lia. cbn [replicate]. by rewrite app_nil_r.
Qed.

(** The entry that a caller asks for, and one that is not there. *)
Lemma disk_partition_ok n l i p : l !! i = Some p -> disk_partition (Dsk n (map Some l)) (Z.of_nat i) = Ok p.
Proof. intros Hp. unfold disk_partition, aget. cbn [parts]. rewrite decide_True, Nat2Z.id by lia. change (map Some l) with (Some <$> l). by rewrite list_lookup_fmap, Hp. Qed.

(** C18. The partitions of a disk: on a disk whose sector 0 holds a partition table, and the
  second sector of each partition of FreeBSD and OpenBSD in it a label with sixteen places, all
  of them readable and below sector 2 to the 31, disk_alloc succeeds whatever its buffers held.
  It lists the partitions of the table that are not empty, in order, and behind them the slices
  in use of the BSD partitions, with their names, types, first sectors and sizes.  The array it
  allocates has exactly as many entries as it writes, and the four functions on a disk deliver
  each of them. *)
Theorem disk_alloc_lists dev desc mbr label : on_disk dev desc -> length mbr = Z.to_nat (blksize dev) -> length label = Z.to_nat (blksize dev) ->
  exists d, disk_alloc dev mbr label = Ok d /\ numparts d = Z.of_nat (length (listing desc)) /\ parts d = map Some (listing desc) /\
    forall i p, listing desc !! i = Some p ->
      disk_partition_name d (Z.of_nat i) = Ok (name p) /\ disk_partition_type d (Z.of_nat i) = Ok (ptype p) /\
      disk_partition_start d (Z.of_nat i) = Ok (start p) /\ disk_partition_size d (Z.of_nat i) = Ok (size p).
Proof.
  intros Hd Hm Hl. eexists. split; [by apply disk_alloc_ok|]. split; [done|]. split; [done|]. intros i p Hp.
  unfold disk_partition_name, disk_partition_type, disk_partition_start, disk_partition_size. by rewrite (disk_partition_ok _ _ i p Hp).
Qed.

(** A disk with a partition of FreeBSD, whose label has two slices, and one of Linux. *)
Definition ex_table : list Z := splice (splice (replicate 512 0) 0x1be [128; 0; 0; 0; 0xa5; 0; 0; 0; 63; 0; 0; 0; 0; 8; 0; 0]) (0x1be + 32) [0; 0; 0; 0; 0x83; 0; 0; 0; 63; 8; 0; 0; 0; 16; 0; 0].
Definition ex_label : list Z := splice (splice (replicate 512 0) 148 [0; 4; 0; 0; 63; 0; 0; 0; 0; 4; 0; 0; 7; 8; 0; 0]) (148 + 16) [0; 4; 0; 0; 63; 4; 0; 0; 0; 0; 0; 0; 1; 0; 0; 0].
Definition ex_dev : blkdev := Dev 512 (fun b => inl (if decide (b = 64) then ex_label else ex_table)).
Definition ex_desc : list part_desc := [PD 0xa5 63 2048 (SD 7 63 1024 :: SD 1 1087 1024 :: replicate 14 (SD 0 0 0)); PD 0 0 0 []; PD 0x83 2111 4096 []; PD 0 0 0 []].

Lemma bytes_check l : forallb (fun c => bool_decide (0 <= c < 256)) l = true -> bytes l.
Proof. intros H. rewrite forallb_forall in H. apply Forall_forall. intros z Hz. apply list_elem_of_In, H in Hz. by apply bool_decide_eq_true in Hz. Qed.

Lemma ex_on_disk : on_disk ex_dev ex_desc.
Proof.
  split; [done|cbn; lia| |].
  - exists ex_table. split; [split; [reflexivity|]; split; [reflexivity|]; apply bytes_check; vm_compute; reflexivity|].
    intros [|[|[|[|i]]]] p Hp; cbn in Hp; try discriminate Hp; injection Hp as <-; vm_compute; auto.
  - intros [|[|[|[|i]]]] p Hp Hb; cbn in Hp; try discriminate Hp; injection Hp as <-; try (exfalso; unfold bsd in Hb; cbn in Hb; lia). split; [reflexivity|]. split; [cbn; lia|].
    exists ex_label. split; [split; [reflexivity|]; split; [reflexivity|]; apply bytes_check; vm_compute; reflexivity|].
    intros j d Hj. do 16 (destruct j as [|j]; [cbn in Hj; injection Hj as <-; vm_compute; auto|]). discriminate Hj.
Qed.

Definition ex_listing : list partition := [Part [48] 0xa5 63 2048; Part [50] 0x83 2111 4096; Part [48; 97] FREEBSD_FFS 63 1024; Part [48; 98] FREEBSD_SWAP 1087 1024].

(** Its partitions are 0 and 2, and the slices 0a, of type FFS, and 0b, of type swap. *)
Lemma disk_alloc_lists_witness : exists d, disk_alloc ex_dev (replicate 512 1) (replicate 512 2) = Ok d /\ parts d = map Some ex_listing /\ disk_partition_start d 3 = Ok 1087.
Proof.
  destruct (disk_alloc_lists ex_dev ex_desc (replicate 512 1) (replicate 512 2)) as (d & E & _ & Hp & Hi); [apply ex_on_disk|reflexivity|reflexivity|].
  exists d. split; [exact E|]. split; [rewrite Hp; vm_compute; reflexivity|]. apply (Hi 3%nat (Part [48; 98] FREEBSD_SWAP 1087 1024)). vm_compute. reflexivity.
Defined.

End Disk.
