(* ===== verification/Fdl.v ===== *)
(** lib/libposix/fdl.c: the table of file descriptors of a program, and the calls that go
  through it.

  What a descriptor is open on, a file system or the console, is not part of the table: it is
  a record of functions with a state [W] of their own ([fdl_type]), any of which may be missing.
  The lock of the table makes each call that allocates one step. *)
From S2P Require Import Prelude.
Local Open Scope Z_scope.
Local Open Scope c_scope.

Module Fdl.

Definition MAX_FDS : nat := 256.
Definition ENOSYS : Z := 78.

Section fdl.
Context {W : Type}.

(** A function of a handler: from the state, the cookie and the other argument. *)
Definition handler := W -> Z -> Z -> W * Z.
Record fdl_type := Fdl { f_read : option handler; f_write : option handler; f_ioctl : option handler; f_close : option (W -> Z -> W * Z) }.
Record filedesc := Desc { imp : fdl_type; cookie : Z }.
(** [fd_table] has MAX_FDS entries; a null pointer is [None]. *)
Record st := St { fd_table : list (option filedesc); errno : Z; world : W }.

Definition libc_init_fdl (e : Z) (w : W) : st := St (replicate MAX_FDS None) e w.

Fixpoint alloc_from (l : list (option filedesc)) (i : Z) : Z :=
  match l with [] => -1 | None :: _ => i | Some _ :: l => alloc_from l (i + 1) end.
Definition fdl_alloc_descriptor (s : st) (h : fdl_type) (c : Z) : cres (st * Z) :=
  let i := alloc_from (fd_table s) 0 in
  if decide (i = -1) then Ok (s, -1) else let? t := aset (fd_table s) i (Some (Desc h c)) in Ok (St t (errno s) (world s), i).
Definition fdl_free_descriptor (s : st) (d : Z) : cres st :=
  let? t := aset (fd_table s) d None in Ok (St t (errno s) (world s)).

(** fd_table[fd], which is dereferenced without a test. *)
Definition desc (s : st) (fd : Z) : cres filedesc := let? o := aget (fd_table s) fd in deref o.

Definition through (f : fdl_type -> option handler) (s : st) (fd arg : Z) : cres (st * Z) :=
  let! d := desc s fd in
  match f (imp d) with
  | Some h => let (w, r) := h (world s) (cookie d) arg in Ok (St (fd_table s) (errno s) w, r)
  | None => Ok (St (fd_table s) ENOSYS (world s), -1)
  end.
Definition read : st -> Z -> Z -> cres (st * Z) := through f_read.
Definition write : st -> Z -> Z -> cres (st * Z) := through f_write.
Definition ioctl : st -> Z -> Z -> cres (st * Z) := through f_ioctl.
Definition close (s : st) (fd : Z) : cres (st * Z) :=
  let! d := desc s fd in
  match f_close (imp d) with
  | Some h => let (w, r) := h (world s) (cookie d) in let? t := aset (fd_table s) fd None in Ok (St t (errno s) w, r)
  | None => Ok (St (fd_table s) ENOSYS (world s), -1)
  end.

(** ** A finite map of open descriptors *)

Inductive op := OAlloc (h : fdl_type) (c : Z) | OFree (d : Z) | ORead (d n : Z) | OWrite (d n : Z) | OIoctl (d r : Z) | OClose (d : Z).
Definition run (s : st) (o : op) : cres (st * Z) :=
  match o with
  | OAlloc h c => fdl_alloc_descriptor s h c
  | OFree d => let! s := fdl_free_descriptor s d in Ok (s, 0)
  | ORead d n => read s d n
  | OWrite d n => write s d n
  | OIoctl d r => ioctl s d r
  | OClose d => close s d
  end.
Fixpoint runs (s : st) (l : list op) : cres (st * list Z) :=
  match l with [] => Ok (s, []) | o :: l => let! (s, r) := run s o in let! (s, rs) := runs s l in Ok (s, r :: rs) end.

(** The same for the map [m]: a program may only use descriptors that are open. *)
Record spec := Spec { open : gmap Z filedesc; s_errno : Z; s_world : W }.
Definition least (m : gmap Z filedesc) (i : Z) : Prop := 0 <= i < Z.of_nat MAX_FDS /\ m !! i = None /\ forall j, 0 <= j < i -> is_Some (m !! j).
Definition full (m : gmap Z filedesc) : Prop := forall j, 0 <= j < Z.of_nat MAX_FDS -> is_Some (m !! j).
Inductive call (f : fdl_type -> option handler) (x : spec) (fd arg : Z) : spec -> Z -> Prop :=
| c_ok d h w r : open x !! fd = Some d -> f (imp d) = Some h -> h (s_world x) (cookie d) arg = (w, r) -> call f x fd arg (Spec (open x) (s_errno x) w) r
| c_none d : open x !! fd = Some d -> f (imp d) = None -> call f x fd arg (Spec (open x) ENOSYS (s_world x)) (-1).
Inductive sstep (x : spec) : op -> spec -> Z -> Prop :=
| s_alloc h c i : least (open x) i -> sstep x (OAlloc h c) (Spec (<[i := Desc h c]> (open x)) (s_errno x) (s_world x)) i
| s_full h c : full (open x) -> sstep x (OAlloc h c) x (-1)
| s_free d : 0 <= d < Z.of_nat MAX_FDS -> sstep x (OFree d) (Spec (delete d (open x)) (s_errno x) (s_world x)) 0
| s_read d n x' r : call f_read x d n x' r -> sstep x (ORead d n) x' r
| s_write d n x' r : call f_write x d n x' r -> sstep x (OWrite d n) x' r
| s_ioctl d n x' r : call f_ioctl x d n x' r -> sstep x (OIoctl d n) x' r
| s_close d fd h w r : open x !! d = Some fd -> f_close (imp fd) = Some h -> h (s_world x) (cookie fd) = (w, r) -> sstep x (OClose d) (Spec (delete d (open x)) (s_errno x) w) r
| s_noclose d fd : open x !! d = Some fd -> f_close (imp fd) = None -> sstep x (OClose d) (Spec (open x) ENOSYS (s_world x)) (-1).

Record rep (s : st) (x : spec) : Prop := {
  rp_len : length (fd_table s) = MAX_FDS;
  rp_map : forall d, open x !! d = mjoin (aget (fd_table s) d);
  rp_errno : errno s = s_errno x;
  rp_world : world s = s_world x }.

Lemma alloc_from_spec l : forall i, 0 <= i -> match alloc_from l i with
  | Zneg _ => alloc_from l i = -1 /\ forall j, (j < length l)%nat -> exists d, l !! j = Some (Some d)
  | _ => exists k, alloc_from l i = i + Z.of_nat k /\ l !! k = Some None /\ forall j, (j < k)%nat -> exists d, l !! j = Some (Some d) end.
Proof.
  induction l as [|[d|] l IH]; intros i Hi; cbn [alloc_from].
  - split; [done|]. cbn. lia.
  - specialize (IH (i + 1) ltac:(lia)). destruct (alloc_from l (i + 1)) eqn:E.
    + destruct IH as (k & Ek & _). lia.
    + destruct IH as (k & Ek & Hk & Hb). exists (S k). split; [lia|]. split; [done|]. intros [|j] Hj; [by exists d|apply Hb; lia].
    + destruct IH as [E1 Hb]. split; [done|]. intros [|j] Hj; [by exists d|apply Hb; cbn in Hj; lia].
  - destruct i; [|..|lia]; exists 0%nat; (split; [lia|]); (split; [done|]); lia.
Qed.

Lemma rep_aset s x d o e w : rep s x -> 0 <= d < Z.of_nat MAX_FDS ->
  exists t, aset (fd_table s) d o = Some t /\ rep (St t e w) (Spec (match o with Some v => <[d := v]> (open x) | None => delete d (open x) end) e w).
Proof.
  intros [Hl Hm _ _] Hd. eexists. split; [apply aset_in_range; rewrite Hl; exact Hd|]. split; cbn [fd_table errno world open s_errno s_world]; [by rewrite length_insert| |done|done].
  intros j. destruct (decide (j = d)) as [->|Hne].
  - rewrite aget_insert_eq by (rewrite Hl; exact Hd). destruct o; [by rewrite lookup_insert_eq|by rewrite lookup_delete_eq].
  - rewrite aget_insert_ne by (lia || congruence). rewrite <- Hm. destruct o; [by rewrite lookup_insert_ne|by rewrite lookup_delete_ne].
Qed.

Lemma desc_ok s x fd d : rep s x -> open x !! fd = Some d -> desc s fd = Ok d /\ 0 <= fd < Z.of_nat MAX_FDS.
Proof.
  intros [Hl Hm _ _] Hd. rewrite Hm in Hd. unfold desc. destruct (aget (fd_table s) fd) as [[d'|]|] eqn:E; [|done|done]. cbn in Hd. injection Hd as ->. apply aget_Some in E as [E _]. rewrite Hl in E. done.
Qed.

Lemma through_ok f s x fd arg x' r : rep s x -> call f x fd arg x' r -> exists s', through f s fd arg = Ok (s', r) /\ rep s' x'.
Proof.
  intros Hr [d h w r' Ho Hf Hh|d Ho Hf]; destruct (desc_ok _ _ _ _ Hr Ho) as [E _]; unfold through; rewrite E; cbn [cbind]; rewrite Hf; destruct Hr as [Hl Hm He Hw].
  - rewrite Hw, Hh. eexists. split; [reflexivity|]. by split.
  - eexists. split; [reflexivity|]. by split.
Qed.

Lemma alloc_ok s x h c : rep s x -> (full (open x) -> fdl_alloc_descriptor s h c = Ok (s, -1)) /\
  forall i, least (open x) i -> exists s', fdl_alloc_descriptor s h c = Ok (s', i) /\ rep s' (Spec (<[i := Desc h c]> (open x)) (s_errno x) (s_world x)).
Proof.
  intros Hr. pose proof Hr as [Hl Hm He Hw]. pose proof (alloc_from_spec (fd_table s) 0 ltac:(lia)) as Ha. unfold fdl_alloc_descriptor.
  assert (forall j v, fd_table s !! j = Some v -> open x !! Z.of_nat j = v) as Hj by (intros j v Hv; rewrite Hm; unfold aget; rewrite decide_True, Nat2Z.id, Hv by lia; done).
  assert ((exists k, alloc_from (fd_table s) 0 = Z.of_nat k /\ fd_table s !! k = Some None /\ forall j, (j < k)%nat -> exists d, fd_table s !! j = Some (Some d)) \/ (alloc_from (fd_table s) 0 = -1 /\ forall j, (j < length (fd_table s))%nat -> exists d, fd_table s !! j = Some (Some d))) as [(k & Ek & Hk & Hb)|[E Hb]].
  { destruct (alloc_from (fd_table s) 0); [left; destruct Ha as (k & ? & ?); exists k; split; [lia|done]..|right; done]. }
  - pose proof (lookup_lt_Some _ _ _ Hk) as Hlt. rewrite Hl in Hlt. split; [intros Hf; destruct (Hf (Z.of_nat k) ltac:(lia)) as [d Hd]; rewrite (Hj _ _ Hk) in Hd; done|]. intros i (Hi & Hi0 & Hi1). assert (i = Z.of_nat k) as ->.
    { destruct (Z.lt_trichotomy i (Z.of_nat k)) as [Hlt2|[->|Hgt]]; [|done|].
      - destruct (Hb (Z.to_nat i) ltac:(lia)) as [d Hd]. apply Hj in Hd. rewrite Z2Nat.id in Hd by lia. congruence.
      - destruct (Hi1 (Z.of_nat k) ltac:(lia)) as [d Hd]. rewrite (Hj _ _ Hk) in Hd. done. }
    rewrite Ek, decide_False by lia. destruct (rep_aset s x (Z.of_nat k) (Some (Desc h c)) (errno s) (world s) Hr Hi) as (t & -> & Hr'). cbn [deref]. eexists. split; [reflexivity|]. rewrite <- He, <- Hw. exact Hr'.
  - split; [intros _; by rewrite E, decide_True|]. intros i (Hi & Hi0 & _). destruct (Hb (Z.to_nat i)) as [d Hd]; [rewrite Hl; lia|]. apply Hj in Hd. rewrite Z2Nat.id in Hd by lia. congruence.
Qed.

(** The table of descriptors is a finite map: a new descriptor is the least that is not open,
  or -1 if all are; a call on an open descriptor reaches its handler with its cookie, or fails
  with ENOSYS if the handler does not have it; closing releases the descriptor. *)
Theorem fdl_refines s x o x' r : rep s x -> sstep x o x' r -> exists s', run s o = Ok (s', r) /\ rep s' x'.
Proof.
  intros Hr Hs. pose proof Hr as [Hl Hm He Hw]. destruct Hs as [h c i Hi|h c Hf|d Hd|d n x' r Hc|d n x' r Hc|d n x' r Hc|d fd h w r Ho Hf Hh|d fd Ho Hf]; cbn [run].
  - by apply (alloc_ok s x h c Hr).
  - exists s. split; [by apply (alloc_ok s x h c Hr)|done].
  - destruct (rep_aset s x d None (errno s) (world s) Hr Hd) as (t & E & Hr'). unfold fdl_free_descriptor. rewrite E. cbn [deref cbind]. eexists. split; [reflexivity|]. rewrite <- He, <- Hw. exact Hr'.
  - by apply (through_ok f_read s x).
  - by apply (through_ok f_write s x).
  - by apply (through_ok f_ioctl s x).
  - destruct (desc_ok _ _ _ _ Hr Ho) as [E Hd]. unfold close. rewrite E. cbn [cbind]. rewrite Hf, Hw, Hh. destruct (rep_aset s x d None (errno s) w Hr Hd) as (t & -> & Hr'). cbn [deref]. eexists. split; [reflexivity|]. rewrite <- He. exact Hr'.
  - destruct (desc_ok _ _ _ _ Hr Ho) as [E _]. unfold close. rewrite E. cbn [cbind]. rewrite Hf. eexists. split; [reflexivity|]. split; try done.
Qed.

Lemma table_init e w : rep (libc_init_fdl e w) (Spec ∅ e w).
Proof.
  split; [apply length_replicate| |done|done]. intros d. cbn [open]. rewrite lookup_empty. unfold aget. case_decide; [|done]. unfold libc_init_fdl. cbn [fd_table]. destruct (replicate MAX_FDS None !! Z.to_nat d) as [v|] eqn:E; [|done]. apply lookup_replicate in E as [-> _]. done.
Qed.

(** A call on a descriptor that is not open follows a null pointer. *)
Theorem closed_descriptor_faults f s x fd arg : rep s x -> open x !! fd = None -> through f s fd arg = Fault.
Proof. intros [Hl Hm _ _] Ho. rewrite Hm in Ho. unfold through, desc. by destruct (aget (fd_table s) fd) as [[d|]|]. Qed.

End fdl.

End Fdl.
