(* ===== verification/Events.v ===== *)
(** lib/libwin: how events reach the canvases of a program (Window.cpp, Canvas.cpp), and the
  button (Button.cpp).

  A window keeps its canvases in a list of structures that point at each other: the next one,
  and the pointer that points at this one, which is the head of the list or a member of the
  canvas before ([link]).  What a canvas asks of the server is a log of calls (LibWin), in the
  order in which they are made. *)
From S2P Require Import Prelude Region Wm LibWin Mouse.
Import Region.
Local Open Scope Z_scope.
Local Open Scope c_scope.

Module Events.

Definition EVT_PAINT : Z := 1.
Definition EVT_QUIT : Z := 2.

(** ** Button.cpp *)

Record button := Btn { fText : list Z; fMouseDown : bool; fOverButton : bool }.
Definition new_button (text : list Z) : button := Btn text false false.

(** Calls of the server, and the call of the virtual function Invoke. *)
Inductive act := ABegin | AEnd | ACall (c : LibWin.call) | AString (x y : Z) (text : list Z) | AInvoke | ADestroy (id : Z).

(** Invalidate() without arguments *)
Definition everything : rect := Rect 0 0 100000 100000.
Definition invalidate : act := ACall (LibWin.CInval everything).

Definition Repaint (b : button) (bounds : rect) : list act :=
  let pushed := fMouseDown b && fOverButton b in
  let l := if pushed then left bounds + 1 else left bounds in
  let t := if pushed then top bounds + 1 else top bounds in
  let r := if pushed then right bounds else right bounds - 1 in
  let m := if pushed then bottom bounds else bottom bounds - 1 in
  [ACall (LibWin.CPen 5); ACall (LibWin.CLine l t r t); ACall (LibWin.CLine l m r m); ACall (LibWin.CLine l t l m); ACall (LibWin.CLine r t r m);
   ACall (LibWin.CPen 10); ACall (LibWin.CFill (l + 1) (t + 1) (r - 1) (m - 1)); AString (l + 1) (t + 1) (fText b)].

Definition EventReceived (b : button) (what : Z) : button * list act :=
  if decide (what = Mouse.EVT_MOUSE_DOWN) then (Btn (fText b) true true, [ACall LibWin.CLock; invalidate])
  else if decide (what = Mouse.EVT_MOUSE_UP) then (Btn (fText b) false false, (if fOverButton b then [AInvoke] else []) ++ [invalidate])
  else if decide (what = Mouse.EVT_MOUSE_ENTER) then (if fMouseDown b then (Btn (fText b) true true, [invalidate]) else (b, []))
  else if decide (what = Mouse.EVT_MOUSE_LEAVE) then (if fMouseDown b then (Btn (fText b) true false, [invalidate]) else (b, []))
  else (b, []).

(** ** Canvases and the list of a window *)

(** Where the pointer to a canvas is. *)
Inductive link := Head | NextOf (x : nat).
#[export] Instance link_eq_dec : EqDecision link.
Proof. solve_decision. Defined.
(** A canvas of a program: one that handles no event, or a button. *)
Record widget := Widget { w_id : Z; w_bounds : rect; w_button : option button; fInPaint : bool; fWinListNext : option nat; fWinListPrev : link }.
Record window := Win { widgets : gmap nat widget; fCanvasList : option nat }.

Definition set_next (n : option nat) (w : widget) : widget := Widget (w_id w) (w_bounds w) (w_button w) (fInPaint w) n (fWinListPrev w).
Definition set_prev (p : link) (w : widget) : widget := Widget (w_id w) (w_bounds w) (w_button w) (fInPaint w) (fWinListNext w) p.
Definition set_button (b : option button) (w : widget) : widget := Widget (w_id w) (w_bounds w) b (fInPaint w) (fWinListNext w) (fWinListPrev w).
Definition set_paint (b : bool) (w : widget) : widget := Widget (w_id w) (w_bounds w) (w_button w) b (fWinListNext w) (fWinListPrev w).

Definition HandleEvent (w : widget) (what : Z) : widget * list act :=
  if decide (what = EVT_PAINT) then
    (set_paint false w, (if fInPaint w then [] else [ABegin]) ++ match w_button w with Some b => Repaint b (w_bounds w) | None => [] end ++ [AEnd])
  else
    match w_button w with
    | Some b => let (b, l) := EventReceived b what in (set_button (Some b) w, l)
    | None => (w, [])
    end.

Definition get (s : window) (x : nat) : cres widget := deref (widgets s !! x).
Definition put (s : window) (x : nat) (w : widget) : window := Win (<[x := w]> (widgets s)) (fCanvasList s).
(** *l = n *)
Definition assign (s : window) (l : link) (n : option nat) : cres window :=
  match l with
  | Head => Ok (Win (widgets s) n)
  | NextOf x => let! w := get s x in Ok (put s x (set_next n w))
  end.

(** The list in AddChild, for the canvas at [x]. *)
Definition link_child (s : window) (x : nat) : cres window :=
  let! w := get s x in
  let s := put s x (set_prev Head (set_next (fCanvasList s) w)) in
  let! s := match fCanvasList s with Some y => let! v := get s y in Ok (put s y (set_prev (NextOf x) v)) | None => Ok s end in
  Ok (Win (widgets s) (Some x)).
(** AddChild, with the identifier [id] from the server: the canvas is shown. *)
Definition set_id (id : Z) (r : rect) (w : widget) : widget := Widget id (Rect 0 0 (s32 (right r - left r)) (s32 (bottom r - top r))) (w_button w) (fInPaint w) (fWinListNext w) (fWinListPrev w).
Definition AddChild (s : window) (x : nat) (id : Z) (r : rect) : cres (window * list (Z * act)) :=
  let! w := get s x in
  let! s := link_child (put s x (set_id id r w)) x in
  Ok (s, [(id, ACall LibWin.CShow)]).
(** Window::RemoveChild *)
Definition RemoveChild (s : window) (x : nat) : cres (window * list act) :=
  let! w := get s x in
  let! s := assign s (fWinListPrev w) (fWinListNext w) in
  let! s := match fWinListNext w with Some y => let! v := get s y in Ok (put s y (set_prev (fWinListPrev w) v)) | None => Ok s end in
  Ok (s, [ADestroy (w_id w)]).
(** Canvas::RemoveChild, which leaves fWinListPrev of the next canvas as it is. *)
Definition Canvas_RemoveChild (s : window) (x : nat) : cres (window * list act) :=
  let! w := get s x in
  let! s := assign s (fWinListPrev w) (fWinListNext w) in
  Ok (s, [ADestroy (w_id w)]).

Fixpoint find_from (s : window) (n : option nat) (id : Z) (fuel : nat) : cres (option nat) :=
  match n with
  | None => Ok None
  | Some x =>
      match fuel with
      | O => Fault
      | S fuel => let! w := get s x in if decide (w_id w = id) then Ok (Some x) else find_from s (fWinListNext w) id fuel
      end
  end.
Definition FindChild (s : window) (id : Z) : cres (option nat) := find_from s (fCanvasList s) id (S (size (widgets s))).

Definition DispatchEvent (s : window) (e : Mouse.event) : cres (window * list (Z * act)) :=
  let! o := FindChild s (Mouse.target e) in
  match o with
  | None => Ok (s, [])
  | Some x => let! w := get s x in let (w', l) := HandleEvent w (Mouse.what e) in Ok (put s x w', map (pair (w_id w)) l)
  end.

(** ~Window: the canvases are destroyed, and the window [id]. *)
Fixpoint delete_from (s : window) (id : Z) (fuel : nat) : cres (list act) :=
  match fCanvasList s with
  | None => Ok [ADestroy id]
  | Some x =>
      match fuel with
      | O => Fault
      | S fuel => let! w := get s x in let! l := delete_from (Win (delete x (widgets s)) (fWinListNext w)) id fuel in Ok (ADestroy (w_id w) :: l)
      end
  end.
Definition delete_window (s : window) (id : Z) : cres (list act) := delete_from s id (S (size (widgets s))).

(** The thread of the window: the events that come, up to the one that ends it; [None] is
  the end of the program. *)
Fixpoint EventLoop (s : window) (id : Z) (l : list Mouse.event) : cres (option window * list (Z * act)) :=
  match l with
  | [] => Ok (Some s, [])
  | e :: l =>
      if decide (Mouse.what e = EVT_QUIT) then let! d := delete_window s id in Ok (None, map (pair id) d)
      else let! (s, a) := DispatchEvent s e in let! (r, b) := EventLoop s id l in Ok (r, a ++ b)
  end.

(** ** The list *)

(** The pointer that points at element [i] of the list. *)
Definition prev_at (l : list nat) (i : nat) : link := match i with O => Head | S j => match l !! j with Some y => NextOf y | None => Head end end.
Definition linked (m : gmap nat widget) (l : list nat) (i x : nat) : Prop := exists w, m !! x = Some w /\ fWinListNext w = l !! S i /\ fWinListPrev w = prev_at l i.
Record ok (s : window) (l : list nat) : Prop := { ok_nodup : NoDup l; ok_head : fCanvasList s = l !! 0%nat; ok_links : forall i x, l !! i = Some x -> linked (widgets s) l i x }.

(** The links apart, the canvases are the same. *)
Definition body (w : widget) : Z * rect * option button * bool := (w_id w, w_bounds w, w_button w, fInPaint w).
Definition same_bodies (s s' : window) : Prop := forall x, body <$> widgets s' !! x = body <$> widgets s !! x.

Lemma bodies_put s x w w' : widgets s !! x = Some w -> body w' = body w -> same_bodies s (put s x w').
Proof. intros Hw Hb y. cbn. destruct (decide (y = x)) as [->|Hne]; [rewrite lookup_insert_eq, Hw; cbn; by rewrite Hb|by rewrite lookup_insert_ne]. Qed.

Lemma bodies_trans s1 s2 s3 : same_bodies s1 s2 -> same_bodies s2 s3 -> same_bodies s1 s3.
Proof. intros H1 H2 x. by rewrite H2, H1. Qed.

Lemma link_child_ok s l x w : ok s l -> x ∉ l -> widgets s !! x = Some w -> exists s', link_child s x = Ok s' /\ ok s' (x :: l) /\ same_bodies s s'.
Proof.
  intros [Hn Hh Hl] Hx Hw. unfold link_child, get. rewrite Hw. cbn [deref cbind]. set (w1 := set_prev Head (set_next (fCanvasList s) w)). cbn [put fCanvasList]. rewrite Hh. destruct l as [|y l].
  - eexists. split; [reflexivity|]. split; [|by apply (bodies_put s x w)]. split; [by apply NoDup_singleton|done|]. intros [|i] z Hz; [|done]. injection Hz as <-. exists w1. cbn. rewrite lookup_insert_eq. by rewrite Hh.
  - change ((y :: l) !! 0%nat) with (Some y). assert (y <> x) as Hyx by (intros ->; apply Hx; left). destruct (Hl 0%nat y eq_refl) as (v & Hv & Nv & Pv). cbn [put widgets]. rewrite lookup_insert_ne, Hv by done. cbn [deref cbind].
    eexists. split; [reflexivity|]. split.
    + split; [by apply NoDup_cons|done|]. intros [|i] z Hz; cbn [widgets put].
      * injection Hz as <-. exists w1. rewrite lookup_insert_ne, lookup_insert_eq by done. cbn. by rewrite Hh.
      * change ((x :: y :: l) !! S i) with ((y :: l) !! i) in Hz. destruct (decide (z = y)) as [->|Hzy].
        -- assert (i = 0%nat) as -> by (eapply NoDup_lookup; [exact Hn|exact Hz|done]). exists (set_prev (NextOf x) v). rewrite lookup_insert_eq. done.
        -- destruct i as [|i]; [by injection Hz as ->|]. destruct (Hl (S i) z Hz) as (u & Hu & Nu & Pu). exists u. rewrite lookup_insert_ne by done. rewrite lookup_insert_ne by (intros ->; apply Hx; by apply list_elem_of_lookup_2 in Hz). done.
    + intros z. cbn. destruct (decide (z = y)) as [->|Hzy]; [rewrite lookup_insert_eq, Hv; done|]. rewrite lookup_insert_ne by done. destruct (decide (z = x)) as [->|Hzx]; [by rewrite lookup_insert_eq, Hw|by rewrite lookup_insert_ne].
Qed.

(** What RemoveChild does to each canvas. *)
Definition relink (w : widget) (u : nat) (v : widget) : widget :=
  set_prev (if decide (fWinListNext w = Some u) then fWinListPrev w else fWinListPrev v) (set_next (if decide (fWinListPrev w = NextOf u) then fWinListNext w else fWinListNext v) v).

Lemma relink_other w u v : fWinListNext w <> Some u -> fWinListPrev w <> NextOf u -> relink w u v = v.
Proof. intros H1 H2. unfold relink. rewrite !decide_False by done. by destruct v. Qed.

Lemma RemoveChild_does s l x w : ok s l -> x ∈ l -> widgets s !! x = Some w ->
  exists s', RemoveChild s x = Ok (s', [ADestroy (w_id w)]) /\ (forall u, widgets s' !! u = relink w u <$> widgets s !! u) /\ fCanvasList s' = (if decide (fWinListPrev w = Head) then fWinListNext w else fCanvasList s).
Proof.
  intros [Hn Hh Hl] Hx Hw. apply list_elem_of_lookup in Hx as [k Hk]. destruct (Hl k x Hk) as (w' & Hw' & Nw & Pw). assert (w' = w) as -> by congruence. clear Hw'. unfold RemoveChild, get. rewrite Hw. cbn [deref cbind].
  assert (exists s1, assign s (fWinListPrev w) (fWinListNext w) = Ok s1 /\ (forall u, widgets s1 !! u = (fun v => set_next (if decide (fWinListPrev w = NextOf u) then fWinListNext w else fWinListNext v) v) <$> widgets s !! u) /\
    fCanvasList s1 = (if decide (fWinListPrev w = Head) then fWinListNext w else fCanvasList s)) as (s1 & -> & H1 & F1).
  { assert (forall v, set_next (fWinListNext v) v = v) as Eta by (by intros []). destruct (fWinListPrev w) as [|y] eqn:Ep.
    - eexists. split; [reflexivity|]. split; [|by rewrite decide_True]. intros u. cbn. destruct (widgets s !! u); cbn; [|done]. rewrite decide_False by done. by rewrite Eta.
    - unfold assign, get. destruct k as [|k]; cbn [prev_at] in Pw; [congruence|]. destruct (l !! k) as [y'|] eqn:Ek; [|congruence]. assert (y' = y) as -> by congruence. destruct (Hl k y Ek) as (v & Hv & _). rewrite Hv. cbn [deref cbind]. eexists. split; [reflexivity|]. split; [|by rewrite decide_False].
      intros u. cbn. destruct (decide (u = y)) as [->|Hne]; [rewrite lookup_insert_eq, Hv; cbn; by rewrite decide_True|]. rewrite lookup_insert_ne by done. destruct (widgets s !! u); cbn; [|done]. rewrite decide_False by congruence. by rewrite Eta. }
  cbn [cbind]. destruct (fWinListNext w) as [z|] eqn:En.
  - destruct (Hl (S k) z) as (v & Hv & _); [congruence|]. unfold get. rewrite H1, Hv. cbn [deref cbind fmap option_fmap option_map]. eexists. split; [reflexivity|]. split; [|done]. intros u. cbn. unfold relink. rewrite En. destruct (decide (u = z)) as [->|Hne].
    + rewrite lookup_insert_eq, Hv. cbn. by rewrite (decide_True (P := Some z = Some z)) by done.
    + rewrite lookup_insert_ne, H1 by done. destruct (widgets s !! u) as [v'|]; cbn; [|done]. rewrite (decide_False (P := Some z = Some u)) by congruence. by destruct v'.
  - eexists. split; [reflexivity|]. split; [|done]. intros u. rewrite H1. unfold relink. rewrite En. destruct (widgets s !! u) as [v'|]; cbn; [|done]. by destruct v'.
Qed.

Lemma RemoveChild_ok s l1 x l2 w : ok s (l1 ++ x :: l2) -> widgets s !! x = Some w -> exists s', RemoveChild s x = Ok (s', [ADestroy (w_id w)]) /\ ok s' (l1 ++ l2) /\ same_bodies s s'.
Proof.
  intros Hok Hw. pose proof Hok as [Hn Hh Hl]. assert ((l1 ++ x :: l2) !! length l1 = Some x) as Hk by (by apply list_lookup_middle). destruct (RemoveChild_does s _ x w Hok) as (s' & E & Hm & Hf); [by apply list_elem_of_lookup_2 in Hk|done|]. exists s'. split; [done|].
  destruct (Hl _ x Hk) as (w' & Hw' & Nw & Pw). assert (w' = w) as -> by congruence. clear Hw'. assert (forall i, (l1 ++ x :: l2) !! (length l1 + S i)%nat = l2 !! i) as Hr by (intros i; rewrite lookup_app_r by lia; by replace (length l1 + S i - length l1)%nat with (S i) by lia).
  assert (forall i, (l1 ++ l2) !! (length l1 + i)%nat = l2 !! i) as Hr2 by (intros i; rewrite lookup_app_r by lia; f_equal; lia). assert (fWinListNext w = l2 !! 0%nat) as Nw2 by (rewrite Nw, <- Hr; f_equal; lia).
  assert (forall i j u, (l1 ++ x :: l2) !! i = Some u -> (l1 ++ x :: l2) !! j = Some u -> i = j) as Inj by (intros; by eapply NoDup_lookup).
  assert (fWinListPrev w = prev_at l1 (length l1)) as Pw2 by (rewrite Pw; destruct l1 as [|a l1 _] using rev_ind; [done|]; rewrite length_app, Nat.add_1_r; cbn [prev_at]; rewrite <- app_assoc; cbn [app]; rewrite !list_lookup_middle by done; done).
  split; [split|].
  - apply NoDup_app in Hn as (H1 & H2 & H3). apply NoDup_cons in H3 as [H4 H5]. apply NoDup_app. split_and!; [done| |done]. intros u Hu Hu2. apply (H2 u Hu). by right.
  - rewrite Hf, Hh, Pw2. destruct l1 as [|a l1]; [by rewrite decide_True, Nw2|]. rewrite decide_False; [done|]. destruct (lookup_lt_is_Some_2 (a :: l1) (length l1)) as [b Hb]; [cbn; lia|]. cbn [length prev_at]. by rewrite Hb.
  - intros i u Hu. destruct (decide (i < length l1)%nat) as [Hi|Hi].
    + rewrite lookup_app_l in Hu by done. assert ((l1 ++ x :: l2) !! i = Some u) as Hu' by (by rewrite lookup_app_l). destruct (Hl i u Hu') as (v & Hv & Nv & Pv). exists (relink w u v). rewrite Hm, Hv. split; [done|]. cbn [relink set_prev set_next fWinListNext fWinListPrev].
      assert (fWinListNext w <> Some u) as Hnx by (rewrite Nw; intros Hc; pose proof (Inj _ _ _ Hu' Hc); lia). rewrite (decide_False (P := fWinListNext w = Some u)) by done. split.
      * rewrite Pw2. destruct (decide (S i = length l1)) as [Hi2|Hi2].
        -- rewrite <- Hi2. cbn [prev_at]. rewrite Hu, decide_True by done. rewrite Nw2, Hi2, <- (Hr2 0%nat). f_equal. lia.
        -- rewrite decide_False; [rewrite Nv, !lookup_app_l by lia; done|]. destruct (length l1) as [|m] eqn:El; [lia|]. cbn [prev_at]. destruct (lookup_lt_is_Some_2 l1 m) as [b Hb]; [lia|]. rewrite Hb. intros [= ->]. assert (m = i); [|lia]. apply (Inj m i u); [rewrite lookup_app_l by lia; done|done].
      * rewrite Pv. destruct i as [|i]; [done|]. cbn [prev_at]. by rewrite !lookup_app_l by lia.
    + replace i with (length l1 + (i - length l1))%nat in Hu |- * by lia. set (j := (i - length l1)%nat) in *. rewrite Hr2 in Hu. assert ((l1 ++ x :: l2) !! (length l1 + S j)%nat = Some u) as Hu' by (by rewrite Hr). destruct (Hl _ u Hu') as (v & Hv & Nv & Pv). exists (relink w u v). rewrite Hm, Hv. split; [done|].
      cbn [relink set_prev set_next fWinListNext fWinListPrev]. rewrite (decide_False (P := fWinListPrev w = NextOf u)).
      2: { rewrite Pw. destruct (length l1) as [|m] eqn:El; [done|]. cbn [prev_at]. destruct (lookup_lt_is_Some_2 l1 m) as [b Hb]; [lia|]. rewrite lookup_app_l, Hb by lia. intros [= ->]. assert (m = (S m + S j)%nat); [|lia]. apply (Inj m _ u); [rewrite lookup_app_l by lia; done|done]. }
      split; [rewrite Nv; replace (S (length l1 + S j))%nat with (length l1 + S (S j))%nat by lia; replace (S (length l1 + j)) with (length l1 + S j)%nat by lia; by rewrite Hr, Hr2|]. destruct j as [|j].
      * rewrite decide_True by (by rewrite Nw2). rewrite Nat.add_0_r, Pw. destruct (length l1) as [|m] eqn:El; [done|]. cbn [prev_at]. by rewrite !lookup_app_l by lia.
      * rewrite decide_False by (rewrite Nw; intros Hc; pose proof (Inj _ _ _ Hu' Hc); lia). rewrite Pv. replace (length l1 + S (S j))%nat with (S (length l1 + S j)) by lia. replace (length l1 + S j)%nat with (S (length l1 + j)) at 2 by lia. cbn [prev_at]. by rewrite Hr, Hr2.
  - intros u. rewrite Hm. destruct (widgets s !! u); done.
Qed.

Lemma ok_put s l x w w' : ok s l -> widgets s !! x = Some w -> fWinListNext w' = fWinListNext w -> fWinListPrev w' = fWinListPrev w -> ok (put s x w') l.
Proof.
  intros [Hn Hh Hl] Hw Ho Hp. split; [done|done|]. intros i y Hy. destruct (Hl i y Hy) as (v & Hv & Nv & Pv). unfold linked. cbn [put widgets]. destruct (decide (y = x)) as [->|Hne].
  - assert (v = w) as -> by congruence. exists w'. rewrite lookup_insert_eq. by rewrite Ho, Hp.
  - exists v. by rewrite lookup_insert_ne.
Qed.

Lemma child_added s l x w id r : ok s l -> x ∉ l -> widgets s !! x = Some w -> exists s', AddChild s x id r = Ok (s', [(id, ACall LibWin.CShow)]) /\ ok s' (x :: l) /\ same_bodies (put s x (set_id id r w)) s'.
Proof.
  intros Hok Hx Hw. unfold AddChild, get. rewrite Hw. cbn [deref cbind]. destruct (link_child_ok (put s x (set_id id r w)) l x (set_id id r w)) as (s' & -> & Hok' & Hb); [by apply (ok_put s l x w)|done|cbn; by rewrite lookup_insert_eq|]. by exists s'.
Qed.

(** ** Finding a canvas *)

Definition has_id (s : window) (id : Z) (x : nat) : bool := bool_decide (w_id <$> widgets s !! x = Some id).

Lemma ok_size s l : ok s l -> (length l <= size (widgets s))%nat.
Proof.
  intros [Hn _ Hl]. rewrite <- (size_list_to_set (C := gset nat) l Hn), <- (size_dom (D := gset nat)). apply subseteq_size. intros x Hx. apply elem_of_list_to_set, list_elem_of_lookup in Hx as [i Hi]. destruct (Hl i x Hi) as (w & Hw & _). by apply elem_of_dom.
Qed.

Lemma find_from_ok s l id : ok s l -> forall n i, (length l - i <= n)%nat -> find_from s (l !! i) id (S n) = Ok (find (has_id s id) (drop i l)).
Proof.
  intros [Hn Hh Hl]. induction n as [|n IH]; intros i Hi.
  - destruct (l !! i) as [x|] eqn:Ex; [apply lookup_lt_Some in Ex; lia|]. rewrite drop_ge by lia. reflexivity.
  - destruct (l !! i) as [x|] eqn:Ex; [|rewrite drop_ge by (by apply lookup_ge_None); reflexivity]. destruct (Hl i x Ex) as (w & Hw & Nw & _). rewrite (drop_S _ _ _ Ex). cbn [find_from find]. unfold get. rewrite Hw. cbn [deref cbind]. unfold has_id at 1. rewrite Hw. cbn [fmap option_fmap option_map].
    destruct (decide (w_id w = id)) as [->|Hne]; [by rewrite bool_decide_true|]. rewrite bool_decide_false by congruence. rewrite Nw. apply (IH (S i)). lia.
Qed.

Lemma FindChild_ok s l id : ok s l -> FindChild s id = Ok (find (has_id s id) l).
Proof. intros H. unfold FindChild. rewrite (ok_head _ _ H). rewrite (find_from_ok s l id H _ 0%nat); [done|]. pose proof (ok_size s l H). lia. Qed.

(** The identifiers of the canvases in the list differ. *)
Definition ids_differ (s : window) (l : list nat) : Prop := forall x y v w, x ∈ l -> y ∈ l -> widgets s !! x = Some v -> widgets s !! y = Some w -> w_id v = w_id w -> x = y.

Lemma find_id s l id x w : ok s l -> ids_differ s l -> x ∈ l -> widgets s !! x = Some w -> w_id w = id -> find (has_id s id) l = Some x.
Proof.
  intros Hok Hd Hx Hw Hi. destruct (find (has_id s id) l) as [y|] eqn:E.
  - apply find_some in E as [Hy E]. apply bool_decide_eq_true in E. apply list_elem_of_In in Hy. destruct (widgets s !! y) as [v|] eqn:Hv; [|done]. injection E as E. f_equal. apply (Hd y x v w); congruence.
  - apply list_elem_of_In in Hx. apply (find_none _ _ E) in Hx. unfold has_id in Hx. rewrite Hw in Hx. apply bool_decide_eq_false in Hx. cbn in Hx. congruence.
Qed.

Lemma HandleEvent_links w e w' a : HandleEvent w e = (w', a) -> fWinListNext w' = fWinListNext w /\ fWinListPrev w' = fWinListPrev w /\ w_id w' = w_id w.
Proof. unfold HandleEvent. destruct (decide (e = EVT_PAINT)); [by intros [= <- _]|]. destruct (w_button w) as [b|]; [|by intros [= <- _]]. destruct (EventReceived b e). by intros [= <- _]. Qed.

(** ** Dispatching *)

(** The events for [id], and the calls of the canvas [id]. *)
Definition for_id (id : Z) (l : list Mouse.event) : list Z := map Mouse.what (filter (fun e => Mouse.target e = id) l).
Definition of_id (id : Z) (l : list (Z * act)) : list act := map snd (filter (fun e => e.1 = id) l).
(** One canvas and its events. *)
Fixpoint alone (w : widget) (l : list Z) : widget * list act :=
  match l with [] => (w, []) | e :: l => let (w, a) := HandleEvent w e in let (w, b) := alone w l in (w, a ++ b) end.

Lemma of_id_app id l1 l2 : of_id id (l1 ++ l2) = of_id id l1 ++ of_id id l2.
Proof. unfold of_id. by rewrite filter_app, map_app. Qed.

Lemma of_id_same id l : of_id id (map (pair id) l) = l.
Proof. unfold of_id. induction l as [|a l IH]; [done|]. cbn [map]. rewrite filter_cons_True by done. cbn [map snd]. by rewrite IH. Qed.

Lemma of_id_other id id' l : id <> id' -> of_id id (map (pair id') l) = [].
Proof. intros Hne. unfold of_id. induction l as [|a l IH]; [done|]. cbn [map]. by rewrite filter_cons_False by (cbn; congruence). Qed.

Lemma DispatchEvent_ok s l e : ok s l -> ids_differ s l ->
  exists s' a, DispatchEvent s e = Ok (s', a) /\ ok s' l /\ ids_differ s' l /\
    forall x w, x ∈ l -> widgets s !! x = Some w -> let r := if decide (Mouse.target e = w_id w) then HandleEvent w (Mouse.what e) else (w, []) in widgets s' !! x = Some r.1 /\ of_id (w_id w) a = r.2.
Proof.
  intros Hok Hd. unfold DispatchEvent. rewrite (FindChild_ok s l _ Hok). cbn [cbind]. destruct (find (has_id s (Mouse.target e)) l) as [x|] eqn:E.
  - apply find_some in E as [Hx E]. apply list_elem_of_In in Hx. apply bool_decide_eq_true in E. unfold get. destruct (widgets s !! x) as [w|] eqn:Hw; [|done]. injection E as E. cbn [deref cbind]. destruct (HandleEvent w (Mouse.what e)) as [w' a] eqn:Eh. destruct (HandleEvent_links _ _ _ _ Eh) as (L1 & L2 & L3).
    exists (put s x w'), (map (pair (w_id w)) a). split; [done|]. split; [by apply (ok_put s l x w)|]. split.
    + intros y z v u Hy Hz. cbn [put widgets]. intros Hv Hu Hi. destruct (decide (y = x)) as [->|Hyx], (decide (z = x)) as [->|Hzx]; rewrite ?lookup_insert_eq, ?lookup_insert_ne in Hv by done; rewrite ?lookup_insert_eq, ?lookup_insert_ne in Hu by done; try done.
      * injection Hv as <-. by apply (Hd x z w u); congruence.
      * injection Hu as <-. by apply (Hd y x v w); congruence.
      * by apply (Hd y z v u).
    + intros y v Hy Hv. cbv zeta. cbn [put widgets]. destruct (decide (Mouse.target e = w_id v)) as [Et|Et].
      * assert (y = x) as -> by (apply (Hd y x v w); congruence). assert (v = w) as -> by congruence. rewrite lookup_insert_eq, Eh. split; [done|]. apply of_id_same.
      * rewrite lookup_insert_ne by congruence. split; [done|]. apply of_id_other. congruence.
  - exists s, []. split; [done|]. split; [done|]. split; [done|]. intros x w Hx Hw. cbv zeta. rewrite decide_False; [done|]. intros Et. rewrite (find_id s l _ x w Hok Hd Hx Hw) in E by done. discriminate E.
Qed.

Lemma EventLoop_ok id es : forall s l, ok s l -> ids_differ s l -> Forall (fun e => Mouse.what e <> EVT_QUIT) es ->
  exists s' a, EventLoop s id es = Ok (Some s', a) /\ ok s' l /\ ids_differ s' l /\
    forall x w, x ∈ l -> widgets s !! x = Some w -> widgets s' !! x = Some (alone w (for_id (w_id w) es)).1 /\ of_id (w_id w) a = (alone w (for_id (w_id w) es)).2.
Proof.
  induction es as [|e es IH]; intros s l Hok Hd Hq; cbn [EventLoop]; [exists s, []; done|]. inversion_clear Hq as [|? ? Hq1 Hq2]. rewrite decide_False by done. destruct (DispatchEvent_ok s l e Hok Hd) as (s1 & a1 & -> & Hok1 & Hd1 & H1). cbn [cbind].
  destruct (IH s1 l Hok1 Hd1 Hq2) as (s2 & a2 & -> & Hok2 & Hd2 & H2). cbn [cbind]. exists s2, (a1 ++ a2). split; [done|]. split; [done|]. split; [done|]. intros x w Hx Hw. rewrite of_id_app. destruct (H1 x w Hx Hw) as [E1 A1]. unfold for_id. rewrite filter_cons.
  destruct (decide (Mouse.target e = w_id w)) as [Et|Et].
  - cbn [map alone]. destruct (HandleEvent w (Mouse.what e)) as [w1 b1] eqn:Eh. cbn [fst snd] in E1, A1. destruct (H2 x w1 Hx E1) as [E2 A2]. destruct (HandleEvent_links _ _ _ _ Eh) as (_ & _ & Ei). rewrite Ei in E2, A2. unfold for_id in E2, A2.
    destruct (alone w1 _) as [w2 b2]. cbn [fst snd] in *. split; [done|]. congruence.
  - cbn [fst snd] in E1, A1. destruct (H2 x w Hx E1) as [E2 A2]. unfold for_id in E2, A2. by rewrite A1, A2.
Qed.

(** The canvases of a window whatever was added, removed and dispatched before. *)
Inductive reach : window -> list nat -> Prop :=
| r_new m : reach (Win m None) []
| r_add s l x id r s' a : reach s l -> x ∉ l -> is_Some (widgets s !! x) -> (forall y w, y ∈ l -> widgets s !! y = Some w -> w_id w <> id) -> AddChild s x id r = Ok (s', a) -> reach s' (x :: l)
| r_remove s l1 x l2 s' a : reach s (l1 ++ x :: l2) -> RemoveChild s x = Ok (s', a) -> reach s' (l1 ++ l2)
| r_event s l e s' a : reach s l -> DispatchEvent s e = Ok (s', a) -> reach s' l.

Lemma differ_bodies s s' l : same_bodies s s' -> ids_differ s l -> ids_differ s' l.
Proof.
  intros Hb Hd x y v w Hx Hy Hv Hw Hi. pose proof (Hb x) as Bx. pose proof (Hb y) as By. rewrite Hv in Bx. rewrite Hw in By. destruct (widgets s !! x) as [v0|] eqn:E1; [|done]. destruct (widgets s !! y) as [w0|] eqn:E2; [|done]. injection Bx as B1 _ _ _. injection By as B2 _ _ _. apply (Hd x y v0 w0); congruence.
Qed.

Lemma window_ok s l : reach s l -> ok s l /\ ids_differ s l.
Proof.
  induction 1 as [m|s l x id r s' a Hr [Hok Hd] Hx [w Hw] Hid E|s l1 x l2 s' a Hr [Hok Hd] E|s l e s' a Hr [Hok Hd] E].
  - split; [split; [constructor|done|done]|]. intros x y v w Hx. by apply elem_of_nil in Hx.
  - destruct (child_added s l x w id r Hok Hx Hw) as (s1 & E1 & Hok1 & Hb). rewrite E in E1. injection E1 as <- _. split; [done|]. apply (differ_bodies _ _ _ Hb). intros y z u v Hy Hz. cbn [put widgets].
    destruct (decide (y = x)) as [->|Hyx], (decide (z = x)) as [->|Hzx]; rewrite ?lookup_insert_eq; rewrite ?lookup_insert_ne by done; intros Hu Hv Hi; [done|..].
    + injection Hu as <-. apply elem_of_cons in Hz as [->|Hz]; [done|]. by apply Hid in Hv.
    + injection Hv as <-. apply elem_of_cons in Hy as [->|Hy]; [done|]. by apply Hid in Hu.
    + apply elem_of_cons in Hy as [->|Hy]; [done|]. apply elem_of_cons in Hz as [->|Hz]; [done|]. by apply (Hd y z u v).
  - destruct (ok_links _ _ Hok (length l1) x) as (w & Hw & _); [by apply list_lookup_middle|]. destruct (RemoveChild_ok s l1 x l2 w Hok Hw) as (s1 & E1 & Hok1 & Hb). rewrite E in E1. injection E1 as <- _. split; [done|]. apply (differ_bodies _ _ _ Hb).
    intros y z v u Hy Hz. apply Hd; (apply elem_of_app in Hy as [?|?] || idtac); (apply elem_of_app in Hz as [?|?] || idtac); apply elem_of_app; rewrite ?elem_of_cons; tauto.
  - destruct (DispatchEvent_ok s l e Hok Hd) as (s1 & a1 & E1 & Hok1 & Hd1 & _). rewrite E in E1. by injection E1 as <- _.
Qed.

(** Events reach their canvas: in a window that was put together by any calls of AddChild and
  RemoveChild and any events, the thread handles every sequence of events, and each canvas in
  the list does exactly what it does when its own events come alone, in order. *)
Theorem events_delivered s l id es : reach s l -> Forall (fun e => Mouse.what e <> EVT_QUIT) es ->
  exists s' a, EventLoop s id es = Ok (Some s', a) /\ ok s' l /\
    forall x w, x ∈ l -> widgets s !! x = Some w -> widgets s' !! x = Some (alone w (for_id (w_id w) es)).1 /\ of_id (w_id w) a = (alone w (for_id (w_id w) es)).2.
Proof. intros Hr Hq. destruct (window_ok s l Hr) as [Hok Hd]. destruct (EventLoop_ok id es s l Hok Hd Hq) as (s' & a & E & H1 & _ & H2). by exists s', a. Qed.

(** ** Clicks *)

Definition brun (b : button) (l : list Z) : button := fold_left (fun b e => (EventReceived b e).1) l b.
Definition crossing (e : Z) : Prop := e = Mouse.EVT_MOUSE_DOWN \/ e = Mouse.EVT_MOUSE_ENTER \/ e = Mouse.EVT_MOUSE_LEAVE.
#[export] Instance crossing_dec e : Decision (crossing e).
Proof. unfold crossing. apply _. Defined.

(** A press since the last release, after which the pointer did not leave for good. *)
Definition over (since : list Z) : Prop := Mouse.EVT_MOUSE_DOWN ∈ since /\ last (filter crossing since) <> Some Mouse.EVT_MOUSE_LEAVE.
#[export] Instance over_dec since : Decision (over since).
Proof. unfold over. apply _. Defined.

Lemma received_down b : EventReceived b Mouse.EVT_MOUSE_DOWN = (Btn (fText b) true true, [ACall LibWin.CLock; invalidate]).
Proof. reflexivity. Qed.
Lemma received_up b : EventReceived b Mouse.EVT_MOUSE_UP = (Btn (fText b) false false, (if fOverButton b then [AInvoke] else []) ++ [invalidate]).
Proof. reflexivity. Qed.
Lemma received_enter b : EventReceived b Mouse.EVT_MOUSE_ENTER = (if fMouseDown b then (Btn (fText b) true true, [invalidate]) else (b, [])).
Proof. reflexivity. Qed.
Lemma received_leave b : EventReceived b Mouse.EVT_MOUSE_LEAVE = (if fMouseDown b then (Btn (fText b) true false, [invalidate]) else (b, [])).
Proof. reflexivity. Qed.

Lemma brun_since text l : Mouse.EVT_MOUSE_UP ∉ l -> brun (new_button text) l = Btn text (bool_decide (Mouse.EVT_MOUSE_DOWN ∈ l)) (bool_decide (over l)).
Proof.
  induction l as [|e l IH] using rev_ind; intros Hu; [reflexivity|]. rewrite elem_of_app, list_elem_of_singleton in Hu. unfold brun in *. rewrite fold_left_app. cbn [fold_left]. rewrite IH by tauto.
  assert (Mouse.EVT_MOUSE_DOWN ∈ l ++ [e] <-> Mouse.EVT_MOUSE_DOWN ∈ l \/ e = Mouse.EVT_MOUSE_DOWN) as Hin by (rewrite elem_of_app, list_elem_of_singleton; naive_solver).
  assert (last (filter crossing (l ++ [e])) = if decide (crossing e) then Some e else last (filter crossing l)) as HL by (rewrite (filter_app crossing); destruct (decide (crossing e)) as [Hc|Hc]; [rewrite (filter_cons_True crossing) by done; apply last_snoc|rewrite (filter_cons_False crossing) by done; by rewrite filter_nil, app_nil_r]).
  assert (over (l ++ [e]) <-> (Mouse.EVT_MOUSE_DOWN ∈ l \/ e = Mouse.EVT_MOUSE_DOWN) /\ (if decide (crossing e) then Some e else last (filter crossing l)) <> Some Mouse.EVT_MOUSE_LEAVE) as Ho by (unfold over; by rewrite Hin, HL).
  rewrite (bool_decide_ext _ _ Ho), (bool_decide_ext _ _ Hin). destruct (decide (crossing e)) as [Hc|Hc].
  - destruct Hc as [->|[->| ->]]; [rewrite received_down|rewrite received_enter|rewrite received_leave]; cbn [fMouseDown fText fst].
    + rewrite !bool_decide_true by naive_solver. done.
    + rewrite (bool_decide_ext (_ \/ _) (Mouse.EVT_MOUSE_DOWN ∈ l)) by naive_solver. rewrite (bool_decide_ext (_ /\ _) (Mouse.EVT_MOUSE_DOWN ∈ l)) by naive_solver. case_bool_decide as Hd; cbn [fst]; [done|]. f_equal. apply bool_decide_false. unfold over. tauto.
    + rewrite (bool_decide_ext (_ \/ _) (Mouse.EVT_MOUSE_DOWN ∈ l)) by naive_solver. rewrite (bool_decide_false (_ /\ _)) by naive_solver. case_bool_decide as Hd; cbn [fst]; [done|]. f_equal. apply bool_decide_false. unfold over. tauto.
  - unfold crossing in Hc. unfold EventReceived. rewrite !decide_False by (tauto || (intros ->; tauto)). cbn [fst]. f_equal; apply bool_decide_ext; unfold over; tauto.
Qed.

(** A button is invoked when the mouse is released exactly if it was pressed on the button
  since the last release and the pointer is not outside. *)
Theorem button_invoked text pre since : (pre = [] \/ last pre = Some Mouse.EVT_MOUSE_UP) -> Mouse.EVT_MOUSE_UP ∉ since ->
  AInvoke ∈ (EventReceived (brun (new_button text) (pre ++ since)) Mouse.EVT_MOUSE_UP).2 <-> over since.
Proof.
  intros Hp Hs. assert (forall l b, fText (brun b l) = fText b) as Ht.
  { induction l as [|e l IH]; intros b; [done|]. unfold brun in *. cbn [fold_left]. rewrite IH. unfold EventReceived. repeat case_decide; try done; by destruct (fMouseDown b). }
  assert (brun (new_button text) pre = new_button text) as E.
  { destruct Hp as [->|Hp]; [done|]. apply last_Some in Hp as [pre' ->]. unfold brun. rewrite fold_left_app. cbn [fold_left]. rewrite received_up. cbn [fst]. fold (brun (new_button text) pre'). by rewrite Ht. }
  unfold brun. rewrite fold_left_app. fold (brun (new_button text) pre). rewrite E. fold (brun (new_button text) since). rewrite brun_since by done. rewrite received_up. cbn [snd fOverButton].
  destruct (decide (over since)) as [Ho|Ho]; [rewrite bool_decide_true by done; split; [done|left]|]. rewrite bool_decide_false by done. cbn [app]. rewrite list_elem_of_singleton. split; [done|tauto].
Qed.

(** ** The end of a window *)

Fixpoint nexts (m : gmap nat widget) (n : option nat) (l : list nat) : Prop :=
  match l with [] => n = None | x :: l => n = Some x /\ exists w, m !! x = Some w /\ nexts m (fWinListNext w) l end.

Lemma nexts_delete m x : forall l n, x ∉ l -> nexts m n l -> nexts (delete x m) n l.
Proof.
  induction l as [|y l IH]; intros n Hx H; [done|]. destruct H as (-> & w & Hw & H). apply not_elem_of_cons in Hx as [Hxy Hx]. split; [done|]. exists w. split; [by rewrite lookup_delete_ne|by apply IH].
Qed.

Lemma ok_nexts s l : ok s l -> forall k i, (length l - i <= k)%nat -> nexts (widgets s) (l !! i) (drop i l).
Proof.
  intros [Hn Hh Hl]. induction k as [|k IH]; intros i Hi; (destruct (l !! i) as [x|] eqn:Ex; [|rewrite drop_ge by (by apply lookup_ge_None); reflexivity]); [apply lookup_lt_Some in Ex; lia|].
  rewrite (drop_S _ _ _ Ex). split; [done|]. destruct (Hl i x Ex) as (w & Hw & Nw & _). exists w. split; [done|]. rewrite Nw. apply IH. lia.
Qed.

Lemma delete_from_ok id : forall l m n k, NoDup l -> nexts m n l -> (length l <= k)%nat ->
  exists ids, delete_from (Win m n) id k = Ok (map ADestroy ids ++ [ADestroy id]) /\ Forall2 (fun x i => w_id <$> m !! x = Some i) l ids.
Proof.
  induction l as [|x l IH]; intros m n k Hn H Hk.
  - cbn in H. subst. exists []. destruct k; done.
  - destruct H as (-> & w & Hw & H). apply NoDup_cons in Hn as [Hx Hn]. destruct k as [|k]; [cbn in Hk; lia|]. cbn [delete_from fCanvasList]. unfold get. cbn [widgets]. rewrite Hw. cbn [deref cbind].
    destruct (IH (delete x m) (fWinListNext w) k Hn ltac:(by apply nexts_delete) ltac:(cbn in Hk; lia)) as (ids & -> & Hf). cbn [cbind]. exists (w_id w :: ids). split; [done|]. constructor; [by rewrite Hw|].
    eapply Forall2_impl; [exact Hf|]. cbv beta. intros y i E. destruct (decide (y = x)) as [->|Hne]; [by rewrite lookup_delete_eq in E|]. by rewrite lookup_delete_ne in E by done.
Qed.

(** Closing a window destroys each of its canvases, and then the window. *)
Theorem window_closed s l id : reach s l -> exists ids, delete_window s id = Ok (map ADestroy ids ++ [ADestroy id]) /\ Forall2 (fun x i => w_id <$> widgets s !! x = Some i) l ids.
Proof.
  intros Hr. destruct (window_ok s l Hr) as [Hok _]. unfold delete_window. destruct s as [m n]. pose proof (ok_size _ _ Hok) as Hs. cbn [widgets] in *. apply delete_from_ok; [by apply ok_nodup in Hok| |lia]. pose proof (ok_nexts _ _ Hok (length l) 0%nat ltac:(lia)) as H. rewrite drop_0 in H. pose proof (ok_head _ _ Hok) as Hh. cbn in Hh. by rewrite Hh.
Qed.

(** ** Canvas::RemoveChild *)

Definition plain (id : Z) : widget := Widget id everything None false None Head.
Definition three : cres window :=
  let! (s, _) := AddChild (Win {[0%nat := plain 0; 1%nat := plain 0; 2%nat := plain 0]} None) 0 10 everything in
  let! (s, _) := AddChild s 1 11 everything in
  let! (s, _) := AddChild s 2 12 everything in Ok s.

(** Of three canvases two that stand side by side are removed: with the function of Canvas the
  second stays in the list of the window, although it may be deleted, and gets its events. *)
Definition removed (f : window -> nat -> cres (window * list act)) : cres (option nat) :=
  let! s := three in let! (s, _) := f s 1%nat in let! (s, _) := f s 0%nat in FindChild s 10.
Example canvas_remove_dangles : removed Canvas_RemoveChild = Ok (Some 0%nat) /\ removed RemoveChild = Ok None.
Proof. vm_compute. auto. Qed.

End Events.
