(* ===== verification/Net.v ===== *)
(** The network server, srv/network: its buffers (mbuf.c), the queue of frames and the thread
  that takes them (protocol/eth/eth.c), the answers to ARP (protocol/arp/arp.c), and the two
  ends of the driver of the card (device/ne/wrap.c).

  The 32 mbufs of the page that mbinit gets are numbered by their place in it.  mbinit lets
  [m_data] point behind the mbuf, where the next one begins ([Behind]): a word written there is
  the [m_next] of that one, or the first word of the clusters.  Reading a packet there is not
  modelled and counts as a fault. *)
From S2P Require Import Prelude LibC Bytes.
Import LibC Bytes.
Local Open Scope Z_scope.
Local Open Scope c_scope.

Module Net.

(** ** mbuf.h *)

Definition NMBUF : nat := 32.
Definition MLEN : Z := 108.
Definition MT_FREE : Z := 1.
Definition MT_DATA : Z := 2.
Definition MT_IFADDR : Z := 4.

(** The values of a word that is a pointer: null, an mbuf, or the structure of the device. *)
Inductive ptr := Null | Mbuf (i : nat) | Dev.
(** Where the data of an mbuf is: in mbuf [i], or behind it. *)
Inductive dptr := InBuf (i : nat) | Behind (i : nat).
Record mbuf := MB { m_next : ptr; m_nextpkt : ptr; m_len : Z; m_data : dptr; m_type : Z; m_flags : Z; m_databuf : list Z }.

Record net := Net {
  mbufs : list mbuf; clusters : ptr; free_mbuf : ptr; eth_input_queue : ptr;
  protlist : list Z; iflist : list (list Z); dev_addr : list Z; sent : list (list Z)
}.

Definition set_mbufs (l : list mbuf) (s : net) : net := Net l (clusters s) (free_mbuf s) (eth_input_queue s) (protlist s) (iflist s) (dev_addr s) (sent s).
Definition set_clusters (p : ptr) (s : net) : net := Net (mbufs s) p (free_mbuf s) (eth_input_queue s) (protlist s) (iflist s) (dev_addr s) (sent s).
Definition set_free (p : ptr) (s : net) : net := Net (mbufs s) (clusters s) p (eth_input_queue s) (protlist s) (iflist s) (dev_addr s) (sent s).
Definition set_queue (p : ptr) (s : net) : net := Net (mbufs s) (clusters s) (free_mbuf s) p (protlist s) (iflist s) (dev_addr s) (sent s).
Definition add_sent (l : list Z) (s : net) : net := Net (mbufs s) (clusters s) (free_mbuf s) (eth_input_queue s) (protlist s) (iflist s) (dev_addr s) (sent s ++ [l]).

Definition w_next (p : ptr) (m : mbuf) : mbuf := MB p (m_nextpkt m) (m_len m) (m_data m) (m_type m) (m_flags m) (m_databuf m).
Definition w_nextpkt (p : ptr) (m : mbuf) : mbuf := MB (m_next m) p (m_len m) (m_data m) (m_type m) (m_flags m) (m_databuf m).
Definition w_len (n : Z) (m : mbuf) : mbuf := MB (m_next m) (m_nextpkt m) n (m_data m) (m_type m) (m_flags m) (m_databuf m).
Definition w_data (p : dptr) (m : mbuf) : mbuf := MB (m_next m) (m_nextpkt m) (m_len m) p (m_type m) (m_flags m) (m_databuf m).
Definition w_type (t : Z) (m : mbuf) : mbuf := MB (m_next m) (m_nextpkt m) (m_len m) (m_data m) t (m_flags m) (m_databuf m).
Definition w_buf (b : list Z) (m : mbuf) : mbuf := MB (m_next m) (m_nextpkt m) (m_len m) (m_data m) (m_type m) (m_flags m) b.

(** p->..., for a pointer to an mbuf *)
Definition at_ (s : net) (p : ptr) : cres mbuf := match p with Mbuf i => deref (mbufs s !! i) | _ => Fault end.
Definition upd (p : ptr) (f : mbuf -> mbuf) (s : net) : cres net :=
  match p with Mbuf i => let? m := mbufs s !! i in Ok (set_mbufs (<[i := f m]> (mbufs s)) s) | _ => Fault end.
(** A pointer that is stored and loaded where [m_data] points. *)
Definition store_ptr (d : dptr) (v : ptr) (s : net) : cres net :=
  match d with
  | InBuf _ => Fault
  | Behind i => if decide (S i = NMBUF) then Ok (set_clusters v s) else upd (Mbuf (S i)) (w_next v) s
  end.
Definition load_ptr (d : dptr) (s : net) : cres ptr :=
  match d with
  | InBuf _ => Fault
  | Behind i => if decide (S i = NMBUF) then Ok (clusters s) else let! m := at_ s (Mbuf (S i)) in Ok (m_next m)
  end.
(** The bytes where [m_data] points. *)
Definition packet (m : mbuf) (s : net) : cres (list Z) :=
  match m_data m with InBuf i => let! b := at_ s (Mbuf i) in Ok (m_databuf b) | Behind _ => Fault end.

(** ** mbuf.c *)

(** The page of mbufs, whose bytes [junk] are what sbrk left; the first word of the clusters is
  the link of the first one. *)
Definition mbinit (junk : nat -> list Z) (prots : list Z) (ifs : list (list Z)) (addr : list Z) : net :=
  Net (map (fun i => MB (match i with O => Null | S j => Mbuf j end) Null MLEN (Behind i) MT_FREE 0 (junk i)) (seq 0 NMBUF)) Null (Mbuf (NMBUF - 1)) Null prots ifs addr [].

Definition mget (s : net) : cres (net * ptr) :=
  let p := free_mbuf s in
  let! s := (match p with Null => Ok s | _ => let! m := at_ s p in Ok (set_free (m_next m) s) end) in
  let! s := upd p (w_next Null) s in
  Ok (s, p).

(** The last assignment takes the link that was just written: the list stays as it was. *)
Definition mput (p : ptr) (s : net) : cres net :=
  match p with
  | Mbuf i =>
      let! s := upd p (fun m => MB (m_next m) Null MLEN (Behind i) MT_FREE 0 (m_databuf m)) s in
      let! s := upd p (w_next (free_mbuf s)) s in
      let! m := at_ s p in
      Ok (set_free (m_next m) s)
  | _ => Fault
  end.

(** ** eth.c *)

Fixpoint append (q p : ptr) (s : net) (fuel : nat) : cres net :=
  match fuel with
  | O => Fault
  | S fuel => let! m := at_ s q in match m_nextpkt m with Null => upd q (w_nextpkt p) s | q' => append q' p s fuel end
  end.
Definition eth_input (p : ptr) (s : net) : cres net :=
  match eth_input_queue s with
  | Null => let s := set_queue p s in upd p (w_nextpkt Null) s
  | q => append q p s (S NMBUF)
  end.

(** ** wrap.c *)

(** The function that the driver of the card calls with a packet. *)
Definition receive (data : list Z) (s : net) : cres net :=
  let len := Z.of_nat (length data) in
  let! (s, mb) := mget s in
  let! s := upd mb (fun m => w_len len (w_type MT_DATA m)) s in
  let! s := (if decide (len < MLEN) then
    match mb with
    | Mbuf i => let! s := upd mb (w_data (InBuf i)) s in let! m := at_ s mb in let! b := store (m_databuf m) 0 data in upd mb (w_buf b) s
    | _ => Fault
    end else Ok s) in
  let! (s, header) := mget s in
  let! s := upd header (fun m => w_len 3 (w_type MT_IFADDR m)) s in
  let! h := at_ s header in
  let! s := store_ptr (m_data h) Dev s in
  let! s := upd header (w_next mb) s in
  eth_input header s.

(** send: the packet is copied and given to the driver of the card, with a length that is 100
  more than it has. *)
Definition send (p : ptr) (s : net) : cres net :=
  let! h := at_ s p in
  let! m := at_ s (m_next h) in
  let! b := packet m s in
  let! l := fetch b 0 (Z.to_nat (m_len m)) in
  let s := add_sent l s in
  let! s := mput (m_next h) s in
  mput p s.

(** ** arp.c *)

Definition ETH_PROT_ARP : Z := 0x0806.
Definition ETH_PROT_IP : Z := 0x0800.
Definition ETH_ARP_OP_REPLY : Z := 2.
Definition be16 (v : Z) : list Z := [v / 256; v mod 256].

Definition answer (request : list Z) (addr mac : list Z) : cres (list Z) :=
  let! src := fetch request 6 6 in
  let! sip := fetch request 28 4 in
  Ok (src ++ mac ++ be16 ETH_PROT_ARP ++ be16 1 ++ be16 ETH_PROT_IP ++ [6; 4] ++ be16 ETH_ARP_OP_REPLY ++ mac ++ addr ++ src ++ sip).

Definition arp_input (p : ptr) (s : net) : cres net :=
  let! h := at_ s p in
  let! m := at_ s (m_next h) in
  let! request := packet m s in
  let! target := fetch request 38 4 in
  match find (fun a => bool_decide (a = target)) (iflist s) with
  | None => Ok s
  | Some addr =>
      let! dev := load_ptr (m_data h) s in
      match dev with
      | Dev =>
          let! (s, reply_header) := mget s in
          let! (s, reply) := mget s in
          let! s := upd reply_header (w_next reply) s in
          match reply with
          | Mbuf i =>
              let! s := upd reply (w_data (InBuf i)) s in
              let! a := answer request addr (dev_addr s) in
              let! r := at_ s reply in
              let! b := store (m_databuf r) 0 a in
              let! s := upd reply (fun m => w_len 60 (w_buf b m)) s in
              let! s := send reply_header s in
              let! h := at_ s p in
              let! s := mput (m_next h) s in
              mput p s
          | _ => Fault
          end
      | _ => Fault
      end
  end.

(** One turn of eth_input_thread, when there is a frame. *)
Definition turn (s : net) : cres net :=
  let p := eth_input_queue s in
  let! h := at_ s p in
  let s := set_queue (m_nextpkt h) s in
  let! m := at_ s (m_next h) in
  let! f := packet m s in
  let! t := fetch f 12 2 in
  if decide (existsb (fun n => bool_decide (t = be16 n)) (protlist s)) then arp_input p s else Ok s.

End Net.
