(* ===== verification/NetProof.v ===== *)
(** The network server (Net): what it answers, and for how long.

  The mbufs that are free are those below a number [k], which only falls: mput never returns one
  to the list. *)
From S2P Require Import Prelude LibC Bytes Net.
Import LibC Bytes Net.
Local Open Scope Z_scope.
Local Open Scope c_scope.

Module NetProof.

(** ** The invariant *)

Definition top (k : nat) : ptr := match k with O => Null | S j => Mbuf j end.
Definition free_at (l : list mbuf) (i : nat) : Prop := exists m, l !! i = Some m /\ m_next m = top i /\ m_nextpkt m = Null /\ m_data m = Behind i /\ length (m_databuf m) = 108%nat.
(** A frame [f] that waits, with its header at [h]. *)
Definition queued (l : list mbuf) (h : nat) (f : list Z) : Prop := exists hm dm b, l !! h = Some hm /\ m_next hm = Mbuf (S h) /\ m_data hm = Behind h /\
  l !! S h = Some dm /\ m_next dm = Dev /\ m_data dm = InBuf (S h) /\ m_databuf dm = splice b 0 f /\ length b = 108%nat.
Definition first (q : list (nat * list Z)) : ptr := match q with [] => Null | (h, _) :: _ => Mbuf h end.
Definition link_at (l : list mbuf) (q : list (nat * list Z)) (i : nat) : Prop := forall h f, q !! i = Some (h, f) -> exists m, l !! h = Some m /\ m_nextpkt m = first (drop (S i) q).
(** A frame that fits an mbuf. *)
Definition short (f : list Z) : Prop := bytes f /\ (60 <= length f < 108)%nat.

Record inv (s : net) (k : nat) (q : list (nat * list Z)) : Prop := {
  iv_len : length (mbufs s) = NMBUF;
  iv_k : (k <= NMBUF)%nat;
  iv_even : exists j, (k = 2 * j)%nat;
  iv_free : free_mbuf s = top k;
  iv_frees : forall i, (i < k)%nat -> free_at (mbufs s) i;
  iv_head : eth_input_queue s = first q;
  iv_queued : forall h f, (h, f) ∈ q -> queued (mbufs s) h f /\ short f /\ (k <= h)%nat /\ (S h < NMBUF)%nat /\ exists j, (h = 2 * j)%nat;
  iv_nodup : NoDup q.*1;
  iv_links : forall i, link_at (mbufs s) q i
}.

Definition same_rest (s s' : net) : Prop := protlist s' = protlist s /\ iflist s' = iflist s /\ dev_addr s' = dev_addr s.

(** ** Buffers *)

Lemma upd_at i m f s : mbufs s !! i = Some m -> upd (Mbuf i) f s = Ok (set_mbufs (<[i := f m]> (mbufs s)) s).
Proof. intros H. unfold upd. by rewrite H. Qed.

Lemma mget_ok s k m : free_mbuf s = Mbuf k -> mbufs s !! k = Some m -> mget s = Ok (set_mbufs (<[k := w_next Null m]> (mbufs s)) (set_free (m_next m) s), Mbuf k).
Proof. intros Hf Hm. unfold mget. rewrite Hf. cbn [at_]. rewrite Hm. cbn [deref cbind]. rewrite (upd_at k m) by done. done. Qed.

Lemma mget_dry s : free_mbuf s = Null -> mget s = Fault.
Proof. intros Hf. unfold mget. by rewrite Hf. Qed.

(** mput changes the mbuf only. *)
Lemma mput_ok s i m : mbufs s !! i = Some m -> mput (Mbuf i) s = Ok (set_mbufs (<[i := MB (free_mbuf s) Null MLEN (Behind i) MT_FREE 0 (m_databuf m)]> (mbufs s)) s).
Proof.
  intros Hm. pose proof (lookup_lt_Some _ _ _ Hm) as Hl. unfold mput. rewrite (upd_at i m) by done. cbn [cbind]. erewrite upd_at by (cbn [mbufs set_mbufs]; by apply list_lookup_insert_eq). cbn [cbind at_ mbufs set_mbufs]. rewrite list_lookup_insert_eq by (by rewrite length_insert). cbn [deref cbind].
  rewrite list_insert_insert_eq. unfold set_free, set_mbufs, w_next. cbn. done.
Qed.

Lemma fetch_splice_in b f p n : (length f <= length b)%nat -> fits f p n -> fetch (splice b 0 f) p n = Ok (slice f p n).
Proof.
  intros Hl [H1 H2]. rewrite fetch_ok by (unfold fits; rewrite length_splice by (unfold fits; lia); lia). f_equal. unfold slice, splice. change (Z.to_nat 0) with 0%nat. rewrite take_0. cbn [app]. rewrite skipn_app, firstn_app, length_drop.
  replace (n - (length f - Z.to_nat p))%nat with 0%nat by lia. by rewrite take_0, app_nil_r.
Qed.

(** Everything but the mbufs is the same. *)
Definition agree (s s' : net) : Prop := length (mbufs s') = length (mbufs s) /\ free_mbuf s' = free_mbuf s /\ eth_input_queue s' = eth_input_queue s /\ same_rest s s' /\ sent s' = sent s.

Lemma upd_step i m f s : mbufs s !! i = Some m -> exists s', upd (Mbuf i) f s = Ok s' /\ mbufs s' !! i = Some (f m) /\ (forall j, j <> i -> mbufs s' !! j = mbufs s !! j) /\ agree s s'.
Proof.
  intros H. pose proof (lookup_lt_Some _ _ _ H) as Hl. eexists. split; [by apply upd_at|]. cbn [set_mbufs mbufs]. split; [by apply list_lookup_insert_eq|]. split; [intros j Hj; by apply list_lookup_insert_ne|]. unfold agree, same_rest. cbn. by rewrite length_insert.
Qed.

Lemma mget_step s k m : free_mbuf s = Mbuf k -> mbufs s !! k = Some m ->
  exists s', mget s = Ok (s', Mbuf k) /\ mbufs s' !! k = Some (w_next Null m) /\ (forall j, j <> k -> mbufs s' !! j = mbufs s !! j) /\ length (mbufs s') = length (mbufs s) /\
    free_mbuf s' = m_next m /\ eth_input_queue s' = eth_input_queue s /\ same_rest s s' /\ sent s' = sent s.
Proof.
  intros Hf H. pose proof (lookup_lt_Some _ _ _ H) as Hl. eexists. split; [by apply mget_ok|]. cbn [set_mbufs set_free mbufs]. split; [by apply list_lookup_insert_eq|]. split; [intros j Hj; by apply list_lookup_insert_ne|]. rewrite length_insert. unfold same_rest. done.
Qed.

(** ** The queue *)

Lemma first_ne q : first q = Null <-> q = [].
Proof. by destruct q as [|[h f] q]. Qed.

Lemma append_ok s p q : (forall i, link_at (mbufs s) q i) -> forall n i h f, q !! i = Some (h, f) -> (length q - i <= n)%nat -> exists g x, last q = Some (g, x) /\ append (Mbuf h) p s n = upd (Mbuf g) (w_nextpkt p) s.
Proof.
  intros Hl. induction n as [|n IH]; intros i h f Hi Hn; [apply lookup_lt_Some in Hi; lia|]. destruct (Hl i h f Hi) as (m & Hm & Hx). cbn [append at_]. rewrite Hm. cbn [deref cbind]. rewrite Hx. destruct (q !! S i) as [[h' f']|] eqn:E.
  - rewrite (drop_S _ _ _ E). cbn [first]. by apply (IH (S i) h' f'); [|lia].
  - apply lookup_ge_None in E. rewrite drop_ge by done. cbn [first]. exists h, f. split; [|done]. rewrite last_lookup. replace (pred (length q)) with i; [done|]. apply lookup_lt_Some in Hi. lia.
Qed.

Lemma queued_nextpkt l h f g gm p : l !! g = Some gm -> queued l h f -> queued (<[g := w_nextpkt p gm]> l) h f.
Proof.
  intros Hg (hm & dm & b & H1 & H2 & H3 & H4 & H5 & H6 & H7 & H8). pose proof (lookup_lt_Some _ _ _ Hg) as Hl. destruct (decide (g = h)) as [->|N1]; [|destruct (decide (g = S h)) as [->|N2]].
  - assert (gm = hm) as -> by congruence. exists (w_nextpkt p hm), dm, b. rewrite list_lookup_insert_eq, list_lookup_insert_ne by (done || lia). done.
  - assert (gm = dm) as -> by congruence. exists hm, (w_nextpkt p dm), b. rewrite list_lookup_insert_eq, list_lookup_insert_ne by (done || lia). done.
  - exists hm, dm, b. rewrite !list_lookup_insert_ne by done. done.
Qed.

Lemma few (q : list (nat * list Z)) : NoDup q.*1 -> (forall h f, (h, f) ∈ q -> (S h < NMBUF)%nat) -> (length q <= NMBUF)%nat.
Proof.
  intros Hn H. rewrite <- (length_fmap fst q). change NMBUF with (length (seq 0 NMBUF)). apply submseteq_length, NoDup_submseteq; [done|]. intros h Hh. apply list_elem_of_fmap in Hh as ([h' f] & -> & Hf). apply elem_of_seq. cbn. apply H in Hf. lia.
Qed.

Lemma enqueue_ok s k q h f hm : inv s k q -> queued (mbufs s) h f -> mbufs s !! h = Some hm -> m_nextpkt hm = Null -> short f -> (k <= h)%nat -> (S h < NMBUF)%nat -> (exists j, h = 2 * j)%nat -> h ∉ q.*1 ->
  exists s', eth_input (Mbuf h) s = Ok s' /\ inv s' k (q ++ [(h, f)]) /\ same_rest s s' /\ sent s' = sent s.
Proof.
  intros [Il Ik Ie If Ifs Ih Iq In Ii] Hq Hhm Hnull Hf Hk Hs He Hni. unfold eth_input. rewrite Ih. destruct (last q) as [[g x]|] eqn:El.
  - assert (exists h0 f0 q0, q = (h0, f0) :: q0) as (h0 & f0 & q0 & Eq) by (destruct q as [|[h0 f0] q0]; [done|eauto]). assert (first q = Mbuf h0) as -> by (by rewrite Eq).
    destruct (append_ok s (Mbuf h) q Ii (S NMBUF) 0%nat h0 f0) as (g' & x' & El' & ->); [by rewrite Eq|pose proof (few q In ltac:(intros ? ? Hm; apply Iq in Hm; tauto)); lia|]. assert (g' = g /\ x' = x) as [-> ->] by (split; congruence). clear El'.
    assert ((g, x) ∈ q) as Hgx by (by apply last_Some_elem_of in El). destruct (Iq g x Hgx) as ((gm & gd & gb & Hgm & Grest) & _ & Hkg & Hsg & Heg). rewrite (upd_at g gm) by done. eexists. split; [reflexivity|].
    assert (g <> h) as Hgh by (intros ->; apply Hni, list_elem_of_fmap; by exists (h, x)). rewrite last_lookup in El. pose proof (lookup_lt_Some _ _ _ El) as Hlt.
    split; [|done]. split; cbn [set_mbufs mbufs free_mbuf eth_input_queue]; [by rewrite length_insert|done|done|done| |by rewrite Ih, Eq| | |].
    + intros i Hi. destruct (Ifs i Hi) as (m & Hm & H). exists m. rewrite list_lookup_insert_ne by lia. done.
    + intros h' f' Hm. apply elem_of_app in Hm as [Hm|Hm].
      * destruct (Iq h' f' Hm) as (H1 & H2). split; [by apply queued_nextpkt|done].
      * apply list_elem_of_singleton in Hm. injection Hm as -> ->. split; [by apply queued_nextpkt|]. done.
    + rewrite fmap_app. apply NoDup_app. split; [done|]. split; [|by apply NoDup_singleton]. intros y Hy Hy2. apply list_elem_of_singleton in Hy2. cbn in Hy2. by subst.
    + intros i h' f' Hi. pose proof (lookup_lt_Some _ _ _ Hgm) as Hgl. destruct (decide (i < length q)%nat) as [Hlt2|Hge].
      * rewrite lookup_app_l in Hi by done. destruct (decide (i = pred (length q))) as [->|Hne].
        -- assert (h' = g) as -> by congruence. exists (w_nextpkt (Mbuf h) gm). split; [by apply list_lookup_insert_eq|]. rewrite drop_app_ge by lia. replace (S (pred (length q)) - length q)%nat with 0%nat by lia. done.
        -- destruct (Ii i h' f' Hi) as (m & Hm & Hx). exists m. split.
           ++ rewrite list_lookup_insert_ne; [done|]. intros <-. apply Hne. apply (NoDup_lookup q.*1 i (pred (length q)) g); [done|by rewrite list_lookup_fmap, Hi|by rewrite list_lookup_fmap, El].
           ++ rewrite Hx, drop_app_le by lia. destruct (drop (S i) q) as [|[h1 f1] d] eqn:Ed; [|done]. apply (f_equal length) in Ed. rewrite length_drop in Ed. cbn in Ed. lia.
      * rewrite lookup_app_r in Hi by lia. destruct (i - length q)%nat eqn:Ei; [|done]. injection Hi as -> ->. exists hm. split; [by rewrite list_lookup_insert_ne|]. rewrite drop_ge by (rewrite length_app; cbn; lia). done.
  - apply last_None in El. subst q. cbn [first]. erewrite upd_at by (cbn [set_queue mbufs]; exact Hhm). eexists. split; [reflexivity|]. split; [|done]. cbn [app]. pose proof (lookup_lt_Some _ _ _ Hhm) as Hl.
    split; cbn [set_mbufs set_queue mbufs free_mbuf eth_input_queue]; [by rewrite length_insert|done|done|done| |done| | |].
    + intros i Hi. destruct (Ifs i Hi) as (m & Hm & H). exists m. rewrite list_lookup_insert_ne by lia. done.
    + intros h' f' Hm. apply list_elem_of_singleton in Hm. injection Hm as -> ->. split; [by apply queued_nextpkt|done].
    + apply NoDup_singleton.
    + intros [|i] h' f' Hi; [|done]. injection Hi as -> ->. exists (w_nextpkt Null hm). split; [by apply list_lookup_insert_eq|done].
Qed.

Lemma agree_trans s1 s2 s3 : agree s1 s2 -> agree s2 s3 -> agree s1 s3.
Proof. intros (A1 & A2 & A3 & (A4 & A5 & A6) & A7) (B1 & B2 & B3 & (B4 & B5 & B6) & B7). unfold agree, same_rest. split_and!; congruence. Qed.

(** The invariant does not depend on mbufs that are neither free nor queued. *)
Lemma inv_frame s s' k k' q : inv s k q -> (k' <= k)%nat -> (exists j, k' = 2 * j)%nat -> length (mbufs s') = length (mbufs s) -> free_mbuf s' = top k' -> eth_input_queue s' = eth_input_queue s ->
  (forall i, (i < k')%nat -> mbufs s' !! i = mbufs s !! i) -> (forall h f, (h, f) ∈ q -> mbufs s' !! h = mbufs s !! h /\ mbufs s' !! S h = mbufs s !! S h) -> inv s' k' q.
Proof.
  intros [Il Ik Ie If Ifs Ih Iq In Ii] Hk He Hl Hf Hq H1 H2. split; [congruence|lia|done|done| |congruence| |done|].
  - intros i Hi. unfold free_at. rewrite H1 by done. apply Ifs. lia.
  - intros h f Hm. destruct (Iq h f Hm) as ((hm & dm & b & H) & Hs & Hkh & Hr). destruct (H2 h f Hm) as [E1 E2]. split; [|split; [done|split; [lia|done]]]. exists hm, dm, b. by rewrite E1, E2.
  - intros i h f Hi. destruct (H2 h f) as [E1 _]; [by apply list_elem_of_lookup_2 in Hi|]. rewrite E1. exact (Ii i h f Hi).
Qed.

Lemma frame_queued s k q f : inv s k q -> (2 <= k)%nat -> short f -> exists s', receive f s = Ok s' /\ inv s' (k - 2) (q ++ [((k - 2)%nat, f)]) /\ same_rest s s' /\ sent s' = sent s.
Proof.
  intros Hinv Hk Hf. pose proof Hinv as [Il Ik [j Ej] If Ifs Ih Iq In Ii]. unfold NMBUF in *. destruct k as [|[|k]]; [lia|lia|]. replace (S (S k) - 2)%nat with k by lia. destruct (Ifs (S k) ltac:(lia)) as (m0 & Hm0 & N0 & X0 & D0 & L0). destruct (Ifs k ltac:(lia)) as (h0 & Hh0 & Nh & Xh & Dh & Lh). cbn [top] in *.
  unfold receive. destruct (mget_step s (S k) m0 If Hm0) as (s1 & -> & G1 & O1 & L1 & F1 & Q1 & R1 & T1). cbn [cbind]. destruct (upd_step (S k) _ (fun m => w_len (Z.of_nat (length f)) (w_type MT_DATA m)) s1 G1) as (s2 & -> & G2 & O2 & A2). cbn [cbind].
  destruct Hf as [Hb Hlen]. rewrite decide_True by (unfold MLEN; lia). destruct (upd_step (S k) _ (w_data (InBuf (S k))) s2 G2) as (s3 & -> & G3 & O3 & A3). cbn [cbind at_]. rewrite G3. cbn [deref cbind w_data w_len w_type w_next m_databuf].
  rewrite store_splice by (done || (unfold fits; lia)). cbn [cbind]. destruct (upd_step (S k) _ (w_buf (splice (m_databuf m0) 0 f)) s3 G3) as (s4 & -> & G4 & O4 & A4). cbn [cbind]. pose proof (agree_trans _ _ _ (agree_trans _ _ _ A2 A3) A4) as (B1 & B2 & B3 & B4 & B5).
  assert (mbufs s4 !! k = Some h0) as Hh4 by (rewrite O4, O3, O2, O1 by lia; done). destruct (mget_step s4 k h0) as (s5 & -> & G5 & O5 & L5 & F5 & Q5 & R5 & T5); [rewrite B2, F1; exact N0|done|]. cbn [cbind].
  destruct (upd_step k _ (fun m => w_len 3 (w_type MT_IFADDR m)) s5 G5) as (s6 & -> & G6 & O6 & A6). cbn [cbind at_]. rewrite G6. cbn [deref cbind w_len w_type w_next m_data]. rewrite Dh. cbn [store_ptr]. rewrite decide_False by (unfold NMBUF; lia).
  assert (mbufs s6 !! S k = Some (MB Null (m_nextpkt m0) (Z.of_nat (length f)) (InBuf (S k)) MT_DATA (m_flags m0) (splice (m_databuf m0) 0 f))) as G6' by (rewrite O6, O5 by lia; exact G4).
  destruct (upd_step (S k) _ (w_next Dev) s6 G6') as (s7 & -> & G7 & O7 & A7). cbn [cbind]. assert (mbufs s7 !! k = Some (MB Null (m_nextpkt h0) 3 (m_data h0) MT_IFADDR (m_flags h0) (m_databuf h0))) as G7' by (rewrite O7 by lia; exact G6).
  destruct (upd_step k _ (w_next (Mbuf (S k))) s7 G7') as (s8 & -> & G8 & O8 & A8). cbn [cbind]. pose proof (agree_trans _ _ _ (agree_trans _ _ _ A6 A7) A8) as (C1 & C2 & C3 & C4 & C5).
  assert (forall x, x <> k -> x <> S k -> mbufs s8 !! x = mbufs s !! x) as Hoth by (intros x Hx1 Hx2; rewrite O8, O7, O6, O5, O4, O3, O2, O1 by lia; done).
  assert (inv s8 k q) as Hinv8.
  { apply (inv_frame s s8 (S (S k)) k q Hinv); [lia|exists (j - 1)%nat; lia|congruence|rewrite C2, F5, Nh; done|congruence|intros i Hi; apply Hoth; lia|]. intros h f' Hm. destruct (Iq h f' Hm) as (_ & _ & Hkh & _). split; apply Hoth; lia. }
  destruct (enqueue_ok s8 k q k f (MB (Mbuf (S k)) (m_nextpkt h0) 3 (m_data h0) MT_IFADDR (m_flags h0) (m_databuf h0)) Hinv8) as (s9 & E & H9 & (R9 & R9' & R9'') & T9).
  - eexists _, _, (m_databuf m0). split; [exact G8|]. split; [done|]. split; [done|]. rewrite O8 by lia. split; [exact G7|]. done.
  - exact G8.
  - exact Xh.
  - by split.
  - lia.
  - unfold NMBUF. lia.
  - exists (j - 1)%nat. lia.
  - intros Hin. apply list_elem_of_fmap in Hin as ([h f'] & -> & Hm). destruct (Iq h f' Hm) as (_ & _ & Hkh & _). cbn in Hkh. lia.
  - exists s9. split; [exact E|]. split; [done|]. destruct R1 as (? & ? & ?), B4 as (? & ? & ?), R5 as (? & ? & ?), C4 as (? & ? & ?). unfold same_rest. split_and!; congruence.
Qed.

Lemma mput_step i m s : mbufs s !! i = Some m -> exists s', mput (Mbuf i) s = Ok s' /\ (forall j, j <> i -> mbufs s' !! j = mbufs s !! j) /\ agree s s'.
Proof.
  intros H. pose proof (lookup_lt_Some _ _ _ H) as Hl. eexists. split; [by apply mput_ok|]. cbn [set_mbufs mbufs]. split; [intros j Hj; by apply list_lookup_insert_ne|]. unfold agree, same_rest. cbn. by rewrite length_insert.
Qed.

(** ** Answers *)

Definition is_prot (prots : list Z) (f : list Z) : bool := existsb (fun n => bool_decide (slice f 12 2 = be16 n)) prots.
(** The address of the server that a frame asks for. *)
Definition asks (s : net) (f : list Z) : option (list Z) := if is_prot (protlist s) f then find (fun a => bool_decide (a = slice f 38 4)) (iflist s) else None.
Definition reply (mac addr f : list Z) : list Z :=
  slice f 6 6 ++ mac ++ be16 ETH_PROT_ARP ++ be16 1 ++ be16 ETH_PROT_IP ++ [6; 4] ++ be16 ETH_ARP_OP_REPLY ++ mac ++ addr ++ slice f 6 6 ++ slice f 28 4.
(** The addresses of the card and of the interfaces. *)
Definition addresses (s : net) : Prop := bytes (dev_addr s) /\ length (dev_addr s) = 6%nat /\ Forall (fun a => bytes a /\ length a = 4%nat) (iflist s).

Lemma reply_bytes mac addr f : bytes mac -> length mac = 6%nat -> bytes addr -> length addr = 4%nat -> short f -> bytes (reply mac addr f) /\ length (reply mac addr f) = 42%nat.
Proof.
  intros Bm Lm Ba La [Bf Lf]. assert (forall p n, bytes (slice f p n)) as Bs by (intros p n; by apply slice_bytes). split.
  - assert (forall x, 0 <= x < 65536 -> bytes (be16 x)) as B16 by (intros x Hx; unfold be16; constructor; [split; [apply Z.div_pos; lia|apply Z.div_lt_upper_bound; lia]|constructor; [apply Z.mod_pos_bound; lia|constructor]]).
    assert (bytes [6; 4]) as B64 by (constructor; [lia|constructor; [lia|constructor]]). unfold reply, bytes. rewrite !Forall_app. split_and!; first [apply Bs|exact Bm|exact Ba|exact B64|apply B16; unfold ETH_PROT_ARP, ETH_PROT_IP, ETH_ARP_OP_REPLY; lia].
  - unfold reply. rewrite !length_app, !length_slice by (unfold fits; lia). rewrite Lm, La. reflexivity.
Qed.

Lemma answer_ok b f addr mac : length b = 108%nat -> short f -> answer (splice b 0 f) addr mac = Ok (reply mac addr f).
Proof. intros Hb [Bf Lf]. unfold answer. rewrite !fetch_splice_in by ((unfold fits; lia) || lia). reflexivity. Qed.

Lemma reply_sent s rh r hm rm b l : mbufs s !! rh = Some hm -> m_next hm = Mbuf r -> mbufs s !! r = Some rm -> m_data rm = InBuf r -> m_len rm = 60 -> m_databuf rm = splice b 0 l -> length b = 108%nat -> length l = 42%nat -> r <> rh ->
  exists s' pad, send (Mbuf rh) s = Ok s' /\ length pad = 18%nat /\ sent s' = sent s ++ [l ++ pad] /\ (forall j, j <> r -> j <> rh -> mbufs s' !! j = mbufs s !! j) /\
    length (mbufs s') = length (mbufs s) /\ free_mbuf s' = free_mbuf s /\ eth_input_queue s' = eth_input_queue s /\ same_rest s s'.
Proof.
  intros Hh Hn Hr Hd Hl Hb Lb Ll Hne. unfold send. cbn [at_]. rewrite Hh. cbn [deref cbind]. rewrite Hn. cbn [at_]. rewrite Hr. cbn [deref cbind]. unfold packet. rewrite Hd. cbn [at_]. rewrite Hr. cbn [deref cbind]. rewrite Hl, Hb. change (Z.to_nat 60) with 60%nat.
  rewrite fetch_ok by (unfold fits; rewrite length_splice by (unfold fits; lia); lia). cbn [cbind]. set (l' := slice (splice b 0 l) 0 60). assert (l' = l ++ take 18 (drop 42 b)) as El.
  { unfold l', slice, splice. change (Z.to_nat 0) with 0%nat. rewrite take_0, drop_0, Ll. cbn [app Nat.add]. rewrite firstn_app, Ll, firstn_all2 by lia. done. }
  destruct (mput_step r rm (add_sent l' s)) as (s1 & -> & O1 & (A1 & A2 & A3 & (A4 & A5 & A6) & A7)); [exact Hr|]. cbn [cbind]. destruct (mput_step rh hm s1) as (s2 & -> & O2 & (B1 & B2 & B3 & (B4 & B5 & B6) & B7)); [rewrite O1 by done; exact Hh|].
  exists s2, (take 18 (drop 42 b)). split; [done|]. split; [rewrite length_take, length_drop; lia|]. split; [rewrite B7, A7; cbn; by rewrite El|]. split; [intros j Hj1 Hj2; by rewrite O2, O1|]. unfold same_rest. cbn in *. split_and!; congruence.
Qed.

(** ** A turn of the thread *)

Lemma dequeue s k h f q : inv s k ((h, f) :: q) -> exists hm, mbufs s !! h = Some hm /\ eth_input_queue s = Mbuf h /\ inv (set_queue (m_nextpkt hm) s) k q.
Proof.
  intros [Il Ik Ie If Ifs Ih Iq In Ii]. destruct (Ii 0%nat h f eq_refl) as (hm & Hm & Hx). exists hm. split; [done|]. split; [done|]. cbn [drop] in Hx. split; try done.
  - intros h' f' Hin. apply Iq. by right.
  - apply NoDup_cons in In. tauto.
  - intros i h' f' Hi. exact (Ii (S i) h' f' Hi).
Qed.

Lemma turn_quiet s k h f q : inv s k ((h, f) :: q) -> asks s f = None -> exists s', turn s = Ok s' /\ inv s' k q /\ same_rest s s' /\ sent s' = sent s.
Proof.
  intros Hinv Ha. destruct (dequeue s k h f q Hinv) as (hm & Hm & Hq & Hinv1). destruct (iv_queued _ _ _ Hinv h f) as ((hm' & dm & b & H1 & H2 & H3 & H4 & H5 & H6 & H7 & H8) & [Bf Lf] & _); [left|]. assert (hm' = hm) as -> by congruence.
  exists (set_queue (m_nextpkt hm) s). split; [|done]. unfold turn. rewrite Hq. cbn [at_]. rewrite Hm. cbn [deref cbind]. rewrite H2. cbn [at_ set_queue mbufs]. rewrite H4. cbn [deref cbind]. unfold packet. rewrite H6. cbn [at_ set_queue mbufs]. rewrite H4. cbn [deref cbind]. rewrite H7, fetch_splice_in by ((unfold fits; lia) || lia). cbn [cbind protlist set_queue].
  unfold asks in Ha. change (existsb (fun n => bool_decide (slice f 12 2 = be16 n)) (protlist s)) with (is_prot (protlist s) f). destruct (is_prot (protlist s) f); [|done]. cbn [Is_true]. rewrite decide_True by done. unfold arp_input. cbn [at_ set_queue mbufs]. rewrite Hm. cbn [deref cbind]. rewrite H2. cbn [at_ set_queue mbufs]. rewrite H4. cbn [deref cbind]. unfold packet. rewrite H6. cbn [at_ set_queue mbufs]. rewrite H4. cbn [deref cbind].
  rewrite H7, fetch_splice_in by ((unfold fits; lia) || lia). cbn [cbind iflist set_queue]. by rewrite Ha.
Qed.

(** The thread up to the call of arp_input. *)
Lemma turn_arp s k h f q addr : inv s k ((h, f) :: q) -> asks s f = Some addr -> exists hm, mbufs s !! h = Some hm /\ turn s = arp_input (Mbuf h) (set_queue (m_nextpkt hm) s) /\ inv (set_queue (m_nextpkt hm) s) k q /\ queued (mbufs s) h f /\
  short f /\ (k <= h)%nat /\ (S h < NMBUF)%nat /\ find (fun a => bool_decide (a = slice f 38 4)) (iflist s) = Some addr /\ forall h' f', (h', f') ∈ q -> h' <> h /\ S h' <> h /\ h' <> S h.
Proof.
  intros Hinv Ha. destruct (dequeue s k h f q Hinv) as (hm & Hm & Hq & Hinv1). destruct (iv_queued _ _ _ Hinv h f) as (Hqu & [Bf Lf] & Hk & Hs & [j Ej]); [left|]. pose proof Hqu as (hm' & dm & b & H1 & H2 & H3 & H4 & H5 & H6 & H7 & H8). assert (hm' = hm) as -> by congruence.
  unfold asks in Ha. destruct (is_prot (protlist s) f) eqn:Ep; [|done]. exists hm. split; [done|]. split.
  - unfold turn. rewrite Hq. cbn [at_]. rewrite Hm. cbn [deref cbind]. rewrite H2. cbn [at_ set_queue mbufs]. rewrite H4. cbn [deref cbind]. unfold packet. rewrite H6. cbn [at_ set_queue mbufs]. rewrite H4. cbn [deref cbind]. rewrite H7, fetch_splice_in by ((unfold fits; lia) || lia). cbn [cbind protlist set_queue].
    change (existsb (fun n => bool_decide (slice f 12 2 = be16 n)) (protlist s)) with (is_prot (protlist s) f). by rewrite Ep, decide_True.
  - split; [done|]. split; [done|]. split; [done|]. split; [done|]. split; [done|]. split; [done|]. intros h' f' Hin. destruct (iv_queued _ _ _ Hinv h' f') as (_ & _ & _ & _ & [j' Ej']); [by right|]. pose proof (iv_nodup _ _ _ Hinv) as Hn. apply NoDup_cons in Hn as [Hn _].
    split; [|lia]. intros ->. apply Hn, list_elem_of_fmap. by exists (h, f').
Qed.

Lemma arp_ok s k h f q hm addr : inv s k q -> (2 <= k)%nat -> mbufs s !! h = Some hm -> queued (mbufs s) h f -> short f -> (k <= h)%nat -> (S h < NMBUF)%nat -> find (fun a => bool_decide (a = slice f 38 4)) (iflist s) = Some addr ->
  (forall h' f', (h', f') ∈ q -> h' <> h /\ S h' <> h /\ h' <> S h) -> addresses s ->
  exists s' pad, arp_input (Mbuf h) s = Ok s' /\ inv s' (k - 2) q /\ same_rest s s' /\ length pad = 18%nat /\ sent s' = sent s ++ [reply (dev_addr s) addr f ++ pad].
Proof.
  intros Hinv Hk2 Hm (hm' & dm & b & H1 & H2 & H3 & H4 & H5 & H6 & H7 & H8) Hf Hk Hs Hfind Hq (Bd & Ld & Hifs). assert (hm' = hm) as -> by congruence. pose proof Hf as [Bf Lf]. pose proof Hinv as [Il Ik [j Ej] If Ifs Ih Iq In Ii].
  assert (bytes addr /\ length addr = 4%nat) as [Ba La] by (apply find_some in Hfind as [Hin _]; rewrite Forall_forall in Hifs; apply Hifs; by apply list_elem_of_In). destruct (reply_bytes (dev_addr s) addr f Bd Ld Ba La Hf) as [Br Lr].
  destruct k as [|[|k]]; [lia|lia|]. replace (S (S k) - 2)%nat with k by lia. destruct (Ifs (S k) ltac:(lia)) as (m0 & Hm0 & N0 & X0 & D0 & L0). destruct (Ifs k ltac:(lia)) as (r0 & Hr0 & Nr & Xr & Dr & Lr0). cbn [top] in *.
  unfold arp_input. cbn [at_]. rewrite Hm. cbn [deref cbind]. rewrite H2. cbn [at_]. rewrite H4. cbn [deref cbind]. unfold packet at 1. rewrite H6. cbn [at_]. rewrite H4. cbn [deref cbind]. rewrite H7, fetch_splice_in by ((unfold fits; lia) || lia). cbn [cbind]. rewrite Hfind, H3. cbn [load_ptr]. rewrite decide_False by lia. cbn [at_]. rewrite H4. cbn [deref cbind]. rewrite H5.
  destruct (mget_step s (S k) m0 If Hm0) as (s1 & -> & G1 & O1 & L1 & F1 & Q1 & R1 & T1). cbn [cbind]. assert (mbufs s1 !! k = Some r0) as Hr1 by (rewrite O1 by lia; done). destruct (mget_step s1 k r0) as (s2 & -> & G2 & O2 & L2 & F2 & Q2 & R2 & T2); [by rewrite F1|done|]. cbn [cbind].
  assert (mbufs s2 !! S k = Some (w_next Null m0)) as G2' by (rewrite O2 by lia; done). destruct (upd_step (S k) _ (w_next (Mbuf k)) s2 G2') as (s3 & -> & G3 & O3 & A3). cbn [cbind]. assert (mbufs s3 !! k = Some (w_next Null r0)) as G3' by (rewrite O3 by lia; done).
  destruct (upd_step k _ (w_data (InBuf k)) s3 G3') as (s4 & -> & G4 & O4 & A4). cbn [cbind]. pose proof (agree_trans _ _ _ A3 A4) as (C1 & C2 & C3 & (C4 & C5 & C6) & C7). destruct R1 as (R1a & R1b & R1c), R2 as (R2a & R2b & R2c).
  replace (dev_addr s4) with (dev_addr s) by congruence. rewrite answer_ok by done. cbn [cbind at_]. rewrite G4. cbn [deref cbind w_data w_next m_databuf]. rewrite store_splice by (done || (unfold fits; lia)). cbn [cbind].
  destruct (upd_step k _ (fun m => w_len 60 (w_buf (splice (m_databuf r0) 0 (reply (dev_addr s) addr f)) m)) s4 G4) as (s5 & -> & G5 & O5 & (E1 & E2 & E3 & (E4 & E5 & E6) & E7)). cbn [cbind]. assert (mbufs s5 !! S k = Some (w_next (Mbuf k) (w_next Null m0))) as G5' by (rewrite O5, O4 by lia; done).
  destruct (reply_sent s5 (S k) k _ _ (m_databuf r0) (reply (dev_addr s) addr f) G5' eq_refl G5 eq_refl eq_refl eq_refl Lr0 Lr ltac:(lia)) as (s6 & pad & -> & Lp & T6 & O6 & L6 & F6 & Q6 & (R6a & R6b & R6c)). cbn [cbind].
  assert (forall x, x <> k -> x <> S k -> mbufs s6 !! x = mbufs s !! x) as Hoth by (intros x Hx1 Hx2; rewrite O6, O5, O4, O3, O2, O1 by lia; done). rewrite Hoth by lia. rewrite Hm. cbn [deref cbind]. rewrite H2.
  destruct (mput_step (S h) dm s6) as (s7 & -> & O7 & (P1 & P2 & P3 & (P4 & P5 & P6) & P7)); [rewrite Hoth by lia; done|]. cbn [cbind]. destruct (mput_step h hm s7) as (s8 & -> & O8 & (V1 & V2 & V3 & (V4 & V5 & V6) & V7)); [rewrite O7, Hoth by lia; done|].
  exists s8, pad. split; [done|]. split.
  - apply (inv_frame s s8 (S (S k)) k q Hinv); [lia|exists (j - 1)%nat; lia|congruence|rewrite V2, P2, F6, E2, C2, F2; exact Nr|congruence|intros i Hi; rewrite O8, O7, Hoth by lia; done|].
    intros h' f' Hin. destruct (Hq h' f' Hin) as (Q1' & Q2' & Q3'). destruct (Iq h' f' Hin) as (_ & _ & Hkh & _). split; rewrite O8, O7, Hoth by lia; done.
  - unfold same_rest. split_and!; congruence.
Qed.

Lemma arp_dry s h f q hm addr : inv s 0 q -> mbufs s !! h = Some hm -> queued (mbufs s) h f -> short f -> (S h < NMBUF)%nat -> find (fun a => bool_decide (a = slice f 38 4)) (iflist s) = Some addr -> arp_input (Mbuf h) s = Fault.
Proof.
  intros Hinv Hm (hm' & dm & b & H1 & H2 & H3 & H4 & H5 & H6 & H7 & H8) [Bf Lf] Hs Hfind. assert (hm' = hm) as -> by congruence. unfold arp_input. cbn [at_]. rewrite Hm. cbn [deref cbind]. rewrite H2. cbn [at_]. rewrite H4. cbn [deref cbind]. unfold packet at 1. rewrite H6. cbn [at_]. rewrite H4. cbn [deref cbind].
  rewrite H7, fetch_splice_in by ((unfold fits; lia) || lia). cbn [cbind]. rewrite Hfind, H3. cbn [load_ptr]. rewrite decide_False by lia. cbn [at_]. rewrite H4. cbn [deref cbind]. rewrite H5, mget_dry by (exact (iv_free _ _ _ Hinv)). done.
Qed.

(** ** The server *)

(** The card delivers a frame, or the thread runs; it waits while the queue is empty. *)
Inductive op := Recv (f : list Z) | Turn.
Definition step (s : net) (o : op) : cres net :=
  match o with Recv f => receive f s | Turn => match eth_input_queue s with Null => Ok s | _ => turn s end end.
Fixpoint run (s : net) (l : list op) : cres net := match l with [] => Ok s | o :: l => let! s := step s o in run s l end.

(** What the server should do: a queue of frames, answers, and a number of mbufs. *)
Record spec := Spec { left_ : nat; waiting : list (list Z); answers : list (list Z) }.
Definition sstep (s0 : net) (x : spec) (o : op) : option spec :=
  match o with
  | Recv f => if decide (left_ x = 0%nat) then None else Some (Spec (left_ x - 2) (waiting x ++ [f]) (answers x))
  | Turn =>
      match waiting x with
      | [] => Some x
      | f :: q =>
          match asks s0 f with
          | None => Some (Spec (left_ x) q (answers x))
          | Some addr => if decide (left_ x = 0%nat) then None else Some (Spec (left_ x - 2) q (answers x ++ [reply (dev_addr s0) addr f]))
          end
      end
  end.
Fixpoint srun (s0 : net) (x : spec) (l : list op) : option spec := match l with [] => Some x | o :: l => match sstep s0 x o with Some x => srun s0 x l | None => None end end.

Record rep (s0 s : net) (x : spec) : Prop := {
  rp_q : exists q, inv s (left_ x) q /\ q.*2 = waiting x;
  rp_rest : same_rest s0 s;
  rp_sent : map (take 42) (sent s) = answers x;
  rp_len : Forall (fun l => length l = 60%nat) (sent s)
}.

Definition good_op (o : op) : Prop := match o with Recv f => short f | Turn => True end.

Lemma asks_same s0 s f : same_rest s0 s -> asks s f = asks s0 f.
Proof. intros (E1 & E2 & _). unfold asks. by rewrite E1, E2. Qed.

Lemma server_step s0 s x o : addresses s0 -> rep s0 s x -> good_op o -> match sstep s0 x o with Some x' => exists s', step s o = Ok s' /\ rep s0 s' x' | None => step s o = Fault end.
Proof.
  intros Ha [(q & Hinv & Eq) Hr Hs Hl] Ho. assert (addresses s) as Ha' by (destruct Hr as (_ & E2 & E3); unfold addresses; rewrite E2, E3; exact Ha). destruct o as [f|]; cbn [sstep step].
  - destruct (decide (left_ x = 0%nat)) as [E0|E0].
    + rewrite E0 in Hinv. unfold receive. by rewrite mget_dry by (exact (iv_free _ _ _ Hinv)).
    + destruct (iv_even _ _ _ Hinv) as [j Ej]. destruct (frame_queued s (left_ x) q f Hinv ltac:(lia) Ho) as (s' & -> & Hinv' & R' & T'). exists s'. split; [done|]. split; cbn [left_ waiting answers]; [exists (q ++ [((left_ x - 2)%nat, f)]); split; [done|]; by rewrite fmap_app, Eq| |by rewrite T'|by rewrite T'].
      destruct Hr as (? & ? & ?), R' as (? & ? & ?). unfold same_rest. split_and!; congruence.
  - rewrite <- Eq. destruct q as [|[h f] q]; cbn [fmap list_fmap snd].
    + exists s. rewrite (iv_head _ _ _ Hinv). cbn [first]. split; [done|]. split; [by exists []|done|done|done].
    + rewrite (iv_head _ _ _ Hinv). cbn [first]. rewrite <- (asks_same s0 s f Hr). destruct (asks s f) as [addr|] eqn:Eas.
      * destruct (turn_arp s _ h f q addr Hinv Eas) as (hm & Hm & -> & Hinv1 & Hqu & Hf & Hk & Hsh & Hfind & Hq). destruct (decide (left_ x = 0%nat)) as [E0|E0].
        -- rewrite E0 in Hinv1. by apply (arp_dry _ h f q hm addr).
        -- destruct (iv_even _ _ _ Hinv) as [j Ej]. destruct (arp_ok _ (left_ x) h f q hm addr Hinv1 ltac:(lia) Hm Hqu Hf Hk Hsh Hfind Hq Ha') as (s' & pad & -> & Hinv' & R' & Lp & T'). exists s'. split; [done|]. cbn [set_queue dev_addr sent] in T'. destruct Hr as (R1 & R2 & R3), R' as (R4 & R5 & R6). cbn in R4, R5, R6.
           destruct Ha' as (Bd & Ld & Hifs). assert (bytes addr /\ length addr = 4%nat) as [Ba La] by (apply find_some in Hfind as [Hin _]; rewrite Forall_forall in Hifs; apply Hifs; by apply list_elem_of_In). destruct (reply_bytes (dev_addr s) addr f Bd Ld Ba La Hf) as [_ Lr].
           split; cbn [left_ waiting answers]; [by exists q|unfold same_rest; split_and!; congruence| |].
           ++ rewrite T', map_app, Hs. cbn [map]. rewrite <- Lr, take_app_length, R3. done.
           ++ rewrite T'. apply Forall_app. split; [done|]. constructor; [rewrite length_app; lia|constructor].
      * destruct (turn_quiet s _ h f q Hinv Eas) as (s' & -> & Hinv' & R' & T'). exists s'. split; [done|]. split; cbn [left_ waiting answers]; [by exists q| |by rewrite T'|by rewrite T']. destruct Hr as (? & ? & ?), R' as (? & ? & ?). unfold same_rest. split_and!; congruence.
Qed.

Lemma server_init junk prots ifs addr : (forall i, length (junk i) = 108%nat) -> let s0 := mbinit junk prots ifs addr in rep s0 s0 (Spec NMBUF [] []).
Proof.
  intros Hj s0. split; [exists []; split; [|done]|done|done|constructor]. assert (forall i, (i < NMBUF)%nat -> mbufs s0 !! i = Some (MB (top i) Null MLEN (Behind i) MT_FREE 0 (junk i))) as Hl.
  { intros i Hi. unfold s0, mbinit. cbn [mbufs]. rewrite list_lookup_fmap, lookup_seq_lt by done. done. }
  split; try done; [by exists 16%nat| |intros h f Hm; by apply elem_of_nil in Hm|constructor]. intros i Hi. unfold free_at. rewrite (Hl i Hi). eexists. split; [reflexivity|]. split_and!; try done. apply Hj.
Qed.

(** The network server: whatever frames of at most 107 bytes the card delivers and whenever
  the thread runs, each ARP frame for an address of the server is answered with its address,
  in order, and nothing else is sent, as long as mbufs are left; every frame uses up two of
  them, and two more if it is answered, and the first one that finds none stops the server. *)
Theorem net_serves junk prots ifs addr ops : let s0 := mbinit junk prots ifs addr in (forall i, length (junk i) = 108%nat) -> addresses s0 -> Forall good_op ops ->
  match srun s0 (Spec NMBUF [] []) ops with
  | Some x => exists s, run s0 ops = Ok s /\ map (take 42) (sent s) = answers x /\ Forall (fun l => length l = 60%nat) (sent s)
  | None => run s0 ops = Fault
  end.
Proof.
  intros s0 Hj Ha Hops. pose proof (server_init junk prots ifs addr Hj) as Hrep. fold s0 in Hrep. cbv zeta in Hrep. enough (forall l x s, rep s0 s x -> Forall good_op l -> match srun s0 x l with Some x' => exists s', run s l = Ok s' /\ rep s0 s' x' | None => run s l = Fault end) as H.
  { specialize (H ops _ _ Hrep Hops). destruct (srun s0 _ ops) as [x|]; [|done]. destruct H as (s & E & [_ _ H1 H2]). by exists s. }
  induction l as [|o l IH]; intros x s Hr Hl; cbn [srun run]; [by exists s|]. inversion_clear Hl as [|? ? Ho Hl']. pose proof (server_step s0 s x o Ha Hr Ho) as Hst. destruct (sstep s0 x o) as [x'|]; [|by rewrite Hst]. destruct Hst as (s' & -> & Hr'). cbn [cbind]. by apply IH.
Qed.

Definition is_recv (o : op) : bool := match o with Recv _ => true | Turn => false end.

(** No sequence with more than sixteen frames is survived. *)
Theorem net_runs_dry s0 ops : (16 < length (filter is_recv ops))%nat -> srun s0 (Spec NMBUF [] []) ops = None.
Proof.
  assert (forall l x, (exists j, left_ x = 2 * j)%nat -> (left_ x < 2 * length (filter is_recv l))%nat -> srun s0 x l = None) as H.
  { induction l as [|o l IH]; intros x [j Hj] Hlt; [cbn in Hlt; lia|]. cbn [srun]. rewrite filter_cons in Hlt. destruct o as [f|]; cbn [sstep].
    - rewrite decide_True in Hlt by done. cbn [length] in Hlt. destruct (decide (left_ x = 0%nat)); [done|]. apply IH; cbn [left_]; [exists (j - 1)%nat; lia|lia].
    - rewrite decide_False in Hlt by (intros Hc; exact Hc). destruct (waiting x) as [|f q]; [by apply IH; [exists j|]|]. destruct (asks s0 f); [|apply IH; cbn [left_]; [by exists j|done]]. destruct (decide (left_ x = 0%nat)); [done|]. apply IH; cbn [left_]; [exists (j - 1)%nat; lia|lia]. }
  intros Hn. apply H; [by exists 16%nat|cbn [left_]; unfold NMBUF; lia].
Qed.

(** A request from 10.0.0.2 for 10.0.0.1 is answered; the ninth one finds no mbuf. *)
Definition request : list Z := replicate 6 255 ++ [0; 1; 2; 3; 4; 5] ++ be16 ETH_PROT_ARP ++ be16 1 ++ be16 ETH_PROT_IP ++ [6; 4] ++ be16 1 ++ [0; 1; 2; 3; 4; 5] ++ [10; 0; 0; 2] ++ replicate 6 0 ++ [10; 0; 0; 1] ++ replicate 18 0.
Definition server : net := mbinit (fun _ => replicate 108 0) [ETH_PROT_ARP] [[10; 0; 0; 1]] [8; 0; 32; 1; 2; 3].
Example request_answered : exists s, run server [Recv request; Turn] = Ok s /\
  sent s = [[0; 1; 2; 3; 4; 5] ++ [8; 0; 32; 1; 2; 3] ++ [8; 6; 0; 1; 8; 0; 6; 4; 0; 2] ++ [8; 0; 32; 1; 2; 3] ++ [10; 0; 0; 1] ++ [0; 1; 2; 3; 4; 5] ++ [10; 0; 0; 2] ++ replicate 18 0].
Proof. eexists. split; vm_compute; reflexivity. Qed.
Example ninth_request : srun server (Spec NMBUF [] []) (concat (replicate 8 [Recv request; Turn])) <> None /\ srun server (Spec NMBUF [] []) (concat (replicate 9 [Recv request; Turn])) = None.
Proof. split; vm_compute; [congruence|reflexivity]. Qed.

End NetProof.
